(* ===== verification/_CoqProject ===== *)
-Q . S2P
Prelude.v
Mm.v
TaggedPtr.v
CString.v
Allocator.v
NameIndex.v
IpcSerial.v
Refcount.v
ThreadStatus.v
Ebr.v
Message.v
Asid.v
SpinLock.v
MsQueue.v
Pmm.v
ListH.v
PmmInit.v
Buddy.v
RbTree.v
RbInsert.v
RbRemove.v
KernelPages.v
Kmalloc.v
KmallocInv.v
KmallocSpec.v
MsqSeq.v
IpcState.v
Ipc.v
IpcSpec.v
IpcRendezvous.v
IpcWait.v
Port.v
PortGate.v
PortSpec.v
PageTable.v
PageTree.v
MapHandler.v
MapInv.v
MapSpec.v
MapCopy.v
RadixTree.v
RadixOps.v
RadixWalk.v
RadixSpec.v
RadixCount.v
MmUser.v
MmUserLaws.v
MmUserSim.v
MmUserSpec.v
PageSlice.v
PageSliceTree.v
PageSliceLinks.v
PageSliceWalk.v
PageSliceGrow.v
PageSliceInsert.v
PageSliceRemove.v
PageSliceShrink.v
PageSliceDestroy.v
PageSliceSpec.v
PageSliceCopy.v
PageSliceBytes.v
PageSliceClone.v
PageSliceCopySpec.v
Timer.v
TimerQueue.v
TimerIrq.v
TimerIpc.v
TimerSpec.v
Sched.v
SchedTurn.v
SchedQueue.v
SchedSpec.v
PortCache.v
PortCacheSpec.v
