(* ===== verification/Prelude.v ===== *)
(** * RendezvOS core: verification library (root file)

    A model of the kernel core of RendezvOS (the C code under [src/kernel] and
    [src/include]) with the theorems that say it is correct.  This file holds
    the shared notations, integer casts, error codes, lemmas and tactics; the
    rest of this comment documents the whole library.

    ** How the code is modelled

    A C integer of width [w] is a [Z] kept in range by the casts [u8] .. [u64],
    [i32], [i64] wherever the C type truncates; [NULL] is [0]; an error is the
    negated code of [rendezvos/error.h].  A structure is a [Record] with the
    source's field names, memory is a map from addresses to structures, and a
    pointer is its address.  A function that changes memory takes the state
    and returns the new one; early returns are nested conditionals in the
    order of the code.  A loop takes fuel and its theorem says which fuel is
    enough; where running out of fuel is visible the result is an [option],
    and [None] is a call that has not returned.  Code that runs on several
    CPUs at once is modelled a second time, or only, as a step relation whose
    steps are the single accesses to shared memory (sequentially consistent).

    ** Parts, files and sources

    Basic routines.  Mm: [common/bit.h], [align.h], [mm.h].  TaggedPtr:
    [common/taggedptr.h].  CString: [mm/string.c].  ListH: [dsa/list.h], which
    justifies reading an intrusive list as a sequence everywhere else.
    Refcount: [common/refcount.h].  Asid: [dsa/bitmap.h], [mm/asid.c],
    [task/id.c].  Allocator: the interface [mm/allocator.h] as a class
    [Allocator] with its laws; clients of the heap are proved against it.

    Concurrency.  SpinLock: [sync/spin_lock.h] and [cas_lock.h].  MsQueue:
    [dsa/ms_queue.h] one memory access at a time; MsqSeq: the same code run by
    one caller to its end, which is how IPC uses it.  Ebr: [task/ebr.c], its
    functions and the interleaving of readers with reclamation.

    Physical memory.  PmmInit: the region table and zone set-up of
    [mm/pmm.c]; Pmm: zones, sections and frame counts of [mm/pmm.h]; Buddy:
    [mm/buddy_pmm.c].  PmmInit produces the sections on which Pmm and Buddy
    work.

    Kernel heap.  RbTree, RbInsert, RbRemove: [dsa/rb_tree.h] and the page
    index built on it; KernelPages: whole pages, taken from a frame allocator,
    a radix tree and page tables reached through the class [VSpaceOps];
    Kmalloc, KmallocInv, KmallocSpec: the objects, groups and page runs of
    [mm/kmalloc.c].

    Registry and IPC.  NameIndex: [registry/name_index.c].  IpcSerial:
    [ipc/ipc_serial.c].  Message: [ipc/message.c] and [ipc/kmsg.c].  IpcState:
    the fields and accessors of threads, requests and ports ([task/thread.h],
    [ipc/port.h]), with the thread states of ThreadStatus.  Ipc: [ipc/ipc.c]; IpcSpec, IpcRendezvous, IpcWait: what it
    guarantees.  Port and PortSpec: [ipc/port.c], a NameIndex whose hooks move
    ports through their life; PortGate: closing a port while calls run.

    Page tables.  PageTable: the entries of [arch/x86_64/mm/vmm.c] and its
    headers; PageTree: what tables in memory say about an address and how a
    store changes it; MapHandler: all of [mm/map_handler.c]; MapInv, MapSpec,
    MapCopy: its invariant and what its operations promise.  [phys] is physical
    memory, [wtab] the last table of the mapping window, [translate] the
    hardware's walk; frames come from the class [FrameOps].

    Address-space bookkeeping.  RadixTree: the words, walks and range locks of
    [mm/vmm_radix_tree.c]; RadixOps: its operations on ranges of leaves,
    searches, creation and teardown; RadixWalk: the tree a reader sees and what
    a walk visits; RadixSpec: reserving, binding, unbinding and querying;
    RadixCount: occupancy counts.  [ents] and [nodes] are the memory of the
    tables, [rmaps] the reverse maps of the pages; frames and page tables come
    from the class [RadixEnv].

    User ranges.  MmUser: [mm/mm_user_utils.c], which fills, empties and
    re-flags ranges over the radix tree, the page tables and the frame allocator
    and undoes what a failure leaves; MmUserLaws: the promises of the three
    layers it relies on, as a class; MmUserSim: three finite maps that keep
    them; MmUserSpec: all or nothing.

    Page slices.  PageSlice: [mm/page_slice.c] and its header; PageSliceTree,
    PageSliceLinks: what makes its tree well-formed and what each store does to
    it; PageSliceWalk, PageSliceGrow, PageSliceInsert, PageSliceRemove,
    PageSliceShrink, PageSliceDestroy: one file per stage of its operations;
    PageSliceSpec: the slice as a map from page offsets to pages; PageSliceCopy:
    [mm/page_slice_copy.c], with PageSliceBytes (bytes moved between pages),
    PageSliceClone (the deep copy) and PageSliceCopySpec.  [words] and
    [leaves] are the memory of index and leaf pages; the heap comes from the
    class [PageHeap], whose pages are zeroed as [kalloc] does.

    Time.  Timer: [time/time.c] and [time.h], the event queue as a red-black
    tree of deadlines with a ring of events for each; TimerQueue: the queue as
    one sequence sorted by deadline; TimerIrq: the interrupt as a function on
    that sequence and why it ends; TimerIpc: delivery of an event through
    Port and Ipc; TimerSpec: adding, removing, the interrupt, and units of
    time.  The counter is a stream of readings [clock]; the deadlines written
    to the timer hardware are logged in [armed]; ports are the class
    [TimerPorts].

    Scheduling.  Sched: [task/task_manager.c], and from [task/thread_boot.c]
    and [task/thread.c] how threads enter and leave a run queue; SchedTurn: the
    ring as a cyclic order, the accounting of address spaces and what one
    [schedule] does to both; SchedQueue: the run queues; SchedSpec: choice,
    fairness, release of address spaces, deletion.  [ring] is the memory of the
    list nodes, [loaded] the translation registers of each CPU, [switches] the
    log of context switches.

    Names.  PortCache: the cache of port names that each thread keeps
    ([task/thread.c]), on top of Port; PortCacheSpec: it is not observable.

    ** What the theorems show

    Data structures implement their abstract counterpart: a queue is a
    first-in first-out sequence under every interleaving, a red-black tree a
    sorted sequence of logarithmic depth, the name index a partial map from
    names to values, an intrusive list a sequence, the kernel heap a set of
    disjoint blocks.  Resources are conserved: frames, pages and references
    are given back on every error path that the theorems cover.  Nothing is
    used after it was released: the counts of Refcount, MsQueue and Ebr.
    Locks exclude, and a lock that is requested is eventually granted to
    somebody.  Encodings round-trip.  A rendezvous delivers exactly one
    message to exactly one waiter, a port never holds waiters of both sides,
    and a port that was closed has no call running in it.
    Mapping and unmapping change the translation of exactly the pages asked
    for, and lookups agree with the hardware's walk. Binding a
    reserved range to frames and unbinding it is undone exactly on failure.
    A user range is filled, emptied and re-flagged completely or not at all.
    A page slice is a map from offsets to pages, and destroying one leaks
    nothing.
    The timer interrupt fires the due events in the order of their deadlines,
    loses none, and ends when the counter is slow against its loop.
    The scheduler lets every thread that stays ready run, and an address space
    is released only when no thread and no CPU uses it.  Caching port names
    changes no result.
    Where the code does not do what it means to, an [Example] evaluates the
    model on the concrete input that shows it.

    ** Bounds and fuel

    Red-black descents get fuel 256; a tree of [n] nodes needs at most
    [2 * log2 (n + 1)], proved in RbRemove, and 64-bit keys allow no tree that
    needs more than 130.  [run_op] of MsqSeq runs 64 steps; a queue operation
    without a competitor takes at most two rounds of its loop.  The loops of Ipc
    and Port consume one waiter a round, so the number of waiters plus one is
    enough.  The string loops need one round per byte plus one.  The retry loop
    of the frame allocator is bounded by the constant of the code, 64.  Loops
    over a range of pages take one unit per page, copies one per byte at most.
    The tree of a page slice has at most four levels, hence its fuel 4; its
    clone gets 2^29 rounds of which it needs at most 134,743,041.

    ** Assumptions

    [schedule] is a function on the IPC state: what other threads do until
    the caller runs again.  Hook tables of ports, the frame allocator, radix
    tree and page tables below KernelPages, and the architecture's map and
    cache operations are parameters, with laws stated as classes or hypotheses
    where a theorem needs them.  An object handed to [ebr_retire_ref] is
    logged in [retired] and destroyed by [run_retired]; that this is safe is
    the theorem of Ebr.

    ** Not modelled

    Architecture code (boot, traps, timer chips, page-table formats, context
    switch), device drivers, log output, PCI, ACPI, device tree and ELF
    loading: register-level I/O or formats of other projects.  Tests, docs and
    build scripts.
    Of the kernel: creation, copying and loading of threads ([task/thread.c] but
    for the port cache and deletion, [thread_loader.c]), traps and interrupts, processor start-up and
    inter-processor calls, calibration of the delay loop, system calls, creation
    and cloning of address spaces ([mm/vmm.c], [mm/mm_kernel_utils.c]).  Filling
    one reserved page and remapping a page (MmUser), the teardown of page tables, the
    initialisation of the window, and the range locks, searches and teardown of
    the radix tree are definitions without theorems.  The radix tree is
    sequential: a lock bit that is taken blocks for ever. *)
From Stdlib Require Export ZArith Lia.
From stdpp Require Export base gmap list strings numbers option functions relations.

#[global] Open Scope Z_scope.
#[global] Set Default Goal Selector "!".
#[global] Generalizable All Variables.

(** ** Machine integers

    A C integer of width [w] is a [Z] in range; every place where the C type
    truncates is written with one of the casts below. *)

Definition wrap (w z : Z) : Z := z mod 2 ^ w.

Definition swrap (w z : Z) : Z := (z + 2 ^ (w - 1)) mod 2 ^ w - 2 ^ (w - 1).

(** typedefs of [common/types.h] read as casts *)
Definition u8 (z : Z) : Z := wrap 8 z.
Definition u16 (z : Z) : Z := wrap 16 z.
Definition u32 (z : Z) : Z := wrap 32 z.
Definition u64 (z : Z) : Z := wrap 64 z.
Definition i32 (z : Z) : Z := swrap 32 z.
Definition i64 (z : Z) : Z := swrap 64 z.

(** bitwise complement at width [w] *)
Definition bnot (w z : Z) : Z := Z.lxor (wrap w z) (2 ^ w - 1).

Definition U64_MAX : Z := 2 ^ 64 - 1.
Definition U16_MAX : Z := 2 ^ 16 - 1.
Definition SIZE_MAX : Z := 2 ^ 64 - 1.
Definition NULL : Z := 0.

(** ** Error codes of [rendezvos/error.h]; functions return [0] or the negation. *)
Definition REND_SUCCESS : Z := 0.
Definition E_RENDEZVOS : Z := 1024.
Definition E_IN_PARAM : Z := 1025.
Definition E_REND_TEST : Z := 1026.
Definition E_REND_IPC : Z := 1027.
Definition E_REND_AGAIN : Z := 1028.
Definition E_REND_ABANDON : Z := 1029.
Definition E_REND_NO_MSG : Z := 1030.
Definition E_REND_RC_UNEQUAL : Z := 1031.
Definition E_REND_NOFOUND : Z := 1032.
Definition E_REND_OVERFLOW : Z := 1033.
Definition E_REND_NO_MEM : Z := 1034.
Definition E_REND_PORT_CLOSED : Z := 1035.

(** ** Generic lemmas *)

Create HintDb word discriminated.

Lemma wrap_range w z : 0 <= w -> 0 <= wrap w z < 2 ^ w.
Proof. intros. apply Z.mod_pos_bound. lia. Qed.

Lemma wrap_small w z : 0 <= z < 2 ^ w -> wrap w z = z.
Proof. intros. by apply Z.mod_small. Qed.

Lemma wrap_idem w z : 0 <= w -> wrap w (wrap w z) = wrap w z.
Proof. intros. apply wrap_small, wrap_range. done. Qed.

Lemma wrap_land w z : 0 <= w -> wrap w z = Z.land z (Z.ones w).
Proof. intros. unfold wrap. by rewrite Z.land_ones. Qed.

Lemma u8_range z : 0 <= u8 z < 256.
Proof. apply (wrap_range 8). lia. Qed.
Lemma u16_range z : 0 <= u16 z < 65536.
Proof. apply (wrap_range 16). lia. Qed.
Lemma u32_range z : 0 <= u32 z < 4294967296.
Proof. apply (wrap_range 32). lia. Qed.
Lemma u64_range z : 0 <= u64 z < 18446744073709551616.
Proof. apply (wrap_range 64). lia. Qed.

Lemma u8_small z : 0 <= z < 256 -> u8 z = z.
Proof. apply (wrap_small 8). Qed.
Lemma u16_small z : 0 <= z < 65536 -> u16 z = z.
Proof. apply (wrap_small 16). Qed.
Lemma u32_small z : 0 <= z < 4294967296 -> u32 z = z.
Proof. apply (wrap_small 32). Qed.
Lemma u64_small z : 0 <= z < 18446744073709551616 -> u64 z = z.
Proof. apply (wrap_small 64). Qed.
Lemma i64_small z : - 9223372036854775808 <= z < 9223372036854775808 -> i64 z = z.
Proof. intros. unfold i64, swrap. rewrite Z.mod_small; lia. Qed.
Lemma i32_small z : - 2147483648 <= z < 2147483648 -> i32 z = z.
Proof. intros. unfold i32, swrap. rewrite Z.mod_small; lia. Qed.

#[export] Hint Resolve u8_range u16_range u32_range u64_range : word.

(** Bit-level extensionality: reduce an equation between [Z] words to the
    pointwise equation of their bits. *)
Lemma testbit_wrap w z n :
  0 <= w -> 0 <= n -> Z.testbit (wrap w z) n = Z.testbit z n && (n <? w).
Proof.
  intros. rewrite wrap_land by done. rewrite Z.land_spec, Z.testbit_ones_nonneg by lia. done.
Qed.

Lemma testbit_bnot w z n :
  0 <= w -> 0 <= n -> Z.testbit (bnot w z) n = negb (Z.testbit z n) && (n <? w).
Proof.
  intros. unfold bnot. rewrite Z.lxor_spec, testbit_wrap by done.
  replace (2 ^ w - 1) with (Z.ones w) by (rewrite Z.ones_equiv; lia).
  rewrite Z.testbit_ones_nonneg by lia.
  destruct (Z.testbit z n), (n <? w); done.
Qed.

Lemma testbit_small w z n : 0 <= z < 2 ^ w -> w <= n -> Z.testbit z n = false.
Proof.
  intros Hz Hn. destruct (decide (z = 0)) as [->|]; [apply Z.bits_0|].
  apply Z.bits_above_log2; [lia|]. apply Z.log2_lt_pow2; [lia|].
  assert (0 <= w) by (destruct (decide (w < 0)); [rewrite Z.pow_neg_r in Hz by lia; lia | lia]).
  assert (2 ^ w <= 2 ^ n) by (apply Z.pow_le_mono_r; lia). lia.
Qed.

Lemma land_range k a b : 0 <= k -> 0 <= a < 2 ^ k -> 0 <= Z.land a b < 2 ^ k.
Proof.
  intros Hk Ha. replace (Z.land a b) with (wrap k (Z.land a b)); [by apply wrap_range|].
  rewrite wrap_land by done. rewrite (Z.land_comm a), <- Z.land_assoc, <- wrap_land by done.
  by rewrite wrap_small.
Qed.

Lemma land_mul_pow2_disjoint a b k :
  0 <= k -> 0 <= b < 2 ^ k -> Z.land (a * 2 ^ k) b = 0.
Proof.
  intros Hk Hb. apply Z.bits_inj'. intros n Hn. rewrite Z.land_spec, Z.bits_0.
  destruct (decide (n < k)).
  - rewrite Z.mul_pow2_bits_low by lia. done.
  - rewrite (testbit_small k b) by lia. apply andb_false_r.
Qed.

Lemma lor_add_disjoint a b k :
  0 <= k -> 0 <= b < 2 ^ k -> Z.lor (a * 2 ^ k) b = a * 2 ^ k + b.
Proof.
  intros. rewrite <- Z.lxor_lor by by apply land_mul_pow2_disjoint.
  symmetry. apply Z.add_nocarry_lxor. by apply land_mul_pow2_disjoint.
Qed.

Lemma shiftr_range z k w : 0 <= k <= w -> 0 <= z < 2 ^ w -> 0 <= Z.shiftr z k < 2 ^ (w - k).
Proof.
  intros. rewrite Z.shiftr_div_pow2 by lia. split; [apply Z.div_pos; lia|].
  apply Z.div_lt_upper_bound; [lia|]. rewrite <- Z.pow_add_r by lia.
  replace (k + (w - k)) with w by lia. lia.
Qed.

(** Case analysis on the boolean integer tests of the code. *)
Ltac case_bool :=
  match goal with
  | |- context [Z.eqb ?a ?b] => destruct (Z.eqb_spec a b)
  | |- context [Z.ltb ?a ?b] => destruct (Z.ltb_spec a b)
  | |- context [Z.leb ?a ?b] => destruct (Z.leb_spec a b)
  | |- context [Nat.eqb ?a ?b] => destruct (Nat.eqb_spec a b)
  | |- context [Nat.ltb ?a ?b] => destruct (Nat.ltb_spec a b)
  | |- context [Nat.leb ?a ?b] => destruct (Nat.leb_spec a b)
  end; cbn [andb orb negb]; try lia; try done.

Ltac bool_hyps :=
  repeat match goal with
  | H : (_ && _)%bool = true |- _ => apply andb_prop in H as [? ?]
  | H : (_ || _)%bool = false |- _ => apply orb_false_elim in H as [? ?]
  | H : negb _ = true |- _ => apply negb_true_iff in H
  | H : negb _ = false |- _ => apply negb_false_iff in H
  | H : Z.eqb _ _ = true |- _ => apply Z.eqb_eq in H
  | H : Z.eqb _ _ = false |- _ => apply Z.eqb_neq in H
  | H : Z.ltb _ _ = true |- _ => apply Z.ltb_lt in H
  | H : Z.ltb _ _ = false |- _ => apply Z.ltb_ge in H
  | H : Z.leb _ _ = true |- _ => apply Z.leb_le in H
  | H : Z.leb _ _ = false |- _ => apply Z.leb_gt in H
  end.

(** [lia] after replacing [/] and [mod] by their defining equations. *)
Ltac dlia := Z.to_euclidean_division_equations; lia.

(** ** Counting list elements *)

Fixpoint countp {A} (P : A -> bool) (l : list A) : Z :=
  match l with [] => 0 | x :: l' => Z.b2z (P x) + countp P l' end.

Lemma countp_app {A} (P : A -> bool) l1 l2 : countp P (l1 ++ l2) = countp P l1 + countp P l2.
Proof. induction l1 as [|x l1 IH]; cbn [countp app]; lia. Qed.

Lemma countp_range {A} (P : A -> bool) l : 0 <= countp P l <= Z.of_nat (length l).
Proof. induction l as [|x l IH]; cbn [countp length]; [lia|]. destruct (P x); cbn [Z.b2z]; lia. Qed.

Lemma countp_insert {A} (P : A -> bool) (l : list A) i x y :
  l !! i = Some y -> countp P (<[i:=x]> l) = countp P l - Z.b2z (P y) + Z.b2z (P x).
Proof.
  revert i. induction l as [|z l IH]; intros [|i] H; cbn in H; simplify_eq; cbn [countp insert list_insert].
  - lia.
  - rewrite IH by done. lia.
Qed.

Lemma countp_lookup_pos {A} (P : A -> bool) (l : list A) i x :
  l !! i = Some x -> P x = true -> 0 < countp P l.
Proof.
  revert i. induction l as [|z l IH]; intros [|i] H Hp; cbn in H; simplify_eq; cbn [countp].
  - rewrite Hp. pose proof (countp_range P l). cbn [Z.b2z]. lia.
  - specialize (IH i H Hp). destruct (P z); cbn [Z.b2z]; lia.
Qed.

Lemma countp_zero {A} (P : A -> bool) (l : list A) :
  countp P l = 0 -> forall i x, l !! i = Some x -> P x = false.
Proof.
  intros H i x Hx. destruct (P x) eqn:E; [|done]. pose proof (countp_lookup_pos P l i x Hx E). lia.
Qed.

Lemma countp_all {A} (P : A -> bool) (l : list A) :
  (forall i x, l !! i = Some x -> P x = true) -> countp P l = Z.of_nat (length l).
Proof.
  induction l as [|z l IH]; intros H; [done|]. cbn [countp length].
  rewrite (H 0%nat z) by done. rewrite IH; [cbn [Z.b2z]; lia|]. intros i x. apply (H (S i)).
Qed.

Lemma countp_none {A} (P : A -> bool) (l : list A) :
  (forall i x, l !! i = Some x -> P x = false) -> countp P l = 0.
Proof.
  induction l as [|z l IH]; intros H; [done|]. cbn [countp].
  rewrite (H 0%nat z) by done. rewrite IH; [done|]. intros i x. apply (H (S i)).
Qed.

(** ** Total lookups at [Z] indices *)

Lemma lookup_total_Z {A} `{Inhabited A} (l : list A) (i : Z) :
  0 <= i < Z.of_nat (length l) -> l !! Z.to_nat i = Some (l !!! Z.to_nat i).
Proof. intros. apply list_lookup_lookup_total_lt. lia. Qed.

Lemma insert_total_eq_Z {A} `{Inhabited A} (l : list A) (i : Z) x :
  0 <= i < Z.of_nat (length l) -> <[Z.to_nat i := x]> l !!! Z.to_nat i = x.
Proof. intros. apply list_lookup_total_insert_eq. lia. Qed.

Lemma insert_total_ne_Z {A} `{Inhabited A} (l : list A) (i j : Z) x :
  0 <= i -> 0 <= j -> i <> j -> <[Z.to_nat i := x]> l !!! Z.to_nat j = l !!! Z.to_nat j.
Proof. intros. apply list_lookup_total_insert_ne. lia. Qed.

(** ** Functions updated at one argument *)

Lemma fn_insert_case {A B} `{EqDecision A} (f : A -> B) i j x :
  (<[i := x]> f) j = if decide (i = j) then x else f j.
Proof. done. Qed.

Lemma fn_insert_same {A B} `{EqDecision A} (f : A -> B) i x : (<[i := x]> f) i = x.
Proof. by rewrite fn_insert_case, decide_True. Qed.

Lemma fn_insert_other {A B} `{EqDecision A} (f : A -> B) i j x : i <> j -> (<[i := x]> f) j = f j.
Proof. intros. by rewrite fn_insert_case, decide_False. Qed.

(** an [nsteps] run of at most [bound] steps keeps a step-indexed invariant *)
Lemma nsteps_invariant {S} (R : S -> S -> Prop) (I : Z -> S -> Prop) (bound : Z) :
  (forall n s s', 0 <= n < bound -> I n s -> R s s' -> I (n + 1) s') ->
  forall k s s' n, nsteps R k s s' -> I n s -> 0 <= n -> n + Z.of_nat k <= bound -> I (n + Z.of_nat k) s'.
Proof.
  intros Hstep k s s' n Hs. revert n. induction Hs as [s|k s s1 s' Hst _ IH]; intros n Hi Hn Hk.
  { by rewrite Z.add_0_r. }
  replace (n + Z.of_nat (Datatypes.S k)) with (n + 1 + Z.of_nat k) by lia.
  apply IH; [|lia|lia]. eapply Hstep; [|done|done]. lia.
Qed.

(** ** Sums over lists *)

Fixpoint sumZ {A} (f : A -> Z) (l : list A) : Z :=
  match l with [] => 0 | x :: l' => f x + sumZ f l' end.

Lemma sumZ_insert {A} (f : A -> Z) (l : list A) i x y :
  l !! i = Some y -> sumZ f (<[i:=x]> l) = sumZ f l - f y + f x.
Proof.
  revert i. induction l as [|z l IH]; intros [|i] H; cbn in H; simplify_eq; cbn [sumZ insert list_insert].
  - lia.
  - rewrite IH by done. lia.
Qed.

Lemma sumZ_ge {A} (f : A -> Z) (l : list A) i x :
  (forall y, 0 <= f y) -> l !! i = Some x -> 0 <= sumZ f l - f x.
Proof.
  intros Hf. assert (H0 : forall l, 0 <= sumZ f l).
  { induction l0 as [|z l0 IH]; cbn [sumZ]; [lia|]. pose proof (Hf z). lia. }
  revert i. induction l as [|z l IH]; intros [|i] H; cbn in H; simplify_eq; cbn [sumZ].
  - pose proof (H0 l). lia.
  - specialize (IH i H). pose proof (Hf z). lia.
Qed.

Lemma sumZ_zero {A} (f : A -> Z) (l : list A) : (forall y, y ∈ l -> f y = 0) -> sumZ f l = 0.
Proof.
  induction l as [|z l IH]; intros H; [done|]. cbn [sumZ]. rewrite (H z) by left. rewrite IH; [done|].
  intros y Hy. apply H. by right.
Qed.
