(* ===== verification/Mm.v ===== *)
(** * Bit, alignment and address arithmetic

    [include/common/bit.h], [include/common/align.h] and
    [include/common/mm.h]: mask macros, [ROUND_UP]/[ROUND_DOWN], page and
    page-table indices, [log2_of_next_power_of_two]. *)
From S2P Require Import Prelude.

(** ** bit.h *)
Definition BIT_U64 (n : Z) : Z := u64 (Z.shiftl 1 n).
Definition set_mask_u64 (w m : Z) : Z := Z.lor (u64 w) (u64 m).
Definition clear_mask_u64 (w m : Z) : Z := Z.land (u64 w) (bnot 64 m).
Definition set_bit_u64 (w n : Z) : Z := set_mask_u64 w (BIT_U64 n).
Definition clear_bit_u64 (w n : Z) : Z := clear_mask_u64 w (BIT_U64 n).
Definition BCD_TO_BIN (bcd_code : Z) : Z :=
  Z.land bcd_code 0xF + 10 * Z.land (Z.shiftr bcd_code 4) 0xF.

(** ** align.h, at the width of [u64] *)
Definition ROUND_UP (x align : Z) : Z :=
  Z.land (u64 (x + u64 (align - 1))) (bnot 64 (u64 (align - 1))).
Definition ROUND_DOWN (x align : Z) : Z := Z.land x (bnot 64 (u64 (align - 1))).
Definition ALIGNED (x align : Z) : bool := Z.land x (u64 (align - 1)) =? 0.

(** [rendezvos/limits.h], where the build does not set a lower [NR_CPUS] *)
Definition RENDEZVOS_MAX_CPU_NUMBER : Z := 128.

(** ** mm.h *)
Definition PAGE_SIZE : Z := 0x1000.
Definition MIDDLE_PAGE_SIZE : Z := 0x200000.
Definition MIDDLE_PAGES : Z := 0x200.
Definition GIGAN_PAGE_SIZE : Z := 0x40000000.
Definition HUGE_PAGE_SIZE : Z := 0x8000000000.
Definition mask_9_bit : Z := 0x1ff.
Definition L0_INDEX (addr : Z) : Z := Z.land (Z.shiftr (u64 addr) 39) mask_9_bit.
Definition L1_INDEX (addr : Z) : Z := Z.land (Z.shiftr (u64 addr) 30) mask_9_bit.
Definition L2_INDEX (addr : Z) : Z := Z.land (Z.shiftr (u64 addr) 21) mask_9_bit.
Definition L3_INDEX (addr : Z) : Z := Z.land (Z.shiftr (u64 addr) 12) mask_9_bit.

(** [ppn_t] is [i64]: negative values are error codes. *)
Definition invalid_ppn (ppn : Z) : bool := i64 ppn <? 0.
Definition PPN (p_addr : Z) : Z := Z.shiftr (u64 p_addr) 12.
Definition VPN (v_addr : Z) : Z := Z.shiftr (u64 v_addr) 12.
Definition PADDR (ppn : Z) : Z := u64 (Z.shiftl (i64 ppn) 12).
Definition VADDR (vpn : Z) : Z := u64 (Z.shiftl (u64 vpn) 12).

Definition PAGE_ENTRY_NONE : Z := Z.shiftl 1 0.
Definition PAGE_ENTRY_VALID : Z := Z.shiftl 1 1.
Definition PAGE_ENTRY_WRITE : Z := Z.shiftl 1 2.
Definition PAGE_ENTRY_READ : Z := Z.shiftl 1 3.
Definition PAGE_ENTRY_EXEC : Z := Z.shiftl 1 4.
Definition PAGE_ENTRY_USER : Z := Z.shiftl 1 5.
Definition PAGE_ENTRY_DEVICE : Z := Z.shiftl 1 6.
Definition PAGE_ENTRY_UNCACHED : Z := Z.shiftl 1 7.
Definition PAGE_ENTRY_GLOBAL : Z := Z.shiftl 1 8.
Definition PAGE_ENTRY_HUGE : Z := Z.shiftl 1 9.
Definition PAGE_ENTRY_LAZY : Z := Z.shiftl 1 61.
Definition PAGE_ENTRY_COW : Z := Z.shiftl 1 62.
Definition PAGE_ENTRY_REMAP : Z := Z.shiftl 1 63.

Definition entry_flags_rm_sw_flags (f : Z) : Z :=
  clear_mask_u64 f (Z.lor PAGE_ENTRY_REMAP (Z.lor PAGE_ENTRY_LAZY PAGE_ENTRY_COW)).

Definition is_final_level_pt (entry_level flags : Z) : bool :=
  (negb (Z.land flags PAGE_ENTRY_HUGE =? 0) && ((entry_level =? 1) || (entry_level =? 2)))
  || (entry_level =? 3).

(** [if (n >> s) { exponent += s; n >>= s; }] *)
Definition log2_step (s : Z) (st : Z * Z) : Z * Z :=
  let '(exponent, n) := st in
  if negb (Z.shiftr n s =? 0) then (u32 (exponent + s), Z.shiftr n s) else (exponent, n).

Definition log2_of_next_power_of_two (n : Z) : Z :=
  if n =? 0 then 0
  else
    let n := u32 (n - 1) in
    let '(exponent, n) :=
      log2_step 1 (log2_step 2 (log2_step 4 (log2_step 8 (log2_step 16 (0, n))))) in
    u32 (exponent + n).

(** ** Lemmas *)

Lemma bnot_pow2_low k x :
  0 <= k < 64 -> 0 <= x < 2 ^ 64 -> Z.land x (bnot 64 (u64 (2 ^ k - 1))) = x - x mod 2 ^ k.
Proof.
  intros Hk Hx. unfold u64. rewrite wrap_small.
  2:{ assert (2 ^ k < 2 ^ 64) by (apply Z.pow_lt_mono_r; lia). lia. }
  replace (2 ^ k - 1) with (Z.ones k) by (rewrite Z.ones_equiv; lia).
  transitivity (Z.shiftl (Z.shiftr x k) k).
  - apply Z.bits_inj'. intros n Hn. rewrite Z.land_spec, testbit_bnot by lia.
    rewrite Z.testbit_ones_nonneg, Z.shiftl_spec by lia.
    destruct (Z.ltb_spec n k); simpl.
    + rewrite andb_false_r, Z.testbit_neg_r by lia. done.
    + rewrite Z.shiftr_spec by lia. replace (n - k + k) with n by lia.
      destruct (Z.ltb_spec n 64); [by rewrite andb_true_r|].
      rewrite (testbit_small 64 x) by lia. done.
  - rewrite Z.shiftl_mul_pow2, Z.shiftr_div_pow2 by lia.
    pose proof (Z.div_mod x (2 ^ k)). lia.
Qed.

Lemma ROUND_DOWN_spec k x :
  0 <= k < 64 -> 0 <= x < 2 ^ 64 -> ROUND_DOWN x (2 ^ k) = x - x mod 2 ^ k.
Proof. apply bnot_pow2_low. Qed.

Lemma ROUND_UP_spec k x :
  0 <= k < 64 -> 0 <= x -> x + (2 ^ k - 1) < 2 ^ 64 ->
  ROUND_UP x (2 ^ k) = (x + (2 ^ k - 1)) / 2 ^ k * 2 ^ k.
Proof.
  intros Hk Hx Ho. unfold ROUND_UP. assert (0 < 2 ^ k) by lia.
  assert (2 ^ k < 2 ^ 64) by (apply Z.pow_lt_mono_r; lia).
  rewrite (u64_small (2 ^ k - 1)) at 1 by lia.
  rewrite u64_small by lia. rewrite bnot_pow2_low by lia.
  pose proof (Z.div_mod (x + (2 ^ k - 1)) (2 ^ k)). lia.
Qed.

Lemma ALIGNED_spec k x :
  0 <= k < 64 -> ALIGNED x (2 ^ k) = (x mod 2 ^ k =? 0).
Proof.
  intros Hk. unfold ALIGNED. assert (2 ^ k < 2 ^ 64) by (apply Z.pow_lt_mono_r; lia).
  rewrite u64_small by lia.
  replace (2 ^ k - 1) with (Z.ones k) by (rewrite Z.ones_equiv; lia).
  by rewrite Z.land_ones by lia.
Qed.

Lemma land_mask_9_bit x : Z.land x mask_9_bit = x mod 2 ^ 9.
Proof. change mask_9_bit with (Z.ones 9). by rewrite Z.land_ones by lia. Qed.

Lemma PPN_PADDR ppn : 0 <= ppn < 2 ^ 52 -> PPN (PADDR ppn) = ppn.
Proof.
  intros H. unfold PPN, PADDR. rewrite (i64_small ppn) by lia.
  rewrite Z.shiftl_mul_pow2 by lia. rewrite u64_small by (rewrite u64_small by lia; lia).
  rewrite u64_small by lia. rewrite Z.shiftr_div_pow2 by lia. by rewrite Z.div_mul by lia.
Qed.

Lemma PADDR_small ppn : 0 <= ppn < 2 ^ 52 -> PADDR ppn = ppn * 4096.
Proof.
  intros H. unfold PADDR. rewrite (i64_small ppn) by lia.
  rewrite Z.shiftl_mul_pow2 by lia. rewrite u64_small by lia. lia.
Qed.

Lemma PPN_small a : 0 <= a < 2 ^ 64 -> PPN a = a / 4096.
Proof. intros H. unfold PPN. rewrite u64_small by lia. by rewrite Z.shiftr_div_pow2 by lia. Qed.

(** One step of the ladder keeps [exponent + log2 n] and bounds [n]. *)
Lemma log2_step_inv s k e n :
  0 < s -> 0 < n < 2 ^ (2 * s) -> 0 <= e <= k -> k + s < 2 ^ 32 ->
  exists e' n', log2_step s (e, n) = (e', n') /\ 0 < n' < 2 ^ s /\
    0 <= e' <= k + s /\ e' + Z.log2 n' = e + Z.log2 n.
Proof.
  intros Hs Hn He Hk. unfold log2_step.
  assert (Hp : 2 ^ (2 * s) = 2 ^ s * 2 ^ s) by (rewrite <- Z.pow_add_r by lia; f_equal; lia).
  rewrite Z.shiftr_div_pow2 by lia. destruct (Z.eqb_spec (n / 2 ^ s) 0) as [Hz|Hz]; simpl.
  - exists e, n. split_and!; try lia; [done|].
    apply Z.div_small_iff in Hz; lia.
  - exists (u32 (e + s)), (n / 2 ^ s). rewrite u32_small by lia.
    assert (0 <= n / 2 ^ s) by (apply Z.div_pos; lia).
    assert (n / 2 ^ s < 2 ^ s) by (apply Z.div_lt_upper_bound; lia).
    split_and!; try lia; [done|].
    rewrite <- Z.shiftr_div_pow2, Z.log2_shiftr by lia.
    assert (s <= Z.log2 n); [|lia].
    apply Z.log2_le_pow2; [lia|].
    destruct (Z.lt_ge_cases n (2 ^ s)) as [Hl|]; [|lia].
    rewrite Z.div_small in Hz by lia. done.
Qed.

Lemma log2_ladder n :
  0 < n < 2 ^ 32 ->
  exists e, log2_step 1 (log2_step 2 (log2_step 4 (log2_step 8 (log2_step 16 (0, n))))) = (e, 1)
            /\ e = Z.log2 n.
Proof.
  intros H.
  destruct (log2_step_inv 16 0 0 n) as (e1 & n1 & -> & ? & ? & ?); [lia..|].
  destruct (log2_step_inv 8 16 e1 n1) as (e2 & n2 & -> & ? & ? & ?); [lia..|].
  destruct (log2_step_inv 4 24 e2 n2) as (e3 & n3 & -> & ? & ? & ?); [lia..|].
  destruct (log2_step_inv 2 28 e3 n3) as (e4 & n4 & -> & ? & ? & ?); [lia..|].
  destruct (log2_step_inv 1 30 e4 n4) as (e5 & n5 & -> & ? & ? & ?); [lia..|].
  assert (n5 = 1) as -> by lia. exists e5. split; [done|]. change (Z.log2 1) with 0 in *. lia.
Qed.

Lemma log2_of_next_power_of_two_log2_up n :
  0 < n < 2 ^ 32 -> log2_of_next_power_of_two n = Z.log2_up n.
Proof.
  intros H. unfold log2_of_next_power_of_two.
  destruct (Z.eqb_spec n 0); [lia|]. rewrite (u32_small (n - 1)) by lia.
  destruct (decide (n = 1)) as [->|Hn]; [reflexivity|].
  destruct (log2_ladder (n - 1)) as (e & -> & ->); [lia|].
  rewrite Z.log2_up_eqn by lia. replace (Z.pred n) with (n - 1) by lia.
  assert (Z.log2 (n - 1) < 32) by (apply Z.log2_lt_pow2; lia).
  pose proof (Z.log2_nonneg (n - 1)). by rewrite u32_small by lia.
Qed.

Lemma log2_of_next_power_of_two_bounds n :
  0 < n < 2 ^ 32 ->
  n <= 2 ^ log2_of_next_power_of_two n /\ (1 < n -> 2 ^ log2_of_next_power_of_two n < 2 * n).
Proof.
  intros H. rewrite log2_of_next_power_of_two_log2_up by done.
  destruct (decide (n = 1)) as [->|]; [change (Z.log2_up 1) with 0; lia|].
  pose proof (Z.log2_up_spec n ltac:(lia)) as [H1 H2].
  pose proof (Z.log2_up_pos n ltac:(lia)).
  split; [lia|]. intros _.
  replace (Z.log2_up n) with (Z.succ (Z.pred (Z.log2_up n))) by lia.
  rewrite Z.pow_succ_r by lia. lia.
Qed.
