(* ===== verification/TaggedPtr.v ===== *)
(** * Tagged pointers

    [include/common/taggedptr.h]: a canonical 48-bit pointer and a 16-bit tag
    packed in one [u64]; the append-state tag arithmetic and the field check
    of [include/common/dsa/ms_queue.h] that are built on it. *)
From S2P Require Import Prelude.

Definition TAG_BITS : Z := 16.
Definition ADDR_BITS : Z := 48.
Definition TAG_SHIFT : Z := ADDR_BITS.
Definition TAG_MASK : Z := Z.shiftl 1 TAG_BITS - 1.
Definition ADDR_MASK : Z := Z.shiftl 1 ADDR_BITS - 1.
Definition ADDR_SIGN_MASK : Z := Z.shiftl 1 (ADDR_BITS - 1).

(** [tagged_ptr_t] is a [u64]. *)
Definition tp_new_none : Z := 0.
Definition tp_is_none (tp : Z) : bool := tp =? 0.
Definition tp_new (ptr tag : Z) : Z :=
  let v := Z.lor 0 (Z.land (u64 ptr) ADDR_MASK) in
  Z.lor v (u64 (Z.shiftl (u64 (u16 tag)) TAG_SHIFT)).
Definition tp_get_ptr (tp : Z) : Z :=
  let raw_address := Z.land tp ADDR_MASK in
  if negb (Z.land raw_address ADDR_SIGN_MASK =? 0)
  then Z.lor raw_address (bnot 64 ADDR_MASK)
  else raw_address.
Definition tp_get_tag (tp : Z) : Z := u16 (Z.shiftr tp TAG_SHIFT).
Definition tp_set_ptr (tp new_ptr : Z) : Z :=
  Z.lor (Z.land tp (bnot 64 ADDR_MASK)) (Z.land (u64 new_ptr) ADDR_MASK).
Definition tp_set_tag (tp tag : Z) : Z :=
  Z.lor (Z.land tp (bnot 64 (u64 (Z.shiftl TAG_MASK TAG_SHIFT))))
        (u64 (Z.shiftl (u64 (u16 tag)) TAG_SHIFT)).

(** The queue's split of the tag: low [append_info_bits] bits of state, the
    rest an ABA counter ([msq_enqueue_check_tail]). *)
Definition msq_tag_step (append_info_bits : Z) : Z := u16 (Z.shiftl 1 append_info_bits).
Definition msq_append_info_mask (append_info_bits : Z) : Z :=
  u16 (msq_tag_step append_info_bits - 1).
Definition msq_tag_mask (append_info_bits : Z) : Z :=
  u16 (bnot 32 (msq_append_info_mask append_info_bits)).
Definition msq_next_tag (append_info_bits tag append_info : Z) : Z :=
  u16 (Z.lor (Z.land (tag + msq_tag_step append_info_bits) (msq_tag_mask append_info_bits))
             (Z.land append_info (msq_append_info_mask append_info_bits))).

Definition MSQ_CHECK_FIELD_PTR : Z := 1.
Definition MSQ_CHECK_FIELD_APPEND : Z := 2.
Definition msq_queue_check_tp (need_check_tp check_field_mask expect_tp append_info_mask : Z)
  : bool :=
  if negb (Z.land check_field_mask MSQ_CHECK_FIELD_PTR =? 0)
     && negb (tp_get_ptr need_check_tp =? tp_get_ptr expect_tp)
  then false
  else if negb (Z.land check_field_mask MSQ_CHECK_FIELD_APPEND =? 0)
          && negb (Z.land (tp_get_tag need_check_tp) append_info_mask
                   =? Z.land (tp_get_tag expect_tp) append_info_mask)
  then false
  else true.

(** A canonical address: bits 63..47 all equal. *)
Definition canonical (p : Z) : Prop :=
  0 <= p < 2 ^ 47 \/ 2 ^ 64 - 2 ^ 47 <= p < 2 ^ 64.

(** ** Arithmetic reading of the packing *)

Lemma ADDR_MASK_land x : Z.land x ADDR_MASK = x mod 2 ^ 48.
Proof. change ADDR_MASK with (Z.ones 48). by rewrite Z.land_ones by lia. Qed.

Lemma ADDR_high_land x :
  0 <= x < 2 ^ 64 -> Z.land x (bnot 64 ADDR_MASK) = x / 2 ^ 48 * 2 ^ 48.
Proof.
  intros Hx. change (bnot 64 ADDR_MASK) with (Z.shiftl (Z.ones 16) 48).
  rewrite <- Z.shiftr_div_pow2, <- Z.shiftl_mul_pow2 by lia.
  apply Z.bits_inj'. intros n Hn. rewrite Z.land_spec.
  destruct (Z.ltb_spec n 48).
  - rewrite !Z.shiftl_spec_low by lia. by rewrite andb_false_r.
  - rewrite !Z.shiftl_spec_high, Z.shiftr_spec, Z.testbit_ones_nonneg by lia.
    replace (n - 48 + 48) with n by lia.
    destruct (Z.ltb_spec (n - 48) 16); [by rewrite andb_true_r|].
    rewrite (testbit_small 64 x) by lia. done.
Qed.

Lemma tp_new_arith ptr tag : tp_new ptr tag = u16 tag * 2 ^ 48 + u64 ptr mod 2 ^ 48.
Proof.
  unfold tp_new. rewrite Z.lor_0_l, ADDR_MASK_land. unfold TAG_SHIFT, ADDR_BITS.
  pose proof (u16_range tag). rewrite (u64_small (u16 tag)) by lia.
  rewrite Z.shiftl_mul_pow2 by lia. rewrite (u64_small (u16 tag * 2 ^ 48)) by lia.
  rewrite Z.lor_comm. apply lor_add_disjoint; [lia|]. apply Z.mod_pos_bound. lia.
Qed.

Lemma tp_new_range ptr tag : 0 <= tp_new ptr tag < 2 ^ 64.
Proof.
  rewrite tp_new_arith. pose proof (u16_range tag).
  pose proof (Z.mod_pos_bound (u64 ptr) (2 ^ 48) ltac:(lia)). lia.
Qed.

Lemma tp_get_tag_arith tp : 0 <= tp < 2 ^ 64 -> tp_get_tag tp = tp / 2 ^ 48.
Proof.
  intros H. unfold tp_get_tag, TAG_SHIFT, ADDR_BITS. rewrite Z.shiftr_div_pow2 by lia.
  apply u16_small. split; [apply Z.div_pos; lia|]. apply Z.div_lt_upper_bound; lia.
Qed.

Lemma sign_bit_test r :
  0 <= r < 2 ^ 48 -> (Z.land r ADDR_SIGN_MASK =? 0) = (r <? 2 ^ 47).
Proof.
  intros Hr. change ADDR_SIGN_MASK with (2 ^ 47).
  assert (Hl : Z.land r (2 ^ 47) = if Z.testbit r 47 then 2 ^ 47 else 0).
  { apply Z.bits_inj'. intros n Hn. rewrite Z.land_spec, Z.pow2_bits_eqb by lia.
    destruct (Z.eqb_spec 47 n) as [<-|].
    - destruct (Z.testbit r 47); [by rewrite Z.pow2_bits_true by lia | by rewrite Z.bits_0].
    - rewrite andb_false_r. destruct (Z.testbit r 47); [|by rewrite Z.bits_0].
      by rewrite Z.pow2_bits_false by lia. }
  rewrite Hl.
  destruct (Z.ltb_spec r (2 ^ 47)) as [Hlt|Hge].
  - destruct (Z.testbit r 47) eqn:E; [|done].
    rewrite (testbit_small 47 r) in E by lia. done.
  - destruct (Z.testbit r 47) eqn:E; [done|].
    rewrite Z.testbit_false in E by lia.
    assert (Hq : r / 2 ^ 47 = 1); [|by rewrite Hq in E].
    symmetry. apply Z.div_unique with (r - 2 ^ 47); lia.
Qed.

Lemma tp_get_ptr_arith tp :
  tp_get_ptr tp = let r := tp mod 2 ^ 48 in if r <? 2 ^ 47 then r else r + (2 ^ 64 - 2 ^ 48).
Proof.
  unfold tp_get_ptr. rewrite ADDR_MASK_land. cbv zeta.
  pose proof (Z.mod_pos_bound tp (2 ^ 48) ltac:(lia)).
  rewrite sign_bit_test by lia. destruct (_ <? _) eqn:E; [done|]. simpl negb. cbn iota.
  change (bnot 64 ADDR_MASK) with ((2 ^ 16 - 1) * 2 ^ 48).
  rewrite Z.lor_comm, lor_add_disjoint by lia. lia.
Qed.

Lemma tp_get_ptr_canonical tp : canonical (tp_get_ptr tp).
Proof.
  rewrite tp_get_ptr_arith. cbv zeta. pose proof (Z.mod_pos_bound tp (2 ^ 48) ltac:(lia)).
  unfold canonical. case_bool.
Qed.

Lemma tp_get_ptr_of ptr tp :
  canonical ptr -> tp mod 2 ^ 48 = ptr mod 2 ^ 48 -> tp_get_ptr tp = ptr.
Proof.
  intros Hc He. rewrite tp_get_ptr_arith. cbv zeta. rewrite He. destruct Hc as [Hc|Hc].
  - rewrite Z.mod_small by lia. case_bool.
  - replace (ptr mod 2 ^ 48) with (ptr - (2 ^ 16 - 1) * 2 ^ 48).
    2:{ apply Z.mod_unique_pos with (2 ^ 16 - 1); lia. }
    case_bool.
Qed.

Lemma u64_mod48 p : u64 p mod 2 ^ 48 = p mod 2 ^ 48.
Proof.
  unfold u64, wrap. replace (2 ^ 64) with (2 ^ 48 * 2 ^ 16) by reflexivity.
  rewrite Z.rem_mul_r, Z.add_mod, Z.mod_mod, (Z.mul_comm (2 ^ 48)), Z.mod_mul, Z.add_0_r,
    Z.mod_mod by lia. done.
Qed.

Lemma tp_new_get_ptr ptr tag : canonical ptr -> tp_get_ptr (tp_new ptr tag) = ptr.
Proof.
  intros Hc. apply tp_get_ptr_of; [done|]. rewrite tp_new_arith, u64_mod48.
  rewrite Z.add_comm, Z.mod_add, Z.mod_mod by lia. done.
Qed.

Lemma tp_new_get_tag ptr tag : tp_get_tag (tp_new ptr tag) = u16 tag.
Proof.
  rewrite tp_get_tag_arith by apply tp_new_range. rewrite tp_new_arith.
  pose proof (Z.mod_pos_bound (u64 ptr) (2 ^ 48) ltac:(lia)).
  rewrite Z.add_comm, Z.div_add, Z.div_small by lia. lia.
Qed.

Lemma tp_new_of_parts tp : 0 <= tp < 2 ^ 64 -> tp_new (tp_get_ptr tp) (tp_get_tag tp) = tp.
Proof.
  intros H. rewrite tp_new_arith, tp_get_tag_arith, u64_mod48 by lia.
  rewrite u16_small.
  2:{ split; [apply Z.div_pos; lia|]. apply Z.div_lt_upper_bound; lia. }
  rewrite tp_get_ptr_arith. cbv zeta. pose proof (Z.mod_pos_bound tp (2 ^ 48) ltac:(lia)).
  pose proof (Z.div_mod tp (2 ^ 48) ltac:(lia)).
  destruct (tp mod 2 ^ 48 <? 2 ^ 47).
  - rewrite Z.mod_mod by lia. lia.
  - replace (2 ^ 64 - 2 ^ 48) with ((2 ^ 16 - 1) * 2 ^ 48) by reflexivity.
    rewrite Z.mod_add, Z.mod_mod by lia. lia.
Qed.

Lemma tp_set_ptr_spec tp p :
  0 <= tp < 2 ^ 64 -> tp_set_ptr tp p = tp_new p (tp_get_tag tp).
Proof.
  intros H. unfold tp_set_ptr. rewrite ADDR_high_land, ADDR_MASK_land by lia.
  rewrite tp_new_arith, tp_get_tag_arith by lia. rewrite u16_small.
  2:{ split; [apply Z.div_pos; lia|]. apply Z.div_lt_upper_bound; lia. }
  apply lor_add_disjoint; [lia|]. apply Z.mod_pos_bound. lia.
Qed.

Lemma tp_set_tag_spec tp tag :
  0 <= tp < 2 ^ 64 -> tp_set_tag tp tag = tp_new (tp_get_ptr tp) tag.
Proof.
  intros H. unfold tp_set_tag.
  change (bnot 64 (u64 (Z.shiftl TAG_MASK TAG_SHIFT))) with ADDR_MASK.
  rewrite ADDR_MASK_land. unfold TAG_SHIFT, ADDR_BITS.
  pose proof (u16_range tag). rewrite (u64_small (u16 tag)) by lia.
  rewrite Z.shiftl_mul_pow2 by lia. rewrite u64_small by lia.
  rewrite Z.lor_comm, lor_add_disjoint; [|lia|apply Z.mod_pos_bound; lia].
  rewrite tp_new_arith, u64_mod48. f_equal.
  rewrite tp_get_ptr_arith. cbv zeta. destruct (tp mod 2 ^ 48 <? 2 ^ 47).
  - by rewrite Z.mod_mod by lia.
  - replace (2 ^ 64 - 2 ^ 48) with ((2 ^ 16 - 1) * 2 ^ 48) by reflexivity.
    by rewrite Z.mod_add, Z.mod_mod by lia.
Qed.

(** ** Properties *)

(** (round trip): packing any canonical pointer with any tag and unpacking
    gives the pointer and the tag truncated to 16 bits; every [u64] is the
    packing of its own parts; [tp_set_ptr] and [tp_set_tag] replace one field
    and preserve the other. *)
Theorem tagged_ptr_roundtrip :
  (forall ptr tag, canonical ptr ->
     tp_get_ptr (tp_new ptr tag) = ptr /\ tp_get_tag (tp_new ptr tag) = u16 tag) /\
  (forall tp, 0 <= tp < 2 ^ 64 ->
     canonical (tp_get_ptr tp) /\ tp_new (tp_get_ptr tp) (tp_get_tag tp) = tp) /\
  (forall tp p, 0 <= tp < 2 ^ 64 -> canonical p ->
     tp_get_ptr (tp_set_ptr tp p) = p /\ tp_get_tag (tp_set_ptr tp p) = tp_get_tag tp) /\
  (forall tp tag, 0 <= tp < 2 ^ 64 ->
     tp_get_tag (tp_set_tag tp tag) = u16 tag /\ tp_get_ptr (tp_set_tag tp tag) = tp_get_ptr tp).
Proof.
  split_and!.
  - intros ptr tag Hc. by rewrite tp_new_get_ptr, tp_new_get_tag.
  - intros tp H. split; [apply tp_get_ptr_canonical | by apply tp_new_of_parts].
  - intros tp p H Hc. rewrite tp_set_ptr_spec, tp_new_get_ptr, tp_new_get_tag by done.
    split; [done|]. apply u16_small. apply (wrap_range 16). lia.
  - intros tp tag H. rewrite tp_set_tag_spec, tp_new_get_tag, tp_new_get_ptr by
      first [done | apply tp_get_ptr_canonical]. done.
Qed.

Lemma tagged_ptr_roundtrip_witness :
  canonical 0xFFFF800000001000 /\
  tp_get_ptr (tp_new 0xFFFF800000001000 0x1BEEF) = 0xFFFF800000001000 /\
  tp_get_tag (tp_new 0xFFFF800000001000 0x1BEEF) = 0xBEEF.
Proof.
  assert (Hc : canonical 0xFFFF800000001000) by (unfold canonical; lia).
  split; [exact Hc|]. destruct tagged_ptr_roundtrip as [H _].
  exact (H 0xFFFF800000001000 0x1BEEF Hc).
Defined.
