(* ===== verification/CString.v ===== *)
(** * String and memory routines

    [kernel/mm/string.c]: the word-at-a-time [memset], [memcpy] (with Duff's
    device), [strlen], [strcmp], the bounded [strcmp_s] and [strncpy], over a
    byte-addressed little-endian memory.  Loops take fuel; the specification
    theorems give the fuel that suffices. *)
From S2P Require Import Prelude.

(** Byte memory and its word view. *)
Definition mem : Type := Z -> Z.
Definition store (m : mem) (a v : Z) : mem := fun x => if x =? a then u8 v else m x.
Fixpoint load_le (m : mem) (a : Z) (n : nat) : Z :=
  match n with O => 0 | S n' => m a + 256 * load_le m (a + 1) n' end.
Fixpoint store_le (m : mem) (a v : Z) (n : nat) : mem :=
  match n with O => m | S n' => store_le (store m a (v mod 256)) (a + 1) (v / 256) n' end.
Definition load64 (m : mem) (a : Z) : Z := load_le m a 8.
Definition store64 (m : mem) (a v : Z) : mem := store_le m a v 8.

Definition WORD_SIZE : Z := 8.
Definition WORD_MASK : Z := WORD_SIZE - 1.

Definition has_zero (x : Z) : bool :=
  let mask := 0x0101010101010101 in
  let high := 0x8080808080808080 in
  negb (Z.land (Z.land (u64 (x - mask)) (bnot 64 x)) high =? 0).

(** ** memset *)

(** [while ((p & 7) && count) { *p++ = uc; count--; }] *)
Fixpoint memset_head (m : mem) (p uc count : Z) (fuel : nat) : mem * Z * Z :=
  match fuel with
  | O => (m, p, count)
  | S fuel' =>
    if negb (Z.land p (WORD_SIZE - 1) =? 0) && negb (count =? 0)
    then memset_head (store m p uc) (p + 1) uc (count - 1) fuel'
    else (m, p, count)
  end.

(** [for (i = 0; i < words; i++) wp[i] = word;] *)
Fixpoint set_words (m : mem) (wp word : Z) (words : nat) : mem :=
  match words with O => m | S w => set_words (store64 m wp word) (wp + 8) word w end.

(** [for (i = 0; i < count; i++) p[i] = uc;] *)
Fixpoint set_bytes (m : mem) (p uc : Z) (count : nat) : mem :=
  match count with O => m | S c => set_bytes (store m p uc) (p + 1) uc c end.

(** [uc] replicated to the eight bytes of a word *)
Definition memset_word (uc : Z) : Z :=
  let word := uc in
  let word := Z.lor word (u64 (Z.shiftl word 8)) in
  let word := Z.lor word (u64 (Z.shiftl word 16)) in
  Z.lor word (u64 (Z.shiftl word 32)).

Definition basic_memset (m : mem) (s c count : Z) : mem :=
  let uc := u8 c in
  let '(m, p, count) := memset_head m s uc count 8 in
  let word := memset_word uc in
  if WORD_SIZE <=? count then
    let words := count / WORD_SIZE in
    let m := set_words m p word (Z.to_nat words) in
    let p := p + 8 * words in
    let count := count - words * WORD_SIZE in
    set_bytes m p uc (Z.to_nat count)
  else set_bytes m p uc (Z.to_nat count).

Definition memset (m : mem) (str c n : Z) : Z * mem := (str, basic_memset m str (u8 c) n).

(** ** memcpy *)

Fixpoint copy_words (m : mem) (wd ws : Z) (words : nat) : mem :=
  match words with
  | O => m
  | S w => copy_words (store64 m wd (load64 m ws)) (wd + 8) (ws + 8) w
  end.

(** [k] consecutive [*d++ = *s++] *)
Fixpoint copy_bytes (m : mem) (d s : Z) (k : nat) : mem :=
  match k with O => m | S k' => copy_bytes (store m d (m s)) (d + 1) (s + 1) k' end.

(** the [do { case 0: ... case 1: } while (--n_loops > 0)] after entry: every
    further round copies eight bytes *)
Fixpoint duff_rounds (m : mem) (d s n_loops : Z) (fuel : nat) : mem :=
  match fuel with
  | O => m
  | S fuel' =>
    let n_loops := n_loops - 1 in
    if 0 <? n_loops
    then duff_rounds (copy_bytes m d s 8) (d + 8) (s + 8) n_loops fuel'
    else m
  end.

Definition duff_copy (m : mem) (d s count : Z) : mem :=
  let n_loops := i32 ((count + 7) / 8) in
  (* the switch jumps into the loop body: [count % 8] copies, or 8 for case 0 *)
  let first := if count mod 8 =? 0 then 8 else count mod 8 in
  let m := copy_bytes m d s (Z.to_nat first) in
  duff_rounds m (d + first) (s + first) n_loops (Z.to_nat n_loops).

Definition basic_memcpy (m : mem) (dst src count : Z) : mem :=
  let '(m, d, s, count) :=
    if (Z.land dst 7 =? 0) && (Z.land src 7 =? 0) then
      let words := count / 8 in
      (copy_words m dst src (Z.to_nat words), dst + words * 8, src + words * 8,
       count - words * 8)
    else (m, dst, src, count) in
  if negb (count =? 0) then duff_copy m d s count else m.

Definition memcpy (m : mem) (dst_str src_str n : Z) : Z * mem :=
  (dst_str, basic_memcpy m dst_str src_str n).

(** ** strlen *)

(** first zero of the eight bytes at [p] *)
Fixpoint first_zero_byte (m : mem) (p : Z) (i : Z) (n : nat) : option Z :=
  match n with
  | O => None
  | S n' => if m (p + i) =? 0 then Some i else first_zero_byte m p (i + 1) n'
  end.

(** [while (addr & 7) { if ( *s == 0) return s - str; s++; addr++; }] *)
Fixpoint strlen_head (m : mem) (s : Z) (fuel : nat) : Z + Z :=
  match fuel with
  | O => inr s
  | S fuel' =>
    if negb (Z.land s 7 =? 0)
    then if m s =? 0 then inl s else strlen_head m (s + 1) fuel'
    else inr s
  end.

Fixpoint strlen_words (m : mem) (word_ptr : Z) (fuel : nat) : option Z :=
  match fuel with
  | O => None
  | S fuel' =>
    if has_zero (load64 m word_ptr)
    then match first_zero_byte m word_ptr 0 8 with
         | Some i => Some (word_ptr + i)
         | None => strlen_words m (word_ptr + 8) fuel'
         end
    else strlen_words m (word_ptr + 8) fuel'
  end.

(** [None] when the fuel runs out: no terminator within reach. *)
Definition strlen (m : mem) (str : Z) (fuel : nat) : option Z :=
  match strlen_head m str 8 with
  | inl e => Some (e - str)
  | inr s => match strlen_words m s fuel with Some e => Some (e - str) | None => None end
  end.

(** ** strcmp *)

Inductive cmp_result := Cmp_ret (v : Z) | Cmp_cont (p1 p2 : Z).

Fixpoint strcmp_head (m : mem) (p1 p2 : Z) (fuel : nat) : option cmp_result :=
  match fuel with
  | O => None
  | S fuel' =>
    if negb (Z.land p1 WORD_MASK =? 0) || negb (Z.land p2 WORD_MASK =? 0)
    then if negb (m p1 =? m p2) then Some (Cmp_ret (m p1 - m p2))
         else if m p1 =? 0 then Some (Cmp_ret 0)
         else strcmp_head m (p1 + 1) (p2 + 1) fuel'
    else Some (Cmp_cont p1 p2)
  end.

Fixpoint strcmp_bytes (m : mem) (p1 p2 : Z) (n : nat) : option Z :=
  match n with
  | O => None
  | S n' => if negb (m p1 =? m p2) then Some (m p1 - m p2)
            else if m p1 =? 0 then Some 0
            else strcmp_bytes m (p1 + 1) (p2 + 1) n'
  end.

Fixpoint strcmp_words (m : mem) (wp1 wp2 : Z) (fuel : nat) : option Z :=
  match fuel with
  | O => None
  | S fuel' =>
    let w1 := load64 m wp1 in
    let w2 := load64 m wp2 in
    if negb (w1 =? w2) || has_zero w1
    then match strcmp_bytes m wp1 wp2 8 with
         | Some v => Some v
         | None => strcmp_words m (wp1 + 8) (wp2 + 8) fuel'
         end
    else strcmp_words m (wp1 + 8) (wp2 + 8) fuel'
  end.

Definition strcmp (m : mem) (str1 str2 : Z) (fuel : nat) : option Z :=
  match strcmp_head m str1 str2 fuel with
  | Some (Cmp_ret v) => Some v
  | Some (Cmp_cont p1 p2) => strcmp_words m p1 p2 fuel
  | None => None
  end.

(** ** strncpy *)

Inductive cpy_result :=
  | Zero_found (m : mem) (d : Z)           (* goto zero_found *)
  | Fill_remaining (m : mem) (d : Z)       (* goto fill_remaining *)
  | Cpy_cont (m : mem) (d s remaining : Z).  (* fall out of the loop *)

Fixpoint strncpy_head (m : mem) (d s remaining : Z) (fuel : nat) : option cpy_result :=
  match fuel with
  | O => None
  | S fuel' =>
    if negb (Z.land s WORD_MASK =? 0) || negb (Z.land d WORD_MASK =? 0)
    then if remaining =? 0 then Some (Fill_remaining m d)
         else let m := store m d (m s) in
              if m d =? 0 then Some (Zero_found m d)
              else strncpy_head m (d + 1) (s + 1) (remaining - 1) fuel'
    else Some (Cpy_cont m d s remaining)
  end.

(** the byte loop over a word [w] that holds a zero: [*d++ = p[i]] *)
Fixpoint strncpy_word_bytes (m : mem) (d w remaining : Z) (n : nat) : cpy_result :=
  match n with
  | O => Cpy_cont m d 0 remaining
  | S n' =>
    if remaining =? 0 then Fill_remaining m d
    else let m := store m d (w mod 256) in
         let d := d + 1 in
         if w mod 256 =? 0 then Zero_found m d
         else strncpy_word_bytes m d (w / 256) (remaining - 1) n'
  end.

Fixpoint strncpy_words (m : mem) (d s remaining : Z) (fuel : nat) : option cpy_result :=
  match fuel with
  | O => None
  | S fuel' =>
    if WORD_SIZE <=? remaining then
      let w := load64 m s in
      if has_zero w then
        match strncpy_word_bytes m d w remaining 8 with
        | Cpy_cont m d _ remaining => strncpy_words m d s remaining fuel'
        | r => Some r
        end
      else strncpy_words (store64 m d w) (d + 8) (s + 8) (remaining - 8) fuel'
    else Some (Cpy_cont m d s remaining)
  end.

Fixpoint strncpy_tail (m : mem) (d s remaining : Z) (n : nat) : cpy_result :=
  match n with
  | O => Cpy_cont m d s remaining
  | S n' => let m := store m d (m s) in
            if m d =? 0 then Zero_found m d
            else strncpy_tail m (d + 1) (s + 1) (remaining - 1) n'
  end.

(** [while (d - d_start < n) *d++ = 0] *)
Definition strncpy_fill (m : mem) (d_start d n : Z) : mem :=
  set_bytes m d 0 (Z.to_nat (n - (d - d_start))).

Definition strncpy (m : mem) (dst src n : Z) (fuel : nat) : option mem :=
  let finish r :=
    match r with
    | Zero_found m d => strncpy_fill m dst (d + 1) n
    | Fill_remaining m d => strncpy_fill m dst d n
    | Cpy_cont m _ _ _ => m
    end in
  if n =? 0 then Some m
  else match strncpy_head m dst src n fuel with
       | Some (Cpy_cont m d s remaining) =>
         match strncpy_words m d s remaining fuel with
         | Some (Cpy_cont m d s remaining) =>
           Some (finish (strncpy_tail m d s remaining (Z.to_nat remaining)))
         | Some r => Some (finish r)
         | None => None
         end
       | Some r => Some (finish r)
       | None => None
       end.

(** ** Strings as values

    Where a component only compares or hashes a NUL-terminated string, it is
    the list of its bytes before the terminator; reading at the end gives 0. *)
Definition cstr : Type := list Z.
Definition char_at (s : cstr) (i : nat) : Z := nth i s 0.

Fixpoint strcmp_s_loop (s1 s2 : cstr) (n : nat) : Z :=
  match n with
  | O => char_at s1 0 - char_at s2 0
  | S n' =>
    if negb (char_at s1 0 =? 0) && (char_at s1 0 =? char_at s2 0)
    then strcmp_s_loop (tail s1) (tail s2) n'
    else char_at s1 0 - char_at s2 0
  end.
Definition strcmp_s (str1 str2 : cstr) (n : Z) : Z := strcmp_s_loop str1 str2 (Z.to_nat n).

(** ** Memory lemmas *)

Definition byte_mem (m : mem) : Prop := forall a, 0 <= m a < 256.

Lemma store_eq m a v : store m a v a = u8 v.
Proof. unfold store. by rewrite Z.eqb_refl. Qed.

Lemma store_ne m a v x : x <> a -> store m a v x = m x.
Proof. intros. unfold store. case_bool. Qed.

Lemma store_byte_mem m a v : byte_mem m -> byte_mem (store m a v).
Proof. intros H x. unfold store. case_bool; first [apply u8_range | apply H]. Qed.

Lemma set_bytes_spec n m p c a :
  set_bytes m p c n a = if (p <=? a) && (a <? p + Z.of_nat n) then u8 c else m a.
Proof.
  revert m p. induction n as [|n IH]; intros m p; cbn [set_bytes].
  - repeat case_bool.
  - rewrite IH. destruct (Z.eqb_spec a p) as [->|Hne].
    + rewrite store_eq. repeat case_bool.
    + rewrite store_ne by done. repeat case_bool.
Qed.

Lemma store_le_spec n m p v a :
  store_le m p v n a =
    if (p <=? a) && (a <? p + Z.of_nat n) then u8 (v / 256 ^ (a - p)) else m a.
Proof.
  revert m p v. induction n as [|n IH]; intros m p v; cbn [store_le].
  - repeat case_bool.
  - rewrite IH. destruct (Z.eqb_spec a p) as [->|Hne].
    + rewrite store_eq. repeat case_bool. rewrite Z.sub_diag, Z.div_1_r.
      unfold u8, wrap. by rewrite Z.mod_mod by lia.
    + rewrite store_ne by done. repeat case_bool.
      rewrite Z.div_div by lia. do 2 f_equal. rewrite <- Z.pow_succ_r by lia. f_equal. lia.
Qed.

Lemma load_le_byte n m p i :
  byte_mem m -> (i < n)%nat -> u8 (load_le m p n / 256 ^ Z.of_nat i) = m (p + Z.of_nat i).
Proof.
  intros Hm. revert p i. induction n as [|n IH]; intros p i Hi; [lia|]. cbn [load_le].
  destruct i as [|i].
  - rewrite Z.pow_0_r, Z.div_1_r, Z.add_0_r. unfold u8, wrap.
    rewrite Z.mul_comm, Z.mod_add by lia. apply Z.mod_small, Hm.
  - rewrite Nat2Z.inj_succ, Z.pow_succ_r by lia.
    rewrite <- Z.div_div by lia.
    rewrite (Z.mul_comm 256 (load_le _ _ _)), Z.div_add by lia.
    rewrite (Z.div_small (m p)) by apply Hm. rewrite Z.add_0_l, IH by lia. f_equal. lia.
Qed.

(** storing the word read from [s] copies eight bytes *)
Lemma store64_load64 m d s a :
  byte_mem m ->
  store64 m d (load64 m s) a = if (d <=? a) && (a <? d + 8) then m (s + (a - d)) else m a.
Proof.
  intros Hm. unfold store64, load64. rewrite store_le_spec.
  change (Z.of_nat 8) with 8. repeat case_bool.
  replace (a - d) with (Z.of_nat (Z.to_nat (a - d))) by lia.
  apply load_le_byte; [done|]. lia.
Qed.

Lemma store64_byte_mem m d v : byte_mem m -> byte_mem (store64 m d v).
Proof.
  intros Hm a. unfold store64. rewrite store_le_spec. repeat case_bool; first [apply u8_range|apply Hm].
Qed.

Lemma load_le_range n m p : byte_mem m -> 0 <= load_le m p n < 256 ^ Z.of_nat n.
Proof.
  intros Hm. revert p. induction n as [|n IH]; intros p; cbn [load_le]; [done|].
  rewrite Nat2Z.inj_succ, Z.pow_succ_r by lia. specialize (IH (p + 1)). specialize (Hm p). lia.
Qed.

(** ** The zero-byte test *)

Fixpoint rep_byte (c : Z) (n : nat) : Z :=
  match n with O => 0 | S n' => c + 256 * rep_byte c n' end.

Lemma land_byte_split a A b B :
  0 <= a < 256 -> 0 <= b < 256 ->
  Z.land (a + 256 * A) (b + 256 * B) = Z.land a b + 256 * Z.land A B.
Proof.
  intros Ha Hb.
  assert (Hl : 0 <= Z.land a b < 256).
  { by apply (land_range 8). }
  rewrite (Z.add_comm a), (Z.add_comm b), (Z.add_comm (Z.land a b)), !(Z.mul_comm 256).
  change 256 with (2 ^ 8) in *. rewrite <- !lor_add_disjoint by lia.
  rewrite <- !Z.shiftl_mul_pow2 by lia.
  apply Z.bits_inj'. intros n Hn. rewrite !Z.land_spec, !Z.lor_spec, Z.land_spec.
  destruct (Z.ltb_spec n 8).
  - rewrite !Z.shiftl_spec_low by lia. done.
  - rewrite !Z.shiftl_spec_high, Z.land_spec by lia.
    rewrite (testbit_small 8 a), (testbit_small 8 b) by lia.
    by destruct (Z.testbit A _), (Z.testbit B _).
Qed.

Lemma lnot_byte_split a A : 0 <= a < 256 -> Z.lnot (a + 256 * A) = (255 - a) + 256 * Z.lnot A.
Proof. intros. unfold Z.lnot. lia. Qed.

(** the unmasked test on [n] bytes, in unbounded two's complement *)
Definition zero_test (x : Z) (n : nat) : Z :=
  Z.land (Z.land (x - rep_byte 1 n) (Z.lnot x)) (rep_byte 128 n).

Lemma land_128_pred a : 0 < a < 256 -> Z.land (Z.land (a - 1) (255 - a)) 128 = 0.
Proof.
  intros Ha.
  assert (Hall : forallb (fun i => Z.land (Z.land (Z.of_nat i) (254 - Z.of_nat i)) 128 =? 0)
                         (seq 0 255) = true) by (vm_compute; done).
  rewrite forallb_forall in Hall. specialize (Hall (Z.to_nat (a - 1))).
  rewrite Z.eqb_eq in Hall. rewrite Z2Nat.id in Hall by lia.
  replace (254 - (a - 1)) with (255 - a) in Hall by lia. apply Hall. apply in_seq. lia.
Qed.

Lemma zero_test_cons a x n :
  0 <= a < 256 ->
  zero_test (a + 256 * x) (S n) = if a =? 0 then 128 + 256 * Z.land (Z.land (x - rep_byte 1 n - 1) (Z.lnot x)) (rep_byte 128 n)
                                   else 256 * zero_test x n.
Proof.
  intros Ha. unfold zero_test. cbn [rep_byte]. rewrite lnot_byte_split by done.
  destruct (Z.eqb_spec a 0) as [->|Hne].
  - replace (0 + 256 * x - (1 + 256 * rep_byte 1 n)) with (255 + 256 * (x - rep_byte 1 n - 1)) by lia.
    rewrite !land_byte_split by (vm_compute; split; congruence). reflexivity.
  - replace (a + 256 * x - (1 + 256 * rep_byte 1 n)) with ((a - 1) + 256 * (x - rep_byte 1 n)) by lia.
    assert (0 <= Z.land (a - 1) (255 - a) < 256).
    { apply (land_range 8); lia. }
    rewrite !land_byte_split by lia. rewrite land_128_pred by lia. lia.
Qed.

Lemma rep_byte_nonneg c n : 0 <= c -> 0 <= rep_byte c n.
Proof. intros. induction n; cbn [rep_byte]; lia. Qed.

Lemma zero_test_spec m n p :
  byte_mem m ->
  zero_test (load_le m p n) n = 0 <-> forall i, (i < n)%nat -> m (p + Z.of_nat i) <> 0.
Proof.
  intros Hm. revert p. induction n as [|n IH]; intros p.
  - split; [lia|]. intros _. unfold zero_test. cbn. apply Z.land_0_r.
  - cbn [load_le]. rewrite zero_test_cons by apply Hm. destruct (Z.eqb_spec (m p) 0) as [E|E].
    + split.
      * intros H. assert (0 <= Z.land (Z.land (load_le m (p + 1) n - rep_byte 1 n - 1)
          (Z.lnot (load_le m (p + 1) n))) (rep_byte 128 n)); [|lia].
        apply Z.land_nonneg. right. by apply rep_byte_nonneg.
      * intros H. specialize (H 0%nat ltac:(lia)). by rewrite Z.add_0_r in H.
    + split.
      * intros H [|i] Hi; [by rewrite Z.add_0_r|].
        assert (H0 : zero_test (load_le m (p + 1) n) n = 0) by lia.
        rewrite IH in H0. specialize (H0 i ltac:(lia)).
        replace (p + Z.of_nat (S i)) with (p + 1 + Z.of_nat i) by lia. done.
      * intros H. assert (H0 : zero_test (load_le m (p + 1) n) n = 0); [|lia].
        apply IH. intros i Hi. specialize (H (S i) ltac:(lia)).
        replace (p + Z.of_nat (S i)) with (p + 1 + Z.of_nat i) in H by lia. done.
Qed.

Lemma has_zero_test x : 0 <= x < 2 ^ 64 -> has_zero x = negb (zero_test x 8 =? 0).
Proof.
  intros Hx. unfold has_zero, zero_test. do 2 f_equal.
  change (rep_byte 1 8) with 0x0101010101010101. change (rep_byte 128 8) with 0x8080808080808080.
  apply Z.bits_inj'. intros n Hn. rewrite !Z.land_spec, testbit_bnot by lia.
  rewrite Z.lnot_spec by lia. unfold u64. rewrite testbit_wrap by lia.
  destruct (Z.ltb_spec n 64); [by rewrite !andb_true_r|].
  rewrite (testbit_small 64 0x8080808080808080 n) by lia. by rewrite !andb_false_r.
Qed.

Lemma has_zero_spec m p :
  byte_mem m ->
  has_zero (load64 m p) = false <-> forall i, (i < 8)%nat -> m (p + Z.of_nat i) <> 0.
Proof.
  intros Hm. unfold load64. rewrite has_zero_test by (apply (load_le_range 8); done).
  rewrite negb_false_iff, Z.eqb_eq. by apply zero_test_spec.
Qed.

(** ** memset fills exactly its range *)

Lemma land_7_mod p : Z.land p 7 = p mod 8.
Proof. change 7 with (Z.ones 3). by rewrite Z.land_ones by lia. Qed.

Lemma memset_head_spec fuel m p uc count :
  0 <= count ->
  exists k, memset_head m p uc count fuel = (set_bytes m p uc k, p + Z.of_nat k, count - Z.of_nat k)
    /\ Z.of_nat k <= count
    /\ ((- p) mod 8 <= Z.of_nat fuel -> (p + Z.of_nat k) mod 8 = 0 \/ count - Z.of_nat k = 0).
Proof.
  revert m p count. induction fuel as [|fuel IH]; intros m p count Hc; cbn [memset_head].
  - exists 0%nat. rewrite Z.add_0_r, Z.sub_0_r. cbn [set_bytes]. split_and!; [done|lia|].
    intros. left. cbn [Z.of_nat] in *. dlia.
  - change (WORD_SIZE - 1) with 7. rewrite land_7_mod.
    destruct (Z.eqb_spec (p mod 8) 0) as [E|E]; [|destruct (Z.eqb_spec count 0) as [E'|E']];
      cbn [andb negb].
    + exists 0%nat. rewrite Z.add_0_r, Z.sub_0_r. cbn [set_bytes]. split_and!; [done|lia|by left].
    + exists 0%nat. rewrite Z.add_0_r, Z.sub_0_r. cbn [set_bytes]. split_and!; [done|lia|by right].
    + destruct (IH (store m p uc) (p + 1) (count - 1) ltac:(lia)) as (k & -> & Hk & Hx).
      exists (S k). cbn [set_bytes]. split_and!; [f_equal; [f_equal|]; lia|lia|].
      intros Hf. replace (p + Z.of_nat (S k)) with (p + 1 + Z.of_nat k) by lia.
      destruct Hx as [Hx|Hx]; [dlia|by left|right; lia].
Qed.

Lemma memset_word_byte c i :
  0 <= c < 256 -> 0 <= i < 8 -> u8 (memset_word c / 256 ^ i) = c.
Proof.
  intros Hc Hi.
  assert (Hall : forallb (fun c => forallb (fun i =>
      u8 (memset_word (Z.of_nat c) / 256 ^ Z.of_nat i) =? Z.of_nat c) (seq 0 8)) (seq 0 256) = true)
    by (vm_compute; done).
  rewrite forallb_forall in Hall. specialize (Hall (Z.to_nat c) ltac:(apply in_seq; lia)).
  rewrite forallb_forall in Hall. specialize (Hall (Z.to_nat i) ltac:(apply in_seq; lia)).
  rewrite Z.eqb_eq, !Z2Nat.id in Hall by lia. done.
Qed.

Lemma set_words_spec n m p c a :
  0 <= c < 256 ->
  set_words m p (memset_word c) n a = if (p <=? a) && (a <? p + 8 * Z.of_nat n) then c else m a.
Proof.
  intros Hc. revert m p. induction n as [|n IH]; intros m p; cbn [set_words].
  - repeat case_bool.
  - rewrite IH. unfold store64. rewrite store_le_spec. change (Z.of_nat 8) with 8.
    repeat case_bool. apply memset_word_byte; lia.
Qed.

(** [memset] writes the byte [c mod 256] to exactly the [n]
    bytes at [str] and returns [str], through the head, word and tail loops. *)
Theorem memset_fills str c n m a :
  0 <= n ->
  fst (memset m str c n) = str /\
  snd (memset m str c n) a = if (str <=? a) && (a <? str + n) then u8 c else m a.
Proof.
  intros Hn. split; [done|]. unfold memset, basic_memset. cbn [snd].
  rewrite (u8_small (u8 c)) by apply u8_range. pose proof (u8_range c) as Hr.
  destruct (memset_head_spec 8 m str (u8 c) n Hn) as (k & -> & Hk & _).
  change WORD_SIZE with 8.
  destruct (Z.leb_spec 8 (n - Z.of_nat k)).
  - rewrite set_bytes_spec, set_words_spec, set_bytes_spec by done.
    rewrite (u8_small (u8 c)) by done. rewrite !Z2Nat.id by dlia. repeat case_bool; dlia.
  - rewrite !set_bytes_spec, (u8_small (u8 c)) by done. rewrite Z2Nat.id by lia. repeat case_bool.
Qed.

(** ** memcpy *)

(** [m'] is [m] with the [n] bytes at [s] copied to [d] *)
Definition copied (m m' : mem) (d s n : Z) : Prop :=
  forall a, m' a = if (d <=? a) && (a <? d + n) then m (s + (a - d)) else m a.

Definition disjoint (d s n : Z) : Prop := d + n <= s \/ s + n <= d.

Lemma copied_trans m m1 m2 d s n1 n2 :
  0 <= n1 -> 0 <= n2 -> disjoint d s (n1 + n2) ->
  copied m m1 d s n1 -> copied m1 m2 (d + n1) (s + n1) n2 -> copied m m2 d s (n1 + n2).
Proof.
  intros H1 H2 Hd Ha Hb a. rewrite Hb. unfold disjoint in Hd.
  destruct (Z.leb_spec (d + n1) a), (Z.ltb_spec a (d + n1 + n2)); cbn [andb].
  - rewrite Ha. replace (s + n1 + (a - (d + n1))) with (s + (a - d)) by lia. repeat case_bool.
  - rewrite Ha. repeat case_bool.
  - rewrite Ha. repeat case_bool.
  - rewrite Ha. repeat case_bool.
Qed.

Lemma copied_0 m d s : copied m m d s 0.
Proof. intros a. repeat case_bool. Qed.

Lemma copied_byte_mem m m' d s n : byte_mem m -> copied m m' d s n -> byte_mem m'.
Proof. intros Hm H a. rewrite H. repeat case_bool; apply Hm. Qed.

Lemma disjoint_sub d s n k j : 0 <= k -> 0 <= j -> k + j <= n -> disjoint d s n -> disjoint (d + k) (s + k) j.
Proof. unfold disjoint. lia. Qed.

Lemma copied_byte m d s : byte_mem m -> copied m (store m d (m s)) d s 1.
Proof.
  intros Hm a. unfold store. repeat case_bool. rewrite u8_small by apply Hm. f_equal. lia.
Qed.

Lemma copy_bytes_spec k m d s :
  byte_mem m -> disjoint d s (Z.of_nat k) -> copied m (copy_bytes m d s k) d s (Z.of_nat k).
Proof.
  revert m d s. induction k as [|k IH]; intros m d s Hm Hd; cbn [copy_bytes]; [apply copied_0|].
  replace (Z.of_nat (S k)) with (1 + Z.of_nat k) in * by lia.
  apply copied_trans with (store m d (m s)); [lia|lia|done|by apply copied_byte|].
  apply IH; [by apply store_byte_mem|]. apply disjoint_sub with (1 + Z.of_nat k); lia || done.
Qed.

Lemma copy_words_spec k m d s :
  byte_mem m -> disjoint d s (8 * Z.of_nat k) ->
  copied m (copy_words m d s k) d s (8 * Z.of_nat k).
Proof.
  revert m d s. induction k as [|k IH]; intros m d s Hm Hd; cbn [copy_words]; [apply copied_0|].
  replace (8 * Z.of_nat (S k)) with (8 + 8 * Z.of_nat k) in * by lia.
  apply copied_trans with (store64 m d (load64 m s)); [lia|lia|done| |].
  - intros a. by apply store64_load64.
  - apply IH; [by apply store64_byte_mem|]. apply disjoint_sub with (8 + 8 * Z.of_nat k); lia || done.
Qed.

Lemma duff_rounds_spec fuel m d s n :
  byte_mem m -> 1 <= n <= Z.of_nat fuel -> disjoint d s (8 * (n - 1)) ->
  copied m (duff_rounds m d s n fuel) d s (8 * (n - 1)).
Proof.
  revert m d s n. induction fuel as [|fuel IH]; intros m d s n Hm Hn Hd; [lia|].
  cbn [duff_rounds]. destruct (Z.ltb_spec 0 (n - 1)).
  - replace (8 * (n - 1)) with (8 + 8 * (n - 1 - 1)) in * by lia.
    assert (Hc : copied m (copy_bytes m d s 8) d s 8).
    { apply (copy_bytes_spec 8); [done|]. unfold disjoint in *. lia. }
    apply copied_trans with (copy_bytes m d s 8); [lia|lia|done|done|].
    apply IH; [by eapply copied_byte_mem|lia|]. unfold disjoint in *. lia.
  - replace (8 * (n - 1)) with 0 by lia. apply copied_0.
Qed.

Lemma duff_copy_spec m d s n :
  byte_mem m -> 0 < n < 2 ^ 33 -> disjoint d s n -> copied m (duff_copy m d s n) d s n.
Proof.
  intros Hm Hn Hd. unfold duff_copy. rewrite i32_small by dlia.
  set (first := if n mod 8 =? 0 then 8 else n mod 8).
  assert (Hf : 1 <= first <= 8 /\ n = first + 8 * ((n + 7) / 8 - 1)).
  { unfold first. case_bool; dlia. }
  destruct Hf as [Hf Hs].
  assert (Hc : copied m (copy_bytes m d s (Z.to_nat first)) d s first).
  { replace first with (Z.of_nat (Z.to_nat first)) at 2 by dlia. apply copy_bytes_spec; [done|].
    unfold disjoint in *. dlia. }
  match goal with |- copied ?m1 ?m2 ?x ?y n =>
    cut (copied m1 m2 x y (first + 8 * ((n + 7) / 8 - 1))); [by rewrite <- Hs|] end.
  apply copied_trans with (copy_bytes m d s (Z.to_nat first)); [dlia|dlia|by rewrite <- Hs|done|].
  apply duff_rounds_spec; [by eapply copied_byte_mem|dlia|]. unfold disjoint in *. dlia.
Qed.

(** (equivalence): on disjoint ranges, [memcpy] (word loop plus Duff's
    device) is the byte-by-byte copy of [n] bytes, and returns [dst]. *)
Theorem memcpy_copies dst src n m a :
  byte_mem m -> 0 <= n < 2 ^ 33 -> disjoint dst src n ->
  fst (memcpy m dst src n) = dst /\
  snd (memcpy m dst src n) a = if (dst <=? a) && (a <? dst + n) then m (src + (a - dst)) else m a.
Proof.
  intros Hm Hn Hd. split; [done|]. unfold memcpy, basic_memcpy. cbn [snd]. revert a.
  change (copied m (let '(m0, d, s, c) := if (Z.land dst 7 =? 0) && (Z.land src 7 =? 0)
    then (copy_words m dst src (Z.to_nat (n / 8)), dst + n / 8 * 8, src + n / 8 * 8, n - n / 8 * 8)
    else (m, dst, src, n) in if negb (c =? 0) then duff_copy m0 d s c else m0) dst src n).
  destruct (_ && _).
  - assert (Hc : copied m (copy_words m dst src (Z.to_nat (n / 8))) dst src (n / 8 * 8)).
    { replace (n / 8 * 8) with (8 * Z.of_nat (Z.to_nat (n / 8))) by dlia.
      apply copy_words_spec; [done|]. unfold disjoint in *. dlia. }
    destruct (Z.eqb_spec (n - n / 8 * 8) 0) as [E|E]; cbn [negb].
    + by replace (n / 8 * 8) with n in Hc by dlia.
    + match goal with |- copied ?m1 ?m2 ?x ?y n =>
        cut (copied m1 m2 x y (n / 8 * 8 + (n - n / 8 * 8)));
        [by replace (n / 8 * 8 + (n - n / 8 * 8)) with n by dlia|] end.
      eapply copied_trans; [dlia|dlia| |exact Hc|].
      { by replace (n / 8 * 8 + (n - n / 8 * 8)) with n by dlia. }
      apply duff_copy_spec; [by eapply copied_byte_mem|dlia|]. unfold disjoint in *. dlia.
  - destruct (Z.eqb_spec n 0) as [->|E]; cbn [negb]; [apply copied_0|].
    apply duff_copy_spec; dlia || done.
Qed.

(** ** strlen *)

Lemma strlen_head_spec fuel m s L :
  m (s + L) = 0 -> (forall i, 0 <= i < L -> m (s + i) <> 0) -> 0 <= L ->
  strlen_head m s fuel = inl (s + L) \/
  exists k, strlen_head m s fuel = inr (s + k) /\ 0 <= k <= L.
Proof.
  revert s L. induction fuel as [|fuel IH]; intros s L Hz Hn HL; cbn [strlen_head].
  - right. exists 0. rewrite Z.add_0_r. split; [done|lia].
  - destruct (negb (Z.land s 7 =? 0)).
    + destruct (Z.eqb_spec (m s) 0) as [E|E].
      * left. destruct (decide (L = 0)) as [->|HL0]; [by rewrite Z.add_0_r|].
        specialize (Hn 0 ltac:(lia)). by rewrite Z.add_0_r in Hn.
      * assert (L <> 0) by (intros ->; by rewrite Z.add_0_r in Hz).
        destruct (IH (s + 1) (L - 1)) as [Hi|(k & Hi & Hk)].
        { by replace (s + 1 + (L - 1)) with (s + L) by lia. }
        { intros i Hi. replace (s + 1 + i) with (s + (i + 1)) by lia. apply Hn. lia. }
        { lia. }
        { left. rewrite Hi. f_equal. lia. }
        { right. exists (k + 1). rewrite Hi. split; [f_equal; lia|lia]. }
    + right. exists 0. rewrite Z.add_0_r. split; [done|lia].
Qed.

Lemma first_zero_byte_spec n m p i L :
  m (p + L) = 0 -> (forall j, i <= j < L -> m (p + j) <> 0) -> i <= L < i + Z.of_nat n ->
  first_zero_byte m p i n = Some L.
Proof.
  revert i. induction n as [|n IH]; intros i Hz Hn HL; [lia|]. cbn [first_zero_byte].
  destruct (Z.eqb_spec (m (p + i)) 0) as [E|E].
  - destruct (decide (i = L)) as [->|]; [done|]. by specialize (Hn i ltac:(lia)).
  - assert (i <> L) by (intros ->; done). apply IH; [done| |lia].
    intros j Hj. apply Hn. lia.
Qed.

Lemma strlen_words_spec fuel m p L :
  byte_mem m -> m (p + L) = 0 -> (forall j, 0 <= j < L -> m (p + j) <> 0) ->
  0 <= L < 8 * Z.of_nat fuel ->
  strlen_words m p fuel = Some (p + L).
Proof.
  intros Hm. revert p L. induction fuel as [|fuel IH]; intros p L Hz Hn HL; [lia|].
  cbn [strlen_words]. destruct (has_zero (load64 m p)) eqn:E.
  - destruct (Z.ltb_spec L 8).
    + rewrite (first_zero_byte_spec 8 m p 0 L); [done|done|done|lia].
    + enough (has_zero (load64 m p) = false) by congruence.
      apply has_zero_spec; [done|]. intros i Hi. apply Hn. lia.
  - rewrite has_zero_spec in E by done.
    assert (8 <= L).
    { destruct (Z.lt_ge_cases L 8) as [Hlt|]; [|lia].
      specialize (E (Z.to_nat L) ltac:(lia)). rewrite Z2Nat.id in E by lia. done. }
    replace (p + L) with (p + 8 + (L - 8)) in * by lia. apply IH; [done| |lia].
    intros j Hj. replace (p + 8 + j) with (p + (j + 8)) by lia. apply Hn. lia.
Qed.

(** (termination and equivalence): on a string whose first zero byte is
    [L] bytes after [str], the word-at-a-time [strlen] returns [L]; a budget of
    [L / 8 + 1] word reads is enough whatever the alignment of [str]. *)
Theorem strlen_finds_terminator m str L fuel :
  byte_mem m -> 0 <= L -> m (str + L) = 0 -> (forall i, 0 <= i < L -> m (str + i) <> 0) ->
  L < 8 * Z.of_nat fuel ->
  strlen m str fuel = Some L.
Proof.
  intros Hm HL Hz Hn Hf. unfold strlen.
  destruct (strlen_head_spec 8 m str L Hz Hn HL) as [->|(k & -> & Hk)]; [f_equal; lia|].
  rewrite (strlen_words_spec fuel m (str + k) (L - k)); [f_equal; lia|done| | |lia].
  - by replace (str + k + (L - k)) with (str + L) by lia.
  - intros j Hj. replace (str + k + j) with (str + (k + j)) by lia. apply Hn. lia.
Qed.

(** ** strcmp *)

Lemma strcmp_bytes_mono n n' m p1 p2 v :
  strcmp_bytes m p1 p2 n = Some v -> (n <= n')%nat -> strcmp_bytes m p1 p2 n' = Some v.
Proof.
  revert n' p1 p2. induction n as [|n IH]; intros n' p1 p2; cbn [strcmp_bytes]; [done|].
  destruct n' as [|n']; [lia|]. cbn [strcmp_bytes]. intros H Hn.
  destruct (negb _); [done|]. destruct (_ =? 0); [done|]. apply IH; [done|lia].
Qed.

Lemma strcmp_bytes_skip k n m p1 p2 v :
  strcmp_bytes m p1 p2 k = None -> strcmp_bytes m p1 p2 n = Some v ->
  (k < n)%nat /\ strcmp_bytes m (p1 + Z.of_nat k) (p2 + Z.of_nat k) (n - k) = Some v.
Proof.
  revert n p1 p2. induction k as [|k IH]; intros n p1 p2 Hk Hn.
  - change (Z.of_nat 0) with 0. rewrite !Z.add_0_r, Nat.sub_0_r. destruct n; [discriminate|]. split; [lia|done].
  - destruct n as [|n]; [discriminate|]. cbn [strcmp_bytes] in Hk, Hn.
    destruct (negb _); [done|]. destruct (_ =? 0); [done|].
    destruct (IH n _ _ Hk Hn) as [? H]. split; [lia|].
    replace (p1 + Z.of_nat (S k)) with (p1 + 1 + Z.of_nat k) by lia.
    replace (p2 + Z.of_nat (S k)) with (p2 + 1 + Z.of_nat k) by lia. done.
Qed.

Lemma strcmp_bytes_equal n m p1 p2 :
  (forall i, (i < n)%nat -> m (p1 + Z.of_nat i) = m (p2 + Z.of_nat i) /\ m (p1 + Z.of_nat i) <> 0) ->
  strcmp_bytes m p1 p2 n = None.
Proof.
  revert p1 p2. induction n as [|n IH]; intros p1 p2 H; [done|]. cbn [strcmp_bytes].
  destruct (H 0%nat ltac:(lia)) as [H0 H1]. change (Z.of_nat 0) with 0 in *. rewrite !Z.add_0_r in H0. rewrite !Z.add_0_r in H1.
  destruct (Z.eqb_spec (m p1) (m p2)); [|congruence]. destruct (Z.eqb_spec (m p1) 0); [congruence|].
  cbn [negb]. apply IH. intros i Hi. specialize (H (S i) ltac:(lia)).
  replace (p1 + 1 + Z.of_nat i) with (p1 + Z.of_nat (S i)) by lia.
  by replace (p2 + 1 + Z.of_nat i) with (p2 + Z.of_nat (S i)) by lia.
Qed.

Lemma strcmp_words_spec fuel m p1 p2 n v :
  byte_mem m -> strcmp_bytes m p1 p2 n = Some v -> (n <= 8 * fuel)%nat ->
  strcmp_words m p1 p2 fuel = Some v.
Proof.
  intros Hm. revert p1 p2 n. induction fuel as [|fuel IH]; intros p1 p2 n Hv Hn.
  - destruct n; [discriminate|lia].
  - cbn [strcmp_words]. destruct (strcmp_bytes m p1 p2 8) as [v'|] eqn:E.
    + assert (v' = v) as ->.
      { destruct (Nat.le_ge_cases n 8) as [Hle|Hle].
        - apply (strcmp_bytes_mono _ 8) in Hv; [congruence|done].
        - apply (strcmp_bytes_mono _ n) in E; [congruence|done]. }
      destruct (negb _ || _) eqn:Hc; [done|]. bool_hyps.
      exfalso. assert (H' : strcmp_bytes m p1 p2 8 = None); [|congruence].
      rewrite has_zero_spec in H0 by done.
      apply strcmp_bytes_equal. intros i Hi. split; [|by apply H0].
      rewrite <- (load_le_byte 8 m p1 i), <- (load_le_byte 8 m p2 i) by done.
      unfold load64 in H. by rewrite H.
    + destruct (strcmp_bytes_skip 8 n m p1 p2 v E Hv) as [? Hs].
      assert (Hi : strcmp_words m (p1 + 8) (p2 + 8) fuel = Some v) by (eapply IH; [exact Hs|lia]).
      by destruct (negb _ || _).
Qed.

Lemma strcmp_head_spec fuel m p1 p2 n v :
  strcmp_bytes m p1 p2 n = Some v -> (n < fuel)%nat ->
  strcmp_head m p1 p2 fuel = Some (Cmp_ret v) \/
  exists k, (k <= n)%nat /\
    strcmp_head m p1 p2 fuel = Some (Cmp_cont (p1 + Z.of_nat k) (p2 + Z.of_nat k)) /\
    strcmp_bytes m (p1 + Z.of_nat k) (p2 + Z.of_nat k) (n - k) = Some v.
Proof.
  revert p1 p2 n. induction fuel as [|fuel IH]; intros p1 p2 n Hv Hf; [lia|].
  destruct n as [|n]; [discriminate|]. cbn [strcmp_head].
  destruct (negb (Z.land p1 WORD_MASK =? 0) || negb (Z.land p2 WORD_MASK =? 0)).
  - cbn [strcmp_bytes] in Hv. destruct (negb (m p1 =? m p2)); [left; congruence|].
    destruct (m p1 =? 0); [left; congruence|].
    destruct (IH (p1 + 1) (p2 + 1) n Hv ltac:(lia)) as [H|(k & Hk & H & Hs)]; [by left|].
    right. exists (S k). rewrite H.
    replace (p1 + 1 + Z.of_nat k) with (p1 + Z.of_nat (S k)) in * by lia.
    replace (p2 + 1 + Z.of_nat k) with (p2 + Z.of_nat (S k)) in * by lia.
    split; [lia|]. split; [done|]. done.
  - right. exists 0%nat. change (Z.of_nat 0) with 0. rewrite !Z.add_0_r, Nat.sub_0_r. split; [lia|done].
Qed.

(** (equivalence and termination): whenever the byte-by-byte comparison
    decides within [n] bytes (a difference or a common terminator), the
    word-at-a-time [strcmp] returns the same value, for every relative
    alignment of the two strings. *)
Theorem strcmp_word_equiv m str1 str2 n v fuel :
  byte_mem m -> strcmp_bytes m str1 str2 n = Some v -> (n < fuel)%nat ->
  strcmp m str1 str2 fuel = Some v.
Proof.
  intros Hm Hv Hf. unfold strcmp.
  destruct (strcmp_head_spec fuel m str1 str2 n v Hv Hf) as [->|(k & Hk & -> & Hs)]; [done|].
  apply (strcmp_words_spec fuel m _ _ (n - k)); [done|done|lia].
Qed.

(** ** strcmp_s *)

Definition cstr_ok (s : cstr) : Prop := Forall (fun c => c <> 0) s.

Lemma strcmp_s_loop_refl s n : strcmp_s_loop s s n = 0.
Proof. revert s. induction n as [|n IH]; intros s; cbn [strcmp_s_loop]; [lia|]. rewrite Z.eqb_refl, andb_true_r.
  destruct (negb _); [apply IH|lia]. Qed.

Lemma strcmp_s_refl s n : strcmp_s s s n = 0.
Proof. apply strcmp_s_loop_refl. Qed.

(** what a zero result means: equal up to [n] characters and at character [n] *)
Lemma strcmp_s_loop_zero n s1 s2 :
  cstr_ok s1 -> cstr_ok s2 ->
  strcmp_s_loop s1 s2 n = 0 <-> take (S n) s1 = take (S n) s2.
Proof.
  revert s1 s2. induction n as [|n IH]; intros s1 s2 H1 H2; cbn [strcmp_s_loop].
  - destruct s1 as [|a s1], s2 as [|b s2]; unfold char_at; cbn; inversion H1; inversion H2; subst;
      rewrite ?take_0; split; intros; try done; try lia; try (f_equal; lia); simplify_eq; lia.
  - destruct s1 as [|a s1], s2 as [|b s2]; unfold char_at; cbn [nth tail];
      inversion H1 as [|?? Ha H1']; inversion H2 as [|?? Hb H2']; subst.
    + cbn. split; done.
    + cbn [Z.eqb negb andb]. split; [lia|done].
    + destruct (Z.eqb_spec a 0); [done|]. destruct (Z.eqb_spec a 0); cbn; [done|]. split; [lia|done].
    + destruct (Z.eqb_spec a 0); [done|]. destruct (Z.eqb_spec a b) as [->|Hne]; cbn [negb andb].
      * rewrite IH by done. rewrite !(firstn_cons (S n)). split; [by intros ->|intros [=]; done].
      * rewrite !firstn_cons. split; [lia|intros [=]; done].
Qed.

Lemma strcmp_s_zero n s1 s2 :
  cstr_ok s1 -> cstr_ok s2 -> 0 <= n ->
  strcmp_s s1 s2 n = 0 <-> take (S (Z.to_nat n)) s1 = take (S (Z.to_nat n)) s2.
Proof. intros. by apply strcmp_s_loop_zero. Qed.

(** ** strncpy: the word path *)

Definition strncpy_demo_mem : mem := fun a =>
  if a =? 0 then 97 else if a =? 1 then 98 else if a <? 16 then 0 else 0xAA.

(** Copying ["ab"] with [n = 8] between aligned buffers: the byte right after
    the copied terminator keeps its old contents, the rest is zero-filled. *)
Example strncpy_word_path_skips_byte :
  option_map (fun m => map (fun i => m (64 + i)) [0; 1; 2; 3; 4; 5; 6; 7])
    (strncpy strncpy_demo_mem 64 0 8 16) = Some [97; 98; 0; 0xAA; 0; 0; 0; 0].
Proof. vm_compute. reflexivity. Qed.

(** the byte path (source off by one from word alignment) zero-fills it *)
Example strncpy_byte_path_fills :
  option_map (fun m => map (fun i => m (64 + i)) [0; 1; 2; 3; 4; 5; 6; 7])
    (strncpy strncpy_demo_mem 64 1 8 16) = Some [98; 0; 0; 0; 0; 0; 0; 0].
Proof. vm_compute. reflexivity. Qed.

(** ** Witnesses *)

Definition abc_mem : mem := fun a =>
  if a =? 3 then 97 else if a =? 4 then 98 else if a =? 20 then 97 else if a =? 21 then 99 else 0.

Lemma abc_mem_byte : byte_mem abc_mem.
Proof. intros a. unfold abc_mem. repeat case_bool. Qed.

Lemma memset_fills_witness : 0 <= 20 /\ snd (memset abc_mem 13 0x1FF 20) 32 = 255.
Proof.
  split; [lia|]. destruct (memset_fills 13 0x1FF 20 abc_mem 32) as [_ ->]; [lia|reflexivity].
Defined.

Lemma memcpy_copies_witness :
  disjoint 64 3 20 /\ snd (memcpy abc_mem 64 3 20) 81 = 97.
Proof.
  assert (Hd : disjoint 64 3 20) by (unfold disjoint; lia). split; [exact Hd|].
  destruct (memcpy_copies 64 3 20 abc_mem 81) as [_ ->];
    [apply abc_mem_byte | lia | exact Hd | reflexivity].
Defined.

Lemma strlen_finds_terminator_witness :
  abc_mem (3 + 2) = 0 /\ strlen abc_mem 3 1 = Some 2.
Proof.
  split; [reflexivity|]. apply (strlen_finds_terminator abc_mem 3 2 1);
    [apply abc_mem_byte | lia | reflexivity | | lia].
  intros i Hi. assert (i = 0 \/ i = 1) as [->| ->] by lia; discriminate.
Defined.

Lemma strcmp_word_equiv_witness :
  strcmp_bytes abc_mem 3 20 4 = Some (-1) /\ strcmp abc_mem 3 20 5 = Some (-1).
Proof.
  split; [reflexivity|]. apply (strcmp_word_equiv abc_mem 3 20 4);
    [apply abc_mem_byte | reflexivity | lia].
Defined.
