(* ===== verification/Allocator.v ===== *)
(** * Allocator interface

    [include/rendezvos/mm/allocator.h]: the [m_alloc]/[m_free] pair every heap
    client calls through [struct allocator].  The class gives the operations
    over an abstract heap state; the law class states what clients rely on.
    [0] is the NULL pointer. *)
From S2P Require Import Prelude Mm.

Class Allocator (A : Type) := {
  m_alloc : A -> Z -> Z * A;
  m_free : A -> Z -> A
}.

(** [kalloc] refuses requests of zero bytes or more than [MIDDLE_PAGE_SIZE]. *)
Class AllocatorLaws (A : Type) `{Allocator A} := {
  m_alloc_bounded : forall a n p a',
    m_alloc a n = (p, a') -> p <> 0 -> 0 < n <= MIDDLE_PAGE_SIZE;
  m_alloc_ptr : forall a n p a', m_alloc a n = (p, a') -> 0 <= p < 2 ^ 64
}.

(** A concrete allocator used to instantiate client theorems: it hands out
    increasing addresses while a budget of calls lasts. *)
Record bump := mk_bump { bump_next : Z; bump_left : nat }.

#[export] Instance bump_allocator : Allocator bump := {
  m_alloc := fun a n =>
    match bump_left a with
    | O => (0, a)
    | S k =>
      if (0 <? n) && (n <=? MIDDLE_PAGE_SIZE)
         && (0 <? bump_next a) && (bump_next a + n <? 2 ^ 64)
      then (bump_next a, mk_bump (bump_next a + n) k)
      else (0, a)
    end;
  m_free := fun a _ => a
}.

#[export] Instance bump_allocator_laws : AllocatorLaws bump.
Proof.
  split; intros a n p a'; unfold m_alloc, bump_allocator; destruct (bump_left a).
  - intros [=] ?. lia.
  - destruct (_ && _) eqn:E; intros [=] ?; [|lia]. bool_hyps. lia.
  - intros [=]. lia.
  - destruct (_ && _) eqn:E; intros [=]; [|lia]. bool_hyps. subst. lia.
Qed.
