(* ===== verification/NameIndex.v ===== *)
(** * Name index

    [kernel/registry/name_index.c]: the string-keyed registry behind ports and
    services.  A row array with an intrusive free list holds the values; an
    open-addressing hash table with tombstones maps names to rows; a per-row
    generation validates cached tokens. *)
From S2P Require Import Prelude Mm CString Allocator.

Definition NAME_INDEX_HT_EMPTY : Z := -1.
Definition NAME_INDEX_HT_TOMB : Z := -2.
Definition NAME_INDEX_ROWS_INITIAL_CAP : Z := 32.
Definition NAME_INDEX_HT_INITIAL_CAP : Z := 64.
Definition NAME_INDEX_HT_MAX_LOAD_PERCENT : Z := 70.
Definition NAME_INDEX_HT_SHRINK_LOAD_PERCENT : Z := 25.
Definition NAME_INDEX_HT_SHRINK_TOMB_PERCENT : Z := 10.
Definition NAME_INDEX_ROW_FREE : Z := 0.
Definition NAME_INDEX_ROW_USED : Z := 1.
Definition NAME_INDEX_FREE_HEAD_INVALID : Z := U64_MAX.
Definition NAME_INDEX_ROW_INDEX_INVALID : Z := u32 (-1).

(** [storage] is the C union word: the value pointer of a used row, the next
    free row of a free one. *)
Record name_index_row := mk_row { gen : Z; used : Z; storage : Z }.
#[export] Instance name_index_row_inhabited : Inhabited name_index_row :=
  populate (mk_row 0 0 0).

Record name_index_token := mk_token { row_index : Z; row_gen : Z }.

(** [lock]: held or not; [alloc_set]: the [alloc] pointer is non-NULL. *)
Record name_index := mk_index {
  lock : bool;
  alloc_set : bool;
  rows_ptr : Z;
  rows : list name_index_row;
  row_cap : Z;
  free_head : Z;
  live : Z;
  ht_ptr : Z;
  ht : list Z;
  ht_cap : Z;
  ht_mask : Z;
  ht_tombs : Z;
  name_len_max : Z
}.

(** The hooks installed by the owner, acting on the owner's state [W]; a NULL
    function pointer is [None]. *)
Record name_index_ops (W : Type) := mk_ops {
  get_name : option (Z -> option cstr);
  hold : option (Z -> W -> bool * W);
  drop_hook : option (Z -> W -> W);
  on_register : option (Z -> W -> W);
  on_unregister : option (Z -> W -> W)
}.
Arguments get_name {W}.
Arguments hold {W}.
Arguments drop_hook {W}.
Arguments on_register {W}.
Arguments on_unregister {W}.

(** Field updates. *)
Definition set_lock (b : bool) (i : name_index) : name_index :=
  mk_index b (alloc_set i) (rows_ptr i) (rows i) (row_cap i) (free_head i) (live i)
    (ht_ptr i) (ht i) (ht_cap i) (ht_mask i) (ht_tombs i) (name_len_max i).
Definition set_rows (p : Z) (r : list name_index_row) (cap : Z) (i : name_index) : name_index :=
  mk_index (lock i) (alloc_set i) p r cap (free_head i) (live i)
    (ht_ptr i) (ht i) (ht_cap i) (ht_mask i) (ht_tombs i) (name_len_max i).
Definition set_row (n : Z) (r : name_index_row) (i : name_index) : name_index :=
  set_rows (rows_ptr i) (<[Z.to_nat n := r]> (rows i)) (row_cap i) i.
Definition set_free_live (fh l : Z) (i : name_index) : name_index :=
  mk_index (lock i) (alloc_set i) (rows_ptr i) (rows i) (row_cap i) fh l
    (ht_ptr i) (ht i) (ht_cap i) (ht_mask i) (ht_tombs i) (name_len_max i).
Definition set_table (p : Z) (t : list Z) (cap mask tombs : Z) (i : name_index) : name_index :=
  mk_index (lock i) (alloc_set i) (rows_ptr i) (rows i) (row_cap i) (free_head i) (live i)
    p t cap mask tombs (name_len_max i).
Definition set_ht (t : list Z) (tombs : Z) (i : name_index) : name_index :=
  set_table (ht_ptr i) t (ht_cap i) (ht_mask i) tombs i.

Definition row_at (i : name_index) (n : Z) : name_index_row := rows i !!! Z.to_nat n.
Definition bucket_at (t : list Z) (b : Z) : Z := t !!! Z.to_nat b.

(** ** Hash and probe sequence *)

(** FNV-1a: [hash ^= (u8)name[i]; hash *= 16777619u;] *)
Fixpoint hash_chars (name : cstr) (n : nat) (hash : Z) : Z :=
  match n, name with
  | S n', c :: name' =>
    if c =? 0 then hash else hash_chars name' n' (u32 (Z.lxor hash (u8 c) * 16777619))
  | _, _ => hash
  end.

Definition name_index_hash_name (idx : name_index) (name : option cstr) : Z :=
  match name with
  | None => 0
  | Some n =>
    if name_len_max idx =? 0 then 0
    else hash_chars n (Z.to_nat (name_len_max idx)) 2166136261
  end.

(** [for (probe = 0; probe < cap; probe++) { bucket = (h + probe) & mask; body }]
    where the body either leaves the loop with a result or continues. *)
Definition probe_bucket (h probe mask : Z) : Z := Z.land (u64 (u64 h + probe)) mask.
Fixpoint probe_loop {R : Type} (body : Z -> option R) (h mask probe : Z) (n : nat) : option R :=
  match n with
  | O => None
  | S n' =>
    match body (probe_bucket h probe mask) with
    | Some r => Some r
    | None => probe_loop body h mask (probe + 1) n'
    end
  end.

Section Ops.
Context {A : Type} `{HA : Allocator A} {W : Type} (ops : name_index_ops W).

Definition value_name (value : Z) : option cstr :=
  match get_name ops with Some f => f value | None => None end.

Definition name_index_free_arrays (idx : name_index) (a : A) : name_index * A :=
  if negb (alloc_set idx) then (idx, a)
  else
    let a := if negb (rows_ptr idx =? NULL) then m_free a (rows_ptr idx) else a in
    let a := if negb (ht_ptr idx =? NULL) then m_free a (ht_ptr idx) else a in
    (mk_index (lock idx) (alloc_set idx) NULL [] 0 NAME_INDEX_FREE_HEAD_INVALID 0
       NULL [] 0 0 0 (name_len_max idx), a).

(** ** Rehash *)

Definition place_row (t : list Z) (row_idx b : Z) : option (list Z) :=
  let cur := bucket_at t b in
  if (cur =? NAME_INDEX_HT_EMPTY) || (cur =? NAME_INDEX_HT_TOMB)
  then Some (<[Z.to_nat b := i64 row_idx]> t) else None.

Fixpoint rehash_rows (idx : name_index) (rs : list name_index_row) (row_idx : Z)
    (new_ht : list Z) (new_ht_cap new_mask : Z) : option (list Z) :=
  match rs with
  | [] => Some new_ht
  | r :: rs' =>
    if negb (used r =? NAME_INDEX_ROW_USED) || (storage r =? NULL)
    then rehash_rows idx rs' (row_idx + 1) new_ht new_ht_cap new_mask
    else
      let h := name_index_hash_name idx (value_name (storage r)) in
      match probe_loop (place_row new_ht row_idx) h new_mask 0 (Z.to_nat new_ht_cap) with
      | Some new_ht => rehash_rows idx rs' (row_idx + 1) new_ht new_ht_cap new_mask
      | None => None
      end
  end.

Definition name_index_ht_rehash (idx : name_index) (a : A) (new_ht_cap : Z)
  : Z * name_index * A :=
  if SIZE_MAX / 8 <? new_ht_cap then (- E_RENDEZVOS, idx, a)
  else
    let '(new_ptr, a) := m_alloc a (new_ht_cap * 8) in
    if new_ptr =? NULL then (- E_RENDEZVOS, idx, a)
    else
      let new_ht := replicate (Z.to_nat new_ht_cap) NAME_INDEX_HT_EMPTY in
      let new_mask := u64 (new_ht_cap - 1) in
      match rehash_rows idx (take (Z.to_nat (row_cap idx)) (rows idx)) 0 new_ht new_ht_cap new_mask with
      | None => (- E_RENDEZVOS, idx, m_free a new_ptr)
      | Some new_ht =>
        let old_ht := ht_ptr idx in
        let idx := set_table new_ptr new_ht new_ht_cap new_mask 0 idx in
        let a := if negb (old_ht =? NULL) then m_free a old_ht else a in
        (REND_SUCCESS, idx, a)
      end.

(** ** Row array growth *)

Definition fresh_row (new_cap tail i : Z) : name_index_row :=
  mk_row 0 NAME_INDEX_ROW_FREE (if u64 (i + 1) <? new_cap then u64 (i + 1) else tail).

Definition fresh_rows (old_cap new_cap tail : Z) : list name_index_row :=
  map (fun k => fresh_row new_cap tail (old_cap + Z.of_nat k))
      (seq 0 (Z.to_nat (new_cap - old_cap))).

Definition name_index_grow_row_array (idx : name_index) (a : A) : Z * name_index * A :=
  let old_cap := row_cap idx in
  let new_cap := if negb (old_cap =? 0) then u64 (old_cap * 2) else NAME_INDEX_ROWS_INITIAL_CAP in
  if negb (old_cap =? 0) && (new_cap <? old_cap) then (- E_RENDEZVOS, idx, a)
  else if SIZE_MAX / 24 <? new_cap then (- E_RENDEZVOS, idx, a)
  else
    let '(new_rows, a) := m_alloc a (new_cap * 24) in
    if new_rows =? NULL then (- E_RENDEZVOS, idx, a)
    else
      let a := if negb (old_cap =? 0) then m_free a (rows_ptr idx) else a in
      let tail := free_head idx in
      if old_cap =? 0
      then (REND_SUCCESS,
            set_free_live 0 (live idx)
              (set_rows new_rows (fresh_rows 0 new_cap NAME_INDEX_FREE_HEAD_INVALID) new_cap idx), a)
      else (REND_SUCCESS,
            set_free_live old_cap (live idx)
              (set_rows new_rows
                 (take (Z.to_nat old_cap) (rows idx) ++ fresh_rows old_cap new_cap tail) new_cap idx), a).

Definition name_index_bootstrap (idx : name_index) (a : A) : Z * name_index * A :=
  if negb (row_cap idx =? 0) then (REND_SUCCESS, idx, a)
  else
    let '(e, idx, a) := name_index_grow_row_array idx a in
    if negb (e =? REND_SUCCESS) then (e, idx, a)
    else name_index_ht_rehash idx a NAME_INDEX_HT_INITIAL_CAP.

(** ** Table growth and shrinking *)

Definition name_index_maybe_grow_ht (idx : name_index) (a : A) : Z * name_index * A :=
  if ht_cap idx =? 0 then name_index_ht_rehash idx a NAME_INDEX_HT_INITIAL_CAP
  else if live idx =? 0 then (REND_SUCCESS, idx, a)
  else if u64 (live idx * 100) <=? u64 (ht_cap idx * NAME_INDEX_HT_MAX_LOAD_PERCENT)
  then (REND_SUCCESS, idx, a)
  else
    let nc := u64 (ht_cap idx * 2) in
    if nc <? ht_cap idx then (- E_RENDEZVOS, idx, a)
    else name_index_ht_rehash idx a nc.

Definition name_index_maybe_shrink_ht (idx : name_index) (a : A) : name_index * A :=
  if ht_cap idx <=? NAME_INDEX_HT_INITIAL_CAP then (idx, a)
  else if ht_tombs idx =? 0 then (idx, a)
  else
    let target :=
      if live idx =? 0 then Some NAME_INDEX_HT_INITIAL_CAP
      else if u64 (ht_cap idx * NAME_INDEX_HT_SHRINK_LOAD_PERCENT) <? u64 (live idx * 100)
      then None
      else Some (let t := ht_cap idx / 2 in
                 if t <? NAME_INDEX_HT_INITIAL_CAP then NAME_INDEX_HT_INITIAL_CAP else t) in
    match target with
    | None => (idx, a)
    | Some target_cap =>
      if u64 (ht_tombs idx * 100) <? u64 (ht_cap idx * NAME_INDEX_HT_SHRINK_TOMB_PERCENT)
      then (idx, a)
      else if target_cap =? ht_cap idx then (idx, a)
      else let '(_, idx, a) := name_index_ht_rehash idx a target_cap in (idx, a)
    end.

(** ** Table insert, remove, find *)

Definition ht_insert_body (idx : name_index) (row_idx b : Z) : option name_index :=
  let cur := bucket_at (ht idx) b in
  if (cur =? NAME_INDEX_HT_EMPTY) || (cur =? NAME_INDEX_HT_TOMB)
  then
    let tombs := if (cur =? NAME_INDEX_HT_TOMB) && (0 <? ht_tombs idx)
                 then ht_tombs idx - 1 else ht_tombs idx in
    Some (set_ht (<[Z.to_nat b := i64 row_idx]> (ht idx)) tombs idx)
  else None.

(** recursive in the source: a full table is doubled and the insert retried *)
Fixpoint name_index_ht_insert (idx : name_index) (a : A) (row_idx : Z) (name : cstr)
    (fuel : nat) : option (Z * name_index * A) :=
  match fuel with
  | O => None
  | S fuel' =>
    let '(e, idx, a) := name_index_maybe_grow_ht idx a in
    if negb (e =? REND_SUCCESS) then Some (e, idx, a)
    else
      let h := name_index_hash_name idx (Some name) in
      match probe_loop (ht_insert_body idx row_idx) h (ht_mask idx) 0 (Z.to_nat (ht_cap idx)) with
      | Some idx => Some (REND_SUCCESS, idx, a)
      | None =>
        let '(e, idx, a) := name_index_ht_rehash idx a (u64 (ht_cap idx * 2)) in
        if negb (e =? REND_SUCCESS) then Some (e, idx, a)
        else name_index_ht_insert idx a row_idx name fuel'
      end
  end.

Definition ht_remove_body (idx : name_index) (row_idx b : Z) : option name_index :=
  let cur := bucket_at (ht idx) b in
  if cur =? NAME_INDEX_HT_EMPTY then Some idx
  else if cur =? NAME_INDEX_HT_TOMB then None
  else if negb (cur =? i64 row_idx) then None
  else Some (set_ht (<[Z.to_nat b := NAME_INDEX_HT_TOMB]> (ht idx)) (u64 (ht_tombs idx + 1)) idx).

Definition name_index_ht_remove (idx : name_index) (row_idx : Z) (name : cstr) : name_index :=
  let h := name_index_hash_name idx (Some name) in
  match probe_loop (ht_remove_body idx row_idx) h (ht_mask idx) 0 (Z.to_nat (ht_cap idx)) with
  | Some idx => idx
  | None => idx
  end.

(** [Some (-1, _)]: stop, not found; [Some (bucket, row)]: found *)
Definition ht_find_body (idx : name_index) (name : cstr) (b : Z) : option (Z * Z) :=
  let cur := bucket_at (ht idx) b in
  if cur =? NAME_INDEX_HT_EMPTY then Some (-1, 0)
  else if cur =? NAME_INDEX_HT_TOMB then None
  else
    let row_idx := u64 cur in
    if row_cap idx <=? row_idx then None
    else
      let r := row_at idx row_idx in
      if negb (used r =? NAME_INDEX_ROW_USED) || (storage r =? NULL) then None
      else
        match value_name (storage r) with
        | None => None
        | Some row_name =>
          if strcmp_s row_name name (name_len_max idx) =? 0
          then Some (i64 b, row_idx) else None
        end.

Definition name_index_ht_find_bucket (idx : name_index) (name : cstr) : Z * Z :=
  if (ht_ptr idx =? NULL) || (ht_cap idx =? 0) then (-1, 0)
  else
    let h := name_index_hash_name idx (Some name) in
    match probe_loop (ht_find_body idx name) h (ht_mask idx) 0 (Z.to_nat (ht_cap idx)) with
    | Some r => r
    | None => (-1, 0)
    end.

(** ** Public operations *)

(** [alloc] is the allocator argument; NULL selects the CPU's [kallocator],
    which is the same heap state [a] here. *)
Definition name_index_init (a : A) (len_max : Z) : name_index * A :=
  let idx := mk_index false true NULL [] 0 NAME_INDEX_FREE_HEAD_INVALID 0 NULL [] 0 0 0 len_max in
  let '(_, idx, a) := name_index_bootstrap idx a in (idx, a).

Definition lock_mcs (idx : name_index) : name_index := set_lock true idx.
Definition unlock_mcs (idx : name_index) : name_index := set_lock false idx.

Definition run_hook (h : option (Z -> W -> W)) (v : Z) (w : W) : W :=
  match h with Some f => f v w | None => w end.

(** the row goes back to the free list with its generation advanced *)
Definition release_row (idx : name_index) (i : Z) : name_index :=
  let r := row_at idx i in
  let idx := set_row i (mk_row (u64 (gen r + 1)) NAME_INDEX_ROW_FREE (free_head idx)) idx in
  set_free_live i (if negb (live idx =? 0) then live idx - 1 else live idx) idx.

Fixpoint fini_rows (idx : name_index) (drop : Z -> W -> W) (i : Z) (n : nat) (w : W)
  : name_index * W :=
  match n with
  | O => (idx, w)
  | S n' =>
    let r := row_at idx i in
    if negb (used r =? NAME_INDEX_ROW_USED) || (storage r =? NULL)
    then fini_rows idx drop (i + 1) n' w
    else
      let v := storage r in
      let w := run_hook (on_unregister ops) v w in
      let idx := release_row idx i in
      fini_rows idx drop (i + 1) n' (drop v w)
  end.

Definition name_index_fini (idx : name_index) (a : A) (w : W) : name_index * A * W :=
  let idx := lock_mcs idx in
  let '(idx, w) :=
    match drop_hook ops with
    | Some drop => fini_rows idx drop 0 (Z.to_nat (row_cap idx)) w
    | None => (idx, w)
    end in
  let '(idx, a) := name_index_free_arrays idx a in
  (unlock_mcs idx, a, w).

(** value pointer (0 when absent) and row index *)
Definition name_index_search (idx : name_index) (name : cstr) : Z * Z :=
  let '(bucket, row_idx) := name_index_ht_find_bucket idx name in
  if bucket <? 0 then (NULL, 0) else (storage (row_at idx row_idx), row_idx).

Definition name_index_register (idx : name_index) (a : A) (w : W) (value : Z) (fuel : nat)
  : option (Z * Z * name_index * A * W) :=
  if (value =? NULL) then Some (- E_IN_PARAM, 0, idx, a, w)
  else match get_name ops with
  | None => Some (- E_IN_PARAM, 0, idx, a, w)
  | Some gn =>
  match gn value with
  | None => Some (- E_IN_PARAM, 0, idx, a, w)
  | Some name =>
  if char_at name 0 =? 0 then Some (- E_IN_PARAM, 0, idx, a, w)
  else
    let '(e, idx, a) := name_index_bootstrap idx a in
    if negb (e =? REND_SUCCESS) then Some (e, 0, idx, a, w)
    else
      let '(e, idx, a) :=
        if free_head idx =? NAME_INDEX_FREE_HEAD_INVALID
        then name_index_grow_row_array idx a else (REND_SUCCESS, idx, a) in
      if negb (e =? REND_SUCCESS) then Some (e, 0, idx, a, w)
      else
        let row_idx := free_head idx in
        if row_cap idx <=? row_idx then Some (- E_RENDEZVOS, 0, idx, a, w)
        else
          let r := row_at idx row_idx in
          if negb (used r =? NAME_INDEX_ROW_FREE) then Some (- E_RENDEZVOS, 0, idx, a, w)
          else
            let idx := set_free_live (storage r) (u64 (live idx + 1))
                         (set_row row_idx (mk_row (gen r) NAME_INDEX_ROW_USED value) idx) in
            match name_index_ht_insert idx a row_idx name fuel with
            | None => None
            | Some (e, idx, a) =>
              if negb (e =? REND_SUCCESS) then
                let r := row_at idx row_idx in
                let idx := set_row row_idx (mk_row (gen r) NAME_INDEX_ROW_FREE (free_head idx)) idx in
                let idx := set_free_live row_idx
                             (if negb (live idx =? 0) then live idx - 1 else live idx) idx in
                Some (e, 0, idx, a, w)
              else
                Some (REND_SUCCESS, row_idx, idx, a, run_hook (on_register ops) value w)
            end
  end
  end.

Definition name_index_register_abort (idx : name_index) (a : A) (w : W) (row_idx value : Z)
  : name_index * A * W :=
  if row_cap idx <=? row_idx then (idx, a, w)
  else
    let r := row_at idx row_idx in
    if negb (used r =? NAME_INDEX_ROW_USED) || negb (storage r =? value) then (idx, a, w)
    else
      let idx := match value_name value with
                 | Some name => name_index_ht_remove idx row_idx name
                 | None => idx
                 end in
      let w := run_hook (on_unregister ops) value w in
      let idx := release_row idx row_idx in
      let '(idx, a) := name_index_maybe_shrink_ht idx a in
      (idx, a, w).

Definition name_index_unregister (idx : name_index) (a : A) (w : W) (value row_idx : Z)
    (name : option cstr) : name_index * A * W :=
  if row_cap idx <=? row_idx then (idx, a, w)
  else
    let r := row_at idx row_idx in
    if negb (used r =? NAME_INDEX_ROW_USED) || negb (storage r =? value) then (idx, a, w)
    else
      let idx := match name with
                 | Some name => name_index_ht_remove idx row_idx name
                 | None => idx
                 end in
      let w := run_hook (on_unregister ops) value w in
      let idx := release_row idx row_idx in
      let '(idx, a) := name_index_maybe_shrink_ht idx a in
      (idx, a, w).

Definition run_hold (v : Z) (w : W) : bool * W :=
  match hold ops with Some f => f v w | None => (true, w) end.

(** value, token, index, owner state; the token is written before [hold] *)
Definition name_index_lookup (idx : name_index) (w : W) (name : cstr) (tok : name_index_token)
  : Z * name_index_token * name_index * W :=
  let idx := lock_mcs idx in
  let '(v, row_idx) := name_index_search idx name in
  if (v =? NULL) || negb (used (row_at idx row_idx) =? NAME_INDEX_ROW_USED)
  then (NULL, tok, unlock_mcs idx, w)
  else
    let tok := mk_token (u32 row_idx) (u16 (gen (row_at idx row_idx))) in
    let '(ok, w) := run_hold v w in
    if negb ok then (NULL, tok, unlock_mcs idx, w)
    else (v, tok, unlock_mcs idx, w).

Definition name_index_resolve (idx : name_index) (w : W) (tok : name_index_token) (name : cstr)
  : Z * name_index * W :=
  if row_index tok =? NAME_INDEX_ROW_INDEX_INVALID then (NULL, idx, w)
  else
    let idx := lock_mcs idx in
    let row_idx := row_index tok in
    if row_cap idx <=? row_idx then (NULL, unlock_mcs idx, w)
    else
      let r := row_at idx row_idx in
      if negb (used r =? NAME_INDEX_ROW_USED) || (storage r =? NULL)
      then (NULL, unlock_mcs idx, w)
      else if negb (u16 (gen r) =? row_gen tok) then (NULL, unlock_mcs idx, w)
      else
        match value_name (storage r) with
        | None => (NULL, unlock_mcs idx, w)
        | Some row_name =>
          if negb (strcmp_s row_name name (name_len_max idx) =? 0)
          then (NULL, unlock_mcs idx, w)
          else
            let v := storage r in
            let '(ok, w) := run_hold v w in
            if negb ok then (NULL, unlock_mcs idx, w) else (v, unlock_mcs idx, w)
        end.
End Ops.

Definition name_index_token_invalidate (tok : name_index_token) : name_index_token :=
  mk_token NAME_INDEX_ROW_INDEX_INVALID 0.

(** ** The probe sequence *)

Lemma probe_bucket_spec k h p :
  0 <= k <= 32 -> 0 <= h < 2 ^ 32 -> 0 <= p < 2 ^ 32 ->
  probe_bucket h p (2 ^ k - 1) = (h + p) mod 2 ^ k.
Proof.
  intros Hk Hh Hp. unfold probe_bucket. rewrite (u64_small h) by lia. rewrite u64_small by lia.
  replace (2 ^ k - 1) with (Z.ones k) by (rewrite Z.ones_equiv; lia).
  by rewrite Z.land_ones by lia.
Qed.

Lemma probe_loop_first {R} (body : Z -> option R) h mask p0 n p r :
  p0 <= p < p0 + Z.of_nat n ->
  body (probe_bucket h p mask) = Some r ->
  (forall q, p0 <= q < p -> body (probe_bucket h q mask) = None) ->
  probe_loop body h mask p0 n = Some r.
Proof.
  revert p0. induction n as [|n IH]; intros p0 Hp Hr Hq; [lia|]. cbn [probe_loop].
  destruct (decide (p = p0)) as [->|Hne]; [by rewrite Hr|].
  rewrite (Hq p0) by lia. apply IH; [lia|done|]. intros q Hq'. apply Hq. lia.
Qed.

Lemma probe_loop_inv {R} (body : Z -> option R) h mask p0 n :
  match probe_loop body h mask p0 n with
  | Some r => exists p, p0 <= p < p0 + Z.of_nat n /\ body (probe_bucket h p mask) = Some r /\
                forall q, p0 <= q < p -> body (probe_bucket h q mask) = None
  | None => forall q, p0 <= q < p0 + Z.of_nat n -> body (probe_bucket h q mask) = None
  end.
Proof.
  revert p0. induction n as [|n IH]; intros p0; cbn [probe_loop]; [intros; lia|].
  destruct (body (probe_bucket h p0 mask)) as [r|] eqn:E.
  - exists p0. split; [lia|]. split; [done|]. intros. lia.
  - specialize (IH (p0 + 1)). destruct (probe_loop body h mask (p0 + 1) n) as [r|].
    + destruct IH as (p & Hp & Hr & Hq). exists p. split; [lia|]. split; [done|].
      intros q Hq'. destruct (decide (q = p0)) as [->|]; [done|]. apply Hq. lia.
    + intros q Hq'. destruct (decide (q = p0)) as [->|]; [done|]. apply IH. lia.
Qed.

Lemma hash_chars_range s n h : 0 <= h < 2 ^ 32 -> 0 <= hash_chars s n h < 2 ^ 32.
Proof.
  revert s h. induction n as [|n IH]; intros [|c s] h Hh; cbn [hash_chars]; try done.
  destruct (c =? 0); [done|]. apply IH. apply u32_range.
Qed.

Lemma hash_name_range idx name : 0 <= name_index_hash_name idx name < 2 ^ 32.
Proof.
  unfold name_index_hash_name. destruct name; [|lia]. destruct (_ =? 0); [lia|].
  apply hash_chars_range. lia.
Qed.

(** names that compare equal hash equally *)
Lemma hash_chars_take n s1 s2 h :
  take (S n) s1 = take (S n) s2 -> hash_chars s1 n h = hash_chars s2 n h.
Proof.
  revert s1 s2 h. induction n as [|n IH]; intros [|a s1] [|b s2] h; try done.
  cbn [hash_chars]. intros [= -> H]. destruct (b =? 0); [done|]. by apply IH.
Qed.

Lemma hash_name_equal idx n1 n2 :
  cstr_ok n1 -> cstr_ok n2 -> 0 <= name_len_max idx ->
  strcmp_s n1 n2 (name_len_max idx) = 0 ->
  name_index_hash_name idx (Some n1) = name_index_hash_name idx (Some n2).
Proof.
  intros H1 H2 Hn H. unfold name_index_hash_name. destruct (_ =? 0); [done|].
  apply strcmp_s_zero in H; [|done..]. by apply hash_chars_take.
Qed.

(** ** Tables *)

(** slot [p] of the probe sequence of hash [h] *)
Definition slot (t : list Z) (cap h p : Z) : Z := bucket_at t ((h + p) mod cap).

(** row [r] is found along the probe sequence of [h] before any empty slot *)
Definition chain_reaches (t : list Z) (cap h r : Z) : Prop :=
  exists p, 0 <= p < cap /\ slot t cap h p = r /\
    forall q, 0 <= q < p -> slot t cap h q <> NAME_INDEX_HT_EMPTY.

Definition occupied (t : list Z) : Z := countp (fun c => 0 <=? c) t.

Record table_shape (t : list Z) (cap k : Z) : Prop := {
  ts_cap : cap = 2 ^ k;
  ts_k : 6 <= k <= 18;
  ts_len : Z.of_nat (length t) = cap
}.

Lemma ts_cap_bounds t cap k : table_shape t cap k -> 64 <= cap <= 2 ^ 18.
Proof.
  intros [-> Hk _]. split; [change 64 with (2 ^ 6)|]; apply Z.pow_le_mono_r; lia.
Qed.

Lemma mod_bucket_range h cap : 0 < cap -> 0 <= h mod cap < cap.
Proof. intros. by apply Z.mod_pos_bound. Qed.

Lemma bucket_insert_eq t b v :
  0 <= b < Z.of_nat (length t) -> bucket_at (<[Z.to_nat b := v]> t) b = v.
Proof. apply insert_total_eq_Z. Qed.

Lemma bucket_insert_ne t b b' v :
  0 <= b -> 0 <= b' -> b <> b' -> bucket_at (<[Z.to_nat b := v]> t) b' = bucket_at t b'.
Proof. apply insert_total_ne_Z. Qed.

Lemma chain_reaches_update t cap k h r b v :
  table_shape t cap k -> 0 <= b < cap ->
  bucket_at t b <> r -> v <> NAME_INDEX_HT_EMPTY ->
  chain_reaches t cap h r -> chain_reaches (<[Z.to_nat b := v]> t) cap h r.
Proof.
  intros Hs Hb Hne Hv (p & Hp & Hr & Hq). pose proof (ts_cap_bounds _ _ _ Hs).
  pose proof (ts_len _ _ _ Hs) as Hl. unfold slot in *.
  exists p. split; [done|]. split.
  - unfold slot. pose proof (mod_bucket_range (h + p) cap ltac:(lia)).
    rewrite bucket_insert_ne; [done|lia|lia|]. intros ->. done.
  - intros q Hq'. unfold slot. pose proof (mod_bucket_range (h + q) cap ltac:(lia)).
    destruct (decide (b = (h + q) mod cap)) as [->|Hn].
    + by rewrite bucket_insert_eq by lia.
    + rewrite bucket_insert_ne by lia. by apply Hq.
Qed.

Lemma occupied_insert t b v :
  0 <= b < Z.of_nat (length t) ->
  occupied (<[Z.to_nat b := v]> t) =
    occupied t - Z.b2z (0 <=? bucket_at t b) + Z.b2z (0 <=? v).
Proof. intros Hb. unfold occupied, bucket_at. apply countp_insert. by apply lookup_total_Z. Qed.

Lemma shape_insert t cap k b v : table_shape t cap k -> table_shape (<[Z.to_nat b := v]> t) cap k.
Proof. intros [H1 H2 H3]. split; [done..|]. by rewrite length_insert. Qed.

(** some slot of every probe sequence is not taken when the table is not full *)
Lemma free_slot_exists t cap k h :
  table_shape t cap k -> 0 <= h -> occupied t < cap ->
  ~ (forall q, 0 <= q < cap -> 0 <= slot t cap h q).
Proof.
  intros Hs Hh Hocc Hall. pose proof (ts_cap_bounds _ _ _ Hs). pose proof (ts_len _ _ _ Hs).
  assert (occupied t = Z.of_nat (length t)); [|lia].
  apply countp_all. intros i x Hx. apply Z.leb_le.
  pose proof (lookup_lt_Some _ _ _ Hx) as Hi.
  specialize (Hall ((Z.of_nat i - h) mod cap) (mod_bucket_range (Z.of_nat i - h) cap ltac:(lia))).
  unfold slot in Hall. rewrite Z.add_mod_idemp_r in Hall by lia.
  replace (h + (Z.of_nat i - h)) with (Z.of_nat i) in Hall by lia.
  rewrite Z.mod_small in Hall by lia. unfold bucket_at in Hall.
  rewrite Nat2Z.id in Hall. by rewrite (list_lookup_total_correct _ _ _ Hx) in Hall.
Qed.

Definition entries_ok (t : list Z) (bound : Z) : Prop :=
  forall b, 0 <= b < Z.of_nat (length t) -> -2 <= bucket_at t b < bound.

Lemma entries_ok_insert t bound b v :
  0 <= b < Z.of_nat (length t) -> -2 <= v < bound -> entries_ok t bound -> entries_ok (<[Z.to_nat b := v]> t) bound.
Proof.
  intros Hb Hv H b' Hb'. rewrite length_insert in Hb'.
  destruct (decide (b = b')) as [->|]; [by rewrite bucket_insert_eq|].
  rewrite bucket_insert_ne by lia. by apply H.
Qed.

(** the placement loops (rehash and insert) stop at the first free bucket [b]
    of the sequence and the new entry is reachable there *)
Lemma first_free_bucket {R} (body : Z -> option R) t cap k bound h :
  table_shape t cap k -> entries_ok t bound -> 0 <= h < 2 ^ 32 -> occupied t < cap ->
  (forall b, body b = None <-> 0 <= bucket_at t b \/ bucket_at t b < -2) ->
  exists b, 0 <= b < cap /\ bucket_at t b < 0 /\
    probe_loop body h (cap - 1) 0 (Z.to_nat cap) = body b /\ body b <> None /\
    forall r, 0 <= r -> chain_reaches (<[Z.to_nat b := r]> t) cap h r.
Proof.
  intros Hs He Hh Hocc Hbody. pose proof (ts_cap_bounds _ _ _ Hs) as Hc.
  pose proof (ts_len _ _ _ Hs) as Hl. pose proof (ts_k _ _ _ Hs) as Hk.
  assert (Hpb : forall p, 0 <= p < cap -> probe_bucket h p (cap - 1) = (h + p) mod cap).
  { intros p Hp. rewrite (ts_cap _ _ _ Hs). apply probe_bucket_spec; lia. }
  pose proof (probe_loop_inv body h (cap - 1) 0 (Z.to_nat cap)) as Hi.
  rewrite Z2Nat.id in Hi by lia. destruct (probe_loop _ _ _ _ _) as [r0|].
  - destruct Hi as (p & Hp & Hr & Hq). rewrite Hpb in Hr by lia.
    pose proof (mod_bucket_range (h + p) cap ltac:(lia)) as Hm.
    exists ((h + p) mod cap). split; [done|].
    assert (Hn : body ((h + p) mod cap) <> None) by congruence.
    pose proof (He _ ltac:(rewrite Hl; exact Hm)) as He'.
    assert (Hneg : bucket_at t ((h + p) mod cap) < 0).
    { destruct (Z.lt_ge_cases (bucket_at t ((h + p) mod cap)) 0); [done|].
      exfalso. apply Hn. apply Hbody. by left. }
    split; [done|]. split; [congruence|]. split; [done|]. intros r Hr0.
    exists p. split; [lia|]. unfold slot. split; [by rewrite bucket_insert_eq by lia|].
    intros q Hq'. pose proof (mod_bucket_range (h + q) cap ltac:(lia)) as Hmq.
    specialize (Hq q ltac:(lia)). rewrite Hpb, Hbody in Hq by lia.
    pose proof (He _ ltac:(rewrite Hl; exact Hmq)) as Heq.
    destruct (decide ((h + p) mod cap = (h + q) mod cap)) as [E|Hne].
    + rewrite E in Hneg. lia.
    + rewrite bucket_insert_ne by lia. unfold NAME_INDEX_HT_EMPTY. lia.
  - exfalso. apply (free_slot_exists t cap k h Hs ltac:(lia) Hocc). intros q Hq.
    specialize (Hi q ltac:(lia)). rewrite Hpb, Hbody in Hi by lia.
    unfold slot. pose proof (mod_bucket_range (h + q) cap ltac:(lia)) as Hmq.
    pose proof (He _ ltac:(rewrite Hl; exact Hmq)). lia.
Qed.

(** ** The index invariant *)

Section Invariant.
Context {A : Type} `{HL : AllocatorLaws A} {W : Type} (ops : name_index_ops W).

Definition is_used (r : name_index_row) : bool :=
  (used r =? NAME_INDEX_ROW_USED) && negb (storage r =? NULL).

Definition row_hash (idx : name_index) (r : name_index_row) : Z :=
  name_index_hash_name idx (value_name ops (storage r)).

Definition row_wf (r : name_index_row) : Prop :=
  0 <= gen r < 2 ^ 64 /\
  (used r = NAME_INDEX_ROW_FREE \/
   used r = NAME_INDEX_ROW_USED /\ storage r <> NULL /\
   exists n, value_name ops (storage r) = Some n /\ cstr_ok n).

(** the intrusive free list starting at [fh] visits exactly [fl] *)
Fixpoint free_chain (idx : name_index) (fh : Z) (fl : list Z) : Prop :=
  match fl with
  | [] => fh = NAME_INDEX_FREE_HEAD_INVALID
  | i :: fl' => fh = i /\ 0 <= i < row_cap idx /\ free_chain idx (storage (row_at idx i)) fl'
  end.

Definition free_list_ok (idx : name_index) (fl : list Z) : Prop :=
  free_chain idx (free_head idx) fl /\ NoDup fl /\
  forall i, 0 <= i < row_cap idx -> used (row_at idx i) = NAME_INDEX_ROW_FREE <-> i ∈ fl.

Record rows_inv (idx : name_index) : Prop := {
  ri_len : Z.of_nat (length (rows idx)) = row_cap idx;
  ri_cap : row_cap idx <= 87381;
  ri_name : 0 <= name_len_max idx;
  ri_wf : forall i, 0 <= i < row_cap idx -> row_wf (row_at idx i);
  ri_live : live idx = countp is_used (rows idx);
  ri_free : exists fl, free_list_ok idx fl
}.

(** every used row satisfying [P] is reached from its name's hash *)
Definition reaches_all (idx : name_index) (t : list Z) (cap : Z) (P : Z -> Prop) : Prop :=
  forall i, 0 <= i < row_cap idx -> is_used (row_at idx i) = true -> P i ->
    chain_reaches t cap (row_hash idx (row_at idx i)) i.

Record table_built (idx : name_index) (occ load : Z) (P : Z -> Prop) : Prop := {
  tb_shape : exists k, table_shape (ht idx) (ht_cap idx) k;
  tb_mask : ht_mask idx = ht_cap idx - 1;
  tb_ptr : ht_ptr idx <> NULL;
  tb_entries : entries_ok (ht idx) (row_cap idx);
  tb_occ : occupied (ht idx) <= occ;
  tb_load : load * 100 <= ht_cap idx * 70;
  tb_reach : reaches_all idx (ht idx) (ht_cap idx) P
}.

Definition no_table (idx : name_index) : Prop := ht_cap idx = 0 /\ ht idx = [].

Definition table_inv (idx : name_index) : Prop :=
  (no_table idx /\ live idx = 0) \/
  table_built idx (live idx + 1) (live idx) (fun _ => True).

(** table state between claiming row [r] and inserting it *)
Definition table_pre (idx : name_index) (r : Z) : Prop :=
  (no_table idx /\ live idx = 1) \/
  table_built idx (live idx) (live idx - 1) (fun i => i <> r).

Definition index_inv (idx : name_index) : Prop := rows_inv idx /\ table_inv idx.

(** ** Rehash *)

Lemma place_row_none t r b :
  place_row t r b = None <-> 0 <= bucket_at t b \/ bucket_at t b < -2.
Proof.
  unfold place_row, NAME_INDEX_HT_EMPTY, NAME_INDEX_HT_TOMB.
  destruct (Z.eqb_spec (bucket_at t b) (-1)), (Z.eqb_spec (bucket_at t b) (-2)); cbn [orb];
    split; intros; try done; lia.
Qed.

Lemma rehash_rows_spec idx rs i t cap k bound :
  table_shape t cap k -> entries_ok t bound -> 0 <= i ->
  i + Z.of_nat (length rs) <= bound -> bound <= 87381 ->
  occupied t + countp is_used rs <= cap ->
  exists t', rehash_rows ops idx rs i t cap (cap - 1) = Some t' /\
    table_shape t' cap k /\ entries_ok t' bound /\
    occupied t' = occupied t + countp is_used rs /\
    (forall h r, 0 <= r -> chain_reaches t cap h r -> chain_reaches t' cap h r) /\
    (forall j r, rs !! j = Some r -> is_used r = true ->
       chain_reaches t' cap (row_hash idx r) (i + Z.of_nat j)).
Proof.
  revert i t. induction rs as [|r rs IH]; intros i t Hs He Hi Hlen Hb Hocc;
    cbn [rehash_rows countp length] in *.
  { exists t. split_and!; try done; lia. }
  pose proof (countp_range is_used rs) as Hcr.
  destruct (is_used r) eqn:Hu; cbn [Z.b2z] in Hocc.
  2:{ replace (negb (used r =? NAME_INDEX_ROW_USED) || (storage r =? NULL)) with true.
      2:{ unfold is_used in Hu. destruct (used r =? _), (storage r =? NULL); done. }
      destruct (IH (i + 1) t Hs He ltac:(lia) ltac:(lia) Hb ltac:(lia)) as (t' & -> & H1 & H2 & H3 & H4 & H5).
      exists t'. split_and!; try done.
      intros [|j] r' Hj Hu'; cbn in Hj; [congruence|].
      replace (i + Z.of_nat (S j)) with (i + 1 + Z.of_nat j) by lia. by apply H5. }
  replace (negb (used r =? NAME_INDEX_ROW_USED) || (storage r =? NULL)) with false.
  2:{ unfold is_used in Hu. destruct (used r =? _), (storage r =? NULL); done. }
  destruct (first_free_bucket (place_row t i) t cap k bound (row_hash idx r) Hs He
              (hash_name_range _ _) ltac:(lia) (place_row_none t i))
    as (b & Hbc & Hneg & Hloop & Hsome & Hreach).
  unfold row_hash in Hloop. rewrite Hloop. clear Hloop.
  destruct (place_row t i b) as [t1|] eqn:Hp; [|done].
  assert (t1 = <[Z.to_nat b := i]> t) as ->.
  { unfold place_row in Hp. destruct (_ || _); [|done]. rewrite i64_small in Hp by lia. congruence. }
  pose proof (ts_len _ _ _ Hs) as Hl.
  destruct (IH (i + 1) (<[Z.to_nat b := i]> t)) as (t' & -> & H1 & H2 & H3 & H4 & H5); [..|].
  { by apply shape_insert. }
  { apply entries_ok_insert; [lia|lia|done]. }
  { lia. } { lia. } { done. }
  { rewrite occupied_insert by lia. repeat case_bool; cbn [Z.b2z]; lia. }
  exists t'. split_and!; try done.
  - rewrite H3, occupied_insert by lia. repeat case_bool; cbn [Z.b2z]; lia.
  - intros h r' Hr' Hc. apply H4; [done|].
    eapply chain_reaches_update; [done|done| |unfold NAME_INDEX_HT_EMPTY; lia|done]. lia.
  - intros [|j] r' Hj Hu'; cbn in Hj; simplify_eq.
    + rewrite Z.add_0_r. apply H4; [lia|]. apply Hreach. lia.
    + replace (i + Z.of_nat (S j)) with (i + 1 + Z.of_nat j) by lia. by apply H5.
Qed.

Lemma empty_table_shape k : 6 <= k <= 18 ->
  table_shape (replicate (Z.to_nat (2 ^ k)) NAME_INDEX_HT_EMPTY) (2 ^ k) k /\
  occupied (replicate (Z.to_nat (2 ^ k)) NAME_INDEX_HT_EMPTY) = 0 /\
  forall bound, 0 <= bound -> entries_ok (replicate (Z.to_nat (2 ^ k)) NAME_INDEX_HT_EMPTY) bound.
Proof.
  intros Hk. split_and!.
  - split; [done|done|]. rewrite length_replicate. lia.
  - apply countp_none. intros i x Hx. apply lookup_replicate in Hx as [-> _]. done.
  - intros bound Hb b Hr. rewrite length_replicate in Hr.
    unfold bucket_at. rewrite lookup_total_replicate_2 by lia. unfold NAME_INDEX_HT_EMPTY. lia.
Qed.

(** what a rehash leaves unchanged *)
Definition same_rows (idx idx' : name_index) : Prop :=
  rows idx' = rows idx /\ row_cap idx' = row_cap idx /\ free_head idx' = free_head idx /\
  live idx' = live idx /\ name_len_max idx' = name_len_max idx /\
  rows_ptr idx' = rows_ptr idx /\ lock idx' = lock idx.

Lemma free_chain_ext idx idx' fh fl :
  row_cap idx <= row_cap idx' ->
  (forall i, i ∈ fl -> storage (row_at idx' i) = storage (row_at idx i)) ->
  free_chain idx fh fl -> free_chain idx' fh fl.
Proof.
  intros Hc. revert fh. induction fl as [|x fl IH]; intros fh Hs; cbn [free_chain]; [done|].
  intros (-> & Hx & Hrest). split_and!; [done|lia..|]. rewrite Hs by apply list_elem_of_here.
  apply IH; [|done]. intros i Hi. apply Hs. by apply list_elem_of_further.
Qed.

Lemma same_rows_inv idx idx' : same_rows idx idx' -> rows_inv idx -> rows_inv idx'.
Proof.
  intros (E1 & E2 & E3 & E4 & E5 & _) [H1 H2 H3 H4 H5 (fl & Hc & Hn & Hi)].
  assert (Er : forall i, row_at idx' i = row_at idx i) by (intros; unfold row_at; congruence).
  constructor; rewrite ?E1, ?E2, ?E4, ?E5; try done.
  - intros i. rewrite Er. apply H4.
  - exists fl. split_and!; [|done|].
    + rewrite E3. apply (free_chain_ext idx); [lia| |done]. intros. by rewrite Er.
    + intros i. rewrite E2, Er. apply Hi.
Qed.

Lemma ht_rehash_spec idx (a : A) k :
  rows_inv idx -> 6 <= k -> 2 ^ k < 2 ^ 64 -> live idx <= 2 ^ k ->
  exists e idx' a', name_index_ht_rehash ops idx a (2 ^ k) = (e, idx', a') /\
    (e <> REND_SUCCESS /\ idx' = idx \/
     e = REND_SUCCESS /\ same_rows idx idx' /\ ht_cap idx' = 2 ^ k /\
     forall load, load * 100 <= 2 ^ k * 70 -> table_built idx' (live idx) load (fun _ => True)).
Proof.
  intros Hr Hk Hk2 Hlive. unfold name_index_ht_rehash.
  destruct (SIZE_MAX / 8 <? 2 ^ k); [by eexists _, _, _; split; [done|left]|].
  destruct (m_alloc a (2 ^ k * 8)) as [p a1] eqn:Ha.
  destruct (Z.eqb_spec p NULL) as [Hp|Hp]; [by eexists _, _, _; split; [done|left]|].
  pose proof (m_alloc_bounded _ _ _ _ Ha Hp) as [_ Hsz]. unfold MIDDLE_PAGE_SIZE in Hsz.
  assert (Hk18 : k <= 18).
  { destruct (Z.le_gt_cases k 18); [done|].
    assert (2 ^ 19 <= 2 ^ k) by (apply Z.pow_le_mono_r; lia). lia. }
  destruct (empty_table_shape k ltac:(lia)) as (Hs & Ho & He).
  pose proof (ri_len _ Hr) as Hl. pose proof (ri_cap _ Hr) as Hc.
  assert (1 < 2 ^ k) by (apply Z.pow_gt_1; lia).
  rewrite (u64_small (2 ^ k - 1)) by lia.
  rewrite take_ge by lia.
  destruct (rehash_rows_spec idx (rows idx) 0 _ _ k (row_cap idx) Hs (He (row_cap idx) ltac:(lia)))
    as (t & -> & H1 & H2 & H3 & H4 & H5); [lia|lia|lia|rewrite Ho, <- (ri_live _ Hr); lia|].
  eexists _, _, _. split; [done|]. right. split_and!; [done|by split_and!|done|].
  intros load Hload. constructor; cbn [set_table ht ht_cap ht_mask ht_ptr row_cap].
  { by exists k. } { done. } { done. } { done. }
  { rewrite H3, Ho, <- (ri_live _ Hr). lia. }
  { done. }
  intros i Hi Hu _. unfold row_at in *. cbn in *.
  pose proof (H5 (Z.to_nat i) _ (lookup_total_Z (rows idx) i ltac:(lia)) Hu) as G.
  by replace (0 + Z.of_nat (Z.to_nat i)) with i in G by lia.
Qed.

(** ** Lookup *)

Lemma ht_find_bucket_sound idx name b r :
  name_index_ht_find_bucket ops idx name = (b, r) -> 0 <= b ->
  0 <= r < row_cap idx /\ is_used (row_at idx r) = true /\
  exists n, value_name ops (storage (row_at idx r)) = Some n /\
            strcmp_s n name (name_len_max idx) = 0.
Proof.
  intros Hf Hb. unfold name_index_ht_find_bucket in Hf.
  destruct (_ || _); [simplify_eq; lia|].
  match type of Hf with context [probe_loop ?bd ?h ?m ?p ?n] =>
    pose proof (probe_loop_inv bd h m p n) as Hi; destruct (probe_loop bd h m p n) as [r0|] end;
    [|simplify_eq; lia].
  subst r0. destruct Hi as (p & Hp & Hbody & _). unfold ht_find_body in Hbody.
  set (bk := probe_bucket _ _ _) in Hbody.
  destruct (bucket_at (ht idx) bk =? NAME_INDEX_HT_EMPTY); [simplify_eq; lia|].
  destruct (bucket_at (ht idx) bk =? NAME_INDEX_HT_TOMB); [done|].
  destruct (Z.leb_spec (row_cap idx) (u64 (bucket_at (ht idx) bk))); [done|].
  destruct (negb _ || _) eqn:Eu; [done|].
  destruct (value_name ops _) as [n|] eqn:En; [|done].
  destruct (Z.eqb_spec (strcmp_s n name (name_len_max idx)) 0); [|done].
  injection Hbody as _ <-. pose proof (u64_range (bucket_at (ht idx) bk)).
  split; [lia|]. split; [|by exists n].
  unfold is_used. apply orb_false_elim in Eu as [E1 E2].
  apply negb_false_iff in E1. by rewrite E1, E2.
Qed.

Lemma probe_in_table idx k h p :
  table_shape (ht idx) (ht_cap idx) k -> ht_mask idx = ht_cap idx - 1 ->
  0 <= h < 2 ^ 32 -> 0 <= p < ht_cap idx ->
  probe_bucket h p (ht_mask idx) = (h + p) mod ht_cap idx /\
  0 <= (h + p) mod ht_cap idx < ht_cap idx.
Proof.
  intros Hs Hm Hh Hp. pose proof (ts_cap_bounds _ _ _ Hs). pose proof (ts_k _ _ _ Hs).
  split; [|apply mod_bucket_range; lia].
  rewrite Hm, (ts_cap _ _ _ Hs). apply probe_bucket_spec; [lia..|].
  rewrite (ts_cap _ _ _ Hs) in *. lia.
Qed.

Lemma ht_find_bucket_complete idx name i n :
  index_inv idx -> cstr_ok name ->
  0 <= i < row_cap idx -> is_used (row_at idx i) = true ->
  value_name ops (storage (row_at idx i)) = Some n ->
  strcmp_s n name (name_len_max idx) = 0 ->
  0 <= fst (name_index_ht_find_bucket ops idx name).
Proof.
  intros [Hr Ht] Hok Hi Hu Hn Hcmp.
  pose proof (ri_len _ Hr) as Hl. pose proof (ri_cap _ Hr) as Hrc.
  assert (Hpos : 0 < live idx).
  { rewrite (ri_live _ Hr). eapply countp_lookup_pos; [|exact Hu]. apply lookup_total_Z. lia. }
  destruct Ht as [[_ Hz]|[(k & Hs) Hm Hp He _ _ Hreach]]; [lia|].
  pose proof (ts_cap_bounds _ _ _ Hs) as Hcb. pose proof (ts_len _ _ _ Hs) as Hlen.
  unfold name_index_ht_find_bucket.
  destruct (Z.eqb_spec (ht_ptr idx) NULL); [done|]. destruct (Z.eqb_spec (ht_cap idx) 0); [lia|].
  cbn [orb].
  assert (Hokn : cstr_ok n).
  { destruct (ri_wf _ Hr i Hi) as (_ & [Hf|(_ & _ & n' & Hn' & Hok')]); [|congruence].
    unfold is_used in Hu. rewrite Hf in Hu. done. }
  assert (Hhash : name_index_hash_name idx (Some name) = row_hash idx (row_at idx i)).
  { unfold row_hash. rewrite Hn. symmetry. apply hash_name_equal; [done|done|apply Hr|done]. }
  rewrite Hhash. destruct (Hreach i Hi Hu I) as (p & Hp' & Hslot & Hbefore).
  pose proof (hash_name_range idx (value_name ops (storage (row_at idx i)))) as Hh.
  fold (row_hash idx (row_at idx i)) in Hh. set (h := row_hash idx (row_at idx i)) in *.
  destruct (probe_in_table idx k h p Hs Hm Hh Hp') as [Hpb Hpr].
  pose proof (probe_loop_inv (ht_find_body ops idx name) h (ht_mask idx) 0 (Z.to_nat (ht_cap idx))) as Hinv.
  rewrite Z2Nat.id in Hinv by lia.
  assert (Hbp : ht_find_body ops idx name (probe_bucket h p (ht_mask idx)) =
                Some (i64 ((h + p) mod ht_cap idx), i)).
  { rewrite Hpb. unfold ht_find_body. unfold slot in Hslot. rewrite Hslot.
    rewrite (u64_small i) by lia.
    destruct (Z.eqb_spec i NAME_INDEX_HT_EMPTY); [unfold NAME_INDEX_HT_EMPTY in *; lia|].
    destruct (Z.eqb_spec i NAME_INDEX_HT_TOMB); [unfold NAME_INDEX_HT_TOMB in *; lia|].
    destruct (Z.leb_spec (row_cap idx) i); [lia|].
    unfold is_used in Hu. apply andb_prop in Hu as [Hu1 Hu2].
    apply negb_true_iff in Hu2. rewrite Hu1, Hu2. cbn [negb orb]. rewrite Hn, Hcmp. done. }
  destruct (probe_loop _ _ _ _ _) as [[b r]|] eqn:El.
  - destruct Hinv as (q & Hq & Hbq & Hfirst). cbn [fst].
    destruct (Z.lt_ge_cases p q) as [Hlt|Hge]; [rewrite Hfirst in Hbp by lia; done|].
    destruct (probe_in_table idx k h q Hs Hm Hh ltac:(lia)) as [Hqb Hqr].
    rewrite Hqb in Hbq. unfold ht_find_body in Hbq.
    destruct (Z.eqb_spec (bucket_at (ht idx) ((h + q) mod ht_cap idx)) NAME_INDEX_HT_EMPTY) as [E|E].
    { destruct (decide (p = q)) as [->|]; [|by apply (Hbefore q ltac:(lia)) in E].
      unfold slot in Hslot. rewrite Hslot in E. unfold NAME_INDEX_HT_EMPTY in E. lia. }
    repeat (case_match; try done). simplify_eq. rewrite i64_small by lia. lia.
  - exfalso. rewrite Hinv in Hbp by lia. done.
Qed.

(** ** Insert *)

Lemma reaches_all_weaken idx t cap (P Q : Z -> Prop) :
  (forall i, Q i -> P i) -> reaches_all idx t cap P -> reaches_all idx t cap Q.
Proof. intros H1 H2 i Hi Hu Hq. apply H2; auto. Qed.

Lemma reaches_all_rows idx idx' t cap P :
  same_rows idx idx' -> reaches_all idx t cap P -> reaches_all idx' t cap P.
Proof.
  intros (E1 & E2 & _ & _ & E5 & _) H1 i Hi Hu Hp. unfold row_at, row_hash, name_index_hash_name in *.
  rewrite E1, E5 in *. apply H1; try done. by rewrite <- E2.
Qed.

Lemma same_rows_refl idx : same_rows idx idx.
Proof. by split_and!. Qed.

Lemma same_rows_trans i1 i2 i3 : same_rows i1 i2 -> same_rows i2 i3 -> same_rows i1 i3.
Proof. unfold same_rows. intros (-> & -> & -> & -> & -> & -> & ->). done. Qed.

Lemma pow2_double cap k : cap = 2 ^ k -> 0 <= k -> u64 (cap * 2) = cap * 2 -> u64 (cap * 2) = 2 ^ (k + 1).
Proof. intros -> Hk ->. rewrite Z.pow_add_r by lia. lia. Qed.

(** growing keeps the table (possibly rebuilt with every used row in it) *)
Lemma maybe_grow_spec idx (a : A) r :
  rows_inv idx -> table_pre idx r -> 0 < live idx ->
  exists e idx' a', name_index_maybe_grow_ht ops idx a = (e, idx', a') /\
    (e <> REND_SUCCESS /\ idx' = idx \/
     e = REND_SUCCESS /\ same_rows idx idx' /\
     table_built idx' (live idx) (live idx) (fun i => i <> r)).
Proof.
  intros Hr Hp Hlive. unfold name_index_maybe_grow_ht. pose proof (ri_cap _ Hr) as Hrc.
  pose proof (ri_len _ Hr) as Hlen.
  assert (Hll : live idx <= row_cap idx)
    by (rewrite (ri_live _ Hr), <- Hlen; apply countp_range).
  assert (Hw : forall idx' l, table_built idx' l l (fun _ => True) -> table_built idx' l l (fun i => i <> r)).
  { intros idx' l []. constructor; try done. by eapply reaches_all_weaken; [|done]. }
  destruct Hp as [[[Hc0 _] Hl1]|Hb].
  - rewrite Hc0. cbn [Z.eqb].
    destruct (ht_rehash_spec idx a 6 Hr ltac:(lia) ltac:(lia)) as (e & idx' & a' & Hrun & Hcase).
    { rewrite Hl1. lia. }
    change (2 ^ 6) with NAME_INDEX_HT_INITIAL_CAP in *. rewrite Hrun.
    eexists _, _, _. split; [done|]. destruct Hcase as [?|(He & Hsr & _ & Htb)]; [by left|].
    right. split_and!; try done. apply Hw, Htb. rewrite Hl1. done.
  - destruct Hb as [(k & Hs) Hm Hpt He Ho Hload Hreach]. pose proof (ts_cap_bounds _ _ _ Hs) as Hcb.
    destruct (Z.eqb_spec (ht_cap idx) 0); [lia|]. destruct (Z.eqb_spec (live idx) 0); [lia|].
    unfold NAME_INDEX_HT_MAX_LOAD_PERCENT. rewrite !u64_small by lia.
    destruct (Z.leb_spec (live idx * 100) (ht_cap idx * 70)).
    + eexists _, _, _. split; [done|]. right. split_and!; [done|apply same_rows_refl|].
      constructor; try done. by exists k.
    + destruct (Z.ltb_spec (ht_cap idx * 2) (ht_cap idx)); [lia|].
      pose proof (ts_k _ _ _ Hs). pose proof (ts_cap _ _ _ Hs) as Hcap.
      replace (ht_cap idx * 2) with (2 ^ (k + 1)) by (rewrite Z.pow_add_r, Hcap by lia; lia).
      assert (2 ^ (k + 1) = 2 * ht_cap idx) by (rewrite Z.pow_add_r, Hcap by lia; lia).
      destruct (ht_rehash_spec idx a (k + 1) Hr ltac:(lia) ltac:(lia) ltac:(lia))
        as (e & idx' & a' & -> & Hcase).
      eexists _, _, _. split; [done|]. destruct Hcase as [?|(He' & Hsr & _ & Htb)]; [by left|].
      right. split_and!; try done. apply Hw, Htb. lia.
Qed.

Lemma ht_insert_body_none idx r b :
  ht_insert_body idx r b = None <-> 0 <= bucket_at (ht idx) b \/ bucket_at (ht idx) b < -2.
Proof.
  unfold ht_insert_body, NAME_INDEX_HT_EMPTY, NAME_INDEX_HT_TOMB.
  destruct (Z.eqb_spec (bucket_at (ht idx) b) (-1)), (Z.eqb_spec (bucket_at (ht idx) b) (-2));
    cbn [orb]; split; intros; try done; lia.
Qed.

(** one call suffices: after [maybe_grow] the probe loop always finds room,
    so the doubling recursion of the source is never entered *)
Lemma ht_insert_spec idx (a : A) r name fuel :
  rows_inv idx -> table_pre idx r -> 0 < live idx ->
  0 <= r < row_cap idx -> value_name ops (storage (row_at idx r)) = Some name ->
  exists e idx' a', name_index_ht_insert ops idx a r name (S fuel) = Some (e, idx', a') /\
    (e <> REND_SUCCESS /\ idx' = idx \/
     e = REND_SUCCESS /\ same_rows idx idx' /\ table_inv idx').
Proof.
  intros Hr Hp Hlive Hrr Hn. cbn [name_index_ht_insert].
  destruct (maybe_grow_spec idx a r Hr Hp Hlive) as (e & idx1 & a1 & -> & Hcase).
  destruct Hcase as [[He ->]|(-> & Hsr & Htb)].
  { destruct (Z.eqb_spec e REND_SUCCESS); [done|]. cbn [negb]. eexists _, _, _. split; [done|by left]. }
  change (negb (REND_SUCCESS =? REND_SUCCESS)) with false. cbn iota.
  destruct Htb as [(k & Hs) Hm Hpt He Ho Hload Hreach]. pose proof (ts_cap_bounds _ _ _ Hs) as Hcb.
  pose proof (ts_len _ _ _ Hs) as Hlen. pose proof (ri_cap _ Hr) as Hrc.
  destruct Hsr as (E1 & E2 & E3 & E4 & E5 & E6 & E7).
  assert (Hsr : same_rows idx idx1) by by split_and!.
  destruct (first_free_bucket (ht_insert_body idx1 r) (ht idx1) (ht_cap idx1) k (row_cap idx1)
    (name_index_hash_name idx1 (Some name)) Hs He (hash_name_range _ _) ltac:(lia)
    (ht_insert_body_none idx1 r)) as (b & Hb & Hneg & Hloop & Hsome & Hnew).
  rewrite Hm, Hloop. unfold ht_insert_body in Hsome |- *.
  destruct (_ || _); [|done]. rewrite (i64_small r) by lia.
  eexists _, _, _. split; [done|]. right. split; [done|].
  match goal with |- context [set_ht _ ?t _] => generalize t; intros tombs end.
  assert (Hsr' : same_rows idx1 (set_ht (<[Z.to_nat b:=r]> (ht idx1)) tombs idx1)) by by split_and!.
  split; [by eapply same_rows_trans|]. right.
  constructor; cbn [set_ht set_table ht ht_cap ht_mask ht_ptr row_cap live].
  - exists k. by apply shape_insert.
  - done.
  - done.
  - apply entries_ok_insert; [lia|lia|done].
  - rewrite occupied_insert by lia. repeat case_bool; cbn [Z.b2z]; lia.
  - by rewrite E4.
  - apply (reaches_all_rows idx1); [done|]. intros i Hi Hu _.
    destruct (decide (i = r)) as [->|Hne].
    + unfold row_hash, row_at in *. rewrite E1, Hn. apply Hnew. lia.
    + eapply chain_reaches_update; [done|lia| |unfold NAME_INDEX_HT_EMPTY; lia|by apply Hreach]. lia.
Qed.

(** ** Remove *)

Lemma chain_reaches_remove t cap k h b r :
  table_shape t cap k -> 0 <= b < cap -> bucket_at t b <> r ->
  chain_reaches t cap h r -> chain_reaches (<[Z.to_nat b := NAME_INDEX_HT_TOMB]> t) cap h r.
Proof. intros. by eapply chain_reaches_update. Qed.

Lemma ht_remove_spec idx r name :
  rows_inv idx -> table_built idx (live idx + 1) (live idx) (fun _ => True) ->
  0 <= r < row_cap idx -> is_used (row_at idx r) = true ->
  value_name ops (storage (row_at idx r)) = Some name ->
  exists idx', name_index_ht_remove idx r name = idx' /\ same_rows idx idx' /\
    table_built idx' (live idx) (live idx) (fun i => i <> r) /\ ht_cap idx' = ht_cap idx.
Proof.
  intros Hr [(k & Hs) Hm Hpt He Ho Hload Hreach] Hrr Hu Hn. eexists. split; [done|].
  pose proof (ts_cap_bounds _ _ _ Hs) as Hcb. pose proof (ts_len _ _ _ Hs) as Hlen.
  pose proof (ri_cap _ Hr) as Hrc. unfold name_index_ht_remove.
  destruct (Hreach r Hrr Hu I) as (p & Hp & Hslot & Hbefore).
  unfold row_hash in Hslot, Hbefore. rewrite Hn in Hslot, Hbefore.
  pose proof (hash_name_range idx (Some name)) as Hh.
  set (h := name_index_hash_name idx (Some name)) in *.
  pose proof (probe_loop_inv (ht_remove_body idx r) h (ht_mask idx) 0 (Z.to_nat (ht_cap idx))) as Hinv.
  rewrite Z2Nat.id in Hinv by lia.
  destruct (probe_in_table idx k h p Hs Hm Hh Hp) as [Hpb Hpr].
  assert (Hbp : ht_remove_body idx r (probe_bucket h p (ht_mask idx)) <> None).
  { rewrite Hpb. unfold ht_remove_body. unfold slot in Hslot. rewrite Hslot, (i64_small r) by lia.
    destruct (r =? NAME_INDEX_HT_EMPTY); [done|].
    destruct (Z.eqb_spec r NAME_INDEX_HT_TOMB); [unfold NAME_INDEX_HT_TOMB in *; lia|].
    by rewrite Z.eqb_refl. }
  destruct (probe_loop _ _ _ _ _) as [idx1|]; [|by rewrite Hinv in Hbp by lia].
  destruct Hinv as (q & Hq & Hbq & Hfirst).
  destruct (Z.lt_ge_cases p q) as [Hlt|Hge]; [by rewrite Hfirst in Hbp by lia|].
  destruct (probe_in_table idx k h q Hs Hm Hh ltac:(lia)) as [Hqb Hqr].
  rewrite Hqb in Hbq. unfold ht_remove_body in Hbq. rewrite (i64_small r) in Hbq by lia.
  set (b := (h + q) mod ht_cap idx) in *.
  destruct (Z.eqb_spec (bucket_at (ht idx) b) NAME_INDEX_HT_EMPTY) as [E|E].
  { exfalso. destruct (decide (p = q)) as [->|]; [|by apply (Hbefore q ltac:(lia)) in E].
    unfold slot in Hslot. fold b in Hslot. rewrite Hslot in E. unfold NAME_INDEX_HT_EMPTY in E. lia. }
  destruct (bucket_at (ht idx) b =? NAME_INDEX_HT_TOMB); [done|].
  destruct (Z.eqb_spec (bucket_at (ht idx) b) r) as [Eb|]; [|done]. cbn [negb] in Hbq.
  injection Hbq as <-.
  assert (Hsr : same_rows idx (set_ht (<[Z.to_nat b:=NAME_INDEX_HT_TOMB]> (ht idx)) (u64 (ht_tombs idx + 1)) idx))
    by by split_and!.
  split; [done|]. split; [|done].
  constructor; cbn [set_ht set_table ht ht_cap ht_mask ht_ptr row_cap live].
  - exists k. by apply shape_insert.
  - done.
  - done.
  - apply entries_ok_insert; [lia|unfold NAME_INDEX_HT_TOMB; lia|done].
  - rewrite occupied_insert, Eb by lia. change (0 <=? NAME_INDEX_HT_TOMB) with false.
    case_bool; cbn [Z.b2z]; lia.
  - done.
  - apply (reaches_all_rows idx); [done|]. intros i Hi Hu' Hne.
    eapply chain_reaches_remove; [done|lia|lia|by apply Hreach].
Qed.

(** ** Rows and the free list *)

(** the index as a partial map from rows to values *)
Definition row_value (idx : name_index) (i : Z) : option Z :=
  if is_used (row_at idx i) then Some (storage (row_at idx i)) else None.

Lemma row_at_set_row_eq idx i r :
  0 <= i < Z.of_nat (length (rows idx)) -> row_at (set_row i r idx) i = r.
Proof. apply insert_total_eq_Z. Qed.

Lemma row_at_set_row_ne idx i j r :
  0 <= i -> 0 <= j -> i <> j -> row_at (set_row i r idx) j = row_at idx j.
Proof. apply insert_total_ne_Z. Qed.

Lemma row_at_set_free_live idx fh l i : row_at (set_free_live fh l idx) i = row_at idx i.
Proof. done. Qed.

Lemma row_value_same_rows idx idx' i : same_rows idx idx' -> row_value idx' i = row_value idx i.
Proof. intros (E & _). unfold row_value, row_at. by rewrite E. Qed.

Lemma live_bounds idx : rows_inv idx -> 0 <= live idx <= row_cap idx.
Proof.
  intros Hr. rewrite (ri_live _ Hr), <- (ri_len _ Hr). apply countp_range.
Qed.

Lemma used_live_pos idx i :
  rows_inv idx -> 0 <= i < row_cap idx -> is_used (row_at idx i) = true -> 0 < live idx.
Proof.
  intros Hr Hi Hu. rewrite (ri_live _ Hr). eapply countp_lookup_pos; [|exact Hu].
  apply lookup_total_Z. pose proof (ri_len _ Hr). lia.
Qed.

Lemma free_chain_in idx fh fl j : free_chain idx fh fl -> j ∈ fl -> 0 <= j < row_cap idx.
Proof.
  revert fh. induction fl as [|y fl IH]; intros fh Hc Hj; [by apply elem_of_nil in Hj|].
  destruct Hc as (_ & Hy & Hc). apply elem_of_cons in Hj as [->|Hj]; [done|]. by eapply IH.
Qed.

(** take the head [i] of the free list and make it a used row *)
Definition claim_row (idx : name_index) (i value : Z) : name_index :=
  set_free_live (storage (row_at idx i)) (u64 (live idx + 1))
    (set_row i (mk_row (gen (row_at idx i)) NAME_INDEX_ROW_USED value) idx).

Lemma claim_row_spec idx value name :
  index_inv idx -> value <> NULL -> value_name ops value = Some name -> cstr_ok name ->
  0 <= free_head idx < row_cap idx ->
  let i := free_head idx in let idx' := claim_row idx i value in
  used (row_at idx i) = NAME_INDEX_ROW_FREE /\
  rows_inv idx' /\ table_pre idx' i /\ live idx' = live idx + 1 /\ row_at idx' i = mk_row (gen (row_at idx i)) NAME_INDEX_ROW_USED value /\
  (forall j, 0 <= j -> j <> i -> row_at idx' j = row_at idx j).
Proof.
  intros [Hr Ht] Hv Hn Hok Hfh i idx'. destruct (ri_free _ Hr) as (fl & Hc & Hnd & Hfl).
  pose proof (ri_len _ Hr) as Hlen. pose proof (live_bounds _ Hr) as Hlb. pose proof (ri_cap _ Hr) as Hrc.
  destruct fl as [|i' fl]; cbn [free_chain] in Hc.
  { unfold NAME_INDEX_FREE_HEAD_INVALID, U64_MAX in Hc. lia. }
  destruct Hc as (Hi' & _ & Hc). subst i'. fold i in Hc, Hnd, Hfl, Hfh.
  apply list.NoDup_cons in Hnd as [Hni Hnd].
  assert (Hfree : used (row_at idx i) = NAME_INDEX_ROW_FREE)
    by (apply Hfl; [done|apply list_elem_of_here]).
  assert (Hne : forall j, 0 <= j -> j <> i -> row_at idx' j = row_at idx j).
  { intros j Hj Hji. unfold idx', claim_row. rewrite row_at_set_free_live.
    apply row_at_set_row_ne; [lia|done|done]. }
  assert (Heq : row_at idx' i = mk_row (gen (row_at idx i)) NAME_INDEX_ROW_USED value).
  { unfold idx', claim_row. rewrite row_at_set_free_live. apply row_at_set_row_eq. lia. }
  assert (Hnu : is_used (row_at idx i) = false) by (unfold is_used; by rewrite Hfree).
  assert (Hlive : live idx' = live idx + 1).
  { unfold idx', claim_row. cbn [set_free_live live]. apply u64_small. lia. }
  assert (Hr' : rows_inv idx').
  { constructor.
    - unfold idx', claim_row. cbn. rewrite length_insert. done.
    - done.
    - apply Hr.
    - intros j Hj. destruct (decide (j = i)) as [->|Hji].
      + rewrite Heq. split; [apply (ri_wf _ Hr i Hfh)|]. right. split_and!; [done|done|]. by exists name.
      + rewrite Hne by lia. by apply (ri_wf _ Hr).
    - rewrite Hlive. unfold idx', claim_row. cbn [set_free_live set_row set_rows rows].
      rewrite (countp_insert _ _ _ _ (row_at idx i)) by (apply lookup_total_Z; lia).
      rewrite Hnu, (ri_live _ Hr). unfold is_used. cbn.
      destruct (Z.eqb_spec value NULL); [done|]. cbn. lia.
    - exists fl. split_and!; [|done|].
      + apply (free_chain_ext idx); [done| |done]. intros j Hj.
        pose proof (free_chain_in _ _ _ _ Hc Hj) as Hjr.
        rewrite Hne; [done|lia|]. intros ->. done.
      + intros j Hj. change (row_cap idx') with (row_cap idx) in Hj.
        destruct (decide (j = i)) as [->|Hji].
        * rewrite Heq. cbn. split; [done|]. intros Hin. done.
        * rewrite Hne by lia. rewrite Hfl by done. rewrite elem_of_cons. tauto. }
  split_and!; try done. destruct Ht as [[Hnt Hl0]|[Hs Hm Hp He Ho Hl Hre]].
  - left. split; [done|]. lia.
  - right. constructor; try done; [unfold idx', claim_row in *; cbn [set_free_live set_row set_rows ht live] in *; lia| |].
    + rewrite Hlive. replace (live idx + 1 - 1) with (live idx) by lia. done.
    + intros j Hj Hu Hji. rewrite Hne in Hu |- * by (done || lia). by apply Hre.
Qed.

(** give a used row back to the free list with generation [g] *)
Definition free_row (idx : name_index) (i g : Z) : name_index :=
  set_free_live i (if negb (live idx =? 0) then live idx - 1 else live idx)
    (set_row i (mk_row g NAME_INDEX_ROW_FREE (free_head idx)) idx).

Lemma free_row_spec idx i g :
  rows_inv idx -> 0 <= i < row_cap idx -> is_used (row_at idx i) = true -> 0 <= g < 2 ^ 64 ->
  let idx' := free_row idx i g in
  rows_inv idx' /\ live idx' = live idx - 1 /\
  row_at idx' i = mk_row g NAME_INDEX_ROW_FREE (free_head idx) /\
  (forall j, 0 <= j -> j <> i -> row_at idx' j = row_at idx j).
Proof.
  intros Hr Hi Hu Hg idx'. pose proof (used_live_pos _ _ Hr Hi Hu) as Hpos.
  pose proof (ri_len _ Hr) as Hlen. destruct (ri_free _ Hr) as (fl & Hc & Hnd & Hfl).
  assert (Hne : forall j, 0 <= j -> j <> i -> row_at idx' j = row_at idx j).
  { intros j Hj Hji. unfold idx', free_row. rewrite row_at_set_free_live.
    apply row_at_set_row_ne; [lia|done|done]. }
  assert (Heq : row_at idx' i = mk_row g NAME_INDEX_ROW_FREE (free_head idx)).
  { unfold idx', free_row. rewrite row_at_set_free_live. apply row_at_set_row_eq. lia. }
  assert (Hlive : live idx' = live idx - 1).
  { unfold idx', free_row. cbn [set_free_live live]. destruct (Z.eqb_spec (live idx) 0); [lia|done]. }
  split_and!; try done. constructor.
  - unfold idx', free_row. cbn. rewrite length_insert. done.
  - apply Hr.
  - apply Hr.
  - intros j Hj. destruct (decide (j = i)) as [->|Hji].
    + rewrite Heq. split; [done|]. by left.
    + rewrite Hne by lia. by apply (ri_wf _ Hr).
  - rewrite Hlive. unfold idx', free_row. cbn [set_free_live set_row set_rows rows].
    rewrite (countp_insert _ _ _ _ (row_at idx i)) by (apply lookup_total_Z; lia).
    rewrite Hu, (ri_live _ Hr). cbn. lia.
  - assert (Hnin : i ∉ fl).
    { intros Hin. apply Hfl in Hin; [|done]. unfold is_used in Hu. rewrite Hin in Hu. discriminate Hu. }
    exists (i :: fl). split_and!.
    + cbn [free_chain]. split; [done|]. split; [done|]. rewrite Heq. cbn [storage].
      apply (free_chain_ext idx); [done| |done]. intros j Hj.
      pose proof (free_chain_in _ _ _ _ Hc Hj). rewrite Hne; [done|lia|]. by intros ->.
    + by apply list.NoDup_cons.
    + intros j Hj. change (row_cap idx') with (row_cap idx) in Hj. rewrite elem_of_cons.
      destruct (decide (j = i)) as [->|Hji]; [rewrite Heq; split; [by left|done]|].
      rewrite Hne by lia. rewrite Hfl by done. tauto.
Qed.

Lemma free_row_table idx i g :
  rows_inv idx -> 0 <= i < row_cap idx -> is_used (row_at idx i) = true -> 0 <= g < 2 ^ 64 ->
  table_built idx (live idx) (live idx) (fun j => j <> i) ->
  table_inv (free_row idx i g).
Proof.
  intros Hr Hi Hu Hg [Hs Hm Hp He Ho Hl Hre].
  destruct (free_row_spec idx i g Hr Hi Hu Hg) as (Hr' & Hlive & Heq & Hne). right.
  constructor; try done; rewrite ?Hlive; [change (ht (free_row idx i g)) with (ht idx); lia|change (ht_cap (free_row idx i g)) with (ht_cap idx); lia|].
  intros j Hj Hu' _. destruct (decide (j = i)) as [->|Hji]; [rewrite Heq in Hu'; discriminate Hu'|].
  rewrite Hne in Hu' |- * by lia. by apply Hre.
Qed.

(** ** Growing the row array when no row is free *)

Lemma fresh_rows_length o n t : 0 <= o <= n -> Z.of_nat (length (fresh_rows o n t)) = n - o.
Proof. intros. unfold fresh_rows. rewrite length_map, length_seq. lia. Qed.

Lemma fresh_rows_lookup o n t k :
  0 <= k < n - o -> fresh_rows o n t !! Z.to_nat k = Some (fresh_row n t (o + k)).
Proof.
  intros Hk. unfold fresh_rows. rewrite list_lookup_fmap, lookup_seq_lt by lia. cbn. do 2 f_equal. lia.
Qed.

Lemma fresh_chain idx o n :
  row_cap idx = n -> n <= 87381 -> 0 <= o ->
  (forall i, o <= i < n -> row_at idx i = fresh_row n NAME_INDEX_FREE_HEAD_INVALID i) ->
  forall m, Z.of_nat m = n - o ->
  free_chain idx (if Z.eqb o n then NAME_INDEX_FREE_HEAD_INVALID else o) (map (fun k => o + Z.of_nat k) (seq 0 m)).
Proof.
  intros Hcap Hn Ho Hrow m. revert o Ho Hrow. induction m as [|m IH]; intros o Ho Hrow Hm.
  - cbn. destruct (Z.eqb_spec o n); [done|lia].
  - cbn [seq map free_chain]. destruct (Z.eqb_spec o n); [lia|]. rewrite Z.add_0_r.
    split; [done|]. split; [lia|]. rewrite Hrow by lia. unfold fresh_row. cbn [storage].
    rewrite u64_small by lia.
    replace (if o + 1 <? n then o + 1 else NAME_INDEX_FREE_HEAD_INVALID)
      with (if o + 1 =? n then NAME_INDEX_FREE_HEAD_INVALID else o + 1)
      by (repeat case_bool).
    rewrite <- seq_shift, map_map.
    erewrite map_ext; [apply IH; [lia| |lia]|].
    + intros i Hi. apply Hrow. lia.
    + intros k. cbn. lia.
Qed.

Lemma grow_row_array_spec idx (a : A) :
  rows_inv idx -> table_inv idx -> free_head idx = NAME_INDEX_FREE_HEAD_INVALID -> 0 <= row_cap idx ->
  exists e idx' a', name_index_grow_row_array idx a = (e, idx', a') /\
    (e <> REND_SUCCESS /\ idx' = idx \/
     e = REND_SUCCESS /\ index_inv idx' /\ free_head idx' = row_cap idx /\
     row_cap idx < row_cap idx' /\
     (forall i, 0 <= i < row_cap idx -> row_at idx' i = row_at idx i) /\
     (forall i, row_cap idx <= i < row_cap idx' ->
        used (row_at idx' i) = NAME_INDEX_ROW_FREE /\ gen (row_at idx' i) = 0)).
Proof.
  intros Hr Ht Hfh H0. unfold name_index_grow_row_array.
  pose proof (ri_len _ Hr) as Hlen. pose proof (ri_cap _ Hr) as Hrc.
  set (new_cap := if negb (row_cap idx =? 0) then _ else _).
  assert (Hnew : row_cap idx < new_cap).
  { unfold new_cap, NAME_INDEX_ROWS_INITIAL_CAP. destruct (Z.eqb_spec (row_cap idx) 0); cbn [negb]; [lia|].
    rewrite u64_small by lia. lia. }
  clearbody new_cap.
  destruct (negb (row_cap idx =? 0) && (new_cap <? row_cap idx)) eqn:E0; [bool_hyps; lia|].
  destruct (SIZE_MAX / 24 <? new_cap); [eexists _, _, _; split; [done|by left]|].
  destruct (m_alloc a (new_cap * 24)) as [p a1] eqn:Ha.
  destruct (Z.eqb_spec p NULL) as [Hp|Hp]; [eexists _, _, _; split; [done|by left]|].
  pose proof (m_alloc_bounded _ _ _ _ Ha Hp) as [_ Hsz]. unfold MIDDLE_PAGE_SIZE in Hsz.
  (* both branches of the source build the same value *)
  set (rows' := rows idx ++ fresh_rows (row_cap idx) new_cap NAME_INDEX_FREE_HEAD_INVALID).
  set (idx' := set_free_live (row_cap idx) (live idx) (set_rows p rows' new_cap idx)).
  exists REND_SUCCESS, idx', (if negb (row_cap idx =? 0) then m_free a1 (rows_ptr idx) else a1).
  split.
  { destruct (Z.eqb_spec (row_cap idx) 0) as [Ez|Ez]; cbn [negb]; unfold idx', rows'.
    - rewrite Ez in *. destruct (rows idx) as [|? ?] eqn:Er; [|cbn in Hlen; lia]. done.
    - rewrite take_ge, Hfh by lia. done. }
  right. split; [done|].
  assert (Hold : forall i, 0 <= i < row_cap idx -> row_at idx' i = row_at idx i).
  { intros i Hi. unfold row_at, idx', rows'. cbn. rewrite lookup_total_app_l by lia. done. }
  assert (Hfresh : forall i, row_cap idx <= i < new_cap ->
            row_at idx' i = fresh_row new_cap NAME_INDEX_FREE_HEAD_INVALID i).
  { intros i Hi. unfold row_at, idx', rows'. cbn. rewrite lookup_total_app_r by lia.
    apply list_lookup_total_correct.
    replace (Z.to_nat i - length (rows idx))%nat with (Z.to_nat (i - row_cap idx)) by lia.
    rewrite fresh_rows_lookup by lia. do 2 f_equal. lia. }
  assert (Hnil : forall fl, free_list_ok idx fl -> fl = []).
  { intros [|x fl] (Hc & _ & _); [done|]. destruct Hc as (Hx & Hxr & _).
    rewrite Hfh in Hx. unfold NAME_INDEX_FREE_HEAD_INVALID, U64_MAX in Hx. lia. }
  split_and!; [split| done | done | done |].
  - constructor; cbn [idx' set_free_live set_rows rows row_cap live name_len_max].
    + unfold rows'. rewrite length_app, Nat2Z.inj_add, fresh_rows_length by lia. lia.
    + lia.
    + apply Hr.
    + intros i Hi. destruct (Z.lt_ge_cases i (row_cap idx)).
      * rewrite Hold by lia. apply (ri_wf _ Hr). lia.
      * rewrite Hfresh by lia. split; [done|by left].
    + unfold rows'. rewrite countp_app, <- (ri_live _ Hr).
      rewrite (countp_none _ (fresh_rows _ _ _)); [lia|]. intros i x Hx.
      pose proof (lookup_lt_Some _ _ _ Hx) as Hi.
      pose proof (fresh_rows_length (row_cap idx) new_cap NAME_INDEX_FREE_HEAD_INVALID ltac:(lia)).
      rewrite <- (Nat2Z.id i), fresh_rows_lookup in Hx by lia. by injection Hx as <-.
    + destruct (ri_free _ Hr) as (fl & Hfl). rewrite (Hnil fl Hfl) in Hfl. destruct Hfl as (_ & _ & Hfl).
      exists (map (fun k => row_cap idx + Z.of_nat k) (seq 0 (Z.to_nat (new_cap - row_cap idx)))).
      split_and!.
      * pose proof (fresh_chain idx' (row_cap idx) new_cap eq_refl ltac:(lia) ltac:(lia) Hfresh
          (Z.to_nat (new_cap - row_cap idx)) ltac:(lia)) as Hch.
        destruct (Z.eqb_spec (row_cap idx) new_cap); [lia|]. exact Hch.
      * apply NoDup_fmap_2; [intros ???; lia|apply NoDup_seq].
      * intros i Hi. change (row_cap idx') with new_cap in Hi. rewrite list_elem_of_fmap.
        destruct (Z.lt_ge_cases i (row_cap idx)).
        -- rewrite Hold, Hfl by lia. split; [intros Hx; by apply elem_of_nil in Hx|].
           intros (k & -> & _). lia.
        -- rewrite Hfresh by lia. split; [|done]. intros _. exists (Z.to_nat (i - row_cap idx)).
           split; [lia|]. apply elem_of_seq. lia.
  - destruct Ht as [[Hnt Hl0]|[Hs Hm Hpt He Ho Hl Hre]]; [by left|right].
    constructor; try done.
    + intros b Hb. specialize (He b Hb). cbn [idx' set_free_live set_rows row_cap]. change (ht idx') with (ht idx). lia.
    + intros i Hi Hu _. cbn [idx' set_free_live set_rows row_cap] in Hi.
      destruct (Z.lt_ge_cases i (row_cap idx)).
      * rewrite Hold in Hu |- * by lia. apply Hre; try done. lia.
      * by rewrite Hfresh in Hu by lia.
  - intros i Hi. rewrite Hfresh by (cbn [idx' set_free_live set_rows row_cap] in Hi; lia). done.
Qed.

(** ** Shrinking keeps the invariant and every row *)

Lemma maybe_shrink_spec idx (a : A) :
  index_inv idx ->
  index_inv (fst (name_index_maybe_shrink_ht ops idx a)) /\
  same_rows idx (fst (name_index_maybe_shrink_ht ops idx a)).
Proof.
  intros Hi. assert (Hsame : index_inv idx /\ same_rows idx idx) by (split; [done|apply same_rows_refl]).
  destruct Hi as [Hr Ht]. unfold name_index_maybe_shrink_ht.
  destruct (Z.leb_spec (ht_cap idx) NAME_INDEX_HT_INITIAL_CAP) as [|Hcap]; [done|].
  destruct (ht_tombs idx =? 0); [done|].
  destruct Ht as [[[Hz _] _]|[(k & Hs) Hm Hpt He Ho Hl Hre]];
    [rewrite Hz in Hcap; unfold NAME_INDEX_HT_INITIAL_CAP in Hcap; lia|].
  pose proof (ts_cap_bounds _ _ _ Hs) as Hcb. pose proof (live_bounds _ Hr) as Hlb.
  pose proof (ri_cap _ Hr) as Hrc. pose proof (ts_cap _ _ _ Hs) as Hck.
  assert (Hreh : forall j, 6 <= j <= 18 -> live idx * 100 <= 2 ^ j * 70 ->
    index_inv (snd (fst (name_index_ht_rehash ops idx a (2 ^ j)))) /\
    same_rows idx (snd (fst (name_index_ht_rehash ops idx a (2 ^ j))))).
  { intros j Hj Hload. assert (2 ^ 6 <= 2 ^ j <= 2 ^ 18) by (split; apply Z.pow_le_mono_r; lia).
    destruct (ht_rehash_spec idx a j Hr ltac:(lia) ltac:(lia) ltac:(lia)) as (e & idx' & a' & -> & Hc).
    cbn [fst snd]. destruct Hc as [[_ ->]|(_ & Hsr & _ & Htb)]; [done|]. split; [|done].
    split; [by eapply same_rows_inv|]. right. destruct (Htb (live idx) Hload) as [G1 G2 G3 G4 G5 G6 G7].
    destruct Hsr as (_ & _ & _ & E4 & _). constructor; try done; rewrite E4; [lia|done]. }
  assert (Hfin : forall t, (exists j, 6 <= j <= 18 /\ t = 2 ^ j /\ live idx * 100 <= 2 ^ j * 70) ->
    let r := (if u64 (ht_tombs idx * 100) <? u64 (ht_cap idx * NAME_INDEX_HT_SHRINK_TOMB_PERCENT)
              then (idx, a)
              else if t =? ht_cap idx then (idx, a)
              else let '(_, i, a0) := name_index_ht_rehash ops idx a t in (i, a0)) in
    index_inv (fst r) /\ same_rows idx (fst r)).
  { intros t (j & Hj & -> & Hload) r. unfold r. destruct (_ <? _); [done|]. destruct (_ =? _); [done|].
    specialize (Hreh j Hj Hload). by destruct (name_index_ht_rehash ops idx a (2 ^ j)) as [[? ?] ?]. }
  destruct (Z.eqb_spec (live idx) 0) as [El|El].
  - apply Hfin. exists 6. split_and!; [lia|lia|done|lia].
  - unfold NAME_INDEX_HT_SHRINK_LOAD_PERCENT. rewrite !u64_small by lia.
    destruct (Z.ltb_spec (ht_cap idx * 25) (live idx * 100)); [done|].
    apply Hfin. pose proof (ts_k _ _ _ Hs).
    assert (k <> 6) by (intros ->; rewrite Hck in Hcap; unfold NAME_INDEX_HT_INITIAL_CAP in Hcap; lia).
    assert (Hhalf : ht_cap idx = 2 * 2 ^ (k - 1)).
    { rewrite Hck. replace k with (1 + (k - 1)) at 1 by lia. rewrite Z.pow_add_r by lia. lia. }
    assert (2 ^ 6 <= 2 ^ (k - 1)) by (apply Z.pow_le_mono_r; lia).
    exists (k - 1). replace (ht_cap idx / 2) with (2 ^ (k - 1)) by (rewrite Hhalf; dlia).
    split_and!; [lia|lia| |lia]. unfold NAME_INDEX_HT_INITIAL_CAP. case_bool.
Qed.

(** ** The operations *)

Lemma bootstrap_spec idx (a : A) :
  index_inv idx -> 0 <= row_cap idx ->
  exists e idx' a', name_index_bootstrap ops idx a = (e, idx', a') /\ index_inv idx' /\
    row_cap idx <= row_cap idx' /\
    (e = REND_SUCCESS -> 0 < row_cap idx') /\
    (forall i, 0 <= i < row_cap idx -> row_at idx' i = row_at idx i) /\
    (forall i, row_cap idx <= i < row_cap idx' -> used (row_at idx' i) = NAME_INDEX_ROW_FREE /\ gen (row_at idx' i) = 0).
Proof.
  intros Hinv H0. unfold name_index_bootstrap.
  destruct (Z.eqb_spec (row_cap idx) 0) as [Ez|Ez]; cbn [negb].
  2:{ eexists _, _, _. split; [done|]. split; [done|]. split; [lia|]. split; [lia|]. split; [done|]. intros; lia. }
  destruct Hinv as [Hr Ht].
  assert (Hfh : free_head idx = NAME_INDEX_FREE_HEAD_INVALID).
  { destruct (ri_free _ Hr) as ([|x fl] & Hc & _ & _); [done|]. destruct Hc as (_ & ? & _). lia. }
  destruct (grow_row_array_spec idx a Hr Ht Hfh H0) as (e & idx1 & a1 & -> & [[He ->]|(-> & Hi1 & Hfh1 & Hcap & Hold & Hnew)]).
  { destruct (Z.eqb_spec e REND_SUCCESS); [done|]. cbn [negb].
    eexists _, _, _. split; [done|]. split; [done|]. split; [lia|]. split; [done|]. split; [done|]. intros; lia. }
  change (negb (REND_SUCCESS =? REND_SUCCESS)) with false. cbn iota.
  destruct Hi1 as [Hr1 Ht1].
  assert (Hl0 : live idx1 = 0).
  { rewrite (ri_live _ Hr1). apply countp_none. intros i x Hx. pose proof (lookup_lt_Some _ _ _ Hx).
    destruct (Hnew (Z.of_nat i)) as [Hu _]; [rewrite <- (ri_len _ Hr1); lia|].
    unfold row_at in Hu. rewrite Nat2Z.id, (list_lookup_total_correct _ _ _ Hx) in Hu.
    unfold is_used. by rewrite Hu. }
  destruct (ht_rehash_spec idx1 a1 6 Hr1 ltac:(lia) ltac:(lia) ltac:(lia)) as (e & idx2 & a2 & Hreh & Hc).
  change NAME_INDEX_HT_INITIAL_CAP with (2 ^ 6). rewrite Hreh.
  eexists _, _, _. split; [done|]. destruct Hc as [[He ->]|(-> & Hsr & _ & Htb)].
  { split; [done|]. split; [lia|]. split; [done|]. split; [intros; by apply Hold|done]. }
  pose proof (same_rows_inv _ _ Hsr Hr1) as Hr2.
  destruct Hsr as (E1 & E2 & E3 & E4 & E5 & E6 & E7). unfold row_at in *. rewrite E1, E2.
  split; [split; [done|]; right|split; [lia|split; [lia|split; done]]].
  destruct (Htb 0 ltac:(lia)) as [G1 G2 G3 G4 G5 G6 G7].
  constructor; try done; lia.
Qed.

(** [free_row] with the generation kept: the undo of [register] *)
Lemma unclaim_rows idx i value name :
  index_inv idx -> value <> NULL -> value_name ops value = Some name -> cstr_ok name ->
  i = free_head idx -> 0 <= i < row_cap idx ->
  index_inv (free_row (claim_row idx i value) i (gen (row_at idx i))) /\
  (forall j, 0 <= j -> row_value (free_row (claim_row idx i value) i (gen (row_at idx i))) j = row_value idx j).
Proof.
  intros Hinv Hv Hn Hok -> Hi.
  destruct (claim_row_spec idx value name Hinv Hv Hn Hok Hi) as (Hfree & Hr & Hp & Hl & Heq & Hne).
  set (i := free_head idx) in *. set (idx1 := claim_row idx i value) in *.
  assert (Hu : is_used (row_at idx1 i) = true).
  { rewrite Heq. unfold is_used. cbn. by destruct (Z.eqb_spec value NULL). }
  pose proof (proj1 (ri_wf _ (proj1 Hinv) i Hi)) as Hg.
  destruct (free_row_spec idx1 i (gen (row_at idx i)) Hr Hi Hu Hg) as (Hr2 & Hl2 & Heq2 & Hne2).
  set (idx2 := free_row idx1 i (gen (row_at idx i))) in *.
  assert (Hrow : forall j, 0 <= j -> j <> i -> row_at idx2 j = row_at idx j).
  { intros j Hj Hji. by rewrite Hne2, Hne. }
  assert (Hnu : forall r, used r = NAME_INDEX_ROW_FREE -> is_used r = false) by (intros r E; unfold is_used; by rewrite E).
  split.
  - split; [done|]. destruct (proj2 Hinv) as [[Hnt Hl0]|[Hs Hm Hpt He Ho Hlo Hre]].
    + left. split; [exact Hnt|]. lia.
    + right. constructor; try done; rewrite ?Hl2, ?Hl; [change (ht idx2) with (ht idx); lia|change (ht_cap idx2) with (ht_cap idx); lia|].
      intros j Hj Hu' _. destruct (decide (j = i)) as [->|Hji]; [rewrite Heq2 in Hu'; discriminate Hu'|].
      rewrite Hrow in Hu' |- * by lia. by apply Hre.
  - intros j Hj. unfold row_value. destruct (decide (j = i)) as [->|Hji].
    + rewrite Heq2, (Hnu (row_at idx i) Hfree). done.
    + by rewrite Hrow.
Qed.

Lemma row_value_out idx i : rows_inv idx -> row_cap idx <= i -> row_value idx i = None.
Proof.
  intros Hr Hi. pose proof (ri_len _ Hr). unfold row_value, row_at.
  rewrite list_lookup_total_alt, lookup_ge_None_2 by lia. done.
Qed.

Lemma row_gen_out idx i : rows_inv idx -> row_cap idx <= i -> gen (row_at idx i) = 0.
Proof.
  intros Hr Hi. pose proof (ri_len _ Hr). unfold row_at.
  rewrite list_lookup_total_alt, lookup_ge_None_2 by lia. done.
Qed.

(** growth does not change the abstract content *)
Lemma grown_content idx idx' :
  index_inv idx -> index_inv idx' ->
  (forall i, 0 <= i < row_cap idx -> row_at idx' i = row_at idx i) ->
  (forall i, row_cap idx <= i < row_cap idx' -> used (row_at idx' i) = NAME_INDEX_ROW_FREE /\ gen (row_at idx' i) = 0) ->
  row_cap idx <= row_cap idx' ->
  forall j, 0 <= j -> row_value idx' j = row_value idx j /\ gen (row_at idx' j) = gen (row_at idx j).
Proof.
  intros [Hr _] [Hr' _] Hold Hnew Hle j Hj.
  destruct (Z.lt_ge_cases j (row_cap idx)); [unfold row_value; by rewrite Hold by lia|].
  rewrite (row_value_out idx), (row_gen_out idx) by done.
  destruct (Z.lt_ge_cases j (row_cap idx')).
  - destruct (Hnew j ltac:(lia)) as [Hu Hg]. split; [|done]. unfold row_value, is_used. by rewrite Hu.
  - by rewrite row_value_out, row_gen_out.
Qed.

(** content [idx'] is content [idx] with row [r] set to [v] *)
Definition content_update (idx idx' : name_index) (r : Z) (v : option Z) : Prop :=
  row_value idx' r = v /\
  forall j, 0 <= j -> j <> r -> row_value idx' j = row_value idx j /\ gen (row_at idx' j) = gen (row_at idx j).

Definition same_content (idx idx' : name_index) : Prop :=
  forall j, 0 <= j -> row_value idx' j = row_value idx j /\ gen (row_at idx' j) = gen (row_at idx j).

Lemma row_value_used idx i v :
  row_value idx i = Some v -> is_used (row_at idx i) = true /\ storage (row_at idx i) = v.
Proof. unfold row_value. destruct (is_used _); [|done]. by intros [=]. Qed.

Lemma row_value_in_range idx i v : rows_inv idx -> 0 <= i -> row_value idx i = Some v -> 0 <= i < row_cap idx.
Proof.
  intros Hr Hi Hv. destruct (Z.lt_ge_cases i (row_cap idx)); [lia|]. by rewrite row_value_out in Hv.
Qed.

(** a free row is available: claim, insert, undo on failure *)
Lemma register_claim_spec idx (a : A) (w : W) value name fuel :
  index_inv idx -> value <> NULL -> value_name ops value = Some name -> cstr_ok name ->
  0 <= free_head idx < row_cap idx ->
  let i := free_head idx in
  exists e idx' a',
    name_index_ht_insert ops (claim_row idx i value) a i name (S fuel) = Some (e, idx', a') /\
    (e = REND_SUCCESS /\ index_inv idx' /\ row_value idx i = None /\ row_cap idx' = row_cap idx /\
       content_update idx idx' i (Some value) /\ gen (row_at idx' i) = gen (row_at idx i) \/
     e <> REND_SUCCESS /\ idx' = claim_row idx i value).
Proof.
  intros Hinv Hv Hn Hok Hi i.
  destruct (claim_row_spec idx value name Hinv Hv Hn Hok Hi) as (Hfree & Hr & Hp & Hl & Heq & Hne).
  fold i in Hfree, Hr, Hp, Hl, Heq, Hne. pose proof (live_bounds _ (proj1 Hinv)).
  destruct (ht_insert_spec (claim_row idx i value) a i name fuel Hr Hp ltac:(lia) Hi) as (e & idx' & a' & -> & Hc).
  { rewrite Heq. done. }
  exists e, idx', a'. split; [done|]. destruct Hc as [[He ->]|(-> & Hsr & Ht)]; [by right|left].
  split; [done|]. split; [split; [by eapply same_rows_inv|done]|].
  assert (Hra : forall j, row_at idx' j = row_at (claim_row idx i value) j)
    by (intros j; unfold row_at; by rewrite (proj1 Hsr)).
  split; [unfold row_value, is_used; by rewrite Hfree|].
  split; [apply Hsr|]. split; [|by rewrite Hra, Heq].
  split.
  - unfold row_value. rewrite Hra, Heq. unfold is_used. cbn. by destruct (Z.eqb_spec value NULL).
  - intros j Hj Hji. unfold row_value. by rewrite Hra, Hne.
Qed.

(** making a free row available, as [register] does before claiming it *)
Definition ensure_free_row (idx : name_index) (a : A) : Z * name_index * A :=
  if free_head idx =? NAME_INDEX_FREE_HEAD_INVALID
  then name_index_grow_row_array idx a else (REND_SUCCESS, idx, a).

Lemma ensure_free_row_spec idx (a : A) :
  index_inv idx -> 0 <= row_cap idx ->
  exists e idx' a', ensure_free_row idx a = (e, idx', a') /\ index_inv idx' /\
    row_cap idx <= row_cap idx' /\ same_content idx idx' /\
    (e = REND_SUCCESS -> 0 <= free_head idx' < row_cap idx').
Proof.
  intros Hinv H0. unfold ensure_free_row.
  destruct (Z.eqb_spec (free_head idx) NAME_INDEX_FREE_HEAD_INVALID) as [Hf|Hf].
  - destruct (grow_row_array_spec idx a (proj1 Hinv) (proj2 Hinv) Hf H0)
      as (e & idx1 & a1 & -> & [[He ->]|(-> & Hi1 & Hfh1 & Hcap & Hold & Hnew)]).
    + eexists _, _, _. split; [done|]. split; [done|]. split; [lia|]. split; [by intros ??|done].
    + eexists _, _, _. split; [done|]. split; [done|]. split; [lia|].
      split; [intros j Hj; apply grown_content; try done; lia|lia].
  - eexists _, _, _. split; [done|]. split; [done|]. split; [lia|]. split; [by intros ??|]. intros _.
    destruct (ri_free _ (proj1 Hinv)) as ([|x fl] & Hc & _ & _); [done|].
    destruct Hc as (-> & ? & _). done.
Qed.

Lemma register_unfold idx (a : A) (w : W) value name fuel :
  value <> NULL -> value_name ops value = Some name -> char_at name 0 <> 0 ->
  name_index_register ops idx a w value fuel =
    (let '(e, idx, a) := name_index_bootstrap ops idx a in
     if negb (e =? REND_SUCCESS) then Some (e, 0, idx, a, w) else
     let '(e, idx, a) := ensure_free_row idx a in
     if negb (e =? REND_SUCCESS) then Some (e, 0, idx, a, w) else
     let i := free_head idx in
     if row_cap idx <=? i then Some (- E_RENDEZVOS, 0, idx, a, w) else
     if negb (used (row_at idx i) =? NAME_INDEX_ROW_FREE) then Some (- E_RENDEZVOS, 0, idx, a, w) else
     match name_index_ht_insert ops (claim_row idx i value) a i name fuel with
     | None => None
     | Some (e, idx, a) =>
       if negb (e =? REND_SUCCESS)
       then Some (e, 0, free_row idx i (gen (row_at idx i)), a, w)
       else Some (REND_SUCCESS, i, idx, a, run_hook (on_register ops) value w)
     end).
Proof.
  intros Hv Hn Hc. unfold name_index_register. destruct (Z.eqb_spec value NULL); [done|].
  unfold value_name in Hn. destruct (get_name ops) as [gn|]; [|done]. rewrite Hn.
  destruct (Z.eqb_spec (char_at name 0) 0); [done|]. done.
Qed.

(** [name_index_search] is sound and complete: under the
    index invariant it returns the value and row of a live entry whose name
    [strcmp_s]-equals the key, and returns NULL only when no live entry has
    such a name. *)
Lemma search_effect idx name v r
    (Hinv : index_inv idx) (Hok : cstr_ok name)
    (Hs : name_index_search ops idx name = (v, r)) :
  (v <> NULL /\ 0 <= r < row_cap idx /\ row_value idx r = Some v /\
     exists n, value_name ops v = Some n /\ strcmp_s n name (name_len_max idx) = 0) \/
  (v = NULL /\ forall i v' n, 0 <= i -> row_value idx i = Some v' ->
     value_name ops v' = Some n -> strcmp_s n name (name_len_max idx) <> 0).
Proof.
  unfold name_index_search in Hs.
  destruct (name_index_ht_find_bucket ops idx name) as [b r'] eqn:Hf.
  destruct (Z.ltb_spec b 0) as [Hb|Hb]; simplify_eq; [right|left].
  - split; [done|]. intros i v' n Hi Hv Hn Hcmp.
    pose proof (row_value_in_range _ _ _ (proj1 Hinv) Hi Hv) as Hi'.
    apply row_value_used in Hv as [Hu Hst]. rewrite <- Hst in Hn.
    pose proof (ht_find_bucket_complete idx name i n Hinv Hok Hi' Hu Hn Hcmp) as Hc.
    rewrite Hf in Hc. cbn in Hc. lia.
  - destruct (ht_find_bucket_sound idx name b r Hf Hb) as (Hr & Hu & Hn).
    unfold row_value. rewrite Hu. split; [|done].
    unfold is_used in Hu. bool_hyps. done.
Qed.

(** [name_index_register] on a well-formed index always
    returns with one level of its table-doubling recursion; it keeps the
    invariant; on success exactly one previously free row gets the value
    and [on_register] runs; on an allocation failure no entry changes and no
    hook runs.  Generations are never touched. *)
Lemma register_effect idx (a : A) (w : W) value name fuel
    (Hinv : index_inv idx) (H0 : 0 <= row_cap idx) (Hv : value <> NULL)
    (Hn : value_name ops value = Some name) (Hok : cstr_ok name) (Hne : char_at name 0 <> 0) :
  exists e r idx' a' w',
    name_index_register ops idx a w value (S fuel) = Some (e, r, idx', a', w') /\
    index_inv idx' /\ row_cap idx <= row_cap idx' /\
    (e = REND_SUCCESS /\ 0 <= r < row_cap idx' /\ row_value idx r = None /\
       content_update idx idx' r (Some value) /\ gen (row_at idx' r) = gen (row_at idx r) /\
       w' = run_hook (on_register ops) value w \/
     e <> REND_SUCCESS /\ (forall j, 0 <= j -> row_value idx' j = row_value idx j) /\ w' = w).
Proof.
  rewrite (register_unfold idx a w value name) by done.
  destruct (bootstrap_spec idx a Hinv H0) as (e & idx1 & a1 & -> & Hi1 & Hle1 & _ & Hold & Hnew).
  pose proof (grown_content idx idx1 Hinv Hi1 Hold Hnew Hle1) as Hsc1. clear Hold Hnew.
  destruct (Z.eqb_spec e REND_SUCCESS) as [_|He]; cbn [negb].
  2:{ eexists _, _, _, _, _. split; [done|]. split; [done|]. split; [lia|]. right.
      split; [done|]. split; [|done]. intros j Hj. by apply Hsc1. }
  destruct (ensure_free_row_spec idx1 a1 Hi1 ltac:(lia)) as (e2 & idx2 & a2 & -> & Hi2 & Hle2 & Hsc2 & Hfh).
  destruct (Z.eqb_spec e2 REND_SUCCESS) as [He2|He2]; cbn [negb].
  2:{ eexists _, _, _, _, _. split; [done|]. split; [done|]. split; [lia|]. right.
      split; [done|]. split; [|done]. intros j Hj. rewrite (proj1 (Hsc2 j Hj)). by apply Hsc1. }
  specialize (Hfh He2). cbv zeta. set (i := free_head idx2) in *.
  destruct (Z.leb_spec (row_cap idx2) i); [lia|].
  destruct (claim_row_spec idx2 value name Hi2 Hv Hn Hok Hfh) as (Hfree & _).
  fold i in Hfree. rewrite Hfree. change (negb (NAME_INDEX_ROW_FREE =? NAME_INDEX_ROW_FREE)) with false. cbn iota.
  destruct (register_claim_spec idx2 a2 w value name fuel Hi2 Hv Hn Hok Hfh) as (e3 & idx3 & a3 & Hins & Hc).
  fold i in Hins, Hc. rewrite Hins. destruct Hc as [(-> & Hi3 & Hnone & Hcap & [Hu1 Hu2] & Hg)|(He3 & ->)].
  - change (negb (REND_SUCCESS =? REND_SUCCESS)) with false. cbn iota.
    eexists _, _, _, _, _. split; [done|]. split; [done|]. split; [lia|]. left.
    split; [done|]. split; [lia|]. split; [rewrite <- (proj1 (Hsc1 i ltac:(lia))), <- (proj1 (Hsc2 i ltac:(lia))); done|].
    split; [split; [done|]|split; [|done]].
    + intros j Hj Hji. destruct (Hu2 j Hj Hji) as [-> ->], (Hsc2 j Hj) as [-> ->]. by apply Hsc1.
    + rewrite Hg, (proj2 (Hsc2 i ltac:(lia))). apply Hsc1. lia.
  - destruct (Z.eqb_spec e3 REND_SUCCESS); [done|]. cbn [negb].
    destruct (unclaim_rows idx2 i value name Hi2 Hv Hn Hok eq_refl Hfh) as [Hi4 Hrv].
    assert (Hgen : gen (row_at (claim_row idx2 i value) i) = gen (row_at idx2 i)).
    { pose proof (ri_len _ (proj1 Hi2)). unfold claim_row. rewrite row_at_set_free_live, row_at_set_row_eq; [done|lia]. }
    rewrite Hgen. eexists _, _, _, _, _. split; [done|]. split; [done|].
    split; [unfold free_row, claim_row; cbn; lia|]. right. split; [done|]. split; [|done].
    intros j Hj. rewrite Hrv by done. rewrite (proj1 (Hsc2 j Hj)). by apply Hsc1.
Qed.

(** removing the entry of a used row: table removal, then free the row *)
Lemma release_entry_spec idx i name :
  index_inv idx -> 0 <= i < row_cap idx -> is_used (row_at idx i) = true ->
  value_name ops (storage (row_at idx i)) = Some name ->
  let idx' := release_row (name_index_ht_remove idx i name) i in
  index_inv idx' /\ row_cap idx' = row_cap idx /\ content_update idx idx' i None /\
  gen (row_at idx' i) = u64 (gen (row_at idx i) + 1).
Proof.
  intros [Hr Ht] Hi Hu Hn idx'. pose proof (used_live_pos _ _ Hr Hi Hu).
  destruct Ht as [[_ ?]|Ht]; [lia|].
  destruct (ht_remove_spec idx i name Hr Ht Hi Hu Hn) as (idx1 & He & Hsr & Ht1 & _).
  unfold idx'. rewrite He. clear idx' He.
  pose proof (same_rows_inv _ _ Hsr Hr) as Hr1. pose proof Hsr as (E1 & E2 & E3 & E4 & _).
  assert (Era : forall j, row_at idx1 j = row_at idx j) by (intros; unfold row_at; by rewrite E1).
  change (release_row idx1 i) with (free_row idx1 i (u64 (gen (row_at idx1 i) + 1))). rewrite Era.
  pose proof (u64_range (gen (row_at idx i) + 1)) as Hg.
  rewrite <- Era in Hu. rewrite <- E2 in Hi. rewrite <- E4 in Ht1.
  destruct (free_row_spec idx1 i _ Hr1 Hi Hu Hg) as (Hr2 & _ & Heq & Hne).
  pose proof (free_row_table idx1 i _ Hr1 Hi Hu Hg Ht1) as Ht2.
  set (idx2 := free_row _ _ _) in *.
  split; [done|]. split; [exact E2|]. split; [split|by rewrite Heq].
  - unfold row_value. by rewrite Heq.
  - intros j Hj Hji. unfold row_value. by rewrite Hne, Era.
Qed.

(** [name_index_unregister] of the value a row holds, with
    the row's name, keeps the invariant, removes exactly that entry, runs
    [on_unregister] once and advances the row's generation. *)
Lemma unregister_effect idx (a : A) (w : W) value r name
    (Hinv : index_inv idx) (Hr : 0 <= r) (Hval : row_value idx r = Some value)
    (Hn : value_name ops value = Some name) :
  let '(idx', a', w') := name_index_unregister ops idx a w value r (Some name) in
  index_inv idx' /\ row_cap idx' = row_cap idx /\ content_update idx idx' r None /\
  gen (row_at idx' r) = u64 (gen (row_at idx r) + 1) /\
  w' = run_hook (on_unregister ops) value w.
Proof.
  pose proof (row_value_in_range _ _ _ (proj1 Hinv) Hr Hval) as Hri.
  apply row_value_used in Hval as [Hu Hst].
  unfold name_index_unregister. destruct (Z.leb_spec (row_cap idx) r); [lia|].
  pose proof Hu as Hu'. unfold is_used in Hu'. apply andb_prop in Hu' as [-> _].
  rewrite Hst, Z.eqb_refl. cbn [negb orb]. rewrite <- Hst in Hn.
  pose proof (release_entry_spec idx r name Hinv Hri Hu Hn) as Hrel. cbv zeta in Hrel.
  set (idx1 := release_row (name_index_ht_remove idx r name) r) in *.
  destruct Hrel as (Hi1 & Hcap & [Hc1 Hc2] & Hg). pose proof (maybe_shrink_spec idx1 a Hi1) as [Hi2 Hsr].
  destruct (name_index_maybe_shrink_ht ops idx1 a) as [idx2 a2]. cbn [fst] in Hi2, Hsr.
  assert (Era : forall j, row_at idx2 j = row_at idx1 j) by (intros; unfold row_at; by rewrite (proj1 Hsr)).
  split; [done|]. split; [rewrite (proj1 (proj2 Hsr)); done|]. rewrite Era. split; [|done].
  split; [|intros j Hj Hji]; rewrite ?(row_value_same_rows _ _ _ Hsr), ?Era; auto.
Qed.

(** [name_len_max] is written by [name_index_init] only *)
Lemma rehash_len idx (a : A) c :
  name_len_max (snd (fst (name_index_ht_rehash ops idx a c))) = name_len_max idx.
Proof.
  unfold name_index_ht_rehash. destruct (_ <? _); [done|]. destruct (m_alloc _ _).
  destruct (_ =? _); [done|]. by destruct (rehash_rows _ _ _ _ _ _ _).
Qed.

Lemma grow_len idx (a : A) :
  name_len_max (snd (fst (name_index_grow_row_array idx a))) = name_len_max idx.
Proof.
  unfold name_index_grow_row_array. destruct (_ && _); [done|]. destruct (_ <? _); [done|].
  destruct (m_alloc _ _). destruct (_ =? _); [done|]. by destruct (row_cap idx =? 0).
Qed.

Lemma bootstrap_len idx (a : A) :
  name_len_max (snd (fst (name_index_bootstrap ops idx a))) = name_len_max idx.
Proof.
  unfold name_index_bootstrap. destruct (negb _); [done|]. pose proof (grow_len idx a) as Hg.
  destruct (name_index_grow_row_array idx a) as [[e i] a1]. destruct (negb _); [done|].
  cbn in Hg. by rewrite rehash_len.
Qed.

Lemma ensure_len idx (a : A) : name_len_max (snd (fst (ensure_free_row idx a))) = name_len_max idx.
Proof. unfold ensure_free_row. destruct (_ =? _); [apply grow_len|done]. Qed.

Lemma ht_insert_len idx (a : A) r name fuel e idx' a' :
  name_index_ht_insert ops idx a r name fuel = Some (e, idx', a') -> name_len_max idx' = name_len_max idx.
Proof.
  revert idx a. induction fuel as [|fuel IH]; intros idx a; cbn [name_index_ht_insert]; [done|].
  assert (Hg : name_len_max (snd (fst (name_index_maybe_grow_ht ops idx a))) = name_len_max idx).
  { unfold name_index_maybe_grow_ht. repeat (case_match; try done); apply rehash_len. }
  destruct (name_index_maybe_grow_ht ops idx a) as [[e1 i1] a1]. cbn in Hg.
  destruct (negb _); [by intros [=]; subst|].
  match goal with |- context [probe_loop ?b ?h ?m ?p ?n] =>
    pose proof (probe_loop_inv b h m p n) as Hp; destruct (probe_loop b h m p n) as [i2|] end.
  - intros [=]; subst. destruct Hp as (p & _ & Hb & _). unfold ht_insert_body in Hb.
    destruct (_ || _); [|done]. injection Hb as <-. done.
  - pose proof (rehash_len i1 a1 (u64 (ht_cap i1 * 2))) as Hr.
    destruct (name_index_ht_rehash ops i1 a1 _) as [[e2 i2] a2]. cbn in Hr.
    destruct (negb _); [intros [=]; subst; congruence|]. intros H2. apply IH in H2. congruence.
Qed.

Lemma register_len idx (a : A) (w : W) value fuel e r idx' a' w' :
  name_index_register ops idx a w value fuel = Some (e, r, idx', a', w') ->
  name_len_max idx' = name_len_max idx.
Proof.
  destruct (Z.eq_dec value NULL) as [->|Hv].
  { unfold name_index_register. change (NULL =? NULL) with true. by intros [=]; subst. }
  destruct (value_name ops value) as [name|] eqn:Hn.
  2:{ unfold name_index_register. unfold value_name in Hn. destruct (value =? NULL); [by intros [=]; subst|].
      destruct (get_name ops); [|by intros [=]; subst]. rewrite Hn. by intros [=]; subst. }
  destruct (Z.eq_dec (char_at name 0) 0) as [Hc|Hc].
  { unfold name_index_register. unfold value_name in Hn. destruct (value =? NULL); [by intros [=]; subst|].
      destruct (get_name ops); [|by intros [=]; subst]. rewrite Hn, Hc. by intros [=]; subst. }
  rewrite (register_unfold idx a w value name fuel Hv Hn Hc).
  pose proof (bootstrap_len idx a) as H1. destruct (name_index_bootstrap ops idx a) as [[e1 i1] a1].
  cbn in H1. destruct (negb _); [by intros [=]; subst|].
  pose proof (ensure_len i1 a1) as H2. destruct (ensure_free_row i1 a1) as [[e2 i2] a2].
  cbn in H2. destruct (negb _); [intros [=]; subst; congruence|]. cbv zeta.
  destruct (_ <=? _); [intros [=]; subst; congruence|].
  destruct (negb _); [intros [=]; subst; congruence|].
  destruct (name_index_ht_insert _ _ _ _ _ _) as [[[e3 i3] a3]|] eqn:Hins; [|done].
  apply ht_insert_len in Hins. cbn in Hins.
  destruct (negb _); intros [=]; subst; cbn; congruence.
Qed.

(** no live entry carries a name [strcmp_s]-equal to [name] *)
Definition name_absent (idx : name_index) (name : cstr) : Prop :=
  forall i v n, 0 <= i -> row_value idx i = Some v -> value_name ops v = Some n ->
    strcmp_s n name (name_len_max idx) <> 0.

Lemma row_value_name idx i v :
  index_inv idx -> 0 <= i -> row_value idx i = Some v ->
  v <> NULL /\ exists n, value_name ops v = Some n /\ cstr_ok n.
Proof.
  intros [Hr _] Hi Hv. pose proof (row_value_in_range _ _ _ Hr Hi Hv) as Hri.
  apply row_value_used in Hv as [Hu <-]. destruct (ri_wf _ Hr i Hri) as [_ [Hf|(_ & Hs & Hn)]]; [|done].
  unfold is_used in Hu. rewrite Hf in Hu. discriminate Hu.
Qed.

(** (functional): [name_index_search] is sound and complete: under the
    index invariant it returns NULL exactly when no live entry has a name
    [strcmp_s]-equal to the key; otherwise it returns the value and row of a
    live entry with such a name, so tombstones, wrap-around probing and
    colliding hashes never hide or invent an entry. *)
Theorem search_spec idx name
    (Hinv : index_inv idx) (Hok : cstr_ok name) :
  let '(v, r) := name_index_search ops idx name in
  (v = NULL <-> name_absent idx name) /\
  (v <> NULL -> 0 <= r < row_cap idx /\ row_value idx r = Some v /\
     exists n, value_name ops v = Some n /\ strcmp_s n name (name_len_max idx) = 0).
Proof.
  destruct (name_index_search ops idx name) as [v r] eqn:Hs.
  destruct (search_effect idx name v r Hinv Hok Hs) as [(Hv & Hr & Hrv & n & Hn & Hc)|[-> Ha]].
  - split; [|intros _; split; [done|]; split; [done|]; by exists n]. split; [done|].
    intros Ha. by destruct (Ha r v n ltac:(lia) Hrv Hn).
  - split; [|done]. by split.
Qed.

(** C38 (functional): [name_index_register] on a well-formed index always
    returns with one level of its table-doubling recursion and keeps the
    invariant.  On success exactly one previously free row gets the value,
    [on_register] ran, and a search for a name that was absent before now
    finds exactly this value and row.  On an allocation failure no entry
    changes and no hook runs. *)
Theorem register_spec idx (a : A) (w : W) value name fuel
    (Hinv : index_inv idx) (H0 : 0 <= row_cap idx) (Hv : value <> NULL)
    (Hn : value_name ops value = Some name) (Hok : cstr_ok name) (Hne : char_at name 0 <> 0) :
  exists e r idx' a' w',
    name_index_register ops idx a w value (S fuel) = Some (e, r, idx', a', w') /\
    index_inv idx' /\ row_cap idx <= row_cap idx' /\
    (e = REND_SUCCESS /\ 0 <= r < row_cap idx' /\ row_value idx r = None /\
       content_update idx idx' r (Some value) /\ w' = run_hook (on_register ops) value w /\
       (name_absent idx name ->
          name_index_search ops idx' name = (value, r)) \/
     e <> REND_SUCCESS /\ (forall j, 0 <= j -> row_value idx' j = row_value idx j) /\ w' = w).
Proof.
  destruct (register_effect idx a w value name fuel Hinv H0 Hv Hn Hok Hne)
    as (e & r & idx' & a' & w' & Hreg & Hi' & Hcap & Hc).
  exists e, r, idx', a', w'. split; [done|]. split; [done|]. split; [done|].
  destruct Hc as [(He & Hr & Hnone & [Hu1 Hu2] & Hg & Hw)|Hfail]; [left|by right].
  split; [done|]. split; [done|]. split; [done|]. split; [done|]. split; [done|].
  pose proof (register_len _ _ _ _ _ _ _ _ _ _ Hreg) as Hlen.
  intros Habs. destruct (name_index_search ops idx' name) as [v r1] eqn:Hs.
  destruct (search_effect idx' name v r1 Hi' Hok Hs) as [(Hv1 & Hr1 & Hrv & n & Hn1 & Hcmp)|[-> Ha]].
  - destruct (decide (r1 = r)) as [->|Hrr]; [congruence|].
    rewrite (proj1 (Hu2 r1 ltac:(lia) Hrr)) in Hrv. rewrite Hlen in Hcmp.
    by destruct (Habs r1 v n ltac:(lia) Hrv Hn1).
  - exfalso. apply (Ha r value name ltac:(lia) Hu1 Hn). by apply strcmp_s_refl.
Qed.

(** the token [name_index_lookup] hands out for row [r] *)
Definition token_of (idx : name_index) (r : Z) : name_index_token :=
  mk_token (u32 r) (u16 (gen (row_at idx r))).

Lemma resolve_gen_mismatch idx (w : W) tok key :
  rows_inv idx -> u16 (gen (row_at idx (row_index tok))) <> row_gen tok ->
  exists idx', name_index_resolve ops idx w tok key = (NULL, idx', w).
Proof.
  intros Hr Hg. unfold name_index_resolve. destruct (_ =? _); [by eexists|].
  change (row_cap (lock_mcs idx)) with (row_cap idx).
  change (row_at (lock_mcs idx) (row_index tok)) with (row_at idx (row_index tok)).
  destruct (_ <=? _); [by eexists|]. destruct (negb _ || _); [by eexists|].
  destruct (Z.eqb_spec (u16 (gen (row_at idx (row_index tok)))) (row_gen tok)); [done|]. by eexists.
Qed.

Lemma u16_gen_step g : u16 (u64 (g + 1)) <> u16 g.
Proof. unfold u16, u64, wrap. dlia. Qed.

(** (safety): unregistering removes exactly one entry, keeps the
    invariant, and makes every token for that row stale: [name_index_resolve]
    rejects it, whatever the key, and still rejects it after another value
    has been registered, even in the same row. *)
Theorem unregister_stale_token idx (a : A) (w w2 : W) value r name
    (Hinv : index_inv idx) (Hr : 0 <= r) (Hval : row_value idx r = Some value)
    (Hn : value_name ops value = Some name) :
  let '(idx1, a1, w1) := name_index_unregister ops idx a w value r (Some name) in
  index_inv idx1 /\ content_update idx idx1 r None /\
  w1 = run_hook (on_unregister ops) value w /\
  (forall key, fst (fst (name_index_resolve ops idx1 w2 (token_of idx r) key)) = NULL) /\
  forall value2 name2 fuel e r2 idx2 a2 w3 key,
    value2 <> NULL -> value_name ops value2 = Some name2 -> cstr_ok name2 -> char_at name2 0 <> 0 ->
    name_index_register ops idx1 a1 w1 value2 (S fuel) = Some (e, r2, idx2, a2, w3) -> e = REND_SUCCESS ->
    fst (fst (name_index_resolve ops idx2 w3 (token_of idx r) key)) = NULL.
Proof.
  pose proof (row_value_in_range _ _ _ (proj1 Hinv) Hr Hval) as Hri.
  pose proof (ri_cap _ (proj1 Hinv)) as Hcap.
  pose proof (unregister_effect idx a w value r name Hinv Hr Hval Hn) as Hu.
  destruct (name_index_unregister ops idx a w value r (Some name)) as [[idx1 a1] w1].
  destruct Hu as (Hi1 & Hcap1 & Hcu & Hg & Hw). split; [done|]. split; [done|]. split; [done|].
  assert (Hti : row_index (token_of idx r) = r) by (cbn; apply u32_small; lia).
  split.
  - intros key. destruct (resolve_gen_mismatch idx1 w2 (token_of idx r) key (proj1 Hi1)) as (i & ->); [|done].
    rewrite Hti, Hg. apply u16_gen_step.
  - intros value2 name2 fuel e r2 idx2 a2 w3 key Hv2 Hn2 Hok2 Hc2 Hreg He.
    destruct (register_effect idx1 a1 w1 value2 name2 fuel Hi1 ltac:(lia) Hv2 Hn2 Hok2 Hc2)
      as (e' & r' & idx' & a' & w' & Hreg' & Hi2 & _ & [(_ & Hr' & _ & [_ Hoth] & Hg2 & _)|(He' & _)]);
      rewrite Hreg in Hreg'; simplify_eq.
    destruct (resolve_gen_mismatch idx' w' (token_of idx r) key (proj1 Hi2)) as (i & ->); [|done].
    rewrite Hti. replace (gen (row_at idx' r)) with (gen (row_at idx1 r)); [rewrite Hg; apply u16_gen_step|].
    destruct (decide (r = r')) as [->|Hne]; [done|]. symmetry. by apply Hoth.
Qed.

(** (roundtrip): a successful [name_index_lookup] returns a live value
    whose name matches, releases the lock, and its token resolves under the
    same name to the same value as long as the [hold] hook accepts it. *)
Theorem lookup_resolve_roundtrip idx (w w2 : W) name tok0 v tok idx1 w1
    (Hinv : index_inv idx) (Hok : cstr_ok name)
    (Hl : name_index_lookup ops idx w name tok0 = (v, tok, idx1, w1)) (Hv : v <> NULL) :
  idx1 = unlock_mcs idx /\ (exists r, tok = token_of idx r /\ row_value idx r = Some v) /\
  name_index_resolve ops idx1 w2 tok name =
    (if fst (run_hold ops v w2) then v else NULL, idx1, snd (run_hold ops v w2)).
Proof.
  unfold name_index_lookup in Hl.
  change (name_index_search ops (lock_mcs idx) name) with (name_index_search ops idx name) in Hl.
  destruct (name_index_search ops idx name) as [v' r] eqn:Hs.
  destruct (search_effect idx name v' r Hinv Hok Hs) as [(Hv' & Hr & Hrv & n & Hn & Hc)|[-> _]].
  2:{ cbn in Hl. congruence. }
  destruct (Z.eqb_spec v' NULL); [done|]. cbn [orb] in Hl.
  change (row_at (lock_mcs idx) r) with (row_at idx r) in Hl.
  destruct (row_value_used _ _ _ Hrv) as [Hu Hst]. unfold is_used in Hu.
  apply andb_prop in Hu as [Hu Hnn]. rewrite Hu in Hl. cbn [negb] in Hl.
  destruct (run_hold ops v' w) as [ok w'] eqn:Hh. destruct ok; cbn [negb] in Hl; [|congruence].
  injection Hl as <- <- <- <-. split; [done|]. split; [by exists r|].
  pose proof (ri_cap _ (proj1 Hinv)) as Hcap.
  unfold name_index_resolve. cbn [row_index row_gen]. rewrite u32_small by lia.
  destruct (Z.eqb_spec r NAME_INDEX_ROW_INDEX_INVALID) as [E|_].
  { change NAME_INDEX_ROW_INDEX_INVALID with 4294967295 in E. lia. }
  change (row_cap (lock_mcs _)) with (row_cap idx). change (row_at (lock_mcs _) r) with (row_at idx r).
  destruct (Z.leb_spec (row_cap idx) r); [lia|].
  rewrite Hu, Hst. destruct (Z.eqb_spec v' NULL); [done|]. cbn [negb orb].
  rewrite Z.eqb_refl. cbn [negb]. rewrite Hn.
  change (name_len_max (lock_mcs _)) with (name_len_max idx). rewrite Hc. cbn [Z.eqb negb].
  destruct (run_hold ops v' w2) as [[] w2']; done.
Qed.

(** values of the used rows from row [i] on, in row order *)
Fixpoint used_values (rs : list name_index_row) : list Z :=
  match rs with
  | [] => []
  | r :: rs' => if is_used r then storage r :: used_values rs' else used_values rs'
  end.

Lemma fini_rows_spec dropv n idx i (w : W) :
  (i + n = length (rows idx))%nat ->
  snd (fini_rows ops idx dropv (Z.of_nat i) n w) =
    fold_left (fun w v => dropv v (run_hook (on_unregister ops) v w))
              (used_values (drop i (rows idx))) w.
Proof.
  revert idx i w. induction n as [|n IH]; intros idx i w Hn; cbn [fini_rows].
  { rewrite drop_ge by lia. done. }
  destruct (lookup_lt_is_Some_2 (rows idx) i) as [r Hr]; [lia|].
  assert (Hra : row_at idx (Z.of_nat i) = r).
  { unfold row_at. rewrite Nat2Z.id. by apply list_lookup_total_correct. }
  rewrite (drop_S _ _ _ Hr). cbn [used_values].
  rewrite Hra. unfold is_used at 1. replace (Z.of_nat i + 1) with (Z.of_nat (S i)) by lia.
  destruct (used r =? NAME_INDEX_ROW_USED); cbn [negb orb andb].
  2:{ rewrite IH by lia. done. }
  destruct (storage r =? NULL); cbn [negb].
  { rewrite IH by lia. done. }
  rewrite IH by (unfold release_row; cbn; rewrite length_insert; lia).
  cbn [fold_left]. f_equal. f_equal.
  unfold release_row. cbn. rewrite Nat2Z.id.
  apply drop_insert_lt. lia.
Qed.

(** (functional): [name_index_fini] with a [drop] hook runs
    [on_unregister] and then [drop] on every live value exactly once, in row
    order, releases both arrays and the lock, and leaves an empty index. *)
Theorem fini_drops_every_value idx (a : A) (w : W) dropv
    (Hinv : index_inv idx) (Hd : drop_hook ops = Some dropv) (Ha : alloc_set idx = true) :
  let '(idx', a', w') := name_index_fini ops idx a w in
  w' = fold_left (fun w v => dropv v (run_hook (on_unregister ops) v w)) (used_values (rows idx)) w /\
  lock idx' = false /\ index_inv idx' /\ (forall j, 0 <= j -> row_value idx' j = None) /\
  rows_ptr idx' = NULL /\ ht_ptr idx' = NULL.
Proof.
  unfold name_index_fini. rewrite Hd. pose proof (ri_len _ (proj1 Hinv)) as Hlen.
  pose proof (fini_rows_spec dropv (Z.to_nat (row_cap idx)) (lock_mcs idx) 0 w) as Hf.
  change (Z.of_nat 0) with 0 in Hf. change (rows (lock_mcs idx)) with (rows idx) in Hf.
  assert (Hal : forall n i0 j w0, alloc_set (fst (fini_rows ops i0 dropv j n w0)) = alloc_set i0 /\
            name_len_max (fst (fini_rows ops i0 dropv j n w0)) = name_len_max i0).
  { induction n as [|n IH]; intros i0 j w0; cbn [fini_rows]; [done|].
    destruct (_ || _); [apply IH|]. rewrite (proj1 (IH _ _ _)), (proj2 (IH _ _ _)). done. }
  specialize (Hal (Z.to_nat (row_cap idx)) (lock_mcs idx) 0 w).
  change (row_cap (lock_mcs idx)) with (row_cap idx).
  destruct (fini_rows ops (lock_mcs idx) dropv 0 (Z.to_nat (row_cap idx)) w) as [i1 w1]. cbn [fst snd] in *.
  destruct Hal as [Hal Hnl]. change (alloc_set (lock_mcs idx)) with (alloc_set idx) in Hal.
  change (name_len_max (lock_mcs idx)) with (name_len_max idx) in Hnl.
  unfold name_index_free_arrays. rewrite Hal, Ha. cbn [negb].
  split; [rewrite Hf by lia; done|]. split; [done|]. split; [|split; [|done]].
  - split; [|by left; split]. constructor; cbn; try done; try lia.
    { rewrite Hnl. apply Hinv. }
    exists []. split; [done|]. split; [apply NoDup_nil_2|]. cbn. intros i Hi. lia.
  - intros j Hj. unfold row_value, row_at. cbn. by destruct (Z.to_nat j).
Qed.

(** ** Initialisation *)

Lemma init_inv (a : A) len_max :
  0 <= len_max -> index_inv (fst (name_index_init ops a len_max)) /\
  0 <= row_cap (fst (name_index_init ops a len_max)) /\
  forall j, 0 <= j -> row_value (fst (name_index_init ops a len_max)) j = None.
Proof.
  intros Hl. unfold name_index_init. set (idx := mk_index _ _ _ _ _ _ _ _ _ _ _ _ _).
  assert (Hi : index_inv idx).
  { split; [|by left; split]. constructor; cbn; try done; try lia.
    exists []. split; [done|]. split; [apply NoDup_nil_2|]. cbn. intros i Hi. lia. }
  destruct (bootstrap_spec idx a Hi ltac:(cbn; lia)) as (e & idx1 & a1 & -> & Hi1 & Hle & _ & Hold & Hnew).
  cbn [fst]. split; [done|]. split; [done|]. intros j Hj.
  rewrite (proj1 (grown_content idx idx1 Hi Hi1 Hold Hnew Hle j Hj)).
  unfold row_value, row_at. cbn. by destruct (Z.to_nat j).
Qed.
End Invariant.

(** ** A concrete index: two named values over the [bump] allocator *)

Definition demo_name (value : Z) : option cstr :=
  if value =? 4096 then Some [112; 49] else if value =? 8192 then Some [112; 50] else None.

(** the owner state counts hook calls *)
Definition demo_ops : name_index_ops Z :=
  mk_ops Z (Some demo_name) (Some (fun _ w => (true, w + 1))) (Some (fun _ w => w + 1000))
    (Some (fun _ w => w + 10)) (Some (fun _ w => w + 100)).

Definition demo_alloc : bump := mk_bump 65536 16.

Definition demo_empty : name_index := fst (name_index_init demo_ops demo_alloc 64).

Definition demo_register (idx : name_index) (value : Z) : name_index * Z :=
  match name_index_register demo_ops idx demo_alloc 0 value 1 with
  | Some (_, _, idx', _, w') => (idx', w')
  | None => (idx, 0)
  end.

Definition demo_one : name_index := fst (demo_register demo_empty 4096).

Lemma demo_empty_inv : index_inv demo_ops demo_empty.
Proof. by apply init_inv. Qed.

Lemma demo_register_inv idx v n :
  index_inv demo_ops idx -> 0 <= row_cap idx -> demo_name v = Some n -> v <> 0 ->
  cstr_ok n -> char_at n 0 <> 0 -> index_inv demo_ops (fst (demo_register idx v)).
Proof.
  intros Hi H0 Hn Hv Hok Hc. unfold demo_register.
  destruct (register_effect demo_ops idx demo_alloc 0 v n 0 Hi H0 Hv Hn Hok Hc)
    as (e & r & idx' & a' & w' & -> & Hi' & _). done.
Qed.

Lemma demo_name_ok : cstr_ok [112; 49].
Proof. by repeat constructor. Qed.

Lemma demo_one_inv : index_inv demo_ops demo_one.
Proof.
  apply (demo_register_inv _ 4096 [112; 49] demo_empty_inv); [|done..|apply demo_name_ok|done].
  vm_compute. discriminate.
Qed.

Lemma search_spec_witness :
  name_absent demo_ops demo_one [112; 50] /\
  let '(v, r) := name_index_search demo_ops demo_one [112; 50] in
  (v = NULL <-> name_absent demo_ops demo_one [112; 50]) /\
  (v <> NULL -> 0 <= r < row_cap demo_one /\ row_value demo_one r = Some v /\
     exists n, value_name demo_ops v = Some n /\ strcmp_s n [112; 50] (name_len_max demo_one) = 0).
Proof.
  pose proof (search_spec demo_ops demo_one [112; 50] demo_one_inv ltac:(by repeat constructor)) as H.
  split; [|exact H].
  replace (name_index_search demo_ops demo_one [112; 50]) with (NULL, 0) in H by (vm_compute; reflexivity).
  apply (proj1 (proj1 H)). reflexivity.
Defined.

Lemma register_spec_witness :
  index_inv demo_ops demo_empty /\
  exists e r idx' a' w',
    name_index_register demo_ops demo_empty demo_alloc 0 4096 1 = Some (e, r, idx', a', w') /\
    index_inv demo_ops idx' /\ e = REND_SUCCESS /\ row_value idx' r = Some 4096 /\ w' = 10.
Proof.
  split; [exact demo_empty_inv|].
  destruct (register_spec demo_ops demo_empty demo_alloc 0 4096 [112; 49] 0 demo_empty_inv
    (proj1 (proj2 (init_inv demo_ops demo_alloc 64 ltac:(lia)))) ltac:(discriminate) eq_refl demo_name_ok
    ltac:(discriminate)) as (e & r & idx' & a' & w' & Hreg & Hi & _ & Hc).
  exists e, r, idx', a', w'. split; [exact Hreg|]. split; [exact Hi|].
  assert (He : e = REND_SUCCESS) by (vm_compute in Hreg; injection Hreg as He _ _ _ _; rewrite <- He; reflexivity).
  destruct Hc as [(_ & _ & _ & [Hv _] & Hw & _)|(Hne & _)]; [|congruence].
  split; [exact He|]. split; [exact Hv|]. rewrite Hw. reflexivity.
Defined.

Lemma demo_one_value : row_value demo_one 0 = Some 4096.
Proof. vm_compute. reflexivity. Qed.

Lemma unregister_stale_token_witness :
  row_value demo_one 0 = Some 4096 /\
  let '(idx1, _, w1) := name_index_unregister demo_ops demo_one demo_alloc 7 4096 0 (Some [112; 49]) in
  index_inv demo_ops idx1 /\ w1 = 107 /\
  fst (fst (name_index_resolve demo_ops idx1 9 (token_of demo_one 0) [112; 49])) = NULL.
Proof.
  split; [exact demo_one_value|].
  pose proof (unregister_stale_token demo_ops demo_one demo_alloc 7 9 4096 0 [112; 49] demo_one_inv
    ltac:(lia) demo_one_value eq_refl) as H.
  destruct (name_index_unregister _ _ _ _ _ _ _) as [[idx1 a1] w1].
  destruct H as (H1 & _ & H3 & H4 & _). split; [exact H1|]. split; [exact H3|]. apply H4.
Defined.

Definition lookup_result (o : Z * name_index_token * name_index * Z) : Z := fst (fst (fst o)).

Lemma lookup_resolve_roundtrip_witness :
  exists v tok idx1 w1,
    name_index_lookup demo_ops demo_one 0 [112; 49] (mk_token 0 0) = (v, tok, idx1, w1) /\
    v = 4096 /\ idx1 = unlock_mcs demo_one /\
    name_index_resolve demo_ops idx1 5 tok [112; 49] = (4096, idx1, 6).
Proof.
  destruct (name_index_lookup demo_ops demo_one 0 [112; 49] (mk_token 0 0)) as [[[v tok] idx1] w1] eqn:Hl.
  exists v, tok, idx1, w1. split; [reflexivity|].
  assert (Hv : v = 4096).
  { change v with (lookup_result (v, tok, idx1, w1)). rewrite <- Hl. vm_compute. reflexivity. }
  assert (Hnn : v <> NULL) by (rewrite Hv; discriminate).
  destruct (lookup_resolve_roundtrip demo_ops demo_one 0 5 [112; 49] (mk_token 0 0) v tok idx1 w1
    demo_one_inv demo_name_ok Hl Hnn) as (H1 & _ & H2).
  split; [exact Hv|]. split; [exact H1|]. rewrite H2, Hv. reflexivity.
Defined.

Lemma fini_drops_every_value_witness :
  let '(idx', _, w') := name_index_fini demo_ops demo_one demo_alloc 0 in
  w' = 1100 /\ lock idx' = false /\ (forall j, 0 <= j -> row_value idx' j = None).
Proof.
  pose proof (fini_drops_every_value demo_ops demo_one demo_alloc 0 _ demo_one_inv eq_refl
    ltac:(vm_compute; reflexivity)) as H.
  destruct (name_index_fini _ _ _ _) as [[idx' a'] w']. destruct H as (H1 & H2 & _ & H4 & _).
  split; [rewrite H1; vm_compute; reflexivity|]. split; [exact H2|exact H4].
Defined.
