(* ===== verification/IpcSerial.v ===== *)
(** * IPC payload serialization

    [kernel/ipc/ipc_serial.c]: the type-length-value encoding of kmsg
    payloads.  Buffers are byte lists, the [va_list] is a list of typed
    arguments, format strings are lists of character codes.  A result of
    [None] is undefined behaviour of the C code: an argument of the wrong type
    or an access outside the buffer; the theorems show it does not happen. *)
From S2P Require Import Prelude Mm CString Allocator.

Definition ch_p : Z := 112.
Definition ch_q : Z := 113.
Definition ch_i : Z := 105.
Definition ch_u : Z := 117.
Definition ch_s : Z := 115.
Definition ch_t : Z := 116.

(** the arms of the [switch (fc)] statements; [None] is [default] *)
Inductive kind := KP | KQ | KI | KU | KS.
#[export] Instance kind_eq_dec : EqDecision kind.
Proof. solve_decision. Defined.
Definition fmt_kind (fc : Z) : option kind :=
  if fc =? ch_p then Some KP
  else if fc =? ch_q then Some KQ
  else if fc =? ch_i then Some KI
  else if fc =? ch_u then Some KU
  else if (fc =? ch_s) || (fc =? ch_t) then Some KS
  else None.

(** variadic arguments: [void*], [i64], [int], [u32], [char*] *)
Inductive arg := ArgP (p : Z) | ArgQ (v : Z) | ArgI (v : Z) | ArgU (v : Z) | ArgS (s : option cstr).

Definition va_word (k : kind) (ap : list arg) : option (Z * list arg) :=
  match k, ap with
  | KP, ArgP v :: ap' | KQ, ArgQ v :: ap' | KI, ArgI v :: ap' | KU, ArgU v :: ap' => Some (v, ap')
  | _, _ => None
  end.
Definition va_str (ap : list arg) : option (option cstr * list arg) :=
  match ap with ArgS s :: ap' => Some (s, ap') | _ => None end.

Definition word_len (k : kind) : Z :=
  match k with KP | KQ => 8 | KI | KU => 4 | KS => 0 end.
Definition str_len (s : option cstr) : Z :=
  match s with Some s => u32 (u32 (Z.of_nat (length s)) + 1) | None => 0 end.

(** ** Byte buffers *)

(** the object representation of an [n]-byte integer, little endian *)
Fixpoint le_bytes (n : nat) (v : Z) : list Z :=
  match n with O => [] | S n' => v mod 256 :: le_bytes n' (v / 256) end.
Fixpoint le_val (bs : list Z) : Z :=
  match bs with [] => 0 | b :: bs' => b + 256 * le_val bs' end.

(** [memcpy(base + off, bs, |bs|)] and reads, inside the object only *)
Definition put (buf : list Z) (off : Z) (bs : list Z) : option (list Z) :=
  if (0 <=? off) && (off + Z.of_nat (length bs) <=? Z.of_nat (length buf))
  then Some (take (Z.to_nat off) buf ++ bs ++ drop (Z.to_nat off + length bs) buf)
  else None.
Definition get (buf : list Z) (off : Z) (n : nat) : option (list Z) :=
  if (0 <=? off) && (off + Z.of_nat n <=? Z.of_nat (length buf))
  then Some (take n (drop (Z.to_nat off) buf)) else None.

(** ** Formats *)

Definition is_fmt_space (c : Z) : bool :=
  (c =? 32) || (c =? 9) || (c =? 10) || (c =? 13).

Fixpoint fmt_param_count (fmt : cstr) : Z :=
  match fmt with
  | [] => 0
  | f :: fmt' => (if is_fmt_space f then 0 else 1) + fmt_param_count fmt'
  end.

(** ** Measuring *)

(** error, length, remaining arguments *)
Definition one_measure (fc : Z) (ap : list arg) : option (Z * Z * list arg) :=
  match fmt_kind fc with
  | Some KS =>
    match va_str ap with
    | Some (s, ap) => Some (REND_SUCCESS, str_len s, ap)
    | None => None
    end
  | Some k =>
    match va_word k ap with
    | Some (_, ap) => Some (REND_SUCCESS, word_len k, ap)
    | None => None
    end
  | None => Some (- E_IN_PARAM, 0, ap)
  end.

Fixpoint measure_loop (fmt : cstr) (ap : list arg) (total : Z) : option (Z * Z) :=
  match fmt with
  | [] => Some (REND_SUCCESS, total)
  | f :: fmt' =>
    if is_fmt_space f then measure_loop fmt' ap total
    else
      match one_measure f ap with
      | None => None
      | Some (e, l, ap) =>
        if negb (e =? REND_SUCCESS) then Some (- E_IN_PARAM, 0)
        else measure_loop fmt' ap (u32 (total + (1 + 4 + l)))
      end
  end.

(** error code and [*total_out]; a NULL format is [None] *)
Definition ipc_serial_measure_va (fmt : option cstr) (ap : list arg) : option (Z * Z) :=
  match fmt with
  | None => Some (- E_IN_PARAM, 0)
  | Some fmt => measure_loop fmt ap 4
  end.

(** ** Encoding *)

(** error, buffer, offset, remaining arguments *)
Definition one_write (base : list Z) (cap off fc : Z) (ap : list arg)
  : option (Z * list Z * Z * list arg) :=
  match fmt_kind fc with
  | None => Some (- E_IN_PARAM, base, off, ap)
  | Some KS =>
    match va_str ap with
    | None => None
    | Some (str_s, ap) =>
      let len := str_len str_s in
      if cap <? u32 (off + 1 + 4 + len) then Some (- E_IN_PARAM, base, off, ap)
      else
        base ← put base off [u8 fc];
        base ← put base (u32 (off + 1)) (le_bytes 4 len);
        let off := u32 (u32 (off + 1) + 4) in
        match str_s with
        | Some s =>
          base ← (if negb (len =? 0) then put base off (take (Z.to_nat len) (s ++ [0])) else Some base);
          Some (REND_SUCCESS, base, u32 (off + len), ap)
        | None => Some (REND_SUCCESS, base, u32 (off + len), ap)
        end
    end
  | Some k =>
    let len := word_len k in
    if cap <? u32 (off + 1 + 4 + len) then Some (- E_IN_PARAM, base, off, ap)
    else
      base ← put base off [u8 fc];
      base ← put base (u32 (off + 1)) (le_bytes 4 len);
      let off := u32 (u32 (off + 1) + 4) in
      '(v, ap) ← va_word k ap;
      base ← put base off (le_bytes (Z.to_nat len) v);
      Some (REND_SUCCESS, base, u32 (off + len), ap)
  end.

Fixpoint encode_loop (base : list Z) (total off : Z) (fmt : cstr) (ap : list arg)
  : option (Z * list Z * Z) :=
  match fmt with
  | [] => Some (REND_SUCCESS, base, off)
  | f :: fmt' =>
    if is_fmt_space f then encode_loop base total off fmt' ap
    else
      match one_write base total off f ap with
      | None => None
      | Some (e, base, off, ap) =>
        if negb (e =? REND_SUCCESS) then Some (- E_IN_PARAM, base, off)
        else encode_loop base total off fmt' ap
      end
  end.

(** [buf = None] is the NULL pointer *)
Definition ipc_serial_encode_into_va (buf : option (list Z)) (total : Z) (fmt : option cstr)
    (ap : list arg) : option (Z * option (list Z)) :=
  match buf, fmt with
  | Some b, Some fmt =>
    if total <? 4 then Some (- E_IN_PARAM, buf)
    else
      b ← put b 0 (le_bytes 4 (u32 (fmt_param_count fmt)));
      match encode_loop b total 4 fmt ap with
      | None => None
      | Some (e, b, off) =>
        if negb (e =? REND_SUCCESS) then Some (- E_IN_PARAM, Some b)
        else if negb (off =? total) then Some (- E_IN_PARAM, Some b)
        else Some (REND_SUCCESS, Some b)
      end
  | _, _ => Some (- E_IN_PARAM, buf)
  end.

(** measure, allocate (the heap hands out zero-filled memory), encode; the
    result is NULL or pointer, bytes and length *)
Definition ipc_serial_encode_va {A} `{Allocator A} (a : A) (fmt : option cstr) (ap : list arg)
  : option (option (Z * list Z * Z) * A) :=
  match ipc_serial_measure_va fmt ap with
  | None => None
  | Some (e, total) =>
    if negb (e =? REND_SUCCESS) then Some (None, a)
    else
      let '(p, a) := m_alloc a total in
      if p =? NULL then Some (None, a)
      else
        match ipc_serial_encode_into_va (Some (replicate (Z.to_nat total) 0)) total fmt ap with
        | None => None
        | Some (e, b) =>
          if negb (e =? REND_SUCCESS) then Some (None, m_free a p)
          else match b with Some b => Some (Some (p, b, total), a) | None => None end
        end
  end.

(** ** Decoding *)

(** what an out-pointer receives: a word, or a pointer into the buffer given
    by its offset, NULL for [None] *)
Inductive out := OutWord (v : Z) | OutStr (p : option Z).

(** the word read back at its C type *)
Definition word_of_bytes (k : kind) (bs : list Z) : Z :=
  match k with
  | KQ => i64 (le_val bs)
  | KI => i32 (le_val bs)
  | _ => le_val bs
  end.

(** [ap] holds one flag per out-pointer: non-NULL or not *)
Definition one_read (base : list Z) (buf_len off expect : Z) (ap : list bool)
  : option (Z * Z * option out * list bool) :=
  let err := Some (- E_IN_PARAM, off, None, ap) in
  if buf_len <? u32 (off + 1 + 4) then err
  else
    tag ← get base off 1;
    let off := u32 (off + 1) in
    lenb ← get base off 4;
    let len := le_val lenb in
    let off := u32 (off + 4) in
    if buf_len <? u32 (off + len) then err
    else if negb (le_val tag =? u8 expect) then err
    else
      match fmt_kind expect with
      | None => err
      | Some KS =>
        match ap with
        | [] => None
        | false :: ap => Some (- E_IN_PARAM, off, None, ap)
        | true :: ap =>
          if len =? 0 then Some (REND_SUCCESS, u32 (off + len), Some (OutStr None), ap)
          else
            last ← get base (u32 (off + len - 1)) 1;
            if negb (le_val last =? 0) then err
            else Some (REND_SUCCESS, u32 (off + len), Some (OutStr (Some off)), ap)
        end
      | Some k =>
        if negb (len =? word_len k) then err
        else
          match ap with
          | [] => None
          | false :: ap => Some (- E_IN_PARAM, off, None, ap)
          | true :: ap =>
            bs ← get base off (Z.to_nat len);
            Some (REND_SUCCESS, u32 (off + len), Some (OutWord (word_of_bytes k bs)), ap)
          end
      end.

Fixpoint decode_loop (base : list Z) (buf_len off : Z) (fmt : cstr) (ap : list bool)
  : option (Z * Z * list out) :=
  match fmt with
  | [] => Some (REND_SUCCESS, off, [])
  | f :: fmt' =>
    if is_fmt_space f then decode_loop base buf_len off fmt' ap
    else
      match one_read base buf_len off f ap with
      | None => None
      | Some (e, off, o, ap) =>
        if negb (e =? REND_SUCCESS) then Some (- E_IN_PARAM, off, [])
        else
          match decode_loop base buf_len off fmt' ap with
          | None => None
          | Some (e, off, os) => Some (e, off, match o with Some o => o :: os | None => os end)
          end
      end
  end.

(** error code and the outputs stored before the return *)
Definition ipc_serial_decode (buf : option (list Z)) (buf_len : Z) (fmt : option cstr) (ap : list bool)
  : option (Z * list out) :=
  match buf, fmt with
  | Some b, Some fmt =>
    if buf_len <? 4 then Some (- E_IN_PARAM, [])
    else
      n_wire ← get b 0 4;
      if negb (le_val n_wire =? u32 (fmt_param_count fmt)) then Some (- E_IN_PARAM, [])
      else
        match decode_loop b buf_len 4 fmt ap with
        | None => None
        | Some (e, off, os) =>
          if negb (e =? REND_SUCCESS) then Some (- E_IN_PARAM, os)
          else if negb (off =? buf_len) then Some (- E_IN_PARAM, os)
          else Some (REND_SUCCESS, os)
        end
  | _, _ => Some (- E_IN_PARAM, [])
  end.

(** ** Byte representation *)

Lemma le_bytes_length n v : length (le_bytes n v) = n.
Proof. revert v. induction n as [|n IH]; intros v; cbn; [done|]. by rewrite IH. Qed.

Lemma le_val_bytes n v : le_val (le_bytes n v) = v mod 2 ^ (8 * Z.of_nat n).
Proof.
  revert v. induction n as [|n IH]; intros v; cbn [le_bytes le_val].
  { change (2 ^ (8 * Z.of_nat 0)) with 1. by rewrite Z.mod_1_r. }
  rewrite IH. replace (8 * Z.of_nat (S n)) with (8 + 8 * Z.of_nat n) by lia.
  rewrite Z.pow_add_r by lia. change (2 ^ 8) with 256.
  rewrite Z.rem_mul_r; lia.
Qed.

Lemma put_app pre mid post bs :
  length bs = length mid ->
  put (pre ++ mid ++ post) (Z.of_nat (length pre)) bs = Some (pre ++ bs ++ post).
Proof.
  intros Hl. unfold put. rewrite !length_app.
  destruct (Z.leb_spec 0 (Z.of_nat (length pre))); [|lia].
  destruct (Z.leb_spec (Z.of_nat (length pre) + Z.of_nat (length bs))
              (Z.of_nat (length pre + (length mid + length post)))); [|lia].
  cbn [andb]. rewrite Nat2Z.id, take_app_length, (app_assoc pre mid post), Hl, <- length_app, drop_app_length. done.
Qed.

Lemma get_app pre mid post :
  get (pre ++ mid ++ post) (Z.of_nat (length pre)) (length mid) = Some mid.
Proof.
  unfold get. rewrite !length_app.
  destruct (Z.leb_spec 0 (Z.of_nat (length pre))); [|lia].
  destruct (Z.leb_spec (Z.of_nat (length pre) + Z.of_nat (length mid))
              (Z.of_nat (length pre + (length mid + length post)))); [|lia].
  cbn [andb]. by rewrite Nat2Z.id, drop_app_length, take_app_length.
Qed.

Lemma put_at pre mid post bs off :
  off = Z.of_nat (length pre) -> length bs = length mid ->
  put (pre ++ mid ++ post) off bs = Some (pre ++ bs ++ post).
Proof. intros ->. apply put_app. Qed.

Lemma get_at pre mid post off n :
  off = Z.of_nat (length pre) -> n = length mid ->
  get (pre ++ mid ++ post) off n = Some mid.
Proof. intros -> ->. apply get_app. Qed.

(** ** The wire format as a specification *)

Definition value_bytes (x : arg) : list Z :=
  match x with
  | ArgP v | ArgQ v => le_bytes 8 v
  | ArgI v | ArgU v => le_bytes 4 v
  | ArgS (Some s) => s ++ [0]
  | ArgS None => []
  end.

Definition tlv (fc : Z) (x : arg) : list Z :=
  [fc] ++ le_bytes 4 (Z.of_nat (length (value_bytes x))) ++ value_bytes x.

(** the argument has the type the format character calls for and is a value
    of that C type *)
Definition arg_ok (fc : Z) (x : arg) : Prop :=
  match fmt_kind fc, x with
  | Some KP, ArgP v => 0 <= v < 2 ^ 64
  | Some KQ, ArgQ v => - 2 ^ 63 <= v < 2 ^ 63
  | Some KI, ArgI v => - 2 ^ 31 <= v < 2 ^ 31
  | Some KU, ArgU v => 0 <= v < 2 ^ 32
  | Some KS, ArgS (Some s) => cstr_ok s
  | Some KS, ArgS None => True
  | _, _ => False
  end.

Fixpoint args_ok (fmt : cstr) (ap : list arg) : Prop :=
  match fmt with
  | [] => ap = []
  | f :: fmt' =>
    if is_fmt_space f then args_ok fmt' ap
    else match ap with x :: ap' => arg_ok f x /\ args_ok fmt' ap' | [] => False end
  end.

Fixpoint wire_params (fmt : cstr) (ap : list arg) : list Z :=
  match fmt with
  | [] => []
  | f :: fmt' =>
    if is_fmt_space f then wire_params fmt' ap
    else match ap with x :: ap' => tlv f x ++ wire_params fmt' ap' | [] => [] end
  end.

Definition wire (fmt : cstr) (ap : list arg) : list Z :=
  le_bytes 4 (fmt_param_count fmt) ++ wire_params fmt ap.

Lemma fmt_kind_byte f k : fmt_kind f = Some k -> 0 <= f < 256.
Proof.
  unfold fmt_kind, ch_p, ch_q, ch_i, ch_u, ch_s, ch_t. repeat case_bool.
Qed.

Lemma arg_ok_kind f x : arg_ok f x -> exists k, fmt_kind f = Some k.
Proof. unfold arg_ok. destruct (fmt_kind f); [by eexists|done]. Qed.

Lemma tlv_length f x : length (tlv f x) = (5 + length (value_bytes x))%nat.
Proof. unfold tlv. rewrite !length_app, le_bytes_length. done. Qed.

Lemma value_length f x k :
  fmt_kind f = Some k -> arg_ok f x -> Z.of_nat (length (value_bytes x)) < 2 ^ 32 ->
  match x with
  | ArgS s => k = KS /\ str_len s = Z.of_nat (length (value_bytes x))
  | _ => k <> KS /\ word_len k = Z.of_nat (length (value_bytes x))
  end.
Proof.
  unfold arg_ok. intros -> Hx Hl. destruct k, x as [v|v|v|v|[s|]]; try done; cbn [value_bytes] in *.
  all: rewrite ?le_bytes_length; try (split; [done|reflexivity]).
  split; [done|]. rewrite length_app in *. cbn [length str_len] in *. rewrite (u32_small (Z.of_nat _)), u32_small by lia. lia.
Qed.

(** one step of measuring *)
Lemma one_measure_spec f x ap :
  arg_ok f x -> Z.of_nat (length (value_bytes x)) < 2 ^ 32 ->
  one_measure f (x :: ap) = Some (REND_SUCCESS, Z.of_nat (length (value_bytes x)), ap).
Proof.
  intros Hx Hl. destruct (arg_ok_kind f x Hx) as [k Hk].
  pose proof (value_length f x k Hk Hx Hl) as Hv.
  unfold arg_ok in Hx. unfold one_measure. rewrite Hk in *.
  destruct x as [v|v|v|v|s], Hv as [Hk' <-], k; try done.
Qed.

Lemma measure_loop_spec fmt ap total :
  args_ok fmt ap -> 0 <= total -> total + Z.of_nat (length (wire_params fmt ap)) < 2 ^ 32 ->
  measure_loop fmt ap total = Some (REND_SUCCESS, total + Z.of_nat (length (wire_params fmt ap))).
Proof.
  revert ap total. induction fmt as [|f fmt IH]; intros ap total Ha Ht Hb; cbn [measure_loop wire_params args_ok] in *.
  { cbn. by rewrite Z.add_0_r. }
  destruct (is_fmt_space f); [by apply IH|]. destruct ap as [|x ap]; [done|]. destruct Ha as [Hx Ha].
  rewrite length_app, tlv_length in Hb |- *. rewrite one_measure_spec by (done || lia).
  change (negb (REND_SUCCESS =? REND_SUCCESS)) with false. cbn iota.
  rewrite u32_small by lia. rewrite IH by (done || lia). do 2 f_equal. lia.
Qed.

Lemma str_value_bytes x s :
  x = ArgS (Some s) -> 0 < Z.of_nat (length (value_bytes x)) /\
  take (length (value_bytes x)) (s ++ [0]) = value_bytes x.
Proof. intros ->. cbn [value_bytes]. rewrite length_app, take_ge; [|by rewrite length_app]. cbn. split; [lia|done]. Qed.

(** one step of encoding writes exactly the TLV at the offset *)
Lemma one_write_spec pre mid post f x ap cap :
  arg_ok f x -> length mid = length (tlv f x) ->
  cap = Z.of_nat (length (pre ++ mid ++ post)) -> cap < 2 ^ 32 ->
  one_write (pre ++ mid ++ post) cap (Z.of_nat (length pre)) f (x :: ap) =
    Some (REND_SUCCESS, pre ++ tlv f x ++ post, Z.of_nat (length pre + length (tlv f x)), ap).
Proof.
  intros Hx Hm Hcap Hc. destruct (arg_ok_kind f x Hx) as [k Hk].
  rewrite !length_app in Hcap. rewrite tlv_length in *.
  pose proof (value_length f x k Hk Hx ltac:(lia)) as Hv.
  pose proof (fmt_kind_byte f k Hk) as Hf.
  set (n := length (value_bytes x)) in *.
  assert (exists b0 lb vb, mid = [b0] ++ lb ++ vb /\ length lb = 4%nat /\ length vb = n) as (b0 & lb & vb & -> & Hlb & Hvb).
  { destruct mid as [|b0 mid]; [done|]. exists b0, (take 4 mid), (drop 4 mid).
    rewrite take_drop. split; [done|]. rewrite length_take, length_drop. cbn in Hm. lia. }
  assert (P1 : put (pre ++ ([b0] ++ lb ++ vb) ++ post) (Z.of_nat (length pre)) [u8 f] =
               Some (pre ++ [f] ++ lb ++ vb ++ post)).
  { rewrite <- !app_assoc. rewrite u8_small by lia. by apply put_app. }
  assert (P2 : put (pre ++ [f] ++ lb ++ vb ++ post) (u32 (Z.of_nat (length pre) + 1)) (le_bytes 4 (Z.of_nat n)) =
               Some ((pre ++ [f]) ++ le_bytes 4 (Z.of_nat n) ++ vb ++ post)).
  { rewrite u32_small by lia. rewrite (app_assoc pre [f]). apply put_at; [rewrite length_app; cbn; lia|].
    by rewrite le_bytes_length. }
  assert (P3 : put ((pre ++ [f]) ++ le_bytes 4 (Z.of_nat n) ++ vb ++ post)
                 (u32 (u32 (Z.of_nat (length pre) + 1) + 4)) (value_bytes x) =
               Some (pre ++ tlv f x ++ post)).
  { rewrite (u32_small (Z.of_nat (length pre) + 1)), u32_small by lia. rewrite app_assoc. rewrite put_at; [|rewrite !length_app, le_bytes_length; cbn; lia|done].
    f_equal. unfold tlv. rewrite <- !app_assoc. done. }
  assert (Hoff : u32 (u32 (u32 (Z.of_nat (length pre) + 1) + 4) + Z.of_nat n) = Z.of_nat (length pre + (5 + n))).
  { rewrite (u32_small (Z.of_nat (length pre) + 1)), (u32_small (Z.of_nat (length pre) + 1 + 4)), u32_small by lia. lia. }
  pose proof (str_value_bytes x) as Hsb.
  unfold one_write. unfold arg_ok in Hx. rewrite Hk in *.
  assert (Hword : forall v, match x with ArgP w | ArgQ w | ArgI w | ArgU w => w = v | _ => False end -> word_len k = Z.of_nat n ->
            le_bytes (Z.to_nat (Z.of_nat n)) v = value_bytes x).
  { intros v E Hw. rewrite <- Hw. destruct k, x; try done; by subst. }
  assert (Htest : (cap <? u32 (Z.of_nat (length pre) + 1 + 4 + Z.of_nat n)) = false).
  { apply Z.ltb_ge. rewrite u32_small; lia. }
  destruct x as [v|v|v|v|s].
  1,2,3,4: destruct Hv as [Hks Hv]; destruct k; try done; rewrite Hv, Htest, P1; cbn [mbind option_bind];
    rewrite P2; cbn [mbind option_bind va_word]; rewrite (Hword v) by done; rewrite P3; cbn [mbind option_bind]; by rewrite Hoff.
  destruct Hv as [-> Hv]. cbn [va_str]. rewrite Hv, Htest, P1. cbn [mbind option_bind].
  rewrite P2. cbn [mbind option_bind]. destruct s as [s|].
  - specialize (Hsb s eq_refl). fold n in Hsb. destruct (Z.eqb_spec (Z.of_nat n) 0); [lia|]. cbn [negb].
    rewrite Nat2Z.id, (proj2 Hsb), P3. cbn [mbind option_bind]. by rewrite Hoff.
  - rewrite Hoff. do 3 f_equal. cbn in n. subst n. destruct vb; [|done].
    unfold tlv. cbn [value_bytes length app]. rewrite <- !app_assoc. done.
Qed.

Lemma encode_loop_spec fmt ap pre mid post cap :
  args_ok fmt ap -> length mid = length (wire_params fmt ap) ->
  cap = Z.of_nat (length (pre ++ mid ++ post)) -> cap < 2 ^ 32 ->
  encode_loop (pre ++ mid ++ post) cap (Z.of_nat (length pre)) fmt ap =
    Some (REND_SUCCESS, pre ++ wire_params fmt ap ++ post,
          Z.of_nat (length pre + length (wire_params fmt ap))).
Proof.
  revert ap pre mid. induction fmt as [|f fmt IH]; intros ap pre mid Ha Hm Hcap Hc;
    cbn [encode_loop wire_params args_ok] in *.
  { destruct mid; [|done]. cbn [length app]. by rewrite Nat.add_0_r. }
  destruct (is_fmt_space f); [by apply IH|]. destruct ap as [|x ap]; [done|]. destruct Ha as [Hx Ha].
  rewrite length_app in Hm.
  rewrite <- (take_drop (length (tlv f x)) mid) in Hcap |- *.
  set (m1 := take _ mid) in *. set (m2 := drop _ mid) in *.
  assert (Hl1 : length m1 = length (tlv f x)) by (unfold m1; rewrite length_take; lia).
  assert (Hl2 : length m2 = length (wire_params fmt ap)) by (unfold m2; rewrite length_drop; lia).
  rewrite <- (app_assoc m1 m2 post) in Hcap |- *.
  rewrite one_write_spec by done.
  change (negb (REND_SUCCESS =? REND_SUCCESS)) with false. cbn iota.
  rewrite (app_assoc pre (tlv f x)), <- length_app, IH; [|done|done| |done].
  - rewrite <- !app_assoc. rewrite !length_app. do 3 f_equal. lia.
  - rewrite Hcap, !length_app. lia.
Qed.

(** what decoding must deliver for an argument: the same word, NULL, or a
    pointer to the same NUL-terminated string inside the buffer *)
Definition out_matches (buf : list Z) (x : arg) (o : out) : Prop :=
  match x, o with
  | ArgP v, OutWord w | ArgQ v, OutWord w | ArgI v, OutWord w | ArgU v, OutWord w => v = w
  | ArgS None, OutStr None => True
  | ArgS (Some s), OutStr (Some p) => get buf p (length s + 1) = Some (s ++ [0])
  | _, _ => False
  end.

Lemma i64_wrap v : - 2 ^ 63 <= v < 2 ^ 63 -> i64 (v mod 2 ^ 64) = v.
Proof. unfold i64, swrap. intros. dlia. Qed.
Lemma i32_wrap v : - 2 ^ 31 <= v < 2 ^ 31 -> i32 (v mod 2 ^ 32) = v.
Proof. unfold i32, swrap. intros. dlia. Qed.

Lemma word_value_roundtrip f k x :
  fmt_kind f = Some k -> arg_ok f x -> k <> KS ->
  exists v, x = (match k with KP => ArgP | KQ => ArgQ | KI => ArgI | _ => ArgU end) v /\
    word_of_bytes k (value_bytes x) = v.
Proof.
  unfold arg_ok. intros ->. destruct k, x as [v|v|v|v|s]; try done; intros Hx _; exists v;
    (split; [done|]); unfold word_of_bytes; cbn [value_bytes]; rewrite le_val_bytes.
  - apply Z.mod_small. lia.
  - by apply i64_wrap.
  - by apply i32_wrap.
  - apply Z.mod_small. lia.
Qed.

(** one step of decoding reads back the TLV at the offset *)
Lemma one_read_spec pre post f x ap buf_len :
  arg_ok f x -> buf_len < 2 ^ 32 ->
  Z.of_nat (length pre + length (tlv f x)) <= buf_len ->
  exists o, one_read (pre ++ tlv f x ++ post) buf_len (Z.of_nat (length pre)) f (true :: ap) =
    Some (REND_SUCCESS, Z.of_nat (length pre + length (tlv f x)), Some o, ap) /\
    out_matches (pre ++ tlv f x ++ post) x o.
Proof.
  intros Hx Hc Hlen. destruct (arg_ok_kind f x Hx) as [k Hk]. rewrite tlv_length in *.
  pose proof (value_length f x k Hk Hx ltac:(lia)) as Hv. pose proof (fmt_kind_byte f k Hk) as Hf.
  set (n := length (value_bytes x)) in *. set (l0 := Z.of_nat (length pre)) in *.
  assert (G1 : get (pre ++ tlv f x ++ post) l0 1 = Some [f]).
  { unfold tlv. rewrite <- !app_assoc. by apply get_app. }
  assert (G2 : get (pre ++ tlv f x ++ post) (l0 + 1) 4 = Some (le_bytes 4 (Z.of_nat n))).
  { unfold tlv. rewrite <- !app_assoc, (app_assoc pre). apply get_at; [rewrite length_app; cbn; lia|].
    by rewrite le_bytes_length. }
  assert (Hsplit : pre ++ tlv f x ++ post = (pre ++ [f] ++ le_bytes 4 (Z.of_nat n)) ++ value_bytes x ++ post).
  { unfold tlv. by rewrite <- !app_assoc. }
  assert (Hpl : l0 + 5 = Z.of_nat (length (pre ++ [f] ++ le_bytes 4 (Z.of_nat n)))).
  { rewrite !length_app, le_bytes_length. cbn. lia. }
  assert (G3 : get (pre ++ tlv f x ++ post) (l0 + 5) n = Some (value_bytes x)).
  { rewrite Hsplit. by apply get_at. }
  assert (Hlv : le_val (le_bytes 4 (Z.of_nat n)) = Z.of_nat n).
  { rewrite le_val_bytes. apply Z.mod_small. lia. }
  assert (Hend : u32 (l0 + 5 + Z.of_nat n) = Z.of_nat (length pre + (5 + n))) by (rewrite u32_small; lia).
  unfold one_read. rewrite (u32_small (l0 + 1 + 4)), (u32_small (l0 + 1)), (u32_small (l0 + 1 + 4)) by lia.
  replace (l0 + 1 + 4) with (l0 + 5) by lia.
  destruct (Z.ltb_spec buf_len (l0 + 5)); [lia|].
  rewrite G1. cbn [mbind option_bind]. rewrite G2. cbn [mbind option_bind]. rewrite Hlv, Hend.
  destruct (Z.ltb_spec buf_len (Z.of_nat (length pre + (5 + n)))); [lia|].
  replace (le_val [f]) with f by (cbn; lia). rewrite u8_small, Z.eqb_refl by lia. cbn [negb]. rewrite Hk.
  destruct (decide (k = KS)) as [->|Hks].
  - unfold arg_ok in Hx. rewrite Hk in Hx. destruct x as [| | | |[s|]]; try done.
    + pose proof (str_value_bytes _ s eq_refl) as [Hpos _]. fold n in Hpos.
      destruct (Z.eqb_spec (Z.of_nat n) 0); [lia|].
      assert (G4 : get (pre ++ tlv f (ArgS (Some s)) ++ post) (u32 (l0 + 5 + Z.of_nat n - 1)) 1 = Some [0]).
      { rewrite Hsplit. cbn [value_bytes]. set (A := pre ++ [f] ++ le_bytes 4 (Z.of_nat n)) in *.
        rewrite <- (app_assoc s [0] post), (app_assoc A s). apply get_at; [|done]. rewrite u32_small by lia. rewrite length_app, Nat2Z.inj_add. rewrite <- Hpl.
        unfold n. cbn [value_bytes]. rewrite length_app. cbn [length]. lia. }
      rewrite G4. cbn [mbind option_bind]. cbn [le_val]. change (0 + 256 * 0 =? 0) with true. cbn [negb].
      eexists. split; [done|]. cbn [out_matches].
      replace (length s + 1)%nat with n; [exact G3|]. unfold n. cbn [value_bytes]. by rewrite length_app.
    + replace (Z.of_nat n) with 0 in * by done. cbn [Z.eqb]. eexists. by split.
  - destruct (word_value_roundtrip f k x Hk Hx Hks) as (v & Ex & Hw).
    assert (Hwl : Z.of_nat n = word_len k) by (destruct k, x; try done; by destruct Hv).
    rewrite <- Hwl, Z.eqb_refl. cbn [negb]. rewrite Nat2Z.id, G3. cbn [mbind option_bind]. rewrite Hw.
    exists (OutWord v). split; [by destruct k|]. subst x. by destruct k.
Qed.

Lemma decode_loop_spec fmt ap pre post buf_len :
  args_ok fmt ap -> buf_len < 2 ^ 32 ->
  Z.of_nat (length pre + length (wire_params fmt ap)) <= buf_len ->
  exists os, decode_loop (pre ++ wire_params fmt ap ++ post) buf_len (Z.of_nat (length pre)) fmt
      (replicate (length ap) true) =
    Some (REND_SUCCESS, Z.of_nat (length pre + length (wire_params fmt ap)), os) /\
    Forall2 (out_matches (pre ++ wire_params fmt ap ++ post)) ap os.
Proof.
  revert ap pre. induction fmt as [|f fmt IH]; intros ap pre Ha Hc Hlen;
    cbn [decode_loop wire_params args_ok] in *.
  { subst ap. exists []. cbn [length]. rewrite Nat.add_0_r. by split. }
  destruct (is_fmt_space f); [by apply IH|]. destruct ap as [|x ap]; [done|]. destruct Ha as [Hx Ha].
  rewrite length_app in Hlen. cbn [length replicate].
  rewrite <- app_assoc.
  destruct (one_read_spec pre (wire_params fmt ap ++ post) f x (replicate (length ap) true) buf_len Hx Hc ltac:(lia))
    as (o & -> & Ho).
  change (negb (REND_SUCCESS =? REND_SUCCESS)) with false. cbn iota.
  destruct (IH ap (pre ++ tlv f x) Ha Hc) as (os & Hd & Hos); [rewrite length_app; lia|].
  rewrite <- app_assoc in Hd, Hos. rewrite <- length_app, Hd.
  exists (o :: os). split; [|by constructor]. do 3 f_equal. rewrite !length_app. lia.
Qed.

Lemma fmt_param_count_args fmt ap : args_ok fmt ap -> fmt_param_count fmt = Z.of_nat (length ap).
Proof.
  revert ap. induction fmt as [|f fmt IH]; intros ap Ha; cbn [fmt_param_count args_ok] in *; [by subst|].
  destruct (is_fmt_space f); [by apply IH|]. destruct ap as [|x ap]; [done|].
  rewrite (IH ap) by apply Ha. cbn [length]. lia.
Qed.

Lemma wire_params_length fmt ap : args_ok fmt ap -> (5 * length ap <= length (wire_params fmt ap))%nat.
Proof.
  revert ap. induction fmt as [|f fmt IH]; intros ap Ha; cbn [wire_params args_ok] in *; [by subst|].
  destruct (is_fmt_space f); [by apply IH|]. destruct ap as [|x ap]; [done|]. destruct Ha as [_ Ha].
  apply IH in Ha. rewrite length_app, tlv_length. cbn [length]. lia.
Qed.

(** a buffer length that cuts the TLV short makes the read fail *)
Lemma one_read_short pre post f x ap buf_len :
  arg_ok f x -> Z.of_nat (length pre + length (tlv f x)) < 2 ^ 32 ->
  buf_len < Z.of_nat (length pre + length (tlv f x)) ->
  exists off ap', one_read (pre ++ tlv f x ++ post) buf_len (Z.of_nat (length pre)) f ap =
    Some (- E_IN_PARAM, off, None, ap').
Proof.
  intros Hx Hc Hlen. rewrite tlv_length in *. set (n := length (value_bytes x)) in *.
  set (l0 := Z.of_nat (length pre)) in *. unfold one_read.
  destruct (Z.ltb_spec buf_len (u32 (l0 + 1 + 4))); [by eexists _, _|].
  assert (G1 : get (pre ++ tlv f x ++ post) l0 1 = Some [f]).
  { unfold tlv. rewrite <- !app_assoc. by apply get_app. }
  assert (G2 : get (pre ++ tlv f x ++ post) (u32 (l0 + 1)) 4 = Some (le_bytes 4 (Z.of_nat n))).
  { rewrite u32_small by lia. unfold tlv. rewrite <- !app_assoc, (app_assoc pre).
    apply get_at; [rewrite length_app; cbn; lia|]. by rewrite le_bytes_length. }
  rewrite G1. cbn [mbind option_bind]. rewrite G2. cbn [mbind option_bind].
  rewrite le_val_bytes. change (8 * Z.of_nat 4) with 32. rewrite (Z.mod_small (Z.of_nat n)) by lia.
  rewrite (u32_small (l0 + 1)), (u32_small (l0 + 1 + 4)), u32_small by lia.
  destruct (Z.ltb_spec buf_len (l0 + 1 + 4 + Z.of_nat n)); [by eexists _, _|]. lia.
Qed.

Lemma decode_loop_short fmt ap pre post buf_len :
  args_ok fmt ap -> Z.of_nat (length pre + length (wire_params fmt ap)) < 2 ^ 32 ->
  Z.of_nat (length pre) <= buf_len -> buf_len < Z.of_nat (length pre + length (wire_params fmt ap)) ->
  exists e off os, decode_loop (pre ++ wire_params fmt ap ++ post) buf_len (Z.of_nat (length pre)) fmt
      (replicate (length ap) true) = Some (e, off, os) /\ e <> REND_SUCCESS.
Proof.
  revert ap pre. induction fmt as [|f fmt IH]; intros ap pre Ha Hc Hlo Hlen;
    cbn [decode_loop wire_params args_ok] in *; [cbn in Hlen; lia|].
  destruct (is_fmt_space f); [by apply IH|]. destruct ap as [|x ap]; [done|]. destruct Ha as [Hx Ha].
  rewrite length_app in Hlen, Hc. cbn [length replicate]. rewrite <- app_assoc.
  destruct (Z.lt_ge_cases buf_len (Z.of_nat (length pre + length (tlv f x)))).
  - destruct (one_read_short pre (wire_params fmt ap ++ post) f x (true :: replicate (length ap) true)
      buf_len Hx ltac:(lia) ltac:(lia)) as (off & ap' & ->).
    by eexists _, _, _.
  - destruct (one_read_spec pre (wire_params fmt ap ++ post) f x (replicate (length ap) true) buf_len Hx ltac:(lia) ltac:(lia))
      as (o & -> & _).
    change (negb (REND_SUCCESS =? REND_SUCCESS)) with false. cbn iota.
    destruct (IH ap (pre ++ tlv f x) Ha) as (e & off & os & Hd & He); [rewrite length_app; lia..|].
    rewrite <- app_assoc in Hd. rewrite <- length_app, Hd. by eexists _, _, _.
Qed.

(** ** Properties *)

Definition fits (fmt : cstr) (ap : list arg) : Prop := Z.of_nat (length (wire fmt ap)) < 2 ^ 32.

Lemma wire_length fmt ap : length (wire fmt ap) = (4 + length (wire_params fmt ap))%nat.
Proof. unfold wire. by rewrite length_app, le_bytes_length. Qed.

Lemma encode_into_wire fmt ap (b : list Z) :
  args_ok fmt ap -> fits fmt ap -> length b = length (wire fmt ap) ->
  ipc_serial_encode_into_va (Some b) (Z.of_nat (length b)) (Some fmt) ap =
    Some (REND_SUCCESS, Some (wire fmt ap)).
Proof.
  unfold fits. intros Ha Hf Hb. rewrite Hb in *. pose proof (wire_params_length fmt ap Ha) as Hwl.
  rewrite wire_length in *. unfold ipc_serial_encode_into_va.
  destruct (Z.ltb_spec (Z.of_nat (4 + length (wire_params fmt ap))) 4); [lia|].
  pose proof (fmt_param_count_args fmt ap Ha) as Hn.
  rewrite <- (take_drop 4 b) at 1.
  change (take 4 b ++ drop 4 b) with ([] ++ take 4 b ++ drop 4 b).
  rewrite (put_at [] (take 4 b) (drop 4 b)) by (done || (rewrite le_bytes_length, length_take; lia)).
  cbn [mbind option_bind]. rewrite u32_small by lia.
  set (pre := le_bytes 4 (fmt_param_count fmt)).
  pose proof (encode_loop_spec fmt ap pre (drop 4 b) [] (Z.of_nat (4 + length (wire_params fmt ap))) Ha) as He.
  rewrite !app_nil_r in He. change ([] ++ pre ++ drop 4 b) with (pre ++ drop 4 b).
  change 4 with (Z.of_nat (length pre)) at 1. 
  rewrite He; [|rewrite length_drop; lia|rewrite length_app, length_drop; cbn; lia|done].
  change (negb (REND_SUCCESS =? REND_SUCCESS)) with false. cbn iota.
  rewrite (proj2 (Z.eqb_eq _ _)); [done|]. cbn. lia.
Qed.

Lemma decode_header fmt ap post buf_len :
  args_ok fmt ap -> fits fmt ap -> 4 <= buf_len ->
  ipc_serial_decode (Some (wire fmt ap ++ post)) buf_len (Some fmt) (replicate (length ap) true) =
    match decode_loop (wire fmt ap ++ post) buf_len 4 fmt (replicate (length ap) true) with
    | None => None
    | Some (e, off, os) =>
      if negb (e =? REND_SUCCESS) then Some (- E_IN_PARAM, os)
      else if negb (off =? buf_len) then Some (- E_IN_PARAM, os)
      else Some (REND_SUCCESS, os)
    end.
Proof.
  unfold fits. intros Ha Hf Hb. pose proof (wire_params_length fmt ap Ha) as Hwl. rewrite wire_length in Hf.
  pose proof (fmt_param_count_args fmt ap Ha) as Hn.
  unfold ipc_serial_decode. destruct (Z.ltb_spec buf_len 4); [lia|].
  assert (Hg : get (wire fmt ap ++ post) 0 4 = Some (le_bytes 4 (fmt_param_count fmt))).
  { unfold wire. rewrite <- app_assoc. apply (get_at []); [done|by rewrite le_bytes_length]. }
  rewrite Hg. cbn [mbind option_bind].
  rewrite le_val_bytes. change (8 * Z.of_nat 4) with 32.
  rewrite u32_small, Z.mod_small, Z.eqb_refl by lia. done.
Qed.

Lemma measure_wire fmt ap :
  args_ok fmt ap -> fits fmt ap ->
  ipc_serial_measure_va (Some fmt) ap = Some (REND_SUCCESS, Z.of_nat (length (wire fmt ap))).
Proof.
  unfold fits. intros Ha Hf. rewrite wire_length in *. unfold ipc_serial_measure_va.
  rewrite measure_loop_spec by (done || lia). do 2 f_equal. lia.
Qed.

Lemma decode_wire fmt ap :
  args_ok fmt ap -> fits fmt ap ->
  exists os, ipc_serial_decode (Some (wire fmt ap)) (Z.of_nat (length (wire fmt ap))) (Some fmt)
      (replicate (length ap) true) = Some (REND_SUCCESS, os) /\
    Forall2 (out_matches (wire fmt ap)) ap os.
Proof.
  intros Ha Hf. pose proof Hf as Hf'. unfold fits in Hf'. rewrite wire_length in Hf'.
  pose proof (decode_header fmt ap [] (Z.of_nat (length (wire fmt ap))) Ha Hf) as Hh.
  rewrite app_nil_r in Hh. rewrite Hh by (rewrite wire_length; lia).
  destruct (decode_loop_spec fmt ap (le_bytes 4 (fmt_param_count fmt)) [] (Z.of_nat (length (wire fmt ap))) Ha)
    as (os & Hd & Hm); [rewrite wire_length; lia|rewrite wire_length; cbn; lia|].
  rewrite app_nil_r in Hd, Hm. fold (wire fmt ap) in Hd, Hm.
  change (Z.of_nat (length (le_bytes 4 (fmt_param_count fmt)))) with 4 in Hd. rewrite Hd.
  change (negb (REND_SUCCESS =? REND_SUCCESS)) with false. cbn iota.
  rewrite (proj2 (Z.eqb_eq _ _)) by (rewrite wire_length; cbn; lia). by exists os.
Qed.

(** C40 (roundtrip): for every format and matching arguments whose encoding fits
    32 bits, measuring succeeds with exactly the encoded size, encoding into a
    buffer of that size succeeds without touching anything outside it, and
    decoding the bytes with the same format succeeds and delivers every
    argument: words bit for bit at their width and sign, NULL strings as NULL,
    strings as a pointer to the same terminated string inside the buffer. *)
Theorem encode_decode_roundtrip fmt ap (b : list Z)
    (Ha : args_ok fmt ap) (Hf : fits fmt ap) (Hb : length b = length (wire fmt ap)) :
  ipc_serial_measure_va (Some fmt) ap = Some (REND_SUCCESS, Z.of_nat (length b)) /\
  exists enc os,
    ipc_serial_encode_into_va (Some b) (Z.of_nat (length b)) (Some fmt) ap = Some (REND_SUCCESS, Some enc) /\
    length enc = length b /\
    ipc_serial_decode (Some enc) (Z.of_nat (length enc)) (Some fmt) (replicate (length ap) true) =
      Some (REND_SUCCESS, os) /\
    Forall2 (out_matches enc) ap os.
Proof.
  split; [rewrite Hb; by apply measure_wire|].
  destruct (decode_wire fmt ap Ha Hf) as (os & Hd & Hm).
  exists (wire fmt ap), os. split; [by apply encode_into_wire|]. by split; [|split].
Qed.

(** Decoding insists on the exact length: given the encoded bytes
    followed by anything, any length other than the encoded size is refused
    with [-E_IN_PARAM], whether it cuts a parameter short or leaves trailing
    bytes unread. *)
Theorem decode_exact_length fmt ap post buf_len
    (Ha : args_ok fmt ap) (Hf : fits fmt ap) (Hlo : 0 <= buf_len)
    (Hhi : buf_len <= Z.of_nat (length (wire fmt ap ++ post))) (Hmax : buf_len < 2 ^ 32)
    (Hne : buf_len <> Z.of_nat (length (wire fmt ap))) :
  exists os, ipc_serial_decode (Some (wire fmt ap ++ post)) buf_len (Some fmt) (replicate (length ap) true) =
    Some (- E_IN_PARAM, os).
Proof.
  destruct (Z.lt_ge_cases buf_len 4) as [H4|H4].
  { unfold ipc_serial_decode. destruct (Z.ltb_spec buf_len 4); [by eexists|lia]. }
  rewrite decode_header by done. unfold fits in Hf. rewrite wire_length in *. unfold wire. rewrite <- app_assoc.
  set (pre := le_bytes 4 (fmt_param_count fmt)).
  assert (Hpl : Z.of_nat (length pre) = 4) by reflexivity.
  destruct (Z.lt_ge_cases buf_len (Z.of_nat (length pre + length (wire_params fmt ap)))) as [Hs|Hs].
  - destruct (decode_loop_short fmt ap pre post buf_len Ha ltac:(lia) ltac:(lia) Hs) as (e & off & os & Hd & He).
    rewrite Hpl in Hd. rewrite Hd. destruct (Z.eqb_spec e REND_SUCCESS); [done|]. by eexists.
  - destruct (decode_loop_spec fmt ap pre post buf_len Ha Hmax Hs) as (os & Hd & _).
    rewrite Hpl in Hd. rewrite Hd. change (negb (REND_SUCCESS =? REND_SUCCESS)) with false. cbn iota.
    destruct (Z.eqb_spec (Z.of_nat (length pre + length (wire_params fmt ap))) buf_len); [lia|]. by eexists.
Qed.

(** format ["q s u t"], one string NULL *)
Definition demo_fmt : cstr := [ch_q; 32; ch_s; 32; ch_u; 32; ch_t].
Definition demo_args : list arg := [ArgQ (-5); ArgS (Some [104; 105]); ArgU 4000000000; ArgS None].

Lemma demo_args_ok : args_ok demo_fmt demo_args.
Proof. repeat split; try lia. by repeat constructor. Qed.

Lemma encode_decode_roundtrip_witness :
  args_ok demo_fmt demo_args /\ fits demo_fmt demo_args /\
  ipc_serial_measure_va (Some demo_fmt) demo_args = Some (REND_SUCCESS, 39) /\
  exists enc os,
    ipc_serial_encode_into_va (Some (replicate 39 0)) 39 (Some demo_fmt) demo_args = Some (REND_SUCCESS, Some enc) /\
    ipc_serial_decode (Some enc) 39 (Some demo_fmt) [true; true; true; true] = Some (REND_SUCCESS, os) /\
    Forall2 (out_matches enc) demo_args os.
Proof.
  split; [exact demo_args_ok|]. assert (Hf : fits demo_fmt demo_args) by (vm_compute; reflexivity).
  split; [exact Hf|].
  destruct (encode_decode_roundtrip demo_fmt demo_args (replicate 39 0) demo_args_ok Hf eq_refl)
    as (H1 & enc & os & H2 & H3 & H4 & H5).
  split; [exact H1|]. exists enc, os. split; [exact H2|]. rewrite H3 in H4. split; [exact H4|exact H5].
Defined.

Lemma decode_exact_length_witness :
  exists os, ipc_serial_decode (Some (wire demo_fmt demo_args ++ [7])) 40 (Some demo_fmt)
    [true; true; true; true] = Some (- E_IN_PARAM, os).
Proof.
  apply (decode_exact_length demo_fmt demo_args [7] 40 demo_args_ok);
    [vm_compute; reflexivity|lia|vm_compute; discriminate|lia|vm_compute; discriminate].
Defined.

(** The bound checks of [one_read] add in 32 bits.  A parameter whose length
    field is close to [2^32] moves the offset backwards, into the value of an
    earlier parameter; the crafted TLV there runs to the end of the buffer and
    the whole message is accepted although the second length field exceeds
    the buffer by far. *)
Definition wrap_message : list Z :=
  le_bytes 4 3 ++
  [ch_s] ++ le_bytes 4 16 ++ ([ch_s] ++ le_bytes 4 17 ++ repeat 65 10 ++ [0]) ++
  [ch_s] ++ le_bytes 4 (u32 (9 - 30)) ++ [0].

Example wrapped_length_accepted :
  length wrap_message = 31%nat /\
  get wrap_message 26 4 = Some (le_bytes 4 4294967275) /\
  ipc_serial_decode (Some wrap_message) 31 (Some [ch_s; ch_s; ch_s]) [true; true; true]
    = Some (REND_SUCCESS, [OutStr (Some 9); OutStr (Some 30); OutStr (Some 14)]).
Proof. vm_compute. split_and!; reflexivity. Qed.
