(* ===== verification/Refcount.v ===== *)
(** * Reference counts

    [include/common/refcount.h].  Sequential definitions of every operation,
    and a step relation that interleaves the load and the compare-and-swap of
    [ref_get_not_zero] with concurrent [ref_put]s. *)
From S2P Require Import Prelude.

(** a [ref_count_t] is its 64-bit counter *)
Definition ref_count_t : Type := Z.

(** [atomic64_cas]: the previous value and the new cell *)
Definition atomic64_cas (cell old new : Z) : Z * Z :=
  (cell, if cell =? old then new else cell).

Definition ref_init : ref_count_t := 1.
Definition ref_init_zero : ref_count_t := 0.

(** one pass of the retry loop: [None] retries *)
Definition ref_get_try (old : Z) (cell : ref_count_t) : option (bool * ref_count_t) :=
  if old <=? 0 then Some (false, cell)
  else
    let '(prev, cell) := atomic64_cas cell (u64 old) (u64 (old + 1)) in
    if prev =? u64 old then Some (true, cell) else None.

(** run alone, the value loaded is the value swapped *)
Definition ref_get_not_zero (cell : ref_count_t) : bool * ref_count_t :=
  match ref_get_try (i64 cell) cell with
  | Some r => r
  | None => (false, cell)
  end.

Definition ref_get_claim (cell : ref_count_t) : bool * ref_count_t :=
  let '(prev, cell) := atomic64_cas cell 0 1 in (prev =? 0, cell).

(** the new counter, and whether the destructor runs; the destructor's error
    is the result *)
Definition ref_put (cell : ref_count_t) (free_func : option Z) : ref_count_t * bool :=
  (u64 (cell - 1),
   (i64 cell =? 1) && match free_func with Some _ => true | None => false end).

Definition ref_count (cell : ref_count_t) : Z := i64 cell.

(** ** Interleaving *)

Inductive ref_pc := Out | Loaded (old : Z).

(** [held]: references owned by all threads together (ghost); [freed]: number
    of destructor calls *)
Record ref_world := mk_refw {
  cell : ref_count_t;
  pcs : nat -> ref_pc;
  held : Z;
  freed : Z
}.

Inductive ref_step : ref_world -> ref_world -> Prop :=
| step_get_load t w :
    pcs w t = Out -> 0 < i64 (cell w) ->
    ref_step w (mk_refw (cell w) (<[t := Loaded (i64 (cell w))]> (pcs w)) (held w) (freed w))
| step_get_cas t old b cell' w :
    pcs w t = Loaded old -> ref_get_try old (cell w) = Some (b, cell') ->
    ref_step w (mk_refw cell' (<[t := Out]> (pcs w)) (held w + Z.b2z b) (freed w))
| step_get_retry t old w :
    pcs w t = Loaded old -> ref_get_try old (cell w) = None ->
    ref_step w (mk_refw (cell w) (<[t := Out]> (pcs w)) (held w) (freed w))
| step_put w fn :
    0 < held w ->
    ref_step w (mk_refw (fst (ref_put (cell w) (Some fn))) (pcs w) (held w - 1)
                  (freed w + Z.b2z (snd (ref_put (cell w) (Some fn))))).

(** an object just initialised by its creator, who holds the one reference *)
Definition ref_start : ref_world := mk_refw ref_init (fun _ => Out) 1 0.

Record ref_inv (n : Z) (w : ref_world) : Prop := {
  rv_cell : cell w = held w;
  rv_held : 0 <= held w <= 1 + n;
  rv_pcs : forall t old, pcs w t = Loaded old -> 0 < old < 2 ^ 63;
  rv_freed : freed w = if held w =? 0 then 1 else 0
}.

(** a live count, far from overflow *)
Lemma get_live r : 0 < r < 2 ^ 62 -> ref_get_not_zero r = (true, r + 1).
Proof.
  intros H. unfold ref_get_not_zero, ref_get_try. rewrite i64_small by lia.
  destruct (Z.leb_spec r 0); [lia|]. unfold atomic64_cas. rewrite !u64_small by lia. by rewrite Z.eqb_refl.
Qed.

Lemma put_live r f : 1 < r < 2 ^ 62 -> ref_put r f = (r - 1, false).
Proof. intros H. unfold ref_put. rewrite i64_small, u64_small by lia. by destruct (Z.eqb_spec r 1); [lia|]. Qed.

Lemma ref_step_inv n w w' :
  0 <= n < 2 ^ 62 -> ref_inv n w -> ref_step w w' -> ref_inv (n + 1) w'.
Proof.
  intros Hn [Hc Hh Hp Hf] Hs. destruct Hs as [t w Hpc Hpos|t old b cell' w Hpc Ht|t old w Hpc Ht|w fn Hpos].
  - constructor; cbn [cell pcs held freed]; try done; try lia.
    intros t' old. rewrite fn_insert_case. destruct (decide (t = t')) as [->|]; [|apply Hp].
    intros [= <-]. rewrite i64_small in * by lia. lia.
  - specialize (Hp _ _ Hpc) as Hold. unfold ref_get_try in Ht. destruct (Z.leb_spec old 0); [lia|].
    unfold atomic64_cas in Ht. rewrite !u64_small in Ht by lia.
    destruct (Z.eqb_spec (cell w) old); [|done]. injection Ht as <- <-.
    constructor; cbn [cell pcs held freed Z.b2z]; [lia|lia| |].
    + intros t' old'. rewrite fn_insert_case. destruct (decide (t = t')) as [->|]; [done|apply Hp].
    + rewrite Hf. repeat case_bool.
  - constructor; cbn [cell pcs held freed]; try done; try lia.
    intros t' old'. rewrite fn_insert_case. destruct (decide (t = t')) as [->|]; [done|apply Hp].
  - constructor; cbn [cell pcs held freed]; [|lia|done|]; unfold ref_put; cbn [fst snd].
    + rewrite u64_small; lia.
    + rewrite i64_small, andb_true_r by lia. rewrite Hf. repeat case_bool.
Qed.

Lemma ref_reach_inv k w0 w n :
  nsteps ref_step k w0 w -> ref_inv n w0 -> 0 <= n -> n + Z.of_nat k < 2 ^ 62 ->
  ref_inv (n + Z.of_nat k) w.
Proof.
  intros. eapply (nsteps_invariant ref_step ref_inv (2 ^ 62)); [|done|done|done|lia].
  intros. by eapply ref_step_inv.
Qed.

Lemma ref_start_inv : ref_inv 0 ref_start.
Proof. by constructor. Qed.

(** (safety): however the loads and compare-and-swaps of concurrent
    [ref_get_not_zero] calls interleave with [ref_put]s, the counter equals the
    number of references held, the destructor has run at most once, it has run
    exactly when no reference is left, and from then on no
    [ref_get_not_zero] revives the object, not even one that had loaded a
    positive count before. *)
Theorem ref_no_revival k w (Hs : nsteps ref_step k ref_start w) (Hk : Z.of_nat k < 2 ^ 62) :
  cell w = held w /\ 0 <= freed w <= 1 /\ (freed w = 1 <-> held w = 0) /\
  (freed w = 1 -> fst (ref_get_not_zero (cell w)) = false /\
     forall t old b c, pcs w t = Loaded old -> ref_get_try old (cell w) = Some (b, c) -> b = false).
Proof.
  destruct (ref_reach_inv k ref_start w 0 Hs ref_start_inv ltac:(lia) ltac:(lia)) as [Hc Hh Hp Hf].
  assert (Hiff : 0 <= freed w <= 1 /\ (freed w = 1 <-> held w = 0)).
  { rewrite Hf. destruct (Z.eqb_spec (held w) 0); lia. }
  destruct Hiff as [Hr Hiff]. split; [done|]. split; [done|]. split; [done|].
  intros E. apply Hiff in E. rewrite Hc, E. split; [done|]. intros t old b c Hl Ht. specialize (Hp t old Hl).
  unfold ref_get_try, atomic64_cas in Ht. rewrite u64_small in Ht by lia.
  destruct (Z.leb_spec old 0); [lia|]. destruct (Z.eqb_spec 0 old); [lia|done].
Qed.

(** two threads: one loads the count 1, the owner puts the last reference, and
    the late compare-and-swap of the first fails *)
Definition ref_late : ref_world := mk_refw 0 (<[1%nat := Loaded 1]> (fun _ => Out)) 0 1.

Lemma ref_no_revival_witness :
  nsteps ref_step 2 ref_start ref_late /\
  cell ref_late = held ref_late /\ fst (ref_get_not_zero (cell ref_late)) = false.
Proof.
  assert (Hs : nsteps ref_step 2 ref_start ref_late).
  { eapply nsteps_l; [apply (step_get_load 1); [reflexivity|reflexivity]|].
    eapply nsteps_l; [apply (step_put _ 1); reflexivity|]. apply nsteps_O. }
  destruct (ref_no_revival 2 ref_late Hs ltac:(lia)) as (H1 & _ & _ & H4).
  split; [exact Hs|]. split; [exact H1|]. apply H4. reflexivity.
Defined.
