(* ===== verification/ThreadStatus.v ===== *)
(** * Thread states

    [enum thread_status_base] and the thread flags of
    [include/rendezvos/task/thread.h], shared by the IPC core and the
    scheduler. *)
From S2P Require Import Prelude.

(** the error value is stored in a [u64] *)
Definition thread_status_error : Z := u64 (-1).
Definition thread_status_init : Z := 0.
Definition thread_status_running : Z := 1.
Definition thread_status_ready : Z := 2.
Definition thread_status_zombie : Z := 3.
Definition thread_status_block_on_send : Z := 4.
Definition thread_status_block_on_receive : Z := 5.
Definition thread_status_exit : Z := 6.

Definition THREAD_FLAG_USER : Z := 1.
Definition THREAD_FLAG_EXIT_REQUESTED : Z := 2.
Definition THREAD_FLAG_IPC_PORT_CLOSED : Z := 4.
