(* ===== verification/Ebr.v ===== *)
(** * Epoch-based reclamation

    [kernel/task/ebr.c].  Per-CPU readers publish the epoch they entered in;
    retired references wait in the retiring CPU's slot table until every active
    reader is in a later epoch.  The first part gives the functions as the
    CPU runs them; the second part interleaves their atomic accesses across
    CPUs.  Destructor calls are reported as the list of [(ref, free_func)]
    pairs in call order. *)
From S2P Require Import Prelude Refcount.

Definition EBR_RETIRE_SLOTS : nat := 512.

Record ebr_retired_rec := mk_rec { rec_ref : Z; rec_free : Z; retire_epoch : Z; rec_used : bool }.
Definition rec_empty : ebr_retired_rec := mk_rec 0 0 0 false.

(** the [DEFINE_PER_CPU] variables of one CPU *)
Record ebr_cpu := mk_ecpu {
  active_flag : Z;
  local_epoch : Z;
  nesting_depth : Z;
  recs : list ebr_retired_rec;
  retired_count : Z;
  retire_ops : Z;
  reclaim_ops : Z;
  overflow_ops : Z
}.

(** [inited]: [ebr_inited] is 2; the value 1 is never seen between calls *)
Record ebr := mk_ebr {
  global_epoch : Z;
  inited : bool;
  overflow_log_cnt : Z;
  cpus : nat -> ebr_cpu
}.

Definition set_ecpu (c : nat) (x : ebr_cpu) (s : ebr) : ebr :=
  mk_ebr (global_epoch s) (inited s) (overflow_log_cnt s) (<[c := x]> (cpus s)).
Definition set_global (g : Z) (s : ebr) : ebr :=
  mk_ebr g (inited s) (overflow_log_cnt s) (cpus s).
Definition set_reader (active local depth : Z) (x : ebr_cpu) : ebr_cpu :=
  mk_ecpu active local depth (recs x) (retired_count x) (retire_ops x) (reclaim_ops x) (overflow_ops x).
Definition set_table (r : list ebr_retired_rec) (count rops cops oops : Z) (x : ebr_cpu) : ebr_cpu :=
  mk_ecpu (active_flag x) (local_epoch x) (nesting_depth x) r count rops cops oops.

Definition ebr_ensure_init (s : ebr) : ebr :=
  if inited s then s else mk_ebr 1 true 0 (cpus s).

(** ** Safe epoch and reclaim *)

(** one CPU of the scan; the flag and the epoch are two loads *)
Definition scan_local (safe : Z) (x : ebr_cpu) : Z :=
  if local_epoch x <? safe then local_epoch x else safe.
Definition scan_cpu (safe : Z) (x : ebr_cpu) : Z :=
  if active_flag x =? 0 then safe else scan_local safe x.

Definition ebr_compute_safe_epoch (s : ebr) (NR_CPU : nat) : Z :=
  let ncpu := if Nat.leb NR_CPU 0 then 1%nat else NR_CPU in
  fold_left (fun safe i => scan_cpu safe (cpus s i)) (seq 0 ncpu) (global_epoch s).

Definition reclaimable (safe_epoch : Z) (r : ebr_retired_rec) : bool :=
  rec_used r && negb (safe_epoch <=? retire_epoch r).

(** [if (ref && free_func) free_func(ref)] *)
Definition free_call (r : ebr_retired_rec) : list (Z * Z) :=
  if negb (rec_ref r =? NULL) && negb (rec_free r =? NULL) then [(rec_ref r, rec_free r)] else [].

(** the slot loop: new table, calls made, slots cleared *)
Fixpoint reclaim_slots (rs : list ebr_retired_rec) (safe_epoch : Z)
  : list ebr_retired_rec * list (Z * Z) * Z :=
  match rs with
  | [] => ([], [], 0)
  | r :: rs' =>
    let '(rs', calls, n) := reclaim_slots rs' safe_epoch in
    if reclaimable safe_epoch r then (rec_empty :: rs', free_call r ++ calls, n + 1)
    else (r :: rs', calls, n)
  end.

Definition ebr_try_reclaim (s : ebr) (NR_CPU c : nat) : ebr * list (Z * Z) :=
  let safe_epoch := ebr_compute_safe_epoch s NR_CPU in
  let x := cpus s c in
  if retired_count x <=? 0 then (s, [])
  else
    let '(rs, calls, n) := reclaim_slots (recs x) safe_epoch in
    (set_ecpu c (set_table rs (retired_count x - n) (retire_ops x) (reclaim_ops x + n) (overflow_ops x) x) s,
     calls).

(** ** Reader section *)

Definition ebr_enter (s : ebr) (c : nat) : ebr :=
  let s := ebr_ensure_init s in
  let x := cpus s c in
  let old_depth := nesting_depth x in
  if old_depth =? 0
  then set_ecpu c (set_reader 1 (global_epoch s) (old_depth + 1) x) s
  else set_ecpu c (set_reader (active_flag x) (local_epoch x) (old_depth + 1) x) s.

Definition ebr_exit (s : ebr) (NR_CPU c : nat) : ebr * list (Z * Z) :=
  let x := cpus s c in
  let old_depth := nesting_depth x in
  if old_depth =? 1
  then
    let s := set_ecpu c (set_reader 0 (local_epoch x) (old_depth - 1) x) s in
    let s := set_global (u64 (global_epoch s + 1)) s in
    ebr_try_reclaim s NR_CPU c
  else (set_ecpu c (set_reader (active_flag x) (local_epoch x) (old_depth - 1) x) s, []).

(** ** Retire *)

(** first unused slot *)
Fixpoint fill_slot (rs : list ebr_retired_rec) (new : ebr_retired_rec) : option (list ebr_retired_rec) :=
  match rs with
  | [] => None
  | r :: rs' =>
    if rec_used r
    then match fill_slot rs' new with Some rs' => Some (r :: rs') | None => None end
    else Some (new :: rs')
  end.

Definition retire_insert (s : ebr) (c : nat) (new : ebr_retired_rec) : option ebr :=
  let x := cpus s c in
  match fill_slot (recs x) new with
  | Some rs =>
    Some (set_ecpu c (set_table rs (retired_count x + 1) (retire_ops x + 1) (reclaim_ops x) (overflow_ops x) x) s)
  | None => None
  end.

Definition ebr_retire_ref (s : ebr) (NR_CPU c : nat) (ref free_func : Z) : Z * ebr * list (Z * Z) :=
  if (ref =? NULL) || (free_func =? NULL) then (- E_IN_PARAM, s, [])
  else
    let s := ebr_ensure_init s in
    let new := mk_rec ref free_func (global_epoch s) true in
    let '(s, f1) := ebr_try_reclaim s NR_CPU c in
    match retire_insert s c new with
    | Some s => let '(s, f2) := ebr_try_reclaim s NR_CPU c in (REND_SUCCESS, s, f1 ++ f2)
    | None =>
      let '(s, f2) := ebr_try_reclaim s NR_CPU c in
      match retire_insert s c new with
      | Some s => let '(s, f3) := ebr_try_reclaim s NR_CPU c in (REND_SUCCESS, s, f1 ++ f2 ++ f3)
      | None =>
        let x := cpus s c in
        let s := set_ecpu c (set_table (recs x) (retired_count x) (retire_ops x) (reclaim_ops x) (overflow_ops x + 1) x) s in
        let s := mk_ebr (global_epoch s) (inited s) (overflow_log_cnt s + 1) (cpus s) in
        let '(s, f3) := ebr_try_reclaim s NR_CPU c in (REND_SUCCESS, s, f1 ++ f2 ++ f3)
      end
    end.

(** ** Interleaved steps

    Each CPU has a reader, a scanner ([ebr_try_reclaim]) and a retirer
    ([ebr_retire_ref]), all allowed to interleave; this includes every
    behaviour in which the CPU runs them one after the other. *)

Inductive reader_pc := ROut | RLoaded (ge : Z) | RStored | RIn | RLeaving.
Inductive scan_pc := SIdle | SScan (safe : Z) (next : nat) | SLocal (safe : Z) (next : nat)
                   | SFree (safe : Z) (slot : nat).
Inductive retire_pc := TIdle | TUnlinked (r : Z) | TEpoch (r R : Z).

(** ghost: [holds c], the references CPU [c]'s reader may still dereference;
    [linked], those reachable from shared structures; [gone], those whose
    destructor was called *)
Record eworld := mk_ew {
  sh : ebr;
  rpc : nat -> reader_pc;
  spc : nat -> scan_pc;
  tpc : nat -> retire_pc;
  holds : nat -> gset Z;
  linked : gset Z;
  gone : gset Z
}.

Section Steps.
Context (ncpu : nat).

Definition upd_reader (c : nat) (active local depth : Z) (p : reader_pc) (h : gset Z) (w : eworld) : eworld :=
  mk_ew (set_ecpu c (set_reader active local depth (cpus (sh w) c)) (sh w))
    (<[c := p]> (rpc w)) (spc w) (tpc w) (<[c := h]> (holds w)) (linked w) (gone w).
Definition upd_scan (c : nat) (p : scan_pc) (w : eworld) : eworld :=
  mk_ew (sh w) (rpc w) (<[c := p]> (spc w)) (tpc w) (holds w) (linked w) (gone w).

Inductive ebr_step : eworld -> eworld -> Prop :=
(* ebr_enter: fetch_inc and load of the global epoch, store, flag *)
| es_enter_load c w :
    (c < ncpu)%nat -> rpc w c = ROut ->
    ebr_step w (upd_reader c (active_flag (cpus (sh w) c)) (local_epoch (cpus (sh w) c)) 1
                  (RLoaded (global_epoch (sh w))) (holds w c) w)
| es_enter_store c ge w :
    rpc w c = RLoaded ge ->
    ebr_step w (upd_reader c (active_flag (cpus (sh w) c)) ge (nesting_depth (cpus (sh w) c)) RStored (holds w c) w)
| es_enter_flag c w :
    rpc w c = RStored ->
    ebr_step w (upd_reader c 1 (local_epoch (cpus (sh w) c)) (nesting_depth (cpus (sh w) c)) RIn (holds w c) w)
(* nested enter and exit *)
| es_nest c d w :
    rpc w c = RIn -> 1 <= d ->
    ebr_step w (upd_reader c (active_flag (cpus (sh w) c)) (local_epoch (cpus (sh w) c)) d RIn (holds w c) w)
(* the reader follows a pointer to a linked object *)
| es_acquire c r w :
    rpc w c = RIn -> r ∈ linked w ->
    ebr_step w (upd_reader c (active_flag (cpus (sh w) c)) (local_epoch (cpus (sh w) c))
                  (nesting_depth (cpus (sh w) c)) RIn ({[r]} ∪ holds w c) w)
(* ebr_exit: flag, then epoch *)
| es_exit_flag c w :
    rpc w c = RIn -> nesting_depth (cpus (sh w) c) = 1 ->
    ebr_step w (upd_reader c 0 (local_epoch (cpus (sh w) c)) 0 RLeaving ∅ w)
| es_exit_epoch c w :
    rpc w c = RLeaving ->
    ebr_step w (mk_ew (set_global (u64 (global_epoch (sh w) + 1)) (sh w))
                  (<[c := ROut]> (rpc w)) (spc w) (tpc w) (holds w) (linked w) (gone w))
(* an updater unlinks an object, loads the epoch, fills a slot or leaks *)
| es_unlink c r w :
    tpc w c = TIdle -> r ∈ linked w ->
    ebr_step w (mk_ew (sh w) (rpc w) (spc w) (<[c := TUnlinked r]> (tpc w)) (holds w) (linked w ∖ {[r]}) (gone w))
| es_retire_load c r w :
    tpc w c = TUnlinked r ->
    ebr_step w (mk_ew (sh w) (rpc w) (spc w) (<[c := TEpoch r (global_epoch (sh w))]> (tpc w))
                  (holds w) (linked w) (gone w))
| es_retire_insert c r R fn s' w :
    tpc w c = TEpoch r R -> retire_insert (sh w) c (mk_rec r fn R true) = Some s' ->
    ebr_step w (mk_ew s' (rpc w) (spc w) (<[c := TIdle]> (tpc w)) (holds w) (linked w) (gone w))
| es_retire_leak c r R w :
    tpc w c = TEpoch r R ->
    ebr_step w (mk_ew (sh w) (rpc w) (spc w) (<[c := TIdle]> (tpc w)) (holds w) (linked w) (gone w))
(* ebr_try_reclaim: the scan, one load at a time, then the slots *)
| es_scan_start c w :
    spc w c = SIdle -> ebr_step w (upd_scan c (SScan (global_epoch (sh w)) 0) w)
| es_scan_flag c safe i w :
    spc w c = SScan safe i -> (i < ncpu)%nat ->
    ebr_step w (upd_scan c (if active_flag (cpus (sh w) i) =? 0 then SScan safe (S i) else SLocal safe i) w)
| es_scan_local c safe i w :
    spc w c = SLocal safe i ->
    ebr_step w (upd_scan c (SScan (scan_local safe (cpus (sh w) i)) (S i)) w)
| es_scan_done c safe w :
    spc w c = SScan safe ncpu -> ebr_step w (upd_scan c (SFree safe 0) w)
| es_free_slot c safe i r w :
    spc w c = SFree safe i -> recs (cpus (sh w) c) !! i = Some r -> reclaimable safe r = true ->
    ebr_step w (mk_ew (set_ecpu c (set_table (<[i := rec_empty]> (recs (cpus (sh w) c)))
                         (retired_count (cpus (sh w) c) - 1) (retire_ops (cpus (sh w) c))
                         (reclaim_ops (cpus (sh w) c) + 1) (overflow_ops (cpus (sh w) c)) (cpus (sh w) c)) (sh w))
                  (rpc w) (<[c := SFree safe (S i)]> (spc w)) (tpc w) (holds w) (linked w)
                  (list_to_set (map fst (free_call r)) ∪ gone w))
| es_free_skip c safe i r w :
    spc w c = SFree safe i -> recs (cpus (sh w) c) !! i = Some r -> reclaimable safe r = false ->
    ebr_step w (upd_scan c (SFree safe (S i)) w)
| es_free_done c safe w :
    spc w c = SFree safe EBR_RETIRE_SLOTS -> ebr_step w (upd_scan c SIdle w).

Definition ecpu_start : ebr_cpu := mk_ecpu 0 0 0 (replicate EBR_RETIRE_SLOTS rec_empty) 0 0 0 0.
Definition ebr_start (objects : gset Z) : eworld :=
  mk_ew (mk_ebr 1 true 0 (fun _ => ecpu_start)) (fun _ => ROut) (fun _ => SIdle) (fun _ => TIdle)
    (fun _ => ∅) objects ∅.
End Steps.

(** ** Safety of the interleaved protocol *)

Section Safety.
Context (ncpu : nat).
Implicit Types (w : eworld) (c : nat) (r R : Z).

(** a retired reference with its epoch, in a slot or about to enter one *)
Definition pending w r R : Prop :=
  (exists c i x, recs (cpus (sh w) c) !! i = Some x /\ rec_used x = true /\ rec_ref x = r /\ retire_epoch x = R) \/
  (exists c, tpc w c = TEpoch r R).

(** no CPU below [k] holds a reference retired before [safe] *)
Definition scanned w (safe : Z) (k : nat) : Prop :=
  forall r R c, pending w r R -> R < safe -> (c < k)%nat -> r ∉ holds w c.

Definition reader_ok w c : Prop :=
  let g := global_epoch (sh w) in
  match rpc w c with
  | ROut | RLeaving => active_flag (cpus (sh w) c) = 0
  | RLoaded ge => active_flag (cpus (sh w) c) = 0 /\ ge <= g
  | RStored => active_flag (cpus (sh w) c) = 0 /\ local_epoch (cpus (sh w) c) <= g
  | RIn => active_flag (cpus (sh w) c) = 1 /\ local_epoch (cpus (sh w) c) <= g
  end.

Definition scan_ok w c : Prop :=
  match spc w c with
  | SIdle => True
  | SScan safe i => safe <= global_epoch (sh w) /\ (i <= ncpu)%nat /\ scanned w safe i
  | SLocal safe i => safe <= global_epoch (sh w) /\ (i < ncpu)%nat /\ scanned w safe i
  | SFree safe _ => safe <= global_epoch (sh w) /\ scanned w safe ncpu
  end.

Definition holds_ok w c : Prop :=
  (rpc w c <> ROut -> (c < ncpu)%nat) /\ forall r, r ∈ holds w c -> rpc w c = RIn.

Record einv (n : Z) w : Prop := {
  e_glob : 1 <= global_epoch (sh w) <= 1 + n;
  e_reader : forall c, reader_ok w c;
  e_hold : forall c, holds_ok w c;
  e_pend : forall r R, pending w r R ->
    r ∉ linked w /\ R <= global_epoch (sh w) /\ forall c, r ∈ holds w c -> local_epoch (cpus (sh w) c) <= R;
  e_unl : forall c r, tpc w c = TUnlinked r -> r ∉ linked w;
  e_scan : forall c, scan_ok w c;
  e_gone : forall r, r ∈ gone w -> r ∉ linked w /\ forall c, r ∉ holds w c
}.

(** steps that only shrink what is held, linked and pending *)
Lemma einv_shrink n n' w w' :
  einv n w ->
  global_epoch (sh w) <= global_epoch (sh w') <= 1 + n' ->
  (forall c, reader_ok w' c) -> (forall c, holds_ok w' c) ->
  (forall r c, r ∈ holds w' c -> (r ∈ holds w c) /\ local_epoch (cpus (sh w') c) = local_epoch (cpus (sh w) c)) ->
  (forall r R, pending w' r R -> pending w r R) ->
  linked w' ⊆ linked w -> (forall c r, tpc w' c = TUnlinked r -> r ∉ linked w') ->
  (forall c, spc w' c = spc w c) -> gone w' = gone w ->
  einv n' w'.
Proof.
  intros [Hg Hr Hh Hp Hu Hs Hgo] Hg' Hr' Hh' Hold Hpen Hl Hu' Hsp Hgn.
  assert (Hsc : forall safe k, scanned w safe k -> scanned w' safe k).
  { intros safe k H1 r R c Hpd HR Hc Hin. apply Hold in Hin as [Hin _].
    by apply (H1 r R c (Hpen _ _ Hpd) HR Hc). }
  constructor; try done; [lia| | |].
  - intros r R Hpd. destruct (Hp r R (Hpen _ _ Hpd)) as (H1 & H2 & H3).
    split; [set_solver|]. split; [lia|]. intros c Hin. apply Hold in Hin as [Hin ->]. by apply H3.
  - intros c. specialize (Hs c). unfold scan_ok in *. rewrite Hsp. destruct (spc w c); try done.
    + destruct Hs as (H1 & H2 & H3). split; [lia|]. split; [done|]. by apply Hsc.
    + destruct Hs as (H1 & H2 & H3). split; [lia|]. split; [done|]. by apply Hsc.
    + destruct Hs as (H1 & H2). split; [lia|]. by apply Hsc.
  - intros r Hin. rewrite Hgn in Hin. destruct (Hgo r Hin) as [H1 H2].
    split; [set_solver|]. intros c Hc. apply Hold in Hc as [Hc _]. by apply (H2 c).
Qed.

(** a reader step that acquires nothing and moves no epoch while holding *)
Lemma upd_reader_inv n n' w c a l d p h :
  einv n w -> n <= n' -> (c < ncpu)%nat -> h ⊆ holds w c ->
  (h = ∅ \/ l = local_epoch (cpus (sh w) c) /\ p = RIn) ->
  reader_ok (upd_reader c a l d p h w) c ->
  einv n' (upd_reader c a l d p h w).
Proof.
  intros Hi Hn Hc Hh Hl Hrd. pose proof (e_glob _ _ Hi). eapply (einv_shrink n); try done; unfold upd_reader.
  - cbn. lia.
  - intros c'. destruct (decide (c = c')) as [->|Hne]; [done|].
    pose proof (e_reader _ _ Hi c') as Hr. unfold reader_ok in *. cbn.
    rewrite !fn_insert_case. destruct (decide (c = c')); done.
  - intros c'. pose proof (e_hold _ _ Hi c') as [H1 H2]. unfold holds_ok. cbn.
    rewrite !fn_insert_case. destruct (decide (c = c')) as [<-|]; [|done].
    split; [done|]. intros r Hr. destruct Hl as [->|[_ Hp]]; [set_solver|done].
  - intros r c'. cbn. rewrite !fn_insert_case. destruct (decide (c = c')) as [<-|]; [|done].
    intros Hr. destruct Hl as [->|[-> _]]; [set_solver|]. split; [set_solver|done].
  - intros r R [(c' & i & x & Hx & H')|Ht]; [left|by right]. exists c', i, x.
    cbn in Hx. rewrite fn_insert_case in Hx. destruct (decide (c = c')) as [<-|]; done.
  - intros c' r. cbn. apply (e_unl _ _ Hi).
Qed.

Lemma pending_upd_scan w c p r R : pending (upd_scan c p w) r R <-> pending w r R.
Proof. done. Qed.

(** a scanner step that re-establishes its own condition *)
Lemma upd_scan_inv n n' w c p :
  einv n w -> n <= n' -> scan_ok (upd_scan c p w) c -> einv n' (upd_scan c p w).
Proof.
  intros [Hg Hr Hh Hp Hu Hs Hgo] Hn Hsc. constructor; try done; [cbn; lia|].
  intros c'. destruct (decide (c = c')) as [->|Hne]; [done|].
  specialize (Hs c'). unfold scan_ok in *. cbn. rewrite fn_insert_case. destruct (decide (c = c')); done.
Qed.

Lemma fill_slot_lookup rs new rs' i x :
  fill_slot rs new = Some rs' -> rs' !! i = Some x -> x = new \/ rs !! i = Some x.
Proof.
  revert rs' i. induction rs as [|r rs IH]; intros rs' i; cbn [fill_slot]; [done|].
  destruct (rec_used r).
  - destruct (fill_slot rs new) as [rs2|] eqn:E; [|done]. intros [= <-].
    destruct i as [|i]; cbn; [by right|]. by apply IH.
  - intros [= <-]. destruct i as [|i]; cbn; [intros [= ->]; by left|by right].
Qed.

Lemma holder_active n w c r : einv n w -> r ∈ holds w c -> active_flag (cpus (sh w) c) = 1 /\ (c < ncpu)%nat.
Proof.
  intros Hi Hr. destruct (e_hold _ _ Hi c) as [H1 H2]. specialize (H2 r Hr).
  pose proof (e_reader _ _ Hi c) as Hrd. unfold reader_ok in Hrd. rewrite H2 in Hrd.
  split; [apply Hrd|]. apply H1. by rewrite H2.
Qed.

Lemma es_scan_inv n w w' c p :
  einv n w -> w' = upd_scan c p w -> scan_ok (upd_scan c p w) c -> einv (n + 1) w'.
Proof. intros Hi -> Hs. eapply upd_scan_inv; [done|lia|done]. Qed.

(** the holder of a pending reference pins the safe epoch *)
Lemma scan_flag_scanned n w safe i :
  einv n w -> scanned w safe i -> active_flag (cpus (sh w) i) = 0 -> scanned w safe (S i).
Proof.
  intros Hi Hs Ha r R c Hp HR Hc Hin. destruct (decide (c = i)) as [->|].
  - destruct (holder_active _ _ _ _ Hi Hin). lia.
  - apply (Hs r R c Hp HR); [lia|done].
Qed.

Lemma scan_local_scanned n w safe i :
  einv n w -> scanned w safe i -> scanned w (scan_local safe (cpus (sh w) i)) (S i).
Proof.
  intros Hi Hs r R c Hp HR Hc Hin.
  assert (Hle : scan_local safe (cpus (sh w) i) <= safe /\ scan_local safe (cpus (sh w) i) <= local_epoch (cpus (sh w) i)).
  { unfold scan_local. case_bool. }
  destruct (decide (c = i)) as [->|].
  - destruct (e_pend _ _ Hi r R Hp) as (_ & _ & H3). specialize (H3 i Hin). lia.
  - apply (Hs r R c Hp); [lia|lia|done].
Qed.

Lemma es_acquire_inv n w c r :
  einv n w -> rpc w c = RIn -> r ∈ linked w ->
  einv (n + 1) (upd_reader c (active_flag (cpus (sh w) c)) (local_epoch (cpus (sh w) c))
                  (nesting_depth (cpus (sh w) c)) RIn ({[r]} ∪ holds w c) w).
Proof.
  intros Hi Hpc Hr. set (w' := upd_reader _ _ _ _ _ _ _). destruct Hi as [Hg Hrd Hh Hp Hu Hs Hgo].
  assert (Hpen : forall r0 R, pending w' r0 R -> pending w r0 R).
  { intros r0 R [(c' & i & x & Hx & H')|Ht]; [left|by right]. exists c', i, x.
    cbn in Hx. rewrite fn_insert_case in Hx. destruct (decide (c = c')) as [<-|]; done. }
  assert (Hhold : forall r0 c', r0 ∈ holds w' c' -> (r0 ∈ holds w c') \/ r0 = r).
  { intros r0 c'. cbn. rewrite fn_insert_case. destruct (decide (c = c')) as [<-|]; [|by left].
    intros [->%elem_of_singleton|]%elem_of_union; [by right|by left]. }
  assert (Hloc : forall c', local_epoch (cpus (sh w') c') = local_epoch (cpus (sh w) c')).
  { intros c'. cbn. rewrite fn_insert_case. by destruct (decide (c = c')) as [<-|]. }
  assert (Hsc : forall safe k, scanned w safe k -> scanned w' safe k).
  { intros safe k H1 r0 R c' Hpd HR Hc Hin. apply Hpen in Hpd.
    apply Hhold in Hin as [Hin| ->]; [by apply (H1 r0 R c')|].
    by destruct (Hp r R Hpd) as [? _]. }
  constructor.
  - change (global_epoch (sh w')) with (global_epoch (sh w)). lia.
  - intros c'. specialize (Hrd c'). unfold reader_ok in *. cbn. rewrite !fn_insert_case.
    destruct (decide (c = c')) as [<-|]; [|done]. rewrite Hpc in Hrd. done.
  - intros c'. destruct (Hh c') as [H1 H2]. unfold holds_ok. cbn. rewrite !fn_insert_case.
    destruct (decide (c = c')) as [<-|]; [|done]. split; [|done]. intros _. apply H1. by rewrite Hpc.
  - intros r0 R Hpd. apply Hpen in Hpd. destruct (Hp r0 R Hpd) as (H1 & H2 & H3).
    split; [done|]. split; [done|]. intros c' Hin. rewrite Hloc.
    apply Hhold in Hin as [Hin| ->]; [by apply H3|done].
  - exact Hu.
  - intros c'. specialize (Hs c'). unfold scan_ok in *. change (spc w' c') with (spc w c').
    change (global_epoch (sh w')) with (global_epoch (sh w)).
    destruct (spc w c'); try done.
    + destruct Hs as (H1 & H2 & H3). split; [done|]. split; [done|]. by apply Hsc.
    + destruct Hs as (H1 & H2 & H3). split; [done|]. split; [done|]. by apply Hsc.
    + destruct Hs as (H1 & H2). split; [done|]. by apply Hsc.
  - intros r0 Hin. destruct (Hgo r0 Hin) as [H1 H2]. split; [done|]. intros c' Hc.
    apply Hhold in Hc as [Hc| ->]; [by apply (H2 c')|done].
Qed.

Lemma es_retire_load_inv n w c r :
  einv n w -> tpc w c = TUnlinked r ->
  einv (n + 1) (mk_ew (sh w) (rpc w) (spc w) (<[c := TEpoch r (global_epoch (sh w))]> (tpc w))
                  (holds w) (linked w) (gone w)).
Proof.
  intros Hi Ht. set (w' := mk_ew _ _ _ _ _ _ _).
  assert (Hpen : forall r0 R, pending w' r0 R -> pending w r0 R \/ r0 = r /\ R = global_epoch (sh w)).
  { intros r0 R [Hx|(c' & Ht')]; [left; by left|]. cbn in Ht'. rewrite fn_insert_case in Ht'.
    destruct (decide (c = c')) as [<-|]; [by injection Ht' as <- <-; right|]. left. right. by exists c'. }
  pose proof (e_unl _ _ Hi c r Ht) as Hnl.
  assert (Hsc : forall safe k, safe <= global_epoch (sh w) -> scanned w safe k -> scanned w' safe k).
  { intros safe k Hle H1 r0 R c' Hpd HR Hc. destruct (Hpen _ _ Hpd) as [Hpd'|[_ ->]]; [|lia].
    by apply (H1 r0 R c'). }
  pose proof (e_reader _ _ Hi) as Hrd. pose proof (e_hold _ _ Hi) as Hh.
  destruct Hi as [Hg _ _ Hp Hu Hs Hgo]. constructor; try done.
  - cbn. lia.
  - intros r0 R Hpd. destruct (Hpen _ _ Hpd) as [Hpd'|[-> ->]]; [by apply Hp|].
    split; [done|]. split; [cbn; lia|]. intros c' Hin. cbn in Hin |- *.
    destruct (Hh c') as [_ H2]. specialize (Hrd c'). unfold reader_ok in Hrd.
    rewrite (H2 r Hin) in Hrd. apply Hrd.
  - intros c' r0 Ht'. cbn in Ht'. rewrite fn_insert_case in Ht'.
    destruct (decide (c = c')) as [<-|]; [done|]. by apply (Hu c').
  - intros c'. specialize (Hs c'). unfold scan_ok in *. change (spc w' c') with (spc w c').
    change (global_epoch (sh w')) with (global_epoch (sh w)).
    destruct (spc w c'); try done.
    + destruct Hs as (H1 & H2 & H3). split; [done|]. split; [done|]. by apply Hsc.
    + destruct Hs as (H1 & H2 & H3). split; [done|]. split; [done|]. by apply Hsc.
    + destruct Hs as (H1 & H2). split; [done|]. by apply Hsc.
Qed.

Lemma einv_gone n w g :
  einv n w -> (forall r, r ∈ g -> r ∉ linked w /\ forall c, r ∉ holds w c) ->
  einv n (mk_ew (sh w) (rpc w) (spc w) (tpc w) (holds w) (linked w) g).
Proof. by intros [Hg Hr Hh Hp Hu Hs Hgo] H2. Qed.

Lemma free_call_refs r x : r ∈ (list_to_set (map fst (free_call x)) : gset Z) -> r = rec_ref x.
Proof. unfold free_call. destruct (_ && _); cbn; set_solver. Qed.

Lemma es_free_slot_inv n w c safe i x :
  einv n w -> spc w c = SFree safe i -> recs (cpus (sh w) c) !! i = Some x ->
  reclaimable safe x = true ->
  einv (n + 1) (mk_ew (set_ecpu c (set_table (<[i := rec_empty]> (recs (cpus (sh w) c)))
                         (retired_count (cpus (sh w) c) - 1) (retire_ops (cpus (sh w) c))
                         (reclaim_ops (cpus (sh w) c) + 1) (overflow_ops (cpus (sh w) c)) (cpus (sh w) c)) (sh w))
                  (rpc w) (<[c := SFree safe (S i)]> (spc w)) (tpc w) (holds w) (linked w)
                  (list_to_set (map fst (free_call x)) ∪ gone w)).
Proof.
  intros Hi Hsp Hx Hrc. pose proof (e_glob _ _ Hi) as Hg.
  unfold reclaimable in Hrc. apply andb_prop in Hrc as [Hu Hlt]. bool_hyps.
  assert (Hpx : pending w (rec_ref x) (retire_epoch x)) by (left; by exists c, i, x).
  pose proof (e_scan _ _ Hi c) as Hsc. unfold scan_ok in Hsc. rewrite Hsp in Hsc. destruct Hsc as [Hle Hsc].
  assert (Hnone : forall c', rec_ref x ∉ holds w c').
  { intros c' Hin. destruct (holder_active _ _ _ _ Hi Hin) as [_ Hc'].
    by apply (Hsc _ _ c' Hpx). }
  assert (Hi1 : einv (n + 1) (upd_scan c (SFree safe (S i)) w)).
  { eapply es_scan_inv; [done|done|]. unfold scan_ok. cbn. rewrite fn_insert_case, decide_True by done. done. }
  set (g := list_to_set _ ∪ gone w).
  assert (Hi2 := einv_gone _ _ g Hi1). cbn in Hi2.
  eapply (einv_shrink (n + 1)).
  - apply Hi2. intros r [Hr|Hr]%elem_of_union; [|by apply (e_gone _ _ Hi)].
    apply free_call_refs in Hr as ->. split; [apply (e_pend _ _ Hi _ _ Hpx)|done].
  - cbn. lia.
  - intros c'. pose proof (e_reader _ _ Hi c') as Hr. unfold reader_ok in *. cbn.
    rewrite fn_insert_case. by destruct (decide (c = c')) as [<-|].
  - apply (e_hold _ _ Hi).
  - intros r c' Hin. cbn in Hin |- *. split; [done|]. rewrite fn_insert_case. by destruct (decide (c = c')) as [<-|].
  - intros r R [(c' & j & y & Hy & H')|Ht]; [left|by right]. cbn in Hy. rewrite fn_insert_case in Hy.
    exists c', j, y. destruct (decide (c = c')) as [<-|]; [|done].
    cbn in Hy. destruct (decide (i = j)) as [<-|Hne].
    + rewrite list_lookup_insert_eq in Hy by by eapply lookup_lt_Some. injection Hy as <-. by destruct H' as [? _].
    + rewrite list_lookup_insert_ne in Hy by done. done.
  - done.
  - apply (e_unl _ _ Hi).
  - done.
  - done.
Qed.

Lemma es_insert_inv n w c r R fn s' :
  einv n w -> tpc w c = TEpoch r R -> retire_insert (sh w) c (mk_rec r fn R true) = Some s' ->
  einv (n + 1) (mk_ew s' (rpc w) (spc w) (<[c := TIdle]> (tpc w)) (holds w) (linked w) (gone w)).
Proof.
  intros Hi Ht Hins. pose proof (e_glob _ _ Hi) as Hg. unfold retire_insert in Hins.
  destruct (fill_slot _ _) as [rs|] eqn:Hf; [|done]. injection Hins as <-.
  eapply (einv_shrink n); [done|cbn; lia| | | | |done| |done|done].
  - intros c'. pose proof (e_reader _ _ Hi c') as Hr. unfold reader_ok in *. cbn.
    rewrite fn_insert_case. by destruct (decide (c = c')) as [<-|].
  - apply (e_hold _ _ Hi).
  - intros r0 c' Hin. cbn in Hin |- *. split; [done|]. rewrite fn_insert_case. by destruct (decide (c = c')) as [<-|].
  - intros r0 R0 [(c' & j & y & Hy & H')|(c' & Ht')].
    + cbn in Hy. rewrite fn_insert_case in Hy. destruct (decide (c = c')) as [<-|]; [|by left; exists c', j, y].
      cbn in Hy. destruct (fill_slot_lookup _ _ _ _ _ Hf Hy) as [->|Hy']; [|by left; exists c, j, y].
      destruct H' as (_ & <- & <-). right. by exists c.
    + cbn in Ht'. rewrite fn_insert_case in Ht'. destruct (decide (c = c')); [done|]. right. by exists c'.
  - intros c' r0 Ht'. cbn in Ht'. rewrite fn_insert_case in Ht'.
    destruct (decide (c = c')); [done|]. by apply (e_unl _ _ Hi c').
Qed.

(** steps of the updater that only forget *)
Lemma upd_tpc_inv n w c p l :
  einv n w -> (forall r R, p <> TEpoch r R) -> l ⊆ linked w -> (forall r, p = TUnlinked r -> r ∉ l) ->
  einv (n + 1) (mk_ew (sh w) (rpc w) (spc w) (<[c := p]> (tpc w)) (holds w) l (gone w)).
Proof.
  intros Hi Hp Hl Hu. pose proof (e_glob _ _ Hi) as Hg.
  eapply (einv_shrink n); [done|cbn; lia|apply (e_reader _ _ Hi)|apply (e_hold _ _ Hi)|done| |done| |done|done].
  - intros r R [Hx|(c' & Ht)]; [by left|]. cbn in Ht. rewrite fn_insert_case in Ht. right. exists c'.
    destruct (decide (c = c')) as [<-|]; [by destruct (Hp r R)|done].
  - intros c' r Ht. cbn in Ht. rewrite fn_insert_case in Ht.
    destruct (decide (c = c')) as [<-|]; [by apply Hu|]. cbn. pose proof (e_unl _ _ Hi c' r Ht). set_solver.
Qed.

Lemma es_exit_epoch_inv n w c :
  einv n w -> 0 <= n < 2 ^ 63 -> rpc w c = RLeaving ->
  einv (n + 1) (mk_ew (set_global (u64 (global_epoch (sh w) + 1)) (sh w))
                  (<[c := ROut]> (rpc w)) (spc w) (tpc w) (holds w) (linked w) (gone w)).
Proof.
  intros Hi Hn Hpc. pose proof (e_glob _ _ Hi) as Hg.
  assert (Hu : u64 (global_epoch (sh w) + 1) = global_epoch (sh w) + 1) by (apply u64_small; lia).
  eapply (einv_shrink n); [done|cbn; lia| | |done|done|done|apply (e_unl _ _ Hi)|done|done].
  - intros c'. pose proof (e_reader _ _ Hi c') as Hr. unfold reader_ok in *. cbn.
    rewrite fn_insert_case. destruct (decide (c = c')) as [<-|]; [by rewrite Hpc in Hr|].
    destruct (rpc w c'); try done; destruct Hr; (split; [done|]); lia.
  - intros c'. destruct (e_hold _ _ Hi c') as [H1 H2]. unfold holds_ok. cbn.
    rewrite fn_insert_case. destruct (decide (c = c')) as [<-|]; [|done]. split; [done|].
    intros r Hr. specialize (H2 r Hr). by rewrite Hpc in H2.
Qed.

Lemma ebr_step_inv n w w' :
  einv n w -> 0 <= n < 2 ^ 63 -> ebr_step ncpu w w' -> einv (n + 1) w'.
Proof.
  intros Hi Hn Hs.
  assert (Hc : forall c, rpc w c <> ROut -> (c < ncpu)%nat) by (intros c; apply (e_hold _ _ Hi)).
  assert (Hno : forall c p, rpc w c = p -> p <> RIn -> holds w c = ∅).
  { intros c p Hp Hne. apply set_eq. intros r. split; [|set_solver]. intros Hr.
    pose proof (proj2 (e_hold _ _ Hi c) r Hr). congruence. }
  destruct Hs as [c w Hlt Hpc|c ge w Hpc|c w Hpc|c d w Hpc Hd|c r w Hpc Hr|c w Hpc Hd|c w Hpc|c r w Ht Hr
    |c r w Ht|c r R fn s' w Ht Hins|c r R w Ht|c w Hsp|c safe i w Hsp Hlt|c safe i w Hsp|c safe w Hsp
    |c safe i x w Hsp Hx Hrc|c safe i x w Hsp Hx Hrc|c safe w Hsp].
  all: pose proof (e_reader _ _ Hi c) as Hrd; unfold reader_ok in Hrd; try rewrite Hpc in Hrd.
  all: pose proof (e_scan _ _ Hi c) as Hsc; unfold scan_ok in Hsc; try rewrite Hsp in Hsc.
  - eapply upd_reader_inv; [done|lia|done|done|left; by eapply Hno|].
    unfold reader_ok. cbn. rewrite !fn_insert_case, !decide_True by done. done.
  - eapply upd_reader_inv; [done|lia|apply Hc; congruence|done|left; by eapply Hno|].
    unfold reader_ok. cbn. rewrite !fn_insert_case, !decide_True by done. done.
  - eapply upd_reader_inv; [done|lia|apply Hc; congruence|done|left; by eapply Hno|].
    unfold reader_ok. cbn. rewrite !fn_insert_case, !decide_True by done. cbn. by destruct Hrd.
  - eapply upd_reader_inv; [done|lia|apply Hc; congruence|done|by right|].
    unfold reader_ok. cbn. rewrite !fn_insert_case, !decide_True by done. done.
  - by apply es_acquire_inv.
  - eapply upd_reader_inv; [done|lia|apply Hc; congruence|set_solver|by left|].
    unfold reader_ok. cbn. rewrite !fn_insert_case, !decide_True by done. done.
  - by apply es_exit_epoch_inv.
  - apply upd_tpc_inv; [done|done|set_solver|]. intros r' [= <-]. set_solver.
  - by apply es_retire_load_inv.
  - by eapply es_insert_inv.
  - by apply upd_tpc_inv.
  - eapply es_scan_inv; [done|done|]. unfold scan_ok. cbn. rewrite fn_insert_case, decide_True by done.
    split; [lia|]. split; [lia|]. intros ?????; lia.
  - destruct Hsc as (H1 & H2 & H3).
    eapply es_scan_inv; [done|done|]. unfold scan_ok. cbn. rewrite fn_insert_case, decide_True by done.
    destruct (Z.eqb_spec (active_flag (cpus (sh w) i)) 0); [|done]. split; [done|]. split; [lia|].
    by apply (scan_flag_scanned n w).
  - destruct Hsc as (H1 & H2 & H3).
    eapply es_scan_inv; [done|done|]. unfold scan_ok. cbn. rewrite fn_insert_case, decide_True by done.
    split; [unfold scan_local; case_bool|]. split; [lia|]. by apply (scan_local_scanned n w).
  - destruct Hsc as (H1 & H2 & H3).
    eapply es_scan_inv; [done|done|]. unfold scan_ok. cbn. rewrite fn_insert_case, decide_True by done. done.
  - by eapply es_free_slot_inv.
  - eapply es_scan_inv; [done|done|]. unfold scan_ok. cbn. rewrite fn_insert_case, decide_True by done. done.
  - eapply es_scan_inv; [done|done|]. unfold scan_ok. cbn. by rewrite fn_insert_case, decide_True by done.
Qed.

Lemma ebr_start_inv objects : einv 0 (ebr_start objects).
Proof.
  constructor; try done.
  intros r R [(c & i & x & Hx & Hu & _)|(c & Ht)]; [|done].
    apply (lookup_replicate EBR_RETIRE_SLOTS rec_empty) in Hx as [-> _]. done.
Qed.

Lemma ebr_reach_inv k w n w' :
  nsteps (ebr_step ncpu) k w w' -> einv n w -> 0 <= n -> n + Z.of_nat k < 2 ^ 63 ->
  einv (n + Z.of_nat k) w'.
Proof.
  intros. eapply (nsteps_invariant (ebr_step ncpu) einv (2 ^ 63)); [|done|done|done|lia].
  intros m s s' Hm Hi Hs. by eapply ebr_step_inv.
Qed.

(** C31 (safety): under every interleaving of the CPUs' individual atomic
    accesses (enter: epoch load, epoch store, flag store; exit: flag clear,
    epoch increment; retire: unlink, epoch load, slot fill; reclaim: epoch
    load, flag load and epoch load per CPU, slot by slot), an object whose
    destructor [ebr_try_reclaim] has called is not reachable any more and
    no CPU's reader still holds a reference to it. *)
Theorem ebr_no_use_after_free objects k w r
    (Hs : nsteps (ebr_step ncpu) k (ebr_start objects) w) (Hk : Z.of_nat k < 2 ^ 63)
    (Hg : r ∈ gone w) :
  r ∉ linked w /\ forall c, r ∉ holds w c.
Proof.
  pose proof (ebr_reach_inv k _ 0 w Hs (ebr_start_inv objects) ltac:(lia) ltac:(lia)) as Hi.
  by apply (e_gone _ _ Hi).
Qed.
End Safety.

(** a run of one CPU: retire object 7, pass a quiescent point, reclaim *)
Definition dw_tpc (p : retire_pc) (l : gset Z) (w : eworld) : eworld :=
  mk_ew (sh w) (rpc w) (spc w) (<[0%nat := p]> (tpc w)) (holds w) l (gone w).
Definition dw1 : eworld := dw_tpc (TUnlinked 7) (linked (ebr_start {[7]}) ∖ {[7]}) (ebr_start {[7]}).
Definition dw2 : eworld := dw_tpc (TEpoch 7 1) (linked dw1) dw1.
Definition dw_sh : ebr :=
  set_ecpu 0 (set_table (mk_rec 7 5 1 true :: replicate 511 rec_empty) 1 1 0 0 ecpu_start) (sh dw2).
Definition dw3 : eworld :=
  mk_ew dw_sh (rpc dw2) (spc dw2) (<[0%nat := TIdle]> (tpc dw2)) (holds dw2) (linked dw2) (gone dw2).
Definition dw_step (c : nat) (active local depth : Z) (p : reader_pc) (w : eworld) : eworld :=
  upd_reader c active local depth p (holds w c) w.
Definition dw4 : eworld := dw_step 0 (active_flag (cpus (sh dw3) 0)) (local_epoch (cpus (sh dw3) 0)) 1 (RLoaded (global_epoch (sh dw3))) dw3.
Definition dw5 : eworld := dw_step 0 (active_flag (cpus (sh dw4) 0)) 1 (nesting_depth (cpus (sh dw4) 0)) RStored dw4.
Definition dw6 : eworld := dw_step 0 1 (local_epoch (cpus (sh dw5) 0)) (nesting_depth (cpus (sh dw5) 0)) RIn dw5.
Definition dw7 : eworld := upd_reader 0 0 (local_epoch (cpus (sh dw6) 0)) 0 RLeaving ∅ dw6.
Definition dw8 : eworld :=
  mk_ew (set_global (u64 (global_epoch (sh dw7) + 1)) (sh dw7)) (<[0%nat := ROut]> (rpc dw7)) (spc dw7) (tpc dw7)
    (holds dw7) (linked dw7) (gone dw7).
Definition dw9 : eworld := upd_scan 0 (SScan (global_epoch (sh dw8)) 0) dw8.
Definition dw10 : eworld :=
  upd_scan 0 (if active_flag (cpus (sh dw9) 0) =? 0 then SScan 2 1 else SLocal 2 0) dw9.
Definition dw11 : eworld := upd_scan 0 (SFree 2 0) dw10.

Lemma ebr_no_use_after_free_witness :
  exists w, nsteps (ebr_step 1) 12 (ebr_start {[7]}) w /\ 7 ∈ gone w /\ 7 ∉ linked w /\ forall c, 7 ∉ holds w c.
Proof.
  assert (H7 : 7 ∈ ({[7]} : gset Z)) by (apply elem_of_singleton; reflexivity).
  assert (Hx : exists w, nsteps (ebr_step 1) 12 (ebr_start {[7]}) w /\ 7 ∈ gone w).
  { eexists. split.
    - apply (nsteps_l _ 11 _ dw1); [apply (es_unlink 1 0 7 (ebr_start {[7]})); [reflexivity|exact H7]|].
      apply (nsteps_l _ 10 _ dw2); [apply (es_retire_load 1 0 7 dw1); vm_compute; reflexivity|].
      apply (nsteps_l _ 9 _ dw3); [apply (es_retire_insert 1 0 7 1 5 dw_sh dw2); [vm_compute; reflexivity|reflexivity]|].
      apply (nsteps_l _ 8 _ dw4); [apply (es_enter_load 1 0 dw3); [lia|vm_compute; reflexivity]|].
      apply (nsteps_l _ 7 _ dw5); [apply (es_enter_store 1 0 1 dw4); vm_compute; reflexivity|].
      apply (nsteps_l _ 6 _ dw6); [apply (es_enter_flag 1 0 dw5); vm_compute; reflexivity|].
      apply (nsteps_l _ 5 _ dw7); [apply (es_exit_flag 1 0 dw6); vm_compute; reflexivity|].
      apply (nsteps_l _ 4 _ dw8); [apply (es_exit_epoch 1 0 dw7); vm_compute; reflexivity|].
      apply (nsteps_l _ 3 _ dw9); [apply (es_scan_start 1 0 dw8); vm_compute; reflexivity|].
      apply (nsteps_l _ 2 _ dw10); [apply (es_scan_flag 1 0 2 0 dw9); [vm_compute; reflexivity|lia]|].
      apply (nsteps_l _ 1 _ dw11); [apply (es_scan_done 1 0 2 dw10); vm_compute; reflexivity|].
      eapply nsteps_l; [apply (es_free_slot 1 0 2 0 (mk_rec 7 5 1 true) dw11); vm_compute; reflexivity|].
      apply nsteps_O.
    - apply elem_of_union_l, elem_of_list_to_set. left. }
  destruct Hx as (w & Hs & Hg). exists w. split; [exact Hs|]. split; [exact Hg|].
  apply (ebr_no_use_after_free 1 {[7]} 12 w 7 Hs ltac:(lia) Hg).
Defined.

(** ** The functions run by one CPU *)

Lemma scan_fold_le s l safe :
  fold_left (fun safe i => scan_cpu safe (cpus s i)) l safe <= safe /\
  forall i, i ∈ l -> active_flag (cpus s i) <> 0 ->
    fold_left (fun safe i => scan_cpu safe (cpus s i)) l safe <= local_epoch (cpus s i).
Proof.
  revert safe. induction l as [|j l IH]; intros safe; cbn [fold_left].
  { split; [lia|]. intros i Hi. by apply elem_of_nil in Hi. }
  assert (Hj : scan_cpu safe (cpus s j) <= safe /\
               (active_flag (cpus s j) <> 0 -> scan_cpu safe (cpus s j) <= local_epoch (cpus s j))).
  { unfold scan_cpu, scan_local. repeat case_bool. }
  destruct (IH (scan_cpu safe (cpus s j))) as [H1 H2]. split; [lia|].
  intros i [->|Hi]%elem_of_cons Ha; [lia|]. by apply H2.
Qed.

(** the safe epoch is at most the global epoch and at most the epoch of every
    active reader *)
Lemma safe_epoch_bound s NR_CPU :
  ebr_compute_safe_epoch s NR_CPU <= global_epoch s /\
  forall i, (i < NR_CPU)%nat -> active_flag (cpus s i) <> 0 ->
    ebr_compute_safe_epoch s NR_CPU <= local_epoch (cpus s i).
Proof.
  unfold ebr_compute_safe_epoch. match goal with |- context [seq 0 ?n] => pose proof (scan_fold_le s (seq 0 n) (global_epoch s)) as [H1 H2] end.
  split; [done|]. intros i Hi. apply H2. apply elem_of_seq. destruct (Nat.leb_spec NR_CPU 0); lia.
Qed.

Definition count_ok (x : ebr_cpu) : Prop := retired_count x = countp rec_used (recs x).

Lemma reclaim_slots_spec rs safe :
  reclaim_slots rs safe =
    (map (fun r => if reclaimable safe r then rec_empty else r) rs,
     flat_map free_call (filter (fun r => reclaimable safe r = true) rs),
     countp (reclaimable safe) rs).
Proof.
  induction rs as [|r rs IH]; [done|]. cbn [reclaim_slots map countp]. rewrite IH, filter_cons.
  destruct (reclaimable safe r) eqn:E; cbn [Z.b2z].
  - rewrite decide_True by done. cbn [flat_map]. f_equal. lia.
  - rewrite decide_False by done. by rewrite Z.add_0_l.
Qed.

Lemma reclaimed_count rs safe :
  countp rec_used (map (fun r => if reclaimable safe r then rec_empty else r) rs) =
  countp rec_used rs - countp (reclaimable safe) rs.
Proof.
  induction rs as [|r rs IH]; [done|]. cbn [map countp]. rewrite IH.
  destruct (reclaimable safe r) eqn:E; cbn [Z.b2z rec_used rec_empty]; [|lia].
  unfold reclaimable in E. apply andb_prop in E as [-> _]. cbn. lia.
Qed.

(** the effect of one reclaim pass, early exit included *)
Definition reclaimed (x : ebr_cpu) (safe : Z) : ebr_cpu :=
  let n := countp (reclaimable safe) (recs x) in
  set_table (map (fun r => if reclaimable safe r then rec_empty else r) (recs x))
    (retired_count x - n) (retire_ops x) (reclaim_ops x + n) (overflow_ops x) x.

Lemma try_reclaim_effect s NR_CPU c :
  count_ok (cpus s c) ->
  let safe := ebr_compute_safe_epoch s NR_CPU in
  let '(s', calls) := ebr_try_reclaim s NR_CPU c in
  global_epoch s' = global_epoch s /\ recs (cpus s' c) = recs (reclaimed (cpus s c) safe) /\
  count_ok (cpus s' c) /\ overflow_ops (cpus s' c) = overflow_ops (cpus s c) /\
  (forall c', c' <> c -> cpus s' c' = cpus s c') /\
  (forall c', active_flag (cpus s' c') = active_flag (cpus s c') /\ local_epoch (cpus s' c') = local_epoch (cpus s c')) /\
  calls = flat_map free_call (filter (fun r => reclaimable safe r = true) (recs (cpus s c))).
Proof.
  intros Hc safe. unfold ebr_try_reclaim. fold safe.
  destruct (Z.leb_spec (retired_count (cpus s c)) 0) as [Hz|Hz].
  - pose proof (countp_range rec_used (recs (cpus s c))) as Hr. unfold count_ok in Hc.
    assert (Hno : forall i r, recs (cpus s c) !! i = Some r -> reclaimable safe r = false).
    { intros i r Hi. unfold reclaimable. by rewrite (countp_zero rec_used (recs (cpus s c)) ltac:(lia) i r Hi). }
    split; [done|]. split.
    { unfold reclaimed. cbn. symmetry. apply list_eq. intros i. rewrite list_lookup_fmap.
      destruct (recs (cpus s c) !! i) as [r|] eqn:E; [|done]. cbn. by rewrite (Hno i r E). }
    split; [done|]. split; [done|]. split; [done|]. split; [done|].
    replace (filter _ _) with (@nil ebr_retired_rec); [done|]. symmetry.
    generalize Hno. generalize (recs (cpus s c)). clear. intros l. induction l as [|r l IH]; intros Hno; [done|].
    rewrite filter_cons, decide_False by (rewrite (Hno 0%nat r) by done; done). apply IH. intros i. apply (Hno (S i)).
  - rewrite reclaim_slots_spec. cbn. rewrite fn_insert_case, decide_True by done.
    split; [done|]. split; [done|]. split; [|split; [done|split; [|split; [|done]]]].
    + unfold count_ok in *. cbn. rewrite reclaimed_count. lia.
    + intros c' Hne. rewrite fn_insert_case, decide_False by done. done.
    + intros c'. rewrite fn_insert_case. by destruct (decide (c = c')) as [<-|].
Qed.

Lemma fill_slot_cases rs new :
  rec_used new = true ->
  match fill_slot rs new with
  | Some rs' => new ∈ rs' /\ countp rec_used rs' = countp rec_used rs + 1 /\ length rs' = length rs
  | None => Forall (fun r => rec_used r = true) rs
  end.
Proof.
  intros Hn. induction rs as [|r rs IH]; cbn [fill_slot]; [done|]. destruct (rec_used r) eqn:E.
  - destruct (fill_slot rs new) as [rs'|]; [|by constructor].
    destruct IH as (H1 & H2 & H3). split; [by apply elem_of_cons; right|]. cbn [countp length]. rewrite E. lia.
  - split; [by apply elem_of_cons; left|]. cbn [countp length]. rewrite E, Hn. cbn. lia.
Qed.

Lemma kept_in_reclaimed r rs safe :
  r ∈ rs -> safe <= retire_epoch r -> r ∈ map (fun r => if reclaimable safe r then rec_empty else r) rs.
Proof.
  intros Hr Hle. apply list_elem_of_fmap. exists r. split; [|done].
  unfold reclaimable. destruct (Z.leb_spec safe (retire_epoch r)); [|lia]. by rewrite andb_false_r.
Qed.

(** (functional): one reclaim pass of a CPU calls the destructors of
    exactly the used slots retired before the safe epoch, in slot order,
    clears exactly those slots and keeps [ebr_retired_count] equal to the
    number of used slots (so the early return on a zero count skips nothing);
    every called reference was retired before the epoch of every active
    reader.  No other CPU's table is touched. *)
Theorem try_reclaim_exact s NR_CPU c (Hc : count_ok (cpus s c)) :
  let safe := ebr_compute_safe_epoch s NR_CPU in
  let '(s', calls) := ebr_try_reclaim s NR_CPU c in
  calls = flat_map free_call (filter (fun r => reclaimable safe r = true) (recs (cpus s c))) /\
  (forall i, recs (cpus s' c) !! i =
     (fun r => if reclaimable safe r then rec_empty else r) <$> recs (cpus s c) !! i) /\
  count_ok (cpus s' c) /\ (forall c', c' <> c -> cpus s' c' = cpus s c') /\
  (forall r i, r ∈ recs (cpus s c) -> reclaimable safe r = true -> (i < NR_CPU)%nat ->
     active_flag (cpus s i) <> 0 -> retire_epoch r < local_epoch (cpus s i)).
Proof.
  intros safe. pose proof (try_reclaim_effect s NR_CPU c Hc) as H. cbv zeta in H. fold safe in H.
  destruct (ebr_try_reclaim s NR_CPU c) as [s' calls]. destruct H as (_ & H2 & H3 & _ & H4 & _ & H5).
  split; [done|]. split; [|split; [done|split; [done|]]].
  - intros i. rewrite H2. unfold reclaimed. cbn. by rewrite list_lookup_fmap.
  - intros r i _ Hr Hi Ha. unfold reclaimable in Hr. bool_hyps.
    pose proof (proj2 (safe_epoch_bound s NR_CPU) i Hi Ha) as Hb. fold safe in Hb. lia.
Qed.

Lemma retire_insert_effect s c new :
  rec_used new = true -> count_ok (cpus s c) ->
  match retire_insert s c new with
  | Some s' => new ∈ recs (cpus s' c) /\ count_ok (cpus s' c) /\ global_epoch s' = global_epoch s /\
      overflow_ops (cpus s' c) = overflow_ops (cpus s c)
  | None => Forall (fun r => rec_used r = true) (recs (cpus s c))
  end.
Proof.
  intros Hn Hc. unfold retire_insert. pose proof (fill_slot_cases (recs (cpus s c)) new Hn) as H.
  destruct (fill_slot _ _) as [rs|]; [|done]. destruct H as (H1 & H2 & _). unfold count_ok in *.
  cbn. rewrite !fn_insert_case, !decide_True by done. cbn. split; [done|]. split; [lia|done].
Qed.

(** a slot filled at the current epoch survives the reclaim pass that follows *)
Lemma insert_then_reclaim s NR_CPU c new s1 :
  rec_used new = true -> retire_epoch new = global_epoch s -> count_ok (cpus s c) ->
  retire_insert s c new = Some s1 ->
  let s2 := fst (ebr_try_reclaim s1 NR_CPU c) in
  new ∈ recs (cpus s2 c) /\ count_ok (cpus s2 c) /\ overflow_ops (cpus s2 c) = overflow_ops (cpus s c).
Proof.
  intros Hn Hg Hc Hins. pose proof (retire_insert_effect s c new Hn Hc) as H. rewrite Hins in H.
  destruct H as (H1 & H2 & H3 & H4). pose proof (try_reclaim_effect s1 NR_CPU c H2) as Ht. cbv zeta in Ht.
  destruct (ebr_try_reclaim s1 NR_CPU c) as [s2 f]. cbn [fst]. destruct Ht as (_ & T2 & T3 & T4 & _).
  split; [|split; [done|congruence]]. rewrite T2. unfold reclaimed. cbn. apply kept_in_reclaimed; [done|].
  pose proof (proj1 (safe_epoch_bound s1 NR_CPU)). lia.
Qed.

(** (functional): [ebr_retire_ref] with a reference and a destructor
    succeeds, keeps the slot count exact, and never runs the destructor of the
    reference it retires: afterwards the reference waits in this CPU's table
    tagged with the current epoch, or, when every slot stayed occupied after
    two reclaim passes, the overflow counter went up by one and the
    reference is leaked. *)
Theorem retire_ref_deferred s NR_CPU c ref fn
    (Hr : ref <> NULL) (Hf : fn <> NULL) (Hi : inited s = true) (Hc : count_ok (cpus s c)) :
  let '(e, s', _) := ebr_retire_ref s NR_CPU c ref fn in
  e = REND_SUCCESS /\ count_ok (cpus s' c) /\
  (mk_rec ref fn (global_epoch s) true ∈ recs (cpus s' c) /\ overflow_ops (cpus s' c) = overflow_ops (cpus s c) \/
   overflow_ops (cpus s' c) = overflow_ops (cpus s c) + 1).
Proof.
  unfold ebr_retire_ref. destruct (Z.eqb_spec ref NULL); [done|]. destruct (Z.eqb_spec fn NULL); [done|].
  cbn [orb]. unfold ebr_ensure_init. rewrite Hi.
  set (new := mk_rec ref fn (global_epoch s) true).
  pose proof (try_reclaim_effect s NR_CPU c Hc) as H1. cbv zeta in H1.
  destruct (ebr_try_reclaim s NR_CPU c) as [s1 f1]. destruct H1 as (G1 & _ & C1 & O1 & _).
  destruct (retire_insert s1 c new) as [s2|] eqn:E1.
  { pose proof (insert_then_reclaim s1 NR_CPU c new s2 eq_refl (eq_sym G1) C1 E1) as H2. cbv zeta in H2.
    destruct (ebr_try_reclaim s2 NR_CPU c) as [s3 f3]. cbn [fst] in H2. destruct H2 as (H2 & H3 & H4).
    split; [done|]. split; [done|]. left. split; [done|congruence]. }
  pose proof (try_reclaim_effect s1 NR_CPU c C1) as H2. cbv zeta in H2.
  destruct (ebr_try_reclaim s1 NR_CPU c) as [s2 f2]. destruct H2 as (G2 & _ & C2 & O2 & _).
  destruct (retire_insert s2 c new) as [s3|] eqn:E2.
  { pose proof (insert_then_reclaim s2 NR_CPU c new s3 eq_refl ltac:(cbn; congruence) C2 E2) as H3. cbv zeta in H3.
    destruct (ebr_try_reclaim s3 NR_CPU c) as [s4 f4]. cbn [fst] in H3. destruct H3 as (H3 & H4 & H5).
    split; [done|]. split; [done|]. left. split; [done|congruence]. }
  set (s3 := mk_ebr _ _ _ _).
  assert (C3 : count_ok (cpus s3 c) /\ overflow_ops (cpus s3 c) = overflow_ops (cpus s c) + 1).
  { unfold s3, count_ok. cbn. rewrite fn_insert_case, decide_True by done. cbn. split; [done|]. lia. }
  pose proof (try_reclaim_effect s3 NR_CPU c (proj1 C3)) as H3. cbv zeta in H3.
  destruct (ebr_try_reclaim s3 NR_CPU c) as [s4 f4]. destruct H3 as (_ & _ & C4 & O4 & _).
  split; [done|]. split; [done|]. right. lia.
Qed.

(** one active reader in epoch 3, the global epoch at 5, two slots used *)
Definition demo_ecpu : ebr_cpu :=
  mk_ecpu 1 3 1 [mk_rec 100 9 2 true; mk_rec 200 9 4 true; rec_empty] 2 2 0 0.
Definition demo_ebr : ebr := mk_ebr 5 true 0 (fun _ => demo_ecpu).

Lemma try_reclaim_exact_witness :
  count_ok (cpus demo_ebr 0) /\ snd (ebr_try_reclaim demo_ebr 1 0) = [(100, 9)].
Proof.
  pose proof (try_reclaim_exact demo_ebr 1 0 eq_refl) as H. cbv zeta in H. split; [reflexivity|].
  destruct (ebr_try_reclaim demo_ebr 1 0) as [s' calls]. cbn [snd]. rewrite (proj1 H). reflexivity.
Defined.

Lemma retire_ref_deferred_witness :
  let '(e, s', _) := ebr_retire_ref demo_ebr 1 0 300 9 in
  e = REND_SUCCESS /\ count_ok (cpus s' 0).
Proof.
  pose proof (retire_ref_deferred demo_ebr 1 0 300 9 ltac:(discriminate) ltac:(discriminate) eq_refl eq_refl) as H.
  destruct (ebr_retire_ref demo_ebr 1 0 300 9) as [[e s'] f]. destruct H as (H1 & H2 & _). split; [exact H1|exact H2].
Defined.
