(* ===== verification/Message.v ===== *)
(** * Messages and kernel messages

    [kernel/ipc/message.c] and [kernel/ipc/kmsg.c]: reference-counted payloads
    ([Msg_Data_t]), messages sharing them, and the kmsg carrier (header plus
    serialized payload).  The heap holds payload structures, message structures
    and kmsg buffers by address; [freed] records every [m_free] call. *)
From S2P Require Import Prelude Mm CString Allocator Refcount IpcSerial Ebr.

Definition MSG_DATA_TAG_KMSG : Z := 1.
Definition KMSG_MAGIC : Z := 1196641612.
Definition KMSG_MAX_PAYLOAD : Z := PAGE_SIZE.

(** function pointers of the destructors *)
Definition FN_free_msgdata_ref_default : Z := 4096.
Definition FN_free_message_ref_real : Z := 4112.

Record Msg_Data_t := mk_msgdata {
  md_refcount : ref_count_t;
  msg_type : Z;
  data_len : Z;
  md_data : Z;
  free_data : Z
}.

Record Message_t := mk_message {
  msg_refcount : ref_count_t;
  msg_data : Z;
  receiver : Z
}.

Record mstate (A : Type) := mk_ms {
  heap : A;
  datas : gmap Z Msg_Data_t;
  msgs : gmap Z Message_t;
  bufs : gmap Z (list Z);
  freed_ptrs : list Z
}.
Arguments mk_ms {A}.
Arguments heap {A}.
Arguments datas {A}.
Arguments msgs {A}.
Arguments bufs {A}.
Arguments freed_ptrs {A}.

Section Messages.
Context {A : Type} `{HA : Allocator A}.
(** destructors supplied by other components: effect on this state *)
Context (custom_free : Z -> Z -> mstate A -> Z * mstate A).
Implicit Types st : mstate A.

Definition k_alloc st (n : Z) : Z * mstate A :=
  let '(p, a) := m_alloc (heap st) n in
  (p, mk_ms a (datas st) (msgs st) (bufs st) (freed_ptrs st)).
Definition k_free st (p : Z) : mstate A :=
  mk_ms (m_free (heap st) p) (datas st) (msgs st) (delete p (bufs st)) (freed_ptrs st ++ [p]).
Definition set_data (p : Z) (d : Msg_Data_t) st : mstate A :=
  mk_ms (heap st) (<[p := d]> (datas st)) (msgs st) (bufs st) (freed_ptrs st).
Definition set_msg (p : Z) (m : Message_t) st : mstate A :=
  mk_ms (heap st) (datas st) (<[p := m]> (msgs st)) (bufs st) (freed_ptrs st).
Definition set_buf (p : Z) (b : list Z) st : mstate A :=
  mk_ms (heap st) (datas st) (msgs st) (<[p := b]> (bufs st)) (freed_ptrs st).

(** sizes of the C structures *)
Definition sizeof_Msg_Data : Z := 40.
Definition sizeof_Message : Z := 32.

Definition delete_msgdata_structure st (p : Z) : mstate A :=
  if p =? NULL then st
  else
    let st := k_free st p in
    mk_ms (heap st) (delete p (datas st)) (msgs st) (bufs st) (freed_ptrs st).

(** the refcount is the first field: its address is the structure's *)
Definition free_msgdata_ref_default st (refcount : Z) : Z * mstate A :=
  if refcount =? NULL then (- E_IN_PARAM, st)
  else
    match datas st !! refcount with
    | Some d => (REND_SUCCESS, delete_msgdata_structure (k_free st (md_data d)) refcount)
    | None => (- E_IN_PARAM, st)
    end.

Definition call_free_data st (fn refcount : Z) : Z * mstate A :=
  if fn =? FN_free_msgdata_ref_default then free_msgdata_ref_default st refcount
  else custom_free fn refcount st.

(** [ref_put(&data->refcount, fn)] on the payload at [p] *)
Definition put_data st (p fn : Z) : Z * mstate A :=
  match datas st !! p with
  | None => (- E_IN_PARAM, st)
  | Some d =>
    let '(c, zero) := ref_put (md_refcount d) (if fn =? NULL then None else Some fn) in
    let st := set_data p (mk_msgdata c (msg_type d) (data_len d) (md_data d) (free_data d)) st in
    if zero then call_free_data st fn p else (REND_SUCCESS, st)
  end.

(** the new structure (or NULL), the updated [*data_ptr], the state;
    [data_ptr = None] is the NULL argument *)
Definition create_message_data st (ty len : Z) (data_ptr : option Z) (free : Z)
  : Z * option Z * mstate A :=
  let '(p, st) := k_alloc st sizeof_Msg_Data in
  if p =? NULL then (NULL, data_ptr, st)
  else
    let st := set_data p (mk_msgdata ref_init 0 0 NULL NULL) st in
    match data_ptr with
    | Some d =>
      if (0 <? len) && negb (d =? NULL)
      then (p, Some NULL, set_data p (mk_msgdata ref_init ty len d free) st)
      else let '(_, st) := put_data st p free in (NULL, data_ptr, st)
    | None => let '(_, st) := put_data st p free in (NULL, data_ptr, st)
    end.

(** [ref_get_not_zero(&msgdata->refcount)] *)
Definition get_data st (p : Z) : bool * mstate A :=
  match datas st !! p with
  | None => (false, st)
  | Some d =>
    let '(ok, c) := ref_get_not_zero (md_refcount d) in
    (ok, set_data p (mk_msgdata c (msg_type d) (data_len d) (md_data d) (free_data d)) st)
  end.

Definition create_message_with_msg st (msgdata : Z) : Z * mstate A :=
  if msgdata =? NULL then (NULL, st)
  else
    let '(ok, st) := get_data st msgdata in
    if negb ok then (NULL, st)
    else
      let '(m, st) := k_alloc st sizeof_Message in
      if m =? NULL then (NULL, st)
      else (m, set_msg m (mk_message ref_init msgdata NULL) st).

Definition create_message_structure st : Z * mstate A :=
  let '(m, st) := k_alloc st sizeof_Message in
  if m =? NULL then (NULL, st)
  else (m, set_msg m (mk_message ref_init NULL NULL) st).

Definition fill_message_data st (m msgdata : Z) : Z * mstate A :=
  if (m =? NULL) || (msgdata =? NULL) then (- E_IN_PARAM, st)
  else
    let '(ok, st) := get_data st msgdata in
    if negb ok then (- E_IN_PARAM, st)
    else
      match msgs st !! m with
      | Some x => (REND_SUCCESS, set_msg m (mk_message (msg_refcount x) msgdata (receiver x)) st)
      | None => (REND_SUCCESS, st)
      end.

Definition delete_message_structure st (m : Z) : mstate A :=
  if m =? NULL then st
  else
    let st := k_free st m in
    mk_ms (heap st) (datas st) (delete m (msgs st)) (bufs st) (freed_ptrs st).

Definition free_message_ref_real st (m : Z) : Z * mstate A :=
  if m =? NULL then (- E_IN_PARAM, st)
  else
    match msgs st !! m with
    | None => (- E_IN_PARAM, st)
    | Some x =>
      let st :=
        if negb (msg_data x =? NULL)
        then match datas st !! msg_data x with
             | Some d => snd (put_data st (msg_data x) (free_data d))
             | None => st
             end
        else st in
      (REND_SUCCESS, delete_message_structure st m)
    end.

(** deferred through epoch-based reclamation *)
Definition free_message_ref (e : ebr) (NR_CPU c : nat) (m : Z) : Z * ebr * list (Z * Z) :=
  if m =? NULL then (- E_IN_PARAM, e, [])
  else ebr_retire_ref e NR_CPU c m FN_free_message_ref_real.

(** ** kmsg *)

(** [offsetof(kmsg_t, payload)] *)
Definition km_hdr_sz : Z := 12.

Definition hdr_bytes (magic module opcode payload_len : Z) : list Z :=
  le_bytes 4 magic ++ le_bytes 2 module ++ le_bytes 2 opcode ++ le_bytes 4 payload_len.

(** the bytes at [payload] live behind the header in the same object *)
Definition kmsg_create st (module opcode : Z) (fmt : option cstr) (ap : list arg)
  : option (Z * mstate A) :=
  match ipc_serial_measure_va fmt ap with
  | None => None
  | Some (e, payload_len) =>
    if negb (e =? REND_SUCCESS) then Some (NULL, st)
    else if KMSG_MAX_PAYLOAD <? payload_len then Some (NULL, st)
    else if u32 (SIZE_MAX - km_hdr_sz) <? payload_len then Some (NULL, st)
    else
      let '(km, st) := k_alloc st (km_hdr_sz + payload_len) in
      if km =? NULL then Some (NULL, st)
      else
        let hdr := hdr_bytes KMSG_MAGIC module opcode payload_len in
        match ipc_serial_encode_into_va (Some (replicate (Z.to_nat payload_len) 0)) payload_len fmt ap with
        | Some (e, Some payload) =>
          if negb (e =? REND_SUCCESS) then Some (NULL, k_free st km)
          else
            let st := set_buf km (hdr ++ payload) st in
            let '(p, _, st) := create_message_data st MSG_DATA_TAG_KMSG (km_hdr_sz + payload_len)
                                 (Some km) FN_free_msgdata_ref_default in
            Some (p, st)
        | _ => None
        end
  end.

(** header fields of a buffer *)
Definition km_magic (b : list Z) : Z := le_val (take 4 b).
Definition km_module (b : list Z) : Z := le_val (take 2 (drop 4 b)).
Definition km_opcode (b : list Z) : Z := le_val (take 2 (drop 6 b)).
Definition km_payload_len (b : list Z) : Z := le_val (take 4 (drop 8 b)).
Definition km_payload (b : list Z) : list Z := drop 12 b.

(** the validated buffer, NULL as [None] *)
Definition kmsg_from_msg st (m : Z) : option (list Z) :=
  if m =? NULL then None
  else
    x ← msgs st !! m;
    if msg_data x =? NULL then None
    else
      d ← datas st !! msg_data x;
      if negb (msg_type d =? MSG_DATA_TAG_KMSG) || (md_data d =? NULL) || (data_len d <? km_hdr_sz)
      then None
      else
        b ← bufs st !! md_data d;
        if negb (km_magic b =? KMSG_MAGIC) then None
        else if negb (km_payload_len b =? u32 (data_len d - km_hdr_sz)) then None
        else Some b.
End Messages.

(** ** Properties *)

Section Properties.
Context {A : Type} `{HA : Allocator A}.
Context (custom_free : Z -> Z -> mstate A -> Z * mstate A).
Implicit Types st : mstate A.

Definition set_rc (d : Msg_Data_t) (c : Z) : Msg_Data_t :=
  mk_msgdata c (msg_type d) (data_len d) (md_data d) (free_data d).

Lemma get_data_live st p d :
  datas st !! p = Some d -> 0 < md_refcount d < 2 ^ 63 - 1 ->
  get_data st p = (true, set_data p (set_rc d (md_refcount d + 1)) st).
Proof.
  intros Hd Hc. unfold get_data. rewrite Hd. unfold ref_get_not_zero, ref_get_try.
  rewrite i64_small by lia. destruct (Z.leb_spec (md_refcount d) 0); [lia|].
  unfold atomic64_cas. rewrite !u64_small by lia. by rewrite Z.eqb_refl.
Qed.

Lemma get_data_dead st p d :
  datas st !! p = Some d -> md_refcount d = 0 -> fst (get_data st p) = false.
Proof. intros Hd Hc. unfold get_data. rewrite Hd, Hc. done. Qed.

(** (functional): taking a payload into a message.  [create_message_with_msg]
    on a live payload takes exactly one reference; when the message structure
    is allocated it is new, has count 1 and points at the payload.  On a dying
    payload (count 0) it returns NULL without allocating.  When the heap is
    exhausted it returns NULL but the reference just taken is not put back. *)
Theorem create_message_with_msg_refs st p d
    (Hp : p <> NULL) (Hd : datas st !! p = Some d) (Hc : 0 <= md_refcount d < 2 ^ 63 - 1) :
  let '(m, st') := create_message_with_msg st p in
  (md_refcount d = 0 -> m = NULL /\ heap st' = heap st /\ freed_ptrs st' = freed_ptrs st) /\
  (0 < md_refcount d ->
     datas st' !! p = Some (set_rc d (md_refcount d + 1)) /\
     (m <> NULL -> msgs st' !! m = Some (mk_message 1 p NULL)) /\
     (m = NULL -> msgs st' = msgs st)).
Proof.
  unfold create_message_with_msg. destruct (Z.eqb_spec p NULL); [done|].
  destruct (Z.eq_dec (md_refcount d) 0) as [E|E].
  - pose proof (get_data_dead st p d Hd E) as Hg.
    assert (Hh : heap (snd (get_data st p)) = heap st /\ freed_ptrs (snd (get_data st p)) = freed_ptrs st).
    { unfold get_data. rewrite Hd. by destruct (ref_get_not_zero (md_refcount d)). }
    destruct (get_data st p) as [ok st1]. cbn in Hg, Hh. subst ok. cbn [negb]. split; [done|lia].
  - rewrite (get_data_live st p d Hd) by lia. cbn [negb]. unfold k_alloc. cbn [heap set_data].
    destruct (m_alloc (heap st) sizeof_Message) as [m a]. destruct (Z.eqb_spec m NULL) as [Em|Em].
    + split; [lia|]. intros _. cbn [set_data datas msgs]. rewrite lookup_insert_eq. by split; [|split].
    + split; [lia|]. intros _. cbn [set_msg set_data datas msgs]. rewrite !lookup_insert_eq. by split; [|split].
Qed.

(** Releasing a message.  [free_message_ref_real] drops the
    payload reference the message holds and frees the message structure; the
    payload's buffer and structure are freed, in that order and once, exactly
    when this was the last reference, and otherwise only its count drops. *)
Theorem free_message_releases_payload st m x d
    (Hm : m <> NULL) (Hx : msgs st !! m = Some x) (Hp : msg_data x <> NULL)
    (Hd : datas st !! msg_data x = Some d) (Hf : free_data d = FN_free_msgdata_ref_default)
    (Hc : 1 <= md_refcount d < 2 ^ 63) :
  let '(e, st') := free_message_ref_real custom_free st m in
  e = REND_SUCCESS /\ msgs st' = delete m (msgs st) /\
  (md_refcount d = 1 ->
     freed_ptrs st' = freed_ptrs st ++ [md_data d; msg_data x; m] /\ datas st' = delete (msg_data x) (datas st)) /\
  (1 < md_refcount d ->
     freed_ptrs st' = freed_ptrs st ++ [m] /\
     datas st' = <[msg_data x := set_rc d (md_refcount d - 1)]> (datas st)).
Proof.
  unfold free_message_ref_real. destruct (Z.eqb_spec m NULL); [done|]. rewrite Hx.
  destruct (Z.eqb_spec (msg_data x) NULL); [done|]. cbn [negb]. rewrite Hd, Hf.
  unfold put_data. rewrite Hd. unfold ref_put. rewrite i64_small by lia.
  change (FN_free_msgdata_ref_default =? NULL) with false. cbn iota. rewrite andb_true_r.
  rewrite u64_small by lia.
  destruct (Z.eqb_spec (md_refcount d) 1) as [E|E].
  - unfold call_free_data. rewrite Z.eqb_refl. unfold free_msgdata_ref_default.
    destruct (Z.eqb_spec (msg_data x) NULL); [done|]. cbn [set_data datas]. rewrite lookup_insert_eq.
    unfold delete_msgdata_structure, delete_message_structure.
    destruct (Z.eqb_spec (msg_data x) NULL); [done|]. destruct (Z.eqb_spec m NULL); [done|].
    cbn. split; [done|]. split; [done|]. split; [|lia]. intros _.
    rewrite <- !app_assoc. split; [done|]. apply delete_insert_eq.
  - cbn [snd]. unfold delete_message_structure. destruct (Z.eqb_spec m NULL); [done|].
    cbn. split; [done|]. split; [done|]. split; [lia|]. done.
Qed.

Lemma hdr_bytes_length mg md op pl : length (hdr_bytes mg md op pl) = 12%nat.
Proof. unfold hdr_bytes. by rewrite !length_app, !le_bytes_length. Qed.

Lemma hdr_fields mg md op pl payload :
  0 <= mg < 2 ^ 32 -> 0 <= md < 2 ^ 16 -> 0 <= op < 2 ^ 16 -> 0 <= pl < 2 ^ 32 ->
  let b := hdr_bytes mg md op pl ++ payload in
  km_magic b = mg /\ km_module b = md /\ km_opcode b = op /\ km_payload_len b = pl /\ km_payload b = payload.
Proof.
  intros H1 H2 H3 H4 b. unfold b, hdr_bytes.
  assert (E1 : le_val (le_bytes 4 mg) = mg) by (rewrite le_val_bytes; apply Z.mod_small; lia).
  assert (E2 : le_val (le_bytes 2 md) = md) by (rewrite le_val_bytes; apply Z.mod_small; lia).
  assert (E3 : le_val (le_bytes 2 op) = op) by (rewrite le_val_bytes; apply Z.mod_small; lia).
  assert (E4 : le_val (le_bytes 4 pl) = pl) by (rewrite le_val_bytes; apply Z.mod_small; lia).
  unfold km_magic, km_module, km_opcode, km_payload_len, km_payload. by split_and!.
Qed.

(** (roundtrip): a kmsg built from a format and matching arguments of at
    most [KMSG_MAX_PAYLOAD] encoded bytes either fails cleanly (NULL, heap
    exhausted) or yields a payload of count 1 such that a message carrying it
    is accepted by [kmsg_from_msg], with the module, opcode and payload
    length that were given and a payload that decodes to the arguments. *)
Theorem kmsg_roundtrip st module opcode fmt ap
    (Ha : args_ok fmt ap) (Hmax : Z.of_nat (length (wire fmt ap)) <= KMSG_MAX_PAYLOAD)
    (Hmod : 0 <= module < 2 ^ 16) (Hop : 0 <= opcode < 2 ^ 16) :
  exists p st', kmsg_create custom_free st module opcode (Some fmt) ap = Some (p, st') /\
    (p = NULL \/
     exists d, datas st' !! p = Some d /\ md_refcount d = 1 /\
       forall m x, m <> NULL -> msg_data x = p ->
         (exists b, kmsg_from_msg (set_msg m x st') m = Some b /\
            km_module b = module /\ km_opcode b = opcode /\
            km_payload_len b = Z.of_nat (length (wire fmt ap)) /\
            exists os, ipc_serial_decode (Some (km_payload b)) (km_payload_len b) (Some fmt)
                         (replicate (length ap) true) = Some (REND_SUCCESS, os) /\
              Forall2 (out_matches (km_payload b)) ap os)).
Proof.
  set (n := length (wire fmt ap)) in *. unfold KMSG_MAX_PAYLOAD, PAGE_SIZE in Hmax.
  assert (Hf : fits fmt ap) by (unfold fits; fold n; lia).
  unfold kmsg_create. rewrite (measure_wire fmt ap Ha Hf). fold n.
  change (negb (REND_SUCCESS =? REND_SUCCESS)) with false. cbn iota.
  unfold KMSG_MAX_PAYLOAD, PAGE_SIZE. destruct (Z.ltb_spec 4096 (Z.of_nat n)); [lia|].
  change (u32 (SIZE_MAX - km_hdr_sz)) with 4294967283. destruct (Z.ltb_spec 4294967283 (Z.of_nat n)); [lia|].
  destruct (k_alloc st (km_hdr_sz + Z.of_nat n)) as [km st1]. destruct (Z.eqb_spec km NULL) as [|Hkm].
  { eexists _, _. split; [done|by left]. }
  pose proof (encode_into_wire fmt ap (replicate n 0) Ha Hf) as He. rewrite length_replicate in He.
  rewrite Nat2Z.id. rewrite He by done. change (negb (REND_SUCCESS =? REND_SUCCESS)) with false. cbn iota.
  set (b := hdr_bytes _ _ _ _ ++ wire fmt ap). unfold create_message_data, k_alloc. cbn [heap set_buf].
  destruct (m_alloc (heap st1) sizeof_Msg_Data) as [p a2]. destruct (Z.eqb_spec p NULL) as [|Hp].
  { eexists _, _. split; [done|by left]. }
  destruct (Z.ltb_spec 0 (km_hdr_sz + Z.of_nat n)); [|unfold km_hdr_sz in *; lia].
  destruct (Z.eqb_spec km NULL); [done|]. cbn [andb negb].
  eexists p, _. split; [done|]. right. eexists. split; [apply lookup_insert_eq|]. split; [done|].
  intros m x Hm Hx. exists b.
  destruct (hdr_fields KMSG_MAGIC module opcode (Z.of_nat n) (wire fmt ap)) as (F1 & F2 & F3 & F4 & F5);
    [by split|done|done|lia|]. fold b in F1, F2, F3, F4, F5.
  destruct (decode_wire fmt ap Ha Hf) as (os & Hd & Hos).
  split.
  - unfold kmsg_from_msg. destruct (Z.eqb_spec m NULL); [done|]. cbn [set_msg set_data set_buf msgs datas bufs].
    rewrite lookup_insert_eq. cbn [mbind option_bind]. rewrite Hx. destruct (Z.eqb_spec p NULL); [done|].
    rewrite lookup_insert_eq. cbn [mbind option_bind msg_type md_data data_len].
    rewrite Z.eqb_refl. destruct (Z.eqb_spec km NULL); [done|].
    destruct (Z.ltb_spec (km_hdr_sz + Z.of_nat n) km_hdr_sz); [lia|]. cbn [negb orb].
    rewrite lookup_insert_eq. cbn [mbind option_bind]. rewrite F1, F4.
    change (KMSG_MAGIC =? KMSG_MAGIC) with true. cbn [negb].
    rewrite u32_small by lia. rewrite (proj2 (Z.eqb_eq _ _)) by lia. done.
  - split; [done|]. split; [done|]. split; [done|]. rewrite F4, F5. by exists os.
Qed.
End Properties.

(** ** Concrete runs *)

Definition no_free (_ _ : Z) (st : mstate bump) : Z * mstate bump := (REND_SUCCESS, st).
Definition demo_ms : mstate bump := mk_ms (mk_bump 65536 8) ∅ ∅ ∅ [].

Lemma kmsg_roundtrip_witness :
  args_ok demo_fmt demo_args /\
  exists p st', kmsg_create no_free demo_ms 3 9 (Some demo_fmt) demo_args = Some (p, st') /\ p <> NULL /\
    exists b, kmsg_from_msg (set_msg 4096 (mk_message 1 p NULL) st') 4096 = Some b /\ km_module b = 3 /\ km_opcode b = 9.
Proof.
  split; [exact demo_args_ok|].
  destruct (kmsg_roundtrip no_free demo_ms 3 9 demo_fmt demo_args demo_args_ok
    ltac:(vm_compute; discriminate) ltac:(lia) ltac:(lia)) as (p & st' & Hk & Hc).
  assert (Hp : p <> NULL).
  { vm_compute in Hk. injection Hk as Hp _. rewrite <- Hp. discriminate. }
  exists p, st'. split; [exact Hk|]. split; [exact Hp|].
  destruct Hc as [E|(d & _ & _ & Hb)]; [contradiction|].
  destruct (Hb 4096 (mk_message 1 p NULL) ltac:(discriminate) eq_refl) as (b & H1 & H2 & H3 & _).
  exists b. split; [exact H1|]. split; [exact H2|exact H3].
Defined.

Definition demo_data : Msg_Data_t := mk_msgdata 1 MSG_DATA_TAG_KMSG 16 8192 FN_free_msgdata_ref_default.
Definition demo_shared : mstate bump :=
  mk_ms (mk_bump 65536 8) {[4096 := demo_data]} {[12288 := mk_message 1 4096 NULL]} ∅ [].

Lemma create_message_with_msg_refs_witness :
  let '(m, st') := create_message_with_msg demo_shared 4096 in
  m = 65536 /\ datas st' !! 4096 = Some (set_rc demo_data 2).
Proof.
  pose proof (create_message_with_msg_refs demo_shared 4096 demo_data ltac:(discriminate) eq_refl
    ltac:(cbn; lia)) as H.
  destruct (create_message_with_msg demo_shared 4096) as [m st'] eqn:E. destruct H as [_ H].
  destruct (H ltac:(cbn; lia)) as (H1 & _ & _). split; [|exact H1].
  assert (Em : fst (create_message_with_msg demo_shared 4096) = m) by (rewrite E; reflexivity).
  rewrite <- Em. vm_compute. reflexivity.
Defined.

Lemma free_message_releases_payload_witness :
  let '(e, st') := free_message_ref_real no_free demo_shared 12288 in
  e = REND_SUCCESS /\ freed_ptrs st' = [8192; 4096; 12288].
Proof.
  pose proof (free_message_releases_payload no_free demo_shared 12288 (mk_message 1 4096 NULL) demo_data
    ltac:(discriminate) eq_refl ltac:(discriminate) eq_refl eq_refl ltac:(cbn; lia)) as H.
  destruct (free_message_ref_real no_free demo_shared 12288) as [e st'].
  destruct H as (H1 & _ & H2 & _). split; [exact H1|]. apply H2. reflexivity.
Defined.

(** with an empty heap the payload keeps the extra reference *)
Example create_message_leaks_reference :
  let st := mk_ms (mk_bump 65536 0) {[4096 := demo_data]} ∅ ∅ [] in
  fst (create_message_with_msg st 4096) = NULL /\
  datas (snd (create_message_with_msg st 4096)) !! 4096 = Some (set_rc demo_data 2).
Proof. vm_compute. split; reflexivity. Qed.
