(* ===== verification/Asid.v ===== *)
(** * Identifier allocators

    [include/common/dsa/bitmap.h], [kernel/mm/asid.c] and [kernel/task/id.c]:
    the fixed-cell bitmap, the recyclable ASID allocator on top of it, and the
    monotone thread-id counter.  MCS locks are held flags. *)
From S2P Require Import Prelude Mm.

(** ** Bitmap *)

Definition BITMAP_CELL_BITS : Z := 64.
Definition BITMAP_NUM_CELLS (nb_bits : Z) : Z := ROUND_UP nb_bits BITMAP_CELL_BITS / BITMAP_CELL_BITS.

Definition bitmap_zero (b : list Z) : list Z := map (fun _ => 0) b.
Fixpoint bitmap_is_zero (b : list Z) : bool :=
  match b with [] => true | c :: b' => if negb (c =? 0) then false else bitmap_is_zero b' end.
Definition bitmap_test (b : list Z) (bit : Z) : bool :=
  negb (Z.land (b !!! Z.to_nat (bit / BITMAP_CELL_BITS)) (BIT_U64 (bit mod BITMAP_CELL_BITS)) =? 0).
Definition bitmap_set (b : list Z) (bit : Z) : list Z :=
  let _cell := Z.to_nat (bit / BITMAP_CELL_BITS) in
  <[_cell := set_mask_u64 (b !!! _cell) (BIT_U64 (bit mod BITMAP_CELL_BITS))]> b.
Definition bitmap_clear (b : list Z) (bit : Z) : list Z :=
  let _cell := Z.to_nat (bit / BITMAP_CELL_BITS) in
  <[_cell := clear_mask_u64 (b !!! _cell) (BIT_U64 (bit mod BITMAP_CELL_BITS))]> b.

(** ** ASIDs *)

Definition ASID_BITMAP_BITS : Z := u32 (U16_MAX + 1).

Record asid_state := mk_asid { asid_lock : bool; asid_max : Z; asid_bitmap : list Z }.

(** [width]: [arch_asid_supported_width()] *)
Definition asid_init (s : asid_state) (width : Z) : asid_state :=
  mk_asid false (u16 (u32 (Z.shiftl 1 width) - 1)) (bitmap_set (bitmap_zero (asid_bitmap s)) 0).

Definition asid_get_max (s : asid_state) : Z := asid_max s.

Definition lock_asid (b : bool) (s : asid_state) : asid_state := mk_asid b (asid_max s) (asid_bitmap s).
Definition set_bitmap (b : list Z) (s : asid_state) : asid_state := mk_asid (asid_lock s) (asid_max s) b.

(** [for (asid = ...; asid <= asid_max; asid++)] with [n] candidates left *)
Fixpoint asid_scan (s : asid_state) (asid : Z) (n : nat) : Z * asid_state :=
  match n with
  | O => (0, lock_asid false s)
  | S n' =>
    if negb (bitmap_test (asid_bitmap s) asid)
    then (u16 asid, lock_asid false (set_bitmap (bitmap_set (asid_bitmap s) asid) s))
    else asid_scan s (asid + 1) n'
  end.
Definition asid_alloc (s : asid_state) : Z * asid_state :=
  asid_scan (lock_asid true s) 1 (Z.to_nat (asid_max s)).

Definition asid_free (s : asid_state) (asid : Z) : asid_state :=
  if (asid =? 0) || (asid_max s <? asid) then s
  else
    let s := lock_asid true s in
    let s := set_bitmap (bitmap_clear (asid_bitmap s) asid) s in
    lock_asid false s.

(** ** Thread ids *)

Definition INVALID_ID : Z := U64_MAX.
Record Id_Manager := mk_idm { id : Z; id_locked : bool }.
Definition init_id_manager : Id_Manager := mk_idm 0 false.
Definition get_new_id (m : option Id_Manager) : Z * option Id_Manager :=
  match m with
  | None => (INVALID_ID, None)
  | Some m =>
    let i := id m in
    (i, Some (mk_idm (if negb (i =? INVALID_ID) then u64 (i + 1) else i) false))
  end.
Fixpoint get_new_ids (m : Id_Manager) (n : nat) : list Z * Id_Manager :=
  match n with
  | O => ([], m)
  | S n' =>
    match get_new_id (Some m) with
    | (i, Some m) => let '(l, m) := get_new_ids m n' in (i :: l, m)
    | (i, None) => ([i], m)
    end
  end.

(** ** Bitmap lemmas *)

Record bitmap_ok (b : list Z) (bits : Z) : Prop := {
  bo_len : Z.of_nat (length b) * 64 = bits;
  bo_cell : forall i, 0 <= b !!! i < 2 ^ 64
}.

Lemma bit_u64 i : 0 <= i < 64 -> BIT_U64 i = 2 ^ i.
Proof.
  intros Hi. unfold BIT_U64. rewrite Z.shiftl_1_l. apply (wrap_small 64). split; [lia|].
  apply Z.pow_lt_mono_r; lia.
Qed.

Lemma pow2_u64 k : 0 <= k < 64 -> 0 <= 2 ^ k < 18446744073709551616.
Proof. intros Hk. split; [lia|]. apply (Z.pow_lt_mono_r 2 k 64); lia. Qed.

Lemma test_bit b i : 0 <= i -> bitmap_test b i = Z.testbit (b !!! Z.to_nat (i / 64)) (i mod 64).
Proof.
  intros Hi. unfold bitmap_test, BITMAP_CELL_BITS. rewrite bit_u64 by dlia.
  set (c := b !!! _). set (k := i mod 64). assert (Hk : 0 <= k) by (unfold k; dlia).
  destruct (Z.testbit c k) eqn:E.
  - apply negb_true_iff, Z.eqb_neq. intros H0.
    assert (Ht : Z.testbit (Z.land c (2 ^ k)) k = true) by (rewrite Z.land_spec, E, Z.pow2_bits_true by lia; done).
    by rewrite H0, Z.bits_0 in Ht.
  - apply negb_false_iff, Z.eqb_eq. apply Z.bits_inj'. intros n Hn.
    rewrite Z.land_spec, Z.bits_0, Z.pow2_bits_eqb by lia.
    destruct (Z.eqb_spec k n) as [<-|]; [by rewrite E|apply andb_false_r].
Qed.

Lemma bitmap_update_test b bits i v j :
  bitmap_ok b bits -> 0 <= i < bits -> 0 <= j < bits ->
  (forall k, 0 <= k < 64 -> Z.testbit v k =
     if k =? i mod 64 then Z.testbit v (i mod 64) else Z.testbit (b !!! Z.to_nat (i / 64)) k) ->
  bitmap_test (<[Z.to_nat (i / 64) := v]> b) j =
    if i =? j then Z.testbit v (i mod 64) else bitmap_test b j.
Proof.
  intros [Hl Hc] Hi Hj Hv. rewrite !test_bit by lia.
  assert (Hci : 0 <= i / 64 < Z.of_nat (length b)) by dlia.
  destruct (Z.eq_dec (i / 64) (j / 64)) as [E|E].
  - rewrite <- E, insert_total_eq_Z by done. rewrite Hv by dlia.
    destruct (Z.eqb_spec (j mod 64) (i mod 64)), (Z.eqb_spec i j); try done; exfalso; dlia.
  - rewrite insert_total_ne_Z by dlia. destruct (Z.eqb_spec i j); [by subst|done].
Qed.

Lemma set_mask_bit c k n :
  0 <= c < 2 ^ 64 -> 0 <= k < 64 -> 0 <= n < 64 ->
  Z.testbit (set_mask_u64 c (BIT_U64 k)) n = if n =? k then true else Z.testbit c n.
Proof.
  intros Hc Hk Hn. unfold set_mask_u64. rewrite bit_u64, u64_small, (u64_small (2 ^ k)) by (try apply pow2_u64; lia).
  rewrite Z.lor_spec, Z.pow2_bits_eqb by lia.
  rewrite (Z.eqb_sym k). destruct (n =? k); [apply orb_true_r|apply orb_false_r].
Qed.

Lemma clear_mask_bit c k n :
  0 <= c < 2 ^ 64 -> 0 <= k < 64 -> 0 <= n < 64 ->
  Z.testbit (clear_mask_u64 c (BIT_U64 k)) n = if n =? k then false else Z.testbit c n.
Proof.
  intros Hc Hk Hn. unfold clear_mask_u64. rewrite bit_u64, u64_small by lia.
  rewrite Z.land_spec, testbit_bnot, Z.pow2_bits_eqb by lia.
  rewrite (Z.eqb_sym k). destruct (Z.ltb_spec n 64); [|lia].
  destruct (n =? k); cbn; [apply andb_false_r|by rewrite andb_true_r].
Qed.

(** ** Properties *)

Record asid_inv (s : asid_state) : Prop := {
  ai_bits : bitmap_ok (asid_bitmap s) ASID_BITMAP_BITS;
  ai_max : 1 <= asid_max s < 65536;
  ai_zero : bitmap_test (asid_bitmap s) 0 = true
}.

Lemma set_mask_range c k : 0 <= c < 2 ^ 64 -> 0 <= k < 64 -> 0 <= set_mask_u64 c (BIT_U64 k) < 2 ^ 64.
Proof.
  intros Hc Hk. unfold set_mask_u64. rewrite bit_u64, u64_small, (u64_small (2 ^ k)) by (try apply pow2_u64; lia).
  pose proof (pow2_u64 k Hk). split; [apply Z.lor_nonneg; lia|].
  destruct (decide (Z.lor c (2 ^ k) = 0)) as [->|]; [done|].
  apply Z.log2_lt_pow2; [pose proof (proj2 (Z.lor_nonneg c (2 ^ k)) ltac:(lia)); lia|].
  rewrite Z.log2_lor by lia. apply Z.max_lub_lt; [|rewrite Z.log2_pow2; lia].
  destruct (decide (c = 0)) as [->|]; [done|]. apply Z.log2_lt_pow2; lia.
Qed.

Lemma clear_mask_range c k : 0 <= c < 2 ^ 64 -> 0 <= clear_mask_u64 c (BIT_U64 k) < 2 ^ 64.
Proof. intros Hc. unfold clear_mask_u64. rewrite u64_small by lia. by apply land_range. Qed.

Lemma bitmap_insert_ok b bits i v :
  bitmap_ok b bits -> 0 <= v < 2 ^ 64 -> bitmap_ok (<[i := v]> b) bits.
Proof.
  intros [Hl Hc] Hv. split; [by rewrite length_insert|]. intros j.
  destruct (decide (i = j)) as [->|]; [|by rewrite list_lookup_total_insert_ne].
  destruct (decide (j < length b)%nat); [by rewrite list_lookup_total_insert_eq|].
  by rewrite list_insert_ge by lia.
Qed.

Lemma bitmap_set_spec b bits i :
  bitmap_ok b bits -> 0 <= i < bits ->
  bitmap_ok (bitmap_set b i) bits /\
  forall j, 0 <= j < bits -> bitmap_test (bitmap_set b i) j = if i =? j then true else bitmap_test b j.
Proof.
  intros Hb Hi. unfold bitmap_set, BITMAP_CELL_BITS.
  pose proof (bo_cell _ _ Hb (Z.to_nat (i / 64))) as Hc. assert (Hk : 0 <= i mod 64 < 64) by dlia.
  split; [apply bitmap_insert_ok; [done|by apply set_mask_range]|]. intros j Hj.
  rewrite (bitmap_update_test b bits) by
    (done || (intros k Hk'; rewrite !set_mask_bit, Z.eqb_refl by done; done)).
  by rewrite set_mask_bit, Z.eqb_refl.
Qed.

Lemma bitmap_clear_spec b bits i :
  bitmap_ok b bits -> 0 <= i < bits ->
  bitmap_ok (bitmap_clear b i) bits /\
  forall j, 0 <= j < bits -> bitmap_test (bitmap_clear b i) j = if i =? j then false else bitmap_test b j.
Proof.
  intros Hb Hi. unfold bitmap_clear, BITMAP_CELL_BITS.
  pose proof (bo_cell _ _ Hb (Z.to_nat (i / 64))) as Hc. assert (Hk : 0 <= i mod 64 < 64) by dlia.
  split; [apply bitmap_insert_ok; [done|by apply clear_mask_range]|]. intros j Hj.
  rewrite (bitmap_update_test b bits) by
    (done || (intros k Hk'; rewrite !clear_mask_bit, Z.eqb_refl by done; done)).
  by rewrite clear_mask_bit, Z.eqb_refl.
Qed.

Lemma asid_init_inv s width :
  length (asid_bitmap s) = 1024%nat -> 1 <= width <= 16 -> asid_inv (asid_init s width) /\
  asid_max (asid_init s width) = 2 ^ width - 1 /\
  forall j, 1 <= j < 65536 -> bitmap_test (asid_bitmap (asid_init s width)) j = false.
Proof.
  intros Hl Hw. unfold asid_init. cbn [asid_max asid_bitmap].
  assert (Hlk : forall i, bitmap_zero (asid_bitmap s) !!! i = if decide (i < 1024)%nat then 0 else 1).
  { intros i. unfold bitmap_zero. rewrite list_lookup_total_alt, list_lookup_fmap.
    destruct (asid_bitmap s !! i) as [x|] eqn:E.
    - apply lookup_lt_Some in E. rewrite decide_True by lia. done.
    - apply lookup_ge_None in E. rewrite decide_False by lia. done. }
  assert (Hz : bitmap_ok (bitmap_zero (asid_bitmap s)) ASID_BITMAP_BITS /\
               forall i, (i < 1024)%nat -> bitmap_zero (asid_bitmap s) !!! i = 0).
  { split; [|intros i Hi; by rewrite Hlk, decide_True].
    split; [unfold bitmap_zero; rewrite length_map, Hl; done|]. intros i. rewrite Hlk. case_decide; lia. }
  destruct Hz as [Hok H0]. destruct (bitmap_set_spec _ _ 0 Hok ltac:(done)) as [Hb Ht].
  change ASID_BITMAP_BITS with 65536 in Ht.
  assert (Hp : 2 ^ 1 <= 2 ^ width <= 2 ^ 16) by (split; apply Z.pow_le_mono_r; lia).
  assert (Hm : u16 (u32 (Z.shiftl 1 width) - 1) = 2 ^ width - 1).
  { rewrite Z.shiftl_1_l, u32_small, u16_small; lia. }
  split; [constructor; cbn [asid_max asid_bitmap]; [done|rewrite Hm; lia|rewrite Ht by done; done]|].
  split; [done|]. intros j Hj. rewrite Ht by lia. destruct (Z.eqb_spec 0 j); [lia|].
  rewrite test_bit, H0 by dlia. apply Z.bits_0.
Qed.

Lemma asid_scan_spec s n asid :
  asid_inv s -> 1 <= asid -> asid + Z.of_nat n = asid_max s + 1 ->
  let '(a, s') := asid_scan s asid n in
  asid_inv s' /\ asid_lock s' = false /\ asid_max s' = asid_max s /\
  (a = 0 /\ asid_bitmap s' = asid_bitmap s /\ (forall j, asid <= j <= asid_max s -> bitmap_test (asid_bitmap s) j = true) \/
   asid <= a <= asid_max s /\ bitmap_test (asid_bitmap s) a = false /\
   (forall j, asid <= j < a -> bitmap_test (asid_bitmap s) j = true) /\
   forall j, 0 <= j < 65536 -> bitmap_test (asid_bitmap s') j = if a =? j then true else bitmap_test (asid_bitmap s) j).
Proof.
  intros Hi. revert asid. induction n as [|n IH]; intros asid H1 Hn; cbn [asid_scan].
  - split; [by destruct Hi|]. split; [done|]. split; [done|]. left. split; [done|]. split; [done|]. intros; lia.
  - pose proof (ai_max _ Hi) as Hm. destruct (bitmap_test (asid_bitmap s) asid) eqn:Et; cbn [negb].
    + specialize (IH (asid + 1) ltac:(lia) ltac:(lia)). destruct (asid_scan s (asid + 1) n) as [a s'].
      destruct IH as (I1 & I2 & I3 & [(I4 & I5 & I6)|(I4 & I5 & I6 & I7)]); (split; [done|split; [done|split; [done|]]]).
      * left. split; [done|]. split; [done|]. intros j Hj. destruct (decide (j = asid)) as [->|]; [done|]. apply I6. lia.
      * right. split; [lia|]. split; [done|]. split; [|done]. intros j Hj.
        destruct (decide (j = asid)) as [->|]; [done|]. apply I6. lia.
    + destruct (bitmap_set_spec _ _ asid (ai_bits _ Hi)) as [Hb Ht]; [change ASID_BITMAP_BITS with 65536; lia|].
      rewrite u16_small by lia. split; [constructor; cbn [asid_max asid_bitmap set_bitmap lock_asid]; [done|done|]|].
      { rewrite Ht by done. destruct (asid =? 0); [done|apply (ai_zero _ Hi)]. }
      split; [done|]. split; [done|]. right. split; [lia|]. split; [done|]. split; [intros; lia|exact Ht].
Qed.

(** (functional): [asid_alloc] returns the lowest free id of
    [[1, asid_max]] and marks exactly that id, or returns 0 exactly when all
    are taken; [asid_free] of a legal id makes exactly that id free again and
    ignores 0 and ids above the maximum, so the next allocation after freeing
    the only free id returns it.  The lock is released on every path and id 0
    is never handed out. *)
Theorem asid_alloc_free_spec s a (Hi : asid_inv s) (Ha : 0 <= a < 65536) :
  (let '(x, s1) := asid_alloc s in
   asid_inv s1 /\ asid_lock s1 = false /\
   (x = 0 <-> forall j, 1 <= j <= asid_max s -> bitmap_test (asid_bitmap s) j = true) /\
   (x <> 0 -> 1 <= x <= asid_max s /\ bitmap_test (asid_bitmap s) x = false /\
      (forall j, 1 <= j < x -> bitmap_test (asid_bitmap s) j = true) /\
      forall j, 0 <= j < 65536 ->
        bitmap_test (asid_bitmap s1) j = if x =? j then true else bitmap_test (asid_bitmap s) j)) /\
  (let s2 := asid_free s a in
   asid_inv s2 /\
   (forall j, 0 <= j < 65536 -> bitmap_test (asid_bitmap s2) j =
      if (1 <=? a) && (a <=? asid_max s) && (a =? j) then false else bitmap_test (asid_bitmap s) j) /\
   ((forall j, 1 <= j <= asid_max s -> bitmap_test (asid_bitmap s) j = true) -> 1 <= a <= asid_max s ->
      fst (asid_alloc s2) = a)).
Proof.
  pose proof (ai_max _ Hi) as Hm.
  assert (Halloc : forall s, asid_inv s -> let '(x, s1) := asid_alloc s in _) by
    (intros s0 H0; pose proof (ai_max _ H0);
     exact (asid_scan_spec (lock_asid true s0) (Z.to_nat (asid_max s0)) 1
              ltac:(by destruct H0) ltac:(lia) ltac:(cbn; lia))).
  split.
  - specialize (Halloc s Hi). destruct (asid_alloc s) as [x s1].
    destruct Halloc as (H1 & H2 & _ & [(-> & _ & H5)|(H4 & H5 & H6 & H7)]); (split; [done|split; [done|]]).
    + by split.
    + split; [|done]. split; [lia|]. intros Hall. rewrite Hall in H5 by (cbn in H4; lia). done.
  - assert (Hfree : let s2 := asid_free s a in asid_inv s2 /\ asid_max s2 = asid_max s /\
      (forall j, 0 <= j < 65536 -> bitmap_test (asid_bitmap s2) j =
        if (1 <=? a) && (a <=? asid_max s) && (a =? j) then false else bitmap_test (asid_bitmap s) j)).
    { unfold asid_free. destruct (Z.eqb_spec a 0), (Z.ltb_spec (asid_max s) a); cbn [orb].
      1,2,3: (split; [done|split; [done|]]); intros j Hj; repeat case_bool.
      destruct (bitmap_clear_spec _ _ a (ai_bits _ Hi)) as [Hb Ht]; [done|].
      split; [constructor; cbn [asid_max asid_bitmap set_bitmap lock_asid]; [done|done|]|].
      { rewrite Ht by done. destruct (Z.eqb_spec a 0); [lia|apply (ai_zero _ Hi)]. }
      split; [done|]. cbn [asid_max asid_bitmap set_bitmap lock_asid]. intros j Hj. rewrite Ht by done.
      destruct (Z.leb_spec 1 a), (Z.leb_spec a (asid_max s)); try lia. done. }
    cbv zeta in Hfree |- *. destruct Hfree as (F1 & F2 & F3). split; [done|]. split; [done|].
    intros Hall Hr. specialize (Halloc _ F1). destruct (asid_alloc (asid_free s a)) as [x s3]. cbn [fst].
    destruct Halloc as (_ & _ & _ & [(-> & _ & H5)|(H4 & H5 & _)]).
    + specialize (H5 a). cbn [lock_asid asid_bitmap asid_max] in H5. rewrite F2, F3 in H5 by lia.
      destruct (Z.leb_spec 1 a), (Z.leb_spec a (asid_max s)); try lia. rewrite Z.eqb_refl in H5. by discriminate H5.
    + cbn [lock_asid asid_bitmap asid_max] in H4, H5. rewrite F2 in H4. rewrite F3 in H5 by lia.
      destruct (Z.eqb_spec a x); [done|]. rewrite andb_false_r in H5. by rewrite Hall in H5 by lia.
Qed.

Lemma get_new_ids_seq n m :
  0 <= id m -> id m + Z.of_nat n <= INVALID_ID ->
  fst (get_new_ids m n) = map (fun k => id m + Z.of_nat k) (seq 0 n).
Proof.
  revert m. induction n as [|n IH]; intros m H0 Hn; [done|]. cbn [get_new_ids get_new_id].
  destruct (Z.eqb_spec (id m) INVALID_ID); [lia|]. cbn [negb]. unfold INVALID_ID, U64_MAX in *.
  rewrite u64_small by lia. specialize (IH (mk_idm (id m + 1) false) ltac:(cbn; lia) ltac:(cbn; lia)).
  destruct (get_new_ids _ n) as [l m']. cbn [fst] in IH |- *. rewrite IH. cbn [seq map id].
  rewrite Z.add_0_r, <- seq_shift, map_map. f_equal. apply map_ext. intros k. lia.
Qed.

(** Thread ids are handed out in increasing order starting from
    the manager's counter: any run of requests that stays below [INVALID_ID]
    yields pairwise different ids, none of them [INVALID_ID]; once the
    counter reaches [INVALID_ID] every request returns [INVALID_ID] and the
    counter does not wrap back to used ids. *)
Theorem get_new_ids_distinct m n (H0 : 0 <= id m) (Hn : id m + Z.of_nat n <= INVALID_ID) :
  NoDup (fst (get_new_ids m n)) /\ INVALID_ID ∉ fst (get_new_ids m n) /\
  length (fst (get_new_ids m n)) = n /\
  get_new_id (Some (mk_idm INVALID_ID false)) = (INVALID_ID, Some (mk_idm INVALID_ID false)).
Proof.
  rewrite (get_new_ids_seq n m H0 Hn). split; [|split; [|split; [|done]]].
  - apply NoDup_fmap_2; [intros ???; lia|apply NoDup_seq].
  - intros Hin. apply list_elem_of_fmap in Hin as (k & Hk & Hs). apply elem_of_seq in Hs. lia.
  - by rewrite length_map, length_seq.
Qed.

Lemma get_new_ids_distinct_witness :
  NoDup (fst (get_new_ids init_id_manager 3)) /\ fst (get_new_ids init_id_manager 3) = [0; 1; 2].
Proof.
  split; [|reflexivity]. apply (get_new_ids_distinct init_id_manager 3); [reflexivity|discriminate].
Defined.

Definition demo_asid : asid_state := asid_init (mk_asid false 0 (replicate 1024 7)) 8.
Lemma demo_asid_inv : asid_inv demo_asid.
Proof. by apply asid_init_inv. Qed.

Lemma asid_alloc_free_spec_witness :
  asid_inv demo_asid /\ asid_inv (asid_free demo_asid 3) /\ fst (asid_alloc demo_asid) = 1.
Proof.
  destruct (asid_alloc_free_spec demo_asid 3 demo_asid_inv ltac:(lia)) as [_ [H _]].
  split; [exact demo_asid_inv|]. split; [exact H|]. vm_compute. reflexivity.
Defined.
