(* ===== verification/SpinLock.v ===== *)
(** * Spin locks

    [include/rendezvos/sync/spin_lock.h] (MCS queue lock) and
    [include/rendezvos/sync/cas_lock.h] (test-and-set lock), as transition
    systems whose steps are the code's individual accesses to shared memory.
    CPU [c]'s waiter node is numbered [c]; each CPU uses its own node. *)
From S2P Require Import Prelude.

(** ** MCS lock *)

(** where a CPU is in [lock_mcs], [trylock_mcs] or [unlock_mcs] *)
Inductive mcs_pc :=
| POut            (* not using the lock *)
| PLockX          (* lock: before the exchange *)
| PLockLink (t : nat) (* lock: before [tail->next = me] *)
| PLockSpin       (* lock: [while (!me->spin)] *)
| PTryX           (* trylock: before the compare-and-swap *)
| PHeld           (* the lock is held *)
| PUnl            (* unlock: before reading [me->next] *)
| PUnlCas         (* unlock: before the compare-and-swap *)
| PUnlWait        (* unlock: [while (!me->next)] *)
| PUnlHand.       (* unlock: before [me->next->spin = 1] *)
#[export] Instance mcs_pc_eq_dec : EqDecision mcs_pc.
Proof. solve_decision. Defined.

(** [mtail]: the lock word; [nnext], [nspin]: the fields of the waiter nodes *)
Record mcs := mk_mcs {
  mtail : option nat;
  nnext : nat -> option nat;
  nspin : nat -> bool;
  mpc : nat -> mcs_pc
}.

Definition mcs_start : mcs := mk_mcs None (fun _ => None) (fun _ => false) (fun _ => POut).

Definition goto (c : nat) (p : mcs_pc) (s : mcs) : mcs :=
  mk_mcs (mtail s) (nnext s) (nspin s) (<[c := p]> (mpc s)).

(** entering the functions; both initialise the node *)
Definition init_node (c : nat) (s : mcs) : mcs :=
  mk_mcs (mtail s) (<[c := None]> (nnext s)) (<[c := false]> (nspin s)) (mpc s).
Definition call_lock_mcs (c : nat) (s : mcs) : mcs := goto c PLockX (init_node c s).
Definition call_trylock_mcs (c : nat) (s : mcs) : mcs := goto c PTryX (init_node c s).
Definition call_unlock_mcs (c : nat) (s : mcs) : mcs := goto c PUnl s.

(** the next access of CPU [c] inside [lock_mcs] *)
Definition lock_mcs_step (c : nat) (s : mcs) : mcs :=
  match mpc s c with
  | PLockX =>
    let s' := mk_mcs (Some c) (nnext s) (nspin s) (mpc s) in
    match mtail s with None => goto c PHeld s' | Some t => goto c (PLockLink t) s' end
  | PLockLink t => goto c PLockSpin (mk_mcs (mtail s) (<[t := Some c]> (nnext s)) (nspin s) (mpc s))
  | PLockSpin => if nspin s c then goto c PHeld s else s
  | _ => s
  end.

(** [trylock_mcs]: 0 when acquired, 1 when busy *)
Definition trylock_mcs_step (c : nat) (s : mcs) : mcs * option Z :=
  match mpc s c with
  | PTryX =>
    match mtail s with
    | None => (goto c PHeld (mk_mcs (Some c) (nnext s) (nspin s) (mpc s)), Some 0)
    | Some _ => (goto c POut s, Some 1)
    end
  | _ => (s, None)
  end.

Definition unlock_mcs_step (c : nat) (s : mcs) : mcs :=
  match mpc s c with
  | PUnl => match nnext s c with None => goto c PUnlCas s | Some _ => goto c PUnlHand s end
  | PUnlCas =>
    if decide (mtail s = Some c)
    then goto c POut (mk_mcs None (nnext s) (nspin s) (mpc s))
    else goto c PUnlWait s
  | PUnlWait => match nnext s c with None => s | Some _ => goto c PUnlHand s end
  | PUnlHand =>
    match nnext s c with
    | Some n => goto c POut (mk_mcs (mtail s) (nnext s) (<[n := true]> (nspin s)) (mpc s))
    | None => s
    end
  | _ => s
  end.

Inductive mcs_step : mcs -> mcs -> Prop :=
| ms_call_lock c s : mpc s c = POut -> mcs_step s (call_lock_mcs c s)
| ms_call_trylock c s : mpc s c = POut -> mcs_step s (call_trylock_mcs c s)
| ms_call_unlock c s : mpc s c = PHeld -> mcs_step s (call_unlock_mcs c s)
| ms_lock c s : mcs_step s (lock_mcs_step c s)
| ms_trylock c s : mcs_step s (fst (trylock_mcs_step c s))
| ms_unlock c s : mcs_step s (unlock_mcs_step c s).

Definition owner (p : mcs_pc) : Prop :=
  p = PHeld \/ p = PUnl \/ p = PUnlCas \/ p = PUnlWait \/ p = PUnlHand.
Definition queued (p : mcs_pc) : Prop := owner p \/ (exists t, p = PLockLink t) \/ p = PLockSpin.

(** ** Test-and-set lock *)

Definition lock_init_cas : Z := 0.
Definition atomic64_exchange (w v : Z) : Z * Z := (w, v).

Inductive cas_pc := COut | CSpin | CHeld.
#[export] Instance cas_pc_eq_dec : EqDecision cas_pc.
Proof. solve_decision. Defined.
Record caslock := mk_cas { cword : Z; cpc : nat -> cas_pc }.

(** one exchange of [lock_cas]; it leaves the loop when the old value is not 1 *)
Definition lock_cas_step (c : nat) (s : caslock) : caslock :=
  match cpc s c with
  | CSpin =>
    let '(old, w) := atomic64_exchange (cword s) 1 in
    mk_cas w (<[c := if old =? 1 then CSpin else CHeld]> (cpc s))
  | _ => s
  end.
Definition trylock_cas (c : nat) (s : caslock) : Z * caslock :=
  let '(old, w) := atomic64_exchange (cword s) 1 in
  (old, mk_cas w (<[c := if old =? 0 then CHeld else COut]> (cpc s))).
Definition unlock_cas (c : nat) (s : caslock) : caslock := mk_cas 0 (<[c := COut]> (cpc s)).

Inductive cas_step : caslock -> caslock -> Prop :=
| cs_call c s : cpc s c = COut -> cas_step s (mk_cas (cword s) (<[c := CSpin]> (cpc s)))
| cs_lock c s : cas_step s (lock_cas_step c s)
| cs_try c s : cpc s c = COut -> cas_step s (snd (trylock_cas c s))
| cs_unlock c s : cpc s c = CHeld -> cas_step s (unlock_cas c s).

Definition cas_start : caslock := mk_cas lock_init_cas (fun _ => COut).

(** ** The MCS queue *)

(** [b] stands right behind [a]: not linked yet, or linked and spinning *)
Definition waits_behind (s : mcs) (a b : nat) : Prop :=
  (mpc s b = PLockLink a /\ nspin s b = false /\ nnext s a = None) \/
  (mpc s b = PLockSpin /\ nspin s b = false /\ nnext s a = Some b).

Fixpoint chain_ok (s : mcs) (a : nat) (q : list nat) : Prop :=
  match q with
  | [] => nnext s a = None /\ mtail s = Some a
  | b :: q' => waits_behind s a b /\ chain_ok s b q'
  end.

Definition head_ok (s : mcs) (h : nat) : Prop :=
  owner (mpc s h) \/ (mpc s h = PLockSpin /\ nspin s h = true).

Definition queue_ok (s : mcs) (q : list nat) : Prop :=
  match q with
  | [] => mtail s = None
  | h :: q' => head_ok s h /\ chain_ok s h q' /\
      (mpc s h = PUnlWait -> q' <> []) /\ (mpc s h = PUnlHand -> nnext s h <> None)
  end.

Record mcs_inv (s : mcs) (q : list nat) : Prop := {
  mi_nodup : NoDup q;
  mi_queued : forall c, queued (mpc s c) <-> c ∈ q;
  mi_queue : queue_ok s q;
  mi_fresh : forall c, mpc s c = PLockX \/ mpc s c = PTryX -> nnext s c = None /\ nspin s c = false
}.

Lemma chain_ok_frame s s' a q :
  mtail s' = mtail s -> (forall x, x ∈ q -> mpc s' x = mpc s x /\ nspin s' x = nspin s x) ->
  (forall x, x = a \/ x ∈ q -> nnext s' x = nnext s x) -> chain_ok s a q -> chain_ok s' a q.
Proof.
  intros Ht. revert a. induction q as [|b q IH]; intros a Hp Hn; cbn [chain_ok].
  - rewrite Ht, (Hn a) by (by left). done.
  - intros [Hw Hc]. destruct (Hp b ltac:(left)) as [E1 E2]. split.
    + unfold waits_behind in *. by rewrite E1, E2, (Hn a) by (by left).
    + apply IH; [|intros x [->|Hx]|done].
      * intros x Hx. apply Hp. by right.
      * apply Hn. right. left.
      * apply Hn. right. by right.
Qed.

Lemma queue_ok_frame s s' q :
  mtail s' = mtail s ->
  (forall x, x ∈ q -> mpc s' x = mpc s x /\ nspin s' x = nspin s x /\ nnext s' x = nnext s x) ->
  queue_ok s q -> queue_ok s' q.
Proof.
  intros Ht Hf. destruct q as [|h q]; cbn [queue_ok]; [congruence|].
  destruct (Hf h ltac:(left)) as (E1 & E2 & E3). unfold head_ok. rewrite E1, E2, E3.
  intros (H1 & H2 & H3). split; [done|]. split; [|done].
  apply (chain_ok_frame s); [done| | |done].
  - intros x Hx. destruct (Hf x ltac:(by right)) as (? & ? & ?). done.
  - intros x [->|Hx]; [done|]. by destruct (Hf x ltac:(by right)) as (? & ? & ?).
Qed.

Lemma chain_tail s a q : chain_ok s a q -> exists t, mtail s = Some t /\ nnext s t = None /\ (t = a \/ t ∈ q).
Proof.
  revert a. induction q as [|b q IH]; intros a; cbn [chain_ok].
  - intros [H1 H2]. exists a. split; [done|]. split; [done|]. by left.
  - intros [_ Hc]. destruct (IH b Hc) as (t & H1 & H2 & [->|Ht]); eexists; (split; [done|]); (split; [done|]); right; [left|by right].
Qed.

(** every queued CPU but the first is linking or spinning with its flag clear *)
Lemma chain_waiters s a q x : chain_ok s a q -> x ∈ q ->
  nspin s x = false /\ ((exists t, mpc s x = PLockLink t) \/ mpc s x = PLockSpin).
Proof.
  revert a. induction q as [|b q IH]; intros a; cbn [chain_ok]; [by intros _ ?%elem_of_nil|].
  intros [Hw Hc] [->|Hx]%elem_of_cons; [|by apply (IH b)].
  destruct Hw as [(H1 & H2 & _)|(H1 & H2 & _)]; (split; [done|]); [left; by eexists|by right].
Qed.

Lemma owner_not_waiter p t : owner p -> p <> PLockLink t /\ p <> PLockSpin.
Proof. unfold owner. intros [->|[->|[->|[->| ->]]]]; done. Qed.

Lemma owner_is_head s q c : mcs_inv s q -> owner (mpc s c) -> exists q', q = c :: q'.
Proof.
  intros Hi Ho. assert (Hc : c ∈ q) by (apply (mi_queued _ _ Hi); by left).
  destruct q as [|h q]; [by apply elem_of_nil in Hc|]. apply elem_of_cons in Hc as [->|Hc]; [by eexists|].
  destruct (mi_queue _ _ Hi) as (_ & Hch & _).
  destruct (chain_waiters _ _ _ _ Hch Hc) as [_ [[t Ht]|Ht]]; destruct (owner_not_waiter (mpc s c) 0 Ho); [|done].
  by destruct (owner_not_waiter (mpc s c) t Ho).
Qed.

(** ** Step by step *)

(** a step that moves only the program counter of [c] *)
Lemma goto_pc c p s x : mpc (goto c p s) x = if decide (c = x) then p else mpc s x.
Proof. done. Qed.

Lemma goto_queued c p s (q : list nat) :
  (forall x, queued (mpc s x) <-> x ∈ q) -> (queued p <-> c ∈ q) ->
  forall x, queued (mpc (goto c p s) x) <-> x ∈ q.
Proof. intros Hq Hp x. rewrite goto_pc. by destruct (decide (c = x)) as [<-|]. Qed.

Lemma not_queued_out s q c : mcs_inv s q -> ~ queued (mpc s c) -> c ∉ q.
Proof. intros Hi Hn Hc. by apply Hn, (mi_queued _ _ Hi). Qed.

Ltac pc_cases :=
  unfold queued, owner, not in *; intros; repeat match goal with
  | H : _ \/ _ |- _ => destruct H
  | H : exists _, _ |- _ => destruct H
  end; congruence.

(** the CPU is outside the queue before and after *)
Lemma outside_inv s q c p s' :
  mcs_inv s q -> ~ queued (mpc s c) -> ~ queued p -> mtail s' = mtail s ->
  (forall x, x <> c -> mpc s' x = mpc s x /\ nspin s' x = nspin s x /\ nnext s' x = nnext s x) ->
  mpc s' c = p -> (p = PLockX \/ p = PTryX -> nnext s' c = None /\ nspin s' c = false) -> mcs_inv s' q.
Proof.
  intros Hi Hn Hp Ht Hf Hc Hfr. pose proof (not_queued_out s q c Hi Hn) as Hout. constructor.
  - apply (mi_nodup _ _ Hi).
  - intros x. destruct (decide (x = c)) as [->|Hne].
    + rewrite Hc. by split.
    + rewrite (proj1 (Hf x Hne)). apply (mi_queued _ _ Hi).
  - apply (queue_ok_frame s); [done| |apply (mi_queue _ _ Hi)]. intros x Hx. apply Hf. by intros ->.
  - intros x. destruct (decide (x = c)) as [->|Hne]; [rewrite Hc; exact Hfr|].
    destruct (Hf x Hne) as (-> & -> & ->). apply (mi_fresh _ _ Hi).
Qed.

(** joining the queue at its tail *)
Lemma chain_ok_append s s' a q c t :
  chain_ok s a q -> mtail s = Some t -> c <> a -> c ∉ q -> NoDup (a :: q) ->
  mtail s' = Some c -> mpc s' c = PLockLink t -> nspin s' c = false -> nnext s' c = None ->
  (forall x, x <> c -> mpc s' x = mpc s x /\ nspin s' x = nspin s x /\ nnext s' x = nnext s x) ->
  chain_ok s' a (q ++ [c]).
Proof.
  intros Hc Ht Hne Hni Hnd Ht' Hp Hs Hn Hf. revert a Hc Hne Hnd.
  induction q as [|b q IH]; intros a; cbn [chain_ok app].
  - intros [H1 H2] Hne _. assert (a = t) as -> by congruence. destruct (Hf t ltac:(done)) as (_ & _ & E).
    split; [|done]. left. by rewrite E.
  - intros [Hw Hch] Hne [_ Hnd]%list.NoDup_cons. destruct (Hf b ltac:(set_solver)) as (E1 & E2 & _).
    destruct (Hf a ltac:(done)) as (_ & _ & E3).
    split; [unfold waits_behind in *; by rewrite E1, E2, E3|]. apply IH; [set_solver|done|set_solver|done].
Qed.

Lemma exchange_inv s q c :
  mcs_inv s q -> mpc s c = PLockX \/ mpc s c = PTryX ->
  (mtail s = None -> q = [] /\ mcs_inv (goto c PHeld (mk_mcs (Some c) (nnext s) (nspin s) (mpc s))) [c]) /\
  (forall t, mtail s = Some t ->
     mcs_inv (goto c (PLockLink t) (mk_mcs (Some c) (nnext s) (nspin s) (mpc s))) (q ++ [c])).
Proof.
  intros Hi Hpc. pose proof (mi_fresh _ _ Hi c Hpc) as [Hnx Hsp].
  assert (Hc : c ∉ q) by (apply (not_queued_out s q c Hi); pc_cases).
  pose proof (mi_queue _ _ Hi) as Hq. split.
  - intros Ht. assert (q = []) as ->.
    { destruct q as [|h q]; [done|]. destruct Hq as (_ & Hch & _).
      destruct (chain_tail _ _ _ Hch) as (t & Ht' & _). congruence. }
    split; [done|]. constructor.
    + apply NoDup_singleton.
    + intros x. rewrite goto_pc, list_elem_of_singleton. destruct (decide (c = x)) as [->|Hne].
      * split; [done|]. intros _. left. by left.
      * cbn [mpc]. rewrite (mi_queued _ _ Hi x). split; [by intros ?%elem_of_nil|congruence].
    + cbn [queue_ok chain_ok]. unfold head_ok. rewrite goto_pc, decide_True by done.
      split; [left; by left|]. split; [done|]. by split.
    + intros x. rewrite goto_pc. destruct (decide (c = x)); [by intros [|]|apply (mi_fresh _ _ Hi)].
  - intros t Ht. destruct q as [|h q]; [cbn in Hq; congruence|]. destruct Hq as (Hh & Hch & Hw).
    set (s' := goto _ _ _).
    assert (Hf : forall x, x <> c -> mpc s' x = mpc s x /\ nspin s' x = nspin s x /\ nnext s' x = nnext s x).
    { intros x Hne. unfold s'. rewrite goto_pc, decide_False by done. done. }
    constructor.
    + apply NoDup_app. split; [apply Hi|]. split; [|apply NoDup_singleton].
      intros x Hx ->%list_elem_of_singleton. done.
    + intros x. rewrite elem_of_app, list_elem_of_singleton. unfold s'. rewrite goto_pc.
      destruct (decide (c = x)) as [->|Hne]; [split; [by right|intros _; right; left; by eexists]|].
      cbn [mpc]. rewrite (mi_queued _ _ Hi x). split; [by left|]. intros [|]; [done|congruence].
    + cbn [queue_ok app]. destruct (Hf h ltac:(set_solver)) as (E1 & E2 & E3). unfold head_ok. rewrite E1, E2, E3.
      split; [done|]. split; [|split; [|apply Hw]].
      * eapply (chain_ok_append s); [done|done|set_solver|set_solver|apply Hi|done| |done|done|exact Hf].
        unfold s'. by rewrite goto_pc, decide_True.
      * intros _. by destruct q.
    + intros x. unfold s'. rewrite goto_pc. destruct (decide (c = x)); [by intros [|]|apply (mi_fresh _ _ Hi)].
Qed.

(** a linking CPU points at a CPU of the queue *)
Lemma link_target s b q c t : chain_ok s b q -> c ∈ q -> mpc s c = PLockLink t -> t ∈ b :: q.
Proof.
  intros Hch Hc Hp. revert b Hch. induction q as [|d q IH]; intros b; [by apply elem_of_nil in Hc|].
  intros [Hw Hch]. apply elem_of_cons in Hc as [<-|Hc].
  - destruct Hw as [(H1 & _)|(H1 & _)]; [|congruence]. assert (t = b) as -> by congruence. left.
  - right. by apply IH.
Qed.

(** [tail->next = me] *)
Lemma chain_ok_link s a q c t :
  chain_ok s a q -> c ∈ q -> mpc s c = PLockLink t -> NoDup (a :: q) ->
  chain_ok (goto c PLockSpin (mk_mcs (mtail s) (<[t := Some c]> (nnext s)) (nspin s) (mpc s))) a q.
Proof.
  intros Hch Hc Hp. revert a Hch. induction q as [|b q IH]; intros a; [by apply elem_of_nil in Hc|].
  cbn [chain_ok]. intros [Hw Hch] Hnd. apply list.NoDup_cons in Hnd as [Ha Hnd].
  apply elem_of_cons in Hc as [<-|Hc].
  - destruct Hw as [(H1 & H2 & H3)|(H1 & _)]; [|congruence].
    assert (t = a) as -> by congruence. split.
    + right. rewrite goto_pc, decide_True by done. split; [done|]. split; [done|]. cbn. by rewrite fn_insert_same.
    + apply (chain_ok_frame s); [done| | |done].
      * intros x Hx. apply list.NoDup_cons in Hnd as [Hnb _]. rewrite goto_pc, decide_False; [done|]. by intros <-.
      * intros x Hx. cbn. rewrite fn_insert_other; [done|]. set_solver.
  - assert (Hb : b <> c) by (apply list.NoDup_cons in Hnd; set_solver).
    assert (Hta : t <> a) by (intros ->; by apply Ha, (link_target s b q c)).
    split; [|by apply IH]. unfold waits_behind in *. rewrite goto_pc, decide_False by done. cbn.
    rewrite fn_insert_other by done. done.
Qed.

(** a step of [c] inside the queue that changes only its program counter *)
Lemma goto_inv s q c p :
  mcs_inv s q -> queued (mpc s c) -> queued p -> p <> PLockX -> p <> PTryX ->
  (forall q', q = c :: q' -> owner p /\ (p = PUnlWait -> q' <> []) /\ (p = PUnlHand -> nnext s c <> None)) ->
  (exists q', q = c :: q') ->
  mcs_inv (goto c p s) q.
Proof.
  intros Hi Hq Hp Hn1 Hn2 Hhd (q' & ->). destruct (Hhd q' eq_refl) as (H1 & H2 & H3).
  pose proof (mi_nodup _ _ Hi) as Hnd. apply list.NoDup_cons in Hnd as [Hc Hnd].
  destruct (mi_queue _ _ Hi) as (_ & Hch & _). constructor.
  - apply Hi.
  - apply goto_queued; [apply (mi_queued _ _ Hi)|]. split; [left|done].
  - cbn [queue_ok]. unfold head_ok. rewrite goto_pc, decide_True by done. split; [by left|]. split; [|done].
    apply (chain_ok_frame s); [done| |done|done]. intros x Hx. rewrite goto_pc, decide_False; [done|]. by intros <-.
  - intros x. rewrite goto_pc. destruct (decide (c = x)); [by intros [|]|apply (mi_fresh _ _ Hi)].
Qed.

Lemma head_of_spin s q c : mcs_inv s q -> mpc s c = PLockSpin -> nspin s c = true -> exists q', q = c :: q'.
Proof.
  intros Hi Hp Hs. assert (Hc : c ∈ q) by (apply (mi_queued _ _ Hi); right; by right).
  destruct q as [|h q]; [by apply elem_of_nil in Hc|]. apply elem_of_cons in Hc as [->|Hc]; [by eexists|].
  destruct (mi_queue _ _ Hi) as (_ & Hch & _). destruct (chain_waiters _ _ _ _ Hch Hc). congruence.
Qed.

Lemma link_inv s q c t :
  mcs_inv s q -> mpc s c = PLockLink t ->
  mcs_inv (goto c PLockSpin (mk_mcs (mtail s) (<[t := Some c]> (nnext s)) (nspin s) (mpc s))) q.
Proof.
  intros Hi Hp. set (s' := goto _ _ _).
  assert (Hc : c ∈ q) by (apply (mi_queued _ _ Hi); right; left; by eexists).
  pose proof (mi_queue _ _ Hi) as Hq. destruct q as [|h q]; [by apply elem_of_nil in Hc|].
  destruct Hq as (Hh & Hch & H2 & H3).
  assert (Hhc : c <> h).
  { intros <-. destruct Hh as [Ho|[Hs _]]; [|congruence]. by destruct (owner_not_waiter _ t Ho). }
  apply elem_of_cons in Hc as [|Hc]; [done|]. constructor.
  - apply Hi.
  - apply (goto_queued c PLockSpin (mk_mcs _ _ _ _)); [apply (mi_queued _ _ Hi)|].
    split; [intros _; by right|intros _; right; by right].
  - cbn [queue_ok]. split; [|split; [|split]].
    + unfold head_ok, s'. rewrite goto_pc, decide_False by done. done.
    + by apply chain_ok_link; [..|apply Hi].
    + unfold s'. rewrite goto_pc, decide_False by done. done.
    + unfold s'. rewrite goto_pc, decide_False by done. cbn. rewrite fn_insert_case. case_decide; [done|]. apply H3.
  - intros x Hx. unfold s' in Hx. rewrite goto_pc in Hx. destruct (decide (c = x)) as [<-|]; [by destruct Hx|].
    cbn. rewrite fn_insert_other; [by apply (mi_fresh _ _ Hi)|].
    intros ->. pose proof (link_target s h q c x Hch Hc Hp) as Ht.
    apply (mi_queued _ _ Hi) in Ht. cbn in Hx. clear -Ht Hx. pc_cases.
Qed.

Lemma unlock_empty_inv s c q' :
  mcs_inv s (c :: q') -> mtail s = Some c -> mpc s c = PUnlCas ->
  q' = [] /\ mcs_inv (goto c POut (mk_mcs None (nnext s) (nspin s) (mpc s))) [].
Proof.
  intros Hi Ht Hp. pose proof (mi_nodup _ _ Hi) as Hnd. apply list.NoDup_cons in Hnd as [Hc _].
  destruct (mi_queue _ _ Hi) as (_ & Hch & _).
  assert (q' = []) as ->.
  { destruct q' as [|b q]; [done|]. destruct Hch as [_ Hch].
    destruct (chain_tail _ _ _ Hch) as (t & Ht' & _ & Hin). exfalso. apply Hc.
    assert (t = c) as -> by congruence. destruct Hin as [->|]; [left|by right]. }
  split; [done|]. constructor.
  - apply NoDup_nil_2.
  - intros x. rewrite goto_pc. destruct (decide (c = x)) as [<-|Hne].
    + split; [pc_cases|by intros ?%elem_of_nil].
    + cbn [mpc]. rewrite (mi_queued _ _ Hi x). split; [|by intros ?%elem_of_nil].
      intros ->%list_elem_of_singleton. done.
  - done.
  - intros x. rewrite goto_pc. destruct (decide (c = x)); [by intros [|]|apply (mi_fresh _ _ Hi)].
Qed.

Lemma hand_over_inv s c q' n :
  mcs_inv s (c :: q') -> mpc s c = PUnlHand -> nnext s c = Some n ->
  mcs_inv (goto c POut (mk_mcs (mtail s) (nnext s) (<[n := true]> (nspin s)) (mpc s))) q'.
Proof.
  intros Hi Hp Hn. pose proof (mi_nodup _ _ Hi) as Hnd. apply list.NoDup_cons in Hnd as [Hc Hnd].
  destruct (mi_queue _ _ Hi) as (_ & Hch & _). destruct q' as [|b q]; [cbn in Hch; destruct Hch; congruence|].
  destruct Hch as [[(_ & _ & E)|(Hb & _ & E)] Hch]; [congruence|]. assert (b = n) as -> by congruence.
  apply list.NoDup_cons in Hnd as [Hnq Hnd]. set (s' := goto _ _ _).
  assert (Hcn : c <> n) by (intros ->; apply Hc; left). constructor.
  - by apply list.NoDup_cons.
  - intros x. unfold s'. rewrite goto_pc. destruct (decide (c = x)) as [<-|Hne].
    + split; [pc_cases|done].
    + cbn [mpc]. rewrite (mi_queued _ _ Hi x). rewrite (elem_of_cons _ x c). split; [intros [|]; [congruence|done]|by right].
  - cbn [queue_ok]. unfold head_ok, s'. rewrite !goto_pc, !decide_False by done. cbn [mpc nspin].
    rewrite Hb. split; [right; split; [done|]; cbn; by rewrite fn_insert_same|].
    split; [|by split].
    apply (chain_ok_frame s); [done| |done|done]. intros x Hx. rewrite goto_pc, decide_False; [|set_solver].
    split; [done|]. cbn. rewrite fn_insert_other; [done|]. by intros <-.
  - intros x. unfold s'. rewrite goto_pc. destruct (decide (c = x)); [by intros [|]|].
    intros Hx. cbn in Hx |- *. rewrite fn_insert_other; [by apply (mi_fresh _ _ Hi)|].
    intros <-. rewrite Hb in Hx. by destruct Hx.
Qed.

(** how one step changes the queue: not at all, one CPU joins at the tail, or
    the head leaves *)
Definition queue_move (q q' : list nat) : Prop :=
  q' = q \/ (exists c, q' = q ++ [c]) \/ exists c, q = c :: q'.

Lemma lock_step_inv s q c : mcs_inv s q -> exists q', mcs_inv (lock_mcs_step c s) q' /\ queue_move q q'.
Proof.
  intros Hi. unfold lock_mcs_step, queue_move. destruct (mpc s c) as [| |t| | | | | | |] eqn:Hp;
    try (exists q; split; [done|by left]).
  - destruct (exchange_inv s q c Hi ltac:(by left)) as [H1 H2]. destruct (mtail s) as [t|] eqn:Ht.
    + exists (q ++ [c]). split; [by apply H2|]. right. left. by eexists.
    + destruct (H1 eq_refl) as [-> H3]. exists [c]. split; [done|]. right. left. by exists c.
  - exists q. split; [by apply link_inv|by left].
  - destruct (nspin s c) eqn:Hs; [|exists q; split; [done|by left]].
    destruct (head_of_spin s q c Hi Hp Hs) as (q' & ->). exists (c :: q'). split; [|by left].
    apply goto_inv; try done; [rewrite Hp; right; by right|left; by left| |by eexists].
    intros q2 [= <-]. split; [by left|done].
Qed.

Lemma unlock_step_inv s q c : mcs_inv s q -> exists q', mcs_inv (unlock_mcs_step c s) q' /\ queue_move q q'.
Proof.
  intros Hi. unfold unlock_mcs_step, queue_move. destruct (mpc s c) as [| |t| | | | | | |] eqn:Hp;
    try (exists q; split; [done|by left]).
  all: destruct (owner_is_head s q c Hi ltac:(rewrite Hp; unfold owner; auto 8)) as (q1 & ->).
  all: assert (Hown : queued (mpc s c)) by (left; rewrite Hp; unfold owner; auto 8).
  - destruct (nnext s c) as [n|] eqn:Hn; exists (c :: q1); (split; [|by left]).
    + apply goto_inv; try done; [left; unfold owner; auto 8| |by eexists].
      intros q2 [= <-]. split; [unfold owner; auto 8|]. split; [done|congruence].
    + apply goto_inv; try done; [left; unfold owner; auto 8| |by eexists].
      intros q2 [= <-]. split; [unfold owner; auto 8|done].
  - case_decide as Ht.
    + destruct (unlock_empty_inv s c q1 Hi Ht Hp) as [-> H1]. exists []. split; [done|]. right. right. by eexists.
    + exists (c :: q1). split; [|by left]. apply goto_inv; try done; [left; unfold owner; auto 8| |by eexists].
      intros q2 [= <-]. split; [unfold owner; auto 8|]. split; [|done]. intros _ ->.
      destruct (mi_queue _ _ Hi) as (_ & [_ ?] & _). done.
  - destruct (nnext s c) as [n|] eqn:Hn; exists (c :: q1); (split; [|by left]); [|done].
    apply goto_inv; try done; [left; unfold owner; auto 8| |by eexists].
    intros q2 [= <-]. split; [unfold owner; auto 8|]. split; [done|congruence].
  - destruct (nnext s c) as [n|] eqn:Hn; [|exists (c :: q1); split; [done|by left]].
    exists q1. split; [by apply hand_over_inv|]. right. right. by eexists.
Qed.

(** the start of [lock_mcs] and [trylock_mcs] *)
Lemma call_inv s q c p :
  mcs_inv s q -> ~ queued (mpc s c) -> p = PLockX \/ p = PTryX -> mcs_inv (goto c p (init_node c s)) q.
Proof.
  intros Hi Hn Hp. apply (outside_inv s q c p); [done|done|pc_cases|done| | |].
  - intros x Hne. unfold init_node. rewrite goto_pc, decide_False by done. cbn. by rewrite !fn_insert_other by done.
  - by rewrite goto_pc, decide_True.
  - intros _. cbn. by rewrite !fn_insert_same.
Qed.

Lemma mcs_step_inv s q s' : mcs_inv s q -> mcs_step s s' -> exists q', mcs_inv s' q' /\ queue_move q q'.
Proof.
  intros Hi Hs. destruct Hs as [c s Hp|c s Hp|c s Hp|c s|c s|c s].
  - exists q. split; [|by left]. by apply call_inv; [|rewrite Hp; pc_cases|left].
  - exists q. split; [|by left]. by apply call_inv; [|rewrite Hp; pc_cases|right].
  - destruct (owner_is_head s q c Hi ltac:(rewrite Hp; unfold owner; auto 8)) as (q1 & ->).
    exists (c :: q1). split; [|by left].
    apply goto_inv; try done; [left; rewrite Hp; unfold owner; auto 8|left; unfold owner; auto 8| |by eexists].
    intros q2 [= <-]. split; [unfold owner; auto 8|done].
  - by apply lock_step_inv.
  - unfold trylock_mcs_step. destruct (mpc s c) eqn:Hp; try (exists q; split; [done|by left]).
    destruct (mtail s) as [t|] eqn:Ht; cbn [fst].
    + exists q. split; [|by left]. eapply (outside_inv s q c POut); try done; try (rewrite Hp; pc_cases); try pc_cases.
      * intros x Hne. by rewrite goto_pc, decide_False.
      * by rewrite goto_pc, decide_True.
    + destruct (exchange_inv s q c Hi ltac:(by right)) as [H1 _]. destruct (H1 Ht) as [-> H3].
      exists [c]. split; [done|]. right. left. by exists c.
  - by apply unlock_step_inv.
Qed.

Lemma mcs_start_inv : mcs_inv mcs_start [].
Proof.
  constructor; try done; [apply NoDup_nil_2|]. intros c. split; [cbn; pc_cases|by intros ?%elem_of_nil].
Qed.

Lemma mcs_reach_inv s : rtc mcs_step mcs_start s -> exists q, mcs_inv s q.
Proof.
  intros Hr. assert (H0 : exists q, mcs_inv mcs_start q) by (exists []; apply mcs_start_inv).
  revert H0. induction Hr as [s|s s1 s2 Hs _ IH]; [done|]. intros (q & Hq). apply IH.
  destruct (mcs_step_inv _ _ _ Hq Hs) as (q' & Hq' & _). by exists q'.
Qed.


(** (liveness): the MCS lock never deadlocks: in every reachable state in
    which some CPU waits for, holds or releases the lock, some CPU holds it or
    can take a step that moves it forward; in particular a releaser waiting
    for its successor's link always has a successor about to write it. *)
Theorem mcs_no_deadlock s (Hr : rtc mcs_step mcs_start s) (Hq : exists c, queued (mpc s c)) :
  exists c, mpc s c = PHeld \/ mpc (lock_mcs_step c s) c <> mpc s c \/ mpc (unlock_mcs_step c s) c <> mpc s c.
Proof.
  destruct (mcs_reach_inv s Hr) as (q & Hi). destruct Hq as (c0 & Hc0). apply (mi_queued _ _ Hi) in Hc0.
  destruct q as [|h q]; [by apply elem_of_nil in Hc0|].
  destruct (mi_queue _ _ Hi) as (Hh & Hch & H2 & H3).
  destruct Hh as [[E|[E|[E|[E|E]]]]|[E Es]].
  - exists h. by left.
  - exists h. right. right. unfold unlock_mcs_step. rewrite E. destruct (nnext s h); by rewrite goto_pc, decide_True.
  - exists h. right. right. unfold unlock_mcs_step. rewrite E. case_decide; by rewrite goto_pc, decide_True.
  - destruct q as [|b q]; [by destruct (H2 E)|]. destruct Hch as [[(Hb & _ & _)|(_ & _ & Hn)] _].
    + exists b. right. left. unfold lock_mcs_step. rewrite Hb. by rewrite goto_pc, decide_True.
    + exists h. right. right. unfold unlock_mcs_step. rewrite E, Hn. by rewrite goto_pc, decide_True.
  - exists h. right. right. unfold unlock_mcs_step. rewrite E. specialize (H3 E).
    destruct (nnext s h); [|done]. by rewrite goto_pc, decide_True.
  - exists h. right. left. unfold lock_mcs_step. rewrite E, Es. by rewrite goto_pc, decide_True.
Qed.

(** CPU 0 takes the free lock, CPU 1 queues behind it *)
Definition mcs_demo : mcs :=
  lock_mcs_step 1 (lock_mcs_step 1 (call_lock_mcs 1 (lock_mcs_step 0 (call_lock_mcs 0 mcs_start)))).

Lemma mcs_demo_reach : rtc mcs_step mcs_start mcs_demo.
Proof.
  unfold mcs_demo. eapply rtc_l; [apply (ms_call_lock 0); reflexivity|].
  eapply rtc_l; [apply (ms_lock 0)|]. eapply rtc_l; [apply (ms_call_lock 1); reflexivity|].
  eapply rtc_l; [apply (ms_lock 1)|]. eapply rtc_l; [apply (ms_lock 1)|]. apply rtc_refl.
Qed.


Lemma mcs_no_deadlock_witness :
  exists c, mpc mcs_demo c = PHeld \/ mpc (lock_mcs_step c mcs_demo) c <> mpc mcs_demo c \/
            mpc (unlock_mcs_step c mcs_demo) c <> mpc mcs_demo c.
Proof.
  apply (mcs_no_deadlock mcs_demo mcs_demo_reach). exists 1%nat. right. right. reflexivity.
Defined.

(** ** The test-and-set lock *)

Record cas_inv (s : caslock) : Prop := {
  ci_word : cword s = 0 \/ cword s = 1;
  ci_free : cword s = 0 -> forall c, cpc s c <> CHeld;
  ci_one : forall c1 c2, cpc s c1 = CHeld -> cpc s c2 = CHeld -> c1 = c2
}.

(** taking the lock when it was free, leaving everything else alone *)
Lemma cas_update_inv s c w p :
  cas_inv s -> w = 0 \/ w = 1 ->
  (p = CHeld -> cword s = 0 /\ w = 1) -> (p <> CHeld -> w = 0 -> cword s = 0 \/ cpc s c = CHeld) ->
  cas_inv (mk_cas w (<[c := p]> (cpc s))).
Proof.
  intros [Hw Hf Ho] Hw' H1 H2. constructor; cbn [cword cpc]; [done| |].
  - intros E x. rewrite fn_insert_case. destruct (decide (c = x)) as [<-|Hne].
    + intros ->. destruct (H1 eq_refl). lia.
    + intros Hx. destruct (decide (p = CHeld)) as [->|Hp]; [destruct (H1 eq_refl); lia|].
      destruct (H2 Hp E) as [E'|Hc]; [by apply (Hf E' x)|]. by apply Hne, Ho.
  - intros c1 c2. rewrite !fn_insert_case. repeat case_decide; subst; try done.
    + intros Hp Hc2. destruct (H1 Hp) as [E _]. by destruct (Hf E c2).
    + intros Hc1 Hp. destruct (H1 Hp) as [E _]. by destruct (Hf E c1).
    + apply Ho.
Qed.

Lemma cas_step_inv s s' : cas_inv s -> cas_step s s' -> cas_inv s'.
Proof.
  intros Hi Hs. pose proof (ci_word _ Hi) as Hw. destruct Hs as [c s Hp|c s|c s Hp|c s Hp].
  - apply cas_update_inv; [done|done|done|]. intros _ E. by left.
  - unfold lock_cas_step. destruct (cpc s c) eqn:Hp; [done| |done]. cbn.
    apply cas_update_inv; [done|by right| |done]. destruct (Z.eqb_spec (cword s) 1); [done|]. intros _. lia.
  - cbn. apply cas_update_inv; [done|by right| |done]. destruct (Z.eqb_spec (cword s) 0); done.
  - apply cas_update_inv; [done|by left|done|]. intros _ _. by right.
Qed.

(** The test-and-set lock: under every interleaving of
    [lock_cas], [trylock_cas] and [unlock_cas] at most one CPU holds the lock,
    the word is 0 or 1, and it is 1 whenever some CPU holds the lock. *)
Theorem cas_mutual_exclusion s (Hr : rtc cas_step cas_start s) :
  (forall c1 c2, cpc s c1 = CHeld -> cpc s c2 = CHeld -> c1 = c2) /\
  ((exists c, cpc s c = CHeld) -> cword s = 1) /\ (cword s = 0 \/ cword s = 1).
Proof.
  assert (H0 : cas_inv cas_start) by (constructor; [by left|done|done]).
  assert (Hi : cas_inv s).
  { revert H0. induction Hr as [s|s s1 s2 Hs _ IH]; [done|]. intros Hi. apply IH. by eapply cas_step_inv. }
  split; [apply Hi|]. split; [|apply Hi]. intros [c Hc]. destruct (ci_word _ Hi) as [E|E]; [|done].
  by destruct (ci_free _ Hi E c).
Qed.

Definition cas_demo : caslock := snd (trylock_cas 0 cas_start).
Lemma cas_mutual_exclusion_witness : cpc cas_demo 0%nat = CHeld /\ cword cas_demo = 1.
Proof.
  assert (Hr : rtc cas_step cas_start cas_demo) by (apply rtc_once, (cs_try 0); reflexivity).
  split; [reflexivity|]. apply (cas_mutual_exclusion cas_demo Hr). exists 0%nat. reflexivity.
Defined.
