(* ===== verification/MsQueue.v ===== *)
(** * Michael-Scott queue

    [include/common/dsa/ms_queue.h] as a transition system: every access to
    shared memory (a load or store of [head], [tail] or [next], a
    compare-and-swap, an operation on a node's count) is one step of one CPU,
    and steps of all CPUs interleave freely.  The loop bodies of the plain and
    of the checking operations differ only in the tag they write and in the
    test they make; [None] in an operation is the plain one.  A node address
    is used for one node only: what keeps a reclaimed address from coming
    back while a CPU still looks at it is Ebr. *)
From S2P Require Import Prelude TaggedPtr Refcount.

Record ms_queue_node := mk_node { nref : ref_count_t; nnext : Z }.
Record ms_queue := mk_queue { qhead : Z; qtail : Z; append_info_bits : Z }.

(** [e_check]: append info and expected tail; [deq_op]: field mask and
    expected head *)
Record enq_op := mk_enq { e_new : Z; e_check : option (Z * Z) }.
Definition deq_op : Type := option (Z * Z).

(** where a CPU is; the words are its local [tail], [head], [next], [tmp] *)
Inductive msq_pc :=
| QIdle
| EnqStore (o : enq_op)                      (* new_node->next = 0 *)
| EnqLoop (o : enq_op)                       (* tail = q->tail *)
| EnqGet (o : enq_op) (tail : Z)             (* ref_get_not_zero(tail_node) *)
| EnqNext (o : enq_op) (tail : Z)            (* next = tail_node->next *)
| EnqVal (o : enq_op) (tail next : Z)        (* cas(q->tail, tail, tail) *)
| EnqGetNew (o : enq_op) (tail next : Z)     (* ref_get_not_zero(new_node) *)
| EnqLink (o : enq_op) (tail next : Z)       (* cas(tail_node->next, next, tmp) *)
| EnqSwing (o : enq_op) (tail tmp : Z)       (* cas(q->tail, tail, tmp) *)
| EnqPutNew (o : enq_op) (tail : Z)          (* ref_put(new_node, NULL) *)
| EnqHelp (o : enq_op) (tail tmp : Z)        (* cas(q->tail, tail, tmp) *)
| EnqPut (o : enq_op) (tail : Z) (ret : option Z) (* ref_put(tail_node); return or loop *)
| EnqDone (r : Z)
| DeqLoop (o : deq_op)                       (* head = q->head *)
| DeqGet (o : deq_op) (head : Z)             (* ref_get_not_zero(head_node) *)
| DeqRead1 (o : deq_op) (head : Z)           (* tail = q->tail; checking: next = head_node->next *)
| DeqRead2 (o : deq_op) (head x : Z)         (* the other of the two *)
| DeqVal (o : deq_op) (head tail next : Z)   (* cas(q->head, head, head) *)
| DeqHelp (o : deq_op) (head tail tmp : Z)   (* cas(q->tail, tail, tmp) *)
| DeqGetNext (o : deq_op) (head tail next : Z) (* ref_get_not_zero(next_node) *)
| DeqSwing (o : deq_op) (head tail next : Z) (* cas(q->head, head, tmp) *)
| DeqPutNext (o : deq_op) (head next : Z)    (* ref_put(next_node) *)
| DeqPut (o : deq_op) (head : Z) (ret : bool)  (* ref_put(head_node); return none or loop *)
| DeqPutOk (o : deq_op) (head tail next : Z) (* ref_put(head_node) after the swing *)
| DeqRetag (o : deq_op) (tail next : Z)      (* cas(q->tail, tail, tmp) *)
| DeqDone (res : Z).

(** [links]: all nodes ever linked, dummy first; [taken]: nodes dequeued, in
    order; [crefs]: references owned by the callers; [freed]: nodes whose
    [free_func] ran.  These four are ghost. *)
Record msq_world := mk_world {
  node : Z -> ms_queue_node;
  queue : ms_queue;
  cpus : list msq_pc;
  links : list Z;
  taken : list Z;
  crefs : Z -> Z;
  freed_nodes : list Z
}.

(** ** Field updates *)
Definition goto (c : nat) (p : msq_pc) (w : msq_world) : msq_world :=
  mk_world (node w) (queue w) (<[c := p]> (cpus w)) (links w) (taken w) (crefs w) (freed_nodes w).
Definition set_node (a : Z) (n : ms_queue_node) (w : msq_world) : msq_world :=
  mk_world (<[a := n]> (node w)) (queue w) (cpus w) (links w) (taken w) (crefs w) (freed_nodes w).
Definition set_queue (q : ms_queue) (w : msq_world) : msq_world :=
  mk_world (node w) q (cpus w) (links w) (taken w) (crefs w) (freed_nodes w).
Definition set_tail (t : Z) (w : msq_world) : msq_world :=
  set_queue (mk_queue (qhead (queue w)) t (append_info_bits (queue w))) w.
Definition set_head (h : Z) (w : msq_world) : msq_world :=
  set_queue (mk_queue h (qtail (queue w)) (append_info_bits (queue w))) w.
Definition note_link (a : Z) (w : msq_world) : msq_world :=
  mk_world (node w) (queue w) (cpus w) (links w ++ [a]) (taken w) (crefs w) (freed_nodes w).
Definition note_taken (a : Z) (w : msq_world) : msq_world :=
  mk_world (node w) (queue w) (cpus w) (links w) (taken w ++ [a]) (crefs w) (freed_nodes w).
Definition add_cref (a d : Z) (w : msq_world) : msq_world :=
  mk_world (node w) (queue w) (cpus w) (links w) (taken w) (<[a := crefs w a + d]> (crefs w)) (freed_nodes w).
Definition note_freed (a : Z) (w : msq_world) : msq_world :=
  mk_world (node w) (queue w) (cpus w) (links w) (taken w) (crefs w) (a :: freed_nodes w).

Definition node_get (a : Z) (w : msq_world) : bool * msq_world :=
  let '(ok, r) := ref_get_not_zero (nref (node w a)) in (ok, set_node a (mk_node r (nnext (node w a))) w).
Definition node_put (a : Z) (free_func : option Z) (w : msq_world) : msq_world :=
  let '(r, dead) := ref_put (nref (node w a)) free_func in
  let w := set_node a (mk_node r (nnext (node w a))) w in
  if dead then note_freed a w else w.
(** every operation is given a [free_func] here *)
Definition free_func : option Z := Some 0.

(** ** Enqueue *)

Definition enq_tag (bits : Z) (o : enq_op) (tail : Z) : Z :=
  match e_check o with
  | None => tp_get_tag tail + 1
  | Some (append_info, _) => msq_next_tag bits (tp_get_tag tail) append_info
  end.
Definition help_tag {A} (bits : Z) (check : option A) (tail next : Z) : Z :=
  match check with
  | None => tp_get_tag tail + 1
  | Some _ => msq_next_tag bits (tp_get_tag tail) (tp_get_tag next)
  end.
Definition enq_check (bits : Z) (o : enq_op) (tail : Z) : bool :=
  match e_check o with
  | None => true
  | Some (_, expect_tp) => msq_queue_check_tp tail MSQ_CHECK_FIELD_APPEND expect_tp (msq_append_info_mask bits)
  end.

(** the next access of CPU [c] inside an enqueue *)
Definition enq_step (c : nat) (w : msq_world) : msq_world :=
  let bits := append_info_bits (queue w) in
  match cpus w !! c with
  | Some (EnqStore o) => goto c (EnqLoop o) (set_node (e_new o) (mk_node (nref (node w (e_new o))) 0) w)
  | Some (EnqLoop o) =>
    let tail := qtail (queue w) in
    if tp_get_ptr tail =? 0 then w else goto c (EnqGet o tail) w
  | Some (EnqGet o tail) =>
    let '(ok, w) := node_get (tp_get_ptr tail) w in
    goto c (if ok : bool then EnqNext o tail else EnqLoop o) w
  | Some (EnqNext o tail) => goto c (EnqVal o tail (nnext (node w (tp_get_ptr tail)))) w
  | Some (EnqVal o tail next) =>
    let '(prev, t) := atomic64_cas (qtail (queue w)) tail tail in
    let w := set_tail t w in
    if prev =? tail then
      if negb (enq_check bits o tail) then goto c (EnqPut o tail (Some (- E_REND_AGAIN))) w
      else if tp_get_ptr next =? 0 then goto c (EnqGetNew o tail next) w
      else goto c (EnqHelp o tail (tp_new (tp_get_ptr next) (help_tag bits (e_check o) tail next))) w
    else goto c (EnqPut o tail None) w
  | Some (EnqGetNew o tail next) =>
    let '(ok, w) := node_get (e_new o) w in
    if (ok : bool) then goto c (EnqLink o tail next) w
    else goto c (EnqPut o tail (match e_check o with None => None | Some _ => Some (- E_REND_AGAIN) end)) w
  | Some (EnqLink o tail next) =>
    let tmp := tp_new (e_new o) (enq_tag bits o tail) in
    let a := tp_get_ptr tail in
    let '(prev, x) := atomic64_cas (nnext (node w a)) next tmp in
    let w := set_node a (mk_node (nref (node w a)) x) w in
    if prev =? next then goto c (EnqSwing o tail tmp) (note_link (e_new o) w)
    else goto c (EnqPutNew o tail) w
  | Some (EnqSwing o tail tmp) =>
    goto c (EnqPut o tail (Some REND_SUCCESS)) (set_tail (snd (atomic64_cas (qtail (queue w)) tail tmp)) w)
  | Some (EnqPutNew o tail) => goto c (EnqPut o tail None) (node_put (e_new o) None w)
  | Some (EnqHelp o tail tmp) =>
    goto c (EnqPut o tail None) (set_tail (snd (atomic64_cas (qtail (queue w)) tail tmp)) w)
  | Some (EnqPut o tail ret) =>
    goto c (match ret with Some r => EnqDone r | None => EnqLoop o end) (node_put (tp_get_ptr tail) free_func w)
  | _ => w
  end.

(** ** Dequeue *)

Definition deq_check (bits : Z) (o : deq_op) (next : Z) : bool :=
  match o with
  | None => true
  | Some (check_field_mask, expect_tp) => msq_queue_check_tp next check_field_mask expect_tp (msq_append_info_mask bits)
  end.

(** the next access of CPU [c] inside a dequeue *)
Definition deq_step (c : nat) (w : msq_world) : msq_world :=
  let bits := append_info_bits (queue w) in
  match cpus w !! c with
  | Some (DeqLoop o) =>
    let head := qhead (queue w) in
    if tp_get_ptr head =? 0 then w else goto c (DeqGet o head) w
  | Some (DeqGet o head) =>
    let '(ok, w) := node_get (tp_get_ptr head) w in
    goto c (if ok : bool then DeqRead1 o head else DeqLoop o) w
  | Some (DeqRead1 o head) =>
    goto c (DeqRead2 o head (match o with None => qtail (queue w) | Some _ => nnext (node w (tp_get_ptr head)) end)) w
  | Some (DeqRead2 o head x) =>
    goto c (match o with
            | None => DeqVal o head x (nnext (node w (tp_get_ptr head)))
            | Some _ => DeqVal o head (qtail (queue w)) x
            end) w
  | Some (DeqVal o head tail next) =>
    let '(prev, h) := atomic64_cas (qhead (queue w)) head head in
    let w := set_head h w in
    if prev =? head then
      if tp_get_ptr head =? tp_get_ptr tail then
        if tp_get_ptr next =? 0 then goto c (DeqPut o head true) w
        else goto c (DeqHelp o head tail (tp_new (tp_get_ptr next) (help_tag bits o tail next))) w
      else if negb (deq_check bits o next) then goto c (DeqPut o head true) w
      else if tp_get_ptr next =? 0 then goto c (DeqPut o head false) w
      else goto c (DeqGetNext o head tail next) w
    else goto c (DeqPut o head false) w
  | Some (DeqHelp o head tail tmp) =>
    goto c (DeqPut o head false) (set_tail (snd (atomic64_cas (qtail (queue w)) tail tmp)) w)
  | Some (DeqGetNext o head tail next) =>
    let '(ok, w) := node_get (tp_get_ptr next) w in
    goto c (if ok : bool then DeqSwing o head tail next else DeqPut o head false) w
  | Some (DeqSwing o head tail next) =>
    let tmp := tp_new (tp_get_ptr next) (help_tag bits o tail next) in
    let '(prev, h) := atomic64_cas (qhead (queue w)) head tmp in
    let w := set_head h w in
    if prev =? head then goto c (DeqPutOk o head tail next) (note_taken (tp_get_ptr next) w)
    else goto c (DeqPutNext o head next) w
  | Some (DeqPutNext o head next) => goto c (DeqPut o head false) (node_put (tp_get_ptr next) free_func w)
  | Some (DeqPut o head ret) =>
    goto c (if ret then DeqDone tp_new_none else DeqLoop o) (node_put (tp_get_ptr head) free_func w)
  | Some (DeqPutOk o head tail next) =>
    let w := node_put (tp_get_ptr head) free_func w in
    match o with
    | Some _ =>
      if tp_get_ptr next =? tp_get_ptr tail then goto c (DeqRetag o tail next) w
      else goto c (DeqDone next) (add_cref (tp_get_ptr next) 1 w)
    | None => goto c (DeqDone next) (add_cref (tp_get_ptr next) 1 w)
    end
  | Some (DeqRetag o tail next) =>
    let tmp := tp_new (tp_get_ptr tail) (msq_next_tag bits (tp_get_tag tail) 0) in
    goto c (DeqDone next)
      (add_cref (tp_get_ptr next) 1 (set_tail (snd (atomic64_cas (qtail (queue w)) tail tmp)) w))
  | _ => w
  end.

(** ** Calls and their callers *)

(** dummy node, number of CPUs, append bits *)
Definition msq_init (dummy : Z) (ncpu : nat) (bits : Z) : msq_world :=
  let t := tp_new dummy 0 in
  mk_world (<[dummy := mk_node ref_init tp_new_none]> (fun _ => mk_node ref_init_zero 0))
    (mk_queue t t (if 16 <=? bits then 15 else bits)) (repeat QIdle ncpu) [dummy] [] (fun _ => 0) [].

Definition msq_enqueue (c : nat) (new_node : Z) (w : msq_world) : msq_world :=
  goto c (EnqStore (mk_enq new_node None)) w.
Definition msq_enqueue_check_tail (c : nat) (new_node append_info expect_tp : Z) (w : msq_world) : msq_world :=
  if append_info_bits (queue w) =? 0 then msq_enqueue c new_node w
  else goto c (EnqStore (mk_enq new_node (Some (append_info, expect_tp)))) w.
Definition msq_dequeue (c : nat) (w : msq_world) : msq_world := goto c (DeqLoop None) w.
Definition msq_dequeue_check_head (c : nat) (check_field_mask expect_tp : Z) (w : msq_world) : msq_world :=
  if (append_info_bits (queue w) =? 0) && (Z.land check_field_mask MSQ_CHECK_FIELD_PTR =? 0) then msq_dequeue c w
  else goto c (DeqLoop (Some (check_field_mask, expect_tp))) w.

(** CPU [c] runs alone until its call returns *)
Definition returned (p : option msq_pc) : bool :=
  match p with Some (EnqDone _) | Some (DeqDone _) | Some QIdle => true | _ => false end.
Fixpoint run_alone (c : nat) (fuel : nat) (w : msq_world) : msq_world :=
  match fuel with
  | O => w
  | S fuel' => if returned (cpus w !! c) then w else run_alone c fuel' (deq_step c (enq_step c w))
  end.
(** [msq_clean_queue] run by one CPU: drain, then clear head and tail *)
Fixpoint msq_clean_queue (c : nat) (zero_head_tail : bool) (fuel : nat) (w : msq_world) : msq_world :=
  match fuel with
  | O => w
  | S fuel' =>
    let w := run_alone c 64 (msq_dequeue c w) in
    match cpus w !! c with
    | Some (DeqDone r) =>
      if tp_is_none r then if zero_head_tail then set_queue (mk_queue 0 0 (append_info_bits (queue w))) w else w
      else msq_clean_queue c zero_head_tail fuel' (add_cref (tp_get_ptr r) (-1) (node_put (tp_get_ptr r) free_func w))
    | _ => w
    end
  end.

(** ** Interleaving *)

(** the node a call is about to link *)
Definition pend (p : msq_pc) : option Z :=
  match p with
  | EnqStore o | EnqLoop o | EnqGet o _ | EnqNext o _ | EnqVal o _ _ | EnqGetNew o _ _ | EnqLink o _ _
  | EnqPutNew o _ | EnqHelp o _ _ | EnqPut o _ None => Some (e_new o)
  | _ => None
  end.
Definition not_pending (w : msq_world) (a : Z) : Prop := forall c p, cpus w !! c = Some p -> pend p <> Some a.
Definition node_addr (a : Z) : Prop := canonical a /\ a <> 0.

(** callers: CPUs between two calls; a caller owns the node it enqueues and
    releases only references it owns *)
Inductive msq_step : msq_world -> msq_world -> Prop :=
| ms_enq c w : msq_step w (enq_step c w)
| ms_deq c w : msq_step w (deq_step c w)
| ms_init a x w :
    node_addr a -> a ∉ links w -> not_pending w a -> crefs w a = 0 -> a ∉ freed_nodes w ->
    msq_step w (add_cref a 1 (set_node a (mk_node ref_init x) w))
| ms_enqueue c a w :
    returned (cpus w !! c) = true -> node_addr a -> a ∉ links w -> not_pending w a -> 0 < crefs w a ->
    msq_step w (msq_enqueue c a w)
| ms_enqueue_check c a i e w :
    returned (cpus w !! c) = true -> node_addr a -> a ∉ links w -> not_pending w a -> 0 < crefs w a ->
    msq_step w (msq_enqueue_check_tail c a i e w)
| ms_dequeue c w : returned (cpus w !! c) = true -> msq_step w (msq_dequeue c w)
| ms_dequeue_check c m e w : returned (cpus w !! c) = true -> msq_step w (msq_dequeue_check_head c m e w)
| ms_put a w : 0 < crefs w a -> not_pending w a -> msq_step w (add_cref a (-1) (node_put a free_func w)).

(** ** Structure: one chain, with head and tail on it *)

Definition at_ (L : list Z) (tp : Z) (i : nat) : Prop := L !! i = Some (tp_get_ptr tp).
Definition nx (L : list Z) (i : nat) (next : Z) : Prop :=
  next = 0 \/ exists a, L !! S i = Some a /\ tp_get_ptr next = a.

(** what the words a CPU has read say about the chain; [h], [t]: positions of
    head and tail *)
Definition pc_ok (L : list Z) (h t : nat) (p : msq_pc) : Prop :=
  match p with
  | EnqGet _ tl | EnqNext _ tl | EnqPutNew _ tl | EnqPut _ tl _ => exists i, (i <= t)%nat /\ at_ L tl i
  | EnqVal _ tl n => exists i, (i <= t)%nat /\ at_ L tl i /\ nx L i n
  | EnqGetNew _ tl n | EnqLink _ tl n => exists i, (i <= t)%nat /\ at_ L tl i /\ n = 0
  | EnqSwing _ tl tmp | EnqHelp _ tl tmp => exists i, (i <= t)%nat /\ at_ L tl i /\ at_ L tmp (S i)
  | DeqGet _ hd | DeqRead1 _ hd | DeqPut _ hd _ => exists i, (i <= h)%nat /\ at_ L hd i
  | DeqRead2 o hd x => exists i, (i <= h)%nat /\ at_ L hd i /\
      match o with None => exists j, (i <= j <= t)%nat /\ at_ L x j | Some _ => nx L i x end
  | DeqVal _ hd tl n => exists i j, (i <= h)%nat /\ (i <= j <= t)%nat /\ at_ L hd i /\ at_ L tl j /\ nx L i n
  | DeqHelp _ hd tl tmp => exists i, (i <= h)%nat /\ (i <= t)%nat /\ at_ L hd i /\ at_ L tl i /\ at_ L tmp (S i)
  | DeqGetNext _ hd tl n | DeqSwing _ hd tl n =>
    exists i j, (i <= h)%nat /\ (i < j <= t)%nat /\ at_ L hd i /\ at_ L tl j /\ at_ L n (S i)
  | DeqPutNext _ hd n => exists i, (i <= h)%nat /\ at_ L hd i /\ at_ L n (S i)
  | DeqPutOk _ hd tl n => exists i j, (S i <= h)%nat /\ (j <= t)%nat /\ at_ L hd i /\ at_ L tl j /\ at_ L n (S i)
  | DeqRetag _ tl n => exists i j, (1 <= i <= h)%nat /\ (j <= t)%nat /\ at_ L n i /\ at_ L tl j
  | DeqDone r => r = 0 \/ exists i, (1 <= i <= h)%nat /\ at_ L r i
  | _ => True
  end.

Lemma at_mono L L' tp i : L `prefix_of` L' -> at_ L tp i -> at_ L' tp i.
Proof. intros [k ->] H. unfold at_. by apply lookup_app_l_Some. Qed.
Lemma nx_mono L L' i n : L `prefix_of` L' -> nx L i n -> nx L' i n.
Proof. intros [k ->] [H|(a & H & E)]; [by left|right; exists a; split; [by apply lookup_app_l_Some|done]]. Qed.

Lemma pc_ok_mono L L' h h' t t' p :
  L `prefix_of` L' -> (h <= h')%nat -> (t <= t')%nat -> pc_ok L h t p -> pc_ok L' h' t' p.
Proof.
  intros HL Hh Ht. pose proof (fun tp i => at_mono L L' tp i HL) as A. pose proof (fun i n => nx_mono L L' i n HL) as N.
  destruct p as [| | | | | | | | | | | | | | | |[]| | | | | | | | |]; cbn [pc_ok]; try done.
  all: try (intros (i & H); exists i; destruct_and?; split_and?; eauto; lia).
  all: try (intros (i & j & H); exists i, j; destruct_and?; split_and?; eauto; lia).
  - intros (i & H1 & H2 & j & H3 & H4). exists i. split; [lia|]. split; [by apply A|]. exists j. split; [lia|by apply A].
  - intros [->|(i & ? & ?)]; [by left|right]. exists i. split; [lia|by apply A].
Qed.

Record chain (h t : nat) (w : msq_world) : Prop := {
  ch_nodup : NoDup (links w);
  ch_addr : Forall node_addr (links w);
  ch_head : at_ (links w) (qhead (queue w)) h;
  ch_tail : at_ (links w) (qtail (queue w)) t;
  ch_pos : (h <= t)%nat /\ (length (links w) <= t + 2)%nat;
  ch_next : forall i a, links w !! i = Some a ->
    match links w !! S i with Some b => tp_get_ptr (nnext (node w a)) = b | None => nnext (node w a) = 0 end;
  ch_taken : taken w = take h (drop 1 (links w));
  ch_pcs : forall c p, cpus w !! c = Some p -> pc_ok (links w) h t p
}.

(** nodes whose links matter are untouched, head and tail move along the chain *)
Lemma chain_frame h t h' t' w w' c p' :
  chain h t w -> cpus w' = <[c := p']> (cpus w) -> links w' = links w -> taken w' = take h' (drop 1 (links w)) ->
  (forall a, a ∈ links w -> nnext (node w' a) = nnext (node w a)) ->
  at_ (links w) (qhead (queue w')) h' -> at_ (links w) (qtail (queue w')) t' ->
  (h <= h')%nat -> (t <= t')%nat -> (h' <= t')%nat -> pc_ok (links w) h' t' p' -> chain h' t' w'.
Proof.
  intros [C1 C2 C3 C4 C5 C6 C7 C8] Hc HL HT Hn Hh Ht L1 L2 L3 Hp. split; rewrite ?HL; try done.
  - lia.
  - intros i a Ha. rewrite Hn by by eapply list_elem_of_lookup_2. by apply C6.
  - intros c' q Hq. rewrite Hc in Hq. destruct (decide (c = c')) as [<-|Hne].
    + destruct (decide (c < length (cpus w))%nat) as [Hlt|Hlt].
      * rewrite list_lookup_insert_eq in Hq by done. by injection Hq as <-.
      * rewrite list_insert_ge in Hq by lia. eapply pc_ok_mono; [done|exact L1|exact L2|by apply (C8 c)].
    + rewrite list_lookup_insert_ne in Hq by done. eapply pc_ok_mono; [done|exact L1|exact L2|by apply (C8 c')].
Qed.

Lemma chain_goto h t w w' c p' :
  chain h t w -> cpus w' = <[c := p']> (cpus w) -> links w' = links w -> taken w' = taken w ->
  (forall a, a ∈ links w -> nnext (node w' a) = nnext (node w a)) -> queue w' = queue w ->
  pc_ok (links w) h t p' -> chain h t w'.
Proof.
  intros C H1 H2 H3 H4 H5 H6. apply (chain_frame h t h t w w' c p'); rewrite ?H5; try done; try apply C.
  by rewrite H3, (ch_taken _ _ _ C).
Qed.

Lemma chain_last h t w i : chain h t w -> (i < length (links w))%nat -> links w !! S i = None -> (i <= t)%nat -> i = t.
Proof. intros C Hi Hn Ht. apply lookup_ge_None in Hn. pose proof (lookup_lt_Some _ _ _ (ch_tail _ _ _ C)). lia. Qed.

Lemma at_inj h t w tp tp' i j : chain h t w -> at_ (links w) tp i -> at_ (links w) tp' j -> tp_get_ptr tp = tp_get_ptr tp' -> i = j.
Proof. intros C Hi Hj E. unfold at_ in *. rewrite E in Hi. by apply (NoDup_lookup _ _ _ _ (ch_nodup _ _ _ C) Hi Hj). Qed.

Lemma at_addr h t w tp i : chain h t w -> at_ (links w) tp i -> node_addr (tp_get_ptr tp) /\ tp_get_ptr tp ∈ links w.
Proof.
  intros C H. split; [by apply (Forall_lookup_1 _ _ _ _ (ch_addr _ _ _ C) H)|by eapply list_elem_of_lookup_2].
Qed.

Lemma nx_zero h t w i n : chain h t w -> nx (links w) i n -> (n = 0 <-> tp_get_ptr n = 0).
Proof.
  intros C [->|(a & Ha & E)]; [done|]. split; [by intros ->|]. intros E0. rewrite E in E0. subst a.
  by destruct (Forall_lookup_1 _ _ _ _ (ch_addr _ _ _ C) Ha).
Qed.

Lemma nx_at h t w i n : chain h t w -> nx (links w) i n -> tp_get_ptr n <> 0 -> at_ (links w) n (S i).
Proof. intros C [->|(a & Ha & <-)] Hn; [done|exact Ha]. Qed.

(** reading the link of a node of the chain *)
Lemma nx_read h t w tp i : chain h t w -> at_ (links w) tp i -> nx (links w) i (nnext (node w (tp_get_ptr tp))).
Proof.
  intros C H. pose proof (ch_next _ _ _ C i _ H) as Hn. destruct (links w !! S i) as [b|] eqn:E; [right; by exists b|by left].
Qed.

(** a compare-and-swap of the tail from a chain position to the next *)
Lemma tail_cas h t w tl tmp i :
  chain h t w -> (i <= t)%nat -> at_ (links w) tl i -> at_ (links w) tmp (S i) ->
  exists t', (t <= t')%nat /\ at_ (links w) (snd (atomic64_cas (qtail (queue w)) tl tmp)) t'.
Proof.
  intros C Hi Ha Hn. unfold atomic64_cas. cbn [snd]. destruct (Z.eqb_spec (qtail (queue w)) tl) as [E|E].
  - exists (S i). split; [|done]. rewrite <- E in Ha. assert (i = t) as -> by (by apply (at_inj h t w _ _ i t C Ha (ch_tail _ _ _ C))). lia.
  - exists t. split; [done|apply C].
Qed.

(** linking a fresh node behind the last one *)
Lemma chain_link h t w w' c p' tl i a tmp :
  chain h t w -> (i <= t)%nat -> at_ (links w) tl i -> nnext (node w (tp_get_ptr tl)) = 0 ->
  node_addr a -> a ∉ links w -> nnext (node w a) = 0 -> tp_get_ptr tmp = a ->
  cpus w' = <[c := p']> (cpus w) -> links w' = links w ++ [a] -> taken w' = taken w -> queue w' = queue w ->
  (forall x, nnext (node w' x) = if decide (tp_get_ptr tl = x) then tmp else nnext (node w x)) ->
  pc_ok (links w ++ [a]) h t p' -> chain h t w'.
Proof.
  intros C Hi Ha H0 Hg Hnew Hn0 Etmp Hc HL HT HQ HN Hp. pose proof (ch_next _ _ _ C i _ Ha) as Hnx.
  pose proof (lookup_lt_Some _ _ _ Ha) as Hlt. destruct (links w !! S i) as [b|] eqn:Eb.
  { exfalso. rewrite H0 in Hnx. pose proof (Forall_lookup_1 _ _ _ _ (ch_addr _ _ _ C) Eb) as [_ Hb]. by apply Hb. }
  assert (i = t) as -> by (by apply (chain_last h t w)). apply lookup_ge_None in Eb.
  assert (HP : links w `prefix_of` links w ++ [a]) by by exists [a].
  destruct C as [C1 C2 C3 C4 C5 C6 C7 C8]. split; rewrite ?HL, ?HQ, ?HT.
  - apply NoDup_app. split; [done|]. split; [|apply NoDup_singleton]. intros x Hx ->%list_elem_of_singleton. done.
  - apply Forall_app. split; [done|by constructor].
  - by apply (at_mono (links w)).
  - by apply (at_mono (links w)).
  - rewrite length_app. cbn. lia.
  - intros j x Hj. rewrite HN. destruct (decide (j < length (links w))%nat) as [Hjl|Hjl].
    + rewrite lookup_app_l in Hj by done. destruct (decide (tp_get_ptr tl = x)) as [<-|Hne].
      * assert (j = t) as -> by by apply (NoDup_lookup _ _ _ _ C1 Hj Ha).
        rewrite lookup_app_r by lia. replace (S t - length (links w))%nat with 0%nat by lia. done.
      * assert (S j <> length (links w)) as Hsj.
        { intros E. apply Hne. assert (j = t) as -> by lia. unfold at_ in Ha. congruence. }
        rewrite lookup_app_l by lia. by apply C6.
    + pose proof (lookup_lt_Some _ _ _ Hj) as Hl. rewrite length_app in Hl. cbn in Hl. assert (j = length (links w)) as -> by lia.
      rewrite lookup_app_r in Hj by lia. rewrite Nat.sub_diag in Hj. injection Hj as <-.
      rewrite lookup_ge_None_2 by (rewrite length_app; cbn; lia). rewrite decide_False; [done|].
      intros <-. apply Hnew. by eapply list_elem_of_lookup_2.
  - rewrite C7. destruct (links w) as [|x l] eqn:El; [cbn in Hlt; lia|]. change (drop 1 ((x :: l) ++ [a])) with (l ++ [a]).
    change (drop 1 (x :: l)) with l. rewrite take_app_le; [done|]. cbn in *. lia.
  - intros c' q Hq. rewrite Hc in Hq. destruct (decide (c = c' /\ c < length (cpus w))%nat) as [[<- Hcl]|Hne].
    + rewrite list_lookup_insert_eq in Hq by done. by injection Hq as <-.
    + assert (Hq' : cpus w !! c' = Some q).
      { destruct (decide (c = c')) as [->|]; [rewrite list_insert_ge in Hq by lia; done|by rewrite list_lookup_insert_ne in Hq]. }
      eapply pc_ok_mono; [exact HP|done|done|by apply (C8 c')].
Qed.

(** ** Counts *)

(** references a CPU holds inside a call *)
Definition holds (p : msq_pc) : list Z :=
  match p with
  | EnqNext _ tl | EnqVal _ tl _ | EnqGetNew _ tl _ | EnqSwing _ tl _ | EnqHelp _ tl _ | EnqPut _ tl _ => [tp_get_ptr tl]
  | EnqLink o tl _ | EnqPutNew o tl => [tp_get_ptr tl; e_new o]
  | DeqRead1 _ hd | DeqRead2 _ hd _ | DeqVal _ hd _ _ | DeqHelp _ hd _ _ | DeqGetNext _ hd _ _ | DeqPut _ hd _ => [tp_get_ptr hd]
  | DeqSwing _ hd _ n | DeqPutNext _ hd n | DeqPutOk _ hd _ n => [tp_get_ptr hd; tp_get_ptr n]
  | DeqRetag _ _ n => [tp_get_ptr n]
  | _ => []
  end.
Definition held_by (a : Z) (p : msq_pc) : Z := countp (Z.eqb a) (holds p).
Definition linked (w : msq_world) (a : Z) : Z := if decide (a ∈ links w) then 1 else 0.
Definition count_ok (w : msq_world) : Prop :=
  forall a, nref (node w a) = crefs w a + linked w a + sumZ (held_by a) (cpus w).

Lemma held_nonneg a p : 0 <= held_by a p.
Proof. apply countp_range. Qed.

Lemma held_cons a x l : countp (Z.eqb a) (x :: l) = (if decide (a = x) then 1 else 0) + countp (Z.eqb a) l.
Proof. cbn [countp]. destruct (decide (a = x)) as [->|]; [by rewrite Z.eqb_refl|]. by rewrite (proj2 (Z.eqb_neq a x)). Qed.

(** a step of one CPU keeps the counts exact when each count moves with the
    references *)
Lemma count_frame w w' c p p' :
  count_ok w -> cpus w !! c = Some p -> cpus w' = <[c := p']> (cpus w) ->
  (forall a, nref (node w' a) - nref (node w a) =
     (crefs w' a - crefs w a) + (linked w' a - linked w a) + (held_by a p' - held_by a p)) ->
  count_ok w'.
Proof. intros H Hc Hc' Hd a. specialize (Hd a). rewrite Hc', (sumZ_insert _ _ _ _ _ Hc), H in *. lia. Qed.

(** the whole invariant; [k] bounds the counts *)
Record msq_inv (k : Z) (w : msq_world) : Prop := {
  mi_chain : exists h t, chain h t w;
  mi_count : count_ok w;
  mi_bound : forall a, 0 <= crefs w a /\ nref (node w a) <= k;
  mi_pend : forall c p a, cpus w !! c = Some p -> pend p = Some a ->
    node_addr a /\ a ∉ links w /\ 0 < crefs w a /\ (match p with EnqStore _ => True | _ => nnext (node w a) = 0 end);
  mi_uniq : forall c c' p p' a, cpus w !! c = Some p -> cpus w !! c' = Some p' -> pend p = Some a -> pend p' = Some a -> c = c';
  mi_freed : forall a, a ∈ freed_nodes w -> a ∉ links w /\ nref (node w a) = 0
}.

Lemma count_nonneg k w a : msq_inv k w -> 0 <= nref (node w a).
Proof.
  intros I. rewrite (mi_count _ _ I). pose proof (proj1 (mi_bound _ _ I a)). unfold linked.
  assert (0 <= sumZ (held_by a) (cpus w)).
  { generalize (cpus w). induction l as [|p l IH]; cbn [sumZ]; [lia|]. pose proof (held_nonneg a p). lia. }
  case_decide; lia.
Qed.

Lemma count_held k w c p a :
  msq_inv k w -> cpus w !! c = Some p -> crefs w a + linked w a + held_by a p <= nref (node w a).
Proof. intros I Hc. rewrite (mi_count _ _ I). pose proof (sumZ_ge _ _ _ _ (held_nonneg a) Hc). lia. Qed.

Lemma count_linked k w a : msq_inv k w -> a ∈ links w -> 1 <= nref (node w a).
Proof.
  intros I Ha. rewrite (mi_count _ _ I). pose proof (proj1 (mi_bound _ _ I a)). unfold linked. rewrite decide_True by done.
  assert (0 <= sumZ (held_by a) (cpus w)); [|lia].
  generalize (cpus w). induction l as [|p l IH]; cbn [sumZ]; [lia|]. pose proof (held_nonneg a p). lia.
Qed.

Lemma node_get_ok a w :
  0 < nref (node w a) < 2 ^ 62 -> node_get a w = (true, set_node a (mk_node (nref (node w a) + 1) (nnext (node w a))) w).
Proof.
  intros H. unfold node_get, ref_get_not_zero, ref_get_try. rewrite i64_small by lia.
  destruct (Z.leb_spec (nref (node w a)) 0); [lia|]. unfold atomic64_cas. rewrite !u64_small by lia. by rewrite Z.eqb_refl.
Qed.

Lemma node_put_ok a f w :
  0 < nref (node w a) < 2 ^ 62 ->
  let w1 := set_node a (mk_node (nref (node w a) - 1) (nnext (node w a))) w in
  node_put a f w = if (nref (node w a) =? 1) && match f with Some _ => true | None => false end then note_freed a w1 else w1.
Proof. intros H. unfold node_put, ref_put. rewrite i64_small, u64_small by lia. done. Qed.

Lemma set_node_nref a n w x : nref (node (set_node a n w) x) = if decide (a = x) then nref n else nref (node w x).
Proof. unfold set_node. cbn [node]. rewrite fn_insert_case. by case_decide. Qed.
Lemma set_node_nnext a n w x : nnext (node (set_node a n w) x) = if decide (a = x) then nnext n else nnext (node w x).
Proof. unfold set_node. cbn [node]. rewrite fn_insert_case. by case_decide. Qed.

(** a call past its first store *)
Definition ready (w : msq_world) (p : msq_pc) : Prop :=
  match p with EnqStore o => nnext (node w (e_new o)) = 0 | _ => True end.

(** what a step of CPU [c] may do to the rest: everything but the chain and
    the counts *)
Record tame (w w' : msq_world) (c : nat) (p p' : msq_pc) : Prop := {
  tm_cpu : cpus w !! c = Some p /\ cpus w' = <[c := p']> (cpus w);
  tm_pend : pend p' = None \/ (pend p' = pend p /\ ready w p);
  tm_links : links w' = links w;
  tm_next : forall a, nnext (node w' a) = nnext (node w a);
  tm_ref : forall a, nref (node w' a) - nref (node w a) = (crefs w' a - crefs w a) + (held_by a p' - held_by a p);
  tm_cref : forall a, crefs w a <= crefs w' a;
  tm_bound : forall a, nref (node w' a) <= nref (node w a) + 1;
  tm_freed : freed_nodes w' = freed_nodes w;
  tm_dead : forall a, nref (node w a) = 0 -> nref (node w' a) = 0
}.

Lemma tame_inv k w w' c p p' :
  msq_inv k w -> tame w w' c p p' -> (exists h t, chain h t w') -> msq_inv (k + 1) w'.
Proof.
  intros I [[Hc Hc'] T1 T2 T3 T4 T5 T6 T7 T8] HC.
  assert (Hq : forall d q, cpus w' !! d = Some q -> (d = c /\ q = p') \/ (d <> c /\ cpus w !! d = Some q)).
  { intros d q Hd. rewrite Hc' in Hd. destruct (decide (c = d)) as [<-|Hne].
    - rewrite list_lookup_insert_eq in Hd by (by eapply lookup_lt_Some). injection Hd as <-. by left.
    - rewrite list_lookup_insert_ne in Hd by done. right. done. }
  assert (Hold : forall d q a, cpus w' !! d = Some q -> pend q = Some a -> exists q', cpus w !! d = Some q' /\ pend q' = Some a /\
      (q = q' \/ ready w q')).
  { intros d q a Hd Hp. destruct (Hq d q Hd) as [[-> ->]|[Hne Hd']].
    - destruct T1 as [T1|[T1 T1']]; [congruence|]. exists p. split; [done|]. split; [congruence|]. by right.
    - exists q. split; [done|]. split; [done|]. by left. }
  split; [done| | | | |].
  - apply (count_frame w w' c p p' (mi_count _ _ I) Hc Hc'). intros a. rewrite T4. unfold linked. rewrite T2. lia.
  - intros a. pose proof (mi_bound _ _ I a). specialize (T5 a). specialize (T6 a). lia.
  - intros d q a Hd Hp. destruct (Hold d q a Hd Hp) as (q' & Hd' & Hp' & Hst).
    destruct (mi_pend _ _ I d q' a Hd' Hp') as (P1 & P2 & P3 & P4). rewrite T2, T3. specialize (T5 a).
    split; [done|]. split; [done|]. split; [lia|].
    destruct Hst as [->|Hst]; [done|]. assert (nnext (node w a) = 0); [|by destruct q].
    destruct q'; try done. cbn in Hp', Hst. by injection Hp' as <-.
  - intros d d' q q' a Hd Hd' Hp Hp'. destruct (Hold d q a Hd Hp) as (q1 & H1 & H2 & _), (Hold d' q' a Hd' Hp') as (q2 & H3 & H4 & _).
    by apply (mi_uniq _ _ I d d' q1 q2 a).
  - intros a Ha. rewrite T7 in Ha. destruct (mi_freed _ _ I a Ha) as [F1 F2]. rewrite T2. split; [done|]. by apply T8.
Qed.

Lemma msq_inv_mono k w : msq_inv k w -> msq_inv (k + 1) w.
Proof. intros [I1 I2 I3 I4 I5 I6]. split; try done. intros a. specialize (I3 a). lia. Qed.

Lemma cas_spec cur old new : atomic64_cas cur old new = (cur, if cur =? old then new else cur).
Proof. done. Qed.

Lemma set_node_crefs a n w : crefs (set_node a n w) = crefs w.
Proof. done. Qed.

Section Steps.
Context (k : Z) (w : msq_world) (c : nat) (Hk : 0 <= k < 2 ^ 61) (I : msq_inv k w).

Lemma step_pure p p' w' :
  cpus w !! c = Some p -> cpus w' = <[c := p']> (cpus w) ->
  (forall x, nref (node w' x) = nref (node w x) /\ nnext (node w' x) = nnext (node w x)) -> links w' = links w ->
  crefs w' = crefs w -> freed_nodes w' = freed_nodes w -> holds p' = holds p ->
  (pend p' = None \/ (pend p' = pend p /\ ready w p)) ->
  (exists h t, chain h t w') -> msq_inv (k + 1) w'.
Proof.
  intros H1 H2 H3 H4 H5 H6 H7 H8 HC. apply (tame_inv k w w' c p p' I); [|done].
  split; rewrite ?H5; try done; intros a; destruct (H3 a) as [E1 E2]; rewrite ?E1, ?E2; unfold held_by; rewrite ?H7; lia.
Qed.

Lemma step_get p p' a :
  cpus w !! c = Some p -> 0 < nref (node w a) -> holds p' = holds p ++ [a] ->
  pend p' = None \/ (pend p' = pend p /\ ready w p) ->
  (exists h t, chain h t (goto c p' (snd (node_get a w)))) ->
  fst (node_get a w) = true /\ msq_inv (k + 1) (goto c p' (snd (node_get a w))).
Proof.
  intros Hc Hpos Hh Hp HC. pose proof (proj2 (mi_bound _ _ I a)) as Hb. rewrite node_get_ok in * by lia. split; [done|].
  cbn [snd] in *. apply (tame_inv k w _ c p p' I); [|done].
  split; try done; intros x; unfold goto; cbn [node crefs freed_nodes];
    rewrite ?(set_node_nref a), ?(set_node_nnext a), ?set_node_crefs; cbn [nref nnext]; unfold held_by; rewrite ?Hh, ?countp_app, ?held_cons;
    cbn [countp]; repeat case_decide; subst; lia || done.
Qed.

Lemma step_put p p' a f :
  cpus w !! c = Some p -> 2 <= nref (node w a) -> (forall x, held_by x p' = held_by x p - (if decide (x = a) then 1 else 0)) ->
  pend p' = None \/ (pend p' = pend p /\ ready w p) ->
  (exists h t, chain h t (goto c p' (node_put a f w))) -> msq_inv (k + 1) (goto c p' (node_put a f w)).
Proof.
  intros Hc Hpos Hh Hp HC. pose proof (proj2 (mi_bound _ _ I a)) as Hb. rewrite node_put_ok in * by lia.
  destruct (Z.eqb_spec (nref (node w a)) 1); [lia|]. cbn [andb] in *. apply (tame_inv k w _ c p p' I); [|done].
  split; try done; intros x; unfold goto; cbn [node crefs freed_nodes];
    rewrite ?(set_node_nref a), ?(set_node_nnext a), ?set_node_crefs; cbn [nref nnext]; rewrite ?Hh;
    repeat case_decide; subst; lia || done.
Qed.

Lemma put_nnext a f x : nnext (node (node_put a f w) x) = nnext (node w x).
Proof.
  unfold node_put. destruct (ref_put _ _) as [r []]; cbn [note_freed node]; rewrite set_node_nnext; cbn [nnext]; by case_decide; subst.
Qed.
Lemma put_same a f :
  cpus (node_put a f w) = cpus w /\ links (node_put a f w) = links w /\ taken (node_put a f w) = taken w /\
  queue (node_put a f w) = queue w /\ crefs (node_put a f w) = crefs w.
Proof. unfold node_put. by destruct (ref_put _ _) as [r []]. Qed.
Lemma get_nnext a x : nnext (node (snd (node_get a w)) x) = nnext (node w x).
Proof.
  unfold node_get. destruct (ref_get_not_zero _) as [ok r]. cbn [snd]. rewrite set_node_nnext. cbn [nnext]. by case_decide; subst.
Qed.
Lemma get_same a :
  cpus (snd (node_get a w)) = cpus w /\ links (snd (node_get a w)) = links w /\ taken (snd (node_get a w)) = taken w /\
  queue (snd (node_get a w)) = queue w.
Proof. unfold node_get. by destruct (ref_get_not_zero _) as [ok r]. Qed.

Lemma chain_put h t p' a f : chain h t w -> pc_ok (links w) h t p' -> chain h t (goto c p' (node_put a f w)).
Proof.
  intros C Hp. destruct (put_same a f) as (E1 & E2 & E3 & E4 & E5).
  apply (chain_goto h t w _ c p' C); unfold goto; cbn [cpus links taken node queue]; rewrite ?E1; try done.
  intros x _. apply put_nnext.
Qed.
Lemma chain_get h t p' a : chain h t w -> pc_ok (links w) h t p' -> chain h t (goto c p' (snd (node_get a w))).
Proof.
  intros C Hp. destruct (get_same a) as (E1 & E2 & E3 & E4).
  apply (chain_goto h t w _ c p' C); unfold goto; cbn [cpus links taken node queue]; rewrite ?E1; try done.
  intros x _. apply get_nnext.
Qed.

(** a node reached by a word on the chain *)
Lemma at_count h t tp i : chain h t w -> at_ (links w) tp i -> 1 <= nref (node w (tp_get_ptr tp)).
Proof. intros C H. by apply (count_linked k w _ I), (at_addr h t w tp i C). Qed.
Lemma at_held h t p tp i :
  chain h t w -> at_ (links w) tp i -> cpus w !! c = Some p -> tp_get_ptr tp ∈ holds p -> 2 <= nref (node w (tp_get_ptr tp)).
Proof.
  intros C H Hc Hh. pose proof (count_held k w c p (tp_get_ptr tp) I Hc) as Hb.
  pose proof (proj1 (mi_bound _ _ I (tp_get_ptr tp))). unfold linked in Hb.
  rewrite decide_True in Hb by (apply (at_addr h t w tp i C H)).
  apply list_elem_of_lookup in Hh as [j Hj]. pose proof (countp_lookup_pos (Z.eqb (tp_get_ptr tp)) (holds p) j _ Hj (Z.eqb_refl _)).
  unfold held_by in Hb. lia.
Qed.

(** what CPU [c] knows where it stands *)
Lemma here p : cpus w !! c = Some p -> exists h t, chain h t w /\ pc_ok (links w) h t p.
Proof. intros Hc. destruct (mi_chain _ _ I) as (h & t & C). exists h, t. split; [done|]. by apply (ch_pcs _ _ _ C c). Qed.

(** steps that only look, and compare-and-swaps of the tail word *)
Lemma step_look p p' q' :
  cpus w !! c = Some p -> holds p' = holds p ->
  pend p' = None \/ (pend p' = pend p /\ ready w p) ->
  (exists h t t', chain h t w /\ (t <= t')%nat /\ at_ (links w) (qhead q') h /\ at_ (links w) (qtail q') t' /\ pc_ok (links w) h t' p') ->
  msq_inv (k + 1) (goto c p' (set_queue q' w)).
Proof.
  intros Hc Hh Hp (h & t & t' & C & Ht & Qh & Qt & Hok). apply (step_pure p p'); try done. exists h, t'.
  apply (chain_frame h t h t' w _ c p' C); try done; [apply C|]. pose proof (ch_pos _ _ _ C). lia.
Qed.
Lemma queue_same : set_queue (queue w) w = w.
Proof. by destruct w. Qed.
Lemma step_local p p' :
  cpus w !! c = Some p -> holds p' = holds p ->
  pend p' = None \/ (pend p' = pend p /\ ready w p) ->
  (forall h t, chain h t w -> pc_ok (links w) h t p -> pc_ok (links w) h t p') -> msq_inv (k + 1) (goto c p' w).
Proof.
  intros Hc Hh Hp Hok. destruct (here p Hc) as (h & t & C & Hpc). rewrite <- queue_same at 1.
  apply (step_look p p'); try done. exists h, t, t. split; [done|]. split; [done|]. split; [apply C|]. split; [apply C|by apply Hok].
Qed.
End Steps.

(** [set_tail], [set_head] with the word already there *)
Lemma set_tail_cas_id w x : set_tail (snd (atomic64_cas (qtail (queue w)) x x)) w = w.
Proof. destruct w as [? [qh qt b] ? ? ? ? ?]. unfold set_tail, set_queue. cbn. destruct (Z.eqb_spec qt x); by subst. Qed.
Lemma set_head_cas_id w x : set_head (snd (atomic64_cas (qhead (queue w)) x x)) w = w.
Proof. destruct w as [? [qh qt b] ? ? ? ? ?]. unfold set_head, set_queue. cbn. destruct (Z.eqb_spec qh x); by subst. Qed.

(** ** Every step keeps the invariant *)

Lemma inv_store k w a : msq_inv k w -> a ∉ links w -> msq_inv k (set_node a (mk_node (nref (node w a)) 0) w).
Proof.
  intros I Ha. assert (Er : forall x, nref (node (set_node a (mk_node (nref (node w a)) 0) w) x) = nref (node w x)).
  { intros x. rewrite set_node_nref. by case_decide; subst. }
  destruct I as [(h & t & C) I2 I3 I4 I5 I6]. split.
  - exists h, t. destruct C as [C1 C2 C3 C4 C5 C6 C7 C8]. split; try done. intros i x Hx. rewrite set_node_nnext, decide_False; [by apply C6|].
    intros ->. apply Ha. by eapply list_elem_of_lookup_2.
  - intros x. rewrite Er. apply I2.
  - intros x. rewrite Er. apply I3.
  - intros c p x Hc Hp. destruct (I4 c p x Hc Hp) as (P1 & P2 & P3 & P4). split; [done|]. split; [done|]. split; [done|].
    destruct p; try done; rewrite set_node_nnext; by case_decide.
  - done.
  - intros x Hx. rewrite Er. by apply I6.
Qed.

Section EnqSteps.
Context (k : Z) (w : msq_world) (c : nat) (Hk : 0 <= k < 2 ^ 61) (I : msq_inv k w).

Lemma inv_EnqStore o : cpus w !! c = Some (EnqStore o) -> msq_inv (k + 1) (enq_step c w).
Proof.
  intros Hc. unfold enq_step. rewrite Hc. destruct (mi_pend _ _ I c _ _ Hc eq_refl) as (_ & Hn & _).
  apply (step_local k _ c (inv_store k w (e_new o) I Hn) (EnqStore o)); try done.
  right. split; [done|]. cbn [ready]. rewrite set_node_nnext. by rewrite decide_True.
Qed.

Lemma inv_EnqLoop o : cpus w !! c = Some (EnqLoop o) -> msq_inv (k + 1) (enq_step c w).
Proof.
  intros Hc. unfold enq_step. rewrite Hc. destruct (_ =? 0); [by apply msq_inv_mono|].
  apply (step_local k w c I (EnqLoop o)); try done; [by right|]. intros h t C _. exists t. split; [done|apply C].
Qed.

Lemma inv_EnqGet o tl : cpus w !! c = Some (EnqGet o tl) -> msq_inv (k + 1) (enq_step c w).
Proof.
  intros Hc. unfold enq_step. rewrite Hc. destruct (here k w c I _ Hc) as (h & t & C & i & Hi & Ha).
  pose proof (at_count k w I h t tl i C Ha) as Hpos.
  destruct (step_get k w c Hk I _ (EnqNext o tl) (tp_get_ptr tl) Hc) as [E H]; try done; try lia.
  - by right.
  - exists h, t. apply chain_get; [done|]. by exists i.
  - destruct (node_get (tp_get_ptr tl) w) as [ok w1]. cbn [fst snd] in *. by subst ok.
Qed.

Lemma inv_EnqNext o tl : cpus w !! c = Some (EnqNext o tl) -> msq_inv (k + 1) (enq_step c w).
Proof.
  intros Hc. unfold enq_step. rewrite Hc. apply (step_local k w c I (EnqNext o tl)); try done; [by right|].
  intros h t C (i & Hi & Ha). exists i. split; [done|]. split; [done|]. by apply (nx_read h t).
Qed.

Lemma inv_EnqVal o tl n : cpus w !! c = Some (EnqVal o tl n) -> msq_inv (k + 1) (enq_step c w).
Proof.
  intros Hc. unfold enq_step. rewrite Hc, cas_spec.
  assert (E : (if qtail (queue w) =? tl then tl else qtail (queue w)) = snd (atomic64_cas (qtail (queue w)) tl tl)) by done.
  rewrite E, set_tail_cas_id. clear E.
  assert (Hput : forall r, msq_inv (k + 1) (goto c (EnqPut o tl r) w)).
  { intros r. apply (step_local k w c I (EnqVal o tl n)); try done; [destruct r; [by left|by right]|].
    intros h t C (i & Hi & Ha & _). by exists i. }
  destruct (Z.eqb_spec (qtail (queue w)) tl) as [E|]; [|apply Hput]. destruct (negb _); [apply Hput|].
  destruct (Z.eqb_spec (tp_get_ptr n) 0) as [En|En]; (apply (step_local k w c I (EnqVal o tl n)); try done; [by right|]).
  - intros h t C (i & Hi & Ha & Hn). exists i. split; [done|]. split; [done|]. by apply (nx_zero h t w i).
  - intros h t C (i & Hi & Ha & Hn). pose proof (nx_at h t w i n C Hn En) as Hnx.
    exists i. split; [done|]. split; [done|]. unfold at_. rewrite tp_new_get_ptr; [done|].
    destruct (at_addr h t w n (S i) C Hnx) as [[? _] _]. done.
Qed.

Lemma inv_EnqGetNew o tl n : cpus w !! c = Some (EnqGetNew o tl n) -> msq_inv (k + 1) (enq_step c w).
Proof.
  intros Hc. unfold enq_step. rewrite Hc. destruct (here k w c I _ Hc) as (h & t & C & Hok).
  destruct (mi_pend _ _ I c _ _ Hc eq_refl) as (_ & _ & Hcr & _). pose proof (count_held k w c _ (e_new o) I Hc) as Hh.
  pose proof (held_nonneg (e_new o) (EnqGetNew o tl n)) as Hnn.
  destruct (step_get k w c Hk I _ (EnqLink o tl n) (e_new o) Hc) as [E H]; try done.
  - unfold linked in Hh. destruct (decide _); lia.
  - by right.
  - exists h, t. apply chain_get; [done|]. exact Hok.
  - destruct (node_get (e_new o) w) as [ok w1]. cbn [fst snd] in *. by subst ok.
Qed.

Lemma inv_EnqSwing_Help p tl tmp o r :
  (p = EnqSwing o tl tmp /\ r = Some REND_SUCCESS) \/ (p = EnqHelp o tl tmp /\ r = None) -> cpus w !! c = Some p ->
  msq_inv (k + 1) (goto c (EnqPut o tl r) (set_tail (snd (atomic64_cas (qtail (queue w)) tl tmp)) w)).
Proof.
  intros Hp Hc. apply (step_look k w c I p); try done.
  - by destruct Hp as [[-> _]|[-> _]].
  - destruct Hp as [[-> ->]|[-> ->]]; [by left|by right].
  - destruct (here k w c I _ Hc) as (h & t & C & Hok).
    assert (exists i, (i <= t)%nat /\ at_ (links w) tl i /\ at_ (links w) tmp (S i)) as (i & Hi & Ha & Hn)
      by (by destruct Hp as [[-> _]|[-> _]]).
    destruct (tail_cas h t w tl tmp i C Hi Ha Hn) as (t' & Ht & Ht'). exists h, t, t'.
    split; [done|]. split; [done|]. split; [apply C|]. split; [done|]. exists i. split; [lia|done].
Qed.

Lemma inv_EnqPutNew o tl : cpus w !! c = Some (EnqPutNew o tl) -> msq_inv (k + 1) (enq_step c w).
Proof.
  intros Hc. unfold enq_step. rewrite Hc. destruct (here k w c I _ Hc) as (h & t & C & Hok).
  destruct (mi_pend _ _ I c _ _ Hc eq_refl) as (_ & Hl & Hcr & _). pose proof (count_held k w c _ (e_new o) I Hc) as Hh.
  unfold held_by, linked in Hh. cbn [holds] in Hh. rewrite !held_cons in Hh. rewrite decide_False in Hh by done.
  rewrite (decide_True (P := e_new o = e_new o)) in Hh by done. cbn [countp] in Hh.
  apply (step_put k w c Hk I (EnqPutNew o tl)); try done.
  - case_decide; lia.
  - intros x. unfold held_by. cbn [holds]. rewrite !held_cons. cbn [countp]. repeat case_decide; lia.
  - by right.
  - exists h, t. apply chain_put; done.
Qed.

Lemma inv_EnqPut o tl r : cpus w !! c = Some (EnqPut o tl r) -> msq_inv (k + 1) (enq_step c w).
Proof.
  intros Hc. unfold enq_step. rewrite Hc. destruct (here k w c I _ Hc) as (h & t & C & i & Hi & Ha).
  apply (step_put k w c Hk I (EnqPut o tl r)); try done.
  - apply (at_held k w c I h t (EnqPut o tl r) tl i); try done. left.
  - intros x. unfold held_by. destruct r; cbn [holds]; rewrite held_cons; cbn [countp]; case_decide; lia.
  - destruct r; [by left|by right].
  - exists h, t. apply chain_put; [done|]. by destruct r.
Qed.
End EnqSteps.

(** linking: the one step that extends the chain *)
Section Link.
Context (k : Z) (w : msq_world) (c : nat) (Hk : 0 <= k < 2 ^ 61) (I : msq_inv k w) (o : enq_op) (tl tmp : Z).
Context (Hc : cpus w !! c = Some (EnqLink o tl 0)).
Let a := tp_get_ptr tl.

Lemma link_cas_nodes x :
  nref (node (set_node a (mk_node (nref (node w a)) tmp) w) x) = nref (node w x) /\
  nnext (node (set_node a (mk_node (nref (node w a)) tmp) w) x) = if decide (a = x) then tmp else nnext (node w x).
Proof. rewrite set_node_nref, set_node_nnext. by case_decide; subst. Qed.

Lemma inv_link :
  tp_get_ptr tmp = e_new o -> nnext (node w a) = 0 ->
  msq_inv (k + 1) (goto c (EnqSwing o tl tmp) (note_link (e_new o) (set_node a (mk_node (nref (node w a)) tmp) w))).
Proof.
  intros Htmp H0. destruct (here k w c I _ Hc) as (h & t & C & i & Hi & Ha & _).
  destruct (mi_pend _ _ I c _ _ Hc eq_refl) as (Hg & Hl & Hcr & Hz). cbn in Hz. set (w' := goto c _ _).
  pose proof (lookup_lt_Some _ _ _ Hc) as Hlt. assert (Hin : a ∈ links w) by (by eapply list_elem_of_lookup_2).
  assert (Hna : e_new o <> tp_get_ptr tl) by (intros E; apply Hl; rewrite E; exact Hin).
  assert (Hnr : forall x, nref (node w' x) = nref (node w x)) by (intros x; apply link_cas_nodes).
  assert (Hnn : forall x, nnext (node w' x) = if decide (a = x) then tmp else nnext (node w x)) by (intros x; apply link_cas_nodes).
  assert (Hq : forall d q, cpus w' !! d = Some q -> pend q <> None -> d <> c /\ cpus w !! d = Some q).
  { intros d q Hd Hp. change (cpus w') with (<[c := EnqSwing o tl tmp]> (cpus w)) in Hd. destruct (decide (c = d)) as [<-|Hne].
    - rewrite list_lookup_insert_eq in Hd by done. by injection Hd as <-.
    - by rewrite list_lookup_insert_ne in Hd. }
  split.
  - exists h, t. apply (chain_link h t w w' c (EnqSwing o tl tmp) tl i (e_new o) tmp C); try done.
    + exists i. split; [done|]. split; [apply (at_mono (links w)); [by eexists|done]|].
      pose proof (ch_next _ _ _ C i _ Ha) as Hnx. fold a in Hnx. rewrite H0 in Hnx.
      destruct (links w !! S i) as [b|] eqn:Eb.
      { by destruct (Forall_lookup_1 _ _ _ _ (ch_addr _ _ _ C) Eb) as [_ []]. }
      apply lookup_ge_None in Eb. pose proof (lookup_lt_Some _ _ _ Ha). unfold at_.
      rewrite lookup_app_r by lia. replace (S i - length (links w))%nat with 0%nat by lia. cbn. by rewrite Htmp.
  - apply (count_frame w w' c _ (EnqSwing o tl tmp) (mi_count _ _ I) Hc); [done|]. intros x. rewrite Hnr.
    change (crefs w' x) with (crefs w x). unfold linked. change (links w') with (links w ++ [e_new o]).
    unfold held_by. cbn [holds]. rewrite !held_cons. cbn [countp].
    rewrite (decide_ext (x ∈ links w ++ [e_new o]) (x ∈ links w \/ x = e_new o)) by (by rewrite elem_of_app, list_elem_of_singleton).
    repeat case_decide; subst; try tauto; lia || congruence.
  - intros x. rewrite Hnr. change (crefs w' x) with (crefs w x). pose proof (mi_bound _ _ I x). lia.
  - intros d q x Hd Hp. destruct (Hq d q Hd) as [Hne Hd']; [congruence|]. destruct (mi_pend _ _ I d q x Hd' Hp) as (P1 & P2 & P3 & P4).
    split; [done|]. split; [|split; [done|]].
    + change (links w') with (links w ++ [e_new o]). rewrite elem_of_app, list_elem_of_singleton. intros [Hx1| ->]; [done|].
      apply Hne. by apply (mi_uniq _ _ I d c q (EnqLink o tl 0) (e_new o)).
    + destruct q; try done; rewrite Hnn; case_decide; subst; done.
  - intros d d' q q' x Hd Hd' Hp Hp'. destruct (Hq d q Hd) as [_ Hd1]; [congruence|]. destruct (Hq d' q' Hd') as [_ Hd2]; [congruence|].
    by apply (mi_uniq _ _ I d d' q q' x).
  - intros x Hx. destruct (mi_freed _ _ I x Hx) as [F1 F2]. rewrite Hnr. split; [|done].
    change (links w') with (links w ++ [e_new o]). rewrite elem_of_app, list_elem_of_singleton. intros [Hx1| ->]; [done|].
    pose proof (count_held k w c _ (e_new o) I Hc) as Hh. pose proof (held_nonneg (e_new o) (EnqLink o tl 0)).
    unfold linked in Hh. case_decide; lia.
Qed.

Lemma inv_link_fails :
  msq_inv (k + 1) (goto c (EnqPutNew o tl) (set_node a (mk_node (nref (node w a)) (nnext (node w a))) w)).
Proof.
  assert (Hs : forall x, nref (node (set_node a (mk_node (nref (node w a)) (nnext (node w a))) w) x) = nref (node w x) /\
    nnext (node (set_node a (mk_node (nref (node w a)) (nnext (node w a))) w) x) = nnext (node w x)).
  { intros x. rewrite set_node_nref, set_node_nnext. by case_decide; subst. }
  destruct (here k w c I _ Hc) as (h & t & C & i & Hi & Ha & _).
  apply (step_pure k w c I (EnqLink o tl 0) (EnqPutNew o tl)); try done; [by right|].
  exists h, t. apply (chain_goto h t w _ c (EnqPutNew o tl) C); try done; [|by exists i]. intros x _. apply Hs.
Qed.
End Link.

Lemma inv_EnqLink k w c o tl n :
  0 <= k < 2 ^ 61 -> msq_inv k w -> cpus w !! c = Some (EnqLink o tl n) -> msq_inv (k + 1) (enq_step c w).
Proof.
  intros Hk I Hc. unfold enq_step. rewrite Hc, cas_spec. destruct (here k w c I _ Hc) as (h & t & C & i & _ & _ & ->).
  destruct (mi_pend _ _ I c _ _ Hc eq_refl) as (Hg & _).
  destruct (Z.eqb_spec (nnext (node w (tp_get_ptr tl))) 0) as [E0|E0].
  - apply inv_link; try done. by apply tp_new_get_ptr, Hg.
  - by apply inv_link_fails.
Qed.

Lemma enq_step_inv k w c : 0 <= k < 2 ^ 61 -> msq_inv k w -> msq_inv (k + 1) (enq_step c w).
Proof.
  intros Hk I. pose proof (msq_inv_mono k w I) as Hm.
  destruct (cpus w !! c) as [p|] eqn:Hc; [|by unfold enq_step; rewrite Hc].
  destruct p; try (unfold enq_step; rewrite Hc; done).
  - by apply (inv_EnqStore k w c I o).
  - by apply (inv_EnqLoop k w c I o).
  - by apply (inv_EnqGet k w c Hk I o tail).
  - by apply (inv_EnqNext k w c I o tail).
  - by apply (inv_EnqVal k w c I o tail next).
  - by apply (inv_EnqGetNew k w c Hk I o tail next).
  - by apply (inv_EnqLink k w c o tail next).
  - unfold enq_step. rewrite Hc. apply (inv_EnqSwing_Help k w c I (EnqSwing o tail tmp)); [by left|done].
  - by apply (inv_EnqPutNew k w c Hk I o tail).
  - unfold enq_step. rewrite Hc. apply (inv_EnqSwing_Help k w c I (EnqHelp o tail tmp)); [by right|done].
  - by apply (inv_EnqPut k w c Hk I o tail ret).
Qed.

Section DeqSteps.
Context (k : Z) (w : msq_world) (c : nat) (Hk : 0 <= k < 2 ^ 61) (I : msq_inv k w).

Lemma inv_DeqLoop o : cpus w !! c = Some (DeqLoop o) -> msq_inv (k + 1) (deq_step c w).
Proof.
  intros Hc. unfold deq_step. rewrite Hc. destruct (_ =? 0); [by apply msq_inv_mono|].
  apply (step_local k w c I (DeqLoop o)); try done; [by right|]. intros h t C _. exists h. split; [done|apply C].
Qed.

Lemma inv_DeqGet o hd : cpus w !! c = Some (DeqGet o hd) -> msq_inv (k + 1) (deq_step c w).
Proof.
  intros Hc. unfold deq_step. rewrite Hc. destruct (here k w c I _ Hc) as (h & t & C & i & Hi & Ha).
  pose proof (at_count k w I h t hd i C Ha) as Hpos.
  destruct (step_get k w c Hk I _ (DeqRead1 o hd) (tp_get_ptr hd) Hc) as [E H]; try done; try lia.
  - by right.
  - exists h, t. apply chain_get; [done|]. by exists i.
  - destruct (node_get (tp_get_ptr hd) w) as [ok w1]. cbn [fst snd] in *. by subst ok.
Qed.

Lemma inv_DeqRead1 o hd : cpus w !! c = Some (DeqRead1 o hd) -> msq_inv (k + 1) (deq_step c w).
Proof.
  intros Hc. unfold deq_step. rewrite Hc. apply (step_local k w c I (DeqRead1 o hd)); try done; [by right|].
  intros h t C (i & Hi & Ha). exists i. split; [done|]. split; [done|]. destruct o as [?|].
  - by apply (nx_read h t).
  - exists t. split; [|apply C]. pose proof (ch_pos _ _ _ C). lia.
Qed.

Lemma inv_DeqRead2 o hd x : cpus w !! c = Some (DeqRead2 o hd x) -> msq_inv (k + 1) (deq_step c w).
Proof.
  intros Hc. unfold deq_step. rewrite Hc.
  apply (step_local k w c I (DeqRead2 o hd x)); try done; [by destruct o|destruct o; by right|].
  intros h t C (i & Hi & Ha & Hx). pose proof (ch_pos _ _ _ C). destruct o as [?|].
  - exists i, t. split; [done|]. split; [lia|]. split; [done|]. split; [apply C|done].
  - destruct Hx as (j & Hj & Hx). exists i, j. do 4 (split; [done|]). by apply (nx_read h t).
Qed.

Lemma inv_DeqVal o hd tl n : cpus w !! c = Some (DeqVal o hd tl n) -> msq_inv (k + 1) (deq_step c w).
Proof.
  intros Hc. unfold deq_step. rewrite Hc, cas_spec.
  assert (E : (if qhead (queue w) =? hd then hd else qhead (queue w)) = snd (atomic64_cas (qhead (queue w)) hd hd)) by done.
  rewrite E, set_head_cas_id. clear E.
  assert (Hput : forall r, msq_inv (k + 1) (goto c (DeqPut o hd r) w)).
  { intros r. apply (step_local k w c I (DeqVal o hd tl n)); try done; [by left|]. intros h t C (i & j & Hi & _ & Ha & _). by exists i. }
  destruct (_ =? hd); [|apply Hput].
  destruct (Z.eqb_spec (tp_get_ptr hd) (tp_get_ptr tl)) as [Eh|Eh].
  - destruct (Z.eqb_spec (tp_get_ptr n) 0) as [En|En]; [apply Hput|].
    apply (step_local k w c I (DeqVal o hd tl n)); try done; [by left|]. intros h t C (i & j & Hi & Hj & Ha & Hb & Hn).
    pose proof (nx_at h t w i n C Hn En) as Hnx. assert (i = j) as <- by by apply (at_inj h t w hd tl).
    exists i. split; [done|]. split; [lia|]. split; [done|]. split; [done|]. unfold at_. rewrite tp_new_get_ptr; [done|].
    destruct (at_addr h t w n (S i) C Hnx) as [[? _] _]. done.
  - destruct (negb _); [apply Hput|]. destruct (Z.eqb_spec (tp_get_ptr n) 0) as [En|En]; [apply Hput|].
    apply (step_local k w c I (DeqVal o hd tl n)); try done; [by left|]. intros h t C (i & j & Hi & Hj & Ha & Hb & Hn).
    exists i, j. split; [done|]. split.
    + assert (i <> j); [|lia]. intros <-. apply Eh. unfold at_ in *. congruence.
    + split; [done|]. split; [done|]. by apply (nx_at h t w).
Qed.

Lemma inv_DeqHelp o hd tl tmp : cpus w !! c = Some (DeqHelp o hd tl tmp) -> msq_inv (k + 1) (deq_step c w).
Proof.
  intros Hc. unfold deq_step. rewrite Hc. apply (step_look k w c I (DeqHelp o hd tl tmp)); try done; [by left|].
  destruct (here k w c I _ Hc) as (h & t & C & i & Hi & Hj & Ha & Hb & Hn).
  destruct (tail_cas h t w tl tmp i C Hj Hb Hn) as (t' & Ht & Ht'). exists h, t, t'.
  split; [done|]. split; [done|]. split; [apply C|]. split; [done|]. by exists i.
Qed.

Lemma inv_DeqGetNext o hd tl n : cpus w !! c = Some (DeqGetNext o hd tl n) -> msq_inv (k + 1) (deq_step c w).
Proof.
  intros Hc. unfold deq_step. rewrite Hc. destruct (here k w c I _ Hc) as (h & t & C & Hok).
  assert (exists i, at_ (links w) n (S i)) as (i & Hn) by (destruct Hok as (i & j & _ & _ & _ & _ & Hn); by exists i).
  pose proof (at_count k w I h t n (S i) C Hn) as Hpos.
  destruct (step_get k w c Hk I _ (DeqSwing o hd tl n) (tp_get_ptr n) Hc) as [E H]; try done; try lia.
  - by left.
  - exists h, t. by apply chain_get.
  - destruct (node_get (tp_get_ptr n) w) as [ok w1]. cbn [fst snd] in *. by subst ok.
Qed.

Lemma inv_DeqSwing o hd tl n : cpus w !! c = Some (DeqSwing o hd tl n) -> msq_inv (k + 1) (deq_step c w).
Proof.
  intros Hc. unfold deq_step. rewrite Hc, cas_spec. destruct (here k w c I _ Hc) as (h & t & C & i & j & Hi & Hj & Ha & Hb & Hn).
  set (tmp := tp_new (tp_get_ptr n) _). assert (Htmp : tp_get_ptr tmp = tp_get_ptr n).
  { apply tp_new_get_ptr. destruct (at_addr h t w n (S i) C Hn) as [[? _] _]. done. }
  destruct (Z.eqb_spec (qhead (queue w)) hd) as [E|E].
  - rewrite <- E in Ha. assert (i = h) as -> by (by apply (at_inj h t w _ _ i h C Ha (ch_head _ _ _ C))). rewrite E in Ha.
    apply (step_pure k w c I (DeqSwing o hd tl n) (DeqPutOk o hd tl n)); try done; [by left|].
    exists (S h), t. apply (chain_frame h t (S h) t w _ c (DeqPutOk o hd tl n) C); try done.
    + cbn [goto note_taken taken]. change (taken (set_head tmp w)) with (taken w). rewrite (ch_taken _ _ _ C).
      symmetry. apply take_S_r. rewrite lookup_drop. exact Hn.
    + unfold at_. cbn. rewrite Htmp. exact Hn.
    + apply C.
    + lia.
    + lia.
    + exists h, j. split; [done|]. split; [lia|done].
  - replace (set_head (qhead (queue w)) w) with w by (by destruct w as [? [] ? ? ? ? ?]).
    apply (step_local k w c I (DeqSwing o hd tl n)); try done; [by left|]. intros h' t' C' (i' & j' & Hi' & _ & Ha' & _ & Hn'). by exists i'.
Qed.

Lemma inv_DeqPutNext o hd n : cpus w !! c = Some (DeqPutNext o hd n) -> msq_inv (k + 1) (deq_step c w).
Proof.
  intros Hc. unfold deq_step. rewrite Hc. destruct (here k w c I _ Hc) as (h & t & C & i & Hi & Ha & Hn).
  apply (step_put k w c Hk I (DeqPutNext o hd n)); try done.
  - apply (at_held k w c I h t (DeqPutNext o hd n) n (S i)); try done. right. left.
  - intros x. unfold held_by. cbn [holds]. rewrite !held_cons. cbn [countp]. lia.
  - by left.
  - exists h, t. apply chain_put; [done|]. by exists i.
Qed.

Lemma inv_DeqPut o hd r : cpus w !! c = Some (DeqPut o hd r) -> msq_inv (k + 1) (deq_step c w).
Proof.
  intros Hc. unfold deq_step. rewrite Hc. destruct (here k w c I _ Hc) as (h & t & C & i & Hi & Ha).
  apply (step_put k w c Hk I (DeqPut o hd r)); try done.
  - apply (at_held k w c I h t (DeqPut o hd r) hd i); try done. left.
  - intros x. unfold held_by. destruct r; cbn [holds]; rewrite held_cons; cbn [countp]; case_decide; lia.
  - left. by destruct r.
  - exists h, t. apply chain_put; [done|]. destruct r; [by left|done].
Qed.

(** returning a node hands the CPU's reference to the caller *)
Lemma step_return p q' n :
  cpus w !! c = Some p -> (forall x, held_by x p = if decide (x = tp_get_ptr n) then 1 else 0) ->
  (exists h t t', chain h t w /\ (t <= t')%nat /\ at_ (links w) (qhead q') h /\ at_ (links w) (qtail q') t' /\
     exists i, (1 <= i <= h)%nat /\ at_ (links w) n i) ->
  msq_inv (k + 1) (goto c (DeqDone n) (add_cref (tp_get_ptr n) 1 (set_queue q' w))).
Proof.
  intros Hc Hh (h & t & t' & C & Ht & Qh & Qt & i & Hi & Hn).
  assert (Hcr : forall x, crefs (goto c (DeqDone n) (add_cref (tp_get_ptr n) 1 (set_queue q' w))) x =
    crefs w x + if decide (x = tp_get_ptr n) then 1 else 0).
  { intros x. cbn. rewrite fn_insert_case. repeat case_decide; subst; congruence || lia. }
  apply (tame_inv k w _ c p (DeqDone n) I).
  - split; try done; [by left| | |]; intros x; rewrite ?Hcr; try lia.
    + rewrite Hh. cbn [goto add_cref set_queue node]. unfold held_by. cbn [holds countp]. lia.
    + case_decide; lia.
    + change (nref (node w x) <= nref (node w x) + 1). lia.
  - exists h, t'. apply (chain_frame h t h t' w _ c (DeqDone n) C); try done; [apply C| |].
    + pose proof (ch_pos _ _ _ C). lia.
    + right. by exists i.
Qed.

Lemma inv_DeqRetag o tl n : cpus w !! c = Some (DeqRetag o tl n) -> msq_inv (k + 1) (deq_step c w).
Proof.
  intros Hc. unfold deq_step. rewrite Hc. apply (step_return (DeqRetag o tl n) _ n Hc).
  - intros x. unfold held_by. cbn [holds]. rewrite held_cons. cbn [countp]. lia.
  - destruct (here k w c I _ Hc) as (h & t & C & i & j & Hi & Hj & Hn & Hb).
    exists h, t, t. split; [done|]. split; [done|]. split; [apply C|]. split; [|by exists i].
    unfold atomic64_cas. cbn [snd qtail]. destruct (Z.eqb_spec (qtail (queue w)) tl) as [E|E]; [|apply C].
    pose proof (ch_tail _ _ _ C) as Ht. rewrite E in Ht. unfold at_ in *. rewrite tp_new_get_ptr; [done|apply tp_get_ptr_canonical].
Qed.

Lemma inv_DeqPutOk o hd tl n : cpus w !! c = Some (DeqPutOk o hd tl n) -> msq_inv (k + 1) (deq_step c w).
Proof.
  intros Hc. unfold deq_step. rewrite Hc. destruct (here k w c I _ Hc) as (h & t & C & i & j & Hi & Hj & Ha & Hb & Hn).
  pose proof (at_held k w c I h t _ hd i C Ha Hc ltac:(left)) as H2. set (a := tp_get_ptr hd) in *.
  assert (Hretag : msq_inv (k + 1) (goto c (DeqRetag o tl n) (node_put a free_func w))).
  { apply (step_put k w c Hk I (DeqPutOk o hd tl n)); try done.
    - intros x. unfold held_by. cbn [holds]. rewrite !held_cons. cbn [countp]. fold a. lia.
    - by left.
    - exists h, t. apply chain_put; [done|]. exists (S i), j. split; [lia|done]. }
  assert (Hdone : msq_inv (k + 1) (goto c (DeqDone n) (add_cref (tp_get_ptr n) 1 (node_put a free_func w)))).
  { pose proof (proj2 (mi_bound _ _ I a)) as Hbd. destruct (put_same w a free_func) as (E1 & E2 & E3 & E4 & E5).
    pose proof (put_nnext w a free_func) as Enn. rewrite node_put_ok in * by lia.
    destruct (Z.eqb_spec (nref (node w a)) 1); [lia|]. cbn [andb] in *. set (w1 := set_node _ _ w) in *.
    assert (Hcr : forall x, crefs (goto c (DeqDone n) (add_cref (tp_get_ptr n) 1 w1)) x = crefs w x + if decide (x = tp_get_ptr n) then 1 else 0).
    { intros x. cbn. rewrite fn_insert_case. repeat case_decide; subst; congruence || lia. }
    apply (tame_inv k w _ c (DeqPutOk o hd tl n) (DeqDone n) I).
    - assert (Hnr : forall x, nref (node w1 x) = nref (node w x) - if decide (x = a) then 1 else 0).
      { intros x. unfold w1. rewrite set_node_nref. cbn [nref]. repeat case_decide; subst; congruence || lia. }
      split; try done; [by left| ..]; intros x; rewrite ?Hcr; change (node (goto c (DeqDone n) (add_cref (tp_get_ptr n) 1 w1)) x) with (node w1 x);
        rewrite ?Hnr; try (repeat case_decide; subst; lia).
      unfold held_by. cbn [holds]. rewrite !held_cons. cbn [countp]. fold a. lia.
    - exists h, t. apply (chain_goto h t w _ c (DeqDone n) C); try done; [intros x _; apply Enn|]. right. exists (S i). split; [lia|done]. }
  destruct o; [|exact Hdone]. destruct (_ =? _); [exact Hretag|exact Hdone].
Qed.
End DeqSteps.

Lemma deq_step_inv k w c : 0 <= k < 2 ^ 61 -> msq_inv k w -> msq_inv (k + 1) (deq_step c w).
Proof.
  intros Hk I. pose proof (msq_inv_mono k w I) as Hm.
  destruct (cpus w !! c) as [p|] eqn:Hc; [|by unfold deq_step; rewrite Hc].
  destruct p; try (unfold deq_step; rewrite Hc; done).
  - by apply (inv_DeqLoop k w c I o).
  - by apply (inv_DeqGet k w c Hk I o head).
  - by apply (inv_DeqRead1 k w c I o head).
  - by apply (inv_DeqRead2 k w c I o head x).
  - by apply (inv_DeqVal k w c I o head tail next).
  - by apply (inv_DeqHelp k w c I o head tail tmp).
  - by apply (inv_DeqGetNext k w c Hk I o head tail next).
  - by apply (inv_DeqSwing k w c I o head tail next).
  - by apply (inv_DeqPutNext k w c Hk I o head next).
  - by apply (inv_DeqPut k w c Hk I o head ret).
  - by apply (inv_DeqPutOk k w c Hk I o head tail next).
  - by apply (inv_DeqRetag k w c I o tail next).
Qed.

(** ** Steps of the callers *)

Lemma returned_pc p : returned (Some p) = true -> holds p = [] /\ pend p = None.
Proof. by destruct p. Qed.

(** what a CPU holds is on the chain or its own new node *)
Lemma holds_src k w c p a : msq_inv k w -> cpus w !! c = Some p -> a ∈ holds p -> a ∈ links w \/ pend p = Some a.
Proof.
  intros I Hc Ha. destruct (here k w c I p Hc) as (h & t & C & Hok).
  assert (Hat : forall tp i, at_ (links w) tp i -> tp_get_ptr tp ∈ links w) by (intros tp i H; apply (at_addr h t w tp i C H)).
  destruct p; cbn [holds pc_ok] in *; try (by apply elem_of_nil in Ha).
  all: repeat match goal with
    | H : _ ∈ _ :: _ |- _ => apply elem_of_cons in H as [->|H]
    | H : _ ∈ [] |- _ => by apply elem_of_nil in H
    | H : exists _, _ |- _ => destruct H
    | H : _ /\ _ |- _ => destruct H
    end; try (left; eapply Hat; eassumption); right; done.
Qed.

Lemma held_zero k w a : msq_inv k w -> a ∉ links w -> not_pending w a -> sumZ (held_by a) (cpus w) = 0.
Proof.
  intros I Hl Hp. apply sumZ_zero. intros p Hin. apply list_elem_of_lookup in Hin as [c Hc].
  unfold held_by. apply countp_none. intros j x Hj. apply Z.eqb_neq. intros <-. apply list_elem_of_lookup_2 in Hj.
  destruct (holds_src k w c p a I Hc Hj) as [|H]; [done|]. by apply (Hp c p Hc).
Qed.

Lemma init_node_inv k w a x :
  0 <= k -> msq_inv k w -> a ∉ links w -> not_pending w a -> crefs w a = 0 -> a ∉ freed_nodes w ->
  msq_inv (k + 1) (add_cref a 1 (set_node a (mk_node ref_init x) w)).
Proof.
  intros Hk I Hl Hp Hcr Hf. pose proof (held_zero k w a I Hl Hp) as Hz. set (w' := add_cref _ _ _).
  assert (Hnode : forall y, node w' y = if decide (a = y) then mk_node ref_init x else node w y).
  { intros y. change (node w' y) with ((<[a := mk_node ref_init x]> (node w)) y). apply fn_insert_case. }
  assert (Hcr' : forall y, crefs w' y = if decide (a = y) then 1 else crefs w y).
  { intros y. change (crefs w' y) with ((<[a := crefs w a + 1]> (crefs w)) y). rewrite fn_insert_case, Hcr. done. }
  destruct I as [(h & t & C) I2 I3 I4 I5 I6]. split.
  - exists h, t. destruct C as [C1 C2 C3 C4 C5 C6 C7 C8]. split; try done.
    intros i y Hy. rewrite Hnode, decide_False; [by apply C6|]. intros ->. apply Hl. by eapply list_elem_of_lookup_2.
  - intros y. rewrite Hnode, Hcr'. change (cpus w') with (cpus w). unfold linked. change (links w') with (links w).
    case_decide; [subst; rewrite decide_False, Hz by done; done|apply I2].
  - intros y. rewrite Hnode, Hcr'. specialize (I3 y). case_decide; cbn [nref]; unfold ref_init; lia.
  - intros c p y Hc Hy. destruct (I4 c p y Hc Hy) as (P1 & P2 & P3 & P4).
    assert (a <> y) by (intros ->; by apply (Hp c p Hc)). rewrite Hnode, Hcr', !decide_False by done. done.
  - done.
  - intros y Hy. destruct (I6 y Hy) as [F1 F2]. split; [done|]. rewrite Hnode, decide_False; [done|]. intros ->. done.
Qed.

Lemma enqueue_inv k w c a o :
  msq_inv k w -> returned (cpus w !! c) = true -> node_addr a -> a ∉ links w -> not_pending w a -> 0 < crefs w a ->
  e_new o = a -> msq_inv (k + 1) (goto c (EnqStore o) w).
Proof.
  intros I Hr Hg Hl Hp Hcr Ho. destruct (cpus w !! c) as [p|] eqn:Hc; [|done]. destruct (returned_pc p Hr) as [Hh Hpe].
  pose proof (lookup_lt_Some _ _ _ Hc) as Hlt.
  assert (Hq : forall d q, cpus (goto c (EnqStore o) w) !! d = Some q -> (d = c /\ q = EnqStore o) \/ (d <> c /\ cpus w !! d = Some q)).
  { intros d q Hd. cbn [goto cpus] in Hd. destruct (decide (c = d)) as [<-|Hne].
    - rewrite list_lookup_insert_eq in Hd by done. injection Hd as <-. by left.
    - rewrite list_lookup_insert_ne in Hd by done. by right. }
  split.
  - destruct (mi_chain _ _ I) as (h & t & C). exists h, t. by apply (chain_goto h t w _ c (EnqStore o) C).
  - apply (count_frame w _ c p (EnqStore o) (mi_count _ _ I) Hc); [done|]. intros x. unfold held_by. rewrite Hh. cbn. unfold linked. cbn. lia.
  - intros x. pose proof (mi_bound _ _ I x). cbn. lia.
  - intros d q x Hd Hx. destruct (Hq d q Hd) as [[-> ->]|[_ Hd']]; [|by apply (mi_pend _ _ I d q)].
    cbn in Hx. rewrite Ho in Hx. by injection Hx as <-.
  - intros d d' q q' x Hd Hd' Hx Hx'. destruct (Hq d q Hd) as [[-> ->]|[_ H1]], (Hq d' q' Hd') as [[-> ->]|[_ H2]]; try done.
    + cbn in Hx. rewrite Ho in Hx. injection Hx as <-. by destruct (Hp d' q' H2).
    + cbn in Hx'. rewrite Ho in Hx'. injection Hx' as <-. by destruct (Hp d q H1).
    + by apply (mi_uniq _ _ I d d' q q' x).
  - apply I.
Qed.

Lemma dequeue_inv k w c o : msq_inv k w -> returned (cpus w !! c) = true -> msq_inv (k + 1) (goto c (DeqLoop o) w).
Proof.
  intros I Hr. destruct (cpus w !! c) as [p|] eqn:Hc; [|done]. destruct (returned_pc p Hr) as [Hh Hpe].
  apply (step_local k w c I p); try done; by left.
Qed.

Lemma put_inv k w a :
  0 <= k < 2 ^ 61 -> msq_inv k w -> 0 < crefs w a -> not_pending w a -> msq_inv (k + 1) (add_cref a (-1) (node_put a free_func w)).
Proof.
  intros Hk I Hcr Hp. pose proof (mi_count _ _ I a) as Hcnt. pose proof (proj2 (mi_bound _ _ I a)) as Hb.
  assert (Hs : 0 <= sumZ (held_by a) (cpus w)).
  { generalize (cpus w). induction l as [|p l IH]; cbn [sumZ]; [lia|]. pose proof (held_nonneg a p). lia. }
  assert (0 <= linked w a <= 1) by (unfold linked; case_decide; lia).
  set (w' := add_cref _ _ _). destruct (put_same w a free_func) as (E1 & E2 & E3 & E4 & E5).
  assert (Hnn : forall x, nnext (node w' x) = nnext (node w x)) by (intros x; apply put_nnext).
  assert (Hcr' : forall x, crefs w' x = crefs w x - if decide (a = x) then 1 else 0).
  { intros x. unfold w'. cbn [add_cref crefs]. rewrite fn_insert_case, E5. case_decide; subst; lia. }
  assert (Hnr : forall x, nref (node w' x) = nref (node w x) - if decide (a = x) then 1 else 0).
  { intros x. change (node w' x) with (node (node_put a free_func w) x). rewrite node_put_ok by lia.
    assert (E : nref (node (set_node a (mk_node (nref (node w a) - 1) (nnext (node w a))) w) x) = nref (node w x) - if decide (a = x) then 1 else 0).
    { rewrite set_node_nref. cbn [nref]. case_decide; subst; lia. }
    destruct (_ && _); exact E. }
  assert (Hlk : links w' = links w) by exact E2. assert (Hcp : cpus w' = cpus w) by exact E1.
  split; rewrite ?Hlk, ?Hcp.
  - destruct (mi_chain _ _ I) as (h & t & [C1 C2 C3 C4 C5 C6 C7 C8]). exists h, t.
    split; rewrite ?Hlk, ?Hcp; try done; [| | |].
    + by change (queue w') with (queue (node_put a free_func w)); rewrite E4.
    + by change (queue w') with (queue (node_put a free_func w)); rewrite E4.
    + intros i x Hx. rewrite Hnn. by apply C6.
    + change (taken w') with (taken (node_put a free_func w)). by rewrite E3.
  - intros x. rewrite Hnr, Hcr', Hcp, (mi_count _ _ I x). unfold linked. rewrite Hlk. lia.
  - intros x. rewrite Hnr, Hcr'. pose proof (mi_bound _ _ I x). case_decide; subst; lia.
  - intros c p x Hc Hx. destruct (mi_pend _ _ I c p x Hc Hx) as (P1 & P2 & P3 & P4).
    assert (a <> x) by (intros ->; by apply (Hp c p Hc)). rewrite Hcr', Hnn, decide_False by done.
    split; [done|]. split; [done|]. split; [lia|done].
  - apply I.
  - intros x Hx. assert (x ∈ freed_nodes w \/ (x = a /\ nref (node w a) = 1)) as [Hx'|[-> H1]].
    { change (freed_nodes w') with (freed_nodes (node_put a free_func w)) in Hx. rewrite node_put_ok in Hx by lia.
      destruct (Z.eqb_spec (nref (node w a)) 1); cbn [andb] in Hx; [|by left].
      destruct free_func; [|by left]. cbn [note_freed freed_nodes] in Hx. apply elem_of_cons in Hx as [->|Hx]; [by right|by left]. }
    + destruct (mi_freed _ _ I x Hx') as [F1 F2]. rewrite Hnr. split; [done|]. rewrite decide_False; [lia|]. intros ->. lia.
    + rewrite Hnr, decide_True by done. split; [|lia]. unfold linked in *. case_decide; [lia|done].
Qed.

Lemma msq_step_inv k w w' : 0 <= k < 2 ^ 61 -> msq_inv k w -> msq_step w w' -> msq_inv (k + 1) w'.
Proof.
  intros Hk I Hs. destruct Hs as [c w|c w|a x w Hg Hl Hp Hcr Hf|c a w Hr Hg Hl Hp Hcr|c a i e w Hr Hg Hl Hp Hcr|c w Hr|c m e w Hr|a w Hcr Hp].
  - by apply enq_step_inv.
  - by apply deq_step_inv.
  - apply init_node_inv; (done || lia).
  - by apply (enqueue_inv k w c a).
  - unfold msq_enqueue_check_tail. destruct (_ =? 0); by apply (enqueue_inv k w c a).
  - by apply dequeue_inv.
  - unfold msq_dequeue_check_head. destruct (_ && _); by apply dequeue_inv.
  - by apply put_inv.
Qed.

Lemma init_queue_inv dummy ncpu bits : node_addr dummy -> msq_inv 1 (msq_init dummy ncpu bits).
Proof.
  intros Hg. assert (Hidle : forall c p, cpus (msq_init dummy ncpu bits) !! c = Some p -> p = QIdle).
  { intros c p Hc. apply list_elem_of_lookup_2, list_elem_of_In, repeat_spec in Hc. done. }
  assert (Hat : at_ [dummy] (tp_new dummy 0) 0) by (unfold at_; rewrite tp_new_get_ptr by apply Hg; done).
  assert (Hnode : forall a, node (msq_init dummy ncpu bits) a = if decide (dummy = a) then mk_node ref_init tp_new_none else mk_node ref_init_zero 0).
  { intros a. unfold msq_init. cbn [node]. by rewrite fn_insert_case. }
  split.
  - exists 0%nat, 0%nat. split; try done.
    + apply NoDup_singleton.
    + by constructor.
    + cbn. lia.
    + intros i a Hi. destruct i as [|i]; [|done]. injection Hi as <-. rewrite Hnode, decide_True by done. done.
    + intros c p Hc. by rewrite (Hidle c p Hc).
  - intros a. rewrite Hnode. unfold linked. cbn [links crefs msq_init]. rewrite sumZ_zero.
    + case_decide; subst; [rewrite decide_True by left; done|]. rewrite decide_False; [done|]. intros ->%list_elem_of_singleton. done.
    + intros p Hp. apply list_elem_of_lookup in Hp as [c Hc]. by rewrite (Hidle c p Hc).
  - intros a. rewrite Hnode. cbn [crefs msq_init]. split; [done|]. case_decide; cbn; unfold ref_init, ref_init_zero; lia.
  - intros c p a Hc Hp. by rewrite (Hidle c p Hc) in Hp.
  - intros c c' p p' a Hc _ Hp. by rewrite (Hidle c p Hc) in Hp.
  - intros a Ha. by apply elem_of_nil in Ha.
Qed.

Lemma msq_reach_inv n dummy ncpu bits w :
  node_addr dummy -> nsteps msq_step n (msq_init dummy ncpu bits) w -> Z.of_nat n < 2 ^ 60 -> exists k, msq_inv k w.
Proof.
  intros Hg Hs Hn. exists (1 + Z.of_nat n).
  apply (nsteps_invariant msq_step msq_inv (2 ^ 61)) with (s := msq_init dummy ncpu bits); try done; try lia.
  - intros k s s' Hk I Hst. by apply (msq_step_inv k s).
  - by apply init_queue_inv.
Qed.

(** ** Properties *)

(** memory links [a] to the nodes [l] in order, and the last one to none *)
Fixpoint mem_chain (nd : Z -> ms_queue_node) (a : Z) (l : list Z) : Prop :=
  match l with
  | [] => nnext (nd a) = 0
  | b :: l' => tp_get_ptr (nnext (nd a)) = b /\ mem_chain nd b l'
  end.

Lemma chain_mem h t w i a : chain h t w -> links w !! i = Some a -> mem_chain (node w) a (drop (S i) (links w)).
Proof.
  intros C. remember (length (links w) - i)%nat as n eqn:En. revert i a En. induction n as [|n IH]; intros i a En Ha.
  { apply lookup_lt_Some in Ha. lia. }
  pose proof (ch_next _ _ _ C i a Ha) as Hn. destruct (links w !! S i) as [b|] eqn:Eb.
  - rewrite (drop_S _ _ _ Eb). split; [done|]. apply IH; [lia|done].
  - rewrite drop_ge by (by apply lookup_ge_None). done.
Qed.


(** C30 (safety): no operation touches a released node.  Every node on the
    chain, every node a CPU holds a reference to inside a call, and every
    node a caller still owns has a positive count and its [free_func] has not
    run.  More exactly, the count of a linked node is one for the queue plus
    the callers' and the running calls' references: the queue's own reference
    is never given back, not even after the node was dequeued. *)
Theorem msq_no_use_after_free n dummy ncpu bits w
    (Hd : node_addr dummy) (Hs : nsteps msq_step n (msq_init dummy ncpu bits) w) (Hn : Z.of_nat n < 2 ^ 60) :
  (forall a, a ∈ links w -> nref (node w a) = 1 + crefs w a + sumZ (held_by a) (cpus w)) /\
  forall a, (a ∈ links w \/ 0 < crefs w a \/ exists c p, cpus w !! c = Some p /\ a ∈ holds p) ->
    0 < nref (node w a) /\ a ∉ freed_nodes w.
Proof.
  destruct (msq_reach_inv n dummy ncpu bits w Hd Hs Hn) as [k I]. split.
  - intros a Ha. rewrite (mi_count _ _ I). unfold linked. rewrite decide_True by done. lia.
  - intros a Ha. assert (Hpos : 0 < nref (node w a)).
    { destruct Ha as [Ha|[Ha|(c & p & Hc & Ha)]].
      - pose proof (count_linked k w a I Ha). lia.
      - pose proof (mi_count _ _ I a) as E. assert (0 <= sumZ (held_by a) (cpus w)).
        { generalize (cpus w). induction l as [|p l IH]; cbn [sumZ]; [lia|]. pose proof (held_nonneg a p). lia. }
        unfold linked in E. case_decide; lia.
      - pose proof (count_held k w c p a I Hc) as H. pose proof (proj1 (mi_bound _ _ I a)).
        apply list_elem_of_lookup in Ha as [j Hj]. pose proof (countp_lookup_pos (Z.eqb a) (holds p) j a Hj (Z.eqb_refl a)).
        unfold held_by, linked in H. case_decide; lia. }
    split; [done|]. intros Hf. destruct (mi_freed _ _ I a Hf). lia.
Qed.

(** ** A concrete run: two CPUs, one enqueues a node, the other dequeues it *)

Lemma not_pending_check w a : forallb (fun p => bool_decide (pend p <> Some a)) (cpus w) = true -> not_pending w a.
Proof.
  intros H c p Hc. rewrite forallb_forall in H. specialize (H p). rewrite <- list_elem_of_In in H.
  by eapply bool_decide_eq_true_1, H, list_elem_of_lookup_2.
Qed.

Lemma enq_iter c n w : nsteps msq_step n w (Nat.iter n (enq_step c) w).
Proof. induction n as [|n IH]; [constructor|]. eapply nsteps_r; [exact IH|]. apply ms_enq. Qed.
Lemma deq_iter c n w : nsteps msq_step n w (Nat.iter n (deq_step c) w).
Proof. induction n as [|n IH]; [constructor|]. eapply nsteps_r; [exact IH|]. apply ms_deq. Qed.

Definition DUMMY : Z := 0x1000.
Definition NODE_A : Z := 0x2000.
Definition run0 : msq_world := msq_init DUMMY 2 0.
Definition run1 : msq_world := add_cref NODE_A 1 (set_node NODE_A (mk_node ref_init 7) run0).
Definition run2 : msq_world := msq_enqueue 0 NODE_A run1.
Definition run3 : msq_world := Nat.iter 9 (enq_step 0) run2.
Definition run4 : msq_world := msq_dequeue 1 run3.
Definition run5 : msq_world := Nat.iter 8 (deq_step 1) run4.

Lemma addr_ok a : 0 < a < 2 ^ 47 -> node_addr a.
Proof. intros H. split; [left; lia|lia]. Qed.

Lemma run5_reached : nsteps msq_step (1 + (1 + (9 + (1 + 8)))) run0 run5.
Proof.
  eapply nsteps_trans; [apply nsteps_once; apply (ms_init NODE_A 7)|].
  { by apply addr_ok. } { apply (bool_decide_unpack _). vm_compute. done. } { by apply not_pending_check. }
  { done. } { apply (bool_decide_unpack _). vm_compute. done. }
  eapply nsteps_trans; [apply nsteps_once; apply (ms_enqueue 0 NODE_A)|].
  { done. } { by apply addr_ok. } { apply (bool_decide_unpack _). vm_compute. done. } { by apply not_pending_check. } { done. }
  eapply nsteps_trans; [apply (enq_iter 0)|].
  eapply nsteps_trans; [apply nsteps_once; apply (ms_dequeue 1)|]. { vm_compute. done. }
  apply (deq_iter 1).
Qed.


Lemma msq_no_use_after_free_witness :
  nref (node run5 NODE_A) = 3 /\ NODE_A ∉ freed_nodes run5.
Proof.
  destruct (msq_no_use_after_free _ DUMMY 2 0 run5 (addr_ok DUMMY ltac:(done)) run5_reached ltac:(done)) as [H1 H2].
  assert (Hin : NODE_A ∈ links run5) by (apply (bool_decide_unpack _); vm_compute; done).
  split; [|apply H2; by left]. rewrite (H1 NODE_A Hin). vm_compute. reflexivity.
Defined.

(** ** Limits *)

(** Both callers drop their references.  The node was dequeued and nobody can
    reach it through a reference any more, yet its count stays at the queue's
    one: [free_func] never runs, also after the next dequeue moved the head
    past it. *)
Definition run6 : msq_world := add_cref NODE_A (-1) (node_put NODE_A free_func (add_cref NODE_A (-1) (node_put NODE_A free_func run5))).
Definition NODE_B : Z := 0x3000.
Definition run7 : msq_world :=
  run_alone 1 40 (msq_dequeue 1 (run_alone 0 40 (msq_enqueue 0 NODE_B (add_cref NODE_B 1 (set_node NODE_B (mk_node ref_init 0) run6))))).
Example dequeued_node_is_never_freed :
  crefs run7 NODE_A = 0 /\ taken run7 = [NODE_A; NODE_B] /\ nref (node run7 NODE_A) = 1 /\ freed_nodes run7 = [].
Proof. vm_compute. split_and!; reflexivity. Qed.

(** [msq_clean_queue] on two queued nodes returns both and clears the queue *)
Definition run8 : msq_world := run_alone 0 40 (msq_enqueue 0 NODE_B (add_cref NODE_B 1 (set_node NODE_B (mk_node ref_init 0) run3))).
Example clean_queue_drains :
  let w := msq_clean_queue 1 true 5 run8 in
  taken w = [NODE_A; NODE_B] /\ qhead (queue w) = 0 /\ qtail (queue w) = 0 /\ crefs w NODE_A = 1.
Proof. vm_compute. split_and!; reflexivity. Qed.
