(* ===== verification/Pmm.v ===== *)
(** * Zones, sections and page reference counts

    [include/rendezvos/mm/pmm.h]: the frames of a zone grouped in sections, the
    cursor that walks them in zone order, the per-frame counts kept under the
    zone lock, and [pmm_change_pages_ref] with its rollback.  A section's
    [Page] array is the list of its [ref_count]s. *)
From S2P Require Import Prelude Mm.

Record MemSection := mk_sec { sec_lower : Z; sec_upper : Z; sec_pages : list Z }.
Definition page_count (s : MemSection) : Z := Z.of_nat (length (sec_pages s)).

(** [secs]: the [section_list] in order; [zlock]: the zone's pmm lock *)
Record MemZone := mk_zone { zone_lower : Z; zone_upper : Z; secs : list MemSection; zlock : bool }.

Definition set_secs (l : list MemSection) (z : MemZone) : MemZone :=
  mk_zone (zone_lower z) (zone_upper z) l (zlock z).
Definition pmm_lock (z : MemZone) : MemZone := mk_zone (zone_lower z) (zone_upper z) (secs z) true.
Definition pmm_unlock (z : MemZone) : MemZone := mk_zone (zone_lower z) (zone_upper z) (secs z) false.

(** ** Counts of one frame *)

Definition phy_Page_ref_claim (page : option Z) : bool * option Z :=
  match page with
  | Some r => if negb (r =? 0) then (false, page) else (true, Some 1)
  | None => (false, None)
  end.
Definition phy_Page_ref_get (page : option Z) : bool * option Z :=
  match page with
  | Some r => if r <=? 0 then (false, page) else (true, Some (i64 (r + 1)))
  | None => (false, None)
  end.
Definition phy_Page_ref_put (page : option Z) : option Z :=
  match page with Some r => Some (i64 (r - 1)) | None => None end.
Definition phy_Page_refed (page : option Z) : bool :=
  match page with Some r => 0 <? r | None => false end.

(** ** Membership *)

Definition ppn_in_Sec (sec : MemSection) (ppn : Z) : bool :=
  if invalid_ppn ppn then false else (sec_lower sec <=? PADDR ppn) && (PADDR ppn <? sec_upper sec).
Definition ppn_in_Zone (zone : MemZone) (ppn : Z) : bool :=
  if invalid_ppn ppn then false else (zone_lower zone <=? PADDR ppn) && (PADDR ppn <? zone_upper zone).
Definition Sec_phy_Page (sec : option MemSection) (index : Z) : option Z :=
  match sec with
  | Some s => if index <? page_count s then sec_pages s !! Z.to_nat index else None
  | None => None
  end.

(** ** Cursor *)

(** [cur_sec]: position of the section in the section list, [None] for NULL *)
Record ZonePageCursor := mk_cur { cur_sec : option nat; sec_index : Z; sec_base_index : Z }.

Definition zone_page_cursor_page (z : MemZone) (cur : ZonePageCursor) : option Z :=
  match cur_sec cur with
  | Some k =>
    match secs z !! k with
    | Some s => if page_count s <=? sec_index cur then None else sec_pages s !! Z.to_nat (sec_index cur)
    | None => None
    end
  | None => None
  end.

(** storing through the [Page*] the cursor points at *)
Definition cursor_store (z : MemZone) (cur : ZonePageCursor) (r : Z) : MemZone :=
  match cur_sec cur with
  | Some k =>
    match secs z !! k with
    | Some s => set_secs (<[k := mk_sec (sec_lower s) (sec_upper s)
                                  (<[Z.to_nat (sec_index cur) := r]> (sec_pages s))]> (secs z)) z
    | None => z
    end
  | None => z
  end.

Definition zone_page_cursor_index (cur : ZonePageCursor) : Z :=
  match cur_sec cur with
  | Some _ => i64 (sec_base_index cur + i64 (sec_index cur))
  | None => -1
  end.

(** [for_each_sec_of_zone]: sections from the [k]-th on *)
Fixpoint cursor_init_secs (l : list MemSection) (k : nat) (base_index start_ppn : Z)
  : option ZonePageCursor :=
  match l with
  | [] => None
  | sec :: l' =>
    if negb (ppn_in_Sec sec start_ppn)
    then cursor_init_secs l' (S k) (i64 (base_index + i64 (page_count sec))) start_ppn
    else
      let sec_index := u64 (start_ppn - PPN (sec_lower sec)) in
      if page_count sec <=? sec_index then None
      else Some (mk_cur (Some k) sec_index base_index)
  end.
Definition zone_page_cursor_init (z : MemZone) (start_ppn : Z) : option ZonePageCursor :=
  if invalid_ppn start_ppn || negb (ppn_in_Zone z start_ppn) then None
  else cursor_init_secs (secs z) 0 0 start_ppn.

Definition zone_page_cursor_next (z : MemZone) (cur : ZonePageCursor) : option ZonePageCursor :=
  match cur_sec cur with
  | None => None
  | Some k =>
    match secs z !! k with
    | None => None
    | Some s =>
      if u64 (sec_index cur + 1) <? page_count s
      then Some (mk_cur (Some k) (u64 (sec_index cur + 1)) (sec_base_index cur))
      else
        match secs z !! S k with
        | None => None
        | Some _ => Some (mk_cur (Some (S k)) 0 (i64 (sec_base_index cur + i64 (page_count s))))
        end
    end
  end.

(** ** Changing the counts of a range *)

(** the forward loop: [Some (n, z, ok)] where [n] frames were changed *)
Fixpoint change_loop (z : MemZone) (cur : ZonePageCursor) (increment : bool) (i : Z) (left : nat)
  : Z * MemZone * bool :=
  match left with
  | O => (i, z, true)
  | S left' =>
    let p := zone_page_cursor_page z cur in
    match p with
    | None => (i, z, false)
    | Some _ =>
      let '(ok, p') :=
        if increment then phy_Page_ref_get p
        else if negb (phy_Page_refed p) then (false, p) else (true, phy_Page_ref_put p) in
      if negb ok then (i, z, false)
      else
        let z := match p' with Some r => cursor_store z cur r | None => z end in
        match left' with
        | O => (i + 1, z, true)
        | S _ =>
          match zone_page_cursor_next z cur with
          | None => (i, z, false)
          | Some cur => change_loop z cur increment (i + 1) left'
          end
        end
    end
  end.

Fixpoint unroll_loop (z : MemZone) (cur : ZonePageCursor) (increment : bool) (left : nat) : MemZone :=
  match left with
  | O => z
  | S left' =>
    let p := zone_page_cursor_page z cur in
    let p' := match p with
              | None => None
              | Some _ => if increment then phy_Page_ref_put p else snd (phy_Page_ref_get p)
              end in
    let z := match p' with Some r => cursor_store z cur r | None => z end in
    match left' with
    | O => z
    | S _ =>
      let cur := match zone_page_cursor_next z cur with Some c => c | None => cur end in
      unroll_loop z cur increment left'
    end
  end.

Definition pmm_change_pages_ref (z : MemZone) (start_ppn page_number : Z) (increment : bool)
  : Z * MemZone :=
  if page_number =? 0 then (- E_IN_PARAM, z)
  else if negb (ppn_in_Zone z start_ppn) then (- E_IN_PARAM, z)
  else
    match zone_page_cursor_init z start_ppn with
    | None => (- E_IN_PARAM, z)
    | Some cur =>
      let z := pmm_lock z in
      let '(i, z, ok) := change_loop z cur increment 0 (Z.to_nat page_number) in
      if (ok : bool) then (REND_SUCCESS, pmm_unlock z)
      else
        let z := match zone_page_cursor_init z start_ppn with
                 | Some ucur => unroll_loop z ucur increment (Z.to_nat i)
                 | None => z
                 end in
        (- E_RENDEZVOS, pmm_unlock z)
    end.

(** ** The zone as one flat array *)

(** counts of all frames in zone order, and their frame numbers *)
Definition zone_refs (z : MemZone) : list Z := concat (map sec_pages (secs z)).
Definition sec_ppns (s : MemSection) : list Z :=
  map (fun k => PPN (sec_lower s) + Z.of_nat k) (seq 0 (length (sec_pages s))).
Definition zone_ppns (z : MemZone) : list Z := concat (map sec_ppns (secs z)).

Definition sec_ok (s : MemSection) : Prop :=
  exists p0, 0 <= p0 /\ p0 + page_count s < 2 ^ 51 /\ 0 < page_count s /\
    sec_lower s = p0 * PAGE_SIZE /\ sec_upper s = (p0 + page_count s) * PAGE_SIZE.
Definition zone_ok (z : MemZone) : Prop :=
  Forall sec_ok (secs z) /\ Z.of_nat (length (zone_refs z)) < 2 ^ 62.

Definition sec_offset (z : MemZone) (k : nat) : nat := length (concat (map sec_pages (take k (secs z)))).

Definition cursor_at (z : MemZone) (cur : ZonePageCursor) (g : nat) : Prop :=
  exists k s, cur_sec cur = Some k /\ secs z !! k = Some s /\ 0 <= sec_index cur < page_count s /\
    sec_base_index cur = Z.of_nat (sec_offset z k) /\ g = (sec_offset z k + Z.to_nat (sec_index cur))%nat.

Lemma flat_split {B} (f : MemSection -> list B) (l : list MemSection) k s :
  l !! k = Some s ->
  concat (map f l) = concat (map f (take k l)) ++ f s ++ concat (map f (drop (S k) l)).
Proof.
  intros Hk. rewrite <- (take_drop_middle l k s Hk) at 1. by rewrite map_app, concat_app.
Qed.

Lemma offset_eq z k : length (concat (map sec_ppns (take k (secs z)))) = sec_offset z k.
Proof.
  unfold sec_offset. generalize (take k (secs z)). intros l. induction l as [|s l IH]; [done|].
  cbn. rewrite !length_app, IH. f_equal. unfold sec_ppns. by rewrite length_map, length_seq.
Qed.

Lemma zone_lookup z k s i :
  secs z !! k = Some s -> (i < length (sec_pages s))%nat ->
  zone_refs z !! (sec_offset z k + i)%nat = sec_pages s !! i /\
  zone_ppns z !! (sec_offset z k + i)%nat = Some (PPN (sec_lower s) + Z.of_nat i).
Proof.
  intros Hk Hi. pose proof (offset_eq z k) as Ho.
  assert (Hl : length (sec_ppns s) = length (sec_pages s)) by (unfold sec_ppns; by rewrite length_map, length_seq).
  split.
  - unfold zone_refs, sec_offset. rewrite (flat_split sec_pages _ k s Hk), lookup_app_r, lookup_app_l by lia.
    f_equal. lia.
  - unfold zone_ppns. rewrite (flat_split sec_ppns _ k s Hk), lookup_app_r, lookup_app_l by lia. rewrite Ho.
    replace (sec_offset z k + i - sec_offset z k)%nat with i by lia.
    unfold sec_ppns. rewrite list_lookup_fmap, lookup_seq_lt by done. done.
Qed.

Lemma zone_ppns_length z : length (zone_ppns z) = length (zone_refs z).
Proof.
  unfold zone_ppns, zone_refs. generalize (secs z). intros l. induction l as [|s l IH]; [done|].
  cbn. rewrite !length_app, IH. f_equal. unfold sec_ppns. by rewrite length_map, length_seq.
Qed.

Lemma sec_offset_bound z k s :
  secs z !! k = Some s -> (sec_offset z k + length (sec_pages s) <= length (zone_refs z))%nat.
Proof.
  intros Hk. unfold zone_refs. rewrite (flat_split _ _ k s Hk), !length_app. unfold sec_offset. lia.
Qed.

Lemma sec_offset_succ z k s :
  secs z !! k = Some s -> sec_offset z (S k) = (sec_offset z k + length (sec_pages s))%nat.
Proof.
  intros Hk. unfold sec_offset. rewrite (take_S_r _ _ _ Hk), map_app, concat_app, length_app.
  cbn. by rewrite app_nil_r.
Qed.

Lemma sec_offset_end z k : (length (secs z) <= k)%nat -> sec_offset z k = length (zone_refs z).
Proof. intros Hk. unfold sec_offset. by rewrite take_ge. Qed.

(** ** The cursor against the flat array *)

Lemma cursor_page_at z cur g :
  cursor_at z cur g -> (g < length (zone_refs z))%nat /\
    zone_page_cursor_page z cur = zone_refs z !! g.
Proof.
  intros (k & s & Hc & Hk & Hi & _ & ->). unfold page_count in Hi.
  pose proof (sec_offset_bound z k s Hk). split; [lia|].
  unfold zone_page_cursor_page. rewrite Hc, Hk. unfold page_count.
  destruct (Z.leb_spec (Z.of_nat (length (sec_pages s))) (sec_index cur)); [lia|].
  symmetry. apply zone_lookup; [done|lia].
Qed.

Lemma cursor_index_at z cur g :
  zone_ok z -> cursor_at z cur g -> zone_page_cursor_index cur = Z.of_nat g.
Proof.
  intros [_ Hb] (k & s & Hc & Hk & Hi & Hbase & ->). unfold page_count in Hi.
  pose proof (sec_offset_bound z k s Hk). unfold zone_page_cursor_index. rewrite Hc, Hbase.
  rewrite (i64_small (sec_index cur)), i64_small by lia. lia.
Qed.

(** stores keep the shape *)
Definition same_shape (z z' : MemZone) : Prop :=
  zone_lower z' = zone_lower z /\ zone_upper z' = zone_upper z /\
  Forall2 (fun s s' => sec_lower s' = sec_lower s /\ sec_upper s' = sec_upper s /\
             length (sec_pages s') = length (sec_pages s)) (secs z) (secs z').

Lemma same_shape_refl z : same_shape z z.
Proof. split; [done|]. split; [done|]. apply Forall_Forall2_diag, Forall_true. done. Qed.

Lemma same_shape_trans z1 z2 z3 : same_shape z1 z2 -> same_shape z2 z3 -> same_shape z1 z3.
Proof.
  intros (A1 & A2 & A3) (B1 & B2 & B3). split; [congruence|]. split; [congruence|].
  revert B3. generalize (secs z3). induction A3 as [|s1 s2 l1 l2 (C1 & C2 & C3) _ IH]; intros l3 H.
  - by inversion H.
  - inversion H as [|? s3 ? ? (D1 & D2 & D3) Hr]; subst. constructor; [split_and!; congruence|by apply IH].
Qed.

Lemma same_shape_lock z b : same_shape z (mk_zone (zone_lower z) (zone_upper z) (secs z) b).
Proof. apply (same_shape_refl z). Qed.

Lemma cursor_store_spec z cur g r :
  cursor_at z cur g ->
  zone_refs (cursor_store z cur r) = <[g := r]> (zone_refs z) /\
  same_shape z (cursor_store z cur r) /\ zlock (cursor_store z cur r) = zlock z.
Proof.
  intros (k & s & Hc & Hk & Hi & _ & ->). unfold cursor_store. rewrite Hc, Hk. cbn [set_secs zlock].
  pose proof (lookup_lt_Some _ _ _ Hk) as Hlt. unfold page_count in Hi.
  set (s' := mk_sec _ _ _). split; [|split; [|done]].
  - unfold zone_refs at 1. cbn [set_secs secs].
    rewrite (flat_split sec_pages (<[k := s']> (secs z)) k s') by by apply list_lookup_insert_eq.
    rewrite take_insert_ge, drop_insert_lt by lia. unfold zone_refs. rewrite (flat_split sec_pages (secs z) k s Hk).
    rewrite insert_app_r_alt by (unfold sec_offset; lia). f_equal.
    replace (sec_offset z k + Z.to_nat (sec_index cur) - length (concat (map sec_pages (take k (secs z)))))%nat
      with (Z.to_nat (sec_index cur)) by (unfold sec_offset; lia).
    rewrite insert_app_l by lia. done.
  - split; [done|]. split; [done|]. cbn [set_secs secs].
    apply Forall2_same_length_lookup_2; [by rewrite length_insert|]. intros i x y Hx Hy.
    destruct (decide (k = i)) as [<-|Hne].
    + rewrite list_lookup_insert_eq in Hy by done. simplify_eq. cbn. by rewrite length_insert.
    + rewrite list_lookup_insert_ne in Hy by done. simplify_eq. done.
Qed.

Lemma same_shape_facts z z' :
  same_shape z z' ->
  (forall k, sec_offset z' k = sec_offset z k) /\ length (zone_refs z') = length (zone_refs z) /\
  zone_ppns z' = zone_ppns z /\ (zone_ok z -> zone_ok z') /\
  (forall cur g, cursor_at z cur g -> cursor_at z' cur g).
Proof.
  intros (E1 & E2 & Hf).
  assert (Hlen : forall l l', Forall2 (fun s s' => sec_lower s' = sec_lower s /\ sec_upper s' = sec_upper s /\
             length (sec_pages s') = length (sec_pages s)) l l' ->
             length (concat (map sec_pages l')) = length (concat (map sec_pages l)) /\
             concat (map sec_ppns l') = concat (map sec_ppns l)).
  { intros l l' H. induction H as [|s s' l l' (A & B & C) _ [IH1 IH2]]; [done|]. cbn.
    rewrite !length_app, IH1, IH2, C. split; [done|]. f_equal. unfold sec_ppns. by rewrite A, C. }
  assert (Hoff : forall k, sec_offset z' k = sec_offset z k).
  { intros k. unfold sec_offset. apply Hlen. by apply Forall2_take. }
  split; [done|]. split; [apply (Hlen _ _ Hf)|]. split; [apply (Hlen _ _ Hf)|]. split.
  - intros [Hs Hb]. split; [|unfold zone_refs; by rewrite (proj1 (Hlen _ _ Hf))].
    apply Forall_lookup_2. intros i s' Hs'.
    destruct (Forall2_lookup_r _ _ _ _ _ Hf Hs') as (s & Hs1 & (A & B & C)).
    destruct (Forall_lookup_1 _ _ _ _ Hs Hs1) as (p0 & H). exists p0. unfold page_count in *. rewrite A, B, C. done.
  - intros cur g (k & s & Hc & Hk & Hi & Hb & ->).
    destruct (Forall2_lookup_l _ _ _ _ _ Hf Hk) as (s' & Hs1 & (A & B & C)).
    exists k, s'. unfold page_count in *. rewrite Hoff, C. done.
Qed.

Lemma cursor_next_at z cur g :
  zone_ok z -> cursor_at z cur g ->
  match zone_page_cursor_next z cur with
  | Some cur' => cursor_at z cur' (S g) /\ (S g < length (zone_refs z))%nat
  | None => S g = length (zone_refs z)
  end.
Proof.
  intros [Hs Hb] (k & s & Hc & Hk & Hi & Hbase & ->). unfold page_count in Hi.
  pose proof (sec_offset_bound z k s Hk) as Hob. pose proof (sec_offset_succ z k s Hk) as Hos.
  unfold zone_page_cursor_next. rewrite Hc, Hk. unfold page_count. rewrite u64_small by lia.
  destruct (Z.ltb_spec (sec_index cur + 1) (Z.of_nat (length (sec_pages s)))).
  - split; [|lia]. exists k, s. cbn [cur_sec sec_index sec_base_index]. unfold page_count. split_and!; try done; lia.
  - destruct (secs z !! S k) as [s2|] eqn:Hk2.
    + destruct (Forall_lookup_1 _ _ _ _ Hs Hk2) as (p0 & H1 & H2 & H3 & _). unfold page_count in H3.
      pose proof (sec_offset_bound z (S k) s2 Hk2). split; [|lia].
      exists (S k), s2. cbn [cur_sec sec_index sec_base_index]. unfold page_count.
      rewrite (i64_small (Z.of_nat (length (sec_pages s)))), i64_small by lia.
      split_and!; try done; lia.
    + apply lookup_ge_None in Hk2. rewrite (sec_offset_end z (S k) Hk2) in Hos. lia.
Qed.

Lemma ppn_sec_index s ppn :
  sec_ok s -> ppn_in_Sec s ppn = true -> 0 <= ppn < 2 ^ 51 ->
  u64 (ppn - PPN (sec_lower s)) = ppn - PPN (sec_lower s) /\ 0 <= ppn - PPN (sec_lower s) < page_count s.
Proof.
  intros (p0 & H0 & H1 & H2 & Hl & Hu) Hin Hp. unfold ppn_in_Sec in Hin.
  destruct (invalid_ppn ppn); [done|]. bool_hyps. unfold PADDR, PPN, PAGE_SIZE in *.
  rewrite Z.shiftl_mul_pow2 in * by lia. rewrite i64_small in * by lia.
  change (2 ^ 12) with 4096 in *. rewrite u64_small in * by lia. rewrite Hl, Z.shiftr_div_pow2 by lia.
  rewrite (u64_small (p0 * 4096)) by lia. change (2 ^ 12) with 4096. rewrite Z.div_mul by lia.
  assert (Hr : 0 <= ppn - p0 < page_count s) by lia. split; [|done]. apply u64_small.
  unfold page_count in *. lia.
Qed.

(** [zone_page_cursor_init] lands on the frame with the given number *)
Lemma cursor_init_at z ppn cur :
  zone_ok z -> 0 <= ppn < 2 ^ 51 -> zone_page_cursor_init z ppn = Some cur ->
  exists g, cursor_at z cur g /\ zone_ppns z !! g = Some ppn.
Proof.
  intros [Hs Hb] Hp. unfold zone_page_cursor_init. destruct (_ || _); [done|].
  assert (Hgen : forall l k base, drop k (secs z) = l -> base = Z.of_nat (sec_offset z k) ->
    cursor_init_secs l k base ppn = Some cur -> exists g, cursor_at z cur g /\ zone_ppns z !! g = Some ppn).
  { induction l as [|s l IH]; intros k base Hd Hbase Hi; cbn [cursor_init_secs] in Hi; [done|].
    assert (Hk : secs z !! k = Some s).
    { pose proof (lookup_drop (secs z) k 0) as E. rewrite Hd, Nat.add_0_r in E. by rewrite <- E. }
    pose proof (sec_offset_bound z k s Hk).
    destruct (ppn_in_Sec s ppn) eqn:Hin; cbn [negb] in Hi.
    - destruct (ppn_sec_index s ppn (Forall_lookup_1 _ _ _ _ Hs Hk) Hin Hp) as [E Hr]. rewrite E in Hi.
      destruct (Z.leb_spec (page_count s) (ppn - PPN (sec_lower s))); [lia|]. injection Hi as <-.
      exists (sec_offset z k + Z.to_nat (ppn - PPN (sec_lower s)))%nat. split.
      + exists k, s. cbn. split; [done|]. split; [done|]. split; [done|]. by split.
      + unfold page_count in Hr. rewrite (proj2 (zone_lookup z k s (Z.to_nat (ppn - PPN (sec_lower s))) Hk ltac:(lia))). f_equal. lia.
    - apply (IH (S k) (i64 (base + i64 (page_count s)))); [|rewrite (sec_offset_succ z k s Hk)|exact Hi].
      + by rewrite <- Nat.add_1_r, <- drop_drop, Hd.
      + unfold page_count. rewrite (i64_small (Z.of_nat (length (sec_pages s)))), i64_small by lia. lia. }
  by apply (Hgen _ 0%nat 0).
Qed.

(** ** Finding a frame *)

(** sections lie inside the zone and no frame number occurs twice *)
Definition zone_inside (z : MemZone) : Prop :=
  Forall (fun s => zone_lower z <= sec_lower s /\ sec_upper s <= zone_upper z) (secs z) /\ NoDup (zone_ppns z).

Lemma same_shape_inside z z' : same_shape z z' -> zone_inside z -> zone_inside z'.
Proof.
  intros Hsh [Hf Hnd]. destruct (same_shape_facts _ _ Hsh) as (_ & _ & Hp & _). destruct Hsh as (E1 & E2 & H2).
  split; [|by rewrite Hp]. apply Forall_lookup_2. intros i s' Hs'.
  destruct (Forall2_lookup_r _ _ _ _ _ H2 Hs') as (s & Hs & (A & B & _)).
  rewrite E1, E2, A, B. by apply (Forall_lookup_1 _ _ _ _ Hf Hs).
Qed.

Lemma ppn_in_sec_ok s p0 i :
  0 <= p0 -> p0 + page_count s < 2 ^ 51 -> sec_lower s = p0 * PAGE_SIZE -> sec_upper s = (p0 + page_count s) * PAGE_SIZE ->
  0 <= i < page_count s ->
  PPN (sec_lower s) = p0 /\ PADDR (p0 + i) = (p0 + i) * PAGE_SIZE /\ invalid_ppn (p0 + i) = false /\ ppn_in_Sec s (p0 + i) = true.
Proof.
  intros H0 H1 Hl Hu Hi. unfold page_count, PAGE_SIZE in *.
  assert (E1 : PPN (sec_lower s) = p0).
  { unfold PPN. rewrite Hl, Z.shiftr_div_pow2 by lia. rewrite u64_small by lia. change (2 ^ 12) with 4096. by rewrite Z.div_mul by lia. }
  assert (E2 : PADDR (p0 + i) = (p0 + i) * 4096).
  { unfold PADDR. rewrite i64_small, Z.shiftl_mul_pow2 by lia. change (2 ^ 12) with 4096. by rewrite u64_small by lia. }
  assert (E3 : invalid_ppn (p0 + i) = false) by (unfold invalid_ppn; rewrite i64_small by lia; apply Z.ltb_ge; lia).
  split; [done|]. split; [done|]. split; [done|]. unfold ppn_in_Sec. rewrite E3, E2, Hl, Hu.
  apply andb_true_intro. split; [apply Z.leb_le|apply Z.ltb_lt]; lia.
Qed.

(** every frame of the zone is found, at its own place *)
Lemma cursor_init_complete z g p :
  zone_ok z -> zone_inside z -> zone_ppns z !! g = Some p ->
  ppn_in_Zone z p = true /\ 0 <= p < 2 ^ 51 /\ exists cur, zone_page_cursor_init z p = Some cur /\ cursor_at z cur g.
Proof.
  intros Hz [Hin Hnd] Hg. pose proof Hz as [Hs Hb].
  assert (exists s, s ∈ secs z /\ p ∈ sec_ppns s) as (s & Hsm & Hp).
  { apply list_elem_of_lookup_2 in Hg. unfold zone_ppns in Hg. revert Hg. generalize (secs z). intros l.
    induction l as [|s l IH]; cbn [map concat]; intros H; [by apply elem_of_nil in H|].
    apply elem_of_app in H as [H|H]; [exists s; split; [left|done]|].
    destruct (IH H) as (s' & ? & ?). exists s'. split; [by right|done]. }
  pose proof (proj1 (Forall_forall _ _) Hs s Hsm) as (p0 & H0 & H1 & H2 & Hl & Hu).
  pose proof (proj1 (Forall_forall _ _) Hin s Hsm) as [Hzl Hzu].
  unfold sec_ppns in Hp. apply list_elem_of_fmap in Hp as (i & -> & Hi). apply elem_of_seq in Hi.
  destruct (ppn_in_sec_ok s p0 (Z.of_nat i) H0 H1 Hl Hu) as (E1 & E2 & E3 & E4); [unfold page_count; lia|]. rewrite E1 in *.
  assert (Hpz : ppn_in_Zone z (p0 + Z.of_nat i) = true).
  { unfold ppn_in_Zone. rewrite E3, E2. unfold page_count, PAGE_SIZE in *. apply andb_true_intro. split; [apply Z.leb_le|apply Z.ltb_lt]; lia. }
  assert (Hr : 0 <= p0 + Z.of_nat i < 2 ^ 51) by (unfold page_count in H1; lia).
  split; [done|]. split; [done|].
  destruct (zone_page_cursor_init z (p0 + Z.of_nat i)) as [cur|] eqn:Ec.
  - exists cur. split; [done|]. destruct (cursor_init_at z _ cur Hz Hr Ec) as (g' & Hc & Hg').
    by rewrite (NoDup_lookup _ _ _ _ Hnd Hg Hg').
  - exfalso. unfold zone_page_cursor_init in Ec. rewrite E3, Hpz in Ec. cbn [orb negb] in Ec. revert Ec Hs Hsm.
    generalize 0 at 1. generalize 0%nat. generalize (secs z). intros l. induction l as [|s' l IH]; intros k base Ec Hs Hsm.
    { by apply elem_of_nil in Hsm. }
    apply list.Forall_cons in Hs as [Hs' Hs]. cbn [cursor_init_secs] in Ec.
    destruct (ppn_in_Sec s' (p0 + Z.of_nat i)) eqn:Es; cbn [negb] in Ec.
    + destruct (ppn_sec_index s' _ Hs' Es Hr) as [E Hr']. rewrite E in Ec.
      destruct (Z.leb_spec (page_count s') (p0 + Z.of_nat i - PPN (sec_lower s'))); [lia|done].
    + apply elem_of_cons in Hsm as [->|Hsm]; [congruence|]. by apply (IH _ _ Ec).
Qed.

(** ** Changing counts *)

(** counts [g .. g+n) shifted by [d] *)
Definition bump_range (refs : list Z) (g n : nat) (d : Z) : list Z :=
  imap (fun i r => if decide (g <= i < g + n)%nat then r + d else r) refs.

Lemma bump_range_lookup refs g n d i :
  bump_range refs g n d !! i = (fun r => if decide (g <= i < g + n)%nat then r + d else r) <$> refs !! i.
Proof. unfold bump_range. by rewrite list_lookup_imap. Qed.

Lemma bump_range_0 refs g d : bump_range refs g 0 d = refs.
Proof.
  apply list_eq. intros i. rewrite bump_range_lookup. destruct (refs !! i); [|done]. cbn.
  by rewrite decide_False by lia.
Qed.

Lemma bump_range_step refs g n d r :
  refs !! g = Some r -> bump_range (<[g := r + d]> refs) (S g) n d = bump_range refs g (S n) d.
Proof.
  intros Hg. pose proof (lookup_lt_Some _ _ _ Hg). apply list_eq. intros i. rewrite !bump_range_lookup.
  destruct (decide (g = i)) as [<-|Hne].
  - rewrite list_lookup_insert_eq, Hg by done. cbn. rewrite decide_False, decide_True by lia. done.
  - rewrite list_lookup_insert_ne by done. destruct (refs !! i) as [x|]; [|done]. cbn.
    f_equal. repeat case_decide; lia.
Qed.

Lemma bump_range_undo refs g n d : bump_range (bump_range refs g n d) g n (- d) = refs.
Proof.
  apply list_eq. intros i. rewrite !bump_range_lookup. destruct (refs !! i) as [x|]; [|done]. cbn.
  f_equal. case_decide; lia.
Qed.

Definition ref_delta (increment : bool) : Z := if increment then 1 else -1.

(** [n] live frames from [g] on *)
Definition live_range (refs : list Z) (g n : nat) : Prop :=
  forall i, (g <= i < g + n)%nat -> exists r, refs !! i = Some r /\ 0 < r < 2 ^ 62.

Definition dead_at (refs : list Z) (i : nat) : Prop := exists r, refs !! i = Some r /\ r <= 0.

(** the forward loop: all [S n] frames live, or stopped at the first dead one *)
Lemma change_loop_spec n z cur g inc i :
  zone_ok z -> cursor_at z cur g -> (g + S n <= length (zone_refs z))%nat ->
  (live_range (zone_refs z) g (S n) ->
     exists z', change_loop z cur inc i (S n) = (i + Z.of_nat (S n), z', true) /\ same_shape z z' /\
       zone_refs z' = bump_range (zone_refs z) g (S n) (ref_delta inc) /\ zlock z' = zlock z) /\
  (forall j, (j <= n)%nat -> live_range (zone_refs z) g j -> dead_at (zone_refs z) (g + j) ->
     exists z', change_loop z cur inc i (S n) = (i + Z.of_nat j, z', false) /\ same_shape z z' /\
       zone_refs z' = bump_range (zone_refs z) g j (ref_delta inc) /\ zlock z' = zlock z).
Proof.
  revert z cur g i. induction n as [|n IH]; intros z cur g i Hz Hc Hlen.
  all: destruct (cursor_page_at z cur g Hc) as [Hg Hpage].
  all: destruct (lookup_lt_is_Some_2 (zone_refs z) g Hg) as [r Hr]; rewrite Hr in Hpage.
  all: set (upd := if inc then phy_Page_ref_get (Some r)
                   else if negb (phy_Page_refed (Some r)) then (false, Some r) else (true, phy_Page_ref_put (Some r))).
  all: assert (Hlive : 0 < r < 2 ^ 62 -> upd = (true, Some (r + ref_delta inc))) by
    (intros H; unfold upd, phy_Page_ref_get, phy_Page_refed, phy_Page_ref_put, ref_delta;
     destruct inc; [destruct (Z.leb_spec r 0); [lia|]|destruct (Z.ltb_spec 0 r); [|lia]; cbn [negb]];
     rewrite i64_small by lia; done).
  all: assert (Hdead : r <= 0 -> upd = (false, Some r)) by
    (intros H; unfold upd, phy_Page_ref_get, phy_Page_refed;
     destruct inc; [destruct (Z.leb_spec r 0); [|lia]|destruct (Z.ltb_spec 0 r); [lia|]]; done).
  all: destruct (cursor_store_spec z cur g (r + ref_delta inc) Hc) as (Hst & Hsh & Hlk).
  - split.
    + intros Hl. destruct (Hl g ltac:(lia)) as (r' & Hr' & Hb). assert (r' = r) as -> by congruence.
      cbn [change_loop]. rewrite Hpage. fold upd. rewrite (Hlive Hb). cbn [negb].
      eexists. split; [done|]. split; [done|]. split; [|done]. rewrite Hst.
      by rewrite <- (bump_range_step _ g 0 _ r Hr), bump_range_0.
    + intros j Hj Hl (r' & Hr' & Hb). assert (j = 0)%nat as -> by lia. rewrite Nat.add_0_r in Hr'.
      assert (r' = r) as -> by congruence. cbn [change_loop]. rewrite Hpage. fold upd. rewrite (Hdead Hb). cbn [negb].
      exists z. rewrite Z.add_0_r, bump_range_0. split; [done|]. split; [apply same_shape_refl|done].
  - assert (Hloop : 0 < r < 2 ^ 62 -> exists cur', cursor_at (cursor_store z cur (r + ref_delta inc)) cur' (S g) /\
      change_loop z cur inc i (S (S n)) = change_loop (cursor_store z cur (r + ref_delta inc)) cur' inc (i + 1) (S n)).
    { intros Hb. destruct (same_shape_facts _ _ Hsh) as (_ & Hl' & _ & Hz' & Hc').
      pose proof (cursor_next_at _ cur g (Hz' Hz) (Hc' _ _ Hc)) as Hn. rewrite Hl' in Hn.
      set (fuel := S n) at 1. cbn [change_loop]. rewrite Hpage. fold upd. rewrite (Hlive Hb). cbn [negb].
      unfold fuel at 1. destruct (zone_page_cursor_next _ cur) as [cur'|]; [|lia].
      exists cur'. split; [apply Hn|done]. }
    destruct (same_shape_facts _ _ Hsh) as (_ & Hl' & _ & Hz' & _).
    split.
    + intros Hl. destruct (Hl g ltac:(lia)) as (r' & Hr' & Hb). assert (r' = r) as -> by congruence.
      destruct (Hloop Hb) as (cur' & Hcur' & ->).
      destruct (proj1 (IH _ cur' (S g) (i + 1) (Hz' Hz) Hcur' ltac:(lia))) as (z' & H1 & H2 & H3 & H4).
      { intros k Hk. rewrite Hst, list_lookup_insert_ne by lia. apply Hl. lia. }
      exists z'. rewrite H1. split; [do 2 f_equal; lia|]. split; [by eapply same_shape_trans|].
      split; [|congruence]. rewrite H3, Hst. by apply bump_range_step.
    + intros j Hj Hl Hd. destruct j as [|j].
      * destruct Hd as (r' & Hr' & Hb). rewrite Nat.add_0_r in Hr'. assert (r' = r) as -> by congruence.
        cbn [change_loop]. rewrite Hpage. fold upd. rewrite (Hdead Hb). cbn [negb].
        exists z. rewrite Z.add_0_r, bump_range_0. split; [done|]. split; [apply same_shape_refl|done].
      * destruct (Hl g ltac:(lia)) as (r' & Hr' & Hb). assert (r' = r) as -> by congruence.
        destruct (Hloop Hb) as (cur' & Hcur' & ->).
        destruct (proj2 (IH _ cur' (S g) (i + 1) (Hz' Hz) Hcur' ltac:(lia)) j) as (z' & H1 & H2 & H3 & H4); [lia| | |].
        { intros k Hk. rewrite Hst, list_lookup_insert_ne by lia. apply Hl. lia. }
        { destruct Hd as (rd & Hrd & Hbd). exists rd. rewrite Hst, list_lookup_insert_ne by lia.
          split; [|done]. rewrite <- Hrd. f_equal. lia. }
        exists z'. rewrite H1. split; [do 2 f_equal; lia|]. split; [by eapply same_shape_trans|].
        split; [|congruence]. rewrite H3, Hst. by apply bump_range_step.
Qed.

(** the rollback loop adds the opposite amount when every frame can take it *)
Lemma unroll_loop_spec n z cur g inc :
  zone_ok z -> cursor_at z cur g -> (g + n <= length (zone_refs z))%nat ->
  (forall i, (g <= i < g + n)%nat -> exists r, zone_refs z !! i = Some r /\ -1 <= r < 2 ^ 62 + 1 /\ (inc = false -> 0 < r)) ->
  zone_refs (unroll_loop z cur inc n) = bump_range (zone_refs z) g n (- ref_delta inc) /\
  same_shape z (unroll_loop z cur inc n) /\ zlock (unroll_loop z cur inc n) = zlock z.
Proof.
  revert z cur g. induction n as [|n IH]; intros z cur g Hz Hc Hlen Hr.
  { cbn [unroll_loop]. rewrite bump_range_0. split; [done|]. split; [apply same_shape_refl|done]. }
  destruct (Hr g ltac:(lia)) as (r & Hg & Hb & Hp). destruct (cursor_page_at z cur g Hc) as [_ Hpage]. rewrite Hg in Hpage.
  destruct (cursor_store_spec z cur g (r + - ref_delta inc) Hc) as (Hst & Hsh & Hlk).
  destruct (same_shape_facts _ _ Hsh) as (_ & Hl' & _ & Hz' & Hc').
  pose proof (cursor_next_at _ cur g (Hz' Hz) (Hc' _ _ Hc)) as Hn. rewrite Hl' in Hn.
  assert (Hupd : (if inc then phy_Page_ref_put (Some r) else snd (phy_Page_ref_get (Some r))) = Some (r + - ref_delta inc)).
  { unfold phy_Page_ref_put, phy_Page_ref_get, ref_delta. destruct inc.
    - rewrite i64_small by lia. done.
    - specialize (Hp eq_refl). destruct (Z.leb_spec r 0); [lia|]. cbn [snd]. rewrite i64_small by lia. do 2 f_equal. }
  destruct n as [|n].
  - cbn [unroll_loop]. rewrite Hpage, Hupd. rewrite Hst. split; [|done].
    by rewrite <- (bump_range_step _ g 0 _ r Hg), bump_range_0.
  - destruct (zone_page_cursor_next (cursor_store z cur (r + - ref_delta inc)) cur) as [cur'|] eqn:En; [|lia].
    assert (E : unroll_loop z cur inc (S (S n)) = unroll_loop (cursor_store z cur (r + - ref_delta inc)) cur' inc (S n)).
    { set (m := S n) at 1. cbn [unroll_loop]. rewrite Hpage, Hupd. unfold m. by rewrite En. }
    rewrite E. destruct (IH _ cur' (S g) (Hz' Hz) (proj1 Hn) ltac:(lia)) as (H1 & H2 & H3).
    { intros i Hi. rewrite Hst, list_lookup_insert_ne by lia. apply Hr. lia. }
    split; [|split; [by eapply same_shape_trans|congruence]].
    rewrite H1, Hst. by apply bump_range_step.
Qed.

(** the cursor found for a zone is found for every zone of the same shape *)
Lemma cursor_init_shape z z' ppn : same_shape z z' -> zone_page_cursor_init z' ppn = zone_page_cursor_init z ppn.
Proof.
  intros (E1 & E2 & Hf). unfold zone_page_cursor_init, ppn_in_Zone. rewrite E1, E2. destruct (_ || _); [done|].
  assert (H : forall k b, cursor_init_secs (secs z') k b ppn = cursor_init_secs (secs z) k b ppn); [|apply H].
  induction Hf as [|s s' l l' (A & B & C) _ IH]; intros k b; [done|]. cbn [cursor_init_secs].
  unfold ppn_in_Sec, page_count. rewrite A, B, C. destruct (negb _); [apply IH|done].
Qed.

Lemma cursor_store_shape z cur r :
  same_shape z (cursor_store z cur r) /\ zlock (cursor_store z cur r) = zlock z.
Proof.
  unfold cursor_store. destruct (cur_sec cur) as [k|]; [|split; [apply same_shape_refl|done]].
  destruct (secs z !! k) as [s|] eqn:Hk; [|split; [apply same_shape_refl|done]].
  split; [|done]. split; [done|]. split; [done|]. cbn [set_secs secs].
  apply Forall2_same_length_lookup_2; [by rewrite length_insert|]. intros i x y Hx Hy.
  destruct (decide (k = i)) as [<-|Hne].
  - rewrite list_lookup_insert_eq in Hy by (by eapply lookup_lt_Some). simplify_eq. cbn. by rewrite length_insert.
  - rewrite list_lookup_insert_ne in Hy by done. simplify_eq. done.
Qed.

Lemma store_if_shape z cur (p : option Z) :
  same_shape z (match p with Some r => cursor_store z cur r | None => z end).
Proof. destruct p; [apply cursor_store_shape|apply same_shape_refl]. Qed.

Lemma change_loop_shape n z cur inc i : same_shape z (snd (fst (change_loop z cur inc i n))).
Proof.
  revert z cur i. induction n as [|n IH]; intros z cur i; cbn [change_loop]; [apply same_shape_refl|].
  destruct (zone_page_cursor_page z cur) as [r|]; [|apply same_shape_refl].
  destruct (if inc then _ else _) as [ok p']. destruct ok; cbn [negb]; [|apply same_shape_refl].
  pose proof (store_if_shape z cur p') as Hs. destruct n as [|n]; [done|].
  destruct (zone_page_cursor_next _ cur) as [cur'|]; [|done].
  eapply same_shape_trans; [exact Hs|apply IH].
Qed.

Lemma unroll_loop_shape n z cur inc : same_shape z (unroll_loop z cur inc n).
Proof.
  revert z cur. induction n as [|n IH]; intros z cur; cbn [unroll_loop]; [apply same_shape_refl|].
  destruct n as [|n]; [apply store_if_shape|].
  eapply same_shape_trans; [apply store_if_shape|apply IH].
Qed.

(** (functional): changing the counts of a run of frames inside the zone,
    possibly spanning sections.  When every frame is live each count moves by
    exactly one.  When some frame is dead the call fails and an increment is
    rolled back completely; a decrement is rolled back completely when every
    frame before the dead one had more than one reference.  No other count
    changes and the zone lock is released. *)
Theorem change_pages_ref_spec z ppn g n inc cur
    (Hz : zone_ok z) (Hp : 0 <= ppn < 2 ^ 51) (Hin : ppn_in_Zone z ppn = true)
    (Hcur : zone_page_cursor_init z ppn = Some cur) (Hg : cursor_at z cur g)
    (Hlen : (g + S n <= length (zone_refs z))%nat) :
  zone_ppns z !! g = Some ppn /\
  let '(e, z') := pmm_change_pages_ref z ppn (Z.of_nat (S n)) inc in
  zlock z' = false /\ same_shape z z' /\
  (live_range (zone_refs z) g (S n) ->
     e = REND_SUCCESS /\ zone_refs z' = bump_range (zone_refs z) g (S n) (ref_delta inc)) /\
  (forall j, (j <= n)%nat -> live_range (zone_refs z) g j -> dead_at (zone_refs z) (g + j) ->
     (inc = true \/ forall i, (g <= i < g + j)%nat -> exists r, zone_refs z !! i = Some r /\ 1 < r) ->
     e = - E_RENDEZVOS /\ zone_refs z' = zone_refs z).
Proof.
  destruct (cursor_init_at z ppn cur Hz Hp Hcur) as (g' & Hg' & Hpp).
  assert (g' = g) as ->.
  { pose proof (cursor_index_at z cur g Hz Hg). pose proof (cursor_index_at z cur g' Hz Hg'). lia. }
  split; [done|]. unfold pmm_change_pages_ref. rewrite Hin, Hcur. rewrite Nat2Z.id.
  destruct (Z.eqb_spec (Z.of_nat (S n)) 0); [lia|]. cbn [negb].
  pose proof (same_shape_facts z (pmm_lock z) (same_shape_lock z true)) as (_ & _ & _ & Hz1 & Hc1).
  pose proof (change_loop_spec n (pmm_lock z) cur g inc 0 (Hz1 Hz) (Hc1 _ _ Hg) Hlen) as [Hok Hbad].
  change (zone_refs (pmm_lock z)) with (zone_refs z) in Hok, Hbad.
  pose proof (change_loop_shape (S n) (pmm_lock z) cur inc 0) as Hsh.
  destruct (change_loop (pmm_lock z) cur inc 0 (S n)) as [[i z1] ok]. cbn [fst snd] in Hsh.
  destruct ok.
  - split; [done|]. split; [exact Hsh|]. split.
    + intros Hl. destruct (Hok Hl) as (z' & [= _ <-] & _ & H3 & _). by split.
    + intros j Hj Hl Hd _. by destruct (Hbad j Hj Hl Hd) as (z' & [= _ _] & _).
  - assert (Hsh' : same_shape z z1) by exact Hsh.
    rewrite (cursor_init_shape z z1 ppn Hsh'), Hcur.
    pose proof (unroll_loop_shape (Z.to_nat i) z1 cur inc) as Hsu.
    split; [done|]. split; [by eapply same_shape_trans; [exact Hsh'|exact Hsu]|]. split.
    + intros Hl. by destruct (Hok Hl) as (z' & [= _ _] & _).
    + intros j Hj Hl Hd Hr. split; [done|].
      destruct (Hbad j Hj Hl Hd) as (z' & [= Ei <-] & _ & H3 & _). rewrite Z.add_0_l in Ei. subst i. rewrite Nat2Z.id.
      destruct (same_shape_facts _ _ Hsh') as (_ & Hl' & _ & Hz' & Hc').
      destruct (unroll_loop_spec j z1 cur g inc (Hz' Hz) (Hc' _ _ Hg) ltac:(lia)) as (H1 & _).
      { intros k Hk. destruct (Hl k Hk) as (r & Hrk & Hb). exists (r + ref_delta inc).
        rewrite H3, bump_range_lookup, Hrk. cbn. rewrite decide_True by lia. split; [done|].
        unfold ref_delta. split; [destruct inc; lia|]. intros Einc. rewrite Einc in *. destruct Hr as [|Hr]; [done|].
        destruct (Hr k Hk) as (r' & Hr' & ?). simplify_eq. lia. }
      change (zone_refs (pmm_unlock (unroll_loop z1 cur inc j))) with (zone_refs (unroll_loop z1 cur inc j)).
      rewrite H1, H3. apply bump_range_undo.
Qed.

(** two sections of two frames each, at frames 16 and 32 *)
Definition demo_zone (r0 r1 r2 r3 : Z) : MemZone :=
  mk_zone 65536 139264
    [mk_sec 65536 73728 [r0; r1]; mk_sec 131072 139264 [r2; r3]] false.

Lemma demo_zone_ok r0 r1 r2 r3 : zone_ok (demo_zone r0 r1 r2 r3).
Proof.
  split; [|done]. repeat constructor; [exists 16|exists 32]; done.
Qed.

(** a run of three frames across both sections whose last frame is free *)
Lemma change_pages_ref_spec_witness :
  zone_refs (snd (pmm_change_pages_ref (demo_zone 2 3 0 5) 16 3 true)) = [2; 3; 0; 5] /\
  fst (pmm_change_pages_ref (demo_zone 2 3 0 5) 16 3 true) = - E_RENDEZVOS.
Proof.
  pose proof (change_pages_ref_spec (demo_zone 2 3 0 5) 16 0 2 true (mk_cur (Some 0%nat) 0 0)
    (demo_zone_ok 2 3 0 5) ltac:(lia) eq_refl eq_refl) as H.
  destruct H as [_ H]; [|cbn; lia|].
  { exists 0%nat, (mk_sec 65536 73728 [2; 3]). split; [done|]. split; [done|]. split; [unfold page_count; cbn; lia|done]. }
  change (Z.of_nat 3) with 3 in H.
  destruct (pmm_change_pages_ref (demo_zone 2 3 0 5) 16 3 true) as [e z'].
  destruct H as (_ & _ & _ & H). destruct (H 2%nat) as [He Hr]; [lia| | |left; reflexivity|].
  - intros i Hi. destruct i as [|[|i]]; [exists 2|exists 3|lia]; split; (reflexivity || lia).
  - exists 0. split; [reflexivity|lia].
  - split; [exact Hr|exact He].
Defined.

(** The rollback misses two cases.  A range that runs off the end of the zone
    fails after the last frame was already changed, and that frame is not
    restored; a decrement that took a count to zero before the failure
    cannot be undone, because the rollback refuses to revive a dead frame. *)
Example rollback_misses_last_frame :
  fst (pmm_change_pages_ref (demo_zone 1 1 1 1) 32 3 true) = - E_RENDEZVOS /\
  zone_refs (snd (pmm_change_pages_ref (demo_zone 1 1 1 1) 32 3 true)) = [1; 1; 1; 2].
Proof. vm_compute. split; reflexivity. Qed.

Example rollback_cannot_revive :
  fst (pmm_change_pages_ref (demo_zone 1 0 1 1) 16 2 false) = - E_RENDEZVOS /\
  zone_refs (snd (pmm_change_pages_ref (demo_zone 1 0 1 1) 16 2 false)) = [0; 0; 1; 1].
Proof. vm_compute. split; reflexivity. Qed.
