(* ===== verification/ListH.v ===== *)
(** * Intrusive lists

    [include/common/dsa/list.h]: circular doubly linked lists over a heap of
    [list_entry] nodes.  The refinement theorem shows that every operation
    implements the corresponding operation on a sequence, which is how the
    other files represent these lists. *)
From S2P Require Import Prelude.

(** [struct list_entry]: the two pointers of the node at each address *)
Record list_entry := mk_le { prev : Z; next : Z }.
Definition lheap : Type := Z -> list_entry.

Definition set_next (h : lheap) (n v : Z) : lheap :=
  fun x => if x =? n then mk_le (prev (h n)) v else h x.
Definition set_prev (h : lheap) (n v : Z) : lheap :=
  fun x => if x =? n then mk_le v (next (h n)) else h x.

Definition INIT_LIST_HEAD (h : lheap) (list_node : Z) : lheap :=
  let h := set_prev h list_node list_node in
  set_next h list_node list_node.

Definition __list_add (h : lheap) (new_node prev next : Z) : lheap :=
  let h := set_prev h next new_node in
  let h := set_next h new_node next in
  let h := set_prev h new_node prev in
  set_next h prev new_node.
Definition list_add_head (h : lheap) (new_node head : Z) : lheap :=
  __list_add h new_node head (next (h head)).
Definition list_add_tail (h : lheap) (new_node head : Z) : lheap :=
  __list_add h new_node (prev (h head)) head.
Definition __list_del (h : lheap) (prev next : Z) : lheap :=
  let h := set_next h prev next in
  set_prev h next prev.
Definition list_del_init (h : lheap) (node : Z) : lheap :=
  INIT_LIST_HEAD (__list_del h (prev (h node)) (next (h node))) node.
Definition list_del (h : lheap) (node : Z) : lheap := list_del_init h node.
Definition list_replace (h : lheap) (old_node new_node : Z) : lheap :=
  let h := set_next h new_node (next (h old_node)) in
  let h := set_prev h (next (h new_node)) new_node in
  let h := set_prev h new_node (prev (h old_node)) in
  set_next h (prev (h new_node)) new_node.
Definition list_replace_init (h : lheap) (old_node new_node : Z) : lheap :=
  INIT_LIST_HEAD (list_replace h old_node new_node) old_node.
Definition list_empty (h : lheap) (head : Z) : bool := next (h head) =? head.
Definition list_only_one_entry (h : lheap) (head : Z) : bool :=
  negb (list_empty h head) && (next (h head) =? prev (h head)).
Definition list_node_is_detached (h : lheap) (n : Z) : bool :=
  negb (n =? NULL) && (next (h n) =? n) && (prev (h n) =? n).
Definition list_node_is_valid (h : lheap) (n : Z) : bool :=
  negb (n =? NULL) && negb (next (h n) =? NULL) && negb (prev (h n) =? NULL).

(** ** Lists as sequences *)

(** the nodes [xs] are linked one after the other between [a] and [b] *)
Fixpoint lseg (h : lheap) (a : Z) (xs : list Z) (b : Z) : Prop :=
  match xs with
  | [] => next (h a) = b /\ prev (h b) = a
  | x :: xs' => next (h a) = x /\ prev (h x) = a /\ lseg h x xs' b
  end.

(** the list with head node [hd] holds exactly [xs], in order *)
Definition list_is (h : lheap) (hd : Z) (xs : list Z) : Prop :=
  NoDup (hd :: xs) /\ lseg h hd xs hd.

Lemma lseg_app h a xs y ys b : lseg h a (xs ++ y :: ys) b <-> lseg h a xs y /\ lseg h y ys b.
Proof.
  revert a. induction xs as [|x xs IH]; intros a; cbn [app lseg]; [tauto|]. rewrite IH. tauto.
Qed.

(** the segment reads [next] of [a :: xs] and [prev] of [xs ++ [b]] only *)
Lemma lseg_frame h h' a xs b :
  (forall x, x = a \/ x ∈ xs -> next (h' x) = next (h x)) ->
  (forall x, x = b \/ x ∈ xs -> prev (h' x) = prev (h x)) ->
  lseg h a xs b -> lseg h' a xs b.
Proof.
  revert a. induction xs as [|x xs IH]; intros a Hn Hp; cbn [lseg].
  - rewrite Hn, Hp by (by left). done.
  - rewrite Hn by (by left). rewrite (Hp x) by (right; left). intros (H1 & H2 & H3).
    split; [done|]. split; [done|]. apply IH; [| |done].
    + intros y [->|Hy]; apply Hn; right; [left|by right].
    + intros y [->|Hy]; apply Hp; [by left|right; by right].
Qed.

Lemma next_set_next h n v x : next (set_next h n v x) = if x =? n then v else next (h x).
Proof. unfold set_next. by destruct (x =? n). Qed.
Lemma prev_set_next h n v x : prev (set_next h n v x) = prev (h x).
Proof. unfold set_next. destruct (Z.eqb_spec x n) as [->|]; done. Qed.
Lemma next_set_prev h n v x : next (set_prev h n v x) = next (h x).
Proof. unfold set_prev. destruct (Z.eqb_spec x n) as [->|]; done. Qed.
Lemma prev_set_prev h n v x : prev (set_prev h n v x) = if x =? n then v else prev (h x).
Proof. unfold set_prev. by destruct (x =? n). Qed.
#[export] Hint Rewrite next_set_next prev_set_next next_set_prev prev_set_prev : lheap.

(** reading back a heap after a fixed number of pointer stores *)
Ltac lheap_simpl :=
  unfold __list_add, __list_del, INIT_LIST_HEAD; autorewrite with lheap;
  repeat case_bool; subst; try done; try lia.

Lemma add_head_ok h hd xs n :
  list_is h hd xs -> n ∉ hd :: xs -> list_is (list_add_head h n hd) hd (n :: xs).
Proof.
  intros [Hnd Hs] Hn. apply list.NoDup_cons in Hnd as [Hhd Hnd]. apply not_elem_of_cons in Hn as [Hne Hn].
  split; [apply list.NoDup_cons; split; [|by apply list.NoDup_cons]; set_solver|].
  unfold list_add_head. cbn [lseg]. destruct xs as [|x xs]; cbn [lseg] in *.
  - destruct Hs as [H1 H2]. rewrite H1. split; [lheap_simpl|]. split; [lheap_simpl|]. split; lheap_simpl.
  - destruct Hs as (H1 & H2 & H3). rewrite H1. split; [lheap_simpl|]. split; [lheap_simpl|].
    assert (x <> n /\ x <> hd) as [? ?] by set_solver.
    split; [lheap_simpl|]. split; [lheap_simpl|]. apply (lseg_frame h); [| |done].
    + intros y Hy. assert (y <> hd /\ y <> n) as [? ?] by set_solver. lheap_simpl.
    + intros y Hy. apply list.NoDup_cons in Hnd as [Hx _].
      assert (y <> x /\ y <> n) as [? ?] by (split; [destruct Hy as [->|]; [done|by intros ->]|set_solver]). lheap_simpl.
Qed.

Lemma add_tail_ok h hd xs n :
  list_is h hd xs -> n ∉ hd :: xs -> list_is (list_add_tail h n hd) hd (xs ++ [n]).
Proof.
  intros [Hnd Hs] Hn. pose proof Hn as [Hne Hnx]%not_elem_of_cons.
  split; [rewrite app_comm_cons; apply NoDup_app; split; [done|]; split; [set_solver|apply NoDup_singleton]|].
  unfold list_add_tail. apply lseg_app.
  destruct xs as [|x xs] using rev_ind; cbn [lseg] in *.
  - destruct Hs as [H1 H2]. rewrite H2. split; split; lheap_simpl.
  - clear IHxs. apply lseg_app in Hs as [H1 [H2 H3]]. rewrite H3.
    assert (x <> n /\ x <> hd /\ x ∉ xs) as (? & ? & ?).
    { apply list.NoDup_cons in Hnd as [? Hnd]. apply NoDup_app in Hnd as (_ & ? & _). set_solver. }
    apply list.NoDup_cons in Hnd as [Hhd _]. split; [|split; lheap_simpl].
    apply lseg_app. split; [|split; lheap_simpl]. apply (lseg_frame h); [| |done].
    + intros y Hy. assert (y <> x /\ y <> n) as [? ?] by (destruct Hy as [->|]; set_solver). lheap_simpl.
    + intros y Hy. assert (y <> hd /\ y <> n) as [? ?] by (destruct Hy as [->|]; set_solver). lheap_simpl.
Qed.

Lemma last_cons_default (x : Z) xs d : List.last (x :: xs) d = List.last xs x.
Proof.
  revert x d. induction xs as [|y xs IH]; intros x d; [done|].
  change (List.last (y :: xs) d = List.last (y :: xs) x). by rewrite !IH.
Qed.

(** the segment up to [n] names its predecessor, the rest its successor *)
Lemma lseg_last h a xs b :
  lseg h a xs b ->
  next (h (List.last xs a)) = b /\ prev (h b) = List.last xs a /\ (List.last xs a = a \/ List.last xs a ∈ xs).
Proof.
  revert a. induction xs as [|x xs IH]; intros a; cbn [lseg]; [intros [H1 H2]; split; [done|]; split; [done|by left]|].
  intros (H1 & H2 & H3). destruct (IH x H3) as (E1 & E2 & E3).
  rewrite last_cons_default. split; [done|]. split; [done|]. right. destruct E3 as [->|]; [left|by right].
Qed.

(** redirecting the end of a segment *)
Lemma lseg_retarget h h' a xs b c :
  NoDup (a :: xs) ->
  lseg h a xs b ->
  next (h' (List.last xs a)) = c -> prev (h' c) = List.last xs a ->
  (forall x, (x = a \/ x ∈ xs) -> x <> List.last xs a -> next (h' x) = next (h x)) ->
  (forall x, x ∈ xs -> prev (h' x) = prev (h x)) ->
  lseg h' a xs c.
Proof.
  revert a. induction xs as [|x xs IH]; intros a Hnd; cbn [lseg].
  { intros _ H1 H2 _ _. by split. }
  intros (H1 & H2 & H3) Hn Hp Hfn Hfp.
  rewrite !last_cons_default in *. apply list.NoDup_cons in Hnd as [Ha Hnd].
  destruct (lseg_last _ _ _ _ H3) as (_ & _ & Hin).
  split; [rewrite Hfn; [done|by left|intros E; apply Ha; destruct Hin as [E'|E']; rewrite E; [rewrite E'; left|by right]]|].
  split; [rewrite Hfp by left; done|].
  apply IH; [done|done|done|done| |].
  - intros y Hy. apply Hfn. right. destruct Hy as [->|]; [left|by right].
  - intros y Hy. apply Hfp. by right.
Qed.

Lemma del_ok h hd xs n ys :
  list_is h hd (xs ++ n :: ys) ->
  list_is (list_del h n) hd (xs ++ ys) /\ next (list_del h n n) = n /\ prev (list_del h n n) = n.
Proof.
  intros [Hnd Hs]. apply lseg_app in Hs as [Hx Hy].
  apply list.NoDup_cons in Hnd as [Hhd Hnd]. apply NoDup_app in Hnd as (Hndx & Hdis & Hndy).
  apply list.NoDup_cons in Hndy as [Hny Hndy].
  destruct (lseg_last _ _ _ _ Hx) as (E1 & E2 & Ein). set (p := List.last xs hd) in *.
  assert (Hq : exists q, next (h n) = q /\ prev (h q) = n /\ (q = hd \/ q ∈ ys)).
  { destruct ys as [|y ys]; cbn [lseg] in Hy; [exists hd; split_and!; [tauto|tauto|by left]|].
    exists y. split_and!; [tauto|tauto|right; left]. }
  destruct Hq as (q & F1 & F2 & Fin).
  assert (Hnhd : n <> hd) by set_solver.
  assert (Hpn : p <> n).
  { intros E. destruct Ein as [Ein|Ein]; [congruence|]. apply (Hdis p Ein). rewrite E. left. }
  assert (Hqn : q <> n) by (intros E; destruct Fin as [Fin|Fin]; congruence).
  unfold list_del, list_del_init. rewrite E2, F1.
  split; [|split; lheap_simpl]. split.
  { apply list.NoDup_cons. split; [set_solver|]. apply NoDup_app. split; [done|]. split; [|done].
    intros x Hxi Hyi. apply (Hdis x Hxi). by right. }
  set (h' := INIT_LIST_HEAD _ _).
  assert (Hnext : forall x, x <> n -> next (h' x) = if x =? p then q else next (h x)) by (intros x Hxn; unfold h'; lheap_simpl).
  assert (Hprev : forall x, x <> n -> prev (h' x) = if x =? q then p else prev (h x)) by (intros x Hxn; unfold h'; lheap_simpl).
  assert (Hxs : lseg h' hd xs q).
  { apply (lseg_retarget h h' hd xs n q); [apply list.NoDup_cons; set_solver|done| | | |].
    - fold p. rewrite Hnext by done. by rewrite Z.eqb_refl.
    - fold p. rewrite Hprev by done. by rewrite Z.eqb_refl.
    - fold p. intros x Hxi Hne. rewrite Hnext by set_solver. destruct (Z.eqb_spec x p); [done|done].
    - intros x Hxi. rewrite Hprev by set_solver. destruct (Z.eqb_spec x q) as [->|]; [|done].
      destruct Fin as [->|Fin]; [set_solver|]. exfalso. apply (Hdis q Hxi). by right. }
  destruct ys as [|y ys]; cbn [lseg] in Hy.
  - rewrite app_nil_r. destruct Fin as [->|Fin]; [done|by apply elem_of_nil in Fin].
  - destruct Hy as (G1 & G2 & G3). assert (q = y) as -> by congruence.
    apply lseg_app. split; [done|]. apply list.NoDup_cons in Hndy as [Hyy _].
    apply (lseg_frame h); [| |done].
    + intros x Hxi. rewrite Hnext by set_solver. destruct (Z.eqb_spec x p) as [->|]; [|done]. exfalso.
      destruct Ein as [Ep|Ein].
      * rewrite Ep in Hxi. apply Hhd. apply elem_of_app. right. right. destruct Hxi as [->|Hxi]; [left|by right].
      * apply (Hdis p Ein). right. destruct Hxi as [->|Hxi]; [left|by right].
    + intros x Hxi. rewrite Hprev by set_solver. destruct (Z.eqb_spec x y) as [->|]; [|done].
      exfalso. destruct Hxi as [E|Hxi]; [|done]. apply Hhd. rewrite <- E. apply elem_of_app. right. right. left.
Qed.

Lemma empty_ok h hd xs : list_is h hd xs -> list_empty h hd = true <-> xs = [].
Proof.
  intros [Hnd Hs]. unfold list_empty. rewrite Z.eqb_eq. destruct xs as [|x xs]; cbn [lseg] in Hs; [tauto|].
  destruct Hs as (-> & _). split; [|done]. intros ->. apply list.NoDup_cons in Hnd as [Hx _]. exfalso. apply Hx. left.
Qed.

Lemma only_one_ok h hd xs : list_is h hd xs -> list_only_one_entry h hd = true <-> exists x, xs = [x].
Proof.
  intros Hl. pose proof (empty_ok h hd xs Hl) as He. destruct Hl as [Hnd Hs]. unfold list_only_one_entry.
  destruct (lseg_last _ _ _ _ Hs) as (_ & E & _). rewrite E. destruct xs as [|x xs].
  - rewrite (proj2 He) by done. split; [done|]. by intros [? ?].
  - destruct (list_empty h hd); [by discriminate (proj1 He eq_refl)|]. cbn [negb andb]. destruct Hs as (-> & _ & Hs).
    rewrite Z.eqb_eq. destruct xs as [|y xs]; [split; [by exists x|done]|].
    split; [|by intros [? ?]]. intros Ex. exfalso. apply list.NoDup_cons in Hnd as [_ Hnd].
    apply list.NoDup_cons in Hnd as [Hx _]. apply Hx.
    rewrite !last_cons_default in Ex. destruct (lseg_last _ _ _ _ (proj2 (proj2 Hs))) as (_ & _ & [E2|E2]); rewrite Ex;
      [rewrite E2; left|by right].
Qed.

(** ** Rings: any node may serve as the head *)

Lemma ring_rotate h hd xs x ys : list_is h hd (xs ++ x :: ys) -> list_is h x (ys ++ hd :: xs).
Proof.
  intros [Hnd Hs]. split.
  - eapply NoDup_Permutation_proper; [|exact Hnd]. change (hd :: xs ++ x :: ys) with ((hd :: xs) ++ x :: ys).
    change (x :: ys ++ hd :: xs) with ((x :: ys) ++ hd :: xs). apply Permutation_app_comm.
  - apply lseg_app in Hs as [H1 H2]. apply lseg_app. by split.
Qed.
Lemma ring_frame h h' hd xs : (forall x, x ∈ hd :: xs -> h' x = h x) -> list_is h hd xs -> list_is h' hd xs.
Proof.
  intros Hf [Hnd Hs]. split; [done|]. apply (lseg_frame h); [| |done]; intros x Hx; rewrite Hf; try done; apply elem_of_cons; tauto.
Qed.
Lemma ring_around h hd xs x : list_is h hd xs -> x ∈ hd :: xs ->
  next (h x) ∈ hd :: xs /\ prev (h x) ∈ hd :: xs /\ (xs <> [] -> next (h x) <> x).
Proof.
  intros Hl Hx.
  assert (Hr : exists ys, list_is h x ys /\ (forall y, y ∈ x :: ys -> y ∈ hd :: xs) /\ (xs <> [] -> ys <> [])).
  { apply elem_of_cons in Hx as [->|Hx]; [by exists xs|]. apply list_elem_of_split in Hx as (l1 & l2 & ->).
    exists (l2 ++ hd :: l1). split_and!; [by apply ring_rotate| |intros _; by destruct l2]. intros y. rewrite !elem_of_cons, !elem_of_app, !elem_of_cons. tauto. }
  destruct Hr as (ys & [Hnd Hs] & Hin & He). destruct (lseg_last _ _ _ _ Hs) as (_ & E2 & E3).
  destruct ys as [|y ys].
  - cbn [lseg] in Hs. destruct Hs as [-> ->]. split_and!; [done|done|]. intros Hne. by destruct (He Hne).
  - destruct Hs as (-> & _ & _). split_and!; [apply Hin; set_solver| |].
    + rewrite E2. apply Hin. apply elem_of_cons. tauto.
    + intros _ ->. apply list.NoDup_cons in Hnd as [Hx' _]. apply Hx'. left.
Qed.
Lemma add_tail_frame h n hd x : x <> n -> x <> hd -> x <> prev (h hd) -> list_add_tail h n hd x = h x.
Proof. intros H1 H2 H3. unfold list_add_tail, __list_add, set_next, set_prev. repeat case_bool; try done; lia. Qed.
Lemma del_frame h n x : x <> n -> x <> prev (h n) -> x <> next (h n) -> list_del h n x = h x.
Proof. intros H1 H2 H3. unfold list_del, list_del_init, INIT_LIST_HEAD, __list_del, set_next, set_prev. repeat case_bool; try done; lia. Qed.

(** (refinement): the pointer operations implement sequences.  On a well
    formed circular list holding [xs ++ ys]: initialising a node gives the
    empty list; adding at the head or tail conses or appends; deleting a node
    removes exactly it and leaves it detached; the emptiness and
    single-entry tests decide the length. *)
Theorem list_refines_sequence h hd xs n ys
    (Hl : list_is h hd (xs ++ n :: ys)) m (Hm : m ∉ hd :: xs ++ n :: ys) :
  list_is (INIT_LIST_HEAD h m) m [] /\
  list_is (list_add_head h m hd) hd (m :: xs ++ n :: ys) /\
  list_is (list_add_tail h m hd) hd ((xs ++ n :: ys) ++ [m]) /\
  list_is (list_del h n) hd (xs ++ ys) /\
  (n <> NULL -> list_node_is_detached (list_del h n) n = true) /\
  (list_empty (list_del h n) hd = true <-> xs ++ ys = []) /\
  (list_only_one_entry h hd = true <-> xs ++ ys = []).
Proof.
  destruct (del_ok h hd xs n ys Hl) as (Hd & D1 & D2).
  split; [split; [apply NoDup_singleton|split; lheap_simpl]|].
  split; [by apply add_head_ok|]. split; [by apply add_tail_ok|]. split; [done|].
  split.
  { intros Hn. unfold list_node_is_detached. rewrite D1, D2, Z.eqb_refl. by destruct (Z.eqb_spec n NULL). }
  split; [by apply empty_ok|]. rewrite (only_one_ok h hd _ Hl). split.
  - intros [x Hx]. destruct xs as [|? [|? ?]], ys; try done.
  - intros E. apply app_eq_nil in E as [-> ->]. by exists n.
Qed.

(** head at 100 with the nodes 1 and 2 *)
Definition demo_list : lheap :=
  list_add_tail (list_add_tail (INIT_LIST_HEAD (fun _ => mk_le 0 0) 100) 1 100) 2 100.

Lemma demo_list_is : list_is demo_list 100 ([1] ++ 2 :: []).
Proof. split; [repeat constructor; set_solver|]. vm_compute. repeat split. Qed.

Lemma list_refines_sequence_witness :
  list_is demo_list 100 [1; 2] /\ list_is (list_del demo_list 2) 100 [1] /\
  list_is (list_add_head demo_list 7 100) 100 [7; 1; 2].
Proof.
  destruct (list_refines_sequence demo_list 100 [1] 2 [] demo_list_is 7 ltac:(set_solver)) as (_ & H1 & _ & H2 & _).
  split; [exact demo_list_is|]. split; [exact H2|exact H1].
Defined.
