(* ===== verification/PmmInit.v ===== *)
(** * Physical memory bring-up

    [kernel/mm/pmm.c]: the table of physical memory regions, carving ranges
    out of it, the zone configuration, and the sections the zones are made
    of.  The sections feed the cursor of Pmm and the allocator of Buddy. *)
From S2P Require Import Prelude Mm Pmm.

Definition RENDEZVOS_MAX_MEMORY_REGIONS : Z := 128.
Definition ZONE_NR_MAX : Z := 16.

(** ** Regions *)

Record region := mk_region { addr : Z; len : Z }.
#[export] Instance region_inhabited : Inhabited region := populate (mk_region 0 0).
Record memory_regions := mk_mr { region_count : Z; regions : list region }.

Definition reg_at (m : memory_regions) (i : Z) : region := regions m !!! Z.to_nat i.
Definition set_reg (i : Z) (r : region) (m : memory_regions) : memory_regions :=
  mk_mr (region_count m) (<[Z.to_nat i := r]> (regions m)).
Definition region_end (r : region) : Z := u64 (addr r + len r).

Definition memory_regions_insert (m : memory_regions) (a l : Z) : Z * memory_regions :=
  if RENDEZVOS_MAX_MEMORY_REGIONS <=? region_count m then (- E_IN_PARAM, m)
  else
    let m := set_reg (region_count m) (mk_region a l) m in
    (0, mk_mr (u64 (region_count m + 1)) (regions m)).
Definition memory_regions_delete (m : memory_regions) (index : Z) : memory_regions :=
  set_reg index (mk_region 0 0) m.
Definition memory_regions_entry_empty (m : memory_regions) (index : Z) : bool :=
  (addr (reg_at m index) =? 0) && (len (reg_at m index) =? 0).
Definition memory_regions_init : memory_regions :=
  mk_mr 0 (repeat (mk_region 0 0) (Z.to_nat RENDEZVOS_MAX_MEMORY_REGIONS)).

(** what of [phy_start, phy_end) region [reg] gives up, if anything *)
Definition reserve_adjust (reg : region) (phy_start phy_end : Z) : option (Z * Z) :=
  let e := region_end reg in
  if (addr reg <=? phy_start) && (phy_end <=? e) then Some (phy_start, phy_end)
  else if (addr reg <=? phy_start) && (phy_start <=? e) then Some (phy_start, e)
  else if (addr reg <=? phy_end) && (phy_end <=? e) then Some (addr reg, phy_end)
  else None.

(** the region loop from index [i]; the bounds narrowed by a region stay
    narrowed when its split fails and the loop goes on *)
Fixpoint reserve_loop (m : memory_regions) (phy_start phy_end i : Z) (left : nat) : Z * memory_regions :=
  match left with
  | O => (-1, m)
  | S left' =>
    if memory_regions_entry_empty m i then reserve_loop m phy_start phy_end (i + 1) left'
    else
      let reg := reg_at m i in
      let e := region_end reg in
      match reserve_adjust reg phy_start phy_end with
      | None => reserve_loop m phy_start phy_end (i + 1) left'
      | Some (phy_start, phy_end) =>
        if (phy_start =? addr reg) && (phy_end =? e) then (i, memory_regions_delete m i)
        else if phy_start =? addr reg then
          (i, set_reg i (mk_region phy_end (u64 (len reg - phy_end + addr reg))) m)
        else if phy_end =? e then (i, set_reg i (mk_region (addr reg) (u64 (phy_start - addr reg))) m)
        else
          let '(r, m) := memory_regions_insert m (addr reg) (u64 (phy_start - addr reg)) in
          if negb (r =? REND_SUCCESS) then reserve_loop m phy_start phy_end (i + 1) left'
          else (i, set_reg i (mk_region phy_end (u64 (e - phy_end))) m)
      end
  end.
Definition memory_regions_reserve_region (m : memory_regions) (phy_start phy_end : Z) : Z * memory_regions :=
  reserve_loop m phy_start phy_end 0 (Z.to_nat (region_count m)).

(** result: index, start, end, table; start and end keep the caller's values
    until a region is chosen *)
Fixpoint reserve_length_loop (m : memory_regions) (length start_alignment : Z) (used ps pe i : Z) (left : nat)
  : Z * Z * Z * memory_regions :=
  match left with
  | O => (used, ps, pe, m)
  | S left' =>
    if memory_regions_entry_empty m i then reserve_length_loop m length start_alignment used ps pe (i + 1) left'
    else
      let reg := reg_at m i in
      if length <? u64 (region_end reg - ROUND_UP (addr reg) start_alignment) then
        let old_start := addr reg in
        let ps := ROUND_UP old_start start_alignment in
        let pe := u64 (ps + length) in
        let '(r, m) := if negb (addr reg =? ps) then memory_regions_insert m (addr reg) (u64 (ps - addr reg)) else (REND_SUCCESS, m) in
        if negb (r =? REND_SUCCESS) then reserve_length_loop m length start_alignment i ps pe (i + 1) left'
        else (i, ps, pe, set_reg i (mk_region pe (u64 (len reg - u64 (pe - old_start)))) m)
      else reserve_length_loop m length start_alignment used ps pe (i + 1) left'
  end.
Definition memory_regions_reserve_region_with_length (m : memory_regions) (length start_alignment ps pe : Z)
  : Z * Z * Z * memory_regions :=
  reserve_length_loop m length start_alignment (-1) ps pe 0 (Z.to_nat (region_count m)).

(** ** Zone configuration *)

(** [zc_pmm]: the pmm instance, [None] for NULL *)
Record zone_cfg := mk_zc {
  zc_lower : Z; zc_upper : Z; zc_pmm : option Z;
  zone_total_pages : Z; zone_total_sections : Z
}.
Definition no_zone : zone_cfg := mk_zc 0 0 None 0 0.
#[export] Instance zone_cfg_inhabited : Inhabited zone_cfg := populate no_zone.
Record zones := mk_zones { mem_zones : list zone_cfg; nr_mem_zones : Z }.

Definition BUDDY_PMM : Z := 0.

Definition pmm_zone_configure_default (avail_lo avail_hi : Z) : zones :=
  let zs := repeat no_zone (Z.to_nat ZONE_NR_MAX) in
  if avail_hi <=? avail_lo then mk_zones zs 0
  else mk_zones (<[0%nat := mk_zc avail_lo avail_hi (Some BUDDY_PMM) 0 0]> zs) 1.

Definition pmm_zone_config_legal (z : zones) : bool :=
  if (nr_mem_zones z <=? 0) || (ZONE_NR_MAX <? nr_mem_zones z) then false
  else
    forallb (fun i =>
      let zi := mem_zones z !!! i in
      negb (bool_decide (zc_pmm zi = None)) && (zc_lower zi <? zc_upper zi)
      && forallb (fun j => negb (bool_decide (zc_pmm zi = zc_pmm (mem_zones z !!! j)))) (seq 0 i))
      (seq 0 (Z.to_nat (nr_mem_zones z))).

(** [hook] is [configure_pmm_zones_hook], weakly the default *)
Definition pmm_configure_zones (hook : Z -> Z -> zones) (avail_lo avail_hi : Z) : zones :=
  let z := hook avail_lo avail_hi in
  if negb (pmm_zone_config_legal z) then pmm_zone_configure_default avail_lo avail_hi else z.

(** ** Sizes and sections *)

(** start, end, frame number *)
Definition avail_step (m : memory_regions) (acc : Z * Z) (i : Z) : Z * Z :=
  let '(hi, total) := acc in
  if memory_regions_entry_empty m i then (hi, total)
  else
    let reg := reg_at m i in
    let sec_end := region_end reg in
    (if hi <? sec_end then sec_end else hi,
     u64 (total + u64 (ROUND_UP sec_end PAGE_SIZE - ROUND_DOWN (addr reg) PAGE_SIZE) / PAGE_SIZE)).
Definition region_indices (m : memory_regions) : list Z := map Z.of_nat (seq 0 (Z.to_nat (region_count m))).
Definition calculate_avaliable_phy_addr_region (m : memory_regions) : Z * Z * Z :=
  let lo := ROUND_UP (if memory_regions_entry_empty m 0 then 0 else addr (reg_at m 0)) PAGE_SIZE in
  let '(hi, total) := fold_left (avail_step m) (region_indices m) (0, 0) in
  (lo, ROUND_DOWN hi PAGE_SIZE, total).

(** bounds of the section a region gives a zone; [None]: they do not meet *)
Definition section_bounds (zone : zone_cfg) (reg : region) : option (Z * Z) :=
  let sec_start := addr reg in
  let sec_end := region_end reg in
  if (sec_end <? zc_lower zone) || (zc_upper zone <? sec_start) then None
  else Some (Z.max (ROUND_UP (zc_lower zone) PAGE_SIZE) (ROUND_UP sec_start PAGE_SIZE),
             Z.min (ROUND_DOWN sec_end PAGE_SIZE) (ROUND_DOWN (zc_upper zone) PAGE_SIZE)).

Definition split_region (m : memory_regions) (zone : zone_cfg) (i : Z) : zone_cfg :=
  if memory_regions_entry_empty m i then zone
  else
    match section_bounds zone (reg_at m i) with
    | None => zone
    | Some (lower, upper) =>
      mk_zc (zc_lower zone) (zc_upper zone) (zc_pmm zone)
        (u64 (zone_total_pages zone + u64 (upper - lower) / PAGE_SIZE)) (u64 (zone_total_sections zone + 1))
    end.
Definition split_zone (m : memory_regions) (zone : zone_cfg) : zone_cfg :=
  fold_left (split_region m) (region_indices m) (mk_zc (zc_lower zone) (zc_upper zone) (zc_pmm zone) 0 0).
Definition split_pmm_zones (m : memory_regions) (z : zones) : Z * zones :=
  if negb (pmm_zone_config_legal z) then (0, z)
  else
    fold_left (fun acc i =>
        let '(total, z) := acc in
        let zone := split_zone m (mem_zones z !!! i) in
        (u64 (total + zone_total_sections zone), mk_zones (<[i := zone]> (mem_zones z)) (nr_mem_zones z)))
      (seq 0 (Z.to_nat (nr_mem_zones z))) (0, z).

(** [sizeof(Page)], [sizeof(MemSection)] *)
Definition PAGE_STRUCT : Z := 32.
Definition SECTION_STRUCT : Z := 56.
Definition calculate_sec_and_page_frame_pages (frames sections : Z) : Z :=
  ROUND_UP (u64 (frames * PAGE_STRUCT + sections * SECTION_STRUCT)) PAGE_SIZE / PAGE_SIZE.
(** total pages, L2 table pages *)
Definition calculate_pmm_space (total_pages : Z) : Z * Z :=
  let l2_pages := u64 (total_pages / (GIGAN_PAGE_SIZE / PAGE_SIZE) + 1) in
  (u64 (total_pages + l2_pages), l2_pages).

(** one region of [generate_zone_data]: frames counted, sections linked at the
    head, and how far the zone data reaches; counts of a new section are 0 *)
Definition generate_region (m : memory_regions) (zone : zone_cfg) (acc : Z * list MemSection * Z) (i : Z)
  : Z * list MemSection * Z :=
  let '(total, l, data) := acc in
  if memory_regions_entry_empty m i then acc
  else
    match section_bounds zone (reg_at m i) with
    | None => acc
    | Some (lower, upper) =>
      let page_count := u64 (upper - lower) / PAGE_SIZE in
      let l := if negb (page_count =? 0) then mk_sec lower upper (repeat 0 (Z.to_nat page_count)) :: l else l in
      (u64 (total + page_count), l, u64 (data + SECTION_STRUCT + page_count * PAGE_STRUCT))
    end.
Definition generate_zone (m : memory_regions) (zone : zone_cfg) (data : Z) : Z * MemZone * Z :=
  let '(total, l, data) := fold_left (generate_region m zone) (region_indices m) (0, [], data) in
  (total, mk_zone (zc_lower zone) (zc_upper zone) l false, data).
Fixpoint generate_zones (m : memory_regions) (zs : list zone_cfg) (data : Z) : list (Z * MemZone) * Z :=
  match zs with
  | [] => ([], data)
  | zone :: zs =>
    match zc_pmm zone with
    | None => generate_zones m zs data
    | Some _ =>
      let '(total, z, data) := generate_zone m zone data in
      let '(rest, data) := generate_zones m zs data in
      ((total, z) :: rest, data)
    end
  end.
Definition generate_zone_data (m : memory_regions) (z : zones) (zone_data_phy_start zone_data_phy_end : Z)
  : Z * list (Z * MemZone) :=
  let '(l, data) := generate_zones m (take (Z.to_nat (nr_mem_zones z)) (mem_zones z)) zone_data_phy_start in
  (if zone_data_phy_end <? data then - E_RENDEZVOS else REND_SUCCESS, l).

(** ** Invariant *)

Definition in_reg (r : region) (a : Z) : Prop := addr r <= a < addr r + len r.
Definition region_ok (r : region) : Prop := 0 <= addr r /\ 0 <= len r /\ addr r + len r < 2 ^ 64.

(** the table is in bounds and no address lies in two regions *)
Record mr_ok (m : memory_regions) : Prop := {
  mo_len : length (regions m) = Z.to_nat RENDEZVOS_MAX_MEMORY_REGIONS;
  mo_count : 0 <= region_count m <= RENDEZVOS_MAX_MEMORY_REGIONS;
  mo_reg : forall i, 0 <= i < region_count m -> region_ok (reg_at m i);
  mo_disj : forall i j a, 0 <= i < region_count m -> 0 <= j < region_count m ->
    in_reg (reg_at m i) a -> in_reg (reg_at m j) a -> i = j
}.

(** addresses still available *)
Definition covers (m : memory_regions) (a : Z) : Prop :=
  exists i, 0 <= i < region_count m /\ in_reg (reg_at m i) a.

Lemma region_end_ok r : region_ok r -> region_end r = addr r + len r.
Proof. intros (? & ? & ?). apply u64_small. lia. Qed.

Lemma entry_nonempty m i a : in_reg (reg_at m i) a -> memory_regions_entry_empty m i = false.
Proof.
  unfold in_reg, memory_regions_entry_empty. intros H. destruct (Z.eqb_spec (len (reg_at m i)) 0); [lia|].
  apply andb_false_r.
Qed.

Lemma reg_set_eq m i r : mr_ok m -> 0 <= i < RENDEZVOS_MAX_MEMORY_REGIONS -> reg_at (set_reg i r m) i = r.
Proof. intros H Hi. unfold reg_at, set_reg. cbn [regions]. apply insert_total_eq_Z. rewrite (mo_len _ H). lia. Qed.
Lemma reg_set_ne m i j r : 0 <= i -> 0 <= j -> i <> j -> reg_at (set_reg i r m) j = reg_at m j.
Proof. intros. unfold reg_at, set_reg. cbn [regions]. by apply insert_total_ne_Z. Qed.

(** replacing region [i] by [r1], with [o2] appended if it is there *)
Definition cut (m : memory_regions) (i : Z) (r1 : region) (o2 : option region) : memory_regions :=
  match o2 with
  | None => set_reg i r1 m
  | Some r2 => set_reg i r1 (mk_mr (region_count m + 1) (regions (set_reg (region_count m) r2 m)))
  end.
Definition in_opt (o : option region) (a : Z) : Prop := match o with Some r => in_reg r a | None => False end.

Lemma cut_at m i r1 o2 j :
  mr_ok m -> 0 <= i < region_count m -> (o2 <> None -> region_count m < RENDEZVOS_MAX_MEMORY_REGIONS) ->
  0 <= j < region_count (cut m i r1 o2) ->
  reg_at (cut m i r1 o2) j =
    if decide (j = i) then r1 else if decide (j = region_count m) then default r1 o2 else reg_at m j.
Proof.
  intros Hm Hi Hc Hj. pose proof (mo_len _ Hm) as Hl. pose proof (mo_count _ Hm) as Hcnt.
  unfold RENDEZVOS_MAX_MEMORY_REGIONS in *. unfold reg_at, cut in *. destruct o2 as [r2|]; cbn [region_count set_reg regions] in *.
  - specialize (Hc ltac:(done)). destruct (decide (j = i)) as [->|].
    + rewrite insert_total_eq_Z; [done|]. rewrite length_insert. lia.
    + rewrite insert_total_ne_Z by lia. destruct (decide (j = region_count m)) as [->|].
      * rewrite insert_total_eq_Z; [done|]. lia.
      * rewrite insert_total_ne_Z by lia. done.
  - destruct (decide (j = i)) as [->|]; [rewrite insert_total_eq_Z; [done|lia]|].
    rewrite insert_total_ne_Z, decide_False by lia. done.
Qed.

Lemma cut_ok m i r1 o2 (P : Z -> Prop) :
  mr_ok m -> 0 <= i < region_count m -> (o2 <> None -> region_count m < RENDEZVOS_MAX_MEMORY_REGIONS) ->
  region_ok r1 -> region_ok (default r1 o2) ->
  (forall a, in_reg r1 a \/ in_opt o2 a <-> in_reg (reg_at m i) a /\ ~ P a) ->
  (forall a, in_reg r1 a -> in_opt o2 a -> False) ->
  (forall a, P a -> in_reg (reg_at m i) a) ->
  mr_ok (cut m i r1 o2) /\ forall a, covers (cut m i r1 o2) a <-> covers m a /\ ~ P a.
Proof.
  intros Hm Hi Hc H1 H2 Hun Hdj HP. pose proof (mo_count _ Hm) as Hcnt.
  assert (Hn : region_count (cut m i r1 o2) = region_count m + (if o2 then 1 else 0)) by (destruct o2; cbn; lia).
  assert (Hat := fun j => cut_at m i r1 o2 j Hm Hi Hc).
  assert (Hfrom : forall j a, 0 <= j < region_count (cut m i r1 o2) -> in_reg (reg_at (cut m i r1 o2) j) a ->
    (j = i /\ in_reg r1 a) \/ (j = region_count m /\ in_opt o2 a) \/ (j <> i /\ 0 <= j < region_count m /\ in_reg (reg_at m j) a)).
  { intros j a Hj. rewrite (Hat j Hj). repeat case_decide; subst; intros Ha; [by left| |].
    - right. left. split; [done|]. destruct o2; [done|]. lia.
    - right. right. split; [done|]. split; [|done]. destruct o2; lia. }
  split; [split|].
  - destruct o2; cbn [cut set_reg regions]; rewrite !length_insert; apply Hm.
  - destruct o2; [specialize (Hc ltac:(done)); lia|lia].
  - intros j Hj. rewrite (Hat j Hj). repeat case_decide; [done|done|]. apply (mo_reg _ Hm). destruct o2; lia.
  - intros j k a Hj Hk Ha Hb.
    destruct (Hfrom j a Hj Ha) as [(-> & A)|[(-> & A)|(Nj & Rj & A)]], (Hfrom k a Hk Hb) as [(-> & B)|[(-> & B)|(Nk & Rk & B)]]; try done.
    all: try (exfalso; by eapply Hdj).
    all: try (by apply (mo_disj _ Hm _ _ a)).
    all: exfalso; assert (Hin : in_reg (reg_at m i) a) by (apply Hun; tauto).
    all: first [by apply Nj; apply (mo_disj _ Hm _ _ a)|by apply Nk; apply (mo_disj _ Hm _ _ a)].
  - intros a. split.
    + intros (j & Hj & Ha). destruct (Hfrom j a Hj Ha) as [(-> & A)|[(-> & A)|(Nj & Rj & A)]].
      1,2: destruct (proj1 (Hun a)) as [B C]; [tauto|]; split; [by exists i|done].
      split; [by exists j|]. intros Hp. apply Nj. by apply (mo_disj _ Hm _ _ a Rj Hi A), HP.
    + intros [(j & Hj & Ha) Hnp]. destruct (decide (j = i)) as [->|Hne].
      * destruct (proj2 (Hun a)) as [A|A]; [done| |].
        -- exists i. split; [destruct o2; lia|]. rewrite Hat by (destruct o2; lia). by rewrite decide_True.
        -- destruct o2 as [r2|]; [|done]. exists (region_count m). split; [lia|]. rewrite Hat by lia.
           rewrite decide_False, decide_True by lia. done.
      * exists j. split; [destruct o2; lia|]. rewrite Hat by (destruct o2; lia). by rewrite !decide_False by lia.
Qed.

(** ** Reserving a given range *)

(** regions before [i] that do not touch [s, e] *)
Definition untouched (m : memory_regions) (s e i : Z) : Prop :=
  forall j, 0 <= j < i -> memory_regions_entry_empty m j = false ->
    addr (reg_at m j) + len (reg_at m j) < s \/ e < addr (reg_at m j).

Lemma insert_cut m i r1 r2 :
  0 <= region_count m < RENDEZVOS_MAX_MEMORY_REGIONS ->
  memory_regions_insert m (addr r2) (len r2) =
    (0, mk_mr (region_count m + 1) (regions (set_reg (region_count m) r2 m))) /\
  set_reg i r1 (snd (memory_regions_insert m (addr r2) (len r2))) = cut m i r1 (Some r2).
Proof.
  intros H. unfold memory_regions_insert. destruct (Z.leb_spec RENDEZVOS_MAX_MEMORY_REGIONS (region_count m)); [lia|].
  unfold RENDEZVOS_MAX_MEMORY_REGIONS in *. cbn [set_reg region_count snd]. rewrite u64_small by lia. destruct r2. done.
Qed.

Lemma reserve_loop_effect left m s e i k :
  mr_ok m -> region_count m < RENDEZVOS_MAX_MEMORY_REGIONS -> s < e -> 0 <= i <= k -> k < i + Z.of_nat left ->
  k < region_count m -> untouched m s e k -> addr (reg_at m k) <= s -> e <= addr (reg_at m k) + len (reg_at m k) ->
  let '(r, m') := reserve_loop m s e i left in
  r = k /\ mr_ok m' /\ forall a, covers m' a <-> covers m a /\ ~ (s <= a < e).
Proof.
  intros Hm Hcnt Hse. revert i. induction left as [|left IH]; intros i Hi Hk Hkc Hun H1 H2; [lia|].
  cbn [reserve_loop]. pose proof (mo_reg _ Hm i ltac:(lia)) as Hok. pose proof (region_end_ok _ Hok) as He.
  destruct (decide (i = k)) as [->|Hne].
  - rewrite (entry_nonempty m k s) by (unfold in_reg; lia). rewrite He. unfold reserve_adjust. rewrite He.
    destruct (Z.leb_spec (addr (reg_at m k)) s); [|lia]. destruct (Z.leb_spec e (addr (reg_at m k) + len (reg_at m k))); [|lia].
    cbn [andb]. set (r := reg_at m k) in *. destruct Hok as (O1 & O2 & O3).
    pose proof (mo_count _ Hm) as Hcn.
    assert (Hcut : forall r1 o2, region_ok r1 -> region_ok (default r1 o2) ->
      (forall a, in_reg r1 a \/ in_opt o2 a <-> in_reg r a /\ ~ (s <= a < e)) -> (forall a, in_reg r1 a -> in_opt o2 a -> False) ->
      mr_ok (cut m k r1 o2) /\ forall a, covers (cut m k r1 o2) a <-> covers m a /\ ~ (s <= a < e)).
    { intros r1 o2 P1 P2 P3 P4. apply cut_ok; try done; [lia|]. intros a Ha. fold r. unfold in_reg. lia. }
    destruct (Z.eqb_spec s (addr r)) as [Es|Es], (Z.eqb_spec e (addr r + len r)) as [Ee|Ee]; cbn [andb].
    + split; [done|]. apply (Hcut (mk_region 0 0) None); unfold region_ok, in_opt, in_reg; cbn; lia.
    + split; [done|]. rewrite u64_small by lia. apply (Hcut _ None); unfold region_ok, in_opt, in_reg; cbn; lia.
    + split; [done|]. rewrite u64_small by lia. apply (Hcut _ None); unfold region_ok, in_opt, in_reg; cbn; lia.
    + rewrite (u64_small (s - addr r)), u64_small by lia.
      destruct (insert_cut m k (mk_region e (addr r + len r - e)) (mk_region (addr r) (s - addr r))) as [E1 E2]; [lia|].
      cbn [addr len] in E1, E2. rewrite E1 in *. cbn [snd negb Z.eqb REND_SUCCESS] in *. rewrite E2. split; [done|].
      apply (Hcut _ (Some _)); unfold region_ok, in_opt, in_reg; cbn; lia.
  - destruct (memory_regions_entry_empty m i) eqn:Ee; [apply IH; (done || lia)|].
    assert (Ha : reserve_adjust (reg_at m i) s e = None).
    { destruct (Hun i ltac:(lia) Ee); destruct Hok as (O1 & O2 & O3); unfold reserve_adjust; rewrite He; repeat case_bool. }
    rewrite Ha. apply IH; (done || lia).
Qed.

(** (functional): reserving a range that lies in one region, with a free slot
    in the table and no region earlier in the table touching the range.  The
    call returns that region's index and exactly the range stops being
    available; regions stay disjoint and in bounds. *)
Theorem reserve_region_exact m s e k
    (Hm : mr_ok m) (Hc : region_count m < RENDEZVOS_MAX_MEMORY_REGIONS) (Hse : s < e) (Hk : 0 <= k < region_count m)
    (Hs : addr (reg_at m k) <= s) (He : e <= addr (reg_at m k) + len (reg_at m k)) (Hu : untouched m s e k) :
  let '(r, m') := memory_regions_reserve_region m s e in
  r = k /\ mr_ok m' /\ forall a, covers m' a <-> covers m a /\ ~ (s <= a < e).
Proof. apply reserve_loop_effect; (done || lia). Qed.

(** ** Reserving a length *)

(** region [i] can give [length] bytes from an aligned start *)
Definition has_room (m : memory_regions) (length k i : Z) : Prop :=
  memory_regions_entry_empty m i = false /\ ROUND_UP (addr (reg_at m i)) (2 ^ k) + length < addr (reg_at m i) + len (reg_at m i).

(** every region reaches its first aligned address *)
Definition rounds_inside (m : memory_regions) (k : Z) : Prop :=
  forall i, 0 <= i < region_count m -> memory_regions_entry_empty m i = false ->
    addr (reg_at m i) <= ROUND_UP (addr (reg_at m i)) (2 ^ k) <= addr (reg_at m i) + len (reg_at m i).

Lemma reserve_length_loop_effect left m length k used ps pe i :
  mr_ok m -> region_count m < RENDEZVOS_MAX_MEMORY_REGIONS -> 0 < length < 2 ^ 63 -> rounds_inside m k ->
  0 <= i -> i + Z.of_nat left = region_count m ->
  let '(r, s, e, m') := reserve_length_loop m length (2 ^ k) used ps pe i left in
  (r = used /\ m' = m /\ s = ps /\ e = pe /\ forall j, i <= j < region_count m -> ~ has_room m length k j) \/
  (i <= r < region_count m /\ has_room m length k r /\ s = ROUND_UP (addr (reg_at m r)) (2 ^ k) /\ e = s + length /\ mr_ok m' /\
    (forall a, s <= a < e -> covers m a) /\ forall a, covers m' a <-> covers m a /\ ~ (s <= a < e)).
Proof.
  intros Hm Hcnt Hlen Hr. revert i. induction left as [|left IH]; intros i Hi Hk; cbn [reserve_length_loop].
  { left. split_and!; try done. intros j Hj. lia. }
  specialize (IH (i + 1) ltac:(lia) ltac:(lia)).
  set (rec := reserve_length_loop m length (2 ^ k) used ps pe (i + 1) left) in *.
  assert (Hskip : ~ has_room m length k i -> let '(r, s, e, m') := rec in
    (r = used /\ m' = m /\ s = ps /\ e = pe /\ forall j, i <= j < region_count m -> ~ has_room m length k j) \/
    (i <= r < region_count m /\ has_room m length k r /\ s = ROUND_UP (addr (reg_at m r)) (2 ^ k) /\ e = s + length /\ mr_ok m' /\
      (forall a, s <= a < e -> covers m a) /\ forall a, covers m' a <-> covers m a /\ ~ (s <= a < e))).
  { intros Hno. destruct rec as [[[r s] e] m']. destruct IH as [(? & ? & ? & ? & IH)|(? & IH)]; [left|right; split; [lia|done]].
    split_and!; try done. intros j Hj. destruct (decide (j = i)) as [->|]; [done|]. apply IH. lia. }
  destruct (memory_regions_entry_empty m i) eqn:Ee; [apply Hskip; intros [? _]; congruence|].
  pose proof (mo_reg _ Hm i ltac:(lia)) as Hok. pose proof (region_end_ok _ Hok) as Hend. destruct Hok as (O1 & O2 & O3).
  pose proof (Hr i ltac:(lia) Ee) as Hri. rewrite Hend. set (r := reg_at m i) in *. set (p := ROUND_UP (addr r) (2 ^ k)) in *.
  rewrite u64_small by lia. destruct (Z.ltb_spec length (addr r + len r - p)) as [Hlt|Hge].
  2:{ apply Hskip. intros [_ H]. fold r p in H. lia. }
  rewrite (u64_small (p + length)), (u64_small (p + length - addr r)), (u64_small (len r - _)) by lia.
  pose proof (mo_count _ Hm) as Hcn. clearbody rec. clear IH Hskip rec.
  assert (Hcut : forall o2, region_ok (default r o2) ->
    (forall a, in_reg (mk_region (p + length) (len r - (p + length - addr r))) a \/ in_opt o2 a <-> in_reg r a /\ ~ (p <= a < p + length)) ->
    (forall a, p + length <= a -> in_opt o2 a -> False) ->
    let m' := cut m i (mk_region (p + length) (len r - (p + length - addr r))) o2 in
    mr_ok m' /\ forall a, covers m' a <-> covers m a /\ ~ (p <= a < p + length)).
  { intros o2 P1 P2 P3. apply cut_ok; try done.
    - lia.
    - unfold region_ok. cbn. lia.
    - destruct o2; [done|]. unfold region_ok. cbn. lia.
    - intros a Ha. apply P3. unfold in_reg in Ha. cbn in Ha. lia.
    - intros a Ha. fold r. unfold in_reg. lia. }
  assert (Hroom : has_room m length k i) by (split; [done|]; fold r p; lia).
  assert (Hcov : forall a, p <= a < p + length -> covers m a) by (intros a Ha; exists i; split; [lia|]; fold r; unfold in_reg; lia).
  destruct (Z.eqb_spec (addr r) p) as [Ep|Ep]; cbn [negb Z.eqb REND_SUCCESS].
  - right. split; [lia|]. split; [done|]. split; [done|]. split; [done|].
    destruct (Hcut None) as [C1 C2]; [done| |done|].
    { intros a. unfold in_reg. cbn. lia. }
    split; [exact C1|]. split; [done|exact C2].
  - rewrite u64_small by lia.
    destruct (insert_cut m i (mk_region (p + length) (len r - (p + length - addr r))) (mk_region (addr r) (p - addr r))) as [E1 E2]; [lia|].
    cbn [addr len] in E1, E2. rewrite E1 in *. cbn [snd negb Z.eqb REND_SUCCESS] in *. rewrite E2.
    right. split; [lia|]. split; [done|]. split; [done|]. split; [done|].
    destruct (Hcut (Some (mk_region (addr r) (p - addr r)))) as [C1 C2].
    { unfold region_ok. cbn. lia. } { intros a. unfold in_opt, in_reg. cbn. lia. }
    { intros a Ha. unfold in_opt, in_reg. cbn. lia. }
    split; [exact C1|]. split; [done|exact C2].
Qed.

(** (functional): reserving [length] bytes at a power-of-two alignment, when
    every region reaches its first aligned address and the table has a free
    slot.  Either no region has room (strictly more than [length] bytes after
    rounding) and nothing changes, or the range returned is aligned, has
    exactly the length, was wholly available, and is exactly what stops being
    available. *)
Theorem reserve_length_spec m length k ps pe
    (Hm : mr_ok m) (Hc : region_count m < RENDEZVOS_MAX_MEMORY_REGIONS) (Hl : 0 < length < 2 ^ 63) (Hk : 0 <= k < 63)
    (Hr : rounds_inside m k) :
  let '(r, s, e, m') := memory_regions_reserve_region_with_length m length (2 ^ k) ps pe in
  (r = -1 /\ m' = m /\ forall j, 0 <= j < region_count m -> ~ has_room m length k j) \/
  (0 <= r < region_count m /\ s mod 2 ^ k = 0 /\ e = s + length /\ mr_ok m' /\
    (forall a, s <= a < e -> covers m a) /\ forall a, covers m' a <-> covers m a /\ ~ (s <= a < e)).
Proof.
  unfold memory_regions_reserve_region_with_length. pose proof (mo_count _ Hm).
  pose proof (reserve_length_loop_effect (Z.to_nat (region_count m)) m length k (-1) ps pe 0 Hm Hc Hl Hr ltac:(lia) ltac:(lia)) as H'.
  destruct (reserve_length_loop _ _ _ _ _ _ _ _) as [[[r s] e] m'].
  destruct H' as [(A & B & _ & _ & C)|(A & [B1 B2] & C & D & E & F & G)]; [left; done|right].
  split; [done|]. split; [|done].
  destruct (mo_reg _ Hm r A) as (O1 & O2 & O3). pose proof (Hr r A B1) as Hb.
  rewrite C. unfold ROUND_UP. assert (H63 : 0 < 2 ^ k <= 2 ^ 62) by (split; [lia|apply Z.pow_le_mono_r; lia]).
  rewrite (u64_small (2 ^ k - 1)) at 2 by lia. rewrite <- (u64_small (2 ^ k - 1)) at 2 by lia.
  rewrite bnot_pow2_low by (pose proof (u64_range (addr (reg_at m r) + u64 (2 ^ k - 1))); lia).
  set (x := u64 _). pose proof (Z.div_mod x (2 ^ k) ltac:(lia)) as Hd.
  replace (x - x mod 2 ^ k) with (x / 2 ^ k * 2 ^ k) by lia. by apply Z.mod_mul; lia.
Qed.

(** ** Sections of a zone *)

Definition page_addr (x : Z) : Prop := x mod PAGE_SIZE = 0 /\ 0 <= x < 2 ^ 63.
Definition regions_paged (m : memory_regions) : Prop :=
  forall i, 0 <= i < region_count m -> page_addr (addr (reg_at m i)) /\ page_addr (addr (reg_at m i) + len (reg_at m i)).
Definition zone_paged (zone : zone_cfg) : Prop := page_addr (zc_lower zone) /\ page_addr (zc_upper zone) /\ zc_lower zone < zc_upper zone.

Lemma page_rounds x : page_addr x -> ROUND_UP x PAGE_SIZE = x /\ ROUND_DOWN x PAGE_SIZE = x.
Proof.
  intros [Hm Hr]. unfold PAGE_SIZE in *. change 4096 with (2 ^ 12) in *.
  rewrite ROUND_UP_spec, ROUND_DOWN_spec by lia. change (2 ^ 12) with 4096 in *. split; dlia.
Qed.

Lemma NoDup_range_length (l : list Z) N : NoDup l -> (forall x, x ∈ l -> 0 <= x < N) -> (length l <= Z.to_nat N)%nat.
Proof.
  intros Hnd H. assert (Hl : length (map Z.of_nat (seq 0 (Z.to_nat N))) = Z.to_nat N) by by rewrite length_map, length_seq.
  rewrite <- Hl. apply submseteq_length, NoDup_submseteq; [done|]. intros x Hx. specialize (H x Hx).
  apply list_elem_of_fmap. exists (Z.to_nat x). split; [lia|]. apply elem_of_seq. lia.
Qed.

(** frames of region [r] inside the zone *)
Definition frame_in (zone : zone_cfg) (r : region) (p : Z) : Prop :=
  in_reg r (p * PAGE_SIZE) /\ zc_lower zone <= p * PAGE_SIZE < zc_upper zone.

(** the section of one region: page aligned, inside the zone, exactly the frames both share *)
Lemma section_of_region zone r :
  zone_paged zone -> region_ok r -> page_addr (addr r) -> page_addr (addr r + len r) ->
  match section_bounds zone r with
  | None => forall p, ~ frame_in zone r p
  | Some (lower, upper) =>
    exists a b, lower = a * PAGE_SIZE /\ upper = b * PAGE_SIZE /\ 0 <= a <= b /\ b < 2 ^ 51 /\
      zc_lower zone <= lower /\ upper <= zc_upper zone /\
      u64 (upper - lower) / PAGE_SIZE = b - a /\ forall p, frame_in zone r p <-> a <= p < b
  end.
Proof.
  intros (Hl & Hu & Hlu) Hok Ha He. unfold section_bounds. rewrite (region_end_ok r Hok).
  destruct (page_rounds _ Hl) as [-> _], (page_rounds _ Hu) as [_ ->], (page_rounds _ Ha) as [-> _], (page_rounds _ He) as [_ ->].
  destruct Hok as (O1 & O2 & _). destruct Hl as [Hl1 Hl2], Hu as [Hu1 Hu2], Ha as [Ha1 Ha2], He as [He1 He2].
  unfold frame_in, in_reg, PAGE_SIZE in *.
  destruct (Z.ltb_spec (addr r + len r) (zc_lower zone)); cbn [orb]; [intros; lia|].
  destruct (Z.ltb_spec (zc_upper zone) (addr r)); [intros; lia|].
  set (lo := Z.max _ _). set (hi := Z.min _ _).
  assert (Hlo : lo mod 4096 = 0) by (unfold lo; destruct (Z.max_spec (zc_lower zone) (addr r)) as [[_ ->]|[_ ->]]; done).
  assert (Hhi : hi mod 4096 = 0) by (unfold hi; destruct (Z.min_spec (addr r + len r) (zc_upper zone)) as [[_ ->]|[_ ->]]; done).
  exists (lo / 4096), (hi / 4096). assert (0 <= lo <= hi /\ hi < 2 ^ 63) by lia.
  rewrite u64_small by lia. assert (Elo : lo = lo / 4096 * 4096) by dlia. assert (Ehi : hi = hi / 4096 * 4096) by dlia.
  split; [done|]. split; [done|]. split; [dlia|]. split; [dlia|]. split; [lia|]. split; [lia|]. split; [dlia|].
  intros p. assert (E : lo <= p * 4096 < hi <-> lo / 4096 <= p < hi / 4096) by lia. rewrite <- E. lia.
Qed.

Record sections_upto (m : memory_regions) (zone : zone_cfg) (n : nat) (total : Z) (l : list MemSection) : Prop := {
  su_total : total = Z.of_nat (length (concat (map sec_pages l)));
  su_ok : Forall (fun s => sec_ok s /\ zc_lower zone <= sec_lower s /\ sec_upper s <= zc_upper zone /\ Forall (eq 0) (sec_pages s)) l;
  su_nodup : NoDup (concat (map sec_ppns l));
  su_ppns : forall p, p ∈ concat (map sec_ppns l) <-> exists j, (j < n)%nat /\ frame_in zone (reg_at m (Z.of_nat j)) p
}.

Lemma sec_ppns_elem a b pages p :
  0 <= a <= b -> b < 2 ^ 51 -> length pages = Z.to_nat (b - a) ->
  p ∈ sec_ppns (mk_sec (a * PAGE_SIZE) (b * PAGE_SIZE) pages) <-> a <= p < b.
Proof.
  intros Ha Hb Hl. unfold sec_ppns. cbn [sec_lower sec_pages]. rewrite Hl.
  assert (E : PPN (a * PAGE_SIZE) = a).
  { unfold PPN, PAGE_SIZE. rewrite Z.shiftr_div_pow2 by lia. rewrite u64_small by lia. change (2 ^ 12) with 4096. by rewrite Z.div_mul by lia. }
  rewrite E. rewrite list_elem_of_fmap. split.
  - intros (k & -> & Hk%elem_of_seq). lia.
  - intros Hp. exists (Z.to_nat (p - a)). split; [lia|]. apply elem_of_seq. lia.
Qed.

Lemma sec_ppns_NoDup s : NoDup (sec_ppns s).
Proof. unfold sec_ppns. apply NoDup_fmap; [intros x y; lia|apply NoDup_seq]. Qed.

Lemma zone_length_bound zone l :
  page_addr (zc_upper zone) -> NoDup (concat (map sec_ppns l)) -> (forall p, p ∈ concat (map sec_ppns l) -> 0 <= p * PAGE_SIZE < zc_upper zone) ->
  Z.of_nat (length (concat (map sec_pages l))) <= 2 ^ 51.
Proof.
  intros [_ Hu] Hnd Hr. assert (E : length (concat (map sec_pages l)) = length (concat (map sec_ppns l))).
  { clear. induction l as [|s l IH]; [done|]. cbn. rewrite !length_app, IH. f_equal. unfold sec_ppns. by rewrite length_map, length_seq. }
  rewrite E. pose proof (NoDup_range_length _ (2 ^ 51) Hnd) as H. enough (length (concat (map sec_ppns l)) <= Z.to_nat (2 ^ 51))%nat by lia.
  apply H. intros p Hp. specialize (Hr p Hp). unfold PAGE_SIZE in Hr. lia.
Qed.

Section Generate.
Context (m : memory_regions) (zone : zone_cfg) (Hm : mr_ok m) (Hp : regions_paged m) (Hz : zone_paged zone).

Lemma upto_bound n total l : sections_upto m zone n total l -> 0 <= total <= 2 ^ 51.
Proof.
  intros [-> _ Hnd Hpp]. split; [lia|]. eapply (zone_length_bound zone); [apply Hz|done|].
  intros p (j & _ & _ & H)%Hpp. destruct Hz as ([_ ?] & _). lia.
Qed.

Lemma generate_region_upto n total l data :
  Z.of_nat n < region_count m -> sections_upto m zone n total l ->
  let '(total', l', data') := generate_region m zone (total, l, data) (Z.of_nat n) in
  sections_upto m zone (S n) total' l' /\
  exists pc sc, 0 <= pc <= 2 ^ 51 /\ 0 <= sc <= 1 /\ total' = total + pc /\
    data' = (if sc =? 1 then u64 (data + SECTION_STRUCT + pc * PAGE_STRUCT) else data) /\ (sc = 0 -> pc = 0) /\
    forall z, zc_lower z = zc_lower zone -> zc_upper z = zc_upper zone -> zone_total_pages z = total ->
      0 <= zone_total_sections z < 2 ^ 32 ->
      split_region m z (Z.of_nat n) = mk_zc (zc_lower zone) (zc_upper zone) (zc_pmm z) total' (zone_total_sections z + sc).
Proof.
  intros Hn Hu. pose proof (upto_bound _ _ _ Hu) as Hb. destruct Hu as [U1 U2 U3 U4].
  unfold generate_region, split_region. set (r := reg_at m (Z.of_nat n)).
  assert (Hskip : (forall p, ~ frame_in zone r p) -> sections_upto m zone (S n) total l).
  { intros Hno. split; try done. intros p. rewrite U4. split; intros (j & Hj & Hf); exists j; (split; [|done]); [lia|].
    destruct (decide (j = n)) as [->|]; [by apply Hno in Hf|lia]. }
  destruct (memory_regions_entry_empty m (Z.of_nat n)) eqn:Ee.
  { split.
    - apply Hskip. intros p [H _]. pose proof (entry_nonempty m _ _ H). congruence.
    - exists 0, 0. split_and!; try done; try lia. intros z <- <- <- Hs. destruct z. cbn. by rewrite Z.add_0_r. }
  destruct (Hp (Z.of_nat n) ltac:(lia)) as [Pa Pe]. pose proof (mo_reg _ Hm (Z.of_nat n) ltac:(lia)) as Hok.
  pose proof (section_of_region zone r Hz Hok Pa Pe) as Hs.
  destruct (section_bounds zone r) as [[lower upper]|] eqn:Eb.
  2:{ split; [by apply Hskip|]. exists 0, 0. split_and!; try done; try lia.
      intros z E1 E2 <- _. assert (E : section_bounds z r = None) by (unfold section_bounds in *; by rewrite E1, E2).
      rewrite E. destruct z. cbn in *. by rewrite Z.add_0_r, E1, E2. }
  destruct Hs as (a & b & -> & -> & Hab & Hb51 & Hlo & Hhi & Hpc & Hfr). rewrite Hpc.
  set (s := mk_sec (a * PAGE_SIZE) (b * PAGE_SIZE) (repeat 0 (Z.to_nat (b - a)))).
  assert (Hsp : forall p, p ∈ sec_ppns s <-> frame_in zone r p).
  { intros p. unfold s. rewrite sec_ppns_elem, Hfr by (done || by rewrite repeat_length). done. }
  assert (Hnew : forall p, frame_in zone r p -> p ∉ concat (map sec_ppns l)).
  { intros p [Hr _] (j & Hj & [Hr' _])%U4. pose proof (mo_disj _ Hm (Z.of_nat n) (Z.of_nat j) _ ltac:(lia) ltac:(lia) Hr Hr'). lia. }
  assert (Hu' : sections_upto m zone (S n) (total + (b - a)) (if negb (b - a =? 0) then s :: l else l)).
  { destruct (Z.eqb_spec (b - a) 0) as [E|E]; cbn [negb].
    - rewrite E, Z.add_0_r. apply Hskip. intros p Hf%Hfr. lia.
    - split.
      + cbn [map concat]. rewrite length_app. unfold s at 1. cbn [sec_pages]. rewrite repeat_length. lia.
      + constructor; [|done]. split; [|split; [done|split; [done|]]].
        * exists a. unfold page_count, s. cbn [sec_pages sec_lower sec_upper]. rewrite repeat_length, Z2Nat.id by lia.
          replace (a + (b - a)) with b by lia. split_and!; (done || lia).
        * unfold s. cbn [sec_pages]. apply Forall_forall. intros x Hx. apply list_elem_of_In, repeat_spec in Hx. done.
      + cbn [map concat]. apply NoDup_app. split; [apply sec_ppns_NoDup|]. split; [|done]. intros p Hps. apply Hnew. by apply Hsp.
      + intros p. cbn [map concat]. rewrite elem_of_app, Hsp, U4. split.
        * intros [H|(j & Hj & Hf)]; [exists n; split; [lia|done]|exists j; split; [lia|done]].
        * intros (j & Hj & Hf). destruct (decide (j = n)) as [->|]; [by left|right; exists j; split; [lia|done]]. }
  pose proof (upto_bound _ _ _ Hu') as Hb'. rewrite (u64_small (total + (b - a))) by lia. split; [done|].
  exists (b - a), 1. split_and!; try done; try lia.
  intros z E1 E2 <- Hsc. assert (E : section_bounds z r = Some (a * PAGE_SIZE, b * PAGE_SIZE)) by (unfold section_bounds in *; by rewrite E1, E2).
  rewrite E, Hpc, E1, E2, !u64_small by lia. done.
Qed.

Lemma generate_upto n data :
  Z.of_nat n <= region_count m -> 0 <= data < 2 ^ 62 ->
  let idx := map Z.of_nat (seq 0 n) in
  let '(total, l, data') := fold_left (generate_region m zone) idx (0, [], data) in
  let z := fold_left (split_region m) idx (mk_zc (zc_lower zone) (zc_upper zone) (zc_pmm zone) 0 0) in
  sections_upto m zone n total l /\ z = mk_zc (zc_lower zone) (zc_upper zone) (zc_pmm zone) total (zone_total_sections z) /\
  0 <= zone_total_sections z <= Z.of_nat n /\
  data' = data + zone_total_sections z * SECTION_STRUCT + total * PAGE_STRUCT.
Proof.
  intros Hn Hd. cbv zeta. induction n as [|n IH].
  { cbn. split; [|split; [done|split; [lia|unfold SECTION_STRUCT, PAGE_STRUCT; lia]]]. split; try done; [constructor|].
    intros p. split; [intros H; by apply elem_of_nil in H|intros (j & ? & _); lia]. }
  rewrite seq_S, map_app, !fold_left_app. cbn [map fold_left plus Nat.add].
  specialize (IH ltac:(lia)). destruct (fold_left (generate_region m zone) _ _) as [[total l] data1].
  set (z := fold_left (split_region m) _ _) in *. destruct IH as (I1 & I2 & I3 & I4).
  pose proof (generate_region_upto n total l data1 ltac:(lia) I1) as H.
  destruct (generate_region m zone (total, l, data1) (Z.of_nat n)) as [[total' l'] data'].
  destruct H as (H1 & pc & sc & Hpc & Hsc & -> & -> & H0 & H2). pose proof (upto_bound _ _ _ I1). pose proof (upto_bound _ _ _ H1).
  pose proof (mo_count _ Hm) as Hcn. unfold RENDEZVOS_MAX_MEMORY_REGIONS in *.
  rewrite (H2 z) by (rewrite I2; cbn; lia). cbn [zone_total_sections zc_pmm].
  split; [done|]. split; [by rewrite I2|]. split; [lia|]. rewrite I4. unfold SECTION_STRUCT, PAGE_STRUCT in *.
  destruct (Z.eqb_spec sc 1) as [->|]; [rewrite u64_small by lia; lia|]. assert (sc = 0) as -> by lia. rewrite H0 by done. lia.
Qed.
End Generate.

(** (functional): the sections built for a zone from a page-aligned, disjoint
    region table.  The frames of the zone are exactly the frames of the
    regions inside its bounds, each once and with no user, in sections the
    cursor can walk; the frame and section counts are those [split_pmm_zones]
    computed beforehand, and the zone data takes exactly the announced
    space. *)
Theorem generate_zone_sections m zone data
    (Hm : mr_ok m) (Hp : regions_paged m) (Hz : zone_paged zone) (Hd : 0 <= data < 2 ^ 62) :
  let '(total, z, data') := generate_zone m zone data in
  let announced := split_zone m zone in
  zone_ok z /\ zone_inside z /\ Forall (eq 0) (zone_refs z) /\
  total = Z.of_nat (length (zone_refs z)) /\ total = zone_total_pages announced /\
  data' = data + zone_total_sections announced * SECTION_STRUCT + total * PAGE_STRUCT /\
  forall p, p ∈ zone_ppns z <-> covers m (p * PAGE_SIZE) /\ zc_lower zone <= p * PAGE_SIZE < zc_upper zone.
Proof.
  unfold generate_zone, split_zone, region_indices. pose proof (mo_count _ Hm) as Hcn.
  pose proof (generate_upto m zone Hm Hp Hz (Z.to_nat (region_count m)) data ltac:(lia) Hd) as H. cbv zeta in H.
  destruct (fold_left (generate_region m zone) _ _) as [[total l] data']. cbv zeta.
  set (z := fold_left (split_region m) _ _) in *. destruct H as (H & Ez & _ & Ed).
  pose proof (upto_bound m zone Hz _ _ _ H) as Hb. destruct H as [U1 U2 U3 U4].
  unfold zone_ok, zone_inside, zone_refs, zone_ppns. cbn [secs zone_lower zone_upper]. split_and!; try done.
  - eapply Forall_impl; [exact U2|]. by intros s (? & _).
  - lia.
  - eapply Forall_impl; [exact U2|]. intros s (_ & ? & ? & _). done.
  - clear - U2. induction U2 as [|s l (_ & _ & _ & Hs) _ IH]; [constructor|]. cbn. by apply Forall_app.
  - by rewrite Ez.
  - intros p. rewrite U4. split.
    + intros (j & Hj & Hr & Hb'). split; [|done]. exists (Z.of_nat j). split; [lia|done].
    + intros [(j & Hj & Hr) Hb']. exists (Z.to_nat j). split; [lia|]. rewrite Z2Nat.id by lia. done.
Qed.

(** ** Concrete tables *)

Definition with_region (a l : Z) (m : memory_regions) : memory_regions := snd (memory_regions_insert m a l).
(** 1 MiB from 64 KiB, then 64 KiB from 2 MiB *)
Definition demo_regions : memory_regions := with_region 2097152 65536 (with_region 65536 1048576 memory_regions_init).

Lemma two_cases (P : Z -> Prop) : P 0 -> P 1 -> forall i, 0 <= i < 2 -> P i.
Proof. intros H0 H1 i Hi. assert (i = 0 \/ i = 1) as [-> | ->] by lia; done. Qed.

Lemma demo_at : reg_at demo_regions 0 = mk_region 65536 1048576 /\ reg_at demo_regions 1 = mk_region 2097152 65536.
Proof. vm_compute. split; reflexivity. Qed.

Lemma demo_regions_ok : mr_ok demo_regions.
Proof.
  destruct demo_at as [E0 E1]. split; change (region_count demo_regions) with 2.
  - reflexivity.
  - unfold RENDEZVOS_MAX_MEMORY_REGIONS. lia.
  - apply two_cases; rewrite ?E0, ?E1; unfold region_ok; cbn; lia.
  - intros i j a Hi Hj. assert (i = 0 \/ i = 1) as [-> | ->] by lia; assert (j = 0 \/ j = 1) as [-> | ->] by lia;
      rewrite ?E0, ?E1; unfold in_reg; cbn; lia.
Qed.

(** 8 KiB out of the middle of the first region *)
Lemma reserve_region_exact_witness :
  let '(r, m) := memory_regions_reserve_region demo_regions 131072 139264 in
  r = 0 /\ covers m 131071 /\ ~ covers m 131072 /\ covers m 139264.
Proof.
  pose proof (reserve_region_exact demo_regions 131072 139264 0 demo_regions_ok ltac:(done) ltac:(lia) ltac:(done)
    ltac:(done) ltac:(done) ltac:(intros j Hj; lia)) as H.
  destruct (memory_regions_reserve_region demo_regions 131072 139264) as [r m]. destruct H as (-> & _ & H).
  assert (C : forall a, 65536 <= a < 1114112 -> covers demo_regions a) by (intros a Ha; exists 0; split; [done|]; rewrite (proj1 demo_at); unfold in_reg; cbn; lia).
  split; [done|]. split; [apply H; split; [apply C|]; lia|]. split; [intros [_ H']%H; lia|]. apply H. split; [apply C|]; lia.
Defined.

Lemma demo_rounds : rounds_inside demo_regions 12.
Proof.
  intros i Hi _. change (region_count demo_regions) with 2 in Hi.
  assert (i = 0 \/ i = 1) as [-> | ->] by lia; vm_compute; split; discriminate.
Qed.

Lemma reserve_length_spec_witness :
  let '(r, s, e, m) := memory_regions_reserve_region_with_length demo_regions 4096 4096 0 0 in
  r = 0 /\ s = 65536 /\ e = 69632 /\ ~ covers m 65536 /\ covers m 69632.
Proof.
  pose proof (reserve_length_spec demo_regions 4096 12 0 0 demo_regions_ok ltac:(done) ltac:(lia) ltac:(lia) demo_rounds) as H.
  change (2 ^ 12) with 4096 in H.
  assert (E : fst (memory_regions_reserve_region_with_length demo_regions 4096 4096 0 0) = (0, 65536, 69632)) by (vm_compute; reflexivity).
  destruct (memory_regions_reserve_region_with_length demo_regions 4096 4096 0 0) as [[[r s] e] m].
  cbn [fst] in E. injection E as -> -> ->. destruct H as [(? & _)|(_ & _ & _ & _ & H1 & H2)]; [discriminate|].
  split_and!; try done; [intros [_ H]%H2; lia|]. apply H2. split; [|lia]. exists 0. split; [done|]. rewrite (proj1 demo_at). unfold in_reg. cbn. lia.
Defined.

Definition demo_cfg : zone_cfg := mk_zc 65536 2162688 (Some BUDDY_PMM) 0 0.

Lemma generate_zone_sections_witness :
  let '(total, z, _) := generate_zone demo_regions demo_cfg 0 in
  total = 272 /\ zone_ok z /\ 512 ∈ zone_ppns z.
Proof.
  pose proof (generate_zone_sections demo_regions demo_cfg 0 demo_regions_ok) as H.
  assert (Et : fst (fst (generate_zone demo_regions demo_cfg 0)) = 272) by (vm_compute; reflexivity).
  destruct (generate_zone demo_regions demo_cfg 0) as [[total z] data]. cbn [fst] in Et.
  destruct H as (H1 & _ & _ & _ & _ & _ & H2).
  - unfold regions_paged. change (region_count demo_regions) with 2. apply two_cases; rewrite ?(proj1 demo_at), ?(proj2 demo_at); unfold page_addr; cbn; split_and!; (reflexivity || lia).
  - unfold zone_paged, page_addr. cbn. split_and!; (reflexivity || lia).
  - lia.
  - split; [done|]. split; [done|]. apply H2. unfold PAGE_SIZE. split; [|cbn; lia]. exists 1. split; [done|]. rewrite (proj2 demo_at). unfold in_reg. cbn. lia.
Defined.

(** ** Limits *)

(** Two adjacent regions: a range at the start of the second is matched by the
    first, which only touches it.  The call reports the first region and
    reserves nothing. *)
Definition adjacent_regions : memory_regions := with_region 4096 4096 (with_region 0 4096 memory_regions_init).
Example adjacent_region_swallows_request :
  memory_regions_reserve_region adjacent_regions 4096 6000 = (0, adjacent_regions).
Proof. vm_compute. reflexivity. Qed.

(** A region that holds no page boundary: the room left after rounding wraps
    below zero, so the region is chosen, the range handed out lies outside
    every region, and the region's length becomes huge. *)
Definition sub_page_region : memory_regions := with_region 65536 1048576 (with_region 6144 256 memory_regions_init).
Example sub_page_region_is_chosen :
  let '(r, s, e, m) := memory_regions_reserve_region_with_length sub_page_region 4096 4096 0 0 in
  (r, s, e) = (0, 8192, 12288) /\ reg_at m 0 = mk_region 12288 18446744073709545728.
Proof. vm_compute. split; reflexivity. Qed.

(** A full table: the split cannot be stored, nothing is reserved, and an
    index is returned all the same. *)
Definition full_regions : memory_regions :=
  mk_mr 128 (<[127%nat := mk_region 6144 1048576]> (repeat (mk_region 0 0) 128)).
Example full_table_reserves_nothing :
  memory_regions_reserve_region_with_length full_regions 4096 4096 0 0 = (127, 8192, 12288, full_regions).
Proof. vm_compute. reflexivity. Qed.
