(* ===== verification/Buddy.v ===== *)
(** * Buddy allocator

    [kernel/mm/buddy_pmm.c]: blocks of [2^order] frames on per-order free
    lists, allocation by splitting, release by merging with the index-wise
    buddy.  A free list is the sequence of frame indices it links (see ListH
    for the pointer level); [list_del] takes an index off whichever list
    holds it.  Frame counts live in the zone (see Pmm). *)
From S2P Require Import Prelude Mm Pmm.

Definition BUDDY_MAXORDER : Z := 10.

Record buddy_page := mk_bpage { ppn : Z; order : Z }.
#[export] Instance buddy_page_inhabited : Inhabited buddy_page := populate (mk_bpage 0 (-1)).
Record buddy_bucket := mk_bucket { aval_pages : Z; frames : list Z }.
Record buddy := mk_buddy {
  pages : list buddy_page;
  buckets : nat -> buddy_bucket;
  total_avaliable_pages : Z;
  bzone : MemZone
}.
Definition buddy_page_number (b : buddy) : Z := Z.of_nat (length (pages b)).

Definition page_at (b : buddy) (i : Z) : buddy_page := pages b !!! Z.to_nat i.

(** ** Field updates *)
Definition set_order (i o : Z) (b : buddy) : buddy :=
  mk_buddy (<[Z.to_nat i := mk_bpage (ppn (page_at b i)) o]> (pages b)) (buckets b) (total_avaliable_pages b) (bzone b).
Definition set_bucket (k : nat) (x : buddy_bucket) (b : buddy) : buddy :=
  mk_buddy (pages b) (<[k := x]> (buckets b)) (total_avaliable_pages b) (bzone b).
Definition set_total (t : Z) (b : buddy) : buddy := mk_buddy (pages b) (buckets b) t (bzone b).
Definition set_zone (z : MemZone) (b : buddy) : buddy :=
  mk_buddy (pages b) (buckets b) (total_avaliable_pages b) z.
Definition add_aval (k : nat) (d : Z) (b : buddy) : buddy :=
  set_bucket k (mk_bucket (u64 (aval_pages (buckets b k) + d)) (frames (buckets b k))) b.
Definition frame_add_head (k : nat) (i : Z) (b : buddy) : buddy :=
  set_bucket k (mk_bucket (aval_pages (buckets b k)) (i :: frames (buckets b k))) b.
Definition frame_add_tail (k : nat) (i : Z) (b : buddy) : buddy :=
  set_bucket k (mk_bucket (aval_pages (buckets b k)) (frames (buckets b k) ++ [i])) b.
Definition frame_del (i : Z) (b : buddy) : buddy :=
  mk_buddy (pages b)
    (fun k => mk_bucket (aval_pages (buckets b k)) (filter (fun x => x <> i) (frames (buckets b k))))
    (total_avaliable_pages b) (bzone b).

Definition calculate_manage_space (zone_page_number : Z) : Z :=
  ROUND_UP (u64 (zone_page_number * 32)) PAGE_SIZE / PAGE_SIZE.

(** ** Initialisation *)

Definition init_order0 (b : buddy) (index : Z) : buddy :=
  let b := frame_add_tail 0 index b in
  let b := set_order index 0 b in
  let b := add_aval 0 1 b in
  set_total (u64 (total_avaliable_pages b + 1)) b.

(** one index of the pass that builds blocks of [order] *)
Definition init_merge (o : nat) (b : buddy) (index : Z) : buddy :=
  let half := 2 ^ (Z.of_nat o - 1) in
  if ALIGNED (ppn (page_at b index)) (2 ^ Z.of_nat o)
     && (index + half <? buddy_page_number b)
     && (ppn (page_at b (index + half)) =? ppn (page_at b index) + half)
  then
    let b := frame_del index b in
    let b := set_order (index + half) (-1) b in
    let b := frame_del (index + half) b in
    let b := set_order index (order (page_at b index) + 1) b in
    let b := add_aval (o - 1) (-2) b in
    let b := frame_add_tail o index b in
    add_aval o 1 b
  else b.

Definition indices (n : Z) : list Z := map Z.of_nat (seq 0 (Z.to_nat n)).

(** [start, stop): the physical range reserved for the page array *)
Definition pmm_init (zone_total_pages : Z) (z : MemZone) (start stop : Z) : buddy :=
  let b := mk_buddy [] (fun _ => mk_bucket 0 []) 0 z in
  if u64 (stop - start) <? u64 (zone_total_pages * 32) then b
  else
    let b := mk_buddy (map (fun p => mk_bpage p 0) (zone_ppns z)) (buckets b) 0 z in
    if negb (buddy_page_number b =? zone_total_pages) then b
    else
      let idx := indices (buddy_page_number b) in
      let b := fold_left init_order0 idx b in
      fold_left (fun b o => fold_left (init_merge o) idx b) (seq 1 10) b.

(** ** Allocation *)

(** first order from [k] on with a block, and its first block *)
Fixpoint find_order (b : buddy) (k fuel : nat) : option (nat * Z) :=
  match fuel with
  | O => None
  | S fuel' =>
    match frames (buckets b k) with
    | h :: _ => Some (k, h)
    | [] => find_order b (S k) fuel'
    end
  end.

(** [do { claim; done++ } while (--remaining && next)]: frames claimed, zone,
    whether all [S left] were *)
Fixpoint claim_loop (z : MemZone) (cur : ZonePageCursor) (done : Z) (left : nat) : Z * MemZone * bool :=
  let '(ok, p) := phy_Page_ref_claim (zone_page_cursor_page z cur) in
  if negb ok then (done, z, false)
  else
    let z := match p with Some r => cursor_store z cur r | None => z end in
    match left with
    | O => (done + 1, z, true)
    | S left' =>
      match zone_page_cursor_next z cur with
      | Some cur => claim_loop z cur (done + 1) left'
      | None => (done + 1, z, false)
      end
    end.

Fixpoint undo_loop (z : MemZone) (cur : ZonePageCursor) (left : nat) : MemZone :=
  let z := match phy_Page_ref_put (zone_page_cursor_page z cur) with
           | Some r => cursor_store z cur r | None => z end in
  match left with
  | O => z
  | S left' =>
    match zone_page_cursor_next z cur with
    | Some cur => undo_loop z cur left'
    | None => z
    end
  end.

(** one round of [while (tmp_order > alloc_order)] *)
Definition split_step (b : buddy) (node : Z) (tmp_order : nat) : buddy :=
  let left_child := node in
  let right_child := node + 2 ^ (Z.of_nat tmp_order - 1) in
  let b := set_order right_child (Z.of_nat tmp_order - 1) b in
  let b := set_order left_child (Z.of_nat tmp_order - 1) b in
  let b := add_aval tmp_order (-1) b in
  let tmp_order := (tmp_order - 1)%nat in
  let b := add_aval tmp_order 2 b in
  let b := frame_del node b in
  let b := frame_add_head tmp_order left_child b in
  frame_add_head tmp_order right_child b.

Fixpoint split_loop (b : buddy) (node : Z) (tmp_order : nat) (splits : nat) : buddy :=
  match splits with
  | O => b
  | S n => split_loop (split_step b node tmp_order) node (tmp_order - 1) n
  end.

Fixpoint mark_allocated (b : buddy) (node : Z) (n : nat) : buddy :=
  match n with
  | O => b
  | S n' => set_order (node + Z.of_nat n') (-1) (mark_allocated b node n')
  end.

(** result code or frame number, pages allocated, state *)
Definition pmm_alloc_zone (b : buddy) (alloc_order : nat) : Z * Z * buddy :=
  match find_order b alloc_order (11 - alloc_order) with
  | None => (- E_REND_NO_MEM, 0, b)
  | Some (tmp_order, del_node) =>
    if order (page_at b del_node) <? 0 then (- E_RENDEZVOS, 0, b)
    else
      match zone_page_cursor_init (bzone b) (ppn (page_at b del_node)) with
      | None => (- E_RENDEZVOS, 0, b)
      | Some cur =>
        let '(done, z, ok) := claim_loop (bzone b) cur 0 (Z.to_nat (2 ^ Z.of_nat alloc_order) - 1) in
        if negb ok then
          let z := if done =? 0 then z
                   else match zone_page_cursor_init z (ppn (page_at b del_node)) with
                        | Some cur => undo_loop z cur (Z.to_nat (done - 1))
                        | None => z
                        end in
          (- E_RENDEZVOS, 0, set_zone z b)
        else
          let b := set_zone z b in
          let b := split_loop b del_node tmp_order (tmp_order - alloc_order) in
          let b := mark_allocated b del_node (Z.to_nat (2 ^ Z.of_nat alloc_order)) in
          let b := frame_del del_node b in
          let b := add_aval alloc_order (-1) b in
          let b := set_total (u64 (total_avaliable_pages b - 2 ^ Z.of_nat alloc_order)) b in
          (ppn (page_at b del_node), 2 ^ Z.of_nat alloc_order, b)
      end
  end.

Definition PMM_RECLAIM_MAX_ATTEMPTS : nat := 64.

Definition lock_zone (v : bool) (b : buddy) : buddy :=
  set_zone (mk_zone (zone_lower (bzone b)) (zone_upper (bzone b)) (secs (bzone b)) v) b.

(** one attempt under the lock: [inl] returns, [inr] goes to [try_reclaim] *)
Definition alloc_attempt (b : buddy) (page_number : Z) : (Z * Z * buddy) + buddy :=
  let b := lock_zone true b in
  if total_avaliable_pages b <? page_number then inr (lock_zone false b)
  else if 2 ^ BUDDY_MAXORDER <? page_number then inl (- E_RENDEZVOS, 0, lock_zone false b)
  else
    let '(r, n, b) := pmm_alloc_zone b (Z.to_nat (log2_of_next_power_of_two page_number)) in
    let b := lock_zone false b in
    if negb (invalid_ppn r) then inl (r, n, b)
    else if r =? - E_RENDEZVOS then inl (r, n, b)
    else inr b.

(** the [retry] loop: [attempts] reclaim calls are left; the hook gets the
    number already made *)
Fixpoint pmm_alloc_loop (reclaim_fn : option (buddy -> Z -> Z -> bool * buddy)) (b : buddy)
    (page_number tried : Z) (attempts : nat) : Z * Z * buddy :=
  match alloc_attempt b page_number with
  | inl r => r
  | inr b =>
    match reclaim_fn, attempts with
    | None, _ | _, O => (- E_REND_AGAIN, 0, b)
    | Some f, S attempts' =>
      let '(again, b) := f b page_number tried in
      if negb again then (- E_REND_NO_MEM, 0, b)
      else pmm_alloc_loop reclaim_fn b page_number (tried + 1) attempts'
    end
  end.
Definition pmm_alloc (reclaim_fn : option (buddy -> Z -> Z -> bool * buddy)) (b : buddy) (page_number : Z)
  : Z * Z * buddy :=
  if page_number =? 0 then (- E_IN_PARAM, 0, b)
  else pmm_alloc_loop reclaim_fn b page_number 0 PMM_RECLAIM_MAX_ATTEMPTS.

(** ** Release *)

(** the merge loop from [tmp_order] on; ends at [free_one] with the block *)
Fixpoint merge_loop (b : buddy) (index : Z) (tmp_order : nat) (fuel : nat) : buddy * Z * nat :=
  match fuel with
  | O => (b, index, tmp_order)
  | S fuel' =>
    let buddy_index := Z.lxor index (2 ^ Z.of_nat tmp_order) in
    if (buddy_index <? 0) || (buddy_page_number b <=? buddy_index) then (b, index, tmp_order)
    else
      let bp := ppn (page_at b buddy_index) in
      let ip := ppn (page_at b index) in
      if ((index <? buddy_index) && negb (bp - ip =? 2 ^ Z.of_nat tmp_order))
         || ((buddy_index <? index) && negb (ip - bp =? 2 ^ Z.of_nat tmp_order))
      then (b, index, tmp_order)
      else if negb (order (page_at b buddy_index) =? Z.of_nat tmp_order) then (b, index, tmp_order)
      else
        let b := frame_del index b in
        let b := frame_del buddy_index b in
        let b := add_aval tmp_order (-1) b in
        merge_loop b (Z.min index buddy_index) (S tmp_order) fuel'
  end.

Definition pmm_free_one_index (b : buddy) (index : Z) : Z * buddy :=
  if (index <? 0) || (buddy_page_number b <=? index) then (- E_RENDEZVOS, b)
  else if 0 <=? order (page_at b index) then (- E_RENDEZVOS, b)
  else
    let '(b, index, tmp_order) := merge_loop b index 0 (Z.to_nat BUDDY_MAXORDER) in
    let b := set_order index (Z.of_nat tmp_order) b in
    let b := add_aval tmp_order 1 b in
    let b := frame_add_head tmp_order index b in
    (0, set_total (u64 (total_avaliable_pages b + 1)) b).

Fixpoint free_loop (b : buddy) (cur : ZonePageCursor) (left : nat) : Z * buddy :=
  match left with
  | O => (0, b)
  | S left' =>
    let p := zone_page_cursor_page (bzone b) cur in
    let step :=
      match p with
      | None => (0, b)
      | Some _ =>
        let p := phy_Page_ref_put p in
        let b := match p with Some r => set_zone (cursor_store (bzone b) cur r) b | None => b end in
        if phy_Page_refed p then (0, b)
        else pmm_free_one_index b (zone_page_cursor_index cur)
      end in
    let '(e, b) := step in
    if negb (e =? 0) then (e, b)
    else
      match left' with
      | O => (0, b)
      | S _ =>
        match zone_page_cursor_next (bzone b) cur with
        | Some cur => free_loop b cur left'
        | None => (- E_RENDEZVOS, b)
        end
      end
  end.

Definition pmm_free (b : buddy) (ppn page_number : Z) : Z * buddy :=
  if ppn =? - E_RENDEZVOS then (- E_RENDEZVOS, b)
  else if negb (ppn_in_Zone (bzone b) ppn) then (- E_RENDEZVOS, b)
  else if (1 <? page_number) && negb (ppn_in_Zone (bzone b) (i64 (ppn + page_number - 1))) then (- E_RENDEZVOS, b)
  else
    let b := lock_zone true b in
    match zone_page_cursor_init (bzone b) ppn with
    | None => (- E_RENDEZVOS, lock_zone false b)
    | Some cur =>
      let '(e, b) := free_loop b cur (Z.to_nat page_number) in
      (e, lock_zone false b)
    end.

(** ** Blocks *)

Notation bsz k := (2 ^ Z.of_nat k).

Lemma bsz_S k : bsz (S k) = 2 * bsz k.
Proof. rewrite Nat2Z.inj_succ, Z.pow_succ_r by lia. done. Qed.
Lemma bsz_pos k : 1 <= bsz k.
Proof. pose proof (Z.pow_pos_nonneg 2 (Z.of_nat k)). lia. Qed.
Lemma bsz_le k k' : (k <= k')%nat -> bsz k <= bsz k'.
Proof. intros. apply Z.pow_le_mono_r; lia. Qed.
Lemma bsz_divide k k' : (k <= k')%nat -> exists c, bsz k' = c * bsz k.
Proof.
  intros. exists (bsz (k' - k)). rewrite <- Z.pow_add_r by lia. f_equal. lia.
Qed.

(** the index-wise buddy: the other half of the aligned pair *)
Lemma buddy_pair s t :
  s mod bsz t = 0 ->
  exists q, (s = 2 * q * bsz t /\ Z.lxor s (bsz t) = s + bsz t) \/
            (s = (2 * q + 1) * bsz t /\ Z.lxor s (bsz t) = s - bsz t).
Proof.
  intros Hs. pose proof (bsz_pos t). apply Z.mod_divide in Hs as [a ->]; [|lia].
  assert (He : forall q, Z.lxor (2 * q) 1 = 2 * q + 1).
  { intros q. symmetry. apply Z.add_nocarry_lxor. apply Z.bits_inj'. intros n Hn.
    rewrite Z.land_spec, Z.bits_0. destruct (decide (n = 0)) as [->|].
    - by rewrite Z.testbit_even_0.
    - rewrite (testbit_small 1 1 n) by lia. apply andb_false_r. }
  assert (Hx : Z.lxor (a * bsz t) (bsz t) = Z.lxor a 1 * bsz t).
  { rewrite <- !Z.shiftl_mul_pow2 by lia. rewrite Z.shiftl_lxor. f_equal. rewrite Z.shiftl_mul_pow2 by lia. lia. }
  rewrite Hx. exists (a / 2). destruct (Zeven_odd_dec a) as [Ha|Ha].
  - apply Zeven_ex in Ha as [q ->]. left. rewrite He. replace (2 * q / 2) with q by dlia. lia.
  - apply Zodd_ex in Ha as [q ->]. right.
    assert (Ho : Z.lxor (2 * q + 1) 1 = 2 * q) by (rewrite <- He, Z.lxor_assoc, Z.lxor_nilpotent; apply Z.lxor_0_r).
    rewrite Ho. replace ((2 * q + 1) / 2) with q by dlia. lia.
Qed.

Definition inb (k : nat) (i j : Z) : Prop := i <= j < i + bsz k.

Section Blocks.
Context (N : Z) (pp : Z -> Z).
Implicit Types (O : Z -> Z) (B : nat -> Z -> Prop).

Record blk_ok O B : Prop := {
  bo_range : forall k i, B k i -> (k <= 10)%nat /\ 0 <= i /\ i + bsz k <= N;
  bo_order : forall k i, B k i -> O i = Z.of_nat k;
  bo_ppn : forall k i d, B k i -> 0 <= d < bsz k -> pp (i + d) = pp i + d;
  bo_disj : forall k i k' i' j, B k i -> B k' i' -> inb k i j -> inb k' i' j -> i = i'
}.

(** a page whose [order] is set heads a free block of that order, or is a
    leftover inside a larger block built by merging *)
Definition stale_ok O B (j : Z) : Prop :=
  forall o : nat, O j = Z.of_nat o -> B o j \/
    exists k i, B k i /\ (o < k)%nat /\ inb k i j /\ i mod bsz k = 0 /\ j mod bsz o = 0.

Definition core O B : Prop := blk_ok O B /\ forall j, 0 <= j < N -> stale_ok O B j.

(** [2^t] free frames from [s] on are on no list *)
Record core_hole O B (s : Z) (t : nat) : Prop := {
  ch_ok : blk_ok O B;
  ch_range : (t <= 10)%nat /\ 0 <= s /\ s + bsz t <= N /\ s mod bsz t = 0;
  ch_ppn : forall d, 0 <= d < bsz t -> pp (s + d) = pp s + d;
  ch_out : forall k i j, B k i -> inb k i j -> ~ inb t s j;
  ch_stale : forall j, 0 <= j < N -> ~ inb t s j -> stale_ok O B j;
  ch_in : forall j (o : nat), inb t s j -> O j = Z.of_nat o -> (o < t)%nat /\ j mod bsz o = 0
}.

Lemma head_in k i : inb k i i.
Proof. pose proof (bsz_pos k). unfold inb. lia. Qed.

Lemma stale_free O B j o : stale_ok O B j -> O j = Z.of_nat o -> exists k i, B k i /\ inb k i j.
Proof. intros H Ho. destruct (H o Ho) as [?|(k & i & ? & _ & ? & _)]; [|by exists k, i]. exists o, j. by split; [|apply head_in]. Qed.

Lemma blk_uniq O B k i k' : blk_ok O B -> B k i -> B k' i -> k = k'.
Proof. intros H H1 H2. pose proof (bo_order _ _ H _ _ H1). pose proof (bo_order _ _ H _ _ H2). lia. Qed.

(** what the order of a page inside a block can be *)
Lemma in_block_order O B k i j o :
  core O B -> B k i -> inb k i j -> j <> i -> O j = Z.of_nat o ->
  (o < k)%nat /\ i mod bsz k = 0 /\ j mod bsz o = 0.
Proof.
  intros [Hb Hs] Hi Hj Hne Ho. destruct (bo_range _ _ Hb _ _ Hi) as (_ & Hi1 & Hi2). unfold inb in Hj.
  destruct (Hs j ltac:(lia) o Ho) as [H|(k' & i' & H & Hlt & Hin & Hm & Hm')].
  - destruct Hne. symmetry. apply (bo_disj _ _ Hb _ _ _ _ j Hi H); [done|apply head_in].
  - pose proof (bo_disj _ _ Hb _ _ _ _ j Hi H Hj Hin) as <-.
    pose proof (blk_uniq _ _ _ _ _ Hb Hi H) as <-. done.
Qed.

Lemma half_order k i j o :
  i mod bsz (S k) = 0 -> j mod bsz o = 0 -> (o < S k)%nat -> i < j < i + bsz (S k) -> j <> i + bsz k -> (o < k)%nat.
Proof.
  intros Hi Hj Ho Hr Hne. destruct (decide (o = k)) as [->|]; [exfalso|lia].
  pose proof (bsz_pos k). rewrite bsz_S in *. apply Z.mod_divide in Hi as [p Hp]; [|lia].
  apply Z.mod_divide in Hj as [q Hq]; [|lia]. assert (2 * p < q < 2 * p + 2) by nia. nia.
Qed.

Lemma aligned_half k i : i mod bsz (S k) = 0 -> i mod bsz k = 0 /\ (i + bsz k) mod bsz k = 0.
Proof.
  intros Hi. pose proof (bsz_pos k). rewrite bsz_S in Hi. apply Z.mod_divide in Hi as [p ->]; [|lia].
  split; apply Z.mod_divide; try lia; [exists (2 * p)|exists (2 * p + 1)]; lia.
Qed.

(** splitting a block into its halves *)
Lemma split_core O B O' B' k i :
  core O B -> B (S k) i ->
  (forall j, O' j = if decide (j = i \/ j = i + bsz k) then Z.of_nat k else O j) ->
  (forall k' x, B' k' x <-> (k' = k /\ (x = i \/ x = i + bsz k)) \/ (B k' x /\ x <> i)) ->
  core O' B'.
Proof.
  intros Hc Hi HO HB. pose proof Hc as [Hb Hs]. destruct (bo_range _ _ Hb _ _ Hi) as (Hk & Hi0 & HiN).
  pose proof (bsz_pos k) as Hp. pose proof (bsz_S k) as E.
  assert (Hother : forall k' x j, B k' x -> x <> i -> inb k' x j -> ~ inb (S k) i j).
  { intros k' x j H Hne H1 H2. apply Hne. by apply (bo_disj _ _ Hb _ _ _ _ j H Hi). }
  split; [split|].
  - intros k' x [(-> & [-> | ->])|[H _]]%HB; [lia|lia|by apply (bo_range _ _ Hb)].
  - intros k' x [(-> & Hx)|[H Hne]]%HB; rewrite HO; [by rewrite decide_True|].
    rewrite decide_False; [by apply (bo_order _ _ Hb)|]. intros [|Hx]; [done|].
    apply (Hother _ _ x H Hne); [apply head_in|unfold inb; lia].
  - intros k' x d [(-> & [-> | ->])|[H Hne]]%HB Hd; [| |by apply (bo_ppn _ _ Hb _ _ d H)].
    + apply (bo_ppn _ _ Hb _ _ d Hi). lia.
    + pose proof (bo_ppn _ _ Hb _ _ (bsz k + d) Hi ltac:(lia)).
      pose proof (bo_ppn _ _ Hb _ _ (bsz k) Hi ltac:(lia)). rewrite Z.add_assoc in *. lia.
  - intros k1 i1 k2 i2 j H1%HB H2%HB Hj1 Hj2.
    destruct H1 as [(-> & H1)|[H1 Hn1]], H2 as [(-> & H2)|[H2 Hn2]].
    + unfold inb in *. lia.
    + exfalso. apply (Hother _ _ j H2 Hn2 Hj2). unfold inb in *. lia.
    + exfalso. apply (Hother _ _ j H1 Hn1 Hj1). unfold inb in *. lia.
    + by apply (bo_disj _ _ Hb _ _ _ _ j H1 H2).
  - intros j Hj o. rewrite HO. case_decide as Hd.
    + intros ?%Nat2Z.inj. left. apply HB. left. by split.
    + intros Ho. destruct (decide (inb (S k) i j)) as [Hin|Hin].
      * destruct (in_block_order O B (S k) i j o Hc Hi Hin ltac:(tauto) Ho) as (Hlt & Ha & Hm).
        unfold inb in Hin. pose proof (half_order k i j o Ha Hm Hlt ltac:(lia) ltac:(tauto)).
        destruct (aligned_half k i Ha). right.
        destruct (decide (j < i + bsz k)); [exists k, i|exists k, (i + bsz k)].
        all: split; [apply HB; left; tauto|]; unfold inb; split_and!; (done || lia).
      * destruct (Hs j Hj o Ho) as [H|(k' & x & H & ? & Hx & ?)].
        -- left. apply HB. right. split; [done|]. tauto.
        -- right. exists k', x. split; [apply HB; right; split; [done|]|done]. intros ->.
           pose proof (blk_uniq _ _ _ _ _ Hb H Hi) as ->. done.
Qed.

(** handing out a whole block *)
Lemma take_core O B O' B' k i :
  core O B -> B k i ->
  (forall j, O' j = if decide (inb k i j) then -1 else O j) ->
  (forall k' x, B' k' x <-> B k' x /\ x <> i) ->
  core O' B'.
Proof.
  intros Hc Hi HO HB. pose proof Hc as [Hb Hs]. split; [split|].
  - intros k' x [H _]%HB. by apply (bo_range _ _ Hb).
  - intros k' x [H Hne]%HB. rewrite HO, decide_False; [by apply (bo_order _ _ Hb)|].
    intros Hin. apply Hne. apply (bo_disj _ _ Hb _ _ _ _ x H Hi); [apply head_in|done].
  - intros k' x d [H _]%HB. by apply (bo_ppn _ _ Hb).
  - intros k1 i1 k2 i2 j [H1 _]%HB [H2 _]%HB. by apply (bo_disj _ _ Hb).
  - intros j Hj o. rewrite HO. case_decide as Hd; [lia|]. intros Ho.
    destruct (Hs j Hj o Ho) as [H|(k' & x & H & ? & Hx & ?)].
    + left. apply HB. split; [done|]. intros ->. pose proof (head_in k i). done.
    + right. exists k', x. split; [apply HB; split; [done|]|done]. intros ->.
      by pose proof (blk_uniq _ _ _ _ _ Hb H Hi) as ->.
Qed.

(** a page in use becomes a hole of one frame *)
Lemma hole_start O B i :
  core O B -> 0 <= i < N -> (forall k x, B k x -> ~ inb k x i) -> core_hole O B i 0.
Proof.
  intros [Hb Hs] Hi Hf. split; [done| | | | |].
  - change (bsz 0) with 1. rewrite Z.mod_1_r. lia.
  - change (bsz 0) with 1. intros d ?. assert (d = 0) as -> by lia. by rewrite !Z.add_0_r.
  - intros k x j H Hj Hj'. assert (j = i) as -> by (unfold inb in Hj'; change (bsz 0) with 1 in Hj'; lia). by apply (Hf k x).
  - intros j Hj _. by apply Hs.
  - intros j o Hj Ho. assert (j = i) as -> by (unfold inb in Hj; change (bsz 0) with 1 in Hj; lia).
    destruct (stale_free _ _ _ _ (Hs i Hi) Ho) as (k & x & H & Hx). by destruct (Hf k x H).
Qed.

(** the buddy of a hole, when its order matches, heads a free block *)
Lemma hole_buddy O B s t :
  core_hole O B s t -> 0 <= Z.lxor s (bsz t) < N -> O (Z.lxor s (bsz t)) = Z.of_nat t -> B t (Z.lxor s (bsz t)).
Proof.
  intros H Hr Ho. destruct (ch_range _ _ _ _ H) as (Ht & Hs0 & HsN & Ha). pose proof (bsz_pos t) as Hp.
  destruct (buddy_pair s t Ha) as (q & Hq).
  assert (Hout : ~ inb t s (Z.lxor s (bsz t))) by (unfold inb; destruct Hq as [[_ ->]|[_ ->]]; lia).
  destruct (ch_stale _ _ _ _ H _ Hr Hout t Ho) as [|(k & i & Hb & Hlt & Hin & Hk & _)]; [done|exfalso].
  apply (ch_out _ _ _ _ H k i s Hb); [|apply head_in]. destruct (bsz_divide (S t) k Hlt) as [c Hc].
  pose proof (bsz_pos k). unfold inb in *. apply Z.mod_divide in Hk as [a Hk]; [|lia]. rewrite Hc in *. rewrite bsz_S in *.
  assert (Ei : i = 2 * (a * c) * bsz t) by lia. assert (Ek : i + c * (2 * bsz t) = 2 * (a * c + c) * bsz t) by lia.
  rewrite Ek in *. rewrite Ei in *. clear Ei Ek Hk Hc.
  destruct Hq as [[Es Ex]|[Es Ex]]; rewrite Ex, Es in Hin; rewrite Es.
  - assert (2 * (a * c) <= 2 * q + 1 < 2 * (a * c + c)) by nia. nia.
  - assert (2 * (a * c) <= 2 * q < 2 * (a * c + c)) by nia. nia.
Qed.

Lemma hole_merge O B B' s t j :
  core_hole O B s t -> (t < 10)%nat -> j = Z.lxor s (bsz t) -> B t j -> (pp (Z.max s j) = pp (Z.min s j) + bsz t) ->
  (forall k' x, B' k' x <-> B k' x /\ x <> j) ->
  core_hole O B' (Z.min s j) (S t).
Proof.
  intros H Ht Ej Hj Hpp HB. destruct (ch_range _ _ _ _ H) as (_ & Hs0 & HsN & Ha). pose proof (bsz_pos t) as Hp.
  pose proof (ch_ok _ _ _ _ H) as Hb. destruct (bo_range _ _ Hb _ _ Hj) as (_ & Hj0 & HjN). pose proof (bsz_S t) as E.
  destruct (buddy_pair s t Ha) as (q & Hq). rewrite <- Ej in Hq.
  assert (Hun : forall x, inb (S t) (Z.min s j) x <-> inb t s x \/ inb t j x) by (intros; unfold inb; lia).
  split.
  - split.
    + intros k' x [Hx _]%HB. by apply (bo_range _ _ Hb).
    + intros k' x [Hx _]%HB. by apply (bo_order _ _ Hb).
    + intros k' x d [Hx _]%HB. by apply (bo_ppn _ _ Hb).
    + intros k1 i1 k2 i2 x [H1 _]%HB [H2 _]%HB. by apply (bo_disj _ _ Hb).
  - split; [lia|]. split; [lia|]. split; [lia|]. apply Z.mod_divide; [lia|]. exists q. lia.
  - intros d Hd. destruct (decide (d < bsz t)).
    + destruct Hq as [[_ ->]|[_ ->]]; [rewrite Z.min_l by lia; apply (ch_ppn _ _ _ _ H); lia|].
      rewrite Z.min_r in * by lia. apply (bo_ppn _ _ Hb t); [|lia]. done.
    + replace (Z.min s j + d) with (Z.max s j + (d - bsz t)) by lia.
      assert (E2 : pp (Z.max s j + (d - bsz t)) = pp (Z.max s j) + (d - bsz t)); [|lia].
      destruct (decide (s < j)); [rewrite Z.max_r by lia; by apply (bo_ppn _ _ Hb t); [|lia]|].
      rewrite Z.max_l by lia. apply (ch_ppn _ _ _ _ H). lia.
  - intros k x y [Hx Hne]%HB Hy [Hy'|Hy']%Hun; [by apply (ch_out _ _ _ _ H k x y)|].
    apply Hne. by apply (bo_disj _ _ Hb k x t j y).
  - intros y Hy Hout o Ho. assert (~ inb t s y /\ ~ inb t j y) as [H1 H2] by (rewrite Hun in Hout; tauto).
    destruct (ch_stale _ _ _ _ H y Hy H1 o Ho) as [Hx|(k & x & Hx & ? & Hin & ?)].
    + left. apply HB. split; [done|]. intros ->. apply H2, head_in.
    + right. exists k, x. split; [apply HB; split; [done|]|done]. intros ->.
      by pose proof (blk_uniq _ _ _ _ _ Hb Hx Hj) as ->.
  - intros y o Hy Ho. apply Hun in Hy. destruct (decide (inb t s y)) as [Hs|Hs].
    + destruct (ch_in _ _ _ _ H y o Hs Ho). split; [lia|done].
    + destruct Hy as [|Hy]; [done|]. destruct (ch_stale _ _ _ _ H y ltac:(unfold inb in *; lia) Hs o Ho) as [Hx|(k & x & Hx & ? & Hin & _ & Hm)].
      * pose proof (bo_disj _ _ Hb _ _ _ _ y Hj Hx Hy (head_in _ _)) as ->.
        pose proof (blk_uniq _ _ _ _ _ Hb Hj Hx) as <-. split; [lia|]. rewrite Ej.
        apply Z.mod_divide; [lia|]. rewrite <- Ej. destruct Hq as [[? ->]|[? ->]]; [exists (2 * q + 1)|exists (2 * q)]; lia.
      * pose proof (bo_disj _ _ Hb _ _ _ _ y Hj Hx Hy Hin) as <-.
        pose proof (blk_uniq _ _ _ _ _ Hb Hj Hx) as <-. split; [lia|done].
Qed.

Lemma hole_fill O B O' B' s t :
  core_hole O B s t ->
  (forall j, O' j = if decide (j = s) then Z.of_nat t else O j) ->
  (forall k' x, B' k' x <-> (k' = t /\ x = s) \/ B k' x) ->
  core O' B'.
Proof.
  intros H HO HB. destruct (ch_range _ _ _ _ H) as (Ht & Hs0 & HsN & Ha).
  pose proof (ch_ok _ _ _ _ H) as Hb. split; [split|].
  - intros k x [(-> & ->)|Hx]%HB; [done|by apply (bo_range _ _ Hb)].
  - intros k x [(-> & ->)|Hx]%HB; rewrite HO; [by rewrite decide_True|]. rewrite decide_False; [by apply (bo_order _ _ Hb)|].
    intros ->. by apply (ch_out _ _ _ _ H k s s Hx); apply head_in.
  - intros k x d [(-> & ->)|Hx]%HB; [apply (ch_ppn _ _ _ _ H)|by apply (bo_ppn _ _ Hb)].
  - intros k1 i1 k2 i2 j [(-> & ->)|H1]%HB [(-> & ->)|H2]%HB Hj1 Hj2; [done| | |by apply (bo_disj _ _ Hb k1 i1 k2 i2 j)].
    + by destruct (ch_out _ _ _ _ H _ _ j H2 Hj2).
    + by destruct (ch_out _ _ _ _ H _ _ j H1 Hj1).
  - intros j Hj o. rewrite HO. case_decide as Hd.
    + subst. intros <-%Nat2Z.inj. left. apply HB. by left.
    + intros Ho. destruct (decide (inb t s j)) as [Hin|Hin].
      * destruct (ch_in _ _ _ _ H j o Hin Ho). right. exists t, s. split; [apply HB; by left|done].
      * destruct (ch_stale _ _ _ _ H j Hj Hin o Ho) as [Hx|(k & x & Hx & Hr)]; [left; apply HB; by right|].
        right. exists k, x. split; [apply HB; by right|done].
Qed.
End Blocks.

(** ** The buddy state *)

(** [ppn]s of the page array, orders, heads of the free blocks, free frames *)
Definition plist (b : buddy) : list Z := map ppn (pages b).
Definition ppf (l : list Z) (j : Z) : Z := l !!! Z.to_nat j.
Definition ordf (b : buddy) (j : Z) : Z := if 0 <=? j then order (page_at b j) else -1.
Definition heads (b : buddy) (k : nat) (i : Z) : Prop := i ∈ frames (buckets b k).
Definition freeb (b : buddy) (j : Z) : Prop := exists k i, heads b k i /\ inb k i j.

Definition counted (b : buddy) : Prop :=
  forall k, NoDup (frames (buckets b k)) /\ aval_pages (buckets b k) = Z.of_nat (length (frames (buckets b k))).

(** frames on the lists of orders below [n] *)
Fixpoint bsum (b : buddy) (n : nat) : Z :=
  match n with
  | O => 0
  | S m => bsum b m + bsz m * Z.of_nat (length (frames (buckets b m)))
  end.

Record buddy_inv (b : buddy) : Prop := {
  bi_core : core (buddy_page_number b) (ppf (plist b)) (ordf b) (heads b);
  bi_counted : counted b;
  bi_total : total_avaliable_pages b = bsum b 11;
  bi_bound : buddy_page_number b < 2 ^ 50
}.

Lemma plist_length b : Z.of_nat (length (plist b)) = buddy_page_number b.
Proof. unfold plist, buddy_page_number. by rewrite length_map. Qed.

Lemma page_ppn b i : 0 <= i < buddy_page_number b -> ppn (page_at b i) = ppf (plist b) i.
Proof.
  intros Hi. unfold page_at, ppf, plist. symmetry. unfold buddy_page_number in Hi.
  rewrite list_lookup_total_alt, list_lookup_fmap, (lookup_total_Z (pages b) i) by lia. done.
Qed.

Lemma set_order_plist i o b : plist (set_order i o b) = plist b.
Proof.
  unfold plist, set_order. cbn [pages]. rewrite list_fmap_insert. cbn [ppn].
  destruct (decide (Z.to_nat i < length (pages b))%nat).
  - apply list_insert_id. rewrite list_lookup_fmap. unfold page_at.
    rewrite (list_lookup_lookup_total_lt (pages b)) by done. done.
  - apply list_insert_ge. rewrite length_map. lia.
Qed.

Lemma set_order_ordf i o b j :
  0 <= i < buddy_page_number b -> ordf (set_order i o b) j = if decide (j = i) then o else ordf b j.
Proof.
  intros Hi. unfold buddy_page_number in Hi. unfold ordf, set_order, page_at. cbn [pages]. destruct (decide (j = i)) as [->|Hne].
  - destruct (Z.leb_spec 0 i); [|lia]. rewrite insert_total_eq_Z by lia. done.
  - destruct (Z.leb_spec 0 j); [|done]. rewrite insert_total_ne_Z by lia. done.
Qed.

Lemma set_order_number i o b : buddy_page_number (set_order i o b) = buddy_page_number b.
Proof. unfold buddy_page_number, set_order. cbn [pages]. by rewrite length_insert. Qed.

Lemma core_frame_bound N pp b O k :
  blk_ok N pp O (heads b) -> NoDup (frames (buckets b k)) -> (length (frames (buckets b k)) <= Z.to_nat N)%nat.
Proof.
  intros Hb Hnd. assert (Hl : length (map Z.of_nat (seq 0 (Z.to_nat N))) = Z.to_nat N) by by rewrite length_map, length_seq.
  rewrite <- Hl. apply submseteq_length, NoDup_submseteq; [done|]. intros x Hx.
  destruct (bo_range _ _ _ _ Hb k x Hx) as (_ & ? & ?). pose proof (bsz_pos k).
  apply list_elem_of_fmap. exists (Z.to_nat x). split; [lia|]. apply elem_of_seq. lia.
Qed.

Definition fdel (i : Z) (l : list Z) : list Z := filter (fun x => x <> i) l.

Lemma fdel_elem i l x : x ∈ fdel i l <-> x ∈ l /\ x <> i.
Proof. unfold fdel. rewrite list_elem_of_filter. tauto. Qed.
Lemma fdel_notin i l : i ∉ l -> fdel i l = l.
Proof.
  unfold fdel. induction l as [|x l IH]; intros H; [done|]. apply not_elem_of_cons in H as [? ?].
  rewrite filter_cons_True by done. by rewrite IH.
Qed.
Lemma fdel_NoDup i l : NoDup l -> NoDup (fdel i l).
Proof. apply NoDup_filter. Qed.
Lemma fdel_length i l : NoDup l -> i ∈ l -> S (length (fdel i l)) = length l.
Proof.
  induction l as [|x l IH]; intros Hnd Hi; [by apply elem_of_nil in Hi|].
  apply list.NoDup_cons in Hnd as [Hx Hnd]. unfold fdel in *. destruct (decide (x = i)) as [->|Hne].
  - rewrite filter_cons_False by tauto. fold (fdel i l). by rewrite fdel_notin.
  - rewrite filter_cons_True by done. cbn [length]. f_equal. apply IH; [done|]. apply elem_of_cons in Hi as [|]; [congruence|done].
Qed.

Lemma frame_del_buckets i b k :
  buckets (frame_del i b) k = mk_bucket (aval_pages (buckets b k)) (fdel i (frames (buckets b k))).
Proof. done. Qed.

Lemma set_bucket_buckets k x b k' : buckets (set_bucket k x b) k' = if decide (k = k') then x else buckets b k'.
Proof. done. Qed.

(** weight of one more (or one less) block of order [k] *)
Lemma bsum_upd b b' k d n :
  (forall k', k' <> k -> length (frames (buckets b' k')) = length (frames (buckets b k'))) ->
  Z.of_nat (length (frames (buckets b' k))) = Z.of_nat (length (frames (buckets b k))) + d ->
  bsum b' n = bsum b n + (if decide (k < n)%nat then bsz k * d else 0).
Proof.
  intros H1 H2. induction n as [|n IH]; [by rewrite decide_False by lia|]. cbn [bsum]. rewrite IH.
  destruct (decide (n = k)) as [->|Hne].
  - rewrite H2, decide_False, decide_True by lia. lia.
  - rewrite (H1 n Hne). repeat case_decide; lia.
Qed.

Lemma bsum_nonneg b n : 0 <= bsum b n.
Proof. induction n as [|n IH]; cbn [bsum]; [lia|]. pose proof (bsz_pos n). nia. Qed.

Lemma bsum_ge b k i n : heads b k i -> (k < n)%nat -> bsz k <= bsum b n.
Proof.
  intros Hi. induction n as [|n IH]; intros Hk; [lia|]. cbn [bsum]. pose proof (bsum_nonneg b n). pose proof (bsz_pos n).
  destruct (decide (n = k)) as [->|]; [|specialize (IH ltac:(lia)); nia].
  unfold heads in Hi. destruct (frames (buckets b k)) as [|x l]; [by apply elem_of_nil in Hi|]. cbn [length]. nia.
Qed.

Lemma bsum_le b m n : 0 <= m -> (forall k, Z.of_nat (length (frames (buckets b k))) <= m) -> bsum b n <= (bsz n - 1) * m.
Proof.
  intros Hm H. induction n as [|n IH]; cbn [bsum]; [change (bsz 0) with 1; lia|].
  rewrite bsz_S. pose proof (H n). pose proof (bsz_pos n). nia.
Qed.

(** what an operation on the free lists leaves alone *)
Definition same_frames (b b' : buddy) : Prop :=
  plist b' = plist b /\ bzone b' = bzone b /\ total_avaliable_pages b' = total_avaliable_pages b.

Lemma same_frames_number b b' : same_frames b b' -> buddy_page_number b' = buddy_page_number b.
Proof. intros (H & _). by rewrite <- !plist_length, H. Qed.

Lemma same_frames_trans b1 b2 b3 : same_frames b1 b2 -> same_frames b2 b3 -> same_frames b1 b3.
Proof. intros (? & ? & ?) (? & ? & ?). split_and!; congruence. Qed.

(** invariant without the total *)
Definition lists_ok (b : buddy) : Prop :=
  core (buddy_page_number b) (ppf (plist b)) (ordf b) (heads b) /\ counted b /\ buddy_page_number b < 2 ^ 50.

Lemma head_unique b k i k' : lists_ok b -> heads b k i -> heads b k' i -> k' = k.
Proof. intros [[Hb _] _] H1 H2. by eapply blk_uniq. Qed.

Lemma lists_len b k : lists_ok b -> 0 <= Z.of_nat (length (frames (buckets b k))) < 2 ^ 50.
Proof.
  intros ([Hb _] & Hc & HN). destruct (Hc k) as [Hnd _]. pose proof (core_frame_bound _ _ _ _ k Hb Hnd). lia.
Qed.

Lemma bsum_bound b : lists_ok b -> 0 <= bsum b 11 < 2 ^ 62.
Proof.
  intros H. pose proof (bsum_nonneg b 11). split; [done|].
  pose proof (bsum_le b (2 ^ 50) 11 ltac:(lia)) as Hle. enough (bsum b 11 <= (bsz 11 - 1) * 2 ^ 50) by (change (bsz 11) with 2048 in *; lia).
  apply Hle. intros k. pose proof (lists_len b k H). lia.
Qed.

Section SplitStep.
Context (b : buddy) (k : nat) (i : Z) (Hl : lists_ok b) (Hi : heads b (S k) i).
Let b' := split_step b i (S k).

Lemma split_frames k' :
  frames (buckets b' k') = (if decide (k = k') then [i + bsz k; i] else []) ++ fdel i (frames (buckets b k')).
Proof.
  unfold b', split_step, frame_add_head, add_aval, frame_del. cbn [set_order set_bucket buckets frames aval_pages].
  replace (S k - 1)%nat with k by lia. replace (Z.of_nat (S k) - 1) with (Z.of_nat k) by lia.
  rewrite !fn_insert_case. repeat (case_decide; cbn [frames aval_pages app]; subst; try done; try lia).
Qed.

Lemma split_aval k' :
  aval_pages (buckets b' k') =
    if decide (k = k') then u64 (aval_pages (buckets b k) + 2)
    else if decide (S k = k') then u64 (aval_pages (buckets b (S k)) - 1) else aval_pages (buckets b k').
Proof.
  unfold b', split_step, frame_add_head, add_aval, frame_del. cbn [set_order set_bucket buckets frames aval_pages].
  replace (S k - 1)%nat with k by lia. replace (Z.of_nat (S k) - 1) with (Z.of_nat k) by lia.
  rewrite !fn_insert_case. repeat (case_decide; cbn [frames aval_pages]; subst; try done; try lia).
Qed.

Lemma split_heads k' x : heads b' k' x <-> (k' = k /\ (x = i \/ x = i + bsz k)) \/ (heads b k' x /\ x <> i).
Proof.
  unfold heads. rewrite split_frames, elem_of_app, fdel_elem. case_decide.
  - rewrite !elem_of_cons, elem_of_nil. intuition congruence.
  - rewrite elem_of_nil. intuition congruence.
Qed.

Lemma split_range : (S k <= 10)%nat /\ 0 <= i /\ i + 2 * bsz k <= buddy_page_number b.
Proof. destruct Hl as [[Hb _] _]. pose proof (bo_range _ _ _ _ Hb _ _ Hi). by rewrite <- bsz_S. Qed.

Lemma split_same : same_frames b b' /\ buddy_page_number b' = buddy_page_number b.
Proof.
  assert (same_frames b b'); [|split; [done|by apply same_frames_number]].
  split; [|done]. unfold b', split_step. exact (eq_trans (set_order_plist _ _ _) (set_order_plist _ _ _)).
Qed.

Lemma split_ordf j : ordf b' j = if decide (j = i \/ j = i + bsz k) then Z.of_nat k else ordf b j.
Proof.
  destruct split_range as (_ & Hi0 & HiN). pose proof (bsz_pos k).
  change (ordf b' j) with (ordf (set_order i (Z.of_nat (S k) - 1) (set_order (i + 2 ^ (Z.of_nat (S k) - 1)) (Z.of_nat (S k) - 1) b)) j).
  replace (Z.of_nat (S k) - 1) with (Z.of_nat k) by lia.
  rewrite set_order_ordf by (rewrite set_order_number; lia). rewrite set_order_ordf by lia.
  repeat case_decide; tauto.
Qed.

Lemma split_other_lists k' : k' <> S k -> fdel i (frames (buckets b k')) = frames (buckets b k').
Proof. intros Hne. apply fdel_notin. intros H. apply Hne. by eapply head_unique. Qed.

Lemma split_counted : counted b'.
Proof.
  destruct Hl as ([Hb Hs] & Hc & HN). intros k'. rewrite split_frames, split_aval.
  pose proof (lists_len b k' Hl). destruct (Hc k') as [Hnd Ha]. destruct split_range as (_ & Hi0 & HiN). pose proof (bsz_pos k).
  destruct (decide (k = k')) as [<-|Hk].
  - rewrite split_other_lists by lia. split.
    + cbn [app]. apply list.NoDup_cons. split; [|apply list.NoDup_cons; split; [|done]].
      * intros [E|Hx]%elem_of_cons; [lia|]. enough (i + bsz k = i) by lia.
        apply (bo_disj _ _ _ _ Hb k _ (S k) i (i + bsz k) Hx Hi); unfold inb; rewrite ?bsz_S; lia.
      * intros Hx. pose proof (head_unique b _ _ _ Hl Hi Hx). lia.
    + rewrite Ha, u64_small by lia. cbn [app length]. lia.
  - cbn [app]. split; [by apply fdel_NoDup|]. case_decide; subst.
    + pose proof (fdel_length i _ Hnd Hi) as Hlen. rewrite Ha, u64_small by lia. lia.
    + by rewrite split_other_lists by lia.
Qed.

Lemma split_bsum : bsum b' 11 = bsum b 11.
Proof.
  destruct (proj1 (proj2 Hl) (S k)) as [Hnd _]. pose proof (fdel_length i _ Hnd Hi) as Hlen.
  set (m := frame_del i b). destruct split_range as (Hk & _).
  rewrite (bsum_upd m b' k 2 11), (bsum_upd b m (S k) (-1) 11).
  - rewrite !decide_True by lia. rewrite bsz_S. lia.
  - intros k' Hne. unfold m. rewrite frame_del_buckets. cbn [frames]. by rewrite split_other_lists.
  - unfold m. rewrite frame_del_buckets. cbn [frames]. lia.
  - intros k' Hne. unfold m. rewrite frame_del_buckets, split_frames, decide_False by congruence. done.
  - unfold m. rewrite frame_del_buckets, split_frames, decide_True by congruence. cbn [app length frames]. lia.
Qed.

Lemma split_free j : freeb b' j <-> freeb b j.
Proof.
  destruct split_range as (_ & Hi0 & HiN). pose proof (bsz_pos k). split.
  - intros (k' & x & [(-> & Hx)|[H' _]]%split_heads & Hin); [|by exists k', x].
    exists (S k), i. split; [done|]. unfold inb in *. rewrite bsz_S. lia.
  - intros (k' & x & H' & Hin). destruct (decide (x = i)) as [->|Hne].
    + pose proof (head_unique b _ _ _ Hl Hi H') as ->. unfold inb in Hin. rewrite bsz_S in Hin.
      destruct (decide (j < i + bsz k)); [exists k, i|exists k, (i + bsz k)].
      all: split; [apply split_heads; left; tauto|unfold inb; lia].
    + exists k', x. split; [|done]. apply split_heads. by right.
Qed.

Lemma split_lists_ok : lists_ok b'.
Proof.
  pose proof split_same as [(Hp & _) HN]. destruct Hl as (Hc & _ & Hb). split; [|split; [apply split_counted|by rewrite HN]].
  rewrite HN, Hp. eapply split_core; [exact Hc|exact Hi|apply split_ordf|apply split_heads].
Qed.
End SplitStep.

Lemma split_loop_spec n b k i :
  lists_ok b -> heads b (k + n) i ->
  let b' := split_loop b i (k + n) n in
  lists_ok b' /\ heads b' k i /\ same_frames b b' /\ bsum b' 11 = bsum b 11 /\ (forall j, freeb b' j <-> freeb b j).
Proof.
  revert b. induction n as [|n IH]; intros b Hl Hi; cbn [split_loop].
  { rewrite Nat.add_0_r in Hi. done. }
  rewrite Nat.add_succ_r in *. replace (S (k + n) - 1)%nat with (k + n)%nat by lia.
  destruct (IH (split_step b i (S (k + n)))) as (H1 & H2 & H3 & H4 & H5).
  - by apply split_lists_ok.
  - apply split_heads; [done..|]. left. tauto.
  - split; [done|]. split; [done|]. split; [eapply same_frames_trans; [|exact H3]; by apply split_same|].
    split; [by rewrite H4, split_bsum|]. intros j. rewrite H5. by apply split_free.
Qed.

Lemma mark_allocated_spec n b i :
  0 <= i -> i + Z.of_nat n <= buddy_page_number b ->
  let b' := mark_allocated b i n in
  same_frames b b' /\ buckets b' = buckets b /\
  forall j, ordf b' j = if decide (i <= j < i + Z.of_nat n) then -1 else ordf b j.
Proof.
  intros Hi. induction n as [|n IH]; intros Hn; cbn [mark_allocated].
  - split; [done|]. split; [done|]. intros j. by rewrite decide_False by lia.
  - destruct IH as (H1 & H2 & H3); [lia|]. pose proof (same_frames_number _ _ H1) as HN. split; [|split].
    + eapply same_frames_trans; [exact H1|]. split; [apply set_order_plist|done].
    + exact H2.
    + intros j. rewrite set_order_ordf by lia. rewrite H3. repeat case_decide; lia.
Qed.

(** ** Frame counts *)

Definition all_zero (refs : list Z) (g n : nat) : Prop := forall i, (g <= i < g + n)%nat -> refs !! i = Some 0.

(** claiming a run of unused frames succeeds and sets each count to one *)
Lemma claim_loop_spec n z cur g done :
  zone_ok z -> cursor_at z cur g -> all_zero (zone_refs z) g (S n) ->
  exists z', claim_loop z cur done n = (done + Z.of_nat (S n), z', true) /\ same_shape z z' /\
    zone_refs z' = bump_range (zone_refs z) g (S n) 1 /\ zlock z' = zlock z.
Proof.
  revert z cur g done. induction n as [|n IH]; intros z cur g done Hz Hc Hr.
  all: destruct (cursor_page_at z cur g Hc) as [_ Hpage]; rewrite (Hr g ltac:(lia)) in Hpage.
  all: destruct (cursor_store_spec z cur g 1 Hc) as (Hst & Hsh & Hlk).
  all: cbn [claim_loop]; rewrite Hpage; cbn [phy_Page_ref_claim negb Z.eqb].
  - eexists. split; [done|]. split; [done|]. split; [|done]. rewrite Hst.
    by rewrite <- (bump_range_step _ g 0 1 0 (Hr g ltac:(lia))), bump_range_0.
  - destruct (same_shape_facts _ _ Hsh) as (_ & Hl' & _ & Hz' & Hc').
    pose proof (cursor_next_at _ cur g (Hz' Hz) (Hc' _ _ Hc)) as Hn. rewrite Hl' in Hn.
    pose proof (lookup_lt_Some _ _ _ (Hr (S g) ltac:(lia))).
    destruct (zone_page_cursor_next (cursor_store z cur 1) cur) as [cur'|]; [|lia].
    destruct (IH _ cur' (S g) (done + 1) (Hz' Hz) (proj1 Hn)) as (z' & -> & H2 & H3 & H4).
    { intros i Hi. rewrite Hst, list_lookup_insert_ne by lia. apply Hr. lia. }
    exists z'. split; [do 2 f_equal; lia|]. split; [by eapply same_shape_trans|]. split; [|congruence].
    rewrite H3, Hst. apply (bump_range_step _ g _ 1 0). apply Hr. lia.
Qed.

(** zone and page array agree; frames on the free lists have no users *)
Record zone_link (b : buddy) : Prop := {
  zl_ok : zone_ok (bzone b);
  zl_inside : zone_inside (bzone b);
  zl_ppn : plist b = zone_ppns (bzone b);
  zl_free : forall j, freeb b j -> zone_refs (bzone b) !! Z.to_nat j = Some 0
}.

Definition buddy_ok (b : buddy) : Prop := buddy_inv b /\ zone_link b.

Lemma buddy_inv_lists b : buddy_inv b -> lists_ok b.
Proof. intros [H1 H2 _ H4]. done. Qed.

Lemma find_order_none b k fuel :
  find_order b k fuel = None -> forall k', (k <= k' < k + fuel)%nat -> frames (buckets b k') = [].
Proof.
  revert k. induction fuel as [|fuel IH]; intros k H k' Hk; [lia|]. cbn [find_order] in H.
  destruct (frames (buckets b k)) as [|h l] eqn:E; [|done].
  destruct (decide (k' = k)) as [->|]; [done|]. apply (IH (S k)); [done|lia].
Qed.

Lemma find_order_some b k fuel t i :
  find_order b k fuel = Some (t, i) -> (k <= t < k + fuel)%nat /\ heads b t i.
Proof.
  revert k. induction fuel as [|fuel IH]; intros k H; cbn [find_order] in H; [done|].
  destruct (frames (buckets b k)) as [|h l] eqn:E.
  - destruct (IH (S k) H). split; [lia|done].
  - injection H as <- <-. split; [lia|]. unfold heads. rewrite E. left.
Qed.

Lemma free_range b j : lists_ok b -> freeb b j -> 0 <= j < buddy_page_number b.
Proof. intros ([Hb _] & _) (k & i & Hh & Hin). destruct (bo_range _ _ _ _ Hb _ _ Hh). unfold inb in Hin. lia. Qed.

(** the cursor of a frame of the page array *)
Lemma link_cursor b j :
  zone_link b -> 0 <= j < buddy_page_number b ->
  ppn_in_Zone (bzone b) (ppn (page_at b j)) = true /\ 0 <= ppn (page_at b j) < 2 ^ 51 /\
  exists cur, zone_page_cursor_init (bzone b) (ppn (page_at b j)) = Some cur /\ cursor_at (bzone b) cur (Z.to_nat j).
Proof.
  intros [Hz Hi Hp _] Hj. rewrite (page_ppn b j Hj). unfold ppf. apply cursor_init_complete; [done..|].
  rewrite <- Hp. apply list_lookup_lookup_total_lt. pose proof (plist_length b). lia.
Qed.

(** [pmm_alloc_zone] after a block was found: state after phase 2 *)
Lemma alloc_phase2 b z o t i :
  lists_ok b -> heads b t i -> (o <= t)%nat ->
  let n := Z.to_nat (bsz o) in
  let b1 := mark_allocated (split_loop (set_zone z b) i t (t - o)) i n in
  let b' := set_total (u64 (total_avaliable_pages b - bsz o)) (add_aval o (-1) (frame_del i b1)) in
  buddy_inv b ->
  buddy_inv b' /\ plist b' = plist b /\ bzone b' = z /\ total_avaliable_pages b1 = total_avaliable_pages b /\
  total_avaliable_pages b' = total_avaliable_pages b - bsz o /\
  (forall j, freeb b' j <-> freeb b j /\ ~ inb o i j).
Proof.
  intros Hl Hi Hle n b1 b' Hinv. pose proof (bsz_pos o) as Hp.
  destruct (split_loop_spec (t - o) (set_zone z b) o i) as (S1 & S2 & S3 & S4 & S5).
  { exact Hl. } { replace (o + (t - o))%nat with t by lia. exact Hi. }
  replace (o + (t - o))%nat with t in * by lia. set (bs := split_loop (set_zone z b) i t (t - o)) in *.
  pose proof (proj1 S1) as [Sb _]. destruct (bo_range _ _ _ _ Sb _ _ S2) as (Ho & Hi0 & HiN).
  destruct (mark_allocated_spec n bs i) as (M1 & M2 & M3); [lia|unfold n; lia|]. fold b1 in M1, M2, M3.
  pose proof (same_frames_trans _ _ _ S3 M1) as (P1 & P2 & P3).
  pose proof (same_frames_number _ _ M1) as HN.
  assert (Hheads : forall k x, heads b' k x <-> heads bs k x /\ x <> i).
  { intros k x. unfold heads, b', add_aval. cbn [set_total set_bucket buckets frames]. rewrite fn_insert_case.
    case_decide; subst; rewrite frame_del_buckets; cbn [frames]; by rewrite fdel_elem, M2. }
  destruct (proj1 (proj2 S1) o) as [Hnd Haval]. pose proof (fdel_length i _ Hnd S2) as Hlen. pose proof (lists_len bs o S1) as Hb.
  assert (Hcore : core (buddy_page_number bs) (ppf (plist bs)) (ordf b1) (heads b')).
  { eapply take_core; [apply S1|exact S2| |exact Hheads]. intros j. rewrite M3. unfold n, inb. by rewrite Z2Nat.id by lia. }
  assert (Hsum : bsum b' 11 = bsum bs 11 - bsz o).
  { rewrite (bsum_upd bs b' o (-1) 11); [rewrite decide_True by lia; lia| |].
    - intros k Hne. unfold b', add_aval. cbn [set_total set_bucket buckets]. rewrite fn_insert_other by done.
      rewrite frame_del_buckets, M2. cbn [frames]. rewrite fdel_notin; [done|]. intros H. apply Hne. by eapply (head_unique bs).
    - unfold b', add_aval. cbn [set_total set_bucket buckets]. rewrite fn_insert_same. rewrite frame_del_buckets, M2. cbn [frames]. lia. }
  pose proof (bsum_ge bs o i 11 S2 ltac:(lia)) as Hge. pose proof (bsum_bound bs S1) as Hbd.
  assert (Htot : total_avaliable_pages b = bsum bs 11) by (rewrite (bi_total _ Hinv), S4; done).
  assert (Htot' : total_avaliable_pages b' = total_avaliable_pages b - bsz o) by
    (change (u64 (total_avaliable_pages b - bsz o) = total_avaliable_pages b - bsz o); rewrite Htot, u64_small by lia; done).
  split; [split|].
  - change (ordf b') with (ordf b1). change (plist b') with (plist b1). rewrite (proj1 M1).
    change (buddy_page_number b') with (buddy_page_number b1). by rewrite HN.
  - intros k. unfold b', add_aval. cbn [set_total set_bucket buckets]. rewrite fn_insert_case.
    case_decide as Hk; subst; rewrite frame_del_buckets, M2; cbn [frames aval_pages].
    + split; [by apply fdel_NoDup|]. rewrite Haval, u64_small by lia. lia.
    + destruct (proj1 (proj2 S1) k) as [Hk1 Hk2]. rewrite fdel_notin; [done|]. intros H. apply Hk. symmetry. by eapply (head_unique bs).
  - rewrite Htot'. lia.
  - change (buddy_page_number b') with (buddy_page_number b1). rewrite HN. apply S1.
  - split; [exact P1|]. split; [exact P2|]. split; [exact P3|]. split; [exact Htot'|].
    intros j. rewrite <- (S5 j : freeb bs j <-> freeb b j). split.
    + intros (k & x & [Hx Hne]%Hheads & Hin). split; [by exists k, x|]. intros Hin'.
      apply Hne. by apply (bo_disj _ _ _ _ Sb k x o i j).
    + intros [(k & x & Hx & Hin) Hn]. exists k, x. split; [|done]. apply Hheads. split; [done|]. intros ->.
      pose proof (head_unique bs _ _ _ S1 S2 Hx) as ->. done.
Qed.

(** block [i, i + 2^o) went from the free lists to the caller *)
Record handed_out (b b' : buddy) (i : Z) (o : nat) : Prop := {
  ho_range : 0 <= i /\ i + bsz o <= buddy_page_number b;
  ho_run : forall d, 0 <= d < bsz o -> ppn (page_at b (i + d)) = ppn (page_at b i) + d;
  ho_was_free : forall j, inb o i j -> freeb b j;
  ho_free : forall j, freeb b' j <-> freeb b j /\ ~ inb o i j;
  ho_refs : zone_refs (bzone b') = bump_range (zone_refs (bzone b)) (Z.to_nat i) (Z.to_nat (bsz o)) 1;
  ho_shape : plist b' = plist b /\ same_shape (bzone b) (bzone b');
  ho_total : total_avaliable_pages b' = total_avaliable_pages b - bsz o
}.

Lemma free_run b t i o :
  lists_ok b -> heads b t i -> (o <= t)%nat ->
  (t <= 10)%nat /\ 0 <= i /\ i + bsz t <= buddy_page_number b /\ bsz o <= bsz t /\
  (forall d, 0 <= d < bsz o -> ppn (page_at b (i + d)) = ppn (page_at b i) + d) /\
  (forall j, inb o i j -> freeb b j).
Proof.
  intros Hl Hi Hle. pose proof (proj1 Hl) as [Hb _]. destruct (bo_range _ _ _ _ Hb _ _ Hi) as (Ht & H0 & HN).
  pose proof (bsz_le o t Hle). pose proof (bsz_pos o). split_and!; try done; try lia.
  - intros d Hd. rewrite !page_ppn by lia. apply (bo_ppn _ _ _ _ Hb _ _ d Hi). lia.
  - intros j Hj. exists t, i. split; [done|]. unfold inb in *. lia.
Qed.

Lemma zone_link_kept b b' z i n d :
  zone_link b -> same_shape (bzone b) z -> bzone b' = z -> plist b' = plist b -> 0 <= i ->
  zone_refs z = bump_range (zone_refs (bzone b)) (Z.to_nat i) n d ->
  (forall j, freeb b' j -> freeb b j /\ ~ (i <= j < i + Z.of_nat n)) -> (forall j, freeb b' j -> 0 <= j) ->
  zone_link b'.
Proof.
  intros [H1 H2 H3 H4] Hsh <- Hp Hi Hr Hf H0. destruct (same_shape_facts _ _ Hsh) as (_ & _ & E & Hz & _). split.
  - by apply Hz.
  - by eapply same_shape_inside.
  - by rewrite Hp, E.
  - intros j Hj. destruct (Hf j Hj) as [Hfb Hn]. specialize (H0 j Hj). rewrite Hr, bump_range_lookup, (H4 j Hfb). cbn.
    by rewrite decide_False by lia.
Qed.

Lemma alloc_zone_effect b o :
  buddy_ok b -> (o <= 10)%nat ->
  (pmm_alloc_zone b o = (- E_REND_NO_MEM, 0, b) /\ forall k, (o <= k)%nat -> frames (buckets b k) = []) \/
  exists i b', pmm_alloc_zone b o = (ppn (page_at b i), bsz o, b') /\ buddy_ok b' /\ handed_out b b' i o /\
    zlock (bzone b') = zlock (bzone b).
Proof.
  intros [Hinv Hlk] Ho. pose proof (buddy_inv_lists b Hinv) as Hl. pose proof (proj1 Hl) as [Hb _].
  unfold pmm_alloc_zone. destruct (find_order b o (11 - o)) as [[t i]|] eqn:Ef.
  2:{ left. split; [done|]. intros k Hk. destruct (decide (k < 11)%nat); [by apply (find_order_none _ _ _ Ef); lia|].
      destruct (frames (buckets b k)) as [|x l] eqn:E; [done|]. destruct (bo_range _ _ _ _ Hb k x) as [? _]; [|lia].
      unfold heads. rewrite E. left. }
  right. destruct (find_order_some _ _ _ _ _ Ef) as [Ht Hi].
  destruct (free_run b t i o Hl Hi ltac:(lia)) as (Ht' & H0 & HN & Hle & Hrun & Hfr).
  pose proof (bsz_pos o) as Hp. pose proof (bsz_pos t).
  assert (Eo : order (page_at b i) = Z.of_nat t).
  { pose proof (bo_order _ _ _ _ Hb _ _ Hi) as E. unfold ordf in E. destruct (Z.leb_spec 0 i); [done|lia]. }
  rewrite Eo. destruct (Z.ltb_spec (Z.of_nat t) 0); [lia|].
  destruct (link_cursor b i Hlk ltac:(lia)) as (_ & _ & cur & -> & Hc).
  destruct (claim_loop_spec (Z.to_nat (bsz o) - 1) (bzone b) cur (Z.to_nat i) 0 (zl_ok _ Hlk) Hc) as (z' & Ecl & Hsh & Hrefs & Hlkz).
  { intros j Hj. rewrite <- (Nat2Z.id j). apply (zl_free _ Hlk). apply Hfr. unfold inb. lia. }
  replace (S (Z.to_nat (bsz o) - 1)) with (Z.to_nat (bsz o)) in * by lia.
  pose proof (alloc_phase2 b z' o t i Hl Hi ltac:(lia) Hinv) as (I1 & I2 & I3 & I4 & I5 & I6).
  set (b1 := mark_allocated (split_loop (set_zone z' b) i t (t - o)) i (Z.to_nat (bsz o))) in *.
  set (b' := set_total (u64 (total_avaliable_pages b - bsz o)) (add_aval o (-1) (frame_del i b1))) in *.
  assert (EN : buddy_page_number b' = buddy_page_number b) by (by rewrite <- !plist_length, I2).
  exists i, b'. split; [|split; [split; [done|]|split; [split|]]].
  - rewrite Ecl. cbn [negb]. cbv zeta. fold b1.
    change (total_avaliable_pages (add_aval o (-1) (frame_del i b1))) with (total_avaliable_pages b1). rewrite I4. fold b'.
    by rewrite !page_ppn, I2 by lia.
  - apply (zone_link_kept b b' z' i (Z.to_nat (bsz o)) 1); try done.
    + intros j Hj%I6. rewrite Z2Nat.id by lia. done.
    + intros j [Hj _]%I6. apply (free_range b j Hl Hj).
  - lia.
  - done.
  - done.
  - done.
  - by rewrite I3.
  - by rewrite I3.
  - done.
  - by rewrite I3.
Qed.

(** ** Allocation *)

Lemma lock_ok v b : buddy_ok b -> buddy_ok (lock_zone v b).
Proof. intros [[H1 H2 H3 H4] [L1 L2 L3 L4]]. split; split; done. Qed.

Lemma handed_out_locks v1 v2 b b' i o :
  handed_out (lock_zone v1 b) b' i o -> handed_out b (lock_zone v2 b') i o.
Proof. intros [H1 H2 H3 H4 H5 H6 H7]. split; done. Qed.

Definition alloc_order (page_number : Z) : nat := Z.to_nat (log2_of_next_power_of_two page_number).

Lemma alloc_order_bounds n :
  1 <= n <= 1024 -> (alloc_order n <= 10)%nat /\ n <= bsz (alloc_order n) /\ (1 < n -> bsz (alloc_order n) < 2 * n).
Proof.
  intros Hn. unfold alloc_order. destruct (log2_of_next_power_of_two_bounds n) as [H1 H2]; [lia|].
  rewrite log2_of_next_power_of_two_log2_up in * by lia. pose proof (Z.log2_up_nonneg n).
  rewrite Z2Nat.id by lia. split; [|done]. apply Nat2Z.inj_le. rewrite Z2Nat.id by lia.
  apply Z.log2_up_le_pow2; lia.
Qed.

(** no block can serve a request of order [o] *)
Definition no_block (b : buddy) (o : nat) : Prop := forall k, (o <= k)%nat -> frames (buckets b k) = [].

Lemma alloc_attempt_effect b n :
  buddy_ok b -> 1 <= n <= 1024 ->
  (alloc_attempt b n = inr (lock_zone false b) /\ (total_avaliable_pages b < n \/ no_block b (alloc_order n))) \/
  exists i b', alloc_attempt b n = inl (ppn (page_at b i), bsz (alloc_order n), b') /\ buddy_ok b' /\
    handed_out b b' i (alloc_order n) /\ zlock (bzone b') = false.
Proof.
  intros Hb Hn. unfold alloc_attempt. change (total_avaliable_pages (lock_zone true b)) with (total_avaliable_pages b).
  destruct (Z.ltb_spec (total_avaliable_pages b) n); [left; split; [done|by left]|].
  change (2 ^ BUDDY_MAXORDER) with 1024. destruct (Z.ltb_spec 1024 n); [lia|].
  destruct (alloc_order_bounds n Hn) as (Ho & _). fold (alloc_order n).
  destruct (alloc_zone_effect (lock_zone true b) (alloc_order n) (lock_ok true b Hb) Ho) as [[-> Hno]|(i & b' & -> & Hb' & Hh & _)].
  - left. split; [done|by right].
  - right. exists i, (lock_zone false b'). assert (Hv : invalid_ppn (ppn (page_at b i)) = false).
    { destruct (ho_range _ _ _ _ Hh) as [Hi0 HN]. pose proof (bsz_pos (alloc_order n)).
      destruct (link_cursor b i (proj2 Hb)) as (_ & Hr & _); [change (buddy_page_number (lock_zone true b)) with (buddy_page_number b) in HN; lia|].
      unfold invalid_ppn. rewrite i64_small by lia. apply Z.ltb_ge. lia. }
    change (page_at (lock_zone true b)) with (page_at b). rewrite Hv. cbn [negb].
    split; [done|]. split; [by apply lock_ok|]. split; [by eapply handed_out_locks|done].
Qed.

(** how a request can end: a block handed out of some consistent state [b0],
    or one of two errors *)
Definition alloc_result (b0 b' : buddy) (n r m : Z) : Prop :=
  exists i, r = ppn (page_at b0 i) /\ m = bsz (alloc_order n) /\ handed_out b0 b' i (alloc_order n).

Lemma alloc_loop_effect attempts hook b n tried :
  buddy_ok b -> 1 <= n <= 1024 ->
  (forall f b m a, hook = Some f -> buddy_ok b -> buddy_ok (snd (f b m a))) ->
  let '(r, m, b') := pmm_alloc_loop hook b n tried attempts in
  buddy_ok b' /\
  ((exists b0, buddy_ok b0 /\ alloc_result b0 b' n r m) \/ (m = 0 /\ (r = - E_REND_AGAIN \/ r = - E_REND_NO_MEM))) /\
  (n <= total_avaliable_pages b -> ~ no_block b (alloc_order n) -> alloc_result b b' n r m).
Proof.
  revert b tried. induction attempts as [|attempts IH]; intros b tried Hb Hn Hk; cbn [pmm_alloc_loop].
  all: destruct (alloc_attempt_effect b n Hb Hn) as [[-> Hno]|(i & b' & -> & Hb' & Hh & _)].
  2,4: split; [done|]; split; [left; exists b; split; [done|]; by exists i|by exists i].
  all: pose proof (lock_ok false b Hb) as Hl.
  all: assert (Hcontra : n <= total_avaliable_pages b -> ~ no_block b (alloc_order n) -> False) by
    (intros H1 H2; destruct Hno; [lia|done]).
  - destruct hook; split_and!; try done; try (right; split; [done|by left]); intros; by exfalso; apply Hcontra.
  - destruct hook as [f|].
    + specialize (Hk f (lock_zone false b) n tried eq_refl Hl) as Hf.
      destruct (f (lock_zone false b) n tried) as [again b1]. cbn [snd] in Hf. destruct again; cbn [negb].
      * specialize (IH b1 (tried + 1) Hf Hn Hk). destruct (pmm_alloc_loop _ b1 n (tried + 1) attempts) as [[r m] b2].
        destruct IH as (I1 & I2 & _). split_and!; try done; intros; by exfalso; apply Hcontra.
      * split_and!; try done; [right; split; [done|by right]|]. intros; by exfalso; apply Hcontra.
    + split_and!; try done; [right; split; [done|by left]|]. intros; by exfalso; apply Hcontra.
Qed.

(** ** Release *)

Lemma merge_step b s t j :
  counted b -> core_hole (buddy_page_number b) (ppf (plist b)) (ordf b) (heads b) s t ->
  buddy_page_number b < 2 ^ 50 -> heads b t j ->
  let b' := add_aval t (-1) (frame_del j (frame_del s b)) in
  counted b' /\ (forall k x, heads b' k x <-> heads b k x /\ x <> j) /\ bsum b' 11 = bsum b 11 - bsz t.
Proof.
  intros Hc Hh HN Hj b'. pose proof (ch_ok _ _ _ _ _ _ Hh) as Hb. pose proof (bsz_pos t).
  assert (Hs : forall k, s ∉ frames (buckets b k)).
  { intros k Hk. by apply (ch_out _ _ _ _ _ _ Hh k s s Hk); apply head_in. }
  assert (Hfr : forall k, frames (buckets b' k) = fdel j (frames (buckets b k))).
  { intros k. unfold b', add_aval. cbn [set_bucket buckets]. rewrite fn_insert_case.
    case_decide; subst; rewrite !frame_del_buckets; cbn [frames]; by rewrite (fdel_notin s) by apply Hs. }
  destruct (Hc t) as [Hnd Ha]. pose proof (fdel_length j _ Hnd Hj) as Hlen.
  assert (Hne : forall k, k <> t -> fdel j (frames (buckets b k)) = frames (buckets b k)).
  { intros k Hk. apply fdel_notin. intros Hx. apply Hk. by eapply (blk_uniq _ _ _ _ _ _ _ Hb). }
  split; [|split].
  - intros k. rewrite Hfr. destruct (Hc k) as [Hk1 Hk2]. split; [by apply fdel_NoDup|].
    unfold b', add_aval. cbn [set_bucket buckets]. rewrite fn_insert_case. case_decide as Hd; subst; cbn [aval_pages].
    + rewrite !frame_del_buckets. cbn [aval_pages]. rewrite Ha.
      pose proof (core_frame_bound _ _ _ _ k Hb Hnd). rewrite u64_small by lia. lia.
    + rewrite !frame_del_buckets. cbn [aval_pages]. rewrite Hne by congruence. done.
  - intros k x. unfold heads. by rewrite Hfr, fdel_elem.
  - destruct (ch_range _ _ _ _ _ _ Hh). rewrite (bsum_upd b b' t (-1) 11); [rewrite decide_True by lia; lia| |].
    + intros k Hk. by rewrite Hfr, Hne.
    + rewrite Hfr. lia.
Qed.

Lemma merge_loop_spec fuel b s t :
  counted b -> core_hole (buddy_page_number b) (ppf (plist b)) (ordf b) (heads b) s t ->
  buddy_page_number b < 2 ^ 50 -> (t + fuel <= 10)%nat ->
  let '(b', s', t') := merge_loop b s t fuel in
  counted b' /\ core_hole (buddy_page_number b) (ppf (plist b)) (ordf b) (heads b') s' t' /\
  pages b' = pages b /\ bzone b' = bzone b /\ total_avaliable_pages b' = total_avaliable_pages b /\
  bsum b' 11 + bsz t' = bsum b 11 + bsz t /\ (forall j, freeb b' j \/ inb t' s' j <-> freeb b j \/ inb t s j).
Proof.
  revert b s t. induction fuel as [|fuel IH]; intros b s t Hc Hh HN Hf; cbn [merge_loop]; [done|].
  destruct (ch_range _ _ _ _ _ _ Hh) as (Ht & Hs0 & HsN & Ha). pose proof (bsz_pos t) as Hp.
  destruct (buddy_pair s t Ha) as (q & Hq). set (j := Z.lxor s (bsz t)) in *.
  destruct (_ || _) eqn:E1; [done|]. bool_hyps. rewrite !page_ppn by lia.
  destruct (_ || _) eqn:E2; [done|]. destruct (Z.eqb_spec (order (page_at b j)) (Z.of_nat t)) as [Eo|]; cbn [negb]; [|done].
  assert (Hj : heads b t j).
  { apply (hole_buddy _ _ _ _ _ _ Hh); [fold j; lia|]. fold j. unfold ordf. destruct (Z.leb_spec 0 j); [done|lia]. }
  assert (Hpp : ppf (plist b) (Z.max s j) = ppf (plist b) (Z.min s j) + bsz t).
  { bool_hyps. destruct Hq as [[Es Ej]|[Es Ej]].
    - rewrite Z.max_r, Z.min_l by lia. destruct (Z.ltb_spec s j); [|lia].
      repeat match goal with H : (true && _)%bool = false |- _ => cbn [andb] in H end. bool_hyps. lia.
    - rewrite Z.max_l, Z.min_r by lia. destruct (Z.ltb_spec j s); [|lia].
      repeat match goal with H : (true && _)%bool = false |- _ => cbn [andb] in H end. bool_hyps. lia. }
  destruct (merge_step b s t j Hc Hh HN Hj) as (C1 & C2 & C3). set (b1 := add_aval t (-1) (frame_del j (frame_del s b))) in *.
  pose proof (hole_merge _ _ _ _ (heads b1) s t j Hh ltac:(lia) eq_refl Hj Hpp C2) as Hh1.
  specialize (IH b1 (Z.min s j) (S t) C1 Hh1 HN ltac:(lia)).
  destruct (merge_loop b1 (Z.min s j) (S t) fuel) as [[b' s'] t'].
  destruct IH as (I1 & I2 & I3 & I4 & I5 & I6 & I7). split_and!; try done.
  - rewrite I6, C3, bsz_S. lia.
  - intros x. rewrite I7. assert (Hun : inb (S t) (Z.min s j) x <-> inb t s x \/ inb t j x).
    { unfold inb. rewrite bsz_S. lia. }
    rewrite Hun. pose proof (ch_ok _ _ _ _ _ _ Hh) as Hb. split.
    + intros [(k & y & [Hy _]%C2 & Hin)|[Hx|Hx]]; [left; by exists k, y|by right|left; by exists t, j].
    + intros [(k & y & Hy & Hin)|Hx]; [|tauto]. destruct (decide (y = j)) as [->|Hne].
      * pose proof (blk_uniq _ _ _ _ _ _ _ Hb Hj Hy) as <-. tauto.
      * left. exists k, y. split; [by apply C2|done].
Qed.

Lemma free_one_effect b i :
  buddy_inv b -> 0 <= i < buddy_page_number b -> ~ freeb b i ->
  exists b', pmm_free_one_index b i = (0, b') /\ buddy_inv b' /\ plist b' = plist b /\ bzone b' = bzone b /\
    total_avaliable_pages b' = total_avaliable_pages b + 1 /\ (forall j, freeb b' j <-> freeb b j \/ j = i).
Proof.
  intros Hinv Hi Hnf. pose proof (buddy_inv_lists b Hinv) as Hl. pose proof Hl as (Hcore & Hc & HN).
  pose proof Hcore as [Hb Hst]. unfold pmm_free_one_index.
  destruct (Z.ltb_spec i 0); [lia|]. destruct (Z.leb_spec (buddy_page_number b) i); [lia|]. cbn [orb].
  destruct (Z.leb_spec 0 (order (page_at b i))) as [Ho|_].
  { exfalso. apply Hnf. apply (stale_free _ _ _ (Z.to_nat (order (page_at b i))) (Hst i Hi)).
    unfold ordf. destruct (Z.leb_spec 0 i); lia. }
  assert (Hh : core_hole (buddy_page_number b) (ppf (plist b)) (ordf b) (heads b) i 0).
  { apply hole_start; [done..|]. intros k x Hk Hin. apply Hnf. by exists k, x. }
  pose proof (merge_loop_spec 10 b i 0 Hc Hh HN ltac:(lia)) as Hm. change (Z.to_nat BUDDY_MAXORDER) with 10%nat.
  destruct (merge_loop b i 0 10) as [[b1 s] t]. destruct Hm as (C1 & C2 & C3 & C4 & C5 & C6 & C7).
  destruct (ch_range _ _ _ _ _ _ C2) as (Ht & Hs0 & HsN & Ha). pose proof (bsz_pos t) as Hp.
  assert (EN : buddy_page_number b1 = buddy_page_number b) by (unfold buddy_page_number; by rewrite C3).
  set (b' := set_total _ _). exists b'. split; [done|].
  assert (Hfr : forall k, frames (buckets b' k) = if decide (t = k) then s :: frames (buckets b1 k) else frames (buckets b1 k)).
  { intros k. unfold b', frame_add_head, add_aval. cbn [set_total set_bucket set_order buckets]. rewrite !fn_insert_case.
    repeat (case_decide; subst; cbn [frames]); done. }
  assert (Hheads : forall k x, heads b' k x <-> (k = t /\ x = s) \/ heads b1 k x).
  { intros k x. unfold heads. rewrite Hfr. case_decide as Hd; [|intuition congruence]. subst. rewrite elem_of_cons. intuition. }
  assert (Hns : forall k, s ∉ frames (buckets b1 k)).
  { intros k Hk. by apply (ch_out _ _ _ _ _ _ C2 k s s Hk); apply head_in. }
  assert (Hcore' : core (buddy_page_number b) (ppf (plist b)) (ordf b') (heads b')).
  { eapply hole_fill; [exact C2| |exact Hheads]. intros j.
    change (ordf b' j) with (ordf (set_order s (Z.of_nat t) b1) j). rewrite set_order_ordf by lia.
    unfold ordf, page_at. by rewrite C3. }
  assert (Hpl : plist b' = plist b).
  { change (plist b') with (plist (set_order s (Z.of_nat t) b1)). rewrite set_order_plist. unfold plist. by rewrite C3. }
  assert (EN' : buddy_page_number b' = buddy_page_number b) by (by rewrite <- !plist_length, Hpl).
  assert (Hcount : counted b').
  { intros k. rewrite Hfr. destruct (C1 k) as [Hk1 Hk2].
    pose proof (core_frame_bound _ _ b1 _ k (ch_ok _ _ _ _ _ _ C2) Hk1).
    unfold b', frame_add_head, add_aval. cbn [set_total set_bucket set_order buckets]. rewrite !fn_insert_case.
    case_decide as Hd; [subst|done]. cbn [aval_pages]. rewrite !decide_True by done. cbn [aval_pages].
    split; [by apply list.NoDup_cons|]. rewrite Hk2, u64_small by lia. cbn [length]. lia. }
  assert (Hl' : lists_ok b') by (split; [by rewrite EN', Hpl|]; split; [done|by rewrite EN']).
  assert (Hsum : bsum b' 11 = bsum b1 11 + bsz t).
  { rewrite (bsum_upd b1 b' t 1 11); [rewrite decide_True by lia; lia| |].
    - intros k Hk. by rewrite Hfr, decide_False by congruence.
    - rewrite Hfr, decide_True by done. cbn [length]. lia. }
  change (bsz 0) with 1 in C6. pose proof (bsum_bound b' Hl') as Hbd. pose proof (bi_total _ Hinv) as Htot.
  assert (Ht' : total_avaliable_pages b' = total_avaliable_pages b + 1).
  { change (u64 (total_avaliable_pages b1 + 1) = total_avaliable_pages b + 1). rewrite C5, Htot, u64_small by lia. done. }
  split; [split|].
  - by rewrite EN', Hpl.
  - done.
  - rewrite Ht', Htot, Hsum. lia.
  - by rewrite EN'.
  - split; [done|]. split; [exact C4|]. split; [done|]. intros j.
    assert (E0 : inb 0 i j <-> j = i) by (unfold inb; change (bsz 0) with 1; lia). rewrite <- E0, <- C7. split.
    + intros (k & x & [[-> ->]|Hx]%Hheads & Hin); [by right|left; by exists k, x].
    + intros [(k & x & Hx & Hin)|Hin]; [exists k, x|exists t, s]; split; try done; apply Hheads; [by right|by left].
Qed.

(** frames of the run that lose their last user *)
Definition last_users (refs : list Z) (g n : nat) : Z := countp (Z.eqb 1) (take n (drop g refs)).

Lemma last_users_S refs g n r :
  refs !! g = Some r -> last_users refs g (S n) = (if r =? 1 then 1 else 0) + last_users refs (S g) n.
Proof.
  intros Hg. unfold last_users. rewrite (drop_S _ _ _ Hg). cbn [firstn countp]. rewrite Z.eqb_sym. by destruct (r =? 1).
Qed.

Definition in_use (b : buddy) (g n : nat) : Prop :=
  forall j, (g <= j < g + n)%nat -> ~ freeb b (Z.of_nat j) /\ exists r, zone_refs (bzone b) !! j = Some r /\ 0 < r < 2 ^ 62.

(** releasing one frame of a run *)
Lemma free_step b cur g r :
  buddy_ok b -> cursor_at (bzone b) cur g -> ~ freeb b (Z.of_nat g) -> zone_refs (bzone b) !! g = Some r -> 0 < r < 2 ^ 62 ->
  let b1 := set_zone (cursor_store (bzone b) cur (r - 1)) b in
  exists b', (if 0 <? r - 1 then (0, b1) else pmm_free_one_index b1 (zone_page_cursor_index cur)) = (0, b') /\
    buddy_ok b' /\ plist b' = plist b /\ same_shape (bzone b) (bzone b') /\
    zone_refs (bzone b') = <[g := r - 1]> (zone_refs (bzone b)) /\ zlock (bzone b') = zlock (bzone b) /\
    total_avaliable_pages b' = total_avaliable_pages b + (if r =? 1 then 1 else 0) /\
    (forall j, freeb b' j <-> freeb b j \/ (j = Z.of_nat g /\ r = 1)).
Proof.
  intros [Hinv Hlk] Hc Hnf Hg Hr b1. destruct (cursor_store_spec (bzone b) cur g (r - 1) Hc) as (Hst & Hsh & Hlock).
  destruct (same_shape_facts _ _ Hsh) as (_ & Hlen & Hpp & Hok & _). pose proof Hlk as [L1 L2 L3 L4].
  pose proof (buddy_inv_lists b Hinv) as Hl. pose proof (lookup_lt_Some _ _ _ Hg) as Hlt.
  assert (HgN : 0 <= Z.of_nat g < buddy_page_number b).
  { rewrite <- plist_length, L3, zone_ppns_length. lia. }
  assert (Hinv1 : buddy_inv b1) by (destruct Hinv; split; done).
  assert (Hlink : forall b', plist b' = plist b -> bzone b' = bzone b1 ->
      (forall j, freeb b' j -> freeb b j \/ (j = Z.of_nat g /\ r = 1)) -> zone_link b').
  { intros b' E1 E2 Hf. split; rewrite ?E2; cbn [b1 set_zone bzone].
    - by apply Hok.
    - by eapply same_shape_inside.
    - by rewrite E1, Hpp.
    - intros j Hj. rewrite Hst. destruct (Hf j Hj) as [Hj'|[-> ->]].
      + assert (j <> Z.of_nat g) by (intros ->; done). pose proof (free_range b j Hl Hj').
        rewrite list_lookup_insert_ne by lia. by apply L4.
      + rewrite Nat2Z.id, list_lookup_insert_eq by done. done. }
  destruct (Z.ltb_spec 0 (r - 1)).
  - exists b1. destruct (Z.eqb_spec r 1); [lia|]. split; [done|]. split; [split; [done|apply Hlink; [done..|by left]]|].
    split; [done|]. split; [done|]. split; [done|]. split; [done|]. split; [cbn; lia|].
    intros j. change (freeb b1 j) with (freeb b j). intuition lia.
  - assert (r = 1) as -> by lia. rewrite (cursor_index_at (bzone b) cur g L1 Hc).
    destruct (free_one_effect b1 (Z.of_nat g) Hinv1 HgN Hnf) as (b' & -> & F1 & F2 & F3 & F4 & F5). exists b'.
    split; [done|]. split; [split; [done|apply Hlink; [done..|]]|].
    { intros j [Hj|Hj]%F5; [by left|by right]. }
    rewrite F3. split_and!; try done. intros j. rewrite F5. change (freeb b1 j) with (freeb b j). intuition.
Qed.

Lemma free_loop_effect n b cur g :
  buddy_ok b -> cursor_at (bzone b) cur g -> in_use b g n ->
  exists b', free_loop b cur n = (0, b') /\ buddy_ok b' /\ plist b' = plist b /\ same_shape (bzone b) (bzone b') /\
    zone_refs (bzone b') = bump_range (zone_refs (bzone b)) g n (-1) /\ zlock (bzone b') = zlock (bzone b) /\
    total_avaliable_pages b' = total_avaliable_pages b + last_users (zone_refs (bzone b)) g n /\
    (forall j, freeb b' j <-> freeb b j \/ (Z.of_nat g <= j < Z.of_nat g + Z.of_nat n /\ zone_refs (bzone b) !! Z.to_nat j = Some 1)).
Proof.
  revert b cur g. induction n as [|n IH]; intros b cur g Hb Hc Hu.
  { exists b. cbn [free_loop]. rewrite bump_range_0. change (last_users (zone_refs (bzone b)) g 0) with 0.
    split_and!; try done; [apply same_shape_refl|lia|]. intros j. intuition lia. }
  destruct (Hu g ltac:(lia)) as (Hnf & r & Hg & Hr). destruct (cursor_page_at _ _ _ Hc) as [_ Hpage]. rewrite Hg in Hpage.
  destruct (free_step b cur g r Hb Hc Hnf Hg Hr) as (b1 & E1 & Hb1 & P1 & S1 & R1 & K1 & T1 & F1).
  pose proof (bump_range_step (zone_refs (bzone b)) g n (-1) r Hg) as Hbump. change (r + -1) with (r - 1) in Hbump.
  rewrite (last_users_S _ _ _ r Hg).
  assert (Hstep : free_loop b cur (S n) = match n with O => (0, b1) | S _ =>
      match zone_page_cursor_next (bzone b1) cur with Some c => free_loop b1 c n | None => (- E_RENDEZVOS, b1) end end).
  { cbn [free_loop]. rewrite Hpage. cbn [phy_Page_ref_put phy_Page_refed]. rewrite i64_small by lia. rewrite E1. done. }
  rewrite Hstep. destruct n as [|n].
  - exists b1. rewrite <- Hbump, R1, bump_range_0. change (last_users (zone_refs (bzone b)) (S g) 0) with 0.
    split_and!; try done; [lia|]. intros j. rewrite F1. split; intros [Hj|[Hj Hj']]; try tauto; right.
    + subst. rewrite Nat2Z.id. split; [lia|done].
    + assert (j = Z.of_nat g) as -> by lia. rewrite Nat2Z.id in Hj'. split; [done|]. congruence.
  - destruct (same_shape_facts _ _ S1) as (_ & Hlen & _ & _ & Hc').
    pose proof (cursor_next_at _ cur g (zl_ok _ (proj2 Hb1)) (Hc' _ _ Hc)) as Hn.
    destruct (Hu (S g) ltac:(lia)) as (_ & r2 & Hg2 & _). pose proof (lookup_lt_Some _ _ _ Hg2).
    destruct (zone_page_cursor_next (bzone b1) cur) as [cur'|]; [|lia].
    destruct (IH b1 cur' (S g) Hb1 (proj1 Hn)) as (b' & -> & I1 & I2 & I3 & I4 & I5 & I6 & I7).
    { intros j Hj. destruct (Hu j ltac:(lia)) as (U1 & U2). rewrite R1, list_lookup_insert_ne by lia. split; [|done].
      intros [Hf|[Hf _]]%F1; [done|lia]. }
    exists b'. split; [done|]. split; [done|]. split; [congruence|]. split; [by eapply same_shape_trans|].
    split; [by rewrite I4, R1|]. split; [congruence|].
    assert (Elu : last_users (zone_refs (bzone b1)) (S g) (S n) = last_users (zone_refs (bzone b)) (S g) (S n)).
    { unfold last_users. by rewrite R1, drop_insert_lt by lia. }
    split; [rewrite I6, T1, Elu; lia|]. intros j. rewrite I7, F1, R1.
    destruct (decide (j = Z.of_nat g)) as [->|Hne].
    + rewrite Nat2Z.id, Hg. split; intros H'; intuition (try lia; try congruence).
    + destruct (decide (Z.of_nat g <= j)); [rewrite list_lookup_insert_ne by lia|]; intuition lia.
Qed.

(** ** Properties *)

(** C28 (functional): a request for 1 to 1024 frames.  Whatever the reclaim hook
    does while keeping the allocator consistent, the call returns after at
    most 64 hook calls, leaves a consistent allocator, and either hands out
    one contiguous run of at least the requested frames, all free before and
    counted once after, or reports -E_REND_AGAIN / -E_REND_NO_MEM with no
    frame allocated.  A request that fits succeeds at once. *)
Theorem pmm_alloc_spec hook b n
    (Hb : buddy_ok b) (Hn : 1 <= n <= 1024)
    (Hhook : forall f b m a, hook = Some f -> buddy_ok b -> buddy_ok (snd (f b m a))) :
  let '(r, m, b') := pmm_alloc hook b n in
  buddy_ok b' /\
  ((exists b0, buddy_ok b0 /\ alloc_result b0 b' n r m) \/ (m = 0 /\ (r = - E_REND_AGAIN \/ r = - E_REND_NO_MEM))) /\
  (n <= total_avaliable_pages b -> ~ no_block b (alloc_order n) -> alloc_result b b' n r m) /\
  n <= bsz (alloc_order n) /\ (1 < n -> bsz (alloc_order n) < 2 * n).
Proof.
  pose proof (alloc_loop_effect PMM_RECLAIM_MAX_ATTEMPTS hook b n 0 Hb Hn Hhook) as H.
  destruct (alloc_order_bounds n Hn) as (_ & H1 & H2).
  unfold pmm_alloc. destruct (Z.eqb_spec n 0); [lia|].
  destruct (pmm_alloc_loop hook b n 0 PMM_RECLAIM_MAX_ATTEMPTS) as [[r m] b']. tauto.
Qed.

Lemma pmm_free_effect b i n :
  buddy_ok b -> 0 <= i -> 1 <= n -> i + n <= buddy_page_number b ->
  ppn (page_at b (i + (n - 1))) = ppn (page_at b i) + (n - 1) ->
  in_use b (Z.to_nat i) (Z.to_nat n) ->
  exists b', pmm_free b (ppn (page_at b i)) n = (0, b') /\ buddy_ok b' /\ plist b' = plist b /\
    same_shape (bzone b) (bzone b') /\
    zone_refs (bzone b') = bump_range (zone_refs (bzone b)) (Z.to_nat i) (Z.to_nat n) (-1) /\
    total_avaliable_pages b' = total_avaliable_pages b + last_users (zone_refs (bzone b)) (Z.to_nat i) (Z.to_nat n) /\
    (forall j, freeb b' j <-> freeb b j \/ (i <= j < i + n /\ zone_refs (bzone b) !! Z.to_nat j = Some 1)) /\
    zlock (bzone b') = false.
Proof.
  intros Hb Hi Hn HN Hrun Hu. destruct (link_cursor b i (proj2 Hb) ltac:(lia)) as (Hz1 & Hr1 & cur & Hcur & Hc).
  destruct (link_cursor b (i + (n - 1)) (proj2 Hb) ltac:(lia)) as (Hz2 & Hr2 & _). rewrite Hrun in Hz2, Hr2.
  unfold pmm_free. destruct (Z.eqb_spec (ppn (page_at b i)) (- E_RENDEZVOS)); [unfold E_RENDEZVOS in *; lia|].
  rewrite Hz1. cbn [negb]. replace (ppn (page_at b i) + n - 1) with (ppn (page_at b i) + (n - 1)) by lia.
  rewrite i64_small, Hz2 by lia. cbn [negb]. rewrite andb_false_r.
  change (zone_page_cursor_init (bzone (lock_zone true b)) (ppn (page_at b i))) with (zone_page_cursor_init (bzone b) (ppn (page_at b i))).
  rewrite Hcur.
  destruct (free_loop_effect (Z.to_nat n) (lock_zone true b) cur (Z.to_nat i) (lock_ok true b Hb) Hc Hu)
    as (b' & -> & F1 & F2 & F3 & F4 & F5 & F6 & F7).
  exists (lock_zone false b'). split; [done|]. split; [by apply lock_ok|]. split; [exact F2|]. split; [exact F3|].
  split; [exact F4|]. split; [exact F6|]. split; [|done]. intros j. change (freeb (lock_zone false b') j) with (freeb b' j).
  rewrite F7, !Z2Nat.id by lia. done.
Qed.

(** C29 (invariant): releasing a contiguous run of frames that are all in use.
    Every count drops by one; exactly the frames that lost their last user
    become free, are merged back without breaking the free lists, and are
    added to the total; the zone is left unlocked. *)
Theorem pmm_free_spec b i n
    (Hb : buddy_ok b) (Hi : 0 <= i) (Hn : 1 <= n) (HN : i + n <= buddy_page_number b)
    (Hrun : ppn (page_at b (i + (n - 1))) = ppn (page_at b i) + (n - 1))
    (Hu : in_use b (Z.to_nat i) (Z.to_nat n)) :
  let '(e, b') := pmm_free b (ppn (page_at b i)) n in
  e = 0 /\ buddy_ok b' /\
  zone_refs (bzone b') = bump_range (zone_refs (bzone b)) (Z.to_nat i) (Z.to_nat n) (-1) /\
  total_avaliable_pages b' = total_avaliable_pages b + last_users (zone_refs (bzone b)) (Z.to_nat i) (Z.to_nat n) /\
  (forall j, freeb b' j <-> freeb b j \/ (i <= j < i + n /\ zone_refs (bzone b) !! Z.to_nat j = Some 1)) /\
  zlock (bzone b') = false.
Proof.
  destruct (pmm_free_effect b i n Hb Hi Hn HN Hrun Hu) as (b' & -> & H1 & _ & _ & H2 & H3 & H4 & H5). done.
Qed.

Lemma last_users_all refs g n :
  (forall i, (g <= i < g + n)%nat -> refs !! i = Some 1) -> last_users refs g n = Z.of_nat n.
Proof.
  revert g. induction n as [|n IH]; intros g H; [done|]. rewrite (last_users_S _ _ _ 1) by (apply H; lia).
  rewrite IH by (intros; apply H; lia). cbn [Z.eqb Pos.eqb]. lia.
Qed.

(** (roundtrip): what [pmm_alloc] hands out, [pmm_free] takes back: the free
    frames, the counts and the total return to what they were. *)
Theorem pmm_alloc_free_roundtrip hook b n
    (Hb : buddy_ok b) (Hn : 1 <= n <= 1024) (Ht : n <= total_avaliable_pages b) (Ho : ~ no_block b (alloc_order n)) :
  let '(r, m, b1) := pmm_alloc hook b n in
  let '(e, b2) := pmm_free b1 r m in
  0 <= r /\ e = 0 /\ buddy_ok b2 /\ (forall j, freeb b2 j <-> freeb b j) /\
  zone_refs (bzone b2) = zone_refs (bzone b) /\ total_avaliable_pages b2 = total_avaliable_pages b.
Proof.
  unfold pmm_alloc. destruct (Z.eqb_spec n 0); [lia|]. cbn [PMM_RECLAIM_MAX_ATTEMPTS pmm_alloc_loop].
  destruct (alloc_attempt_effect b n Hb Hn) as [[_ [H|H]]|(i & b1 & -> & Hb1 & Hh & _)]; [lia|done|].
  destruct (ho_range _ _ _ _ Hh) as [Hi0 HiN]. destruct (ho_shape _ _ _ _ Hh) as [Hp1 _]. pose proof (bsz_pos (alloc_order n)) as Hp.
  assert (EN : buddy_page_number b1 = buddy_page_number b) by (by rewrite <- !plist_length, Hp1).
  assert (Epp : forall j, 0 <= j < buddy_page_number b -> ppn (page_at b1 j) = ppn (page_at b j)).
  { intros j Hj. by rewrite !page_ppn, Hp1 by lia. }
  assert (Hrefs : forall j, (Z.to_nat i <= j < Z.to_nat i + Z.to_nat (bsz (alloc_order n)))%nat -> zone_refs (bzone b1) !! j = Some 1).
  { intros j Hj. assert (E : zone_refs (bzone b) !! j = Some 0).
    { rewrite <- (Nat2Z.id j). apply (zl_free _ (proj2 Hb)). apply (ho_was_free _ _ _ _ Hh). unfold inb. lia. }
    rewrite (ho_refs _ _ _ _ Hh), bump_range_lookup, E. cbn. by rewrite decide_True by lia. }
  destruct (pmm_free_effect b1 i (bsz (alloc_order n)) Hb1 Hi0 Hp ltac:(lia)) as (b2 & E & F1 & _ & _ & F4 & F5 & F6 & _).
  { rewrite !Epp by lia. apply (ho_run _ _ _ _ Hh). lia. }
  { intros j Hj. split; [|exists 1; split; [by apply Hrefs|lia]]. intros [_ H]%(ho_free _ _ _ _ Hh).
    apply H. unfold inb. lia. }
  rewrite (Epp i) in E by lia. rewrite E.
  destruct (link_cursor b i (proj2 Hb) ltac:(lia)) as (_ & Hr & _).
  split; [lia|]. split; [done|]. split; [done|]. split; [|split].
  - intros j. rewrite F6, (ho_free _ _ _ _ Hh). split.
    + intros [[H _]|[H _]]; [done|]. apply (ho_was_free _ _ _ _ Hh). exact H.
    + intros H. destruct (decide (inb (alloc_order n) i j)) as [Hin|Hin]; [|by left].
      right. unfold inb in Hin. split; [lia|]. apply Hrefs. lia.
  - rewrite F4, (ho_refs _ _ _ _ Hh). apply (bump_range_undo _ _ _ 1).
  - rewrite F5, (ho_total _ _ _ _ Hh), last_users_all by apply Hrefs. lia.
Qed.

(** ** A concrete zone: four frames from frame number 16 *)

Definition zone4 : MemZone := mk_zone 65536 81920 [mk_sec 65536 81920 [0; 0; 0; 0]] false.
Definition buddy4 : buddy :=
  mk_buddy [mk_bpage 16 2; mk_bpage 17 (-1); mk_bpage 18 (-1); mk_bpage 19 (-1)]
    (fun k => if (k =? 2)%nat then mk_bucket 1 [0] else mk_bucket 0 []) 4 zone4.

(** it is what initialisation builds *)
Example buddy4_init :
  let b := pmm_init 4 zone4 0 4096 in
  pages b = pages buddy4 /\ map (buckets b) (seq 0 11) = map (buckets buddy4) (seq 0 11) /\
  total_avaliable_pages b = 4.
Proof. vm_compute. split; [|split]; reflexivity. Qed.

Lemma buddy4_heads k i : heads buddy4 k i <-> k = 2%nat /\ i = 0.
Proof.
  unfold heads. cbn [buddy4 buckets]. destruct (Nat.eqb_spec k 2); cbn [frames].
  - rewrite elem_of_cons, elem_of_nil. intuition.
  - rewrite elem_of_nil. intuition.
Qed.

Ltac eval_lhs H :=
  match type of H with ?l = _ => let v := eval vm_compute in l in change l with v in H end.

Lemma below4 (P : Z -> Prop) : P 0 -> P 1 -> P 2 -> P 3 -> forall j, 0 <= j < 4 -> P j.
Proof. intros H0 H1 H2 H3 j Hj. assert (j = 0 \/ j = 1 \/ j = 2 \/ j = 3) as [->|[->|[->| ->]]] by lia; done. Qed.

Lemma buddy4_ok : buddy_ok buddy4.
Proof.
  split; split; try done.
  - split; [split|].
    + intros k i [-> ->]%buddy4_heads. change (bsz 2) with 4. change (buddy_page_number buddy4) with 4. lia.
    + by intros k i [-> ->]%buddy4_heads.
    + intros k i d [-> ->]%buddy4_heads Hd. revert d Hd. by apply below4.
    + by intros k i k' i' j [-> ->]%buddy4_heads [-> ->]%buddy4_heads.
    + change (buddy_page_number buddy4) with 4. apply below4; intros o Ho; eval_lhs Ho; try (exfalso; lia).
      left. apply buddy4_heads. lia.
  - intros k. unfold buddy4. cbn [buckets]. destruct (k =? 2)%nat; (split; [|done]).
    + apply NoDup_singleton.
    + apply NoDup_nil_2.
  - split; [|done]. constructor; [|done]. exists 16. split_and!; done.
  - split; [constructor; [done|done]|]. apply (bool_decide_unpack _). vm_compute. done.
  - intros j (k & i & [-> ->]%buddy4_heads & Hj). revert j Hj. by apply below4.
Qed.

(** three frames asked for: one block of four, split from nothing *)
Lemma pmm_alloc_spec_witness :
  let '(r, m, b') := pmm_alloc None buddy4 3 in
  r = 16 /\ m = 4 /\ alloc_result buddy4 b' 3 r m.
Proof.
  pose proof (pmm_alloc_spec None buddy4 3 buddy4_ok ltac:(lia)) as H.
  assert (Hr : fst (pmm_alloc None buddy4 3) = (16, 4)) by (vm_compute; reflexivity).
  destruct (pmm_alloc None buddy4 3) as [[r m] b']. cbn [fst] in Hr. injection Hr as -> ->.
  destruct H as (_ & _ & H & _); [by intros|]. split; [done|]. split; [done|]. apply H; [done|].
  intros Hno. discriminate (Hno 2%nat). vm_compute. repeat constructor.
Defined.

Lemma pmm_alloc_free_roundtrip_witness :
  let b1 := snd (pmm_alloc None buddy4 1) in
  zone_refs (bzone b1) = [1; 0; 0; 0] /\
  zone_refs (bzone (snd (pmm_free b1 16 1))) = [0; 0; 0; 0].
Proof.
  pose proof (pmm_alloc_free_roundtrip None buddy4 1 buddy4_ok ltac:(lia) ltac:(done)) as H.
  assert (Hr : fst (pmm_alloc None buddy4 1) = (16, 1)) by (vm_compute; reflexivity).
  assert (Hz : zone_refs (bzone (snd (pmm_alloc None buddy4 1))) = [1; 0; 0; 0]) by (vm_compute; reflexivity).
  destruct (pmm_alloc None buddy4 1) as [[r m] b1]. cbn [fst] in Hr. injection Hr as -> ->. cbn [snd] in *. split; [done|].
  destruct (pmm_free b1 16 1) as [e b2]. destruct H as (_ & _ & _ & _ & H & _); [|exact H].
  intros Hno. discriminate (Hno 2%nat). vm_compute. repeat constructor.
Defined.

(** the same zone with all four frames handed out and shared once more *)
Definition zone4_used : MemZone := mk_zone 65536 81920 [mk_sec 65536 81920 [1; 2; 1; 1]] false.
Definition buddy4_used : buddy :=
  mk_buddy [mk_bpage 16 (-1); mk_bpage 17 (-1); mk_bpage 18 (-1); mk_bpage 19 (-1)]
    (fun k => mk_bucket 0 []) 0 zone4_used.

Lemma buddy4_used_free j : ~ freeb buddy4_used j.
Proof. intros (k & i & H & _). by apply elem_of_nil in H. Qed.

Lemma buddy4_used_ok : buddy_ok buddy4_used.
Proof.
  split; split; try done.
  - split; [split|].
    1-3: intros k i; unfold heads; cbn; intros; exfalso; by eapply elem_of_nil.
    + intros k i k' i' j H. unfold heads in H. cbn in H. by apply elem_of_nil in H.
    + change (buddy_page_number buddy4_used) with 4. apply below4; intros o Ho; eval_lhs Ho; lia.
  - intros k. split; [apply NoDup_nil_2|done].
  - split; [|done]. constructor; [|done]. exists 16. split_and!; done.
  - split; [constructor; [done|done]|]. apply (bool_decide_unpack _). vm_compute. done.
  - intros j Hj. by apply buddy4_used_free in Hj.
Qed.

Lemma pmm_free_spec_witness :
  let b' := snd (pmm_free buddy4_used 16 4) in
  zone_refs (bzone b') = [0; 1; 0; 0] /\ total_avaliable_pages b' = 3 /\ freeb b' 3 /\ ~ freeb b' 1.
Proof.
  pose proof (pmm_free_spec buddy4_used 0 4 buddy4_used_ok ltac:(lia) ltac:(lia) ltac:(done) ltac:(done)) as H.
  change (ppn (page_at buddy4_used 0)) with 16 in H.
  destruct (pmm_free buddy4_used 16 4) as [e b']. cbn [snd]. destruct H as (_ & _ & H1 & H2 & H3 & _).
  { intros j Hj. split; [apply buddy4_used_free|]. change (Z.to_nat 0) with 0%nat in Hj. change (Z.to_nat 4) with 4%nat in Hj.
    destruct j as [|[|[|[|j]]]]; [exists 1|exists 2|exists 1|exists 1|lia]; split; (reflexivity || lia). }
  split; [exact H1|]. split; [exact H2|]. split; [apply H3; right; split; [lia|reflexivity]|].
  intros [H|[_ H]]%H3; [by apply buddy4_used_free in H|discriminate H].
Defined.

(** ** Limits *)

(** Seven frames from frame 0.  The pass for order [o] looks only at frame
    numbers, not at whether the right half is a block of order [o - 1]: the
    single last frame is taken into an order-2 block, and that one into an
    order-3 block, past the end of the zone.  The order-1 counter wraps. *)
Definition zone7 : MemZone := mk_zone 0 28672 [mk_sec 0 28672 (repeat 0 7)] false.
Definition buddy7 : buddy := pmm_init 7 zone7 0 4096.
Example init_builds_phantom_block :
  map (fun k => (aval_pages (buckets buddy7 k), frames (buckets buddy7 k))) (seq 0 4)
    = [(1, []); (2 ^ 64 - 1, []); (0, []); (1, [0])] /\
  buddy_page_number buddy7 = 7.
Proof. vm_compute. split; reflexivity. Qed.

(** three frames remain, yet the next request for three fails for good *)
Example phantom_block_blocks_allocation :
  let b1 := snd (pmm_alloc None buddy7 4) in
  fst (pmm_alloc None buddy7 4) = (0, 4) /\ total_avaliable_pages b1 = 3 /\
  fst (pmm_alloc None b1 3) = (- E_RENDEZVOS, 0).
Proof. vm_compute. split; [|split]; reflexivity. Qed.

(** Releasing a free frame is refused when the frame heads its block, but not
    when it lies inside one: the frame is then listed twice. *)
Example double_free_checks_heads_only :
  fst (pmm_free buddy4 16 1) = - E_RENDEZVOS /\ fst (pmm_free buddy4 17 1) = 0 /\
  frames (buckets (snd (pmm_free buddy4 17 1)) 0) = [1] /\ frames (buckets (snd (pmm_free buddy4 17 1)) 2) = [0].
Proof. vm_compute. split_and!; reflexivity. Qed.

(** [pmm_init] forms blocks aligned by frame number, [pmm_free] merges by index:
    in a zone that does not start at a multiple of the block size a merged
    block is misaligned.  Here four frames at frame 4 are handed out and
    released, and the next request for four frames gets frames 3 to 6. *)
Example misaligned_merge :
  let b := pmm_init 5 (mk_zone 0x3000 0x8000 [mk_sec 0x3000 0x8000 (repeat 0 5)] false) 0 4096 in
  fst (pmm_alloc None b 4) = (4, 4) /\
  fst (pmm_alloc None (snd (pmm_free (snd (pmm_alloc None b 4)) 4 4)) 4) = (3, 4).
Proof. vm_compute. split; reflexivity. Qed.
