(* ===== verification/RbTree.v ===== *)
(** * Red-black trees

    [include/common/dsa/rb_tree.h]: the intrusive red-black tree, and the
    page-chunk index the kernel heap keeps in one ([kernel/mm/kmalloc.c]).
    Nodes live in a memory of [rb_node] records at their addresses; the parent
    pointer and the colour share one word as in the header.  Loops and the
    upward recursions take fuel; the theorems (in RbInsert and RbRemove) give
    the fuel that is enough.  After the definitions: trees as memory holds
    them, rotations, and contexts (the path from a subtree to the root). *)
From Stdlib Require Import Sorted.
From S2P Require Import Prelude.

(** ** Memory *)

Record rb_node := mk_rb {
  rb_parent_color : Z;
  black_height : Z;
  left_child : Z;
  right_child : Z
}.

Record rb_tree := mk_rbs { rbm : Z -> rb_node; rb_root : Z }.

Definition RB_RED : Z := 0.
Definition RB_BLACK : Z := 1.

Definition upd (a : Z) (n : rb_node) (s : rb_tree) : rb_tree := mk_rbs (<[a := n]> (rbm s)) (rb_root s).
Definition set_root (r : Z) (s : rb_tree) : rb_tree := mk_rbs (rbm s) r.
Definition set_pc (a v : Z) (s : rb_tree) : rb_tree :=
  upd a (mk_rb v (black_height (rbm s a)) (left_child (rbm s a)) (right_child (rbm s a))) s.
Definition set_bh (a v : Z) (s : rb_tree) : rb_tree :=
  upd a (mk_rb (rb_parent_color (rbm s a)) v (left_child (rbm s a)) (right_child (rbm s a))) s.
Definition set_left (a v : Z) (s : rb_tree) : rb_tree :=
  upd a (mk_rb (rb_parent_color (rbm s a)) (black_height (rbm s a)) v (right_child (rbm s a))) s.
Definition set_right (a v : Z) (s : rb_tree) : rb_tree :=
  upd a (mk_rb (rb_parent_color (rbm s a)) (black_height (rbm s a)) (left_child (rbm s a)) v) s.

Definition lc (s : rb_tree) (a : Z) : Z := left_child (rbm s a).
Definition rc (s : rb_tree) (a : Z) : Z := right_child (rbm s a).

(** ** Accessor macros *)

Definition RB_HIGHT (s : rb_tree) (p : Z) : Z := if p =? NULL then 0 else black_height (rbm s p).
Definition RB_COLOR (s : rb_tree) (p : Z) : Z := Z.land (rb_parent_color (rbm s p)) 0x1.
Definition RB_ISBLACK (s : rb_tree) (p : Z) : bool := (p =? NULL) || (RB_COLOR s p =? RB_BLACK).
Definition RB_ISRED (s : rb_tree) (p : Z) : bool := negb (RB_ISBLACK s p).
Definition RB_PARENT (s : rb_tree) (p : Z) : Z := Z.land (rb_parent_color (rbm s p)) (bnot 64 3).
Definition RB_HIGHT_UPDATED (s : rb_tree) (p : Z) : bool :=
  (RB_HIGHT s (lc s p) =? RB_HIGHT s (rc s p))
  && (black_height (rbm s p)
      =? (if RB_ISRED s p then RB_HIGHT s (lc s p) else u64 (RB_HIGHT s (lc s p) + 1))).
Definition RB_ISROOT (s : rb_tree) (p : Z) : bool := RB_PARENT s p =? NULL.
Definition RB_ISLCHILD (s : rb_tree) (p : Z) : bool :=
  negb (RB_PARENT s p =? NULL) && (p =? lc s (RB_PARENT s p)).
Definition RB_ISRCHILD (s : rb_tree) (p : Z) : bool :=
  negb (RB_PARENT s p =? NULL) && (p =? rc s (RB_PARENT s p)).
Definition RB_HASLCHILD (s : rb_tree) (p : Z) : bool := negb (lc s p =? NULL).
Definition RB_HASRCHILD (s : rb_tree) (p : Z) : bool := negb (rc s p =? NULL).
Definition RB_UNCLE (s : rb_tree) (p : Z) : Z :=
  if RB_ISLCHILD s (RB_PARENT s p)
  then rc s (RB_PARENT s (RB_PARENT s p))
  else lc s (RB_PARENT s (RB_PARENT s p)).

Definition RB_SET_RED (p : Z) (s : rb_tree) : rb_tree :=
  set_pc p (Z.land (rb_parent_color (rbm s p)) (bnot 64 1)) s.
Definition RB_SET_BLACK (p : Z) (s : rb_tree) : rb_tree :=
  set_pc p (Z.lor (rb_parent_color (rbm s p)) 1) s.
Definition RB_SET_PARENT (p parent : Z) (s : rb_tree) : rb_tree :=
  set_pc p (Z.lor (RB_COLOR s p) (u64 parent)) s.

(** [if (T) RB_SET_PARENT(T, a)] *)
Definition adopt (p parent : Z) (s : rb_tree) : rb_tree :=
  if p =? NULL then s else RB_SET_PARENT p parent s.

(** ** Rotations *)

Definition update_height (p : Z) (s : rb_tree) : rb_tree :=
  let s := set_bh p (Z.max (RB_HIGHT s (lc s p)) (RB_HIGHT s (rc s p))) s in
  if RB_ISBLACK s p then set_bh p (u64 (black_height (rbm s p) + 1)) s else s.

Definition connect34 (a b c T0 T1 T2 T3 : Z) (s : rb_tree) : rb_tree * Z :=
  let s := set_left a T0 s in
  let s := adopt T0 a s in
  let s := set_right a T1 s in
  let s := adopt T1 a s in
  let s := update_height a s in
  let s := set_left c T2 s in
  let s := adopt T2 c s in
  let s := set_right c T3 s in
  let s := adopt T3 c s in
  let s := update_height c s in
  let s := set_left b a s in
  let s := RB_SET_PARENT a b s in
  let s := set_right b c s in
  let s := RB_SET_PARENT c b s in
  let s := update_height b s in
  (s, b).

Definition rotateAt (v : Z) (s : rb_tree) : rb_tree * Z :=
  let p := RB_PARENT s v in
  let g := RB_PARENT s p in
  if RB_ISLCHILD s p then
    if RB_ISLCHILD s v then
      let s := RB_SET_PARENT p (RB_PARENT s g) s in
      connect34 v p g (lc s v) (rc s v) (rc s p) (rc s g) s
    else
      let s := RB_SET_PARENT v (RB_PARENT s g) s in
      connect34 p v g (lc s p) (lc s v) (rc s v) (rc s g) s
  else
    if RB_ISRCHILD s v then
      let s := RB_SET_PARENT p (RB_PARENT s g) s in
      connect34 g p v (lc s g) (lc s p) (lc s v) (rc s v) s
    else
      let s := RB_SET_PARENT v (RB_PARENT s g) s in
      connect34 g v p (lc s g) (lc s v) (rc s v) (rc s p) s.

(** [root->rb_root = b = rotateAt(t)] or the store into the child slot of the
    grandparent [gg]; [x] is the node the rotation replaces *)
Definition rotate_into (x gg t : Z) (s : rb_tree) : rb_tree * Z :=
  if RB_ISROOT s x then
    let '(s, b) := rotateAt t s in (set_root b s, b)
  else if RB_ISLCHILD s x then
    let '(s, b) := rotateAt t s in (set_left gg b s, b)
  else
    let '(s, b) := rotateAt t s in (set_right gg b s, b).

(** ** Linking and repair after insertion *)

(** the slot a C [struct rb_node **] designates *)
Inductive rb_link := LRoot | LLeft (p : Z) | LRight (p : Z).

Definition link_get (l : rb_link) (s : rb_tree) : Z :=
  match l with LRoot => rb_root s | LLeft p => lc s p | LRight p => rc s p end.
Definition link_set (l : rb_link) (v : Z) (s : rb_tree) : rb_tree :=
  match l with LRoot => set_root v s | LLeft p => set_left p v s | LRight p => set_right p v s end.

Definition RB_Link_Node (node parent : Z) (l : rb_link) (s : rb_tree) : rb_tree :=
  let s := RB_SET_PARENT node parent s in
  let s := set_left node NULL (set_right node NULL s) in
  link_set l node s.

Fixpoint RB_SolveDoubleRed (fuel : nat) (rb_p : Z) (s : rb_tree) : rb_tree :=
  match fuel with
  | O => s
  | S fuel' =>
    if RB_ISROOT s rb_p then
      let s := RB_SET_BLACK rb_p s in
      set_bh rb_p (u64 (black_height (rbm s rb_p) + 1)) s
    else
      let p := RB_PARENT s rb_p in
      if RB_ISBLACK s p then s
      else
        let g := RB_PARENT s p in
        let u := RB_UNCLE s rb_p in
        if RB_ISBLACK s u then
          let s := if Bool.eqb (RB_ISLCHILD s rb_p) (RB_ISLCHILD s p)
                   then RB_SET_BLACK p s else RB_SET_BLACK rb_p s in
          let s := RB_SET_RED g s in
          let gg := RB_PARENT s g in
          let '(s, r) := rotate_into g gg rb_p s in
          RB_SET_PARENT r gg s
        else
          let s := RB_SET_BLACK p s in
          let s := set_bh p (u64 (black_height (rbm s p) + 1)) s in
          let s := RB_SET_BLACK u s in
          let s := set_bh u (u64 (black_height (rbm s u) + 1)) s in
          let s := if negb (RB_ISROOT s g) then RB_SET_RED g s else s in
          RB_SolveDoubleRed fuel' g s
  end.

(** ** Walking *)

Fixpoint leftmost (fuel : nat) (s : rb_tree) (p : Z) : Z :=
  match fuel with
  | O => p
  | S fuel' => if RB_HASLCHILD s p then leftmost fuel' s (lc s p) else p
  end.
Fixpoint rightmost (fuel : nat) (s : rb_tree) (p : Z) : Z :=
  match fuel with
  | O => p
  | S fuel' => if RB_HASRCHILD s p then rightmost fuel' s (rc s p) else p
  end.
Fixpoint climb (fuel : nat) (is_child : rb_tree -> Z -> bool) (s : rb_tree) (p : Z) : Z :=
  match fuel with
  | O => p
  | S fuel' => if is_child s p then climb fuel' is_child s (RB_PARENT s p) else p
  end.

Definition RB_Prev (fuel : nat) (s : rb_tree) (rb_p : Z) : Z :=
  if rb_p =? NULL then NULL
  else if negb (lc s rb_p =? NULL) then rightmost fuel s (lc s rb_p)
  else RB_PARENT s (climb fuel RB_ISLCHILD s rb_p).
Definition RB_Next (fuel : nat) (s : rb_tree) (rb_p : Z) : Z :=
  if rb_p =? NULL then NULL
  else if negb (rc s rb_p =? NULL) then leftmost fuel s (rc s rb_p)
  else RB_PARENT s (climb fuel RB_ISRCHILD s rb_p).
Definition RB_First (fuel : nat) (s : rb_tree) : Z := leftmost fuel s (rb_root s).
Definition RB_Last (fuel : nat) (s : rb_tree) : Z := rightmost fuel s (rb_root s).

(** ** Removal *)

(** redirect the slot that held [rb_p] ([parent] is its parent) to [v] *)
Definition replace_child (rb_p parent v : Z) (s : rb_tree) : rb_tree :=
  if parent =? NULL then set_root v s
  else if RB_ISLCHILD s rb_p then set_left parent v s
  else set_right parent v s.

(** the successor [del] leaves its place: state, [succ] and [*_hot] *)
Definition lift_succ (rb_p del : Z) (s : rb_tree) : rb_tree * Z * Z :=
  let del_par := RB_PARENT s del in
  let succ := rc s del in
  if del_par =? rb_p then
    let s := set_left del (lc s rb_p) s in
    let s := RB_SET_PARENT (lc s del) del s in
    (s, succ, del)
  else
    let s := set_left del_par succ s in
    let s := set_left del (lc s rb_p) s in
    let s := set_right del (rc s rb_p) s in
    let s := adopt (lc s del) del s in
    let s := adopt (rc s del) del s in
    (s, succ, del_par).

(** ... and takes the place, colour and height of [rb_p] *)
Definition install_succ (rb_p parent color del : Z) (s : rb_tree) : rb_tree :=
  let s :=
    if parent =? NULL then RB_SET_PARENT del NULL (set_root del s)
    else RB_SET_PARENT del parent
           (if RB_ISLCHILD s rb_p then set_left parent del s else set_right parent del s) in
  let s := if negb (color =? 0) then RB_SET_BLACK del s else RB_SET_RED del s in
  set_bh del (black_height (rbm s rb_p)) s.

(** state, [succ] and [*_hot] *)
Definition rb_removeAt (fuel : nat) (rb_p : Z) (s : rb_tree) : rb_tree * Z * Z :=
  let parent := RB_PARENT s rb_p in
  let color := RB_COLOR s rb_p in
  let '(s, succ, hot) :=
    if negb (RB_HASLCHILD s rb_p) then
      let succ := rc s rb_p in
      (replace_child rb_p parent succ s, succ, parent)
    else if negb (RB_HASRCHILD s rb_p) then
      let succ := lc s rb_p in
      (replace_child rb_p parent succ s, succ, parent)
    else
      let del := RB_Next fuel s rb_p in
      let '(s, succ, hot) := lift_succ rb_p del s in
      (install_succ rb_p parent color del s, succ, hot) in
  (adopt succ hot s, succ, hot).

Fixpoint RB_SolveDoubleBlack (fuel : nat) (rb_p hot : Z) (s : rb_tree) : rb_tree :=
  match fuel with
  | O => s
  | S fuel' =>
    let p := if negb (rb_p =? NULL) then RB_PARENT s rb_p else hot in
    if p =? NULL then s
    else
      let x := if rb_p =? lc s p then rc s p else lc s p in
      if RB_ISBLACK s x then
        let t := if RB_HASLCHILD s x && RB_ISRED s (lc s x) then lc s x
                 else if RB_HASRCHILD s x && RB_ISRED s (rc s x) then rc s x
                 else NULL in
        if negb (t =? NULL) then
          let oldColor := RB_COLOR s p in
          let gg := RB_PARENT s p in
          let '(s, b) := rotate_into p gg t s in
          let s := if RB_HASLCHILD s b then RB_SET_BLACK (lc s b) s else s in
          let s := update_height (lc s b) s in
          let s := if RB_HASRCHILD s b then RB_SET_BLACK (rc s b) s else s in
          let s := update_height (rc s b) s in
          let s := if negb (oldColor =? 0) then RB_SET_BLACK b s else RB_SET_RED b s in
          update_height b s
        else
          let s := RB_SET_RED x s in
          let s := set_bh x (u64 (black_height (rbm s x) - 1)) s in
          if RB_ISRED s p then RB_SET_BLACK p s
          else
            let s := set_bh p (u64 (black_height (rbm s p) - 1)) s in
            RB_SolveDoubleBlack fuel' p hot s
      else
        let s := RB_SET_BLACK x s in
        let s := RB_SET_RED p s in
        let t := if RB_ISLCHILD s x then lc s x else rc s x in
        let hot := p in
        let gg := RB_PARENT s p in
        let '(s, _) := rotate_into p gg t s in
        RB_SolveDoubleBlack fuel' rb_p hot s
  end.

Definition RB_Remove (fuel : nat) (rb_p : Z) (s : rb_tree) : rb_tree :=
  if (rb_p =? NULL) || (rb_root s =? NULL) then s
  else
    let '(s, succ, hot) := rb_removeAt fuel rb_p s in
    if rb_root s =? NULL then s
    else if hot =? NULL then
      update_height (rb_root s) (RB_SET_BLACK (rb_root s) s)
    else if RB_HIGHT_UPDATED s hot then s
    else if RB_ISRED s succ then
      let s := RB_SET_BLACK succ s in
      set_bh succ (u64 (black_height (rbm s succ) + 1)) s
    else RB_SolveDoubleBlack fuel succ hot s.

(** ** The page-chunk index of [kmalloc.c]

    [page_addr] gives the key stored in the [page_chunk_node] around a node. *)
Section PageChunks.
Variable page_addr : Z -> Z.

Fixpoint insert_descend (fuel : nat) (key : Z) (new : rb_link) (parent : Z) (s : rb_tree)
    : option (rb_link * Z) :=
  match fuel with
  | O => None
  | S fuel' =>
    if link_get new s =? NULL then Some (new, parent)
    else
      let parent := link_get new s in
      if key <? page_addr parent then insert_descend fuel' key (LLeft parent) parent s
      else if page_addr parent <? key then insert_descend fuel' key (LRight parent) parent s
      else None
  end.

Definition page_chunk_rb_tree_insert (fuel : nat) (node : Z) (s : rb_tree) : rb_tree :=
  match insert_descend fuel (page_addr node) LRoot NULL s with
  | None => s
  | Some (new, parent) =>
    RB_SolveDoubleRed fuel node (RB_Link_Node node parent new s)
  end.

Definition page_chunk_rb_tree_remove (fuel : nat) (node : Z) (s : rb_tree) : rb_tree :=
  let s := RB_Remove fuel node s in
  let s := set_pc node 0 (set_bh node 0 s) in
  set_left node NULL (set_right node NULL s).

Fixpoint search_from (fuel : nat) (s : rb_tree) (node key : Z) : Z :=
  match fuel with
  | O => NULL
  | S fuel' =>
    if node =? NULL then NULL
    else if key <? page_addr node then search_from fuel' s (lc s node) key
    else if page_addr node <? key then search_from fuel' s (rc s node) key
    else node
  end.
Definition page_chunk_rb_tree_search (fuel : nat) (s : rb_tree) (key : Z) : Z :=
  search_from fuel s (rb_root s) key.
End PageChunks.

(** * Correctness *)

(** ** Packed parent and colour *)

Definition pack (par : Z) (c : bool) : Z := par + Z.b2z c.
Definition node_addr (a : Z) : Prop := 0 < a < 2 ^ 64 /\ a mod 4 = 0.
Definition ptr (a : Z) : Prop := a = NULL \/ node_addr a.
Definition nd (par : Z) (c : bool) (k l r : Z) : rb_node := mk_rb (pack par c) k l r.

Lemma ptr_bounds p : ptr p -> 0 <= p < 2 ^ 64 /\ p mod 4 = 0.
Proof. intros [->|[? ?]]; split; [done|done|lia|done]. Qed.
Lemma ptr_node a : node_addr a -> ptr a.
Proof. by right. Qed.
Lemma ptr_null : ptr NULL.
Proof. by left. Qed.
Lemma node_nonnull a : node_addr a -> a <> NULL.
Proof. unfold node_addr, NULL. lia. Qed.
Create HintDb rb.
#[export] Hint Resolve ptr_node ptr_null node_nonnull : rb.

Lemma low_bits q c n : 0 <= n -> Z.testbit (4 * q + Z.b2z c) n = if n <? 2 then (n =? 0) && c else Z.testbit (4 * q) n.
Proof.
  intros Hn. assert (Leaf : 4 * q + Z.b2z c = Z.lor (q * 2 ^ 2) (Z.b2z c)).
  { rewrite (lor_add_disjoint q (Z.b2z c) 2); [lia|lia|destruct c; cbn; lia]. }
  rewrite Leaf, Z.lor_spec. destruct (Z.ltb_spec n 2).
  - rewrite Z.mul_pow2_bits_low by lia. cbn [orb].
    assert (n = 0 \/ n = 1) as [-> | ->] by lia; destruct c; done.
  - rewrite (testbit_small 1 (Z.b2z c)) by (destruct c; cbn; lia).
    rewrite orb_false_r. f_equal. lia.
Qed.

Section Packing.
Variables (p : Z) (c : bool).
Hypothesis Hp : ptr p.

Lemma pack_split : exists q, p = 4 * q /\ forall c, pack p c = 4 * q + Z.b2z c.
Proof.
  destruct (ptr_bounds p Hp) as [_ H]. exists (p / 4). split; [dlia|].
  intros c'. unfold pack. f_equal. dlia.
Qed.

Lemma pack_color : Z.land (pack p c) 0x1 = Z.b2z c.
Proof.
  destruct pack_split as (q & _ & Leaf). rewrite Leaf. change 1 with (Z.ones 1).
  rewrite Z.land_ones by lia. change (2 ^ 1) with 2. destruct c; cbn [Z.b2z]; dlia.
Qed.

Lemma pack_range : 0 <= pack p c < 2 ^ 64.
Proof. destruct (ptr_bounds p Hp). unfold pack. destruct c; cbn [Z.b2z]; dlia. Qed.

Lemma pack_parent : Z.land (pack p c) (bnot 64 3) = p.
Proof.
  pose proof pack_range as Hr. destruct pack_split as (q & Hq & Leaf). rewrite Leaf in *.
  apply Z.bits_inj'. intros n Hn. rewrite Z.land_spec, low_bits, testbit_bnot by lia.
  destruct (ptr_bounds p Hp) as [Hb _].
  destruct (Z.ltb_spec n 2).
  - replace (Z.testbit p n) with false; [by assert (n = 0 \/ n = 1) as [-> | ->] by lia; destruct c|].
    rewrite Hq. replace (4 * q) with (q * 2 ^ 2) by lia. by rewrite Z.mul_pow2_bits_low by lia.
  - rewrite <- Hq, (testbit_small 2 3) by lia. cbn [negb andb].
    destruct (Z.ltb_spec n 64); [apply andb_true_r|]. rewrite (testbit_small 64 p) by lia. done.
Qed.

Lemma pack_red : Z.land (pack p c) (bnot 64 1) = pack p false.
Proof.
  destruct pack_split as (q & Hq & Leaf). rewrite !Leaf. destruct (ptr_bounds p Hp) as [Hb _].
  apply Z.bits_inj'. intros n Hn. rewrite Z.land_spec, !low_bits, testbit_bnot by lia.
  destruct (Z.ltb_spec n 2).
  - assert (n = 0 \/ n = 1) as [-> | ->] by lia; destruct c; done.
  - rewrite <- Hq, (testbit_small 1 1) by lia. cbn [negb andb].
    destruct (Z.ltb_spec n 64); [apply andb_true_r|]. rewrite (testbit_small 64 p) by lia. done.
Qed.

Lemma pack_black : Z.lor (pack p c) 1 = pack p true.
Proof.
  destruct pack_split as (q & Hq & Leaf). rewrite !Leaf.
  apply Z.bits_inj'. intros n Hn. rewrite Z.lor_spec, !low_bits by lia.
  destruct (Z.ltb_spec n 2).
  - assert (n = 0 \/ n = 1) as [-> | ->] by lia; destruct c; done.
  - rewrite (testbit_small 1 1) by lia. apply orb_false_r.
Qed.

Lemma pack_set_parent : Z.lor (Z.b2z c) (u64 p) = pack p c.
Proof.
  destruct (ptr_bounds p Hp) as [Hb Hm]. rewrite u64_small by lia. rewrite Z.lor_comm.
  destruct pack_split as (q & Hq & Leaf). rewrite Leaf, Hq, Z.mul_comm.
  change 4 with (2 ^ 2). apply lor_add_disjoint; [lia|destruct c; cbn; lia].
Qed.
End Packing.

(** ** Reading and writing a known node *)

Definition same_out (l : list Z) (s s' : rb_tree) : Prop :=
  rb_root s' = rb_root s /\ forall x, x ∉ l -> rbm s' x = rbm s x.

Lemma same_out_refl l s : same_out l s s.
Proof. done. Qed.
Lemma same_out_trans l1 l2 s1 s2 s3 :
  same_out l1 s1 s2 -> same_out l2 s2 s3 -> same_out (l1 ++ l2) s1 s3.
Proof.
  intros [R1 H1] [R2 H2]. split; [congruence|]. intros x Hx.
  rewrite elem_of_app in Hx. rewrite H2, H1; tauto.
Qed.
Lemma same_out_incl l1 l2 s s' : same_out l1 s s' -> l1 ⊆ l2 -> same_out l2 s s'.
Proof. intros [R H] Hi. split; [done|]. intros x Hx. apply H. intros Hx'. by apply Hx, Hi. Qed.
Lemma upd_same_out a n s : same_out [a] s (upd a n s).
Proof. split; [done|]. intros x Hx. apply fn_insert_other. set_solver. Qed.

(** [s'] is [s] with node [a] holding [n] *)
Definition wrote (a : Z) (n : rb_node) (s s' : rb_tree) : Prop :=
  rb_root s' = rb_root s /\ rbm s' a = n /\ forall x, x <> a -> rbm s' x = rbm s x.

Lemma wrote_upd a n s : wrote a n s (upd a n s).
Proof. split; [done|]. split; [apply fn_insert_same|]. intros x Hx. by apply fn_insert_other. Qed.
Lemma wrote_twice a n n' s s' s'' : wrote a n s s' -> wrote a n' s' s'' -> wrote a n' s s''.
Proof. intros (R & _ & H) (R' & Leaf & H'). split_and!; [congruence|done|]. intros x Hx. rewrite H', H; done. Qed.
Lemma wrote_out a n s s' : wrote a n s s' -> same_out [a] s s'.
Proof. intros (R & _ & H). split; [done|]. intros x Hx. apply H. set_solver. Qed.

Section Known.
Variables (s : rb_tree) (a par : Z) (c : bool) (k l r : Z).
Hypothesis Hp : ptr par.
Hypothesis Ha : rbm s a = nd par c k l r.

Lemma known_parent : RB_PARENT s a = par.
Proof. unfold RB_PARENT. rewrite Ha. by apply pack_parent. Qed.
Lemma known_color : RB_COLOR s a = Z.b2z c.
Proof. unfold RB_COLOR. rewrite Ha. by apply pack_color. Qed.
Lemma known_lc : lc s a = l.
Proof. unfold lc. by rewrite Ha. Qed.
Lemma known_rc : rc s a = r.
Proof. unfold rc. by rewrite Ha. Qed.
Lemma known_bh : black_height (rbm s a) = k.
Proof. by rewrite Ha. Qed.
Lemma known_black : a <> NULL -> RB_ISBLACK s a = c.
Proof. intros Hn. unfold RB_ISBLACK. rewrite known_color. apply Z.eqb_neq in Hn. rewrite Hn. by destruct c. Qed.
Lemma known_isroot : RB_ISROOT s a = (par =? NULL).
Proof. unfold RB_ISROOT. by rewrite known_parent. Qed.
Lemma known_islchild : RB_ISLCHILD s a = negb (par =? NULL) && (a =? lc s par).
Proof. unfold RB_ISLCHILD. by rewrite known_parent. Qed.
Lemma known_isrchild : RB_ISRCHILD s a = negb (par =? NULL) && (a =? rc s par).
Proof. unfold RB_ISRCHILD. by rewrite known_parent. Qed.

Lemma known_set_left v : wrote a (nd par c k v r) s (set_left a v s).
Proof. unfold set_left. rewrite Ha. apply wrote_upd. Qed.
Lemma known_set_right v : wrote a (nd par c k l v) s (set_right a v s).
Proof. unfold set_right. rewrite Ha. apply wrote_upd. Qed.
Lemma known_set_bh v : wrote a (nd par c v l r) s (set_bh a v s).
Proof. unfold set_bh. rewrite Ha. apply wrote_upd. Qed.
Lemma known_set_red : wrote a (nd par false k l r) s (RB_SET_RED a s).
Proof. unfold RB_SET_RED, set_pc. rewrite Ha. cbn. rewrite pack_red by done. apply wrote_upd. Qed.
Lemma known_set_black : wrote a (nd par true k l r) s (RB_SET_BLACK a s).
Proof. unfold RB_SET_BLACK, set_pc. rewrite Ha. cbn. rewrite pack_black by done. apply wrote_upd. Qed.
Lemma known_set_parent q : ptr q -> wrote a (nd q c k l r) s (RB_SET_PARENT a q s).
Proof.
  intros Hq. unfold RB_SET_PARENT, set_pc. rewrite known_color, Ha. cbn.
  rewrite pack_set_parent by done. apply wrote_upd.
Qed.
End Known.

(** ** Trees in memory *)

(** A tree as it is stored: colour ([true] is black), the stored height, the
    node's address. *)
Inductive tree := Leaf | Node (c : bool) (k : Z) (l : tree) (a : Z) (r : tree).

Definition addr (t : tree) : Z := match t with Leaf => NULL | Node _ _ _ a _ => a end.
Definition hgt (t : tree) : Z := match t with Leaf => 0 | Node _ k _ _ _ => k end.
Definition blk (t : tree) : bool := match t with Leaf => true | Node c _ _ _ _ => c end.
Definition roots (t : tree) : list Z := match t with Leaf => [] | Node _ _ _ a _ => [a] end.

(** in-order list of the node addresses *)
Fixpoint nodes (t : tree) : list Z :=
  match t with Leaf => [] | Node _ _ l a r => nodes l ++ a :: nodes r end.
Fixpoint size (t : tree) : nat := match t with Leaf => 0 | Node _ _ l _ r => S (size l + size r) end.

(** memory holds exactly [t], under parent [par] *)
Fixpoint rep (s : rb_tree) (par : Z) (t : tree) : Prop :=
  match t with
  | Leaf => True
  | Node c k l a r =>
    ptr par /\ node_addr a /\ rbm s a = nd par c k (addr l) (addr r) /\ rep s a l /\ rep s a r
  end.

Lemma size_nodes t : size t = length (nodes t).
Proof. induction t as [|c k l IHl a r IHr]; [done|]. cbn. rewrite length_app. cbn. lia. Qed.

Lemma rep_frame s s' par t : rep s par t -> (forall x, x ∈ nodes t -> rbm s' x = rbm s x) -> rep s' par t.
Proof.
  revert par. induction t as [|c k l IHl a r IHr]; intros par H Hx; [done|].
  destruct H as (? & ? & Ha & Hl & Hr). cbn. rewrite Hx by (cbn; set_solver).
  split_and!; [done..| |]; [apply IHl|apply IHr]; try done; intros; apply Hx; cbn; set_solver.
Qed.

Lemma rep_same_out l s s' par t : rep s par t -> same_out l s s' -> (forall x, x ∈ nodes t -> x ∉ l) -> rep s' par t.
Proof. intros H [_ Hs] Hd. eapply rep_frame; [done|]. intros x Hx. by apply Hs, Hd. Qed.

Lemma rep_addr s par t x : rep s par t -> x ∈ nodes t -> node_addr x.
Proof.
  revert par. induction t as [|c k l IHl a r IHr]; intros par H Hx; cbn in Hx; [set_solver|].
  destruct H as (? & ? & _ & Hl & Hr). apply elem_of_app in Hx as [?|[->|?]%elem_of_cons]; eauto.
Qed.

Lemma rep_ptr s par t : rep s par t -> ptr (addr t).
Proof. destruct t; [by left|]. intros (? & ? & _). by right. Qed.

Lemma rep_addr_null s par t : rep s par t -> addr t = NULL -> t = Leaf.
Proof. destruct t; [done|]. intros (_ & Ha & _) H. apply node_nonnull in Ha. done. Qed.

Lemma addr_in t : addr t <> NULL -> addr t ∈ nodes t.
Proof. destruct t; [done|]. cbn. set_solver. Qed.
Lemma roots_in t x : x ∈ roots t -> x ∈ nodes t.
Proof. destruct t; cbn; set_solver. Qed.

Lemma rep_hight s par t : rep s par t -> RB_HIGHT s (addr t) = hgt t.
Proof.
  destruct t; [done|]. intros (_ & Ha & Hn & _). unfold RB_HIGHT. cbn.
  apply node_nonnull in Ha. apply Z.eqb_neq in Ha. by rewrite Ha, Hn.
Qed.
Lemma rep_isblack s par t : rep s par t -> RB_ISBLACK s (addr t) = blk t.
Proof.
  destruct t; [done|]. intros (Hp & Ha & Hn & _). cbn. eapply known_black; [done|exact Hn|]. by apply node_nonnull.
Qed.
Lemma rep_parent s par t : rep s par t -> t <> Leaf -> RB_PARENT s (addr t) = par.
Proof. destruct t; [done|]. intros (Hp & Ha & Hn & _) _. by eapply known_parent. Qed.

(** give a subtree a new parent *)
Lemma adopt_ok s p a t :
  rep s p t -> node_addr a -> NoDup (nodes t) ->
  rep (adopt (addr t) a s) a t /\ same_out (roots t) s (adopt (addr t) a s).
Proof.
  destruct t as [|c k l x r]; [by intros|]. intros (Hp & Hx & Hn & Hl & Hr) Ha Hd.
  cbn in Hd. apply NoDup_app in Hd as (_ & Hd1 & Hd2). apply list.NoDup_cons in Hd2 as [Hd2 _].
  unfold adopt. cbn. pose proof (node_nonnull x Hx) as Hn0. apply Z.eqb_neq in Hn0. rewrite Hn0.
  pose proof (known_set_parent s x p c k (addr l) (addr r) Hp Hn a (ptr_node a Ha)) as Hw.
  split; [|by eapply wrote_out]. destruct Hw as (R & W & F). cbn.
  split_and!; [by right|done|done| |].
  - eapply rep_frame; [done|]. intros y Hy. apply F. intros ->. apply (Hd1 x Hy). set_solver.
  - eapply rep_frame; [done|]. intros y Hy. apply F. by intros ->.
Qed.

Definition hup (c : bool) (x y : Z) : Z := if c then u64 (Z.max x y + 1) else Z.max x y.

Lemma update_height_ok s a p c k l r hl hr :
  rbm s a = nd p c k l r -> a <> NULL -> ptr p -> l <> a -> r <> a ->
  RB_HIGHT s l = hl -> RB_HIGHT s r = hr ->
  wrote a (nd p c (hup c hl hr) l r) s (update_height a s).
Proof.
  intros Ha Hn Hp Hl Hr El Er. unfold update_height.
  rewrite (known_lc s a p c k l r Ha), (known_rc s a p c k l r Ha), El, Er.
  pose proof (known_set_bh s a p c k l r Ha (Z.max hl hr)) as W.
  set (s1 := set_bh a _ s) in *. assert (Ha1 : rbm s1 a = nd p c (Z.max hl hr) l r) by apply W.
  rewrite (known_black _ _ _ _ _ _ _ Hp Ha1 Hn), (known_bh _ _ _ _ _ _ _ Ha1).
  destruct c; cbn [hup]; [|done].
  eapply wrote_twice; [exact W|]. by eapply known_set_bh.
Qed.

(** one side of [connect34]: node [a] takes the subtrees [t0] and [t1] *)
Lemma connect_side_ok s a pa c k l r t0 t1 p0 p1 :
  node_addr a -> ptr pa -> rbm s a = nd pa c k l r -> rep s p0 t0 -> rep s p1 t1 ->
  NoDup (nodes t0 ++ a :: nodes t1) ->
  let s' := update_height a (adopt (addr t1) a (set_right a (addr t1) (adopt (addr t0) a (set_left a (addr t0) s)))) in
  rep s' pa (Node c (hup c (hgt t0) (hgt t1)) t0 a t1) /\ same_out (a :: roots t0 ++ roots t1) s s'.
Proof.
  intros Ha Hpa Hn H0 H1 Hd s'.
  apply NoDup_app in Hd as (Hd0 & Hd01 & Hd1). apply list.NoDup_cons in Hd1 as [Hda1 Hd1].
  assert (Hda0 : a ∉ nodes t0) by (intros Hx; apply (Hd01 a Hx); set_solver).
  assert (Hdd : forall x, x ∈ nodes t0 -> x ∉ nodes t1) by (intros x Hx Hy; apply (Hd01 x Hx); set_solver).
  pose proof (node_nonnull a Ha) as Hnn.
  pose proof (known_set_left s a pa c k l r Hn (addr t0)) as W1. set (s1 := set_left _ _ _) in *.
  assert (R1 : rep s1 p0 t0) by (eapply rep_same_out; [done|by eapply wrote_out|set_solver]).
  destruct (adopt_ok s1 p0 a t0 R1 Ha Hd0) as [R2 S2]. set (s2 := adopt _ _ s1) in *.
  assert (A2 : rbm s2 a = nd pa c k (addr t0) r).
  { destruct S2 as [_ S2]. rewrite S2; [apply W1|]. intros Hx%roots_in. done. }
  pose proof (known_set_right s2 a pa c k (addr t0) r A2 (addr t1)) as W3. set (s3 := set_right _ _ _) in *.
  assert (R3 : rep s3 p1 t1).
  { eapply rep_same_out; [|by eapply wrote_out|set_solver].
    eapply rep_same_out; [|exact S2|intros x Hx Hy%roots_in; by eapply Hdd].
    eapply rep_same_out; [done|by eapply wrote_out|set_solver]. }
  destruct (adopt_ok s3 p1 a t1 R3 Ha Hd1) as [R4 S4]. set (s4 := adopt _ _ s3) in *.
  assert (A4 : rbm s4 a = nd pa c k (addr t0) (addr t1)).
  { destruct S4 as [_ S4]. rewrite S4; [apply W3|]. intros Hx%roots_in. done. }
  assert (R40 : rep s4 a t0).
  { eapply rep_same_out; [|exact S4|intros x Hx Hy%roots_in; by eapply Hdd].
    eapply rep_same_out; [done|by eapply wrote_out|set_solver]. }
  pose proof (update_height_ok s4 a pa c k _ _ _ _ A4 Hnn Hpa
    ltac:(intros Hx; apply Hda0; rewrite <- Hx; apply addr_in; congruence)
    ltac:(intros Hx; apply Hda1; rewrite <- Hx; apply addr_in; congruence)
    (rep_hight _ _ _ R40) (rep_hight _ _ _ R4)) as W5. fold s' in W5.
  split.
  - cbn. split_and!; [done|done|apply W5| |]; (eapply rep_same_out; [done|by eapply wrote_out|set_solver]).
  - eapply same_out_incl; [eapply same_out_trans, same_out_trans, same_out_trans, same_out_trans; [by eapply wrote_out|exact S2|by eapply wrote_out|exact S4|by eapply wrote_out]|].
    set_solver.
Qed.

(** ** Rotations *)

Definition join3 (ca cb cc : bool) (t0 : tree) (a : Z) (t1 : tree) (b : Z) (t2 : tree) (c : Z) (t3 : tree) : tree :=
  let ka := hup ca (hgt t0) (hgt t1) in
  let kc := hup cc (hgt t2) (hgt t3) in
  Node cb (hup cb ka kc) (Node ca ka t0 a t1) b (Node cc kc t2 c t3).

Lemma join3_nodes ca cb cc t0 a t1 b t2 c t3 :
  nodes (join3 ca cb cc t0 a t1 b t2 c t3) = (nodes t0 ++ a :: nodes t1) ++ b :: nodes t2 ++ c :: nodes t3.
Proof. done. Qed.

Lemma adopt_node a p s : node_addr a -> adopt a p s = RB_SET_PARENT a p s.
Proof. intros H%node_nonnull. apply Z.eqb_neq in H. unfold adopt. by rewrite H. Qed.

Lemma connect34_ok s a b c pa pb pc ca cb cc ka kb kc la lb lc_ ra rb_ rc_ t0 t1 t2 t3 p0 p1 p2 p3 :
  node_addr a -> node_addr b -> node_addr c -> ptr pa -> ptr pb -> ptr pc ->
  rbm s a = nd pa ca ka la ra -> rbm s b = nd pb cb kb lb rb_ -> rbm s c = nd pc cc kc lc_ rc_ ->
  rep s p0 t0 -> rep s p1 t1 -> rep s p2 t2 -> rep s p3 t3 ->
  NoDup ((nodes t0 ++ a :: nodes t1) ++ b :: nodes t2 ++ c :: nodes t3) ->
  exists s', connect34 a b c (addr t0) (addr t1) (addr t2) (addr t3) s = (s', b) /\
    rep s' pb (join3 ca cb cc t0 a t1 b t2 c t3) /\
    same_out ((nodes t0 ++ a :: nodes t1) ++ b :: nodes t2 ++ c :: nodes t3) s s'.
Proof.
  intros Ha Hb Hc Hpa Hpb Hpc Na Nb Nc R0 R1 R2 R3 Hd.
  pose proof Hd as Hd'. apply NoDup_app in Hd' as (HdL & HdLR & HdR). apply list.NoDup_cons in HdR as [Hbn HdR].
  assert (Hx : forall x, x ∈ nodes t0 ++ a :: nodes t1 -> x <> b /\ x ∉ nodes t2 ++ c :: nodes t3).
  { intros x Hx. pose proof (HdLR x Hx). set_solver. }
  destruct (connect_side_ok s a pa ca ka la ra t0 t1 p0 p1 Ha Hpa Na R0 R1 HdL) as [RA SA].
  set (s1 := update_height a _) in *.
  assert (RA1 : forall p t, rep s p t -> (forall x, x ∈ nodes t -> x ∈ nodes t2 ++ c :: nodes t3) -> rep s1 p t).
  { intros p t R Hi. eapply rep_same_out; [done|exact SA|]. intros x Hxt Hxa.
    apply Hi in Hxt. destruct (Hx x) as [_ Hy]; [|done].
    apply elem_of_cons in Hxa as [->|[?%roots_in|?%roots_in]%elem_of_app]; set_solver. }
  assert (Nc1 : rbm s1 c = nd pc cc kc lc_ rc_).
  { destruct SA as [_ SA]. rewrite SA; [done|]. intros Hxa.
    destruct (Hx c) as [_ Hy]; [apply elem_of_cons in Hxa as [->|[?%roots_in|?%roots_in]%elem_of_app]; set_solver|].
    apply Hy. set_solver. }
  destruct (connect_side_ok s1 c pc cc kc lc_ rc_ t2 t3 p2 p3 Hc Hpc Nc1) as [RC SC];
    [apply RA1; [done|set_solver]|apply RA1; [done|set_solver]|done|].
  set (s2 := update_height c _) in *.
  assert (RA2 : rep s2 pa (Node ca (hup ca (hgt t0) (hgt t1)) t0 a t1)).
  { eapply rep_same_out; [exact RA|exact SC|]. intros x Hxa Hxc. destruct (Hx x Hxa) as [_ Hy]. apply Hy.
    apply elem_of_cons in Hxc as [->|[?%roots_in|?%roots_in]%elem_of_app]; set_solver. }
  assert (Nb2 : rbm s2 b = nd pb cb kb lb rb_).
  { destruct SC as [_ SC], SA as [_ SA]. rewrite SC, SA; [done| |].
    - intros Hxa. destruct (Hx b) as [Hy _]; [|done].
      apply elem_of_cons in Hxa as [->|[?%roots_in|?%roots_in]%elem_of_app]; set_solver.
    - intros Hxc. apply Hbn. apply elem_of_cons in Hxc as [->|[?%roots_in|?%roots_in]%elem_of_app]; set_solver. }
  pose proof (connect_side_ok s2 b pb cb kb lb rb_ _ _ pa pc Hb Hpb Nb2 RA2 RC Hd) as [RB SB].
  cbn [addr] in RB, SB. set (s3 := update_height b _) in *.
  exists s3. split; [|split].
  - unfold connect34. fold s1. fold s2. cbv zeta. subst s3. by rewrite !adopt_node.
  - exact RB.
  - eapply same_out_incl; [eapply same_out_trans, same_out_trans; [exact SA|exact SC|exact SB]|].
    cbn [roots]. intros x Hxx.
    repeat first [apply elem_of_app in Hxx as [Hxx|Hxx] | apply elem_of_cons in Hxx as [->|Hxx] | apply roots_in in Hxx];
      rewrite ?elem_of_app, ?elem_of_cons, ?elem_of_app, ?elem_of_cons; first [by auto 10 | by apply elem_of_nil in Hxx].
Qed.

(** the four shapes [rotateAt v] is called on, and the tree it builds *)
Inductive rot : tree -> Z -> tree -> Prop :=
| rot_LL cg kg cp kp cv kv t0 v t1 p t2 g t3 :
    rot (Node cg kg (Node cp kp (Node cv kv t0 v t1) p t2) g t3) v (join3 cv cp cg t0 v t1 p t2 g t3)
| rot_LR cg kg cp kp cv kv t0 p t1 v t2 g t3 :
    rot (Node cg kg (Node cp kp t0 p (Node cv kv t1 v t2)) g t3) v (join3 cp cv cg t0 p t1 v t2 g t3)
| rot_RR cg kg cp kp cv kv t0 g t1 p t2 v t3 :
    rot (Node cg kg t0 g (Node cp kp t1 p (Node cv kv t2 v t3))) v (join3 cg cp cv t0 g t1 p t2 v t3)
| rot_RL cg kg cp kp cv kv t0 g t1 v t2 p t3 :
    rot (Node cg kg t0 g (Node cp kp (Node cv kv t1 v t2) p t3)) v (join3 cg cv cp t0 g t1 v t2 p t3).

Lemma rot_nodes G v B : rot G v B -> nodes B = nodes G.
Proof. destruct 1; cbn; by rewrite <- ?app_assoc; cbn; rewrite <- ?app_assoc. Qed.

Lemma left_test s g cg kg l r p :
  node_addr g -> ptr p -> rbm s g = nd p cg kg l r -> forall x, RB_PARENT s x = g -> RB_ISLCHILD s x = (x =? l).
Proof.
  intros Hg Hp Hn x Hx. unfold RB_ISLCHILD. rewrite Hx, (known_lc _ _ _ _ _ _ _ Hn).
  apply node_nonnull, Z.eqb_neq in Hg. by rewrite Hg.
Qed.
Lemma right_test s g cg kg l r p :
  node_addr g -> ptr p -> rbm s g = nd p cg kg l r -> forall x, RB_PARENT s x = g -> RB_ISRCHILD s x = (x =? r).
Proof.
  intros Hg Hp Hn x Hx. unfold RB_ISRCHILD. rewrite Hx, (known_rc _ _ _ _ _ _ _ Hn).
  apply node_nonnull, Z.eqb_neq in Hg. by rewrite Hg.
Qed.

Lemma eqb_addr_other x t : node_addr x -> x ∉ nodes t -> (x =? addr t) = false.
Proof. intros Hx%node_nonnull Hn. apply Z.eqb_neq. intros ->. by apply Hn, addr_in. Qed.

(** the disjointness facts in a [NoDup] hypothesis *)
Ltac nodup_from H :=
  lazymatch type of H with
  | NoDup (_ ++ _) =>
    let H1 := fresh in let H2 := fresh in let H3 := fresh in
    pose proof H as (H1 & H2 & H3)%NoDup_app; nodup_from H1; nodup_from H3
  | NoDup (_ :: _) =>
    let H1 := fresh in let H2 := fresh in
    pose proof H as [H1 H2]%list.NoDup_cons; nodup_from H2
  | _ => idtac
  end.

Lemma join_disjoint (l0 l1 l2 l3 : list Z) a b c :
  NoDup ((l0 ++ a :: l1) ++ b :: l2 ++ c :: l3) ->
  (a <> b /\ a <> c /\ b <> c) /\ (a ∉ l0 /\ a ∉ l1 /\ a ∉ l2 /\ a ∉ l3) /\
  (b ∉ l0 /\ b ∉ l1 /\ b ∉ l2 /\ b ∉ l3) /\ (c ∉ l0 /\ c ∉ l1 /\ c ∉ l2 /\ c ∉ l3).
Proof.
  rewrite !NoDup_app, !list.NoDup_cons, !NoDup_app, !list.NoDup_cons.
  setoid_rewrite elem_of_app. setoid_rewrite elem_of_cons. setoid_rewrite elem_of_app. setoid_rewrite elem_of_cons.
  intros ((_ & H1 & H2 & _) & H3 & H4 & _ & H5 & H6 & _).
  split_and!; intros Hx; subst; first [by eapply H1; eauto | by apply (H3 a); auto 6 | by apply (H3 b); auto 6 | by apply (H3 c); auto 6 | by apply H4; eauto 6 | by eapply H5; eauto | by auto].
Qed.

(** the facts every case of [rotateAt] starts from *)
Ltac rotate_start v p g par :=
  match goal with Hv : rbm ?s v = nd _ _ _ _ _, Hp : rbm ?s p = nd _ _ _ _ _, Hg : rbm ?s g = nd _ _ _ _ _ |- _ =>
    let Pv := fresh "Pv" in let Pp := fresh "Pp" in let Pg := fresh "Pg" in
    assert (Pv : RB_PARENT s v = p) by (by eapply known_parent);
    assert (Pp : RB_PARENT s p = g) by (by eapply known_parent);
    assert (Pg : RB_PARENT s g = par) by (by eapply known_parent);
    unfold rotateAt; rewrite Pv, Pp, Pg;
    rewrite (left_test s g _ _ _ _ par ltac:(done) ltac:(done) Hg p Pp);
    rewrite ?(left_test s p _ _ _ _ g ltac:(done) ltac:(done) Hp v Pv);
    rewrite ?(right_test s p _ _ _ _ g ltac:(done) ltac:(done) Hp v Pv);
    rewrite ?Z.eqb_refl; rewrite ?(eqb_addr_other p) by done;
    rewrite ?(eqb_addr_other v) by done
  end.

Lemma lc_set_pc a v s x : lc (set_pc a v s) x = lc s x.
Proof. unfold lc, set_pc, upd. cbn. rewrite fn_insert_case. destruct (decide (a = x)) as [->|]; done. Qed.
Lemma rc_set_pc a v s x : rc (set_pc a v s) x = rc s x.
Proof. unfold rc, set_pc, upd. cbn. rewrite fn_insert_case. destruct (decide (a = x)) as [->|]; done. Qed.

Lemma lc_set_parent a v s x : lc (RB_SET_PARENT a v s) x = lc s x.
Proof. apply lc_set_pc. Qed.
Lemma rc_set_parent a v s x : rc (RB_SET_PARENT a v s) x = rc s x.
Proof. apply rc_set_pc. Qed.

(** the new root's parent is set before the nodes are connected *)
Lemma rotate_finish s a b c pa pb pc ca cb cc ka kb kc la lb lc_ ra rb_ rc_ t0 t1 t2 t3 p0 p1 p2 p3 par x0 x1 x2 x3 :
  rbm s a = nd pa ca ka la ra -> rbm s b = nd pb cb kb lb rb_ -> rbm s c = nd pc cc kc lc_ rc_ ->
  node_addr a -> node_addr b -> node_addr c -> ptr pa -> ptr pb -> ptr pc -> ptr par ->
  rep s p0 t0 -> rep s p1 t1 -> rep s p2 t2 -> rep s p3 t3 ->
  NoDup ((nodes t0 ++ a :: nodes t1) ++ b :: nodes t2 ++ c :: nodes t3) ->
  x0 = addr t0 -> x1 = addr t1 -> x2 = addr t2 -> x3 = addr t3 ->
  exists s', connect34 a b c x0 x1 x2 x3 (RB_SET_PARENT b par s) = (s', b) /\
    rep s' par (join3 ca cb cc t0 a t1 b t2 c t3) /\
    same_out ((nodes t0 ++ a :: nodes t1) ++ b :: nodes t2 ++ c :: nodes t3) s s'.
Proof.
  intros Na Nb Nc Ha Hb Hc Hpa Hpb Hpc Hpar R0 R1 R2 R3 Hd -> -> -> ->.
  pose proof (known_set_parent s b pb cb kb lb rb_ Hpb Nb par Hpar) as W. set (s1 := RB_SET_PARENT b par s) in *.
  pose proof (join_disjoint _ _ _ _ _ _ _ Hd) as Hj. destruct_and! Hj.
  assert (Hr : forall p t, rep s p t -> b ∉ nodes t -> rep s1 p t).
  { intros p t R Hx. eapply rep_same_out; [done|by eapply wrote_out|set_solver]. }
  destruct W as (WR & WB & WF).
  destruct (connect34_ok s1 a b c pa par pc ca cb cc ka kb kc la lb lc_ ra rb_ rc_ t0 t1 t2 t3 p0 p1 p2 p3)
    as (s' & Leaf & R & S); rewrite ?WF by done; try done; try (by apply Hr).
  exists s'. split_and!; [done|done|].
  eapply same_out_incl; [eapply same_out_trans; [by eapply wrote_out|exact S]|]. set_solver.
Qed.

Lemma rotateAt_ok G v B s par :
  rot G v B -> rep s par G -> NoDup (nodes G) ->
  exists s', rotateAt v s = (s', addr B) /\ rep s' par B /\ same_out (nodes G) s s'.
Proof.
  intros HR R Hd. rewrite <- (rot_nodes _ _ _ HR) in Hd |- *.
  destruct HR as [cg kg cp kp cv kv t0 v t1 p t2 g t3|cg kg cp kp cv kv t0 p t1 v t2 g t3
    |cg kg cp kp cv kv t0 g t1 p t2 v t3|cg kg cp kp cv kv t0 g t1 v t2 p t3];
    rewrite join3_nodes in *; cbn [rep] in R; destruct_and! R; pose proof (join_disjoint _ _ _ _ _ _ _ Hd) as Hj; destruct_and! Hj; cbn [addr] in *;
    rotate_start v p g par; cbn [addr join3]; 
    rewrite ?lc_set_parent, ?rc_set_parent; (eapply rotate_finish; [..|exact Hd| | | |]; eauto using known_lc, known_rc).
Qed.

(** ** Contexts: the path from a subtree to the root *)

(** [F d c k a t]: node [a] (colour [c], height [k]) with the hole on its left
    when [d], and the other subtree [t]; the innermost frame comes first *)
Inductive frame := F (d c : bool) (k a : Z) (t : tree).

Definition top (C : list frame) : Z := match C with [] => NULL | F _ _ _ a _ :: _ => a end.
Definition mkT (d c : bool) (k a : Z) (hole t : tree) : tree :=
  if d then Node c k hole a t else Node c k t a hole.
Fixpoint plug (C : list frame) (t : tree) : tree :=
  match C with [] => t | F d c k a u :: C' => plug C' (mkT d c k a t u) end.
Fixpoint cnodes (C : list frame) : list Z :=
  match C with [] => [] | F _ _ _ a t :: C' => a :: nodes t ++ cnodes C' end.

(** memory holds the context; its hole contains the pointer [q] *)
Fixpoint crep (s : rb_tree) (C : list frame) (q : Z) : Prop :=
  match C with
  | [] => rb_root s = q
  | F d c k a t :: C' =>
    ptr (top C') /\ node_addr a /\
    rbm s a = nd (top C') c k (if d then q else addr t) (if d then addr t else q) /\
    rep s a t /\ crep s C' a
  end.

Lemma count_occ_cons_eq (a x : Z) l :
  count_occ Z.eq_dec (a :: l) x = ((if Z.eq_dec a x then 1 else 0) + count_occ Z.eq_dec l x)%nat.
Proof. cbn. by destruct (Z.eq_dec a x). Qed.
Ltac solve_perm :=
  apply (Permutation_count_occ Z.eq_dec); intros ?;
  repeat rewrite ?count_occ_app, ?count_occ_cons_eq; cbn [count_occ]; lia.

(** from [NoDup] of [l], the facts about the list [l'] of the same elements
    that starts with the nodes of interest *)
Ltac disjoint_facts H l' :=
  let Hf := fresh "Hf" in
  assert (Hf : NoDup l') by (eapply NoDup_Permutation_proper; [|exact H]; cbn [cnodes nodes]; solve_perm);
  rewrite ?list.NoDup_cons, ?not_elem_of_cons, ?not_elem_of_app in Hf; destruct_and! Hf.

Lemma mkT_nodes d c k a t u : nodes (mkT d c k a t u) ≡ₚ nodes t ++ a :: nodes u.
Proof. destruct d; cbn [mkT nodes]; solve_perm. Qed.
Lemma plug_nodes C t : nodes (plug C t) ≡ₚ nodes t ++ cnodes C.
Proof.
  revert t. induction C as [|[d c k a u] C IH]; intros t; cbn; [by rewrite app_nil_r|].
  rewrite IH, mkT_nodes. solve_perm.
Qed.
Lemma plug_same C t t' : nodes t = nodes t' -> nodes (plug C t) = nodes (plug C t').
Proof.
  revert t t'. induction C as [|[d c k a u] C IH]; intros t t' H; cbn; [done|].
  apply IH. destruct d; cbn; by rewrite H.
Qed.
Lemma plug_app C D t : plug (D ++ C) t = plug C (plug D t).
Proof. revert t. induction D as [|[d c k a u] D IH]; intros t; cbn; [done|apply IH]. Qed.

Lemma addr_mkT d c k a t u : addr (mkT d c k a t u) = a.
Proof. by destruct d. Qed.
Lemma blk_mkT d c k a t u : blk (mkT d c k a t u) = c.
Proof. by destruct d. Qed.

Lemma rep_mkT s par d c k a t u :
  rep s par (mkT d c k a t u) <->
  ptr par /\ node_addr a /\
  rbm s a = nd par c k (if d then addr t else addr u) (if d then addr u else addr t) /\ rep s a t /\ rep s a u.
Proof. destruct d; cbn; tauto. Qed.

Lemma plug_rep s C t :
  crep s C (addr t) /\ rep s (top C) t <-> rb_root s = addr (plug C t) /\ rep s NULL (plug C t).
Proof.
  revert t. induction C as [|[d c k a u] C IH]; intros t; cbn [crep plug top]; [done|].
  rewrite <- IH, addr_mkT, rep_mkT. tauto.
Qed.

Lemma crep_frame s s' C q :
  crep s C q -> rb_root s' = rb_root s -> (forall x, x ∈ cnodes C -> rbm s' x = rbm s x) -> crep s' C q.
Proof.
  revert q. induction C as [|[d c k a t] C IH]; intros q H R Hx; [cbn in *; congruence|].
  destruct H as (? & ? & Hn & Ht & HC). cbn in Hx. cbn [crep]. rewrite Hx by (left).
  split_and!; [done..| |].
  - eapply rep_frame; [done|]. intros y Hy. apply Hx. set_solver.
  - apply IH; [done|done|]. intros y Hy. apply Hx. set_solver.
Qed.
Lemma crep_same_out l s s' C q : crep s C q -> same_out l s s' -> (forall x, x ∈ cnodes C -> x ∉ l) -> crep s' C q.
Proof. intros H [R Hs] Hd. eapply crep_frame; [done|done|]. intros x Hx. by apply Hs, Hd. Qed.
Lemma crep_wrote a n s s' C q : wrote a n s s' -> a ∉ cnodes C -> crep s C q -> crep s' C q.
Proof. intros W Ha H. eapply crep_same_out; [done|by eapply wrote_out|set_solver]. Qed.
Lemma rep_wrote a n s s' p t : wrote a n s s' -> a ∉ nodes t -> rep s p t -> rep s' p t.
Proof. intros W Ha H. eapply rep_same_out; [done|by eapply wrote_out|set_solver]. Qed.
Lemma read_wrote a n s s' b m : wrote a n s s' -> a <> b -> rbm s b = m -> rbm s' b = m.
Proof. intros (_ & _ & W) Ha <-. apply W. congruence. Qed.

(** carry every fact about the state before a write over to the state after it *)
Ltac carry W :=
  lazymatch type of W with wrote ?a ?n ?s ?s' =>
    repeat match goal with
    | H : rep s ?p ?t |- _ => apply (rep_wrote a n s s' p t W ltac:(done)) in H
    | H : crep s ?C ?q |- _ => apply (crep_wrote a n s s' C q W ltac:(done)) in H
    | H : rbm s ?b = _ |- _ =>
      lazymatch b with
      | a => clear H
      | _ => apply (read_wrote a n s s' b _ W ltac:(congruence)) in H
      end
    end;
    let Hn := fresh "Hn" in pose proof (proj1 (proj2 W)) as Hn
  end.

(** memory outside [l] is untouched; the root pointer may have moved *)
Definition mem_out (l : list Z) (s s' : rb_tree) : Prop := forall x, x ∉ l -> rbm s' x = rbm s x.
Lemma same_mem_out l s s' : same_out l s s' -> mem_out l s s'.
Proof. by intros [_ H]. Qed.
Lemma wrote_mem_out a n s s' l : wrote a n s s' -> a ∈ l -> mem_out l s s'.
Proof. intros (_ & _ & W) Ha x Hx. apply W. by intros ->. Qed.
Lemma mem_out_trans l s1 s2 s3 : mem_out l s1 s2 -> mem_out l s2 s3 -> mem_out l s1 s3.
Proof. intros H1 H2 x Hx. by rewrite H2, H1. Qed.
Lemma mem_out_incl l l' s s' : mem_out l s s' -> l ⊆ l' -> mem_out l' s s'.
Proof. intros H Hi x Hx. apply H. intros Hl. by apply Hx, Hi. Qed.

(** a rotation at the root of a subtree, with the slot above it redirected *)
Lemma rotate_into_ok s C G v B :
  crep s C (addr G) -> rep s (top C) G -> rot G v B -> NoDup (nodes G ++ cnodes C) ->
  exists s', rotate_into (addr G) (top C) v s = (s', addr B) /\
    crep s' C (addr B) /\ rep s' (top C) B /\ mem_out (nodes G ++ cnodes C) s s'.
Proof.
  intros HC HG HR Hd. pose proof Hd as (HdG & HdGC & HdC)%NoDup_app.
  destruct (rotateAt_ok G v B s (top C) HR HG HdG) as (s1 & E1 & R1 & S1).
  assert (HGn : G <> Leaf) by (by destruct HR). pose proof (rep_parent _ _ _ HG HGn) as Pg.
  unfold rotate_into. unfold RB_ISROOT. rewrite Pg, E1.
  assert (M1 : mem_out (nodes G ++ cnodes C) s s1).
  { eapply mem_out_incl; [by apply same_mem_out|set_solver]. }
  destruct C as [|[d c k a t] C]; cbn [top].
  { rewrite Z.eqb_refl. eexists. split; [done|]. cbn. split_and!; [done| |done].
    eapply rep_frame; [exact R1|done]. }
  cbn [top] in *. assert (HC1 : crep s1 (F d c k a t :: C) (addr G)).
  { eapply crep_same_out; [done|exact S1|]. intros x Hx Hy. by apply (HdGC x). }
  destruct HC as (Hp & Ha & Hn & _ & _). destruct HC1 as (_ & _ & Hn1 & Ht1 & HC1).
  rewrite (proj2 (Z.eqb_neq a NULL)) by by apply node_nonnull.
  rewrite (left_test s a c k _ _ (top C) Ha Hp Hn _ Pg).
  assert (HaB : a ∉ nodes B). { rewrite (rot_nodes _ _ _ HR). intros Hx. apply (HdGC a Hx). set_solver. }
  cbn [cnodes] in HdC. apply list.NoDup_cons in HdC as [Hat HdC]. rewrite not_elem_of_app in Hat.
  assert (HGt : addr G <> addr t).
  { assert (Hg0 : addr G <> NULL) by (destruct G; [done|]; apply node_nonnull; apply HG).
    intros Hx. apply (HdGC (addr G)); [by apply addr_in|].
    cbn. right. apply elem_of_app. left. rewrite Hx. apply addr_in. congruence. }
  assert (Fin : forall s2, wrote a (nd (top C) c k (if d then addr B else addr t) (if d then addr t else addr B)) s1 s2 ->
    crep s2 (F d c k a t :: C) (addr B) /\ rep s2 a B /\ mem_out (nodes G ++ cnodes (F d c k a t :: C)) s s2).
  { intros s2 W. split_and!.
    - cbn [crep]. split_and!; [done|done|apply W| |].
      + eapply rep_wrote; [exact W|exact (proj1 Hat)|exact Ht1].
      + eapply crep_wrote; [exact W|exact (proj2 Hat)|exact HC1].
    - by eapply rep_wrote.
    - eapply mem_out_trans; [exact M1|]. eapply wrote_mem_out; [exact W|]. cbn. set_solver. }
  destruct d.
  - rewrite Z.eqb_refl. eexists. split; [done|]. apply Fin. by eapply known_set_left.
  - rewrite (proj2 (Z.eqb_neq _ _) HGt). eexists. split; [done|]. apply Fin. by eapply known_set_right.
Qed.
