(* ===== verification/RbInsert.v ===== *)
(** * Red-black trees: insertion and lookup

    The red-black invariant on stored trees, the repair after insertion
    ([RB_SolveDoubleRed]), the logarithmic depth, lookup, and insertion into the
    page-chunk index. *)
From Stdlib Require Import Sorted.
From S2P Require Import Prelude RbTree.

(** ** The red-black invariant *)

(** [rbt n t]: equal black heights [n], no red node with a red child, and the
    stored heights are the black heights *)
Inductive rbt : Z -> tree -> Prop :=
| rbt_E : rbt 0 Leaf
| rbt_red n l a r : rbt n l -> rbt n r -> blk l = true -> blk r = true -> rbt n (Node false n l a r)
| rbt_black n l a r : rbt n l -> rbt n r -> rbt (n + 1) (Node true (n + 1) l a r).
#[export] Hint Constructors rbt : rb.

Definition is_rb (t : tree) : Prop := blk t = true /\ exists n, rbt n t.

Definition top_black (C : list frame) : Prop := match C with F _ c _ _ _ :: _ => c = true | [] => False end.

(** the context is valid around a subtree of black height [n] *)
Fixpoint ctx_ok (C : list frame) (n : Z) : Prop :=
  match C with
  | [] => True
  | F d true k a t :: C' => rbt n t /\ k = n + 1 /\ ctx_ok C' (n + 1)
  | F d false k a t :: C' => rbt n t /\ k = n /\ blk t = true /\ top_black C' /\ ctx_ok C' n
  end.

Lemma rbt_hgt n t : rbt n t -> hgt t = n.
Proof. by destruct 1. Qed.
Lemma rbt_size n t : rbt n t -> 0 <= n <= Z.of_nat (size t).
Proof. induction 1; cbn [size]; lia. Qed.
Lemma rbt_mkT_red n d a t u : rbt n t -> rbt n u -> blk t = true -> blk u = true -> rbt n (mkT d false n a t u).
Proof. destruct d; intros; by constructor. Qed.
Lemma rbt_mkT_black n d a t u : rbt n t -> rbt n u -> rbt (n + 1) (mkT d true (n + 1) a t u).
Proof. destruct d; intros; by constructor. Qed.

Lemma plug_ok C t n : ctx_ok C n -> rbt n t -> blk t = true \/ top_black C -> is_rb (plug C t).
Proof.
  revert t n. induction C as [|[d c k a u] C IH]; intros t n HC Ht Hb; cbn [plug].
  { destruct Hb as [Hb|[]]. split; [done|]. by exists n. }
  destruct c; cbn [ctx_ok] in HC.
  - destruct HC as (Hu & -> & HC). eapply IH; [done|by apply rbt_mkT_black|]. left. apply blk_mkT.
  - destruct HC as (Hu & -> & Hbu & Htop & HC). destruct Hb as [Hb|Hb]; [|done].
    eapply IH; [done|by apply rbt_mkT_red|]. by right.
Qed.

(** addresses are distinct words, so heights never reach [2 ^ 64] *)
Lemma NoDup_bounded (l : list Z) (n : Z) : 0 <= n -> NoDup l -> (forall x, x ∈ l -> 0 <= x < n) -> Z.of_nat (length l) <= n.
Proof.
  intros Hn Hd Hb. assert (H : l ⊆+ map Z.of_nat (seq 0 (Z.to_nat n))).
  { apply NoDup_submseteq; [done|]. intros x Hx. specialize (Hb x Hx). apply list_elem_of_fmap.
    exists (Z.to_nat x). split; [lia|]. apply elem_of_seq. lia. }
  apply submseteq_length in H. rewrite length_map, length_seq in H. lia.
Qed.

Lemma rep_size s par t : rep s par t -> NoDup (nodes t) -> Z.of_nat (size t) < 2 ^ 64.
Proof.
  intros HR Hd. rewrite size_nodes.
  assert (Z.of_nat (length (map (fun x => x - 1) (nodes t))) <= 2 ^ 64 - 1).
  { apply NoDup_bounded; [lia|apply NoDup_fmap_2; [intros ? ? ?; lia|done]|].
    intros x (y & -> & Hy)%list_elem_of_fmap. destruct (rep_addr _ _ _ _ HR Hy). lia. }
  rewrite length_map in *. lia.
Qed.

Lemma hup_black n : 0 <= n -> n + 1 < 2 ^ 64 -> hup true n n = n + 1.
Proof. intros. unfold hup. rewrite Z.max_id. apply u64_small. lia. Qed.
Lemma hup_red n : hup false n n = n.
Proof. apply Z.max_id. Qed.

(** the outcome of an operation: memory holds a red-black tree with these
    nodes in order, and nothing outside them moved *)
Definition rb_result (ns : list Z) (s s' : rb_tree) : Prop :=
  exists t, rb_root s' = addr t /\ rep s' NULL t /\ is_rb t /\ nodes t = ns /\ mem_out ns s s'.

(** ** Repair after insertion *)

(** the subtree the repair is called on: red, or the recoloured black root *)
Definition double_red (C : list frame) (n : Z) (t : tree) : Prop :=
  exists c l x r, t = Node c n l x r /\ rbt n l /\ rbt n r /\ blk l = true /\ blk r = true /\ (c = false \/ C = []).

Lemma double_red_root s c n l x r :
  rb_root s = x -> rep s NULL (Node c n l x r) -> rbt n l -> rbt n r -> NoDup (nodes (Node c n l x r)) ->
  rb_result (nodes (Node c n l x r)) s
    (let s := RB_SET_BLACK x s in set_bh x (u64 (black_height (rbm s x) + 1)) s).
Proof.
  intros HR HT Hl Hr Hd. pose proof (rep_size _ _ _ HT Hd) as Hsz. cbn [size] in Hsz.
  pose proof (rbt_size _ _ Hl). destruct HT as (Hp & Hx & Hn & Tl & Tr). cbn [nodes] in Hd.
  disjoint_facts Hd (x :: nodes l ++ nodes r).
  pose proof (known_set_black s x NULL c n _ _ Hp Hn) as W1. cbv zeta. set (s1 := RB_SET_BLACK x s) in *.
  pose proof W1 as (R1 & N1 & _). rewrite (known_bh _ _ _ _ _ _ _ N1).
  rewrite u64_small by lia.
  pose proof (known_set_bh s1 x NULL true n _ _ N1 (n + 1)) as W2. set (s2 := set_bh _ _ s1) in *.
  exists (Node true (n + 1) l x r). pose proof (wrote_twice _ _ _ _ _ _ W1 W2) as W.
  carry W. split_and!; [rewrite (proj1 W2), R1; exact HR| |split; [done|eauto with rb]|done|].
  - cbn [rep]. by split_and!.
  - eapply wrote_mem_out; [exact W|]. cbn. set_solver.
Qed.

(** the tree [rotateAt x] builds from a node [x], its parent [p] (on whose
    [d]-side it is) and grandparent [g] (on whose [d']-side [p] is) *)
Definition rotB (d d' cg cp cv : bool) (l : tree) (x : Z) (r : tree) (p : Z) (t : tree) (g : Z) (u : tree) : tree :=
  match d', d with
  | true, true => join3 cv cp cg l x r p t g u
  | true, false => join3 cp cv cg t p l x r g u
  | false, false => join3 cg cp cv u g t p l x r
  | false, true => join3 cg cv cp u g l x r p t
  end.

Lemma rotB_rot d d' cg kg cp kp cv kv l x r p t g u :
  rot (mkT d' cg kg g (mkT d cp kp p (Node cv kv l x r) t) u) x (rotB d d' cg cp cv l x r p t g u).
Proof. destruct d, d'; constructor. Qed.

Lemma join3_black n ca cc t0 a t1 b t2 c t3 :
  rbt n t0 -> rbt n t1 -> rbt n t2 -> rbt n t3 -> 0 <= n -> n + 1 < 2 ^ 64 ->
  ca = false -> cc = false -> blk t0 = true -> blk t1 = true -> blk t2 = true -> blk t3 = true ->
  rbt (n + 1) (join3 ca true cc t0 a t1 b t2 c t3).
Proof.
  intros H0 H1 H2 H3 Hn Hb -> -> B0 B1 B2 B3. unfold join3.
  rewrite !(rbt_hgt n) by done. rewrite !hup_red, hup_black by done. by repeat constructor.
Qed.

Lemma rotB_red_ok d d' n l x r p t g u :
  rbt n l -> rbt n r -> rbt n t -> rbt n u -> n + 1 < 2 ^ 64 ->
  blk l = true -> blk r = true -> blk t = true -> blk u = true ->
  let B := rotB d d' false (Bool.eqb d d') (negb (Bool.eqb d d')) l x r p t g u in
  rbt (n + 1) B /\ blk B = true.
Proof.
  intros Hl Hr Ht Hu Hb ? ? ? ? B. pose proof (rbt_size _ _ Hl).
  split; [destruct d, d'; apply join3_black; done || lia|by destruct d, d'].
Qed.

(** the facts about a node, its parent and its grandparent *)
Section Family.
Variables (s : rb_tree) (x p g gp : Z) (d d' cx cp cg : bool) (kx kp kg : Z) (l r t u : tree).
Hypothesis Hx : node_addr x.
Hypothesis Hp : node_addr p.
Hypothesis Hg : node_addr g.
Hypothesis Hgp : ptr gp.
Hypothesis Nx : rbm s x = nd p cx kx (addr l) (addr r).
Hypothesis Np : rbm s p = nd g cp kp (if d then x else addr t) (if d then addr t else x).
Hypothesis Ng : rbm s g = nd gp cg kg (if d' then p else addr u) (if d' then addr u else p).
Hypothesis Dx : x ∉ nodes t.
Hypothesis Dp : p ∉ nodes u.

Lemma family_x_left : RB_ISLCHILD s x = d.
Proof.
  rewrite (left_test s p cp kp _ _ g Hp (ptr_node _ Hg) Np x) by (eapply known_parent; [by apply ptr_node|done]).
  destruct d; [apply Z.eqb_refl|by apply eqb_addr_other].
Qed.
Lemma family_p_left : RB_ISLCHILD s p = d'.
Proof.
  rewrite (left_test s g cg kg _ _ gp Hg Hgp Ng p) by (eapply known_parent; [by apply ptr_node|done]).
  destruct d'; [apply Z.eqb_refl|by apply eqb_addr_other].
Qed.
Lemma family_uncle : RB_UNCLE s x = addr u.
Proof.
  unfold RB_UNCLE. rewrite (known_parent _ _ _ _ _ _ _ (ptr_node _ Hp) Nx), family_p_left.
  rewrite (known_parent _ _ _ _ _ _ _ (ptr_node _ Hg) Np).
  rewrite (known_lc _ _ _ _ _ _ _ Ng), (known_rc _ _ _ _ _ _ _ Ng). by destruct d'.
Qed.
End Family.

Lemma same_content a n s s' : rbm s a = n -> wrote a n s s' -> forall x, rbm s' x = rbm s x.
Proof. intros <- (_ & Leaf & F) x. destruct (decide (x = a)) as [->|]; [done|by apply F]. Qed.

(** re-linking the rotated tree under its parent leaves memory as it is *)
Lemma relink_ok s C B :
  B <> Leaf -> crep s C (addr B) -> rep s (top C) B -> ptr (top C) ->
  let s' := RB_SET_PARENT (addr B) (top C) s in
  crep s' C (addr B) /\ rep s' (top C) B /\ forall x, rbm s' x = rbm s x.
Proof.
  intros HB HC R Hp s'. destruct B as [|c k l a r]; [done|].
  destruct R as (Hp' & Ha & Hn & Rl & Rr). cbn [addr] in *.
  pose proof (known_set_parent s a _ c k _ _ Hp' Hn (top C) Hp) as W. fold s' in W.
  pose proof (same_content _ _ _ _ Hn W) as Leaf. split_and!; [| |done].
  - eapply crep_frame; [done|apply W|done].
  - eapply rep_frame; [by cbn [rep]; split_and!|done].
Qed.

Lemma crep_top_ptr s C q : crep s C q -> ptr (top C).
Proof. destruct C as [|[d c k a t] C]; [by left|]. intros (_ & Ha & _). by right. Qed.

Lemma bool_negb_eqb d d' : d = d' \/ d = negb d'.
Proof. destruct d, d'; auto. Qed.

(** black uncle: recolour, rotate, relink; the repair ends *)
Lemma double_red_rotate s C n d d' l x r p t g u :
  let ctx := F d false n p t :: F d' true (n + 1) g u :: C in
  ctx_ok C (n + 1) -> rbt n l -> rbt n r -> rbt n t -> rbt n u ->
  blk l = true -> blk r = true -> blk t = true -> blk u = true ->
  crep s ctx x -> rep s p (Node false n l x r) -> NoDup (nodes (plug ctx (Node false n l x r))) ->
  rb_result (nodes (plug ctx (Node false n l x r))) s
    (let s := if Bool.eqb (RB_ISLCHILD s x) (RB_ISLCHILD s p) then RB_SET_BLACK p s else RB_SET_BLACK x s in
     let s := RB_SET_RED g s in
     let gg := RB_PARENT s g in
     let '(s, r) := rotate_into g gg x s in
     RB_SET_PARENT r gg s).
Proof.
  intros ctx HC Hl Hr Ht Hu Bl Br Bt Bu Hcr Hrep Hd.
  assert (Hd0 := Hd). rewrite plug_nodes in Hd. cbn [cnodes nodes ctx] in Hd.
  disjoint_facts Hd (x :: p :: g :: nodes l ++ nodes r ++ nodes t ++ nodes u ++ cnodes C).
  destruct Hcr as (Hg' & Hp & Np & Rt & Hgp & Hg & Ng & Ru & Hcr). cbn [top] in *.
  destruct Hrep as (_ & Hx & Nx & Rl & Rr).
  rewrite (family_x_left s x p g d false false n n l r t) by done.
  rewrite (family_p_left s x p g (top C) d d' false true n (n + 1) t u) by done.
  set (s1 := if Bool.eqb d d' then RB_SET_BLACK p s else RB_SET_BLACK x s).
  assert (Hs1 : exists a na, (a = p \/ a = x) /\ wrote a na s s1 /\
    rbm s1 x = nd p (negb (Bool.eqb d d')) n (addr l) (addr r) /\
    rbm s1 p = nd g (Bool.eqb d d') n (if d then x else addr t) (if d then addr t else x)).
  { subst s1. destruct (Bool.eqb d d'); cbn [negb].
    - pose proof (known_set_black s p g _ _ _ _ (ptr_node _ Hg) Np) as W. do 2 eexists.
      split_and!; [by left|exact W| |apply W]. by eapply read_wrote.
    - pose proof (known_set_black s x p _ _ _ _ (ptr_node _ Hp) Nx) as W. do 2 eexists.
      split_and!; [by right|exact W|apply W|]. eapply read_wrote; [exact W|congruence|done]. }
  clearbody s1. destruct Hs1 as (a & na & Ha & W1 & Nx1 & Np1).
  assert (Nd : a <> g /\ a ∉ nodes l /\ a ∉ nodes r /\ a ∉ nodes t /\ a ∉ nodes u /\ a ∉ cnodes C)
    by (destruct Ha as [-> | ->]; split_and!; congruence || done).
  destruct_and! Nd. clear Nx Np. carry W1.
  pose proof (known_set_red s1 g (top C) _ _ _ _ Hgp Ng) as W2. cbv zeta.
  set (s2 := RB_SET_RED g s1) in *. clearbody s2.
  assert (Np2 := read_wrote g _ _ _ p _ W2 ltac:(congruence) Np1). assert (Nx2 := read_wrote g _ _ _ x _ W2 ltac:(congruence) Nx1).
  clear Hn Nx1 Np1. carry W2. rewrite (known_parent s2 g _ _ _ _ _ Hgp Hn).
  set (Gt := mkT d' false (n + 1) g (mkT d (Bool.eqb d d') n p (Node (negb (Bool.eqb d d')) n l x r) t) u).
  assert (HG : rep s2 (top C) Gt).
  { unfold Gt. rewrite !rep_mkT, addr_mkT. cbn [rep addr]. split_and!; by eauto with rb. }
  set (B := rotB d d' false (Bool.eqb d d') (negb (Bool.eqb d d')) l x r p t g u).
  assert (HR : rot Gt x B) by apply rotB_rot.
  assert (HGa : addr Gt = g) by by apply addr_mkT.
  assert (HGn : NoDup (nodes Gt ++ cnodes C)).
  { eapply NoDup_Permutation_proper; [|exact Hd]. unfold Gt. rewrite !mkT_nodes. cbn [nodes]. solve_perm. }
  assert (Hnn : n + 1 < 2 ^ 64).
  { assert (Hrg : NoDup (nodes Gt)) by by apply NoDup_app in HGn as (? & _).
    pose proof (rep_size _ _ _ HG Hrg) as Hs. pose proof (rbt_size _ _ Hl). pose proof (rbt_size _ _ Hu).
    unfold Gt in Hs. destruct d, d'; cbn [mkT size] in Hs; lia. }
  destruct (rotB_red_ok d d' n l x r p t g u) as [HB HBb]; [done..|]. fold B in HB, HBb.
  destruct (rotate_into_ok s2 C Gt x B) as (s3 & E3 & C3 & R3 & M3); [by rewrite HGa|done|done|done|].
  rewrite HGa in E3. rewrite E3.
  destruct (relink_ok s3 C B) as (C4 & R4 & E4); [by destruct d, d'|done|done|by eapply crep_top_ptr|].
  assert (Hns : nodes (plug C B) = nodes (plug ctx (Node false n l x r))).
  { transitivity (nodes (plug C Gt)); [by apply plug_same, rot_nodes with x|].
    unfold ctx. cbn [plug]. apply plug_same. destruct d, d'; done. }
  destruct (proj1 (plug_rep _ C B) (conj C4 R4)) as [Ro Re].
  exists (plug C B). split_and!; [done|done|by eapply plug_ok; eauto|done|].
  rewrite <- Hns. rewrite <- Hns in Hd0.
  assert (Hin : forall y, y ∈ nodes Gt ++ cnodes C -> y ∈ nodes (plug C B)).
  { intros y. rewrite plug_nodes. by rewrite (rot_nodes _ _ _ HR). }
  intros y Hy. rewrite E4, M3 by auto.
  assert (Hyg : y <> g /\ y <> a).
  { split; intros ->; apply Hy, Hin; unfold Gt; rewrite !mkT_nodes; cbn [nodes]; [set_solver|].
    destruct Ha as [-> | ->]; set_solver. }
  rewrite (proj2 (proj2 W2)) by tauto. apply W1. tauto.
Qed.

(** red uncle: parent and uncle turn black, the grandparent red unless it is
    the root; the repair goes on at the grandparent *)
Lemma double_red_recolour s C n d d' l x r p t g ul ua ur :
  let u := Node false n ul ua ur in
  let ctx := F d false n p t :: F d' true (n + 1) g u :: C in
  rbt n l -> rbt n r -> rbt n t -> rbt n ul -> rbt n ur -> blk l = true -> blk r = true -> blk t = true ->
  blk ul = true -> blk ur = true ->
  crep s ctx x -> rep s p (Node false n l x r) -> NoDup (nodes (plug ctx (Node false n l x r))) ->
  let s' := (let s := RB_SET_BLACK p s in
     let s := set_bh p (u64 (black_height (rbm s p) + 1)) s in
     let s := RB_SET_BLACK (addr u) s in
     let s := set_bh (addr u) (u64 (black_height (rbm s (addr u)) + 1)) s in
     if negb (RB_ISROOT s g) then RB_SET_RED g s else s) in
  exists t', double_red C (n + 1) t' /\ addr t' = g /\ crep s' C g /\ rep s' (top C) t' /\
    nodes (plug C t') = nodes (plug ctx (Node false n l x r)) /\
    mem_out (nodes (plug ctx (Node false n l x r))) s s'.
Proof.
  intros u ctx Hl Hr Ht Hul Hur Bl Br Bt Bul Bur Hcr Hrep Hd. cbv zeta.
  assert (Hd0 := Hd). rewrite plug_nodes in Hd. cbn [cnodes nodes ctx u] in Hd.
  disjoint_facts Hd (x :: p :: g :: ua :: nodes l ++ nodes r ++ nodes t ++ nodes ul ++ nodes ur ++ cnodes C).
  destruct Hcr as (Hg' & Hp & Np & Rt & Hgp & Hg & Ng & Ru & Hcr). cbn [top] in *.
  destruct Hrep as (_ & Hx & Nx & Rl & Rr). destruct Ru as (_ & Hua & Nu & Rul & Rur). cbn [addr u] in *.
  assert (Hin : forall y, y ∈ nodes (plug ctx (Node false n l x r)) <-> y ∈ nodes (Node false n l x r) ++ cnodes ctx)
    by (intros y; by rewrite plug_nodes).
  assert (Hb : 0 <= n /\ n + 1 < 2 ^ 64).
  { pose proof (rbt_size _ _ Hl). pose proof (rbt_size _ _ Hul).
    assert (Hdu : NoDup (nodes (Node false n ul ua ur))).
    { apply NoDup_app in Hd as (_ & _ & Hd). apply list.NoDup_cons in Hd as [_ Hd].
      apply NoDup_app in Hd as (_ & _ & Hd). apply list.NoDup_cons in Hd as [_ Hd].
      by apply NoDup_app in Hd as (Hd & _). }
    assert (Ruu : rep s g (Node false n ul ua ur)) by (cbn [rep]; by split_and!).
    pose proof (rep_size _ _ _ Ruu Hdu) as Hs. cbn [size] in Hs. lia. }
  pose proof (known_set_black s p g _ _ _ _ (ptr_node _ Hg) Np) as W1.
  set (s1 := RB_SET_BLACK p s) in *. clearbody s1. carry W1.
  rewrite (known_bh _ _ _ _ _ _ _ Hn), (u64_small (n + 1)) by lia.
  pose proof (known_set_bh s1 p g _ _ _ _ Hn (n + 1)) as W2.
  set (s2 := set_bh p (n + 1) s1) in *. clearbody s2. carry W2. rename Hn into Np.
  pose proof (known_set_black s2 ua g _ _ _ _ (ptr_node _ Hg) Nu) as W3.
  set (s3 := RB_SET_BLACK ua s2) in *. clearbody s3. carry W3.
  rewrite (known_bh _ _ _ _ _ _ _ Hn), (u64_small (n + 1)) by lia.
  pose proof (known_set_bh s3 ua g _ _ _ _ Hn (n + 1)) as W4.
  set (s4 := set_bh ua (n + 1) s3) in *. clearbody s4. carry W4.
  rewrite (known_isroot _ _ _ _ _ _ _ Hgp Ng).
  assert (Hmem : mem_out (nodes (plug ctx (Node false n l x r))) s s4).
  { eapply mem_out_trans; [|eapply mem_out_trans; [|eapply mem_out_trans; [|]]];
      (eapply wrote_mem_out; [eassumption|apply Hin; cbn; set_solver]). }
  assert (Hfin : forall cg s5, rbm s5 g = nd (top C) cg (n + 1) (if d' then p else ua) (if d' then ua else p) ->
    rb_root s5 = rb_root s4 -> (forall y, y <> g -> rbm s5 y = rbm s4 y) -> (cg = false \/ C = []) ->
    exists t', double_red C (n + 1) t' /\ addr t' = g /\ crep s5 C g /\ rep s5 (top C) t' /\
      nodes (plug C t') = nodes (plug ctx (Node false n l x r)) /\ mem_out (nodes (plug ctx (Node false n l x r))) s s5).
  { intros cg s5 N5 R5 F5 Hcg.
    set (P := mkT d true (n + 1) p (Node false n l x r) t). set (U := Node true (n + 1) ul ua ur).
    exists (mkT d' cg (n + 1) g P U).
    assert (Hfr : forall q tt, g ∉ nodes tt -> rep s4 q tt -> rep s5 q tt).
    { intros q tt Hq Hq'. eapply rep_frame; [done|]. intros y Hy. apply F5. by intros ->. }
    split_and!.
    - unfold double_red, P, U.
      assert (rbt (n + 1) (mkT d true (n + 1) p (Node false n l x r) t)) by (apply rbt_mkT_black; [by constructor|done]).
      assert (rbt (n + 1) (Node true (n + 1) ul ua ur)) by by constructor.
      destruct d'; cbn [mkT]; do 4 eexists; split_and!; eauto using blk_mkT.
    - apply addr_mkT.
    - eapply crep_frame; [done|done|]. intros y Hy. apply F5. by intros ->.
    - rewrite rep_mkT. unfold P at 1 2. rewrite !addr_mkT. split_and!; [done|done|done| |].
      + apply Hfr; [unfold P; rewrite mkT_nodes; cbn [nodes]; rewrite ?not_elem_of_app, ?not_elem_of_cons, ?not_elem_of_app, ?not_elem_of_cons; by split_and!|].
        unfold P. rewrite rep_mkT. cbn [rep addr]. split_and!; by eauto with rb.
      + apply Hfr; [cbn; rewrite not_elem_of_app, not_elem_of_cons; by split_and!|]. cbn [rep]. split_and!; by eauto with rb.
    - unfold ctx. cbn [plug]. apply plug_same. unfold P, U. destruct d, d'; done.
    - intros y Hy. rewrite F5; [by apply Hmem|]. intros ->. apply Hy, Hin. cbn. set_solver. }
  destruct (Z.eqb_spec (top C) NULL) as [Ht0|Ht0]; cbn [negb].
  - apply (Hfin true s4); [by destruct d'|done|done|]. right. destruct C as [|[? ? ? a ?] C]; [done|].
    cbn [top] in Ht0. destruct Hcr as (_ & Ha & _). by apply node_nonnull in Ha.
  - pose proof (known_set_red s4 g _ _ _ _ _ Hgp Ng) as W5. apply (Hfin false); [apply W5|apply W5|apply W5|by left].
Qed.

Lemma solve_red_ok fuel : forall C n t s,
  (length C < fuel)%nat -> ctx_ok C n -> double_red C n t ->
  crep s C (addr t) -> rep s (top C) t -> NoDup (nodes (plug C t)) ->
  rb_result (nodes (plug C t)) s (RB_SolveDoubleRed fuel (addr t) s).
Proof.
  induction fuel as [|fuel IH]; intros C n t s Hf HC Ht Hcr Hrep Hd; [lia|].
  destruct Ht as (c & l & x & r & -> & Hl & Hr & Bl & Br & Hc). cbn [addr] in *.
  cbn [RB_SolveDoubleRed]. pose proof Hrep as (Hp & Hx & Nx & Rl & Rr).
  rewrite (known_isroot _ _ _ _ _ _ _ Hp Nx), (known_parent _ _ _ _ _ _ _ Hp Nx).
  destruct C as [|[d cp kp p t] C]; cbn [top] in *.
  { rewrite Z.eqb_refl. by apply double_red_root. }
  destruct Hc as [-> | Hc]; [|done]. pose proof Hcr as (Hgp & Hp' & Np & Rt & Hcr').
  rewrite (proj2 (Z.eqb_neq p NULL)) by by apply node_nonnull.
  rewrite (known_black _ _ _ _ _ _ _ Hgp Np) by by apply node_nonnull.
  destruct cp; cbn [ctx_ok] in HC.
  { destruct HC as (Ht & -> & HC). destruct (proj1 (plug_rep s (F d true (n + 1) p t :: C) (Node false n l x r)) (conj Hcr Hrep)) as [Ro Re].
    exists (plug (F d true (n + 1) p t :: C) (Node false n l x r)).
    split_and!; [done|done| |done|by intros y _].
    apply (plug_ok _ _ n); [by split_and!|by constructor|by right]. }
  destruct HC as (Ht & -> & Bt & Htop & HC). destruct C as [|[d' cg kg g u] C]; [done|]. cbn [top_black] in Htop.
  subst cg. destruct HC as (Hu & -> & HC). cbn [top] in *. destruct Hcr' as (Hgg & Hg & Ng & Ru & Hcr').
  rewrite (known_parent _ _ _ _ _ _ _ Hgp Np).
  assert (Hd0 := Hd). rewrite plug_nodes in Hd0. cbn [cnodes nodes] in Hd0.
  assert (Dp : p ∉ nodes u).
  { disjoint_facts Hd0 (x :: p :: g :: nodes l ++ nodes r ++ nodes t ++ nodes u ++ cnodes C). done. }
  assert (Du : RB_UNCLE s x = addr u).
  { by apply (family_uncle s x p g (top C) d d' false false true n n (n + 1) l r t u). }
  rewrite Du, (rep_isblack _ _ _ Ru). destruct (blk u) eqn:Bu.
  { by apply double_red_rotate. }
  destruct Hu as [|n ul ua ur Hul Hur Bul Bur|]; [done| |done].
  destruct (double_red_recolour s C n d d' l x r p t g ul ua ur) as (t' & Dt & At & Ct & Rt' & Nt & Mt); [done..|].
  cbn [addr] in *. cbv zeta. match type of Mt with mem_out _ _ ?s' => set (s1 := s') in * end. clearbody s1.
  assert (HI : rb_result (nodes (plug C t')) s1 (RB_SolveDoubleRed fuel (addr t') s1)).
  { apply (IH C (n + 1)); rewrite ?At, ?Nt; [cbn [length] in Hf; lia|done..]. }
  rewrite At, Nt in HI. destruct HI as (T' & HTr & HTp & HTb & HTn & HTm).
  exists T'. split_and!; [done..|]. by eapply mem_out_trans.
Qed.

(** ** Linking a new leaf *)

(** where an insertion point lies: the hole at the end of a context *)
Lemma link_ok s C node n :
  crep s C NULL -> ctx_ok C 0 -> node_addr node -> node ∉ cnodes C -> NoDup (cnodes C) ->
  RB_COLOR s node = RB_RED -> black_height (rbm s node) = n ->
  let l := match C with [] => LRoot | F d _ _ a _ :: _ => if d then LLeft a else LRight a end in
  let s' := RB_Link_Node node (top C) l s in
  crep s' C node /\ rep s' (top C) (Node false n Leaf node Leaf) /\ mem_out (node :: cnodes C) s s'.
Proof.
  intros Hcr HC Hn Hni Hd Hred Hbh l s'. pose proof (crep_top_ptr _ _ _ Hcr) as Htp.
  unfold RB_Link_Node in s'. set (s1 := RB_SET_PARENT node (top C) s) in *.
  assert (W1 : wrote node (nd (top C) false n (lc s node) (rc s node)) s s1).
  { subst s1. unfold RB_SET_PARENT, set_pc. rewrite Hred, Hbh.
    change RB_RED with (Z.b2z false). rewrite pack_set_parent by done. apply wrote_upd. }
  pose proof (known_set_right _ _ _ _ _ _ _ (proj1 (proj2 W1)) NULL) as W2. set (s2 := set_right node NULL s1) in *.
  pose proof (known_set_left _ _ _ _ _ _ _ (proj1 (proj2 W2)) NULL) as W3. set (s3 := set_left node NULL s2) in *.
  pose proof (wrote_twice _ _ _ _ _ _ (wrote_twice _ _ _ _ _ _ W1 W2) W3) as W. clearbody s3. clear W1 W2 W3 s2 s1.
  carry W. destruct C as [|[d c k a t] C]; cbn [top l link_set] in *.
  { subst s' l. cbn. split_and!; [done|by left|done|done|done|done|].
    intros y Hy. cbn. apply W. set_solver. }
  destruct Hcr as (Hp & Ha & Na & Rt & Hcr). cbn [cnodes] in Hd, Hni.
  apply list.NoDup_cons in Hd as [Hat Hd]. rewrite not_elem_of_app in Hat. rewrite not_elem_of_cons in Hni.
  assert (W4 : wrote a (nd (top C) c k (if d then node else addr t) (if d then addr t else node)) s3 s').
  { subst s' l. destruct d; cbn [link_set]; [by eapply known_set_left|by eapply known_set_right]. }
  clearbody s'. destruct_and! Hat. destruct_and! Hni. carry W4.
  split_and!.
  - cbn [crep]. by split_and!.
  - cbn [rep addr]. by split_and!.
  - intros y Hy. rewrite (proj2 (proj2 W4)) by set_solver. apply W. set_solver.
Qed.

(** ** Depth *)

Fixpoint depth (t : tree) : nat := match t with Leaf => 0 | Node _ _ l _ r => S (Nat.max (depth l) (depth r)) end.

Lemma rbt_min_size n t : rbt n t -> 2 ^ n <= Z.of_nat (size t) + 1.
Proof.
  induction 1 as [|n l a r Hl IHl Hr IHr Bl Br|n l a r Hl IHl Hr IHr]; cbn [size]; [done|lia|].
  pose proof (rbt_size _ _ Hl). rewrite Z.pow_add_r by lia. lia.
Qed.

Lemma rbt_depth n t : rbt n t -> Z.of_nat (depth t) <= 2 * n + (if blk t then 0 else 1).
Proof.
  induction 1 as [|n l a r Hl IHl Hr IHr Bl Br|n l a r Hl IHl Hr IHr]; cbn [depth blk]; [done| |].
  - rewrite Bl, Br in *. lia.
  - pose proof (rbt_size _ _ Hl). destruct (blk l), (blk r); lia.
Qed.

(** the longest path has at most [2 log2 (n + 1)] nodes *)
Definition log_fuel (n : nat) : nat := Z.to_nat (2 * Z.log2 (Z.of_nat n + 1)).

Lemma rb_depth t : is_rb t -> (depth t <= log_fuel (length (nodes t)))%nat.
Proof.
  intros (Hb & n & Hn). pose proof (rbt_depth _ _ Hn) as Hd. rewrite Hb in Hd.
  pose proof (rbt_min_size _ _ Hn) as Hs. pose proof (rbt_size _ _ Hn). rewrite <- size_nodes.
  apply Z.log2_le_mono in Hs. rewrite Z.log2_pow2 in Hs by lia. unfold log_fuel. lia.
Qed.

Lemma log_fuel_mono m n : (m <= n)%nat -> (log_fuel m <= log_fuel n)%nat.
Proof. intros. unfold log_fuel. apply Z2Nat.inj_le; [pose proof (Z.log2_nonneg (Z.of_nat m + 1)); lia|pose proof (Z.log2_nonneg (Z.of_nat n + 1)); lia|]. pose proof (Z.log2_le_mono (Z.of_nat m + 1) (Z.of_nat n + 1)). lia. Qed.

(** ** Searching *)

Definition link_for (C : list frame) : rb_link :=
  match C with [] => LRoot | F d _ _ a _ :: _ => if d then LLeft a else LRight a end.

Lemma link_get_ok s C q : crep s C q -> link_get (link_for C) s = q.
Proof.
  destruct C as [|[d c k a t] C]; [done|]. intros (_ & _ & Hn & _). unfold link_for.
  destruct d; cbn; unfold lc, rc; by rewrite Hn.
Qed.

Section Index.
Variable page_addr : Z -> Z.

Definition lt_key (a b : Z) : Prop := page_addr a < page_addr b.

(** the tree in memory holds the nodes [ns], in the order of their keys *)
Definition page_index (s : rb_tree) (ns : list Z) : Prop :=
  (exists t, rb_root s = addr t /\ rep s NULL t /\ is_rb t /\ nodes t = ns) /\ StronglySorted lt_key ns.

Lemma sorted_app (l1 l2 : list Z) :
  StronglySorted lt_key (l1 ++ l2) <->
  StronglySorted lt_key l1 /\ StronglySorted lt_key l2 /\ forall x y, x ∈ l1 -> y ∈ l2 -> lt_key x y.
Proof.
  induction l1 as [|x l1 IH]; cbn.
  { split; [|tauto]. intros H. split_and!; [constructor|done|]. intros ? ? Hx. by apply elem_of_nil in Hx. }
  split.
  - intros H. inversion H as [|? ? H1 H2]; subst. apply IH in H1 as (S1 & S2 & Hl).
    rewrite Forall_app in H2. destruct H2 as [F1 F2]. rewrite Forall_forall in F2.
    split_and!; [by constructor|done|]. intros ? ? [->|Hx]%elem_of_cons Hy; [by apply F2|by apply Hl].
  - intros (S1 & S2 & Hl). inversion S1 as [|? ? H1 H2]; subst. constructor.
    + apply IH. split_and!; [done|done|]. intros ? ? Hx Hy. apply Hl; [by right|done].
    + rewrite Forall_app. split; [done|]. rewrite Forall_forall. intros y Hy. apply Hl; [by left|done].
Qed.

Lemma sorted_cons x (l : list Z) :
  StronglySorted lt_key (x :: l) <-> StronglySorted lt_key l /\ forall y, y ∈ l -> lt_key x y.
Proof.
  split.
  - intros H. inversion H; subst. by rewrite Forall_forall in *.
  - intros [H1 H2]. constructor; [done|]. by rewrite Forall_forall.
Qed.

Lemma sorted_mid (l1 l2 : list Z) x :
  StronglySorted lt_key (l1 ++ x :: l2) <->
  StronglySorted lt_key (l1 ++ l2) /\ (forall y, y ∈ l1 -> lt_key y x) /\ (forall y, y ∈ l2 -> lt_key x y).
Proof.
  rewrite !sorted_app, sorted_cons. split.
  - intros (S1 & (S2 & H2) & H3). split_and!; [done|done| | |done].
    + intros y z Hy Hz. apply H3; [done|by right].
    + intros y Hy. apply H3; [done|by left].
  - intros ((S1 & S2 & H) & H1 & H2). split_and!; [done|done|done|].
    intros y z Hy [->|Hz]%elem_of_cons; [by apply H1|by apply H].
Qed.

Lemma sorted_NoDup (l : list Z) : StronglySorted lt_key l -> NoDup l.
Proof.
  induction 1 as [|x l H IH Hf]; [constructor|]. apply list.NoDup_cons. split; [|done].
  intros Hx. rewrite Forall_forall in Hf. specialize (Hf x Hx). unfold lt_key in Hf. lia.
Qed.

Lemma search_ok fuel s key : forall t par,
  (depth t < fuel)%nat -> rep s par t -> StronglySorted lt_key (nodes t) ->
  let r := search_from page_addr fuel s (addr t) key in
  (r = NULL /\ forall a, a ∈ nodes t -> page_addr a <> key) \/ (r ∈ nodes t /\ page_addr r = key /\ r <> NULL).
Proof.
  induction fuel as [|fuel IH]; intros t par Hf HR HS; [lia|].
  destruct t as [|c k l a r]; cbn [search_from addr nodes depth] in *.
  { left. split; [done|]. intros b Hb. by apply elem_of_nil in Hb. }
  destruct HR as (_ & Ha & Hn & Hl & Hr). apply sorted_mid in HS as (HS & Hlt & Hgt).
  apply sorted_app in HS as (HSl & HSr & _).
  rewrite (proj2 (Z.eqb_neq a NULL)) by by apply node_nonnull.
  rewrite (known_lc _ _ _ _ _ _ _ Hn), (known_rc _ _ _ _ _ _ _ Hn).
  unfold lt_key in *. case_bool; [|case_bool].
  - destruct (IH l a) as [[Leaf Hno]|(X1 & X2 & X3)]; [lia|done|done| |]; [left|right].
    + split; [done|]. intros x [Hx|[->|Hx]%elem_of_cons]%elem_of_app; [by apply Hno|lia|]. specialize (Hgt x Hx). lia.
    + split_and!; [|done|done]. apply elem_of_app. by left.
  - destruct (IH r a) as [[Leaf Hno]|(X1 & X2 & X3)]; [lia|done|done| |]; [left|right].
    + split; [done|]. intros x [Hx|[->|Hx]%elem_of_cons]%elem_of_app; [|lia|by apply Hno]. specialize (Hlt x Hx). lia.
    + split_and!; [|done|done]. apply elem_of_app. right. by right.
  - right. split_and!; [set_solver|lia|by apply node_nonnull].
Qed.

(** where the descent for a new key ends *)
Lemma descend_ok fuel s key : forall t C,
  (depth t < fuel)%nat -> crep s C (addr t) -> rep s (top C) t -> StronglySorted lt_key (nodes t) ->
  let r := insert_descend page_addr fuel key (link_for C) (top C) s in
  (r = None /\ exists a, a ∈ nodes t /\ page_addr a = key) \/
  ((forall a, a ∈ nodes t -> page_addr a <> key) /\
   exists D L R, r = Some (link_for (D ++ C), top (D ++ C)) /\ crep s (D ++ C) NULL /\ plug D Leaf = t /\
     (length D <= depth t)%nat /\ (forall u, nodes (plug D u) = L ++ nodes u ++ R) /\
     (forall a, a ∈ L -> page_addr a < key) /\ (forall a, a ∈ R -> key < page_addr a)).
Proof.
  induction fuel as [|fuel IH]; intros t C Hf HC HR HS; [lia|].
  cbn [insert_descend]. rewrite (link_get_ok _ _ _ HC).
  destruct t as [|c k l a r]; cbn [addr nodes depth] in *.
  { right. split; [intros b Hb; by apply elem_of_nil in Hb|]. exists [], [], []. rewrite Z.eqb_refl.
    split_and!; [done|done|done|cbn; lia|intros u; by rewrite app_nil_r|intros b Hb; by apply elem_of_nil in Hb..]. }
  destruct HR as (Hp & Ha & Hn & Hl & Hr). apply sorted_mid in HS as (HS & Hlt & Hgt).
  apply sorted_app in HS as (HSl & HSr & _). unfold lt_key in *.
  rewrite (proj2 (Z.eqb_neq a NULL)) by by apply node_nonnull.
  case_bool; [|case_bool].
  - destruct (IH l (F true c k a r :: C)) as [[Leaf (x & Hx & Ex)]|(Hno & D & L & R & Leaf & Hcr & Hpl & Hlen & Hns & HL & HR)];
      [lia|by split_and!|done|done| |]; cbn [link_for top] in Leaf.
    + left. rewrite Leaf. split; [done|]. exists x. split; [set_solver|done].
    + right. split.
      { intros x [Hx|[->|Hx]%elem_of_cons]%elem_of_app; [by apply Hno|lia|]. specialize (Hgt x Hx). lia. }
      exists (D ++ [F true c k a r]), L, (R ++ a :: nodes r). rewrite <- app_assoc. split_and!; [done|done| | | |done|].
      * rewrite plug_app, Hpl. done.
      * rewrite length_app. cbn [length]. lia.
      * intros u. rewrite plug_app. cbn. rewrite Hns, <- !app_assoc. done.
      * intros x [Hx|[->|Hx]%elem_of_cons]%elem_of_app; [by apply HR|lia|]. specialize (Hgt x Hx). lia.
  - destruct (IH r (F false c k a l :: C)) as [[Leaf (x & Hx & Ex)]|(Hno & D & L & R & Leaf & Hcr & Hpl & Hlen & Hns & HL & HR)];
      [lia|by split_and!|done|done| |]; cbn [link_for top] in Leaf.
    + left. rewrite Leaf. split; [done|]. exists x. split; [set_solver|done].
    + right. split.
      { intros x [Hx|[->|Hx]%elem_of_cons]%elem_of_app; [|lia|by apply Hno]. specialize (Hlt x Hx). lia. }
      exists (D ++ [F false c k a l]), (nodes l ++ a :: L), R. rewrite <- app_assoc. split_and!; [done|done| | | | |done].
      * rewrite plug_app, Hpl. done.
      * rewrite length_app. cbn [length]. lia.
      * intros u. rewrite plug_app. cbn. by rewrite Hns, <- !app_assoc.
      * intros x [Hx|[->|Hx]%elem_of_cons]%elem_of_app; [|lia|by apply HL]. specialize (Hlt x Hx). lia.
  - left. split; [done|]. exists a. split; [set_solver|lia].
Qed.
End Index.

Lemma mkT_red_inv n d k a t u : rbt n (mkT d false k a t u) -> rbt n t /\ rbt n u /\ blk t = true /\ blk u = true /\ k = n.
Proof. destruct d; cbn; intros H; inversion H; subst; by split_and!. Qed.
Lemma mkT_black_inv m d k a t u : rbt m (mkT d true k a t u) -> exists n, rbt n t /\ rbt n u /\ k = n + 1 /\ m = n + 1.
Proof. destruct d; cbn; intros H; inversion H; subst; by eexists. Qed.

Lemma plug_ctx C t : is_rb (plug C t) -> exists n, rbt n t /\ ctx_ok C n /\ (blk t = true \/ top_black C).
Proof.
  revert t. induction C as [|[d c k a u] C IH]; intros t H; cbn [plug] in H.
  { destruct H as [Hb [n Hn]]. exists n. split_and!; [done|done|by left]. }
  destruct (IH _ H) as (m & Hm & HC & Hb). rewrite blk_mkT in Hb. destruct c.
  - apply mkT_black_inv in Hm as (n & Ht & Hu & -> & ->). exists n. split_and!; [done|by split_and!|by right].
  - apply mkT_red_inv in Hm as (Ht & Hu & Bt & Bu & ->). exists m. destruct Hb as [|Hb]; [done|].
    split_and!; [done|by split_and!|by left].
Qed.

Section IndexSpec.
Variable page_addr : Z -> Z.
Local Notation page_index := (page_index page_addr).

Lemma insert_effect s ns node fuel :
  page_index s ns -> node_addr node -> node ∉ ns -> RB_COLOR s node = RB_RED -> black_height (rbm s node) = 0 ->
  (log_fuel (length ns) < fuel)%nat ->
  let s' := page_chunk_rb_tree_insert page_addr fuel node s in
  ((exists a, a ∈ ns /\ page_addr a = page_addr node) /\ s' = s) \/
  ((forall a, a ∈ ns -> page_addr a <> page_addr node) /\
   exists L R, ns = L ++ R /\ page_index s' (L ++ node :: R) /\ mem_out (node :: ns) s s').
Proof.
  intros [(t & Hr & HR & Hrb & <-) HS] Hn Hni Hred Hbh Hf s'. subst s'. unfold page_chunk_rb_tree_insert.
  pose proof (rb_depth _ Hrb) as Hdep.
  destruct (descend_ok page_addr fuel s (page_addr node) t []) as [[He Hex]|(Hno & D & L & R & He & Hcr & Hpl & Hlen & Hns & HL & HR')];
    [lia|done|done|done| |]; cbn [link_for top] in He; rewrite He.
  { left. split; [exact Hex|done]. }
  right. split; [done|]. rewrite app_nil_r in *. exists L, R.
  assert (Ens : nodes t = L ++ R) by (rewrite <- Hpl; apply (Hns Leaf)). split; [done|].
  destruct (plug_ctx D Leaf) as (n & Hn0 & HC & _); [by rewrite Hpl|]. inversion Hn0; subst n.
  assert (Hcn : forall x, x ∈ cnodes D <-> x ∈ nodes t).
  { intros x. by rewrite <- Hpl, plug_nodes. }
  pose proof (sorted_NoDup _ _ HS) as Hnd.
  assert (Hcd : NoDup (cnodes D)).
  { eapply NoDup_Permutation_proper; [|exact Hnd]. by rewrite <- Hpl, plug_nodes. }
  destruct (link_ok s D node 0) as (C1 & R1 & M1); try done; [by rewrite Hcn|].
  fold (link_for D) in C1, R1, M1. set (s1 := RB_Link_Node node (top D) (link_for D) s) in *.
  assert (Hnn : nodes (plug D (Node false 0 Leaf node Leaf)) = L ++ node :: R) by apply (Hns (Node false 0 Leaf node Leaf)).
  assert (HS' : StronglySorted (lt_key page_addr) (L ++ node :: R)).
  { apply sorted_mid. split_and!; [by rewrite <- Ens|exact HL|exact HR']. }
  destruct (solve_red_ok fuel D 0 (Node false 0 Leaf node Leaf) s1) as (t' & Ro & Re & Rb & Nt & Mt);
    [lia|done|by repeat eexists; try by left|done|done|rewrite Hnn; by eapply sorted_NoDup|].
  cbn [addr] in *. rewrite Hnn in *. split.
  - split; [|done]. exists t'. by split_and!.
  - eapply mem_out_trans; [eapply mem_out_incl; [exact M1|]|eapply mem_out_incl; [exact Mt|]].
    + intros x [->|Hx]%elem_of_cons; [by left|]. right. by apply Hcn.
    + rewrite Ens. intros x. rewrite !elem_of_app, !elem_of_cons, elem_of_app. tauto.
Qed.

(** an index of 64-bit addresses has depth below 256 *)
Lemma page_index_small s ns : page_index s ns -> (log_fuel (length ns) < 256)%nat.
Proof.
  intros [(t & _ & Hrep & _ & Hn) Hs]. pose proof (sorted_NoDup page_addr ns Hs) as Hnd. rewrite <- Hn in Hnd.
  pose proof (rep_size _ _ _ Hrep Hnd) as Hsz. rewrite size_nodes, Hn in Hsz. unfold log_fuel.
  assert (Z.log2 (Z.of_nat (length ns) + 1) < 65) by (apply Z.log2_lt_pow2; lia). lia.
Qed.
End IndexSpec.
