(* ===== verification/RbRemove.v ===== *)
(** * Red-black trees: removal, and the properties of the index

    [rb_removeAt] and the repair after removal ([RB_SolveDoubleBlack]), then the
    properties of the page-chunk index with their witnesses. *)
From Stdlib Require Import Sorted.
From S2P Require Import Prelude RbTree RbInsert.

(** ** Repair after removal *)

Lemma wrote_same_out l a n s s' : wrote a n s s' -> a ∈ l -> same_out l s s'.
Proof. intros (R & _ & W) Ha. split; [done|]. intros x Hx. apply W. by intros ->. Qed.
Lemma same_out_seq l s1 s2 s3 : same_out l s1 s2 -> same_out l s2 s3 -> same_out l s1 s3.
Proof. intros H1 H2. eapply same_out_incl; [by eapply same_out_trans|]. set_solver. Qed.

Lemma addr_notin t a : a <> NULL -> a ∉ nodes t -> addr t <> a.
Proof. intros Hn Hi Ha. apply Hi. rewrite <- Ha. apply addr_in. congruence. Qed.

(** make a child black and refresh its height *)
Lemma blacken_ok s par c k l a r n :
  rep s par (Node c k l a r) -> NoDup (nodes (Node c k l a r)) -> rbt n l -> rbt n r -> n + 1 < 2 ^ 64 ->
  let s' := update_height a (RB_SET_BLACK a s) in
  wrote a (nd par true (n + 1) (addr l) (addr r)) s s'.
Proof.
  intros (Hp & Ha & Hn & Rl & Rr) Hd Hl Hr Hb s'. cbn [nodes] in Hd.
  disjoint_facts Hd (a :: nodes l ++ nodes r). pose proof (rbt_size _ _ Hl).
  pose proof (known_set_black s a par _ _ _ _ Hp Hn) as W. set (s1 := RB_SET_BLACK a s) in *. clearbody s1.
  pose proof W as W0. carry W.
  eapply wrote_twice; [exact W0|]. rewrite <- (hup_black n) by lia.
  eapply update_height_ok; [exact Hn|by apply node_nonnull|done|..].
  - apply addr_notin; [by apply node_nonnull|done].
  - apply addr_notin; [by apply node_nonnull|done].
  - rewrite (rep_hight _ _ _ Rl). by apply rbt_hgt.
  - rewrite (rep_hight _ _ _ Rr). by apply rbt_hgt.
Qed.

(** the recolouring after the rotation of the red-nephew case *)
Definition repaint (oldColor : Z) (b : Z) (s : rb_tree) : rb_tree :=
  let s := if RB_HASLCHILD s b then RB_SET_BLACK (lc s b) s else s in
  let s := update_height (lc s b) s in
  let s := if RB_HASRCHILD s b then RB_SET_BLACK (rc s b) s else s in
  let s := update_height (rc s b) s in
  let s := if negb (oldColor =? 0) then RB_SET_BLACK b s else RB_SET_RED b s in
  update_height b s.

Lemma repaint_ok s par cb kb ca ka t0 a t1 b cc kc t2 c t3 n old :
  let B := Node cb kb (Node ca ka t0 a t1) b (Node cc kc t2 c t3) in
  rep s par B -> NoDup (nodes B) -> rbt n t0 -> rbt n t1 -> rbt n t2 -> rbt n t3 -> n + 2 < 2 ^ 64 ->
  let s' := repaint (Z.b2z old) b s in
  rep s' par (Node old (if old then n + 2 else n + 1) (Node true (n + 1) t0 a t1) b (Node true (n + 1) t2 c t3)) /\
  same_out [a; b; c] s s'.
Proof.
  intros B HB Hd H0 H1 H2 H3 Hn s'. pose proof (rbt_size _ _ H0).
  destruct HB as (Hp & Hb & Nb & Ra & Rc).
  assert (Da : NoDup (nodes (Node ca ka t0 a t1))) by by apply NoDup_app in Hd as (? & _).
  assert (Dc : NoDup (nodes (Node cc kc t2 c t3))).
  { apply NoDup_app in Hd as (_ & _ & Hd). by apply list.NoDup_cons in Hd as [_ ?]. }
  cbn [nodes B] in Hd.
  disjoint_facts Hd (a :: b :: c :: nodes t0 ++ nodes t1 ++ nodes t2 ++ nodes t3).
  pose proof Ra as (_ & Ha & Na & R0 & R1). pose proof Rc as (_ & Hc & Nc & R2 & R3).
  subst s'. unfold repaint, RB_HASLCHILD, RB_HASRCHILD. cbv zeta. cbn [addr] in *.
  rewrite (known_lc _ _ _ _ _ _ _ Nb), (proj2 (Z.eqb_neq a NULL)) by by apply node_nonnull. cbn [negb].
  assert (Lb : lc (RB_SET_BLACK a s) b = a) by (unfold RB_SET_BLACK; rewrite lc_set_pc; by eapply known_lc).
  rewrite Lb. pose proof (blacken_ok s b ca ka t0 a t1 n Ra Da H0 H1 ltac:(lia)) as W1. cbv zeta in W1.
  set (s1 := update_height a _) in *. clearbody s1. clear Lb Ra. carry W1. rename Hn0 into Na.
  assert (Rc1 : rep s1 b (Node cc kc t2 c t3)) by (cbn [rep]; by split_and!; auto with rb).
  rewrite (known_rc _ _ _ _ _ _ _ Nb), (proj2 (Z.eqb_neq c NULL)) by by apply node_nonnull. cbn [negb].
  assert (Lb : rc (RB_SET_BLACK c s1) b = c) by (unfold RB_SET_BLACK; rewrite rc_set_pc; by eapply known_rc).
  rewrite Lb. pose proof (blacken_ok s1 b cc kc t2 c t3 n Rc1 Dc H2 H3 ltac:(lia)) as W2. cbv zeta in W2.
  set (s2 := update_height c _) in *. clearbody s2. clear Lb Rc Rc1. carry W2. rename Hn0 into Nc.
  set (s3 := if negb (Z.b2z old =? 0) then RB_SET_BLACK b s2 else RB_SET_RED b s2).
  assert (W3 : wrote b (nd par old kb a c) s2 s3).
  { subst s3. destruct old; cbn; [by eapply known_set_black|by eapply known_set_red]. }
  clearbody s3. carry W3.
  assert (W4 : wrote b (nd par old (if old then n + 2 else n + 1) a c) s3 (update_height b s3)).
  { replace (if old then n + 2 else n + 1) with (hup old (n + 1) (n + 1)).
    2:{ destruct old; [rewrite hup_black by lia; lia|apply hup_red]. }
    eapply update_height_ok; [exact Hn0|by apply node_nonnull|done|done|done| |].
    - unfold RB_HIGHT. rewrite (proj2 (Z.eqb_neq a NULL)) by (by apply node_nonnull). by rewrite Na.
    - unfold RB_HIGHT. rewrite (proj2 (Z.eqb_neq c NULL)) by (by apply node_nonnull). by rewrite Nc. }
  split.
  - carry W4. cbn [rep addr]. split_and!; by auto with rb.
  - eapply same_out_seq, same_out_seq, same_out_seq; [eapply wrote_same_out; [exact W1|]|eapply wrote_same_out; [exact W2|]|eapply wrote_same_out; [exact W3|]|eapply wrote_same_out; [exact W4|]]; set_solver.
Qed.

Lemma rotB_parts d d' cg cp cv l v r p t g u n :
  rbt n l -> rbt n r -> rbt n t -> rbt n u ->
  exists cb kb ca ka t0 a t1 b cc kc t2 c t3,
    rotB d d' cg cp cv l v r p t g u = Node cb kb (Node ca ka t0 a t1) b (Node cc kc t2 c t3) /\
    rbt n t0 /\ rbt n t1 /\ rbt n t2 /\ rbt n t3.
Proof. intros. destruct d, d'; do 13 eexists; split_and!; try reflexivity; done. Qed.

(** black sibling [x] with a red child [v]: rotate and repaint; the repair ends *)
Lemma double_black_rotate s C n d cp kp p x dv a v b w t :
  let sib := mkT dv true (n + 1) x (Node false n a v b) w in
  let ctx := F d cp kp p sib :: C in
  ctx_ok ctx (n + 1) -> rbt n a -> rbt n b -> rbt n w -> rbt n t ->
  crep s ctx (addr t) -> rep s p t -> NoDup (nodes (plug ctx t)) ->
  rb_result (nodes (plug ctx t)) s
    (let '(s, b) := rotate_into p (top C) v s in repaint (Z.b2z cp) b s).
Proof.
  intros sib ctx HC Ha Hb Hw Ht Hcr Hrep Hd. assert (Hd0 := Hd). rewrite plug_nodes in Hd.
  destruct Hcr as (Hgp & Hp & Np & Rs & Hcr).
  set (G := mkT (negb d) cp kp p sib t).
  assert (HG : rep s (top C) G).
  { unfold G. rewrite rep_mkT. split_and!; [done|done| |done|done]. rewrite Np. by destruct d. }
  assert (HGa : addr G = p) by apply addr_mkT.
  assert (HGn : nodes (plug C G) = nodes (plug ctx t)) by (cbn [plug ctx]; apply plug_same; by destruct d).
  assert (HGd : NoDup (nodes G ++ cnodes C)) by by rewrite <- plug_nodes, HGn.
  set (B := rotB dv (negb d) cp true false a v b x w p t).
  assert (HR : rot G v B) by apply rotB_rot.
  destruct (rotate_into_ok s C G v B) as (s1 & E1 & C1 & R1 & M1); [by rewrite HGa|done|done|done|].
  rewrite HGa in E1. rewrite E1.
  destruct (rotB_parts dv (negb d) cp true false a v b x w p t n) as
    (cb & kb & ca & ka & t0 & a0 & t1 & b0 & cc & kc & t2 & c0 & t3 & EB & H0 & H1 & H2 & H3); [done..|].
  fold B in EB. assert (HBn : NoDup (nodes B)) by (rewrite (rot_nodes _ _ _ HR); by apply NoDup_app in HGd as (? & _)).
  assert (Hn : n + 2 < 2 ^ 64 /\ 0 <= n).
  { pose proof (rep_size _ _ _ R1 HBn) as Hs. pose proof (rbt_size _ _ H0). pose proof (rbt_size _ _ H1).
    rewrite EB in Hs. cbn [size] in Hs. lia. }
  rewrite EB in R1, HBn. destruct (repaint_ok s1 _ _ _ _ _ _ _ _ _ _ _ _ _ _ n cp R1 HBn H0 H1 H2 H3 (proj1 Hn)) as [R2 S2].
  rewrite EB in C1 |- *. cbn [addr] in *. set (s2 := repaint _ b0 s1) in *. clearbody s2.
  set (B2 := Node cp _ _ _ _) in R2.
  assert (HBN : nodes B2 = nodes B) by (rewrite EB; done).
  assert (C2 : crep s2 C b0).
  { eapply crep_same_out; [exact C1|exact S2|]. intros y Hy Hy'. apply NoDup_app in HGd as (_ & Hdis & _).
    apply (Hdis y); [|done]. rewrite <- (rot_nodes _ _ _ HR), EB. cbn [nodes]. set_solver. }
  assert (Hfin : nodes (plug C B2) = nodes (plug ctx t)).
  { rewrite <- HGn. apply plug_same. rewrite HBN. by apply rot_nodes with v. }
  destruct (proj1 (plug_rep s2 C B2) (conj C2 R2)) as [Ro Re].
  exists (plug C B2). split_and!; [done|done| |done|].
  - assert (rbt (n + 1) (Node true (n + 1) t0 a0 t1)) by by constructor. assert (rbt (n + 1) (Node true (n + 1) t2 c0 t3)) by by constructor.
    cbn [ctx ctx_ok] in HC. destruct cp.
    + destruct HC as (_ & -> & HC). apply (plug_ok _ _ (n + 2)); [by replace (n + 2) with (n + 1 + 1) by lia| |by left].
      subst B2. replace (n + 2) with (n + 1 + 1) by lia. by constructor.
    + destruct HC as (_ & -> & _ & Htop & HC). apply (plug_ok _ _ (n + 1)); [done| |by right].
      by constructor.
  - rewrite <- HGn. assert (Hin : forall y, y ∈ nodes (plug C G) <-> y ∈ nodes G ++ cnodes C) by (intros y; by rewrite plug_nodes).
    intros y Hy. rewrite Hin in Hy. rewrite (proj2 S2); [by apply M1|]. intros Hy'. apply Hy. apply elem_of_app. left.
    rewrite <- (rot_nodes _ _ _ HR), EB. cbn [nodes]. set_solver.
Qed.

(** red sibling: rotate it above the parent, which becomes red; the repair
    goes on one level down *)
Lemma double_black_lower s C n d kp p x a v b w t :
  let sib := mkT (negb d) false (n + 1) x (Node true (n + 1) a v b) w in
  let ctx := F d true kp p sib :: C in
  ctx_ok ctx (n + 1) -> rbt n a -> rbt n b -> rbt (n + 1) w -> rbt n t -> blk w = true ->
  crep s ctx (addr t) -> rep s p t -> NoDup (nodes (plug ctx t)) ->
  let s' := (let s := RB_SET_BLACK x s in let s := RB_SET_RED p s in
             let t := if RB_ISLCHILD s x then lc s x else rc s x in
             fst (rotate_into p (RB_PARENT s p) t s)) in
  exists C', top C' = p /\ ctx_ok C' (n + 1) /\ (match C' with F _ c _ _ _ :: _ => c = false | [] => False end) /\
    crep s' C' (addr t) /\ rep s' p t /\ nodes (plug C' t) = nodes (plug ctx t) /\
    mem_out (nodes (plug ctx t)) s s'.
Proof.
  intros sib ctx HC Ha Hb Hw Ht Bw Hcr Hrep Hd. assert (Hd0 := Hd). rewrite plug_nodes in Hd. cbn [cnodes ctx] in Hd.
  destruct Hcr as (Hgp & Hp & Np & Rs & Hcr). unfold sib in Rs, Np, Hd. rewrite rep_mkT in Rs. rewrite mkT_nodes in Hd.
  cbn [nodes] in Hd. rewrite addr_mkT in Np.
  disjoint_facts Hd (p :: x :: v :: nodes t ++ nodes a ++ nodes b ++ nodes w ++ cnodes C).
  destruct Rs as (Hpp & Hx & Nx & (_ & Hv & Nv & Ra & Rb) & Rw). cbn [addr] in *.
  cbv zeta. pose proof (known_set_black s x p _ _ _ _ Hpp Nx) as W1. set (s1 := RB_SET_BLACK x s) in *. clearbody s1.
  carry W1. pose proof (known_set_red s1 p _ _ _ _ _ Hgp Np) as W2. set (s2 := RB_SET_RED p s1) in *. clearbody s2.
  rename Hn into Nx. carry W2. rename Hn into Np.
  rewrite (known_parent _ _ _ _ _ _ _ Hgp Np).
  assert (Px : RB_PARENT s2 x = p) by by eapply known_parent.
  rewrite (left_test s2 p _ _ _ _ _ Hp Hgp Np x Px).
  assert (Exl : (x =? if d then addr t else x) = negb d).
  { destruct d; cbn; [by apply eqb_addr_other|apply Z.eqb_refl]. }
  rewrite Exl, (known_lc _ _ _ _ _ _ _ Nx), (known_rc _ _ _ _ _ _ _ Nx).
  assert (Evv : (if negb d then (if negb d then v else addr w) else (if negb d then addr w else v)) = v) by by destruct d.
  rewrite Evv.
  set (G := mkT (negb d) false kp p (mkT (negb d) true (n + 1) x (Node true (n + 1) a v b) w) t).
  assert (HG : rep s2 (top C) G).
  { unfold G. rewrite !rep_mkT, addr_mkT. cbn [rep addr]. split_and!; try done; [|by right]. rewrite Np. by destruct d. }
  assert (HGa : addr G = p) by apply addr_mkT.
  assert (HGn : nodes (plug C G) = nodes (plug ctx t)).
  { cbn [plug ctx]. apply plug_same. unfold G, sib. by destruct d. }
  assert (HGd : NoDup (nodes G ++ cnodes C)) by by rewrite <- plug_nodes, HGn.
  set (B := rotB (negb d) (negb d) false true true a v b x w p t).
  assert (HR : rot G v B) by apply rotB_rot.
  destruct (rotate_into_ok s2 C G v B) as (s3 & E3 & C3 & R3 & M3); [by rewrite HGa|done|done|done|].
  rewrite HGa in E3. rewrite E3. cbn [fst].
  pose proof (rep_size _ _ _ HG ltac:(by apply NoDup_app in HGd as (? & _))) as Hs.
  pose proof (rbt_size _ _ Ha). pose proof (rbt_size _ _ Hw).
  assert (Hb64 : n + 2 < 2 ^ 64) by (unfold G in Hs; destruct d; cbn [negb mkT size] in Hs; lia).
  set (C' := F d false (n + 1) p w :: F d true (n + 2) x (Node true (n + 1) a v b) :: C).
  assert (EB : plug C B = plug C' t).
  { assert (K1 : hup true n n = n + 1) by (apply hup_black; lia).
    assert (K2 : hup false (n + 1) n = n + 1) by (unfold hup; lia).
    assert (K3 : hup false n (n + 1) = n + 1) by (unfold hup; lia).
    assert (K4 : hup true (n + 1) (n + 1) = n + 2) by (rewrite hup_black by lia; lia).
    cbn [C' plug]. f_equal. unfold B. destruct d; cbn [negb rotB mkT]; unfold join3; cbv zeta;
      rewrite (rbt_hgt _ _ Ha), (rbt_hgt _ _ Hb), (rbt_hgt _ _ Hw), (rbt_hgt _ _ Ht), K1, ?K2, ?K3, K4; done. }
  exists C'. assert (Hrr : crep s3 C' (addr t) /\ rep s3 (top C') t).
  { apply plug_rep. rewrite <- EB. by apply plug_rep. }
  split_and!; [done| |done|apply Hrr|apply Hrr| |].
  - cbn [ctx ctx_ok] in HC. destruct HC as (_ & -> & HC). cbn [C' ctx_ok top_black].
    replace (n + 2) with (n + 1 + 1) by lia. split_and!; try done. by constructor.
  - rewrite <- EB, <- HGn. apply plug_same. by apply rot_nodes with v.
  - rewrite <- HGn. assert (Hin : forall y, y ∈ nodes (plug C G) <-> y ∈ nodes G ++ cnodes C) by (intros y; by rewrite plug_nodes).
    intros y Hy. rewrite Hin in Hy. rewrite M3 by done.
    assert (Hy2 : y <> p /\ y <> x).
    { split; intros ->; apply Hy; unfold G; rewrite !mkT_nodes; [set_solver|]. rewrite !elem_of_app, !elem_of_cons. tauto. }
    rewrite (proj2 (proj2 W2)) by tauto. apply W1. tauto.
Qed.

(** black sibling without a red child: it turns red, and the parent loses a
    black height *)
Lemma double_black_recolour s C n d cp kp p sl x sr t :
  let sib := Node true (n + 1) sl x sr in
  let ctx := F d cp kp p sib :: C in
  ctx_ok ctx (n + 1) -> rbt n sl -> rbt n sr -> rbt n t -> blk sl = true -> blk sr = true -> blk t = true ->
  crep s ctx (addr t) -> rep s p t -> NoDup (nodes (plug ctx t)) ->
  let s' := (let s := RB_SET_RED x s in
             let s := set_bh x (u64 (black_height (rbm s x) - 1)) s in
             if RB_ISRED s p then RB_SET_BLACK p s else set_bh p (u64 (black_height (rbm s p) - 1)) s) in
  let t' := mkT d true (n + 1) p t (Node false n sl x sr) in
  RB_ISRED (set_bh x (u64 (black_height (rbm (RB_SET_RED x s) x) - 1)) (RB_SET_RED x s)) p = negb cp /\
  rbt (n + 1) t' /\ crep s' C p /\ rep s' (top C) t' /\
  nodes (plug C t') = nodes (plug ctx t) /\ mem_out (nodes (plug ctx t)) s s'.
Proof.
  intros sib ctx HC Hsl Hsr Ht Bl Br Bt Hcr Hrep Hd. assert (Hd0 := Hd). rewrite plug_nodes in Hd. cbn [cnodes ctx nodes sib] in Hd.
  destruct Hcr as (Hgp & Hp & Np & Rs & Hcr). cbn [addr sib] in Np.
  disjoint_facts Hd (p :: x :: nodes t ++ nodes sl ++ nodes sr ++ cnodes C).
  assert (Hb : 0 <= n /\ n + 2 < 2 ^ 64 /\ kp = (if cp then n + 2 else n + 1)).
  { pose proof (rbt_size _ _ Ht). pose proof (rbt_size _ _ Hsl).
    assert (Hr2 : rep s (top C) (mkT d cp kp p t sib)).
    { rewrite rep_mkT. by split_and!. }
    assert (Hdd : NoDup (nodes (mkT d cp kp p t sib))).
    { cbn [plug ctx] in Hd0. rewrite plug_nodes in Hd0. by apply NoDup_app in Hd0 as (? & _). }
    pose proof (rep_size _ _ _ Hr2 Hdd) as Hs. destruct d; cbn [mkT size sib] in Hs.
    all: destruct cp; cbn [ctx ctx_ok] in HC; destruct HC as (_ & Ek & _); split_and!; lia. }
  destruct Hb as (Hn0 & Hn & ->). destruct Rs as (Hpp & Hx & Nx & Rsl & Rsr).
  cbv zeta. pose proof (known_set_red s x p _ _ _ _ Hpp Nx) as W1. set (s1 := RB_SET_RED x s) in *. clearbody s1.
  carry W1. rewrite (known_bh _ _ _ _ _ _ _ Hn1). replace (n + 1 - 1) with n by lia. rewrite (u64_small n) by lia.
  pose proof (known_set_bh s1 x p _ _ _ _ Hn1 n) as W2. set (s2 := set_bh x n s1) in *. clearbody s2.
  carry W2. rename Hn1 into Nx.
  assert (Er : RB_ISRED s2 p = negb cp).
  { unfold RB_ISRED. f_equal. eapply (known_black s2 p (top C)); [done|exact Np|by apply node_nonnull]. }
  split; [done|]. rewrite Er, (known_bh _ _ _ _ _ _ _ Np).
  match goal with |- _ /\ crep ?s' _ _ /\ _ => set (s3 := s') end.
  assert (W3 : wrote p (nd (top C) true (n + 1) (if d then addr t else x) (if d then x else addr t)) s2 s3).
  { subst s3. destruct cp; cbn [negb].
    - replace (n + 2 - 1) with (n + 1) by lia. rewrite (u64_small (n + 1)) by lia. by eapply known_set_bh.
    - by eapply known_set_black. }
  clearbody s3. carry W3. split_and!.
  - apply rbt_mkT_black; [done|by constructor].
  - done.
  - rewrite rep_mkT. cbn [rep addr]. by split_and!.
  - cbn [plug ctx]. apply plug_same. by destruct d.
  - assert (Hin : forall y, y ∈ nodes (plug ctx t) <-> y ∈ nodes t ++ cnodes ctx) by (intros y; by rewrite plug_nodes).
    intros y Hy. rewrite Hin in Hy. cbn [cnodes ctx nodes sib] in Hy.
    assert (y <> p /\ y <> x) by (split; intros ->; apply Hy; rewrite ?elem_of_app, ?elem_of_cons, ?elem_of_app, ?elem_of_cons; tauto).
    rewrite (proj2 (proj2 W3)), (proj2 (proj2 W2)) by tauto. apply W1. tauto.
Qed.

(** fuel the repair needs around a context *)
Definition db_fuel (C : list frame) : nat :=
  match C with F _ false _ _ _ :: _ => 1 | _ => S (S (length C)) end.

Lemma solve_black_ok fuel : forall C n t s hot,
  (db_fuel C <= fuel)%nat -> ctx_ok C (n + 1) -> rbt n t -> blk t = true ->
  crep s C (addr t) -> rep s (top C) t -> NoDup (nodes (plug C t)) -> (t = Leaf -> hot = top C) ->
  rb_result (nodes (plug C t)) s (RB_SolveDoubleBlack fuel (addr t) hot s).
Proof.
  induction fuel as [|fuel IH]; intros C n t s hot Hf HC Ht Bt Hcr Hrep Hd Hhot.
  { destruct C as [|[? [] ? ? ?] ?]; cbn in Hf; lia. }
  cbn [RB_SolveDoubleBlack].
  assert (Ep : (if negb (addr t =? NULL) then RB_PARENT s (addr t) else hot) = top C).
  { destruct t as [|c k l a r]; [by apply Hhot|]. pose proof Hrep as (_ & Ha & _). cbn [addr].
    rewrite (proj2 (Z.eqb_neq a NULL)) by (by apply node_nonnull). by apply (rep_parent s (top C) (Node c k l a r)). }
  rewrite Ep. cbv zeta. destruct (proj1 (plug_rep _ _ _) (conj Hcr Hrep)) as [Ro Re].
  destruct C as [|[d cp kp p sib] C]; cbn [top].
  { rewrite Z.eqb_refl. exists t. cbn in *. split_and!; try done. by split; [|exists n]. }
  pose proof Hcr as (Hgp & Hp & Np & Rs & Hcr').
  rewrite (proj2 (Z.eqb_neq p NULL)) by by apply node_nonnull.
  assert (Hsib : rbt (n + 1) sib) by by (cbn [ctx_ok] in HC; destruct cp; apply HC).
  assert (Hne : addr t <> addr sib).
  { intros E0. pose proof (rbt_size _ _ Ht). destruct sib as [|cs ks sl x sr]; [inversion Hsib; lia|].
    destruct Rs as (_ & Hx & _). cbn [addr] in E0. apply node_nonnull in Hx.
    rewrite plug_nodes in Hd. apply NoDup_app in Hd as (_ & Hd & _).
    apply (Hd (addr t)); [apply addr_in; congruence|]. cbn. set_solver. }
  assert (Ex : (if addr t =? lc s p then rc s p else lc s p) = addr sib).
  { rewrite (known_lc _ _ _ _ _ _ _ Np), (known_rc _ _ _ _ _ _ _ Np). destruct d.
    - by rewrite Z.eqb_refl.
    - by rewrite (proj2 (Z.eqb_neq _ _) Hne). }
  rewrite Ex, (rep_isblack _ _ _ Rs). pose proof (rbt_size _ _ Ht).
  inversion Hsib as [En|m sl x sr Hsl Hsr Bsl Bsr Em|m sl x sr Hsl Hsr Em]; subst; [lia| |]; cbn [blk addr] in *.
  - (* red sibling *)
    assert (cp = true) as -> by (destruct cp; [done|]; by destruct HC as (_ & _ & ? & _)).
    assert (Hv : exists a v b w, Node false (n + 1) sl x sr = mkT (negb d) false (n + 1) x (Node true (n + 1) a v b) w /\
      rbt n a /\ rbt n b /\ rbt (n + 1) w /\ blk w = true).
    { destruct d; cbn [negb mkT].
      - inversion Hsr as [Ez|? ? ? ? ? ? ? ?|m a v b Ha Hb Ez]; subst; [lia|done|]. replace m with n in * by lia.
        exists a, v, b, sl. by split_and!.
      - inversion Hsl as [Ez|? ? ? ? ? ? ? ?|m a v b Ha Hb Ez]; subst; [lia|done|]. replace m with n in * by lia.
        exists a, v, b, sr. by split_and!. }
    destruct Hv as (a & v & b & w & Es & Ha & Hb & Hw & Bw). rewrite Es in *.
    destruct (double_black_lower s C n d kp p x a v b w t) as (C' & Etop & HC' & Htop & Cr' & Rp' & En & Mo); [done..|].
    cbv zeta in Cr', Rp', Mo.
    destruct (rotate_into p _ _ _) as [s1 b1]. cbn [fst] in *.
    destruct (IH C' n t s1 p) as (T' & Ro' & Re' & Rb' & Nt' & Mt');
      [destruct C' as [|[? [] ? ? ?] ?]; [done|done|cbn in Hf |- *; lia]|done|done|done|done|by rewrite Etop|by rewrite En|done|].
    rewrite En in *. exists T'. split_and!; [done..|]. by eapply mem_out_trans.
  - (* black sibling *)
    replace m with n in * by lia. clear m Em. pose proof Rs as (Hpp & Hx & Nx & Rsl & Rsr).
    unfold RB_HASLCHILD, RB_HASRCHILD, RB_ISRED.
    rewrite (known_lc _ _ _ _ _ _ _ Nx), (known_rc _ _ _ _ _ _ _ Nx), (rep_isblack _ _ _ Rsl), (rep_isblack _ _ _ Rsr).
    assert (Eold : RB_COLOR s p = Z.b2z cp) by exact (known_color _ _ _ _ _ _ _ Hgp Np).
    assert (Epp : RB_PARENT s p = top C) by exact (known_parent _ _ _ _ _ _ _ Hgp Np).
    destruct (blk sl) eqn:Bsl; [destruct (blk sr) eqn:Bsr|]; cbn [negb]; rewrite ?andb_false_r, ?andb_true_r.
    + (* no red nephew *)
      rewrite Z.eqb_refl. cbn [negb].
      destruct (double_black_recolour s C n d cp kp p sl x sr t) as (Er & Rt' & Cr' & Rp' & En & Mo); [done..|].
      fold (RB_ISRED (set_bh x (u64 (black_height (rbm (RB_SET_RED x s) x) - 1)) (RB_SET_RED x s)) p).
      cbv zeta in Cr', Rp', Mo. rewrite Er in *. destruct cp; cbn [negb] in *.
      * match type of Mo with mem_out _ _ ?s' => set (s1 := s') in * end. clearbody s1.
        set (t' := mkT d true (n + 1) p t _) in *. assert (Hat : addr t' = p) by apply addr_mkT.
        destruct (IH C (n + 1) t' s1 hot) as (T' & Ro' & Re' & Rb' & Nt' & Mt');
          [cbn [db_fuel length] in Hf; destruct C as [|[? [] ? ? ?] ?]; cbn in *; lia| |done|apply blk_mkT|by rewrite Hat|done|by rewrite En| |].
        { cbn [ctx_ok] in HC. apply HC. }
        { intros E0. rewrite E0 in Hat. cbn in Hat. symmetry in Hat. by apply node_nonnull in Hat. }
        rewrite Hat, En in *. exists T'. split_and!; [done..|]. by eapply mem_out_trans.
      * match type of Mo with mem_out _ _ ?s' => set (s1 := s') in * end. clearbody s1.
        set (t' := mkT d true (n + 1) p t _) in *. assert (Hat : addr t' = p) by apply addr_mkT.
        rewrite <- Hat in Cr'. destruct (proj1 (plug_rep _ C t') (conj Cr' Rp')) as [Ro' Re'].
        exists (plug C t'). split_and!; [done|done| |done|done].
        cbn [ctx_ok] in HC. eapply plug_ok; [apply HC|done|]. left. apply blk_mkT.
    + destruct sr as [|cr kr a v b]; [done|]. cbn [blk] in Bsr. subst cr.
      destruct (mkT_red_inv n true kr v a b Hsr) as (Ha & Hb & _ & _ & ->).
      rewrite (proj2 (Z.eqb_neq (addr (Node false n a v b)) NULL)) by (cbn; apply node_nonnull; apply Rsr). cbn [negb andb].
      rewrite (proj2 (Z.eqb_neq (addr (Node false n a v b)) NULL)) by (cbn; apply node_nonnull; apply Rsr). cbn [negb addr].
      rewrite Eold, Epp. by apply (double_black_rotate s C n d cp kp p x false a v b sl t).
    + destruct sl as [|cl kl a v b]; [done|]. cbn [blk] in Bsl. subst cl.
      destruct (mkT_red_inv n true kl v a b Hsl) as (Ha & Hb & _ & _ & ->).
      rewrite (proj2 (Z.eqb_neq (addr (Node false n a v b)) NULL)) by (cbn; apply node_nonnull; apply Rsl). cbn [negb andb].
      rewrite (proj2 (Z.eqb_neq (addr (Node false n a v b)) NULL)) by (cbn; apply node_nonnull; apply Rsl). cbn [negb addr].
      rewrite Eold, Epp. by apply (double_black_rotate s C n d cp kp p x true a v b sr t).
Qed.

(** ** Removal *)

(** a stretch of the path, below a node [par] *)
Definition topp (par : Z) (D : list frame) : Z := match D with [] => par | F _ _ _ a _ :: _ => a end.
Fixpoint cseg (s : rb_tree) (par : Z) (D : list frame) (q : Z) : Prop :=
  match D with
  | [] => True
  | F d c k a t :: D' =>
    ptr (topp par D') /\ node_addr a /\
    rbm s a = nd (topp par D') c k (if d then q else addr t) (if d then addr t else q) /\
    rep s a t /\ cseg s par D' a
  end.
Fixpoint outer (D : list frame) : Z :=
  match D with [] => NULL | [F _ _ _ a _] => a | _ :: D' => outer D' end.

Lemma plug_cseg s par D t : rep s par (plug D t) <-> cseg s par D (addr t) /\ rep s (topp par D) t.
Proof.
  revert t. induction D as [|[d c k a u] D IH]; intros t; cbn [cseg plug topp]; [tauto|].
  rewrite IH, addr_mkT, rep_mkT. tauto.
Qed.
Lemma plug_outer D t : D <> [] -> addr (plug D t) = outer D.
Proof.
  revert t. induction D as [|[d c k a u] D IH]; intros t H; [done|]. destruct D as [|f D]; [apply addr_mkT|].
  change (plug (F d c k a u :: f :: D) t) with (plug (f :: D) (mkT d c k a t u)). by apply IH.
Qed.
Lemma outer_in D : D <> [] -> outer D ∈ cnodes D.
Proof.
  induction D as [|[d c k a u] D IH]; intros H; [done|]. destruct D as [|f D]; [cbn; set_solver|].
  cbn [cnodes]. change (outer (F d c k a u :: f :: D)) with (outer (f :: D)). pose proof (IH ltac:(done)). set_solver.
Qed.
Lemma cseg_frame s s' par D q : cseg s par D q -> (forall x, x ∈ cnodes D -> rbm s' x = rbm s x) -> cseg s' par D q.
Proof.
  revert q. induction D as [|[d c k a t] D IH]; intros q H Hx; [done|].
  destruct H as (? & ? & Hn & Ht & HC). cbn in Hx. cbn [cseg]. rewrite Hx by (left).
  split_and!; [done..| |].
  - eapply rep_frame; [done|]. intros y Hy. apply Hx. set_solver.
  - apply IH; [done|]. intros y Hy. apply Hx. set_solver.
Qed.
Lemma cseg_wrote a n s s' par D q : wrote a n s s' -> a ∉ cnodes D -> cseg s par D q -> cseg s' par D q.
Proof. intros W Ha H. eapply cseg_frame; [done|]. intros x Hx. apply W. by intros ->. Qed.

(** fill the hole of a stretch whose innermost step is to the left *)
Lemma cseg_fill s par c k a t D q q' :
  cseg s par (F true c k a t :: D) q -> NoDup (cnodes (F true c k a t :: D)) ->
  exists n, wrote a n s (set_left a q' s) /\ cseg (set_left a q' s) par (F true c k a t :: D) q'.
Proof.
  intros (Hp & Ha & Hn & Ht & HC) Hd. cbn [cnodes] in Hd. apply list.NoDup_cons in Hd as [Hat _].
  rewrite not_elem_of_app in Hat. pose proof (known_set_left s a _ c k _ _ Hn q') as W.
  eexists. split; [exact W|]. cbn [cseg]. split_and!; [done|done|apply W| |].
  - eapply rep_wrote; [exact W|tauto|done].
  - eapply cseg_wrote; [exact W|tauto|done].
Qed.

(** hang the stretch under another parent *)
Lemma cseg_reparent s par par' D q :
  D <> [] -> cseg s par D q -> ptr par' -> NoDup (cnodes D) ->
  exists n, wrote (outer D) n s (RB_SET_PARENT (outer D) par' s) /\
    cseg (RB_SET_PARENT (outer D) par' s) par' D q.
Proof.
  revert q. induction D as [|[d c k a t] D IH]; intros q HD H Hp' Hd; [done|].
  destruct H as (Hp & Ha & Hn & Ht & HC). cbn [cnodes] in Hd.
  apply list.NoDup_cons in Hd as [Hat Hd]. rewrite not_elem_of_app in Hat.
  apply NoDup_app in Hd as (_ & Hdis & Hd).
  destruct D as [|f D].
  - cbn [outer topp] in *. pose proof (known_set_parent s a par c k _ _ Hp Hn par' Hp') as W. eexists.
    split; [exact W|]. cbn [cseg topp]. split_and!; [done|done|apply W| |done]. eapply rep_wrote; [exact W|tauto|done].
  - destruct (IH a) as (n & W & HC'); [done|done|done|done|].
    change (outer (F d c k a t :: f :: D)) with (outer (f :: D)). exists n. split; [exact W|].
    pose proof (outer_in (f :: D) ltac:(done)) as Ho. destruct f as [d1 c1 k1 a1 t1].
    cbn [cseg topp] in *. split; [done|]. split; [done|]. split; [|split; [|exact HC']].
    + eapply read_wrote; [exact W| |done]. intros E'. rewrite E' in Ho. tauto.
    + eapply rep_wrote; [exact W| |done]. intros E'. by apply (Hdis _ E').
Qed.

Definition all_left (D : list frame) : Prop := Forall (fun f => match f with F d _ _ _ _ => d = true end) D.

Lemma leftmost_ok fuel s : forall t par,
  t <> Leaf -> (depth t <= fuel)%nat -> rep s par t ->
  exists D c k r, t = plug D (Node c k Leaf (leftmost fuel s (addr t)) r) /\ all_left D /\ (length D < depth t)%nat.
Proof.
  induction fuel as [|fuel IH]; intros t par Ht Hf HR.
  { destruct t; [done|cbn in Hf; lia]. }
  destruct t as [|c k l a r]; [done|]. destruct HR as (Hp & Ha & Hn & Hl & Hr).
  cbn [leftmost addr depth] in *. unfold RB_HASLCHILD. rewrite (known_lc _ _ _ _ _ _ _ Hn).
  destruct (Z.eqb_spec (addr l) NULL) as [E0|E0]; cbn [negb].
  - apply (rep_addr_null _ _ _ Hl) in E0. subst l. exists [], c, k, r. split_and!; [done|constructor|cbn; lia].
  - destruct (IH l a) as (D & c' & k' & r' & El & HD & Hlen); [by intros ->|lia|done|].
    exists (D ++ [F true c k a r]), c', k', r'. split_and!.
    + rewrite plug_app, <- El. done.
    + apply Forall_app. split; [done|by repeat constructor].
    + rewrite length_app. cbn [length]. lia.
Qed.

Lemma left_nodes D : all_left D -> exists Q, forall u, nodes (plug D u) = nodes u ++ Q.
Proof.
  induction 1 as [|[d c k a t] D Hd HD [Q IH]]; [exists []; intros u; by rewrite app_nil_r|].
  subst d. exists (a :: nodes t ++ Q). intros u. cbn. rewrite IH. cbn. by rewrite <- app_assoc.
Qed.
Lemma ctx_nodes C : exists P Q, forall u, nodes (plug C u) = P ++ nodes u ++ Q.
Proof.
  induction C as [|[d c k a t] C (P & Q & IH)]; [exists [], []; intros u; by rewrite app_nil_r|].
  destruct d.
  - exists P, (a :: nodes t ++ Q). intros u. cbn. rewrite IH. cbn. by rewrite <- app_assoc.
  - exists (P ++ nodes t ++ [a]), Q. intros u. cbn. rewrite IH. cbn. by rewrite <- !app_assoc.
Qed.

Lemma find_ctx t a : a ∈ nodes t -> exists C c k l r, t = plug C (Node c k l a r).
Proof.
  induction t as [|c k l IHl x r IHr]; cbn; intros Ha; [by apply elem_of_nil in Ha|].
  apply elem_of_app in Ha as [Ha|[->|Ha]%elem_of_cons].
  - destruct (IHl Ha) as (C & c' & k' & l' & r' & ->). exists (C ++ [F true c k x r]), c', k', l', r'. by rewrite plug_app.
  - by exists [], c, k, l, r.
  - destruct (IHr Ha) as (C & c' & k' & l' & r' & ->). exists (C ++ [F false c k x l]), c', k', l', r'. by rewrite plug_app.
Qed.

(** redirecting the slot above a node *)
Lemma replace_child_ok s C z v :
  crep s C z -> RB_PARENT s z = top C -> z <> NULL -> z ∉ cnodes C -> NoDup (cnodes C) ->
  let s' := replace_child z (top C) v s in
  crep s' C v /\ forall x, x ∉ cnodes C -> rbm s' x = rbm s x.
Proof.
  intros HC Hp Hz Hni Hd s'. subst s'. unfold replace_child.
  destruct C as [|[d c k a t] C]; cbn [top] in *; [done|].
  pose proof HC as (Hpa & Ha & Hn & Ht & HC'). rewrite (proj2 (Z.eqb_neq a NULL)) by by apply node_nonnull.
  rewrite (left_test s a c k _ _ _ Ha Hpa Hn z Hp).
  cbn [cnodes] in Hd, Hni. apply list.NoDup_cons in Hd as [Hat _]. rewrite not_elem_of_app in Hat.
  rewrite not_elem_of_cons, not_elem_of_app in Hni.
  assert (Ed : (z =? if d then z else addr t) = d).
  { destruct d; [apply Z.eqb_refl|]. apply Z.eqb_neq. intros ->. apply (proj1 (proj2 Hni)). by apply addr_in. }
  rewrite Ed. set (s' := if d then set_left a v s else set_right a v s).
  assert (W : wrote a (nd (top C) c k (if d then v else addr t) (if d then addr t else v)) s s').
  { subst s'. destruct d; [by eapply known_set_left|by eapply known_set_right]. }
  split.
  - cbn [crep]. split_and!; [done|done|apply W| |].
    + eapply rep_wrote; [exact W|tauto|done].
    + eapply crep_wrote; [exact W|tauto|done].
  - intros x Hx. apply W. intros ->. apply Hx. cbn. set_solver.
Qed.

Lemma rbt0_black t : rbt 0 t -> blk t = true -> t = Leaf.
Proof.
  intros H Hb. inversion H as [|? ? ? ? ? ? ? ? E1|n l a r Hl Hr E1]; subst; [done|done|].
  pose proof (rbt_size _ _ Hl). lia.
Qed.
Lemma rbt0_children t c k l a r : rbt 0 t -> t = Node c k l a r -> c = false /\ k = 0 /\ l = Leaf /\ r = Leaf.
Proof.
  intros H ->. inversion H as [|? ? ? ? Hl Hr Bl Br E1|n ? ? ? Hl Hr E1]; subst; [|pose proof (rbt_size _ _ Hl); lia].
  split_and!; [done|done|by apply rbt0_black..].
Qed.

Lemma removed_heights C d c k a u :
  is_rb (plug C (mkT d c k a Leaf u)) -> exists n, ctx_ok C n /\ rbt 0 u /\ (n = 0 /\ u = Leaf \/ n = 1).
Proof.
  intros H. destruct (plug_ctx _ _ H) as (m & Hm & HC & _). exists m. split; [done|]. destruct c.
  - apply mkT_black_inv in Hm as (n & H0 & Hu & _ & ->). inversion H0; subst. split; [done|by right].
  - apply mkT_red_inv in Hm as (H0 & Hu & _ & Bu & _). inversion H0; subst. split; [done|left]. split; [done|by apply rbt0_black].
Qed.

Lemma ctx_ok_addr D d c k z z' l C n : ctx_ok (D ++ F d c k z l :: C) n -> ctx_ok (D ++ F d c k z' l :: C) n.
Proof.
  revert n. induction D as [|[d1 c1 k1 a1 t1] D IH]; intros n; cbn [app ctx_ok]; [by destruct c|].
  destruct c1; intros H; destruct_and! H; split_and!; auto.
  destruct D as [|[? ? ? ? ?] D]; done.
Qed.

Lemma plug_depth C t : (length C + depth t <= depth (plug C t))%nat.
Proof.
  revert t. induction C as [|[d c k a u] C IH]; intros t; cbn [plug length]; [lia|].
  specialize (IH (mkT d c k a t u)). destruct d; cbn [mkT depth] in IH; cbn [mkT]; lia.
Qed.

(** what [rb_removeAt] establishes: the removed node's place is taken by [u]
    in a context that still expects the old black height *)
Definition removed (ns : list Z) (fuel : nat) (z : Z) (s : rb_tree) (ns' : list Z) (limit : nat) : Prop :=
  exists C u n s',
    rb_removeAt fuel z s = (s', addr u, top C) /\
    crep s' C (addr u) /\ rep s' (top C) u /\ ctx_ok C n /\ rbt 0 u /\ (n = 0 /\ u = Leaf \/ n = 1) /\
    nodes (plug C u) = ns' /\ mem_out ns s s' /\ (length C < limit)%nat.

(** a node without left or without right child *)
Lemma removeAt_single fuel s C d c k z u :
  let t := mkT d c k z Leaf u in
  (d = true \/ u <> Leaf) ->
  crep s C z -> rep s (top C) t -> NoDup (nodes (plug C t)) -> is_rb (plug C t) ->
  removed (nodes (plug C t)) fuel z s (nodes (plug C u)) (depth (plug C t)).
Proof.
  intros t Hdu Hcr HR Hd Hrb. destruct (removed_heights C d c k z u Hrb) as (n & HC & H0 & Hn).
  assert (Hd0 := Hd). rewrite plug_nodes in Hd. unfold t in Hd, HR. rewrite mkT_nodes in Hd. cbn [nodes app] in Hd.
  assert (Hdc : NoDup (nodes u ++ cnodes C)) by by apply list.NoDup_cons in Hd as [_ ?].
  rewrite rep_mkT in HR. destruct HR as (Hp & Hz & Nz & _ & Ru). cbn [addr] in Nz.
  assert (Hzn : z ∉ nodes u /\ z ∉ cnodes C) by (apply list.NoDup_cons in Hd as [Hd _]; by rewrite not_elem_of_app in Hd).
  apply NoDup_app in Hdc as (Hdu' & Hdis & HdC).
  assert (Pz : RB_PARENT s z = top C) by by eapply known_parent.
  destruct (replace_child_ok s C z (addr u) Hcr Pz) as [C1 M1]; [by apply node_nonnull|tauto|done|].
  set (s1 := replace_child z (top C) (addr u) s) in *.
  assert (Eq : rb_removeAt fuel z s = (adopt (addr u) (top C) s1, addr u, top C)).
  { unfold rb_removeAt, RB_HASLCHILD, RB_HASRCHILD. rewrite Pz.
    rewrite (known_lc _ _ _ _ _ _ _ Nz), (known_rc _ _ _ _ _ _ _ Nz).
    destruct d; [done|]. destruct Hdu as [|Hu]; [done|].
    rewrite (proj2 (Z.eqb_neq (addr u) NULL)) by (intros E0; by apply (rep_addr_null _ _ _ Ru) in E0). done. }
  assert (Ru1 : rep s1 z u) by (eapply rep_frame; [done|]; intros x Hx; apply M1; by apply Hdis).
  assert (Hin : forall y, y ∈ nodes (plug C t) <-> y = z \/ y ∈ nodes u \/ y ∈ cnodes C).
  { intros y. rewrite plug_nodes. unfold t. rewrite mkT_nodes. cbn [nodes app]. by rewrite elem_of_cons, elem_of_app. }
  destruct (Z.eqb_spec (addr u) NULL) as [E0|E0].
  { apply (rep_addr_null _ _ _ Ru) in E0. subst u.
    exists C, Leaf, n, s1. split_and!; try done.
    - intros y Hy. apply M1. rewrite Hin in Hy. tauto.
    - pose proof (plug_depth C t). unfold t in *. destruct d; cbn [mkT depth] in *; lia. }
  assert (W : exists m, wrote (addr u) m s1 (adopt (addr u) (top C) s1) /\ rep (adopt (addr u) (top C) s1) (top C) u).
  { destruct u as [|cu ku ul ua ur]; [done|]. destruct Ru1 as (Hpu & Hua & Nu & Rul & Rur). cbn [addr] in *.
    unfold adopt. rewrite (proj2 (Z.eqb_neq ua NULL)) by done.
    pose proof (known_set_parent s1 ua _ _ _ _ _ Hpu Nu (top C) Hp) as W. eexists. split; [exact W|].
    cbn [nodes] in Hdu'. disjoint_facts Hdu' (ua :: nodes ul ++ nodes ur). carry W. cbn [rep]. by split_and!. }
  destruct W as (m & W & Ru2). exists C, u, n, (adopt (addr u) (top C) s1).
  split_and!; try done.
  - eapply crep_wrote; [exact W| |done]. intros Hx. apply (Hdis (addr u)); [by apply addr_in|done].
  - intros y Hy. rewrite Hin in Hy. rewrite (proj2 (proj2 W)); [apply M1; tauto|]. intros ->. apply Hy. right. left. by apply addr_in.
  - pose proof (plug_depth C t). unfold t in *. destruct d; cbn [mkT depth] in *; lia.
Qed.

(** the successor takes the removed node's place, colour and height *)
Lemma install_ok s C z c k lz rz del pd cd kd lx rx :
  crep s C z -> rbm s z = nd (top C) c k lz rz -> rbm s del = nd pd cd kd lx rx -> ptr pd ->
  node_addr del -> node_addr z -> del ∉ cnodes C -> z ∉ cnodes C -> del <> z -> NoDup (cnodes C) ->
  let s' := install_succ z (top C) (Z.b2z c) del s in
  crep s' C del /\ rbm s' del = nd (top C) c k lx rx /\
  forall x, x <> del -> x ∉ cnodes C -> rbm s' x = rbm s x.
Proof.
  intros Hcr Nz Nd Hpd Hdel Hz Hdc Hzc Hne Hd. unfold install_succ. cbv zeta. pose proof (crep_top_ptr _ _ _ Hcr) as Hpt.
  assert (Pz : RB_PARENT s z = top C) by exact (known_parent _ _ _ _ _ _ _ Hpt Nz).
  destruct (replace_child_ok s C z del Hcr Pz) as [C1 M1]; [by apply node_nonnull|done|done|].
  assert (Es : (if top C =? NULL then RB_SET_PARENT del NULL (set_root del s)
              else RB_SET_PARENT del (top C) (if RB_ISLCHILD s z then set_left (top C) del s else set_right (top C) del s))
            = RB_SET_PARENT del (top C) (replace_child z (top C) del s)).
  { unfold replace_child. destruct (Z.eqb_spec (top C) NULL) as [->|]; done. }
  rewrite Es. set (s1 := replace_child z (top C) del s) in *. clearbody s1. clear Es.
  assert (Nd1 : rbm s1 del = nd pd cd kd lx rx) by (by rewrite M1).
  assert (Nz1 : rbm s1 z = nd (top C) c k lz rz) by (by rewrite M1).
  pose proof (known_set_parent s1 del pd _ _ _ _ Hpd Nd1 (top C) Hpt) as W1. set (s2 := RB_SET_PARENT del _ s1) in *. clearbody s2.
  set (s3 := if negb (Z.b2z c =? 0) then RB_SET_BLACK del s2 else RB_SET_RED del s2).
  assert (W2 : wrote del (nd (top C) c kd lx rx) s2 s3).
  { subst s3. destruct c; cbn; [eapply known_set_black|eapply known_set_red]; try exact Hpt; apply W1. }
  clearbody s3. assert (Nz3 : rbm s3 z = nd (top C) c k lz rz).
  { rewrite (proj2 (proj2 W2)), (proj2 (proj2 W1)); congruence. }
  rewrite (known_bh _ _ _ _ _ _ _ Nz3).
  pose proof (known_set_bh s3 del (top C) c kd lx rx (proj1 (proj2 W2)) k) as W3.
  set (s4 := set_bh del k s3) in *. clearbody s4.
  pose proof (wrote_twice _ _ _ _ _ _ (wrote_twice _ _ _ _ _ _ W1 W2) W3) as W. split_and!.
  - eapply crep_wrote; [exact W|done|done].
  - apply W.
  - intros x Hx Hxc. rewrite (proj2 (proj2 W)) by done. by apply M1.
Qed.

Lemma adopt_wrote s p q t :
  rep s p t -> ptr q -> NoDup (nodes t) ->
  rep (adopt (addr t) q s) q t /\ same_out (roots t) s (adopt (addr t) q s).
Proof.
  destruct t as [|c k l x r]; [by intros|]. intros (Hp & Hx & Hn & Hl & Hr) Hq Hd. cbn [nodes] in Hd.
  rewrite adopt_node by done. pose proof (known_set_parent s x p c k _ _ Hp Hn q Hq) as W.
  disjoint_facts Hd (x :: nodes l ++ nodes r). split; [|by eapply wrote_out].
  cbn [addr]. set (s' := RB_SET_PARENT x q s) in *. clearbody s'. carry W. cbn [rep]. by split_and!.
Qed.

(** the state after the successor has been lifted out of the right subtree *)
Lemma lift_ok s par z c k l D cd kd del rd :
  rep s par (Node c k l z (plug D (Node cd kd Leaf del rd))) -> l <> Leaf -> all_left D ->
  NoDup (nodes (Node c k l z (plug D (Node cd kd Leaf del rd)))) ->
  exists s' pd,
    lift_succ z del s = (s', addr rd, topp del D) /\
    rbm s' del = nd pd cd kd (addr l) (addr (plug D rd)) /\ ptr pd /\
    rep s' del l /\ cseg s' del D (addr rd) /\ (exists p, rep s' p rd) /\
    rb_root s' = rb_root s /\
    forall x, x <> del -> x ∉ nodes l ++ nodes rd ++ cnodes D -> rbm s' x = rbm s x.
Proof.
  intros (Hp & Hz & Nz & Rl & Rr) Hl HD Hd. apply plug_cseg in Rr as [Hseg (Hpd & Hdel & Ndel & _ & Rrd)].
  cbn [nodes] in Hd. cbn [addr] in *.
  assert (Hd' : NoDup (nodes l ++ z :: del :: nodes rd ++ cnodes D)).
  { eapply NoDup_Permutation_proper; [|exact Hd]. by rewrite plug_nodes. }
  clear Hd. rename Hd' into Hd. disjoint_facts Hd (z :: del :: nodes l ++ nodes rd ++ cnodes D).
  match goal with H : NoDup (nodes l ++ nodes rd ++ cnodes D) |- _ =>
    pose proof H as (Dl & Dlr & Drd)%NoDup_app; apply NoDup_app in Drd as (Drd & DrD & DD) end.
  unfold lift_succ. rewrite (known_parent _ _ _ _ _ _ _ Hpd Ndel), (known_rc _ _ _ _ _ _ _ Ndel).
  assert (Hla : addr l <> NULL) by (intros E0; by apply (rep_addr_null _ _ _ Rl) in E0).
  destruct D as [|[d cf kf f tf] D]; cbn [topp] in *.
  - (* the successor is the right child *)
    rewrite Z.eqb_refl, (known_lc _ _ _ _ _ _ _ Nz).
    pose proof (known_set_left s del z _ _ _ _ Ndel (addr l)) as W1. set (s1 := set_left del _ s) in *. clearbody s1.
    assert (Nd1 := proj1 (proj2 W1)). carry W1. rewrite (known_lc _ _ _ _ _ _ _ Nd1).
    destruct (adopt_wrote s1 z del l Rl (ptr_node _ Hdel) Dl) as [Rl2 S2].
    unfold adopt in Rl2, S2. rewrite (proj2 (Z.eqb_neq _ _) Hla) in Rl2, S2.
    set (s2 := RB_SET_PARENT (addr l) del s1) in *. clearbody s2.
    assert (F2 : forall x, x ∉ nodes l -> rbm s2 x = rbm s1 x) by (intros x Hx; apply S2; by intros ?%roots_in).
    exists s2, z. split; [done|]. split; [by rewrite F2|]. split; [done|]. split; [done|]. split; [done|]. split.
    { exists del. eapply rep_frame; [done|]. intros x Hx. apply F2. intros Hx'. apply (Dlr x Hx'). set_solver. }
    split; [rewrite (proj1 S2); apply W1|]. intros x Hx Hx'. rewrite F2; [by apply W1|]. set_solver.
  - (* deeper on the left of the right child *)
    inversion HD as [|fr0 D0 Hdt HD']; subst d fr0 D0. rewrite (proj2 (Z.eqb_neq f z)) by set_solver.
    destruct (cseg_fill s z cf kf f tf D del (addr rd) Hseg DD) as (nf & Wf & Cf).
    set (s1 := set_left f (addr rd) s) in *. clearbody s1.
    assert (Hfin : f ∈ cnodes (F true cf kf f tf :: D)) by (cbn; set_solver).
    assert (Hfz : f <> z) by (by intros ->). assert (Hfd : f <> del) by (by intros ->).
    assert (Hfl : f ∉ nodes l) by (intros Hx; apply (Dlr f Hx); set_solver).
    assert (Hfr : f ∉ nodes rd) by (intros Hx; by apply (DrD f Hx)).
    assert (Rl1 := rep_wrote _ _ _ _ _ _ Wf Hfl Rl). assert (Rrd1 := rep_wrote _ _ _ _ _ _ Wf Hfr Rrd).
    assert (Nz1 := read_wrote _ _ _ _ z _ Wf Hfz Nz). assert (Nd1 := read_wrote _ _ _ _ del _ Wf Hfd Ndel).
    rewrite (known_lc _ _ _ _ _ _ _ Nz1).
    pose proof (known_set_left s1 del f _ _ _ _ Nd1 (addr l)) as W2. set (s2 := set_left del _ s1) in *. clearbody s2.
    assert (Nz2 := read_wrote _ _ _ _ z _ W2 ltac:(congruence) Nz1). rewrite (known_rc _ _ _ _ _ _ _ Nz2).
    rewrite (plug_outer (F true cf kf f tf :: D) (Node cd kd Leaf del rd)) by done.
    set (o := outer (F true cf kf f tf :: D)) in *.
    pose proof (known_set_right s2 del f _ _ _ _ (proj1 (proj2 W2)) o) as W3. set (s3 := set_right del _ s2) in *. clearbody s3.
    pose proof (wrote_twice _ _ _ _ _ _ W2 W3) as W. clear W2 W3 s2 Nz2.
    rewrite (known_lc _ _ _ _ _ _ _ (proj1 (proj2 W))).
    assert (Rl3 : rep s3 z l) by (eapply rep_wrote; [exact W|done|exact Rl1]).
    assert (Rrd3 : rep s3 del rd) by (eapply rep_wrote; [exact W|done|exact Rrd1]).
    assert (C3 : cseg s3 z (F true cf kf f tf :: D) (addr rd)) by (eapply cseg_wrote; [exact W|done|done]).
    destruct (adopt_wrote s3 z del l Rl3 (ptr_node _ Hdel) Dl) as [Rl4 S4].
    set (s4 := adopt (addr l) del s3) in *. clearbody s4.
    assert (F4 : forall x, x ∉ nodes l -> rbm s4 x = rbm s3 x) by (intros x Hx; apply S4; by intros ?%roots_in).
    assert (Nd4 : rbm s4 del = nd f cd kd (addr l) o) by (rewrite F4 by done; apply W).
    rewrite (known_rc _ _ _ _ _ _ _ Nd4).
    assert (C4 : cseg s4 z (F true cf kf f tf :: D) (addr rd)).
    { eapply cseg_frame; [done|]. intros x Hx. apply F4. intros Hx'. apply (Dlr x Hx'). set_solver. }
    destruct (cseg_reparent s4 z del (F true cf kf f tf :: D) (addr rd)) as (no & Wo & C5); [done|done|by apply ptr_node|done|].
    pose proof (outer_in (F true cf kf f tf :: D) ltac:(done)) as Hoin. fold o in Wo, C5, Hoin.
    assert (Hon : node_addr o).
    { unfold o. rewrite <- (plug_outer _ (Node cd kd Leaf del rd)) by done.
      assert (Rr : rep s z (plug (F true cf kf f tf :: D) (Node cd kd Leaf del rd))).
      { apply plug_cseg. split; [done|]. cbn [rep topp]. by split_and!. }
      eapply rep_addr; [exact Rr|]. apply addr_in. rewrite plug_outer by done. fold o. intros E0.
      assert (Hon : node_addr NULL); [|by apply node_nonnull in Hon]. eapply rep_addr; [exact Rr|].
      rewrite plug_nodes. rewrite <- E0. set_solver. }
    rewrite (adopt_node o del s4 Hon). set (s5 := RB_SET_PARENT o del s4) in *. clearbody s5.
    exists s5, f. split; [done|]. split.
    { rewrite plug_outer by done. fold o. eapply read_wrote; [exact Wo|by intros ->|done]. }
    split; [done|]. split.
    { eapply rep_wrote; [exact Wo| |done]. intros Hx. apply (Dlr o Hx). set_solver. }
    split; [done|]. split.
    { exists del. eapply rep_wrote; [exact Wo|intros Hx; by apply (DrD o Hx)|].
      eapply rep_frame; [exact Rrd3|]. intros x Hx. apply F4. intros Hx'. apply (Dlr x Hx'). set_solver. }
    split; [rewrite (proj1 Wo), (proj1 S4), (proj1 W); apply Wf|].
    intros x Hx Hx'. rewrite !not_elem_of_app in Hx'. rewrite (proj2 (proj2 Wo)) by (intros ->; tauto).
    rewrite F4 by tauto. rewrite (proj2 (proj2 W)) by done. apply Wf. intros ->. tauto.
Qed.

(** a node with two children: its successor replaces it *)
Lemma removeAt_both fuel s C c k l z r P Q :
  let t := Node c k l z r in
  l <> Leaf -> r <> Leaf -> (depth r <= fuel)%nat ->
  crep s C z -> rep s (top C) t -> NoDup (nodes (plug C t)) -> is_rb (plug C t) ->
  (forall u, nodes (plug C u) = P ++ nodes u ++ Q) ->
  removed (nodes (plug C t)) fuel z s (P ++ nodes l ++ nodes r ++ Q) (depth (plug C t)).
Proof.
  intros t Hl Hr Hf Hcr HR Hd Hrb HPQ. pose proof HR as (Hp & Hz & Nz & Rl & Rr).
  destruct (leftmost_ok fuel s r z Hr Hf Rr) as (D & cd & kd & rd & Er & HD & HlenD).
  set (del := leftmost fuel s (addr r)) in *.
  assert (Hla : addr l <> NULL) by (intros E0; by apply (rep_addr_null _ _ _ Rl) in E0).
  assert (Hra : addr r <> NULL) by (intros E0; by apply (rep_addr_null _ _ _ Rr) in E0).
  assert (HdC := Hd). rewrite plug_nodes in HdC. apply NoDup_app in HdC as (Hdt & Hdis & HdC).
  unfold t in *. rewrite Er in HR, Hdt, Hdis, Hrb.
  destruct (lift_ok s (top C) z c k l D cd kd del rd HR Hl HD Hdt)
    as (s1 & pd & E1 & N1 & Hpd & Rl1 & C1 & (p1 & Rr1) & R1 & M1).
  assert (Hn : forall x, x ∈ nodes (plug D (Node cd kd Leaf del rd)) <-> x = del \/ x ∈ nodes rd \/ x ∈ cnodes D).
  { intros x. rewrite plug_nodes. cbn [nodes app]. by rewrite elem_of_cons, elem_of_app. }
  assert (Hdt' : NoDup (nodes l ++ z :: del :: nodes rd ++ cnodes D)).
  { eapply NoDup_Permutation_proper; [|exact Hdt]. cbn [nodes]. by rewrite plug_nodes. }
  disjoint_facts Hdt' (z :: del :: nodes l ++ nodes rd ++ cnodes D).
  match goal with H : NoDup (nodes l ++ nodes rd ++ cnodes D) |- _ =>
    apply NoDup_app in H as (Dl & Dlr & Drd); apply NoDup_app in Drd as (Drd & DrD & DD) end.
  assert (HnC : forall x, (x ∈ nodes l \/ x = z \/ x = del \/ x ∈ nodes rd \/ x ∈ cnodes D) -> x ∉ cnodes C).
  { intros x Hx. apply Hdis. cbn [nodes]. rewrite elem_of_app, elem_of_cons, Hn. tauto. }
  assert (F1 : forall x, x = z \/ x ∈ cnodes C -> rbm s1 x = rbm s x).
  { intros x Hx. apply M1.
    - destruct Hx as [-> | Hx]; [done|]. intros ->. by apply (HnC del); auto.
    - rewrite !not_elem_of_app. destruct Hx as [-> | Hx]; [done|]. split_and!; intros Hx'; by apply (HnC x); auto 6. }
  assert (Hcr1 : crep s1 C z) by (eapply crep_frame; [done|done|auto]).
  assert (Nz1 : rbm s1 z = nd (top C) c k (addr l) (addr r)) by (rewrite F1 by auto; exact Nz).
  assert (Hdn : node_addr del).
  { eapply rep_addr; [exact Rr|]. rewrite Er. apply Hn. by left. }
  destruct (install_ok s1 C z c k _ _ del pd cd kd _ _ Hcr1 Nz1 N1 Hpd Hdn Hz) as (C2 & N2 & M2);
    [by auto|by auto|done|done|].
  set (s2 := install_succ z (top C) (Z.b2z c) del s1) in *.
  assert (M2' : forall x, x <> del -> x ∈ nodes l \/ x = z \/ x = del \/ x ∈ nodes rd \/ x ∈ cnodes D -> rbm s2 x = rbm s1 x)
    by (intros x Hx Hx'; apply M2; auto).
  assert (Htp : ptr (topp del D)).
  { destruct D as [|[? ? ? ? ?] D]; cbn; [by right|]. right. eapply rep_addr; [exact Rr|]. rewrite Er. apply Hn. cbn. set_solver. }
  assert (Rr2 : rep s2 p1 rd) by (eapply rep_frame; [exact Rr1|intros x Hx; apply M2'; [by intros ->|auto]]).
  destruct (adopt_wrote s2 p1 (topp del D) rd Rr2 Htp Drd) as [Rr3 S3].
  assert (F3 : forall x, x ∉ nodes rd -> rbm (adopt (addr rd) (topp del D) s2) x = rbm s2 x)
    by (intros x Hx; apply S3; by intros ?%roots_in).
  assert (Eq : rb_removeAt fuel z s = (adopt (addr rd) (topp del D) s2, addr rd, topp del D)).
  { unfold rb_removeAt, RB_HASLCHILD, RB_HASRCHILD, RB_Next.
    rewrite (known_parent _ _ _ _ _ _ _ Hp Nz), (known_color _ _ _ _ _ _ _ Hp Nz).
    rewrite (known_lc _ _ _ _ _ _ _ Nz), (known_rc _ _ _ _ _ _ _ Nz).
    rewrite (proj2 (Z.eqb_neq _ _) Hla), (proj2 (Z.eqb_neq _ _) Hra). cbn [negb].
    rewrite (proj2 (Z.eqb_neq z NULL)) by by apply node_nonnull. cbn [negb]. fold del. by rewrite E1. }
  set (s3 := adopt (addr rd) (topp del D) s2) in *.
  assert (Rd3 : rep s3 del (plug D rd)).
  { apply plug_cseg. split; [|done]. eapply cseg_frame; [exact C1|]. intros x Hx.
    rewrite F3 by (intros Hx'; by apply (DrD x)). apply M2'; [by intros ->|auto 6]. }
  assert (Rt3 : rep s3 (top C) (Node c k l del (plug D rd))).
  { cbn [rep]. split_and!; [done|done|by rewrite F3| |done].
    eapply rep_frame; [exact Rl1|]. intros x Hx. rewrite F3 by (intros Hx'; apply (Dlr x Hx); set_solver).
    apply M2'; [by intros ->|auto]. }
  assert (Cr3 : crep s3 C del).
  { eapply crep_frame; [exact C2|apply S3|]. intros x Hx. apply F3. intros Hx'. by apply (HnC x); auto. }
  set (C' := D ++ F false c k del l :: C).
  assert (Ep : forall u, plug C' u = plug C (Node c k l del (plug D u))) by (intros u; unfold C'; by rewrite plug_app).
  assert (Etop : top C' = topp del D) by (unfold C'; by destruct D as [|[? ? ? ? ?] D]).
  assert (Hfin : crep s3 C' (addr rd) /\ rep s3 (top C') rd).
  { apply plug_rep. rewrite Ep. by apply (plug_rep s3 C (Node c k l del (plug D rd))). }
  assert (Hrb' : is_rb (plug (D ++ F false c k z l :: C) (mkT true cd kd del Leaf rd))) by (rewrite plug_app; exact Hrb).
  destruct (removed_heights _ _ _ _ _ _ Hrb') as (n & HC & H0' & Hn').
  destruct (left_nodes D HD) as [Q' HQ'].
  exists C', rd, n, s3. rewrite Etop in *. split_and!; [done|apply Hfin|apply Hfin|by eapply ctx_ok_addr|done|done| | |].
  - rewrite Ep, HPQ. cbn [nodes]. rewrite HQ', Er, HQ'. cbn [nodes app]. rewrite <- !app_assoc. cbn [app]. by rewrite <- ?app_assoc.
  - intros x Hx. rewrite plug_nodes, elem_of_app in Hx. cbn [nodes] in Hx. rewrite Er, elem_of_app, elem_of_cons, Hn in Hx.
    rewrite F3, M2, M1; [done|tauto|rewrite !elem_of_app; tauto|tauto|tauto|tauto].
  - pose proof (plug_depth (D ++ F false c k z l :: C) (mkT true cd kd del Leaf rd)) as Hdp.
    rewrite plug_app in Hdp. cbn [mkT depth plug] in Hdp. unfold C'. rewrite Er. rewrite length_app in *. cbn [length] in *. lia.
Qed.

Lemma removeAt_ok fuel s C c k l z r P Q :
  let t := Node c k l z r in
  (depth r <= fuel)%nat -> crep s C z -> rep s (top C) t -> NoDup (nodes (plug C t)) -> is_rb (plug C t) ->
  (forall u, nodes (plug C u) = P ++ nodes u ++ Q) ->
  removed (nodes (plug C t)) fuel z s (P ++ nodes l ++ nodes r ++ Q) (depth (plug C t)).
Proof.
  intros t Hf Hcr HR Hd Hrb HPQ. destruct l as [|cl kl ll la lr].
  { replace (P ++ nodes Leaf ++ nodes r ++ Q) with (nodes (plug C r)) by (rewrite HPQ; done).
    by apply (removeAt_single fuel s C true c k z r); auto. }
  destruct r as [|cr kr rl ra rr].
  { replace (P ++ nodes (Node cl kl ll la lr) ++ nodes Leaf ++ Q) with (nodes (plug C (Node cl kl ll la lr))) by (rewrite HPQ; done).
    by apply (removeAt_single fuel s C false c k z (Node cl kl ll la lr)); auto. }
  by apply removeAt_both.
Qed.


Lemma split_unique (a : Z) L1 R1 L2 R2 :
  NoDup (L1 ++ a :: R1) -> L1 ++ a :: R1 = L2 ++ a :: R2 -> L1 = L2 /\ R1 = R2.
Proof.
  revert L2. induction L1 as [|x L1 IH]; intros L2 Hd E0; cbn [app] in *.
  - destruct L2 as [|y L2]; cbn [app] in *; [by simplify_eq|]. injection E0 as -> ->.
    apply list.NoDup_cons in Hd as [Hd _]. exfalso. apply Hd. set_solver.
  - apply list.NoDup_cons in Hd as [Hx Hd]. destruct L2 as [|y L2]; cbn [app] in *.
    + injection E0 as -> <-. exfalso. apply Hx. set_solver.
    + injection E0 as -> E0. by destruct (IH L2 Hd E0) as [-> ->].
Qed.

(** a red leaf turned black *)
Lemma blacken_leaf s par a :
  rep s par (Node false 0 Leaf a Leaf) ->
  (exists s', s' = update_height a (RB_SET_BLACK a s) /\ wrote a (nd par true 1 NULL NULL) s s') /\
  (exists s', s' = (let s := RB_SET_BLACK a s in set_bh a (u64 (black_height (rbm s a) + 1)) s) /\
     wrote a (nd par true 1 NULL NULL) s s').
Proof.
  intros H. pose proof H as (Hp & Ha & Hn & _ & _). split.
  - eexists. split; [done|]. apply (blacken_ok s par false 0 Leaf a Leaf 0 H); [|constructor|constructor|lia].
    cbn. apply NoDup_singleton.
  - pose proof (known_set_black s a par _ _ _ _ Hp Hn) as W1. cbv zeta. set (s1 := RB_SET_BLACK a s) in *. clearbody s1.
    rewrite (known_bh _ _ _ _ _ _ _ (proj1 (proj2 W1))). eexists. split; [done|].
    eapply wrote_twice; [exact W1|]. eapply known_set_bh. apply W1.
Qed.

Lemma remove_tail fuel s C u n ns :
  crep s C (addr u) -> rep s (top C) u -> ctx_ok C n -> rbt 0 u -> (n = 0 /\ u = Leaf \/ n = 1) ->
  nodes (plug C u) = ns -> NoDup ns -> (S (S (length C)) <= fuel)%nat ->
  rb_result ns s
    (if rb_root s =? NULL then s
     else if top C =? NULL then update_height (rb_root s) (RB_SET_BLACK (rb_root s) s)
     else if RB_HIGHT_UPDATED s (top C) then s
     else if RB_ISRED s (addr u) then
       let s := RB_SET_BLACK (addr u) s in set_bh (addr u) (u64 (black_height (rbm s (addr u)) + 1)) s
     else RB_SolveDoubleBlack fuel (addr u) (top C) s).
Proof.
  intros Hcr HR HC H0 Hn Hns Hd Hf. destruct (proj1 (plug_rep s C u) (conj Hcr HR)) as [Ro Re].
  assert (Hdu : NoDup (nodes u) /\ forall x, x ∈ nodes u -> x ∉ cnodes C).
  { rewrite <- Hns, plug_nodes in Hd. apply NoDup_app in Hd. tauto. }
  assert (Hblack : forall a s', u = Node false 0 Leaf a Leaf -> wrote a (nd (top C) true 1 NULL NULL) s s' -> n = 1 \/ C = [] -> rb_result ns s s').
  { intros a s' Hu W Hc. subst u. pose proof HR as (Hp & Ha & Hna & _).
    assert (Hac : a ∉ cnodes C) by (apply Hdu; cbn; set_solver).
    set (u' := Node true 1 Leaf a Leaf). assert (C1 : crep s' C (addr u')) by (by eapply crep_wrote).
    assert (R1 : rep s' (top C) u') by (cbn [rep u']; split_and!; [done|done|apply W|done|done]).
    destruct (proj1 (plug_rep s' C u') (conj C1 R1)) as [Ro' Re'].
    assert (H1 : rbt 1 u') by apply (rbt_black 0 Leaf a Leaf rbt_E rbt_E).
    exists (plug C u'). split_and!; [done|done| |by rewrite <- Hns; apply plug_same|].
    - destruct Hc as [-> | ->]; [|split; [done|by exists 1]]. eapply plug_ok; [done|done|by left].
    - eapply wrote_mem_out; [exact W|]. rewrite <- Hns, plug_nodes. cbn. set_solver. }
  destruct C as [|[d ch kh h x] C]; cbn [top] in *.
  - cbn [plug crep] in *. rewrite Ro. destruct u as [|cu ku ul ua ur].
    { cbn [addr]. rewrite Z.eqb_refl. exists Leaf. subst ns. split_and!; try done. by split; [|exists 0; constructor]. }
    destruct (rbt0_children _ _ _ _ _ _ H0 eq_refl) as (-> & -> & -> & ->). pose proof HR as (Hp & Ha & _). cbn [addr].
    rewrite (proj2 (Z.eqb_neq ua NULL)) by by apply node_nonnull. rewrite Z.eqb_refl.
    destruct (blacken_leaf _ _ _ HR) as [(s' & -> & W) _]. by eapply Hblack; [|exact W|right].
  - pose proof Hcr as (Hph & Hh & Nh & Rx & Hcr').
    assert (Hrt : rb_root s <> NULL).
    { rewrite Ro. intros E0. apply (rep_addr_null _ _ _ Re) in E0.
      assert (Hin : h ∈ nodes (plug (F d ch kh h x :: C) u)) by (rewrite plug_nodes; cbn; set_solver).
      rewrite E0 in Hin. by apply elem_of_nil in Hin. }
    rewrite (proj2 (Z.eqb_neq _ _) Hrt), (proj2 (Z.eqb_neq h NULL)) by by apply node_nonnull.
    assert (Hx : rbt n x /\ kh = if ch then n + 1 else n).
    { cbn [ctx_ok] in HC. destruct ch; by destruct HC as (? & ? & _). }
    destruct Hx as [Hx ->].
    assert (Eu : RB_HIGHT_UPDATED s h = (n =? 0)).
    { unfold RB_HIGHT_UPDATED. rewrite (known_lc _ _ _ _ _ _ _ Nh), (known_rc _ _ _ _ _ _ _ Nh), (known_bh _ _ _ _ _ _ _ Nh).
      unfold RB_ISRED. rewrite (known_black _ _ _ _ _ _ _ Hph Nh) by by apply node_nonnull.
      assert (Hhu : RB_HIGHT s (addr u) = 0) by (rewrite (rep_hight _ _ _ HR); by apply rbt_hgt).
      assert (Hhx : RB_HIGHT s (addr x) = n) by (rewrite (rep_hight _ _ _ Rx); by apply rbt_hgt).
      destruct Hn as [[-> _] | ->]; destruct d; rewrite ?Hhu, ?Hhx; [| |done|done]; by destruct ch. }
    rewrite Eu. destruct Hn as [[-> ->] | ->]; cbn [Z.eqb].
    { eexists. split_and!; [exact Ro|exact Re| |exact Hns|by intros y _].
      eapply plug_ok; [exact HC|exact H0|by left]. }
    unfold RB_ISRED. rewrite (rep_isblack _ _ _ HR).
    destruct u as [|cu ku ul ua ur]; cbn [blk negb].
    + rewrite <- Hns. apply (solve_black_ok fuel (F d ch (if ch then 1 + 1 else 1) h x :: C) 0 Leaf); try done.
      * cbn [db_fuel length] in *. destruct ch; lia.
      * by rewrite Hns.
    + destruct (rbt0_children _ _ _ _ _ _ H0 eq_refl) as (-> & -> & -> & ->). cbn [negb addr].
      destruct (blacken_leaf _ _ _ HR) as [_ (s' & -> & W)]. by eapply Hblack; [|exact W|left].
Qed.

Lemma remove_effect fuel s t a L R :
  rb_root s = addr t -> rep s NULL t -> is_rb t -> NoDup (nodes t) -> nodes t = L ++ a :: R ->
  (log_fuel (length (nodes t)) < fuel)%nat ->
  exists t', rb_root (RB_Remove fuel a s) = addr t' /\ rep (RB_Remove fuel a s) NULL t' /\ is_rb t' /\
    nodes t' = L ++ R /\ mem_out (nodes t) s (RB_Remove fuel a s).
Proof.
  intros Hro HR Hrb Hd Hns Hf. pose proof (rb_depth _ Hrb) as Hdep.
  assert (Ha : node_addr a) by (eapply rep_addr; [exact HR|rewrite Hns; set_solver]).
  destruct (find_ctx t a) as (C & c & k & l & r & ->); [rewrite Hns; set_solver|].
  destruct (ctx_nodes C) as (P & Q & HPQ).
  assert (EL : L = P ++ nodes l /\ R = nodes r ++ Q).
  { rewrite Hns in Hd. apply (split_unique a); [done|]. rewrite <- Hns, HPQ. cbn [nodes]. rewrite <- !app_assoc. done. }
  destruct EL as [-> ->]. pose proof (plug_depth C (Node c k l a r)) as Hpd. cbn [depth] in Hpd.
  destruct (proj2 (plug_rep s C (Node c k l a r)) (conj Hro HR)) as [Hcr Hrep].
  destruct (removeAt_ok fuel s C c k l a r P Q) as (C' & u & n & s1 & E1 & C1 & R1 & HC & H0 & Hn & En & Mo & Hlen);
    [lia|done|done|done|done|done|].
  unfold RB_Remove. rewrite (proj2 (Z.eqb_neq a NULL)) by by apply node_nonnull.
  assert (Hrn : rb_root s <> NULL).
  { intros E0. rewrite Hro in E0. apply (rep_addr_null _ _ _ HR) in E0. rewrite E0 in Hns.
    cbn in Hns. symmetry in Hns. apply (f_equal length) in Hns. rewrite length_app in Hns. cbn in Hns. lia. }
  rewrite (proj2 (Z.eqb_neq _ _) Hrn). cbn [orb]. rewrite E1.
  assert (Hd' : NoDup (P ++ nodes l ++ nodes r ++ Q)).
  { rewrite HPQ in Hd. cbn [nodes] in Hd.
    assert (Hp : NoDup (a :: P ++ nodes l ++ nodes r ++ Q)) by (eapply NoDup_Permutation_proper; [|exact Hd]; solve_perm).
    by apply list.NoDup_cons in Hp as [_ ?]. }
  destruct (remove_tail fuel s1 C' u n _ C1 R1 HC H0 Hn En Hd' ltac:(lia)) as (t' & Ro' & Re' & Rb' & Nt' & Mt').
  exists t'. rewrite <- app_assoc. split_and!; [done..|].
  eapply mem_out_trans; [exact Mo|]. eapply mem_out_incl; [exact Mt'|]. rewrite HPQ. cbn [nodes].
  intros x. rewrite !elem_of_app, elem_of_cons. tauto.
Qed.

Section IndexTheorems.
Variable page_addr : Z -> Z.
Local Notation page_index := (page_index page_addr).
Local Notation insert := (page_chunk_rb_tree_insert page_addr).
Local Notation search := (page_chunk_rb_tree_search page_addr).

Lemma removed_index s L a R fuel s' :
  page_index s (L ++ a :: R) -> (log_fuel (length (L ++ a :: R)) < fuel)%nat -> wrote a (mk_rb 0 0 NULL NULL) (RB_Remove fuel a s) s' ->
  page_index s' (L ++ R) /\ rbm s' a = mk_rb 0 0 NULL NULL /\ mem_out (L ++ a :: R) s s'.
Proof.
  intros [(t & Hro & HR & Hrb & Hns) HS] Hf W. pose proof (sorted_NoDup _ _ HS) as Hd.
  assert (Hf' : (log_fuel (length (nodes t)) < fuel)%nat) by by rewrite Hns.
  assert (Hd' : NoDup (nodes t)) by by rewrite Hns.
  destruct (remove_effect fuel s t a L R Hro HR Hrb Hd' Hns Hf') as (t' & Ro & Re & Rb & Nt & Mt).
  assert (Han : a ∉ nodes t').
  { rewrite Nt. apply NoDup_app in Hd as (_ & Hd1 & Hd2). apply list.NoDup_cons in Hd2 as [Hd2 _].
    rewrite elem_of_app. intros [Hx|Hx]; [apply (Hd1 a Hx); set_solver|done]. }
  split_and!.
  - split.
    + exists t'. split_and!; [rewrite (proj1 W); exact Ro|by eapply rep_wrote|done|done].
    + apply sorted_mid in HS. tauto.
  - apply W.
  - intros x Hx. rewrite (proj2 (proj2 W)); [apply Mt; by rewrite Hns|]. intros ->. apply Hx. set_solver.
Qed.
Lemma remove_index s L a R fuel :
  page_index s (L ++ a :: R) -> (log_fuel (length (L ++ a :: R)) < fuel)%nat ->
  let s' := page_chunk_rb_tree_remove fuel a s in
  page_index s' (L ++ R) /\ rbm s' a = mk_rb 0 0 NULL NULL /\ mem_out (L ++ a :: R) s s'.
Proof.
  intros Hi Hf. apply (removed_index s L a R fuel); [done|done|]. unfold page_chunk_rb_tree_remove, set_left, set_right, set_pc, set_bh, upd.
  split; [done|]. cbn [rbm]. rewrite !fn_insert_same. split; [done|]. intros x Hx. by rewrite !fn_insert_other.
Qed.

(** C27 (functional): linking a fresh node into the page-chunk index keeps the
    tree a red-black search tree that holds exactly one node more, at its place
    in key order, touches no memory outside the tree, and does nothing when
    the key is taken; the repair loop ends within the logarithmic depth. *)
Theorem page_chunk_insert_spec s ns node fuel :
  page_index s ns -> node_addr node -> node ∉ ns ->
  RB_COLOR s node = RB_RED -> black_height (rbm s node) = 0 ->
  (log_fuel (length ns) < fuel)%nat ->
  let s' := insert fuel node s in
  ((exists a, a ∈ ns /\ page_addr a = page_addr node) /\ s' = s) \/
  ((forall a, a ∈ ns -> page_addr a <> page_addr node) /\
   exists L R, ns = L ++ R /\ page_index s' (L ++ node :: R) /\ mem_out (node :: ns) s s').
Proof. apply insert_effect. Qed.

(** C26 (invariant): removing a node from the page-chunk index keeps the tree a
    red-black search tree that holds exactly the other nodes, in order; the
    node's link fields are cleared and no memory outside the tree moves. *)
Theorem page_chunk_remove_spec s L node R fuel :
  page_index s (L ++ node :: R) -> (log_fuel (length (L ++ node :: R)) < fuel)%nat ->
  let s' := page_chunk_rb_tree_remove fuel node s in
  page_index s' (L ++ R) /\ rbm s' node = mk_rb 0 0 NULL NULL /\ mem_out (L ++ node :: R) s s'.
Proof. apply remove_index. Qed.

(** (bounds): a lookup inspects at most [2 log2 (n + 1)] nodes of an index
    of [n] nodes, and returns the node with the key, or NULL exactly when no
    node has it. *)
Theorem page_chunk_search_bound s ns key fuel :
  page_index s ns -> (2 * Z.log2 (Z.of_nat (length ns) + 1) < Z.of_nat fuel) ->
  let r := search fuel s key in
  (r = NULL /\ forall a, a ∈ ns -> page_addr a <> key) \/ (r ∈ ns /\ page_addr r = key /\ r <> NULL).
Proof.
  intros [(t & Hro & HR & Hrb & <-) HS] Hf. unfold page_chunk_rb_tree_search. rewrite Hro.
  apply (search_ok page_addr fuel s key t NULL); [|done|done].
  pose proof (rb_depth _ Hrb). pose proof (Z.log2_nonneg (Z.of_nat (length (nodes t)) + 1)). unfold log_fuel in *. lia.
Qed.
End IndexTheorems.

(** ** Witnesses *)

Definition demo_key (a : Z) : Z := a * 4096.
Definition demo_tree : rb_tree :=
  fold_left (fun s a => page_chunk_rb_tree_insert demo_key 8 a s) [32; 16; 48; 64]
    (mk_rbs (fun _ => mk_rb 0 0 NULL NULL) NULL).

Lemma demo_node a : In a [16; 32; 48; 64] -> node_addr a.
Proof. cbn. intros H. decompose [or] H; subst; try done; by split. Qed.

Lemma demo_sorted l : StronglySorted (lt_key demo_key) l <-> StronglySorted Z.lt l.
Proof.
  split; induction 1 as [|x l Hl IH Hf]; constructor; try done; rewrite Forall_forall in *;
    intros y Hy; specialize (Hf y Hy); unfold lt_key, demo_key in *; lia.
Qed.

Lemma demo_index : page_index demo_key demo_tree [16; 32; 48; 64].
Proof.
  split.
  - exists (Node true 2 (Node true 1 Leaf 16 Leaf) 32 (Node true 1 Leaf 48 (Node false 0 Leaf 64 Leaf))).
    assert (H16 := demo_node 16 ltac:(cbn; tauto)). assert (H32 := demo_node 32 ltac:(cbn; tauto)).
    assert (H48 := demo_node 48 ltac:(cbn; tauto)). assert (H64 := demo_node 64 ltac:(cbn; tauto)).
    split; [vm_compute; reflexivity|]. split.
    { cbn [rep]. split_and!; try done; try (by left); try (by right); vm_compute; reflexivity. }
    split; [|done]. split; [done|]. exists 2.
    apply (rbt_black 1); [apply (rbt_black 0)|apply (rbt_black 0)]; repeat constructor.
  - apply demo_sorted. repeat constructor.
Qed.

Lemma page_chunk_insert_spec_witness :
  let s' := page_chunk_rb_tree_insert demo_key 9 80 demo_tree in
  ((exists a, a ∈ [16; 32; 48; 64] /\ demo_key a = demo_key 80) /\ s' = demo_tree) \/
  ((forall a, a ∈ [16; 32; 48; 64] -> demo_key a <> demo_key 80) /\
   exists L R, [16; 32; 48; 64] = L ++ R /\ page_index demo_key s' (L ++ 80 :: R) /\
     mem_out [80; 16; 32; 48; 64] demo_tree s').
Proof.
  apply (page_chunk_insert_spec demo_key demo_tree [16; 32; 48; 64] 80 9).
  - exact demo_index.
  - by split.
  - apply (bool_decide_unpack _). vm_compute. exact I.
  - vm_compute. reflexivity.
  - vm_compute. reflexivity.
  - vm_compute. lia.
Defined.

Lemma page_chunk_remove_spec_witness :
  let s' := page_chunk_rb_tree_remove 9 32 demo_tree in
  page_index demo_key s' [16; 48; 64] /\ rbm s' 32 = mk_rb 0 0 NULL NULL /\
  mem_out [16; 32; 48; 64] demo_tree s'.
Proof.
  apply (page_chunk_remove_spec demo_key demo_tree [16] 32 [48; 64] 9).
  - exact demo_index.
  - vm_compute. lia.
Defined.

Lemma page_chunk_search_bound_witness :
  let r := page_chunk_rb_tree_search demo_key 6 demo_tree (48 * 4096) in
  (r = NULL /\ forall a, a ∈ [16; 32; 48; 64] -> demo_key a <> 48 * 4096) \/
  (r ∈ [16; 32; 48; 64] /\ demo_key r = 48 * 4096 /\ r <> NULL).
Proof.
  apply (page_chunk_search_bound demo_key demo_tree [16; 32; 48; 64] (48 * 4096) 6).
  - exact demo_index.
  - vm_compute. reflexivity.
Defined.
