(* ===== verification/KernelPages.v ===== *)
(** * Whole pages for the kernel heap

    [core_get_free_pages], [core_free_pages] and the owner lookup at the head of
    [kernel/mm/kmalloc.c].  The frame allocator, the radix tree and the page
    tables are reached through the operations of [VSpaceOps]; [VSpaceLedger] is
    what the heap needs of them: the frames handed out and not yet returned. *)
From stdpp Require Import list_numbers gmap sets.
From S2P Require Import Prelude Mm TaggedPtr.

Definition KERNEL_VIRT_OFFSET : Z := 0xffff800000000000.
Definition KERNEL_PHY_TO_VIRT (phy_addr : Z) : Z := u64 (phy_addr + KERNEL_VIRT_OFFSET).
Definition KERNEL_VIRT_TO_PHY (virt_addr : Z) : Z := u64 (virt_addr - KERNEL_VIRT_OFFSET).
Definition INVALID_CPU_ID : Z := -1.

Definition RADIX_RL_INSERT : Z := 0.
Definition RADIX_RL_DELETE : Z := 1.
Definition RADIX_RL_QUERY_OR_CHANGE : Z := 2.

(** the range check of [kernel/mm/vmm_radix_tree.c] *)
Definition RADIX_TREE_LEVEL3 : Z := 3.
Definition radix_level_step : list Z := [HUGE_PAGE_SIZE; GIGAN_PAGE_SIZE; MIDDLE_PAGE_SIZE; PAGE_SIZE].
Definition get_gran_from_level (level : Z) : Z :=
  if (level <? 0) || (3 <? level) then 0 else radix_level_step !!! Z.to_nat level.
Definition radix_check_range (start stop level : Z) : bool :=
  let align := get_gran_from_level level in
  if align =? 0 then false
  else if negb (ALIGNED start align) || (stop <=? start) then false
  else true.
Definition vmm_radix_tree_calculate_end_check (vaddr_start page_number : Z) : option Z :=
  if page_number =? 0 then None
  else if U64_MAX / PAGE_SIZE <? page_number then None
  else
    let vaddr_end := u64 (vaddr_start + u64 (page_number * PAGE_SIZE)) in
    if vaddr_end <? vaddr_start then None
    else if radix_check_range vaddr_start vaddr_end RADIX_TREE_LEVEL3 then Some vaddr_end else None.

(** the calls these functions make; results are the C return values *)
Class VSpaceOps (V : Type) := {
  vs_pmm : V -> bool;                                     (* vs->pmm is set *)
  vs_pmm_alloc : V -> Z -> Z * Z * V;                     (* pmm->pmm_alloc: ppn, pages_allocated *)
  vs_pmm_free : V -> Z -> Z -> Z * V;                     (* pmm->pmm_free *)
  radix_lock : V -> Z -> Z -> Z -> Z * V;                 (* lock_range_big_and_small *)
  radix_unlock : V -> Z -> Z -> Z * V;                    (* unlock_range_big_and_small *)
  radix_insert_range : V -> Z -> Z -> Z -> Z -> Z * V;    (* owner, start, flags, end *)
  radix_leaf_bind_range : V -> Z -> Z -> Z -> Z -> Z * V; (* start, ppn, end, flags *)
  radix_leaf_unbind_range : V -> Z -> Z -> Z -> Z * V;    (* start, ppn, end *)
  radix_query_range : V -> Z -> Z -> Z * Z;               (* error, owner *)
  vs_map : V -> Z -> Z -> Z -> Z -> Z * V;                (* ppn, vpn, level, flags *)
  vs_unmap : V -> Z -> Z * V;                             (* vpn *)
  rmap_owner : V -> Z -> option (option Z)                (* the frame's Page: its owner when one leaf is linked *)
}.

Section CorePages.
Context {V : Type} `{VSpaceOps V}.

Definition kmem_radix_owner_cpu_from_tagged (owner : Z) : Z :=
  if tp_is_none owner then INVALID_CPU_ID
  else
    let cpu := tp_get_tag owner in
    if RENDEZVOS_MAX_CPU_NUMBER <=? cpu then INVALID_CPU_ID else cpu.

Definition kmem_radix_kernel_heap_owner_cpu (v : V) (kva : Z) : Z * V :=
  if kva <? KERNEL_VIRT_OFFSET then (INVALID_CPU_ID, v)
  else if negb (vs_pmm v) then (INVALID_CPU_ID, v)
  else
    let vaddr_start := ROUND_DOWN kva PAGE_SIZE in
    let ppn := PPN (KERNEL_VIRT_TO_PHY vaddr_start) in
    if invalid_ppn ppn then (INVALID_CPU_ID, v)
    else
      let found :=
        match rmap_owner v ppn with
        | Some (Some owner) => kmem_radix_owner_cpu_from_tagged owner
        | _ => INVALID_CPU_ID
        end in
      if negb (found =? INVALID_CPU_ID) then (found, v)
      else
        match vmm_radix_tree_calculate_end_check vaddr_start 1 with
        | None => (INVALID_CPU_ID, v)
        | Some vaddr_end =>
          let '(e, v) := radix_lock v vaddr_start vaddr_end RADIX_RL_QUERY_OR_CHANGE in
          if negb (e =? REND_SUCCESS) then (INVALID_CPU_ID, v)
          else
            let '(err_query, owner) := radix_query_range v vaddr_start vaddr_end in
            let '(_, v) := radix_unlock v vaddr_start vaddr_end in
            if negb (err_query =? REND_SUCCESS) then (INVALID_CPU_ID, v)
            else (kmem_radix_owner_cpu_from_tagged owner, v)
        end.

(** the mapping loop: [left] pages to go, [mapped_count] done *)
Fixpoint map_pages (v : V) (free_page_addr ppn flags mapped_count : Z) (left : nat) : bool * nat * V :=
  match left with
  | O => (true, Z.to_nat mapped_count, v)
  | S left' =>
    let va := u64 (free_page_addr + mapped_count * PAGE_SIZE) in
    let '(map_error, v) := vs_map v (i64 (ppn + mapped_count)) (VPN va) 3 flags in
    if negb (map_error =? REND_SUCCESS) then (false, Z.to_nat mapped_count, v)
    else map_pages v free_page_addr ppn flags (mapped_count + 1) left'
  end.

Fixpoint unmap_rollback (v : V) (free_page_addr : Z) (mapped_count : nat) : V :=
  match mapped_count with
  | O => v
  | S n =>
    let va := u64 (free_page_addr + Z.of_nat n * PAGE_SIZE) in
    unmap_rollback (snd (vs_unmap v (VPN va))) free_page_addr n
  end.

(** label [before_lock_fail]: shrink the radix reservation, then give the
    frames back *)
Definition release_reservation (v : V) (free_page_addr vaddr_end ppn page_num : Z) : Z * V :=
  let '(e, v) := radix_lock v free_page_addr vaddr_end RADIX_RL_DELETE in
  let v := if e =? REND_SUCCESS then snd (radix_unlock v free_page_addr vaddr_end) else v in
  (NULL, snd (vs_pmm_free v ppn page_num)).

(** from the radix reservation on, with exactly [page_num] frames in hand *)
Definition install_pages (v : V) (owner_tp leaf_eflags ppn page_num : Z) : Z * V :=
  let free_page_addr := KERNEL_PHY_TO_VIRT (PADDR ppn) in
  match vmm_radix_tree_calculate_end_check free_page_addr page_num with
  | None => (NULL, snd (vs_pmm_free v ppn page_num))
  | Some vaddr_end =>
    let '(e, v) := radix_lock v free_page_addr vaddr_end RADIX_RL_INSERT in
    if negb (e =? REND_SUCCESS) then (NULL, snd (vs_pmm_free v ppn page_num))
    else
      let '(e, v) := radix_insert_range v owner_tp free_page_addr leaf_eflags vaddr_end in
      let v := snd (radix_unlock v free_page_addr vaddr_end) in
      if negb (e =? REND_SUCCESS) then release_reservation v free_page_addr vaddr_end ppn page_num
      else
        let '(ok, mapped, v) := map_pages v free_page_addr ppn leaf_eflags 0 (Z.to_nat page_num) in
        let rollback v := release_reservation (unmap_rollback v free_page_addr mapped) free_page_addr vaddr_end ppn page_num in
        if negb ok then rollback v
        else
          let '(e, v) := radix_lock v free_page_addr vaddr_end RADIX_RL_QUERY_OR_CHANGE in
          if negb (e =? REND_SUCCESS) then rollback v
          else
            let '(e, v) := radix_leaf_bind_range v free_page_addr ppn vaddr_end leaf_eflags in
            let v := snd (radix_unlock v free_page_addr vaddr_end) in
            if negb (e =? REND_SUCCESS) then rollback v else (free_page_addr, v)
  end.

(** [insert_root_vs]: [vs->root_vs ? vs->root_vs : vs] *)
Definition core_get_free_pages (v : V) (insert_root_vs alloc_cpu page_num flags : Z) : Z * V :=
  let kheap_leaf_base := Z.lor PAGE_ENTRY_GLOBAL (Z.lor PAGE_ENTRY_READ (Z.lor PAGE_ENTRY_VALID PAGE_ENTRY_WRITE)) in
  let extra := if flags =? PAGE_ENTRY_NONE then 0 else flags in
  let leaf_eflags := Z.lor kheap_leaf_base (entry_flags_rm_sw_flags extra) in
  let owner_tp := tp_new insert_root_vs (u16 alloc_cpu) in
  if page_num =? 0 then (NULL, v)
  else if negb (vs_pmm v) then (NULL, v)
  else
    let '(ppn, pages_allocated, v) := vs_pmm_alloc v page_num in
    if invalid_ppn ppn then (NULL, v)
    else if pages_allocated <? page_num then (NULL, snd (vs_pmm_free v ppn pages_allocated))
    else
      let v := if page_num <? pages_allocated
               then snd (vs_pmm_free v (i64 (ppn + page_num)) (pages_allocated - page_num)) else v in
      install_pages v owner_tp leaf_eflags ppn page_num.

Fixpoint unmap_all (v : V) (p i : Z) (left : nat) (err : Z) : Z * V :=
  match left with
  | O => (err, v)
  | S left' =>
    let '(ppn, v) := vs_unmap v (VPN (u64 (p + i * PAGE_SIZE))) in
    unmap_all v p (i + 1) left' (if invalid_ppn ppn then - E_RENDEZVOS else err)
  end.

Definition core_free_pages (v : V) (p page_num : Z) : Z * V :=
  if (p =? NULL) || (page_num =? 0) || negb (vs_pmm v) then (- E_IN_PARAM, v)
  else if negb (ROUND_DOWN p PAGE_SIZE =? p) then (- E_IN_PARAM, v)
  else
    let ppn_first := PPN (KERNEL_VIRT_TO_PHY p) in
    if invalid_ppn ppn_first then (- E_IN_PARAM, v)
    else
      match vmm_radix_tree_calculate_end_check p page_num with
      | None => (- E_IN_PARAM, v)
      | Some vaddr_end =>
        let '(err, v) := radix_lock v p vaddr_end RADIX_RL_QUERY_OR_CHANGE in
        if negb (err =? REND_SUCCESS) then (err, v)
        else
          let '(err, v) := radix_leaf_unbind_range v p ppn_first vaddr_end in
          if negb (err =? REND_SUCCESS) then (err, snd (radix_unlock v p vaddr_end))
          else
            let '(err, v) := radix_unlock v p vaddr_end in
            if negb (err =? REND_SUCCESS) then (err, v)
            else
              let '(err, v) := unmap_all v p 0 (Z.to_nat page_num) err in
              if negb (err =? REND_SUCCESS) then (err, v)
              else
                let '(err, v) := radix_lock v p vaddr_end RADIX_RL_DELETE in
                if negb (err =? REND_SUCCESS) then (err, v)
                else
                  let '(err, v) := radix_unlock v p vaddr_end in
                  if negb (err =? REND_SUCCESS) then (err, v)
                  else vs_pmm_free v ppn_first page_num
      end.
End CorePages.

(** * Frames are conserved *)

Definition frames (ppn n : Z) : gset Z := list_to_set (seqZ ppn n).

Lemma elem_frames x ppn n : x ∈ frames ppn n <-> ppn <= x < ppn + n.
Proof. unfold frames. rewrite elem_of_list_to_set, elem_of_seqZ. lia. Qed.

(** what the heap relies on: the set of frames handed out *)
Class VSpaceLedger (V : Type) `{VSpaceOps V} := {
  owned : V -> gset Z;
  ledger_alloc : forall v n ppn got v', vs_pmm_alloc v n = (ppn, got, v') ->
    if invalid_ppn ppn then owned v' = owned v
    else 0 < got /\ 0 <= ppn /\ ppn + got <= 2 ^ 35 /\ frames ppn got ## owned v /\
         owned v' = owned v ∪ frames ppn got;
  ledger_free : forall v ppn n, 0 < n -> frames ppn n ⊆ owned v ->
    fst (vs_pmm_free v ppn n) = REND_SUCCESS /\ owned (snd (vs_pmm_free v ppn n)) = owned v ∖ frames ppn n;
  ledger_lock : forall v a b m, owned (snd (radix_lock v a b m)) = owned v;
  ledger_unlock : forall v a b, owned (snd (radix_unlock v a b)) = owned v;
  ledger_insert : forall v o a f b, owned (snd (radix_insert_range v o a f b)) = owned v;
  ledger_bind : forall v a p b f, owned (snd (radix_leaf_bind_range v a p b f)) = owned v;
  ledger_unbind : forall v a p b, owned (snd (radix_leaf_unbind_range v a p b)) = owned v;
  ledger_map : forall v p a l f, owned (snd (vs_map v p a l f)) = owned v;
  ledger_unmap : forall v a, owned (snd (vs_unmap v a)) = owned v
}.

(** the buddy block behind a chunk starts at a multiple of its size *)
Class ChunkAligned (V : Type) `{VSpaceOps V} :=
  chunk_aligned : forall v ppn got v', vs_pmm_alloc v 4 = (ppn, got, v') -> invalid_ppn ppn = false -> ppn mod 4 = 0.

Section Ledger.
Context {V : Type} `{VSpaceLedger V}.

Lemma map_pages_owned v a ppn f m left : owned (snd (map_pages v a ppn f m left)) = owned v.
Proof.
  revert v m. induction left as [|left IH]; intros v m; cbn [map_pages]; [done|].
  pose proof (ledger_map v (i64 (ppn + m)) (VPN (u64 (a + m * PAGE_SIZE))) 3 f) as L.
  destruct (vs_map _ _ _ _ _) as [e v1]. cbn [snd] in L. destruct (negb _); [done|]. by rewrite IH.
Qed.
Lemma unmap_rollback_owned v a n : owned (unmap_rollback v a n) = owned v.
Proof. revert v. induction n as [|n IH]; intros v; cbn [unmap_rollback]; [done|]. by rewrite IH, ledger_unmap. Qed.
Lemma unmap_all_owned v p i left err : owned (snd (unmap_all v p i left err)) = owned v.
Proof.
  revert v i err. induction left as [|left IH]; intros v i err; cbn [unmap_all]; [done|].
  pose proof (ledger_unmap v (VPN (u64 (p + i * PAGE_SIZE)))) as L. destruct (vs_unmap _ _) as [q v1].
  cbn [snd] in L. by rewrite IH.
Qed.

Lemma free_owned v ppn n : 0 < n -> frames ppn n ⊆ owned v -> owned (snd (vs_pmm_free v ppn n)) = owned v ∖ frames ppn n.
Proof. intros Hn Hf. by destruct (ledger_free v ppn n Hn Hf). Qed.

Lemma release_owned v a b ppn n :
  0 < n -> frames ppn n ⊆ owned v ->
  fst (release_reservation v a b ppn n) = NULL /\
  owned (snd (release_reservation v a b ppn n)) = owned v ∖ frames ppn n.
Proof.
  intros Hn Hf. unfold release_reservation. pose proof (ledger_lock v a b RADIX_RL_DELETE) as L.
  destruct (radix_lock _ _ _ _) as [e v1]. cbn [snd fst] in *. split; [done|].
  assert (Hv : owned (if e =? REND_SUCCESS then snd (radix_unlock v1 a b) else v1) = owned v).
  { destruct (e =? REND_SUCCESS); [by rewrite ledger_unlock|done]. }
  rewrite free_owned; [by rewrite Hv|done|by rewrite Hv].
Qed.

Lemma kernel_addr ppn : 0 <= ppn < 2 ^ 35 -> KERNEL_PHY_TO_VIRT (PADDR ppn) = ppn * 4096 + KERNEL_VIRT_OFFSET.
Proof.
  intros Hp. unfold KERNEL_PHY_TO_VIRT, KERNEL_VIRT_OFFSET. rewrite PADDR_small by lia. apply u64_small. lia.
Qed.
Lemma kernel_addr_nonnull ppn : 0 <= ppn < 2 ^ 35 -> KERNEL_PHY_TO_VIRT (PADDR ppn) <> NULL.
Proof. intros Hp. rewrite kernel_addr by done. unfold KERNEL_VIRT_OFFSET, NULL. lia. Qed.
Lemma kernel_addr_ppn ppn : 0 <= ppn < 2 ^ 35 -> PPN (KERNEL_VIRT_TO_PHY (KERNEL_PHY_TO_VIRT (PADDR ppn))) = ppn.
Proof.
  intros Hp. rewrite kernel_addr by done. unfold KERNEL_VIRT_TO_PHY.
  replace (ppn * 4096 + KERNEL_VIRT_OFFSET - KERNEL_VIRT_OFFSET) with (ppn * 4096) by lia.
  rewrite u64_small by lia. rewrite PPN_small by lia. by rewrite Z.div_mul by lia.
Qed.

(** after the radix reservation: the pages are installed, or all given back *)
Lemma install_owned v o f ppn n :
  0 < n -> 0 <= ppn < 2 ^ 35 -> frames ppn n ⊆ owned v ->
  let '(a, v') := install_pages v o f ppn n in
  (a = NULL /\ owned v' = owned v ∖ frames ppn n) \/
  (a = KERNEL_PHY_TO_VIRT (PADDR ppn) /\ a <> NULL /\ owned v' = owned v).
Proof.
  intros Hn Hp Hf. unfold install_pages. set (a := KERNEL_PHY_TO_VIRT (PADDR ppn)).
  assert (Hrel : forall v1 b, owned v1 = owned v ->
    let '(r, v') := release_reservation v1 a b ppn n in
    (r = NULL /\ owned v' = owned v ∖ frames ppn n) \/ (r = a /\ r <> NULL /\ owned v' = owned v)).
  { intros v1 b E. destruct (release_owned v1 a b ppn n Hn) as [R1 R2]; [by rewrite E|].
    destruct (release_reservation _ _ _ _ _) as [r v']. cbn [fst snd] in *. left. by rewrite R2, E. }
  destruct (vmm_radix_tree_calculate_end_check a n) as [b|]; [|left; by rewrite free_owned].
  pose proof (ledger_lock v a b RADIX_RL_INSERT) as L1. destruct (radix_lock _ _ _ _) as [e1 v1]. cbn [snd] in L1.
  destruct (negb _). { left. split; [done|]. rewrite free_owned by (done || by rewrite L1). by rewrite L1. }
  pose proof (ledger_insert v1 o a f b) as L2. destruct (radix_insert_range _ _ _ _ _) as [e2 v2]. cbn [snd] in L2.
  pose proof (ledger_unlock v2 a b) as L3. set (v3 := snd (radix_unlock v2 a b)) in *. clearbody v3.
  destruct (negb _). { apply Hrel. congruence. }
  pose proof (map_pages_owned v3 a ppn f 0 (Z.to_nat n)) as L4. destruct (map_pages _ _ _ _ _ _) as [[ok mapped] v4].
  cbn [snd] in L4. destruct ok; cbn [negb]; [|apply Hrel; rewrite unmap_rollback_owned; congruence].
  pose proof (ledger_lock v4 a b RADIX_RL_QUERY_OR_CHANGE) as L5. destruct (radix_lock _ _ _ _) as [e5 v5]. cbn [snd] in L5.
  destruct (negb _). { apply Hrel. rewrite unmap_rollback_owned. congruence. }
  pose proof (ledger_bind v5 a ppn b f) as L6. destruct (radix_leaf_bind_range _ _ _ _ _) as [e6 v6]. cbn [snd] in L6.
  pose proof (ledger_unlock v6 a b) as L7. set (v7 := snd (radix_unlock v6 a b)) in *. clearbody v7.
  destruct (negb _). { apply Hrel. rewrite unmap_rollback_owned. congruence. }
  right. split; [done|]. split; [by apply kernel_addr_nonnull|]. congruence.
Qed.

Lemma get_pages_effect v r cpu n fl :
  0 <= n ->
  let '(a, v') := core_get_free_pages v r cpu n fl in
  (a = NULL /\ owned v' = owned v) \/
  (exists ppn, a = KERNEL_PHY_TO_VIRT (PADDR ppn) /\ a <> NULL /\ 0 < n /\ 0 <= ppn /\ ppn + n <= 2 ^ 35 /\
     frames ppn n ## owned v /\ owned v' = owned v ∪ frames ppn n /\
     exists got w, vs_pmm_alloc v n = (ppn, got, w) /\ invalid_ppn ppn = false).
Proof.
  intros Hn. unfold core_get_free_pages. destruct (Z.eqb_spec n 0) as [|Hn0]; [by left|].
  destruct (negb (vs_pmm v)); [by left|].
  pose proof (ledger_alloc v n) as LA. destruct (vs_pmm_alloc v n) as [[ppn got] v1]. specialize (LA _ _ _ eq_refl).
  destruct (invalid_ppn ppn) eqn:Ei; [by left|]. destruct LA as (Hg & Hp & Hb & Hd & Ho).
  destruct (Z.ltb_spec got n).
  { left. split; [done|]. rewrite free_owned by (done || set_solver). set_solver. }
  set (v2 := if n <? got then _ else v1).
  assert (Ho2 : owned v2 = owned v ∪ frames ppn n).
  { subst v2. destruct (Z.ltb_spec n got).
    - rewrite (i64_small (ppn + n)) by lia. rewrite free_owned; [|lia|].
      + rewrite Ho. apply set_eq. intros x. specialize (Hd x).
        rewrite elem_of_difference, !elem_of_union, !elem_frames in *. split; [intuition lia|]. intros [Hx|Hx]; [|intuition lia].
        split; [by left|]. intros Hx'. apply Hd; [lia|done].
      + rewrite Ho. intros x. rewrite elem_of_union, !elem_frames. intros. right. lia.
    - assert (got = n) as -> by lia. done. }
  assert (Hdn : frames ppn n ## owned v).
  { intros x Hx. apply Hd. rewrite elem_frames in *. lia. }
  match goal with |- context [install_pages v2 ?o ?f ppn n] => pose proof (install_owned v2 o f ppn n ltac:(lia) ltac:(lia)) as I;
    destruct (install_pages v2 o f ppn n) as [a v'] end.
  destruct I as [[-> Hv]|(-> & Hnn & Hv)]; [set_solver| |].
  - left. split; [done|]. rewrite Hv, Ho2. set_solver.
  - right. exists ppn. split_and!; try done; [lia..|congruence|]. by exists got, v1.
Qed.

Lemma free_pages_effect v p n :
  0 <= n -> frames (PPN (KERNEL_VIRT_TO_PHY p)) n ⊆ owned v ->
  let '(e, v') := core_free_pages v p n in
  (e = REND_SUCCESS /\ owned v' = owned v ∖ frames (PPN (KERNEL_VIRT_TO_PHY p)) n) \/
  (e <> REND_SUCCESS /\ owned v' = owned v).
Proof.
  intros Hn Hf. unfold core_free_pages. destruct (_ || _) eqn:Ec; [by right|].
  apply orb_false_elim in Ec as [Ec _]. apply orb_false_elim in Ec as [_ Ec]. apply Z.eqb_neq in Ec.
  destruct (negb _); [by right|]. set (q := PPN _) in *. destruct (invalid_ppn q); [by right|].
  destruct (vmm_radix_tree_calculate_end_check p n) as [b|]; [|by right].
  pose proof (ledger_lock v p b RADIX_RL_QUERY_OR_CHANGE) as L1. destruct (radix_lock _ _ _ _) as [e1 v1]. cbn [snd] in L1.
  destruct (Z.eqb_spec e1 REND_SUCCESS) as [->|]; cbn [negb]; [|by right].
  pose proof (ledger_unbind v1 p q b) as L2. destruct (radix_leaf_unbind_range _ _ _ _) as [e2 v2]. cbn [snd] in L2.
  destruct (Z.eqb_spec e2 REND_SUCCESS) as [->|]; cbn [negb]; [|right; split; [done|]; rewrite ledger_unlock; congruence].
  pose proof (ledger_unlock v2 p b) as L3. destruct (radix_unlock _ _ _) as [e3 v3]. cbn [snd] in L3.
  destruct (Z.eqb_spec e3 REND_SUCCESS) as [->|]; cbn [negb]; [|right; split; [done|congruence]].
  pose proof (unmap_all_owned v3 p 0 (Z.to_nat n) REND_SUCCESS) as L4. destruct (unmap_all _ _ _ _ _) as [e4 v4]. cbn [snd] in L4.
  destruct (Z.eqb_spec e4 REND_SUCCESS) as [->|]; cbn [negb]; [|right; split; [done|congruence]].
  pose proof (ledger_lock v4 p b RADIX_RL_DELETE) as L5. destruct (radix_lock _ _ _ _) as [e5 v5]. cbn [snd] in L5.
  destruct (Z.eqb_spec e5 REND_SUCCESS) as [->|]; cbn [negb]; [|right; split; [done|congruence]].
  pose proof (ledger_unlock v5 p b) as L6. destruct (radix_unlock _ _ _) as [e6 v6]. cbn [snd] in L6.
  destruct (Z.eqb_spec e6 REND_SUCCESS) as [->|]; cbn [negb]; [|right; split; [done|congruence]].
  assert (Ev : owned v6 = owned v) by congruence.
  destruct (ledger_free v6 q n ltac:(lia)) as [R1 R2]; [by rewrite Ev|].
  destruct (vs_pmm_free v6 q n) as [e7 v7]. cbn [fst snd] in *. left. split; [done|]. congruence.
Qed.
End Ledger.

(** ** The claim, and an instance it applies to *)

(** (error): the frames of the kernel heap are conserved on every path.
    [core_get_free_pages] either fails and has given back every frame it took,
    wherever it failed (the frame allocator came up short, the radix
    reservation, a mapping in the middle of the run, the bind), or returns the
    linear address of exactly [n] frames nobody held.  [core_free_pages] on such
    an address either succeeds and returns those [n] frames, or reports an error
    and returns none of them, so no frame is ever returned twice. *)
Theorem core_pages_conserved {V : Type} `{VSpaceLedger V} (v : V) (root cpu n fl : Z) :
  0 <= n ->
  let '(a, v1) := core_get_free_pages v root cpu n fl in
  (a = NULL /\ owned v1 = owned v) \/
  (exists ppn, a = ppn * PAGE_SIZE + KERNEL_VIRT_OFFSET /\ 0 <= ppn /\ ppn + n <= 2 ^ 35 /\
     frames ppn n ## owned v /\ owned v1 = owned v ∪ frames ppn n /\
     forall v2, owned v1 ⊆ owned v2 ->
       let '(e, v3) := core_free_pages v2 a n in
       (e = REND_SUCCESS /\ owned v3 = owned v2 ∖ frames ppn n) \/
       (e <> REND_SUCCESS /\ owned v3 = owned v2)).
Proof.
  intros Hn. pose proof (get_pages_effect v root cpu n fl Hn) as G.
  destruct (core_get_free_pages v root cpu n fl) as [a v1].
  destruct G as [G|(ppn & -> & _ & Hn1 & Hp & Hb & Hd & Ho & _)]; [by left|]. right. exists ppn.
  split_and!; try done. { rewrite kernel_addr by lia. done. }
  intros v2 Hs. pose proof (free_pages_effect v2 (KERNEL_PHY_TO_VIRT (PADDR ppn)) n Hn) as F.
  rewrite kernel_addr_ppn in F by lia. apply F. set_solver.
Qed.

(** a page source that hands out increasing frames, each block at a multiple
    of 4 frames; [bump_bind] is what the leaf bind returns *)
Record bump := mk_bump { bump_next : Z; bump_out : gset Z; bump_bind : Z }.
Definition bump_alloc (v : bump) (n : Z) : Z * Z * bump :=
  if (0 <? n) && (0 <=? bump_next v) && (bump_next v mod 4 =? 0) && (bump_next v + n <=? 2 ^ 35) && bool_decide (frames (bump_next v) n ## bump_out v)
  then (bump_next v, n, mk_bump (4 * ((bump_next v + n + 3) / 4)) (bump_out v ∪ frames (bump_next v) n) (bump_bind v))
  else (- E_REND_NO_MEM, 0, v).
#[export] Instance bump_ops : VSpaceOps bump := {|
  vs_pmm _ := true;
  vs_pmm_alloc := bump_alloc;
  vs_pmm_free v ppn n := (REND_SUCCESS, mk_bump (bump_next v) (bump_out v ∖ frames ppn n) (bump_bind v));
  radix_lock v _ _ _ := (REND_SUCCESS, v);
  radix_unlock v _ _ := (REND_SUCCESS, v);
  radix_insert_range v _ _ _ _ := (REND_SUCCESS, v);
  radix_leaf_bind_range v _ _ _ _ := (bump_bind v, v);
  radix_leaf_unbind_range v _ _ _ := (REND_SUCCESS, v);
  radix_query_range v _ _ := (REND_SUCCESS, 0);
  vs_map v _ _ _ _ := (REND_SUCCESS, v);
  vs_unmap v vpn := (PPN (KERNEL_VIRT_TO_PHY (VADDR vpn)), v);
  rmap_owner _ _ := None
|}.
#[export] Instance bump_ledger : VSpaceLedger bump.
Proof.
  refine {| owned := bump_out |}; try done.
  intros v n ppn got v' E. cbn [vs_pmm_alloc bump_ops] in E. unfold bump_alloc in E.
  destruct (_ && _) eqn:Ec; simplify_eq; [|done]. bool_hyps.
  match goal with H : bool_decide _ = true |- _ => apply bool_decide_eq_true in H end.
  unfold invalid_ppn. rewrite i64_small by lia. destruct (Z.ltb_spec (bump_next v) 0); [lia|].
  by split_and!.
Defined.

#[export] Instance bump_aligned : ChunkAligned bump.
Proof.
  intros v ppn got v' E Hi. cbn [vs_pmm_alloc bump_ops] in E. unfold bump_alloc in E.
  destruct (_ && _) eqn:Ec; simplify_eq. bool_hyps. lia.
Defined.

Definition bump0 : bump := mk_bump 16 ∅ REND_SUCCESS.

(** two pages come and go; with a bind that fails nothing is kept *)
Lemma core_pages_conserved_witness :
  fst (core_get_free_pages bump0 0 3 2 PAGE_ENTRY_NONE) = 0xffff800000010000 /\
  fst (core_get_free_pages (mk_bump 16 ∅ (- E_RENDEZVOS)) 0 3 2 PAGE_ENTRY_NONE) = NULL /\
  fst (core_free_pages (snd (core_get_free_pages bump0 0 3 2 PAGE_ENTRY_NONE)) 0xffff800000010000 2) = REND_SUCCESS /\
  let '(a, v1) := core_get_free_pages bump0 0 3 2 PAGE_ENTRY_NONE in
  (a = NULL /\ owned v1 = owned bump0) \/
  (exists ppn, a = ppn * PAGE_SIZE + KERNEL_VIRT_OFFSET /\ 0 <= ppn /\ ppn + 2 <= 2 ^ 35 /\
     frames ppn 2 ## owned bump0 /\ owned v1 = owned bump0 ∪ frames ppn 2 /\
     forall v2, owned v1 ⊆ owned v2 ->
       let '(e, v3) := core_free_pages v2 a 2 in
       (e = REND_SUCCESS /\ owned v3 = owned v2 ∖ frames ppn 2) \/
       (e <> REND_SUCCESS /\ owned v3 = owned v2)).
Proof.
  split; [vm_compute; reflexivity|]. split; [vm_compute; reflexivity|]. split; [vm_compute; reflexivity|].
  apply (core_pages_conserved bump0 0 3 2 PAGE_ENTRY_NONE). lia.
Defined.
