(* ===== verification/Kmalloc.v ===== *)
(** * The kernel heap

    [kernel/mm/kmalloc.c]: per-CPU allocators of size-class groups of 16 KB
    chunks, whole pages recorded in a red-black tree, and the queues that carry
    frees to the owning CPU.  Intrusive lists are sequences of node addresses
    (ListH); tree nodes and the two message structs kept in object payloads are
    typed views of the payload memory.  Whole pages come from KernelPages, the
    queues through [FreeQueues]. *)
From stdpp Require Import list_numbers gmap sets.
From S2P Require Import Prelude Mm KernelPages RbTree RbInsert.

Definition MAX_GROUP_SLOTS : Z := 12.
Definition PAGE_PER_CHUNK : Z := 4.
Definition CHUNK_MAGIC : Z := 0xa11ca11ca11ca11c.
Definition slot_size : list Z := [8; 16; 24; 32; 48; 64; 96; 128; 256; 512; 1024; 2048].
Definition slot (order : Z) : Z := slot_size !!! Z.to_nat order.

(** sizes and offsets of the structs on a 64-bit target *)
Definition sizeof_mem_chunk : Z := 72.
Definition sizeof_object_header : Z := 40.
Definition sizeof_page_chunk_node : Z := 48.
Definition sizeof_kfree_page_free_info : Z := 16.
Definition offsetof_msq_node : Z := 24.
Definition CHUNK_SIZE : Z := PAGE_SIZE * PAGE_PER_CHUNK.

(** ** State *)

Record mem_chunk := mk_chunk {
  magic : Z; c_allocator_id : Z; c_chunk_order : Z; nr_max_objs : Z; nr_used_objs : Z;
  full_obj_list : list Z; empty_obj_list : list Z
}.
Record mem_group := mk_group {
  g_allocator_id : Z; g_chunk_order : Z;
  free_chunk_num : Z; empty_chunk_num : Z; full_chunk_num : Z;
  full_list : list Z; empty_list : list Z
}.
(** [struct mem_allocator]; its two queues live in the queue state *)
Record mem_allocator := mk_alloc {
  allocator_id : Z; groups : Z -> mem_group; page_chunk_root : Z;
  buffer_size : Z; kfree_page_pending : Z
}.
Record page_chunk_node := mk_pcn { page_addr : Z; page_num : Z }.
Record kfree_page_free_info := mk_info { page_vaddr : Z; src_cpu : Z }.

Inductive qkind := BufferMsq | KfreePageMsq.

(** the queues [buffer_msq] and [kfree_page_msq] of every allocator; the lists
    are the nodes whose free function the call runs *)
Class FreeQueues (Q : Type) := {
  q_present : Q -> Z -> qkind -> bool;             (* the queue pointer is set *)
  q_clear : Q -> Z -> Q;                           (* memset(&msq_node, 0) *)
  q_ref_init : Q -> Z -> Q;                        (* ref_init(&msq_node.refcount) *)
  q_enqueue : Q -> Z -> qkind -> Z -> list Z * Q;  (* msq_enqueue *)
  q_dequeue : Q -> Z -> qkind -> Z * list Z * Q;   (* msq_dequeue: node or NULL *)
  q_put : Q -> Z -> list Z * Q                     (* ref_put *)
}.

(** [cur]: the executing CPU; [kallocator]: the per-CPU heap pointers *)
Record kheap {V Q : Type} := mk_heap {
  vspace : V; queues : Q;
  cur : Z; kallocator : Z -> option mem_allocator;
  chunks : Z -> mem_chunk;
  hdr_allocator_id : Z -> Z;
  rb_view : Z -> rb_node; pcn_view : Z -> page_chunk_node; info_view : Z -> kfree_page_free_info
}.
#[global] Arguments kheap : clear implicits.

Section Setters.
Context {V Q : Type}.
Notation heap := (kheap V Q).

Definition set_vspace (v : V) (h : heap) : heap :=
  mk_heap _ _ v (queues h) (cur h) (kallocator h) (chunks h) (hdr_allocator_id h) (rb_view h) (pcn_view h) (info_view h).
Definition set_queues (q : Q) (h : heap) : heap :=
  mk_heap _ _ (vspace h) q (cur h) (kallocator h) (chunks h) (hdr_allocator_id h) (rb_view h) (pcn_view h) (info_view h).
Definition set_alloc (a : Z) (m : mem_allocator) (h : heap) : heap :=
  mk_heap _ _ (vspace h) (queues h) (cur h) (<[a := Some m]> (kallocator h)) (chunks h) (hdr_allocator_id h)
    (rb_view h) (pcn_view h) (info_view h).
Definition set_chunk (c : Z) (ch : mem_chunk) (h : heap) : heap :=
  mk_heap _ _ (vspace h) (queues h) (cur h) (kallocator h) (<[c := ch]> (chunks h)) (hdr_allocator_id h)
    (rb_view h) (pcn_view h) (info_view h).
Definition set_header (o id : Z) (h : heap) : heap :=
  mk_heap _ _ (vspace h) (queues h) (cur h) (kallocator h) (chunks h) (<[o := id]> (hdr_allocator_id h))
    (rb_view h) (pcn_view h) (info_view h).
Definition set_rb (m : Z -> rb_node) (h : heap) : heap :=
  mk_heap _ _ (vspace h) (queues h) (cur h) (kallocator h) (chunks h) (hdr_allocator_id h) m (pcn_view h) (info_view h).
Definition set_pcn (p : Z) (n : page_chunk_node) (h : heap) : heap :=
  mk_heap _ _ (vspace h) (queues h) (cur h) (kallocator h) (chunks h) (hdr_allocator_id h)
    (rb_view h) (<[p := n]> (pcn_view h)) (info_view h).
Definition set_info (p : Z) (n : kfree_page_free_info) (h : heap) : heap :=
  mk_heap _ _ (vspace h) (queues h) (cur h) (kallocator h) (chunks h) (hdr_allocator_id h)
    (rb_view h) (pcn_view h) (<[p := n]> (info_view h)).
(** [memset(p, 0, n)] on the views of the memory *)
Definition clear_range (p n : Z) (h : heap) : heap :=
  let inside x := (p <=? x) && (x <? p + n) in
  mk_heap _ _ (vspace h) (queues h) (cur h) (kallocator h) (chunks h) (hdr_allocator_id h)
    (fun x => if inside x then mk_rb 0 0 NULL NULL else rb_view h x)
    (fun x => if inside x then mk_pcn 0 0 else pcn_view h x)
    (fun x => if inside x then mk_info 0 0 else info_view h x).

(** dereferencing an allocator; reading through a NULL heap pointer is not
    given a meaning of its own *)
Definition no_alloc : mem_allocator := mk_alloc 0 (fun _ => mk_group 0 0 0 0 0 [] []) NULL 0 0.
Definition alloc_at (h : heap) (a : Z) : mem_allocator := default no_alloc (kallocator h a).
Definition group_at (h : heap) (a o : Z) : mem_group := groups (alloc_at h a) o.
Definition set_group (a o : Z) (g : mem_group) (h : heap) : heap :=
  let m := alloc_at h a in
  set_alloc a (mk_alloc (allocator_id m) (<[o := g]> (groups m)) (page_chunk_root m) (buffer_size m) (kfree_page_pending m)) h.
Definition set_page_root (a r : Z) (h : heap) : heap :=
  let m := alloc_at h a in
  set_alloc a (mk_alloc (allocator_id m) (groups m) r (buffer_size m) (kfree_page_pending m)) h.
Definition add_buffer_size (a d : Z) (h : heap) : heap :=
  let m := alloc_at h a in
  set_alloc a (mk_alloc (allocator_id m) (groups m) (page_chunk_root m) (u64 (buffer_size m + d)) (kfree_page_pending m)) h.
Definition add_kfree_page_pending (a d : Z) (h : heap) : heap :=
  let m := alloc_at h a in
  set_alloc a (mk_alloc (allocator_id m) (groups m) (page_chunk_root m) (buffer_size m) (u64 (kfree_page_pending m + d))) h.
Definition set_group_counts (free empty full : Z) (g : mem_group) : mem_group :=
  mk_group (g_allocator_id g) (g_chunk_order g) free empty full (full_list g) (empty_list g).
Definition set_group_lists (full empty : list Z) (g : mem_group) : mem_group :=
  mk_group (g_allocator_id g) (g_chunk_order g) (free_chunk_num g) (empty_chunk_num g) (full_chunk_num g) full empty.
End Setters.

(** unlink a node from the list it is on *)
Definition unlink (x : Z) (l : list Z) : list Z := filter (fun y => y <> x) l.

(** [list.next] of a list head at address [hd] *)
Definition first (hd : Z) (l : list Z) : Z := match l with [] => hd | x :: _ => x end.

(** ** Size classes *)

Fixpoint slot_search (slots : list Z) (slot_index Bytes : Z) : Z :=
  match slots with
  | [] => slot_index
  | s :: rest =>
    if (slot_index =? MAX_GROUP_SLOTS - 1) || (Bytes <=? s) then slot_index
    else slot_search rest (slot_index + 1) Bytes
  end.
Definition bytes_to_slot (Bytes : Z) : Z := slot_search slot_size 0 Bytes.
Definition bytes_to_pages (Bytes : Z) : Z :=
  i32 (Z.shiftl 1 (log2_of_next_power_of_two (u32 (ROUND_UP Bytes PAGE_SIZE / PAGE_SIZE)))).

(** ** Chunks *)

Section Heap.
Context {V Q : Type} `{VSpaceOps V} `{FreeQueues Q}.
Context (root_vspace : Z).
Notation heap := (kheap V Q).

(** the loop that carves the objects *)
Fixpoint carve (chunk chunk_order id padding_start : Z) (left : nat) (h : heap) : heap :=
  match left with
  | O => h
  | S left' =>
    let obj := chunk + padding_start in
    let ch := chunks h chunk in
    let h := set_chunk chunk (mk_chunk (magic ch) (c_allocator_id ch) (c_chunk_order ch) (nr_max_objs ch) (nr_used_objs ch)
                                (full_obj_list ch) (obj :: empty_obj_list ch)) h in
    let h := set_header obj id h in
    let h := set_queues (q_clear (queues h) (obj + offsetof_msq_node)) h in
    carve chunk chunk_order id (padding_start + slot chunk_order + sizeof_object_header) left' h
  end.

Definition obj_num (chunk_order : Z) : Z :=
  (PAGE_SIZE * PAGE_PER_CHUNK - sizeof_mem_chunk) / (sizeof_object_header + slot chunk_order).

Definition chunk_init (chunk chunk_order id : Z) (h : heap) : Z * heap :=
  if (chunk =? NULL) || negb (chunk mod PAGE_SIZE =? 0) || (chunk_order <? 0) || (MAX_GROUP_SLOTS <=? chunk_order)
  then (- E_IN_PARAM, h)
  else
    let h := set_chunk chunk (mk_chunk CHUNK_MAGIC id chunk_order (obj_num chunk_order) 0 [] []) h in
    (REND_SUCCESS, carve chunk chunk_order id sizeof_mem_chunk (Z.to_nat (obj_num chunk_order)) h).

(** the address of [empty_obj_list] in a chunk, read when the list is empty *)
Definition chunk_empty_head (chunk : Z) : Z := chunk + 56.

Definition chunk_get_obj (chunk : Z) (h : heap) : Z * heap :=
  if chunk =? NULL then (NULL, h)
  else
    let ch := chunks h chunk in
    if negb (magic ch =? CHUNK_MAGIC) then (NULL, h)
    else if nr_max_objs ch <=? nr_used_objs ch then (NULL, h)
    else
      let get_obj := first (chunk_empty_head chunk) (empty_obj_list ch) in
      let ch := mk_chunk (magic ch) (c_allocator_id ch) (c_chunk_order ch) (nr_max_objs ch) (i32 (nr_used_objs ch + 1))
                  (get_obj :: full_obj_list ch) (unlink get_obj (empty_obj_list ch)) in
      (get_obj, clear_range (get_obj + sizeof_object_header) (slot (c_chunk_order ch)) (set_chunk chunk ch h)).

Definition chunk_free_obj (obj chunk : Z) (h : heap) : Z * heap :=
  if (obj =? NULL) || (chunk =? NULL) then (- E_IN_PARAM, h)
  else
    let ch := chunks h chunk in
    if negb (magic ch =? CHUNK_MAGIC) then (- E_IN_PARAM, h)
    else
      let ch := mk_chunk (magic ch) (c_allocator_id ch) (c_chunk_order ch) (nr_max_objs ch) (i32 (nr_used_objs ch - 1))
                  (unlink obj (full_obj_list ch)) (obj :: unlink obj (empty_obj_list ch)) in
      let h := set_chunk chunk ch h in
      (i32 (hdr_allocator_id h obj), set_queues (q_clear (queues h) (obj + offsetof_msq_node)) h).

(** [group] is [groups[o]] of allocator [a] *)
Definition group_free_obj (header chunk a o : Z) (h : heap) : Z * heap :=
  if (header =? NULL) || (chunk =? NULL) then (- E_IN_PARAM, h)
  else
    let full := nr_max_objs (chunks h chunk) =? nr_used_objs (chunks h chunk) in
    let '(res, h) := chunk_free_obj header chunk h in
    if res <? 0 then (res, h)
    else
      let g := group_at h a o in
      let off := set_group_lists (unlink chunk (full_list g)) (unlink chunk (empty_list g)) g in
      if full then
        (res, set_group a o
                (set_group_counts (free_chunk_num g) (u64 (empty_chunk_num g + 1)) (u64 (full_chunk_num g - 1))
                   (set_group_lists (full_list off) (empty_list off ++ [chunk]) off)) h)
      else if nr_used_objs (chunks h chunk) =? 0 then
        (res, set_group a o
                (set_group_counts (u64 (free_chunk_num g + 1)) (u64 (empty_chunk_num g - 1)) (full_chunk_num g)
                   (set_group_lists (full_list off) (chunk :: empty_list off) off)) h)
      else (res, h).

Definition chunk_of (p : Z) : Z := ROUND_DOWN p (PAGE_SIZE * PAGE_PER_CHUNK).

(** the free function of [buffer_msq]: [node] is the queue node in the header *)
Definition free_buffer_object (node : Z) (h : heap) : heap :=
  let header := node - offsetof_msq_node in
  let chunk := chunk_of header in
  snd (group_free_obj header chunk (cur h) (c_chunk_order (chunks h chunk)) h).

(** ** Small objects *)

(** the inner walk: the first chunk of the list without used objects *)
Definition find_free_chunk (h : heap) (l : list Z) : option Z :=
  head (filter (fun c => nr_used_objs (chunks h c) = 0) l).

Fixpoint collect_from (a slot_index group_id : Z) (left : nat) (h : heap) : Z * heap :=
  match left with
  | O => (NULL, h)
  | S left' =>
    let g := group_at h a group_id in
    let found :=
      if negb (group_id =? slot_index) && negb (free_chunk_num g =? 0) then find_free_chunk h (empty_list g) else None in
    match found with
    | Some c =>
      (c, set_group a group_id
            (set_group_counts (u64 (free_chunk_num g - 1)) (empty_chunk_num g) (full_chunk_num g)
               (set_group_lists (unlink c (full_list g)) (unlink c (empty_list g)) g)) h)
    | None => collect_from a slot_index (group_id + 1) left' h
    end
  end.
Definition collect_chunk_from_other_group (a slot_index : Z) (h : heap) : Z * heap :=
  collect_from a slot_index 0 (Z.to_nat MAX_GROUP_SLOTS) h.

Definition get_pages (page_num : Z) (h : heap) : Z * heap :=
  let '(p, v) := core_get_free_pages (vspace h) root_vspace (cur h) page_num PAGE_ENTRY_NONE in (p, set_vspace v h).
Definition free_pages (p page_num : Z) (h : heap) : Z * heap :=
  let '(e, v) := core_free_pages (vspace h) p page_num in (e, set_vspace v h).

(** a chunk with a free object for the class [slot_index], at the head of the
    group's list; [NULL] when there is none *)
Definition take_chunk (a slot_index : Z) (h : heap) : Z * heap :=
  let g := group_at h a slot_index in
  if (empty_chunk_num g =? 0) && (free_chunk_num g =? 0) then
    let '(alloc_chunk, h) := collect_chunk_from_other_group a slot_index h in
    if alloc_chunk =? NULL then
      let '(page_ptr, h) := get_pages PAGE_PER_CHUNK h in
      if page_ptr =? NULL then (NULL, h)
      else
        let '(e, h) := chunk_init page_ptr (g_chunk_order g) (g_allocator_id g) h in
        if negb (e =? REND_SUCCESS) then (NULL, snd (free_pages page_ptr PAGE_PER_CHUNK h))
        else
          let g := group_at h a slot_index in
          (page_ptr, set_group a slot_index
             (set_group_counts (free_chunk_num g) (u64 (empty_chunk_num g + 1)) (full_chunk_num g)
                (set_group_lists (full_list g) (page_ptr :: empty_list g) g)) h)
    else
      let '(e, h) := chunk_init alloc_chunk (g_chunk_order g) (g_allocator_id g) h in
      if negb (e =? REND_SUCCESS) then (NULL, h)
      else
        (* list_add_head(&group->empty_list, &chunk->chunk_list): the head is
           linked into the chunk's own one-node list *)
        let g := group_at h a slot_index in
        (alloc_chunk, set_group a slot_index
           (set_group_counts (free_chunk_num g) (u64 (empty_chunk_num g + 1)) (full_chunk_num g)
              (set_group_lists (full_list g) [alloc_chunk] g)) h)
  else
    let alloc_chunk := first NULL (empty_list g) in
    if nr_used_objs (chunks h alloc_chunk) =? 0 then
      (alloc_chunk, set_group a slot_index
         (set_group_counts (u64 (free_chunk_num g - 1)) (u64 (empty_chunk_num g + 1)) (full_chunk_num g) g) h)
    else (alloc_chunk, h).

Definition _k_alloc (a Bytes : Z) (h : heap) : Z * heap :=
  let slot_index := bytes_to_slot Bytes in
  let '(alloc_chunk, h) := take_chunk a slot_index h in
  if alloc_chunk =? NULL then (NULL, h)
  else
    let '(obj_ptr, h) := chunk_get_obj alloc_chunk h in
    if obj_ptr =? NULL then (NULL, h)
    else
      let g := group_at h a slot_index in
      let h :=
        if nr_max_objs (chunks h alloc_chunk) =? nr_used_objs (chunks h alloc_chunk) then
          set_group a slot_index
            (set_group_counts (free_chunk_num g) (u64 (empty_chunk_num g - 1)) (u64 (full_chunk_num g + 1))
               (set_group_lists (alloc_chunk :: unlink alloc_chunk (full_list g)) (unlink alloc_chunk (empty_list g)) g)) h
        else h in
      (obj_ptr + sizeof_object_header, h).

(** the loop of [_k_free] over the chunks of [empty_list]: keep one free chunk *)
Fixpoint trim (a o : Z) (l : list Z) (h : heap) : heap :=
  match l with
  | [] => h
  | free_chunk :: rest =>
    let g := group_at h a o in
    if free_chunk_num g <=? 1 then h
    else
      let h :=
        if nr_used_objs (chunks h free_chunk) =? 0 then
          snd (free_pages free_chunk PAGE_PER_CHUNK
            (set_group a o
              (set_group_counts (u64 (free_chunk_num g - 1)) (empty_chunk_num g) (full_chunk_num g)
                 (set_group_lists (unlink free_chunk (full_list g)) (unlink free_chunk (empty_list g)) g)) h))
        else h in
      trim a o rest h
  end.

(** free functions run in order on the nodes released *)
Definition run_free (free_func : Z -> heap -> heap) (nodes : list Z) (h : heap) : heap :=
  foldl (fun h n => free_func n h) h nodes.

Definition queue_push (free_func : Z -> heap -> heap) (owner : Z) (k : qkind) (header : Z) (h : heap) : heap :=
  let node := header + offsetof_msq_node in
  let h := set_queues (q_ref_init (queues h) node) h in
  let '(released, q) := q_enqueue (queues h) owner k node in
  let h := run_free free_func released (set_queues q h) in
  let '(released, q) := q_put (queues h) node in
  run_free free_func released (set_queues q h).

Definition _k_free (p : Z) (h : heap) : Z * heap :=
  match kallocator h (cur h) with
  | None => (- E_IN_PARAM, h)
  | Some m =>
    if p =? NULL then (- E_IN_PARAM, h)
    else
      let header := p - sizeof_object_header in
      let chunk := chunk_of p in
      if hdr_allocator_id h header =? allocator_id m then
        let order := c_chunk_order (chunks h chunk) in
        let '(res, h) := group_free_obj header chunk (cur h) order h in
        if res <? 0 then (res, h)
        else (REND_SUCCESS, trim (cur h) order (empty_list (group_at h (cur h) order)) h)
      else
        let owner := hdr_allocator_id h header in
        (REND_SUCCESS, add_buffer_size owner 1 (queue_push free_buffer_object owner BufferMsq header h))
  end.

(** ** Whole pages *)

(** more than twice the logarithm of any number of tree nodes *)
Definition RB_FUEL : nat := 256.
Definition page_tree (a : Z) (h : heap) : rb_tree := mk_rbs (rb_view h) (page_chunk_root (alloc_at h a)).
Definition pcn_addr (h : heap) (x : Z) : Z := page_addr (pcn_view h x).
Definition set_page_tree (a : Z) (t : rb_tree) (h : heap) : heap := set_page_root a (rb_root t) (set_rb (rbm t) h).

Definition kfree_page_local (a p : Z) (h : heap) : Z * heap :=
  match kallocator h a with
  | None => (- E_IN_PARAM, h)
  | Some _ =>
    if p =? NULL then (- E_IN_PARAM, h)
    else
      let pcn := page_chunk_rb_tree_search (pcn_addr h) RB_FUEL (page_tree a h) p in
      if pcn =? NULL then (- E_RENDEZVOS, h)
      else
        let '(e, h) := free_pages p (u64 (i32 (page_num (pcn_view h pcn)))) h in
        if negb (e =? REND_SUCCESS) then (e, h)
        else
          let h := set_page_tree a (page_chunk_rb_tree_remove RB_FUEL pcn (page_tree a h)) h in
          (REND_SUCCESS, snd (_k_free pcn h))
  end.

(** [m_free]: the [kfree] the callback reaches through the source CPU's heap *)
Definition free_kpage_msg (m_free : Z -> Z -> heap -> heap) (node : Z) (h : heap) : heap :=
  let header := node - offsetof_msq_node in
  let obj := header + sizeof_object_header in
  if page_vaddr (info_view h obj) =? 0 then free_buffer_object node h
  else
    let h :=
      match kallocator h (cur h) with
      | None => h
      | Some _ => snd (kfree_page_local (cur h) (page_vaddr (info_view h obj)) h)
      end in
    let src := i32 (src_cpu (info_view h obj)) in
    match kallocator h src with None => h | Some _ => m_free src obj h end.

(** one of the two drain loops; [pending] reads the counter, [dec] lowers it *)
Fixpoint drain (fuel : nat) (a : Z) (k : qkind) (free_func : Z -> heap -> heap)
    (pending : mem_allocator -> Z) (dec : heap -> heap) (h : heap) : heap :=
  match fuel with
  | O => h
  | S fuel' =>
    if pending (alloc_at h a) =? 0 then h
    else
      let '(node, released, q) := q_dequeue (queues h) a k in
      let h := run_free free_func released (set_queues q h) in
      if node =? NULL then h
      else
        let '(released, q) := q_put (queues h) node in
        let h := run_free free_func released (set_queues q h) in
        drain fuel' a k free_func pending dec (dec h)
  end.

Definition mem_allocator_remote_frees (m_free : Z -> Z -> heap -> heap) (fuel : nat) (a : Z) (h : heap) : heap :=
  let h :=
    if q_present (queues h) a KfreePageMsq then
      drain fuel a KfreePageMsq (free_kpage_msg m_free) kfree_page_pending (add_kfree_page_pending a (-1)) h
    else h in
  if q_present (queues h) a BufferMsq then
    drain fuel a BufferMsq free_buffer_object buffer_size (add_buffer_size a (-1)) h
  else h.

Definition kalloc_with (m_free : Z -> Z -> heap -> heap) (fuel : nat) (a Bytes : Z) (h : heap) : Z * heap :=
  match kallocator h a with
  | None => (NULL, h)
  | Some _ =>
    if (Bytes <=? 0) || (MIDDLE_PAGE_SIZE <? Bytes) then (NULL, h)
    else
      let h := mem_allocator_remote_frees m_free fuel a h in
      if slot (MAX_GROUP_SLOTS - 1) <? Bytes then
        let n := bytes_to_pages Bytes in
        let '(pcn, h) := _k_alloc a sizeof_page_chunk_node h in
        if pcn =? NULL then (NULL, h)
        else
          let '(res_ptr, h) := get_pages (u64 n) h in
          if res_ptr =? NULL then (NULL, snd (_k_free pcn h))
          else
            let h := clear_range res_ptr (u64 n * PAGE_SIZE) h in
            let h := set_pcn pcn (mk_pcn res_ptr n) h in
            (res_ptr, set_page_tree a (page_chunk_rb_tree_insert (pcn_addr h) RB_FUEL pcn (page_tree a h)) h)
      else _k_alloc a Bytes h
  end.

(** [kfree] and, through the queues, its calls of itself on other heaps *)
Fixpoint kfree (fuel : nat) (a p : Z) (h : heap) : heap :=
  match fuel with
  | O => h
  | S fuel' =>
    match kallocator h a with
    | None => h
    | Some _ =>
      if p =? NULL then h
      else
        let h := mem_allocator_remote_frees (kfree fuel') fuel a h in
        if negb (Z.land p (PAGE_SIZE - 1) =? 0) then snd (_k_free p h)
        else
          let '(owner_cpu, v) := kmem_radix_kernel_heap_owner_cpu (vspace h) p in
          let h := set_vspace v h in
          if owner_cpu =? INVALID_CPU_ID then
            (* e = _k_free(p), then the local page path all the same *)
            let '(_, h) := _k_free p h in
            let '(e, h) := kfree_page_local a p h in
            if e =? - E_RENDEZVOS then snd (_k_free p h) else h
          else if negb (i32 (cur h) =? owner_cpu) then
            if negb (match kallocator h owner_cpu with None => false | Some _ => true end)
               || negb (q_present (queues h) owner_cpu KfreePageMsq) then h
            else
              let '(free_info, h) := kalloc_with (kfree fuel') fuel (cur h) sizeof_kfree_page_free_info h in
              if free_info =? NULL then h
              else
                let h := set_info free_info (mk_info p (u32 (cur h))) h in
                let h := queue_push (free_kpage_msg (kfree fuel')) owner_cpu KfreePageMsq (free_info - sizeof_object_header) h in
                add_kfree_page_pending owner_cpu 1 h
          else
            let '(e, h) := kfree_page_local a p h in
            if e =? - E_RENDEZVOS then snd (_k_free p h) else h
    end
  end.

Definition kalloc (fuel : nat) (a Bytes : Z) (h : heap) : Z * heap := kalloc_with (kfree fuel) fuel a Bytes h.
Definition kalloc_process_cross_cpu_frees (fuel : nat) (h : heap) : heap :=
  match kallocator h (cur h) with
  | None => h
  | Some _ => mem_allocator_remote_frees (kfree fuel) fuel (cur h) h
  end.
End Heap.
