(* ===== verification/KmallocInv.v ===== *)
(** * The kernel heap: small objects

    Layout of a chunk, well-formedness of chunks and groups, and what
    [_k_alloc] and [_k_free] of Kmalloc do on a well-formed heap. *)
From stdpp Require Import list_numbers gmap sets.
From Stdlib Require Import Sorted.
From S2P Require Import Prelude Mm KernelPages RbTree RbInsert RbRemove Kmalloc.

#[global] Arguments slot : simpl never.
#[global] Arguments obj_num : simpl never.

(** ** Layout of a chunk *)

Definition class_ok (o : Z) : Prop := 0 <= o < MAX_GROUP_SLOTS.
Definition stride (o : Z) : Z := slot o + sizeof_object_header.
(** object headers of a chunk of order [o], in address order *)
Definition objs (c o : Z) : list Z := (fun i => c + sizeof_mem_chunk + i * stride o) <$> seqZ 0 (obj_num o).

Ltac class_cases o H :=
  let E := fresh in
  assert (E : o = 0 \/ o = 1 \/ o = 2 \/ o = 3 \/ o = 4 \/ o = 5 \/ o = 6 \/ o = 7 \/ o = 8 \/ o = 9 \/ o = 10 \/ o = 11)
    by (unfold class_ok, MAX_GROUP_SLOTS in H; lia);
  repeat (destruct E as [->|E]); [..|subst o].

Lemma slot_facts o : class_ok o -> 8 <= slot o <= 2048 /\ slot o mod 8 = 0.
Proof. intros H. class_cases o H; split; [split|..|split|]; vm_compute; done. Qed.
Lemma obj_num_facts o : class_ok o -> 2 <= obj_num o < 512 /\ sizeof_mem_chunk + obj_num o * stride o <= CHUNK_SIZE.
Proof. intros H. class_cases o H; (split; [split|]); vm_compute; done. Qed.

Lemma elem_objs x c o : x ∈ objs c o <-> exists i, 0 <= i < obj_num o /\ x = c + sizeof_mem_chunk + i * stride o.
Proof.
  unfold objs. rewrite list_elem_of_fmap. split.
  - intros (i & -> & Hi). apply elem_of_seqZ in Hi. exists i. split; [lia|done].
  - intros (i & Hi & ->). exists i. split; [done|]. apply elem_of_seqZ. lia.
Qed.
Lemma objs_NoDup c o : class_ok o -> NoDup (objs c o).
Proof.
  intros Ho. apply slot_facts in Ho as [Ho _]. apply NoDup_fmap_2; [|apply NoDup_seqZ].
  intros i j E. unfold stride, sizeof_object_header in E. nia.
Qed.
Lemma objs_length c o : class_ok o -> Z.of_nat (length (objs c o)) = obj_num o.
Proof. intros Ho%obj_num_facts. unfold objs. rewrite length_fmap, length_seqZ. lia. Qed.

Lemma objs_bounds x c o : class_ok o -> x ∈ objs c o -> c + 72 <= x /\ x + stride o <= c + CHUNK_SIZE.
Proof.
  intros Ho (i & Hi & ->)%elem_objs. pose proof (slot_facts o Ho) as [Hs _]. pose proof (obj_num_facts o Ho) as [_ Hn].
  unfold stride, sizeof_object_header, sizeof_mem_chunk in *. nia.
Qed.
Lemma objs_apart x y c o : class_ok o -> x ∈ objs c o -> y ∈ objs c o -> x <> y -> x + stride o <= y \/ y + stride o <= x.
Proof.
  intros Ho (i & Hi & ->)%elem_objs (j & Hj & ->)%elem_objs Hne. pose proof (slot_facts o Ho) as [Hs _].
  assert (i <> j) by (by intros ->). unfold stride, sizeof_object_header in *. nia.
Qed.

(** chunks sit at 16 KB boundaries of the linear map *)
Definition chunk_addr (c : Z) : Prop :=
  KERNEL_VIRT_OFFSET <= c /\ c + CHUNK_SIZE <= 2 ^ 64 /\ c mod CHUNK_SIZE = 0.
Definition kppn (c : Z) : Z := (c - KERNEL_VIRT_OFFSET) / PAGE_SIZE.

Lemma chunk_of_in c p : chunk_addr c -> c <= p < c + CHUNK_SIZE -> chunk_of p = c.
Proof.
  unfold chunk_addr, CHUNK_SIZE, PAGE_SIZE, PAGE_PER_CHUNK, KERNEL_VIRT_OFFSET. intros (H1 & H2 & H3) Hp.
  unfold chunk_of. change (PAGE_SIZE * PAGE_PER_CHUNK) with (2 ^ 14). rewrite ROUND_DOWN_spec by lia. dlia.
Qed.
Lemma chunk_of_payload c o x : class_ok o -> chunk_addr c -> x ∈ objs c o -> chunk_of (x + sizeof_object_header) = c.
Proof.
  intros Ho Hc Hx. apply objs_bounds in Hx; [|done]. apply slot_facts in Ho as [Ho _].
  apply chunk_of_in; [done|]. unfold stride, sizeof_object_header in *. lia.
Qed.
Lemma chunk_regions c d x : chunk_addr c -> chunk_addr d -> c <= x < c + CHUNK_SIZE -> d <= x < d + CHUNK_SIZE -> c = d.
Proof. intros Hc Hd H1 H2. by rewrite <- (chunk_of_in c x), <- (chunk_of_in d x). Qed.

Lemma chunk_nonnull c : chunk_addr c -> c <> NULL.
Proof. unfold chunk_addr, KERNEL_VIRT_OFFSET, NULL. lia. Qed.
Lemma chunk_ppn c : chunk_addr c -> PPN (KERNEL_VIRT_TO_PHY c) = kppn c /\ 0 <= kppn c /\ kppn c + 4 <= 2 ^ 35 /\ c = kppn c * 4096 + KERNEL_VIRT_OFFSET.
Proof.
  unfold chunk_addr, KERNEL_VIRT_TO_PHY, kppn, KERNEL_VIRT_OFFSET, CHUNK_SIZE, PAGE_SIZE, PAGE_PER_CHUNK. intros (H1 & H2 & H3).
  rewrite u64_small by lia. rewrite PPN_small by lia. split; [done|]. split; [dlia|]. split; dlia.
Qed.
Lemma chunk_frames_apart c d : chunk_addr c -> chunk_addr d -> c <> d -> frames (kppn c) 4 ## frames (kppn d) 4.
Proof.
  intros Hc Hd Hne x. rewrite !elem_frames. destruct (chunk_ppn c Hc) as (_ & _ & _ & Ec). destruct (chunk_ppn d Hd) as (_ & _ & _ & Ed).
  intros H1 H2. apply Hne. apply (chunk_regions c d (x * 4096 + KERNEL_VIRT_OFFSET)); [done..| |]; unfold CHUNK_SIZE, PAGE_SIZE, PAGE_PER_CHUNK; lia.
Qed.

(** ** Lists of chunks *)

Lemma elem_unlink y x l : y ∈ unlink x l <-> y ∈ l /\ y <> x.
Proof. unfold unlink. rewrite list_elem_of_filter. tauto. Qed.
Lemma unlink_none x l : x ∉ l -> unlink x l = l.
Proof.
  induction l as [|y l IH]; intros Hx; [done|]. apply not_elem_of_cons in Hx as [Hy Hx]. unfold unlink in *.
  rewrite filter_cons_True by done. by rewrite IH.
Qed.
Lemma unlink_NoDup x l : NoDup l -> NoDup (unlink x l).
Proof. apply NoDup_filter. Qed.
Lemma unlink_perm x l : NoDup l -> x ∈ l -> l ≡ₚ x :: unlink x l.
Proof.
  induction l as [|y l IH]; intros Hn Hx; [by apply not_elem_of_nil in Hx|]. apply list.NoDup_cons in Hn as [Hy Hn].
  destruct (decide (y = x)) as [->|Hne].
  - unfold unlink. rewrite filter_cons_False by tauto. by fold (unlink x l); rewrite unlink_none.
  - apply elem_of_cons in Hx as [->|Hx]; [done|]. unfold unlink. rewrite filter_cons_True by done. fold (unlink x l).
    rewrite (IH Hn Hx) at 1. apply Permutation_swap.
Qed.
Lemma unlink_head x l : NoDup (x :: l) -> unlink x (x :: l) = l.
Proof. intros [Hx _]%list.NoDup_cons. unfold unlink. rewrite filter_cons_False by tauto. by apply unlink_none. Qed.
Lemma countp_perm {A} (P : A -> bool) l l' : l ≡ₚ l' -> countp P l = countp P l'.
Proof. induction 1; cbn [countp]; lia. Qed.
Lemma countp_ext {A} (P P' : A -> bool) l : (forall x, x ∈ l -> P x = P' x) -> countp P l = countp P' l.
Proof.
  induction l as [|x l IH]; intros Hp; [done|]. cbn [countp]. rewrite (Hp x) by left. rewrite IH; [done|].
  intros y Hy. apply Hp. by right.
Qed.
Lemma countp_unlink (P : Z -> bool) x l : NoDup l -> x ∈ l -> countp P l = Z.b2z (P x) + countp P (unlink x l).
Proof. intros Hn Hx. by rewrite (countp_perm P _ _ (unlink_perm x l Hn Hx)). Qed.
Lemma length_unlink x l : NoDup l -> x ∈ l -> Z.of_nat (length l) = 1 + Z.of_nat (length (unlink x l)).
Proof. intros Hn Hx. rewrite (Permutation_length (unlink_perm x l Hn Hx)). cbn [length]. lia. Qed.

Lemma NoDup_length_range (f : Z -> Z) l n :
  0 <= n -> NoDup l -> (forall x y, x ∈ l -> y ∈ l -> f x = f y -> x = y) -> (forall x, x ∈ l -> 0 <= f x < n) ->
  Z.of_nat (length l) <= n.
Proof.
  intros Hn0 Hn Hi Hr. assert (Hn' : NoDup (f <$> l)).
  { clear Hr. induction l as [|x l IH]; [constructor|]. apply list.NoDup_cons in Hn as [Hx Hn]. cbn. apply list.NoDup_cons. split.
    - intros (y & Hy & Hyl)%list_elem_of_fmap. assert (x = y) as ->; [|done]. apply Hi; [left|by right|done].
    - apply IH; [done|]. intros y z Hy Hz. apply Hi; by right. }
  assert (Hs : f <$> l ⊆+ seqZ 0 n).
  { apply NoDup_submseteq; [done|]. intros y (x & -> & Hx)%list_elem_of_fmap. apply elem_of_seqZ. specialize (Hr x Hx). lia. }
  apply submseteq_length in Hs. rewrite length_fmap, length_seqZ in Hs. lia.
Qed.
Lemma chunks_bounded l : NoDup l -> (forall c, c ∈ l -> chunk_addr c) -> Z.of_nat (length l) <= 2 ^ 35.
Proof.
  intros Hn Hl. apply (NoDup_length_range kppn); [done|done| |].
  - intros x y Hx Hy E. destruct (chunk_ppn x (Hl x Hx)) as (_ & _ & _ & Ex), (chunk_ppn y (Hl y Hy)) as (_ & _ & _ & Ey). lia.
  - intros x Hx. destruct (chunk_ppn x (Hl x Hx)) as (_ & ? & ? & _). lia.
Qed.

(** ** Well-formed heaps: the small-object part *)

Section Small.
Context {V Q : Type} {VO : VSpaceOps V} {VL : VSpaceLedger V} {CA : ChunkAligned V} {FQ : FreeQueues Q}.
Notation heap := (kheap V Q).
Implicit Types h : heap.

(** chunk [c] of size class [o], owned by allocator [a] *)
Record chunk_ok (h : heap) (a o c : Z) : Prop := {
  co_addr : chunk_addr c;
  co_frames : frames (kppn c) 4 ⊆ owned (vspace h);
  co_magic : magic (chunks h c) = CHUNK_MAGIC;
  co_order : c_chunk_order (chunks h c) = o;
  co_max : nr_max_objs (chunks h c) = obj_num o;
  co_used : nr_used_objs (chunks h c) = Z.of_nat (length (full_obj_list (chunks h c)));
  co_objs : full_obj_list (chunks h c) ++ empty_obj_list (chunks h c) ≡ₚ objs c o;
  co_headers : forall x, x ∈ objs c o -> hdr_allocator_id h x = a
}.

Definition is_free (h : heap) (x c : Z) : bool := (nr_used_objs (chunks h c) =? 0) && negb (c =? x).

(** [x]: a chunk in hand, counted as partially used ([NULL]: none) *)
Record group_ok (x : Z) (h : heap) (a o : Z) (g : mem_group) : Prop := {
  go_id : g_allocator_id g = a;
  go_order : g_chunk_order g = o;
  go_nodup : NoDup (full_list g ++ empty_list g);
  go_full : forall c, c ∈ full_list g -> chunk_ok h a o c /\ nr_used_objs (chunks h c) = obj_num o;
  go_empty : forall c, c ∈ empty_list g -> chunk_ok h a o c /\ nr_used_objs (chunks h c) < obj_num o;
  go_free_num : free_chunk_num g = countp (is_free h x) (empty_list g);
  go_empty_num : empty_chunk_num g = Z.of_nat (length (empty_list g)) - countp (is_free h x) (empty_list g);
  go_full_num : full_chunk_num g = Z.of_nat (length (full_list g))
}.

Definition members (g : mem_group) : list Z := full_list g ++ empty_list g.
Definition in_group (h : heap) (a o c : Z) : Prop :=
  class_ok o /\ exists m, kallocator h a = Some m /\ c ∈ members (groups m o).

Record small_ok (x : Z) (h : heap) : Prop := {
  so_alloc : forall a m, kallocator h a = Some m -> allocator_id m = a /\ 0 <= a < 2 ^ 31;
  so_group : forall a m o, kallocator h a = Some m -> class_ok o -> group_ok x h a o (groups m o);
  so_sep : forall a o a' o' c, in_group h a o c -> in_group h a' o' c -> a = a' /\ o = o'
}.

(** the objects handed out: payload addresses *)
Definition live (h : heap) (a o p : Z) : Prop :=
  exists c, in_group h a o c /\ p - sizeof_object_header ∈ full_obj_list (chunks h c).

Lemma member_chunk x h a o g c : group_ok x h a o g -> c ∈ members g -> chunk_ok h a o c.
Proof. intros G [Hc|Hc]%elem_of_app; [by apply (go_full _ _ _ _ _ G)|by apply (go_empty _ _ _ _ _ G)]. Qed.
Lemma in_group_chunk x h a o c : small_ok x h -> in_group h a o c -> chunk_ok h a o c.
Proof. intros S (Ho & m & Hm & Hc). eapply member_chunk; [|done]. by eapply so_group. Qed.

Lemma chunk_ok_frame h h' a o c :
  class_ok o -> chunk_ok h a o c -> chunks h' c = chunks h c ->
  (forall y, c <= y < c + CHUNK_SIZE -> hdr_allocator_id h' y = hdr_allocator_id h y) ->
  frames (kppn c) 4 ⊆ owned (vspace h') -> chunk_ok h' a o c.
Proof.
  intros Ho [] Hc Hh Hf. split; rewrite ?Hc; try done.
  intros y Hy. rewrite Hh; [by auto|]. pose proof (objs_bounds y c o Ho Hy). pose proof (slot_facts o Ho) as [? _].
  unfold stride, sizeof_object_header in *. lia.
Qed.

Lemma is_free_frame h h' x x' (l : list Z) :
  (forall d, d ∈ l -> chunks h' d = chunks h d) -> (forall d, d ∈ l -> d = x <-> d = x') ->
  countp (is_free h' x') l = countp (is_free h x) l.
Proof.
  induction l as [|d l IH]; intros H1 H2; [done|]. cbn [countp]. rewrite IH; [|intros e He; apply H1; by right|intros e He; apply H2; by right].
  f_equal. f_equal. unfold is_free. rewrite (H1 d ltac:(left)). f_equal. f_equal. specialize (H2 d ltac:(left)).
  destruct (Z.eqb_spec d x), (Z.eqb_spec d x'); tauto.
Qed.

Lemma group_ok_frame x x' h h' a o g c :
  class_ok o -> group_ok x h a o g -> c ∉ members g -> chunk_addr c \/ (forall y, hdr_allocator_id h' y = hdr_allocator_id h y) ->
  (forall d, d <> c -> chunks h' d = chunks h d) ->
  (forall y, ~ (c <= y < c + CHUNK_SIZE) -> hdr_allocator_id h' y = hdr_allocator_id h y) ->
  (forall d, d ∈ members g -> d = x <-> d = x') ->
  (forall d, d ∈ members g -> frames (kppn d) 4 ⊆ owned (vspace h')) ->
  group_ok x' h' a o g.
Proof.
  intros Ho G Hc Ha Hch Hh Hx Hf. unfold members in *. apply not_elem_of_app in Hc as [Hc1 Hc2].
  assert (Hch' : forall d, d ∈ full_list g ++ empty_list g -> chunks h' d = chunks h d).
  { intros d Hd. apply Hch. intros ->. apply elem_of_app in Hd. tauto. }
  assert (Hk : forall d, d ∈ full_list g ++ empty_list g -> chunk_ok h a o d -> chunk_ok h' a o d).
  { intros d Hd K. apply (chunk_ok_frame h); [done|done| | |].
    - by apply Hch'.
    - intros y Hy. destruct Ha as [Ha|Ha]; [|apply Ha]. apply Hh. intros Hy'. assert (c = d) as ->; [|apply elem_of_app in Hd; tauto].
      by apply (chunk_regions c d y); [|apply K| |].
    - by apply Hf. }
  assert (He : countp (is_free h' x') (empty_list g) = countp (is_free h x) (empty_list g)).
  { apply is_free_frame; intros d Hd; [apply Hch'|apply Hx]; apply elem_of_app; by right. }
  destruct G. split; rewrite ?He; try done.
  - intros d Hd. destruct (go_full0 d Hd) as [K U]. assert (Hm : d ∈ full_list g ++ empty_list g) by (apply elem_of_app; by left).
    rewrite Hch' by done. split; [by apply Hk|done].
  - intros d Hd. destruct (go_empty0 d Hd) as [K U]. assert (Hm : d ∈ full_list g ++ empty_list g) by (apply elem_of_app; by right).
    rewrite Hch' by done. split; [by apply Hk|done].
Qed.

(** [h'] is [h] with group [o] of allocator [a] replaced and one chunk changed *)
Record regroup (h h' : heap) (a o : Z) (g' : mem_group) (c : Z) : Prop := {
  rg_alloc : forall b, b <> a -> kallocator h' b = kallocator h b;
  rg_group : exists m m', kallocator h a = Some m /\ kallocator h' a = Some m' /\ allocator_id m' = allocator_id m /\
    forall o', groups m' o' = (<[o := g']> (groups m)) o';
  rg_chunks : forall d, d <> c -> chunks h' d = chunks h d;
  rg_headers : forall y, ~ (c <= y < c + CHUNK_SIZE) -> hdr_allocator_id h' y = hdr_allocator_id h y
}.

Lemma regroup_in_group h h' a o g' c m b o' d :
  regroup h h' a o g' c -> kallocator h a = Some m ->
  in_group h' b o' d <-> (class_ok o' /\ if decide (b = a /\ o' = o) then d ∈ members g' else in_group h b o' d).
Proof.
  intros [R1 (m0 & m' & Hm & Hm' & Hi & Hg) R3 R4] Hm0. replace m0 with m in * by congruence. clear Hm0.
  unfold in_group. destruct (decide (b = a /\ o' = o)) as [[-> ->]|Hne].
  - split; intros (Ho & HH); (split; [done|]).
    + destruct HH as (m1 & Hm1 & Hd). replace m1 with m' in * by congruence. by rewrite Hg, fn_insert_same in Hd.
    + exists m'. split; [done|]. by rewrite Hg, fn_insert_same.
  - destruct (decide (b = a)) as [->|Hb].
    + split; intros (Ho & HH); (split; [done|]).
      * split; [done|]. exists m. split; [done|]. destruct HH as (m1 & Hm1 & Hd). replace m1 with m' in * by congruence.
        rewrite Hg, fn_insert_other in Hd by (intros ->; by apply Hne). done.
      * destruct HH as (_ & m1 & Hm1 & Hd). exists m'. split; [done|]. rewrite Hg, fn_insert_other by (intros ->; by apply Hne). congruence.
    + split; intros (Ho & HH); (split; [done|]).
      * split; [done|]. by rewrite R1 in HH.
      * destruct HH as (_ & HH). by rewrite R1.
Qed.

Lemma small_update x x' h h' a o g' c m :
  small_ok x h -> kallocator h a = Some m -> class_ok o -> chunk_addr c -> regroup h h' a o g' c ->
  (forall d, chunk_addr d -> d <> c -> d = x <-> d = x') ->
  group_ok x' h' a o g' ->
  (forall d, d ∈ members g' -> d ∈ members (groups m o) \/ d = c) ->
  (forall b o', in_group h b o' c -> b = a /\ o' = o) ->
  (forall b o' d, in_group h b o' d -> d <> c -> frames (kppn d) 4 ⊆ owned (vspace h')) ->
  small_ok x' h'.
Proof.
  intros S Hm Ho Hc R Hx G Hmem Hown Hf. pose proof R as [R1 (m0 & m' & Hm0 & Hm' & Hi & Hg) R3 R4].
  replace m0 with m in * by congruence. clear Hm0.
  assert (Hother : forall b mb o', kallocator h b = Some mb -> class_ok o' -> ~ (b = a /\ o' = o) -> group_ok x' h' b o' (groups mb o')).
  { intros b mb o' Hb Ho' Hne. assert (Hcn : c ∉ members (groups mb o')) by (intros Hin; apply Hne, Hown; split; [done|eauto]).
    apply (group_ok_frame x _ h _ _ _ _ c); try done.
    - by eapply so_group.
    - by left.
    - intros d Hd. apply Hx; [|by intros ->]. eapply co_addr, member_chunk; [by eapply (so_group _ _ S b)|done].
    - intros d Hd. apply (Hf b o'); [split; [done|eauto]|by intros ->]. }
  split.
  - intros b mb Hb. destruct (decide (b = a)) as [->|Hne].
    + replace mb with m' by congruence. rewrite Hi. by eapply so_alloc.
    + rewrite R1 in Hb by done. by eapply so_alloc.
  - intros b mb o' Hb Ho'. destruct (decide (b = a)) as [->|Hne].
    + replace mb with m' by congruence. rewrite Hg. destruct (decide (o = o')) as [<-|Hne]; [by rewrite fn_insert_same|].
      rewrite fn_insert_other by done. apply Hother; [done..|]. intros [_ ->]. done.
    + rewrite R1 in Hb by done. apply Hother; [done..|]. by intros [-> _].
  - intros b o1 b' o2 d H1 H2. rewrite (regroup_in_group h h' a o g' c m) in H1, H2 by done.
    destruct H1 as [Ho1 H1], H2 as [Ho2 H2].
    assert (Hgo : forall b o', in_group h b o' d -> d ∈ members g' -> b = a /\ o' = o).
    { intros b1 o1' Hin Hd. apply Hmem in Hd as [Hd| ->]; [|by apply Hown]. apply (so_sep _ _ S b1 o1' a o d); [done|]. split; [done|eauto]. }
    destruct (decide (b = a /\ o1 = o)) as [[-> ->]|N1], (decide (b' = a /\ o2 = o)) as [[-> ->]|N2]; try done.
    + exfalso. apply N2, Hgo; done.
    + exfalso. apply N1, Hgo; done.
    + by apply (so_sep _ _ S b o1 b' o2 d).
Qed.

(** ** Chunk operations *)

(** everything but the chunk table, the headers and the queues is the same *)
Record same_rest (h h' : heap) : Prop := {
  sr_vspace : vspace h' = vspace h; sr_cur : cur h' = cur h; sr_kallocator : kallocator h' = kallocator h;
  sr_rb : rb_view h' = rb_view h; sr_pcn : pcn_view h' = pcn_view h; sr_info : info_view h' = info_view h
}.
Lemma same_rest_trans h1 h2 h3 : same_rest h1 h2 -> same_rest h2 h3 -> same_rest h1 h3.
Proof. intros [] []. split; congruence. Qed.

Definition set_empty_objs (ch : mem_chunk) (l : list Z) : mem_chunk :=
  mk_chunk (magic ch) (c_allocator_id ch) (c_chunk_order ch) (nr_max_objs ch) (nr_used_objs ch) (full_obj_list ch) l.

Lemma carve_effect c o id n : forall i h,
  let l := (fun j => c + sizeof_mem_chunk + j * stride o) <$> seqZ i (Z.of_nat n) in
  let h' := carve c o id (sizeof_mem_chunk + i * stride o) n h in
  same_rest h h' /\
  chunks h' c = set_empty_objs (chunks h c) (rev l ++ empty_obj_list (chunks h c)) /\
  (forall d, d <> c -> chunks h' d = chunks h d) /\
  (forall y, y ∈ l -> hdr_allocator_id h' y = id) /\
  (forall y, y ∉ l -> hdr_allocator_id h' y = hdr_allocator_id h y).
Proof.
  induction n as [|n IH]; intros i h; cbv zeta.
  - cbn [carve]. change (seqZ i (Z.of_nat 0)) with (@nil Z). cbn. split; [done|]. split; [by destruct (chunks h c)|].
    split; [done|]. split; [|done]. intros y Hy. by apply not_elem_of_nil in Hy.
  - cbn [carve]. rewrite seqZ_cons by lia. replace (Z.pred (Z.of_nat (S n))) with (Z.of_nat n) by lia. cbn [fmap list_fmap rev].
    replace (sizeof_mem_chunk + i * stride o + slot o + sizeof_object_header) with (sizeof_mem_chunk + Z.succ i * stride o) by (unfold stride; lia).
    match goal with |- context [carve c o id _ n ?hh] => set (h1 := hh) end.
    destruct (IH (Z.succ i) h1) as (I1 & I2 & I3 & I4 & I5). set (l := (fun j => c + sizeof_mem_chunk + j * stride o) <$> seqZ (Z.succ i) (Z.of_nat n)) in *.
    set (x := c + (sizeof_mem_chunk + i * stride o)) in *.
    assert (Ex : c + sizeof_mem_chunk + i * stride o = x) by (unfold x; lia). rewrite Ex.
    split; [eapply same_rest_trans; [|exact I1]; by split|]. split.
    { rewrite I2. unfold h1. cbn. rewrite fn_insert_same. unfold set_empty_objs. cbn. by rewrite <- app_assoc. }
    split. { intros d Hd. rewrite I3 by done. cbn. by rewrite fn_insert_other by done. }
    assert (Hx : forall y, hdr_allocator_id h1 y = if decide (x = y) then id else hdr_allocator_id h y) by (intros y; done).
    split.
    + intros y Hy. destruct (decide (y ∈ l)) as [Hl|Hl]; [by apply I4|]. apply elem_of_cons in Hy as [->|Hy]; [|done].
      rewrite I5, Hx by done. by rewrite decide_True.
    + intros y Hy. apply not_elem_of_cons in Hy as [Hy1 Hy2]. rewrite I5, Hx by done. by rewrite decide_False by (by intros ->).
Qed.

(** [chunk_init] on a page-aligned address: every object is free *)
Lemma chunk_init_effect c o a h :
  chunk_addr c -> class_ok o ->
  let '(e, h') := chunk_init c o a h in
  e = REND_SUCCESS /\ same_rest h h' /\
  chunks h' c = mk_chunk CHUNK_MAGIC a o (obj_num o) 0 [] (rev (objs c o)) /\
  (forall d, d <> c -> chunks h' d = chunks h d) /\
  (forall y, y ∈ objs c o -> hdr_allocator_id h' y = a) /\
  (forall y, y ∉ objs c o -> hdr_allocator_id h' y = hdr_allocator_id h y).
Proof.
  intros Hc Ho. unfold chunk_init. destruct (Z.eqb_spec c NULL) as [->|Hn]; [by apply chunk_nonnull in Hc|].
  assert (Hm : c mod PAGE_SIZE = 0) by (destruct Hc as (_ & _ & Hc); unfold CHUNK_SIZE, PAGE_SIZE, PAGE_PER_CHUNK in *; dlia).
  rewrite Hm. change (negb (0 =? 0)) with false. cbn [orb]. unfold class_ok in Ho.
  destruct (Z.ltb_spec o 0); [lia|]. destruct (Z.leb_spec MAX_GROUP_SLOTS o); [lia|]. cbn [orb].
  split; [done|]. match goal with |- context [carve _ _ _ _ _ ?hh] => set (h1 := hh) end.
  pose proof (carve_effect c o a (Z.to_nat (obj_num o)) 0 h1) as C. cbv zeta in C.
  rewrite Z.mul_0_l, Z.add_0_r in C. pose proof (obj_num_facts o Ho). rewrite Z2Nat.id in C by lia. fold (objs c o) in C.
  destruct C as (C1 & C2 & C3 & C4 & C5). split; [eapply same_rest_trans; [|exact C1]; by split|]. split.
  { rewrite C2. unfold h1. cbn. rewrite fn_insert_same. unfold set_empty_objs. cbn. by rewrite app_nil_r. }
  split; [|done]. intros d Hd. rewrite C3 by done. unfold h1. cbn. by rewrite fn_insert_other by done.
Qed.

Lemma fresh_chunk_ok (h h' : heap) c o a :
  chunk_addr c -> class_ok o -> chunks h' c = mk_chunk CHUNK_MAGIC a o (obj_num o) 0 [] (rev (objs c o)) ->
  (forall y, y ∈ objs c o -> hdr_allocator_id h' y = a) -> vspace h' = vspace h -> frames (kppn c) 4 ⊆ owned (vspace h) ->
  chunk_ok h' a o c.
Proof.
  intros Hc Ho E Hh Hv Hf. split; rewrite ?E, ?Hv; try done. cbn. by rewrite <- Permutation_rev.
Qed.

(** ** Groups *)

Lemma group_at_eq h a m o : kallocator h a = Some m -> group_at h a o = groups m o.
Proof. intros E. unfold group_at, alloc_at. by rewrite E. Qed.
Lemma alloc_at_eq h a m : kallocator h a = Some m -> alloc_at h a = m.
Proof. intros E. unfold alloc_at. by rewrite E. Qed.

Lemma chunk_ok_eq h h' a o c :
  chunks h' c = chunks h c -> hdr_allocator_id h' = hdr_allocator_id h -> vspace h' = vspace h -> chunk_ok h a o c -> chunk_ok h' a o c.
Proof. intros Ec Eh Ev []. by split; rewrite ?Ec, ?Eh, ?Ev. Qed.

Lemma group_bounds x h a o g :
  group_ok x h a o g ->
  0 <= countp (is_free h x) (empty_list g) <= Z.of_nat (length (empty_list g)) /\
  Z.of_nat (length (empty_list g)) <= 2 ^ 35 /\ Z.of_nat (length (full_list g)) <= 2 ^ 35.
Proof.
  intros G. pose proof (go_nodup _ _ _ _ _ G) as Hn. split; [apply countp_range|].
  apply NoDup_app in Hn as (Hn1 & _ & Hn2).
  split; apply chunks_bounded; try done; intros c Hc; eapply co_addr, member_chunk; try exact G; apply elem_of_app; tauto.
Qed.

Lemma kallocator_set_group h a o g b :
  kallocator (set_group a o g h) b =
  if decide (a = b) then Some (let m := alloc_at h a in
    mk_alloc (allocator_id m) (<[o := g]> (groups m)) (page_chunk_root m) (buffer_size m) (kfree_page_pending m))
  else kallocator h b.
Proof. done. Qed.

Lemma set_group_regroup h h1 a o g c m :
  kallocator h a = Some m -> kallocator h1 = kallocator h ->
  (forall d, d <> c -> chunks h1 d = chunks h d) ->
  (forall y, ~ (c <= y < c + CHUNK_SIZE) -> hdr_allocator_id h1 y = hdr_allocator_id h y) ->
  regroup h (set_group a o g h1) a o g c.
Proof.
  intros Hm Hk Hc Hh. split; [..|exact Hc|exact Hh].
  - intros b Hb. rewrite kallocator_set_group, decide_False by done. by rewrite Hk.
  - exists m. eexists. split; [done|]. rewrite kallocator_set_group, decide_True by done. split; [done|].
    unfold alloc_at. rewrite Hk, Hm. done.
Qed.

Lemma live_split h b o' p c :
  live h b o' p <->
  (exists d, d <> c /\ in_group h b o' d /\ p - sizeof_object_header ∈ full_obj_list (chunks h d)) \/
  (in_group h b o' c /\ p - sizeof_object_header ∈ full_obj_list (chunks h c)).
Proof.
  split.
  - intros (d & Hd & Hp). destruct (decide (d = c)) as [->|Hne]; [by right|left; eauto].
  - intros [(d & _ & Hd)|Hd]; [by exists d|by exists c].
Qed.

(** liveness in the other chunks is not affected *)
Lemma live_others h h' a o g' c m b o' p :
  regroup h h' a o g' c -> kallocator h a = Some m ->
  (forall d, d <> c -> d ∈ members g' <-> d ∈ members (groups m o)) ->
  (exists d, d <> c /\ in_group h' b o' d /\ p - sizeof_object_header ∈ full_obj_list (chunks h' d)) <->
  (exists d, d <> c /\ in_group h b o' d /\ p - sizeof_object_header ∈ full_obj_list (chunks h d)).
Proof.
  intros R Hm Hd. assert (Hin : forall d, d <> c -> in_group h' b o' d <-> in_group h b o' d).
  { intros d Hne. rewrite (regroup_in_group h h' a o g' c m) by done. destruct (decide _) as [[-> ->]|].
    - rewrite Hd by done. unfold in_group. split; intros [Ho Hx]; (split; [done|]); [eauto|]. destruct Hx as (m' & Hm' & Hx). congruence.
    - unfold in_group. tauto. }
  split; intros (d & Hne & Hg & Hp); exists d; (split; [done|]); (split; [by apply Hin|]);
    [rewrite <- (rg_chunks _ _ _ _ _ _ R) by done|rewrite (rg_chunks _ _ _ _ _ _ R) by done]; done.
Qed.

(** the chunk changes hands without a live object in it *)
Lemma live_same h h' a o g' c m :
  regroup h h' a o g' c -> kallocator h a = Some m ->
  (forall d, d <> c -> d ∈ members g' <-> d ∈ members (groups m o)) ->
  ((forall b o', ~ in_group h b o' c) \/ full_obj_list (chunks h c) = []) -> 
  ((forall b o', ~ in_group h' b o' c) \/ full_obj_list (chunks h' c) = []) -> forall b o' p,
  live h' b o' p <-> live h b o' p.
Proof.
  intros R Hm Hd H1 H2 b o' p. rewrite (live_split h' _ _ _ c), (live_split h _ _ _ c), (live_others h h' a o g' c m) by done.
  assert (forall l, p - sizeof_object_header ∈ (l : list Z) -> l <> []) as Hnil by (intros l Hp ->; by apply not_elem_of_nil in Hp).
  split; (intros [Hl|[Hg Hp]]; [by left|]); exfalso.
  - destruct H2 as [H2|H2]; [by apply (H2 b o')|]. by apply Hnil in Hp.
  - destruct H1 as [H1|H1]; [by apply (H1 b o')|]. by apply Hnil in Hp.
Qed.

(** ** Moving chunks between the lists *)

Lemma is_free_other h x d : d <> x -> is_free h x d = (nr_used_objs (chunks h d) =? 0).
Proof. intros Hd. unfold is_free. destruct (Z.eqb_spec d x); [done|]. by rewrite andb_true_r. Qed.
Lemma is_free_held h x : is_free h x x = false.
Proof. unfold is_free. rewrite Z.eqb_refl. apply andb_false_r. Qed.

Lemma member_nonnull x h a o g c : group_ok x h a o g -> c ∈ members g -> c <> NULL.
Proof. intros G Hc. eapply chunk_nonnull, co_addr, member_chunk; done. Qed.

(** one more held chunk: every other chunk counts as before *)
Lemma countp_hold h c l :
  NoDup l -> c ∈ l -> (forall d, d ∈ l -> d <> NULL) ->
  countp (is_free h NULL) l = countp (is_free h c) l + Z.b2z (nr_used_objs (chunks h c) =? 0).
Proof.
  intros Hn Hc Hne. rewrite (countp_unlink _ c l Hn Hc), (countp_unlink (is_free h c) c l Hn Hc), is_free_held, is_free_other by auto.
  rewrite (countp_ext (is_free h NULL) (is_free h c) (unlink c l)); [cbn; lia|]. intros d Hd.
  apply elem_unlink in Hd as [Hd1 Hd2]. by rewrite !is_free_other by auto.
Qed.

(** taking the head chunk of a class in hand *)
Lemma hold_head h a m o c :
  small_ok NULL h -> kallocator h a = Some m -> class_ok o -> c ∈ empty_list (groups m o) ->
  let g := groups m o in
  let h' := if nr_used_objs (chunks h c) =? 0
            then set_group a o (set_group_counts (u64 (free_chunk_num g - 1)) (u64 (empty_chunk_num g + 1)) (full_chunk_num g) g) h
            else h in
  small_ok c h' /\ (forall b o' p, live h' b o' p <-> live h b o' p) /\ (forall b o' d, in_group h' b o' d <-> in_group h b o' d).
Proof.
  intros S Hm Ho Hc. cbv zeta. set (g := groups m o) in *. pose proof (so_group _ _ S a m o Hm Ho) as G. fold g in G.
  pose proof (group_bounds _ _ _ _ _ G) as (B1 & B2 & B3). pose proof (go_nodup _ _ _ _ _ G) as Hnd.
  apply NoDup_app in Hnd as (Hnf & Hdj & Hne).
  assert (Hnn : forall d, d ∈ empty_list g -> d <> NULL) by (intros d Hd; eapply member_nonnull; [exact G|]; apply elem_of_app; by right).
  pose proof (countp_hold h c (empty_list g) Hne Hc Hnn) as HC. pose proof (go_free_num _ _ _ _ _ G) as Gf. pose proof (go_empty_num _ _ _ _ _ G) as Ge.
  assert (Hck : chunk_addr c) by (eapply co_addr, member_chunk; [exact G|]; apply elem_of_app; by right).
  assert (Hcg : in_group h a o c) by (split; [done|]; exists m; split; [done|]; apply elem_of_app; by right).
  pose proof (countp_range (is_free h c) (empty_list g)) as HR.
  assert (Hown : forall b o', in_group h b o' c -> b = a /\ o' = o) by (intros b o' Hb; by apply (so_sep _ _ S b o' a o c)).
  assert (Hfr : forall b o' d, in_group h b o' d -> frames (kppn d) 4 ⊆ owned (vspace h)) by (intros b o' d Hd; by eapply co_frames, in_group_chunk).
  destruct (Z.eqb_spec (nr_used_objs (chunks h c)) 0) as [Hu|Hu]; cbn [Z.b2z] in HC.
  - set (g' := set_group_counts _ _ _ _). set (h' := set_group a o g' h).
    assert (R : regroup h h' a o g' c) by (by apply (set_group_regroup h h a o g' c m)).
    assert (Hin : forall b o' d, in_group h' b o' d <-> in_group h b o' d).
    { intros b o' d. rewrite (regroup_in_group h h' a o g' c m) by done. destruct (decide _) as [[-> ->]|]; [|unfold in_group; tauto].
      change (members g') with (members g). unfold in_group. split; intros [? Hx]; (split; [done|]); [eauto|].
      destruct Hx as (m' & Hm' & Hx). replace m' with m in Hx by congruence. done. }
    split; [|split; [|done]].
    + apply (small_update NULL c h h' a o g' c m); try done.
      * intros d Hd Hne'. split; intros ->; [by apply chunk_nonnull in Hd|done].
      * assert (Hck' : forall d, chunk_ok h a o d -> chunk_ok h' a o d) by (intros d; by apply chunk_ok_eq).
        destruct G. split; try done.
        -- intros d Hd. destruct (go_full0 d Hd). by split; [apply Hck'|].
        -- intros d Hd. destruct (go_empty0 d Hd). by split; [apply Hck'|].
        -- change (u64 (free_chunk_num g - 1) = countp (is_free h c) (empty_list g)). rewrite u64_small by lia. lia.
        -- change (u64 (empty_chunk_num g + 1) = Z.of_nat (length (empty_list g)) - countp (is_free h c) (empty_list g)).
           rewrite u64_small by lia. lia.
      * intros d Hd. by left.
      * intros b o' d Hd _. by eapply Hfr.
    + intros b o' p. unfold live. by setoid_rewrite Hin.
  - split; [|done]. split; [apply S| |apply S]. intros b m' o' Hm' Ho'. pose proof (so_group _ _ S b m' o' Hm' Ho') as G'.
    assert (He : countp (is_free h c) (empty_list (groups m' o')) = countp (is_free h NULL) (empty_list (groups m' o'))).
    { apply countp_ext. intros d Hd. assert (d <> NULL) by (eapply member_nonnull; [exact G'|]; apply elem_of_app; by right).
      rewrite (is_free_other h NULL) by done. destruct (decide (d = c)) as [->|]; [|by rewrite is_free_other].
      rewrite is_free_held. symmetry. by apply Z.eqb_neq. }
    destruct G'. by split; rewrite ?He.
Qed.

Lemma used_live_nil h a o c : chunk_ok h a o c -> nr_used_objs (chunks h c) = 0 -> full_obj_list (chunks h c) = [].
Proof. intros K Hu. rewrite (co_used _ _ _ _ K) in Hu. destruct (full_obj_list (chunks h c)); [done|cbn in Hu; lia]. Qed.

(** unlinking a chunk without live objects *)
Lemma drop_free h a m o c :
  small_ok NULL h -> kallocator h a = Some m -> class_ok o -> c ∈ empty_list (groups m o) -> nr_used_objs (chunks h c) = 0 ->
  let g := groups m o in
  let h' := set_group a o (set_group_counts (u64 (free_chunk_num g - 1)) (empty_chunk_num g) (full_chunk_num g)
              (set_group_lists (unlink c (full_list g)) (unlink c (empty_list g)) g)) h in
  small_ok NULL h' /\ (forall b o' d, in_group h' b o' d <-> in_group h b o' d /\ d <> c) /\
  (forall b o' p, live h' b o' p <-> live h b o' p).
Proof.
  intros S Hm Ho Hc Hu. cbv zeta. set (g := groups m o) in *. pose proof (so_group _ _ S a m o Hm Ho) as G. fold g in G.
  pose proof (group_bounds _ _ _ _ _ G) as (B1 & B2 & B3). pose proof (go_nodup _ _ _ _ _ G) as Hnd.
  apply NoDup_app in Hnd as (Hnf & Hdj & Hne).
  assert (Hcf : c ∉ full_list g) by (intros Hcf; by apply (Hdj c)).
  assert (Hmem : c ∈ members (groups m o)) by (apply elem_of_app; by right).
  pose proof (member_chunk _ _ _ _ _ _ G Hmem) as K. pose proof (co_addr _ _ _ _ K) as Hck.
  assert (Hcg : in_group h a o c) by (split; [done|]; by exists m).
  assert (Hown : forall b o', in_group h b o' c -> b = a /\ o' = o) by (intros b o' Hb; by apply (so_sep _ _ S b o' a o c)).
  pose proof (countp_unlink (is_free h NULL) c _ Hne Hc) as Hcp. pose proof (length_unlink c _ Hne Hc) as Hlen.
  pose proof (countp_range (is_free h NULL) (unlink c (empty_list g))) as Hcr.
  assert (Hfc : is_free h NULL c = true) by (rewrite is_free_other by (by apply chunk_nonnull); by rewrite Hu).
  rewrite Hfc in Hcp. cbn [Z.b2z] in Hcp. rewrite (unlink_none c (full_list g)) by done.
  set (g' := set_group_counts _ _ _ _). set (h' := set_group a o g' h).
  assert (R : regroup h h' a o g' c) by (by apply (set_group_regroup h h a o g' c m)).
  assert (Em : forall d, d ∈ members g' <-> d ∈ members (groups m o) /\ d <> c).
  { intros d. change (members g') with (full_list g ++ unlink c (empty_list g)). unfold members. fold g.
    rewrite !elem_of_app, elem_unlink. destruct (decide (d = c)) as [->|]; tauto. }
  assert (Hin : forall b o' d, in_group h' b o' d <-> in_group h b o' d /\ d <> c).
  { intros b o' d. rewrite (regroup_in_group h h' a o g' c m) by done. destruct (decide _) as [[-> ->]|Hn].
    - rewrite Em. unfold in_group. split; [intros (? & ? & ?); eauto|]. intros ((? & m' & Hm' & ?) & ?). replace m' with m in * by congruence. done.
    - split; [|intros [[? ?] ?]; split; [done|by split]]. intros [? Hi]. split; [done|]. intros ->. by apply Hn, Hown. }
  assert (Hck' : forall d, chunk_ok h a o d -> chunk_ok h' a o d) by (intros d; by apply chunk_ok_eq).
  split; [|split; [done|]].
  - apply (small_update NULL NULL h h' a o g' c m); try done.
    + destruct G. split; try done.
      * change (full_list g') with (full_list g). change (empty_list g') with (unlink c (empty_list g)).
        apply NoDup_app. split; [done|]. split; [|by apply unlink_NoDup]. intros d Hd [Hd' _]%elem_unlink. by apply (Hdj d).
      * intros d Hd. destruct (go_full0 d Hd). by split; [apply Hck'|].
      * intros d [Hd _]%elem_unlink. destruct (go_empty0 d Hd). by split; [apply Hck'|].
      * change (u64 (free_chunk_num g - 1) = countp (is_free h NULL) (unlink c (empty_list g))). rewrite u64_small by lia. lia.
      * change (empty_chunk_num g = Z.of_nat (length (unlink c (empty_list g))) - countp (is_free h NULL) (unlink c (empty_list g))). lia.
    + intros d Hd%Em. left. tauto.
    + intros b o' d Hd _. change (frames (kppn d) 4 ⊆ owned (vspace h)). by eapply co_frames, in_group_chunk.
  - apply (live_same h h' a o g' c m); try done.
    + intros d Hd. rewrite Em. tauto.
    + right. by eapply used_live_nil.
    + left. intros b o' [_ ?]%Hin. done.
Qed.

(** linking an initialised chunk into an exhausted class *)
Lemma add_chunk h h1 a m o c :
  small_ok NULL h -> kallocator h a = Some m -> class_ok o -> chunk_addr c -> (forall b o', ~ in_group h b o' c) ->
  empty_list (groups m o) = [] -> frames (kppn c) 4 ⊆ owned (vspace h) ->
  same_rest h h1 -> chunks h1 c = mk_chunk CHUNK_MAGIC a o (obj_num o) 0 [] (rev (objs c o)) ->
  (forall d, d <> c -> chunks h1 d = chunks h d) ->
  (forall y, y ∈ objs c o -> hdr_allocator_id h1 y = a) -> (forall y, y ∉ objs c o -> hdr_allocator_id h1 y = hdr_allocator_id h y) ->
  let g := groups m o in
  let h' := set_group a o (set_group_counts (free_chunk_num g) (u64 (empty_chunk_num g + 1)) (full_chunk_num g)
              (set_group_lists (full_list g) [c] g)) h1 in
  small_ok c h' /\ (forall b o' d, in_group h' b o' d <-> in_group h b o' d \/ (b = a /\ o' = o /\ d = c)) /\
  (forall b o' p, live h' b o' p <-> live h b o' p).
Proof.
  intros S Hm Ho Hck Hout He Hfr SR Hch Hchd Hhd Hhd'. cbv zeta. set (g := groups m o) in *.
  pose proof (so_group _ _ S a m o Hm Ho) as G. fold g in G. pose proof (go_nodup _ _ _ _ _ G) as Hnd. rewrite He, app_nil_r in Hnd.
  pose proof (go_free_num _ _ _ _ _ G) as Gf. pose proof (go_empty_num _ _ _ _ _ G) as Ge. rewrite He in Gf, Ge. cbn in Gf, Ge.
  assert (Hcf : c ∉ full_list g) by (intros Hcf; apply (Hout a o); split; [done|]; exists m; split; [done|]; apply elem_of_app; by left).
  set (g' := set_group_counts _ _ _ _). set (h' := set_group a o g' h1).
  assert (R : regroup h h' a o g' c).
  { apply (set_group_regroup h h1 a o g' c m); [done|apply SR|done|]. intros y Hy. apply Hhd'. intros Hin. apply Hy.
    pose proof (objs_bounds y c o Ho Hin). pose proof (slot_facts o Ho) as [? _]. unfold stride, sizeof_object_header in *. lia. }
  assert (Em : forall d, d ∈ members g' <-> d ∈ members (groups m o) \/ d = c).
  { intros d. change (members g') with (full_list g ++ [c]). unfold members. fold g. rewrite He, app_nil_r.
    by rewrite elem_of_app, list_elem_of_singleton. }
  assert (Hin : forall b o' d, in_group h' b o' d <-> in_group h b o' d \/ (b = a /\ o' = o /\ d = c)).
  { intros b o' d. rewrite (regroup_in_group h h' a o g' c m) by done. destruct (decide _) as [[-> ->]|Hn].
    - rewrite Em. unfold in_group. split.
      + intros (? & [?|?]); [left; eauto|right; tauto].
      + intros [(? & m' & Hm' & ?)|(? & ? & ->)]; (split; [done|]); [left|by right]. by replace m' with m in * by congruence.
    - split; [intros [? ?]; by left|]. intros [Hi|(? & ? & ?)]; [split; [apply Hi|done]|]. exfalso. tauto. }
  assert (Ev : vspace h' = vspace h) by apply SR.
  assert (Kc : chunk_ok h' a o c) by (apply (fresh_chunk_ok h); done).
  assert (Hck' : forall d, d ∈ full_list g -> chunk_ok h a o d -> chunk_ok h' a o d).
  { intros d Hd K. assert (d <> c) by (by intros ->). apply (chunk_ok_frame h); [done|done|by apply Hchd| |rewrite Ev; apply K].
    intros y Hy. apply Hhd'. intros Hy'. assert (c = d); [|done]. pose proof (objs_bounds y c o Ho Hy').
    pose proof (slot_facts o Ho) as [? _]. apply (chunk_regions c d y); [done|apply K| |done].
    unfold stride, sizeof_object_header in *. lia. }
  split; [|split; [done|]].
  - apply (small_update NULL c h h' a o g' c m); try done.
    + intros d Hd Hne. split; intros ->; [by apply chunk_nonnull in Hd|done].
    + destruct G. split; try done.
      * change (NoDup (full_list g ++ [c])). apply NoDup_app. split; [done|]. split; [|apply NoDup_singleton].
        intros d Hd ->%list_elem_of_singleton. done.
      * intros d Hd. destruct (go_full0 d Hd) as [K U]. split; [by apply Hck'|].
        change (nr_used_objs (chunks h1 d) = obj_num o). rewrite Hchd; [done|by intros ->].
      * intros d ->%list_elem_of_singleton. split; [done|]. change (nr_used_objs (chunks h1 c) < obj_num o). rewrite Hch. cbn.
        pose proof (obj_num_facts o Ho). lia.
      * change (free_chunk_num g = countp (is_free h' c) [c]). cbn [countp]. rewrite is_free_held. cbn. lia.
      * change (u64 (empty_chunk_num g + 1) = 1 - countp (is_free h' c) [c]). cbn [countp]. rewrite is_free_held.
        rewrite u64_small by lia. cbn. lia.
    + intros d Hd%Em. done.
    + intros b o' Hb. by apply Hout in Hb.
    + intros b o' d Hd _. rewrite Ev. by eapply co_frames, in_group_chunk.
  - apply (live_same h h' a o g' c m); try done.
    + intros d Hd. rewrite Em. tauto.
    + by left.
    + right. change (full_obj_list (chunks h1 c) = []). by rewrite Hch.
Qed.

Lemma small_vspace x h v :
  small_ok x h -> (forall b o d, in_group h b o d -> frames (kppn d) 4 ⊆ owned v) -> small_ok x (set_vspace v h).
Proof.
  intros S Hf. split; [apply S| |apply S]. intros a m o Hm Ho. pose proof (so_group _ _ S a m o Hm Ho) as G.
  assert (Hck : forall d, d ∈ members (groups m o) -> chunk_ok h a o d -> chunk_ok (set_vspace v h) a o d).
  { intros d Hd []. split; try done. apply (Hf a o). split; [done|]. by exists m. }
  destruct G. split; try done.
  - intros d Hd. destruct (go_full0 d Hd). split; [|done]. apply Hck; [apply elem_of_app; by left|done].
  - intros d Hd. destruct (go_empty0 d Hd). split; [|done]. apply Hck; [apply elem_of_app; by right|done].
Qed.

(** ** Finding a chunk *)

Definition alloc_same (m m' : mem_allocator) : Prop :=
  allocator_id m' = allocator_id m /\ page_chunk_root m' = page_chunk_root m /\
  buffer_size m' = buffer_size m /\ kfree_page_pending m' = kfree_page_pending m.
#[local] Instance alloc_same_refl : Reflexive alloc_same.
Proof. by intros m. Qed.
#[local] Instance alloc_same_trans : Transitive alloc_same.
Proof. intros m1 m2 m3 (?&?&?&?) (?&?&?&?). unfold alloc_same. split_and!; congruence. Qed.

(** what the small-object operations leave alone *)
Record steady (h h' : heap) : Prop := {
  st_cur : cur h' = cur h;
  st_alloc : forall b, option_Forall2 alloc_same (kallocator h b) (kallocator h' b)
}.
Lemma steady_refl h : steady h h.
Proof. by split. Qed.
Lemma steady_trans h1 h2 h3 : steady h1 h2 -> steady h2 h3 -> steady h1 h3.
Proof.
  intros [A1 B1] [A2 B2]. split; [congruence|]. intros b. specialize (B1 b). specialize (B2 b).
  destruct B1 as [m1 m2 Hm|]; inversion B2; subst; constructor. by eapply alloc_same_trans.
Qed.
Lemma steady_some h h' b m : steady h h' -> kallocator h b = Some m -> exists m', kallocator h' b = Some m' /\ alloc_same m m'.
Proof. intros [_ B] Hm. specialize (B b). rewrite Hm in B. inversion B; subst. eauto. Qed.

Lemma set_group_steady h a m o g : kallocator h a = Some m -> steady h (set_group a o g h).
Proof.
  intros Hm. split; [done|]. intros b. rewrite kallocator_set_group. destruct (decide (a = b)) as [<-|]; [|done].
  rewrite (alloc_at_eq _ _ _ Hm), Hm. by constructor.
Qed.
Lemma same_rest_steady h h' : same_rest h h' -> steady h h'.
Proof. intros []. split; [done|]. intros b. by rewrite sr_kallocator0. Qed.
Lemma set_group_kallocator h a m o g : kallocator h a = Some m ->
  exists m', kallocator (set_group a o g h) a = Some m' /\ forall o', groups m' o' = if decide (o = o') then g else groups m o'.
Proof.
  intros Hm. rewrite kallocator_set_group, decide_True, (alloc_at_eq _ _ _ Hm) by done. eexists. split; [done|]. done.
Qed.

(** the views of the payload memory *)
Definition views (h : heap) := (rb_view h, pcn_view h, info_view h).

Record moved (h h' : heap) : Prop := {
  mv_steady : steady h h';
  mv_views : views h' = views h;
  mv_live : forall b o p, live h' b o p <-> live h b o p;
  mv_owned : owned (vspace h) ⊆ owned (vspace h');
  mv_fresh : forall b o d, in_group h' b o d -> (exists b' o', in_group h b' o' d) \/ frames (kppn d) 4 ## owned (vspace h)
}.
Lemma moved_refl h : moved h h.
Proof. split; [apply steady_refl|done|done|done|]. intros b o d Hd. left. eauto. Qed.
Lemma moved_trans h1 h2 h3 : moved h1 h2 -> moved h2 h3 -> moved h1 h3.
Proof.
  intros [A1 A2 A3 A4 A5] [B1 B2 B3 B4 B5]. split.
  - by eapply steady_trans.
  - congruence.
  - intros b o p. by rewrite B3, A3.
  - by etransitivity.
  - intros b o d Hd. destruct (B5 _ _ _ Hd) as [(b' & o' & Hd')|Hd']; [by eapply A5|]. right. set_solver.
Qed.

Lemma find_free_some h l c : find_free_chunk h l = Some c -> c ∈ l /\ nr_used_objs (chunks h c) = 0.
Proof.
  unfold find_free_chunk. destruct (filter _ l) as [|d l'] eqn:E; [done|]. intros [= ->].
  assert (Hc : c ∈ filter (fun c => nr_used_objs (chunks h c) = 0) l) by (rewrite E; left).
  apply list_elem_of_filter in Hc. tauto.
Qed.

(** a chunk is unlinked from another class, or none is found *)
Lemma collect_effect a slot_index n : forall gid h m,
  small_ok NULL h -> kallocator h a = Some m -> 0 <= gid -> gid + Z.of_nat n <= MAX_GROUP_SLOTS ->
  let '(c, h') := collect_from a slot_index gid n h in
  (c = NULL /\ h' = h) \/
  (small_ok NULL h' /\ moved h h' /\ vspace h' = vspace h /\ (exists b o, in_group h b o c) /\ (forall b o, ~ in_group h' b o c) /\
   exists m', kallocator h' a = Some m' /\ groups m' slot_index = groups m slot_index).
Proof.
  induction n as [|n IH]; intros gid h m S Hm Hg Hn; cbn [collect_from]; [by left|].
  rewrite (group_at_eq h a m gid) by done. set (g := groups m gid).
  destruct (if negb (gid =? slot_index) && negb (free_chunk_num g =? 0) then find_free_chunk h (empty_list g) else None) as [c|] eqn:Ef.
  - right. destruct (negb (gid =? slot_index)) eqn:Eg; cbn [andb] in Ef; [|done]. destruct (negb (free_chunk_num g =? 0)); [|done].
    apply negb_true_iff, Z.eqb_neq in Eg. apply find_free_some in Ef as [Hc Hu].
    assert (Ho : class_ok gid) by (unfold class_ok; lia).
    destruct (drop_free h a m gid c S Hm Ho Hc Hu) as (D1 & D2 & D3). fold g in D1, D2, D3. set (h' := set_group _ _ _ _) in *.
    assert (Hst : steady h h') by (by eapply set_group_steady).
    split; [done|]. split. { split; [done|done|done|done|]. intros b o d [Hd _]%D2. left. eauto. }
    split; [done|]. split. { exists a, gid. split; [done|]. exists m. split; [done|]. apply elem_of_app. by right. }
    split; [intros b o [_ ?]%D2; done|].
    destruct (set_group_kallocator h a m gid (set_group_counts (u64 (free_chunk_num g - 1)) (empty_chunk_num g) (full_chunk_num g)
              (set_group_lists (unlink c (full_list g)) (unlink c (empty_list g)) g)) Hm) as (m' & Hm' & Hg').
    exists m'. split; [done|]. by rewrite Hg', decide_False.
  - apply IH; [done..|lia|lia].
Qed.

Lemma get_pages_chunk root h :
  let '(p, h') := get_pages root PAGE_PER_CHUNK h in
  h' = set_vspace (vspace h') h /\
  ((p = NULL /\ owned (vspace h') = owned (vspace h)) \/
   (chunk_addr p /\ frames (kppn p) 4 ## owned (vspace h) /\ owned (vspace h') = owned (vspace h) ∪ frames (kppn p) 4)).
Proof.
  unfold get_pages. pose proof (get_pages_effect (vspace h) root (cur h) PAGE_PER_CHUNK PAGE_ENTRY_NONE ltac:(done)) as G.
  destruct (core_get_free_pages _ _ _ _ _) as [p v]. split; [done|]. destruct G as [G|(ppn & -> & _ & _ & Hp & Hb & Hd & Ho & got & w & Ha & Hi)]; [by left|].
  right. pose proof (chunk_aligned _ _ _ _ Ha Hi) as Hal. unfold PAGE_PER_CHUNK in *. rewrite kernel_addr by lia.
  assert (E : kppn (ppn * 4096 + KERNEL_VIRT_OFFSET) = ppn).
  { unfold kppn, PAGE_SIZE. replace (ppn * 4096 + KERNEL_VIRT_OFFSET - KERNEL_VIRT_OFFSET) with (ppn * 4096) by lia. by rewrite Z.div_mul by lia. }
  rewrite E. split; [|done]. unfold chunk_addr, CHUNK_SIZE, PAGE_SIZE, PAGE_PER_CHUNK, KERNEL_VIRT_OFFSET. split; [lia|]. split; [lia|dlia].
Qed.

Lemma steady_set_vspace h v : steady h (set_vspace v h).
Proof. by split. Qed.
Lemma members_in_group h a m o c : class_ok o -> kallocator h a = Some m -> c ∈ members (groups m o) -> in_group h a o c.
Proof. intros Ho Hm Hc. split; [done|]. by exists m. Qed.

(** an initialised chunk joins an exhausted class: [h0] is the state before
    [chunk_init], in which no group holds the chunk *)
Lemma link_chunk h0 h1 a m o c :
  small_ok NULL h0 -> kallocator h0 a = Some m -> class_ok o -> chunk_addr c -> (forall b o', ~ in_group h0 b o' c) ->
  empty_list (groups m o) = [] -> frames (kppn c) 4 ⊆ owned (vspace h0) ->
  let '(e, h1) := chunk_init c (g_chunk_order (groups m o)) (g_allocator_id (groups m o)) h0 in
  e = REND_SUCCESS /\
  group_at h1 a o = groups m o /\
  let g := groups m o in
  let h' := set_group a o (set_group_counts (free_chunk_num g) (u64 (empty_chunk_num g + 1)) (full_chunk_num g)
              (set_group_lists (full_list g) [c] g)) h1 in
  small_ok c h' /\ steady h0 h' /\ views h' = views h0 /\ vspace h' = vspace h0 /\
  (forall b o' d, in_group h' b o' d <-> in_group h0 b o' d \/ (b = a /\ o' = o /\ d = c)) /\
  (forall b o' p, live h' b o' p <-> live h0 b o' p) /\
  exists m', kallocator h' a = Some m' /\ c ∈ empty_list (groups m' o).
Proof.
  intros S Hm Ho Hc Hout He Hf. pose proof (so_group _ _ S a m o Hm Ho) as G. rewrite (go_order _ _ _ _ _ G), (go_id _ _ _ _ _ G).
  pose proof (chunk_init_effect c o a h0 Hc Ho) as I. destruct (chunk_init c o a h0) as [e h2].
  destruct I as (-> & SR & I1 & I2 & I3 & I4). split; [done|]. assert (Hm2 : kallocator h2 a = Some m) by (by rewrite (sr_kallocator _ _ SR)).
  split; [by apply group_at_eq|]. cbv zeta.
  destruct (add_chunk h0 h2 a m o c S Hm Ho Hc Hout He Hf SR I1 I2 I3 I4) as (A1 & A2 & A3).
  split; [done|]. split. { eapply steady_trans; [by apply same_rest_steady|by eapply set_group_steady]. }
  split. { unfold views. cbn. by destruct SR as [_ _ _ -> -> ->]. }
  split; [apply SR|]. split; [done|]. split; [done|].
  destruct (set_group_kallocator h2 a m o (set_group_counts (free_chunk_num (groups m o)) (u64 (empty_chunk_num (groups m o) + 1))
    (full_chunk_num (groups m o)) (set_group_lists (full_list (groups m o)) [c] (groups m o))) Hm2) as (m' & Hm' & Hg').
  exists m'. split; [done|]. rewrite Hg', decide_True by done. apply list_elem_of_singleton. done.
Qed.

Lemma take_chunk_effect root h a m o :
  small_ok NULL h -> kallocator h a = Some m -> class_ok o ->
  let '(c, h1) := take_chunk root a o h in
  moved h h1 /\
  ((c = NULL /\ small_ok NULL h1 /\ fst (get_pages root PAGE_PER_CHUNK h) = NULL) \/
   (small_ok c h1 /\ exists m1, kallocator h1 a = Some m1 /\ c ∈ empty_list (groups m1 o))).
Proof.
  intros S Hm Ho. unfold take_chunk. rewrite (group_at_eq h a m o Hm). set (g := groups m o).
  pose proof (so_group _ _ S a m o Hm Ho) as G. fold g in G. pose proof (group_bounds _ _ _ _ _ G) as (B1 & B2 & B3).
  pose proof (go_free_num _ _ _ _ _ G) as Gf. pose proof (go_empty_num _ _ _ _ _ G) as Ge.
  destruct ((empty_chunk_num g =? 0) && (free_chunk_num g =? 0)) eqn:Ez.
  - apply andb_true_iff in Ez as [Ee%Z.eqb_eq Ez%Z.eqb_eq]. assert (He : empty_list g = []) by (destruct (empty_list g); [done|cbn [length] in *; lia]).
    unfold collect_chunk_from_other_group. pose proof (collect_effect a o (Z.to_nat MAX_GROUP_SLOTS) 0 h m S Hm ltac:(lia) ltac:(done)) as C.
    destruct (collect_from _ _ _ _ _) as [c h1]. destruct C as [[-> ->]|(S1 & M1 & Ev & (b0 & o0 & Hin) & Hout & m1 & Hm1 & Hg1)].
    + rewrite Z.eqb_refl. pose proof (get_pages_chunk root h) as P. destruct (get_pages root PAGE_PER_CHUNK h) as [p h1].
      destruct P as [Ep P]. destruct (Z.eqb_spec p NULL) as [->|Hp].
      * destruct P as [[_ P]|[P _]]; [|by apply chunk_nonnull in P]. rewrite Ep. split; [|left; split; [done|split; [|done]]].
        -- split; [apply steady_set_vspace|done|done|cbn; set_solver|]. intros b o' d Hd. left. eauto.
        -- apply small_vspace; [done|]. intros b o' d Hd. rewrite P. by eapply co_frames, in_group_chunk.
      * destruct P as [[-> _]|(Pc & Pf & Po)]; [done|].
        assert (S1 : small_ok NULL h1).
        { rewrite Ep. apply small_vspace; [done|]. intros b o' d Hd. rewrite Po. pose proof (co_frames _ _ _ _ (in_group_chunk _ _ _ _ _ S Hd)). set_solver. }
        assert (Hin1 : forall b o' d, in_group h1 b o' d <-> in_group h b o' d) by (rewrite Ep; done).
        assert (Hout : forall b o', ~ in_group h1 b o' p).
        { intros b o' Hd%Hin1. pose proof (co_frames _ _ _ _ (in_group_chunk _ _ _ _ _ S Hd)) as Hfr.
          assert (kppn p ∈ frames (kppn p) 4) by (apply elem_frames; lia). set_solver. }
        assert (Hm1 : kallocator h1 a = Some m) by (by rewrite Ep).
        pose proof (link_chunk h1 h1 a m o p S1 Hm1 Ho Pc Hout He ltac:(rewrite Po; set_solver)) as L. fold g in L.
        destruct (chunk_init p _ _ h1) as [e h2]. destruct L as (-> & Eg & L). rewrite Eg. cbv zeta in L. cbn [negb Z.eqb REND_SUCCESS].
        rewrite He in *. destruct L as (L1 & L2 & L3 & L4 & L5 & L6 & L7). split; [|right; by split].
        split.
        -- eapply steady_trans; [|exact L2]. rewrite Ep. apply steady_set_vspace.
        -- rewrite L3, Ep. done.
        -- intros b o' q. rewrite L6, Ep. done.
        -- rewrite L4, Po. set_solver.
        -- intros b o' d Hd%L5. destruct Hd as [Hd|(-> & -> & ->)]; [left; exists b, o'; by apply Hin1|by right].
    + assert (Kc : chunk_ok h b0 o0 c) by (by eapply in_group_chunk). pose proof (co_addr _ _ _ _ Kc) as Hc.
      destruct (Z.eqb_spec c NULL) as [->|Hp]; [by apply chunk_nonnull in Hc|].
      pose proof (link_chunk h1 h1 a m1 o c S1 Hm1 Ho Hc Hout ltac:(by rewrite Hg1) ltac:(rewrite Ev; apply Kc)) as L. rewrite Hg1 in L. fold g in L.
      destruct (chunk_init c _ _ h1) as [e h2]. destruct L as (-> & Eg & L). rewrite Eg. cbv zeta in L. cbn [negb Z.eqb REND_SUCCESS].
      destruct L as (L1 & L2 & L3 & L4 & L5 & L6 & L7). split; [|right; by split].
      destruct M1 as [M1 M2 M3 M4 M5]. split.
      * by eapply steady_trans.
      * by rewrite L3.
      * intros b o' p. by rewrite L6, M3.
      * by rewrite L4.
      * intros b o' d Hd%L5. destruct Hd as [Hd|(-> & -> & ->)]; [by eapply M5|]. left. by exists b0, o0.
  - assert (He : exists c rest, empty_list g = c :: rest).
    { destruct (empty_list g) as [|c rest]; [|eauto]. cbn in *. rewrite andb_false_iff, !Z.eqb_neq in Ez. lia. }
    destruct He as (c & rest & He). rewrite He. cbn [first].
    assert (Hc : c ∈ empty_list (groups m o)) by (fold g; rewrite He; left).
    destruct (hold_head h a m o c S Hm Ho Hc) as (A1 & A2 & A3). fold g in A1, A2, A3.
    destruct (Z.eqb_spec (nr_used_objs (chunks h c)) 0) as [Hu|Hu].
    + split; [|right; split; [done|]].
      * split; [by eapply set_group_steady|done|done|done|]. intros b o' d Hd%A3. left. eauto.
      * destruct (set_group_kallocator h a m o (set_group_counts (u64 (free_chunk_num g - 1)) (u64 (empty_chunk_num g + 1)) (full_chunk_num g) g) Hm)
          as (m' & Hm' & Hg'). exists m'. split; [done|]. rewrite Hg', decide_True by done. done.
    + split; [apply moved_refl|]. right. split; [done|]. by exists m.
Qed.

(** ** Handing an object out *)

Lemma chunk_get_obj_effect x h a o c :
  class_ok o -> chunk_ok h a o c -> nr_used_objs (chunks h c) < obj_num o ->
  exists obj l, empty_obj_list (chunks h c) = obj :: l /\ obj ∈ objs c o /\ obj ∉ full_obj_list (chunks h c) /\
  let ch' := mk_chunk CHUNK_MAGIC (c_allocator_id (chunks h c)) o (obj_num o) (nr_used_objs (chunks h c) + 1)
               (obj :: full_obj_list (chunks h c)) l in
  let h' := clear_range (obj + sizeof_object_header) (slot o) (set_chunk c ch' h) in
  chunk_get_obj c h = (obj, h') /\ obj <> NULL /\ chunk_ok h' a o c /\ is_free h' x c = false.
Proof.
  intros Ho K Hu. pose proof K as [K1 K2 K3 K4 K5 K6 K7 K8]. pose proof (objs_length c o Ho) as Hlen.
  rewrite <- (Permutation_length K7), length_app in Hlen. pose proof (obj_num_facts o Ho) as [Hn _].
  destruct (empty_obj_list (chunks h c)) as [|obj l] eqn:E; [cbn in Hlen; lia|]. exists obj, l.
  pose proof (objs_NoDup c o Ho) as Hnd. rewrite <- K7 in Hnd. pose proof Hnd as Hnd'. apply NoDup_app in Hnd' as (Hn1 & Hn2 & Hn3).
  assert (Hobj : obj ∈ objs c o) by (rewrite <- K7; apply elem_of_app; right; left).
  pose proof (objs_bounds obj c o Ho Hobj) as [Hb _].
  assert (Hnn : obj <> NULL) by (destruct K1; unfold KERNEL_VIRT_OFFSET, NULL in *; lia).
  split; [done|]. split; [done|]. split. { intros Hf. apply (Hn2 obj Hf). left. }
  cbv zeta. set (ch' := mk_chunk _ _ _ _ _ _ _). set (h' := clear_range _ _ _).
  assert (Ech : chunks h' c = ch') by (unfold h'; cbn; by rewrite fn_insert_same).
  split; [|split; [done|split]].
  - unfold chunk_get_obj. destruct (Z.eqb_spec c NULL) as [->|]; [by apply chunk_nonnull in K1|]. rewrite K3. cbn [negb Z.eqb].
    rewrite Z.eqb_refl. cbn [negb]. rewrite K5. destruct (Z.leb_spec (obj_num o) (nr_used_objs (chunks h c))); [lia|].
    rewrite E. cbn [first]. rewrite (unlink_head obj l) by done. rewrite i32_small by lia. cbn [c_chunk_order]. by rewrite K4.
  - split; rewrite ?Ech; try done; cbn.
    + rewrite K6. lia.
    + rewrite <- K7. by rewrite Permutation_middle.
  - unfold is_free. rewrite Ech. cbn [nr_used_objs ch']. destruct (Z.eqb_spec (nr_used_objs (chunks h c) + 1) 0); [lia|done].
Qed.

Definition finish_alloc (a o c : Z) (h : heap) : heap :=
  let g := group_at h a o in
  if nr_max_objs (chunks h c) =? nr_used_objs (chunks h c) then
    set_group a o
      (set_group_counts (free_chunk_num g) (u64 (empty_chunk_num g - 1)) (u64 (full_chunk_num g + 1))
         (set_group_lists (c :: unlink c (full_list g)) (unlink c (empty_list g)) g)) h
  else h.

(** the views outside [p, p+n) *)
Definition views_outside (p n : Z) (h h' : heap) : Prop :=
  forall x, ~ (p <= x < p + n) -> rb_view h' x = rb_view h x /\ pcn_view h' x = pcn_view h x /\ info_view h' x = info_view h x.
Definition views_zero (p n : Z) (h : heap) : Prop :=
  forall x, p <= x < p + n -> rb_view h x = mk_rb 0 0 NULL NULL /\ pcn_view h x = mk_pcn 0 0 /\ info_view h x = mk_info 0 0.
Lemma clear_range_outside p n h : views_outside p n h (clear_range p n h).
Proof.
  intros x Hx. cbn. assert (E : (p <=? x) && (x <? p + n) = false) by (destruct (Z.leb_spec p x), (Z.ltb_spec x (p + n)); cbn; (done || lia)).
  by rewrite E.
Qed.
Lemma clear_range_zero p n h : views_zero p n (clear_range p n h).
Proof.
  intros x Hx. cbn. assert (E : (p <=? x) && (x <? p + n) = true) by (destruct (Z.leb_spec p x), (Z.ltb_spec x (p + n)); cbn; (done || lia)).
  by rewrite E.
Qed.

(** the group after one more object of the held chunk [c] is in use *)
Definition handed (h : heap) (o c : Z) (g : mem_group) : mem_group :=
  if obj_num o =? nr_used_objs (chunks h c) + 1 then
    set_group_counts (free_chunk_num g) (u64 (empty_chunk_num g - 1)) (u64 (full_chunk_num g + 1))
      (set_group_lists (c :: unlink c (full_list g)) (unlink c (empty_list g)) g)
  else g.

Lemma handed_members h x a o c g : group_ok x h a o g -> c ∈ empty_list g -> forall d, d ∈ members (handed h o c g) <-> d ∈ members g.
Proof.
  intros G Hc d. unfold handed. destruct (obj_num o =? _); [|done]. pose proof (go_nodup _ _ _ _ _ G) as Hnd.
  apply NoDup_app in Hnd as (_ & Hn & _). unfold members. cbn [full_list empty_list set_group_counts set_group_lists].
  rewrite (unlink_none c (full_list g)) by (intros Hf; by apply (Hn c)).
  rewrite !elem_of_app, elem_of_cons, elem_unlink. destruct (decide (d = c)) as [->|]; tauto.
Qed.

Lemma handed_ok h h2 a o c g :
  class_ok o -> group_ok c h a o g -> c ∈ empty_list g -> (forall d, d <> c -> chunks h2 d = chunks h d) ->
  hdr_allocator_id h2 = hdr_allocator_id h -> vspace h2 = vspace h ->
  chunk_ok h2 a o c -> nr_used_objs (chunks h2 c) = nr_used_objs (chunks h c) + 1 -> group_ok NULL h2 a o (handed h o c g).
Proof.
  intros Ho G Hc Hch Hh Hv K Hu. pose proof (go_nodup _ _ _ _ _ G) as Hnd. apply NoDup_app in Hnd as (Hn1 & Hn2 & Hn3).
  assert (Hcf : c ∉ full_list g) by (intros Hcf; by apply (Hn2 c)).
  assert (Hcg : forall d, d ∈ full_list g -> d <> c) by (by intros d Hd ->).
  destruct (go_empty _ _ _ _ _ G c Hc) as [K0 Hu0].
  assert (Hnn : forall d, d ∈ empty_list g -> d <> NULL) by (intros d Hd; eapply member_nonnull; [exact G|]; apply elem_of_app; by right).
  assert (Hck' : forall d, d <> c -> chunk_ok h a o d -> chunk_ok h2 a o d) by (intros d Hd; apply chunk_ok_eq; [by apply Hch|done|done]).
  pose proof (countp_unlink (is_free h c) c _ Hn3 Hc) as Hcp. rewrite is_free_held in Hcp. cbn [Z.b2z] in Hcp.
  assert (Hcp2 : countp (is_free h2 NULL) (unlink c (empty_list g)) = countp (is_free h c) (unlink c (empty_list g))).
  { apply is_free_frame; intros d [Hd Hdc]%elem_unlink; [by apply Hch|]. split; intros ->; [done|]. exfalso. by apply (Hnn NULL). }
  pose proof (length_unlink c _ Hn3 Hc) as Hlen. pose proof (group_bounds _ _ _ _ _ G) as (B1 & B2 & B3).
  pose proof (countp_range (is_free h c) (unlink c (empty_list g))) as Hcr. pose proof (obj_num_facts o Ho) as [Hn _].
  assert (Hused : 0 <= nr_used_objs (chunks h c)) by (rewrite (co_used _ _ _ _ K0); lia).
  destruct G. unfold handed. destruct (Z.eqb_spec (obj_num o) (nr_used_objs (chunks h c) + 1)) as [Hf|Hf].
  - rewrite (unlink_none c (full_list g)) by done.
    split; cbn [g_allocator_id g_chunk_order full_list empty_list set_group_counts set_group_lists free_chunk_num empty_chunk_num full_chunk_num]; try done.
    + cbn [app]. apply list.NoDup_cons. rewrite elem_of_app, elem_unlink. split; [tauto|].
      apply NoDup_app. split; [done|]. split; [|by apply unlink_NoDup]. intros d Hd [Hd' _]%elem_unlink. by apply (Hn2 d).
    + intros d [->|Hd]%elem_of_cons; [split; [done|lia]|]. destruct (go_full0 d Hd). rewrite Hch by auto. auto.
    + intros d [Hd Hdc]%elem_unlink. destruct (go_empty0 d Hd). rewrite Hch by done. auto.
    + lia.
    + rewrite u64_small by lia. lia.
    + cbn [length]. rewrite u64_small by lia. lia.
  - assert (Hcp3 : countp (is_free h2 NULL) (empty_list g) = countp (is_free h c) (empty_list g)).
    { rewrite (countp_unlink (is_free h2 NULL) c) by done. rewrite is_free_other by auto. rewrite Hu.
      destruct (Z.eqb_spec (nr_used_objs (chunks h c) + 1) 0); [lia|]. cbn [Z.b2z]. lia. }
    split; rewrite ?Hcp3; try done.
    + intros d Hd. destruct (go_full0 d Hd). rewrite Hch by auto. auto.
    + intros d Hd. destruct (decide (d = c)) as [->|Hdc]; [split; [done|lia]|]. destruct (go_empty0 d Hd). rewrite Hch by done. auto.
Qed.

Lemma hand_out_effect h a m o c :
  small_ok c h -> kallocator h a = Some m -> class_ok o -> c ∈ empty_list (groups m o) ->
  let '(obj, h1) := chunk_get_obj c h in
  let h2 := finish_alloc a o c h1 in
  let p := obj + sizeof_object_header in
  obj <> NULL /\ obj ∈ objs c o /\ small_ok NULL h2 /\ steady h h2 /\ vspace h2 = vspace h /\
  views_outside p (slot o) h h2 /\ views_zero p (slot o) h2 /\ (forall b o', ~ live h b o' p) /\
  (forall b o' d, in_group h2 b o' d <-> in_group h b o' d) /\
  (forall b o' q, live h2 b o' q <-> live h b o' q \/ (b = a /\ o' = o /\ q = p)).
Proof.
  intros S Hm Ho Hc. set (g := groups m o). pose proof (so_group _ _ S a m o Hm Ho) as G. fold g in G.
  destruct (go_empty _ _ _ _ _ G c Hc) as [K Hu]. pose proof (co_addr _ _ _ _ K) as Hck.
  destruct (chunk_get_obj_effect NULL h a o c Ho K Hu) as (obj & l & El & Hobj & Hnf & E & Hnn & K' & _). cbv zeta in E, K'.
  set (ch' := mk_chunk _ _ _ _ _ _ _) in *. set (h1 := clear_range _ _ _) in *. rewrite E. clear E. cbv zeta.
  assert (Ech : chunks h1 c = ch') by (unfold h1; cbn; by rewrite fn_insert_same).
  assert (Echd : forall d, d <> c -> chunks h1 d = chunks h d) by (intros d Hd; unfold h1; cbn; by rewrite fn_insert_other by done).
  set (g' := handed h o c g). set (h2 := finish_alloc a o c h1).
  assert (Eh2 : h2 = (if obj_num o =? nr_used_objs (chunks h c) + 1 then set_group a o g' h1 else h1)).
  { unfold h2, finish_alloc. rewrite (group_at_eq h1 a m o) by done. fold g. rewrite Ech. cbn [nr_max_objs nr_used_objs ch']. unfold g', handed.
    by destruct (obj_num o =? _). }
  assert (Eq : chunks h2 = chunks h1 /\ hdr_allocator_id h2 = hdr_allocator_id h1 /\ vspace h2 = vspace h1 /\ views h2 = views h1 /\ steady h1 h2).
  { rewrite Eh2. destruct (obj_num o =? _); [|by split_and!; try apply steady_refl]. split_and!; try done. by eapply set_group_steady. }
  destruct Eq as (E1 & E2 & E3 & E4 & E5).
  assert (R : regroup h h2 a o g' c).
  { rewrite Eh2. unfold g', handed. destruct (obj_num o =? _); [by apply (set_group_regroup h h1 a o _ c m)|].
    split; try done. exists m, m. split_and!; try done. intros o'. rewrite fn_insert_case. by destruct (decide (o = o')) as [<-|]. }
  pose proof (handed_members h c a o c g G Hc) as Em. fold g' in Em.
  assert (Hcg : in_group h a o c) by (apply (members_in_group h a m); [done..|]; apply elem_of_app; by right).
  assert (Hown : forall b o', in_group h b o' c -> b = a /\ o' = o) by (intros b o' Hb; by apply (so_sep _ _ S b o' a o c)).
  assert (Hin : forall b o' d, in_group h2 b o' d <-> in_group h b o' d).
  { intros b o' d. rewrite (regroup_in_group h h2 a o g' c m) by done. destruct (decide _) as [[-> ->]|]; [|unfold in_group; tauto].
    rewrite Em. split; [intros [? ?]; by eapply members_in_group|]. intros (? & m' & ? & ?). replace m' with m in * by congruence. done. }
  assert (K2 : chunk_ok h2 a o c) by (apply (chunk_ok_eq h1); [by rewrite E1|done|done|done]).
  split; [done|]. split; [done|]. split.
  { apply (small_update c NULL h h2 a o g' c m); try done.
    - intros d Hd Hne. split; intros ->; [done|by apply chunk_nonnull in Hd].
    - apply (handed_ok h h2); try done; [intros d Hd; rewrite E1; by apply Echd|by rewrite E1, Ech].
    - intros d Hd%Em. by left.
    - intros b o' d Hd _. rewrite E3. change (frames (kppn d) 4 ⊆ owned (vspace h)). by eapply co_frames, in_group_chunk. }
  split; [eapply steady_trans; [|exact E5]; by split|]. split; [done|].
  injection E4 as V1 V2 V3.
  split. { intros x Hx. rewrite V1, V2, V3. by apply clear_range_outside. }
  split. { intros x Hx. rewrite V1, V2, V3. by apply clear_range_zero. }
  split.
  { intros b o' (d & Hd & Hp). replace (obj + sizeof_object_header - sizeof_object_header) with obj in Hp by lia.
    assert (d = c) as ->; [|done]. pose proof (in_group_chunk _ _ _ _ _ S Hd) as Kd.
    rewrite <- (chunk_of_payload c o obj), <- (chunk_of_payload d o' obj); try done; [apply Hd|apply Kd|].
    rewrite <- (co_objs _ _ _ _ Kd). apply elem_of_app. by left. }
  split; [done|]. intros b o' q. rewrite (live_split h2 _ _ _ c), (live_split h _ _ _ c).
  rewrite (live_others h h2 a o g' c m) by (done || intros d _; apply Em). rewrite Hin, E1, Ech. cbn [full_obj_list ch']. rewrite elem_of_cons.
  split.
  - intros [?|[Hi [Hq|?]]]; [tauto| |tauto]. right. apply Hown in Hi as [-> ->]. split_and!; [done..|lia].
  - intros [[?|?]|(-> & -> & ->)]; [tauto..|]. right. split; [done|]. left. lia.
Qed.

(** ** [_k_alloc] *)

Lemma slot_search_spec l : forall i B,
  0 <= i -> i + Z.of_nat (length l) = MAX_GROUP_SLOTS -> l <> [] ->
  (forall k s, l !! k = Some s -> slot (i + Z.of_nat k) = s) ->
  let o := slot_search l i B in
  i <= o < MAX_GROUP_SLOTS /\ (B <= slot (MAX_GROUP_SLOTS - 1) -> B <= slot o) /\ (forall k, i <= k < o -> slot k < B).
Proof.
  induction l as [|s l IH]; intros i B Hi Hl Hne Hs; [done|]. cbn [slot_search length] in *.
  assert (E0 : slot i = s) by (rewrite <- (Hs 0%nat s) by done; f_equal; lia).
  destruct (Z.eqb_spec i (MAX_GROUP_SLOTS - 1)) as [->|Hi']; cbn [orb].
  { split; [lia|]. split; [done|lia]. }
  destruct (Z.leb_spec B s) as [HB|HB]. { split; [lia|]. split; [lia|lia]. }
  destruct (IH (i + 1) B) as (I1 & I2 & I3); [lia|lia|intros ->; cbn in *; lia| |].
  - intros k s' Hk. rewrite <- (Hs (S k) s') by done. f_equal. lia.
  - split; [lia|]. split; [done|]. intros k Hk. destruct (decide (k = i)) as [->|]; [lia|]. apply I3. lia.
Qed.
Lemma bytes_to_slot_spec B :
  class_ok (bytes_to_slot B) /\ (B <= slot (MAX_GROUP_SLOTS - 1) -> B <= slot (bytes_to_slot B)) /\
  (forall k, 0 <= k < bytes_to_slot B -> slot k < B).
Proof.
  apply (slot_search_spec slot_size 0 B); [done..|]. intros k s Hk. unfold slot.
  replace (Z.to_nat (0 + Z.of_nat k)) with k by lia. by apply list_lookup_total_correct.
Qed.

(** what a small allocation does *)
Record k_alloc_ok (root a o : Z) (h : heap) (p : Z) (h' : heap) : Prop := {
  ka_small : small_ok NULL h';
  ka_steady : steady h h';
  ka_owned : owned (vspace h) ⊆ owned (vspace h');
  ka_fresh : forall b o d, in_group h' b o d -> (exists b' o', in_group h b' o' d) \/ frames (kppn d) 4 ## owned (vspace h);
  ka_result :
    (p = NULL /\ fst (get_pages root PAGE_PER_CHUNK h) = NULL /\ views h' = views h /\ forall b o' q, live h' b o' q <-> live h b o' q) \/
    (p <> NULL /\ live h' a o p /\ (forall b o', ~ live h b o' p) /\ views_outside p (slot o) h h' /\ views_zero p (slot o) h' /\
     forall b o' q, live h' b o' q <-> live h b o' q \/ (b = a /\ o' = o /\ q = p))
}.

Lemma k_alloc_effect root a m Bytes h :
  small_ok NULL h -> kallocator h a = Some m ->
  let '(p, h') := _k_alloc root a Bytes h in k_alloc_ok root a (bytes_to_slot Bytes) h p h'.
Proof.
  intros S Hm. unfold _k_alloc. destruct (bytes_to_slot_spec Bytes) as [Ho _]. set (o := bytes_to_slot Bytes) in *. clearbody o.
  pose proof (take_chunk_effect root h a m o S Hm Ho) as T. destruct (take_chunk root a o h) as [c h1].
  destruct T as (M & [(-> & S1 & Hnm)|(S1 & m1 & Hm1 & Hc)]).
  - rewrite Z.eqb_refl. destruct M. split; try done. left. done.
  - assert (Hcg : in_group h1 a o c) by (apply (members_in_group h1 a m1); [done..|]; apply elem_of_app; by right).
    pose proof (in_group_chunk _ _ _ _ _ S1 Hcg) as K. pose proof (co_addr _ _ _ _ K) as Hck.
    destruct (Z.eqb_spec c NULL) as [->|_]; [by apply chunk_nonnull in Hck|].
    pose proof (hand_out_effect h1 a m1 o c S1 Hm1 Ho Hc) as G. destruct (chunk_get_obj c h1) as [obj h2].
    cbv zeta in G. destruct G as (G1 & G2 & G3 & G4 & G5 & G6 & G7 & G8 & G9 & G10).
    destruct (Z.eqb_spec obj NULL) as [->|_]; [done|]. fold (finish_alloc a o c h2). destruct M as [M1 M2 M3 M4 M5]. split.
    + done.
    + by eapply steady_trans.
    + by rewrite G5.
    + intros b o' d Hd%G9. by eapply M5.
    + right. split.
      { destruct (objs_bounds obj c o Ho G2) as [Hb _]. destruct Hck. unfold KERNEL_VIRT_OFFSET, sizeof_object_header, NULL in *. lia. }
      split; [apply G10; by right|]. split; [intros b o'; rewrite <- M3; apply G8|].
      injection M2 as V1 V2 V3. split; [|split; [done|]].
      * intros x Hx. destruct (G6 x Hx) as (-> & -> & ->). by rewrite V1, V2, V3.
      * intros b o' q. by rewrite G10, M3.
Qed.

(** ** Taking an object back *)

(** the group after an object of chunk [c] came back; [u]: objects in use before *)
Definition returned_group (o c u : Z) (g : mem_group) : mem_group :=
  if obj_num o =? u then
    set_group_counts (free_chunk_num g) (u64 (empty_chunk_num g + 1)) (u64 (full_chunk_num g - 1))
      (set_group_lists (unlink c (full_list g)) (unlink c (empty_list g) ++ [c]) g)
  else if u - 1 =? 0 then
    set_group_counts (u64 (free_chunk_num g + 1)) (u64 (empty_chunk_num g - 1)) (full_chunk_num g)
      (set_group_lists (unlink c (full_list g)) (c :: unlink c (empty_list g)) g)
  else g.

Lemma returned_members h o c g :
  c ∈ members g -> forall d, d ∈ members (returned_group o c (nr_used_objs (chunks h c)) g) <-> d ∈ members g.
Proof.
  unfold members. rewrite elem_of_app. intros Hc d.
  unfold returned_group. destruct (obj_num o =? _); [|destruct (_ =? 0); [|done]]; cbn [full_list empty_list set_group_counts set_group_lists].
  - rewrite !elem_of_app, list_elem_of_singleton, !elem_unlink. destruct (decide (d = c)) as [->|]; tauto.
  - rewrite !elem_of_app, elem_of_cons, !elem_unlink. destruct (decide (d = c)) as [->|]; tauto.
Qed.

Lemma returned_ok h h2 a o c g :
  class_ok o -> group_ok NULL h a o g -> c ∈ members g -> (forall d, d <> c -> chunks h2 d = chunks h d) ->
  hdr_allocator_id h2 = hdr_allocator_id h -> vspace h2 = vspace h ->
  chunk_ok h2 a o c -> nr_used_objs (chunks h2 c) = nr_used_objs (chunks h c) - 1 ->
  group_ok NULL h2 a o (returned_group o c (nr_used_objs (chunks h c)) g).
Proof.
  intros Ho G Hc Hch Hh Hv K Hu. pose proof (go_nodup _ _ _ _ _ G) as Hnd. apply NoDup_app in Hnd as (Hn1 & Hn2 & Hn3).
  pose proof (member_chunk _ _ _ _ _ _ G Hc) as K0. pose proof (chunk_nonnull c (co_addr _ _ _ _ K0)) as Hcn.
  assert (Hck' : forall d, d <> c -> chunk_ok h a o d -> chunk_ok h2 a o d) by (intros d Hd; apply chunk_ok_eq; [by apply Hch|done|done]).
  assert (Hfr : forall l, countp (is_free h2 NULL) (unlink c l) = countp (is_free h NULL) (unlink c l)).
  { intros l. apply is_free_frame; [|done]. intros d [_ Hd]%elem_unlink. by apply Hch. }
  pose proof (group_bounds _ _ _ _ _ G) as (B1 & B2 & B3). pose proof (obj_num_facts o Ho) as [Hn _].
  assert (Hu2 : 0 <= nr_used_objs (chunks h2 c)) by (rewrite (co_used _ _ _ _ K); lia).
  pose proof (is_free_other h NULL c Hcn) as Fc. pose proof (is_free_other h2 NULL c Hcn) as Fc2. rewrite Hu in Fc2.
  unfold members in Hc. destruct G. unfold returned_group.
  destruct (Z.eqb_spec (obj_num o) (nr_used_objs (chunks h c))) as [Hf|Hf].
  - assert (Hcf : c ∈ full_list g). { apply elem_of_app in Hc as [|Hc]; [done|]. destruct (go_empty0 c Hc). lia. }
    assert (Hce : c ∉ empty_list g) by (by apply Hn2). rewrite (unlink_none c (empty_list g)) by done.
    pose proof (length_unlink c _ Hn1 Hcf) as Hlen. pose proof (Hfr (empty_list g)) as Hfe. rewrite (unlink_none c (empty_list g)) in Hfe by done.
    destruct (Z.eqb_spec (nr_used_objs (chunks h c) - 1) 0); [lia|].
    split; cbn [g_allocator_id g_chunk_order full_list empty_list set_group_counts set_group_lists free_chunk_num empty_chunk_num full_chunk_num]; try done.
    + apply NoDup_app. split; [by apply unlink_NoDup|]. split.
      * intros d [Hd Hdc]%elem_unlink. rewrite elem_of_app, list_elem_of_singleton. intros [?|?]; [by apply (Hn2 d)|done].
      * apply NoDup_app. split; [done|]. split; [|apply NoDup_singleton]. by intros d Hd ->%list_elem_of_singleton.
    + intros d [Hd Hdc]%elem_unlink. destruct (go_full0 d Hd). rewrite Hch by done. auto.
    + intros d [Hd|Hd]%elem_of_app.
      * assert (d <> c) by (by intros ->). destruct (go_empty0 d Hd). rewrite Hch by done. auto.
      * apply list_elem_of_singleton in Hd as ->. split; [done|lia].
    + rewrite countp_app. cbn [countp]. rewrite Fc2. cbn [Z.b2z]. lia.
    + rewrite countp_app, length_app. cbn [countp length]. rewrite Fc2, Hfe. cbn [Z.b2z]. rewrite u64_small by lia. lia.
    + rewrite u64_small by lia. lia.
  - assert (Hcf : c ∉ full_list g) by (intros Hcf; destruct (go_full0 c Hcf); lia). apply elem_of_app in Hc as [|Hc]; [done|].
    rewrite (unlink_none c (full_list g)) by done.
    pose proof (length_unlink c _ Hn3 Hc) as Hlen. pose proof (countp_unlink (is_free h NULL) c _ Hn3 Hc) as Hcp. pose proof (Hfr (empty_list g)) as Hfe.
    pose proof (countp_range (is_free h NULL) (unlink c (empty_list g))) as Hcr.
    rewrite Fc in Hcp. destruct (Z.eqb_spec (nr_used_objs (chunks h c)) 0); [lia|]. cbn [Z.b2z] in Hcp.
    assert (Hcd : forall d, d ∈ full_list g -> d <> c) by (by intros d Hd ->).
    destruct (Z.eqb_spec (nr_used_objs (chunks h c) - 1) 0) as [Hz|Hz].
    + split; cbn [g_allocator_id g_chunk_order full_list empty_list set_group_counts set_group_lists free_chunk_num empty_chunk_num full_chunk_num]; try done.
      * apply NoDup_app. split; [done|]. split; [|apply list.NoDup_cons; rewrite elem_unlink; split; [tauto|by apply unlink_NoDup]].
        intros d Hd. rewrite elem_of_cons, elem_unlink. intros [->|[? _]]; [done|by apply (Hn2 d)].
      * intros d Hd. destruct (go_full0 d Hd). rewrite Hch by auto. auto.
      * intros d [->|[Hd Hdc]%elem_unlink]%elem_of_cons; [split; [done|lia]|]. destruct (go_empty0 d Hd). rewrite Hch by done. auto.
      * cbn [countp]. rewrite Fc2. cbn [Z.b2z]. rewrite u64_small by lia. lia.
      * cbn [countp length]. rewrite Fc2. cbn [Z.b2z]. rewrite u64_small by lia. lia.
    + assert (Hcp3 : countp (is_free h2 NULL) (empty_list g) = countp (is_free h NULL) (empty_list g)).
      { rewrite (countp_unlink (is_free h2 NULL) c) by done. rewrite Fc2. cbn [Z.b2z]. lia. }
      split; rewrite ?Hcp3; try done.
      * intros d Hd. destruct (go_full0 d Hd). rewrite Hch by auto. auto.
      * intros d Hd. destruct (decide (d = c)) as [->|Hdc]; [destruct (go_empty0 c Hc); split; [done|lia]|]. destruct (go_empty0 d Hd). rewrite Hch by done. auto.
Qed.

Lemma group_free_effect h a m o c obj :
  small_ok NULL h -> kallocator h a = Some m -> in_group h a o c -> obj ∈ full_obj_list (chunks h c) ->
  let '(res, h') := group_free_obj obj c a o h in
  0 <= res /\ small_ok NULL h' /\ steady h h' /\ vspace h' = vspace h /\ views h' = views h /\
  (forall b o' d, in_group h' b o' d <-> in_group h b o' d) /\
  (forall b o' q, live h' b o' q <-> live h b o' q /\ q <> obj + sizeof_object_header).
Proof.
  intros S Hm Hcg Hobj. pose proof (in_group_chunk _ _ _ _ _ S Hcg) as K. destruct Hcg as (Ho & m0 & Hm0 & Hc). replace m0 with m in * by congruence.
  pose proof (so_group _ _ S a m o Hm Ho) as G. set (g := groups m o) in *. pose proof K as [K1 K2 K3 K4 K5 K6 K7 K8].
  assert (Hin : obj ∈ objs c o) by (rewrite <- K7; apply elem_of_app; by left).
  pose proof (objs_bounds obj c o Ho Hin) as [Hb _]. pose proof (objs_NoDup c o Ho) as Hnd. rewrite <- K7 in Hnd. apply NoDup_app in Hnd as (Hn1 & Hn2 & Hn3).
  pose proof (objs_length c o Ho) as Hlen. rewrite <- (Permutation_length K7), length_app in Hlen. pose proof (obj_num_facts o Ho) as [Hn _].
  pose proof (length_unlink obj _ Hn1 Hobj) as Hlu. destruct (so_alloc _ _ S a m Hm) as [_ Ha].
  unfold group_free_obj, chunk_free_obj. destruct (Z.eqb_spec obj NULL) as [->|_]; [destruct K1; unfold KERNEL_VIRT_OFFSET, NULL in *; lia|].
  destruct (Z.eqb_spec c NULL) as [->|_]; [by apply chunk_nonnull in K1|]. cbn [orb]. rewrite K3, Z.eqb_refl. cbn [negb].
  set (ch' := mk_chunk _ _ _ _ _ _ _). set (h1 := set_queues _ _).
  assert (Ech : chunks h1 c = ch') by (unfold h1; cbn; by rewrite fn_insert_same).
  assert (Echd : forall d, d <> c -> chunks h1 d = chunks h d) by (intros d Hd; unfold h1; cbn; by rewrite fn_insert_other by done).
  replace (i32 (hdr_allocator_id (set_chunk c ch' h) obj)) with a by (cbn; rewrite K8, i32_small by (done || lia); done).
  destruct (Z.ltb_spec a 0); [lia|].
  assert (Hu1 : nr_used_objs (chunks h1 c) = nr_used_objs (chunks h c) - 1) by (rewrite Ech; cbn [ch' nr_used_objs]; rewrite i32_small by lia; done).
  assert (K' : chunk_ok h1 a o c).
  { split; rewrite ?Ech; try done; cbn.
    - rewrite i32_small by lia. lia.
    - rewrite (unlink_none obj (empty_obj_list _)) by (by apply Hn2). rewrite <- Permutation_middle, app_comm_cons. rewrite <- (unlink_perm obj) by done. done. }
  set (g' := returned_group o c (nr_used_objs (chunks h c)) g).
  match goal with |- let '(_, _) := ?e in _ => assert (Eh2 : exists h2, e = (a, h2) /\
    h2 = (if (obj_num o =? nr_used_objs (chunks h c)) || (nr_used_objs (chunks h c) - 1 =? 0) then set_group a o g' h1 else h1)) end.
  { rewrite (group_at_eq h1 a m o) by done. fold g. rewrite K5, Hu1. unfold g', returned_group.
    destruct (obj_num o =? _); cbn [orb]; [by eexists|]. destruct (_ - 1 =? 0); by eexists. }
  destruct Eh2 as (h2 & -> & Eh2). split; [lia|].
  assert (Eq : chunks h2 = chunks h1 /\ hdr_allocator_id h2 = hdr_allocator_id h1 /\ vspace h2 = vspace h1 /\ views h2 = views h1 /\ steady h1 h2).
  { rewrite Eh2. destruct (_ || _); [|by split_and!; try apply steady_refl]. split_and!; try done. by eapply set_group_steady. }
  destruct Eq as (E1 & E2 & E3 & E4 & E5).
  assert (R : regroup h h2 a o g' c).
  { rewrite Eh2. destruct (_ || _) eqn:Eb; [by apply (set_group_regroup h h1 a o _ c m)|]. apply orb_false_elim in Eb as [Eb1 Eb2].
    unfold g', returned_group. rewrite Eb1, Eb2. split; try done. exists m, m. split_and!; try done. intros o'. rewrite fn_insert_case. by destruct (decide (o = o')) as [<-|]. }
  pose proof (returned_members h o c g Hc) as Em. fold g' in Em.
  assert (Hcg : in_group h a o c) by (by eapply members_in_group).
  assert (Hown : forall b o', in_group h b o' c -> b = a /\ o' = o) by (intros b o' Hb'; by apply (so_sep _ _ S b o' a o c)).
  assert (Hin2 : forall b o' d, in_group h2 b o' d <-> in_group h b o' d).
  { intros b o' d. rewrite (regroup_in_group h h2 a o g' c m) by done. destruct (decide _) as [[-> ->]|]; [|unfold in_group; tauto].
    rewrite Em. split; [intros [? ?]; by eapply members_in_group|]. intros (? & m' & ? & ?). replace m' with m in * by congruence. done. }
  split.
  { apply (small_update NULL NULL h h2 a o g' c m); try done.
    - apply (returned_ok h h2); try done; [intros d Hd; rewrite E1; by apply Echd|by apply (chunk_ok_eq h1); rewrite ?E1|by rewrite E1].
    - intros d Hd%Em. by left.
    - intros b o' d Hd _. rewrite E3. change (frames (kppn d) 4 ⊆ owned (vspace h)). by eapply co_frames, in_group_chunk. }
  split; [eapply steady_trans; [|exact E5]; by split|]. split; [done|]. split; [done|]. split; [done|].
  intros b o' q. rewrite (live_split h2 _ _ _ c), (live_split h _ _ _ c).
  rewrite (live_others h h2 a o g' c m) by (done || intros d _; apply Em). rewrite Hin2, E1, Ech. cbn [full_obj_list ch']. rewrite elem_unlink.
  split.
  - intros [(d & Hd & Hdg & Hq)|[Hi [Hq1 Hq2]]]; [|split; [tauto|lia]]. split; [eauto|]. intros ->.
    replace (obj + sizeof_object_header - sizeof_object_header) with obj in Hq by lia. apply Hd.
    pose proof (in_group_chunk _ _ _ _ _ S Hdg) as Kd.
    rewrite <- (chunk_of_payload c o obj), <- (chunk_of_payload d o' obj); try done; [apply Hdg|apply Kd|].
    rewrite <- (co_objs _ _ _ _ Kd). apply elem_of_app. by left.
  - intros [[?|[? ?]] Hq]; [tauto|]. right. split_and!; [done..|lia].
Qed.

(** ** [_k_free] *)

(** what gives pages back may do: chunks without live objects go *)
Record shed (h h' : heap) : Prop := {
  sh_steady : steady h h';
  sh_views : views h' = views h;
  sh_groups : forall b o d, in_group h' b o d -> in_group h b o d;
  sh_owned : owned (vspace h') ⊆ owned (vspace h);
  sh_kept : forall x, x ∈ owned (vspace h) -> (forall b o d, in_group h b o d -> x ∉ frames (kppn d) 4) -> x ∈ owned (vspace h')
}.
Lemma shed_refl h : shed h h.
Proof. by split. Qed.
Lemma shed_trans h1 h2 h3 : shed h1 h2 -> shed h2 h3 -> shed h1 h3.
Proof.
  intros [A1 A2 A3 A4 A5] [B1 B2 B3 B4 B5]. split.
  - by eapply steady_trans.
  - congruence.
  - intros b o d Hd. by apply A3, B3.
  - by etransitivity.
  - intros x Hx Hn. apply B5; [by apply A5|]. intros b o d Hd. apply (Hn b o). by apply A3.
Qed.

Lemma free_chunk_pages h c :
  chunk_addr c -> frames (kppn c) 4 ⊆ owned (vspace h) ->
  exists v, snd (free_pages c PAGE_PER_CHUNK h) = set_vspace v h /\
    (owned v = owned (vspace h) \/ owned v = owned (vspace h) ∖ frames (kppn c) 4).
Proof.
  intros Hc Hf. unfold free_pages. destruct (chunk_ppn c Hc) as (E & _). rewrite <- E in Hf.
  pose proof (free_pages_effect (vspace h) c PAGE_PER_CHUNK ltac:(done) Hf) as F. rewrite E in F. destruct (core_free_pages _ _ _) as [e v].
  exists v. split; [done|]. destruct F as [[_ F]|[_ F]]; auto.
Qed.

Lemma trim_effect a o l : forall h m,
  small_ok NULL h -> kallocator h a = Some m -> class_ok o -> NoDup l -> (forall c, c ∈ l -> c ∈ empty_list (groups m o)) ->
  let h' := trim a o l h in
  small_ok NULL h' /\ shed h h' /\ (forall b o' p, live h' b o' p <-> live h b o' p).
Proof.
  induction l as [|c l IH]; intros h m S Hm Ho Hnd Hl; cbn [trim]; cbv zeta.
  { split; [done|]. split; [apply shed_refl|done]. }
  rewrite (group_at_eq h a m o Hm). set (g := groups m o) in *. destruct (free_chunk_num g <=? 1).
  { split; [done|]. split; [apply shed_refl|done]. }
  apply list.NoDup_cons in Hnd as [Hcl Hnd]. destruct (Z.eqb_spec (nr_used_objs (chunks h c)) 0) as [Hu|Hu].
  2:{ apply (IH h m); [done..|]. intros d Hd. apply Hl. by right. }
  assert (Hc : c ∈ empty_list (groups m o)) by (apply Hl; left).
  destruct (drop_free h a m o c S Hm Ho Hc Hu) as (D1 & D2 & D3). fold g in D1, D2, D3.
  destruct (set_group_kallocator h a m o (set_group_counts (u64 (free_chunk_num g - 1)) (empty_chunk_num g) (full_chunk_num g)
    (set_group_lists (unlink c (full_list g)) (unlink c (empty_list g)) g)) Hm) as (m1 & Hm1 & Hg1).
  set (h1 := set_group _ _ _ _) in *.
  assert (Hcg : in_group h a o c) by (eapply members_in_group; [done..|]; apply elem_of_app; by right).
  pose proof (in_group_chunk _ _ _ _ _ S Hcg) as K.
  destruct (free_chunk_pages h1 c (co_addr _ _ _ _ K) (co_frames _ _ _ _ K)) as (v & Ev & Hv). rewrite Ev. set (h2 := set_vspace v h1) in *.
  assert (Hsub : forall x, x ∈ owned (vspace h) -> x ∉ frames (kppn c) 4 -> x ∈ owned v).
  { intros x Hx Hn. destruct Hv as [->| ->]; [done|]. change (vspace h1) with (vspace h). set_solver. }
  assert (S2 : small_ok NULL h2).
  { apply small_vspace; [done|]. intros b o' d [Hd Hdc]%D2. intros x Hx. pose proof (in_group_chunk _ _ _ _ _ S Hd) as Kd.
    apply Hsub; [by apply Kd|]. intros Hx'. by apply (chunk_frames_apart c d (co_addr _ _ _ _ K) (co_addr _ _ _ _ Kd)) in Hx'. }
  assert (Sh : shed h h2).
  { split; [eapply steady_trans; [by eapply set_group_steady|apply steady_set_vspace]|done| | |].
    - intros b o' d Hd. apply (D2 b o' d), Hd.
    - destruct Hv as [Hv|Hv]; cbn; rewrite Hv; [done|]. change (vspace h1) with (vspace h). set_solver.
    - intros x Hx Hn. apply Hsub; [done|]. by apply (Hn a o). }
  destruct (IH h2 m1) as (I1 & I2 & I3); [done..| |].
  { intros d Hd. rewrite Hg1, decide_True by done. cbn. apply elem_unlink. split; [apply Hl; by right|by intros ->]. }
  split; [done|]. split; [by eapply shed_trans|]. intros b o' p. rewrite I3. apply D3.
Qed.

Record k_free_ok (p : Z) (h h' : heap) : Prop := {
  kf_small : small_ok NULL h';
  kf_shed : shed h h';
  kf_live : forall b o q, live h' b o q <-> live h b o q /\ q <> p
}.

Lemma k_free_effect h m o p :
  small_ok NULL h -> kallocator h (cur h) = Some m -> live h (cur h) o p ->
  let '(e, h') := _k_free p h in e = REND_SUCCESS /\ k_free_ok p h h'.
Proof.
  intros S Hm (c & Hcg & Hobj). pose proof (in_group_chunk _ _ _ _ _ S Hcg) as K. pose proof Hcg as (Ho & _).
  set (obj := p - sizeof_object_header) in *. replace p with (obj + sizeof_object_header) in * by (unfold obj; lia). clearbody obj. clear p.
  assert (Hin : obj ∈ objs c o) by (rewrite <- (co_objs _ _ _ _ K); apply elem_of_app; by left).
  pose proof (objs_bounds obj c o Ho Hin) as [Hb _]. pose proof (co_addr _ _ _ _ K) as Hck.
  unfold _k_free. rewrite Hm. destruct (Z.eqb_spec (obj + sizeof_object_header) NULL) as [E|_].
  { destruct Hck. unfold KERNEL_VIRT_OFFSET, NULL, sizeof_object_header in *. lia. }
  replace (obj + sizeof_object_header - sizeof_object_header) with obj by lia.
  rewrite (chunk_of_payload c o obj) by done. rewrite (co_headers _ _ _ _ K obj Hin). destruct (so_alloc _ _ S _ _ Hm) as [-> _].
  rewrite Z.eqb_refl, (co_order _ _ _ _ K). pose proof (group_free_effect h (cur h) m o c obj S Hm Hcg Hobj) as G.
  destruct (group_free_obj obj c (cur h) o h) as [res h1]. destruct G as (Hr & S1 & St & Ev & Evw & Hg & Hl).
  destruct (Z.ltb_spec res 0); [lia|]. split; [done|].
  assert (Ec : cur h1 = cur h) by apply St. destruct (steady_some _ _ _ _ St Hm) as (m1 & Hm1 & _). rewrite Ec, (group_at_eq h1 (cur h) m1 o Hm1).
  pose proof (go_nodup _ _ _ _ _ (so_group _ _ S1 _ _ o Hm1 Ho)) as Hnd. apply NoDup_app in Hnd as (_ & _ & Hnd).
  destruct (trim_effect (cur h) o (empty_list (groups m1 o)) h1 m1 S1 Hm1 Ho Hnd ltac:(auto)) as (T1 & T2 & T3).
  split; [done| |].
  - eapply shed_trans; [|exact T2]. split; [done|done| |by rewrite Ev|].
    + intros b o' d. apply Hg.
    + intros x Hx _. by rewrite Ev.
  - intros b o' q. by rewrite T3, Hl.
Qed.
End Small.
