(* ===== verification/KmallocSpec.v ===== *)
(** * The kernel heap: specification

    The page runs on top of the small objects of KmallocInv, and the theorems
    about [kalloc] and [kfree]: what a call does to the set of allocated
    blocks, and that blocks never overlap however the calls are ordered.  They
    are about one CPU's calls while no free of another CPU waits in a queue. *)
From stdpp Require Import list_numbers gmap sets.
From Stdlib Require Import Sorted.
From S2P Require Import Prelude Mm TaggedPtr Refcount MsQueue KernelPages RbTree RbInsert RbRemove Kmalloc KmallocInv.

Section Heap.
Context {V Q : Type} {VO : VSpaceOps V} {VL : VSpaceLedger V} {CA : ChunkAligned V} {FQ : FreeQueues Q}.
Notation heap := (kheap V Q).
Implicit Types h : heap.

(** ** Well-formed heaps: the page runs *)

Definition PCN_CLASS : Z := 4.
Definition run_frames (r : page_chunk_node) : gset Z := frames (kppn (page_addr r)) (page_num r).
Definition run_ok (r : page_chunk_node) : Prop :=
  page_addr r = kppn (page_addr r) * PAGE_SIZE + KERNEL_VIRT_OFFSET /\ 0 <= kppn (page_addr r) /\
  kppn (page_addr r) + page_num r <= 2 ^ 35 /\ 0 < page_num r <= MIDDLE_PAGES.

(** [rn a]: the tree nodes of allocator [a], in key order *)
Record pages_ok (rn : Z -> list Z) (h : heap) : Prop := {
  po_index : forall a m, kallocator h a = Some m -> page_index (pcn_addr h) (page_tree a h) (rn a);
  po_live : forall a n, n ∈ rn a -> live h a PCN_CLASS n;
  po_run : forall a n, n ∈ rn a -> run_ok (pcn_view h n);
  po_owned : forall a n, n ∈ rn a -> run_frames (pcn_view h n) ⊆ owned (vspace h);
  po_apart : forall a b n n', n ∈ rn a -> n' ∈ rn b -> n <> n' -> run_frames (pcn_view h n) ## run_frames (pcn_view h n');
  po_chunks : forall a n b o c, n ∈ rn a -> in_group h b o c -> run_frames (pcn_view h n) ## frames (kppn c) 4
}.

Lemma page_index_frame (pa pa' : Z -> Z) s s' ns :
  page_index pa s ns -> rb_root s' = rb_root s -> (forall n, n ∈ ns -> rbm s' n = rbm s n /\ pa' n = pa n) -> page_index pa' s' ns.
Proof.
  intros [(t & Hr & Hrep & Hrb & Hn) Hs] Er Hf. split.
  - exists t. split; [congruence|]. split; [|done].
    assert (Hrep' : forall t par, (forall n, n ∈ nodes t -> n ∈ ns) -> rep s par t -> rep s' par t).
    { clear -Hf. induction t as [|c k l IHl a r IHr]; intros par Hin; [done|]. cbn [rep]. intros (P & N & E & L & R).
      cbn [nodes] in Hin. split_and!; [done|done| |apply IHl|apply IHr]; try done.
      - destruct (Hf a) as [-> _]; [|done]. apply Hin. apply elem_of_app. right. left.
      - intros n Hn. apply Hin, elem_of_app. by left.
      - intros n Hn. apply Hin, elem_of_app. right. by right. }
    apply Hrep'; [by rewrite Hn|done].
  - clear -Hs Hf. induction Hs as [|x l Hl IH Hx]; [constructor|]. constructor.
    + apply IH. intros n Hn. apply Hf. by right.
    + rewrite Forall_forall in *. intros y Hy. specialize (Hx y Hy). unfold lt_key in *.
      destruct (Hf x) as [_ ->]; [left|]. destruct (Hf y) as [_ ->]; [by right|]. done.
Qed.

Lemma page_index_length pa s ns : page_index pa s ns -> (log_fuel (length ns) < RB_FUEL)%nat.
Proof. apply page_index_small. Qed.

(** live objects do not overlap *)
Lemma live_apart h b o q a o' p :
  small_ok NULL h -> live h b o q -> live h a o' p -> q <> p -> ~ (p <= q < p + slot o').
Proof.
  intros S (d & Hd & Hq) (c & Hc & Hp) Hne Hr. pose proof (in_group_chunk _ _ _ _ _ S Hd) as Kd. pose proof (in_group_chunk _ _ _ _ _ S Hc) as Kc.
  assert (Hqo : q - sizeof_object_header ∈ objs d o) by (rewrite <- (co_objs _ _ _ _ Kd); apply elem_of_app; by left).
  assert (Hpo : p - sizeof_object_header ∈ objs c o') by (rewrite <- (co_objs _ _ _ _ Kc); apply elem_of_app; by left).
  pose proof (objs_bounds _ _ _ (proj1 Hd) Hqo) as Bq. pose proof (objs_bounds _ _ _ (proj1 Hc) Hpo) as Bp.
  pose proof (slot_facts o (proj1 Hd)) as [Sq _]. pose proof (slot_facts o' (proj1 Hc)) as [Sp _]. unfold stride, sizeof_object_header in *.
  assert (d = c) as -> by (apply (chunk_regions d c q); [apply Kd|apply Kc|lia|lia]).
  destruct (so_sep _ _ S _ _ _ _ _ Hd Hc) as [-> ->].
  pose proof (objs_apart _ _ _ _ (proj1 Hc) Hqo Hpo ltac:(lia)). unfold stride, sizeof_object_header in *. lia.
Qed.

Lemma live_inj h a o b o' p : small_ok NULL h -> live h a o p -> live h b o' p -> a = b /\ o = o'.
Proof.
  intros S (d & Hd & Hq) (c & Hc & Hp). pose proof (in_group_chunk _ _ _ _ _ S Hd) as Kd. pose proof (in_group_chunk _ _ _ _ _ S Hc) as Kc.
  assert (Hqo : p - sizeof_object_header ∈ objs d o) by (rewrite <- (co_objs _ _ _ _ Kd); apply elem_of_app; by left).
  assert (Hpo : p - sizeof_object_header ∈ objs c o') by (rewrite <- (co_objs _ _ _ _ Kc); apply elem_of_app; by left).
  assert (d = c) as ->.
  { rewrite <- (chunk_of_payload d o (p - sizeof_object_header)), <- (chunk_of_payload c o' (p - sizeof_object_header)); (done || apply Hd || apply Hc || apply Kd || apply Kc). }
  by apply (so_sep _ _ S _ _ _ _ c).
Qed.

Lemma pages_frame rn h h' :
  pages_ok rn h ->
  (forall a m', kallocator h' a = Some m' -> exists m, kallocator h a = Some m /\ page_chunk_root m' = page_chunk_root m) ->
  (forall a n, n ∈ rn a -> rb_view h' n = rb_view h n /\ pcn_view h' n = pcn_view h n) ->
  (forall a n, n ∈ rn a -> live h' a PCN_CLASS n) ->
  (forall a n, n ∈ rn a -> run_frames (pcn_view h n) ⊆ owned (vspace h')) ->
  (forall b o d, in_group h' b o d -> (exists b' o', in_group h b' o' d) \/ frames (kppn d) 4 ## owned (vspace h)) ->
  pages_ok rn h'.
Proof.
  intros [P1 P2 P3 P4 P5 P6] Hk Hv Hl Ho Hc. split.
  - intros a m' Hm'. destruct (Hk a m' Hm') as (m & Hm & Er). apply (page_index_frame (pcn_addr h) _ (page_tree a h)); [by eapply P1| |].
    + unfold page_tree. cbn. by rewrite (alloc_at_eq _ _ _ Hm'), (alloc_at_eq _ _ _ Hm).
    + intros n Hn. destruct (Hv a n Hn) as [E1 E2]. unfold pcn_addr. cbn. by rewrite E1, E2.
  - done.
  - intros a n Hn. destruct (Hv a n Hn) as [_ ->]. by eapply P3.
  - intros a n Hn. destruct (Hv a n Hn) as [_ ->]. by eapply Ho.
  - intros a b n n' Hn Hn' Hne. destruct (Hv a n Hn) as [_ ->]. destruct (Hv b n' Hn') as [_ ->]. by eapply P5.
  - intros a n b o c Hn Hin. destruct (Hv a n Hn) as [_ ->]. destruct (Hc b o c Hin) as [(b' & o' & Hin')|Hd]; [by eapply P6|].
    specialize (P4 a n Hn). set_solver.
Qed.

(** ** Well-formed heaps and what is allocated *)

Record heap_ok (rn : Z -> list Z) (h : heap) : Prop := { ho_small : small_ok NULL h; ho_pages : pages_ok rn h }.

(** block [p, p+n) belongs to a caller, from allocator [a] *)
Definition allocated (rn : Z -> list Z) (h : heap) (a p n : Z) : Prop :=
  (exists o, live h a o p /\ p ∉ rn a /\ n = slot o) \/
  (exists x, x ∈ rn a /\ p = page_addr (pcn_view h x) /\ n = page_num (pcn_view h x) * PAGE_SIZE).

(** no free of another CPU waits for allocator [a] *)
Definition no_remote (h : heap) (a : Z) : Prop :=
  exists m, kallocator h a = Some m /\ buffer_size m = 0 /\ kfree_page_pending m = 0.

Lemma remote_frees_idle m_free fuel a h : no_remote h a -> mem_allocator_remote_frees m_free fuel a h = h.
Proof.
  intros (m & Hm & Hb & Hk). unfold mem_allocator_remote_frees.
  assert (E : forall k ff pending dec, pending m = 0 -> drain fuel a k ff pending dec h = h).
  { intros k ff pending dec Hp. destruct fuel; [done|]. cbn [drain]. by rewrite (alloc_at_eq _ _ _ Hm), Hp. }
  destruct (q_present (queues h) a KfreePageMsq); rewrite ?E by done; by destruct (q_present _ _ _); rewrite ?E by done.
Qed.

(** the allocators stay what they are, their trees apart *)
Record calm (h h' : heap) : Prop := {
  cm_cur : cur h' = cur h;
  cm_alloc : forall b, option_Forall2 (fun m m' => allocator_id m' = allocator_id m /\ buffer_size m' = buffer_size m /\
    kfree_page_pending m' = kfree_page_pending m) (kallocator h b) (kallocator h' b)
}.
Lemma steady_calm h h' : steady h h' -> calm h h'.
Proof. intros [A B]. split; [done|]. intros b. destruct (B b) as [m m' (E1 & E2 & E3 & E4)|]; constructor. done. Qed.
Lemma calm_trans h1 h2 h3 : calm h1 h2 -> calm h2 h3 -> calm h1 h3.
Proof.
  intros [A1 B1] [A2 B2]. split; [congruence|]. intros b. specialize (B1 b). specialize (B2 b).
  destruct B1 as [m1 m2 (?&?&?)|]; inversion B2; subst; constructor. destruct_and!. split_and!; congruence.
Qed.
Lemma calm_refl h : calm h h.
Proof. apply steady_calm, steady_refl. Qed.
Lemma calm_no_remote h h' a : calm h h' -> no_remote h a -> no_remote h' a.
Proof.
  intros [_ B] (m & Hm & Hb & Hk). specialize (B a). rewrite Hm in B. inversion B as [? m' (?&?&?) E1 E2|]; subst.
  exists m'. split_and!; congruence.
Qed.

Lemma steady_roots h h' : steady h h' ->
  forall a m', kallocator h' a = Some m' -> exists m, kallocator h a = Some m /\ page_chunk_root m' = page_chunk_root m.
Proof.
  intros [_ B] a m' Hm'. specialize (B a). rewrite Hm' in B. inversion B as [m ? (?&?&?)|]; subst. eauto.
Qed.

Lemma rn_distinct rn h a b n : heap_ok rn h -> n ∈ rn a -> n ∈ rn b -> a = b.
Proof. intros [S P] Ha Hb. by destruct (live_inj h a PCN_CLASS b PCN_CLASS n S (po_live _ _ P _ _ Ha) (po_live _ _ P _ _ Hb)). Qed.

Lemma frames_apart a n b m : 0 < n -> 0 < m -> frames a n ## frames b m -> a + n <= b \/ b + m <= a.
Proof.
  intros Hn Hm Hd. destruct (decide (a + n <= b)); [by left|]. destruct (decide (b + m <= a)); [by right|].
  exfalso. apply (Hd (Z.max a b)); apply elem_frames; lia.
Qed.

Lemma live_run_apart rn h b o p a x :
  heap_ok rn h -> live h b o p -> x ∈ rn a ->
  p + slot o <= page_addr (pcn_view h x) \/ page_addr (pcn_view h x) + page_num (pcn_view h x) * PAGE_SIZE <= p.
Proof.
  intros [S P] (c & Hc & Hp) Hx. pose proof (in_group_chunk _ _ _ _ _ S Hc) as K. destruct (po_run _ _ P _ _ Hx) as (R1 & R2 & R3 & R4).
  destruct (chunk_ppn c (co_addr _ _ _ _ K)) as (_ & _ & _ & Ec). pose proof (po_chunks _ _ P _ _ _ _ _ Hx Hc) as Hd.
  assert (Hpo : p - sizeof_object_header ∈ objs c o) by (rewrite <- (co_objs _ _ _ _ K); apply elem_of_app; by left).
  pose proof (objs_bounds _ _ _ (proj1 Hc) Hpo) as Bp. unfold stride, sizeof_object_header, CHUNK_SIZE, PAGE_SIZE, PAGE_PER_CHUNK in *.
  apply frames_apart in Hd; lia.
Qed.
Lemma run_positive rn h a x : heap_ok rn h -> x ∈ rn a -> 0 < page_num (pcn_view h x) * PAGE_SIZE.
Proof. intros [_ P] Hx. destruct (po_run _ _ P _ _ Hx) as (_ & _ & _ & ?). unfold PAGE_SIZE. lia. Qed.
Lemma live_not_run rn h b o p a x : heap_ok rn h -> live h b o p -> x ∈ rn a -> page_addr (pcn_view h x) <> p.
Proof.
  intros Hk Hl Hx E. pose proof (live_run_apart rn h b o p a x Hk Hl Hx) as D. pose proof (run_positive rn h a x Hk Hx).
  destruct Hl as (c & (Ho & _) & _). pose proof (slot_facts o Ho). lia.
Qed.
Lemma runs_apart rn h a x b y :
  heap_ok rn h -> x ∈ rn a -> y ∈ rn b -> x <> y ->
  page_addr (pcn_view h x) + page_num (pcn_view h x) * PAGE_SIZE <= page_addr (pcn_view h y) \/
  page_addr (pcn_view h y) + page_num (pcn_view h y) * PAGE_SIZE <= page_addr (pcn_view h x).
Proof.
  intros [_ P] Hx Hy Hne. destruct (po_run _ _ P _ _ Hx) as (R1 & R2 & R3 & R4). destruct (po_run _ _ P _ _ Hy) as (Q1 & Q2 & Q3 & Q4).
  pose proof (po_apart _ _ P _ _ _ _ Hx Hy Hne) as Hd. apply frames_apart in Hd; [|lia..]. unfold PAGE_SIZE in *. lia.
Qed.

(** a small allocation in a well-formed heap *)
Lemma k_alloc_heap rn root a o p h h' :
  heap_ok rn h -> k_alloc_ok root a o h p h' ->
  heap_ok rn h' /\
  ((p = NULL /\ forall b q k, allocated rn h' b q k <-> allocated rn h b q k) \/
   (p <> NULL /\ live h' a o p /\ (forall b o', ~ live h b o' p) /\ (forall b, p ∉ rn b) /\ views_zero p (slot o) h' /\ (forall b k, ~ allocated rn h b p k) /\
    (forall b q k, allocated rn h' b q k <-> allocated rn h b q k \/ (b = a /\ q = p /\ k = slot o)))).
Proof.
  intros [S P] [K1 K2 K3 K4 K5]. pose proof (steady_roots _ _ K2) as Hr.
  destruct K5 as [(-> & _ & Ev & Hl)|(Hp & Hlp & Hnl & Hvo & Hvz & Hl)].
  - injection Ev as V1 V2 V3. split.
    + split; [done|]. apply (pages_frame rn h); try done.
      * intros b n _. by rewrite V1, V2.
      * intros b n Hn. apply Hl. by eapply po_live.
      * intros b n Hn. etransitivity; [by eapply po_owned|done].
    + left. split; [done|]. intros b q k. unfold allocated. setoid_rewrite Hl. by rewrite V2.
  - assert (Hprn : forall b, p ∉ rn b) by (intros b Hb; by apply (Hnl b PCN_CLASS), (po_live _ _ P)).
    assert (Hv : forall b n, n ∈ rn b -> rb_view h' n = rb_view h n /\ pcn_view h' n = pcn_view h n).
    { intros b n Hn. destruct (Hvo n) as (? & ? & _); [|done]. apply (live_apart h' b PCN_CLASS n a o p K1); [|done|].
      - apply Hl. left. by eapply po_live.
      - intros ->. by apply (Hprn b). }
    assert (Hk' : heap_ok rn h').
    { split; [done|]. apply (pages_frame rn h); try done.
      - intros b n Hn. apply Hl. left. by eapply po_live.
      - intros b n Hn. etransitivity; [by eapply po_owned|done]. }
    split; [done|]. right. split_and!; try done.
    + intros b k [(o' & Hlo & _)|(x & Hx & E & _)]; [by apply (Hnl b o')|].
      apply (live_not_run rn h' a o p b x Hk' Hlp Hx). by destruct (Hv b x Hx) as [_ ->].
    + intros b q k. unfold allocated. setoid_rewrite Hl. split.
      * intros [(o' & [Hq|(-> & -> & ->)] & Hqn & ->)|(x & Hx & -> & ->)]; [left; left; eauto|by right|].
        left. right. exists x. split; [done|]. by destruct (Hv b x Hx) as [_ ->].
      * intros [[(o' & Hq & Hqn & ->)|(x & Hx & -> & ->)]|(-> & -> & ->)].
        -- left. exists o'. auto.
        -- right. exists x. split; [done|]. by destruct (Hv b x Hx) as [_ ->].
        -- left. exists o. split; [by right|]. split; [apply Hprn|done].
Qed.

(** allocated blocks never overlap *)
Lemma allocated_apart rn h a p n b q k :
  heap_ok rn h -> allocated rn h a p n -> allocated rn h b q k -> p <> q -> p + n <= q \/ q + k <= p.
Proof.
  intros Hk [(o & Hl & _ & ->)|(x & Hx & -> & ->)] [(o' & Hl' & _ & ->)|(y & Hy & -> & ->)] Hne.
  - pose proof (live_apart h a o p b o' q (ho_small _ _ Hk) Hl Hl' Hne). pose proof (live_apart h b o' q a o p (ho_small _ _ Hk) Hl' Hl ltac:(done)). lia.
  - by eapply live_run_apart.
  - destruct (live_run_apart rn h b o' q a x Hk Hl' Hx); auto.
  - apply (runs_apart rn h a x b y); try done. by intros ->.
Qed.

(** releasing a live object that is not a tree node *)
Lemma k_free_heap rn a o p h h' :
  heap_ok rn h -> live h a o p -> (forall b, p ∉ rn b) -> k_free_ok p h h' ->
  heap_ok rn h' /\ forall b q k, allocated rn h' b q k <-> allocated rn h b q k /\ q <> p.
Proof.
  intros Hk Hlp Hprn [K1 [K2 K3 K4 K5 K6] K7]. pose proof Hk as [S P]. injection K3 as V1 V2 V3. split.
  - split; [done|]. apply (pages_frame rn h); try done.
    + by apply steady_roots.
    + intros b n _. by rewrite V1, V2.
    + intros b n Hn. apply K7. split; [by eapply po_live|]. intros ->. by apply (Hprn b).
    + intros b n Hn x Hx. apply K6; [by eapply po_owned|]. intros b' o' d Hd Hx'. by apply (po_chunks _ _ P b n b' o' d) in Hx'.
    + intros b o' d Hd. left. eauto.
  - intros b q k. unfold allocated. setoid_rewrite K7. rewrite V2. split.
    + intros [(o' & [Hq Hne] & Hqn & ->)|(x & Hx & -> & ->)]; [split; [left; eauto|done]|].
      split; [right; eauto|]. by eapply live_not_run.
    + intros [[(o' & Hq & Hqn & ->)|(x & Hx & -> & ->)] Hn]; [|right; eauto]. left. exists o'. split; [by split|done].
Qed.

(** ** Page runs *)

Lemma bytes_to_pages_spec B :
  0 < B <= MIDDLE_PAGE_SIZE -> 1 <= bytes_to_pages B <= MIDDLE_PAGES /\ B <= bytes_to_pages B * PAGE_SIZE.
Proof.
  unfold MIDDLE_PAGE_SIZE, MIDDLE_PAGES. intros HB. unfold bytes_to_pages. change PAGE_SIZE with (2 ^ 12).
  rewrite ROUND_UP_spec by lia. rewrite Z.div_mul by lia. set (n := (B + (2 ^ 12 - 1)) / 2 ^ 12).
  assert (Hn : 1 <= n <= 512 /\ B <= n * 4096) by (unfold n; dlia).
  rewrite u32_small by lia. rewrite log2_of_next_power_of_two_log2_up by lia. destruct (decide (n = 1)) as [->|Hn1].
  { change (Z.log2_up 1) with 0. change (i32 (Z.shiftl 1 0)) with 1. lia. }
  pose proof (Z.log2_up_spec n ltac:(lia)) as [_ Hs]. pose proof (Z.log2_up_nonneg n) as Hn0.
  assert (Hl : Z.log2_up n <= 9) by (apply Z.log2_up_le_pow2; lia).
  pose proof (Z.pow_le_mono_r 2 _ _ ltac:(lia) Hl). rewrite Z.shiftl_mul_pow2 by lia. rewrite i32_small by lia. lia.
Qed.

Lemma get_pages_run root n h :
  0 <= n ->
  let '(p, h') := get_pages root n h in
  h' = set_vspace (vspace h') h /\
  ((p = NULL /\ owned (vspace h') = owned (vspace h)) \/
   (p <> NULL /\ 0 < n /\ p = kppn p * PAGE_SIZE + KERNEL_VIRT_OFFSET /\ 0 <= kppn p /\ kppn p + n <= 2 ^ 35 /\
    frames (kppn p) n ## owned (vspace h) /\ owned (vspace h') = owned (vspace h) ∪ frames (kppn p) n)).
Proof.
  intros Hn. unfold get_pages. pose proof (get_pages_effect (vspace h) root (cur h) n PAGE_ENTRY_NONE Hn) as G.
  destruct (core_get_free_pages _ _ _ _ _) as [p v]. split; [done|].
  destruct G as [G|(ppn & -> & Hnn & Hn1 & Hp & Hb & Hd & Ho & _)]; [by left|]. right. rewrite kernel_addr in * by lia.
  assert (E : kppn (ppn * 4096 + KERNEL_VIRT_OFFSET) = ppn).
  { unfold kppn, PAGE_SIZE. replace (ppn * 4096 + KERNEL_VIRT_OFFSET - KERNEL_VIRT_OFFSET) with (ppn * 4096) by lia. by rewrite Z.div_mul by lia. }
  rewrite E. split_and!; try done.
Qed.

(** more frames in the ledger change nothing *)
Lemma heap_vspace rn h v : heap_ok rn h -> owned (vspace h) ⊆ owned v -> heap_ok rn (set_vspace v h).
Proof.
  intros [S P] Hv. split.
  - apply small_vspace; [done|]. intros b o d Hd. etransitivity; [|exact Hv]. by eapply co_frames, in_group_chunk.
  - apply (pages_frame rn h); try done.
    + intros a m' Hm'. eauto.
    + intros a n Hn. change (live h a PCN_CLASS n). by eapply po_live.
    + intros a n Hn. etransitivity; [by eapply po_owned|done].
    + intros b o d Hd. left. eauto.
Qed.

(** payloads in use lie outside frames nobody held *)
Lemma live_outside h b o q p n :
  small_ok NULL h -> live h b o q -> frames (kppn p) n ## owned (vspace h) -> p = kppn p * PAGE_SIZE + KERNEL_VIRT_OFFSET ->
  ~ (p <= q < p + n * PAGE_SIZE).
Proof.
  intros S (c & Hc & Hp) Hd Ep Hr. pose proof (in_group_chunk _ _ _ _ _ S Hc) as K. pose proof (co_frames _ _ _ _ K) as Hf.
  destruct (chunk_ppn c (co_addr _ _ _ _ K)) as (_ & _ & _ & Ec).
  assert (Hpo : q - sizeof_object_header ∈ objs c o) by (rewrite <- (co_objs _ _ _ _ K); apply elem_of_app; by left).
  pose proof (objs_bounds _ _ _ (proj1 Hc) Hpo) as Bp. pose proof (slot_facts o (proj1 Hc)) as [Sq _].
  unfold stride, sizeof_object_header, CHUNK_SIZE, PAGE_SIZE, PAGE_PER_CHUNK in *.
  set (k := (q - KERNEL_VIRT_OFFSET) / 4096). assert (kppn c <= k < kppn c + 4 /\ kppn p <= k < kppn p + n) as [H1 H2] by (unfold k; dlia).
  apply (Hd k); [by apply elem_frames|]. apply Hf. by apply elem_frames.
Qed.

Lemma pcn_node_addr h a n : small_ok NULL h -> live h a PCN_CLASS n -> node_addr n.
Proof.
  intros S (c & Hc & Hp). pose proof (in_group_chunk _ _ _ _ _ S Hc) as K. pose proof (co_addr _ _ _ _ K) as (A1 & A2 & A3).
  assert (Hpo : n - sizeof_object_header ∈ objs c PCN_CLASS) by (rewrite <- (co_objs _ _ _ _ K); apply elem_of_app; by left).
  pose proof (objs_bounds _ _ _ (proj1 Hc) Hpo) as Bp. pose proof (slot_facts PCN_CLASS (proj1 Hc)) as [Sq _].
  apply elem_objs in Hpo as (i & _ & Ei). change (stride PCN_CLASS) with 88 in *.
  unfold CHUNK_SIZE, PAGE_SIZE, PAGE_PER_CHUNK, KERNEL_VIRT_OFFSET, sizeof_object_header, sizeof_mem_chunk, node_addr in *. split; [lia|dlia].
Qed.

(** the tree of [a] with the new node at its place *)
Lemma pages_insert rn h a m pcn :
  heap_ok rn h -> kallocator h a = Some m -> live h a PCN_CLASS pcn -> (forall b, pcn ∉ rn b) ->
  rb_view h pcn = mk_rb 0 0 NULL NULL -> run_ok (pcn_view h pcn) -> run_frames (pcn_view h pcn) ⊆ owned (vspace h) ->
  (forall b n, n ∈ rn b -> run_frames (pcn_view h n) ## run_frames (pcn_view h pcn)) ->
  (forall b o c, in_group h b o c -> run_frames (pcn_view h pcn) ## frames (kppn c) 4) ->
  let h' := set_page_tree a (page_chunk_rb_tree_insert (pcn_addr h) RB_FUEL pcn (page_tree a h)) h in
  exists rn', heap_ok rn' h' /\ calm h h' /\ (forall b o q, live h' b o q <-> live h b o q) /\
    (forall b n, n ∈ rn' b <-> n ∈ rn b \/ (b = a /\ n = pcn)).
Proof.
  intros Hk Hm Hl Hn Hrb Hro Hfo Hfd Hfc. pose proof Hk as [S P]. cbv zeta.
  pose proof (po_index _ _ P a m Hm) as Ix.
  destruct (insert_effect (pcn_addr h) (page_tree a h) (rn a) pcn RB_FUEL) as [[(n & Hin & E) _]|(Hne & L & R & EL & Ix' & Mo)].
  { exact Ix. } { by apply (pcn_node_addr h a). } { apply Hn. } { unfold RB_COLOR, page_tree. cbn. by rewrite Hrb. } { unfold page_tree. cbn. by rewrite Hrb. }
  { by eapply page_index_length. }
  { exfalso. unfold pcn_addr in E. destruct (po_run _ _ P _ _ Hin) as (_ & _ & _ & Hnp). destruct Hro as (_ & _ & _ & Hpp).
    apply (Hfd a n Hin (kppn (page_addr (pcn_view h n)))); unfold run_frames; apply elem_frames; [|rewrite E]; lia. }
  exists (<[a := L ++ pcn :: R]> rn). generalize dependent (page_chunk_rb_tree_insert (pcn_addr h) RB_FUEL pcn (page_tree a h)). intros t Ix' Mo. set (h' := set_page_tree a t h).
  assert (Ek : forall b, kallocator h' b = if decide (a = b) then Some (mk_alloc (allocator_id m) (groups m) (rb_root t) (buffer_size m) (kfree_page_pending m)) else kallocator h b).
  { intros b. unfold h', set_page_tree, set_page_root, alloc_at. cbn. rewrite Hm. done. }
  assert (Hmem : forall b n, n ∈ (<[a := L ++ pcn :: R]> rn) b <-> n ∈ rn b \/ (b = a /\ n = pcn)).
  { intros b n. rewrite fn_insert_case. destruct (decide (a = b)) as [<-|]; [|naive_solver]. rewrite EL, !elem_of_app, elem_of_cons. tauto. }
  assert (Hin : forall b o d, in_group h' b o d <-> in_group h b o d).
  { intros b o d. unfold in_group. rewrite Ek. destruct (decide (a = b)) as [<-|Hab]; [|done].
    - split; intros (? & m' & Hm' & ?); (split; [done|]); [injection Hm' as <-; eauto|].
      replace m' with m in * by congruence. eauto. }
  assert (Hlv : forall b o q, live h' b o q <-> live h b o q) by (intros b o q; unfold live; by setoid_rewrite Hin).
  split; [|split; [|split; [done|exact Hmem]]]. 2:{ split; [done|]. intros b. rewrite Ek. destruct (decide (a = b)) as [<-|]; [rewrite Hm; by constructor|by apply option_Forall2_refl]. }
  split.
  - destruct S as [S1 S2 S3]. assert (Hk' : forall b m', kallocator h' b = Some m' -> exists m0, kallocator h b = Some m0 /\ allocator_id m' = allocator_id m0 /\ groups m' = groups m0).
    { intros b m'. rewrite Ek. destruct (decide (a = b)) as [<-|]; [intros [= <-]; eauto|eauto]. }
    split.
    + intros b m' Hm'. destruct (Hk' b m' Hm') as (m0 & Hm0 & -> & _). by apply S1.
    + intros b m' o Hm' Ho. destruct (Hk' b m' Hm') as (m0 & Hm0 & _ & ->). specialize (S2 b m0 o Hm0 Ho).
      assert (Hck : forall d, chunk_ok h b o d -> chunk_ok h' b o d) by (intros d; by apply chunk_ok_eq).
      destruct S2 as [? ? ? GF GE ? ? ?]. split; try done; intros d Hd; [destruct (GF d Hd)|destruct (GE d Hd)]; split; auto.
    + intros b o b' o' d Hd Hd'. apply (S3 b o b' o' d); by apply Hin.
  - split.
    + intros b m' Hm'. rewrite fn_insert_case. destruct (decide (a = b)) as [<-|Hab].
      * unfold page_tree, alloc_at. rewrite Ek, decide_True by done. cbn. by destruct t.
      * rewrite Ek, decide_False in Hm' by done. apply (page_index_frame (pcn_addr h) _ (page_tree b h)); [by eapply po_index| |].
        -- unfold page_tree, alloc_at. by rewrite Ek, decide_False by done.
        -- intros n Hnb. split; [|done]. apply (Mo n). intros [->|Hna]%elem_of_cons; [by apply (Hn b)|]. apply Hab. by eapply rn_distinct.
    + intros b n [Hb|[-> ->]]%Hmem; apply Hlv; [by eapply po_live|done].
    + intros b n [Hb|[-> ->]]%Hmem; [by apply (po_run _ _ P b)|done].
    + intros b n [Hb|[-> ->]]%Hmem; [by apply (po_owned _ _ P b)|done].
    + intros b b' n n' [Hb|[-> ->]]%Hmem [Hb'|[-> ->]]%Hmem Hnn; [by apply (po_apart _ _ P b b')| | |done].
      * by eapply Hfd.
      * symmetry. by eapply Hfd.
    + intros b n b' o c [Hb|[-> ->]]%Hmem Hc%Hin; [by apply (po_chunks _ _ P b n b' o)|by eapply Hfc].
Qed.

(** ** [kalloc] *)

Definition alloc_fails (rn : Z -> list Z) (h : heap) (rn' : Z -> list Z) (h' : heap) : Prop :=
  forall b q k, allocated rn' h' b q k <-> allocated rn h b q k.
Definition alloc_succeeds (a p n : Z) (rn : Z -> list Z) (h : heap) (rn' : Z -> list Z) (h' : heap) : Prop :=
  p <> NULL /\ (forall b k, ~ allocated rn h b p k) /\
  (forall b q k, allocated rn' h' b q k <-> allocated rn h b q k \/ (b = a /\ q = p /\ k = n)).

(** the frames are a fresh run: its record goes into the tree *)
Lemma record_run rn h a m pcn res n h0 :
  heap_ok rn h -> kallocator h a = Some m -> live h a PCN_CLASS pcn -> (forall b, pcn ∉ rn b) -> 
  rb_view h pcn = mk_rb 0 0 NULL NULL -> 1 <= n <= MIDDLE_PAGES -> res <> NULL -> res = kppn res * PAGE_SIZE + KERNEL_VIRT_OFFSET ->
  0 <= kppn res -> kppn res + n <= 2 ^ 35 -> small_ok NULL h0 -> (forall b o q, live h b o q <-> live h0 b o q) ->
  pages_ok rn h0 -> (forall b o c, in_group h b o c -> in_group h0 b o c) -> pcn_view h = pcn_view h0 ->
  frames (kppn res) n ## owned (vspace h0) -> frames (kppn res) n ⊆ owned (vspace h) ->
  let h3 := set_pcn pcn (mk_pcn res n) (clear_range res (n * PAGE_SIZE) h) in
  let h' := set_page_tree a (page_chunk_rb_tree_insert (pcn_addr h3) RB_FUEL pcn (page_tree a h3)) h3 in
  exists rn', heap_ok rn' h' /\ calm h h' /\
    (forall b q k, allocated rn' h' b q k <->
       (allocated rn h b q k /\ q <> pcn) \/ (b = a /\ q = res /\ k = n * PAGE_SIZE)).
Proof.
  intros Hk Hm Hl Hn Hrb Hr Hne Er Hr1 Hr2 S0 Hl0 P0 Hg0 Ev0 Hfr Hfo. cbv zeta. set (h3 := set_pcn _ _ _).
  pose proof Hk as [S P].
  assert (Hout : forall b o q, live h b o q -> ~ (res <= q < res + n * PAGE_SIZE)).
  { intros b o q Hq%Hl0. by apply (live_outside h0 b o). }
  assert (Hv : forall b o q, live h b o q -> rb_view h3 q = rb_view h q /\ (q <> pcn -> pcn_view h3 q = pcn_view h q)).
  { intros b o q Hq. specialize (Hout b o q Hq). destruct (clear_range_outside res (n * PAGE_SIZE) h q Hout) as (E1 & E2 & _).
    split; [exact E1|]. intros Hne'. cbn. by rewrite fn_insert_other by done. }
  assert (Ep3 : pcn_view h3 pcn = mk_pcn res n) by (cbn; by rewrite fn_insert_same).
  assert (Hnn : forall b x, x ∈ rn b -> x <> pcn) by (by intros b x Hx ->; apply (Hn b)).
  assert (Hk3 : heap_ok rn h3).
  { split.
    - destruct S as [S1 S2 S3]. split; [done| |done]. intros b m' o Hm' Ho. specialize (S2 b m' o Hm' Ho).
      assert (Hck : forall d, chunk_ok h b o d -> chunk_ok h3 b o d) by (intros d; by apply chunk_ok_eq).
      destruct S2 as [? ? ? GF GE ? ? ?]. split; try done; intros d Hd; [destruct (GF d Hd)|destruct (GE d Hd)]; split; auto.
    - apply (pages_frame rn h); try done.
      + intros b m' Hm'. eauto.
      + intros b x Hx. destruct (Hv b PCN_CLASS x) as [E1 E2]; [by eapply po_live|]. split; [done|]. apply E2. by eapply Hnn.
      + intros b x Hx. change (live h b PCN_CLASS x). by eapply po_live.
      + intros b x Hx. change (run_frames (pcn_view h x) ⊆ owned (vspace h)). by eapply po_owned.
      + intros b o d Hd. left. by exists b, o. }
  destruct (pages_insert rn h3 a m pcn Hk3 Hm Hl Hn) as (rn' & Hk' & Hcm & Hlv & Hmem).
  - destruct (Hv _ _ _ Hl) as [-> _]. done.
  - rewrite Ep3. split; [done|]. cbn. lia.
  - rewrite Ep3. exact Hfo.
  - intros b x Hx. rewrite Ep3. destruct (Hv b PCN_CLASS x) as [_ E2]; [by eapply po_live|]. rewrite E2 by (by eapply Hnn). rewrite Ev0.
    pose proof (po_owned _ _ P0 b x Hx). unfold run_frames at 2. cbn. set_solver.
  - intros b o c Hc. rewrite Ep3. pose proof (co_frames _ _ _ _ (in_group_chunk _ _ _ _ _ S0 (Hg0 _ _ _ Hc))). unfold run_frames. cbn. set_solver.
  - exists rn'. split; [exact Hk'|]. split; [eapply calm_trans; [|exact Hcm]; by split; [|intros; apply option_Forall2_refl]|].
    clear Hk' Hcm. revert Hlv. match goal with |- context [set_page_tree a ?t h3] => generalize t end. intros t Hlv b q k. unfold allocated. setoid_rewrite Hlv. setoid_rewrite Hmem.
    change (pcn_view (set_page_tree a t h3)) with (pcn_view h3). split.
    + intros [(o & Hq & Hqn & ->)|(x & [Hx|[-> ->]] & -> & ->)]; [| |right; by rewrite Ep3].
      * left. assert (q <> pcn) by (intros ->; apply Hqn; right; split; [by destruct (live_inj h3 b o a PCN_CLASS pcn (ho_small _ _ Hk3) Hq Hl)|done]).
        split; [|done]. left. exists o. split; [exact Hq|]. split; [tauto|done].
      * left. destruct (Hv b PCN_CLASS x) as [_ E2]; [by eapply po_live|]. rewrite E2 by (by eapply Hnn). split; [right; eauto|].
        by apply (live_not_run rn h a PCN_CLASS pcn b x).
    + intros [[[(o & Hq & Hqn & ->)|(x & Hx & -> & ->)] Hqp]|(-> & -> & ->)].
      * left. exists o. split; [exact Hq|]. split; [tauto|done].
      * right. exists x. split; [by left|]. destruct (Hv b PCN_CLASS x) as [_ E2]; [by eapply po_live|]. by rewrite E2 by (by eapply Hnn).
      * right. exists pcn. split; [by right|]. by rewrite Ep3.
Qed.

Lemma k_alloc_pcn rn root h m :
  heap_ok rn h -> kallocator h (cur h) = Some m ->
  let '(p, h') := _k_alloc root (cur h) sizeof_page_chunk_node h in
  steady h h' /\ heap_ok rn h' /\
  ((p = NULL /\ alloc_fails rn h rn h') \/
   (p <> NULL /\ live h' (cur h) PCN_CLASS p /\ (forall b, p ∉ rn b) /\ views_zero p (slot PCN_CLASS) h' /\
    alloc_succeeds (cur h) p (slot PCN_CLASS) rn h rn h')).
Proof.
  intros Hk Hm. pose proof (k_alloc_effect root (cur h) m sizeof_page_chunk_node h (ho_small _ _ Hk) Hm) as K.
  destruct (_k_alloc root (cur h) sizeof_page_chunk_node h) as [p h']. change (bytes_to_slot sizeof_page_chunk_node) with PCN_CLASS in K.
  split; [apply K|]. destruct (k_alloc_heap rn root (cur h) PCN_CLASS p h h' Hk K) as [Hk' Hr]. split; [done|].
  destruct Hr as [[-> Hr]|(Hp & Hl & Hnl & Hrn & Hz & Hna & Hr)]; [by left|]. right. split_and!; try done.
Qed.

Lemma alloc_fails_trans rn1 h1 rn2 h2 rn3 h3 : alloc_fails rn1 h1 rn2 h2 -> alloc_fails rn2 h2 rn3 h3 -> alloc_fails rn1 h1 rn3 h3.
Proof. intros A B b q k. etransitivity; [apply B|apply A]. Qed.

(** a request for whole pages, no remote free pending *)
Lemma kalloc_pages rn root h m n :
  heap_ok rn h -> kallocator h (cur h) = Some m -> 1 <= n <= MIDDLE_PAGES ->
  let '(pcn, h1) := _k_alloc root (cur h) sizeof_page_chunk_node h in
  let '(res_ptr, h2) := get_pages root n h1 in
  let h3 := set_pcn pcn (mk_pcn res_ptr n) (clear_range res_ptr (n * PAGE_SIZE) h2) in
  let '(p, h') :=
    if pcn =? NULL then (NULL, h1)
    else if res_ptr =? NULL then (NULL, snd (_k_free pcn h2))
    else (res_ptr, set_page_tree (cur h) (page_chunk_rb_tree_insert (pcn_addr h3) RB_FUEL pcn (page_tree (cur h) h3)) h3) in
  exists rn', heap_ok rn' h' /\ calm h h' /\
    ((p = NULL /\ alloc_fails rn h rn' h') \/ alloc_succeeds (cur h) p (n * PAGE_SIZE) rn h rn' h').
Proof.
  intros Hk Hm Hn. pose proof (k_alloc_pcn rn root h m Hk Hm) as A. destruct (_k_alloc root (cur h) sizeof_page_chunk_node h) as [pcn h1].
  destruct A as (St & Hk1 & A). pose proof (get_pages_run root n h1 ltac:(lia)) as G. destruct (get_pages root n h1) as [res h2]. cbv zeta.
  destruct G as [E2 G]. assert (Hc1 : cur h1 = cur h) by apply St. destruct (steady_some _ _ _ _ St Hm) as (m1 & Hm1 & _).
  destruct (Z.eqb_spec pcn NULL) as [->|Hp].
  { exists rn. split; [done|]. split; [by apply steady_calm|]. left. split; [done|]. by destruct A as [[_ A]|[A _]]. }
  destruct A as [[-> _]|(_ & Hl & Hrn & Hz & _ & Hna & Hal)]; [done|].
  assert (Ho2 : owned (vspace h1) ⊆ owned (vspace h2)) by (destruct G as [[_ ->]|(_ & _ & _ & _ & _ & _ & ->)]; set_solver).
  assert (Hk2 : heap_ok rn h2) by (rewrite E2; by apply heap_vspace).
  assert (Hl2 : live h2 (cur h) PCN_CLASS pcn) by (by rewrite E2).
  assert (Hm2 : kallocator h2 (cur h) = Some m1) by (by rewrite E2).
  assert (Cm : calm h h2) by (eapply calm_trans; [by apply steady_calm|]; rewrite E2; apply steady_calm, steady_set_vspace).
  assert (Hal2 : forall b q k, allocated rn h2 b q k <-> allocated rn h b q k \/ (b = cur h /\ q = pcn /\ k = slot PCN_CLASS)).
  { intros b q k. rewrite E2. apply Hal. }
  destruct (Z.eqb_spec res NULL) as [Er|Hr].
  - assert (Hc2 : cur h2 = cur h) by apply Cm.
    pose proof (k_free_effect h2 m1 PCN_CLASS pcn (ho_small _ _ Hk2)) as F. rewrite Hc2 in F. specialize (F Hm2 Hl2).
    destruct (_k_free pcn h2) as [e h3]. destruct F as [_ F]. cbn [snd].
    destruct (k_free_heap rn (cur h) PCN_CLASS pcn h2 h3 Hk2 Hl2 Hrn F) as [Hk3 Ha3].
    exists rn. split; [done|]. split; [eapply calm_trans; [exact Cm|apply steady_calm, F]|]. left. split; [done|].
    intros b q k. rewrite Ha3, Hal2. split; [intros [[?|(? & ? & ?)] ?]; done|]. intros Ha. split; [by left|]. intros ->. by apply (Hna b k).
  - destruct G as [[? _]|(_ & _ & Er & Hr1 & Hr2 & Hfd & Ho)]; [done|].
    destruct (record_run rn h2 (cur h) m1 pcn res n h1) as (rn' & R1 & R2 & R3); try done.
    + destruct (Hz pcn) as [Hz1 _]; [change (slot PCN_CLASS) with 48; lia|]. by rewrite E2.
    + apply Hk1.
    + intros b o q. by rewrite E2.
    + apply Hk1.
    + intros b o c. by rewrite E2.
    + by rewrite E2.
    + rewrite Ho. set_solver.
    + exists rn'. split; [exact R1|]. split; [by eapply calm_trans|]. right. split; [done|]. split.
      * intros b k Ha. assert (Ha2 : allocated rn h1 b res k) by (apply Hal; by left).
        destruct Ha2 as [(o & Hlo & _)|(x & Hx & E & _)].
        -- apply (live_outside h1 b o res res n (ho_small _ _ Hk1) Hlo Hfd Er). unfold PAGE_SIZE. lia.
        -- pose proof (po_owned _ _ (ho_pages _ _ Hk1) b x Hx) as Hox. destruct (po_run _ _ (ho_pages _ _ Hk1) b x Hx) as (_ & _ & _ & Hnx).
           apply (Hfd (kppn res)); [apply elem_frames; lia|]. apply Hox. unfold run_frames. rewrite <- E. apply elem_frames. lia.
      * intros b q k. rewrite R3, Hal2. split; [intros [[[?|(? & ? & ?)] ?]|?]; [by left|done|by right]|].
        intros [Ha|Ha]; [|by right]. left. split; [by left|]. intros ->. by apply (Hna b k).
Qed.

(** the size of the block a request is served with *)
Definition block_size (Bytes : Z) : Z :=
  if slot (MAX_GROUP_SLOTS - 1) <? Bytes then bytes_to_pages Bytes * PAGE_SIZE else slot (bytes_to_slot Bytes).
Lemma block_size_ge Bytes : 0 < Bytes <= MIDDLE_PAGE_SIZE -> Bytes <= block_size Bytes.
Proof.
  intros HB. unfold block_size. destruct (Z.ltb_spec (slot (MAX_GROUP_SLOTS - 1)) Bytes); [by apply bytes_to_pages_spec|].
  by apply bytes_to_slot_spec.
Qed.

Lemma kalloc_effect rn root fuel h Bytes :
  heap_ok rn h -> no_remote h (cur h) ->
  let '(p, h') := kalloc root fuel (cur h) Bytes h in
  exists rn', heap_ok rn' h' /\ calm h h' /\
    ((p = NULL /\ alloc_fails rn h rn' h' /\
      (0 < Bytes <= slot (MAX_GROUP_SLOTS - 1) -> fst (get_pages root PAGE_PER_CHUNK h) = NULL)) \/
     (0 < Bytes <= MIDDLE_PAGE_SIZE /\ alloc_succeeds (cur h) p (block_size Bytes) rn h rn' h')).
Proof.
  intros Hk Hr. unfold kalloc, kalloc_with. pose proof Hr as (m & Hm & _). rewrite Hm.
  destruct ((Bytes <=? 0) || (MIDDLE_PAGE_SIZE <? Bytes)) eqn:Eb.
  { exists rn. split; [done|]. split; [apply calm_refl|]. left. split; [done|]. split; [done|]. intros HB.
    change (slot (MAX_GROUP_SLOTS - 1)) with 2048 in HB. apply orb_true_iff in Eb as [Eb%Z.leb_le|Eb%Z.ltb_lt]; unfold MIDDLE_PAGE_SIZE in *; lia. }
  apply orb_false_elim in Eb as [Eb1%Z.leb_gt Eb2%Z.ltb_ge]. rewrite remote_frees_idle by done. unfold block_size.
  destruct (Z.ltb_spec (slot (MAX_GROUP_SLOTS - 1)) Bytes) as [Hbig|Hsmall].
  - destruct (bytes_to_pages_spec Bytes ltac:(lia)) as [Hn HB].
    pose proof (kalloc_pages rn root h m (bytes_to_pages Bytes) Hk Hm Hn) as A.
    rewrite (u64_small (bytes_to_pages Bytes)) by (unfold MIDDLE_PAGES in Hn; lia).
    destruct (_k_alloc root (cur h) sizeof_page_chunk_node h) as [pcn h1].
    destruct (pcn =? NULL); destruct (get_pages _ _ _) as [res h2]; cbv zeta in A; [|destruct (res =? NULL)];
      destruct A as (rn' & A1 & A2 & A3); exists rn'; (split; [done|]); (split; [done|]);
      (destruct A3 as [[Ez A3]|A3]; [left; split; [exact Ez|]; split; [exact A3|lia]|right; split; [lia|exact A3]]).
  - pose proof (k_alloc_effect root (cur h) m Bytes h (ho_small _ _ Hk) Hm) as K.
    destruct (_k_alloc root (cur h) Bytes h) as [p h']. destruct (k_alloc_heap rn root _ _ p h h' Hk K) as [Hk' R].
    exists rn. split; [done|]. split; [apply steady_calm, K|]. destruct R as [[-> R]|(Hp & _ & _ & _ & _ & Hna & R)].
    + left. split; [done|]. split; [done|]. intros _. by destruct (ka_result _ _ _ _ _ _ K) as [(_ & ? & _)|[? _]].
    + right. split; [lia|]. by split.
Qed.

(** ** [kfree] *)

Lemma owner_lookup_owned (v : V) kva : owned (snd (kmem_radix_kernel_heap_owner_cpu v kva)) = owned v.
Proof.
  unfold kmem_radix_kernel_heap_owner_cpu. destruct (kva <? KERNEL_VIRT_OFFSET); [done|]. destruct (negb _); [done|]. cbv zeta.
  destruct (invalid_ppn _); [done|]. destruct (negb _); [done|]. destruct (vmm_radix_tree_calculate_end_check _ _) as [e|]; [|done].
  pose proof (ledger_lock v (ROUND_DOWN kva PAGE_SIZE) e RADIX_RL_QUERY_OR_CHANGE) as L. destruct (radix_lock _ _ _ _) as [r v1]. cbn [snd] in L.
  destruct (negb _); [done|]. destruct (radix_query_range _ _ _) as [q o].
  pose proof (ledger_unlock v1 (ROUND_DOWN kva PAGE_SIZE) e) as L2. destruct (radix_unlock _ _ _) as [r2 v2]. cbn [snd] in L2.
  destruct (negb _); cbn [snd]; congruence.
Qed.

Lemma page_search rn h a m key :
  heap_ok rn h -> kallocator h a = Some m ->
  let x := page_chunk_rb_tree_search (pcn_addr h) RB_FUEL (page_tree a h) key in
  (x = NULL /\ forall n, n ∈ rn a -> page_addr (pcn_view h n) <> key) \/ (x ∈ rn a /\ page_addr (pcn_view h x) = key /\ x <> NULL).
Proof.
  intros [S P] Hm. cbv zeta. pose proof (po_index _ _ P a m Hm) as Ix. pose proof (page_index_length _ _ _ Ix) as Hf.
  destruct Ix as [(t & Hr & Hrep & Hrb & Hn) Hs]. unfold page_chunk_rb_tree_search. rewrite Hr. rewrite <- Hn in Hs.
  pose proof (rb_depth t Hrb) as Hd. rewrite Hn in Hd. pose proof (search_ok (pcn_addr h) RB_FUEL (page_tree a h) key t NULL ltac:(lia) Hrep Hs) as R.
  rewrite Hn in R. exact R.
Qed.

(** the run of node [x] goes: its frames are back, the node leaves the tree *)
Lemma pages_remove rn h a m x v :
  heap_ok rn h -> kallocator h a = Some m -> x ∈ rn a -> owned v = owned (vspace h) ∖ run_frames (pcn_view h x) ->
  let h1 := set_vspace v h in
  let h' := set_page_tree a (page_chunk_rb_tree_remove RB_FUEL x (page_tree a h1)) h1 in
  exists rn', heap_ok rn' h' /\ calm h h' /\ kallocator h' a <> None /\ (forall b o q, live h' b o q <-> live h b o q) /\
    (forall b n, n ∈ rn' b <-> n ∈ rn b /\ n <> x) /\ pcn_view h' = pcn_view h.
Proof.
  intros Hk Hm Hx Ev. pose proof Hk as [S P]. cbv zeta. pose proof (po_index _ _ P a m Hm) as Ix.
  pose proof (page_index_length _ _ _ Ix) as Hf. pose proof (proj2 Ix) as Hs. apply sorted_NoDup in Hs.
  apply list_elem_of_split in Hx as HLR. destruct HLR as (L & R & EL). rewrite EL in Ix, Hf, Hs.
  destruct (remove_index (pcn_addr h) (page_tree a h) L x R RB_FUEL Ix Hf) as (Ix' & _ & Mo). cbv zeta in Ix', Mo.
  change (page_tree a (set_vspace v h)) with (page_tree a h).
  exists (<[a := L ++ R]> rn). generalize dependent (page_chunk_rb_tree_remove RB_FUEL x (page_tree a h)). intros t Ix' Mo. set (h' := set_page_tree a t (set_vspace v h)).
  assert (Ek : forall b, kallocator h' b = if decide (a = b) then Some (mk_alloc (allocator_id m) (groups m) (rb_root t) (buffer_size m) (kfree_page_pending m)) else kallocator h b).
  { intros b. unfold h', set_page_tree, set_page_root, alloc_at. cbn. rewrite Hm. done. }
  assert (Hmem : forall b n, n ∈ (<[a := L ++ R]> rn) b <-> n ∈ rn b /\ n <> x).
  { intros b n. rewrite fn_insert_case. destruct (decide (a = b)) as [<-|Hab].
    - rewrite EL. apply NoDup_app in Hs as (_ & Hs1 & Hs2). apply list.NoDup_cons in Hs2 as [Hs2 _]. rewrite !elem_of_app, elem_of_cons.
      split; [|tauto]. intros [Hn|Hn]; (split; [tauto|]); intros ->; [apply (Hs1 x Hn); left|done].
    - split; [|tauto]. intros Hn. split; [done|]. intros ->. apply Hab. by eapply rn_distinct. }
  assert (Hin : forall b o d, in_group h' b o d <-> in_group h b o d).
  { intros b o d. unfold in_group. rewrite Ek. destruct (decide (a = b)) as [<-|Hab]; [|done].
    split; intros (? & m' & Hm' & ?); (split; [done|]); [injection Hm' as <-; eauto|]. replace m' with m in * by congruence. eauto. }
  assert (Hlv : forall b o q, live h' b o q <-> live h b o q) by (intros b o q; unfold live; by setoid_rewrite Hin).
  assert (Hkept : forall b o d, in_group h b o d -> frames (kppn d) 4 ⊆ owned v).
  { intros b o d Hd. rewrite Ev. pose proof (co_frames _ _ _ _ (in_group_chunk _ _ _ _ _ S Hd)). pose proof (po_chunks _ _ P a x b o d Hx Hd). set_solver. }
  split; [|split; [|split; [by rewrite Ek, decide_True|split; [done|split; [exact Hmem|done]]]]].
  2:{ split; [done|]. intros b. rewrite Ek. destruct (decide (a = b)) as [<-|]; [rewrite Hm; by constructor|by apply option_Forall2_refl]. }
  split.
  - destruct S as [S1 S2 S3]. assert (Hk' : forall b m', kallocator h' b = Some m' -> exists m0, kallocator h b = Some m0 /\ allocator_id m' = allocator_id m0 /\ groups m' = groups m0).
    { intros b m'. rewrite Ek. destruct (decide (a = b)) as [<-|]; [intros [= <-]; eauto|eauto]. }
    split.
    + intros b m' Hm'. destruct (Hk' b m' Hm') as (m0 & Hm0 & -> & _). by apply S1.
    + intros b m' o Hm' Ho. destruct (Hk' b m' Hm') as (m0 & Hm0 & _ & ->). specialize (S2 b m0 o Hm0 Ho).
      assert (Hck : forall d, d ∈ members (groups m0 o) -> chunk_ok h b o d -> chunk_ok h' b o d).
      { intros d Hd []. split; try done. apply (Hkept b o). split; [done|]. by exists m0. }
      destruct S2 as [? ? ? GF GE ? ? ?]. split; try done; intros d Hd; [destruct (GF d Hd)|destruct (GE d Hd)];
        (split; [apply Hck; [apply elem_of_app; auto|done]|done]).
    + intros b o b' o' d Hd Hd'. apply (S3 b o b' o' d); by apply Hin.
  - split.
    + intros b m' Hm'. rewrite fn_insert_case. destruct (decide (a = b)) as [<-|Hab].
      * unfold page_tree, alloc_at. rewrite Ek, decide_True by done. cbn. by destruct t.
      * rewrite Ek, decide_False in Hm' by done. apply (page_index_frame (pcn_addr h) _ (page_tree b h)); [by eapply po_index| |].
        -- unfold page_tree, alloc_at. by rewrite Ek, decide_False by done.
        -- intros n Hnb. split; [|done]. apply (Mo n). rewrite <- EL. intros Hna. apply Hab. by eapply rn_distinct.
    + intros b n [Hb _]%Hmem. apply Hlv. by eapply po_live.
    + intros b n [Hb _]%Hmem. by apply (po_run _ _ P b).
    + intros b n [Hb Hnx]%Hmem. change (run_frames (pcn_view h n) ⊆ owned v). rewrite Ev. pose proof (po_owned _ _ P b n Hb).
      pose proof (po_apart _ _ P b a n x Hb Hx Hnx). set_solver.
    + intros b b' n n' [Hb _]%Hmem [Hb' _]%Hmem Hnn. by apply (po_apart _ _ P b b').
    + intros b n b' o c [Hb _]%Hmem Hc%Hin. by apply (po_chunks _ _ P b n b' o).
Qed.

Lemma calm_vspace h v : calm h (set_vspace v h).
Proof. apply steady_calm, steady_set_vspace. Qed.

Lemma run_ppn rn h a x : heap_ok rn h -> x ∈ rn a ->
  let p := page_addr (pcn_view h x) in
  PPN (KERNEL_VIRT_TO_PHY p) = kppn p /\ p <> NULL /\ 0 < page_num (pcn_view h x) <= MIDDLE_PAGES /\ p mod PAGE_SIZE = 0.
Proof.
  intros [_ P] Hx. destruct (po_run _ _ P a x Hx) as (R1 & R2 & R3 & R4). cbv zeta. set (p := page_addr (pcn_view h x)) in *.
  unfold KERNEL_VIRT_TO_PHY, KERNEL_VIRT_OFFSET, PAGE_SIZE, NULL in *. rewrite u64_small by lia. rewrite PPN_small by lia.
  split; [|split; [lia|split; [done|dlia]]]. rewrite R1 at 1. replace (kppn p * 4096 + 18446603336221196288 - 18446603336221196288) with (kppn p * 4096) by lia.
  by rewrite Z.div_mul by lia.
Qed.

(** a whole run goes back, or stays allocated when its pages cannot be released *)
Lemma kfree_page_effect rn h m x :
  heap_ok rn h -> kallocator h (cur h) = Some m -> x ∈ rn (cur h) ->
  let p := page_addr (pcn_view h x) in
  let '(e, h') := kfree_page_local (cur h) p h in
  exists rn', heap_ok rn' h' /\ calm h h' /\
    ((e = REND_SUCCESS /\ forall b q k, allocated rn' h' b q k <-> allocated rn h b q k /\ q <> p) \/
     (e <> REND_SUCCESS /\ e = fst (core_free_pages (vspace h) p (page_num (pcn_view h x))) /\ alloc_fails rn h rn' h')).
Proof.
  intros Hk Hm Hx. cbv zeta. set (p := page_addr (pcn_view h x)). set (n := page_num (pcn_view h x)).
  destruct (run_ppn rn h (cur h) x Hk Hx) as (Ep & Hpn & Hn & _). fold p n in Ep, Hpn, Hn.
  unfold kfree_page_local. rewrite Hm. destruct (Z.eqb_spec p NULL) as [?|_]; [done|].
  destruct (page_search rn h (cur h) m p Hk Hm) as [[_ Hno]|(Hy & Ey & Hy0)]; [by destruct (Hno x Hx)|].
  set (y := page_chunk_rb_tree_search _ _ _ _) in *. clearbody y.
  assert (y = x) as ->.
  { destruct (decide (y = x)) as [|Hne]; [done|]. exfalso. destruct (runs_apart rn h _ y _ x Hk Hy Hx Hne) as [D|D];
      pose proof (run_positive rn h _ _ Hk Hx); pose proof (run_positive rn h _ _ Hk Hy); fold p in D; rewrite Ey in D; lia. }
  destruct (Z.eqb_spec x NULL); [done|]. fold n. unfold MIDDLE_PAGES in Hn. rewrite i32_small by lia. rewrite u64_small by lia.
  unfold free_pages. pose proof (free_pages_effect (vspace h) p n ltac:(lia)) as F. rewrite Ep in F.
  specialize (F (po_owned _ _ (ho_pages _ _ Hk) _ x Hx)). destruct (core_free_pages (vspace h) p n) as [e v]. cbn [fst].
  destruct F as [[-> Ev]|[He Ev]].
  2:{ destruct (Z.eqb_spec e REND_SUCCESS) as [?|_]; [done|]. cbn [negb]. exists rn. split; [apply heap_vspace; [done|by rewrite Ev]|].
      split; [apply calm_vspace|]. by right. }
  rewrite Z.eqb_refl. cbn [negb].
  destruct (pages_remove rn h (cur h) m x v Hk Hm Hx Ev) as (rn' & Hk' & Cm & Hsome & Hlv & Hmem & Epv).
  revert Hk' Cm Hsome Hlv Epv. generalize (set_page_tree (cur h) (page_chunk_rb_tree_remove RB_FUEL x (page_tree (cur h) (set_vspace v h))) (set_vspace v h)).
  intros h1 Hk' Cm Hsome Hlv Epv. assert (Hc1 : cur h1 = cur h) by apply Cm. destruct (kallocator h1 (cur h)) as [m1|] eqn:Hm1; [|done].
  assert (Hlx : live h1 (cur h) PCN_CLASS x) by (apply Hlv; eapply po_live; [apply Hk|done]).
  assert (Hnx : forall b, x ∉ rn' b) by (intros b [_ ?]%Hmem; done).
  pose proof (k_free_effect h1 m1 PCN_CLASS x (ho_small _ _ Hk')) as KF. rewrite Hc1 in KF. specialize (KF Hm1 Hlx).
  destruct (_k_free x h1) as [e2 h2]. destruct KF as [_ KF]. cbn [snd].
  destruct (k_free_heap rn' (cur h) PCN_CLASS x h1 h2 Hk' Hlx Hnx KF) as [Hk2 Ha2].
  exists rn'. split; [done|]. split; [eapply calm_trans; [exact Cm|apply steady_calm, KF]|]. left. split; [done|].
  intros b q k. rewrite Ha2. unfold allocated. setoid_rewrite Hlv. setoid_rewrite Hmem. rewrite Epv. split.
  - intros [[(o & Hq & Hqn & ->)|(z & [Hz Hzx] & -> & ->)] Hqx].
    + split; [left; exists o; split; [done|split; [tauto|done]]|]. intros ->. by apply (live_not_run rn h b o p (cur h) x Hk Hq Hx).
    + split; [right; eauto|]. intros E. destruct (runs_apart rn h b z (cur h) x Hk Hz Hx Hzx) as [D|D];
        pose proof (run_positive rn h _ _ Hk Hx); pose proof (run_positive rn h _ _ Hk Hz); fold p in D; rewrite E in D; lia.
  - intros [[(o & Hq & Hqn & ->)|(z & Hz & -> & ->)] Hqp].
    + assert (q <> x) as Hqx.
      { intros ->. destruct (live_inj h b o (cur h) PCN_CLASS x (ho_small _ _ Hk) Hq) as [-> _]; [eapply po_live; [apply Hk|done]|done]. }
      split; [left; exists o; split; [done|split; [tauto|done]]|done].
    + split; [right; exists z; split; [|done]; split; [done|by intros ->]|].
      apply (live_not_run rn h (cur h) PCN_CLASS x b z Hk); [eapply po_live; [apply Hk|done]|done].
Qed.

Lemma allocated_free_small rn h m o p :
  heap_ok rn h -> kallocator h (cur h) = Some m -> live h (cur h) o p -> p ∉ rn (cur h) ->
  let h' := snd (_k_free p h) in
  heap_ok rn h' /\ calm h h' /\ (forall b q k, allocated rn h' b q k <-> allocated rn h b q k /\ q <> p).
Proof.
  intros Hk Hm Hl Hn. cbv zeta. pose proof (k_free_effect h m o p (ho_small _ _ Hk) Hm Hl) as F. destruct (_k_free p h) as [e h']. cbn [snd].
  destruct F as [_ F]. assert (Hn' : forall b, p ∉ rn b).
  { intros b Hb. destruct (live_inj h b PCN_CLASS (cur h) o p (ho_small _ _ Hk)) as [-> _]; [eapply po_live; [apply Hk|done]|done|done]. }
  destruct (k_free_heap rn (cur h) o p h h' Hk Hl Hn' F) as [A B]. split; [done|]. split; [apply steady_calm, F|done].
Qed.

Lemma land_page p : 0 <= p < 2 ^ 64 -> Z.land p (PAGE_SIZE - 1) = p mod PAGE_SIZE.
Proof. intros Hp. change (PAGE_SIZE - 1) with (Z.ones 12). by rewrite Z.land_ones by lia. Qed.

Lemma live_addr_bounds h a o p : small_ok NULL h -> live h a o p -> 0 < p < 2 ^ 64.
Proof.
  intros S (c & Hc & Hp). pose proof (in_group_chunk _ _ _ _ _ S Hc) as K. destruct (co_addr _ _ _ _ K) as (C1 & C2 & _).
  assert (Hpo : p - sizeof_object_header ∈ objs c o) by (rewrite <- (co_objs _ _ _ _ K); apply elem_of_app; by left).
  pose proof (objs_bounds _ _ _ (proj1 Hc) Hpo) as Bp. pose proof (slot_facts o (proj1 Hc)) as [Sq _].
  unfold stride, sizeof_object_header, KERNEL_VIRT_OFFSET in *. lia.
Qed.

(** [v]: the page source after the owner of the address was looked up *)
Lemma kfree_effect rn root fuel h p n :
  heap_ok rn h -> no_remote h (cur h) -> allocated rn h (cur h) p n ->
  let '(owner, v) := kmem_radix_kernel_heap_owner_cpu (vspace h) p in
  (p mod PAGE_SIZE = 0 -> owner = cur h /\ fst (core_free_pages v p (n / PAGE_SIZE)) <> - E_RENDEZVOS) ->
  let h' := kfree root (Datatypes.S fuel) (cur h) p h in
  exists rn', heap_ok rn' h' /\ calm h h' /\
    ((forall b q k, allocated rn' h' b q k <-> allocated rn h b q k /\ q <> p) \/
     (fst (core_free_pages v p (n / PAGE_SIZE)) <> REND_SUCCESS /\ alloc_fails rn h rn' h')).
Proof.
  intros Hk Hr Ha. pose proof (owner_lookup_owned (vspace h) p) as Ho. destruct (kmem_radix_kernel_heap_owner_cpu (vspace h) p) as [owner v] eqn:El.
  cbn [snd] in Ho. intros Hown. cbv zeta. pose proof Hr as (m & Hm & _). cbn [kfree]. rewrite Hm.
  assert (Hp : 0 < p < 2 ^ 64).
  { destruct Ha as [(o & Hl & _)|(x & Hx & -> & _)]; [exact (live_addr_bounds h (cur h) o p (ho_small _ _ Hk) Hl)|].
    destruct (po_run _ _ (ho_pages _ _ Hk) _ _ Hx) as (R1 & R2 & R3 & R4). unfold PAGE_SIZE, KERNEL_VIRT_OFFSET in *. lia. }
  destruct (Z.eqb_spec p NULL); [unfold NULL in *; lia|]. rewrite remote_frees_idle by done. rewrite land_page by lia.
  destruct (Z.eqb_spec (p mod PAGE_SIZE) 0) as [Hal|Hal]; cbn [negb].
  - destruct (Hown Hal) as [-> He]. rewrite El. destruct (so_alloc _ _ (ho_small _ _ Hk) _ _ Hm) as [_ Hcur].
    destruct (Z.eqb_spec (cur h) INVALID_CPU_ID) as [E|_]; [unfold INVALID_CPU_ID in E; lia|].
    change (cur (set_vspace v h)) with (cur h). rewrite i32_small by lia. rewrite Z.eqb_refl. cbn [negb].
    assert (Hk1 : heap_ok rn (set_vspace v h)) by (apply heap_vspace; [done|by rewrite Ho]).
    set (h1 := set_vspace v h) in *. assert (Hm1 : kallocator h1 (cur h) = Some m) by done.
    destruct Ha as [(o & Hl & Hnr & ->)|(x & Hx & -> & ->)].
    + assert (Hloc : kfree_page_local (cur h) p h1 = (- E_RENDEZVOS, h1)).
      { unfold kfree_page_local. rewrite Hm1. destruct (Z.eqb_spec p NULL); [done|].
        destruct (page_search rn h1 (cur h) m p Hk1 Hm1) as [[-> _]|(Hy & Ey & _)]; [done|]. by apply (live_not_run rn h1 (cur h) o p _ _ Hk1 Hl) in Hy. }
      rewrite Hloc. rewrite Z.eqb_refl. destruct (allocated_free_small rn h1 m o p Hk1 Hm1 Hl Hnr) as (A & B & C).
      exists rn. split; [done|]. split; [eapply calm_trans; [apply (calm_vspace h v)|done]|]. left. exact C.
    + pose proof (kfree_page_effect rn h1 m x Hk1 Hm1 Hx) as F. cbv zeta in F. change (pcn_view h1) with (pcn_view h) in F. change (cur h1) with (cur h) in F.
      change (vspace h1) with v in F. unfold PAGE_SIZE in *. rewrite Z.div_mul in * by lia.
      destruct (kfree_page_local (cur h) (page_addr (pcn_view h x)) h1) as [e h2]. destruct F as (rn' & A & B & C). exists rn'.
      assert (e <> - E_RENDEZVOS) as Hne by (destruct C as [[-> _]|(_ & -> & _)]; done).
      destruct (Z.eqb_spec e (- E_RENDEZVOS)); [done|].
      split; [done|]. split; [eapply calm_trans; [apply (calm_vspace h v)|done]|]. destruct C as [[_ C]|(Hn & -> & C)]; [by left|by right].
  - destruct Ha as [(o & Hl & Hnr & ->)|(x & Hx & -> & _)].
    + destruct (allocated_free_small rn h m o p Hk Hm Hl Hnr) as (A & B & C). exists rn. split_and!; try done. by left.
    + exfalso. apply Hal. by destruct (run_ppn rn h (cur h) x Hk Hx) as (_ & _ & _ & ?).
Qed.
End Heap.

(** * What the heap guarantees *)

(** the state [kinit] gives the groups of a new allocator *)
Definition init_group (id i : Z) : mem_group := mk_group id i 0 0 0 [] [].
Definition init_allocator (id : Z) : mem_allocator := mk_alloc id (init_group id) NULL 0 0.
Definition fresh_heap {V Q : Type} (v : V) (q : Q) (cpu : Z) : kheap V Q :=
  mk_heap _ _ v q cpu (<[cpu := Some (init_allocator cpu)]> (fun _ => None)) (fun _ => mk_chunk 0 0 0 0 0 [] []) (fun _ => 0)
    (fun _ => mk_rb 0 0 NULL NULL) (fun _ => mk_pcn 0 0) (fun _ => mk_info 0 0).

Section Spec.
Context {V Q : Type} {VO : VSpaceOps V} {VL : VSpaceLedger V} {CA : ChunkAligned V} {FQ : FreeQueues Q}.
Notation heap := (kheap V Q).
Implicit Types h : heap.

Lemma fresh_heap_ok (v : V) (q : Q) cpu : 0 <= cpu < 2 ^ 31 -> heap_ok (fun _ => []) (fresh_heap v q cpu) /\ no_remote (fresh_heap v q cpu) cpu.
Proof.
  intros Hc. assert (Hk : forall a m, kallocator (fresh_heap v q cpu) a = Some m -> a = cpu /\ m = init_allocator cpu).
  { intros a m. cbn. rewrite fn_insert_case. destruct (decide (cpu = a)) as [<-|]; [by intros [= <-]|done]. }
  assert (Hno : forall a o c, ~ in_group (fresh_heap v q cpu) a o c).
  { intros a o c (_ & m & Hm & Hin). apply Hk in Hm as [-> ->]. by apply not_elem_of_nil in Hin. }
  split; [split|].
  - split.
    + intros a m Hm. by apply Hk in Hm as [-> ->].
    + intros a m o Hm Ho. apply Hk in Hm as [-> ->]. split; try done; [apply NoDup_nil_2|by intros c Hc'%not_elem_of_nil..].
    + intros a o a' o' c Hin. by apply Hno in Hin.
  - split; try (by intros a n Hn%not_elem_of_nil); try (by intros a b n n' Hn%not_elem_of_nil).
    + intros a m Hm. apply Hk in Hm as [-> ->]. split; [|constructor]. exists Leaf. split_and!; try done.
      * unfold page_tree, alloc_at. cbn. by rewrite fn_insert_same.
      * split; [done|]. exists 0. constructor.
    + by intros a n b o c Hn%not_elem_of_nil.
  - exists (init_allocator cpu). split; [|done]. cbn. by rewrite fn_insert_same.
Qed.

(** C3 (functional): what [kalloc] does.  On a well-formed heap a request of at
    most 2 MB either fails, leaving every allocated block as it was (a small
    request only when four more pages cannot be had), or returns a block of
    the size class, or of the power-of-two number of pages, that holds the
    request; the block was not allocated before, it is the only change to the
    allocated blocks, and it overlaps none of them.  Zero-sized and larger
    requests fail. *)
Theorem kalloc_spec rn root fuel h Bytes :
  heap_ok rn h -> no_remote h (cur h) ->
  let '(p, h') := kalloc root fuel (cur h) Bytes h in
  exists rn', heap_ok rn' h' /\
    ((p = NULL /\ alloc_fails rn h rn' h' /\
      (0 < Bytes <= slot (MAX_GROUP_SLOTS - 1) -> fst (get_pages root PAGE_PER_CHUNK h) = NULL)) \/
     (0 < Bytes <= MIDDLE_PAGE_SIZE /\ Bytes <= block_size Bytes /\ alloc_succeeds (cur h) p (block_size Bytes) rn h rn' h' /\
      forall b q k, allocated rn h b q k -> p + block_size Bytes <= q \/ q + k <= p)).
Proof.
  intros Hk Hr. pose proof (kalloc_effect rn root fuel h Bytes Hk Hr) as A. destruct (kalloc root fuel (cur h) Bytes h) as [p h'].
  destruct A as (rn' & Hk' & _ & [A|[HB A]]); exists rn'; (split; [done|]); [by left|right].
  split; [done|]. split; [by apply block_size_ge|]. split; [done|]. destruct A as (_ & Hna & Ha). intros b q k Hq.
  apply (allocated_apart rn' h' (cur h) p _ b q k Hk'); [apply Ha; by right|apply Ha; by left|]. intros ->. by apply (Hna b k).
Qed.


(** ** Any sequence of calls *)

(** the owner lookup and the page release of the radix tree work for [p] *)
Definition frees_locally (h : heap) (p Bytes : Z) : Prop :=
  p mod PAGE_SIZE = 0 ->
  fst (kmem_radix_kernel_heap_owner_cpu (vspace h) p) = cur h /\
  fst (core_free_pages (snd (kmem_radix_kernel_heap_owner_cpu (vspace h) p)) p (block_size Bytes / PAGE_SIZE)) <> - E_RENDEZVOS.

(** a client of the heap: [bs] are the blocks it was given and their sizes *)
Inductive kstep (root : Z) : heap * gmap Z Z -> heap * gmap Z Z -> Prop :=
| ks_alloc fuel Bytes h bs :
    let p := fst (kalloc root fuel (cur h) Bytes h) in
    kstep root (h, bs) (snd (kalloc root fuel (cur h) Bytes h), if p =? NULL then bs else <[p := Bytes]> bs)
| ks_free fuel p Bytes h bs :
    bs !! p = Some Bytes -> frees_locally h p Bytes ->
    kstep root (h, bs) (kfree root (S fuel) (cur h) p h, delete p bs).

Definition client_ok (s : heap * gmap Z Z) : Prop :=
  no_remote (fst s) (cur (fst s)) /\
  exists rn, heap_ok rn (fst s) /\
    forall p Bytes, snd s !! p = Some Bytes -> Bytes <= block_size Bytes /\ allocated rn (fst s) (cur (fst s)) p (block_size Bytes).

Lemma kstep_ok root s s' : kstep root s s' -> client_ok s -> client_ok s'.
Proof.
  intros [fuel B h bs p|fuel p B h bs Hp Hf] (Hr & rn & Hk & Hb); cbn [fst snd] in *.
  - subst p. pose proof (kalloc_effect rn root fuel h B Hk Hr) as A. destruct (kalloc root fuel (cur h) B h) as [p h']. cbn [fst snd].
    destruct A as (rn' & Hk' & Cm & A). assert (Hc : cur h' = cur h) by apply Cm. rewrite <- Hc in Hr. split; [by eapply calm_no_remote|].
    exists rn'. split; [done|]. cbn [fst snd]. rewrite Hc. intros q k Hq. destruct A as [(-> & A & _)|(HB & Hp & _ & A)].
    + cbn in Hq. destruct (Hb q k Hq) as [? Ha]. split; [done|]. by apply A.
    + destruct (Z.eqb_spec p NULL); [done|]. destruct (decide (p = q)) as [<-|Hne].
      * rewrite lookup_insert_eq in Hq. injection Hq as <-. split; [by apply block_size_ge|]. apply A. by right.
      * rewrite lookup_insert_ne in Hq by done. destruct (Hb q k Hq) as [? Ha]. split; [done|]. apply A. by left.
  - destruct (Hb p B Hp) as [_ Ha]. pose proof (kfree_effect rn root fuel h p _ Hk Hr Ha) as F. unfold frees_locally in Hf.
    destruct (kmem_radix_kernel_heap_owner_cpu (vspace h) p) as [owner v]. cbn [fst snd] in Hf. cbv zeta in F.
    destruct (F Hf) as (rn' & Hk' & Cm & A). assert (Hc : cur (kfree root (S fuel) (cur h) p h) = cur h) by apply Cm.
    rewrite <- Hc in Hr. split; [by eapply calm_no_remote|]. exists rn'. split; [done|]. cbn [fst snd]. rewrite Hc. intros q k Hq.
    apply lookup_delete_Some in Hq as [Hne Hq]. destruct (Hb q k Hq) as [? Ha']. split; [done|].
    destruct A as [A|[_ A]]; apply A; [split; [done|by intros ->]|done].
Qed.

(** C1 (type): from the heap [kinit] sets up, however a client orders its calls
    of [kalloc] and [kfree], the heap stays well formed (chunk headers, object
    lists and counters agree, groups own their chunks alone, the page tree is a
    red-black search tree of the runs, and frames are held once) and the blocks
    the client holds never overlap. *)
Theorem kheap_well_formed (v : V) (q : Q) cpu root h bs :
  0 <= cpu < 2 ^ 31 -> rtc (kstep root) (fresh_heap v q cpu, ∅) (h, bs) ->
  (exists rn, heap_ok rn h) /\
  forall p1 B1 p2 B2, bs !! p1 = Some B1 -> bs !! p2 = Some B2 -> p1 <> p2 -> p1 + B1 <= p2 \/ p2 + B2 <= p1.
Proof.
  intros Hc Hrun. assert (Hok : client_ok (h, bs)).
  { apply (rtc_ind_r (fun s => client_ok s) (fresh_heap v q cpu, ∅)) in Hrun; [done| |].
    - destruct (fresh_heap_ok v q cpu Hc) as [A B]. split; [done|]. exists (fun _ => []). split; [done|]. intros p B' Hp. cbn [snd] in Hp. by rewrite lookup_empty in Hp.
    - intros s s' _ Hs. by apply (kstep_ok root). }
  destruct Hok as (_ & rn & Hk & Hb). cbn [fst snd] in *. split; [by exists rn|]. intros p1 B1 p2 B2 H1 H2 Hne.
  destruct (Hb p1 B1 H1) as [L1 A1]. destruct (Hb p2 B2 H2) as [L2 A2].
  destruct (allocated_apart rn h _ p1 _ _ p2 _ Hk A1 A2 Hne); [left|right]; lia.
Qed.
End Spec.

(** C39 (bounds): the layout of a chunk.  For each of the twelve size classes at
    least two and fewer than 512 objects lie inside the four pages, after the
    chunk header, at 8-byte boundaries and without overlap; the chunk of an
    object is found by rounding its address down; and the payload of an object
    is page-aligned, which [kfree] takes for a page run at first, exactly for
    object 83 of the smallest class. *)
Theorem chunk_layout c o i j :
  chunk_addr c -> class_ok o -> 0 <= i < obj_num o -> 0 <= j < obj_num o ->
  let header k := c + sizeof_mem_chunk + k * (slot o + sizeof_object_header) in
  let payload k := header k + sizeof_object_header in
  2 <= obj_num o < 512 /\ c + sizeof_mem_chunk <= header i /\ payload i + slot o <= c + PAGE_SIZE * PAGE_PER_CHUNK /\
  payload i mod 8 = 0 /\ (i < j -> payload i + slot o <= header j) /\ chunk_of (payload i) = c /\
  (payload i mod PAGE_SIZE = 0 <-> o = 0 /\ i = 83).
Proof.
  intros Hc Ho Hi Hj. cbv zeta. pose proof (obj_num_facts o Ho) as [Hn Hfit]. pose proof (slot_facts o Ho) as [Hs Hs8].
  pose proof Hc as (_ & _ & Hm). unfold stride, sizeof_object_header, sizeof_mem_chunk, CHUNK_SIZE, PAGE_SIZE, PAGE_PER_CHUNK in *.
  split; [done|]. split; [nia|]. split; [nia|]. split.
  { replace (c + 72 + i * (slot o + 40) + 40) with (c + 8 * 14 + i * (slot o + 40)) by lia.
    assert (E : (slot o + 40) mod 8 = 0) by dlia. apply Z.div_exact in E; [|lia]. rewrite E.
    replace (c + 8 * 14 + i * (8 * ((slot o + 40) / 8))) with (c + (14 + i * ((slot o + 40) / 8)) * 8) by ring. rewrite Z.mod_add by lia. dlia. }
  split; [nia|]. split; [apply chunk_of_in; [done|unfold CHUNK_SIZE, PAGE_SIZE, PAGE_PER_CHUNK; nia]|].
  assert (Ec : exists k, c = k * 16384) by (exists (c / 16384); dlia). destruct Ec as [k ->].
  replace ((k * 16384 + 72 + i * (slot o + 40) + 40) mod 4096) with ((112 + i * (slot o + 40)) mod 4096)
    by (replace (k * 16384 + 72 + i * (slot o + 40) + 40) with (112 + i * (slot o + 40) + (k * 4) * 4096) by ring; by rewrite Z.mod_add by lia).
  clear -Hi Ho Hn. rewrite <- (Z2Nat.id i) in * by lia. generalize dependent (Z.to_nat i). intros n Hi. clear i.
  assert (Hchk : forallb (fun o => forallb (fun i => eqb ((112 + i * (slot o + 40)) mod 4096 =? 0) ((o =? 0) && (i =? 83))) (seqZ 0 (obj_num o)))
                   (seqZ 0 12) = true) by (vm_compute; reflexivity).
  assert (Ho' : In o (seqZ 0 12)) by (apply list_elem_of_In, elem_of_seqZ; unfold class_ok, MAX_GROUP_SLOTS in Ho; lia).
  assert (Hi' : In (Z.of_nat n) (seqZ 0 (obj_num o))) by (apply list_elem_of_In, elem_of_seqZ; lia).
  pose proof (proj1 (forallb_forall _ _) (proj1 (forallb_forall _ _) Hchk o Ho') _ Hi') as E0. apply eqb_prop in E0.
  split.
  - intros E. rewrite E in E0. change (0 =? 0) with true in E0. symmetry in E0. bool_hyps. done.
  - intros [-> E]. rewrite E. done.
Qed.

(** * Instances *)

(** the queues of MsQueue, one call at a time: every node lives in one memory,
    each queue has its own head and tail words *)
Record msq_heap := mk_mq { mq_node : Z -> ms_queue_node; mq_queue : Z -> qkind -> option ms_queue }.

Definition mq_run (f : msq_world -> msq_world) (q : msq_heap) (a : Z) (k : qkind) : msq_pc * list Z * msq_heap :=
  match mq_queue q a k with
  | None => (QIdle, [], q)
  | Some mq =>
    let w := run_alone 0 64 (f (mk_world (mq_node q) mq [QIdle] [] [] (fun _ => 0) [])) in
    (default QIdle (head (cpus w)), rev (freed_nodes w),
     mk_mq (node w) (<[a := match k with
                            | BufferMsq => fun k' => match k' with BufferMsq => Some (queue w) | _ => mq_queue q a k' end
                            | KfreePageMsq => fun k' => match k' with KfreePageMsq => Some (queue w) | _ => mq_queue q a k' end
                            end]> (mq_queue q)))
  end.
Definition mq_set (n : Z) (v : ms_queue_node) (q : msq_heap) : msq_heap := mk_mq (<[n := v]> (mq_node q)) (mq_queue q).

#[export] Instance msq_free_queues : FreeQueues msq_heap := {|
  q_present q a k := match mq_queue q a k with Some _ => true | None => false end;
  q_clear q n := mq_set n (mk_node 0 0) q;
  q_ref_init q n := mq_set n (mk_node ref_init (nnext (mq_node q n))) q;
  q_enqueue q a k n := let '(_, freed, q) := mq_run (msq_enqueue 0 n) q a k in (freed, q);
  q_dequeue q a k :=
    let '(r, freed, q) := mq_run (msq_dequeue 0) q a k in
    (match r with DeqDone tp => tp_get_ptr tp | _ => NULL end, freed, q);
  q_put q n :=
    let '(r, dead) := ref_put (nref (mq_node q n)) free_func in
    (if dead then [n] else [], mq_set n (mk_node r (nnext (mq_node q n))) q)
|}.

(** CPUs 0 and 1 with a heap and a buffer queue each *)
Definition dummy (a : Z) : Z := 0xffff900000000000 + a * 0x100.
Definition two_queues : msq_heap :=
  mk_mq (fun _ => mk_node ref_init 0)
    (fun a k => match k with BufferMsq => Some (mk_queue (tp_new (dummy a) 0) (tp_new (dummy a) 0) 0) | KfreePageMsq => None end).
Definition two_cpus : kheap bump msq_heap :=
  set_alloc 1 (init_allocator 1) (fresh_heap bump0 two_queues 0).
Definition on_cpu {V Q} (c : Z) (h : kheap V Q) : kheap V Q :=
  mk_heap _ _ (vspace h) (queues h) c (kallocator h) (chunks h) (hdr_allocator_id h) (rb_view h) (pcn_view h) (info_view h).

(** CPU 0 allocates, CPU 1 frees, CPU 0 drains its queue: the request has left
    the queue and the object is still marked in use *)
Definition remote_1 := kalloc 0 3 0 100 two_cpus.
Definition remote_2 := kfree 0 3 1 (fst remote_1) (on_cpu 1 (snd remote_1)).
Definition remote_3 := kalloc_process_cross_cpu_frees 0 5 (on_cpu 0 remote_2).
Example remote_free_leaks :
  buffer_size (alloc_at remote_2 0) = 1 /\ buffer_size (alloc_at remote_3 0) = 0 /\
  full_obj_list (chunks remote_3 (chunk_of (fst remote_1))) = [fst remote_1 - sizeof_object_header].
Proof. by vm_compute. Qed.

(** an unknown owner: [kfree] releases the object, then runs the page path and
    releases it again; the counter of used objects goes below zero *)
Definition odd_heap : kheap bump msq_heap := snd (kalloc 0 3 0 8 two_cpus).
Definition odd_object : Z := chunk_of (fst (kalloc 0 3 0 8 two_cpus)) + 4096.
Definition odd_taken : kheap bump msq_heap := Nat.iter 255 (fun h => snd (kalloc 0 3 0 8 h)) odd_heap.
Example unknown_owner_frees_twice :
  existsb (Z.eqb (odd_object - sizeof_object_header)) (full_obj_list (chunks odd_taken (chunk_of odd_object))) = true /\
  fst (kmem_radix_kernel_heap_owner_cpu bump0 odd_object) = INVALID_CPU_ID /\
  nr_used_objs (chunks odd_taken (chunk_of odd_object)) = 256 /\
  nr_used_objs (chunks (kfree 0 3 0 odd_object odd_taken) (chunk_of odd_object)) = 254.
Proof. by vm_compute. Qed.

(** * Concrete runs *)

Definition h0 : kheap bump msq_heap := fresh_heap bump0 two_queues 0.
Lemma h0_ok : heap_ok (fun _ => []) h0 /\ no_remote h0 (cur h0).
Proof. by apply fresh_heap_ok. Qed.
Definition call1 : Z * kheap bump msq_heap := kalloc 0 3 0 100 h0.
Definition call2 : Z * kheap bump msq_heap := kalloc 0 3 0 5000 (snd call1).

Lemma bump_lookup (v : bump) p : snd (kmem_radix_kernel_heap_owner_cpu v p) = v.
Proof.
  unfold kmem_radix_kernel_heap_owner_cpu. repeat (case_match; simplify_eq; try done).
Qed.

Lemma kalloc_spec_witness :
  fst call1 <> NULL /\ block_size 100 = 128 /\
  let '(p, h') := kalloc 0 3 (cur h0) 100 h0 in
  exists rn', heap_ok rn' h' /\
    ((p = NULL /\ alloc_fails (fun _ => []) h0 rn' h' /\
      (0 < 100 <= slot (MAX_GROUP_SLOTS - 1) -> fst (get_pages 0 PAGE_PER_CHUNK h0) = NULL)) \/
     (0 < 100 <= MIDDLE_PAGE_SIZE /\ 100 <= block_size 100 /\ alloc_succeeds (cur h0) p (block_size 100) (fun _ => []) h0 rn' h' /\
      forall b q k, allocated (fun _ => []) h0 b q k -> p + block_size 100 <= q \/ q + k <= p)).
Proof.
  split; [vm_compute; discriminate|]. split; [vm_compute; reflexivity|].
  apply (kalloc_spec (fun _ => []) 0 3 h0 100); apply h0_ok.
Defined.


Lemma kheap_well_formed_witness :
  let bs := <[fst call2 := 5000]> (<[fst call1 := 100]> ∅) in
  let h := kfree 0 (S 2) (cur (snd call2)) (fst call1) (snd call2) in
  bs !! fst call1 = Some 100 /\ rtc (kstep 0) (h0, ∅) (h, delete (fst call1) bs) /\
  (exists rn, heap_ok rn h) /\
  forall p1 B1 p2 B2, delete (fst call1) bs !! p1 = Some B1 -> delete (fst call1) bs !! p2 = Some B2 -> p1 <> p2 -> p1 + B1 <= p2 \/ p2 + B2 <= p1.
Proof.
  assert (E1 : (fst call1 =? NULL) = false) by (vm_compute; reflexivity). assert (E2 : (fst call2 =? NULL) = false) by (vm_compute; reflexivity).
  assert (Hc1 : cur (snd call1) = 0) by (vm_compute; reflexivity).
  assert (L : (<[fst call2 := 5000]> (<[fst call1 := 100]> ∅) : gmap Z Z) !! fst call1 = Some 100) by (vm_compute; reflexivity).
  assert (Hm : fst call1 mod PAGE_SIZE <> 0) by (vm_compute; discriminate).
  assert (R : rtc (kstep 0) (h0, ∅) (kfree 0 (S 2) (cur (snd call2)) (fst call1) (snd call2),
                delete (fst call1) (<[fst call2 := 5000]> (<[fst call1 := 100]> ∅)))).
  { pose proof (ks_alloc 0 3 100 h0 ∅) as K1. cbv zeta in K1. change (kalloc 0 3 (cur h0) 100 h0) with call1 in K1. rewrite E1 in K1.
    pose proof (ks_alloc 0 3 5000 (snd call1) (<[fst call1 := 100]> ∅)) as K2. cbv zeta in K2. rewrite Hc1 in K2. fold call2 in K2. rewrite E2 in K2.
    eapply rtc_l; [exact K1|]. eapply rtc_l; [exact K2|]. apply rtc_once. apply (ks_free 0 2 (fst call1) 100); [exact L|]. intros Hz. by destruct Hm. }
  cbv zeta. split; [exact L|]. split; [exact R|]. apply (kheap_well_formed bump0 two_queues 0 0 _ _ ltac:(lia) R).
Defined.

Lemma chunk_layout_witness :
  let c := 0xffff800000010000 in
  let header k := c + sizeof_mem_chunk + k * (slot 0 + sizeof_object_header) in
  let payload k := header k + sizeof_object_header in
  payload 83 = 0xffff800000011000 /\
  2 <= obj_num 0 < 512 /\ c + sizeof_mem_chunk <= header 83 /\ payload 83 + slot 0 <= c + PAGE_SIZE * PAGE_PER_CHUNK /\
  payload 83 mod 8 = 0 /\ (83 < 84 -> payload 83 + slot 0 <= header 84) /\ chunk_of (payload 83) = c /\
  (payload 83 mod PAGE_SIZE = 0 <-> 0 = 0 /\ 83 = 83).
Proof.
  split; [vm_compute; reflexivity|]. apply (chunk_layout 0xffff800000010000 0 83 84).
  - split; [|split]; vm_compute; (reflexivity || discriminate).
  - split; vm_compute; (reflexivity || discriminate).
  - split; vm_compute; (reflexivity || discriminate).
  - split; vm_compute; (reflexivity || discriminate).
Defined.
