(* ===== verification/MsqSeq.v ===== *)
(** * The queue run by one caller at a time

    MsQueue gives the queue operations one memory access at a time.  Components
    that call them as ordinary functions (kernel IPC) use [run_op], one call
    run to its end, and the lemmas of this file: a quiescent queue represents
    a sequence of tagged nodes, an enqueue appends to it, a dequeue takes its
    head, and the counts move by exactly one. *)
From S2P Require Import Prelude TaggedPtr Refcount MsQueue.

(** one operation run alone from a quiescent memory: where the call ended,
    memory, queue words and the nodes whose count reached zero *)
Definition seq_world (nd : Z -> ms_queue_node) (q : ms_queue) : msq_world :=
  mk_world nd q [QIdle] [] [] (fun _ => 0) [].
Definition run_op (f : msq_world -> msq_world) (nd : Z -> ms_queue_node) (q : ms_queue)
  : msq_pc * (Z -> ms_queue_node) * ms_queue * list Z :=
  let w := run_alone 0 64 (f (seq_world nd q)) in
  (default QIdle (head (cpus w)), node w, queue w, rev (freed_nodes w)).

(** ** Representation *)

(** the nodes behind [d], each with the tag of the word that links it *)
Fixpoint seg (nd : Z -> ms_queue_node) (d : Z) (L : list (Z * Z)) : Prop :=
  match L with
  | [] => nnext (nd d) = 0
  | (a, t) :: L' => nnext (nd d) = tp_new a t /\ seg nd a L'
  end.
Fixpoint last_node (d : Z) (L : list (Z * Z)) : Z :=
  match L with [] => d | (a, _) :: L' => last_node a L' end.
Fixpoint last_tag (tt : Z) (L : list (Z * Z)) : Z :=
  match L with [] => tt | (_, t) :: L' => last_tag t L' end.

(** a quiescent queue with dummy [d] holding [L]; [tt] is the tag of its tail,
    the tag of the last node if there is one *)
Record is_queue (nd : Z -> ms_queue_node) (q : ms_queue) (d : Z) (L : list (Z * Z)) (tt : Z) : Prop := {
  iq_head : tp_get_ptr (qhead q) = d;
  iq_tail : qtail q = tp_new (last_node d L) tt;
  iq_step : last_tag tt L = tt;
  iq_tags : Forall (fun t => 0 <= t < 2 ^ 16) (tt :: map snd L);
  iq_seg : seg nd d L;
  iq_addr : Forall node_addr (d :: map fst L);
  iq_dup : NoDup (d :: map fst L);
  iq_ref : Forall (fun a => 0 < nref (nd a) < 2 ^ 61) (d :: map fst L)
}.

(** ** Running one step *)

Lemma run_S n w :
  returned (cpus w !! 0%nat) = false ->
  run_alone 0 (S n) w = run_alone 0 n (deq_step 0 (enq_step 0 w)).
Proof. intros H. cbn [run_alone]. by rewrite H. Qed.

Lemma run_done n w : returned (cpus w !! 0%nat) = true -> run_alone 0 n w = w.
Proof. intros H. destruct n; [done|]. cbn [run_alone]. by rewrite H. Qed.

Lemma seg_ext nd nd' d L :
  seg nd d L -> (forall a, a ∈ d :: map fst L -> nnext (nd' a) = nnext (nd a)) -> seg nd' d L.
Proof.
  revert d. induction L as [|[a t] L IH]; intros d; cbn [seg map fst].
  - intros H E. rewrite E; [done|by left].
  - intros [H1 H2] E. split; [rewrite E; [done|by left]|]. apply IH; [done|]. intros x Hx. apply E. by right.
Qed.

Lemma last_node_in d L : last_node d L ∈ d :: map fst L.
Proof.
  revert d. induction L as [|[a t] L IH]; intros d; cbn [map fst last_node]; [by left|]. right. apply IH.
Qed.

Lemma last_node_app d L a t : last_node d (L ++ [(a, t)]) = a.
Proof. revert d. induction L as [|[b u] L IH]; intros d; [done|]. apply IH. Qed.

Lemma last_tag_app tt L a t : last_tag tt (L ++ [(a, t)]) = t.
Proof. revert tt. induction L as [|[b u] L IH]; intros tt; [done|]. apply IH. Qed.

Lemma seg_last nd d L : seg nd d L -> nnext (nd (last_node d L)) = 0.
Proof. revert d. induction L as [|[a t] L IH]; intros d; [done|]. intros [_ H]. by apply IH. Qed.

Lemma seg_app nd d L a t :
  seg nd d L -> NoDup (d :: map fst L) -> a ∉ d :: map fst L ->
  forall nd', nnext (nd' a) = 0 -> nnext (nd' (last_node d L)) = tp_new a t ->
  (forall x, x ∈ d :: map fst L -> x <> last_node d L -> nnext (nd' x) = nnext (nd x)) ->
  seg nd' d (L ++ [(a, t)]).
Proof.
  intros Hs Hd Ha nd' H0 Hl He. revert d Hs Hd Ha Hl He.
  induction L as [|[b u] L IH]; intros d Hs Hd Ha Hl He; cbn [app seg last_node map fst] in *; [done|].
  destruct Hs as [H1 H2]. apply list.NoDup_cons in Hd as [Hd1 Hd2]. split.
  - rewrite He; [done|by left|]. intros ->. apply Hd1. apply (last_node_in b).
  - apply IH; [done|done| |done|].
    + intros Hi. apply Ha. by right.
    + intros x Hx. apply He. by right.
Qed.

(** ** Steps of a single caller *)

(** what one caller sees: memory, queue words, its place; the ghost part of a
    world is [(links, taken, crefs)] *)
Definition view : Type := (Z -> ms_queue_node) * ms_queue * msq_pc.
Definition ghost : Type := list Z * list Z * (Z -> Z).
Definition world (v : view) (g : ghost) : msq_world :=
  let '(nd, q, p) := v in let '(lk, tk, cr) := g in mk_world nd q [p] lk tk cr [].
Definition one (v v' : view) : Prop :=
  returned (Some (snd v)) = false /\ forall g, exists g', deq_step 0 (enq_step 0 (world v g)) = world v' g'.

Lemma one_run v v' n v1 :
  one v v' -> (forall g, exists g', run_alone 0 n (world v' g) = world v1 g') ->
  forall g, exists g', run_alone 0 (S n) (world v g) = world v1 g'.
Proof.
  intros [Hr H] Hn g. destruct v as [[nd q] p], g as [[lk tk] cr]. cbn [snd] in Hr.
  rewrite run_S by exact Hr. destruct (H (lk, tk, cr)) as [g' E]. rewrite E. apply Hn.
Qed.

Lemma none_run v n : returned (Some (snd v)) = true -> forall g, exists g', run_alone 0 n (world v g) = world v g'.
Proof. intros Hr [[lk tk] cr]. destruct v as [[nd q] p]. exists (lk, tk, cr). by apply run_done. Qed.

Definition with_ref (nd : Z -> ms_queue_node) (a r : Z) : Z -> ms_queue_node := <[a := mk_node r (nnext (nd a))]> nd.
Definition with_next (nd : Z -> ms_queue_node) (a n : Z) : Z -> ms_queue_node := <[a := mk_node (nref (nd a)) n]> nd.

(** a step whose effect is plain computation *)
Ltac one_fields :=
  unfold goto, set_node, set_tail, set_head, set_queue, note_link, note_taken, add_cref, note_freed;
  cbn [node queue cpus links taken crefs freed_nodes qhead qtail append_info_bits nref nnext
       lookup list_lookup insert list_insert fst snd].
Ltac one_simpl :=
  cbn [enq_step cpus lookup list_lookup]; one_fields;
  cbn [deq_step cpus lookup list_lookup]; one_fields;
  unfold node_get, node_put, atomic64_cas; one_fields.
Ltac one_step := split; [reflexivity|]; intros [[lk tk] cr]; unfold world; one_simpl.
Ltac one_done := one_simpl; eexists (_, _, _); reflexivity.

Section OneSteps.
Implicit Types (nd : Z -> ms_queue_node) (q : ms_queue).

Lemma one_EnqStore nd q o : one (nd, q, EnqStore o) (with_next nd (e_new o) 0, q, EnqLoop o).
Proof. one_step. one_done. Qed.

Lemma one_EnqLoop nd q o : tp_get_ptr (qtail q) <> 0 -> one (nd, q, EnqLoop o) (nd, q, EnqGet o (qtail q)).
Proof. intros H. one_step. destruct (Z.eqb_spec (tp_get_ptr (qtail q)) 0); [done|]. one_done. Qed.

Lemma one_EnqGet nd q o tl :
  0 < nref (nd (tp_get_ptr tl)) < 2 ^ 62 ->
  one (nd, q, EnqGet o tl) (with_ref nd (tp_get_ptr tl) (nref (nd (tp_get_ptr tl)) + 1), q, EnqNext o tl).
Proof. intros H. one_step. rewrite get_live by done. one_done. Qed.

Lemma one_EnqNext nd q o tl : one (nd, q, EnqNext o tl) (nd, q, EnqVal o tl (nnext (nd (tp_get_ptr tl)))).
Proof. one_step. one_done. Qed.

Lemma mk_queue_tail q x : x = qtail q -> mk_queue (qhead q) x (append_info_bits q) = q.
Proof. intros ->. by destruct q. Qed.
Lemma mk_queue_head q x : x = qhead q -> mk_queue x (qtail q) (append_info_bits q) = q.
Proof. intros ->. by destruct q. Qed.

Lemma one_EnqVal nd q o n :
  one (nd, q, EnqVal o (qtail q) n)
      (nd, q, if negb (enq_check (append_info_bits q) o (qtail q)) then EnqPut o (qtail q) (Some (- E_REND_AGAIN))
              else if tp_get_ptr n =? 0 then EnqGetNew o (qtail q) n
              else EnqHelp o (qtail q) (tp_new (tp_get_ptr n) (help_tag (append_info_bits q) (e_check o) (qtail q) n))).
Proof.
  one_step. rewrite Z.eqb_refl. rewrite (mk_queue_tail q (qtail q)) by done.
  destruct (enq_check _ _ _); cbn [negb]; [destruct (_ =? _)|]; one_done.
Qed.

Lemma one_EnqGetNew nd q o tl n :
  0 < nref (nd (e_new o)) < 2 ^ 62 ->
  one (nd, q, EnqGetNew o tl n) (with_ref nd (e_new o) (nref (nd (e_new o)) + 1), q, EnqLink o tl n).
Proof. intros H. one_step. rewrite get_live by done. one_done. Qed.

Lemma one_EnqLink nd q o tl n :
  nnext (nd (tp_get_ptr tl)) = n ->
  let tmp := tp_new (e_new o) (enq_tag (append_info_bits q) o tl) in
  one (nd, q, EnqLink o tl n) (with_next nd (tp_get_ptr tl) tmp, q, EnqSwing o tl tmp).
Proof. intros <-. cbv zeta. one_step. rewrite Z.eqb_refl. one_done. Qed.

Lemma one_EnqSwing nd q o tmp :
  one (nd, q, EnqSwing o (qtail q) tmp)
      (nd, mk_queue (qhead q) tmp (append_info_bits q), EnqPut o (qtail q) (Some REND_SUCCESS)).
Proof. one_step. rewrite Z.eqb_refl. one_done. Qed.

Lemma one_EnqPut nd q o tl r :
  1 < nref (nd (tp_get_ptr tl)) < 2 ^ 62 ->
  one (nd, q, EnqPut o tl (Some r)) (with_ref nd (tp_get_ptr tl) (nref (nd (tp_get_ptr tl)) - 1), q, EnqDone r).
Proof. intros H. one_step. rewrite put_live by done. one_done. Qed.

Lemma one_DeqLoop nd q o : tp_get_ptr (qhead q) <> 0 -> one (nd, q, DeqLoop o) (nd, q, DeqGet o (qhead q)).
Proof. intros H. one_step. destruct (Z.eqb_spec (tp_get_ptr (qhead q)) 0); [done|]. one_done. Qed.

Lemma one_DeqGet nd q o hd :
  0 < nref (nd (tp_get_ptr hd)) < 2 ^ 62 ->
  one (nd, q, DeqGet o hd) (with_ref nd (tp_get_ptr hd) (nref (nd (tp_get_ptr hd)) + 1), q, DeqRead1 o hd).
Proof. intros H. one_step. rewrite get_live by done. one_done. Qed.

Lemma one_DeqRead1 nd q o hd :
  one (nd, q, DeqRead1 o hd)
      (nd, q, DeqRead2 o hd (match o with None => qtail q | Some _ => nnext (nd (tp_get_ptr hd)) end)).
Proof. one_step. one_done. Qed.

Lemma one_DeqRead2 nd q o hd :
  one (nd, q, DeqRead2 o hd (match o with None => qtail q | Some _ => nnext (nd (tp_get_ptr hd)) end))
      (nd, q, DeqVal o hd (qtail q) (nnext (nd (tp_get_ptr hd)))).
Proof. destruct o; one_step; one_done. Qed.

Lemma one_DeqVal nd q o tl n :
  one (nd, q, DeqVal o (qhead q) tl n)
      (nd, q, if tp_get_ptr (qhead q) =? tp_get_ptr tl then
                if tp_get_ptr n =? 0 then DeqPut o (qhead q) true
                else DeqHelp o (qhead q) tl (tp_new (tp_get_ptr n) (help_tag (append_info_bits q) o tl n))
              else if negb (deq_check (append_info_bits q) o n) then DeqPut o (qhead q) true
              else if tp_get_ptr n =? 0 then DeqPut o (qhead q) false
              else DeqGetNext o (qhead q) tl n).
Proof.
  one_step. rewrite Z.eqb_refl, (mk_queue_head q (qhead q)) by done.
  repeat (match goal with |- context [if ?b then _ else _] => destruct b end; try one_done).
Qed.

Lemma one_DeqGetNext nd q o hd tl n :
  0 < nref (nd (tp_get_ptr n)) < 2 ^ 62 ->
  one (nd, q, DeqGetNext o hd tl n) (with_ref nd (tp_get_ptr n) (nref (nd (tp_get_ptr n)) + 1), q, DeqSwing o hd tl n).
Proof. intros H. one_step. rewrite get_live by done. one_done. Qed.

Lemma one_DeqSwing nd q o tl n :
  one (nd, q, DeqSwing o (qhead q) tl n)
      (nd, mk_queue (tp_new (tp_get_ptr n) (help_tag (append_info_bits q) o tl n)) (qtail q) (append_info_bits q),
       DeqPutOk o (qhead q) tl n).
Proof. one_step. rewrite Z.eqb_refl. one_done. Qed.

Lemma one_DeqPut nd q o hd :
  1 < nref (nd (tp_get_ptr hd)) < 2 ^ 62 ->
  one (nd, q, DeqPut o hd true) (with_ref nd (tp_get_ptr hd) (nref (nd (tp_get_ptr hd)) - 1), q, DeqDone tp_new_none).
Proof. intros H. one_step. rewrite put_live by done. one_done. Qed.

Lemma one_DeqPutOk nd q o hd tl n :
  1 < nref (nd (tp_get_ptr hd)) < 2 ^ 62 ->
  one (nd, q, DeqPutOk o hd tl n)
      (with_ref nd (tp_get_ptr hd) (nref (nd (tp_get_ptr hd)) - 1), q,
       match o with
       | Some _ => if tp_get_ptr n =? tp_get_ptr tl then DeqRetag o tl n else DeqDone n
       | None => DeqDone n
       end).
Proof.
  intros H. one_step. rewrite put_live by done. one_simpl.
  destruct o; [destruct (_ =? _)|]; one_done.
Qed.

Lemma one_DeqRetag nd q o n :
  one (nd, q, DeqRetag o (qtail q) n)
      (nd, mk_queue (qhead q) (tp_new (tp_get_ptr (qtail q)) (msq_next_tag (append_info_bits q) (tp_get_tag (qtail q)) 0))
             (append_info_bits q), DeqDone n).
Proof. one_step. rewrite Z.eqb_refl. one_done. Qed.
End OneSteps.

(** ** One call *)

Lemma run_op_of f nd q nd' q' p' :
  (exists v, f (seq_world nd q) = world v ([], [], fun _ => 0) /\
     forall g, exists g', run_alone 0 64 (world v g) = world (nd', q', p') g') ->
  run_op f nd q = (p', nd', q', []).
Proof.
  intros (v & E & H). unfold run_op. rewrite E. destruct (H ([], [], fun _ => 0)) as [[[lk tk] cr] ->]. done.
Qed.

(** follow the steps by their equations *)
Ltac one_by L := eapply one_run; [eapply L|].

Section Calls.
Context (nd : Z -> ms_queue_node) (q : ms_queue) (d : Z) (L : list (Z * Z)) (tt : Z).
Hypothesis Q : is_queue nd q d L tt.
Let l := last_node d L.
Let bits := append_info_bits q.

Lemma iq_node a : a ∈ d :: map fst L -> node_addr a /\ 0 < nref (nd a) < 2 ^ 61.
Proof.
  intros H. split; [exact (proj1 (Forall_forall _ _) (iq_addr _ _ _ _ _ Q) a H)|].
  exact (proj1 (Forall_forall _ _) (iq_ref _ _ _ _ _ Q) a H).
Qed.
Lemma iq_last : node_addr l /\ 0 < nref (nd l) < 2 ^ 61.
Proof. apply iq_node, last_node_in. Qed.
Lemma iq_tail_ptr : tp_get_ptr (qtail q) = l.
Proof. rewrite (iq_tail _ _ _ _ _ Q). apply tp_new_get_ptr, iq_last. Qed.
Lemma iq_tail_tag : tp_get_tag (qtail q) = tt.
Proof.
  rewrite (iq_tail _ _ _ _ _ Q), tp_new_get_tag. apply u16_small.
  pose proof (iq_tags _ _ _ _ _ Q) as H. by inversion H.
Qed.

(** memory after [a] is linked behind the last node with tag [t] *)
Definition linked_mem (a t : Z) : Z -> ms_queue_node :=
  let nd1 := with_next nd a 0 in
  let nd2 := with_ref nd1 l (nref (nd1 l) + 1) in
  let nd3 := with_ref nd2 a (nref (nd2 a) + 1) in
  let nd4 := with_next nd3 l (tp_new a t) in
  with_ref nd4 l (nref (nd4 l) - 1).

Lemma linked_mem_at a t x :
  a <> l -> linked_mem a t x =
    if decide (x = a) then mk_node (nref (nd a) + 1) 0
    else if decide (x = l) then mk_node (nref (nd l)) (tp_new a t) else nd x.
Proof.
  intros H. unfold linked_mem, with_ref, with_next. rewrite !fn_insert_case. cbn [nref nnext].
  repeat case_decide; subst; try done; cbn [nref nnext]; try (f_equal; lia).
Qed.

Lemma enqueue_links o :
  e_new o ∉ d :: map fst L -> 0 < nref (nd (e_new o)) < 2 ^ 61 ->
  enq_check bits o (qtail q) = true ->
  let t := enq_tag bits o (qtail q) in
  run_op (goto 0 (EnqStore o)) nd q =
    (EnqDone REND_SUCCESS, linked_mem (e_new o) t, mk_queue (qhead q) (tp_new (e_new o) t) bits, []).
Proof.
  intros Hn Hr Hc t. pose proof iq_last as [[Hcl Hl0] Hrl]. pose proof iq_tail_ptr as Hp.
  assert (Hal : e_new o <> l) by (intros E; apply Hn; rewrite E; apply last_node_in).
  pose proof (seg_last _ _ _ (iq_seg _ _ _ _ _ Q)) as Hnx. fold l in Hnx.
  apply run_op_of. exists (nd, q, EnqStore o). split; [done|].
  one_by one_EnqStore. eapply one_run; [eapply one_EnqLoop; by rewrite Hp|].
  set (nd1 := with_next nd (e_new o) 0).
  assert (E1 : nd1 l = nd l) by (apply fn_insert_other; done).
  eapply one_run; [eapply one_EnqGet; rewrite Hp, E1; lia|]. rewrite Hp.
  set (nd2 := with_ref nd1 l (nref (nd1 l) + 1)).
  assert (E2 : nd2 l = mk_node (nref (nd l) + 1) 0) by (unfold nd2, with_ref; rewrite fn_insert_same, E1; by rewrite Hnx).
  one_by one_EnqNext. rewrite Hp, E2. cbn [nnext]. one_by one_EnqVal.
  fold bits. rewrite Hc. change (tp_get_ptr 0 =? 0) with true. cbn [negb].
  assert (E2a : nd2 (e_new o) = mk_node (nref (nd (e_new o))) 0).
  { unfold nd2, with_ref. rewrite fn_insert_other by done. unfold nd1, with_next. by rewrite fn_insert_same. }
  eapply one_run; [eapply one_EnqGetNew; rewrite E2a; cbn [nref]; lia|].
  set (nd3 := with_ref nd2 (e_new o) (nref (nd2 (e_new o)) + 1)).
  assert (E3 : nd3 l = nd2 l) by (apply fn_insert_other; done).
  eapply one_run; [eapply one_EnqLink; rewrite Hp, E3, E2; done|]. rewrite Hp. fold bits. fold t. one_by one_EnqSwing. fold bits.
  eapply one_run.
  { eapply one_EnqPut. rewrite Hp. unfold with_next. rewrite fn_insert_same, E3, E2. cbn [nref]. lia. }
  rewrite Hp. by apply none_run.
Qed.

Lemma enqueue_refused o :
  enq_check bits o (qtail q) = false ->
  exists nd', run_op (goto 0 (EnqStore o)) nd q = (EnqDone (- E_REND_AGAIN), nd', q, []) /\
    forall x, nd' x = if decide (x = e_new o) then mk_node (nref (nd x)) 0 else nd x.
Proof.
  intros Hc. pose proof iq_last as [[Hcl Hl0] Hrl]. pose proof iq_tail_ptr as Hp.
  set (nd1 := with_next nd (e_new o) 0).
  assert (E1 : nref (nd1 l) = nref (nd l)).
  { unfold nd1, with_next. rewrite fn_insert_case. case_decide as E; [by rewrite E|done]. }
  set (nd2 := with_ref nd1 l (nref (nd1 l) + 1)).
  assert (E2 : nref (nd2 l) = nref (nd l) + 1) by (unfold nd2, with_ref; rewrite fn_insert_same; cbn [nref]; lia).
  exists (with_ref nd2 l (nref (nd2 l) - 1)). split.
  - apply run_op_of. exists (nd, q, EnqStore o). split; [done|].
    one_by one_EnqStore. eapply one_run; [eapply one_EnqLoop; by rewrite Hp|].
    eapply one_run; [eapply one_EnqGet; rewrite Hp; fold nd1; rewrite E1; lia|]. rewrite Hp. fold nd1. fold nd2.
    one_by one_EnqNext. one_by one_EnqVal. fold bits. rewrite Hc. cbn [negb].
    eapply one_run; [eapply one_EnqPut; rewrite Hp, E2; lia|]. rewrite Hp. by apply none_run.
  - intros x. assert (Ex : nd1 x = if decide (x = e_new o) then mk_node (nref (nd x)) 0 else nd x).
    { unfold nd1, with_next. rewrite fn_insert_case. repeat case_decide; congruence. }
    rewrite <- Ex. unfold with_ref at 1. rewrite fn_insert_case. destruct (decide (l = x)) as [<-|Hx].
    + rewrite E2. unfold nd2, with_ref. rewrite fn_insert_same. cbn [nnext].
      replace (nref (nd l) + 1 - 1) with (nref (nd1 l)) by lia. by destruct (nd1 l).
    + unfold nd2, with_ref. by rewrite fn_insert_other.
Qed.

(** memory after a dequeue looked at the dummy and left it *)
Lemma peek_mem : forall x, with_ref (with_ref nd d (nref (nd d) + 1)) d (nref (nd d)) x = nd x.
Proof.
  intros x. unfold with_ref. rewrite !fn_insert_case. case_decide; [|done]. subst x. rewrite decide_True by done.
  cbn [nnext]. by destruct (nd d).
Qed.

Lemma iq_head_ptr : tp_get_ptr (qhead q) = d.
Proof. exact (iq_head _ _ _ _ _ Q). Qed.

(** the common first half of both dequeues *)
Lemma dequeue_enters o v n :
  let nd1 := with_ref nd d (nref (nd d) + 1) in
  (forall g, exists g', run_alone 0 n (world (nd1, q, DeqVal o (qhead q) (qtail q) (nnext (nd d))) g) = world v g') ->
  forall g, exists g', run_alone 0 (4 + n) (world (nd, q, DeqLoop o) g) = world v g'.
Proof.
  intros nd1 H. pose proof (iq_node d ltac:(by left)) as [[Hcd Hd0] Hrd]. pose proof iq_head_ptr as Hh.
  cbn [Nat.add]. eapply one_run; [eapply one_DeqLoop; by rewrite Hh|].
  eapply one_run; [eapply one_DeqGet; rewrite Hh; lia|]. rewrite Hh. fold nd1.
  one_by one_DeqRead1. one_by one_DeqRead2. rewrite Hh.
  replace (nnext (nd1 d)) with (nnext (nd d)) by (unfold nd1, with_ref; by rewrite fn_insert_same). exact H.
Qed.

(** a dequeue that finds nothing to take leaves everything as it was *)
Lemma dequeue_leaves o :
  L = [] \/ (exists a t L', L = (a, t) :: L' /\ deq_check bits o (tp_new a t) = false) ->
  exists nd', run_op (goto 0 (DeqLoop o)) nd q = (DeqDone tp_new_none, nd', q, []) /\ forall x, nd' x = nd x.
Proof.
  intros HL. pose proof (iq_node d ltac:(by left)) as [[Hcd Hd0] Hrd].
  exists (with_ref (with_ref nd d (nref (nd d) + 1)) d (nref (nd d))). split; [|exact peek_mem].
  apply run_op_of. exists (nd, q, DeqLoop o). split; [done|].
  apply (dequeue_enters o _ 60). set (nd1 := with_ref nd d (nref (nd d) + 1)).
  assert (E1 : nref (nd1 d) = nref (nd d) + 1) by (unfold nd1, with_ref; by rewrite fn_insert_same).
  one_by one_DeqVal. fold bits. rewrite iq_head_ptr, iq_tail_ptr.
  match goal with |- forall g, exists g', run_alone 0 _ (world (_, _, ?p) _) = _ =>
    assert (Ep : p = DeqPut o (qhead q) true) end.
  { pose proof (iq_seg _ _ _ _ _ Q) as Hs. pose proof (iq_dup _ _ _ _ _ Q) as Hd. subst l.
    destruct HL as [E|(a & t & L' & E & Hc)]; rewrite E in Hs, Hd |- *; cbn [seg last_node map fst] in *.
    - rewrite Z.eqb_refl, Hs. done.
    - destruct Hs as [Hs _]. rewrite Hs, Hc. apply list.NoDup_cons in Hd as [Hd _].
      destruct (Z.eqb_spec d (last_node a L')) as [E'|]; [|done]. exfalso. apply Hd. rewrite E'. apply last_node_in. }
  rewrite Ep. eapply one_run; [eapply one_DeqPut; rewrite iq_head_ptr, E1; lia|].
  rewrite iq_head_ptr, E1. replace (nref (nd d) + 1 - 1) with (nref (nd d)) by lia. by apply none_run.
Qed.

Lemma dequeue_takes o a t L' :
  L = (a, t) :: L' -> deq_check bits o (tp_new a t) = true ->
  exists nd' h, run_op (goto 0 (DeqLoop o)) nd q =
      (DeqDone (tp_new a t), nd',
       mk_queue (tp_new a h)
         (match o, L' with Some _, [] => tp_new a (msq_next_tag bits tt 0) | _, _ => qtail q end) bits, []) /\
    forall x, nd' x = if decide (x = a) then mk_node (nref (nd a) + 1) (nnext (nd a)) else nd x.
Proof.
  intros HL Hc. pose proof (iq_node d ltac:(by left)) as [[Hcd Hd0] Hrd].
  assert (Hin : a ∈ d :: map fst L) by (rewrite HL; right; by left).
  pose proof (iq_node a Hin) as [[Hca Ha0] Hra].
  pose proof (iq_seg _ _ _ _ _ Q) as Hs. pose proof (iq_dup _ _ _ _ _ Q) as Hd.
  rewrite HL in Hs, Hd. cbn [seg map fst] in Hs, Hd. destruct Hs as [Hs _].
  apply list.NoDup_cons in Hd as [Hd1 Hd2]. apply list.NoDup_cons in Hd2 as [Hd2 _].
  assert (Hda : d <> a) by (intros ->; apply Hd1; by left).
  assert (Hl : l = last_node a L') by (unfold l; by rewrite HL).
  assert (Hdl : (d =? l) = false).
  { apply Z.eqb_neq. intros E. apply Hd1. rewrite E, Hl. apply last_node_in. }
  assert (Hal : (a =? l) = match L' with [] => true | _ => false end).
  { rewrite Hl. destruct L' as [|[b u] L']; [apply Z.eqb_refl|]. apply Z.eqb_neq. intros E. apply Hd2.
    cbn [last_node] in E. rewrite E. apply last_node_in. }
  assert (Hpa : tp_get_ptr (tp_new a t) = a) by by apply tp_new_get_ptr.
  set (nd1 := with_ref nd d (nref (nd d) + 1)).
  assert (E1 : nd1 a = nd a) by by apply fn_insert_other.
  set (nd2 := with_ref nd1 a (nref (nd1 a) + 1)).
  assert (E2 : nref (nd2 d) = nref (nd d) + 1).
  { unfold nd2, with_ref. rewrite fn_insert_other by done. unfold nd1, with_ref. by rewrite fn_insert_same. }
  exists (with_ref nd2 d (nref (nd2 d) - 1)), (help_tag bits o (qtail q) (tp_new a t)). split.
  - apply run_op_of. exists (nd, q, DeqLoop o). split; [done|].
    apply (dequeue_enters o _ 60). fold nd1. rewrite Hs.
    one_by one_DeqVal. fold bits. rewrite iq_head_ptr, iq_tail_ptr, Hdl, Hc, Hpa.
    destruct (Z.eqb_spec a 0); [done|]. cbn [negb].
    eapply one_run; [eapply one_DeqGetNext; rewrite Hpa, E1; lia|]. rewrite Hpa. fold nd2.
    one_by one_DeqSwing. rewrite Hpa. fold bits.
    eapply one_run; [eapply one_DeqPutOk; rewrite iq_head_ptr, E2; lia|].
    rewrite iq_head_ptr, Hpa, iq_tail_ptr, Hal.
    destruct o as [o|]; [|by apply none_run]. destruct L' as [|p L']; [|by apply none_run].
    change (qtail q) with (qtail (mk_queue (tp_new a (help_tag bits (Some o) (qtail q) (tp_new a t))) (qtail q) bits)) at 3.
    one_by one_DeqRetag. cbn [qtail qhead append_info_bits]. rewrite iq_tail_ptr, iq_tail_tag, Hl. cbn [last_node].
    by apply none_run.
  - intros x. unfold with_ref at 1. rewrite fn_insert_case. destruct (decide (d = x)) as [<-|Hx].
    + rewrite decide_False by done. rewrite E2. unfold nd2, with_ref. rewrite fn_insert_other by done.
      unfold nd1, with_ref. rewrite fn_insert_same. cbn [nnext]. replace (nref (nd d) + 1 - 1) with (nref (nd d)) by lia.
      by destruct (nd d).
    + unfold nd2, with_ref. rewrite fn_insert_case, E1. destruct (decide (a = x)) as [<-|Ha].
      * by rewrite decide_True.
      * rewrite decide_False by done. by apply fn_insert_other.
Qed.
End Calls.

(** ** What a call does to the sequence *)

Lemma tp_new_u16 a t : tp_new a (u16 t) = tp_new a t.
Proof.
  unfold tp_new. replace (u16 (u16 t)) with (u16 t); [done|]. symmetry. apply u16_small. apply u16_range.
Qed.

(** a queue depends on the link words of its nodes and on their counts being live *)
Lemma is_queue_frame nd nd' q d L tt :
  is_queue nd q d L tt ->
  (forall a, a ∈ d :: map fst L -> nnext (nd' a) = nnext (nd a) /\ 0 < nref (nd' a) < 2 ^ 61) ->
  is_queue nd' q d L tt.
Proof.
  intros [H1 H2 H3 H4 H5 H6 H7 H8] E. constructor; try done.
  - apply (seg_ext nd); [done|]. intros a Ha. by apply E.
  - apply Forall_forall. intros a Ha. by apply E.
Qed.

(** the appended queue *)
Lemma is_queue_enqueue nd q d L tt a t :
  is_queue nd q d L tt -> node_addr a -> a ∉ d :: map fst L -> 0 < nref (nd a) < 2 ^ 60 ->
  is_queue (linked_mem nd d L a t) (mk_queue (qhead q) (tp_new a t) (append_info_bits q)) d (L ++ [(a, u16 t)]) (u16 t).
Proof.
  intros Q Ha Hn Hr. set (l := last_node d L).
  assert (Hal : a <> l) by (intros E; apply Hn; rewrite E; apply last_node_in).
  pose proof (linked_mem_at nd q d L a t) as Hm. fold l in Hm.
  assert (Hother : forall x, x ∈ d :: map fst L -> x <> a) by (intros x Hx ->; done).
  constructor.
  - exact (iq_head _ _ _ _ _ Q).
  - cbn [qtail]. by rewrite last_node_app, tp_new_u16.
  - by apply last_tag_app.
  - rewrite map_app. pose proof (iq_tags _ _ _ _ _ Q) as H. inversion H; subst. pose proof (u16_range t).
    constructor; [done|]. apply Forall_app. split; [done|]. by constructor.
  - eapply seg_app; [exact (iq_seg _ _ _ _ _ Q)|exact (iq_dup _ _ _ _ _ Q)|done| | |].
    + rewrite Hm by done. by rewrite decide_True.
    + rewrite Hm by done. fold l. rewrite decide_False, decide_True by done. cbn [nnext]. by rewrite tp_new_u16.
    + intros x Hx Hxl. rewrite Hm by done. rewrite decide_False by (by apply Hother). by rewrite decide_False.
  - rewrite map_app. change (Forall node_addr ((d :: map fst L) ++ [a])). apply Forall_app.
    split; [exact (iq_addr _ _ _ _ _ Q)|]. by constructor.
  - rewrite map_app. change (NoDup ((d :: map fst L) ++ [a])).
    apply NoDup_app. split; [exact (iq_dup _ _ _ _ _ Q)|]. split; [|apply NoDup_singleton].
    intros x Hx Hx'. apply list_elem_of_singleton in Hx' as ->. done.
  - rewrite map_app. match goal with |- Forall ?P _ => change (Forall P ((d :: map fst L) ++ [a])) end.
    apply Forall_app. split.
    + apply Forall_forall. intros x Hx. rewrite Hm by done. rewrite decide_False by (by apply Hother).
      pose proof (proj1 (Forall_forall _ _) (iq_ref _ _ _ _ _ Q) x Hx) as H. case_decide; [subst x|]; exact H.
    + constructor; [|done]. rewrite Hm by done. rewrite decide_True by done. cbn [nref]. lia.
Qed.

Lemma check_append_only :
  negb (Z.land MSQ_CHECK_FIELD_APPEND MSQ_CHECK_FIELD_PTR =? 0) = false /\
  negb (Z.land MSQ_CHECK_FIELD_APPEND MSQ_CHECK_FIELD_APPEND =? 0) = true.
Proof. done. Qed.

(** [msq_enqueue_check_tail] on a queue with append bits *)
Lemma enqueue_check_spec nd q d L tt a append_info expect :
  is_queue nd q d L tt -> node_addr a -> a ∉ d :: map fst L -> 0 < nref (nd a) < 2 ^ 60 ->
  let bits := append_info_bits q in bits <> 0 ->
  let ok := Z.land tt (msq_append_info_mask bits) =? Z.land (tp_get_tag expect) (msq_append_info_mask bits) in
  let t := msq_next_tag bits tt append_info in
  exists nd' q', run_op (msq_enqueue_check_tail 0 a append_info expect) nd q =
      (EnqDone (if ok then REND_SUCCESS else - E_REND_AGAIN), nd', q', []) /\
    append_info_bits q' = bits /\
    if ok then is_queue nd' q' d (L ++ [(a, t)]) t /\
      forall x, nd' x = if decide (x = a) then mk_node (nref (nd a) + 1) 0
                        else if decide (x = last_node d L) then mk_node (nref (nd x)) (tp_new a t) else nd x
    else q' = q /\ forall x, nd' x = if decide (x = a) then mk_node (nref (nd x)) 0 else nd x.
Proof.
  intros Q Ha Hn Hr bits Hb ok t. set (o := mk_enq a (Some (append_info, expect))).
  assert (Hal : a <> last_node d L) by (intros E; apply Hn; rewrite E; apply last_node_in).
  assert (Ec : enq_check bits o (qtail q) = ok).
  { unfold enq_check, o. cbn [e_check]. unfold msq_queue_check_tp.
    rewrite (iq_tail_tag nd q d L tt Q). fold bits. unfold ok. rewrite (proj1 check_append_only), (proj2 check_append_only). cbn [andb].
    by destruct (_ =? _). }
  assert (Er : run_op (msq_enqueue_check_tail 0 a append_info expect) nd q = run_op (goto 0 (EnqStore o)) nd q).
  { unfold run_op. assert (E : msq_enqueue_check_tail 0 a append_info expect (seq_world nd q) = goto 0 (EnqStore o) (seq_world nd q)).
    { unfold msq_enqueue_check_tail. change (queue (seq_world nd q)) with q. apply Z.eqb_neq in Hb. fold bits. by rewrite Hb. }
    by rewrite E. }
  rewrite Er. destruct ok.
  - pose proof (enqueue_links nd q d L tt Q o Hn ltac:(cbn [o e_new]; lia) Ec) as H. cbv zeta in H.
    assert (Et : enq_tag (append_info_bits q) o (qtail q) = t).
    { unfold enq_tag, o. cbn [e_check]. by rewrite (iq_tail_tag nd q d L tt Q). }
    rewrite Et in H. eexists _, _. split; [exact H|]. split; [done|]. cbn [o e_new]. split.
    + assert (Hu : u16 t = t) by (apply u16_small, u16_range).
      pose proof (is_queue_enqueue nd q d L tt a t Q Ha Hn Hr) as H'. by rewrite Hu in H'.
    + intros x. rewrite (linked_mem_at nd q) by done. repeat case_decide; subst; done.
  - destruct (enqueue_refused nd q d L tt Q o Ec) as (nd' & H & Hx).
    exists nd', q. done.
Qed.

(** [msq_enqueue] *)
Lemma enqueue_spec nd q d L tt a :
  is_queue nd q d L tt -> node_addr a -> a ∉ d :: map fst L -> 0 < nref (nd a) < 2 ^ 60 ->
  let t := u16 (tt + 1) in
  exists nd' q', run_op (msq_enqueue 0 a) nd q = (EnqDone REND_SUCCESS, nd', q', []) /\
    append_info_bits q' = append_info_bits q /\ is_queue nd' q' d (L ++ [(a, t)]) t /\
    forall x, nd' x = if decide (x = a) then mk_node (nref (nd a) + 1) 0
                      else if decide (x = last_node d L) then mk_node (nref (nd x)) (tp_new a t) else nd x.
Proof.
  intros Q Ha Hn Hr t. assert (Hal : a <> last_node d L) by (intros E; apply Hn; rewrite E; apply last_node_in).
  pose proof (enqueue_links nd q d L tt Q (mk_enq a None) Hn ltac:(cbn [e_new]; lia) eq_refl) as H.
  cbv zeta in H. unfold enq_tag in H. cbn [e_check e_new] in H. rewrite (iq_tail_tag nd q d L tt Q) in H.
  eexists _, _. split; [exact H|]. split; [done|]. split.
  - by apply (is_queue_enqueue nd q d L tt).
  - intros x. rewrite (linked_mem_at nd q) by done. unfold t. rewrite tp_new_u16. repeat case_decide; subst; done.
Qed.

(** [msq_dequeue] and [msq_dequeue_check_head]: [o] is the operation *)
Lemma dequeue_spec nd q d L tt o :
  is_queue nd q d L tt ->
  let bits := append_info_bits q in
  let takes := match L with [] => false | (a, t) :: _ => deq_check bits o (tp_new a t) end in
  exists nd' q', append_info_bits q' = bits /\
    match L with
    | (a, t) :: L' =>
      if takes then
        run_op (goto 0 (DeqLoop o)) nd q = (DeqDone (tp_new a t), nd', q', []) /\
        (0 < nref (nd a) < 2 ^ 60 ->
         is_queue nd' q' a L' (match o, L' with Some _, [] => msq_next_tag bits tt 0 | _, _ => tt end)) /\
        forall x, nd' x = if decide (x = a) then mk_node (nref (nd a) + 1) (nnext (nd a)) else nd x
      else run_op (goto 0 (DeqLoop o)) nd q = (DeqDone tp_new_none, nd', q', []) /\ q' = q /\ forall x, nd' x = nd x
    | [] => run_op (goto 0 (DeqLoop o)) nd q = (DeqDone tp_new_none, nd', q', []) /\ q' = q /\ forall x, nd' x = nd x
    end.
Proof.
  intros Q bits takes. destruct L as [|[a t] L'].
  { destruct (dequeue_leaves nd q d [] tt Q o ltac:(by left)) as (nd' & H & Hx). exists nd', q. done. }
  destruct takes eqn:Et.
  2:{ destruct (dequeue_leaves nd q d _ tt Q o ltac:(right; eauto)) as (nd' & H & Hx). exists nd', q. done. }
  destruct (dequeue_takes nd q d _ tt Q o a t L' eq_refl Et) as (nd' & h & H & Hx).
  eexists nd', _. split; [|split; [exact H|]; split; [|exact Hx]]; [done|]. intros Hr.
  destruct Q as [Q1 Q2 Q3 Q4 Q5 Q6 Q7 Q8]. cbn [map fst snd seg last_node last_tag] in *.
  destruct Q5 as [_ Q5]. apply list.Forall_cons in Q6 as [_ Q6']. apply list.Forall_cons in Q8 as [_ Q8'].
  apply list.NoDup_cons in Q7 as [_ Q7]. apply list.Forall_cons in Q4 as [Q4a Q4b]. apply list.Forall_cons in Q4b as [Q4c Q4d].
  pose proof Q6' as Q6a. apply list.Forall_cons in Q6a as [[Hca Ha0] _].
  assert (Hnx : u16 (msq_next_tag bits tt 0) = msq_next_tag bits tt 0) by (apply u16_small, u16_range).
  constructor; cbn [qhead qtail].
  - by apply tp_new_get_ptr.
  - destruct o, L'; done.
  - destruct o, L' as [|[b u] L']; cbn [last_tag] in *; done.
  - constructor; [|done]. destruct o, L'; try done. apply u16_range.
  - apply (seg_ext nd); [done|]. intros x Hin. rewrite Hx. by case_decide; [subst|].
  - done.
  - done.
  - apply Forall_forall. intros x Hin. rewrite Hx. pose proof (proj1 (Forall_forall _ _) Q8' x Hin) as Hr'.
    case_decide; [subst; cbn [nref]; lia|exact Hr'].
Qed.
