(* ===== verification/IpcState.v ===== *)
(** * State of the IPC core

    Threads, IPC requests and message ports as [ipc.c], [port.c] and the
    accessors of [thread.h] and [port.h] see them: one memory, addressed by
    pointers.  The queues are those of MsQueue, run one call at a time; a
    message or request is its own queue node. *)
From S2P Require Import Prelude ThreadStatus Mm CString Allocator TaggedPtr Refcount MsQueue MsqSeq Message.

(** the IPC fields of [struct Thread_Base] *)
Record Thread_Base := mk_thread {
  t_flags : Z;
  t_status : Z;
  t_refcount : ref_count_t;
  recv_msg_queue : ms_queue;
  send_msg_queue : ms_queue;
  send_pending_msg : Z;
  recv_pending_cnt : Z;
  port_ptr : Z
}.

Record Ipc_Request_t := mk_req { r_node : ms_queue_node; r_thread : Z; queue_ptr : Z }.

Definition IPC_PORT_APPEND_BITS : Z := 2.
Definition IPC_PORT_STATE_EMPTY : Z := 0.
Definition IPC_PORT_STATE_SEND : Z := 1.
Definition IPC_PORT_STATE_RECV : Z := 2.
Definition PORT_NAME_LEN_MAX : Z := 64.

Definition PORT_OPS_LIFE_CLOSED : Z := 0.
Definition PORT_OPS_LIFE_ACTIVE : Z := 1.
Definition PORT_OPS_LIFE_REGISTERED : Z := 2.
Definition PORT_OPS_LIFE_CLOSING : Z := 3.

Inductive port_ops_type := PORT_OPS_LOOKUP | PORT_OPS_SEND | PORT_OPS_RECV | PORT_OPS_REGISTER.

Record Message_Port_t := mk_port {
  thread_queue : ms_queue;
  p_refcount : ref_count_t;
  p_table : Z;
  p_name : cstr;
  service_id : Z;
  ops_life : Z;
  ops_count : Z;
  append_hooks : Z
}.

(** [current_thread] is NULL when the CPU has no task manager;
    [retired]: the calls of [ebr_retire_ref] (object, destructor) in order;
    [thread_frees]: the calls of [free_thread_ref] *)
Record istate (A : Type) := mk_is {
  mem : mstate A;
  msg_next : Z -> Z;
  reqs : gmap Z Ipc_Request_t;
  threads : gmap Z Thread_Base;
  ports : gmap Z Message_Port_t;
  core_tm : Z;
  current_thread : Z;
  idle_thread_ptr : Z;
  retired : list (Z * Z);
  thread_frees : list Z
}.
Arguments mk_is {A}.
Arguments mem {A}.
Arguments msg_next {A}.
Arguments reqs {A}.
Arguments threads {A}.
Arguments ports {A}.
Arguments core_tm {A}.
Arguments current_thread {A}.
Arguments idle_thread_ptr {A}.
Arguments retired {A}.
Arguments thread_frees {A}.

(** function pointers of the destructors *)
Definition FN_free_ipc_request_real : Z := 4128.

Section State.
Context {A : Type}.
Implicit Types st : istate A.

(** ** Field updates *)
Definition set_mem (m : mstate A) st : istate A :=
  mk_is m (msg_next st) (reqs st) (threads st) (ports st) (core_tm st) (current_thread st) (idle_thread_ptr st)
    (retired st) (thread_frees st).
Definition set_msg_next (n : Z -> Z) st : istate A :=
  mk_is (mem st) n (reqs st) (threads st) (ports st) (core_tm st) (current_thread st) (idle_thread_ptr st)
    (retired st) (thread_frees st).
Definition set_reqs (r : gmap Z Ipc_Request_t) st : istate A :=
  mk_is (mem st) (msg_next st) r (threads st) (ports st) (core_tm st) (current_thread st) (idle_thread_ptr st)
    (retired st) (thread_frees st).
Definition set_threads (t : gmap Z Thread_Base) st : istate A :=
  mk_is (mem st) (msg_next st) (reqs st) t (ports st) (core_tm st) (current_thread st) (idle_thread_ptr st)
    (retired st) (thread_frees st).
Definition set_ports (p : gmap Z Message_Port_t) st : istate A :=
  mk_is (mem st) (msg_next st) (reqs st) (threads st) p (core_tm st) (current_thread st) (idle_thread_ptr st)
    (retired st) (thread_frees st).
Definition set_current (t : Z) st : istate A :=
  mk_is (mem st) (msg_next st) (reqs st) (threads st) (ports st) (core_tm st) t (idle_thread_ptr st)
    (retired st) (thread_frees st).
Definition note_retired (a fn : Z) st : istate A :=
  mk_is (mem st) (msg_next st) (reqs st) (threads st) (ports st) (core_tm st) (current_thread st) (idle_thread_ptr st)
    (retired st ++ [(a, fn)]) (thread_frees st).
Definition note_thread_free (t : Z) st : istate A :=
  mk_is (mem st) (msg_next st) (reqs st) (threads st) (ports st) (core_tm st) (current_thread st) (idle_thread_ptr st)
    (retired st) (thread_frees st ++ [t]).
Definition upd_thread (t : Z) (f : Thread_Base -> Thread_Base) st : istate A := set_threads (alter f t (threads st)) st.
Definition upd_req (r : Z) (f : Ipc_Request_t -> Ipc_Request_t) st : istate A := set_reqs (alter f r (reqs st)) st.
Definition upd_port (p : Z) (f : Message_Port_t -> Message_Port_t) st : istate A := set_ports (alter f p (ports st)) st.

(** structures are read through their pointer *)
Definition no_queue : ms_queue := mk_queue 0 0 0.
Definition thread_at st (t : Z) : Thread_Base := default (mk_thread 0 0 0 no_queue no_queue NULL 0 NULL) (threads st !! t).
Definition req_at st (r : Z) : Ipc_Request_t := default (mk_req (mk_node 0 0) NULL NULL) (reqs st !! r).
Definition port_at st (p : Z) : Message_Port_t := default (mk_port no_queue 0 NULL [] 0 0 0 NULL) (ports st !! p).

Definition with_flags (v : Z) (t : Thread_Base) : Thread_Base :=
  mk_thread v (t_status t) (t_refcount t) (recv_msg_queue t) (send_msg_queue t) (send_pending_msg t) (recv_pending_cnt t) (port_ptr t).
Definition with_status (v : Z) (t : Thread_Base) : Thread_Base :=
  mk_thread (t_flags t) v (t_refcount t) (recv_msg_queue t) (send_msg_queue t) (send_pending_msg t) (recv_pending_cnt t) (port_ptr t).
Definition with_trefcount (v : ref_count_t) (t : Thread_Base) : Thread_Base :=
  mk_thread (t_flags t) (t_status t) v (recv_msg_queue t) (send_msg_queue t) (send_pending_msg t) (recv_pending_cnt t) (port_ptr t).
Definition with_recv_queue (q : ms_queue) (t : Thread_Base) : Thread_Base :=
  mk_thread (t_flags t) (t_status t) (t_refcount t) q (send_msg_queue t) (send_pending_msg t) (recv_pending_cnt t) (port_ptr t).
Definition with_send_queue (q : ms_queue) (t : Thread_Base) : Thread_Base :=
  mk_thread (t_flags t) (t_status t) (t_refcount t) (recv_msg_queue t) q (send_pending_msg t) (recv_pending_cnt t) (port_ptr t).
Definition with_pending (v : Z) (t : Thread_Base) : Thread_Base :=
  mk_thread (t_flags t) (t_status t) (t_refcount t) (recv_msg_queue t) (send_msg_queue t) v (recv_pending_cnt t) (port_ptr t).
Definition with_recv_cnt (v : Z) (t : Thread_Base) : Thread_Base :=
  mk_thread (t_flags t) (t_status t) (t_refcount t) (recv_msg_queue t) (send_msg_queue t) (send_pending_msg t) v (port_ptr t).
Definition with_port_ptr (v : Z) (t : Thread_Base) : Thread_Base :=
  mk_thread (t_flags t) (t_status t) (t_refcount t) (recv_msg_queue t) (send_msg_queue t) (send_pending_msg t) (recv_pending_cnt t) v.

(** ** Thread accessors *)

Definition get_cpu_current_thread st : Z := if core_tm st =? NULL then NULL else current_thread st.
Definition set_cpu_current_thread (t : Z) st : istate A := if core_tm st =? NULL then st else set_current t st.

Definition thread_or_flags (t bits : Z) st : istate A :=
  if t =? NULL then st else upd_thread t (fun x => with_flags (Z.lor (t_flags x) bits) x) st.
Definition thread_get_status st (t : Z) : Z :=
  if t =? NULL then thread_status_error else t_status (thread_at st t).
(** the previous status *)
Definition thread_set_status (t status : Z) st : Z * istate A :=
  if t =? NULL then (thread_status_error, st)
  else (t_status (thread_at st t), upd_thread t (with_status status) st).
Definition thread_set_status_with_expect (t expect_status target_status : Z) st : bool * istate A :=
  if t =? NULL then (false, st)
  else
    let '(prev, new) := atomic64_cas (t_status (thread_at st t)) expect_status target_status in
    (prev =? expect_status, upd_thread t (with_status new) st).

(** atomic accesses to [send_pending_msg] and [port_ptr] *)
Definition pending_exchange (t v : Z) st : Z * istate A :=
  (send_pending_msg (thread_at st t), upd_thread t (with_pending v) st).
Definition pending_cas (t old new : Z) st : Z * istate A :=
  let '(prev, v) := atomic64_cas (send_pending_msg (thread_at st t)) old new in (prev, upd_thread t (with_pending v) st).
Definition port_ptr_cas (t old new : Z) st : Z * istate A :=
  let '(prev, v) := atomic64_cas (port_ptr (thread_at st t)) old new in (prev, upd_thread t (with_port_ptr v) st).
Definition recv_cnt_add (t d : Z) st : istate A :=
  upd_thread t (fun x => with_recv_cnt (u64 (recv_pending_cnt x + d)) x) st.

(** ** Reference counts of the structures *)

(** [ref_put(&msg->ms_queue_node.refcount, free_message_ref)] *)
Definition put_msg (m : Z) st : istate A :=
  match msgs (mem st) !! m with
  | None => st
  | Some x =>
    let '(c, zero) := ref_put (msg_refcount x) (Some FN_free_message_ref_real) in
    let st := set_mem (set_msg m (mk_message c (msg_data x) (receiver x)) (mem st)) st in
    if zero then note_retired m FN_free_message_ref_real st else st
  end.
(** [ref_put(&req->ms_queue_node.refcount, free_ipc_request)] *)
Definition put_req (r : Z) st : istate A :=
  match reqs st !! r with
  | None => st
  | Some x =>
    let '(c, zero) := ref_put (nref (r_node x)) (Some FN_free_ipc_request_real) in
    let st := set_reqs (<[r := mk_req (mk_node c (nnext (r_node x))) (r_thread x) (queue_ptr x)]> (reqs st)) st in
    if zero then note_retired r FN_free_ipc_request_real st else st
  end.
(** [ref_put(&thread->refcount, free_thread_ref)] *)
Definition put_thread (t : Z) st : istate A :=
  match threads st !! t with
  | None => st
  | Some x =>
    let '(c, zero) := ref_put (t_refcount x) (Some 0) in
    let st := set_threads (<[t := with_trefcount c x]> (threads st)) st in
    if zero then note_thread_free t st else st
  end.

(** ** Queue calls *)

Definition retire_all (l : list Z) (fn : option Z) st : istate A :=
  match fn with
  | None => st
  | Some fn => fold_left (fun st a => note_retired a fn st) l st
  end.

(** messages as queue nodes, and back *)
Definition msg_nodes st (a : Z) : ms_queue_node :=
  match msgs (mem st) !! a with Some m => mk_node (msg_refcount m) (msg_next st a) | None => mk_node 0 0 end.
Definition store_msg_nodes (nd : Z -> ms_queue_node) st : istate A :=
  let m := mem st in
  set_msg_next (fun a => match msgs m !! a with Some _ => nnext (nd a) | None => msg_next st a end)
    (set_mem (mk_ms (heap m) (datas m)
                (map_imap (fun a x => Some (mk_message (nref (nd a)) (msg_data x) (receiver x))) (msgs m))
                (bufs m) (freed_ptrs m)) st).
(** requests as queue nodes, and back *)
Definition req_nodes st (a : Z) : ms_queue_node :=
  match reqs st !! a with Some r => r_node r | None => mk_node 0 0 end.
Definition store_req_nodes (nd : Z -> ms_queue_node) st : istate A :=
  set_reqs (map_imap (fun a r => Some (mk_req (nd a) (r_thread r) (queue_ptr r))) (reqs st)) st.

(** an operation [f] on a queue of messages; [None] when the call spins *)
Definition on_msgs (f : msq_world -> msq_world) (q : ms_queue) (free_func : option Z) st
  : option (Z * ms_queue * istate A) :=
  let '(p, nd, q, freed) := run_op f (msg_nodes st) q in
  match p with
  | EnqDone r | DeqDone r => Some (r, q, retire_all freed free_func (store_msg_nodes nd st))
  | _ => None
  end.
Definition on_reqs (f : msq_world -> msq_world) (q : ms_queue) (free_func : option Z) st
  : option (Z * ms_queue * istate A) :=
  let '(p, nd, q, freed) := run_op f (req_nodes st) q in
  match p with
  | EnqDone r | DeqDone r => Some (r, q, retire_all freed free_func (store_req_nodes nd st))
  | _ => None
  end.

(** calls on the queues of a thread and of a port *)
Definition send_queue_op (t : Z) (f : msq_world -> msq_world) (free_func : option Z) st : option (Z * istate A) :=
  '(r, q, st) ← on_msgs f (send_msg_queue (thread_at st t)) free_func st;
  Some (r, upd_thread t (with_send_queue q) st).
Definition recv_queue_op (t : Z) (f : msq_world -> msq_world) (free_func : option Z) st : option (Z * istate A) :=
  '(r, q, st) ← on_msgs f (recv_msg_queue (thread_at st t)) free_func st;
  Some (r, upd_thread t (with_recv_queue q) st).
Definition set_thread_queue (q : ms_queue) (p : Message_Port_t) : Message_Port_t :=
  mk_port q (p_refcount p) (p_table p) (p_name p) (service_id p) (ops_life p) (ops_count p) (append_hooks p).
Definition port_queue_op (p : Z) (f : msq_world -> msq_world) (free_func : option Z) st : option (Z * istate A) :=
  '(r, q, st) ← on_reqs f (thread_queue (port_at st p)) free_func st;
  Some (r, upd_port p (set_thread_queue q) st).

(** ** Port fields *)

Definition with_life (v : Z) (p : Message_Port_t) : Message_Port_t :=
  mk_port (thread_queue p) (p_refcount p) (p_table p) (p_name p) (service_id p) v (ops_count p) (append_hooks p).
Definition with_count (v : Z) (p : Message_Port_t) : Message_Port_t :=
  mk_port (thread_queue p) (p_refcount p) (p_table p) (p_name p) (service_id p) (ops_life p) v (append_hooks p).
Definition with_prefcount (v : ref_count_t) (p : Message_Port_t) : Message_Port_t :=
  mk_port (thread_queue p) v (p_table p) (p_name p) (service_id p) (ops_life p) (ops_count p) (append_hooks p).
Definition with_table (v : Z) (p : Message_Port_t) : Message_Port_t :=
  mk_port (thread_queue p) (p_refcount p) v (p_name p) (service_id p) (ops_life p) (ops_count p) (append_hooks p).

Definition port_ops_life_get st (p : Z) : Z := if p =? NULL then PORT_OPS_LIFE_CLOSED else i64 (ops_life (port_at st p)).
Definition port_ops_set_life_with_expect (p expect target : Z) st : bool * istate A :=
  if p =? NULL then (false, st)
  else
    let '(prev, v) := atomic64_cas (ops_life (port_at st p)) (u64 expect) (u64 target) in
    (prev =? u64 expect, upd_port p (with_life v) st).
Definition port_is_registered st (p : Z) : bool := port_ops_life_get st p =? PORT_OPS_LIFE_REGISTERED.
Definition port_ops_count_get st (p : Z) : Z := if p =? NULL then 0 else i64 (ops_count (port_at st p)).
Definition port_ops_count_inc (p : Z) st : istate A :=
  if p =? NULL then st else upd_port p (fun x => with_count (u64 (ops_count x + 1)) x) st.
Definition port_ops_count_dec (p : Z) st : istate A :=
  if p =? NULL then st else upd_port p (fun x => with_count (u64 (ops_count x - 1)) x) st.
Definition ipc_get_queue_state st (p : Z) : Z :=
  Z.land (tp_get_tag (qtail (thread_queue (port_at st p)))) (Z.shiftl 1 IPC_PORT_APPEND_BITS - 1).

(** the hook table of a port; [ops_allow] decides on the state it is called in *)
Record port_append_hooks := mk_hooks {
  append_info_len : Z;
  hook_init : option (Z -> istate A -> Z * istate A);
  hook_fini : option (Z -> istate A -> istate A);
  ops_allow : option (Z -> port_ops_type -> option cstr -> istate A -> Z)
}.
End State.
Arguments port_append_hooks : clear implicits.
