(* ===== verification/Ipc.v ===== *)
(** * Kernel IPC

    [kernel/ipc/ipc.c]: requests, matching and waiting on a port, message
    transfer, send and receive (blocking and trying), system delivery; and the
    section guard [port_ops_begin]/[port_ops_end] of [port.c].  [schedule] is
    whatever other threads do until this one runs again.  [None] is a call
    that has not returned within its fuel. *)
From S2P Require Import Prelude ThreadStatus Mm CString Allocator TaggedPtr Refcount MsQueue MsqSeq Message IpcState.

Definition sizeof_Ipc_Request : Z := 32.

Section Ipc.
Context {A : Type} `{HA : Allocator A}.
Context (hooks : Z -> port_append_hooks A).
Context (schedule : istate A -> istate A).
Implicit Types st : istate A.

(** ** Section guard of a port *)

Definition allows (port : Z) (op : port_ops_type) (lookup_name : option cstr) st : Z :=
  if append_hooks (port_at st port) =? NULL then REND_SUCCESS
  else match ops_allow (hooks (append_hooks (port_at st port))) with
       | None => REND_SUCCESS
       | Some f => f port op lookup_name st
       end.

Definition port_ops_begin (port : Z) (op_type : port_ops_type) st : bool * istate A :=
  if port =? NULL then (false, st)
  else
    match op_type with
    | PORT_OPS_SEND | PORT_OPS_RECV =>
      if negb (port_is_registered st port) then (false, st)
      else if negb (allows port op_type None st =? REND_SUCCESS) then (false, st)
      else
        let st := port_ops_count_inc port st in
        if negb (port_is_registered st port) then (false, port_ops_count_dec port st) else (true, st)
    | _ => (false, st)
    end.
Definition port_ops_end (port : Z) st : istate A :=
  if port =? NULL then st else port_ops_count_dec port st.

(** ** Requests *)

Definition delete_ipc_request (req : Z) st : istate A :=
  if req =? NULL then st
  else
    let t := r_thread (req_at st req) in
    let st := if negb (t =? NULL) then put_thread t st else st in
    set_reqs (delete req (reqs st)) (set_mem (k_free (mem st) req) st).
Definition free_ipc_request_real (refcount : Z) st : Z * istate A :=
  if refcount =? NULL then (- E_IN_PARAM, st) else (REND_SUCCESS, delete_ipc_request refcount st).

(** one deferred destructor, run by the reclaimer *)
Definition run_retired (custom_free : Z -> Z -> mstate A -> Z * mstate A) (a fn : Z) st : istate A :=
  if fn =? FN_free_ipc_request_real then snd (free_ipc_request_real a st)
  else if fn =? FN_free_message_ref_real
  then set_mem (snd (free_message_ref_real custom_free (mem st) a)) st
  else st.

Definition create_ipc_request (thread : Z) st : Z * istate A :=
  let '(req, m) := k_alloc (mem st) sizeof_Ipc_Request in
  let st := set_mem m st in
  if (req =? NULL) || (thread =? NULL) then (NULL, st)
  else
    let st := set_reqs (<[req := mk_req (mk_node ref_init 0) NULL NULL]> (reqs st)) st in
    let '(ok, c) := ref_get_not_zero (t_refcount (thread_at st thread)) in
    let st := upd_thread thread (with_trefcount c) st in
    if negb ok then (NULL, set_reqs (delete req (reqs st)) (set_mem (k_free (mem st) req) st))
    else (req, upd_req req (fun r => mk_req (r_node r) thread (queue_ptr r)) st).

(** ** Matching and waiting *)

(** the request of the first live waiter of the other side, or NULL *)
Fixpoint ipc_port_try_match (port my_ipc_state : Z) (fuel : nat) st : option (Z * istate A) :=
  match fuel with
  | O => None
  | S fuel' =>
    if port =? NULL then Some (NULL, st)
    else
      let target_ipc_state := if my_ipc_state =? IPC_PORT_STATE_SEND then IPC_PORT_STATE_RECV else IPC_PORT_STATE_SEND in
      let target_thread_status :=
        if my_ipc_state =? IPC_PORT_STATE_SEND then thread_status_block_on_receive else thread_status_block_on_send in
      '(dequeued_ptr, st) ← port_queue_op port
         (msq_dequeue_check_head 0 MSQ_CHECK_FIELD_APPEND (tp_new NULL target_ipc_state)) None st;
      if tp_is_none dequeued_ptr then Some (NULL, st)
      else
        let req := tp_get_ptr dequeued_ptr in
        let opposite_thread := r_thread (req_at st req) in
        if negb (thread_get_status st opposite_thread =? target_thread_status) then
          let '(_, st) := port_ptr_cas opposite_thread port NULL st in
          ipc_port_try_match port my_ipc_state fuel' (put_req req st)
        else
          let '(thread_port, st) := port_ptr_cas opposite_thread port NULL st in
          if negb (thread_port =? port) then ipc_port_try_match port my_ipc_state fuel' (put_req req st)
          else Some (req, st)
  end.

Definition ipc_port_enqueue_wait (port my_ipc_state my_thread : Z) st : option (Z * istate A) :=
  if (port =? NULL) || (my_thread =? NULL) then Some (- E_IN_PARAM, st)
  else
    let queue_ipc_state := ipc_get_queue_state st port in
    let expected :=
      if queue_ipc_state =? IPC_PORT_STATE_EMPTY then Some IPC_PORT_STATE_EMPTY
      else if queue_ipc_state =? my_ipc_state then Some my_ipc_state else None in
    match expected with
    | None => Some (- E_REND_AGAIN, st)
    | Some expected_ipc_state =>
      let '(req, st) := create_ipc_request my_thread st in
      if req =? NULL then Some (- E_REND_IPC, st)
      else
        let st := upd_req req (fun r => mk_req (r_node r) (r_thread r) port) st in
        let '(prev, st) := port_ptr_cas my_thread NULL port st in
        if negb (prev =? NULL) then Some (- E_REND_AGAIN, put_req req st)
        else
          '(ret, st) ← port_queue_op port
             (msq_enqueue_check_tail 0 req my_ipc_state (tp_new NULL expected_ipc_state))
             (Some FN_free_ipc_request_real) st;
          let st := if negb (ret =? REND_SUCCESS) then upd_thread my_thread (with_port_ptr NULL) st else st in
          Some (ret, put_req req st)
    end.

(** ** Transfer *)

Definition drop_message_structure (m : Z) st : istate A := set_mem (delete_message_structure (mem st) m) st.

(** the message to send: the pending one, or the head of the send queue *)
Definition take_outgoing (sender : Z) st : option (Z * bool * istate A) :=
  let '(pending, st) := pending_exchange sender NULL st in
  if negb (pending =? NULL) then Some (pending, false, st)
  else
    '(dequeued_ptr, st) ← send_queue_op sender (msq_dequeue 0) (Some FN_free_message_ref_real) st;
    Some (if tp_is_none dequeued_ptr then NULL else tp_get_ptr dequeued_ptr, true, st).

Definition ipc_drop_one_orphan_send_msg (sender : Z) st : option (istate A) :=
  if sender =? NULL then Some st
  else
    '(msg, _, st) ← take_outgoing sender st;
    Some (if msg =? NULL then st else put_msg msg st).

(** the second half of a transfer: [send_msg_ptr] has been taken, a copy is
    filled in and appended to the receiver's queue *)
Definition hand_over (sender receiver send_msg_ptr recv_msg_ptr : Z) st : option (Z * istate A) :=
  let data := match msgs (mem st) !! send_msg_ptr with Some x => msg_data x | None => NULL end in
  let '(e, m) := fill_message_data (mem st) recv_msg_ptr data in
  let st := set_mem m st in
  if negb (e =? REND_SUCCESS)
  then Some (- E_REND_NO_MSG, drop_message_structure recv_msg_ptr (put_msg send_msg_ptr st))
  else
    '(_, st) ← recv_queue_op receiver (msq_enqueue 0 recv_msg_ptr) (Some FN_free_message_ref_real) st;
    let st := recv_cnt_add receiver 1 (put_msg recv_msg_ptr st) in
    if thread_get_status st receiver =? thread_status_exit then
      let '(prev, st) := pending_cas sender NULL send_msg_ptr st in
      if negb (prev =? NULL) then Some (- E_RENDEZVOS, put_msg send_msg_ptr st)
      else Some (- E_REND_AGAIN, st)
    else Some (REND_SUCCESS, put_msg send_msg_ptr st).

Definition ipc_transfer_message (sender receiver : Z) st : option (Z * istate A) :=
  if (sender =? NULL) || (receiver =? NULL) then Some (- E_RENDEZVOS, st)
  else if thread_get_status st receiver =? thread_status_exit then Some (- E_REND_AGAIN, st)
  else
    let '(recv_msg_ptr, m) := create_message_structure (mem st) in
    let st := set_mem m st in
    if recv_msg_ptr =? NULL then Some (- E_RENDEZVOS, st)
    else
      '(send_msg_ptr, from_queue, st) ← take_outgoing sender st;
      if send_msg_ptr =? NULL then Some (- E_REND_NO_MSG, drop_message_structure recv_msg_ptr st)
      else if from_queue && (thread_get_status st sender =? thread_status_exit)
      then Some (- E_REND_NO_MSG, drop_message_structure recv_msg_ptr (put_msg send_msg_ptr st))
      else hand_over sender receiver send_msg_ptr recv_msg_ptr st.

(** ** Send and receive *)

(** the end of a successful or failed match *)
Definition wake (req blocked : Z) st : istate A :=
  snd (thread_set_status_with_expect (r_thread (req_at st req)) blocked thread_status_ready st).
Definition leave (port req : Z) st : istate A := port_ops_end port (put_req req st).

Fixpoint send_loop (port sender receiver_request : Z) (fuel : nat) st : option (Z * istate A) :=
  match fuel with
  | O => None
  | S fuel' =>
    '(receiver_request, st) ←
      (if receiver_request =? NULL then ipc_port_try_match port IPC_PORT_STATE_SEND fuel st
       else Some (receiver_request, st));
    if negb (receiver_request =? NULL) then
      '(r, st) ← ipc_transfer_message sender (r_thread (req_at st receiver_request)) st;
      if r =? REND_SUCCESS
      then Some (REND_SUCCESS, leave port receiver_request (wake receiver_request thread_status_block_on_receive st))
      else if r =? - E_REND_AGAIN then send_loop port sender NULL fuel' (put_req receiver_request st)
      else Some (r, leave port receiver_request st)
    else
      let '(old_status, st) := thread_set_status sender thread_status_block_on_send st in
      '(r, st) ← ipc_port_enqueue_wait port IPC_PORT_STATE_SEND sender st;
      if r =? REND_SUCCESS then
        let st := schedule (port_ops_end port st) in
        let flags := t_flags (thread_at st sender) in
        if negb (Z.land flags THREAD_FLAG_IPC_PORT_CLOSED =? 0) then
          let st := upd_thread sender (with_flags (Z.land (u64 flags) (bnot 64 THREAD_FLAG_IPC_PORT_CLOSED))) st in
          st ← ipc_drop_one_orphan_send_msg sender st;
          Some (- E_REND_PORT_CLOSED, st)
        else Some (REND_SUCCESS, st)
      else
        let '(_, st) := thread_set_status_with_expect sender thread_status_block_on_send old_status st in
        if r =? - E_REND_AGAIN then send_loop port sender receiver_request fuel' st
        else Some (- E_RENDEZVOS, port_ops_end port st)
  end.

Definition send_msg (port : Z) (fuel : nat) st : option (Z * istate A) :=
  if port =? NULL then Some (- E_IN_PARAM, st)
  else
    let sender := get_cpu_current_thread st in
    if sender =? NULL then Some (- E_RENDEZVOS, st)
    else
      let '(ok, st) := port_ops_begin port PORT_OPS_SEND st in
      if negb ok then st ← ipc_drop_one_orphan_send_msg sender st; Some (- E_REND_PORT_CLOSED, st)
      else send_loop port sender NULL fuel st.

Fixpoint recv_loop (port receiver sender_request : Z) (fuel : nat) st : option (Z * istate A) :=
  match fuel with
  | O => None
  | S fuel' =>
    '(sender_request, st) ←
      (if sender_request =? NULL then ipc_port_try_match port IPC_PORT_STATE_RECV fuel st
       else Some (sender_request, st));
    if negb (sender_request =? NULL) then
      '(r, st) ← ipc_transfer_message (r_thread (req_at st sender_request)) receiver st;
      if r =? REND_SUCCESS
      then Some (REND_SUCCESS, leave port sender_request (wake sender_request thread_status_block_on_send st))
      else if r =? - E_REND_NO_MSG then recv_loop port receiver sender_request fuel' st
      else if r =? - E_REND_AGAIN then Some (- E_RENDEZVOS, leave port sender_request st)
      else Some (r, leave port sender_request st)
    else
      let '(old_status, st) := thread_set_status receiver thread_status_block_on_receive st in
      '(r, st) ← ipc_port_enqueue_wait port IPC_PORT_STATE_RECV receiver st;
      if r =? REND_SUCCESS then
        let st := schedule (port_ops_end port st) in
        let flags := t_flags (thread_at st receiver) in
        if negb (Z.land flags THREAD_FLAG_IPC_PORT_CLOSED =? 0) then
          Some (- E_REND_PORT_CLOSED,
                upd_thread receiver (with_flags (Z.land (u64 flags) (bnot 64 THREAD_FLAG_IPC_PORT_CLOSED))) st)
        else Some (REND_SUCCESS, st)
      else
        let '(_, st) := thread_set_status_with_expect receiver thread_status_block_on_receive old_status st in
        if r =? - E_REND_AGAIN then recv_loop port receiver sender_request fuel' st
        else Some (- E_RENDEZVOS, port_ops_end port st)
  end.

Definition recv_msg (port : Z) (fuel : nat) st : option (Z * istate A) :=
  if port =? NULL then Some (- E_IN_PARAM, st)
  else
    let receiver := get_cpu_current_thread st in
    if receiver =? NULL then Some (- E_RENDEZVOS, st)
    else
      let '(ok, st) := port_ops_begin port PORT_OPS_RECV st in
      if negb ok then Some (- E_REND_PORT_CLOSED, st)
      else recv_loop port receiver NULL fuel st.

(** ** Trying variants *)

Fixpoint try_send_loop (port sender receiver_request : Z) (fuel : nat) st : option (Z * istate A) :=
  match fuel with
  | O => None
  | S fuel' =>
    '(receiver_request, st) ←
      (if receiver_request =? NULL then ipc_port_try_match port IPC_PORT_STATE_SEND fuel st
       else Some (receiver_request, st));
    if receiver_request =? NULL then Some (- E_REND_AGAIN, port_ops_end port st)
    else
      '(r, st) ← ipc_transfer_message sender (r_thread (req_at st receiver_request)) st;
      if r =? REND_SUCCESS
      then Some (REND_SUCCESS, leave port receiver_request (wake receiver_request thread_status_block_on_receive st))
      else if r =? - E_REND_AGAIN then try_send_loop port sender NULL fuel' (put_req receiver_request st)
      else Some (r, leave port receiver_request st)
  end.

Definition ipc_try_send_msg (port : Z) (fuel : nat) st : option (Z * istate A) :=
  if port =? NULL then Some (- E_IN_PARAM, st)
  else
    let sender := get_cpu_current_thread st in
    if sender =? NULL then Some (- E_REND_AGAIN, st)
    else
      let '(ok, st) := port_ops_begin port PORT_OPS_SEND st in
      if negb ok then st ← ipc_drop_one_orphan_send_msg sender st; Some (- E_REND_PORT_CLOSED, st)
      else try_send_loop port sender NULL fuel st.

Fixpoint try_recv_loop (port receiver sender_request : Z) (fuel : nat) st : option (Z * istate A) :=
  match fuel with
  | O => None
  | S fuel' =>
    '(sender_request, st) ←
      (if sender_request =? NULL then ipc_port_try_match port IPC_PORT_STATE_RECV fuel st
       else Some (sender_request, st));
    if sender_request =? NULL then Some (- E_REND_AGAIN, port_ops_end port st)
    else
      '(r, st) ← ipc_transfer_message (r_thread (req_at st sender_request)) receiver st;
      if r =? REND_SUCCESS
      then Some (REND_SUCCESS, leave port sender_request (wake sender_request thread_status_block_on_send st))
      else if r =? - E_REND_NO_MSG then try_recv_loop port receiver sender_request fuel' st
      else if r =? - E_REND_AGAIN then Some (- E_RENDEZVOS, leave port sender_request st)
      else Some (r, leave port sender_request st)
  end.

Definition ipc_try_recv_msg (port : Z) (fuel : nat) st : option (Z * istate A) :=
  if port =? NULL then Some (- E_IN_PARAM, st)
  else
    let receiver := get_cpu_current_thread st in
    if receiver =? NULL then Some (- E_REND_AGAIN, st)
    else
      let '(ok, st) := port_ops_begin port PORT_OPS_RECV st in
      if negb ok then Some (- E_REND_PORT_CLOSED, st)
      else try_recv_loop port receiver NULL fuel st.

(** ** The caller's own queues *)

(** both counts the senders test before a message is queued *)
Definition message_is_live (msg : Z) st : bool :=
  match msgs (mem st) !! msg with
  | None => false
  | Some x =>
    negb (ref_count (msg_refcount x) =? 0) &&
    negb (negb (msg_data x =? NULL) &&
          match datas (mem st) !! msg_data x with Some d => ref_count (md_refcount d) =? 0 | None => true end)
  end.

Definition enqueue_msg_for_send (msg : Z) st : option (Z * istate A) :=
  if msg =? NULL then Some (- E_IN_PARAM, st)
  else
    let self := get_cpu_current_thread st in
    if self =? NULL then Some (- E_REND_AGAIN, st)
    else if negb (message_is_live msg st) then Some (- E_REND_IPC, st)
    else
      '(_, st) ← send_queue_op self (msq_enqueue 0 msg) (Some FN_free_message_ref_real) st;
      Some (REND_SUCCESS, put_msg msg st).

Definition dequeue_recv_msg st : option (Z * istate A) :=
  let self := get_cpu_current_thread st in
  if self =? NULL then Some (NULL, st)
  else
    '(dp, st) ← recv_queue_op self (msq_dequeue 0) None st;
    if tp_is_none dp then Some (NULL, st) else Some (tp_get_ptr dp, recv_cnt_add self (-1) st).

(** ** Messages sent by the system *)

Definition drop_pending (sender : Z) st : istate A :=
  let '(pending, st) := pending_exchange sender NULL st in
  if negb (pending =? NULL) then put_msg pending st else st.

Definition ipc_system_try_deliver (port msg : Z) (use_system_proxy : bool) (fuel : nat) st : option (Z * istate A) :=
  let curr := get_cpu_current_thread st in
  let proxy := idle_thread_ptr st in
  let sender := if use_system_proxy then proxy else curr in
  if (port =? NULL) || (msg =? NULL) then Some (- E_IN_PARAM, st)
  else if negb (message_is_live msg st) then Some (- E_REND_IPC, st)
  else if sender =? NULL then Some (- E_REND_AGAIN, st)
  else if use_system_proxy && (core_tm st =? NULL) then Some (- E_IN_PARAM, st)
  else
    let '(prev, st) := pending_cas sender NULL msg st in
    if negb (prev =? NULL) then Some (- E_REND_IPC, st)
    else
      let st := if use_system_proxy then set_cpu_current_thread proxy st else st in
      '(err, st) ← ipc_try_send_msg port fuel st;
      let st := if use_system_proxy then set_cpu_current_thread curr st else st in
      Some (err, if negb (err =? REND_SUCCESS) then drop_pending sender st else st).

Definition ipc_system_deliver_to (receiver msg : Z) (use_system_proxy : bool) st : option (Z * istate A) :=
  if (receiver =? NULL) || (msg =? NULL) then Some (- E_IN_PARAM, st)
  else if negb (message_is_live msg st) then Some (- E_REND_IPC, st)
  else
    let sender := if use_system_proxy then idle_thread_ptr st else get_cpu_current_thread st in
    if sender =? NULL then Some (- E_REND_AGAIN, st)
    else
      let '(prev, st) := pending_cas sender NULL msg st in
      if negb (prev =? NULL) then Some (- E_REND_IPC, st)
      else
        '(err, st) ← ipc_transfer_message sender receiver st;
        Some (err, if negb (err =? REND_SUCCESS) then drop_pending sender st else st).
End Ipc.
