(* ===== verification/IpcSpec.v ===== *)
(** * What kernel IPC guarantees

    Specifications of Ipc over the sequences its queues represent: the
    transfer of a message, matching and waiting on a port, and the rendezvous
    of a sender with a waiting receiver. *)
From S2P Require Import Prelude ThreadStatus Mm CString Allocator TaggedPtr Refcount MsQueue MsqSeq Message IpcState Ipc.

(** ** Reading updated states *)

Section Reading.
Context {A : Type}.
Implicit Types st : istate A.

Lemma thread_at_some st t x : threads st !! t = Some x -> thread_at st t = x.
Proof. intros H. unfold thread_at. by rewrite H. Qed.

Lemma upd_thread_same st t f x : threads st !! t = Some x -> threads (upd_thread t f st) !! t = Some (f x).
Proof. intros H. unfold upd_thread, set_threads. cbn [threads]. by rewrite lookup_alter_eq, H. Qed.

Lemma upd_thread_other st t f t' : t <> t' -> threads (upd_thread t f st) !! t' = threads st !! t'.
Proof. intros H. unfold upd_thread, set_threads. cbn [threads]. by rewrite lookup_alter_ne. Qed.

(** the nodes written back are the nodes read *)
Lemma msg_nodes_store st nd :
  (forall a, msgs (mem st) !! a = None -> nd a = mk_node 0 0) ->
  forall a, msg_nodes (store_msg_nodes nd st) a = nd a.
Proof.
  intros H a. unfold msg_nodes, store_msg_nodes. cbn [mem set_msg_next set_mem msgs msg_next].
  rewrite map_lookup_imap. destruct (msgs (mem st) !! a) as [x|] eqn:E; cbn; [by destruct (nd a)|].
  by rewrite H.
Qed.

Lemma msgs_store st nd a :
  msgs (mem (store_msg_nodes nd st)) !! a =
    (fun x => mk_message (nref (msg_nodes (store_msg_nodes nd st) a)) (msg_data x) (receiver x)) <$> msgs (mem st) !! a.
Proof.
  unfold msg_nodes, store_msg_nodes. cbn [mem set_msg_next set_mem msgs msg_next]. rewrite map_lookup_imap.
  by destruct (msgs (mem st) !! a).
Qed.

Lemma msg_nodes_live st a : 0 < nref (msg_nodes st a) -> exists x, msgs (mem st) !! a = Some x.
Proof. unfold msg_nodes. destruct (msgs (mem st) !! a) as [x|]; [by eauto|]. cbn [nref]. lia. Qed.

Lemma msg_nodes_some st a x : msgs (mem st) !! a = Some x -> msg_nodes st a = mk_node (msg_refcount x) (msg_next st a).
Proof. intros H. unfold msg_nodes. by rewrite H. Qed.

(** the state after a reference to message [m] is dropped *)
Lemma put_msg_effect st m x :
  msgs (mem st) !! m = Some x -> 0 < msg_refcount x < 2 ^ 61 ->
  put_msg m st =
    let st1 := set_mem (set_msg m (mk_message (msg_refcount x - 1) (msg_data x) (receiver x)) (mem st)) st in
    if msg_refcount x =? 1 then note_retired m FN_free_message_ref_real st1 else st1.
Proof.
  intros H Hc. unfold put_msg, ref_put. rewrite H, i64_small, u64_small by lia. by rewrite andb_true_r.
Qed.

Lemma msg_nodes_put st m x a :
  msgs (mem st) !! m = Some x -> 0 < msg_refcount x < 2 ^ 61 ->
  msg_nodes (put_msg m st) a = if decide (a = m) then mk_node (msg_refcount x - 1) (msg_next st m) else msg_nodes st a.
Proof.
  intros H Hc. rewrite (put_msg_effect st m x H Hc). cbv zeta.
  assert (E : forall st1 : istate A, mem st1 = set_msg m (mk_message (msg_refcount x - 1) (msg_data x) (receiver x)) (mem st) ->
    msg_next st1 = msg_next st ->
    msg_nodes st1 a = if decide (a = m) then mk_node (msg_refcount x - 1) (msg_next st m) else msg_nodes st a).
  { intros st1 E1 E2. unfold msg_nodes. rewrite E1, E2. cbn [msgs set_msg]. case_decide as Ha.
    - subst a. by rewrite lookup_insert_eq.
    - by rewrite lookup_insert_ne. }
  destruct (_ =? 1); by apply E.
Qed.
End Reading.

(** the messages of queue [q], in order; [d] is the dummy *)
Definition mq {A} (st : istate A) (q : ms_queue) (d : Z) (L : list (Z * Z)) (tg : Z) : Prop :=
  is_queue (msg_nodes st) q d L tg /\ Forall (fun a => nref (msg_nodes st a) < 2 ^ 60) (d :: map fst L).

(** ** The queues of messages *)

Section MsgQueues.
Context {A : Type}.
Implicit Types st : istate A.

Lemma mq_in st q d L tg a : mq st q d L tg -> a ∈ d :: map fst L -> node_addr a /\ 0 < nref (msg_nodes st a) < 2 ^ 60.
Proof.
  intros [Q H] Ha. destruct (iq_node _ _ _ _ _ Q a Ha) as [H1 H2]. split; [done|].
  pose proof (proj1 (Forall_forall _ _) H a Ha) as H3. cbn in H3. lia.
Qed.

(** a queue is untouched by a change elsewhere *)
Lemma mq_frame st st' q d L tg :
  mq st q d L tg ->
  (forall a, a ∈ d :: map fst L -> nnext (msg_nodes st' a) = nnext (msg_nodes st a) /\ 0 < nref (msg_nodes st' a) < 2 ^ 60) ->
  mq st' q d L tg.
Proof.
  intros [Q H] E. split.
  - apply (is_queue_frame (msg_nodes st)); [done|]. intros a Ha. destruct (E a Ha) as [E1 E2]. split; [done|lia].
  - apply Forall_forall. intros a Ha. by apply E.
Qed.

Lemma on_msgs_enqueue st q d L tg a fn :
  mq st q d L tg -> node_addr a -> a ∉ d :: map fst L -> 0 < nref (msg_nodes st a) < 2 ^ 60 - 1 ->
  exists nd q', on_msgs (msq_enqueue 0 a) q fn st = Some (REND_SUCCESS, q', store_msg_nodes nd st) /\
    mq (store_msg_nodes nd st) q' d (L ++ [(a, u16 (tg + 1))]) (u16 (tg + 1)) /\
    forall x, msg_nodes (store_msg_nodes nd st) x =
      if decide (x = a) then mk_node (nref (msg_nodes st a) + 1) 0
      else if decide (x = last_node d L) then mk_node (nref (msg_nodes st x)) (tp_new a (tg + 1)) else msg_nodes st x.
Proof.
  intros Qm Ha Hn Hc. pose proof Qm as [Q Hb].
  destruct (enqueue_spec _ _ _ _ _ a Q Ha Hn ltac:(lia)) as (nd & q' & E & _ & Q' & Hx).
  rewrite tp_new_u16 in Hx. exists nd, q'. unfold on_msgs. rewrite E. split; [by destruct fn|].
  assert (Hs : forall x, msg_nodes (store_msg_nodes nd st) x = nd x).
  { apply msg_nodes_store. intros x Hnone. rewrite Hx.
    assert (Hz : msg_nodes st x = mk_node 0 0) by (unfold msg_nodes; by rewrite Hnone).
    destruct (decide (x = a)) as [->|]; [rewrite Hz in Hc; cbn in Hc; lia|].
    destruct (decide (x = last_node d L)) as [->|]; [|done].
    destruct (mq_in _ _ _ _ _ _ Qm (last_node_in d L)) as [_ Hl]. rewrite Hz in Hl. cbn in Hl. lia. }
  split; [|intros x; by rewrite Hs, Hx]. split.
  - apply (is_queue_frame nd); [done|]. intros x Hin. rewrite Hs. split; [done|].
    exact (proj1 (Forall_forall _ _) (iq_ref _ _ _ _ _ Q') x Hin).
  - apply Forall_forall. intros x Hin. rewrite Hs, Hx. destruct (decide (x = a)) as [->|Hxa]; [cbn [nref]; lia|].
    assert (Hin' : x ∈ d :: map fst L).
    { rewrite map_app in Hin. change (x ∈ (d :: map fst L) ++ [a]) in Hin.
      apply elem_of_app in Hin as [|Hin]; [done|]. by apply list_elem_of_singleton in Hin. }
    pose proof (mq_in _ _ _ _ _ _ Qm Hin') as [_ Hr]. case_decide; cbn [nref]; lia.
Qed.

Lemma on_msgs_dequeue st q d L tg fn :
  mq st q d L tg ->
  match L with
  | [] => exists nd, on_msgs (msq_dequeue 0) q fn st = Some (tp_new_none, q, store_msg_nodes nd st) /\
      forall x, msg_nodes (store_msg_nodes nd st) x = msg_nodes st x
  | (a, t) :: L' => exists nd q', on_msgs (msq_dequeue 0) q fn st = Some (tp_new a t, q', store_msg_nodes nd st) /\
      is_queue (msg_nodes (store_msg_nodes nd st)) q' a L' tg /\
      forall x, msg_nodes (store_msg_nodes nd st) x =
        if decide (x = a) then mk_node (nref (msg_nodes st a) + 1) (nnext (msg_nodes st a)) else msg_nodes st x
  end.
Proof.
  intros Qm. pose proof Qm as [Q Hb]. pose proof (dequeue_spec _ _ _ _ _ None Q) as H. cbv zeta in H.
  destruct L as [|[a t] L'].
  - destruct H as (nd & q' & _ & E & -> & Hx). exists nd. unfold on_msgs.
    change (msq_dequeue 0) with (goto 0 (DeqLoop None)). rewrite E. split; [by destruct fn|].
    intros x. rewrite msg_nodes_store; [apply Hx|]. intros y Hy. rewrite Hx. unfold msg_nodes. by rewrite Hy.
  - destruct H as (nd & q' & _ & E & Q' & Hx). exists nd, q'. unfold on_msgs.
    change (msq_dequeue 0) with (goto 0 (DeqLoop None)). rewrite E. split; [by destruct fn|].
    assert (Hin : a ∈ d :: map fst ((a, t) :: L')) by (right; by left).
    pose proof (mq_in _ _ _ _ _ _ Qm Hin) as [_ Hr].
    assert (Hs : forall x, msg_nodes (store_msg_nodes nd st) x = nd x).
    { apply msg_nodes_store. intros y Hy. rewrite Hx. case_decide; [subst y|by unfold msg_nodes; rewrite Hy].
      unfold msg_nodes in Hr. rewrite Hy in Hr. cbn in Hr. lia. }
    split; [|intros x; by rewrite Hs, Hx]. specialize (Q' ltac:(lia)).
    apply (is_queue_frame nd); [done|]. intros y Hy. rewrite Hs. split; [done|].
    exact (proj1 (Forall_forall _ _) (iq_ref _ _ _ _ _ Q') y Hy).
Qed.
End MsgQueues.

(** ** Transfer *)

Section Transfer.
Context {A : Type} `{HA : Allocator A}.
Implicit Types st : istate A.

(** everything but the named threads and message nodes is as before *)
Record same_but (T M : Z -> Prop) st st' : Prop := {
  sb_threads : forall t, ~ T t -> threads st' !! t = threads st !! t;
  sb_nodes : forall a, ~ M a -> msgs (mem st') !! a = msgs (mem st) !! a /\ msg_nodes st' a = msg_nodes st a;
  sb_reqs : reqs st' = reqs st;
  sb_ports : ports st' = ports st;
  sb_cpu : core_tm st' = core_tm st /\ current_thread st' = current_thread st /\ idle_thread_ptr st' = idle_thread_ptr st
}.

Lemma same_but_trans T M st1 st2 st3 : same_but T M st1 st2 -> same_but T M st2 st3 -> same_but T M st1 st3.
Proof.
  intros [T1 N1 R1 P1 (C1 & C2 & C3)] [T2 N2 R2 P2 (D1 & D2 & D3)]. constructor.
  - intros t Ht. by rewrite T2, T1.
  - intros a Ha. destruct (N1 a Ha), (N2 a Ha). split; congruence.
  - congruence.
  - congruence.
  - repeat split; congruence.
Qed.

(** [get_data] takes a reference when the payload is alive *)
Lemma get_data_counted (m : mstate A) p d :
  datas m !! p = Some d -> 0 < md_refcount d < 2 ^ 62 ->
  get_data m p = (true, set_data p (mk_msgdata (md_refcount d + 1) (msg_type d) (data_len d) (md_data d) (free_data d)) m).
Proof. intros H Hc. unfold get_data. by rewrite H, get_live. Qed.

Definition with_md_refcount (c : ref_count_t) (d : Msg_Data_t) : Msg_Data_t :=
  mk_msgdata c (msg_type d) (data_len d) (md_data d) (free_data d).

(** the state in which [hand_over] runs *)
Record hand_over_pre st (r m n : Z) (tr : Thread_Base) (x : Message_t) (dd : Msg_Data_t) (dr : Z) (Lr : list (Z * Z)) (tg : Z) : Prop := {
  hp_r : r <> NULL;
  hp_tr : threads st !! r = Some tr;
  hp_status : t_status tr <> thread_status_exit;
  hp_queue : mq st (recv_msg_queue tr) dr Lr tg;
  hp_new : msgs (mem st) !! n = Some (mk_message ref_init NULL NULL);
  hp_new_addr : node_addr n;
  hp_new_out : n ∉ dr :: map fst Lr;
  hp_msg : msgs (mem st) !! m = Some x;
  hp_msg_ne : m <> n;
  hp_msg_out : m ∉ dr :: map fst Lr;
  hp_msg_count : 0 < msg_refcount x < 2 ^ 60;
  hp_data : msg_data x <> NULL;
  hp_dd : datas (mem st) !! msg_data x = Some dd;
  hp_dd_count : 0 < md_refcount dd < 2 ^ 62
}.

Lemma hand_over_effect s st r m n tr x dd dr Lr tg :
  hand_over_pre st r m n tr x dd dr Lr tg ->
  let D := msg_data x in
  exists st', hand_over s r m n st = Some (REND_SUCCESS, st') /\
    (exists q', threads st' !! r = Some (with_recv_cnt (u64 (recv_pending_cnt tr + 1)) (with_recv_queue q' tr)) /\
       mq st' q' dr (Lr ++ [(n, u16 (tg + 1))]) (u16 (tg + 1))) /\
    msgs (mem st') !! n = Some (mk_message ref_init D NULL) /\
    msgs (mem st') !! m = Some (mk_message (msg_refcount x - 1) D (receiver x)) /\
    nnext (msg_nodes st' m) = nnext (msg_nodes st m) /\
    datas (mem st') = <[D := with_md_refcount (md_refcount dd + 1) dd]> (datas (mem st)) /\
    retired st' = retired st ++ (if msg_refcount x =? 1 then [(m, FN_free_message_ref_real)] else []) /\
    same_but (fun t => t = r) (fun a => a = m \/ a = n \/ a = last_node dr Lr) st st'.
Proof.
  intros [Hr Htr Hst Hq Hn Hna Hno Hm Hmn Hmo Hmc HD Hdd Hddc] D.
  unfold hand_over. rewrite Hm. unfold fill_message_data.
  assert (Hn0 : n <> NULL) by apply Hna.
  destruct (Z.eqb_spec n NULL); [done|]. destruct (Z.eqb_spec (msg_data x) NULL); [done|]. cbn [orb].
  rewrite (get_data_counted _ _ dd) by done. fold D. cbn [negb].
  set (m1 := set_data D _ (mem st)). assert (Em1 : msgs m1 !! n = Some (mk_message ref_init NULL NULL)) by done.
  rewrite Em1. cbn [negb msg_refcount receiver]. change (REND_SUCCESS =? REND_SUCCESS) with true. cbn [negb].
  set (st1 := set_mem (set_msg n (mk_message ref_init D NULL) m1) st).
  assert (N1 : forall a, msg_nodes st1 a = msg_nodes st a).
  { intros a. unfold msg_nodes, st1. cbn [mem set_mem msgs set_msg msg_next].
    destruct (decide (n = a)) as [<-|Ha]; [by rewrite lookup_insert_eq, Hn|]. by rewrite lookup_insert_ne. }
  assert (Q1 : mq st1 (recv_msg_queue tr) dr Lr tg).
  { apply (mq_frame st); [done|]. intros a Ha. rewrite N1. split; [done|]. by apply (mq_in _ _ _ _ _ _ Hq). }
  assert (Hcn : nref (msg_nodes st1 n) = 1) by (rewrite N1, (msg_nodes_some _ _ _ Hn); done).
  destruct (on_msgs_enqueue st1 _ dr Lr tg n (Some FN_free_message_ref_real) Q1 Hna Hno ltac:(lia))
    as (nd & q' & E & Q2 & N2). unfold recv_queue_op.
  rewrite (thread_at_some st1 r tr) by done. rewrite E. cbn [mbind option_bind].
  set (st2 := store_msg_nodes nd st1) in *. set (st3 := upd_thread r (with_recv_queue q') st2).
  assert (L2 : forall a, msgs (mem st3) !! a = (fun y => mk_message (nref (msg_nodes st2 a)) (msg_data y) (receiver y)) <$> msgs (mem st1) !! a).
  { intros a. apply msgs_store. }
  assert (Ln1 : msgs (mem st1) !! n = Some (mk_message ref_init D NULL)) by (unfold st1; cbn [mem set_mem msgs set_msg]; by rewrite lookup_insert_eq).
  assert (Lm1 : msgs (mem st1) !! m = Some x) by (unfold st1; cbn [mem set_mem msgs set_msg]; by rewrite lookup_insert_ne).
  assert (Hll : last_node dr Lr ∈ dr :: map fst Lr) by apply last_node_in.
  assert (Ln : msgs (mem st3) !! n = Some (mk_message 2 D NULL)).
  { rewrite L2, Ln1, N2, decide_True, Hcn by done. done. }
  assert (Lm : msgs (mem st3) !! m = Some x).
  { rewrite L2, Lm1, N2, decide_False by done. rewrite decide_False by (by intros ->). rewrite N1, (msg_nodes_some _ _ _ Hm).
    cbn. by destruct x. }
  rewrite (put_msg_effect st3 n _ Ln) by (cbn; lia). cbn [msg_refcount msg_data receiver]. change (2 =? 1) with false. cbv zeta iota.
  set (st4 := set_mem (set_msg n (mk_message (2 - 1) D NULL) (mem st3)) st3).
  assert (Tr4 : threads st4 !! r = Some (with_recv_queue q' tr)) by (by apply upd_thread_same).
  set (st5 := recv_cnt_add r 1 st4).
  assert (Tr5 : threads st5 !! r = Some (with_recv_cnt (u64 (recv_pending_cnt tr + 1)) (with_recv_queue q' tr))).
  { exact (upd_thread_same st4 r (fun y => with_recv_cnt (u64 (recv_pending_cnt y + 1)) y) _ Tr4). }
  assert (Est : thread_get_status st5 r = t_status tr).
  { unfold thread_get_status. destruct (Z.eqb_spec r NULL); [done|]. by rewrite (thread_at_some _ _ _ Tr5). }
  rewrite Est. destruct (Z.eqb_spec (t_status tr) thread_status_exit); [done|].
  assert (Lm5 : msgs (mem st5) !! m = Some x) by (change (msgs (mem st5)) with (<[n := mk_message (2 - 1) D NULL]> (msgs (mem st3))); by rewrite lookup_insert_ne).
  assert (N5 : forall a, msg_nodes st5 a = if decide (a = n) then mk_node 1 (nnext (msg_nodes st2 n)) else msg_nodes st2 a).
  { intros a. unfold msg_nodes at 1, st5, recv_cnt_add, upd_thread, st4. cbn [mem set_threads set_mem msgs set_msg msg_next].
    case_decide as Ha; [subst a; change (msg_nodes st2 n) with (msg_nodes st3 n); by rewrite lookup_insert_eq, (msg_nodes_some st3 n _ Ln)|]. by rewrite lookup_insert_ne. }
  exists (put_msg m st5). split; [done|].
  pose proof (msg_nodes_put st5 m x) as Np. pose proof (put_msg_effect st5 m x Lm5 ltac:(lia)) as Ep. cbv zeta in Ep.
  assert (Nf : forall a, msg_nodes (put_msg m st5) a =
    if decide (a = m) then mk_node (msg_refcount x - 1) (nnext (msg_nodes st m))
    else if decide (a = n) then mk_node 1 0
    else if decide (a = last_node dr Lr) then mk_node (nref (msg_nodes st a)) (tp_new n (tg + 1)) else msg_nodes st a).
  { intros a. rewrite Np by (done || lia). case_decide as Ha.
    - f_equal. rewrite <- N1. pose proof (N5 m) as N5m. rewrite decide_False in N5m by done. rewrite N2 in N5m.
      rewrite decide_False in N5m by done. rewrite decide_False in N5m by (intros ->; done). rewrite <- N5m.
      by rewrite (msg_nodes_some _ _ _ Lm5).
    - rewrite N5. case_decide as Hb; [rewrite N2, decide_True by done; done|]. rewrite N2, decide_False by done.
      case_decide; by rewrite N1. }
  assert (Hm6 : msgs (mem (put_msg m st5)) = <[m := mk_message (msg_refcount x - 1) D (receiver x)]> (<[n := mk_message 1 D NULL]> (msgs (mem st3)))).
  { rewrite Ep. by destruct (_ =? 1). }
  assert (Ht6 : threads (put_msg m st5) = threads st5) by (rewrite Ep; by destruct (_ =? 1)).
  split; [|split; [|split; [|split; [|split; [|split]]]]].
  - exists q'. rewrite Ht6. split; [exact Tr5|]. apply (mq_frame st2); [exact Q2|].
    intros a Ha. rewrite map_app in Ha. change (a ∈ (dr :: map fst Lr) ++ [n]) in Ha.
    assert (Ham : a <> m). { intros ->. apply elem_of_app in Ha as [Ha|Ha]; [done|]. by apply list_elem_of_singleton in Ha. }
    rewrite Nf, decide_False by done. rewrite N2. destruct (decide (a = n)) as [->|Hb]; [rewrite Hcn; done|].
    apply elem_of_app in Ha as [Ha|Ha]; [|by apply list_elem_of_singleton in Ha].
    pose proof (mq_in _ _ _ _ _ _ Hq Ha) as [_ Hr']. destruct (decide (a = last_node dr Lr)); rewrite ?N1; done.
  - rewrite Hm6, lookup_insert_ne by done. by rewrite lookup_insert_eq.
  - by rewrite Hm6, lookup_insert_eq.
  - by rewrite Nf, decide_True.
  - rewrite Ep. by destruct (_ =? 1).
  - rewrite Ep. destruct (_ =? 1); [done|]. by rewrite app_nil_r.
  - constructor.
    + intros t Ht. rewrite Ht6. unfold st5, recv_cnt_add. rewrite upd_thread_other by done. unfold st4. cbn [threads set_mem].
      unfold st3. rewrite upd_thread_other by done. done.
    + intros a Ha. assert (a <> m /\ a <> n /\ a <> last_node dr Lr) as (H1 & H2 & H3) by tauto. split.
      * rewrite Hm6, !lookup_insert_ne by done. rewrite L2, N2, !decide_False by done. rewrite N1.
        unfold st1. cbn [mem set_mem msgs set_msg m1 set_data]. rewrite lookup_insert_ne by done.
        unfold msg_nodes. destruct (msgs (mem st) !! a) as [y|]; [|done]. cbn. by destruct y.
      * by rewrite Nf, !decide_False.
    + rewrite Ep. by destruct (_ =? 1).
    + rewrite Ep. by destruct (_ =? 1).
    + rewrite Ep. by destruct (_ =? 1).
Qed.

(** the message a thread sends next, and its send queue without it *)
Definition outgoing (ts : Thread_Base) (Ls : list (Z * Z)) : Z :=
  if send_pending_msg ts =? NULL then match Ls with [] => NULL | (a, _) :: _ => a end else send_pending_msg ts.
Definition rest_queue (ts : Thread_Base) (ds : Z) (Ls : list (Z * Z)) : Z * list (Z * Z) :=
  if send_pending_msg ts =? NULL then match Ls with [] => (ds, []) | (a, _) :: L' => (a, L') end else (ds, Ls).
Definition from_queue (ts : Thread_Base) (Ls : list (Z * Z)) : bool :=
  (send_pending_msg ts =? NULL) && match Ls with [] => false | _ => true end.

Lemma take_outgoing_effect st s ts ds Ls tg :
  threads st !! s = Some ts -> mq st (send_msg_queue ts) ds Ls tg ->
  let m := outgoing ts Ls in
  exists st' q', take_outgoing s st = Some (m, send_pending_msg ts =? NULL, st') /\
    threads st' !! s = Some (with_send_queue q' (with_pending NULL ts)) /\
    is_queue (msg_nodes st') q' (fst (rest_queue ts ds Ls)) (snd (rest_queue ts ds Ls)) tg /\
    datas (mem st') = datas (mem st) /\ retired st' = retired st /\ heap (mem st') = heap (mem st) /\
    (forall a, msgs (mem st') !! a = (fun x => mk_message (nref (msg_nodes st' a)) (msg_data x) (receiver x)) <$> msgs (mem st) !! a) /\
    (forall a, msg_nodes st' a = if decide (from_queue ts Ls = true /\ a = m)
      then mk_node (nref (msg_nodes st a) + 1) (nnext (msg_nodes st a)) else msg_nodes st a) /\
    same_but (fun t => t = s) (fun a => from_queue ts Ls = true /\ a = m) st st'.
Proof.
  intros Hs Hq m. pose proof Hq as [Q _]. unfold take_outgoing, pending_exchange. rewrite (thread_at_some _ _ _ Hs).
  set (st1 := upd_thread s (with_pending NULL) st).
  assert (Hs1 : threads st1 !! s = Some (with_pending NULL ts)) by (by apply upd_thread_same).
  assert (Hself : forall a, msgs (mem st) !! a = (fun x => mk_message (nref (msg_nodes st a)) (msg_data x) (receiver x)) <$> msgs (mem st) !! a).
  { intros a. unfold msg_nodes. destruct (msgs (mem st) !! a) as [x|]; [|done]. cbn. by destruct x. }
  subst m. unfold outgoing, rest_queue, from_queue. destruct (Z.eqb_spec (send_pending_msg ts) NULL) as [Hp|Hp]; cbn [negb andb].
  2:{ exists st1, (send_msg_queue ts). split; [done|]. split; [by rewrite Hs1|]. split; [exact Q|].
      do 3 (split; [done|]). split; [exact Hself|]. split; [intros a; by rewrite decide_False by (by intros [? _])|].
      constructor; try done. intros t Ht. by apply upd_thread_other. }
  unfold send_queue_op. rewrite (thread_at_some _ _ _ Hs1). cbn [with_pending send_msg_queue].
  assert (Q1 : mq st1 (send_msg_queue ts) ds Ls tg) by exact Hq.
  pose proof (on_msgs_dequeue st1 _ ds Ls tg (Some FN_free_message_ref_real) Q1) as H.
  destruct Ls as [|[a t] L'].
  - destruct H as (nd & E & N). rewrite E. cbn [mbind option_bind fst snd].
    exists (upd_thread s (with_send_queue (send_msg_queue ts)) (store_msg_nodes nd st1)), (send_msg_queue ts).
    split; [done|]. split; [by apply upd_thread_same|].
    assert (Q2 : is_queue (msg_nodes (store_msg_nodes nd st1)) (send_msg_queue ts) ds [] tg).
    { apply (is_queue_frame (msg_nodes st1)); [done|]. intros a Ha. rewrite N. split; [done|].
      pose proof (mq_in _ _ _ _ _ _ Hq Ha) as [_ Hr]. change (msg_nodes st1 a) with (msg_nodes st a). lia. }
    split; [exact Q2|]. do 3 (split; [done|]).
    split; [exact (msgs_store st1 nd)|]. split; [intros a; rewrite decide_False by (by intros [? _]); exact (N a)|].
    constructor; try done.
    + intros t Ht. rewrite upd_thread_other by done. cbn [store_msg_nodes]. unfold store_msg_nodes. cbn [threads set_msg_next set_mem].
      by apply upd_thread_other.
    + intros a _. split; [|exact (N a)]. etransitivity; [exact (msgs_store st1 nd a)|]. rewrite N. symmetry. apply Hself.
  - destruct H as (nd & q' & E & Q2 & N). rewrite E. cbn [mbind option_bind fst snd].
    assert (Hin : a ∈ ds :: map fst ((a, t) :: L')) by (right; by left).
    pose proof (mq_in _ _ _ _ _ _ Hq Hin) as [[Hca Ha0] Hr].
    assert (Htp : tp_is_none (tp_new a t) = false).
    { unfold tp_is_none. apply Z.eqb_neq. intros E0. apply Ha0. by rewrite <- (tp_new_get_ptr a t Hca), E0. }
    rewrite Htp, tp_new_get_ptr by done.
    exists (upd_thread s (with_send_queue q') (store_msg_nodes nd st1)), q'.
    split; [done|]. split; [by apply (upd_thread_same _ _ _ (with_pending NULL ts))|]. split; [exact Q2|].
    do 3 (split; [done|]). split; [exact (msgs_store st1 nd)|]. split.
    { intros b. change (msg_nodes (upd_thread s (with_send_queue q') (store_msg_nodes nd st1)) b) with (msg_nodes (store_msg_nodes nd st1) b).
      rewrite N. destruct (decide (b = a)) as [->|Hb]; [by rewrite decide_True|]. by rewrite decide_False by (by intros [_ ?]). }
    constructor; try done.
    + intros u Hu. rewrite upd_thread_other by done. unfold store_msg_nodes. cbn [threads set_msg_next set_mem].
      by apply upd_thread_other.
    + intros b Hb. assert (Hba : b <> a) by tauto. split.
      * etransitivity; [exact (msgs_store st1 nd b)|]. rewrite N, decide_False by done. symmetry. apply Hself.
      * etransitivity; [exact (N b)|]. by rewrite decide_False.
Qed.

(** a sender [s] with a message to send and a live receiver [r] *)
Record transfer_ready st s r ts ds Ls tgs tr dr Lr tgr n x dd : Prop := {
  tr_ptrs : s <> NULL /\ r <> NULL /\ s <> r;
  tr_s : threads st !! s = Some ts;
  tr_r : threads st !! r = Some tr;
  tr_alive : t_status ts <> thread_status_exit /\ t_status tr <> thread_status_exit;
  tr_send : mq st (send_msg_queue ts) ds Ls tgs;
  tr_recv : mq st (recv_msg_queue tr) dr Lr tgr;
  tr_disjoint : forall a, a ∈ ds :: map fst Ls -> a ∉ dr :: map fst Lr;
  tr_alloc : fst (m_alloc (heap (mem st)) sizeof_Message) = n;
  tr_fresh : node_addr n /\ msgs (mem st) !! n = None;
  tr_msg : outgoing ts Ls <> NULL /\ msgs (mem st) !! outgoing ts Ls = Some x;
  tr_count : 0 < msg_refcount x < 2 ^ 59;
  tr_pending : send_pending_msg ts <> NULL ->
    send_pending_msg ts ∉ dr :: map fst Lr /\ (send_pending_msg ts ∈ ds :: map fst Ls -> 1 < msg_refcount x);
  tr_data : msg_data x <> NULL;
  tr_payload : datas (mem st) !! msg_data x = Some dd /\ 0 < md_refcount dd < 2 ^ 62
}.

(** the message structure of the receiver *)
Lemma new_message_effect st n :
  fst (m_alloc (heap (mem st)) sizeof_Message) = n -> node_addr n -> msgs (mem st) !! n = None ->
  exists m, create_message_structure (mem st) = (n, m) /\
    msgs m = <[n := mk_message ref_init NULL NULL]> (msgs (mem st)) /\ datas m = datas (mem st) /\
    (forall a, a <> n -> msg_nodes (set_mem m st) a = msg_nodes st a) /\ same_but (fun _ => False) (fun a => a = n) st (set_mem m st).
Proof.
  intros Ha [_ Hn0] Hf. unfold create_message_structure, k_alloc. destruct (m_alloc _ _) as [p h]. cbn [fst] in Ha. subst p.
  apply Z.eqb_neq in Hn0. unfold NULL. rewrite Hn0. eexists. split; [reflexivity|]. split; [done|]. split; [done|].
  assert (N : forall a, a <> n -> msg_nodes (set_mem (set_msg n (mk_message ref_init NULL NULL)
      (mk_ms h (datas (mem st)) (msgs (mem st)) (bufs (mem st)) (freed_ptrs (mem st)))) st) a = msg_nodes st a).
  { intros a Hne. unfold msg_nodes. cbn [mem set_mem msgs set_msg msg_next]. by rewrite lookup_insert_ne. }
  split; [exact N|]. constructor; try done. intros a Hne. split; [|by apply N].
  cbn [mem set_mem msgs set_msg]. by rewrite lookup_insert_ne.
Qed.

Lemma rest_in ts ds Ls a :
  a ∈ fst (rest_queue ts ds Ls) :: map fst (snd (rest_queue ts ds Ls)) -> a ∈ ds :: map fst Ls.
Proof.
  unfold rest_queue. destruct (_ =? _); [|done]. destruct Ls as [|[b t] L']; [done|]. cbn [fst snd map]. intros H. by right.
Qed.

Lemma outgoing_in ts ds Ls : outgoing ts Ls <> NULL -> from_queue ts Ls = true -> outgoing ts Ls ∈ ds :: map fst Ls.
Proof.
  unfold outgoing, from_queue. destruct (_ =? _); [|done]. destruct Ls as [|[b t] L']; [done|]. intros _ _. right. by left.
Qed.

Lemma transfer_effect st s r ts ds Ls tgs tr dr Lr tgr n x dd :
  transfer_ready st s r ts ds Ls tgs tr dr Lr tgr n x dd ->
  let m := outgoing ts Ls in let D := msg_data x in
  exists st', ipc_transfer_message s r st = Some (REND_SUCCESS, st') /\
    (exists q', threads st' !! r = Some (with_recv_cnt (u64 (recv_pending_cnt tr + 1)) (with_recv_queue q' tr)) /\
       mq st' q' dr (Lr ++ [(n, u16 (tgr + 1))]) (u16 (tgr + 1))) /\
    msgs (mem st') !! n = Some (mk_message ref_init D NULL) /\
    (exists q', threads st' !! s = Some (with_send_queue q' (with_pending NULL ts)) /\
       mq st' q' (fst (rest_queue ts ds Ls)) (snd (rest_queue ts ds Ls)) tgs) /\
    msgs (mem st') !! m = Some (mk_message (if from_queue ts Ls then msg_refcount x else msg_refcount x - 1) D (receiver x)) /\
    datas (mem st') = <[D := with_md_refcount (md_refcount dd + 1) dd]> (datas (mem st)) /\
    retired st' = retired st ++ (if negb (from_queue ts Ls) && (msg_refcount x =? 1) then [(m, FN_free_message_ref_real)] else []) /\
    same_but (fun t => t = s \/ t = r) (fun a => a = m \/ a = n \/ a = last_node dr Lr) st st'.
Proof.
  intros [(Hs0 & Hr0 & Hsr) Hs Hr (Hsa & Hra) Qs Qr Hdis Hal (Hna & Hnf) (Hm0 & Hm) Hc Hp HD (Hdd & Hddc)] m D.
  unfold ipc_transfer_message. destruct (Z.eqb_spec s NULL); [done|]. destruct (Z.eqb_spec r NULL); [done|]. cbn [orb].
  assert (Er : thread_get_status st r = t_status tr).
  { unfold thread_get_status. destruct (Z.eqb_spec r NULL); [done|]. by rewrite (thread_at_some _ _ _ Hr). }
  rewrite Er. destruct (Z.eqb_spec (t_status tr) thread_status_exit); [done|].
  destruct (new_message_effect st n Hal Hna Hnf) as (m1 & E1 & Ems & Eds & N1 & SB1). rewrite E1. set (st1 := set_mem m1 st) in *.
  destruct (Z.eqb_spec n NULL); [by apply Hna in e|].
  assert (Hnq : forall q d L tg a, mq st q d L tg -> a ∈ d :: map fst L -> a <> n).
  { intros q d L tg a Q Ha ->. pose proof (mq_in _ _ _ _ _ _ Q Ha) as [_ H]. unfold msg_nodes in H. rewrite Hnf in H. cbn in H. lia. }
  assert (F1 : forall q d L tg, mq st q d L tg -> mq st1 q d L tg).
  { intros q d L tg Q. apply (mq_frame st); [done|]. intros a Ha. rewrite N1 by (by eapply Hnq). split; [done|].
    by apply (mq_in _ _ _ _ _ _ Q). }
  destruct (take_outgoing_effect st1 s ts ds Ls tgs Hs (F1 _ _ _ _ Qs)) as (st2 & qs & E2 & Hs2 & Qs2 & Ed2 & Er2 & _ & M2 & N2 & SB2).
  rewrite E2. cbn [mbind option_bind]. fold m. fold m in M2, N2, SB2, Hm, Hm0.
  destruct (Z.eqb_spec m NULL); [done|].
  assert (Es2 : thread_get_status st2 s = t_status ts).
  { unfold thread_get_status. destruct (Z.eqb_spec s NULL); [done|]. by rewrite (thread_at_some _ _ _ Hs2). }
  rewrite Es2. destruct (Z.eqb_spec (t_status ts) thread_status_exit); [done|]. rewrite andb_false_r.
  set (fq := from_queue ts Ls) in *.
  assert (Hmn : m <> n) by (intros ->; by rewrite Hnf in Hm).
  assert (Hfq : fq = false -> send_pending_msg ts <> NULL /\ m = send_pending_msg ts).
  { unfold fq, from_queue, m, outgoing in *. destruct (Z.eqb_spec (send_pending_msg ts) NULL); [|done]. by destruct Ls as [|[b t] L']. }
  assert (Hmo : m ∉ dr :: map fst Lr).
  { destruct fq eqn:Ef; [apply Hdis, outgoing_in; done|]. destruct (Hfq eq_refl) as [Hp0 ->]. by apply Hp. }
  assert (N12 : forall a, a <> n -> (fq = true /\ a = m) \/ msg_nodes st2 a = msg_nodes st a).
  { intros a Ha. rewrite N2. destruct (decide (fq = true /\ a = m)) as [Hd|Hd]; [by left|]. right. by apply N1. }
  assert (Nm2 : msg_nodes st2 m = mk_node (if fq then msg_refcount x + 1 else msg_refcount x) (msg_next st m)).
  { rewrite N2. rewrite (N1 m Hmn), (msg_nodes_some _ _ _ Hm). cbn [nref nnext].
    destruct fq; [by rewrite decide_True|by rewrite decide_False by (by intros [? _])]. }
  set (x2 := mk_message (nref (msg_nodes st2 m)) D (receiver x)).
  assert (Hpre : hand_over_pre st2 r m n tr x2 dd dr Lr tgr).
  { constructor; try done.
    - rewrite (sb_threads _ _ _ _ SB2 r) by (intros ->; done). exact Hr.
    - apply (mq_frame st); [done|]. intros a Ha. destruct (N12 a) as [[_ ->]|E]; [by eapply Hnq|done|].
      rewrite E. split; [done|]. by apply (mq_in _ _ _ _ _ _ Qr).
    - rewrite M2. unfold st1. cbn [mem set_mem]. rewrite Ems, lookup_insert_eq. cbn. do 2 f_equal.
      rewrite N2, decide_False by (intros [_ ?]; done). unfold msg_nodes, st1. cbn [mem set_mem]. by rewrite Ems, lookup_insert_eq.
    - intros Ha. exact (Hnq _ _ _ _ _ Qr Ha eq_refl).
    - rewrite M2. unfold st1. cbn [mem set_mem]. rewrite Ems, lookup_insert_ne by done. by rewrite Hm.
    - unfold x2. cbn [msg_refcount]. rewrite Nm2. cbn [nref]. destruct fq; lia.
    - unfold x2. cbn [msg_data]. rewrite Ed2. unfold st1. cbn [mem set_mem]. by rewrite Eds. }
  destruct (hand_over_effect s st2 r m n tr x2 dd dr Lr tgr Hpre) as (st' & E & Hr' & Hn' & Hm' & Hnx & Hd' & Hret & SB).
  cbn [x2 msg_data msg_refcount receiver] in Hn', Hm', Hd', Hret. rewrite Nm2 in Hm', Hret. cbn [nref] in Hm', Hret.
  exists st'. split; [exact E|]. split; [exact Hr'|]. split; [exact Hn'|]. split; [|split; [|split; [|split]]].
  - exists qs. split.
    { rewrite (sb_threads _ _ _ _ SB s) by done. exact Hs2. }
    assert (Hall : forall a, a ∈ fst (rest_queue ts ds Ls) :: map fst (snd (rest_queue ts ds Ls)) ->
              nnext (msg_nodes st' a) = nnext (msg_nodes st2 a) /\ 0 < nref (msg_nodes st' a) < 2 ^ 60).
    { intros a Ha. apply rest_in in Ha. pose proof (mq_in _ _ _ _ _ _ Qs Ha) as [_ Hra']. pose proof (Hnq _ _ _ _ _ Qs Ha) as Han.
      assert (Hal' : a <> last_node dr Lr) by (intros ->; apply (Hdis _ Ha), last_node_in).
      destruct (decide (a = m)) as [->|Ham].
      - split; [exact Hnx|]. rewrite (msg_nodes_some _ _ _ Hm'). cbn [nref msg_refcount]. destruct fq eqn:Ef; [lia|].
        destruct (Hfq eq_refl) as [Hp0 Em]. rewrite Em in Ha. pose proof (proj2 (Hp Hp0) Ha). lia.
      - rewrite (proj2 (sb_nodes _ _ _ _ SB a ltac:(tauto))). destruct (N12 a Han) as [[_ ?]|E0]; [done|]. by rewrite E0. }
    split; [apply (is_queue_frame (msg_nodes st2)); [exact Qs2|]|apply Forall_forall].
    + intros a Ha. destruct (Hall a Ha). split; [done|lia].
    + intros a Ha. by apply Hall.
  - rewrite Hm'. destruct fq; do 2 f_equal; lia.
  - rewrite Hd', Ed2. unfold st1. cbn [mem set_mem]. by rewrite Eds.
  - rewrite Hret, Er2. destruct fq; cbn [negb andb]; [|done].
    destruct (Z.eqb_spec (msg_refcount x + 1) 1); [lia|done].
  - constructor.
    + intros t Ht. rewrite (sb_threads _ _ _ _ SB) by tauto. rewrite (sb_threads _ _ _ _ SB2) by tauto.
      apply (sb_threads _ _ _ _ SB1). tauto.
    + intros a Ha. destruct (sb_nodes _ _ _ _ SB a Ha) as [-> ->]. destruct (sb_nodes _ _ _ _ SB2 a ltac:(tauto)) as [-> ->].
      apply (sb_nodes _ _ _ _ SB1). tauto.
    + by rewrite (sb_reqs _ _ _ _ SB), (sb_reqs _ _ _ _ SB2).
    + by rewrite (sb_ports _ _ _ _ SB), (sb_ports _ _ _ _ SB2).
    + destruct (sb_cpu _ _ _ _ SB) as (-> & -> & ->), (sb_cpu _ _ _ _ SB2) as (-> & -> & ->). done.
Qed.
End Transfer.

(** ** The waiting queue of a port *)

Lemma port_mask : msq_append_info_mask IPC_PORT_APPEND_BITS = 3.
Proof. reflexivity. Qed.

(** the state bits written by an enqueue or by the reset of an emptied queue *)
Lemma next_tag_state tg info : 0 <= info < 4 -> Z.land (msq_next_tag IPC_PORT_APPEND_BITS tg info) 3 = info.
Proof.
  intros H. unfold msq_next_tag. rewrite port_mask. change (msq_tag_mask IPC_PORT_APPEND_BITS) with 65532.
  change 3 with (Z.ones 2). rewrite (Z.land_ones info) by lia. rewrite (Z.mod_small info) by lia.
  rewrite Z.land_ones by lia. unfold u16, wrap. change (2 ^ 16) with (2 ^ 2 * 2 ^ 14). rewrite Z.rem_mul_r by lia.
  rewrite Z.add_mod by lia. rewrite Z.mul_comm, Z.mod_mul, Z.add_0_r, !Z.mod_mod by lia.
  rewrite <- Z.land_ones, Z.land_lor_distr_l, <- Z.land_assoc by lia. change (Z.land 65532 (Z.ones 2)) with 0.
  rewrite Z.land_0_r, Z.lor_0_l, Z.land_ones by lia. by apply Z.mod_small.
Qed.

Section Waiting.
Context {A : Type}.
Implicit Types st : istate A.

(** the requests waiting on port [p], oldest first, all of one side: EMPTY
    when there is none *)
Record waiting st (p : Z) (px : Message_Port_t) (side d : Z) (L : list (Z * Z)) (tg : Z) : Prop := {
  wt_port : ports st !! p = Some px;
  wt_null : p <> NULL;
  wt_bits : append_info_bits (thread_queue px) = IPC_PORT_APPEND_BITS;
  wt_queue : is_queue (req_nodes st) (thread_queue px) d L tg;
  wt_count : Forall (fun a => nref (req_nodes st a) < 2 ^ 60) (d :: map fst L);
  wt_tags : Forall (fun t => Z.land t 3 = side) (tg :: map snd L);
  wt_side : match L with [] => side = IPC_PORT_STATE_EMPTY | _ => side = IPC_PORT_STATE_SEND \/ side = IPC_PORT_STATE_RECV end
}.

Lemma wt_in st p px side d L tg a : waiting st p px side d L tg -> a ∈ d :: map fst L ->
  node_addr a /\ 0 < nref (req_nodes st a) < 2 ^ 60 /\ exists r, reqs st !! a = Some r.
Proof.
  intros W Ha. destruct (iq_node _ _ _ _ _ (wt_queue _ _ _ _ _ _ _ W) a Ha) as [H1 H2].
  pose proof (proj1 (Forall_forall _ _) (wt_count _ _ _ _ _ _ _ W) a Ha) as H3. cbn in H3.
  split; [done|]. split; [lia|]. unfold req_nodes in H2. destruct (reqs st !! a) as [r|]; [by eauto|]. cbn in H2. lia.
Qed.

Lemma port_at_some st p px : ports st !! p = Some px -> port_at st p = px.
Proof. intros H. unfold port_at. by rewrite H. Qed.

Lemma wt_state st p px side d L tg : waiting st p px side d L tg -> ipc_get_queue_state st p = side.
Proof.
  intros W. unfold ipc_get_queue_state. rewrite (port_at_some _ _ _ (wt_port _ _ _ _ _ _ _ W)). rewrite (iq_tail_tag _ _ _ _ _ (wt_queue _ _ _ _ _ _ _ W)).
  pose proof (wt_tags _ _ _ _ _ _ _ W) as H. by apply list.Forall_cons in H as [H _].
Qed.

Lemma req_nodes_store st nd :
  (forall a, reqs st !! a = None -> nd a = mk_node 0 0) -> forall a, req_nodes (store_req_nodes nd st) a = nd a.
Proof.
  intros H a. unfold req_nodes, store_req_nodes, set_reqs. cbn [reqs]. rewrite map_lookup_imap.
  destruct (reqs st !! a) as [r|] eqn:E; [done|]. cbn. by rewrite H.
Qed.

Lemma reqs_store st nd a :
  reqs (store_req_nodes nd st) !! a = (fun r => mk_req (nd a) (r_thread r) (queue_ptr r)) <$> reqs st !! a.
Proof.
  unfold store_req_nodes, set_reqs. cbn [reqs]. rewrite map_lookup_imap. by destruct (reqs st !! a).
Qed.

(** writing back what was read changes nothing *)
Lemma store_req_nodes_id st nd : (forall a, nd a = req_nodes st a) -> store_req_nodes nd st = st.
Proof.
  intros H. unfold store_req_nodes, set_reqs.
  replace (map_imap _ _) with (reqs st); [by destruct st|]. apply map_eq. intros a. rewrite map_lookup_imap.
  rewrite H. unfold req_nodes. destruct (reqs st !! a) as [r|]; [|done]. cbn. by destruct r.
Qed.
Lemma upd_port_id st p f px : ports st !! p = Some px -> f px = px -> upd_port p f st = st.
Proof.
  intros H E. unfold upd_port, set_ports. rewrite alter_id; [by destruct st|]. intros x Hx. by simplify_eq.
Qed.

(** [msq_dequeue_check_head] for waiters of side [target] *)
Definition side_op (target : Z) : deq_op := Some (MSQ_CHECK_FIELD_APPEND, tp_new NULL target).

Lemma side_check target a t :
  0 <= target < 4 -> 0 <= t < 2 ^ 16 ->
  deq_check IPC_PORT_APPEND_BITS (side_op target) (tp_new a t) = (Z.land t 3 =? target).
Proof.
  intros Ht Ha. unfold deq_check, side_op, msq_queue_check_tp. rewrite (proj1 check_append_only), (proj2 check_append_only).
  cbn [andb]. rewrite port_mask, !tp_new_get_tag, u16_small by lia. rewrite (u16_small target) by lia.
  replace (Z.land target 3) with target.
  - by destruct (_ =? _).
  - change 3 with (Z.ones 2). rewrite Z.land_ones by lia. symmetry. by apply Z.mod_small.
Qed.

Lemma side_call st p px side d L tg target :
  waiting st p px side d L tg ->
  on_reqs (msq_dequeue_check_head 0 MSQ_CHECK_FIELD_APPEND (tp_new NULL target)) (thread_queue px) None st =
  on_reqs (goto 0 (DeqLoop (side_op target))) (thread_queue px) None st.
Proof.
  intros W. unfold on_reqs, run_op.
  assert (E : msq_dequeue_check_head 0 MSQ_CHECK_FIELD_APPEND (tp_new NULL target) (seq_world (req_nodes st) (thread_queue px)) =
              goto 0 (DeqLoop (side_op target)) (seq_world (req_nodes st) (thread_queue px))).
  { unfold msq_dequeue_check_head. change (queue (seq_world (req_nodes st) (thread_queue px))) with (thread_queue px).
    rewrite (wt_bits _ _ _ _ _ _ _ W). done. }
  by rewrite E.
Qed.

Lemma wt_tag st p px side d L tg a t : waiting st p px side d L tg -> (a, t) ∈ L -> 0 <= t < 2 ^ 16 /\ Z.land t 3 = side.
Proof.
  intros W Hin. assert (Ht : t ∈ tg :: map snd L) by (right; apply list_elem_of_fmap; by exists (a, t)).
  split; [exact (proj1 (Forall_forall _ _) (iq_tags _ _ _ _ _ (wt_queue _ _ _ _ _ _ _ W)) t Ht)|].
  exact (proj1 (Forall_forall _ _) (wt_tags _ _ _ _ _ _ _ W) t Ht).
Qed.

Lemma port_dequeue_none st p px side d L tg target :
  waiting st p px side d L tg -> 0 <= target < 4 -> L = [] \/ side <> target ->
  port_queue_op p (msq_dequeue_check_head 0 MSQ_CHECK_FIELD_APPEND (tp_new NULL target)) None st = Some (tp_new_none, st).
Proof.
  intros W Ht HL. pose proof (wt_queue _ _ _ _ _ _ _ W) as Q. unfold port_queue_op.
  rewrite (port_at_some _ _ _ (wt_port _ _ _ _ _ _ _ W)), (side_call _ _ _ _ _ _ _ _ W). unfold on_reqs.
  destruct (dequeue_leaves _ _ _ _ _ Q (side_op target)) as (nd & E & Hx).
  { destruct HL as [HL|HL]; [by left|]. destruct L as [|[a t] L']; [by left|]. right. exists a, t, L'. split; [done|].
    rewrite (wt_bits _ _ _ _ _ _ _ W). destruct (wt_tag _ _ _ _ _ _ _ a t W ltac:(by left)) as [H1 H2].
    rewrite side_check by done. apply Z.eqb_neq. congruence. }
  rewrite E. cbn [retire_all mbind option_bind]. rewrite store_req_nodes_id by done.
  by rewrite (upd_port_id st p _ px (wt_port _ _ _ _ _ _ _ W)) by (by destruct px).
Qed.

(** the port after its first waiter [a] is taken *)
Lemma port_dequeue_first st p px d a t L' tg target :
  waiting st p px target d ((a, t) :: L') tg -> 0 <= target < 4 ->
  exists nd q', let st' := upd_port p (set_thread_queue q') (store_req_nodes nd st) in
    port_queue_op p (msq_dequeue_check_head 0 MSQ_CHECK_FIELD_APPEND (tp_new NULL target)) None st = Some (tp_new a t, st') /\
    (forall x, req_nodes st' x = if decide (x = a) then mk_node (nref (req_nodes st a) + 1) (nnext (req_nodes st a)) else req_nodes st x) /\
    is_queue (req_nodes st') q' a L' (match L' with [] => msq_next_tag IPC_PORT_APPEND_BITS tg 0 | _ => tg end) /\
    append_info_bits q' = IPC_PORT_APPEND_BITS.
Proof.
  intros W Ht. pose proof (wt_queue _ _ _ _ _ _ _ W) as Q. unfold port_queue_op.
  rewrite (port_at_some _ _ _ (wt_port _ _ _ _ _ _ _ W)), (side_call _ _ _ _ _ _ _ _ W). unfold on_reqs.
  destruct (wt_tag _ _ _ _ _ _ _ a t W ltac:(by left)) as [H1 H2].
  assert (Hin : a ∈ d :: map fst ((a, t) :: L')) by (right; by left).
  destruct (wt_in _ _ _ _ _ _ _ _ W Hin) as (Ha & Hr & _).
  pose proof (dequeue_spec _ _ _ _ _ (side_op target) Q) as H. cbv zeta in H.
  rewrite (wt_bits _ _ _ _ _ _ _ W), side_check, H2, Z.eqb_refl in H by done.
  destruct H as (nd & q' & Hb & E & Q' & Hx). exists nd, q'. cbv zeta. rewrite E. cbn [retire_all mbind option_bind].
  assert (N : forall x, req_nodes (upd_port p (set_thread_queue q') (store_req_nodes nd st)) x = nd x).
  { intros x. apply (req_nodes_store st nd). intros y Hy. rewrite Hx. case_decide as Hya; [|by unfold req_nodes; rewrite Hy].
    subst y. unfold req_nodes in Hr. rewrite Hy in Hr. cbn in Hr. lia. }
  split; [done|]. split; [intros x; by rewrite N, Hx|]. split; [|done]. specialize (Q' ltac:(lia)).
  apply (is_queue_frame nd); [exact Q'|]. intros y Hy. rewrite N. split; [done|].
  exact (proj1 (Forall_forall _ _) (iq_ref _ _ _ _ _ Q') y Hy).
Qed.
End Waiting.

(** ** Matching *)

Definition other_side (my_ipc_state : Z) : Z :=
  if my_ipc_state =? IPC_PORT_STATE_SEND then IPC_PORT_STATE_RECV else IPC_PORT_STATE_SEND.
Definition blocked_status (side : Z) : Z :=
  if side =? IPC_PORT_STATE_RECV then thread_status_block_on_receive else thread_status_block_on_send.

Section Matching.
Context {A : Type} `{HA : Allocator A}.
Implicit Types st : istate A.

(** request [r] still waits on [p] in [status] *)
Definition ready st (p status r : Z) : bool :=
  (thread_get_status st (r_thread (req_at st r)) =? status) && (port_ptr (thread_at st (r_thread (req_at st r))) =? p).

(** apart from the queue and nodes of [p], only port pointers have changed,
    those of threads in [K] *)
Record match_frame (K : Z -> Prop) (p : Z) (px : Message_Port_t) st st' : Prop := {
  mf_mem : mem st' = mem st /\ msg_next st' = msg_next st;
  mf_cpu : core_tm st' = core_tm st /\ current_thread st' = current_thread st /\ idle_thread_ptr st' = idle_thread_ptr st;
  mf_gone : retired st' = retired st /\ thread_frees st' = thread_frees st;
  mf_threads : forall u, exists v, threads st' !! u = with_port_ptr v <$> threads st !! u /\
    (threads st !! u <> None -> v = port_ptr (thread_at st u) \/ v = NULL /\ port_ptr (thread_at st u) = p /\ K u);
  mf_reqs : forall x, exists n, reqs st' !! x = (fun r => mk_req n (r_thread r) (queue_ptr r)) <$> reqs st !! x;
  mf_ports : exists q, ports st' = <[p := set_thread_queue q px]> (ports st)
}.

Lemma with_port_ptr_id t : with_port_ptr (port_ptr t) t = t.
Proof. by destruct t. Qed.

Lemma match_frame_refl K p px st : ports st !! p = Some px -> match_frame K p px st st.
Proof.
  intros Hp. constructor; try done.
  - intros u. exists (port_ptr (thread_at st u)). split; [|by left]. unfold thread_at.
    destruct (threads st !! u) as [x|]; [|done]. cbn. by rewrite with_port_ptr_id.
  - intros x. exists (req_nodes st x). unfold req_nodes. destruct (reqs st !! x) as [r|]; [|done]. cbn. by destruct r.
  - exists (thread_queue px). rewrite insert_id; [done|]. by destruct px.
Qed.

Lemma match_frame_trans K p px q st1 st2 st3 :
  match_frame K p px st1 st2 -> match_frame K p (set_thread_queue q px) st2 st3 -> match_frame K p px st1 st3.
Proof.
  intros [[M1 X1] [C1 [C2 C3]] [G1 G1'] T1 R1 P1] [[M2 X2] [D1 [D2 D3]] [G2 G2'] T2 R2 P2]. constructor.
  - split; congruence.
  - repeat split; congruence.
  - split; congruence.
  - intros u. destruct (T1 u) as (v1 & E1 & V1), (T2 u) as (v2 & E2 & V2). exists v2. rewrite E2, E1.
    unfold thread_at in *. rewrite E1 in V2. destruct (threads st1 !! u) as [x|]; [|done]. cbn in *. split; [by destruct x|].
    intros _. specialize (V1 ltac:(done)). destruct (V2 ltac:(done)) as [->|(-> & E & HK)]; [done|].
    right. split; [done|]. destruct V1 as [Hv|(_ & V1 & _)]; [|done]. split; [congruence|done].
  - intros x. destruct (R1 x) as (n1 & E1), (R2 x) as (n2 & E2). exists n2. rewrite E2, E1. by destruct (reqs st1 !! x).
  - destruct P1 as [q1 P1], P2 as [q2 P2]. exists q2. rewrite P2, P1. rewrite insert_insert_eq. by destruct px.
Qed.

Lemma match_frame_weaken (K K' : Z -> Prop) p px st st' :
  (forall u, K u -> K' u) -> match_frame K p px st st' -> match_frame K' p px st st'.
Proof.
  intros HK [H1 H2 H3 H4 H5 H6]. constructor; try done. intros u. destruct (H4 u) as (v & E & V). exists v. split; [done|].
  intros Hu. destruct (V Hu) as [|(? & ? & ?)]; [by left|right; auto].
Qed.

Lemma mf_request K p px st st' r : match_frame K p px st st' -> r_thread (req_at st' r) = r_thread (req_at st r).
Proof. intros F. unfold req_at. destruct (mf_reqs _ _ _ _ _ F r) as (n & ->). by destruct (reqs st !! r). Qed.
Lemma mf_status K p px st st' u : match_frame K p px st st' -> thread_get_status st' u = thread_get_status st u.
Proof.
  intros F. unfold thread_get_status, thread_at. destruct (mf_threads _ _ _ _ _ F u) as (v & -> & _).
  by destruct (threads st !! u).
Qed.

(** passing over threads of another status leaves every waiter as ready as it was *)
Lemma ready_frame p px st st' status r :
  p <> NULL -> match_frame (fun u => thread_get_status st u <> status) p px st st' -> ready st' p status r = ready st p status r.
Proof.
  intros Hp F. unfold ready. rewrite (mf_request _ _ _ _ _ _ F), (mf_status _ _ _ _ _ _ F).
  set (u := r_thread (req_at st r)). destruct (Z.eqb_spec (thread_get_status st u) status) as [Hs|]; [|done]. cbn [andb].
  f_equal. unfold thread_at. destruct (mf_threads _ _ _ _ _ F u) as (v & E & V). rewrite E.
  destruct (threads st !! u) as [x|] eqn:Eu; [|done]. cbn. destruct (V ltac:(done)) as [->|(_ & _ & HK)]; [|done].
  unfold thread_at. by rewrite Eu.
Qed.

(** the port pointer of [u], cleared when it names [p] *)
Definition cleared (p : Z) (x : Thread_Base) : Thread_Base :=
  with_port_ptr (if port_ptr x =? p then NULL else port_ptr x) x.
Lemma port_ptr_cas_effect st u p x :
  threads st !! u = Some x -> port_ptr_cas u p NULL st = (port_ptr x, set_threads (<[u := cleared p x]> (threads st)) st).
Proof.
  intros H. unfold port_ptr_cas, atomic64_cas. rewrite (thread_at_some _ _ _ H). f_equal. unfold upd_thread. f_equal.
  apply map_eq. intros y. destruct (decide (u = y)) as [<-|Hy].
  - rewrite lookup_alter_eq, lookup_insert_eq, H. done.
  - by rewrite lookup_alter_ne, lookup_insert_ne.
Qed.

(** giving back the reference a dequeue returned *)
Lemma put_req_live st r x :
  reqs st !! r = Some x -> 1 < nref (r_node x) < 2 ^ 62 ->
  put_req r st = set_reqs (<[r := mk_req (mk_node (nref (r_node x) - 1) (nnext (r_node x))) (r_thread x) (queue_ptr x)]> (reqs st)) st.
Proof. intros H Hc. unfold put_req. rewrite H, put_live by lia. done. Qed.

(** a waiting queue is a matter of the requests and the ports *)
Lemma waiting_ext st st' p px side d L tg :
  reqs st' = reqs st -> ports st' = ports st -> waiting st p px side d L tg -> waiting st' p px side d L tg.
Proof.
  intros Er Ep [H1 H2 H3 H4 H5 H6 H7]. assert (N : forall a, req_nodes st' a = req_nodes st a) by (intros a; unfold req_nodes; by rewrite Er).
  constructor; try done.
  - by rewrite Ep.
  - apply (is_queue_frame (req_nodes st)); [done|]. intros a Ha. rewrite N. split; [done|].
    exact (proj1 (Forall_forall _ _) (iq_ref _ _ _ _ _ H4) a Ha).
  - apply Forall_forall. intros a Ha. rewrite N. exact (proj1 (Forall_forall _ _) H5 a Ha).
Qed.

Definition rest_side (target : Z) (L : list (Z * Z)) : Z := match L with [] => IPC_PORT_STATE_EMPTY | _ => target end.
Definition rest_tag (tg : Z) (L : list (Z * Z)) : Z := match L with [] => msq_next_tag IPC_PORT_APPEND_BITS tg 0 | _ => tg end.

(** the first waiter [a] leaves the queue and its thread [u] the port *)
Lemma take_first st p px d a t L' tg target x :
  waiting st p px target d ((a, t) :: L') tg -> target = IPC_PORT_STATE_SEND \/ target = IPC_PORT_STATE_RECV ->
  let u := r_thread (req_at st a) in threads st !! u = Some x ->
  exists q' s1 s2, port_queue_op p (msq_dequeue_check_head 0 MSQ_CHECK_FIELD_APPEND (tp_new NULL target)) None st = Some (tp_new a t, s1) /\
    match_frame (fun _ => False) p px st s1 /\ port_ptr_cas u p NULL s1 = (port_ptr x, s2) /\
    match_frame (eq u) p px st s2 /\ threads s2 !! u = Some (cleared p x) /\
    nref (req_nodes s2 a) = nref (req_nodes st a) + 1 /\
    match_frame (eq u) p px st (put_req a s2) /\ ports (put_req a s2) !! p = Some (set_thread_queue q' px) /\
    waiting (put_req a s2) p (set_thread_queue q' px) (rest_side target L') a L' (rest_tag tg L').
Proof.
  intros W Hside u Hx. assert (Ht4 : 0 <= target < 4) by (destruct Hside as [-> | ->]; done).
  destruct (port_dequeue_first _ _ _ _ _ _ _ _ _ W Ht4) as (nd & q' & E & N & Q & Hb).
  set (s1 := upd_port p (set_thread_queue q') (store_req_nodes nd st)) in *.
  set (s2 := set_threads (<[u := cleared p x]> (threads s1)) s1).
  assert (Hin : a ∈ d :: map fst ((a, t) :: L')) by (right; by left).
  destruct (wt_in _ _ _ _ _ _ _ _ W Hin) as (Haddr & Hr & rq & Hrq).
  assert (R1 : forall y, reqs s1 !! y = (fun r => mk_req (req_nodes s1 y) (r_thread r) (queue_ptr r)) <$> reqs st !! y).
  { intros y. etransitivity; [exact (reqs_store st nd y)|]. unfold req_nodes. change (reqs s1) with (reqs (store_req_nodes nd st)).
    rewrite reqs_store. by destruct (reqs st !! y). }
  assert (P1 : ports s1 = <[p := set_thread_queue q' px]> (ports st)).
  { unfold s1, upd_port, set_ports. cbn [ports store_req_nodes set_reqs]. apply map_eq. intros y.
    destruct (decide (p = y)) as [<-|Hy]; [rewrite lookup_alter_eq, lookup_insert_eq, (wt_port _ _ _ _ _ _ _ W); done|].
    by rewrite lookup_alter_ne, lookup_insert_ne. }
  assert (F1 : match_frame (fun _ => False) p px st s1).
  { constructor; try done; [|by eauto|by eauto]. intros v. exists (port_ptr (thread_at st v)). split; [|by left].
    change (threads s1) with (threads st). unfold thread_at. destruct (threads st !! v) as [y|]; [|done]. cbn. by rewrite with_port_ptr_id. }
  assert (F2 : match_frame (eq u) p px st s2).
  { destruct F1 as [G1 G2 G3 G4 G5 G6]. constructor; try done. intros v. change (threads s2) with (<[u := cleared p x]> (threads st)).
    destruct (decide (u = v)) as [<-|Hv].
    - exists (if port_ptr x =? p then NULL else port_ptr x). rewrite lookup_insert_eq, Hx. split; [done|]. intros _.
      rewrite (thread_at_some _ _ _ Hx). destruct (Z.eqb_spec (port_ptr x) p); [by right|by left].
    - rewrite lookup_insert_ne by done. destruct (G4 v) as (w & Ew & Vw). exists w. split; [exact Ew|].
      intros Hn. destruct (Vw Hn) as [|(? & ? & [])]. by left. }
  assert (Ra : reqs s2 !! a = Some (mk_req (req_nodes s1 a) (r_thread rq) (queue_ptr rq))).
  { change (reqs s2) with (reqs s1). by rewrite R1, Hrq. }
  assert (Na : req_nodes s1 a = mk_node (nref (req_nodes st a) + 1) (nnext (req_nodes st a))) by (by rewrite N, decide_True).
  rewrite Na in Ra.
  assert (Ep : put_req a s2 = set_reqs (<[a := mk_req (mk_node (nref (req_nodes st a)) (nnext (req_nodes st a))) (r_thread rq) (queue_ptr rq)]> (reqs s2)) s2).
  { rewrite (put_req_live s2 a _ Ra) by (cbn; lia). cbn [r_node nref nnext r_thread queue_ptr]. by rewrite Z.add_simpl_r. }
  assert (Np : forall y, req_nodes (put_req a s2) y = req_nodes st y).
  { intros y. rewrite Ep. unfold req_nodes at 1, set_reqs. cbn [reqs]. destruct (decide (a = y)) as [<-|Hy].
    - rewrite lookup_insert_eq. cbn [r_node]. by destruct (req_nodes st a).
    - rewrite lookup_insert_ne by done. change (match reqs s2 !! y with Some r => r_node r | None => mk_node 0 0 end) with (req_nodes s1 y).
      by rewrite N, decide_False. }
  assert (F3 : match_frame (eq u) p px st (put_req a s2)).
  { rewrite Ep. destruct F2 as [G1 G2 G3 G4 G5 G6]. constructor; try done. intros y. unfold set_reqs. cbn [reqs].
    destruct (decide (a = y)) as [<-|Hy]; [|rewrite lookup_insert_ne by done; apply G5].
    rewrite lookup_insert_eq, Hrq. by eexists. }
  assert (P3 : ports (put_req a s2) !! p = Some (set_thread_queue q' px)).
  { rewrite Ep. change (ports _) with (ports s1). by rewrite P1, lookup_insert_eq. }
  exists q', s1, s2. split; [exact E|]. split; [exact F1|]. split; [by apply port_ptr_cas_effect|]. split; [exact F2|].
  split; [unfold s2, set_threads; cbn [threads]; by rewrite lookup_insert_eq|].
  split; [change (req_nodes s2 a) with (req_nodes s1 a); by rewrite Na|]. split; [exact F3|]. split; [exact P3|].
  pose proof (wt_count _ _ _ _ _ _ _ W) as Hc. apply list.Forall_cons in Hc as [_ Hc].
  pose proof (wt_tags _ _ _ _ _ _ _ W) as Htg. apply list.Forall_cons in Htg as [Htg Htl]. apply list.Forall_cons in Htl as [_ Htl].
  assert (Hmove : forall b, b ∈ a :: map fst L' -> 0 < nref (req_nodes st b) < 2 ^ 60).
  { intros b Hbin. apply (wt_in _ _ _ _ _ _ _ _ W). by right. }
  constructor; try done.
  - exact (wt_null _ _ _ _ _ _ _ W).
  - apply (is_queue_frame (req_nodes s1)); [exact Q|]. intros b Hbin. rewrite Np, N. split; [by case_decide; subst|].
    specialize (Hmove b Hbin). lia.
  - apply Forall_forall. intros b Hbin. rewrite Np. by apply Hmove.
  - destruct L' as [|[b v] L'']; cbn [rest_tag rest_side].
    + constructor; [|done]. by apply next_tag_state.
    + by constructor.
  - by destruct L'.
Qed.

(** every waiting request has a thread *)
Definition waiters_ok st (L : list (Z * Z)) : Prop :=
  Forall (fun a => r_thread (req_at st (fst a)) <> NULL /\ is_Some (threads st !! r_thread (req_at st (fst a)))) L.

Lemma waiters_ok_frame K p px st st' L : match_frame K p px st st' -> waiters_ok st L -> waiters_ok st' L.
Proof.
  intros F H. apply Forall_forall. intros a Ha. pose proof (proj1 (Forall_forall _ _) H a Ha) as [H1 H2]. cbn in H1, H2.
  rewrite (mf_request _ _ _ _ _ _ F). split; [done|]. destruct (mf_threads _ _ _ _ _ F (r_thread (req_at st (fst a)))) as (v & -> & _).
  by apply fmap_is_Some.
Qed.

(** a thread that is not ready is never cleared for good *)
Lemma skip_frame p px st st' status r :
  r_thread (req_at st r) <> NULL -> ready st p status r = false ->
  match_frame (eq (r_thread (req_at st r))) p px st st' ->
  match_frame (fun u => thread_get_status st u <> status) p px st st'.
Proof.
  intros Hn Hr [H1 H2 H3 H4 H5 H6]. constructor; try done. intros v. destruct (H4 v) as (w & E & V). exists w. split; [done|].
  intros Hv. destruct (V Hv) as [|(Hw & Hp & <-)]; [by left|]. right. split; [done|]. split; [done|]. intros Hs.
  unfold ready in Hr. rewrite Hs, Hp, !Z.eqb_refl in Hr. done.
Qed.

Lemma tp_ptr_some a t : node_addr a -> tp_is_none (tp_new a t) = false /\ tp_get_ptr (tp_new a t) = a.
Proof.
  intros [Hc H0]. split; [|by apply tp_new_get_ptr]. unfold tp_is_none. apply Z.eqb_neq. intros E. apply H0.
  by rewrite <- (tp_new_get_ptr a t Hc), E.
Qed.

Section TryMatch.
Context (p my : Z).
Let target := other_side my.
Let status := blocked_status target.

Lemma target_side : target = IPC_PORT_STATE_SEND \/ target = IPC_PORT_STATE_RECV.
Proof. unfold target, other_side. destruct (_ =? _); auto. Qed.
Lemma status_of_my : (if my =? IPC_PORT_STATE_SEND then thread_status_block_on_receive else thread_status_block_on_send) = status.
Proof. unfold status, target, other_side, blocked_status. by destruct (my =? _). Qed.

(** the loop up to the choice between passing over and taking the first waiter *)
Lemma try_match_unfold fuel st px d a t L tg x :
  waiting st p px target d ((a, t) :: L) tg ->
  let u := r_thread (req_at st a) in u <> NULL -> threads st !! u = Some x ->
  exists q' s2, ipc_port_try_match p my (S fuel) st =
      (if ready st p status a then Some (a, s2) else ipc_port_try_match p my fuel (put_req a s2)) /\
    match_frame (eq u) p px st s2 /\ threads s2 !! u = Some (cleared p x) /\
    nref (req_nodes s2 a) = nref (req_nodes st a) + 1 /\
    match_frame (eq u) p px st (put_req a s2) /\
    waiting (put_req a s2) p (set_thread_queue q' px) (rest_side target L) a L (rest_tag tg L).
Proof.
  intros W u Hu Hx.
  destruct (take_first st p px d a t L tg target x W target_side Hx) as (q' & s1 & s2 & E & F1 & Ec & F2 & T2 & N2 & F3 & _ & W3).
  exists q', s2. split; [|done]. cbn [ipc_port_try_match].
  destruct (Z.eqb_spec p NULL) as [E0|_]; [by apply (wt_null _ _ _ _ _ _ _ W) in E0|].
  fold (other_side my). fold target. rewrite status_of_my, E. cbn [mbind option_bind].
  destruct (wt_in _ _ _ _ _ _ _ a W ltac:(right; by left)) as (Ha & _ & _).
  destruct (tp_ptr_some a t Ha) as [-> ->]. rewrite (mf_request _ _ _ _ _ _ F1), (mf_status _ _ _ _ _ _ F1), Ec.
  unfold ready. fold u. rewrite (thread_at_some _ _ _ Hx). destruct (thread_get_status st u =? status); cbn [negb andb]; [|done].
  by destruct (port_ptr x =? p).
Qed.

Definition skipped (st : istate A) (u : Z) : Prop := thread_get_status st u <> status.

(** all waiters have gone: the queue ends empty *)
Lemma try_match_none dead fuel st px d tg :
  waiting st p px (rest_side target dead) d dead tg -> waiters_ok st dead ->
  Forall (fun a => ready st p status (fst a) = false) dead -> (length dead < fuel)%nat ->
  exists st' q' d' tg', ipc_port_try_match p my fuel st = Some (NULL, st') /\
    match_frame (skipped st) p px st st' /\
    waiting st' p (set_thread_queue q' px) IPC_PORT_STATE_EMPTY d' [] tg'.
Proof.
  revert fuel st px d tg. induction dead as [|[a t] dead IH]; intros [|fuel] st px d tg W Ok Hd Hf; try (cbn in Hf; lia).
  - exists st, (thread_queue px), d, tg. split.
    + cbn [ipc_port_try_match]. destruct (Z.eqb_spec p NULL) as [E0|_]; [by apply (wt_null _ _ _ _ _ _ _ W) in E0|].
      fold (other_side my). fold target.
      rewrite (port_dequeue_none _ _ _ _ _ _ _ target W); [done| |by left].
      destruct target_side as [Hs|Hs]; rewrite Hs; done.
    + split; [apply match_frame_refl, (wt_port _ _ _ _ _ _ _ W)|]. cbn [rest_side] in W. by destruct px.
  - apply list.Forall_cons in Ok as [[Hu [x Hx]] Ok]. apply list.Forall_cons in Hd as [Hr Hd]. cbn [fst] in *.
    destruct (try_match_unfold fuel st px d a t dead tg x W Hu Hx) as (q1 & s2 & E & _ & _ & _ & F & W').
    rewrite Hr in E. apply (skip_frame p px st _ status a Hu Hr) in F. pose proof (wt_null _ _ _ _ _ _ _ W) as Hp.
    destruct (IH fuel (put_req a s2) (set_thread_queue q1 px) a (rest_tag tg dead)) as (st' & q' & d' & tg' & E' & F' & W2); [done| | | |].
    + by eapply waiters_ok_frame.
    + eapply Forall_impl; [exact Hd|]. intros b Hb. cbn in Hb |- *. by rewrite (ready_frame p px st _ status _ Hp F).
    + cbn in Hf. lia.
    + exists st', q', d', tg'. rewrite E. split; [done|]. split; [|by destruct px].
      eapply match_frame_trans; [exact F|]. eapply match_frame_weaken; [|exact F'].
      intros u. unfold skipped. by rewrite (mf_status _ _ _ _ _ _ F).
Qed.

(** the first waiter that is still ready is returned *)
Lemma try_match_first dead fuel st px d a t rest tg :
  waiting st p px target d (dead ++ (a, t) :: rest) tg -> waiters_ok st (dead ++ [(a, t)]) ->
  Forall (fun b => ready st p status (fst b) = false) dead -> ready st p status a = true -> (length dead < fuel)%nat ->
  let u := r_thread (req_at st a) in
  exists st' q' tg' y, ipc_port_try_match p my fuel st = Some (a, st') /\
    match_frame (fun v => v = u \/ skipped st v) p px st st' /\
    threads st' !! u = Some y /\ port_ptr y = NULL /\
    waiting (put_req a st') p (set_thread_queue q' px) (rest_side target rest) a rest tg'.
Proof.
  revert fuel st px d tg. induction dead as [|[b v] dead IH]; intros [|fuel] st px d tg W Ok Hd Hr Hf; try (cbn in Hf; lia).
  - apply list.Forall_cons in Ok as [[Hu [x Hx]] _]. cbn [fst app] in *.
    destruct (try_match_unfold fuel st px d a t rest tg x W Hu Hx) as (q1 & s2 & E & F2 & T2 & N2 & _ & W').
    rewrite Hr in E. exists s2, q1, (rest_tag tg rest), (cleared p x). split; [exact E|].
    split; [eapply match_frame_weaken; [|exact F2]; intros u' <-; by left|]. split; [exact T2|]. split; [|exact W'].
    unfold ready in Hr. bool_hyps. unfold cleared. cbn [port_ptr with_port_ptr]. rewrite (thread_at_some _ _ _ Hx) in *.
    by destruct (Z.eqb_spec (port_ptr x) p).
  - cbn [app] in *. apply list.Forall_cons in Ok as [[Hu [x Hx]] Ok]. apply list.Forall_cons in Hd as [Hb Hd]. cbn [fst] in *.
    destruct (try_match_unfold fuel st px d b v _ tg x W Hu Hx) as (q1 & s2 & E & _ & _ & _ & F & W').
    rewrite Hb in E. apply (skip_frame p px st _ status b Hu Hb) in F. pose proof (wt_null _ _ _ _ _ _ _ W) as Hp.
    assert (Hrs : rest_side target (dead ++ (a, t) :: rest) = target) by by destruct dead.
    rewrite Hrs in W'.
    destruct (IH fuel (put_req b s2) (set_thread_queue q1 px) b (rest_tag tg (dead ++ (a, t) :: rest)))
      as (st' & q' & tg' & y & E' & F' & T' & Py & W2); [done| | | | |].
    + by eapply waiters_ok_frame.
    + eapply Forall_impl; [exact Hd|]. intros c Hc. cbn in Hc |- *. by rewrite (ready_frame p px st _ status _ Hp F).
    + by rewrite (ready_frame p px st _ status _ Hp F).
    + cbn in Hf. lia.
    + exists st', q', tg', y. rewrite E. rewrite (mf_request _ _ _ _ _ _ F) in F', T'. split; [done|]. split; [|split; [done|split; [done|by destruct px]]].
      eapply match_frame_trans; [eapply match_frame_weaken; [|exact F]; by right|]. eapply match_frame_weaken; [|exact F'].
      intros u'. unfold skipped. by rewrite (mf_status _ _ _ _ _ _ F).
Qed.
End TryMatch.
End Matching.
