(* ===== verification/IpcRendezvous.v ===== *)
(** * The rendezvous

    Sending to a port with waiting receivers and receiving from a port with
    waiting senders, as whole calls: what the caller gets, what the peer gets,
    who is woken, and what is left of the waiting queue. *)
From S2P Require Import Prelude ThreadStatus Mm CString Allocator TaggedPtr Refcount MsQueue MsqSeq Message IpcState Ipc IpcSpec.

Section Rendezvous.
Context {A : Type} `{HA : Allocator A}.
Context (hooks : Z -> port_append_hooks A) (schedule : istate A -> istate A).
Implicit Types st : istate A.

(** ** The section guard *)

Lemma registered_life st p px : ports st !! p = Some px -> port_is_registered st p = true -> i64 (ops_life px) = PORT_OPS_LIFE_REGISTERED.
Proof.
  intros Hp. unfold port_is_registered, port_ops_life_get. destruct (Z.eqb_spec p NULL); [done|].
  rewrite (port_at_some _ _ _ Hp). intros H. by apply Z.eqb_eq in H.
Qed.

Definition counted (px : Message_Port_t) : Message_Port_t := with_count (u64 (ops_count px + 1)) px.

Lemma begin_effect st p px op :
  op = PORT_OPS_SEND \/ op = PORT_OPS_RECV -> p <> NULL -> ports st !! p = Some px -> port_is_registered st p = true ->
  allows hooks p op None st = REND_SUCCESS ->
  port_ops_begin hooks p op st = (true, set_ports (<[p := counted px]> (ports st)) st).
Proof.
  intros Hop Hp0 Hp Hr Ha. unfold port_ops_begin. destruct (Z.eqb_spec p NULL); [done|].
  assert (E : port_ops_count_inc p st = set_ports (<[p := counted px]> (ports st)) st).
  { unfold port_ops_count_inc. destruct (Z.eqb_spec p NULL); [done|]. unfold upd_port. f_equal. apply map_eq. intros y.
    destruct (decide (p = y)) as [<-|Hy]; [by rewrite lookup_alter_eq, lookup_insert_eq, Hp|]. by rewrite lookup_alter_ne, lookup_insert_ne. }
  assert (Hr' : port_is_registered (port_ops_count_inc p st) p = true).
  { rewrite E. unfold port_is_registered, port_ops_life_get. destruct (Z.eqb_spec p NULL); [done|].
    rewrite (port_at_some _ p (counted px)) by (unfold set_ports; cbn [ports]; by rewrite lookup_insert_eq).
    cbn [counted with_count ops_life]. rewrite (registered_life _ _ _ Hp Hr). done. }
  destruct Hop as [-> | ->]; rewrite Hr, Ha, Hr'; cbn [negb]; rewrite Z.eqb_refl; by rewrite E.
Qed.

Lemma begin_refused st p op :
  port_is_registered st p = false -> port_ops_begin hooks p op st = (false, st).
Proof. intros H. unfold port_ops_begin. rewrite H. destruct (p =? NULL); [done|]. by destruct op. Qed.

Lemma count_back c : 0 <= c < 2 ^ 64 -> u64 (u64 (c + 1) - 1) = c.
Proof. intros H. unfold u64, wrap. rewrite Zminus_mod_idemp_l, Z.add_simpl_r. by apply Z.mod_small. Qed.

(** entering does not disturb the waiters *)
Lemma waiting_counted st p px side d L tg :
  waiting st p px side d L tg -> waiting (set_ports (<[p := counted px]> (ports st)) st) p (counted px) side d L tg.
Proof.
  intros [H1 H2 H3 H4 H5 H6 H7]. constructor; try done. unfold set_ports. cbn [ports]. by rewrite lookup_insert_eq.
Qed.

(** leaving undoes the count of entering *)
Lemma end_effect st p px q side d L tg :
  0 <= ops_count px < 2 ^ 64 -> waiting st p (set_thread_queue q (counted px)) side d L tg ->
  port_ops_end p st = set_ports (<[p := set_thread_queue q px]> (ports st)) st /\
  waiting (port_ops_end p st) p (set_thread_queue q px) side d L tg.
Proof.
  intros Hc W. unfold port_ops_end, port_ops_count_dec. pose proof (wt_null _ _ _ _ _ _ _ W) as H0.
  destruct (Z.eqb_spec p NULL); [done|].
  assert (E : upd_port p (fun x => with_count (u64 (ops_count x - 1)) x) st = set_ports (<[p := set_thread_queue q px]> (ports st)) st).
  { unfold upd_port. f_equal. apply map_eq. intros y. destruct (decide (p = y)) as [<-|Hy].
    - rewrite lookup_alter_eq, lookup_insert_eq, (wt_port _ _ _ _ _ _ _ W). cbn. f_equal. destruct px as [q0 rc tb nm si li ct ah].
      unfold counted, set_thread_queue, with_count. cbn in *. by rewrite count_back.
    - by rewrite lookup_alter_ne, lookup_insert_ne. }
  rewrite E. split; [done|].
  destruct W as [W1 W2 W3 W4 W5 W6 W7]. constructor; try done. unfold set_ports. cbn [ports]. by rewrite lookup_insert_eq.
Qed.

(** the end of a call that had matched request [a] *)
Lemma leave_effect st p px q a side L tg :
  0 <= ops_count px < 2 ^ 64 -> waiting (put_req a st) p (set_thread_queue q (counted px)) side a L tg ->
  waiting (leave p a st) p (set_thread_queue q px) side a L tg /\
  mem (leave p a st) = mem st /\ msg_next (leave p a st) = msg_next st /\ threads (leave p a st) = threads st.
Proof.
  intros Hc W. destruct (end_effect _ p px q side a L tg Hc W) as [E W']. unfold leave. split; [exact W'|]. rewrite E.
  unfold put_req. destruct (reqs st !! a) as [r|]; [|done]. by destruct (ref_put _ _) as [c []].
Qed.

(** ** A matched pair *)

(** a transfer depends on the two threads and the message memory only, not on
    port pointers *)
Lemma transfer_ready_match st st2 s r ts ds Ls tgs tr dr Lr tgr n x dd vs vr :
  mem st2 = mem st -> msg_next st2 = msg_next st ->
  threads st2 !! s = Some (with_port_ptr vs ts) -> threads st2 !! r = Some (with_port_ptr vr tr) ->
  transfer_ready st s r ts ds Ls tgs tr dr Lr tgr n x dd ->
  transfer_ready st2 s r (with_port_ptr vs ts) ds Ls tgs (with_port_ptr vr tr) dr Lr tgr n x dd.
Proof.
  intros Em En Es Er [H1 H2 H3 H4 H5 H6 H7 H8 H9 H10 H11 H12 H13 H14].
  assert (N : forall a, msg_nodes st2 a = msg_nodes st a) by (intros a; unfold msg_nodes; by rewrite Em, En).
  assert (F : forall q d L tg, mq st q d L tg -> mq st2 q d L tg).
  { intros q d L tg Q. apply (mq_frame st); [done|]. intros a Ha. rewrite N. split; [done|]. by apply (mq_in _ _ _ _ _ _ Q). }
  constructor; try done; try (by rewrite Em); try (by apply F).
Qed.

Lemma mf_thread K p px st st' u x :
  match_frame K p px st st' -> threads st !! u = Some x -> exists v, threads st' !! u = Some (with_port_ptr v x).
Proof. intros F Hx. destruct (mf_threads _ _ _ _ _ F u) as (v & E & _). exists v. by rewrite E, Hx. Qed.

(** a matched sender [s] and receiver [r]: the message moves, and the waiter
    behind request [a] is woken *)
Definition woken (status : Z) (x : Thread_Base) : Thread_Base := with_status (if t_status x =? status then thread_status_ready else t_status x) x.

Lemma wake_effect st a u blocked x :
  r_thread (req_at st a) = u -> u <> NULL -> threads st !! u = Some x ->
  wake a blocked st = set_threads (<[u := woken blocked x]> (threads st)) st.
Proof.
  intros <- Hu Hx. unfold wake, thread_set_status_with_expect. destruct (Z.eqb_spec (r_thread (req_at st a)) NULL); [done|].
  rewrite (thread_at_some _ _ _ Hx). unfold atomic64_cas. cbn [snd]. unfold upd_thread. f_equal. apply map_eq. intros y.
  destruct (decide (r_thread (req_at st a) = y)) as [<-|Hy]; [by rewrite lookup_alter_eq, lookup_insert_eq, Hx|].
  by rewrite lookup_alter_ne, lookup_insert_ne.
Qed.

Lemma put_req_ext st st' a :
  reqs st' = reqs st -> ports st' = ports st -> reqs (put_req a st') = reqs (put_req a st) /\ ports (put_req a st') = ports (put_req a st).
Proof.
  intros E1 E2. unfold put_req. rewrite E1. destruct (reqs st !! a) as [r|]; [|done].
  destruct (ref_put _ _) as [c z]. destruct z; cbn; by rewrite ?E1.
Qed.

(** the message of the sender is in the receiver's queue *)
Record delivered st' s r ts ds Ls tgs tr dr Lr tgr n x dd : Prop := {
  dl_recv : exists q w v, threads st' !! r = Some (with_status w (with_port_ptr v (with_recv_cnt (u64 (recv_pending_cnt tr + 1)) (with_recv_queue q tr)))) /\
    mq st' q dr (Lr ++ [(n, u16 (tgr + 1))]) (u16 (tgr + 1));
  dl_msg : msgs (mem st') !! n = Some (mk_message ref_init (msg_data x) NULL);
  dl_data : datas (mem st') !! msg_data x = Some (with_md_refcount (md_refcount dd + 1) dd);
  dl_send : exists q w v, threads st' !! s = Some (with_status w (with_port_ptr v (with_send_queue q (with_pending NULL ts)))) /\
    mq st' q (fst (rest_queue ts ds Ls)) (snd (rest_queue ts ds Ls)) tgs
}.

Lemma with_status_id x : with_status (t_status x) x = x.
Proof. by destruct x. Qed.

(** transfer, wake and leave, after request [a] of thread [w] was matched *)
Lemma exchange_effect st p px q a side L tg s r w blocked ts ds Ls tgs tr dr Lr tgr n x dd :
  transfer_ready st s r ts ds Ls tgs tr dr Lr tgr n x dd -> w = s \/ w = r ->
  r_thread (req_at st a) = w -> (forall y, threads st !! w = Some y -> t_status y = blocked) ->
  0 <= ops_count px < 2 ^ 64 ->
  waiting (put_req a st) p (set_thread_queue q (counted px)) side a L tg ->
  exists st3, ipc_transfer_message s r st = Some (REND_SUCCESS, st3) /\
    let st' := leave p a (wake a blocked st3) in
    delivered st' s r ts ds Ls tgs tr dr Lr tgr n x dd /\
    (exists y, threads st' !! w = Some y /\ t_status y = thread_status_ready) /\
    waiting st' p (set_thread_queue q px) side a L tg.
Proof.
  intros T Hw Ha Hst Hc W.
  destruct (transfer_effect st s r ts ds Ls tgs tr dr Lr tgr n x dd T) as (st3 & E & (qr & Er & Qr) & En & (qs & Es & Qs) & _ & Ed & _ & SB).
  destruct (tr_ptrs _ _ _ _ _ _ _ _ _ _ _ _ _ _ T) as (Hs0 & Hr0 & Hsr).
  exists st3. split; [exact E|]. cbv zeta.
  assert (Ha3 : r_thread (req_at st3 a) = w) by (unfold req_at; by rewrite (sb_reqs _ _ _ _ SB)).
  assert (Hw3 : exists y, threads st3 !! w = Some y /\ t_status y = blocked).
  { destruct Hw as [-> | ->].
    - eexists. split; [exact Es|]. cbn. exact (Hst ts (tr_s _ _ _ _ _ _ _ _ _ _ _ _ _ _ T)).
    - eexists. split; [exact Er|]. cbn. exact (Hst tr (tr_r _ _ _ _ _ _ _ _ _ _ _ _ _ _ T)). }
  destruct Hw3 as (y & Hy & Hys). assert (Hw0 : w <> NULL) by (by destruct Hw as [-> | ->]).
  rewrite (wake_effect st3 a w blocked y Ha3 Hw0 Hy). set (st4 := set_threads _ st3).
  assert (W4 : waiting (put_req a st4) p (set_thread_queue q (counted px)) side a L tg).
  { destruct (put_req_ext st st4 a (sb_reqs _ _ _ _ SB) (sb_ports _ _ _ _ SB)) as [E1 E2].
    by apply (waiting_ext (put_req a st)). }
  destruct (leave_effect st4 p px q a side L tg Hc W4) as (W5 & Em & Enx & Et).
  split; [|split; [|exact W5]].
  - assert (N : forall b, msg_nodes (leave p a st4) b = msg_nodes st3 b) by (intros b; unfold msg_nodes; by rewrite Em, Enx).
    assert (F : forall q d L tg, mq st3 q d L tg -> mq (leave p a st4) q d L tg).
    { intros q0 d0 L0 tg0 Q. apply (mq_frame st3); [done|]. intros b Hb. rewrite N. split; [done|]. by apply (mq_in _ _ _ _ _ _ Q). }
    constructor; rewrite ?Em.
    + exists qr. rewrite Et. change (threads st4) with (<[w := woken blocked y]> (threads st3)).
      destruct (decide (w = r)) as [->|Hne].
      * rewrite lookup_insert_eq. rewrite Er in Hy. injection Hy as <-. eexists _, (port_ptr tr). split; [|by apply F]. by destruct tr.
      * rewrite lookup_insert_ne by done. exists (t_status tr), (port_ptr tr). split; [|by apply F]. rewrite Er. by destruct tr.
    + exact En.
    + change (mem st4) with (mem st3). rewrite Ed. by rewrite lookup_insert_eq.
    + exists qs. rewrite Et. change (threads st4) with (<[w := woken blocked y]> (threads st3)).
      destruct (decide (w = s)) as [->|Hne].
      * rewrite lookup_insert_eq. rewrite Es in Hy. injection Hy as <-. eexists _, (port_ptr ts). split; [|by apply F]. by destruct ts.
      * rewrite lookup_insert_ne by done. exists (t_status ts), (port_ptr ts). split; [|by apply F]. rewrite Es. by destruct ts.
  - exists (woken blocked y). rewrite Et. change (threads st4) with (<[w := woken blocked y]> (threads st3)). rewrite lookup_insert_eq.
    split; [done|]. unfold woken. rewrite Hys, Z.eqb_refl. done.
Qed.

(** ** Whole calls *)

Record port_open st (p : Z) (px : Message_Port_t) (op : port_ops_type) : Prop := {
  po_port : ports st !! p = Some px;
  po_life : port_is_registered st p = true;
  po_allow : allows hooks p op None st = REND_SUCCESS;
  po_count : 0 <= ops_count px < 2 ^ 64
}.

(** behind waiters that have gone, request [a] of thread [u] is ready *)
Record first_waiter st p px side d dead a t rest tg u : Prop := {
  fw_queue : waiting st p px side d (dead ++ (a, t) :: rest) tg;
  fw_threads : waiters_ok st (dead ++ [(a, t)]);
  fw_dead : Forall (fun b => ready st p (blocked_status side) (fst b) = false) dead;
  fw_ready : ready st p (blocked_status side) a = true;
  fw_thread : r_thread (req_at st a) = u
}.

Lemma fw_status st p px side d dead a t rest tg u :
  first_waiter st p px side d dead a t rest tg u -> u <> NULL /\ forall y, threads st !! u = Some y -> t_status y = blocked_status side.
Proof.
  intros [W1 W2 W3 W4 W5]. apply Forall_app in W2 as [_ W2]. apply list.Forall_cons in W2 as [[H1 _] _]. cbn in H1. rewrite W5 in H1.
  split; [done|]. intros y Hy. unfold ready in W4. rewrite W5 in W4. bool_hyps. unfold thread_get_status in *.
  destruct (Z.eqb_spec u NULL); [done|]. by rewrite (thread_at_some _ _ _ Hy) in *.
Qed.

(** the state after the guard and the match, ready for the exchange *)
Lemma matched st p px my d dead a t rest tg u fuel s r ts ds Ls tgs tr dr Lr tgr n x dd :
  let op := if my =? IPC_PORT_STATE_SEND then PORT_OPS_SEND else PORT_OPS_RECV in
  my = IPC_PORT_STATE_SEND \/ my = IPC_PORT_STATE_RECV ->
  port_open st p px op -> first_waiter st p px (other_side my) d dead a t rest tg u ->
  transfer_ready st s r ts ds Ls tgs tr dr Lr tgr n x dd -> (length dead < fuel)%nat ->
  exists st1 st2 q' tg' vs vr, port_ops_begin hooks p op st = (true, st1) /\ ipc_port_try_match p my fuel st1 = Some (a, st2) /\
    transfer_ready st2 s r (with_port_ptr vs ts) ds Ls tgs (with_port_ptr vr tr) dr Lr tgr n x dd /\
    r_thread (req_at st2 a) = u /\ (forall y, threads st2 !! u = Some y -> t_status y = blocked_status (other_side my)) /\
    waiting (put_req a st2) p (set_thread_queue q' (counted px)) (rest_side (other_side my) rest) a rest tg'.
Proof.
  intros op Hmy [P1 P2 P3 P4] FW T Hf. pose proof FW as [W1 W2 W3 W4 W5]. pose proof (wt_null _ _ _ _ _ _ _ W1) as Hp0.
  assert (Hop : op = PORT_OPS_SEND \/ op = PORT_OPS_RECV) by (unfold op; destruct (_ =? _); auto).
  pose proof (begin_effect st p px op Hop Hp0 P1 P2 P3) as B. apply waiting_counted in W1.
  set (st1 := set_ports (<[p := counted px]> (ports st)) st) in *.
  destruct (try_match_first p my dead fuel st1 (counted px) d a t rest tg W1 W2 W3 W4 Hf) as (st2 & q' & tg' & y & E & F & Ty & Py & W).
  change (r_thread (req_at st1 a)) with (r_thread (req_at st a)) in *. rewrite W5 in *.
  destruct (mf_thread _ _ _ _ _ s ts F (tr_s _ _ _ _ _ _ _ _ _ _ _ _ _ _ T)) as [vs Hvs].
  destruct (mf_thread _ _ _ _ _ r tr F (tr_r _ _ _ _ _ _ _ _ _ _ _ _ _ _ T)) as [vr Hvr].
  exists st1, st2, q', tg', vs, vr. split; [exact B|]. split; [exact E|]. split.
  { destruct (mf_mem _ _ _ _ _ F) as [M1 M2]. by apply (transfer_ready_match st). }
  split; [by rewrite (mf_request _ _ _ _ _ _ F)|]. split.
  { intros z Hz. destruct (fw_status _ _ _ _ _ _ _ _ _ _ _ FW) as [Hu Hs]. pose proof (mf_status _ _ _ _ _ u F) as Es.
    unfold thread_get_status in Es. destruct (Z.eqb_spec u NULL); [done|]. rewrite (thread_at_some _ _ _ Hz) in Es.
    destruct (mf_threads _ _ _ _ _ F u) as (v & Ev & _). rewrite Hz in Ev. change (threads st1) with (threads st) in Ev.
    destruct (threads st !! u) as [y0|] eqn:Ey; [|done]. rewrite Es. change (thread_at st1 u) with (thread_at st u).
    rewrite (thread_at_some _ _ _ Ey). by apply Hs. }
  exact W.
Qed.

Lemma delivered_ports st s r ts ds Ls tgs tr dr Lr tgr n x dd vs vr :
  delivered st s r (with_port_ptr vs ts) ds Ls tgs (with_port_ptr vr tr) dr Lr tgr n x dd ->
  delivered st s r ts ds Ls tgs tr dr Lr tgr n x dd.
Proof.
  intros [(q & w & v & E & Q) H2 H3 (q' & w' & v' & E' & Q')]. constructor; [|done|done|].
  - exists q, w, v. by destruct tr.
  - exists q', w', v'. by destruct ts.
Qed.


End Rendezvous.
