(* ===== verification/IpcWait.v ===== *)
(** * Waiting on a port

    [ipc_port_enqueue_wait] and the calls that block: the port's queue holds
    waiters of one side only, a call that cannot be matched joins its end, and
    what it returns when it runs again is decided by the close flag. *)
From S2P Require Import Prelude ThreadStatus Mm CString Allocator TaggedPtr Refcount MsQueue MsqSeq Message IpcState Ipc IpcSpec IpcRendezvous.

Section Wait.
Context {A : Type} `{HA : Allocator A}.
Context (hooks : Z -> port_append_hooks A) (schedule : istate A -> istate A).
Implicit Types st : istate A.

(** ** Enqueue on the waiting queue *)

Lemma wait_call st p px side d L tg req my expected :
  waiting st p px side d L tg ->
  node_addr req -> req ∉ d :: map fst L -> 0 < nref (req_nodes st req) < 2 ^ 60 - 1 ->
  (my = IPC_PORT_STATE_SEND \/ my = IPC_PORT_STATE_RECV) -> expected = side -> 
  exists nd q', let st' := upd_port p (set_thread_queue q') (store_req_nodes nd st) in
    port_queue_op p (msq_enqueue_check_tail 0 req my (tp_new NULL expected)) (Some FN_free_ipc_request_real) st = Some (REND_SUCCESS, st') /\
    (forall x, req_nodes st' x = if decide (x = req) then mk_node (nref (req_nodes st req) + 1) 0
       else if decide (x = last_node d L) then mk_node (nref (req_nodes st x)) (tp_new req (msq_next_tag IPC_PORT_APPEND_BITS tg my))
       else req_nodes st x) /\
    is_queue (req_nodes st') q' d (L ++ [(req, msq_next_tag IPC_PORT_APPEND_BITS tg my)]) (msq_next_tag IPC_PORT_APPEND_BITS tg my) /\
    append_info_bits q' = IPC_PORT_APPEND_BITS.
Proof.
  intros W Ha Hn Hr Hmy ->. pose proof (wt_queue _ _ _ _ _ _ _ W) as Q. pose proof (wt_bits _ _ _ _ _ _ _ W) as Hb.
  unfold port_queue_op. rewrite (port_at_some _ _ _ (wt_port _ _ _ _ _ _ _ W)). unfold on_reqs.
  pose proof (enqueue_check_spec _ _ _ _ _ req my (tp_new NULL side) Q Ha Hn ltac:(lia)) as H. cbv zeta in H.
  rewrite Hb, port_mask in H. specialize (H ltac:(done)).
  assert (Hside : 0 <= side < 4).
  { pose proof (wt_side _ _ _ _ _ _ _ W) as Hs. destruct L; [by rewrite Hs|]. by destruct Hs as [-> | ->]. }
  assert (Hok : (Z.land tg 3 =? Z.land (tp_get_tag (tp_new NULL side)) 3) = true).
  { apply Z.eqb_eq. rewrite tp_new_get_tag, u16_small by lia. pose proof (wt_tags _ _ _ _ _ _ _ W) as Ht.
    apply list.Forall_cons in Ht as [-> _]. change 3 with (Z.ones 2). rewrite Z.land_ones by lia. symmetry. by apply Z.mod_small. }
  rewrite Hok in H. destruct H as (nd & q' & E & Hb' & Q' & Hx). exists nd, q'. cbv zeta. rewrite E. cbn [retire_all fold_left mbind option_bind].
  assert (N : forall x, req_nodes (upd_port p (set_thread_queue q') (store_req_nodes nd st)) x = nd x).
  { intros x. apply (req_nodes_store st nd). intros y Hy. rewrite Hx.
    assert (Hz : req_nodes st y = mk_node 0 0) by (unfold req_nodes; by rewrite Hy).
    destruct (decide (y = req)) as [->|]; [rewrite Hz in Hr; cbn in Hr; lia|].
    destruct (decide (y = last_node d L)) as [->|]; [|done].
    destruct (wt_in _ _ _ _ _ _ _ _ W (last_node_in d L)) as (_ & Hl & _). rewrite Hz in Hl. cbn in Hl. lia. }
  split; [done|]. split; [intros x; by rewrite N, Hx|]. split; [|done].
  apply (is_queue_frame nd); [done|]. intros y Hy. rewrite N. split; [done|].
  exact (proj1 (Forall_forall _ _) (iq_ref _ _ _ _ _ Q') y Hy).
Qed.

(** a new request for thread [t] *)
Lemma create_request_effect st t x req :
  fst (m_alloc (heap (mem st)) sizeof_Ipc_Request) = req -> req <> NULL -> t <> NULL ->
  threads st !! t = Some x -> 0 < t_refcount x < 2 ^ 62 ->
  exists m, create_ipc_request t st =
      (req, set_reqs (<[req := mk_req (mk_node ref_init 0) t NULL]> (reqs st))
              (set_threads (<[t := with_trefcount (t_refcount x + 1) x]> (threads st)) (set_mem m st))) /\
    msgs m = msgs (mem st) /\ datas m = datas (mem st) /\ bufs m = bufs (mem st).
Proof.
  intros Hal Hr0 Ht0 Hx Hc. unfold create_ipc_request, k_alloc. destruct (m_alloc _ _) as [q h]. cbn [fst] in Hal. subst q.
  destruct (Z.eqb_spec req NULL); [done|]. destruct (Z.eqb_spec t NULL); [done|]. cbn [orb].
  set (m := mk_ms h _ _ _ _). exists m. split; [|done].
  rewrite (thread_at_some _ t x) by done. rewrite get_live by done. cbn [negb]. f_equal.
  unfold upd_req, upd_thread, set_reqs, set_threads, set_mem. cbn [reqs threads mem msg_next ports core_tm current_thread idle_thread_ptr retired thread_frees].
  f_equal.
  - apply map_eq. intros y. destruct (decide (req = y)) as [<-|Hy]; [by rewrite lookup_alter_eq, !lookup_insert_eq|].
    by rewrite lookup_alter_ne, !lookup_insert_ne.
  - apply map_eq. intros y. destruct (decide (t = y)) as [<-|Hy]; [by rewrite lookup_alter_eq, lookup_insert_eq, Hx|].
    by rewrite lookup_alter_ne, lookup_insert_ne.
Qed.

(** thread [t] may join the waiters of [p] with a new request [req] *)
Record can_wait st (p : Z) (L : list (Z * Z)) (t req : Z) (x : Thread_Base) : Prop := {
  cw_thread : threads st !! t = Some x /\ t <> NULL;
  cw_ref : 0 < t_refcount x < 2 ^ 62;
  cw_free : port_ptr x = NULL;
  cw_alloc : fst (m_alloc (heap (mem st)) sizeof_Ipc_Request) = req;
  cw_fresh : node_addr req /\ reqs st !! req = None
}.

(** the state after [t] has joined *)
Record joined st st' (p : Z) (px : Message_Port_t) (my d : Z) (L : list (Z * Z)) (tg t req : Z) (x : Thread_Base) : Prop := {
  jn_queue : exists q tg', waiting st' p (set_thread_queue q px) my d (L ++ [(req, tg')]) tg';
  jn_thread : threads st' = <[t := with_port_ptr p (with_trefcount (t_refcount x + 1) x)]> (threads st);
  jn_req : exists nd, reqs st' !! req = Some (mk_req nd t p);
  jn_others : forall y, y <> req -> r_thread (req_at st' y) = r_thread (req_at st y);
  jn_mem : msgs (mem st') = msgs (mem st) /\ datas (mem st') = datas (mem st) /\ msg_next st' = msg_next st;
  jn_cpu : core_tm st' = core_tm st /\ current_thread st' = current_thread st
}.

(** a fresh request next to the queue does not disturb it *)
Lemma waiting_fresh st st' p px side d L tg req rq :
  waiting st p px side d L tg -> reqs st !! req = None -> reqs st' = <[req := rq]> (reqs st) -> ports st' = ports st ->
  waiting st' p px side d L tg /\ req ∉ d :: map fst L.
Proof.
  intros W Hf Er Ep. assert (Hne : forall a, a ∈ d :: map fst L -> a <> req).
  { intros a Ha ->. destruct (wt_in _ _ _ _ _ _ _ _ W Ha) as (_ & _ & r & Hr). by rewrite Hf in Hr. }
  assert (N : forall a, a ∈ d :: map fst L -> req_nodes st' a = req_nodes st a).
  { intros a Ha. unfold req_nodes. rewrite Er, lookup_insert_ne; [done|]. symmetry. by apply Hne. }
  split; [|intros Hin; by apply (Hne req)]. destruct W as [H1 H2 H3 H4 H5 H6 H7]. constructor; try done.
  - by rewrite Ep.
  - apply (is_queue_frame (req_nodes st)); [done|]. intros a Ha. rewrite N by done. split; [done|].
    exact (proj1 (Forall_forall _ _) (iq_ref _ _ _ _ _ H4) a Ha).
  - apply Forall_forall. intros a Ha. rewrite N by done. exact (proj1 (Forall_forall _ _) H5 a Ha).
Qed.

(** the queue with the new request at its end, after the creator's reference
    is dropped *)
Lemma waiting_append st p px side d L tg req rq my t :
  waiting st p px side d L tg -> my = IPC_PORT_STATE_SEND \/ my = IPC_PORT_STATE_RECV ->
  side = IPC_PORT_STATE_EMPTY \/ side = my ->
  node_addr req -> req ∉ d :: map fst L -> reqs st !! req = Some rq -> nref (r_node rq) = 1 -> r_thread rq = t ->
  exists nd q', let st1 := upd_port p (set_thread_queue q') (store_req_nodes nd st) in
    port_queue_op p (msq_enqueue_check_tail 0 req my (tp_new NULL side)) (Some FN_free_ipc_request_real) st = Some (REND_SUCCESS, st1) /\
    (exists q tg', waiting (put_req req st1) p (set_thread_queue q px) my d (L ++ [(req, tg')]) tg') /\
    (exists n, reqs (put_req req st1) !! req = Some (mk_req n t (queue_ptr rq))) /\
    (forall y, y <> req -> r_thread (req_at (put_req req st1) y) = r_thread (req_at st y)) /\
    threads (put_req req st1) = threads st /\ mem (put_req req st1) = mem st /\ msg_next (put_req req st1) = msg_next st /\
    core_tm (put_req req st1) = core_tm st /\ current_thread (put_req req st1) = current_thread st.
Proof.
  intros W Hmy Hside Ha Hn Hrq Hc1 Ht.
  assert (Nr : req_nodes st req = r_node rq) by (unfold req_nodes; by rewrite Hrq).
  destruct (wait_call st p px side d L tg req my side W Ha Hn) as (nd & q' & E & N & Q & Hb); [rewrite Nr; lia|done|done|].
  exists nd, q'. cbv zeta in *. set (st1 := upd_port p (set_thread_queue q') (store_req_nodes nd st)) in *. split; [exact E|].
  set (tg' := msq_next_tag IPC_PORT_APPEND_BITS tg my) in *.
  assert (R1 : forall y, reqs st1 !! y = (fun r => mk_req (req_nodes st1 y) (r_thread r) (queue_ptr r)) <$> reqs st !! y).
  { intros y. etransitivity; [exact (reqs_store st nd y)|]. unfold req_nodes. change (reqs st1) with (reqs (store_req_nodes nd st)).
    rewrite reqs_store. by destruct (reqs st !! y). }
  assert (Nr1 : req_nodes st1 req = mk_node 2 0) by (rewrite N, decide_True, Nr, Hc1 by done; done).
  assert (Rr : reqs st1 !! req = Some (mk_req (mk_node 2 0) t (queue_ptr rq))) by (by rewrite R1, Hrq, <- Ht; cbn; rewrite Nr1).
  assert (Ep : put_req req st1 = set_reqs (<[req := mk_req (mk_node 1 0) t (queue_ptr rq)]> (reqs st1)) st1) by (by rewrite (put_req_live st1 req _ Rr)).
  assert (Np : forall y, req_nodes (put_req req st1) y = if decide (y = req) then mk_node 1 0 else req_nodes st1 y).
  { intros y. rewrite Ep. unfold req_nodes at 1, set_reqs. cbn [reqs]. case_decide as Hy; [subst y; by rewrite lookup_insert_eq|].
    by rewrite lookup_insert_ne. }
  split; [|split; [|split]].
  - exists q', tg'. apply (waiting_ext (put_req req st1)); [done|done|].
    assert (Pp : ports (put_req req st1) !! p = Some (set_thread_queue q' px)).
    { rewrite Ep. unfold set_reqs. cbn [ports]. unfold st1, upd_port, set_ports. cbn [ports]. rewrite lookup_alter_eq.
      change (ports (store_req_nodes nd st)) with (ports st). by rewrite (wt_port _ _ _ _ _ _ _ W). }
    assert (Hall : forall y, y ∈ d :: map fst (L ++ [(req, tg')]) -> 0 < nref (req_nodes (put_req req st1) y) < 2 ^ 60).
    { intros y Hy. rewrite Np. case_decide as Hyr; [cbn; lia|]. rewrite N, decide_False by done.
      rewrite map_app in Hy. change (y ∈ (d :: map fst L) ++ [req]) in Hy. apply elem_of_app in Hy as [Hy|Hy]; [|by apply list_elem_of_singleton in Hy].
      destruct (wt_in _ _ _ _ _ _ _ _ W Hy) as (_ & Hr & _). by case_decide. }
    constructor; try done.
    + exact (wt_null _ _ _ _ _ _ _ W).
    + apply (is_queue_frame (req_nodes st1)); [exact Q|]. intros y Hy. split; [|specialize (Hall y Hy); lia].
      rewrite Np. case_decide as Hyr; [subst y; by rewrite Nr1|done].
    + apply Forall_forall. intros y Hy. by apply Hall.
    + assert (Hmt : Z.land tg' 3 = my) by (apply next_tag_state; by destruct Hmy as [-> | ->]).
      constructor; [done|]. rewrite map_app. apply Forall_app. split; [|by constructor].
      pose proof (wt_tags _ _ _ _ _ _ _ W) as Htg. apply list.Forall_cons in Htg as [_ Htg].
      pose proof (wt_side _ _ _ _ _ _ _ W) as Hs. destruct L as [|p0 L0]; [done|].
      destruct Hside as [-> | ->]; [by destruct Hs|done].
    + by destruct L.
  - eexists. rewrite Ep. unfold set_reqs. cbn [reqs]. by rewrite lookup_insert_eq.
  - intros y Hy. rewrite Ep. unfold req_at, set_reqs. cbn [reqs]. rewrite lookup_insert_ne by done. rewrite R1. by destruct (reqs st !! y).
  - by rewrite Ep.
Qed.

(** the whole of [ipc_port_enqueue_wait] when the queue has no waiter of the
    other side *)
Lemma enqueue_wait_effect st p px side d L tg my t req x :
  waiting st p px side d L tg -> my = IPC_PORT_STATE_SEND \/ my = IPC_PORT_STATE_RECV ->
  side = IPC_PORT_STATE_EMPTY \/ side = my -> can_wait st p L t req x ->
  exists st', ipc_port_enqueue_wait p my t st = Some (REND_SUCCESS, st') /\ joined st st' p px my d L tg t req x.
Proof.
  intros W Hmy Hside [[Hx Ht0] Hrc Hpf Hal [Hra Hrf]]. pose proof (wt_null _ _ _ _ _ _ _ W) as Hp0. assert (Hr0 : req <> NULL) by apply Hra.
  destruct (create_request_effect st t x req Hal Hr0 Ht0 Hx Hrc) as (m & Ec & Em1 & Em2 & Em3).
  unfold ipc_port_enqueue_wait. destruct (Z.eqb_spec p NULL); [done|]. destruct (Z.eqb_spec t NULL); [done|]. cbn [orb].
  rewrite (wt_state _ _ _ _ _ _ _ W).
  assert (Ee : (if side =? IPC_PORT_STATE_EMPTY then Some IPC_PORT_STATE_EMPTY else if side =? my then Some my else None) = Some side).
  { destruct (Z.eqb_spec side IPC_PORT_STATE_EMPTY) as [->|]; [done|]. destruct Hside as [?| ->]; [done|]. by rewrite Z.eqb_refl. }
  rewrite Ee, Ec. destruct (Z.eqb_spec req NULL); [done|]. set (st1 := set_reqs _ _).
  set (st2 := upd_req req (fun r => mk_req (r_node r) (r_thread r) p) st1).
  assert (R2 : reqs st2 = <[req := mk_req (mk_node ref_init 0) t p]> (reqs st)).
  { unfold st2, upd_req, st1. cbn [reqs set_reqs set_threads set_mem]. apply map_eq. intros y. destruct (decide (req = y)) as [<-|Hy].
    - by rewrite lookup_alter_eq, !lookup_insert_eq.
    - by rewrite lookup_alter_ne, !lookup_insert_ne. }
  assert (T2 : threads st2 !! t = Some (with_trefcount (t_refcount x + 1) x)) by (unfold st2, st1; cbn; by rewrite lookup_insert_eq).
  assert (Ecas : port_ptr_cas t NULL p st2 = (NULL, set_threads (<[t := with_port_ptr p (with_trefcount (t_refcount x + 1) x)]> (threads st)) st2)).
  { unfold port_ptr_cas, atomic64_cas. rewrite (thread_at_some _ _ _ T2). cbn [port_ptr with_trefcount]. rewrite Hpf. cbn.
    f_equal. unfold upd_thread. f_equal. apply map_eq. intros y. change (threads st2) with (<[t := with_trefcount (t_refcount x + 1) x]> (threads st)).
    destruct (decide (t = y)) as [<-|Hy]; [by rewrite lookup_alter_eq, !lookup_insert_eq|by rewrite lookup_alter_ne, !lookup_insert_ne]. }
  rewrite Ecas. change (NULL =? NULL) with true. cbn [negb]. set (st3 := set_threads _ st2).
  destruct (waiting_fresh st st3 p px side d L tg req _ W Hrf R2 eq_refl) as [W3 Hno].
  assert (R3 : reqs st3 !! req = Some (mk_req (mk_node ref_init 0) t p)) by (change (reqs st3) with (reqs st2); by rewrite R2, lookup_insert_eq).
  destruct (waiting_append st3 p px side d L tg req _ my t W3 Hmy Hside Hra Hno R3 eq_refl eq_refl) as (nd & q' & E & Wq & Rq & Ro & Et & Emem & Enx & Ecpu).
  cbv zeta in E. rewrite E. cbn [mbind option_bind]. change (REND_SUCCESS =? REND_SUCCESS) with true. cbn [negb].
  eexists. split; [reflexivity|]. constructor; try done.
  - intros y Hy. rewrite Ro by done. unfold req_at. change (reqs st3) with (reqs st2). by rewrite R2, lookup_insert_ne.
  - rewrite Emem, Enx. change (mem st3) with m. by rewrite Em1, Em2.
Qed.

(** (invariant): a port never holds waiters of both sides.  Joining a queue
    that holds waiters of the other side is refused with [-E_REND_AGAIN] and
    changes nothing; otherwise the new request is the last of the queue, its
    side is the queue's, it holds its thread and the thread's port pointer
    names the port. *)
Theorem enqueue_wait_one_sided st p px side d L tg my t req x
  (W : waiting st p px side d L tg) (Hmy : my = IPC_PORT_STATE_SEND \/ my = IPC_PORT_STATE_RECV)
  (Hcan : can_wait st p L t req x) :
  (side <> IPC_PORT_STATE_EMPTY -> side <> my -> ipc_port_enqueue_wait p my t st = Some (- E_REND_AGAIN, st)) /\
  (side = IPC_PORT_STATE_EMPTY \/ side = my ->
   exists st', ipc_port_enqueue_wait p my t st = Some (REND_SUCCESS, st') /\ joined st st' p px my d L tg t req x).
Proof.
  split; [|intros Hside; by apply (enqueue_wait_effect st p px side d L tg my t req x)].
  intros He Hm. unfold ipc_port_enqueue_wait. destruct Hcan as [[_ Ht0] _ _ _ _]. pose proof (wt_null _ _ _ _ _ _ _ W) as Hp0.
  apply Z.eqb_neq in Ht0, Hp0, He, Hm. by rewrite Ht0, Hp0, (wt_state _ _ _ _ _ _ _ W), He, Hm.
Qed.

(** ** Blocking calls *)

(** what [recv_msg] returns when its thread runs again *)
Definition recv_resume (r : Z) st : Z * istate A :=
  if negb (Z.land (t_flags (thread_at st r)) THREAD_FLAG_IPC_PORT_CLOSED =? 0)
  then (- E_REND_PORT_CLOSED,
        upd_thread r (with_flags (Z.land (u64 (t_flags (thread_at st r))) (bnot 64 THREAD_FLAG_IPC_PORT_CLOSED))) st)
  else (REND_SUCCESS, st).
(** and [send_msg]: a closed port costs the sender its message *)
Definition send_resume (s : Z) st : option (Z * istate A) :=
  if negb (Z.land (t_flags (thread_at st s)) THREAD_FLAG_IPC_PORT_CLOSED =? 0)
  then st ← ipc_drop_one_orphan_send_msg s
         (upd_thread s (with_flags (Z.land (u64 (t_flags (thread_at st s))) (bnot 64 THREAD_FLAG_IPC_PORT_CLOSED))) st);
       Some (- E_REND_PORT_CLOSED, st)
  else Some (REND_SUCCESS, st).

(** the state in which the caller [t] of side [my] gives up the CPU *)
Record asleep st st1 (p : Z) (px : Message_Port_t) (my status d : Z) (L : list (Z * Z)) (t req : Z) (x : Thread_Base) : Prop := {
  as_queue : exists q tg', waiting st1 p (set_thread_queue q px) my d (L ++ [(req, tg')]) tg';
  as_thread : threads st1 = <[t := with_port_ptr p (with_trefcount (t_refcount x + 1) (with_status status x))]> (threads st);
  as_req : r_thread (req_at st1 req) = t;
  as_mem : msgs (mem st1) = msgs (mem st) /\ datas (mem st1) = datas (mem st) /\ msg_next st1 = msg_next st
}.

Lemma set_status_effect st t status x :
  threads st !! t = Some x -> t <> NULL ->
  thread_set_status t status st = (t_status x, set_threads (<[t := with_status status x]> (threads st)) st).
Proof.
  intros Hx Ht. unfold thread_set_status. destruct (Z.eqb_spec t NULL); [done|]. rewrite (thread_at_some _ _ _ Hx). f_equal.
  unfold upd_thread. f_equal. apply map_eq. intros y. destruct (decide (t = y)) as [<-|Hy]; [by rewrite lookup_alter_eq, lookup_insert_eq, Hx|].
  by rewrite lookup_alter_ne, lookup_insert_ne.
Qed.

(** a call of side [my] that cannot be matched falls asleep on the port *)
Lemma falls_asleep st p px side d L tg my t req x fuel :
  let op := if my =? IPC_PORT_STATE_SEND then PORT_OPS_SEND else PORT_OPS_RECV in
  let status := if my =? IPC_PORT_STATE_SEND then thread_status_block_on_send else thread_status_block_on_receive in
  my = IPC_PORT_STATE_SEND \/ my = IPC_PORT_STATE_RECV -> port_open hooks st p px op ->
  waiting st p px side d L tg -> side = IPC_PORT_STATE_EMPTY \/ side = my -> can_wait st p L t req x ->
  exists st1 st2, port_ops_begin hooks p op st = (true, st1) /\
    ipc_port_try_match p my (S fuel) st1 = Some (NULL, st1) /\
    ipc_port_enqueue_wait p my t (snd (thread_set_status t status st1)) = Some (REND_SUCCESS, st2) /\
    asleep st (port_ops_end p st2) p px my status d L t req x.
Proof.
  intros op status Hmy [P1 P2 P3 P4] W Hside Hcan. pose proof (wt_null _ _ _ _ _ _ _ W) as Hp0.
  assert (Hop : op = PORT_OPS_SEND \/ op = PORT_OPS_RECV) by (unfold op; destruct (_ =? _); auto).
  pose proof (begin_effect hooks st p px op Hop Hp0 P1 P2 P3) as B. apply waiting_counted in W.
  set (st1 := set_ports (<[p := counted px]> (ports st)) st) in *.
  destruct Hcan as [[Hx Ht0] Hrc Hpf Hal Hfr].
  pose proof (set_status_effect st1 t status x Hx Ht0) as Es. set (st1' := set_threads (<[t := with_status status x]> (threads st1)) st1) in *.
  assert (Hcan' : can_wait st1' p L t req (with_status status x)).
  { constructor; try done. split; [|done]. unfold st1', set_threads. cbn [threads]. by rewrite lookup_insert_eq. }
  assert (W' : waiting st1' p (counted px) side d L tg) by by apply (waiting_ext st1).
  destruct (enqueue_wait_effect st1' p (counted px) side d L tg my t req _ W' Hmy Hside Hcan')
    as (st2 & E & [(q & tg' & Q) J2 [nd J3] J4 (J5 & J6 & J7) J8]).
  exists st1, st2. split; [exact B|]. split; [|split; [by rewrite Es|]].
  - cbn [ipc_port_try_match]. apply Z.eqb_neq in Hp0. rewrite Hp0. fold (other_side my).
    rewrite (port_dequeue_none st1 p (counted px) side d L tg (other_side my) W); [done| |].
    + unfold other_side. by destruct (_ =? _).
    + right. unfold other_side. destruct Hside as [-> | ->], Hmy as [-> | ->]; done.
  - destruct (end_effect st2 p px q my d _ tg' P4 Q) as [Ee Q']. constructor.
    + by exists q, tg'.
    + rewrite Ee. cbn [threads set_ports]. rewrite J2. unfold st1', st1. cbn [threads set_threads set_ports]. apply insert_insert_eq.
    + unfold req_at. rewrite Ee. change (reqs (set_ports _ st2)) with (reqs st2). by rewrite J3.
    + rewrite Ee. done.
Qed.

(** C25 (functional): a receive that finds no sender waits: its thread is blocked on receive
    at the end of the port's queue of receivers, the count of running calls is
    back where it was before the CPU is given up (so that a closing port can
    drain), and when the thread runs again the close flag alone decides between
    [-E_REND_PORT_CLOSED] and success.  The send waits in the same way, and
    loses its message when the port was closed meanwhile. *)
Theorem blocking_calls_wait st p px side d L tg t req x fuel
  (Hcur : get_cpu_current_thread st = t) (W : waiting st p px side d L tg) (Hcan : can_wait st p L t req x) :
  (port_open hooks st p px PORT_OPS_RECV -> side = IPC_PORT_STATE_EMPTY \/ side = IPC_PORT_STATE_RECV ->
   exists st1, recv_msg hooks schedule p (S fuel) st = Some (recv_resume t (schedule st1)) /\
     asleep st st1 p px IPC_PORT_STATE_RECV thread_status_block_on_receive d L t req x) /\
  (port_open hooks st p px PORT_OPS_SEND -> side = IPC_PORT_STATE_EMPTY \/ side = IPC_PORT_STATE_SEND ->
   exists st1, send_msg hooks schedule p (S fuel) st = send_resume t (schedule st1) /\
     asleep st st1 p px IPC_PORT_STATE_SEND thread_status_block_on_send d L t req x).
Proof.
  pose proof (wt_null _ _ _ _ _ _ _ W) as Hp0. pose proof (proj2 (cw_thread _ _ _ _ _ _ Hcan)) as Ht0.
  apply Z.eqb_neq in Hp0, Ht0. split; intros Ho Hside.
  - destruct (falls_asleep st p px side d L tg IPC_PORT_STATE_RECV t req x fuel (or_intror eq_refl) Ho W Hside Hcan) as (st1 & st2 & B & M & E & S).
    exists (port_ops_end p st2). split; [|exact S]. unfold recv_msg. rewrite Hp0, Hcur, Ht0.
    change (if IPC_PORT_STATE_RECV =? IPC_PORT_STATE_SEND then _ else PORT_OPS_RECV) with PORT_OPS_RECV in B. rewrite B. cbn [negb recv_loop].
    rewrite Z.eqb_refl, M. cbn [mbind option_bind]. rewrite Z.eqb_refl. cbn [negb].
    change (if IPC_PORT_STATE_RECV =? IPC_PORT_STATE_SEND then _ else thread_status_block_on_receive) with thread_status_block_on_receive in E.
    destruct (thread_set_status t thread_status_block_on_receive st1) as [old st1']. cbn [snd] in E. rewrite E. cbn [mbind option_bind].
    rewrite Z.eqb_refl. unfold recv_resume. by destruct (negb _).
  - destruct (falls_asleep st p px side d L tg IPC_PORT_STATE_SEND t req x fuel (or_introl eq_refl) Ho W Hside Hcan) as (st1 & st2 & B & M & E & S).
    exists (port_ops_end p st2). split; [|exact S]. unfold send_msg. rewrite Hp0, Hcur, Ht0.
    change (if IPC_PORT_STATE_SEND =? IPC_PORT_STATE_SEND then PORT_OPS_SEND else _) with PORT_OPS_SEND in B. rewrite B. cbn [negb send_loop].
    rewrite Z.eqb_refl, M. cbn [mbind option_bind]. rewrite Z.eqb_refl. cbn [negb].
    change (if IPC_PORT_STATE_SEND =? IPC_PORT_STATE_SEND then thread_status_block_on_send else _) with thread_status_block_on_send in E.
    destruct (thread_set_status t thread_status_block_on_send st1) as [old st1']. cbn [snd] in E. rewrite E. cbn [mbind option_bind].
    rewrite Z.eqb_refl. unfold send_resume. by destruct (negb _).
Qed.
End Wait.

(** ** A concrete pair of threads *)

Definition SENDER : Z := 0x10000.
Definition RECEIVER : Z := 0x20000.
Definition PORT : Z := 0x5000.
Definition no_hooks (_ : Z) : port_append_hooks bump := mk_hooks 0 None None None.

(** [SENDER] has message [0x3000] with payload [0x4000] in its queue; the port
    queue is [q] and [RECEIVER] is in [status] *)
Definition demo (q : ms_queue) (rqs : gmap Z Ipc_Request_t) (status pp cur : Z) : istate bump :=
  mk_is (mk_ms (mk_bump 0x100000 10) {[0x4000 := mk_msgdata 1 1 16 0x8000 FN_free_msgdata_ref_default]}
           {[0x1000 := mk_message 1 NULL NULL; 0x2000 := mk_message 1 NULL NULL; 0x3000 := mk_message 1 0x4000 NULL]} ∅ [])
    (fun a => if a =? 0x1000 then tp_new 0x3000 1 else 0) rqs
    {[SENDER := mk_thread 0 thread_status_running 1 no_queue
                  (mk_queue (tp_new 0x1000 0) (tp_new 0x3000 1) 0) NULL 0 NULL;
      RECEIVER := mk_thread 0 status 1 (mk_queue (tp_new 0x2000 0) (tp_new 0x2000 0) 0) no_queue NULL 0 pp]}
    {[PORT := mk_port q 1 0x9000 [112] 7 PORT_OPS_LIFE_REGISTERED 0 NULL]} 0x9100 cur NULL [] [].

(** nobody waits; [RECEIVER] runs *)
Definition demo_idle : istate bump :=
  demo (mk_queue (tp_new 0x6000 0) (tp_new 0x6000 0) 2) {[0x6000 := mk_req (mk_node 1 0) NULL NULL]}
    thread_status_running NULL RECEIVER.
(** [RECEIVER] waits with request [0x7000]; [SENDER] runs *)
Definition demo_waiting : istate bump :=
  demo (mk_queue (tp_new 0x6000 0) (tp_new 0x7000 6) 2)
    {[0x6000 := mk_req (mk_node 1 (tp_new 0x7000 6)) NULL NULL; 0x7000 := mk_req (mk_node 1 0) RECEIVER PORT]}
    thread_status_block_on_receive PORT SENDER.

(** what is left to show of a concrete queue *)
Ltac concrete_list :=
  cbn [map fst snd app];
  repeat first [ apply list.Forall_cons; split | apply list.Forall_nil ];
  first [ split; [left; lia|discriminate] | split; reflexivity | split; [discriminate|reflexivity] | reflexivity ].
Ltac concrete_nodup := cbn [map fst app]; apply (bool_decide_unpack _); vm_compute; exact I.
Ltac concrete_queue :=
  constructor; [reflexivity|reflexivity|reflexivity|concrete_list|cbn [seg]; repeat split; reflexivity
               |concrete_list|concrete_nodup|concrete_list].

Lemma demo_waiting_queue : waiting demo_waiting PORT (mk_port (mk_queue (tp_new 0x6000 0) (tp_new 0x7000 6) 2) 1 0x9000 [112] 7 PORT_OPS_LIFE_REGISTERED 0 NULL)
  IPC_PORT_STATE_RECV 0x6000 [(0x7000, 6)] 6.
Proof.
  constructor; [reflexivity|discriminate|reflexivity|concrete_queue|concrete_list|concrete_list|by right].
Qed.

Definition demo_port (q : ms_queue) : Message_Port_t := mk_port q 1 0x9000 [112] 7 PORT_OPS_LIFE_REGISTERED 0 NULL.
Definition demo_sender : Thread_Base :=
  mk_thread 0 thread_status_running 1 no_queue (mk_queue (tp_new 0x1000 0) (tp_new 0x3000 1) 0) NULL 0 NULL.
Definition demo_receiver (status pp : Z) : Thread_Base :=
  mk_thread 0 status 1 (mk_queue (tp_new 0x2000 0) (tp_new 0x2000 0) 0) no_queue NULL 0 pp.
Definition demo_msg : Message_t := mk_message 1 0x4000 NULL.
Definition demo_payload : Msg_Data_t := mk_msgdata 1 1 16 0x8000 FN_free_msgdata_ref_default.

Lemma demo_transfer : transfer_ready demo_waiting SENDER RECEIVER demo_sender 0x1000 [(0x3000, 1)] 1
  (demo_receiver thread_status_block_on_receive PORT) 0x2000 [] 0 0x100000 demo_msg demo_payload.
Proof.
  constructor; try reflexivity; try (split; reflexivity); try discriminate; try (split; discriminate).
  - split; [discriminate|split; discriminate].
  - split; [concrete_queue|concrete_list].
  - split; [concrete_queue|concrete_list].
  - intros a Ha Ha'. apply list_elem_of_singleton in Ha' as ->. apply list_elem_of_In in Ha. by destruct Ha as [Ha|[Ha|[]]].
  - split; [split; [left; lia|discriminate]|reflexivity].
  - split; [discriminate|reflexivity].
  - intros H. by destruct H.
  - split; [reflexivity|split; reflexivity].
Qed.


(** [SENDER] waits with request [0x7000]; [RECEIVER] runs *)
Definition demo_pull : istate bump :=
  let st := demo (mk_queue (tp_new 0x6000 0) (tp_new 0x7000 5) 2)
    {[0x6000 := mk_req (mk_node 1 (tp_new 0x7000 5)) NULL NULL; 0x7000 := mk_req (mk_node 1 0) SENDER PORT]}
    thread_status_running NULL RECEIVER in
  set_threads (<[SENDER := with_status thread_status_block_on_send (with_port_ptr PORT demo_sender)]> (threads st)) st.

Lemma demo_pull_queue : waiting demo_pull PORT (demo_port (mk_queue (tp_new 0x6000 0) (tp_new 0x7000 5) 2))
  IPC_PORT_STATE_SEND 0x6000 [(0x7000, 5)] 5.
Proof.
  constructor; [reflexivity|discriminate|reflexivity|concrete_queue|concrete_list|concrete_list|by left].
Qed.

Lemma demo_pull_transfer : transfer_ready demo_pull SENDER RECEIVER
  (with_status thread_status_block_on_send (with_port_ptr PORT demo_sender)) 0x1000 [(0x3000, 1)] 1
  (demo_receiver thread_status_running NULL) 0x2000 [] 0 0x100000 demo_msg demo_payload.
Proof.
  destruct demo_transfer as [H1 H2 H3 H4 H5 H6 H7 H8 H9 H10 H11 H12 H13 H14].
  constructor; try reflexivity; try exact H1; try exact H10; try exact H12; try exact H14; try exact H7; try exact H9; try done.
Qed.


Lemma demo_idle_queue : waiting demo_idle PORT (demo_port (mk_queue (tp_new 0x6000 0) (tp_new 0x6000 0) 2)) IPC_PORT_STATE_EMPTY 0x6000 [] 0.
Proof. constructor; [reflexivity|discriminate|reflexivity|concrete_queue|concrete_list|concrete_list|done]. Qed.

Lemma demo_can_wait : can_wait demo_idle PORT [] RECEIVER 0x100000 (demo_receiver thread_status_running NULL).
Proof.
  constructor; try reflexivity; [split; [reflexivity|discriminate]|split; reflexivity|split; [split; [left; lia|discriminate]|reflexivity]].
Qed.

Lemma enqueue_wait_one_sided_witness :
  exists st', ipc_port_enqueue_wait PORT IPC_PORT_STATE_RECV RECEIVER demo_idle = Some (REND_SUCCESS, st').
Proof.
  destruct (proj2 (enqueue_wait_one_sided demo_idle PORT _ _ _ _ _ IPC_PORT_STATE_RECV RECEIVER _ _ demo_idle_queue
    (or_intror eq_refl) demo_can_wait) (or_introl eq_refl)) as (st' & H & _). exists st'. exact H.
Defined.

Lemma blocking_calls_wait_witness :
  exists st1, recv_msg no_hooks (fun st => st) PORT 1 demo_idle = Some (REND_SUCCESS, st1) /\
    r_thread (req_at st1 0x100000) = RECEIVER.
Proof.
  assert (Ho : port_open no_hooks demo_idle PORT (demo_port (mk_queue (tp_new 0x6000 0) (tp_new 0x6000 0) 2)) PORT_OPS_RECV).
  { constructor; try reflexivity. split; [discriminate|reflexivity]. }
  destruct (proj1 (blocking_calls_wait no_hooks (fun st => st) demo_idle PORT _ _ _ _ _ RECEIVER _ _ 0 eq_refl demo_idle_queue demo_can_wait)
    Ho (or_introl eq_refl)) as (st1 & H & S).
  exists st1. split; [|exact (as_req _ _ _ _ _ _ _ _ _ _ _ S)]. rewrite H. unfold recv_resume.
  assert (Et : t_flags (thread_at st1 RECEIVER) = 0) by (unfold thread_at; rewrite (as_thread _ _ _ _ _ _ _ _ _ _ _ S), lookup_insert_eq; reflexivity).
  rewrite Et. reflexivity.
Defined.

(** the whole rendezvous: the receiver falls asleep, the sender runs and wakes
    it, the receiver finds the payload in its own queue *)
Definition run_sender (st : istate bump) : istate bump :=
  match send_msg no_hooks (fun st => st) PORT 4 (set_current SENDER st) with
  | Some (_, st) => set_current RECEIVER st
  | None => st
  end.
Example rendezvous_end_to_end :
  match recv_msg no_hooks run_sender PORT 4 demo_idle with
  | Some (r, st) =>
    r = REND_SUCCESS /\
    match dequeue_recv_msg st with
    | Some (m, st) => (msg_data <$> msgs (mem st) !! m) = Some 0x4000 /\ (md_refcount <$> datas (mem st) !! 0x4000) = Some 2
    | None => False
    end
  | None => False
  end.
Proof. vm_compute. done. Qed.

(** [recv_msg] keeps the sender it matched when that sender has no message,
    and asks it again for ever *)
Definition no_message (st : istate bump) : istate bump :=
  upd_thread SENDER (with_send_queue (mk_queue (tp_new 0x3000 1) (tp_new 0x3000 1) 0)) st.
Example recv_asks_the_same_sender :
  recv_msg no_hooks (fun st => st) PORT 100
    (set_mem (mk_ms (mk_bump 0x100000 1000) (datas (mem demo_pull)) (msgs (mem demo_pull)) ∅ []) (no_message demo_pull)) = None.
Proof. vm_compute. reflexivity. Qed.

(** a send without a message takes the waiting receiver off the port and
    leaves it blocked there *)
Example send_without_message_strands_receiver :
  match send_msg no_hooks (fun st => st) PORT 4 (no_message demo_waiting) with
  | Some (r, st) =>
    r = - E_REND_NO_MSG /\ (t_status <$> threads st !! RECEIVER) = Some thread_status_block_on_receive /\
    (port_ptr <$> threads st !! RECEIVER) = Some NULL /\ ipc_get_queue_state st PORT = IPC_PORT_STATE_EMPTY
  | None => False
  end.
Proof. vm_compute. done. Qed.
