(* ===== verification/Port.v ===== *)
(** * Message ports and the port table

    [kernel/ipc/port.c]: creation and destruction of ports, the drain of their
    waiting queue, and the table of registered ports, a NameIndex whose hooks
    move a port through its life.  Hooks run on the optional IPC state: [None]
    is a drain that has not ended within its fuel. *)
From S2P Require Import Prelude ThreadStatus Mm CString Allocator TaggedPtr Refcount MsQueue MsqSeq IpcSerial Message NameIndex IpcState Ipc.

Definition KMSG_OP_SYSTEM_PORT_CLOSED : Z := 5.
(** "q" *)
Definition KMSG_FMT_SYSTEM_PORT_CLOSED : cstr := [113].
Definition sizeof_Msg_Port : Z := 136.
Definition sizeof_Port_Table : Z := 136.

(** the hash of NameIndex over the whole name, folded to 16 bits; 0 is reserved *)
Definition service_id_from_name (name : option cstr) : Z :=
  match name with
  | None => 0
  | Some name =>
    if char_at name 0 =? 0 then 0
    else
      let h := hash_chars name (Z.to_nat PORT_NAME_LEN_MAX) 2166136261 in
      let id := u16 (Z.lxor h (Z.shiftr h 16)) in
      if id =? 0 then 1 else id
  end.

Section Port.
Context {A : Type} `{HA : Allocator A}.
Context (hooks : Z -> port_append_hooks A).
Context (schedule : istate A -> istate A).
Context (drain_fuel : nat).
Implicit Types st : istate A.

(** ** Creation *)

Definition message_port_total_size (h : Z) : Z :=
  if negb (h =? NULL) && negb (append_info_len (hooks h) =? 0) then sizeof_Msg_Port + append_info_len (hooks h) else sizeof_Msg_Port.

Definition create_message_port (name : option cstr) (h : Z) st : Z * istate A :=
  match name with
  | None => (NULL, st)
  | Some name =>
    let name_len := Z.of_nat (length name) in
    if (name_len =? 0) || (PORT_NAME_LEN_MAX <=? name_len) then (NULL, st)
    else
      let '(mp, m) := k_alloc (mem st) (message_port_total_size h) in
      let st := set_mem m st in
      if mp =? NULL then (NULL, st)
      else
        let '(dummy, m) := k_alloc (mem st) sizeof_Ipc_Request in
        let st := set_mem m st in
        if dummy =? NULL then (NULL, set_mem (k_free (mem st) mp) st)
        else
          let t := tp_new dummy 0 in
          let st := set_reqs (<[dummy := mk_req (mk_node ref_init tp_new_none) NULL NULL]> (reqs st)) st in
          let st := set_ports (<[mp := mk_port (mk_queue t t IPC_PORT_APPEND_BITS) ref_init NULL name
                                        (service_id_from_name (Some name)) PORT_OPS_LIFE_ACTIVE 0 h]> (ports st)) st in
          match (if h =? NULL then None else hook_init (hooks h)) with
          | None => (mp, st)
          | Some init =>
            let '(e, st) := init mp st in
            if negb (e =? REND_SUCCESS) then
              let st := set_reqs (delete dummy (reqs st)) (set_mem (k_free (mem st) dummy) st) in
              (NULL, set_ports (delete mp (ports st)) (set_mem (k_free (mem st) mp) st))
            else (mp, st)
          end
  end.

(** ** Draining the waiting queue *)

(** no destructor but the default one occurs here *)
Definition default_only (_ _ : Z) (m : mstate A) : Z * mstate A := (REND_SUCCESS, m).

(** a receiver is told by a message from the system *)
Definition notify_receiver (port thread : Z) st : option (istate A) :=
  '(msg_data, m) ← kmsg_create default_only (mem st) (service_id (port_at st port)) KMSG_OP_SYSTEM_PORT_CLOSED
                     (Some KMSG_FMT_SYSTEM_PORT_CLOSED) [ArgQ 0];
  let st := set_mem m st in
  if msg_data =? NULL then Some st
  else
    let '(msg, m) := create_message_with_msg (mem st) msg_data in
    let '(_, m) := put_data default_only m msg_data FN_free_msgdata_ref_default in
    let st := set_mem m st in
    if msg =? NULL then Some st
    else
      '(err, st) ← ipc_system_deliver_to thread msg false st;
      Some (if negb (err =? REND_SUCCESS) then put_msg msg st else st).

(** one waiter taken off the queue of a closing port *)
Definition close_waiter (port thread : Z) st : option (istate A) :=
  if thread =? NULL then Some st
  else
    let status := thread_get_status st thread in
    if status =? thread_status_block_on_receive then
      let '(_, st) := port_ptr_cas thread port NULL st in
      st ← notify_receiver port thread st;
      let '(_, st) := thread_set_status_with_expect thread thread_status_block_on_receive thread_status_ready st in
      Some (if recv_pending_cnt (thread_at st thread) =? 0
            then thread_or_flags thread THREAD_FLAG_IPC_PORT_CLOSED st else st)
    else if status =? thread_status_block_on_send then
      let '(_, st) := port_ptr_cas thread port NULL st in
      let st := thread_or_flags thread THREAD_FLAG_IPC_PORT_CLOSED st in
      Some (snd (thread_set_status_with_expect thread thread_status_block_on_send thread_status_ready st))
    else Some st.

Fixpoint port_clean_thread_queue (port : Z) (fuel : nat) st : option (istate A) :=
  match fuel with
  | O => None
  | S fuel' =>
    if port =? NULL then Some st
    else
      '(dequeued_ptr, st) ← port_queue_op port (msq_dequeue 0) None st;
      if tp_is_none dequeued_ptr then Some st
      else
        let req := tp_get_ptr dequeued_ptr in
        st ← close_waiter port (r_thread (req_at st req)) st;
        port_clean_thread_queue port fuel' (put_req req st)
  end.

(** ** Destruction *)

Definition delete_message_port_structure (port : Z) st : option (istate A) :=
  if port =? NULL then Some st
  else
    let st := match (if append_hooks (port_at st port) =? NULL then None else hook_fini (hooks (append_hooks (port_at st port)))) with
              | Some fini => fini port st
              | None => st
              end in
    st ← port_clean_thread_queue port drain_fuel st;
    Some (set_ports (delete port (ports st)) (set_mem (k_free (mem st) port) st)).

Definition free_message_port_ref (port : Z) st : option (Z * istate A) :=
  if port =? NULL then Some (- E_IN_PARAM, st)
  else st ← delete_message_port_structure port st; Some (REND_SUCCESS, st).

(** [ref_put(&port->refcount, free_message_port_ref)] *)
Definition put_port (port : Z) st : option (istate A) :=
  let '(c, zero) := ref_put (p_refcount (port_at st port)) (Some 0) in
  let st := upd_port port (with_prefcount c) st in
  if zero then snd <$> free_message_port_ref port st else Some st.
(** [ref_get_not_zero(&port->refcount)] *)
Definition get_port (port : Z) st : bool * istate A :=
  let '(ok, c) := ref_get_not_zero (p_refcount (port_at st port)) in (ok, upd_port port (with_prefcount c) st).

(** ** Hooks of the port table *)

Definition port_get_name st (v : Z) : option cstr :=
  if v =? NULL then None else p_name <$> ports st !! v.
Definition port_hold (v : Z) (w : option (istate A)) : bool * option (istate A) :=
  match w with
  | None => (false, None)
  | Some st => if v =? NULL then (false, w) else let '(ok, st) := get_port v st in (ok, Some st)
  end.
Definition port_drop (v : Z) (w : option (istate A)) : option (istate A) :=
  st ← w; if v =? NULL then Some st else put_port v st.
Definition port_on_register (table v : Z) (w : option (istate A)) : option (istate A) :=
  st ← w;
  if v =? NULL then Some st
  else
    let '(_, st) := port_ops_set_life_with_expect v PORT_OPS_LIFE_ACTIVE PORT_OPS_LIFE_REGISTERED st in
    Some (upd_port v (with_table table) st).
Definition port_on_unregister (v : Z) (w : option (istate A)) : option (istate A) :=
  st ← w;
  if v =? NULL then Some st
  else
    let st := upd_port v (with_table NULL) st in
    Some (snd (port_ops_set_life_with_expect v PORT_OPS_LIFE_REGISTERED PORT_OPS_LIFE_CLOSING st)).

(** names are read from the ports of the calling state; no hook changes one *)
Definition table_ops (table : Z) st : name_index_ops (option (istate A)) :=
  mk_ops _ (Some (port_get_name st)) (Some port_hold) (Some port_drop) (Some (port_on_register table)) (Some port_on_unregister).

(** the table and the rest of the state; the index allocates from the same heap *)
Definition with_heap (a : A) st : istate A :=
  set_mem (mk_ms a (datas (mem st)) (msgs (mem st)) (bufs (mem st)) (freed_ptrs (mem st))) st.

(** ** The port table *)

(** index of a new table at [table] *)
Definition port_table_init st : name_index * istate A :=
  let '(idx, a) := name_index_init (table_ops NULL st) (heap (mem st)) PORT_NAME_LEN_MAX in (idx, with_heap a st).
Definition port_table_create st : Z * name_index * istate A :=
  let '(p, m) := k_alloc (mem st) sizeof_Port_Table in
  let st := set_mem m st in
  if p =? NULL then (NULL, mk_index false false NULL [] 0 NAME_INDEX_FREE_HEAD_INVALID 0 NULL [] 0 0 0 0, st)
  else let '(idx, st) := port_table_init st in (p, idx, st).

(** the heap the index frees its arrays to is the one the dropped ports leave *)
Definition delete_port_table_structure (table : Z) (idx : name_index) st : option (istate A) :=
  if table =? NULL then Some st
  else
    let ops := table_ops table st in
    '(a) ← (fun st => heap (mem st)) <$> snd (fini_rows ops idx port_drop 0 (Z.to_nat (row_cap idx)) (Some st));
    let '(_, a, w) := name_index_fini ops idx a (Some st) in
    st ← w;
    let st := with_heap a st in
    Some (set_mem (k_free (mem st) table) st).

Definition port_table_port_is_live (table : Z) (idx : name_index) (name : option cstr) (port : Z) st : bool :=
  match name with
  | None => false
  | Some name =>
    if (table =? NULL) || (port =? NULL) then false
    else
      let '(p, _) := name_index_search (table_ops table st) idx name in
      (p =? port) && port_is_registered st port
  end.

Definition register_port (table port : Z) (fuel : nat) (idx : name_index) st : option (Z * name_index * istate A) :=
  if (table =? NULL) || (port =? NULL) || (char_at (p_name (port_at st port)) 0 =? 0) then Some (- E_IN_PARAM, idx, st)
  else
    let idx := lock_mcs idx in
    let ops := table_ops table st in
    let '(existing, _) := name_index_search ops idx (p_name (port_at st port)) in
    if negb (existing =? NULL) then
      if existing =? port then Some (REND_SUCCESS, unlock_mcs idx, st) else Some (- E_RENDEZVOS, unlock_mcs idx, st)
    else
      let e := allows hooks port PORT_OPS_REGISTER None st in
      if negb (e =? REND_SUCCESS) then Some (e, unlock_mcs idx, st)
      else
        '(e, row_idx, idx, a, w) ← name_index_register ops idx (heap (mem st)) (Some st) port fuel;
        st ← w;
        let st := with_heap a st in
        if negb (e =? REND_SUCCESS) then Some (- E_RENDEZVOS, unlock_mcs idx, st)
        else
          let '(ok, st) := get_port port st in
          if negb ok then
            let '(idx, a, w) := name_index_register_abort ops idx (heap (mem st)) (Some st) row_idx port in
            st ← w; Some (- E_RENDEZVOS, unlock_mcs idx, with_heap a st)
          else Some (REND_SUCCESS, unlock_mcs idx, st).

(** [while (port_ops_count_get(port) != 0) schedule(...)] *)
Fixpoint wait_for_calls (port : Z) (fuel : nat) st : option (istate A) :=
  match fuel with
  | O => None
  | S fuel' => if port_ops_count_get st port =? 0 then Some st else wait_for_calls port fuel' (schedule st)
  end.

Definition unregister_port (table : Z) (name : option cstr) (fuel : nat) (idx : name_index) st
  : option (Z * name_index * istate A) :=
  match name with
  | None => Some (- E_IN_PARAM, idx, st)
  | Some name =>
    if table =? NULL then Some (- E_IN_PARAM, idx, st)
    else
      let idx := lock_mcs idx in
      let ops := table_ops table st in
      let '(port, row_idx) := name_index_search ops idx name in
      if (port =? NULL) || negb (port_is_registered st port) then Some (REND_SUCCESS, unlock_mcs idx, st)
      else
        let '(idx, a, w) := name_index_unregister ops idx (heap (mem st)) (Some st) port row_idx (Some name) in
        st ← w;
        let st := with_heap a st in
        let idx := unlock_mcs idx in
        st ← wait_for_calls port fuel st;
        st ← port_clean_thread_queue port drain_fuel st;
        let '(_, st) := port_ops_set_life_with_expect port PORT_OPS_LIFE_CLOSING PORT_OPS_LIFE_CLOSED st in
        st ← put_port port st;
        Some (REND_SUCCESS, idx, st)
  end.

(** ** Lookup *)

Definition port_lookup_finish (port : Z) (lookup_name : option cstr) st : option (Z * istate A) :=
  if port =? NULL then Some (NULL, st)
  else if negb (allows hooks port PORT_OPS_LOOKUP lookup_name st =? REND_SUCCESS)
  then st ← put_port port st; Some (NULL, st)
  else Some (port, st).

(** the port, the token written out, the index, the state *)
Definition port_table_lookup_with_token (table : Z) (name : option cstr) (tok : name_index_token) (idx : name_index) st
  : option (Z * name_index_token * name_index * istate A) :=
  match name with
  | None => Some (NULL, tok, idx, st)
  | Some n =>
    if table =? NULL then Some (NULL, tok, idx, st)
    else
      let '(port, tok, idx, w) := name_index_lookup (table_ops table st) idx (Some st) n tok in
      st ← w;
      '(port, st) ← port_lookup_finish port name st;
      Some (port, tok, idx, st)
  end.
Definition port_table_lookup (table : Z) (name : option cstr) (idx : name_index) st : option (Z * name_index * istate A) :=
  '(port, _, idx, st) ← port_table_lookup_with_token table name (mk_token 0 0) idx st; Some (port, idx, st).
Definition port_table_resolve_token (table : Z) (tok : option name_index_token) (name : option cstr) (idx : name_index) st
  : option (Z * name_index * istate A) :=
  match name with
  | None => Some (NULL, idx, st)
  | Some n =>
    if table =? NULL then Some (NULL, idx, st)
    else
      match tok with
      | None => port_table_lookup table name idx st
      | Some tok =>
        let '(port, idx, w) := name_index_resolve (table_ops table st) idx (Some st) tok n in
        st ← w;
        '(port, st) ← port_lookup_finish port name st;
        Some (port, idx, st)
      end
  end.
End Port.
