(* ===== verification/PortGate.v ===== *)
(** * Closing a port under running calls

    [port_ops_begin], [port_ops_end] and the part of [unregister_port] that
    waits for running calls, of [kernel/ipc/port.c], one atomic access at a
    time and interleaved freely: any number of callers against the one thread
    that closes the port. *)
From S2P Require Import Prelude Refcount IpcState.

(** a caller inside [port_ops_begin] .. [port_ops_end] *)
Inductive caller :=
| COut                  (* before the call, or refused *)
| CAllowed              (* life was REGISTERED and [ops_allow] agreed *)
| CCounted              (* [ops_count] incremented *)
| CUndo                 (* the second look found the port closing *)
| CInside.              (* [port_ops_begin] returned true *)

(** the closing thread inside [unregister_port] *)
Inductive closer :=
| UOut
| UWait                 (* life CLOSING; looks at [ops_count] *)
| UClean                (* saw no running call; drains the queue *)
| UDone.                (* life CLOSED *)

Record gate := mk_gate { life : Z; count : Z; callers : list caller; closing : closer }.

(** the next access of caller [i]; [allow] is the answer of the hook *)
Definition caller_step (allow : bool) (i : nat) (g : gate) : option gate :=
  let goto p := mk_gate (life g) (count g) (<[i := p]> (callers g)) (closing g) in
  match callers g !! i with
  | Some COut =>
    Some (if negb (life g =? PORT_OPS_LIFE_REGISTERED) then g else if negb allow then g else goto CAllowed)
  | Some CAllowed => Some (mk_gate (life g) (u64 (count g + 1)) (<[i := CCounted]> (callers g)) (closing g))
  | Some CCounted => Some (goto (if negb (life g =? PORT_OPS_LIFE_REGISTERED) then CUndo else CInside))
  | Some CUndo | Some CInside => Some (mk_gate (life g) (u64 (count g - 1)) (<[i := COut]> (callers g)) (closing g))
  | None => None
  end.

(** the next access of the closing thread *)
Definition closer_step (g : gate) : gate :=
  match closing g with
  | UOut =>
    let '(prev, l) := atomic64_cas (life g) PORT_OPS_LIFE_REGISTERED PORT_OPS_LIFE_CLOSING in
    mk_gate l (count g) (callers g) (if prev =? PORT_OPS_LIFE_REGISTERED then UWait else UOut)
  | UWait => mk_gate (life g) (count g) (callers g) (if i64 (count g) =? 0 then UClean else UWait)
  | UClean =>
    let '(_, l) := atomic64_cas (life g) PORT_OPS_LIFE_CLOSING PORT_OPS_LIFE_CLOSED in
    mk_gate l (count g) (callers g) UDone
  | UDone => g
  end.

Inductive gate_step : gate -> gate -> Prop :=
| gate_caller allow i g g' : caller_step allow i g = Some g' -> gate_step g g'
| gate_closer g : gate_step g (closer_step g).

(** a registered port, [n] threads that may use it *)
Definition gate_start (n : nat) : gate := mk_gate PORT_OPS_LIFE_REGISTERED 0 (repeat COut n) UOut.

Definition busy (c : caller) : bool := match c with CCounted | CUndo | CInside => true | _ => false end.

Record gate_inv (n : nat) (g : gate) : Prop := {
  gi_len : length (callers g) = n;
  gi_count : count g = countp busy (callers g);
  gi_life : life g = match closing g with
                     | UOut => PORT_OPS_LIFE_REGISTERED
                     | UWait | UClean => PORT_OPS_LIFE_CLOSING
                     | UDone => PORT_OPS_LIFE_CLOSED
                     end;
  gi_drained : closing g = UClean \/ closing g = UDone -> CInside ∉ callers g
}.

Lemma count_of_step n g i p p' :
  gate_inv n g -> Z.of_nat n < 2 ^ 62 -> callers g !! i = Some p ->
  countp busy (<[i := p']> (callers g)) = count g - Z.b2z (busy p) + Z.b2z (busy p') /\
  0 <= countp busy (<[i := p']> (callers g)) < 2 ^ 62.
Proof.
  intros [H1 H2 _ _] Hn Hp. pose proof (countp_insert busy (callers g) i p' p Hp) as E.
  pose proof (countp_range busy (<[i := p']> (callers g))) as R. rewrite length_insert, H1 in R. rewrite E in R |- *. lia.
Qed.

Lemma drained_insert g i p :
  (closing g = UClean \/ closing g = UDone -> CInside ∉ callers g) -> p <> CInside ->
  closing g = UClean \/ closing g = UDone -> CInside ∉ <[i := p]> (callers g).
Proof.
  intros H Hp Hc Hin. apply list_elem_of_lookup in Hin as [j Hj].
  apply list_lookup_insert_Some in Hj as [(_ & E & _)|[_ Hj]]; [done|]. apply (H Hc). by eapply list_elem_of_lookup_2.
Qed.

Lemma caller_step_inv n allow i g g' :
  Z.of_nat n < 2 ^ 62 -> gate_inv n g -> caller_step allow i g = Some g' -> gate_inv n g'.
Proof.
  intros Hn I Hs. pose proof I as [H1 H2 H3 H4]. unfold caller_step in Hs. destruct (callers g !! i) as [p|] eqn:Hp; [|done].
  pose proof (fun p' => count_of_step n g i p p' I Hn Hp) as Hc. destruct p; simplify_eq.
  - destruct (life g =? _); cbn [negb]; [|done]. destruct allow; cbn [negb]; [|done].
    destruct (Hc CAllowed) as [E R]. cbn [busy Z.b2z] in E.
    constructor; cbn [callers count life closing]; [by rewrite length_insert|lia|done|by apply drained_insert].
  - destruct (Hc CCounted) as [E R]. cbn [busy Z.b2z] in E.
    constructor; cbn [callers count life closing]; [by rewrite length_insert|rewrite u64_small; lia|done|by apply drained_insert].
  - destruct (Z.eqb_spec (life g) PORT_OPS_LIFE_REGISTERED) as [Hl|Hl]; cbn [negb].
    + destruct (Hc CInside) as [E R]. cbn [busy Z.b2z] in E.
      constructor; cbn [callers count life closing]; [by rewrite length_insert|lia|done|].
      rewrite H3 in Hl. by intros [Hcl|Hcl]; rewrite Hcl in Hl.
    + destruct (Hc CUndo) as [E R]. cbn [busy Z.b2z] in E.
      constructor; cbn [callers count life closing]; [by rewrite length_insert|lia|done|by apply drained_insert].
  - destruct (Hc COut) as [E R]. cbn [busy Z.b2z] in E.
    constructor; cbn [callers count life closing]; [by rewrite length_insert|rewrite u64_small; lia|done|by apply drained_insert].
  - destruct (Hc COut) as [E R]. cbn [busy Z.b2z] in E.
    constructor; cbn [callers count life closing]; [by rewrite length_insert|rewrite u64_small; lia|done|by apply drained_insert].
Qed.

Lemma closer_step_inv n g : Z.of_nat n < 2 ^ 62 -> gate_inv n g -> gate_inv n (closer_step g).
Proof.
  intros Hn I. pose proof I as [H1 H2 H3 H4]. pose proof (countp_range busy (callers g)) as R. rewrite H1 in R.
  unfold closer_step, atomic64_cas. destruct (closing g) eqn:Ec; rewrite ?H3.
  - change (PORT_OPS_LIFE_REGISTERED =? PORT_OPS_LIFE_REGISTERED) with true. cbn iota.
    constructor; cbn [callers count life closing]; [done|done|done|by intros []].
  - rewrite i64_small by lia. destruct (Z.eqb_spec (count g) 0) as [E|E]; constructor; cbn [callers count life closing]; try done.
    intros _ Hin. apply list_elem_of_lookup in Hin as [j Hj].
    assert (Hb : busy CInside = false) by (apply (countp_zero busy (callers g) ltac:(lia) j _ Hj)). done.
  - change (PORT_OPS_LIFE_CLOSING =? PORT_OPS_LIFE_CLOSING) with true. cbn iota.
    constructor; cbn [callers count life closing]; [done|done|done|]. intros _. apply H4. by left.
  - exact I.
Qed.

Lemma gate_start_inv n : gate_inv n (gate_start n).
Proof.
  constructor; cbn [gate_start callers count life closing]; [apply repeat_length| |done|by intros []].
  symmetry. apply countp_none. intros i x Hx. apply list_elem_of_lookup_2 in Hx. apply list_elem_of_In in Hx. by apply repeat_spec in Hx as ->.
Qed.

Lemma gate_reach_inv n g : Z.of_nat n < 2 ^ 62 -> rtc gate_step (gate_start n) g -> gate_inv n g.
Proof.
  intros Hn Hs. assert (H : forall g0, gate_inv n g0 -> rtc gate_step g0 g -> gate_inv n g); [|exact (H _ (gate_start_inv n) Hs)].
  intros g0 I0 Hr. clear Hs. induction Hr as [g0|g0 g1 g2 Hst _ IH]; [done|]. apply IH.
  destruct Hst as [allow i g0 g1 Hst|g0]; [by eapply caller_step_inv|by apply closer_step_inv].
Qed.

(** C16 (safety): whatever the interleaving, once the closing thread has seen no running
    call and drains the queue (and for ever after) no thread is between
    [port_ops_begin] and [port_ops_end], although late callers may still be
    undoing their increment; the counter is exactly the number of callers that
    have incremented it, so it never wraps; the life never leaves the order
    REGISTERED, CLOSING, CLOSED. *)
Theorem closing_excludes_calls n g (Hn : Z.of_nat n < 2 ^ 62) (Hs : rtc gate_step (gate_start n) g) :
  (closing g = UClean \/ closing g = UDone ->
   CInside ∉ callers g /\ forall allow i g', caller_step allow i g = Some g' -> CInside ∉ callers g') /\
  count g = countp busy (callers g) /\ 0 <= count g <= Z.of_nat n /\
  life g = match closing g with
           | UOut => PORT_OPS_LIFE_REGISTERED
           | UWait | UClean => PORT_OPS_LIFE_CLOSING
           | UDone => PORT_OPS_LIFE_CLOSED
           end.
Proof.
  pose proof (gate_reach_inv n g Hn Hs) as I. pose proof I as [H1 H2 H3 H4].
  pose proof (countp_range busy (callers g)) as R. rewrite H1, <- H2 in R.
  split; [|by repeat split; try lia]. intros Hc. split; [by apply H4|]. intros allow i g' Hg.
  pose proof (caller_step_inv n allow i g g' Hn I Hg) as [_ _ _ H4']. apply H4'.
  unfold caller_step in Hg. destruct (callers g !! i) as [[]|]; simplify_eq; try exact Hc.
  repeat (destruct (negb _)); exact Hc.
Qed.

(** a caller passes its first look, the port closes and is drained, and the
    late increment is undone *)
Definition gate_late : gate := mk_gate PORT_OPS_LIFE_CLOSING 1 [CUndo; COut] UClean.
Lemma closing_excludes_calls_witness : rtc gate_step (gate_start 2) gate_late /\ CInside ∉ callers gate_late.
Proof.
  assert (Hs : rtc gate_step (gate_start 2) gate_late).
  { eapply rtc_l; [apply (gate_caller true 0); reflexivity|].
    eapply rtc_l; [apply gate_closer|]. eapply rtc_l; [apply gate_closer|].
    eapply rtc_l; [apply (gate_caller true 0); reflexivity|].
    eapply rtc_l; [apply (gate_caller true 0); reflexivity|]. apply rtc_refl. }
  split; [exact Hs|].
  exact (proj1 (proj1 (closing_excludes_calls 2 gate_late ltac:(lia) Hs) (or_introl eq_refl))).
Defined.
