(* ===== verification/PortSpec.v ===== *)
(** * What the port table guarantees

    The table's invariant ties NameIndex to the life of the ports: exactly the
    ports the index holds are REGISTERED, name the table as their owner and
    are referenced by it.  Registration and removal keep it, and removal
    drains the waiting senders. *)
From S2P Require Import Prelude ThreadStatus Mm CString Allocator TaggedPtr Refcount MsQueue MsqSeq IpcSerial Message NameIndex IpcState Ipc IpcSpec IpcRendezvous IpcWait Port.

(** ** The index depends on the names only *)

Section Ext.
Context {W1 W2 : Type} (ops1 : name_index_ops W1) (ops2 : name_index_ops W2).
Context (Hext : forall v, value_name ops1 v = value_name ops2 v).

Lemma row_hash_ext idx r : row_hash ops1 idx r = row_hash ops2 idx r.
Proof. unfold row_hash. by rewrite Hext. Qed.
Lemma row_wf_ext r : row_wf ops1 r -> row_wf ops2 r.
Proof.
  intros [H1 [H2|(H2 & H3 & n & H4 & H5)]]; split; [done|by left|done|]. right. split; [done|]. split; [done|].
  exists n. by rewrite <- Hext.
Qed.
Lemma table_built_ext idx occ load P : table_built ops1 idx occ load P -> table_built ops2 idx occ load P.
Proof.
  intros [H1 H2 H3 H4 H5 H6 H7]. constructor; try done. intros i Hi Hu HP. rewrite <- row_hash_ext. by apply H7.
Qed.
Lemma index_inv_ext idx : index_inv ops1 idx -> index_inv ops2 idx.
Proof.
  intros [[H1 H2 H3 H4 H5 H6] Ht]. split.
  - constructor; try done. intros i Hi. by apply row_wf_ext, H4.
  - destruct Ht as [Ht|Ht]; [by left|right; by apply table_built_ext].
Qed.
Lemma search_ext idx name : name_index_search ops1 idx name = name_index_search ops2 idx name.
Proof.
  unfold name_index_search, name_index_ht_find_bucket. destruct (_ || _); [done|].
  assert (E : forall n h m p, probe_loop (ht_find_body ops1 idx name) h m p n = probe_loop (ht_find_body ops2 idx name) h m p n).
  { induction n as [|n IH]; intros h m p; [done|]. cbn [probe_loop]. unfold ht_find_body at 1 3.
    rewrite Hext. by rewrite IH. }
  by rewrite E.
Qed.
End Ext.

(** ** Locks and lengths *)

Section Lock.
Context {A : Type} {HA : Allocator A} {HL : AllocatorLaws A} {W : Type} (ops : name_index_ops W).

Lemma set_lock_inv b idx : index_inv ops idx -> index_inv ops (set_lock b idx).
Proof.
  intros [[H1 H2 H3 H4 H5 (fl & Hc & Hn & Hi)] Ht]. split.
  - constructor; try done. exists fl. split_and!; [|done|done]. by apply (free_chain_ext idx).
  - destruct Ht as [Ht|[T1 T2 T3 T4 T5 T6 T7]]; [by left|right]. by constructor.
Qed.

Lemma remove_len idx r name : name_len_max (name_index_ht_remove idx r name) = name_len_max idx.
Proof.
  unfold name_index_ht_remove.
  pose proof (probe_loop_inv (ht_remove_body idx r) (name_index_hash_name idx (Some name)) (ht_mask idx) 0 (Z.to_nat (ht_cap idx))) as H.
  destruct (probe_loop _ _ _ _ _) as [i|]; [|done]. destruct H as (p & _ & H & _). unfold ht_remove_body in H.
  destruct (_ =? _); [by simplify_eq|]. destruct (_ =? _); [done|]. destruct (negb _); [done|]. by injection H as <-.
Qed.

Lemma unregister_len idx (a : A) (w : W) value r name :
  name_len_max (fst (fst (name_index_unregister ops idx a w value r name))) = name_len_max idx.
Proof.
  unfold name_index_unregister. destruct (_ <=? _); [done|]. destruct (_ || _); [done|]. cbv zeta.
  set (idx1 := release_row _ r).
  assert (E1 : name_len_max idx1 = name_len_max idx) by (destruct name; cbn; [apply remove_len|done]).
  assert (E2 : name_len_max (fst (name_index_maybe_shrink_ht ops idx1 a)) = name_len_max idx1).
  { unfold name_index_maybe_shrink_ht. destruct (_ <=? _); [done|]. destruct (_ =? 0); [done|].
    assert (Hr : forall c, name_len_max (snd (fst (name_index_ht_rehash ops idx1 a c))) = name_len_max idx1) by (intros; apply rehash_len).
    match goal with |- context [match ?t with Some _ => _ | None => _ end] => destruct t as [c|] end; [|done].
    destruct (_ <? _); [done|]. destruct (_ =? _); [done|]. specialize (Hr c).
    destruct (name_index_ht_rehash ops idx1 a c) as [[e i] a']. exact Hr. }
  destruct (name_index_maybe_shrink_ht ops idx1 a) as [i a']. cbn in *. congruence.
Qed.
End Lock.

(** ** The invariant of the table *)

Section Table.
Context {A : Type} {HA : Allocator A} {HL : AllocatorLaws A}.
Context (hooks : Z -> port_append_hooks A) (schedule : istate A -> istate A) (drain_fuel : nat).
Implicit Types (st : istate A) (idx : name_index).

Notation tops := (table_ops hooks drain_fuel).

Definition name_ok (s : cstr) : Prop := cstr_ok s /\ char_at s 0 <> 0.
Definition same_name (a b : cstr) : Prop := strcmp_s a b PORT_NAME_LEN_MAX = 0.

Record in_table (table : Z) (px : Message_Port_t) : Prop := {
  it_life : ops_life px = PORT_OPS_LIFE_REGISTERED;
  it_table : p_table px = table;
  it_ref : 0 < p_refcount px < 2 ^ 62;
  it_name : name_ok (p_name px)
}.

(** the rows of the index are exactly the ports owned by the table, their
    names are distinct, and each is REGISTERED and referenced *)
Record table_ok (table : Z) idx st : Prop := {
  to_table : table <> NULL;
  to_index : index_inv (tops table st) idx;
  to_cap : 0 <= row_cap idx;
  to_len : name_len_max idx = PORT_NAME_LEN_MAX;
  to_rows : forall i v, 0 <= i -> row_value idx i = Some v ->
    v <> NULL /\ exists px, ports st !! v = Some px /\ in_table table px;
  to_ports : forall p px, ports st !! p = Some px -> p_table px = table -> exists i, 0 <= i /\ row_value idx i = Some p;
  to_names : forall i j v w px py, 0 <= i -> 0 <= j -> row_value idx i = Some v -> row_value idx j = Some w ->
    ports st !! v = Some px -> ports st !! w = Some py -> same_name (p_name px) (p_name py) -> i = j
}.

Lemma table_name table st v px : v <> NULL -> ports st !! v = Some px -> value_name (tops table st) v = Some (p_name px).
Proof.
  intros Hv Hp. unfold value_name, table_ops. cbn [get_name]. unfold port_get_name. apply Z.eqb_neq in Hv. by rewrite Hv, Hp.
Qed.

(** states whose ports have the same names *)
Definition same_names st st' : Prop := forall v, p_name <$> ports st' !! v = p_name <$> ports st !! v.
Lemma names_ext table table' st st' : same_names st st' -> forall v, value_name (tops table st) v = value_name (tops table' st') v.
Proof. intros H v. unfold value_name, table_ops. cbn [get_name]. unfold port_get_name. by destruct (v =? NULL). Qed.

(** a port that is not in the table is not found under its name *)
Lemma search_table table idx st name :
  table_ok table idx st -> cstr_ok name ->
  let '(v, r) := name_index_search (tops table st) idx name in
  (v <> NULL /\ 0 <= r /\ row_value idx r = Some v /\
     exists px, ports st !! v = Some px /\ in_table table px /\ same_name (p_name px) name) \/
  (v = NULL /\ forall p px, ports st !! p = Some px -> p_table px = table -> ~ same_name (p_name px) name).
Proof.
  intros T Hn. destruct (name_index_search _ _ _) as [v r] eqn:E.
  destruct (search_effect (tops table st) idx name v r (to_index _ _ _ T) Hn E) as [(Hv & Hr & Hrow & n & Hvn & Hc)|(-> & Hno)].
  - left. split; [done|]. split; [lia|]. split; [done|]. destruct (to_rows _ _ _ T r v ltac:(lia) Hrow) as (_ & px & Hp & Hi).
    exists px. split; [done|]. split; [done|]. rewrite (table_name table st v px Hv Hp) in Hvn. simplify_eq.
    unfold same_name. by rewrite <- (to_len _ _ _ T).
  - right. split; [done|]. intros p px Hp Ht Hs. destruct (to_ports _ _ _ T p px Hp Ht) as (i & Hi & Hrow).
    destruct (to_rows _ _ _ T i p Hi Hrow) as (Hp0 & _). apply (Hno i p (p_name px) Hi Hrow); [by apply table_name|].
    rewrite (to_len _ _ _ T). exact Hs.
Qed.

(** the invariant sees of the state only the ports, of the index not the lock *)
Lemma table_ok_state table idx st st' : ports st' = ports st -> table_ok table idx st -> table_ok table idx st'.
Proof.
  intros E [H1 H2 H3 H4 H5 H6 H7]. constructor; try done; rewrite ?E; try done.
  eapply index_inv_ext; [|exact H2]. apply names_ext. intros v. by rewrite E.
Qed.
Lemma table_ok_lock b table idx st : table_ok table idx st -> table_ok table (set_lock b idx) st.
Proof. intros [H1 H2 H3 H4 H5 H6 H7]. constructor; try done. by apply set_lock_inv. Qed.

Lemma same_name_sym a b : name_ok a -> name_ok b -> same_name a b -> same_name b a.
Proof. intros [Ha _] [Hb _]. unfold same_name. rewrite !strcmp_s_zero by done. done. Qed.

(** a port entering the table *)
Definition registered (table : Z) (px : Message_Port_t) : Message_Port_t :=
  with_prefcount (p_refcount px + 1) (with_table table (with_life PORT_OPS_LIFE_REGISTERED px)).

Lemma on_register_effect table st p px :
  p <> NULL -> ports st !! p = Some px -> ops_life px = PORT_OPS_LIFE_ACTIVE ->
  port_on_register table p (Some st) = Some (set_ports (<[p := with_table table (with_life PORT_OPS_LIFE_REGISTERED px)]> (ports st)) st).
Proof.
  intros Hp0 Hp Hl. unfold port_on_register. cbn [mbind option_bind]. apply Z.eqb_neq in Hp0.
  unfold port_ops_set_life_with_expect. rewrite Hp0, (port_at_some _ _ _ Hp), Hl. unfold atomic64_cas. cbn [snd].
  change (PORT_OPS_LIFE_ACTIVE =? u64 PORT_OPS_LIFE_ACTIVE) with true. change (u64 PORT_OPS_LIFE_REGISTERED) with PORT_OPS_LIFE_REGISTERED.
  unfold upd_port, set_ports. cbn [ports mem msg_next reqs threads core_tm current_thread idle_thread_ptr retired thread_frees].
  f_equal. f_equal. apply map_eq. intros y. destruct (decide (p = y)) as [<-|Hy].
  - by rewrite !lookup_alter_eq, lookup_insert_eq, Hp.
  - by rewrite !lookup_alter_ne, lookup_insert_ne.
Qed.

Lemma get_port_effect st p px :
  ports st !! p = Some px -> 0 < p_refcount px < 2 ^ 62 ->
  get_port p st = (true, set_ports (<[p := with_prefcount (p_refcount px + 1) px]> (ports st)) st).
Proof.
  intros Hp Hr. unfold get_port. rewrite (port_at_some _ _ _ Hp), get_live by done. f_equal. unfold upd_port. f_equal.
  apply map_eq. intros y. destruct (decide (p = y)) as [<-|Hy]; [by rewrite lookup_alter_eq, lookup_insert_eq, Hp|].
  by rewrite lookup_alter_ne, lookup_insert_ne.
Qed.

(** the table after row [r] was given the port *)
Lemma table_ok_insert table idx idx' st p px r :
  table_ok table idx st -> p <> NULL -> ports st !! p = Some px -> p_table px <> table -> 0 < p_refcount px < 2 ^ 61 -> name_ok (p_name px) ->
  (forall q qx, ports st !! q = Some qx -> p_table qx = table -> ~ same_name (p_name qx) (p_name px)) ->
  index_inv (tops table st) idx' -> row_cap idx <= row_cap idx' -> name_len_max idx' = name_len_max idx ->
  0 <= r -> content_update idx idx' r (Some p) -> row_value idx r = None ->
  forall st', ports st' = <[p := registered table px]> (ports st) -> table_ok table idx' st'.
Proof.
  intros T Hp0 Hp Ht Href Hn Habs Hi Hcap Hlen Hr [Hu1 Hu2] Hnone st' Ep.
  assert (Hold : forall i v, 0 <= i -> i <> r -> row_value idx' i = Some v -> row_value idx i = Some v /\ v <> p).
  { intros i v Hi0 Hir Hv. rewrite (proj1 (Hu2 i Hi0 Hir)) in Hv. split; [done|]. intros ->.
    destruct (to_rows _ _ _ T i p Hi0 Hv) as (_ & qx & Hq & Hit). rewrite Hp in Hq. simplify_eq. by apply Ht, Hit. }
  assert (Hsym : forall j v qx, 0 <= j -> j <> r -> row_value idx' j = Some v -> ports st' !! v = Some qx ->
    ~ same_name (p_name qx) (p_name px) /\ ~ same_name (p_name px) (p_name qx)).
  { intros j v qx Hj Hjr Hv Hq. destruct (Hold j v Hj Hjr Hv) as [Hv' Hvp]. rewrite Ep, lookup_insert_ne in Hq by done.
    destruct (to_rows _ _ _ T j v Hj Hv') as (_ & qx' & Hq' & Hit). rewrite Hq in Hq'. injection Hq' as <-.
    pose proof (Habs v qx Hq (it_table _ _ Hit)) as Hno. split; [done|]. intros Hs. apply Hno, same_name_sym; [done|apply Hit|done]. }
  constructor.
  - exact (to_table _ _ _ T).
  - eapply index_inv_ext; [|exact Hi]. apply names_ext. intros v. rewrite Ep.
    destruct (decide (p = v)) as [<-|Hv]; [by rewrite lookup_insert_eq, Hp|by rewrite lookup_insert_ne].
  - pose proof (to_cap _ _ _ T). lia.
  - rewrite Hlen. exact (to_len _ _ _ T).
  - intros i v Hi0 Hv. destruct (decide (i = r)) as [->|Hir].
    + rewrite Hu1 in Hv. injection Hv as <-. split; [done|]. exists (registered table px). rewrite Ep, lookup_insert_eq.
      split; [done|]. constructor; [done|done|cbn; lia|done].
    + destruct (Hold i v Hi0 Hir Hv) as [Hv' Hvp]. destruct (to_rows _ _ _ T i v Hi0 Hv') as (Hv0 & qx & Hq & Hit).
      split; [done|]. exists qx. by rewrite Ep, lookup_insert_ne.
  - intros q qx Hq Hqt. rewrite Ep in Hq. destruct (decide (p = q)) as [<-|Hpq]; [by exists r|].
    rewrite lookup_insert_ne in Hq by done. destruct (to_ports _ _ _ T q qx Hq Hqt) as (i & Hi0 & Hv).
    exists i. split; [done|]. assert (Hir : i <> r) by (intros ->; by rewrite Hnone in Hv). by rewrite (proj1 (Hu2 i Hi0 Hir)).
  - intros i j v w qx qy Hi0 Hj0 Hv Hw Hqx Hqy Hs.
    destruct (decide (i = r)) as [->|Hir], (decide (j = r)) as [->|Hjr]; [done| | |].
    + rewrite Hu1 in Hv. injection Hv as <-. rewrite Ep, lookup_insert_eq in Hqx. injection Hqx as <-.
      by destruct (Hsym j w qy Hj0 Hjr Hw Hqy).
    + rewrite Hu1 in Hw. injection Hw as <-. rewrite Ep, lookup_insert_eq in Hqy. injection Hqy as <-.
      by destruct (Hsym i v qx Hi0 Hir Hv Hqx).
    + destruct (Hold i v Hi0 Hir Hv) as [Hv' Hvp], (Hold j w Hj0 Hjr Hw) as [Hw' Hwp].
      rewrite Ep, lookup_insert_ne in Hqx by done. rewrite Ep, lookup_insert_ne in Hqy by done.
      by apply (to_names _ _ _ T i j v w qx qy).
Qed.

(** a port that may be registered *)
Record registrable table st p px : Prop := {
  rg_port : ports st !! p = Some px;
  rg_null : p <> NULL;
  rg_life : ops_life px = PORT_OPS_LIFE_ACTIVE;
  rg_table : p_table px <> table;
  rg_ref : 0 < p_refcount px < 2 ^ 61;
  rg_name : name_ok (p_name px)
}.


(** ** Draining the waiting senders *)

(** the waiting queue as a plain queue: a closing port no longer keeps its side *)
Record draining st p px d (L : list (Z * Z)) tg : Prop := {
  dr_port : ports st !! p = Some px;
  dr_null : p <> NULL;
  dr_queue : is_queue (req_nodes st) (thread_queue px) d L tg;
  dr_count : Forall (fun a => nref (req_nodes st a) < 2 ^ 60) (d :: map fst L)
}.

Definition closed_sender (x : Thread_Base) : Thread_Base :=
  with_status thread_status_ready (with_flags (Z.lor (t_flags x) THREAD_FLAG_IPC_PORT_CLOSED) (with_port_ptr NULL x)).

(** the threads of [us], blocked on a send to [p], told of the close *)
Fixpoint close_all (us : list Z) (ths : gmap Z Thread_Base) : gmap Z Thread_Base :=
  match us with [] => ths | u :: us' => close_all us' (alter closed_sender u ths) end.

Definition blocked_sender st p u : Prop :=
  u <> NULL /\ exists x, threads st !! u = Some x /\ t_status x = thread_status_block_on_send /\ port_ptr x = p.

Lemma close_waiter_sender st p u :
  blocked_sender st p u -> close_waiter p u st = Some (set_threads (alter closed_sender u (threads st)) st).
Proof.
  intros (Hu & x & Hx & Hs & Hp). unfold close_waiter. pose proof Hu as Hu'. apply Z.eqb_neq in Hu'. rewrite Hu'.
  unfold thread_get_status. rewrite Hu', (thread_at_some _ _ _ Hx), Hs.
  change (thread_status_block_on_send =? thread_status_block_on_receive) with false. rewrite Z.eqb_refl.
  rewrite (port_ptr_cas_effect st u p x Hx). unfold thread_or_flags, thread_set_status_with_expect. rewrite Hu'.
  set (st1 := set_threads (<[u := cleared p x]> (threads st)) st).
  set (st2 := upd_thread u _ st1).
  assert (H2 : threads st2 !! u = Some (with_flags (Z.lor (t_flags x) THREAD_FLAG_IPC_PORT_CLOSED) (cleared p x))).
  { assert (H1 : threads st1 !! u = Some (cleared p x)) by (unfold st1; cbn; by rewrite lookup_insert_eq).
    exact (upd_thread_same st1 u (fun y => with_flags (Z.lor (t_flags y) THREAD_FLAG_IPC_PORT_CLOSED) y) _ H1). }
  rewrite (thread_at_some _ _ _ H2). cbn [t_status with_flags cleared with_port_ptr]. rewrite Hs. unfold atomic64_cas.
  rewrite Z.eqb_refl. cbn [snd]. f_equal. unfold st2, st1, upd_thread, set_threads.
  cbn [mem msg_next reqs threads ports core_tm current_thread idle_thread_ptr retired thread_frees]. f_equal.
  apply map_eq. intros y. destruct (decide (u = y)) as [<-|Hy].
  - rewrite !lookup_alter_eq, lookup_insert_eq, Hx. cbn. f_equal. unfold cleared. rewrite Hp, Z.eqb_refl. done.
  - by rewrite !lookup_alter_ne, lookup_insert_ne.
Qed.

(** the plain dequeue of the drain *)
Lemma drain_one st p px d a t L tg :
  draining st p px d ((a, t) :: L) tg ->
  exists q' st1, port_queue_op p (msq_dequeue 0) None st = Some (tp_new a t, st1) /\
    threads st1 = threads st /\ mem st1 = mem st /\ r_thread (req_at st1 a) = r_thread (req_at st a) /\
    forall ths, let st2 := put_req a (set_threads ths st1) in
      draining st2 p (set_thread_queue q' px) a L tg /\ threads st2 = ths /\ mem st2 = mem st /\
      (forall y, r_thread (req_at st2 y) = r_thread (req_at st y)) /\
      ports st2 = <[p := set_thread_queue q' px]> (ports st).
Proof.
  intros [Hp Hp0 Q Hc]. unfold port_queue_op. rewrite (port_at_some _ _ _ Hp). unfold on_reqs.
  assert (Hcc : forall b, b ∈ d :: map fst ((a, t) :: L) -> 0 < nref (req_nodes st b) < 2 ^ 60).
  { intros b Hb. destruct (iq_node _ _ _ _ _ Q b Hb) as [_ H2]. pose proof (proj1 (Forall_forall _ _) Hc b Hb) as H3. cbn in H3. lia. }
  pose proof (Hcc a ltac:(right; by left)) as Hra.
  pose proof (dequeue_spec _ _ _ _ _ None Q) as Hd. cbv zeta in Hd. destruct Hd as (nd & q' & _ & E & Q' & Hx).
  change (msq_dequeue 0) with (goto 0 (DeqLoop None)). rewrite E. cbn [retire_all mbind option_bind].
  set (st1 := upd_port p (set_thread_queue q') (store_req_nodes nd st)). exists q', st1. split; [done|].
  assert (N : forall y, req_nodes st1 y = nd y).
  { intros y. apply (req_nodes_store st nd). intros z Hz. rewrite Hx. case_decide as Hza; [|by unfold req_nodes; rewrite Hz].
    subst z. unfold req_nodes in Hra. rewrite Hz in Hra. cbn in Hra. lia. }
  assert (R1 : forall y, reqs st1 !! y = (fun r => mk_req (nd y) (r_thread r) (queue_ptr r)) <$> reqs st !! y) by exact (reqs_store st nd).
  assert (Ht1 : forall y, r_thread (req_at st1 y) = r_thread (req_at st y)) by (intros y; unfold req_at; rewrite R1; by destruct (reqs st !! y)).
  do 2 (split; [done|]). split; [apply Ht1|]. intros ths. cbv zeta.
  destruct (reqs st !! a) as [rq|] eqn:Hrq; [|unfold req_nodes in Hra; rewrite Hrq in Hra; cbn in Hra; lia].
  assert (Ra : reqs (set_threads ths st1) !! a = Some (mk_req (mk_node (nref (req_nodes st a) + 1) (nnext (req_nodes st a))) (r_thread rq) (queue_ptr rq))).
  { change (reqs (set_threads ths st1)) with (reqs st1). by rewrite R1, Hrq, Hx, decide_True. }
  rewrite (put_req_live _ a _ Ra) by (cbn; lia). cbn [r_node nref nnext r_thread queue_ptr]. rewrite Z.add_simpl_r.
  set (st2 := set_reqs _ _).
  assert (N2 : forall y, req_nodes st2 y = req_nodes st y).
  { intros y. unfold st2, req_nodes at 1, set_reqs. cbn [reqs]. destruct (decide (a = y)) as [<-|Hy].
    - rewrite lookup_insert_eq. cbn [r_node]. by destruct (req_nodes st a).
    - rewrite lookup_insert_ne by done. change (match reqs st1 !! y with Some r => r_node r | None => mk_node 0 0 end = req_nodes st y).
      change (match reqs st1 !! y with Some r => r_node r | None => mk_node 0 0 end) with (req_nodes st1 y). by rewrite N, Hx, decide_False. }
  assert (P2 : ports st2 = <[p := set_thread_queue q' px]> (ports st)).
  { unfold st2, st1, upd_port, set_ports, set_reqs, set_threads. cbn [ports store_req_nodes]. apply map_eq. intros y.
    destruct (decide (p = y)) as [<-|Hy]; [|by rewrite lookup_alter_ne, lookup_insert_ne].
    rewrite lookup_alter_eq, lookup_insert_eq. change (ports (store_req_nodes nd st)) with (ports st). by rewrite Hp. }
  split; [|split; [done|split; [done|split; [|exact P2]]]].
  - specialize (Q' ltac:(lia)). constructor; [by rewrite P2, lookup_insert_eq|done| |].
    + apply (is_queue_frame nd); [by destruct L|]. intros y Hy. rewrite N2. split; [rewrite Hx; by case_decide; subst|].
      pose proof (Hcc y ltac:(right; exact Hy)). lia.
    + apply Forall_forall. intros y Hy. rewrite N2. apply Hcc. by right.
  - intros y. unfold st2, req_at, set_reqs. cbn [reqs]. destruct (decide (a = y)) as [<-|Hy].
    + by rewrite lookup_insert_eq, Hrq.
    + rewrite lookup_insert_ne by done. apply Ht1.
Qed.

(** every waiting sender of a port is told, in a bounded number of rounds *)
Lemma drain_senders L fuel st p px d tg :
  draining st p px d L tg -> let us := map (fun a => r_thread (req_at st (fst a))) L in
  NoDup us -> Forall (blocked_sender st p) us -> (length L < fuel)%nat ->
  exists st' q' d', port_clean_thread_queue p fuel st = Some st' /\
    threads st' = close_all us (threads st) /\ mem st' = mem st /\
    ports st' = <[p := set_thread_queue q' px]> (ports st) /\ is_queue (req_nodes st') q' d' [] tg.
Proof.
  revert fuel st px d. induction L as [|[a t] L IH]; intros [|fuel] st px d D us Hdup Hbl Hf; try (cbn in Hf; lia).
  - destruct D as [Hp Hp0 Q Hc]. exists st, (thread_queue px), d. cbn [port_clean_thread_queue]. pose proof Hp0 as Hp0'. apply Z.eqb_neq in Hp0'. rewrite Hp0'.
    pose proof (dequeue_spec _ _ _ _ _ None Q) as Hd. cbv zeta in Hd. destruct Hd as (nd & q' & _ & E & -> & Hx).
    unfold port_queue_op. rewrite (port_at_some _ _ _ Hp). unfold on_reqs. change (msq_dequeue 0) with (goto 0 (DeqLoop None)). rewrite E.
    cbn [retire_all mbind option_bind]. rewrite store_req_nodes_id by done.
    rewrite (upd_port_id st p _ px Hp) by (by destruct px). cbn. split; [done|]. do 2 (split; [done|]). split; [|done].
    rewrite insert_id; [done|]. rewrite Hp. by destruct px.
  - destruct (drain_one st p px d a t L tg D) as (q1 & st1 & E & Et & Em & Er & Hst2).
    cbn [port_clean_thread_queue]. destruct D as [Hp Hp0 Q Hc]. pose proof Hp0 as Hp0'. apply Z.eqb_neq in Hp0'. rewrite Hp0', E. cbn [mbind option_bind].
    destruct (iq_node _ _ _ _ _ Q a ltac:(right; by left)) as [Ha _]. destruct (tp_ptr_some a t Ha) as [-> ->].
    cbn [us map fst] in Hdup, Hbl. apply list.NoDup_cons in Hdup as [Hnu Hdup]. apply list.Forall_cons in Hbl as [Hb Hbl].
    rewrite Er. set (u := r_thread (req_at st a)) in *.
    assert (Hb1 : blocked_sender st1 p u) by (unfold blocked_sender; by rewrite Et).
    rewrite (close_waiter_sender st1 p u Hb1). cbn [mbind option_bind].
    destruct (Hst2 (alter closed_sender u (threads st1))) as (D2 & T2 & M2 & R2 & P2). rewrite Et in T2, D2, M2, R2, P2 |- *.
    set (st2 := put_req a _) in *.
    assert (Eus : map (fun b => r_thread (req_at st2 (fst b))) L = map (fun b => r_thread (req_at st (fst b))) L) by (apply map_ext; intros b; apply R2).
    destruct (IH fuel st2 (set_thread_queue q1 px) a D2) as (st' & q' & d' & E' & T' & M' & P' & Q').
    + by rewrite Eus.
    + rewrite Eus. apply Forall_forall. intros v Hv. destruct (proj1 (Forall_forall _ _) Hbl v Hv) as (Hv0 & x & Hx & Hx2).
      split; [done|]. exists x. split; [|done]. rewrite T2, lookup_alter_ne; [done|]. intros ->. done.
    + cbn in Hf. lia.
    + exists st', q', d'. split; [exact E'|]. split; [rewrite T', Eus, T2; done|]. split; [by rewrite M', M2|].
      split; [rewrite P', P2, insert_insert_eq; by destruct px|done].
Qed.

(** ** Unregistration *)

(** the table after the row of port [p] was cleared *)
Lemma table_ok_remove table idx idx' st p px r :
  table_ok table idx st -> ports st !! p = Some px -> 0 <= r -> row_value idx r = Some p ->
  index_inv (tops table st) idx' -> row_cap idx' = row_cap idx -> name_len_max idx' = name_len_max idx ->
  content_update idx idx' r None ->
  forall st' px', ports st' = <[p := px']> (ports st) -> p_name px' = p_name px -> p_table px' <> table -> table_ok table idx' st'.
Proof.
  intros T Hp Hr Hrow Hi Hcap Hlen [Hu1 Hu2] st' px' Ep Hn Ht.
  assert (Hold : forall i v, 0 <= i -> row_value idx' i = Some v -> i <> r /\ row_value idx i = Some v /\ v <> p).
  { intros i v Hi0 Hv. assert (Hir : i <> r) by (intros ->; by rewrite Hu1 in Hv). rewrite (proj1 (Hu2 i Hi0 Hir)) in Hv.
    split; [done|]. split; [done|]. intros ->. apply Hir.
    destruct (to_rows _ _ _ T i p Hi0 Hv) as (_ & qx & Hq & Hit). pose proof (it_name _ _ Hit) as Hnm.
    apply (to_names _ _ _ T i r p p qx qx Hi0 Hr Hv Hrow Hq Hq). apply strcmp_s_refl. }
  constructor.
  - exact (to_table _ _ _ T).
  - eapply index_inv_ext; [|exact Hi]. apply names_ext. intros v. rewrite Ep.
    destruct (decide (p = v)) as [<-|Hv]; [rewrite lookup_insert_eq, Hp; cbn; by rewrite Hn|by rewrite lookup_insert_ne].
  - rewrite Hcap. exact (to_cap _ _ _ T).
  - rewrite Hlen. exact (to_len _ _ _ T).
  - intros i v Hi0 Hv. destruct (Hold i v Hi0 Hv) as (_ & Hv' & Hvp). destruct (to_rows _ _ _ T i v Hi0 Hv') as (Hv0 & qx & Hq & Hit).
    split; [done|]. exists qx. by rewrite Ep, lookup_insert_ne.
  - intros q qx Hq Hqt. rewrite Ep in Hq. destruct (decide (p = q)) as [<-|Hpq].
    { rewrite lookup_insert_eq in Hq. by simplify_eq. }
    rewrite lookup_insert_ne in Hq by done. destruct (to_ports _ _ _ T q qx Hq Hqt) as (i & Hi0 & Hv). exists i. split; [done|].
    rewrite (proj1 (Hu2 i Hi0 ltac:(intros ->; rewrite Hrow in Hv; by simplify_eq))). done.
  - intros i j v w qx qy Hi0 Hj0 Hv Hw Hqx Hqy. destruct (Hold i v Hi0 Hv) as (_ & Hv' & Hvp), (Hold j w Hj0 Hw) as (_ & Hw' & Hwp).
    rewrite Ep, lookup_insert_ne in Hqx by done. rewrite Ep, lookup_insert_ne in Hqy by done. by apply (to_names _ _ _ T i j v w qx qy).
Qed.

Lemma on_unregister_effect st p px :
  p <> NULL -> ports st !! p = Some px -> ops_life px = PORT_OPS_LIFE_REGISTERED ->
  port_on_unregister p (Some st) = Some (set_ports (<[p := with_life PORT_OPS_LIFE_CLOSING (with_table NULL px)]> (ports st)) st).
Proof.
  intros Hp0 Hp Hl. unfold port_on_unregister. cbn [mbind option_bind]. apply Z.eqb_neq in Hp0.
  unfold port_ops_set_life_with_expect. rewrite Hp0. set (st1 := upd_port p (with_table NULL) st).
  assert (H1 : ports st1 !! p = Some (with_table NULL px)) by (unfold st1, upd_port, set_ports; cbn [ports]; by rewrite lookup_alter_eq, Hp).
  rewrite (port_at_some _ _ _ H1). cbn [ops_life with_table]. rewrite Hl. unfold atomic64_cas. cbn [snd].
  change (PORT_OPS_LIFE_REGISTERED =? u64 PORT_OPS_LIFE_REGISTERED) with true. change (u64 PORT_OPS_LIFE_CLOSING) with PORT_OPS_LIFE_CLOSING.
  unfold st1, upd_port, set_ports. cbn [ports mem msg_next reqs threads core_tm current_thread idle_thread_ptr retired thread_frees].
  f_equal. f_equal. apply map_eq. intros y. destruct (decide (p = y)) as [<-|Hy].
  - by rewrite !lookup_alter_eq, lookup_insert_eq, Hp.
  - by rewrite !lookup_alter_ne, lookup_insert_ne.
Qed.

(** the last steps: CLOSING to CLOSED, and the table's reference is dropped *)
Lemma close_and_put st p px :
  p <> NULL -> ports st !! p = Some px -> ops_life px = PORT_OPS_LIFE_CLOSING -> 1 < p_refcount px < 2 ^ 62 ->
  put_port hooks drain_fuel p (snd (port_ops_set_life_with_expect p PORT_OPS_LIFE_CLOSING PORT_OPS_LIFE_CLOSED st)) =
    Some (set_ports (<[p := with_prefcount (p_refcount px - 1) (with_life PORT_OPS_LIFE_CLOSED px)]> (ports st)) st).
Proof.
  intros Hp0 Hp Hl Hr. apply Z.eqb_neq in Hp0. unfold port_ops_set_life_with_expect. rewrite Hp0, (port_at_some _ _ _ Hp), Hl.
  unfold atomic64_cas. cbn [snd]. change (PORT_OPS_LIFE_CLOSING =? u64 PORT_OPS_LIFE_CLOSING) with true.
  change (u64 PORT_OPS_LIFE_CLOSED) with PORT_OPS_LIFE_CLOSED. set (st1 := upd_port p (with_life PORT_OPS_LIFE_CLOSED) st).
  assert (H1 : ports st1 !! p = Some (with_life PORT_OPS_LIFE_CLOSED px)) by (unfold st1, upd_port, set_ports; cbn [ports]; by rewrite lookup_alter_eq, Hp).
  unfold put_port. rewrite (port_at_some _ _ _ H1). cbn [p_refcount with_life]. rewrite put_live by lia.
  unfold st1, upd_port, set_ports. cbn [ports mem msg_next reqs threads core_tm current_thread idle_thread_ptr retired thread_frees].
  f_equal. f_equal. apply map_eq. intros y. destruct (decide (p = y)) as [<-|Hy].
  - by rewrite !lookup_alter_eq, lookup_insert_eq, Hp.
  - by rewrite !lookup_alter_ne, lookup_insert_ne.
Qed.

(** a registered port without running calls, on which the threads [us] wait to
    send and which somebody besides the table still references *)
Record closable table st p px d L tg (us : list Z) : Prop := {
  cl_port : ports st !! p = Some px;
  cl_null : p <> NULL;
  cl_table : p_table px = table;
  cl_idle : ops_count px = 0;
  cl_ref : 1 < p_refcount px;
  cl_queue : draining st p px d L tg;
  cl_us : us = map (fun a => r_thread (req_at st (fst a))) L;
  cl_distinct : NoDup us;
  cl_blocked : Forall (blocked_sender st p) us
}.

(** the tail of [unregister_port], once the port is CLOSING and out of the table *)
Lemma close_effect st fuel p px d L tg us :
  draining st p px d L tg -> us = map (fun a => r_thread (req_at st (fst a))) L -> NoDup us -> Forall (blocked_sender st p) us ->
  (length L < drain_fuel)%nat -> ops_count px = 0 -> ops_life px = PORT_OPS_LIFE_CLOSING -> 1 < p_refcount px < 2 ^ 62 ->
  exists st' q d',
    (forall B (k : istate A -> option B),
      (wait_for_calls schedule p (S fuel) st ≫= fun st => port_clean_thread_queue p drain_fuel st ≫= fun st =>
        let '(_, st) := port_ops_set_life_with_expect p PORT_OPS_LIFE_CLOSING PORT_OPS_LIFE_CLOSED st in
        put_port hooks drain_fuel p st ≫= k) = k st') /\
    threads st' = close_all us (threads st) /\ is_queue (req_nodes st') q d' [] tg /\
    ports st' = <[p := with_prefcount (p_refcount px - 1) (with_life PORT_OPS_LIFE_CLOSED (set_thread_queue q px))]> (ports st).
Proof.
  intros D -> Hdup Hbl Hf Hid Hl Hr. destruct (drain_senders L drain_fuel st p px d tg D Hdup Hbl Hf) as (st2 & q & d' & E & T2 & M2 & P2 & Q2).
  destruct D as [Hp Hp0 _ _].
  assert (H2 : ports st2 !! p = Some (set_thread_queue q px)) by (by rewrite P2, lookup_insert_eq).
  pose proof (close_and_put st2 p (set_thread_queue q px) Hp0 H2 Hl Hr) as Ec.
  set (st' := set_ports _ st2) in Ec. exists st', q, d'. split; [|split; [exact T2|split; [exact Q2|]]].
  - intros B k. cbn [wait_for_calls]. unfold port_ops_count_get. apply Z.eqb_neq in Hp0. rewrite Hp0, (port_at_some _ _ _ Hp), Hid.
    rewrite Z.eqb_refl. cbn [mbind option_bind]. rewrite E. cbn [mbind option_bind].
    destruct (port_ops_set_life_with_expect _ _ _ _) as [b st3]. cbn [snd] in Ec. by rewrite Ec.
  - unfold st', set_ports. cbn [ports]. by rewrite P2, insert_insert_eq.
Qed.

(** C23 (functional): [unregister_port] of a registered port takes exactly that port
    out of the table, wakes every thread waiting to send to it with the close
    flag set and its port pointer cleared, empties the waiting queue, leaves
    the port CLOSED with the table's reference dropped, and from then on the
    name is not found and no call can begin on the port.  An absent name is not
    an error. *)
Theorem unregister_port_spec table idx st fuel
  (T : table_ok table idx st) :
  (forall name, name_ok name -> (forall p px, ports st !! p = Some px -> p_table px = table -> ~ same_name (p_name px) name) ->
     unregister_port hooks schedule drain_fuel table (Some name) (S fuel) idx st = Some (REND_SUCCESS, unlock_mcs (lock_mcs idx), st)) /\
  (forall p px d L tg us, closable table st p px d L tg us -> (length L < drain_fuel)%nat ->
     exists idx' st' q, unregister_port hooks schedule drain_fuel table (Some (p_name px)) (S fuel) idx st = Some (REND_SUCCESS, idx', st') /\
       table_ok table idx' st' /\ fst (name_index_search (tops table st') idx' (p_name px)) = NULL /\
       threads st' = close_all us (threads st) /\
       (exists d', is_queue (req_nodes st') q d' [] tg) /\
       ports st' = <[p := with_prefcount (p_refcount px - 1) (with_life PORT_OPS_LIFE_CLOSED (set_thread_queue q (with_table NULL px)))]> (ports st) /\
       forall op, port_ops_begin hooks p op st' = (false, st')).
Proof.
  pose proof (to_table _ _ _ T) as Ht0. assert (T1 : table_ok table (lock_mcs idx) st) by by apply table_ok_lock.
  split.
  - intros name Hn Habs. unfold unregister_port. apply Z.eqb_neq in Ht0. rewrite Ht0.
    pose proof (search_table table (lock_mcs idx) st name T1 (proj1 Hn)) as Hs.
    destruct (name_index_search _ _ _) as [v r]. destruct Hs as [(_ & _ & _ & qx & Hq & Hit & Hsn)|(-> & _)]; [|done].
    exfalso. by apply (Habs v qx Hq (it_table _ _ Hit)).
  - intros p px d L tg us [Hp Hp0 Hpt Hid Hrc D Eus Hdup Hbl] Hf. unfold unregister_port. apply Z.eqb_neq in Ht0. rewrite Ht0.
    destruct (to_ports _ _ _ T1 p px Hp Hpt) as (i & Hi0 & Hrow).
    destruct (to_rows _ _ _ T1 i p Hi0 Hrow) as (_ & qx & Hq & Hit). rewrite Hp in Hq. injection Hq as <-.
    destruct Hit as [Hl _ Href Hn].
    pose proof (search_table table (lock_mcs idx) st (p_name px) T1 (proj1 Hn)) as Hs.
    destruct (name_index_search _ _ _) as [v r]. destruct Hs as [(Hv0 & Hr & Hrv & qx & Hq & Hit & Hsn)|(-> & Habs)].
    2:{ exfalso. apply (Habs p px Hp Hpt). apply strcmp_s_refl. }
    assert (Eri : r = i) by exact (to_names _ _ _ T1 r i v p qx px Hr Hi0 Hrv Hrow Hq Hp Hsn). subst r.
    rewrite Hrow in Hrv. injection Hrv as <-. clear Hsn Hit Hq qx Hv0.
    assert (Hreg : port_is_registered st p = true).
    { unfold port_is_registered, port_ops_life_get. apply Z.eqb_neq in Hp0. by rewrite Hp0, (port_at_some _ _ _ Hp), Hl. }
    pose proof Hp0 as Hp0'. apply Z.eqb_neq in Hp0'. rewrite Hp0', Hreg. cbn [negb orb].
    pose proof (unregister_effect (tops table st) (lock_mcs idx) (heap (mem st)) (Some st) p i (p_name px) (to_index _ _ _ T1) Hi0 Hrow
      (table_name _ _ _ _ Hp0 Hp)) as Hu.
    pose proof (unregister_len (tops table st) (lock_mcs idx) (heap (mem st)) (Some st) p i (Some (p_name px))) as Hlen.
    destruct (name_index_unregister _ _ _ _ _ _ _) as [[idx1 a1] w1]. cbn [fst] in Hlen. destruct Hu as (Hi1 & Hcap & Hcu & _ & ->).
    cbn [run_hook table_ops on_unregister]. rewrite (on_unregister_effect st p px Hp0 Hp Hl). cbn [mbind option_bind].
    set (px1 := with_life PORT_OPS_LIFE_CLOSING (with_table NULL px)).
    set (st1 := with_heap a1 (set_ports (<[p := px1]> (ports st)) st)).
    assert (D1 : draining st1 p px1 d L tg).
    { destruct D as [_ _ Dq Dc]. constructor; [|done|exact Dq|exact Dc]. unfold st1. cbn. by rewrite lookup_insert_eq. }
    destruct (close_effect st1 fuel p px1 d L tg us D1 Eus Hdup Hbl Hf Hid eq_refl ltac:(cbn; lia)) as (st' & q & d' & E & Et & Q & P).
    assert (P' : ports st' = <[p := with_prefcount (p_refcount px - 1) (with_life PORT_OPS_LIFE_CLOSED (set_thread_queue q (with_table NULL px)))]> (ports st)).
    { rewrite P. unfold st1. cbn. by rewrite insert_insert_eq. }
    exists (unlock_mcs idx1), st', q. split; [by rewrite E|].
    assert (T' : table_ok table (unlock_mcs idx1) st').
    { apply table_ok_lock. eapply (table_ok_remove table (lock_mcs idx) idx1 st p px i T1 Hp Hi0 Hrow Hi1 Hcap Hlen Hcu); [exact P'|done|].
      cbn. apply Z.eqb_neq in Ht0. congruence. }
    split; [exact T'|]. split; [|split; [exact Et|split; [by exists d'|split; [exact P'|]]]].
    + pose proof (search_table table (unlock_mcs idx1) st' (p_name px) T' (proj1 Hn)) as Hs.
      destruct (name_index_search _ _ _) as [v r]. destruct Hs as [(Hv0 & Hr' & Hrv & qx & Hq & Hit & Hsn)|(-> & _)]; [exfalso|done].
      change (row_value (unlock_mcs idx1) r) with (row_value idx1 r) in Hrv.
      assert (Hri : r <> i). { intros ->. destruct Hcu as [Hu1 _]. by rewrite Hu1 in Hrv. }
      rewrite (proj1 (proj2 Hcu r Hr' Hri)) in Hrv. apply Hri.
      assert (Hvp : v <> p). { intros ->. apply Hri. refine (to_names _ _ _ T1 r i p p px px Hr' Hi0 Hrv Hrow Hp Hp _). apply strcmp_s_refl. }
      rewrite P', lookup_insert_ne in Hq by done.
      exact (to_names _ _ _ T1 r i v p qx px Hr' Hi0 Hrv Hrow Hq Hp Hsn).
    + intros op. apply begin_refused. unfold port_is_registered, port_ops_life_get. rewrite Hp0'.
      erewrite port_at_some by (rewrite P'; apply lookup_insert_eq). done.
Qed.

End Table.

(** ** A concrete table *)

(** the port of the IPC demo before registration, [SENDER] waiting on it *)
Definition TABLE : Z := 0x9000.
Definition fresh_port : Message_Port_t :=
  mk_port (mk_queue (tp_new 0x6000 0) (tp_new 0x7000 5) 2) 1 NULL [112] 7 PORT_OPS_LIFE_ACTIVE 0 NULL.
Definition demo_fresh : istate bump := set_ports {[PORT := fresh_port]} demo_pull.
Definition demo_table : name_index :=
  fst (name_index_init (table_ops no_hooks 4 TABLE demo_fresh) (mk_bump 0x20000 100) PORT_NAME_LEN_MAX).

Lemma fresh_port_name_ok : name_ok [112].
Proof. split; [by repeat constructor|discriminate]. Qed.

Lemma demo_fresh_lookup p px : ports demo_fresh !! p = Some px -> p = PORT /\ px = fresh_port.
Proof. intros H. change (ports demo_fresh) with ({[PORT := fresh_port]} : gmap Z Message_Port_t) in H. by apply lookup_singleton_Some in H as [<- <-]. Qed.

Lemma demo_table_ok : table_ok no_hooks 4 TABLE demo_table demo_fresh.
Proof.
  destruct (init_inv (table_ops no_hooks 4 TABLE demo_fresh) (mk_bump 0x20000 100) PORT_NAME_LEN_MAX ltac:(discriminate)) as (Hi & Hc & Hv).
  change (fst (name_index_init _ _ _)) with demo_table in Hi, Hc, Hv.
  constructor; [discriminate|exact Hi|exact Hc|vm_compute; reflexivity| | |].
  - intros i v Hi0 H. by rewrite Hv in H.
  - by intros p px [-> ->]%demo_fresh_lookup.
  - intros i j v w px py Hi0 Hj0 H. by rewrite Hv in H.
Qed.


(** the same port in the table *)
Definition demo_registered : istate bump := set_ports (<[PORT := registered TABLE fresh_port]> (ports demo_fresh)) demo_fresh.
Definition demo_table_one : name_index :=
  match name_index_register (table_ops no_hooks 4 TABLE demo_fresh) demo_table (mk_bump 0x20000 100) (Some demo_fresh) PORT 1 with
  | Some (_, _, idx, _, _) => idx
  | None => demo_table
  end.

Lemma demo_table_one_ok : table_ok no_hooks 4 TABLE demo_table_one demo_registered.
Proof.
  pose proof demo_table_ok as T.
  destruct (register_effect (table_ops no_hooks 4 TABLE demo_fresh) demo_table (mk_bump 0x20000 100) (Some demo_fresh) PORT [112] 0
    (to_index _ _ _ _ _ T) (to_cap _ _ _ _ _ T) ltac:(discriminate) eq_refl (proj1 fresh_port_name_ok) ltac:(discriminate))
    as (e & r & idx' & a' & w' & E & Hi & Hc & H).
  assert (He : (fun x => fst (fst (fst (fst x)))) <$> name_index_register (table_ops no_hooks 4 TABLE demo_fresh) demo_table (mk_bump 0x20000 100)
    (Some demo_fresh) PORT 1 = Some REND_SUCCESS) by (vm_compute; reflexivity).
  unfold demo_table_one. rewrite E in He |- *. cbn in He. injection He as ->.
  destruct H as [(_ & Hr & Hn & Hcu & _)|(H & _)]; [|by destruct H].
  refine (table_ok_insert no_hooks 4 TABLE demo_table idx' demo_fresh PORT fresh_port r T _ eq_refl _ _ fresh_port_name_ok _ Hi Hc
    (register_len _ _ _ _ _ _ _ _ _ _ _ E) (proj1 Hr) Hcu Hn demo_registered eq_refl).
  - discriminate.
  - discriminate.
  - split; reflexivity.
  - by intros q qx [-> ->]%demo_fresh_lookup.
Qed.

Lemma unregister_port_spec_witness :
  exists idx' st', unregister_port no_hooks (fun st => st) 4 TABLE (Some [112]) 1 demo_table_one demo_registered =
      Some (REND_SUCCESS, idx', st') /\
    t_status <$> threads st' !! SENDER = Some thread_status_ready /\
    fst (name_index_search (table_ops no_hooks 4 TABLE st') idx' [112]) = NULL.
Proof.
  assert (C : closable TABLE demo_registered PORT (registered TABLE fresh_port) 0x6000 [(0x7000, 5)] 5 [SENDER]).
  { constructor; try reflexivity; try discriminate; [|concrete_nodup|].
    - constructor; [reflexivity|discriminate|concrete_queue|concrete_list].
    - constructor; [|constructor]. split; [discriminate|]. eexists. split; [reflexivity|split; reflexivity]. }
  destruct (proj2 (unregister_port_spec no_hooks (fun st => st) 4 TABLE demo_table_one demo_registered 0 demo_table_one_ok)
    PORT _ _ _ _ _ C ltac:(cbn; lia)) as (idx' & st' & q & E & _ & Hs & Ht & _).
  exists idx', st'. split; [exact E|]. split; [|exact Hs]. rewrite Ht. reflexivity.
Defined.

(** when the copy of the close message cannot be allocated, the failed delivery
    has already released the message, and it is put a second time: the count
    of a retired message goes below zero *)
Definition demo_short : istate bump :=
  set_mem (mk_ms (mk_bump 0x100000 3) (datas (mem demo_waiting)) (msgs (mem demo_waiting)) ∅ []) demo_waiting.
Example close_message_put_twice :
  match notify_receiver PORT RECEIVER demo_short with
  | Some st =>
    exists m, retired st = [(m, FN_free_message_ref_real)] /\ (msg_refcount <$> msgs (mem st) !! m) = Some (2 ^ 64 - 1)
  | None => False
  end.
Proof. vm_compute. eexists. split; reflexivity. Qed.
