(* ===== verification/PageTable.v ===== *)
(** * Page-table entries of x86_64

    [include/arch/x86_64/mm/page_table_def.h], [arch/x86_64/mm/vmm.c] and the
    entry unions of [include/arch/x86_64/mm/vmm.h]: the bits of an entry, the
    two translations between entry flags and the kernel's flags, the four
    [arch_set_Lk_entry].  Tables lie in byte memory (CString). *)
From S2P Require Import Prelude Mm CString.

(** ** Bits *)
Definition MAXPHYADDR_mask (m : Z) : Z := u64 (Z.shiftl 1 m) - 1.

Definition PML4E_P : Z := Z.shiftl 1 0.
Definition PML4E_RW : Z := Z.shiftl 1 1.
Definition PML4E_US : Z := Z.shiftl 1 2.
Definition PML4E_PWT : Z := Z.shiftl 1 3.
Definition PML4E_PCD : Z := Z.shiftl 1 4.
Definition PML4E_XD : Z := Z.shiftl 1 63.
Definition PML4E_ADDR (addr m : Z) : Z := Z.land (u64 (Z.shiftl (Z.shiftr (u64 addr) 12) 12)) (MAXPHYADDR_mask m).
Definition PDPTE_P : Z := Z.shiftl 1 0.
Definition PDPTE_RW : Z := Z.shiftl 1 1.
Definition PDPTE_US : Z := Z.shiftl 1 2.
Definition PDPTE_PWT : Z := Z.shiftl 1 3.
Definition PDPTE_PCD : Z := Z.shiftl 1 4.
Definition PDPTE_PS : Z := Z.shiftl 1 7.
Definition PDPTE_G : Z := Z.shiftl 1 8.
Definition PDPTE_XD : Z := Z.shiftl 1 63.
Definition PDPTE_ADDR (addr m : Z) : Z := Z.land (u64 (Z.shiftl (Z.shiftr (u64 addr) 12) 12)) (MAXPHYADDR_mask m).
Definition PDE_P : Z := Z.shiftl 1 0.
Definition PDE_RW : Z := Z.shiftl 1 1.
Definition PDE_US : Z := Z.shiftl 1 2.
Definition PDE_PWT : Z := Z.shiftl 1 3.
Definition PDE_PCD : Z := Z.shiftl 1 4.
Definition PDE_PS : Z := Z.shiftl 1 7.
Definition PDE_G : Z := Z.shiftl 1 8.
Definition PDE_XD : Z := Z.shiftl 1 63.
Definition PDE_ADDR (addr m : Z) : Z := Z.land (u64 (Z.shiftl (Z.shiftr (u64 addr) 12) 12)) (MAXPHYADDR_mask m).
Definition PTE_P : Z := Z.shiftl 1 0.
Definition PTE_RW : Z := Z.shiftl 1 1.
Definition PTE_US : Z := Z.shiftl 1 2.
Definition PTE_PWT : Z := Z.shiftl 1 3.
Definition PTE_PCD : Z := Z.shiftl 1 4.
Definition PTE_G : Z := Z.shiftl 1 8.
Definition PTE_XD : Z := Z.shiftl 1 63.
Definition PTE_ADDR (addr m : Z) : Z := Z.land (Z.shiftr (u64 (Z.shiftl addr 12)) 12) (MAXPHYADDR_mask m).

(** the 40-bit field [paddr] of the entry unions *)
Definition entry_paddr (entry : Z) : Z := Z.land (Z.shiftr entry 12) (Z.ones 40).
Definition entry_set_paddr (entry paddr : Z) : Z :=
  Z.lor (clear_mask_u64 entry (Z.shiftl (Z.ones 40) 12)) (Z.shiftl (Z.land paddr (Z.ones 40)) 12).
(** [L0_entry_addr] .. [L3_entry_addr] *)
Definition entry_addr (entry : Z) : Z := u64 (Z.shiftl (entry_paddr entry) 12).

(** ** Flags *)

Definition test (x bits : Z) : bool := negb (Z.land x bits =? 0).

Definition arch_entry_flags_valid_bit : list Z := [PML4E_P; PDPTE_P; PDE_P; PTE_P].
Definition arch_entry_flags_write_bit : list Z := [PML4E_RW; PDPTE_RW; PDE_RW; PTE_RW].
Definition arch_entry_flags_no_exec_bit : list Z := [PML4E_XD; PDPTE_XD; PDE_XD; PTE_XD].
Definition arch_entry_flags_user_bit : list Z := [PML4E_US; PDPTE_US; PDE_US; PTE_US].
Definition arch_entry_flags_uncache_device_bit : list Z :=
  [Z.lor PML4E_PCD PML4E_PWT; Z.lor PDPTE_PCD PDPTE_PWT; Z.lor PDE_PCD PDE_PWT; Z.lor PTE_PCD PTE_PWT].
Definition arch_entry_flags_huge_bit : list Z := [0; PDPTE_PS; PDE_PS; 0].

Definition arch_decode_flags (entry_level : Z) (flags : Z) : Z :=
  let flags := entry_flags_rm_sw_flags flags in
  if (entry_level <? 0) || (3 <? entry_level) then REND_SUCCESS
  else
    let at_level (l : list Z) := l !!! Z.to_nat entry_level in
    let put (c : bool) (bits a : Z) := if c then set_mask_u64 a bits else a in
    let a := 0 in
    let a := put (test flags PAGE_ENTRY_VALID) (at_level arch_entry_flags_valid_bit) a in
    let a := put (test flags PAGE_ENTRY_WRITE) (at_level arch_entry_flags_write_bit) a in
    let a := put (negb (test flags PAGE_ENTRY_EXEC)) (at_level arch_entry_flags_no_exec_bit) a in
    let a := put (test flags PAGE_ENTRY_USER) (at_level arch_entry_flags_user_bit) a in
    let a := put (test flags PAGE_ENTRY_UNCACHED || test flags PAGE_ENTRY_DEVICE) (at_level arch_entry_flags_uncache_device_bit) a in
    let a := put (test flags PAGE_ENTRY_HUGE) (at_level arch_entry_flags_huge_bit) a in
    if test flags PAGE_ENTRY_GLOBAL then
      if entry_level =? 1 then put (test flags PAGE_ENTRY_HUGE) PDPTE_G a
      else if entry_level =? 2 then put (test flags PAGE_ENTRY_HUGE) PDE_G a
      else if entry_level =? 3 then set_mask_u64 a PTE_G
      else a
    else a.

Definition arch_encode_flags (entry_level : Z) (pflags : Z) : Z :=
  let put (c : bool) (bits f : Z) := if c then set_mask_u64 f bits else f in
  let mid := (entry_level =? 1) || (entry_level =? 2) in
  let f := 0 in
  let f := put (test pflags PML4E_P || test pflags PDPTE_P || test pflags PDE_P || test pflags PTE_P) PAGE_ENTRY_VALID f in
  let f := set_mask_u64 f PAGE_ENTRY_READ in
  let f := put (test pflags PML4E_RW || test pflags PDPTE_RW || test pflags PDE_RW || test pflags PTE_RW) PAGE_ENTRY_WRITE f in
  let f := if test pflags PML4E_XD || test pflags PDPTE_XD || test pflags PDE_XD || test pflags PTE_XD
           then clear_mask_u64 f PAGE_ENTRY_EXEC else set_mask_u64 f PAGE_ENTRY_EXEC in
  let f := put (test pflags PML4E_US || test pflags PDPTE_US || test pflags PDE_US || test pflags PDE_US) PAGE_ENTRY_USER f in
  let f := put (test pflags (Z.lor PML4E_PCD PML4E_PWT) || test pflags (Z.lor PDPTE_PCD PDPTE_PWT)
                || test pflags (Z.lor PDE_PCD PDE_PWT) || test pflags (Z.lor PTE_PCD PTE_PWT))
               (Z.lor PAGE_ENTRY_DEVICE PAGE_ENTRY_UNCACHED) f in
  let f := put (mid && (test pflags PDPTE_PS || test pflags PDE_PS)) PAGE_ENTRY_HUGE f in
  put ((mid && (test pflags (Z.lor PDPTE_PS PDPTE_G) || test pflags (Z.lor PDE_PS PDE_G)))
       || ((entry_level =? 3) && test pflags PTE_G)) PAGE_ENTRY_GLOBAL f.

(** ** Entries in memory: [pt_addr] is the address of the table *)

Section Set_.
Context (max_phy_addr_width : Z).

Definition arch_set_L0_entry (m : mem) (p v pt_addr flags : Z) : mem :=
  store64 m (pt_addr + 8 * L0_INDEX v) (Z.lor (PML4E_ADDR p max_phy_addr_width) flags).
Definition arch_set_L1_entry (m : mem) (p v pt_addr flags : Z) : mem :=
  store64 m (pt_addr + 8 * L1_INDEX v) (Z.lor (PDPTE_ADDR p max_phy_addr_width) flags).
Definition arch_set_L2_entry (m : mem) (p v pt_addr flags : Z) : mem :=
  store64 m (pt_addr + 8 * L2_INDEX v) (Z.lor (PDE_ADDR p max_phy_addr_width) flags).
Definition arch_set_L3_entry (m : mem) (p v pt_addr flags : Z) : mem :=
  store64 m (pt_addr + 8 * L3_INDEX v) (Z.lor (PTE_ADDR p max_phy_addr_width) flags).
End Set_.
