(* ===== verification/PageTree.v ===== *)
(** * The tree of page tables

    What the tables in memory say about an address ([translate]), when tables
    form a tree ([pt_tree]), and how the two kinds of stores of map_handler.c
    change it: writing a leaf, and hanging a new empty table below an entry. *)
From S2P Require Import Prelude Mm CString PageTable.

(** ** Words in byte memory *)

Lemma load_le_ext n m m' a : (forall x, a <= x < a + Z.of_nat n -> m' x = m x) -> load_le m' a n = load_le m a n.
Proof.
  revert a. induction n as [|n IH]; intros a H; [done|]. cbn [load_le]. rewrite H by lia.
  rewrite IH; [done|]. intros x Hx. apply H. lia.
Qed.
Lemma load64_ext m m' a : (forall x, a <= x < a + 8 -> m' x = m x) -> load64 m' a = load64 m a.
Proof. apply (load_le_ext 8). Qed.

Lemma load64_store64_ne m a v b : a + 8 <= b \/ b + 8 <= a -> load64 (store64 m a v) b = load64 m b.
Proof. intros H. apply load64_ext. intros x Hx. unfold store64. rewrite store_le_spec. change (Z.of_nat 8) with 8. repeat case_bool. Qed.

Lemma load_le_digits n m a v : (forall i, 0 <= i < Z.of_nat n -> m (a + i) = (v / 256 ^ i) mod 256) ->
  load_le m a n = v mod 256 ^ Z.of_nat n.
Proof.
  revert a v. induction n as [|n IH]; intros a v H; [cbn; by rewrite Z.mod_1_r|]. cbn [load_le].
  rewrite (IH (a + 1) (v / 256)).
  2:{ intros i Hi. replace (a + 1 + i) with (a + (i + 1)) by lia. rewrite H by lia. rewrite Z.div_div by lia.
      do 2 f_equal. rewrite Z.pow_add_r by lia. lia. }
  pose proof (H 0 ltac:(lia)) as H0. rewrite Z.add_0_r in H0. rewrite H0, Z.pow_0_r, Z.div_1_r.
  rewrite Nat2Z.inj_succ, Z.pow_succ_r by lia. rewrite Z.rem_mul_r by lia. done.
Qed.
Lemma load64_store64_eq m a v : load64 (store64 m a v) a = u64 v.
Proof.
  unfold load64. rewrite (load_le_digits 8 _ a v); [done|]. intros i Hi. unfold store64. rewrite store_le_spec.
  change (Z.of_nat 8) with 8 in *. repeat case_bool. replace (a + i - a) with i by lia. done.
Qed.
Lemma load64_range m a : byte_mem m -> 0 <= load64 m a < 2 ^ 64.
Proof. intros H. exact (load_le_range 8 m a H). Qed.
Lemma load64_zero m a : (forall x, a <= x < a + 8 -> m x = 0) -> load64 m a = 0.
Proof. intros H. rewrite (load64_ext (fun _ => 0) m a); [done|]. intros x Hx. by apply H. Qed.

(** ** Entries *)

Lemma test_lor a f b : Z.land a b = 0 -> test (Z.lor a f) b = test f b.
Proof. intros H. unfold test. by rewrite Z.land_lor_distr_l, H, Z.lor_0_l. Qed.

Definition frame_mask : Z := Z.shiftl (Z.ones 40) 12.

Lemma encode_frame k a f : Z.land a frame_mask = a -> arch_encode_flags k (Z.lor a f) = arch_encode_flags k f.
Proof.
  intros H. unfold arch_encode_flags.
  assert (T : forall b, Z.land frame_mask b = 0 -> test (Z.lor a f) b = test f b).
  { intros b Hb. apply test_lor. by rewrite <- H, <- Z.land_assoc, Hb, Z.land_0_r. }
  repeat rewrite T by reflexivity. done.
Qed.

Lemma addr_bits w p : 12 < w <= 52 -> 0 <= p < 2 ^ w -> p mod 4096 = 0 ->
  PML4E_ADDR p w = p /\ PTE_ADDR p w = p /\ Z.land p frame_mask = p /\ entry_paddr p = p / 4096.
Proof.
  intros Hw Hp Ha. assert (2 ^ w <= 2 ^ 52) by (apply Z.pow_le_mono_r; lia).
  assert (E : p = Z.shiftl (p / 4096) 12) by (rewrite Z.shiftl_mul_pow2 by lia; dlia).
  assert (Hm : Z.land p (MAXPHYADDR_mask w) = p).
  { unfold MAXPHYADDR_mask. assert (2 ^ w < 2 ^ 64) by (apply Z.pow_lt_mono_r; lia).
    rewrite Z.shiftl_mul_pow2, Z.mul_1_l, u64_small by lia. replace (2 ^ w - 1) with (Z.ones w) by (rewrite Z.ones_equiv; lia).
    rewrite Z.land_ones by lia. apply Z.mod_small. lia. }
  assert (Hpp : entry_paddr p = p / 4096).
  { unfold entry_paddr. rewrite Z.shiftr_div_pow2 by lia. rewrite Z.land_ones by lia. change (2 ^ 12) with 4096. apply Z.mod_small. dlia. }
  split; [|split; [|split; [|done]]].
  - unfold PML4E_ADDR. rewrite (u64_small p) by lia. rewrite Z.shiftr_div_pow2 by lia. change (2 ^ 12) with 4096. rewrite <- E. by rewrite u64_small by lia.
  - unfold PTE_ADDR. rewrite Z.shiftl_mul_pow2 by lia. unfold u64, wrap.
    replace (2 ^ 64) with (2 ^ 52 * 2 ^ 12) by reflexivity. rewrite Z.mul_mod_distr_r by lia. rewrite Z.shiftr_div_pow2, Z.div_mul by lia.
    rewrite Z.mod_small by lia. done.
  - rewrite E. unfold frame_mask. rewrite <- Z.shiftl_land. f_equal. rewrite Z.land_ones by lia. apply Z.mod_small. dlia.
Qed.


(** the flags of an entry do not touch the address; what reading them gives *)
Lemma decode_facts k flags : 0 <= k <= 3 ->
  let f := arch_decode_flags k flags in
  let g := entry_flags_rm_sw_flags flags in
  0 <= f < 2 ^ 64 /\ Z.land f frame_mask = 0 /\
  test (arch_encode_flags k f) PAGE_ENTRY_VALID = test g PAGE_ENTRY_VALID /\
  test (arch_encode_flags k f) PAGE_ENTRY_HUGE = ((k =? 1) || (k =? 2)) && test g PAGE_ENTRY_HUGE.
Proof.
  intros Hk f g. unfold f, arch_decode_flags. fold g.
  destruct (test g PAGE_ENTRY_VALID), (test g PAGE_ENTRY_WRITE), (test g PAGE_ENTRY_EXEC), (test g PAGE_ENTRY_USER),
    (test g PAGE_ENTRY_UNCACHED || test g PAGE_ENTRY_DEVICE), (test g PAGE_ENTRY_HUGE), (test g PAGE_ENTRY_GLOBAL);
  (assert (Hc : k = 0 \/ k = 1 \/ k = 2 \/ k = 3) by lia; destruct Hc as [-> | [-> | [-> | ->]]]; vm_compute; (split; [split; [discriminate|reflexivity]|done])).
Qed.

Lemma test_rm_sw flags b : Z.land b (Z.lor PAGE_ENTRY_REMAP (Z.lor PAGE_ENTRY_LAZY PAGE_ENTRY_COW)) = 0 -> 0 <= b < 2 ^ 64 ->
  test (entry_flags_rm_sw_flags flags) b = test flags b.
Proof.
  intros H Hb. unfold test, entry_flags_rm_sw_flags, clear_mask_u64. f_equal. f_equal.
  apply Z.bits_inj'. intros n Hn. rewrite !Z.land_spec. unfold u64 at 1. rewrite testbit_wrap, testbit_bnot by lia.
  assert (Hx := f_equal (fun x => Z.testbit x n) H). cbn beta in Hx. rewrite Z.land_spec, Z.bits_0 in Hx.
  destruct (Z.testbit b n) eqn:E; [|by rewrite !andb_false_r]. cbn in Hx. rewrite Hx.
  destruct (Z.ltb_spec n 64) as [|Hge]; [by rewrite !andb_true_r|].
  rewrite (testbit_small 64 b n Hb ltac:(lia)) in E. done.
Qed.

(** an entry written for frame [p] with decoded flags *)
Lemma new_entry w k p flags : 12 < w <= 52 -> 0 <= k <= 3 -> 0 <= p < 2 ^ w -> p mod 4096 = 0 ->
  let e := Z.lor (PML4E_ADDR p w) (arch_decode_flags k flags) in
  u64 e = e /\ entry_addr e = p /\ entry_paddr e = p / 4096 /\
  arch_encode_flags k e = arch_encode_flags k (arch_decode_flags k flags) /\ e = Z.lor (PTE_ADDR p w) (arch_decode_flags k flags).
Proof.
  intros Hw Hk Hp Ha e. destruct (addr_bits w p Hw Hp Ha) as (E1 & E2 & E3 & E4).
  destruct (decode_facts k flags Hk) as (F1 & F2 & _).
  assert (2 ^ w <= 2 ^ 52) by (apply Z.pow_le_mono_r; lia).
  assert (Hpp : entry_paddr e = p / 4096).
  { unfold e. rewrite E1. unfold entry_paddr. rewrite Z.shiftr_lor, Z.land_lor_distr_l. fold (entry_paddr p). rewrite E4.
    assert (Hz : Z.land (Z.shiftr (arch_decode_flags k flags) 12) (Z.ones 40) = 0).
    { assert (Hs : Z.shiftl (Z.land (Z.shiftr (arch_decode_flags k flags) 12) (Z.ones 40)) 12 = 0).
      { rewrite <- F2. rewrite Z.shiftl_land. unfold frame_mask. apply Z.bits_inj'. intros n Hn. rewrite !Z.land_spec.
        destruct (Z.ltb_spec n 12) as [Hl|Hl]; [rewrite !(Z.shiftl_spec_low _ _ _ Hl); by rewrite !andb_false_r|].
        rewrite !Z.shiftl_spec, Z.shiftr_spec by lia. by replace (n - 12 + 12) with n by lia. }
      rewrite Z.shiftl_mul_pow2 in Hs by lia. lia. }
    by rewrite Hz, Z.lor_0_r. }
  split; [|split; [|split; [done|split]]].
  - unfold e. rewrite E1. apply Z.mod_small. split; [apply Z.lor_nonneg; lia|].
    destruct (Z.eq_dec (Z.lor p (arch_decode_flags k flags)) 0) as [->|Hne]; [lia|].
    apply Z.log2_lt_cancel. rewrite Z.log2_lor by lia. change (Z.log2 (2 ^ 64)) with 64.
    apply Z.max_lub_lt; (destruct (Z.eq_dec p 0) as [->|]); try (destruct (Z.eq_dec (arch_decode_flags k flags) 0) as [->|]);
      try (by rewrite Z.log2_nonpos by lia); apply Z.log2_lt_pow2; lia.
  - unfold entry_addr. rewrite Hpp. rewrite Z.shiftl_mul_pow2 by lia. change (2 ^ 12) with 4096. rewrite u64_small by dlia. dlia.
  - unfold e. rewrite E1. by apply encode_frame.
  - unfold e. by rewrite E1, E2.
Qed.

(** ** The tree of tables *)

Definition idx (k : nat) (v : Z) : Z :=
  match k with O => L0_INDEX v | 1%nat => L1_INDEX v | 2%nat => L2_INDEX v | _ => L3_INDEX v end.
(** the indices of [v] down to level [k], as one number *)
Fixpoint pre (k : nat) (v : Z) : Z := match k with O => 0 | S k' => pre k' v * 512 + idx k' v end.

Definition entry_at (m : mem) (t : Z) (k : nat) (v : Z) : Z := load64 m (t + 8 * idx k v).
Definition flags_of (k : nat) (e : Z) : Z := arch_encode_flags (Z.of_nat k) e.
Definition is_valid (k : nat) (e : Z) : bool := test (flags_of k e) PAGE_ENTRY_VALID.
Definition is_leaf (k : nat) (e : Z) : bool := is_final_level_pt (Z.of_nat k) (flags_of k e).

(** the table that translates [v] at level [k] *)
Fixpoint tab (m : mem) (root v : Z) (k : nat) : option Z :=
  match k with
  | O => Some root
  | S k' =>
    match tab m root v k' with
    | None => None
    | Some t => let e := entry_at m t k' v in if is_valid k' e && negb (is_leaf k' e) then Some (entry_addr e) else None
    end
  end.
Definition leaf (m : mem) (root v : Z) (k : nat) : option (Z * Z) :=
  match tab m root v k with
  | None => None
  | Some t => let e := entry_at m t k v in if is_valid k e && is_leaf k e then Some (entry_paddr e, flags_of k e) else None
  end.
(** what the page tables say about [v]: level, frame, flags *)
Definition translate (m : mem) (root v : Z) : option (Z * Z * Z) :=
  match leaf m root v 2 with
  | Some (p, f) => Some (2, p, f)
  | None => match leaf m root v 3 with Some (p, f) => Some (3, p, f) | None => None end
  end.

(** an entry that is not valid is not marked as a leaf either *)
Definition clean (k : nat) (e : Z) : bool := is_valid k e || negb (test (flags_of k e) PAGE_ENTRY_HUGE).

(** tables are not shared, there are no 1 GB pages, empty entries are clean *)
Record pt_tree (m : mem) (root : Z) : Prop := {
  pt_bytes : byte_mem m;
  pt_root : 0 < root < 2 ^ 52 /\ root mod 4096 = 0;
  pt_inj : forall j k v v' t, (j <= 3)%nat -> (k <= 3)%nat -> tab m root v j = Some t -> tab m root v' k = Some t ->
    j = k /\ pre j v = pre j v';
  pt_no_1g : forall v, leaf m root v 1 = None;
  pt_clean : forall v t, tab m root v 2 = Some t -> clean 2 (entry_at m t 2 v) = true
}.

Lemma idx_range k v : 0 <= idx k v < 512.
Proof.
  assert (H : forall x, 0 <= Z.land x mask_9_bit < 512) by (intros x; rewrite land_mask_9_bit; apply Z.mod_pos_bound; lia).
  destruct k as [|[|[|k]]]; apply H.
Qed.
Lemma pre_S k v v' : pre (S k) v = pre (S k) v' <-> pre k v = pre k v' /\ idx k v = idx k v'.
Proof. cbn [pre]. pose proof (idx_range k v). pose proof (idx_range k v'). lia. Qed.
Lemma pre_le j k v v' : (j <= k)%nat -> pre k v = pre k v' -> pre j v = pre j v'.
Proof. intros Hle. induction Hle as [|k Hle IH]; [done|]. intros [H _]%pre_S. by apply IH. Qed.

(** the indices down to level [k] are the top bits of the address *)
Lemma pre_div k v : (k <= 3)%nat -> 0 <= v < 2 ^ 64 -> pre (S k) v = (v / 2 ^ (39 - 9 * Z.of_nat k)) mod 2 ^ (9 * (Z.of_nat k + 1)).
Proof.
  intros Hk Hv. assert (Hi : forall j, (j <= 3)%nat -> idx j v = (v / 2 ^ (39 - 9 * Z.of_nat j)) mod 512).
  { intros j Hj. assert (Hc : j = 0%nat \/ j = 1%nat \/ j = 2%nat \/ j = 3%nat) by lia.
    destruct Hc as [-> | [-> | [-> | ->]]]; cbn [idx]; unfold L0_INDEX, L1_INDEX, L2_INDEX, L3_INDEX;
      rewrite land_mask_9_bit, u64_small, Z.shiftr_div_pow2 by lia; reflexivity. }
  induction k as [|k IH]; [cbn [pre]; rewrite (Hi 0%nat) by lia; done|].
  change (pre (S (S k)) v) with (pre (S k) v * 512 + idx (S k) v). rewrite IH, Hi by lia.
  set (d := 39 - 9 * Z.of_nat (S k)). replace (39 - 9 * Z.of_nat k) with (d + 9) by lia.
  rewrite Z.pow_add_r, <- Z.div_div by lia. set (x := v / 2 ^ d).
  replace (9 * (Z.of_nat (S k) + 1)) with (9 + 9 * (Z.of_nat k + 1)) by lia. rewrite (Z.pow_add_r 2 9) by lia.
  change (2 ^ 9) with 512. rewrite Z.rem_mul_r by lia. lia.
Qed.

Lemma entry_addr_page e : entry_addr e mod 4096 = 0 /\ 0 <= entry_addr e < 2 ^ 52.
Proof.
  unfold entry_addr, entry_paddr. rewrite Z.land_ones by lia. rewrite Z.shiftl_mul_pow2 by lia.
  pose proof (Z.mod_pos_bound (Z.shiftr e 12) (2 ^ 40) ltac:(lia)) as H.
  rewrite u64_small by lia. split; [|lia]. change (2 ^ 12) with 4096. apply Z.mod_mul. lia.
Qed.

Lemma is_valid_0 k : is_valid k 0 = false.
Proof.
  unfold is_valid, flags_of, arch_encode_flags.
  destruct ((Z.of_nat k =? 1) || (Z.of_nat k =? 2)), (Z.of_nat k =? 3); reflexivity.
Qed.

Section Tree.
Context (root : Z).
Implicit Types (m : mem) (v t : Z) (j k : nat).

Lemma tab_S m v k : tab m root v (S k) =
  match tab m root v k with
  | None => None
  | Some t => let e := entry_at m t k v in if is_valid k e && negb (is_leaf k e) then Some (entry_addr e) else None
  end.
Proof. done. Qed.

Lemma tab_page m v k t : 0 < root < 2 ^ 52 /\ root mod 4096 = 0 -> tab m root v k = Some t -> t mod 4096 = 0 /\ 0 <= t < 2 ^ 52.
Proof.
  intros Hr. destruct k as [|k]; [intros [= <-]; lia|]. rewrite tab_S. destruct (tab m root v k); [|done].
  cbv zeta. destruct (_ && _); [|done]. intros [= <-]. apply entry_addr_page.
Qed.

Lemma tab_lower m v j k t : (j <= k)%nat -> tab m root v k = Some t -> exists t', tab m root v j = Some t'.
Proof.
  intros Hle. revert t. induction Hle as [|k Hle IH]; intros t Ht; [by exists t|]. rewrite tab_S in Ht.
  destruct (tab m root v k) as [t'|]; [|done]. by apply (IH t').
Qed.
Lemma tab_none m v j k : (j <= k)%nat -> tab m root v j = None -> tab m root v k = None.
Proof. intros Hle Hj. destruct (tab m root v k) as [t|] eqn:E; [|done]. destruct (tab_lower _ _ _ _ _ Hle E) as (t' & H). by rewrite Hj in H. Qed.

(** the walk depends on the indices only *)
Lemma tab_pre m v v' k : pre k v = pre k v' -> tab m root v k = tab m root v' k.
Proof.
  induction k as [|k IH]; [done|]. intros [H1 H2]%pre_S. rewrite !tab_S, (IH H1). unfold entry_at. by rewrite H2.
Qed.
Lemma leaf_pre m v v' k : pre (S k) v = pre (S k) v' -> leaf m root v k = leaf m root v' k.
Proof. intros [H1 H2]%pre_S. unfold leaf, entry_at. by rewrite (tab_pre m v v' k H1), H2. Qed.

(** it reads the entries on its path only *)
Lemma tab_same m m' v k :
  (forall j t, (j < k)%nat -> tab m root v j = Some t -> entry_at m' t j v = entry_at m t j v) -> tab m' root v k = tab m root v k.
Proof.
  induction k as [|k IH]; intros H; [done|]. rewrite !tab_S, IH by (intros j t Hj; apply H; lia).
  destruct (tab m root v k) as [t|] eqn:E; [|done]. by rewrite (H k t ltac:(lia) E).
Qed.
Lemma leaf_same m m' v k :
  (forall j t, (j <= k)%nat -> tab m root v j = Some t -> entry_at m' t j v = entry_at m t j v) -> leaf m' root v k = leaf m root v k.
Proof.
  intros H. unfold leaf. rewrite (tab_same m m' v k) by (intros j t Hj; apply H; lia).
  destruct (tab m root v k) as [t|] eqn:E; [|done]. by rewrite (H k t ltac:(lia) E).
Qed.

(** a leaf stops the walk *)
Lemma leaf_tab m v k p : leaf m root v k = Some p -> tab m root v (S k) = None.
Proof.
  unfold leaf. rewrite tab_S. destruct (tab m root v k) as [t|]; [|done]. cbv zeta.
  destruct (is_valid _ _), (is_leaf _ _); done.
Qed.

(** *** A store into one entry *)

Lemma store_elsewhere m v v' k j t t' e : pt_tree m root -> (k <= 3)%nat -> (j <= 3)%nat ->
  tab m root v k = Some t -> tab m root v' j = Some t' -> (j = k -> pre (S j) v' <> pre (S j) v) ->
  entry_at (store64 m (t + 8 * idx k v) e) t' j v' = entry_at m t' j v'.
Proof.
  intros T Hk Hj Ht Ht' Hne. unfold entry_at. apply load64_store64_ne.
  destruct (tab_page _ _ _ _ (pt_root _ _ T) Ht) as [A1 A2], (tab_page _ _ _ _ (pt_root _ _ T) Ht') as [B1 B2].
  pose proof (idx_range k v). pose proof (idx_range j v').
  destruct (Z.eq_dec t t') as [->|Hd]; [|dlia].
  destruct (pt_inj _ _ T k j v v' t' Hk Hj Ht Ht') as [-> Hp].
  assert (Hi : idx j v' <> idx j v) by (intros Hi; apply (Hne eq_refl), pre_S; done). lia.
Qed.

Lemma store_here m v k t e : entry_at (store64 m (t + 8 * idx k v) e) t k v = u64 e.
Proof. apply load64_store64_eq. Qed.

Context (m : mem) (v t : Z) (k : nat) (e : Z).
Context (T : pt_tree m root) (Hk : (k <= 3)%nat) (Ht : tab m root v k = Some t) (He : u64 e = e).
Let m' : mem := store64 m (t + 8 * idx k v) e.

Lemma store_tab_upto v' j : (j <= k)%nat -> tab m' root v' j = tab m root v' j.
Proof. intros Hj. apply tab_same. intros i t' Hi Ht'. unfold m'. eapply store_elsewhere; try done; lia. Qed.
Lemma store_tab_other v' j : (j <= 4)%nat -> pre (S k) v' <> pre (S k) v -> tab m' root v' j = tab m root v' j.
Proof.
  intros Hj Hne. apply tab_same. intros i t' Hi Ht'. unfold m'. eapply store_elsewhere; try done; [lia|]. by intros ->.
Qed.
Lemma store_leaf_below v' j : (j < k)%nat -> leaf m' root v' j = leaf m root v' j.
Proof. intros Hj. apply leaf_same. intros i t' Hi Ht'. unfold m'. eapply store_elsewhere; try done; lia. Qed.
Lemma store_leaf_other v' j : (j <= 3)%nat -> pre (S k) v' <> pre (S k) v -> leaf m' root v' j = leaf m root v' j.
Proof.
  intros Hj Hne. apply leaf_same. intros i t' Hi Ht'. unfold m'. eapply store_elsewhere; try done; [lia|]. by intros ->.
Qed.
Lemma store_tab_next v' : pre (S k) v' = pre (S k) v ->
  tab m' root v' (S k) = if is_valid k e && negb (is_leaf k e) then Some (entry_addr e) else None.
Proof.
  intros Hp. rewrite (tab_pre m' v' v (S k) Hp). rewrite tab_S, store_tab_upto, Ht by lia. unfold m'. by rewrite store_here, He.
Qed.
Lemma store_leaf_here v' : pre (S k) v' = pre (S k) v ->
  leaf m' root v' k = if is_valid k e && is_leaf k e then Some (entry_paddr e, flags_of k e) else None.
Proof.
  intros Hp. rewrite (leaf_pre m' v' v k Hp). unfold leaf. rewrite store_tab_upto, Ht by lia. unfold m'. by rewrite store_here, He.
Qed.
End Tree.

Section Write.
Context (root : Z).
Implicit Types (m : mem) (v t : Z) (j k : nat).

(** *** Writing a leaf, or clearing an entry *)
Lemma write_leaf m v t k e (m' := store64 m (t + 8 * idx k v) e) :
  pt_tree m root -> (2 <= k <= 3)%nat -> tab m root v k = Some t -> u64 e = e -> (is_valid k e = true -> is_leaf k e = true) -> clean k e = true ->
  pt_tree m' root /\
  (forall j v' t', (j <= 3)%nat -> tab m' root v' j = Some t' -> tab m root v' j = Some t' /\ ((k < j)%nat -> pre (S k) v' <> pre (S k) v)) /\
  forall v', translate m' root v' =
    if decide (pre (S k) v' = pre (S k) v) then (if is_valid k e then Some (Z.of_nat k, entry_paddr e, flags_of k e) else None)
    else translate m root v'.
Proof.
  intros T Hk Ht He Hl Hcl. assert (Hk3 : (k <= 3)%nat) by lia.
  assert (Hnext : forall v', pre (S k) v' = pre (S k) v -> tab m' root v' (S k) = None).
  { intros v' Hp. unfold m'. rewrite (store_tab_next root m v t k e T Hk3 Ht He v' Hp). destruct (is_valid k e); [by rewrite Hl|done]. }
  assert (Hsub : forall j v' t', (j <= 3)%nat -> tab m' root v' j = Some t' -> tab m root v' j = Some t' /\ ((k < j)%nat -> pre (S k) v' <> pre (S k) v)).
  { intros j v' t' Hj H. assert (Hne : (k < j)%nat -> pre (S k) v' <> pre (S k) v).
    { intros Hkj Hp. rewrite (tab_none root m' v' (S k) j) in H; [done|lia|by apply Hnext]. }
    split; [|done]. destruct (Nat.le_gt_cases j k) as [Hjk|Hjk].
    - by rewrite <- (store_tab_upto root m v t k e T Hk3 Ht v' j Hjk).
    - rewrite <- (store_tab_other root m v t k e T Hk3 Ht v' j); [done|lia|by apply Hne]. }
  split; [|split; [exact Hsub|]].
  - constructor; [by apply store64_byte_mem, T|apply T| | |].
    + intros i j v1 v2 t' Hi Hj H1 H2. apply (pt_inj _ _ T i j v1 v2 t' Hi Hj); by apply Hsub.
    + intros v'. unfold m'. rewrite (store_leaf_below root m v t k e T Hk3 Ht v' 1); [apply T|lia].
    + intros v' t' H. destruct (Hsub 2%nat v' t' ltac:(lia) H) as [H2 _].
      destruct (decide (k = 2%nat /\ pre (S k) v' = pre (S k) v)) as [[-> Hp]|Hn].
      * apply pre_S in Hp as [Hp1 Hp2]. rewrite (tab_pre root m v' v 2 Hp1), Ht in H2. simplify_eq.
        unfold entry_at. rewrite Hp2. unfold m'. by rewrite load64_store64_eq, He.
      * unfold m'. rewrite (store_elsewhere root m v v' k 2 t t' e T Hk3 ltac:(lia) Ht H2); [by apply (pt_clean _ _ T)|]. intros E Hp. apply Hn. by subst k.
  - intros v'. unfold translate. destruct (decide _) as [Hp|Hp].
    + pose proof (store_leaf_here root m v t k e T Hk3 Ht He v' Hp) as Hh. fold m' in Hh.
      assert (Hv : is_valid k e && is_leaf k e = is_valid k e) by (destruct (is_valid k e); [by rewrite Hl|done]). rewrite Hv in Hh.
      assert (Hc : k = 2%nat \/ k = 3%nat) by lia. destruct Hc as [-> | ->].
      * rewrite Hh. destruct (is_valid 2 e); [done|]. unfold leaf. by rewrite (Hnext v' Hp).
      * rewrite Hh. assert (H2 : leaf m' root v' 2 = None).
        { destruct (leaf m' root v' 2) as [x|] eqn:E; [|done]. apply leaf_tab in E.
          unfold m' in E. rewrite (store_tab_upto root m v t 3 e T Hk3 Ht v' 3), (tab_pre root m v' v 3), Ht in E; [done|exact (proj1 (proj1 (pre_S 3 v' v) Hp))|lia]. }
        rewrite H2. by destruct (is_valid 3 e).
    + unfold m'. by rewrite !(store_leaf_other root m v t k e T Hk3 Ht) by (lia || done).
Qed.

(** *** Hanging a new, empty table below an entry *)
Lemma write_table m v t k e f (m' := store64 m (t + 8 * idx k v) e) m'' :
  pt_tree m root -> (k <= 2)%nat -> tab m root v k = Some t -> u64 e = e ->
  is_valid k (entry_at m t k v) = false ->
  is_valid k e = true -> is_leaf k e = false -> entry_addr e = f ->
  (forall j v' , (j <= 3)%nat -> tab m root v' j <> Some f) ->
  (forall x, m'' x = if (f <=? x) && (x <? f + 4096) then 0 else m' x) ->
  pt_tree m'' root /\ tab m'' root v (S k) = Some f /\ (forall i, 0 <= i < 512 -> load64 m'' (f + 8 * i) = 0) /\
  (forall j v' t', (j <= 3)%nat -> tab m root v' j = Some t' -> tab m'' root v' j = Some t') /\
  (forall j v' t', (j <= 3)%nat -> tab m'' root v' j = Some t' ->
     tab m root v' j = Some t' \/ (j = S k /\ pre (S k) v' = pre (S k) v /\ t' = f)) /\
  (forall v', translate m'' root v' = translate m root v').
Proof.
  intros T Hk Ht He Hinv Hv Hl Hf Hfresh Hm''. assert (Hk3 : (k <= 3)%nat) by lia.
  assert (Hfp : f mod 4096 = 0 /\ 0 <= f < 2 ^ 52) by (rewrite <- Hf; apply entry_addr_page).
  assert (Hz : forall i, 0 <= i < 512 -> load64 m'' (f + 8 * i) = 0).
  { intros i Hi. apply load64_zero. intros x Hx. rewrite Hm''. repeat case_bool. }
  assert (Hsame : forall j v' t', t' mod 4096 = 0 -> t' <> f -> entry_at m'' t' j v' = entry_at m' t' j v').
  { intros j v' t' Hp Hne. apply load64_ext. intros x Hx. rewrite Hm''. pose proof (idx_range j v'). destruct (f <=? x) eqn:E1, (x <? f + 4096) eqn:E2; cbn [andb]; try done. bool_hyps. exfalso. dlia. }
  assert (Hold : forall v', pre (S k) v' = pre (S k) v -> tab m root v' (S k) = None /\ leaf m root v' k = None).
  { intros v' Hp. rewrite (tab_pre root m v' v (S k) Hp), (leaf_pre root m v' v k Hp), tab_S. unfold leaf. by rewrite Ht, Hinv. }
  assert (Hnot : forall j v' t', (j <= 3)%nat -> tab m root v' j = Some t' -> t' <> f /\ t' mod 4096 = 0).
  { intros j v' t' Hj H. split; [intros ->; by apply (Hfresh j v')|]. by eapply tab_page in H as [? _]; [|apply T]. }
  assert (Hup : forall v' j, (j <= k)%nat -> tab m'' root v' j = tab m root v' j).
  { intros v' j Hj. rewrite <- (store_tab_upto root m v t k e T Hk3 Ht v' j Hj). apply tab_same.
    intros i t' Hi H. rewrite (store_tab_upto root m v t k e T Hk3 Ht v' i ltac:(lia)) in H. apply Hsame; by destruct (Hnot i v' t' ltac:(lia) H). }
  assert (Hoth : forall v' j, (j <= 4)%nat -> pre (S k) v' <> pre (S k) v -> tab m'' root v' j = tab m root v' j).
  { intros v' j Hj Hp. rewrite <- (store_tab_other root m v t k e T Hk3 Ht v' j Hj Hp). apply tab_same.
    intros i t' Hi H. rewrite (store_tab_other root m v t k e T Hk3 Ht v' i ltac:(lia) Hp) in H. apply Hsame; by destruct (Hnot i v' t' ltac:(lia) H). }
  assert (Hnew : forall v', pre (S k) v' = pre (S k) v -> tab m'' root v' (S k) = Some f).
  { intros v' Hp. rewrite (tab_pre root m'' v' v (S k) Hp), tab_S, Hup, Ht by lia.
    destruct (Hnot k v t ltac:(lia) Ht) as [Hn1 Hn2]. rewrite Hsame by done. unfold m'. rewrite store_here, He. by rewrite Hv, Hl, Hf. }
  assert (Hdead : forall v' j, (S (S k) <= j)%nat -> pre (S k) v' = pre (S k) v -> tab m'' root v' j = None).
  { intros v' j Hj Hp. apply (tab_none root m'' v' (S (S k)) j Hj). rewrite tab_S, Hnew by done. unfold entry_at. rewrite Hz by apply idx_range.
    rewrite is_valid_0. done. }
  assert (Hcase : forall j v' t', (j <= 3)%nat -> tab m'' root v' j = Some t' ->
     tab m root v' j = Some t' \/ (j = S k /\ pre (S k) v' = pre (S k) v /\ t' = f)).
  { intros j v' t' Hj H. destruct (decide (pre (S k) v' = pre (S k) v)) as [Hp|Hp]; [|left; by rewrite <- (Hoth v' j ltac:(lia) Hp)].
    destruct (Nat.lt_trichotomy j (S k)) as [Hlt|[->|Hgt]].
    - left. by rewrite <- (Hup v' j ltac:(lia)).
    - right. rewrite Hnew in H by done. by simplify_eq.
    - by rewrite (Hdead v' j ltac:(lia) Hp) in H. }
  assert (Hleaf : forall v' j, (j <= 3)%nat -> leaf m'' root v' j = leaf m root v' j).
  { intros v' j Hj. destruct (decide (pre (S k) v' = pre (S k) v)) as [Hp|Hp].
    - destruct (Hold v' Hp) as [Ho1 Ho2]. destruct (Nat.lt_trichotomy j k) as [Hlt|[->|Hgt]].
      + rewrite <- (store_leaf_below root m v t k e T Hk3 Ht v' j Hlt). apply leaf_same.
        intros i t' Hi H. rewrite (store_tab_upto root m v t k e T Hk3 Ht v' i ltac:(lia)) in H. apply Hsame; by destruct (Hnot i v' t' ltac:(lia) H).
      + rewrite Ho2. destruct (leaf m'' root v' k) as [x|] eqn:E; [|done]. apply leaf_tab in E. by rewrite Hnew in E.
      + assert (Ho3 : leaf m root v' j = None) by (unfold leaf; by rewrite (tab_none root m v' (S k) j ltac:(lia) Ho1)).
        rewrite Ho3. destruct (leaf m'' root v' j) as [x|] eqn:E; [|done]. unfold leaf in E.
        destruct (Nat.eq_dec j (S k)) as [->|Hne].
        * rewrite Hnew in E by done. unfold entry_at in E. rewrite Hz in E by apply idx_range. by rewrite is_valid_0 in E.
        * by rewrite (Hdead v' j ltac:(lia) Hp) in E.
    - rewrite <- (store_leaf_other root m v t k e T Hk3 Ht v' j Hj Hp). apply leaf_same.
      intros i t' Hi H. rewrite (store_tab_other root m v t k e T Hk3 Ht v' i ltac:(lia) Hp) in H. apply Hsame; by destruct (Hnot i v' t' ltac:(lia) H). }
  split; [|split; [by apply Hnew|split; [done|split; [|split; [exact Hcase|]]]]].
  - constructor; [|apply T| | |].
    + intros x. rewrite Hm''. destruct (_ && _); [lia|]. by apply store64_byte_mem, T.
    + intros i j v1 v2 t' Hi Hj H1 H2. destruct (Hcase i v1 t' Hi H1) as [G1|(E1 & P1 & E2)], (Hcase j v2 t' Hj H2) as [G2|(E3 & P2 & E4)].
      * by apply (pt_inj _ _ T i j v1 v2 t').
      * rewrite E4 in G1. by destruct (Hfresh i v1 Hi).
      * rewrite E2 in G2. by destruct (Hfresh j v2 Hj).
      * rewrite E1, E3. split; [done|]. by rewrite P1, P2.
    + intros v'. rewrite Hleaf by lia. apply T.
    + intros v' t' H. destruct (Hcase 2%nat v' t' ltac:(lia) H) as [G|(E & Hp & ->)].
      * destruct (Hnot 2%nat v' t' ltac:(lia) G) as [Hn1 Hn2]. rewrite Hsame by done.
        destruct (decide (k = 2%nat /\ pre (S k) v' = pre (S k) v)) as [[-> Hp]|Hn].
        -- apply pre_S in Hp as [Hp1 Hp2]. rewrite (tab_pre root m v' v 2 Hp1), Ht in G. simplify_eq.
           unfold entry_at. rewrite Hp2. unfold m'. rewrite load64_store64_eq, He. unfold clean. by rewrite Hv.
        -- unfold m'. rewrite (store_elsewhere root m v v' k 2 t t' e T Hk3 ltac:(lia) Ht G); [by apply (pt_clean _ _ T)|]. intros E Hp. apply Hn. by subst k.
      * unfold entry_at. rewrite Hz by apply idx_range. reflexivity.
  - intros j v' t' Hj H. destruct (decide (pre (S k) v' = pre (S k) v)) as [Hp|Hp]; [|by rewrite (Hoth v' j ltac:(lia) Hp)].
    destruct (Nat.le_gt_cases j k) as [Hle|Hgt]; [by rewrite Hup|].
    rewrite (tab_none root m v' (S k) j) in H; [done|lia|by apply Hold].
  - intros v'. unfold translate. by rewrite !Hleaf by lia.
Qed.
End Write.
