(* ===== verification/MapHandler.v ===== *)
(** * Page-table walks

    [kernel/mm/map_handler.c]: mapping, unmapping and looking up pages through
    the per-CPU window of four page slots, copies between physical pages, new
    table roots and their teardown.  [phys] is physical memory, [wtab] the last
    table of the window ([MAP_L3_table]); a slot reaches the frame its entry of
    [wtab] names.  Frames come from an allocator behind [FrameOps].  TLB
    invalidations are logged in order. *)
From S2P Require Import Prelude Mm CString PageTable KernelPages.

Definition map_pages_base : Z := 0xFFFFFFFFFFE00000.

Record map_handler := mk_handler {
  cpu_id : Z;
  map_vaddr : list Z;
  ppn_cache : list Z;
  mapped_ppn : list Z;
  h_pmm : bool
}.

(** the fields of an address space these functions read *)
Record VSpace := mk_vspace {
  vs_asid : Z;
  vs_has_pmm : bool;
  vs_has_radix : bool;
  vs_is_root : bool;
  vspace_root_addr : Z
}.

Inductive tlb_op :=
| TlbKernelPage (v : Z)
| TlbKernelPageAll (v : Z)
| TlbPage (asid v : Z)
| TlbPageAll (asid v : Z)
| TlbVSpaceAll (asid : Z).

(** calls on [struct pmm] *)
Class FrameOps (P : Type) := {
  fr_alloc : P -> Z -> Z * Z * P;        (* pmm_alloc: ppn, pages allocated *)
  fr_free : P -> Z -> Z -> Z * P;        (* pmm_free *)
  fr_ref : P -> Z -> Z -> bool -> Z * P  (* pmm_change_pages_ref *)
}.

(** [vlock]: the lock of the address space at hand *)
Record mapst (P : Type) := mk_mst {
  hd : map_handler;
  phys : mem;
  wtab : mem;
  frs : P;
  tlb : list tlb_op;
  vlock : bool
}.
Arguments mk_mst {P}.
Arguments hd {P}.
Arguments phys {P}.
Arguments wtab {P}.
Arguments frs {P}.
Arguments tlb {P}.
Arguments vlock {P}.

Section Map.
Context {P : Type} `{HF : FrameOps P}.
Context (max_phy_addr_width : Z) (L0_table : Z).
Implicit Types (st : mapst P) (vs : VSpace).

Definition set_hd (h : map_handler) st : mapst P := mk_mst h (phys st) (wtab st) (frs st) (tlb st) (vlock st).
Definition set_phys (m : mem) st : mapst P := mk_mst (hd st) m (wtab st) (frs st) (tlb st) (vlock st).
Definition set_wtab (m : mem) st : mapst P := mk_mst (hd st) (phys st) m (frs st) (tlb st) (vlock st).
Definition set_frs (p : P) st : mapst P := mk_mst (hd st) (phys st) (wtab st) p (tlb st) (vlock st).
Definition flush (op : tlb_op) st : mapst P := mk_mst (hd st) (phys st) (wtab st) (frs st) (tlb st ++ [op]) (vlock st).
Definition set_vlock (b : bool) st : mapst P := mk_mst (hd st) (phys st) (wtab st) (frs st) (tlb st) b.

Definition set_cache (i : nat) (ppn : Z) st : mapst P :=
  let h := hd st in set_hd (mk_handler (cpu_id h) (map_vaddr h) (<[i := ppn]> (ppn_cache h)) (mapped_ppn h) (h_pmm h)) st.
Definition set_mapped (i : nat) (ppn : Z) st : mapst P :=
  let h := hd st in set_hd (mk_handler (cpu_id h) (map_vaddr h) (ppn_cache h) (<[i := ppn]> (mapped_ppn h)) (h_pmm h)) st.
Definition set_vaddr (i : nat) (v : Z) st : mapst P :=
  let h := hd st in set_hd (mk_handler (cpu_id h) (<[i := v]> (map_vaddr h)) (ppn_cache h) (mapped_ppn h) (h_pmm h)) st.
Definition cache_at st (i : nat) : Z := ppn_cache (hd st) !!! i.
Definition vaddr_at st (i : nat) : Z := map_vaddr (hd st) !!! i.

(** the physical page behind slot [i], through the window's table *)
Definition slot_addr st (i : nat) : Z := entry_addr (load64 (wtab st) (8 * L3_INDEX (vaddr_at st i))).
(** entry [idx] of the table in slot [i] *)
Definition slot_entry st (i : nat) (idx : Z) : Z := load64 (phys st) (slot_addr st i + 8 * idx).

(** ** The window *)

Definition window_flags : Z := Z.lor PAGE_ENTRY_GLOBAL (Z.lor PAGE_ENTRY_READ (Z.lor PAGE_ENTRY_VALID PAGE_ENTRY_WRITE)).

Definition util_map (p : Z) (slot_id : nat) st : mapst P :=
  if i64 (PPN p) =? mapped_ppn (hd st) !!! slot_id then st
  else
    let flags := arch_decode_flags 3 window_flags in
    let st := set_wtab (arch_set_L3_entry max_phy_addr_width (wtab st) p (vaddr_at st slot_id) 0 flags) st in
    set_mapped slot_id (i64 (PPN p)) (flush (TlbKernelPage (vaddr_at st slot_id)) st).

(** 0, or the address of the slot *)
Definition map_handler_map_slot (slot_id ppn : Z) st : Z * mapst P :=
  if (slot_id <? 0) || (4 <=? slot_id) then (0, st)
  else if negb (Z.land (PADDR ppn) (PAGE_SIZE - 1) =? 0) then (0, st)
  else
    let v := vaddr_at st (Z.to_nat slot_id) in
    if v =? 0 then (0, st) else (v, util_map (PADDR ppn) (Z.to_nat slot_id) st).

Definition map_handler_unmap_slot (slot_id : Z) st : mapst P :=
  if (slot_id <? 0) || (4 <=? slot_id) then st
  else
    let v := vaddr_at st (Z.to_nat slot_id) in
    if v =? 0 then st
    else
      let st := set_wtab (arch_set_L3_entry max_phy_addr_width (wtab st) 0 v 0 PAGE_ENTRY_NONE) st in
      set_mapped (Z.to_nat slot_id) (- E_REND_NOFOUND) (flush (TlbKernelPage v) st).

Definition map_handler_zero_page (ppn : Z) st : Z * mapst P :=
  if invalid_ppn ppn then (- E_IN_PARAM, st)
  else if negb (Z.land (PADDR ppn) (PAGE_SIZE - 1) =? 0) then (- E_IN_PARAM, st)
  else
    let '(kva, st) := map_handler_map_slot 0 ppn st in
    if kva =? 0 then (- E_RENDEZVOS, st)
    else
      let st := set_phys (snd (memset (phys st) (slot_addr st 0) 0 PAGE_SIZE)) st in
      (REND_SUCCESS, map_handler_unmap_slot 0 st).

(** one round of the copy loop: the bytes copied, [None] when a slot cannot be used *)
Definition copy_chunk (dst_paddr src_paddr len : Z) : Z :=
  let chunk := PAGE_SIZE - (src_paddr - ROUND_DOWN src_paddr PAGE_SIZE) in
  let dst_room := PAGE_SIZE - (dst_paddr - ROUND_DOWN dst_paddr PAGE_SIZE) in
  let chunk := if dst_room <? chunk then dst_room else chunk in
  if len <? chunk then len else chunk.
Definition unmap_both st : mapst P := map_handler_unmap_slot 0 (map_handler_unmap_slot 2 st).
Definition copy_round (dst_paddr src_paddr chunk : Z) st : bool * mapst P :=
  let src_page := ROUND_DOWN src_paddr PAGE_SIZE in
  let dst_page := ROUND_DOWN dst_paddr PAGE_SIZE in
  let '(dst_kva, st) := map_handler_map_slot 0 (PPN dst_page) st in
  let '(src_kva, st) := map_handler_map_slot 2 (PPN src_page) st in
  if (dst_kva =? 0) || (src_kva =? 0) then (false, unmap_both st)
  else
    let st := set_phys (snd (memcpy (phys st) (slot_addr st 0 + (dst_paddr - dst_page))
                                    (slot_addr st 2 + (src_paddr - src_page)) chunk)) st in
    (true, unmap_both st).
Fixpoint copy_loop (dst_paddr src_paddr len : Z) (fuel : nat) st : option (Z * mapst P) :=
  if len =? 0 then Some (REND_SUCCESS, st)
  else
    match fuel with
    | O => None
    | S fuel' =>
      let chunk := copy_chunk dst_paddr src_paddr len in
      let '(ok, st) := copy_round dst_paddr src_paddr chunk st in
      if negb ok then Some (- E_RENDEZVOS, st)
      else copy_loop (u64 (dst_paddr + chunk)) (u64 (src_paddr + chunk)) (len - chunk) fuel' st
    end.
Definition map_handler_copy_data_range (dst_paddr src_paddr len : Z) (fuel : nat) st : option (Z * mapst P) :=
  if len =? 0 then Some (- E_IN_PARAM, st) else copy_loop dst_paddr src_paddr len fuel st.
Definition map_handler_copy_page (dst_ppn src_ppn : Z) (fuel : nat) st : option (Z * mapst P) :=
  map_handler_copy_data_range (PADDR dst_ppn) (PADDR src_ppn) PAGE_SIZE fuel st.

(** ** Lookup *)

(** from [have_mapped_succ]: the frame is pinned on request *)
Definition have_mapped_succ vs (pin : bool) (ppn flags level : Z) st : Z * Z * Z * mapst P :=
  if pin then
    if negb (vs_has_pmm vs) then (- E_RENDEZVOS, 0, 0, set_vlock false st)
    else
      let '(e, p) := fr_ref (frs st) ppn 1 true in
      let st := set_frs p st in
      if negb (e =? REND_SUCCESS) then (- E_RENDEZVOS, 0, 0, set_vlock false st)
      else (ppn, flags, level, set_vlock false st)
  else (ppn, flags, level, set_vlock false st).

(** the frame or an error, the flags and the level written out *)
Definition have_mapped (vs : option VSpace) (vpn : Z) (pin : bool) st : Z * Z * Z * mapst P :=
  match vs with
  | None => (- E_IN_PARAM, 0, 0, st)
  | Some vs =>
    let v := VADDR vpn in
    let root := vspace_root_addr vs in
    let out ppn st := (ppn, 0, 0, set_vlock false st) in
    if (root =? 0) || (vpn =? 0) then (- E_IN_PARAM, 0, 0, st)
    else if negb (ROUND_DOWN root PAGE_SIZE =? root) then (- E_RENDEZVOS, 0, 0, st)
    else
      let st := util_map root 0 (set_vlock true st) in
      let e0 := slot_entry st 0 (L0_INDEX v) in
      if negb (test (arch_encode_flags 0 e0) PAGE_ENTRY_VALID) then out (- E_REND_NOFOUND) st
      else
        let st := util_map (PADDR (entry_paddr e0)) 1 st in
        let e1 := slot_entry st 1 (L1_INDEX v) in
        let f1 := arch_encode_flags 1 e1 in
        if negb (test f1 PAGE_ENTRY_VALID) then out (- E_REND_NOFOUND) st
        else if is_final_level_pt 1 f1 then out (- E_RENDEZVOS) st
        else
          let st := util_map (PADDR (entry_paddr e1)) 2 st in
          let e2 := slot_entry st 2 (L2_INDEX v) in
          let f2 := arch_encode_flags 2 e2 in
          if negb (test f2 PAGE_ENTRY_VALID) then out (- E_REND_NOFOUND) st
          else if is_final_level_pt 2 f2 then have_mapped_succ vs pin (entry_paddr e2) f2 2 st
          else
            let st := util_map (PADDR (entry_paddr e2)) 3 st in
            let e3 := slot_entry st 3 (L3_INDEX v) in
            let f3 := arch_encode_flags 3 e3 in
            if negb (test f3 PAGE_ENTRY_VALID) then out (- E_REND_NOFOUND) st
            else have_mapped_succ vs pin (entry_paddr e3) f3 3 st
  end.

(** one page of the copy between user memory and a kernel buffer *)
Definition user_copy_round vs (user_va kbuf done chunk : Z) (to_user : bool) (fuel : nat) st : option (Z * mapst P) :=
  let uva := u64 (user_va + done) in
  let page_base := ROUND_DOWN uva PAGE_SIZE in
  let page_off := uva - page_base in
  let '(uppn, flags, level, st) := have_mapped (Some vs) (VPN page_base) true st in
  if invalid_ppn uppn || negb (test flags PAGE_ENTRY_VALID) || negb (level =? 3) then Some (- E_RENDEZVOS, st)
  else
    let user_p := u64 (PADDR uppn + page_off) in
    let kern_p := KERNEL_VIRT_TO_PHY (u64 (kbuf + done)) in
    '(e, st) ← (if to_user then map_handler_copy_data_range user_p kern_p chunk fuel st
                else map_handler_copy_data_range kern_p user_p chunk fuel st);
    Some (e, set_frs (snd (fr_free (frs st) uppn 1)) st).
Fixpoint user_copy_loop vs (user_va kbuf len done : Z) (to_user : bool) (fuel : nat) st : option (Z * mapst P) :=
  if len <=? done then Some (REND_SUCCESS, st)
  else
    match fuel with
    | O => None
    | S fuel' =>
      let uva := u64 (user_va + done) in
      let chunk := PAGE_SIZE - (uva - ROUND_DOWN uva PAGE_SIZE) in
      let chunk := if len - done <? chunk then len - done else chunk in
      '(e, st) ← user_copy_round vs user_va kbuf done chunk to_user fuel' st;
      if negb (e =? REND_SUCCESS) then Some (e, st) else user_copy_loop vs user_va kbuf len (done + chunk) to_user fuel' st
    end.
Definition map_handler_user_kernel_copy (vs : option VSpace) (user_va kbuf len : Z) (to_user : bool) (fuel : nat) st
  : option (Z * mapst P) :=
  if len =? 0 then Some (REND_SUCCESS, st)
  else
    match vs with
    | None => Some (- E_IN_PARAM, st)
    | Some vs =>
      if vs_is_root vs || negb (vs_has_pmm vs) || (vspace_root_addr vs =? 0) || negb (vs_has_radix vs) then Some (- E_IN_PARAM, st)
      else if kbuf =? NULL then Some (- E_IN_PARAM, st)
      else user_copy_loop vs user_va kbuf len 0 to_user fuel st
    end.

(** ** Mapping *)

Definition nonfinal_must_flags : Z :=
  Z.lor PAGE_ENTRY_VALID (Z.lor PAGE_ENTRY_READ (Z.lor PAGE_ENTRY_WRITE (Z.lor PAGE_ENTRY_USER PAGE_ENTRY_EXEC))).

(** refill of slot [i] when it was consumed *)
Definition refill (i : nat) st : mapst P :=
  if cache_at st i =? - E_RENDEZVOS then
    let '(ppn, _, p) := fr_alloc (frs st) 1 in set_cache i ppn (set_frs p st)
  else st.
(** label [map_fail], and [map_unlock] before it *)
Definition map_fail (res : Z) st : Z * mapst P := (res, refill 3 (refill 2 (refill 1 (refill 0 st)))).
Definition map_unlock (res : Z) st : Z * mapst P := map_fail res (set_vlock false st).
Definition map_succ vs (v : Z) (new_map : bool) st : Z * mapst P :=
  let op :=
    if new_map then if KERNEL_VIRT_OFFSET <=? v then TlbKernelPage v else TlbPage (vs_asid vs) v
    else if KERNEL_VIRT_OFFSET <=? v then TlbKernelPageAll v else TlbPageAll (vs_asid vs) v in
  map_unlock REND_SUCCESS (flush op st).

(** the table below the entry [e] of level [k], or a new one from the cache:
    its address, and whether it is new; [None] when the cache is empty *)
Definition next_table (k : nat) (v e : Z) (set_entry : mem -> Z -> Z -> Z -> Z -> mem) st : option (Z * bool * mapst P) :=
  if test (arch_encode_flags (Z.of_nat k) e) PAGE_ENTRY_VALID then Some (entry_addr e, false, st)
  else if invalid_ppn (cache_at st (S k)) then None
  else
    let next_level_paddr := PADDR (cache_at st (S k)) in
    let st := set_cache (S k) (- E_RENDEZVOS) st in
    let flags := arch_decode_flags (Z.of_nat k) nonfinal_must_flags in
    Some (next_level_paddr, true, set_phys (set_entry (phys st) next_level_paddr v (slot_addr st k) flags) st).
(** the slot of level [k] shows the table; a new table is cleared *)
Definition enter_table (k : nat) (next_level_paddr : Z) (new_alloc : bool) st : mapst P :=
  let st := util_map next_level_paddr k st in
  if new_alloc then set_phys (snd (memset (phys st) (slot_addr st k) 0 PAGE_SIZE)) st else st.

(** is any of the [n] entries of the table in slot 3 from [idx] on nonzero *)
Fixpoint filled_entry st (idx : Z) (n : nat) : bool :=
  match n with
  | O => false
  | S n' => if negb (slot_entry st 3 idx =? 0) then true else filled_entry st (idx + 1) n'
  end.

(** [level == 2]: one entry of the table in slot 2 *)
Definition map_level2 vs (ppn vpn eflags : Z) st : Z * mapst P :=
  let p := PADDR ppn in
  let v := VADDR vpn in
  let set_leaf flags st := set_phys (arch_set_L2_entry max_phy_addr_width (phys st) p v (slot_addr st 2) flags) st in
  if negb (ROUND_DOWN v MIDDLE_PAGE_SIZE =? v) || negb (ROUND_DOWN p MIDDLE_PAGE_SIZE =? p) then map_unlock (- E_IN_PARAM) st
  else
    let flags := arch_decode_flags 2 (Z.lor PAGE_ENTRY_HUGE eflags) in
    let e2 := slot_entry st 2 (L2_INDEX v) in
    let entry_flags := arch_encode_flags 2 e2 in
    let next_level_paddr := entry_addr e2 in
    if negb (test entry_flags PAGE_ENTRY_VALID) then
      if test vpn mask_9_bit || test ppn mask_9_bit then map_unlock (- E_RENDEZVOS) st
      else map_succ vs v true (set_leaf flags st)
    else if negb (next_level_paddr =? p) then
      if negb (is_final_level_pt 2 entry_flags) then
        let st := util_map next_level_paddr 3 st in
        if filled_entry st 0 512 then map_unlock (- E_RENDEZVOS) st
        else
          let '(pmm_res, f) := fr_free (frs st) (PPN next_level_paddr) 1 in
          let st := set_frs f st in
          if negb (pmm_res =? 0) then map_unlock (- E_RENDEZVOS) st
          else map_succ vs v false (set_leaf flags st)
      else map_unlock (- E_RENDEZVOS) st
    else map_succ vs v false (set_leaf flags st).

(** [level == 3], from the L3 table in slot 3 on *)
Definition map_leaf3 vs (ppn vpn eflags : Z) (allow_remap : bool) st : Z * mapst P :=
  let p := PADDR ppn in
  let v := VADDR vpn in
  let flags := arch_decode_flags 3 eflags in
  let set_leaf st := set_phys (arch_set_L3_entry max_phy_addr_width (phys st) p v (slot_addr st 3) flags) st in
  let e3 := slot_entry st 3 (L3_INDEX v) in
  if negb (test (arch_encode_flags 3 e3) PAGE_ENTRY_VALID) then map_succ vs v true (set_leaf st)
  else if negb (entry_addr e3 =? p) && negb allow_remap then map_unlock (- E_RENDEZVOS) st
  else map_succ vs v false (set_leaf st).
Definition map_level3 vs (ppn vpn eflags : Z) (allow_remap : bool) st : Z * mapst P :=
  let v := VADDR vpn in
  let e2 := slot_entry st 2 (L2_INDEX v) in
  match next_table 2 v e2 (arch_set_L2_entry max_phy_addr_width) st with
  | None => map_unlock (- E_RENDEZVOS) st
  | Some (next, new_alloc, st) =>
    if test (arch_encode_flags 2 e2) PAGE_ENTRY_HUGE then map_unlock (- E_RENDEZVOS) st
    else map_leaf3 vs ppn vpn eflags allow_remap (enter_table 3 next new_alloc st)
  end.

Definition map (vs : option VSpace) (ppn vpn level eflags : Z) st : Z * mapst P :=
  let v := VADDR vpn in
  let allow_remap := test eflags PAGE_ENTRY_REMAP in
  let eflags := entry_flags_rm_sw_flags eflags in
  match vs with
  | None => (- E_IN_PARAM, st)
  | Some vs =>
    let root := vspace_root_addr vs in
    if negb (h_pmm (hd st)) then (- E_IN_PARAM, st)
    else if negb (level =? 2) && negb (level =? 3) then map_fail (- E_IN_PARAM) st
    else if invalid_ppn ppn || (vpn =? 0) then map_fail (- E_IN_PARAM) st
    else if root =? 0 then map_fail (- E_RENDEZVOS) st
    else if negb (ROUND_DOWN root PAGE_SIZE =? root) then map_fail (- E_RENDEZVOS) st
    else
      let st := set_vlock true (util_map root 0 st) in
      match next_table 0 v (slot_entry st 0 (L0_INDEX v)) (arch_set_L0_entry max_phy_addr_width) st with
      | None => map_unlock (- E_RENDEZVOS) st
      | Some (next, new_alloc, st) =>
        let st := enter_table 1 next new_alloc st in
        match next_table 1 v (slot_entry st 1 (L1_INDEX v)) (arch_set_L1_entry max_phy_addr_width) st with
        | None => map_unlock (- E_RENDEZVOS) st
        | Some (next, new_alloc, st) =>
          let st := enter_table 2 next new_alloc st in
          if level =? 2 then map_level2 vs ppn vpn eflags st else map_level3 vs ppn vpn eflags allow_remap st
        end
      end
  end.

(** ** Unmapping *)

Definition set_slot_entry (i : nat) (idx value : Z) st : mapst P :=
  set_phys (store64 (phys st) (slot_addr st i + 8 * idx) value) st.
(** [.entry = 0; .paddr = new_entry_addr] *)
Definition replace_entry (i : nat) (idx new_entry_addr : Z) st : mapst P :=
  let st := set_slot_entry i idx 0 st in
  set_slot_entry i idx (entry_set_paddr (slot_entry st i idx) new_entry_addr) st.
Definition unmap_succ vs (v ppn : Z) st : Z * mapst P :=
  let op := if KERNEL_VIRT_OFFSET <=? v then TlbKernelPageAll v else TlbPageAll (vs_asid vs) v in
  (ppn, set_vlock false (flush op st)).

Definition unmap (vs : option VSpace) (vpn new_entry_addr : Z) st : Z * mapst P :=
  match vs with
  | None => (- E_IN_PARAM, st)
  | Some vs =>
    let v := VADDR vpn in
    let root := vspace_root_addr vs in
    let st := set_vlock true st in
    let fail ppn st := (ppn, set_vlock false st) in
    if (root =? 0) || (vpn =? 0) then fail (- E_IN_PARAM) st
    else if negb (ROUND_DOWN root PAGE_SIZE =? root) then fail (- E_IN_PARAM) st
    else
      let st := util_map root 0 st in
      let e0 := slot_entry st 0 (L0_INDEX v) in
      if negb (test (arch_encode_flags 0 e0) PAGE_ENTRY_VALID) then fail (- E_RENDEZVOS) st
      else
        let st := util_map (entry_addr e0) 1 st in
        let e1 := slot_entry st 1 (L1_INDEX v) in
        let f1 := arch_encode_flags 1 e1 in
        if negb (test f1 PAGE_ENTRY_VALID) then fail (- E_RENDEZVOS) st
        else if is_final_level_pt 1 f1 then fail (- E_RENDEZVOS) st
        else
          let st := util_map (entry_addr e1) 2 st in
          let e2 := slot_entry st 2 (L2_INDEX v) in
          let f2 := arch_encode_flags 2 e2 in
          if negb (test f2 PAGE_ENTRY_VALID) then fail (- E_RENDEZVOS) st
          else if is_final_level_pt 2 f2 then
            if test vpn mask_9_bit then fail (- E_RENDEZVOS) st
            else unmap_succ vs v (PPN (entry_addr e2)) (replace_entry 2 (L2_INDEX v) new_entry_addr st)
          else
            let st := util_map (entry_addr e2) 3 st in
            let e3 := slot_entry st 3 (L3_INDEX v) in
            let ppn := if test (arch_encode_flags 3 e3) PAGE_ENTRY_VALID then PPN (entry_addr e3) else - E_REND_NOFOUND in
            unmap_succ vs v ppn (replace_entry 3 (L3_INDEX v) new_entry_addr st)
  end.

(** ** Roots of address spaces *)

(** 0 on failure; the upper half is the kernel's, the lower half that of the
    old root or empty *)
Definition new_vs_root (old_vs_root_paddr : Z) st : Z * mapst P :=
  if negb (h_pmm (hd st)) || invalid_ppn (cache_at st 0) then (0, st)
  else
    let vs_root := PADDR (cache_at st 0) in
    let st := util_map vs_root 0 (set_cache 0 (- E_RENDEZVOS) st) in
    let half := PAGE_SIZE / 2 in
    let st := set_phys (snd (memcpy (phys st) (slot_addr st 0 + half) (L0_table + half) half)) st in
    let st :=
      if negb (old_vs_root_paddr =? 0) then
        let st := util_map old_vs_root_paddr 1 st in
        set_phys (snd (memcpy (phys st) (slot_addr st 0) (slot_addr st 1) half)) st
      else set_phys (snd (memset (phys st) (slot_addr st 0) 0 half)) st in
    (vs_root, refill 0 st).

(** does the table in slot 3 hold a valid entry among the [n] from [l3_index] on *)
Fixpoint l3_valid st (l3_index : Z) (n : nat) : bool :=
  match n with
  | O => false
  | S n' =>
    if test (arch_encode_flags 3 (slot_entry st 3 l3_index)) PAGE_ENTRY_VALID then true else l3_valid st (l3_index + 1) n'
  end.

(** the table below the entry is given back and the entry cleared *)
Definition free_child (i : nat) (idx : Z) st : mapst P :=
  let st := set_frs (snd (fr_free (frs st) (entry_paddr (slot_entry st i idx)) 1)) st in
  replace_entry i idx 0 st.

(** the loops over the tables of one level: the flag "root_nonempty" and the one
    of the table being scanned *)
Fixpoint free_l2_entries (l2_index : Z) (n : nat) (root_nonempty l2_nonempty : bool) st : bool * bool * mapst P :=
  match n with
  | O => (root_nonempty, l2_nonempty, st)
  | S n' =>
    let e2 := slot_entry st 2 l2_index in
    let f2 := arch_encode_flags 2 e2 in
    if negb (test f2 PAGE_ENTRY_VALID) then free_l2_entries (l2_index + 1) n' root_nonempty l2_nonempty st
    else if is_final_level_pt 2 f2 then free_l2_entries (l2_index + 1) n' true true st
    else
      let st := util_map (entry_addr e2) 3 st in
      if l3_valid st 0 512 then free_l2_entries (l2_index + 1) n' true true st
      else free_l2_entries (l2_index + 1) n' root_nonempty l2_nonempty (free_child 2 l2_index st)
  end.
Fixpoint free_l1_entries (l1_index : Z) (n : nat) (root_nonempty l1_nonempty : bool) st : bool * bool * mapst P :=
  match n with
  | O => (root_nonempty, l1_nonempty, st)
  | S n' =>
    let e1 := slot_entry st 1 l1_index in
    let f1 := arch_encode_flags 1 e1 in
    if negb (test f1 PAGE_ENTRY_VALID) then free_l1_entries (l1_index + 1) n' root_nonempty l1_nonempty st
    else if is_final_level_pt 1 f1 then free_l1_entries (l1_index + 1) n' true true st
    else
      let st := util_map (entry_addr e1) 2 st in
      let '(root_nonempty, l2_nonempty, st) := free_l2_entries 0 512 root_nonempty false st in
      if negb l2_nonempty then free_l1_entries (l1_index + 1) n' root_nonempty l1_nonempty (free_child 1 l1_index st)
      else free_l1_entries (l1_index + 1) n' root_nonempty true st
  end.
Fixpoint free_l0_entries (l0_index : Z) (n : nat) (root_nonempty : bool) st : bool * mapst P :=
  match n with
  | O => (root_nonempty, st)
  | S n' =>
    let e0 := slot_entry st 0 l0_index in
    if negb (test (arch_encode_flags 0 e0) PAGE_ENTRY_VALID) then free_l0_entries (l0_index + 1) n' root_nonempty st
    else
      let st := util_map (entry_addr e0) 1 st in
      let '(root_nonempty, l1_nonempty, st) := free_l1_entries 0 512 root_nonempty false st in
      let st := if negb l1_nonempty then free_child 0 l0_index st else st in
      free_l0_entries (l0_index + 1) n' root_nonempty st
  end.

Definition vspace_free_user_pt vs st : Z * mapst P :=
  if negb (h_pmm (hd st)) || (vspace_root_addr vs =? 0) then (- E_IN_PARAM, st)
  else
    let st := util_map (vspace_root_addr vs) 0 st in
    let '(root_nonempty, st) := free_l0_entries 0 256 false st in
    ((if root_nonempty : bool then - E_RENDEZVOS else REND_SUCCESS), flush (TlbVSpaceAll (vs_asid vs)) st).

Definition vspace_free_root_page vs st : Z * VSpace * mapst P :=
  if negb (h_pmm (hd st)) || (vspace_root_addr vs =? 0) then (- E_IN_PARAM, vs, st)
  else
    let st := set_frs (snd (fr_free (frs st) (PPN (vspace_root_addr vs)) 1)) st in
    (REND_SUCCESS, mk_vspace (vs_asid vs) (vs_has_pmm vs) (vs_has_radix vs) (vs_is_root vs) 0, st).

(** ** Initialisation *)

Fixpoint init_rollback (j : nat) (n : nat) st : mapst P :=
  match n with
  | O => st
  | S n' =>
    let st := if negb (invalid_ppn (cache_at st j))
              then set_cache j (- E_RENDEZVOS) (set_frs (snd (fr_free (frs st) (cache_at st j) 1)) st) else st in
    init_rollback (S j) n' st
  end.
Fixpoint init_slots (map_vaddr : Z) (i : nat) (n : nat) st : Z * mapst P :=
  match n with
  | O => (REND_SUCCESS, st)
  | S n' =>
    let st := set_vaddr i map_vaddr st in
    let '(ppn, alloced_page_number, p) := fr_alloc (frs st) 1 in
    let st := set_mapped i (- E_REND_NOFOUND) (set_cache i ppn (set_frs p st)) in
    if invalid_ppn (cache_at st i) || negb (alloced_page_number =? 1) then (- E_RENDEZVOS, init_rollback 0 i st)
    else init_slots (u64 (map_vaddr + PAGE_SIZE)) (S i) n' st
  end.
Definition init_map (cpu : Z) st : Z * mapst P :=
  let h := hd st in
  let st := set_hd (mk_handler cpu (map_vaddr h) (ppn_cache h) (mapped_ppn h) true) st in
  init_slots (u64 (map_pages_base + u64 (cpu * PAGE_SIZE * 4))) 0 4 st.

(** the window's own tables and the L1 tables of the kernel half *)
Fixpoint sys_init_l1 (root : Z) (index : Z) (n : nat) (flags : Z) st : Z * mapst P :=
  match n with
  | O => (REND_SUCCESS, st)
  | S n' =>
    if negb (load64 (phys st) (root + 8 * index) =? 0) then sys_init_l1 root (index + 1) n' flags st
    else
      let '(ppn, alloced_page_number, p) := fr_alloc (frs st) 1 in
      let st := set_frs p st in
      if negb (alloced_page_number =? 1) || invalid_ppn ppn then (- E_RENDEZVOS, st)
      else
        let v := u64 (KERNEL_VIRT_OFFSET + u64 ((index - 256) * HUGE_PAGE_SIZE)) in
        sys_init_l1 root (index + 1) n' flags (set_phys (arch_set_L0_entry max_phy_addr_width (phys st) (PADDR ppn) v root flags) st)
  end.
(** [root]: the address in CR3; the window's tables by their virtual addresses *)
Definition sys_init_map (root map_L1_table map_L2_table map_L3_table : Z) st : Z * mapst P :=
  let w := max_phy_addr_width in
  let m := arch_set_L0_entry w (phys st) (KERNEL_VIRT_TO_PHY map_L1_table) map_pages_base root (arch_decode_flags 0 window_flags) in
  let m := arch_set_L1_entry w m (KERNEL_VIRT_TO_PHY map_L2_table) map_pages_base (KERNEL_VIRT_TO_PHY map_L1_table)
             (arch_decode_flags 1 window_flags) in
  let m := arch_set_L2_entry w m (KERNEL_VIRT_TO_PHY map_L3_table) map_pages_base (KERNEL_VIRT_TO_PHY map_L2_table)
             (arch_decode_flags 2 window_flags) in
  sys_init_l1 root 256 256 (arch_decode_flags 0 (Z.lor window_flags PAGE_ENTRY_EXEC)) (set_phys m st).
End Map.
