(* ===== verification/MapInv.v ===== *)
(** * The invariant of mapping

    What [map] of map_handler.c keeps true: the four slots of the window show
    what the handler remembers ([win_ok]); the tables below the root form a tree
    of referenced frames, and the frames in [ppn_cache] are in reserve, referenced
    and not tables ([map_inv]).  The walk of [map] keeps it, level by level, and
    so does each of the ways it writes a leaf.  The allocator is any that
    satisfies [FrameLaws]. *)
From S2P Require Import Prelude Mm CString PageTable PageTree KernelPages MapHandler.

(** references of every frame; a frame handed out had none *)
Class FrameLaws (w : Z) (P : Type) `{FrameOps P} := {
  frefs : P -> Z -> Z;
  frefs_alloc : forall p q n p', fr_alloc p 1 = (q, n, p') ->
    if invalid_ppn q then (- 2 ^ 63 <= q < 0) /\ forall f, frefs p' f = frefs p f
    else n = 1 /\ 0 <= q < 2 ^ (w - 12) /\ frefs p q = 0 /\ forall f, frefs p' f = if f =? q then 1 else frefs p f;
  frefs_free : forall p q, 0 < frefs p q ->
    fst (fr_free p q 1) = REND_SUCCESS /\
    forall f, frefs (snd (fr_free p q 1)) f = if f =? q then frefs p q - 1 else frefs p f;
  frefs_get : forall p q, let '(e, p') := fr_ref p q 1 true in
    forall f, frefs p' f = if (e =? REND_SUCCESS) && (f =? q) then frefs p q + 1 else frefs p f
}.

Lemma test_lor' a b : test (Z.lor a b) b = negb (b =? 0).
Proof.
  unfold test. replace (Z.land (Z.lor a b) b) with b; [done|]. apply Z.bits_inj'. intros n _. rewrite Z.land_spec, Z.lor_spec.
  by destruct (Z.testbit a n), (Z.testbit b n).
Qed.

Section Window.
Context {P : Type} {HF : FrameOps P} (w : Z) (Hw : 12 < w <= 52).
Implicit Types (st : mapst P) (i j : nat).

Notation util_map := (util_map w).

(** the window: four slots of this CPU, and what is known to be mapped in them *)
Record win_ok st : Prop := {
  wo_cpu : 0 <= cpu_id (hd st) < 128;
  wo_vaddr : forall i, (i < 4)%nat -> vaddr_at st i = map_pages_base + (4 * cpu_id (hd st) + Z.of_nat i) * 4096;
  wo_len : length (mapped_ppn (hd st)) = 4%nat /\ length (ppn_cache (hd st)) = 4%nat;
  wo_bytes : byte_mem (wtab st);
  wo_mapped : forall i q, (i < 4)%nat -> mapped_ppn (hd st) !!! i = q -> 0 <= q -> slot_addr st i = q * 4096
}.

Lemma window_index c i : 0 <= c < 128 -> (i < 4)%nat ->
  L3_INDEX (map_pages_base + (4 * c + Z.of_nat i) * 4096) = 4 * c + Z.of_nat i.
Proof.
  intros Hc Hi. unfold L3_INDEX. rewrite land_mask_9_bit. unfold map_pages_base. rewrite u64_small by lia.
  rewrite Z.shiftr_div_pow2 by lia. change (2 ^ 12) with 4096. rewrite Z.div_add by lia.
  replace (0xFFFFFFFFFFE00000 / 4096) with (0xFFFFFFFFFFE00 / 512 * 512) by reflexivity.
  rewrite Z.add_comm, Z.mod_add by lia. apply Z.mod_small. lia.
Qed.

(** the parts of the state the window does not touch *)
Record same_frame st st' : Prop := {
  sf_phys : phys st' = phys st;
  sf_frs : frs st' = frs st;
  sf_vlock : vlock st' = vlock st;
  sf_cache : ppn_cache (hd st') = ppn_cache (hd st);
  sf_vaddr : map_vaddr (hd st') = map_vaddr (hd st);
  sf_pmm : h_pmm (hd st') = h_pmm (hd st)
}.
Lemma same_frame_refl st : same_frame st st.
Proof. done. Qed.

Lemma util_map_effect st p i (st' := util_map p i st) :
  win_ok st -> (i < 4)%nat -> 0 <= p < 2 ^ w -> p mod 4096 = 0 ->
  win_ok st' /\ same_frame st st' /\ slot_addr st' i = p /\ (forall j, (j < 4)%nat -> j <> i -> slot_addr st' j = slot_addr st j).
Proof.
  intros W Hi Hp Ha. assert (2 ^ w <= 2 ^ 52) by (apply Z.pow_le_mono_r; lia).
  assert (Hpp : i64 (PPN p) = p / 4096) by (rewrite PPN_small, i64_small by dlia; done).
  unfold st', MapHandler.util_map. rewrite Hpp. destruct (Z.eqb_spec (p / 4096) (mapped_ppn (hd st) !!! i)) as [E|E].
  { split; [done|]. split; [done|]. split; [|done]. rewrite (wo_mapped _ W i (p / 4096) Hi (eq_sym E)); dlia. }
  destruct W as [W1 W2 W3 W4 W5].
  set (wt := arch_set_L3_entry w (wtab st) p (vaddr_at st i) 0 (arch_decode_flags 3 window_flags)).
  set (st1 := set_mapped _ _ _).
  assert (Hv : forall j, vaddr_at st1 j = vaddr_at st j) by done.
  assert (Hwt : wtab st1 = wt) by done.
  destruct (new_entry w 3 p window_flags Hw ltac:(lia) Hp Ha) as (N1 & N2 & _ & _ & N5).
  assert (Hs : forall j, (j < 4)%nat -> slot_addr st1 j = if decide (j = i) then p else slot_addr st j).
  { intros j Hj. unfold slot_addr. rewrite Hv, Hwt. unfold wt, arch_set_L3_entry. rewrite <- N5, Z.add_0_l.
    rewrite !W2, !window_index by lia. destruct (decide (j = i)) as [->|Hji].
    - by rewrite load64_store64_eq, N1.
    - rewrite load64_store64_ne; [done|]. lia. }
  split; [|split; [done|split; [by rewrite Hs, decide_True|]]].
  - constructor; [done|by intros j Hj; rewrite Hv; apply W2| | |].
    + cbn. by rewrite length_insert.
    + rewrite Hwt. by apply store64_byte_mem.
    + intros j q Hj Hq Hq0. rewrite Hs by done. cbn in Hq. destruct (decide (j = i)) as [->|Hji].
      * rewrite list_lookup_total_insert_eq in Hq by lia. dlia.
      * rewrite list_lookup_total_insert_ne in Hq by done. by apply W5.
  - intros j Hj Hji. rewrite Hs by done. by rewrite decide_False.
Qed.
End Window.

Section Inv.
Context {P : Type} {HF : FrameOps P} (w : Z) {HL : FrameLaws w P} (Hw : 12 < w <= 52) (L0_table : Z).
Implicit Types (st : mapst P) (i j k : nat) (root v t : Z).

(** a frame kept in reserve: referenced, and not a table *)
Definition reserve st root (c : Z) : Prop :=
  0 <= c < 2 ^ (w - 12) /\ 0 < frefs (frs st) c /\ forall j v, (j <= 3)%nat -> tab (phys st) root v j <> Some (c * 4096).

Record map_inv st root : Prop := {
  mi_win : win_ok st;
  mi_tree : pt_tree (phys st) root;
  mi_low : forall j v t, (j <= 3)%nat -> tab (phys st) root v j = Some t -> t < 2 ^ w;
  mi_refs : forall j v t, (j <= 3)%nat -> tab (phys st) root v j = Some t -> 0 < frefs (frs st) (t / 4096);
  mi_cache : forall i, (i < 4)%nat -> - 2 ^ 63 <= cache_at st i < 0 \/ reserve st root (cache_at st i);
  mi_distinct : forall i j, (i < 4)%nat -> (j < 4)%nat -> cache_at st i = cache_at st j -> 0 <= cache_at st i -> i = j
}.

Lemma pow_w : 2 ^ w = 2 ^ (w - 12) * 4096 /\ 2 ^ (w - 12) <= 2 ^ 40 /\ 2 ^ w <= 2 ^ 52.
Proof.
  split; [|split; apply Z.pow_le_mono_r; lia]. change 4096 with (2 ^ 12). rewrite <- Z.pow_add_r by lia. f_equal. lia.
Qed.
Lemma tab_low st root v k t : map_inv st root -> (k <= 3)%nat -> tab (phys st) root v k = Some t -> 0 <= t < 2 ^ w /\ t mod 4096 = 0.
Proof.
  intros I Hk Ht. pose proof (mi_low _ _ I k v t Hk Ht). destruct (tab_page root _ v k t (pt_root _ _ (mi_tree _ _ I)) Ht). lia.
Qed.
Lemma reserve_valid st root c : reserve st root c -> invalid_ppn c = false /\ PADDR c = c * 4096 /\ 0 <= c * 4096 < 2 ^ w.
Proof.
  intros (Hc & _). destruct pow_w as (E1 & E2 & E3). unfold invalid_ppn. rewrite i64_small by lia. split; [apply Z.ltb_ge; lia|].
  rewrite PADDR_small by lia. lia.
Qed.
Lemma invalid_neg c : - 2 ^ 63 <= c < 0 -> invalid_ppn c = true.
Proof. intros H. unfold invalid_ppn. rewrite i64_small by lia. apply Z.ltb_lt; lia. Qed.

(** the invariant speaks of memory, frames, cache and window *)
Lemma inv_same st st' root : map_inv st root -> same_frame st st' -> win_ok st' -> map_inv st' root.
Proof.
  intros [I1 I2 I3 I4 I5 I6] [S1 S2 S3 S4 S5 S6] W. unfold reserve, cache_at in *.
  constructor; unfold reserve, cache_at; rewrite ?S1, ?S2, ?S4; done.
Qed.

Lemma util_map_inv st root i p : map_inv st root -> (i < 4)%nat -> 0 <= p < 2 ^ w -> p mod 4096 = 0 ->
  let st' := util_map w p i st in
  map_inv st' root /\ same_frame st st' /\ slot_addr st' i = p /\ (forall j, (j < 4)%nat -> j <> i -> slot_addr st' j = slot_addr st j).
Proof.
  intros I Hi Hp Ha st'. destruct (util_map_effect w Hw st p i (mi_win _ _ I) Hi Hp Ha) as (W & S & H1 & H2).
  split; [by apply (inv_same st)|done].
Qed.

(** *** One level down *)

(** after the slot of level [S k] shows the table [next] that translates [v] *)
Record descended st root v k st' next : Prop := {
  de_inv : map_inv st' root;
  de_tab : tab (phys st') root v (S k) = Some next;
  de_slot : slot_addr st' (S k) = next;
  de_slots : forall j, (j <= k)%nat -> slot_addr st' j = slot_addr st j;
  de_trans : forall v', translate (phys st') root v' = translate (phys st) root v';
  de_frs : frs st' = frs st;
  de_vlock : vlock st' = vlock st;
  de_pmm : h_pmm (hd st') = h_pmm (hd st);
  de_cache : forall j, j <> S k -> cache_at st' j = cache_at st j;
  de_tabs : forall j v' t, (j <= 3)%nat -> tab (phys st') root v' j = Some t -> tab (phys st) root v' j = Some t \/ t = cache_at st (S k) * 4096
}.

Lemma slot_entry_at st root v k t : slot_addr st k = t -> slot_entry st k (idx k v) = entry_at (phys st) t k v.
Proof. by intros <-. Qed.

Lemma descend_old st root v k t :
  map_inv st root -> (k <= 2)%nat -> tab (phys st) root v k = Some t -> slot_addr st k = t ->
  let e := entry_at (phys st) t k v in
  is_valid k e = true -> is_leaf k e = false ->
  descended st root v k (enter_table w (S k) (entry_addr e) false st) (entry_addr e).
Proof.
  intros I Hk Ht Hs e Hv Hl. unfold enter_table.
  assert (Hn : tab (phys st) root v (S k) = Some (entry_addr e)) by (rewrite tab_S, Ht; cbv zeta; fold e; by rewrite Hv, Hl).
  destruct (tab_low st root v (S k) _ I ltac:(lia) Hn) as [Hn1 Hn2].
  destruct (util_map_inv st root (S k) (entry_addr e) I ltac:(lia) Hn1 Hn2) as (I' & [S1 S2 S3 S4 S5 S6] & H1 & H2).
  constructor; try done.
  - by rewrite S1.
  - intros j Hj. apply H2; lia.
  - intros v'. by rewrite S1.
  - intros j Hj. unfold cache_at. by rewrite S4.
  - intros j v' t' Hj H. left. by rewrite S1 in H.
Qed.

Lemma nonfinal_entry k : (k <= 2)%nat ->
  let f := arch_decode_flags (Z.of_nat k) nonfinal_must_flags in
  test (arch_encode_flags (Z.of_nat k) f) PAGE_ENTRY_VALID = true /\ is_final_level_pt (Z.of_nat k) (arch_encode_flags (Z.of_nat k) f) = false.
Proof. intros Hk. destruct k as [|[|[|k]]]; [split; reflexivity..|lia]. Qed.

Lemma descend_new st root v k t set_entry c :
  map_inv st root -> (k <= 2)%nat -> tab (phys st) root v k = Some t -> slot_addr st k = t ->
  is_valid k (entry_at (phys st) t k v) = false ->
  (forall m p a f, set_entry m p v a f = store64 m (a + 8 * idx k v) (Z.lor (PML4E_ADDR p w) f)) ->
  cache_at st (S k) = c -> reserve st root c ->
  descended st root v k
    (enter_table w (S k) (PADDR c) true
      (let st := set_cache (S k) (- E_RENDEZVOS) st in
       set_phys (set_entry (phys st) (PADDR c) v (slot_addr st k) (arch_decode_flags (Z.of_nat k) nonfinal_must_flags)) st))
    (PADDR c).
Proof.
  intros I Hk Ht Hs Hinv Hset Hc Hres. pose proof Hres as (Hc1 & Hc2 & Hfresh). destruct (reserve_valid st root c Hres) as (_ & HP & HP2).
  rewrite HP. set (f := c * 4096) in *. set (fl := arch_decode_flags (Z.of_nat k) nonfinal_must_flags).
  assert (Hal : f mod 4096 = 0) by (unfold f; apply Z.mod_mul; lia).
  destruct (new_entry w (Z.of_nat k) f nonfinal_must_flags Hw ltac:(lia) HP2 Hal) as (N1 & N2 & _ & N4 & _).
  fold fl in N1, N2, N4. set (e := Z.lor (PML4E_ADDR f w) fl) in *.
  cbv zeta. rewrite Hset. change (slot_addr (set_cache (S k) (- E_RENDEZVOS) st) k) with (slot_addr st k). rewrite Hs.
  change (phys (set_cache (S k) (- E_RENDEZVOS) st)) with (phys st). fold e. set (m' := store64 (phys st) (t + 8 * idx k v) e).
  set (st1 := set_phys m' (set_cache (S k) (- E_RENDEZVOS) st)).
  assert (Wst1 : win_ok st1).
  { destruct (mi_win _ _ I) as [W1 W2 W3 W4 W5]. constructor; try done. cbn. by rewrite length_insert. }
  unfold enter_table. destruct (util_map_effect w Hw st1 f (S k) Wst1 ltac:(lia) HP2 Hal) as (W2 & [S1 S2 S3 S4 S5 S6] & H1 & H2).
  set (st2 := util_map w f (S k) st1) in *. rewrite H1, S1. change (phys st1) with m'.
  set (m'' := snd (memset m' f 0 PAGE_SIZE)).
  destruct (nonfinal_entry k Hk) as [V1 V2]. fold fl in V1, V2.
  destruct (write_table root (phys st) v t k e f m'' (mi_tree _ _ I) Hk Ht N1 Hinv) as (T1 & T2 & T3 & T4 & T5 & T6).
  { unfold is_valid, flags_of. by rewrite N4. }
  { unfold is_leaf, flags_of. by rewrite N4. }
  { done. }
  { exact Hfresh. }
  { intros x. unfold m''. rewrite (proj2 (memset_fills f 0 PAGE_SIZE m' x ltac:(discriminate))). done. }
  set (st3 := set_phys m'' st2).
  assert (Hcache : forall j, cache_at st3 j = (<[S k := - E_RENDEZVOS]> (ppn_cache (hd st))) !!! j).
  { intros j. unfold cache_at, st3. cbn [set_phys set_hd hd]. by rewrite S4. }
  assert (Hlen : (S k < length (ppn_cache (hd st)))%nat) by (destruct (wo_len _ (mi_win _ _ I)) as [_ ->]; lia).
  assert (Hcj : forall j, j <> S k -> cache_at st3 j = cache_at st j).
  { intros j Hj. rewrite Hcache. by rewrite list_lookup_total_insert_ne. }
  assert (Hck : cache_at st3 (S k) = - E_RENDEZVOS) by (by rewrite Hcache, list_lookup_total_insert_eq).
  assert (Hfr : frs st3 = frs st) by (unfold st3; cbn; by rewrite S2).
  constructor; try done.
  - constructor.
    + destruct W2 as [A1 A2 A3 A4 A5]. constructor; done.
    + exact T1.
    + intros j v' t' Hj H. destruct (T5 j v' t' Hj H) as [G|(-> & _ & ->)]; [by apply (mi_low _ _ I j v')|lia].
    + intros j v' t' Hj H. rewrite Hfr. destruct (T5 j v' t' Hj H) as [G|(-> & _ & ->)]; [by apply (mi_refs _ _ I j v')|].
      unfold f. by rewrite Z.div_mul by lia.
    + intros j Hj. destruct (decide (j = S k)) as [->|Hne]; [left; by rewrite Hck|]. rewrite (Hcj j Hne).
      destruct (mi_cache _ _ I j Hj) as [Hn|(R1 & R2 & R3)]; [by left|right]. split; [done|]. split; [by rewrite Hfr|].
      intros i v' Hi H. destruct (T5 i v' _ Hi H) as [G|(_ & _ & G)]; [by apply (R3 i v' Hi)|].
      apply Hne. apply (mi_distinct _ _ I j (S k)); [done|lia| |lia]. rewrite Hc. unfold f in G. lia.
    + intros i j Hi Hj E Hp. destruct (decide (i = S k)) as [->|Hni]; [rewrite Hck in Hp; by destruct Hp|].
      destruct (decide (j = S k)) as [->|Hnj]; [rewrite E, Hck in Hp; by destruct Hp|].
      rewrite (Hcj i Hni), (Hcj j Hnj) in E. rewrite (Hcj i Hni) in Hp. exact (mi_distinct _ _ I i j Hi Hj E Hp).
  - intros j Hj. transitivity (slot_addr st2 j); [done|]. rewrite H2 by lia. done.
  - intros j v' t' Hj H. rewrite Hc. destruct (T5 j v' t' Hj H) as [G|(_ & _ & ->)]; [by left|by right].
Qed.

Lemma next_cases st root v k t set_entry :
  map_inv st root -> (k <= 2)%nat -> tab (phys st) root v k = Some t -> slot_addr st k = t ->
  (forall m p a f, set_entry m p v a f = store64 m (a + 8 * idx k v) (Z.lor (PML4E_ADDR p w) f)) ->
  let e := entry_at (phys st) t k v in
  (is_valid k e = true -> is_leaf k e = false) ->
  (next_table k v e set_entry st = None /\ is_valid k e = false /\ invalid_ppn (cache_at st (S k)) = true) \/
  exists next new st1, next_table k v e set_entry st = Some (next, new, st1) /\
    descended st root v k (enter_table w (S k) next new st1) next.
Proof.
  intros I Hk Ht Hs Hset e Hl. unfold next_table. fold (flags_of k e). fold (is_valid k e).
  destruct (is_valid k e) eqn:Hv.
  - right. eexists _, _, _. split; [done|]. exact (descend_old st root v k t I Hk Ht Hs Hv (Hl eq_refl)).
  - destruct (mi_cache _ _ I (S k) ltac:(lia)) as [Hn|Hr].
    + left. rewrite (invalid_neg _ Hn). done.
    + right. destruct (reserve_valid _ _ _ Hr) as (-> & _ & _). eexists _, _, _. split; [done|].
      exact (descend_new st root v k t set_entry (cache_at st (S k)) I Hk Ht Hs Hv Hset eq_refl Hr).
Qed.

(** *** The way out *)

Record settled st root st' : Prop := {
  se_inv : map_inv st' root;
  se_phys : phys st' = phys st;
  se_tlb : tlb st' = tlb st;
  se_vlock : vlock st' = vlock st
}.

Lemma refill_settled st root i : map_inv st root -> (i < 4)%nat -> settled st root (refill i st).
Proof.
  intros I Hi. unfold refill. destruct (Z.eqb_spec (cache_at st i) (- E_RENDEZVOS)) as [Hc|Hc]; [|done].
  destruct (fr_alloc (frs st) 1) as [[q n] p] eqn:E. pose proof (frefs_alloc _ _ _ _ E) as HA.
  assert (Hlen : (i < length (ppn_cache (hd st)))%nat) by (destruct (wo_len _ (mi_win _ _ I)) as [_ ->]; lia).
  set (st' := set_cache i q (set_frs p st)).
  assert (Hci : cache_at st' i = q) by (unfold cache_at, st'; cbn; by rewrite list_lookup_total_insert_eq).
  assert (Hcj : forall j, j <> i -> cache_at st' j = cache_at st j) by (intros j Hj; unfold cache_at, st'; cbn; by rewrite list_lookup_total_insert_ne).
  assert (Hpos : forall f, 0 < frefs (frs st) f -> 0 < frefs p f /\ (invalid_ppn q = false -> f <> q)).
  { intros f Hf. destruct (invalid_ppn q); [destruct HA as [_ HA]; by rewrite HA|]. destruct HA as (_ & _ & H0 & HA). rewrite HA.
    destruct (Z.eqb_spec f q) as [->|]; [lia|done]. }
  constructor; try done. constructor.
  - destruct (mi_win _ _ I) as [W1 W2 W3 W4 W5]. constructor; try done. cbn. by rewrite length_insert.
  - exact (mi_tree _ _ I).
  - exact (mi_low _ _ I).
  - intros j v t Hj Ht. by apply Hpos, (mi_refs _ _ I j v).
  - intros j Hj. destruct (decide (j = i)) as [->|Hne].
    + rewrite Hci. destruct (invalid_ppn q); [left; lia|right]. destruct HA as (_ & Hq & H0 & HA). split; [done|]. split; [cbn; rewrite HA, Z.eqb_refl; lia|].
      intros j' v' Hj' Ht. pose proof (mi_refs _ _ I j' v' _ Hj' Ht) as Hr. rewrite Z.div_mul in Hr by lia. lia.
    + rewrite (Hcj j Hne). destruct (mi_cache _ _ I j Hj) as [Hn|(R1 & R2 & R3)]; [by left|right]. split; [done|]. split; [|done]. by apply Hpos.
  - assert (Hnew : forall j, (j < 4)%nat -> j <> i -> cache_at st j = q -> 0 <= q -> False).
    { intros j Hj Hne Hq H0. destruct (mi_cache _ _ I j Hj) as [Hn|(R1 & R2 & R3)]; [lia|]. rewrite Hq in R2.
      destruct (Hpos q R2) as [_ Hx]. destruct (invalid_ppn q); [lia|]. by apply Hx. }
    intros a b Ha Hb Eab H0. destruct (decide (a = i)) as [->|Hna], (decide (b = i)) as [->|Hnb]; [done| | |].
    + rewrite Hci in Eab, H0. rewrite (Hcj b Hnb) in Eab. exfalso. by apply (Hnew b Hb Hnb).
    + rewrite (Hcj a Hna) in Eab, H0. rewrite Hci in Eab. exfalso. apply (Hnew a Ha Hna Eab). by rewrite <- Eab.
    + rewrite (Hcj a Hna) in Eab, H0. rewrite (Hcj b Hnb) in Eab. exact (mi_distinct _ _ I a b Ha Hb Eab H0).
Qed.

Lemma map_fail_effect r st root : map_inv st root -> exists st', map_fail r st = (r, st') /\ settled st root st'.
Proof.
  intros I. unfold map_fail. eexists. split; [done|].
  destruct (refill_settled st root 0 I ltac:(lia)) as [I0 A0 B0 C0]. set (s0 := refill 0 st) in *.
  destruct (refill_settled s0 root 1 I0 ltac:(lia)) as [I1 A1 B1 C1]. set (s1 := refill 1 s0) in *.
  destruct (refill_settled s1 root 2 I1 ltac:(lia)) as [I2 A2 B2 C2]. set (s2 := refill 2 s1) in *.
  destruct (refill_settled s2 root 3 I2 ltac:(lia)) as [I3 A3 B3 C3]. constructor; [done|congruence..].
Qed.
Lemma unlock_inv st root b : map_inv st root -> map_inv (set_vlock b st) root.
Proof. intros [I1 I2 I3 I4 I5 I6]. constructor; try done. by destruct I1. Qed.
Lemma flush_inv st root op : map_inv st root -> map_inv (flush op st) root.
Proof. intros [I1 I2 I3 I4 I5 I6]. constructor; try done. by destruct I1. Qed.

Lemma map_unlock_effect r st root : map_inv st root ->
  exists st', map_unlock r st = (r, st') /\ map_inv st' root /\ phys st' = phys st /\ tlb st' = tlb st /\ vlock st' = false.
Proof.
  intros I. destruct (map_fail_effect r (set_vlock false st) root (unlock_inv _ _ _ I)) as (st' & E & [S1 S2 S3 S4]).
  exists st'. by rewrite <- E.
Qed.

Definition flush_op (vs : VSpace) v (new_map : bool) : tlb_op :=
  if new_map then if KERNEL_VIRT_OFFSET <=? v then TlbKernelPage v else TlbPage (vs_asid vs) v
  else if KERNEL_VIRT_OFFSET <=? v then TlbKernelPageAll v else TlbPageAll (vs_asid vs) v.

Lemma map_succ_effect vs v b st root : map_inv st root ->
  exists st', map_succ vs v b st = (REND_SUCCESS, st') /\ map_inv st' root /\ phys st' = phys st /\
    tlb st' = tlb st ++ [flush_op vs v b] /\ vlock st' = false.
Proof.
  intros I. unfold map_succ. fold (flush_op vs v b).
  exact (map_unlock_effect REND_SUCCESS (flush (flush_op vs v b) st) root (flush_inv _ _ _ I)).
Qed.

(** *** Writing a leaf *)

Lemma leaf_inv st root v k t e p' :
  map_inv st root -> (2 <= k <= 3)%nat -> tab (phys st) root v k = Some t ->
  u64 e = e -> (is_valid k e = true -> is_leaf k e = true) -> clean k e = true ->
  (forall q, 0 < frefs (frs st) q -> (k = 2%nat -> tab (phys st) root v 3 <> Some (q * 4096)) -> 0 < frefs p' q) ->
  let st' := set_phys (store64 (phys st) (t + 8 * idx k v) e) (set_frs p' st) in
  map_inv st' root /\
  forall v', translate (phys st') root v' =
    if decide (pre (S k) v' = pre (S k) v) then (if is_valid k e then Some (Z.of_nat k, entry_paddr e, flags_of k e) else None)
    else translate (phys st) root v'.
Proof.
  intros I Hk Ht He Hl Hc Hp st'.
  destruct (write_leaf root (phys st) v t k e (mi_tree _ _ I) Hk Ht He Hl Hc) as (T1 & T2 & T3).
  split; [|exact T3]. constructor.
  - by destruct (mi_win _ _ I).
  - exact T1.
  - intros j v' t' Hj H. apply (mi_low _ _ I j v' t' Hj). by apply T2.
  - intros j v' t' Hj H. destruct (T2 j v' t' Hj H) as [G Hne]. apply Hp; [by apply (mi_refs _ _ I j v')|].
    intros -> H3. destruct (tab_low st root v' j t' I Hj G) as [_ Hal]. replace (t' / 4096 * 4096) with t' in H3 by dlia.
    destruct (pt_inj _ _ (mi_tree _ _ I) 3 j v v' t' ltac:(lia) Hj H3 G) as [<- Hpre]. by apply (Hne ltac:(lia)).
  - intros j Hj. destruct (mi_cache _ _ I j Hj) as [Hn|(R1 & R2 & R3)]; [by left|right]. split; [done|]. split.
    + apply Hp; [done|]. intros _. by apply R3.
    + intros j' v' Hj' H. destruct (T2 j' v' _ Hj' H) as [G _]. by apply (R3 j' v' Hj').
  - exact (mi_distinct _ _ I).
Qed.

(** *** The walk of [map] *)

Record at_table st root v k st' t : Prop := {
  at_inv : map_inv st' root;
  at_tab : tab (phys st') root v k = Some t;
  at_slot : slot_addr st' k = t;
  at_trans : forall v', translate (phys st') root v' = translate (phys st) root v';
  at_frs : frs st' = frs st;
  at_vlock : vlock st' = true;
  at_cache : forall j, (k < j)%nat -> cache_at st' j = cache_at st j;
  at_tabs : forall j v' t', (j <= 3)%nat -> tab (phys st') root v' j = Some t' ->
    tab (phys st) root v' j = Some t' \/ exists i, (i <= k)%nat /\ t' = cache_at st i * 4096
}.

Definition entry_setter k v (set_entry : mem -> Z -> Z -> Z -> Z -> mem) : Prop :=
  forall m p a f, set_entry m p v a f = store64 m (a + 8 * idx k v) (Z.lor (PML4E_ADDR p w) f).
Lemma entry_setters v :
  entry_setter 0 v (arch_set_L0_entry w) /\ entry_setter 1 v (arch_set_L1_entry w) /\ entry_setter 2 v (arch_set_L2_entry w).
Proof. done. Qed.

Lemma at_next st root v k s t set_entry :
  at_table st root v k s t -> (k <= 2)%nat -> entry_setter k v set_entry ->
  let e := slot_entry s k (idx k v) in
  (is_valid k e = true -> is_leaf k e = false) ->
  (next_table k v e set_entry s = None /\ is_valid k e = false /\ invalid_ppn (cache_at st (S k)) = true) \/
  exists next new s1, next_table k v e set_entry s = Some (next, new, s1) /\
    at_table st root v (S k) (enter_table w (S k) next new s1) next.
Proof.
  intros [A1 A2 A3 A4 A5 A6 A7 A8] Hk Hset e Hl. unfold e in *. rewrite (slot_entry_at s root v k t A3) in *.
  destruct (next_cases s root v k t set_entry A1 Hk A2 A3 Hset Hl) as [(H1 & H2 & H3)|(next & new & s1 & H1 & D)].
  - left. by rewrite <- (A7 (S k)) by lia.
  - right. exists next, new, s1. split; [done|]. destruct D as [D1 D2 D3 D4 D5 D6 D7 D8 D9 D10]. constructor; try done.
    + intros v'. by rewrite D5.
    + by rewrite D6.
    + by rewrite D7.
    + intros j Hj. rewrite D9 by lia. apply A7. lia.
    + intros j v' t' Hj H. destruct (D10 j v' t' Hj H) as [G| ->]; [|right; exists (S k); by rewrite (A7 (S k)) by lia].
      destruct (A8 j v' t' Hj G) as [?|(i & ? & ?)]; [by left|right; exists i; split; [lia|done]].
Qed.

Lemma at_root st root v : map_inv st root -> at_table st root v 0 (set_vlock true (util_map w root 0 st)) root.
Proof.
  intros I. destruct (tab_low st root v 0 root I ltac:(lia) eq_refl) as [H1 H2].
  destruct (util_map_inv st root 0 root I ltac:(lia) H1 H2) as (I' & [S1 S2 S3 S4 S5 S6] & H3 & _).
  constructor; try done; [by apply unlock_inv|intros v'; cbn; by rewrite S1|intros j _; unfold cache_at; cbn; by rewrite S4|].
  intros j v' t' Hj H. left. cbn in H. by rewrite S1 in H.
Qed.

Lemma l0_not_leaf e : is_leaf 0 e = false.
Proof. unfold is_leaf, is_final_level_pt. by rewrite andb_false_r. Qed.
Lemma l1_not_leaf st root v t : map_inv st root -> tab (phys st) root v 1 = Some t ->
  is_valid 1 (entry_at (phys st) t 1 v) = true -> is_leaf 1 (entry_at (phys st) t 1 v) = false.
Proof.
  intros I Ht Hv. pose proof (pt_no_1g _ _ (mi_tree _ _ I) v) as H. unfold leaf in H. rewrite Ht in H. cbv zeta in H. rewrite Hv in H.
  by destruct (is_leaf 1 _).
Qed.
Lemma l3_leaf e : is_leaf 3 e = true.
Proof. unfold is_leaf, is_final_level_pt. by rewrite orb_true_r. Qed.
Lemma l2_leaf e : is_leaf 2 e = test (flags_of 2 e) PAGE_ENTRY_HUGE.
Proof. unfold is_leaf, is_final_level_pt, test. cbn. by rewrite orb_false_r, andb_true_r. Qed.

Lemma root_round root m : pt_tree m root -> (root =? 0) = false /\ negb (ROUND_DOWN root PAGE_SIZE =? root) = false.
Proof.
  intros T. destruct (pt_root _ _ T) as [H1 H2]. split; [apply Z.eqb_neq; lia|]. change PAGE_SIZE with (2 ^ 12). rewrite ROUND_DOWN_spec by lia.
  change (2 ^ 12) with 4096. rewrite H2, Z.sub_0_r, Z.eqb_refl. done.
Qed.

(** [map] with its guards passed reaches the L2 table, or the cache is empty *)
Lemma map_walk vs st ppn vpn level eflags (root := vspace_root_addr vs) (v := VADDR vpn) :
  map_inv st root -> h_pmm (hd st) = true -> level = 2 \/ level = 3 -> invalid_ppn ppn = false -> vpn <> 0 ->
  (exists s k t, at_table st root v k s t /\ map w (Some vs) ppn vpn level eflags st = map_unlock (- E_RENDEZVOS) s /\
     (invalid_ppn (cache_at st 1) = true \/ invalid_ppn (cache_at st 2) = true)) \/
  (exists s t, at_table st root v 2 s t /\ map w (Some vs) ppn vpn level eflags st =
     if level =? 2 then map_level2 w vs ppn vpn (entry_flags_rm_sw_flags eflags) s
     else map_level3 w vs ppn vpn (entry_flags_rm_sw_flags eflags) (test eflags PAGE_ENTRY_REMAP) s).
Proof.
  intros I Hh Hlev Hp Hvp. unfold map. fold v root. rewrite Hh, Hp. cbn [negb orb].
  destruct (root_round root _ (mi_tree _ _ I)) as [-> ->]. rewrite (proj2 (Z.eqb_neq vpn 0) Hvp).
  replace (negb (level =? 2) && negb (level =? 3)) with false by (by destruct Hlev as [-> | ->]).
  pose proof (at_root st root v I) as A0. set (s0 := set_vlock true _) in *.
  destruct (entry_setters v) as (E0 & E1 & E2).
  pose proof (at_next _ _ _ _ _ _ _ A0 ltac:(lia) E0 (fun _ => l0_not_leaf _)) as N. cbn [idx] in N.
  destruct N as [(-> & _ & Hc)|(n1 & b1 & s1 & -> & A1)]; [left; eauto 10|].
  pose proof (at_next _ _ _ _ _ _ _ A1 ltac:(lia) E1) as N. cbn [idx] in N.
  destruct N as [(-> & _ & Hc)|(n2 & b2 & s2 & -> & A2)].
  { change (L1_INDEX v) with (idx 1 v). rewrite (slot_entry_at _ root v 1 _ (at_slot _ _ _ _ _ _ A1)). apply (l1_not_leaf _ root v); [apply A1|apply A1]. }
  { left. eauto 10. }
  right. eauto 10.
Qed.

(** *** The entry that is written *)

(** the flags [map] decodes for a leaf *)
Definition leaf_eflags (level eflags : Z) : Z :=
  if level =? 2 then Z.lor PAGE_ENTRY_HUGE (entry_flags_rm_sw_flags eflags) else entry_flags_rm_sw_flags eflags.
(** the flags a walk then reads back *)
Definition mapped_flags (level eflags : Z) : Z := arch_encode_flags level (arch_decode_flags level (leaf_eflags level eflags)).
Definition leaf_entry (k : nat) (p eflags : Z) : Z :=
  Z.lor (PML4E_ADDR p w) (arch_decode_flags (Z.of_nat k) (leaf_eflags (Z.of_nat k) eflags)).

Lemma leaf_entry_effect k ppn eflags : (2 <= k <= 3)%nat -> 0 <= ppn < 2 ^ (w - 12) -> test eflags PAGE_ENTRY_VALID = true ->
  let e := leaf_entry k (PADDR ppn) eflags in
  u64 e = e /\ is_valid k e = true /\ is_leaf k e = true /\ entry_paddr e = ppn /\ flags_of k e = mapped_flags (Z.of_nat k) eflags.
Proof.
  intros Hk Hp Hv e. destruct pow_w as (E1 & E2 & E3). assert (HP : PADDR ppn = ppn * 4096) by (apply PADDR_small; lia).
  destruct (new_entry w (Z.of_nat k) (ppn * 4096) (leaf_eflags (Z.of_nat k) eflags) Hw ltac:(lia) ltac:(lia) ltac:(apply Z.mod_mul; lia)) as (N1 & N2 & N3 & N4 & _).
  unfold e, leaf_entry. rewrite HP. set (e' := Z.lor _ _) in *.
  destruct (decode_facts (Z.of_nat k) (leaf_eflags (Z.of_nat k) eflags) ltac:(lia)) as (_ & _ & F1 & F2).
  rewrite test_rm_sw in F1 by (reflexivity || (split; [discriminate|reflexivity])).
  rewrite test_rm_sw in F2 by (reflexivity || (split; [discriminate|reflexivity])).
  assert (Hv' : test (entry_flags_rm_sw_flags eflags) PAGE_ENTRY_VALID = true).
  { rewrite test_rm_sw by (reflexivity || (split; [discriminate|reflexivity])). done. }
  split; [done|]. assert (HFl : flags_of k e' = mapped_flags (Z.of_nat k) eflags) by exact N4. assert (Hc : k = 2%nat \/ k = 3%nat) by lia.
  split; [|split; [|split; [|done]]].
  - unfold is_valid. rewrite HFl. unfold mapped_flags. rewrite F1. destruct Hc as [-> | ->]; unfold leaf_eflags; [change (Z.of_nat 2 =? 2) with true|done]. cbv iota. by rewrite test_lor.
  - destruct Hc as [-> | ->]; [|apply l3_leaf]. rewrite l2_leaf, HFl. unfold mapped_flags. rewrite F2. change (Z.of_nat 2) with 2.
    unfold leaf_eflags. change (2 =? 2) with true. cbv iota. rewrite Z.lor_comm, test_lor'. done.
  - rewrite N3. apply Z.div_mul. lia.
Qed.

(** *** Outcomes *)

Definition covers (level v v' : Z) : Prop := pre (S (Z.to_nat level)) v' = pre (S (Z.to_nat level)) v.
#[global] Instance covers_dec level v v' : Decision (covers level v v').
Proof. unfold covers. apply _. Defined.

Record mapped st root vs level ppn vpn eflags st' : Prop := {
  md_trans : forall v', translate (phys st') root v' =
    if decide (covers level (VADDR vpn) v') then Some (level, ppn, mapped_flags level eflags) else translate (phys st) root v';
  md_safe : forall v' l q f, covers level (VADDR vpn) v' -> translate (phys st) root v' = Some (l, q, f) ->
    l = level /\ (q = ppn \/ level = 3 /\ test eflags PAGE_ENTRY_REMAP = true);
  md_flush : exists b, last (tlb st') = Some (flush_op vs (VADDR vpn) b) /\ (translate (phys st) root (VADDR vpn) <> None -> b = false)
}.
Record refused st root r st' : Prop := {
  rf_error : r = - E_RENDEZVOS \/ r = - E_IN_PARAM;
  rf_trans : forall v', translate (phys st') root v' = translate (phys st) root v'
}.

Lemma finish_refused st root v k s t r : at_table st root v k s t -> r = - E_RENDEZVOS \/ r = - E_IN_PARAM ->
  exists st', map_unlock r s = (r, st') /\ map_inv st' root /\ vlock st' = false /\ refused st root r st'.
Proof.
  intros A Hr. destruct (map_unlock_effect r s root (at_inv _ _ _ _ _ _ A)) as (st' & E & I & Hp & _ & Hl).
  exists st'. split; [done|]. split; [done|]. split; [done|]. constructor; [done|]. intros v'. rewrite Hp. apply A.
Qed.

Lemma finish_mapped vs st root vpn k s t p' ppn eflags b (v := VADDR vpn) (level := Z.of_nat k) :
  at_table st root v k s t -> (2 <= k <= 3)%nat -> 0 <= ppn < 2 ^ (w - 12) -> test eflags PAGE_ENTRY_VALID = true ->
  (forall q, 0 < frefs (frs s) q -> (k = 2%nat -> tab (phys s) root v 3 <> Some (q * 4096)) -> 0 < frefs p' q) ->
  (forall v' l q f, covers level v v' -> translate (phys st) root v' = Some (l, q, f) ->
     l = level /\ (q = ppn \/ level = 3 /\ test eflags PAGE_ENTRY_REMAP = true)) ->
  (translate (phys st) root v <> None -> b = false) ->
  exists st', map_succ vs v b (set_phys (store64 (phys s) (t + 8 * idx k v) (leaf_entry k (PADDR ppn) eflags)) (set_frs p' s)) = (REND_SUCCESS, st') /\
    map_inv st' root /\ vlock st' = false /\ mapped st root vs level ppn vpn eflags st'.
Proof.
  intros A Hk Hp Hv Hrefs Hsafe Hb. destruct (leaf_entry_effect k ppn eflags Hk Hp Hv) as (L1 & L2 & L3 & L4 & L5).
  destruct (leaf_inv s root v k t (leaf_entry k (PADDR ppn) eflags) p' (at_inv _ _ _ _ _ _ A) Hk (at_tab _ _ _ _ _ _ A) L1 (fun _ => L3)) as [I T];
    [by unfold clean; rewrite L2|done|].
  set (s' := set_phys _ _) in *.
  destruct (map_succ_effect vs v b s' root I) as (st' & E & I' & Hph & Ht & Hl).
  exists st'. split; [done|]. split; [done|]. split; [done|]. constructor.
  - intros v'. rewrite Hph, T, L2, L4, L5. assert (Hcv : covers level v v' <-> pre (S k) v' = pre (S k) v).
    { unfold covers, level. by rewrite Nat2Z.id. }
    fold v. rewrite (decide_ext _ _ _ _ Hcv). destruct (decide _); [done|]. apply A.
  - exact Hsafe.
  - exists b. rewrite Ht, last_snoc. done.
Qed.

(** what a walk that reached the table of level [k] knows about the leaf there *)
Lemma leaf_here st root v k s t : at_table st root v k s t ->
  leaf (phys s) root v k =
    let e := slot_entry s k (idx k v) in if is_valid k e && is_leaf k e then Some (entry_paddr e, flags_of k e) else None.
Proof. intros A. cbv zeta. rewrite (slot_entry_at s root v k t (at_slot _ _ _ _ _ _ A)). unfold leaf. by rewrite (at_tab _ _ _ _ _ _ A). Qed.

Definition leaf3_of (m : mem) root v : option (Z * Z * Z) := match leaf m root v 3 with Some (q, f) => Some (3, q, f) | None => None end.
Lemma translate_3 m root v t : tab m root v 3 = Some t ->
  translate m root v = match leaf m root v 3 with Some (q, f) => Some (3, q, f) | None => None end.
Proof. intros Ht. unfold translate. destruct (leaf m root v 2) as [x|] eqn:E; [|done]. apply leaf_tab in E. by rewrite E in Ht. Qed.
Lemma translate_pre m root v v' : pre 4 v = pre 4 v' -> translate m root v = translate m root v'.
Proof. intros H. unfold translate. by rewrite (leaf_pre root m v v' 3 H), (leaf_pre root m v v' 2 (pre_le 3 4 v v' ltac:(lia) H)). Qed.

Lemma entry_addr_paddr e : entry_addr e = entry_paddr e * 4096.
Proof.
  unfold entry_addr. rewrite Z.shiftl_mul_pow2 by lia. change (2 ^ 12) with 4096. apply u64_small.
  unfold entry_paddr. rewrite Z.land_ones by lia. pose proof (Z.mod_pos_bound (Z.shiftr e 12) (2 ^ 40) ltac:(lia)). lia.
Qed.

Notation outcome st root vs level ppn vpn eflags x := (exists r st', x = (r, st') /\ map_inv st' root /\ vlock st' = false /\
  (r = REND_SUCCESS /\ mapped st root vs level ppn vpn eflags st' \/ refused st root r st')).

Lemma refused_outcome st root v k s t r vs level ppn vpn eflags : at_table st root v k s t -> r = - E_RENDEZVOS \/ r = - E_IN_PARAM ->
  outcome st root vs level ppn vpn eflags (map_unlock r s).
Proof. intros A Hr. destruct (finish_refused _ _ _ _ _ _ r A Hr) as (st' & E & I & L & R). exists r, st'. split_and!; [done..|by right]. Qed.
Lemma mapped_outcome st root vs level ppn vpn eflags (x : Z * mapst P) :
  (exists st', x = (REND_SUCCESS, st') /\ map_inv st' root /\ vlock st' = false /\ mapped st root vs level ppn vpn eflags st') ->
  outcome st root vs level ppn vpn eflags x /\ fst x = REND_SUCCESS.
Proof. intros (st' & -> & I & L & M). split; [|done]. exists REND_SUCCESS, st'. split_and!; [done..|by left]. Qed.

Lemma set_leaf3 m ppn v t eflags : 0 <= ppn < 2 ^ (w - 12) ->
  arch_set_L3_entry w m (PADDR ppn) v t (arch_decode_flags 3 (entry_flags_rm_sw_flags eflags)) = store64 m (t + 8 * idx 3 v) (leaf_entry 3 (PADDR ppn) eflags).
Proof.
  intros Hp. destruct pow_w as (E1 & E2 & E3). assert (HP : PADDR ppn = ppn * 4096) by (apply PADDR_small; lia).
  destruct (addr_bits w (PADDR ppn) Hw ltac:(lia) ltac:(rewrite HP; apply Z.mod_mul; lia)) as (H1 & H2 & _).
  unfold arch_set_L3_entry, leaf_entry, leaf_eflags. rewrite H1, H2. done.
Qed.
Lemma set_leaf2 m ppn v t eflags :
  arch_set_L2_entry w m (PADDR ppn) v t (arch_decode_flags 2 (Z.lor PAGE_ENTRY_HUGE (entry_flags_rm_sw_flags eflags))) =
  store64 m (t + 8 * idx 2 v) (leaf_entry 2 (PADDR ppn) eflags).
Proof. done. Qed.

Lemma map_leaf3_effect vs st root ppn vpn eflags s t (v := VADDR vpn) :
  at_table st root v 3 s t -> 0 <= ppn < 2 ^ (w - 12) -> test eflags PAGE_ENTRY_VALID = true ->
  let x := map_leaf3 w vs ppn vpn (entry_flags_rm_sw_flags eflags) (test eflags PAGE_ENTRY_REMAP) s in
  outcome st root vs 3 ppn vpn eflags x /\
  ((forall l q f, translate (phys st) root v = Some (l, q, f) -> q = ppn \/ test eflags PAGE_ENTRY_REMAP = true) -> fst x = REND_SUCCESS).
Proof.
  intros A Hp Hv. destruct pow_w as (E1 & E2 & E3). assert (HP : PADDR ppn = ppn * 4096) by (apply PADDR_small; lia).
  pose proof (leaf_here _ _ _ _ _ _ A) as HL3. cbv zeta in HL3. rewrite l3_leaf, andb_true_r in HL3.
  assert (HT : translate (phys st) root v =
    if is_valid 3 (slot_entry s 3 (L3_INDEX v)) then Some (3, entry_paddr (slot_entry s 3 (L3_INDEX v)), flags_of 3 (slot_entry s 3 (L3_INDEX v))) else None).
  { rewrite <- (at_trans _ _ _ _ _ _ A), (translate_3 _ _ _ t (at_tab _ _ _ _ _ _ A)), HL3. cbn [idx]. by destruct (is_valid _ _). }
  assert (Hset : forall b, (forall l q f, translate (phys st) root v = Some (l, q, f) -> l = 3 /\ (q = ppn \/ test eflags PAGE_ENTRY_REMAP = true)) ->
    (translate (phys st) root v <> None -> b = false) -> exists st',
    map_succ vs v b (set_phys (arch_set_L3_entry w (phys s) (PADDR ppn) v (slot_addr s 3) (arch_decode_flags 3 (entry_flags_rm_sw_flags eflags))) s) = (REND_SUCCESS, st') /\
    map_inv st' root /\ vlock st' = false /\ mapped st root vs 3 ppn vpn eflags st').
  { intros b Hs Hb. destruct (finish_mapped vs st root vpn 3 s t (frs s) ppn eflags b A ltac:(lia) Hp Hv (fun _ H _ => H)) as (st' & E & H).
    - intros v' l q f Hc H. unfold covers in Hc. change (S (Z.to_nat (Z.of_nat 3))) with 4%nat in Hc. fold v in Hc.
      rewrite (translate_pre _ _ v' v Hc) in H. destruct (Hs l q f H) as [-> Hs']. split; [done|]. destruct Hs'; [by left|by right].
    - done.
    - exists st'. split; [|done]. rewrite <- E. rewrite set_leaf3, (at_slot _ _ _ _ _ _ A) by done. done. }
  cbv zeta. unfold map_leaf3. fold v. change (test (arch_encode_flags 3 (slot_entry s 3 (L3_INDEX v))) PAGE_ENTRY_VALID) with (is_valid 3 (slot_entry s 3 (L3_INDEX v))).
  destruct (is_valid 3 (slot_entry s 3 (L3_INDEX v))) eqn:Hvalid; cbn [negb].
  2:{ destruct (mapped_outcome _ _ _ _ _ _ _ _ (Hset true ltac:(by rewrite HT) ltac:(rewrite HT; by intros []))) as [O S]. done. }
  rewrite entry_addr_paddr, HP. set (q := entry_paddr _) in *.
  destruct (negb (q * 4096 =? ppn * 4096) && negb (test eflags PAGE_ENTRY_REMAP)) eqn:Hdec.
  - apply andb_true_iff in Hdec as [D1 D2]. apply negb_true_iff, Z.eqb_neq in D1. apply negb_true_iff in D2.
    split; [apply (refused_outcome _ _ _ _ _ _ _ _ _ _ _ _ A); by left|]. intros Had. destruct (Had _ _ _ HT) as [->|Hr]; [lia|by rewrite Hr in D2].
  - assert (Hok : q = ppn \/ test eflags PAGE_ENTRY_REMAP = true).
    { destruct (test eflags PAGE_ENTRY_REMAP); [by right|left]. rewrite andb_true_r in Hdec. apply negb_false_iff, Z.eqb_eq in Hdec. lia. }
    assert (Hs : forall l q' f, translate (phys st) root v = Some (l, q', f) -> l = 3 /\ (q' = ppn \/ test eflags PAGE_ENTRY_REMAP = true)).
    { rewrite HT. intros l q' f [= <- <- <-]. done. }
    rewrite <- HP. destruct (mapped_outcome _ _ _ _ _ _ _ _ (Hset false Hs (fun _ => eq_refl))) as [O S]. split; [exact O|intros _; exact S].
Qed.

Lemma map_level3_effect vs st root ppn vpn eflags s t (v := VADDR vpn) :
  at_table st root v 2 s t -> 0 <= ppn < 2 ^ (w - 12) -> test eflags PAGE_ENTRY_VALID = true ->
  let x := map_level3 w vs ppn vpn (entry_flags_rm_sw_flags eflags) (test eflags PAGE_ENTRY_REMAP) s in
  outcome st root vs 3 ppn vpn eflags x /\
  (invalid_ppn (cache_at st 3) = false ->
   (forall l q f, translate (phys st) root v = Some (l, q, f) -> l = 3 /\ (q = ppn \/ test eflags PAGE_ENTRY_REMAP = true)) -> fst x = REND_SUCCESS).
Proof.
  intros A Hp Hv. cbv zeta. unfold map_level3. fold v.
  pose proof (slot_entry_at s root v 2 t (at_slot _ _ _ _ _ _ A)) as Hse. cbn [idx] in Hse.
  pose proof (pt_clean _ _ (mi_tree _ _ (at_inv _ _ _ _ _ _ A)) v t (at_tab _ _ _ _ _ _ A)) as Hcl. rewrite <- Hse in Hcl.
  pose proof (leaf_here _ _ _ _ _ _ A) as HLf. cbn [idx] in HLf. cbv zeta in HLf.
  set (e2 := slot_entry s 2 (L2_INDEX v)) in *.
  change (test (arch_encode_flags 2 e2) PAGE_ENTRY_HUGE) with (test (flags_of 2 e2) PAGE_ENTRY_HUGE). rewrite <- l2_leaf.
  unfold clean in Hcl. rewrite <- l2_leaf in Hcl. destruct (is_leaf 2 e2) eqn:Hl.
  - rewrite orb_false_r in Hcl. unfold next_table. change (Z.of_nat 2) with 2. change (test (arch_encode_flags 2 e2) PAGE_ENTRY_VALID) with (is_valid 2 e2). rewrite Hcl in *.
    split; [apply (refused_outcome _ _ _ _ _ _ _ _ _ _ _ _ A); by left|]. intros _ Hadm.
    assert (HT : translate (phys st) root v = Some (2, entry_paddr e2, flags_of 2 e2)) by (rewrite <- (at_trans _ _ _ _ _ _ A); unfold translate; by rewrite HLf).
    by destruct (Hadm _ _ _ HT).
  - pose proof (at_next _ _ _ _ _ _ _ A ltac:(lia) (proj2 (proj2 (entry_setters v))) (fun _ => Hl)) as N. cbn [idx] in N. fold e2 in N.
    destruct N as [(-> & _ & Hc)|(n3 & b3 & s3 & -> & A3)].
    + split; [apply (refused_outcome _ _ _ _ _ _ _ _ _ _ _ _ A); by left|]. intros Hc'. by rewrite Hc in Hc'.
    + destruct (map_leaf3_effect vs st root ppn vpn eflags _ _ A3 Hp Hv) as [O S]. split; [exact O|]. intros _ Hadm. apply S. intros l q f H. by apply (Hadm l q f).
Qed.

Lemma filled_entry_false (s : mapst P) (n : nat) (i : Z) : filled_entry s i n = false -> forall j : Z, i <= j < i + Z.of_nat n -> slot_entry s 3 j = 0.
Proof.
  revert i. induction n as [|n IH]; intros i H j Hj; [lia|]. cbn [filled_entry] in H. destruct (slot_entry s 3 i =? 0) eqn:E; [|done]. cbn in H.
  apply Z.eqb_eq in E. destruct (Z.eq_dec j i) as [->|Hne]; [done|]. apply (IH (i + 1) H). lia.
Qed.

(** an L2 entry that is a table in front of no leaf *)
Lemma empty_l3 st root v s t n (s3 : mapst P) : at_table st root v 2 s t ->
  tab (phys s) root v 3 = Some n -> phys s3 = phys s -> slot_addr s3 3 = n -> filled_entry s3 0 512 = false ->
  forall v', pre 3 v' = pre 3 v -> translate (phys st) root v' = None.
Proof.
  intros A Hn Hph Hs Hf v' Hp. rewrite <- (at_trans _ _ _ _ _ _ A).
  assert (Hn' : tab (phys s) root v' 3 = Some n) by by rewrite (tab_pre root _ v' v 3 Hp).
  rewrite (translate_3 _ _ _ n Hn'). unfold leaf. rewrite Hn'. unfold entry_at. pose proof (idx_range 3 v') as Hi.
  pose proof (filled_entry_false s3 512 0 Hf (idx 3 v') ltac:(lia)) as H0. unfold slot_entry in H0. rewrite Hs, Hph in H0. rewrite H0. by rewrite is_valid_0.
Qed.

Lemma map_level2_effect vs st root ppn vpn eflags s t (v := VADDR vpn) :
  at_table st root v 2 s t -> 0 <= ppn < 2 ^ (w - 12) -> test eflags PAGE_ENTRY_VALID = true ->
  (forall j v', (j <= 3)%nat -> tab (phys s) root v' j <> Some (ppn * 4096)) ->
  outcome st root vs 2 ppn vpn eflags (map_level2 w vs ppn vpn (entry_flags_rm_sw_flags eflags) s).
Proof.
  intros A Hp Hv Hnt. destruct pow_w as (E1 & E2 & E3). assert (HP : PADDR ppn = ppn * 4096) by (apply PADDR_small; lia).
  unfold map_level2. fold v. destruct (_ || _); [apply (refused_outcome _ _ _ _ _ _ _ _ _ _ _ _ A); by right|].
  pose proof (slot_entry_at s root v 2 t (at_slot _ _ _ _ _ _ A)) as Hse. cbn [idx] in Hse.
  pose proof (leaf_here _ _ _ _ _ _ A) as HLf. cbn [idx] in HLf. cbv zeta in HLf.
  set (e2 := slot_entry s 2 (L2_INDEX v)) in *. rewrite set_leaf2.
  change (test (arch_encode_flags 2 e2) PAGE_ENTRY_VALID) with (is_valid 2 e2). change (is_final_level_pt 2 (arch_encode_flags 2 e2)) with (is_leaf 2 e2).
  assert (Htr : forall v', pre 3 v' = pre 3 v -> leaf (phys s) root v' 2 = leaf (phys s) root v 2 /\ tab (phys s) root v' 3 = tab (phys s) root v 3).
  { intros v' H. split; [by apply (leaf_pre root (phys s) v' v 2)|by apply tab_pre]. }
  assert (Htab : tab (phys s) root v 3 = if is_valid 2 e2 && negb (is_leaf 2 e2) then Some (entry_addr e2) else None).
  { rewrite tab_S, (at_tab _ _ _ _ _ _ A). cbv zeta. by rewrite <- Hse. }
  assert (HT : forall v', pre 3 v' = pre 3 v -> translate (phys st) root v' =
    if is_valid 2 e2 && is_leaf 2 e2 then Some (2, entry_paddr e2, flags_of 2 e2) else leaf3_of (phys s) root v').
  { intros v' H. rewrite <- (at_trans _ _ _ _ _ _ A). unfold translate. destruct (Htr v' H) as [-> _]. rewrite HLf. by destruct (_ && _). }
  assert (Hset : forall b p', (forall q, 0 < frefs (frs s) q -> tab (phys s) root v 3 <> Some (q * 4096) -> 0 < frefs p' q) ->
    (forall v' l q f, pre 3 v' = pre 3 v -> translate (phys st) root v' = Some (l, q, f) -> l = 2 /\ q = ppn) ->
    (translate (phys st) root v <> None -> b = false) ->
    outcome st root vs 2 ppn vpn eflags (map_succ vs v b (set_phys (store64 (phys s) (t + 8 * idx 2 v) (leaf_entry 2 (PADDR ppn) eflags)) (set_frs p' s)))).
  { intros b p' Hr Hs Hb. apply mapped_outcome. apply (finish_mapped vs st root vpn 2 s t p' ppn eflags b A ltac:(lia) Hp Hv (fun q H1 H2 => Hr q H1 (H2 eq_refl))); [|done].
    intros v' l q f Hc H. destruct (Hs v' l q f Hc H) as [-> ->]. split; [done|by left]. }
  destruct (is_valid 2 e2) eqn:Hvalid; cbn [negb andb] in *.
  2:{ destruct (_ || _); [apply (refused_outcome _ _ _ _ _ _ _ _ _ _ _ _ A); by left|]. rewrite (at_slot _ _ _ _ _ _ A).
      assert (Hno : forall v', pre 3 v' = pre 3 v -> translate (phys st) root v' = None).
      { intros v' H. rewrite (HT v' H). unfold leaf3_of, leaf. destruct (Htr v' H) as [_ ->]. by rewrite Htab. }
      apply (Hset true (frs s)); [done|intros v' l q f Hc H; by rewrite (Hno v' Hc) in H|by rewrite (Hno v eq_refl)]. }
  rewrite entry_addr_paddr, HP in *. destruct (Z.eqb_spec (entry_paddr e2 * 4096) (ppn * 4096)) as [Hq|Hq]; cbn [negb].
  - destruct (is_leaf 2 e2) eqn:Hl; cbn [negb] in Htab; [|exfalso; apply (Hnt 3%nat v ltac:(lia)); by rewrite Htab, Hq].
    rewrite (at_slot _ _ _ _ _ _ A). apply (Hset false (frs s)); [done| |done]. intros v' l q f Hc H. rewrite (HT v' Hc) in H. simplify_eq. split; [done|lia].
  - destruct (is_leaf 2 e2) eqn:Hl; cbn [negb] in *; [apply (refused_outcome _ _ _ _ _ _ _ _ _ _ _ _ A); by left|].
    destruct (tab_low s root v 3 _ (at_inv _ _ _ _ _ _ A) ltac:(lia) Htab) as [Hn1 Hn2].
    destruct (util_map_inv s root 3 _ (at_inv _ _ _ _ _ _ A) ltac:(lia) Hn1 Hn2) as (I3 & S3 & H3 & H3').
    set (s3 := util_map w (entry_paddr e2 * 4096) 3 s) in *.
    assert (A3 : at_table st root v 2 s3 t).
    { destruct S3 as [P1 P2 P3 P4 P5 P6]. constructor; [done|by rewrite P1; apply A|rewrite H3' by lia; apply A|intros v'; rewrite P1; apply A| | | |].
      - by rewrite P2; apply A.
      - by rewrite P3; apply A.
      - intros j Hj. unfold cache_at. rewrite P4. by apply A.
      - intros j v' t' Hj. rewrite P1. by apply A. }
    destruct (filled_entry s3 0 512) eqn:Hf; [apply (refused_outcome _ _ _ _ _ _ _ _ _ _ _ _ A3); by left|].
    pose proof (empty_l3 st root v s t _ s3 A Htab (sf_phys _ _ S3) H3 Hf) as Hno.
    replace (PPN (entry_paddr e2 * 4096)) with (entry_paddr e2) by (rewrite PPN_small by lia; by rewrite Z.div_mul by lia).
    pose proof (mi_refs _ _ (at_inv _ _ _ _ _ _ A) 3 v _ ltac:(lia) Htab) as Hr. rewrite Z.div_mul in Hr by lia. rewrite <- (sf_frs _ _ S3) in Hr.
    destruct (frefs_free _ _ Hr) as [F1 F2]. destruct (fr_free (frs s3) (entry_paddr e2) 1) as [res f'] eqn:Efr. cbn [fst snd] in F1, F2. rewrite F1. cbn [negb].
    change (negb (REND_SUCCESS =? 0)) with false. cbv iota.
    change (phys (set_frs f' s3)) with (phys s3). change (slot_addr (set_frs f' s3) 2) with (slot_addr s3 2). rewrite (at_slot _ _ _ _ _ _ A3), <- HP, set_leaf2.
    apply mapped_outcome, (finish_mapped vs st root vpn 2 s3 t f' ppn eflags false A3 ltac:(lia) Hp Hv); [|intros v' l q f Hc H; by rewrite (Hno v' Hc) in H|done].
    intros q Hq0 Hq1. rewrite F2. destruct (Z.eqb_spec q (entry_paddr e2)) as [->|]; [|done]. destruct (Hq1 eq_refl). rewrite (sf_phys _ _ S3). exact Htab.
Qed.
End Inv.
