(* ===== verification/MapSpec.v ===== *)
(** * What mapping promises

    [map], [unmap] and [have_mapped] against [translate], the walk the hardware
    does: every outcome, error or success, in terms of what each address is
    translated to before and after; then a page that is mapped, looked up and
    unmapped.  A small counting allocator shows the allocator's laws can hold. *)
From S2P Require Import Prelude Mm CString PageTable PageTree KernelPages MapHandler MapInv.

Section Spec.
Context {P : Type} {HF : FrameOps P} (w : Z) {HL : FrameLaws w P} (Hw : 12 < w <= 52).
Implicit Types (st : mapst P) (i j k : nat) (root v t : Z).

(** *** Unmapping and lookup walk existing tables *)

(** the window shows the table that translates [v] at level [k] *)
Record walked st root v k st' t : Prop := {
  wk_inv : map_inv w st' root;
  wk_same : same_frame st st';
  wk_tab : tab (phys st) root v k = Some t;
  wk_slot : slot_addr st' k = t
}.

Lemma walk_root st root v : map_inv w st root -> walked st root v 0 (util_map w root 0 st) root.
Proof.
  intros I. destruct (tab_low w Hw st root v 0 root I ltac:(lia) eq_refl) as [H1 H2].
  by destruct (util_map_inv w Hw st root 0 root I ltac:(lia) H1 H2) as (I' & S & H3 & _).
Qed.
Lemma walk_entry st root v k s t : walked st root v k s t -> slot_entry s k (idx k v) = entry_at (phys st) t k v.
Proof. intros [I S T <-]. unfold slot_entry, entry_at. by rewrite (sf_phys _ _ S). Qed.

Lemma walk_next st root v k s t : walked st root v k s t -> (k <= 2)%nat ->
  let e := slot_entry s k (idx k v) in is_valid k e = true -> is_leaf k e = false ->
  walked st root v (S k) (util_map w (entry_addr e) (S k) s) (entry_addr e).
Proof.
  intros A Hk e Hv Hl. pose proof (walk_entry _ _ _ _ _ _ A) as He. fold e in He. destruct A as [I S T H].
  assert (Hn : tab (phys st) root v (Datatypes.S k) = Some (entry_addr e)) by (rewrite tab_S, T; cbv zeta; by rewrite <- He, Hv, Hl).
  assert (Hn' : tab (phys s) root v (Datatypes.S k) = Some (entry_addr e)) by by rewrite (sf_phys _ _ S).
  destruct (tab_low w Hw s root v (Datatypes.S k) _ I ltac:(lia) Hn') as [H1 H2].
  destruct (util_map_inv w Hw s root (Datatypes.S k) _ I ltac:(lia) H1 H2) as (I' & S' & H3 & _).
  constructor; try done. destruct S, S'. constructor; congruence.
Qed.

Lemma pt_tree_phys st st' root : map_inv w st' root -> same_frame st st' -> pt_tree (phys st) root.
Proof. intros I S. rewrite <- (sf_phys _ _ S). apply I. Qed.

(** only memory differs *)
Record same_rest st st' : Prop := {
  sr_frs : frs st' = frs st;
  sr_tlb : tlb st' = tlb st;
  sr_hd : hd st' = hd st
}.

(** where the walk stops *)
Lemma walk_invalid st root v k s t : walked st root v k s t -> (k <= 3)%nat -> is_valid k (slot_entry s k (idx k v)) = false ->
  translate (phys st) root v = None.
Proof.
  intros A Hk Hv. rewrite (walk_entry _ _ _ _ _ _ A) in Hv. destruct A as [I S T _].
  assert (Hn : forall j, (k < j)%nat -> tab (phys st) root v j = None).
  { intros j Hj. apply (tab_none root _ v (Datatypes.S k) j Hj). rewrite tab_S, T. cbv zeta. by rewrite Hv. }
  assert (Hlf : leaf (phys st) root v k = None) by (unfold leaf; rewrite T; cbv zeta; by rewrite Hv).
  unfold translate. destruct (Nat.lt_trichotomy k 2) as [Hlt|[->|Hgt]].
  - unfold leaf. by rewrite (Hn 2%nat), (Hn 3%nat) by lia.
  - rewrite Hlf. unfold leaf. by rewrite (Hn 3%nat) by lia.
  - assert (k = 3%nat) as -> by lia. rewrite Hlf. destruct (leaf _ root v 2) as [x|] eqn:E; [|done]. apply leaf_tab in E. by rewrite E in T.
Qed.
Lemma walk_leaf st root v k s t : walked st root v k s t -> (2 <= k <= 3)%nat ->
  let e := slot_entry s k (idx k v) in is_valid k e = true -> is_leaf k e = true ->
  translate (phys st) root v = Some (Z.of_nat k, entry_paddr e, flags_of k e).
Proof.
  intros A Hk e Hv Hl. pose proof (walk_entry _ _ _ _ _ _ A) as He. fold e in He. destruct A as [I S T _].
  assert (Hlf : leaf (phys st) root v k = Some (entry_paddr e, flags_of k e)) by (unfold leaf; rewrite T; cbv zeta; by rewrite <- He, Hv, Hl).
  unfold translate. assert (Hc : k = 2%nat \/ k = 3%nat) by lia. destruct Hc as [-> | ->]; [by rewrite Hlf|].
  destruct (leaf (phys st) root v 2) as [x|] eqn:E; [apply leaf_tab in E; by rewrite E in T|]. by rewrite Hlf.
Qed.

Lemma walk_l1 st root v s t : walked st root v 1 s t -> let e := slot_entry s 1 (idx 1 v) in is_valid 1 e = true -> is_leaf 1 e = false.
Proof.
  intros A e. pose proof (walk_entry _ _ _ _ _ _ A) as He. fold e in He. rewrite He. destruct A as [I S T _].
  pose proof (pt_tree_phys _ _ _ I S) as Tr. intros Hv. pose proof (pt_no_1g _ _ Tr v) as H. unfold leaf in H. rewrite T in H. cbv zeta in H.
  rewrite Hv in H. by destruct (is_leaf 1 _).
Qed.

Lemma paddr_entry e : PADDR (entry_paddr e) = entry_addr e.
Proof.
  rewrite entry_addr_paddr. apply PADDR_small. unfold entry_paddr. rewrite Z.land_ones by lia.
  pose proof (Z.mod_pos_bound (Z.shiftr e 12) (2 ^ 40) ltac:(lia)). lia.
Qed.

Lemma paddr_ppn e : PPN (PADDR (entry_paddr e)) = entry_paddr e.
Proof.
  apply PPN_PADDR. unfold entry_paddr. rewrite Z.land_ones by lia. pose proof (Z.mod_pos_bound (Z.shiftr e 12) (2 ^ 40) ltac:(lia)). lia.
Qed.

(** ** Clearing an entry *)

Lemma clear_value k a : (k <= 3)%nat -> let e := entry_set_paddr 0 a in u64 e = e /\ is_valid k e = false /\ clean k e = true.
Proof.
  intros Hk e. assert (He : e = Z.land a (Z.ones 40) * 4096).
  { unfold e, entry_set_paddr. change (clear_mask_u64 0 (Z.shiftl (Z.ones 40) 12)) with 0. by rewrite Z.lor_0_l, Z.shiftl_mul_pow2 by lia. }
  assert (Hr : 0 <= Z.land a (Z.ones 40) < 2 ^ 40) by (rewrite Z.land_ones by lia; apply Z.mod_pos_bound; lia).
  assert (Hf : flags_of k e = flags_of k 0).
  { unfold flags_of. rewrite <- (Z.lor_0_r e). apply encode_frame. rewrite He. replace (Z.land a (Z.ones 40) * 4096) with (Z.shiftl (Z.land a (Z.ones 40)) 12) by (by rewrite Z.shiftl_mul_pow2 by lia).
    unfold frame_mask. rewrite <- Z.shiftl_land. f_equal. rewrite <- Z.land_assoc. by rewrite Z.land_diag. }
  unfold is_valid, clean, is_valid. rewrite Hf. split; [apply u64_small; lia|].
  assert (Hc : k = 0%nat \/ k = 1%nat \/ k = 2%nat \/ k = 3%nat) by lia. destruct Hc as [-> | [-> | [-> | ->]]]; split; reflexivity.
Qed.

Lemma replace_entry_effect st root v k t a : map_inv w st root -> (2 <= k <= 3)%nat -> tab (phys st) root v k = Some t -> slot_addr st k = t ->
  let st' := replace_entry k (idx k v) a st in
  map_inv w st' root /\ same_rest st st' /\
  forall v', translate (phys st') root v' = if decide (pre (S k) v' = pre (S k) v) then None else translate (phys st) root v'.
Proof.
  intros I Hk Ht Hs st'. destruct (clear_value k 0 ltac:(lia)) as (Z1 & Z2 & Z3). change (entry_set_paddr 0 0) with 0 in *.
  destruct (leaf_inv w Hw st root v k t 0 (frs st) I Hk Ht Z1) as [I1 T1]; [by rewrite Z2|done|done|].
  set (s1 := set_phys (store64 (phys st) (t + 8 * idx k v) 0) (set_frs (frs st) st)) in *.
  assert (Ht1 : tab (phys s1) root v k = Some t).
  { rewrite <- Ht. exact (store_tab_upto root (phys st) v t k 0 (mi_tree _ _ _ I) ltac:(lia) Ht v k ltac:(lia)). }
  destruct (clear_value k a ltac:(lia)) as (A1 & A2 & A3).
  destruct (leaf_inv w Hw s1 root v k t (entry_set_paddr 0 a) (frs st) I1 Hk Ht1 A1) as [I2 T2]; [by rewrite A2|done|done|].
  assert (E : st' = set_phys (store64 (phys s1) (t + 8 * idx k v) (entry_set_paddr 0 a)) (set_frs (frs st) s1)).
  { unfold st', replace_entry, set_slot_entry, slot_entry. cbv zeta.
    change (slot_addr (set_phys _ st) k) with (slot_addr st k). rewrite Hs. cbn [phys set_phys]. by rewrite load64_store64_eq. }
  rewrite E. split; [exact I2|]. split; [done|]. intros v'. rewrite T2, T1, A2, Z2. by destruct (decide _).
Qed.

(** ** What the operations do *)

Lemma map_effect vs ppn vpn level eflags st (root := vspace_root_addr vs) (v := VADDR vpn) :
  map_inv w st root -> h_pmm (hd st) = true -> level = 2 \/ level = 3 -> 0 <= ppn < 2 ^ (w - 12) -> vpn <> 0 ->
  test eflags PAGE_ENTRY_VALID = true ->
  (level = 2 -> (forall j v', (j <= 3)%nat -> tab (phys st) root v' j <> Some (ppn * 4096)) /\ forall i, (i < 4)%nat -> cache_at st i <> ppn) ->
  exists r st', map w (Some vs) ppn vpn level eflags st = (r, st') /\ map_inv w st' root /\ vlock st' = false /\
    (r = REND_SUCCESS /\ mapped st root vs level ppn vpn eflags st' \/ refused st root r st') /\
    (level = 3 -> (forall i, (1 <= i <= 3)%nat -> invalid_ppn (cache_at st i) = false) ->
     (forall l q f, translate (phys st) root v = Some (l, q, f) -> l = 3 /\ (q = ppn \/ test eflags PAGE_ENTRY_REMAP = true)) ->
     r = REND_SUCCESS).
Proof.
  intros I Hh Hlev Hp Hvp Hv Hspare. destruct (pow_w w Hw) as (E1 & E2 & E3).
  assert (Hip : invalid_ppn ppn = false) by (unfold invalid_ppn; rewrite i64_small by lia; apply Z.ltb_ge; lia).
  destruct (map_walk w Hw vs st ppn vpn level eflags I Hh Hlev Hip Hvp) as [(s & k & t & A & -> & Hc)|(s & t & A & ->)].
  - destruct (finish_refused w _ _ _ _ _ _ (- E_RENDEZVOS) A ltac:(by left)) as (st' & E & I' & L & R).
    exists (- E_RENDEZVOS), st'. split_and!; [done..|by right|]. intros _ Hok _. destruct Hc as [Hc|Hc]; rewrite Hok in Hc; by (lia || done).
  - destruct Hlev as [-> | ->].
    + change (2 =? 2) with true. cbv iota. destruct (Hspare eq_refl) as [Sp1 Sp2].
      destruct (map_level2_effect w Hw vs st root ppn vpn eflags s t A Hp Hv) as (r & st' & E & I' & L & O).
      { intros j v' Hj H. destruct (at_tabs _ _ _ _ _ _ _ A j v' _ Hj H) as [G|(i & Hi & Ei)]; [by apply (Sp1 j v' Hj)|]. apply (Sp2 i); lia. }
      exists r, st'. split_and!; done.
    + change (3 =? 2) with false. cbv iota.
      destruct (map_level3_effect w Hw vs st root ppn vpn eflags s t A Hp Hv) as [(r & st' & E & I' & L & O) S].
      exists r, st'. split_and!; [done..|]. intros _ Hok Hadm. rewrite E in S. apply S; [apply Hok; lia|done].
Qed.

(** what [unmap] and [have_mapped] see *)
Definition large_unaligned (l vpn : Z) : bool := (l =? 2) && test vpn mask_9_bit.

Lemma walk_fail (r : Z) st root v k s t : walked st root v k s t ->
  exists st', (r, set_vlock false s) = (r, st') /\ map_inv w st' root /\ vlock st' = false /\ frs st' = frs st /\
    forall v', translate (phys st') root v' = translate (phys st) root v'.
Proof.
  intros [Is Ss _ _]. exists (set_vlock false s). split_and!; [done|by apply unlock_inv|done|apply Ss|].
  intros v'. cbn. by rewrite (sf_phys _ _ Ss).
Qed.
Lemma walk_clear vs (q a : Z) st root v k s t : walked st root v k s t -> (2 <= k <= 3)%nat ->
  exists st', unmap_succ vs v q (replace_entry k (idx k v) a s) = (q, st') /\ map_inv w st' root /\ vlock st' = false /\ frs st' = frs st /\
    last (tlb st') = Some (flush_op vs v false) /\
    forall v', translate (phys st') root v' = if decide (pre (S k) v' = pre (S k) v) then None else translate (phys st) root v'.
Proof.
  intros [Is Ss Ts Hs] Hk. assert (Ht : tab (phys s) root v k = Some t) by by rewrite (sf_phys _ _ Ss).
  destruct (replace_entry_effect s root v k t a Is Hk Ht Hs) as (I' & [R1 R2 R3] & T). set (s' := replace_entry _ _ _ s) in *.
  eexists. split; [done|]. split; [by apply unlock_inv, flush_inv|]. split; [done|]. split; [exact (eq_trans R1 (sf_frs _ _ Ss))|].
  split; [exact (last_snoc _ _)|]. intros v'. refine (eq_trans (T v') _). by rewrite (sf_phys _ _ Ss).
Qed.

#[local] Opaque arch_encode_flags slot_entry test load64 entry_addr.
Ltac walk_stop A := 
  match goal with |- exists r st', (?r0, set_vlock false ?s) = _ /\ _ =>
    destruct (walk_fail r0 _ _ _ _ _ _ A) as (?st' & ?E & ?I' & ?L & ?F & ?T); exists r0; eexists; split; [exact E|]; split; [exact I'|]; split; [exact L|]; split; [exact F|] end.

Lemma unmap_effect vs vpn a st (root := vspace_root_addr vs) (v := VADDR vpn) :
  map_inv w st root -> vpn <> 0 ->
  exists r st', unmap w (Some vs) vpn a st = (r, st') /\ map_inv w st' root /\ vlock st' = false /\ frs st' = frs st /\
    match translate (phys st) root v with
    | Some (l, q, _) =>
      if large_unaligned l vpn then r = - E_RENDEZVOS /\ forall v', translate (phys st') root v' = translate (phys st) root v'
      else r = q /\ last (tlb st') = Some (flush_op vs v false) /\
           forall v', translate (phys st') root v' = if decide (covers l v v') then None else translate (phys st) root v'
    | None => (r = - E_RENDEZVOS \/ r = - E_REND_NOFOUND) /\ forall v', translate (phys st') root v' = translate (phys st) root v'
    end.
Proof.
  intros I Hvp. unfold unmap. fold root v. rewrite (proj2 (Z.eqb_neq vpn 0) Hvp), orb_false_r.
  destruct (root_round root _ (mi_tree _ _ _ I)) as [-> ->].
  pose proof (walk_root (set_vlock true st) root v (unlock_inv _ _ _ true I)) as A0.
  set (s0 := util_map w root 0 _) in *. cbv zeta.
  change (test (arch_encode_flags 0 (slot_entry s0 0 (L0_INDEX v))) PAGE_ENTRY_VALID) with (is_valid 0 (slot_entry s0 0 (idx 0 v))).
  destruct (is_valid 0 (slot_entry s0 0 (idx 0 v))) eqn:V0; cbn [negb].
  2:{ pose proof (walk_invalid _ _ _ _ _ _ A0 ltac:(lia) V0) as HT. cbn [phys set_vlock] in HT. rewrite HT. walk_stop A0. split; [by left|done]. }
  pose proof (walk_next _ _ _ _ _ _ A0 ltac:(lia) V0 (l0_not_leaf _)) as A1. set (s1 := util_map w _ 1 s0) in *.
  change (test (arch_encode_flags 1 (slot_entry s1 1 (L1_INDEX v))) PAGE_ENTRY_VALID) with (is_valid 1 (slot_entry s1 1 (idx 1 v))).
  change (is_final_level_pt 1 (arch_encode_flags 1 (slot_entry s1 1 (L1_INDEX v)))) with (is_leaf 1 (slot_entry s1 1 (idx 1 v))).
  destruct (is_valid 1 (slot_entry s1 1 (idx 1 v))) eqn:V1; cbn [negb].
  2:{ pose proof (walk_invalid _ _ _ _ _ _ A1 ltac:(lia) V1) as HT. cbn [phys set_vlock] in HT. rewrite HT. walk_stop A1. split; [by left|done]. }
  rewrite (walk_l1 _ _ _ _ _ A1 V1).
  pose proof (walk_next _ _ _ _ _ _ A1 ltac:(lia) V1 (walk_l1 _ _ _ _ _ A1 V1)) as A2. change (idx 1 v) with (L1_INDEX v) in A2. set (s2 := util_map w _ 2 s1) in *.
  change (test (arch_encode_flags 2 (slot_entry s2 2 (L2_INDEX v))) PAGE_ENTRY_VALID) with (is_valid 2 (slot_entry s2 2 (idx 2 v))).
  change (is_final_level_pt 2 (arch_encode_flags 2 (slot_entry s2 2 (L2_INDEX v)))) with (is_leaf 2 (slot_entry s2 2 (idx 2 v))).
  destruct (is_valid 2 (slot_entry s2 2 (idx 2 v))) eqn:V2; cbn [negb].
  2:{ pose proof (walk_invalid _ _ _ _ _ _ A2 ltac:(lia) V2) as HT. cbn [phys set_vlock] in HT. rewrite HT. walk_stop A2. split; [by left|done]. }
  destruct (is_leaf 2 (slot_entry s2 2 (idx 2 v))) eqn:L2.
  { pose proof (walk_leaf _ _ _ _ _ _ A2 ltac:(lia) V2 L2) as HT. cbn [phys set_vlock] in HT. rewrite HT. change (Z.of_nat 2) with 2.
    unfold large_unaligned. cbn [Z.eqb Pos.eqb andb]. destruct (test vpn mask_9_bit); [walk_stop A2; done|].
    rewrite <- paddr_entry, paddr_ppn. destruct (walk_clear vs (entry_paddr (slot_entry s2 2 (L2_INDEX v))) a _ _ _ _ _ _ A2 ltac:(lia)) as (st' & E & X).
    exists (entry_paddr (slot_entry s2 2 (L2_INDEX v))), st'. split; [exact E|]. destruct X as (X1 & X2 & X3 & X4 & X5). by split_and!. }
  pose proof (walk_next _ _ _ _ _ _ A2 ltac:(lia) V2 L2) as A3. change (idx 2 v) with (L2_INDEX v) in A3. set (s3 := util_map w _ 3 s2) in *.
  change (test (arch_encode_flags 3 (slot_entry s3 3 (L3_INDEX v))) PAGE_ENTRY_VALID) with (is_valid 3 (slot_entry s3 3 (idx 3 v))).
  destruct (is_valid 3 (slot_entry s3 3 (idx 3 v))) eqn:V3.
  - pose proof (walk_leaf _ _ _ _ _ _ A3 ltac:(lia) V3 (l3_leaf _)) as HT. cbn [phys set_vlock] in HT. rewrite HT. change (Z.of_nat 3) with 3.
    change (large_unaligned 3 vpn) with false. cbv iota.
    rewrite <- paddr_entry, paddr_ppn. destruct (walk_clear vs (entry_paddr (slot_entry s3 3 (L3_INDEX v))) a _ _ _ _ _ _ A3 ltac:(lia)) as (st' & E & X).
    exists (entry_paddr (slot_entry s3 3 (L3_INDEX v))), st'. split; [exact E|]. destruct X as (X1 & X2 & X3 & X4 & X5). by split_and!.
  - pose proof (walk_invalid _ _ _ _ _ _ A3 ltac:(lia) V3) as HT. cbn [phys set_vlock] in HT. rewrite HT.
    destruct (walk_clear vs (- E_REND_NOFOUND) a _ _ _ _ _ _ A3 ltac:(lia)) as (st' & E & X1 & X2 & X3 & X4 & X5).
    exists (- E_REND_NOFOUND), st'. split_and!; [exact E|done..|by right|]. intros v'. rewrite X5. destruct (decide _) as [Hp|Hp]; [|done].
    cbn [phys set_vlock]. by rewrite (translate_pre _ _ v' v Hp), HT.
Qed.

Lemma refs_grow st root p' : map_inv w st root -> (forall q, 0 < frefs (frs st) q -> 0 < frefs p' q) -> map_inv w (set_frs p' st) root.
Proof.
  intros [I1 I2 I3 I4 I5 I6] Hp. constructor; try done.
  - by destruct I1.
  - intros j v t Hj H. by apply Hp, (I4 j v).
  - intros i Hi. destruct (I5 i Hi) as [Hn|(R1 & R2 & R3)]; [by left|right]. split; [done|]. split; [by apply Hp|done].
Qed.

(** a lookup that may pin the frame it finds *)
Definition looked_up st root v (pin : bool) (ppn flags level : Z) (p' : P) : Prop :=
  match translate (phys st) root v with
  | None => (ppn, flags, level) = (- E_REND_NOFOUND, 0, 0) /\ p' = frs st
  | Some (l, q, f) =>
    if pin then
      ((ppn, flags, level) = (q, f, l) /\ forall g, frefs p' g = if g =? q then frefs (frs st) q + 1 else frefs (frs st) g) \/
      ((ppn, flags, level) = (- E_RENDEZVOS, 0, 0) /\ forall g, frefs p' g = frefs (frs st) g)
    else (ppn, flags, level) = (q, f, l) /\ p' = frs st
  end.

Lemma have_mapped_found vs pin st root v k s t : walked st root v k s t -> (2 <= k <= 3)%nat ->
  let e := slot_entry s k (idx k v) in is_valid k e = true -> is_leaf k e = true ->
  exists ppn flags level st', have_mapped_succ vs pin (entry_paddr e) (flags_of k e) (Z.of_nat k) s = (ppn, flags, level, st') /\
    map_inv w st' root /\ vlock st' = false /\ phys st' = phys st /\ looked_up st root v pin ppn flags level (frs st').
Proof.
  intros A Hk e Hv Hl. pose proof (walk_leaf _ _ _ _ _ _ A Hk Hv Hl) as HT. fold e in HT. unfold looked_up. rewrite HT.
  destruct A as [Is Ss _ _]. unfold have_mapped_succ. pose proof (unlock_inv w _ _ false Is) as Iu.
  assert (Hdone : forall ppn flags level : Z, exists ppn' flags' level' st', (ppn, flags, level, set_vlock false s) = (ppn', flags', level', st') /\
    map_inv w st' root /\ vlock st' = false /\ phys st' = phys st /\ (ppn', flags', level') = (ppn, flags, level) /\ frs st' = frs st).
  { intros ppn flags level. exists ppn, flags, level, (set_vlock false s). split_and!; [done..|exact (sf_phys _ _ Ss)|done|exact (sf_frs _ _ Ss)]. }
  destruct pin.
  2:{ destruct (Hdone (entry_paddr e) (flags_of k e) (Z.of_nat k)) as (p1 & f1 & l1 & st' & E & X). exists p1, f1, l1, st'. split; [exact E|]. exact X. }
  destruct (negb (vs_has_pmm vs)).
  { destruct (Hdone (- E_RENDEZVOS) 0 0) as (p1 & f1 & l1 & st' & E & X1 & X2 & X3 & X4 & X5). exists p1, f1, l1, st'. split_and!; [exact E|done..|].
    right. split; [done|]. intros g. by rewrite X5. }
  pose proof (frefs_get (frs s) (entry_paddr e)) as HG. destruct (fr_ref (frs s) (entry_paddr e) 1 true) as [r p'].
  assert (Hgrow : forall q, 0 < frefs (frs s) q -> 0 < frefs p' q).
  { intros q Hq. rewrite HG. destruct (_ && _) eqn:Eb; [|done]. apply andb_true_iff in Eb as [_ ->%Z.eqb_eq]. lia. }
  pose proof (unlock_inv w _ _ false (refs_grow _ _ _ Is Hgrow)) as Ip. rewrite (sf_frs _ _ Ss) in HG.
  destruct (r =? REND_SUCCESS); cbn [negb andb] in *.
  - eexists _, _, _, _. split; [done|]. split; [exact Ip|]. split; [done|]. split; [exact (sf_phys _ _ Ss)|]. left. split; [done|]. exact HG.
  - eexists _, _, _, _. split; [done|]. split; [exact Ip|]. split; [done|]. split; [exact (sf_phys _ _ Ss)|]. right. split; [done|]. exact HG.
Qed.

Lemma lookup_stop st root v k s t pin : walked st root v k s t -> translate (phys st) root v = None ->
  exists ppn flags level st', (- E_REND_NOFOUND, 0, 0, set_vlock false s) = (ppn, flags, level, st') /\
    map_inv w st' root /\ vlock st' = false /\ phys st' = phys st /\ looked_up st root v pin ppn flags level (frs st').
Proof.
  intros [Is Ss _ _] HT. eexists _, _, _, _. split; [done|]. split; [by apply unlock_inv|]. split; [done|]. split; [exact (sf_phys _ _ Ss)|].
  unfold looked_up. rewrite HT. split; [done|apply Ss].
Qed.

Lemma have_mapped_effect vs vpn pin st (root := vspace_root_addr vs) (v := VADDR vpn) : map_inv w st root -> vpn <> 0 ->
  exists ppn flags level st', have_mapped w (Some vs) vpn pin st = (ppn, flags, level, st') /\
    map_inv w st' root /\ vlock st' = false /\ phys st' = phys st /\ looked_up st root v pin ppn flags level (frs st').
Proof.
  intros I Hvp. unfold have_mapped. fold root v. rewrite (proj2 (Z.eqb_neq vpn 0) Hvp), orb_false_r.
  destruct (root_round root _ (mi_tree _ _ _ I)) as [-> ->]. rewrite !paddr_entry.
  pose proof (walk_root (set_vlock true st) root v (unlock_inv _ _ _ true I)) as A0.
  set (s0 := util_map w root 0 _) in *. cbv zeta.
  change (test (arch_encode_flags 0 (slot_entry s0 0 (L0_INDEX v))) PAGE_ENTRY_VALID) with (is_valid 0 (slot_entry s0 0 (idx 0 v))).
  destruct (is_valid 0 (slot_entry s0 0 (idx 0 v))) eqn:V0; cbn [negb].
  2:{ exact (lookup_stop _ _ _ _ _ _ pin A0 (walk_invalid _ _ _ _ _ _ A0 ltac:(lia) V0)). }
  pose proof (walk_next _ _ _ _ _ _ A0 ltac:(lia) V0 (l0_not_leaf _)) as A1.  set (s1 := util_map w _ 1 s0) in *.
  change (test (arch_encode_flags 1 (slot_entry s1 1 (L1_INDEX v))) PAGE_ENTRY_VALID) with (is_valid 1 (slot_entry s1 1 (idx 1 v))).
  change (is_final_level_pt 1 (arch_encode_flags 1 (slot_entry s1 1 (L1_INDEX v)))) with (is_leaf 1 (slot_entry s1 1 (idx 1 v))).
  destruct (is_valid 1 (slot_entry s1 1 (idx 1 v))) eqn:V1; cbn [negb].
  2:{ exact (lookup_stop _ _ _ _ _ _ pin A1 (walk_invalid _ _ _ _ _ _ A1 ltac:(lia) V1)). }
  rewrite (walk_l1 _ _ _ _ _ A1 V1).
  pose proof (walk_next _ _ _ _ _ _ A1 ltac:(lia) V1 (walk_l1 _ _ _ _ _ A1 V1)) as A2. change (idx 1 v) with (L1_INDEX v) in A2.
  set (s2 := util_map w _ 2 s1) in *.
  change (test (arch_encode_flags 2 (slot_entry s2 2 (L2_INDEX v))) PAGE_ENTRY_VALID) with (is_valid 2 (slot_entry s2 2 (idx 2 v))).
  change (is_final_level_pt 2 (arch_encode_flags 2 (slot_entry s2 2 (L2_INDEX v)))) with (is_leaf 2 (slot_entry s2 2 (idx 2 v))).
  destruct (is_valid 2 (slot_entry s2 2 (idx 2 v))) eqn:V2; cbn [negb].
  2:{ exact (lookup_stop _ _ _ _ _ _ pin A2 (walk_invalid _ _ _ _ _ _ A2 ltac:(lia) V2)). }
  destruct (is_leaf 2 (slot_entry s2 2 (idx 2 v))) eqn:L2.
  { exact (have_mapped_found vs pin _ _ _ 2 _ _ A2 ltac:(lia) V2 L2). }
  pose proof (walk_next _ _ _ _ _ _ A2 ltac:(lia) V2 L2) as A3. change (idx 2 v) with (L2_INDEX v) in A3.
  set (s3 := util_map w _ 3 s2) in *.
  change (test (arch_encode_flags 3 (slot_entry s3 3 (L3_INDEX v))) PAGE_ENTRY_VALID) with (is_valid 3 (slot_entry s3 3 (idx 3 v))).
  destruct (is_valid 3 (slot_entry s3 3 (idx 3 v))) eqn:V3; cbn [negb].
  - exact (have_mapped_found vs pin _ _ _ 3 _ _ A3 ltac:(lia) V3 (l3_leaf _)).
  - exact (lookup_stop _ _ _ _ _ _ pin A3 (walk_invalid _ _ _ _ _ _ A3 ltac:(lia) V3)).
Qed.
End Spec.

(** *** Pages and indices *)

(** [map] at level 3 is about one page, at level 2 about 512 of them *)
Lemma covers_pages level v v' : level = 2 \/ level = 3 -> 0 <= v < 2 ^ 64 -> 0 <= v' < 2 ^ 64 ->
  let size := if level =? 2 then MIDDLE_PAGE_SIZE else PAGE_SIZE in
  covers level v v' <-> (v' mod 2 ^ 48) / size = (v mod 2 ^ 48) / size.
Proof.
  intros Hl Hv Hv'. unfold covers. rewrite !pre_div by lia.
  assert (E : forall x n d, 0 <= n -> 0 <= d -> (x / 2 ^ d) mod 2 ^ n = (x mod 2 ^ (d + n)) / 2 ^ d).
  { intros x n d Hn Hd. rewrite Z.pow_add_r by lia. rewrite Z.rem_mul_r by lia. rewrite Z.mul_comm, Z.div_add by lia. rewrite Z.mod_div by lia. lia. }
  destruct Hl as [-> | ->]; cbv zeta; rewrite !E by lia; done.
Qed.

(** ** A small allocator: a count per frame, eight frames to hand out *)
Definition count_of (p : gmap Z Z) (f : Z) : Z := default 0 (p !! f).
Definition count_alloc (p : gmap Z Z) (n : Z) : Z * Z * gmap Z Z :=
  match find (fun q => count_of p q =? 0) [16; 17; 18; 19; 20; 21; 22; 23] with
  | Some q => (q, 1, <[q := 1]> p)
  | None => (- E_REND_NO_MEM, 0, p)
  end.
Definition count_free (p : gmap Z Z) (q n : Z) : Z * gmap Z Z :=
  if 0 <? count_of p q then (REND_SUCCESS, <[q := count_of p q - 1]> p) else (- E_RENDEZVOS, p).
Definition count_ref (p : gmap Z Z) (q n : Z) (inc : bool) : Z * gmap Z Z :=
  if inc && (0 <? count_of p q) then (REND_SUCCESS, <[q := count_of p q + 1]> p) else (- E_RENDEZVOS, p).
#[global] Instance count_frames : FrameOps (gmap Z Z) := {| fr_alloc := count_alloc; fr_free := count_free; fr_ref := count_ref |}.

Lemma count_insert p q c f : count_of (<[q := c]> p) f = if f =? q then c else count_of p f.
Proof. unfold count_of. destruct (Z.eqb_spec f q) as [->|H]; [by rewrite lookup_insert_eq|by rewrite lookup_insert_ne]. Qed.
#[global] Instance count_laws : FrameLaws 36 (gmap Z Z).
Proof.
  refine {| frefs := count_of |}.
  - intros p q n p' H. cbn in H. unfold count_alloc in H.
    destruct (find _ _) as [q'|] eqn:E; simplify_eq; [|by split].
    apply find_some in E as [Hin H0%Z.eqb_eq]. assert (Hq : 16 <= q <= 23) by (cbn in Hin; lia).
    assert (Hi : invalid_ppn q = false) by (unfold invalid_ppn; rewrite i64_small by lia; apply Z.ltb_ge; lia). rewrite Hi.
    split_and!; [done|lia|lia|done|]. intros f. apply count_insert.
  - intros p q Hq. cbn. unfold count_free. rewrite (proj2 (Z.ltb_lt _ _) Hq). split; [done|]. intros f. apply count_insert.
  - intros p q. cbn. unfold count_ref. destruct (_ && _); [|done]. intros f. cbn. apply count_insert.
Defined.

(** ** The theorems *)
Section Theorems.
Context {P : Type} {HF : FrameOps P} (w : Z) {HL : FrameLaws w P} (Hw : 12 < w <= 52).
Implicit Types (st : mapst P) (root v : Z).

(** C5 [map] on every outcome: a success changes the translation of the pages the
    entry covers, to the new frame and flags, and of no other page; it never
    takes a page from another frame, except at level 3 with REMAP; where a
    translation existed the last TLB operation reaches all cores.  A refusal
    leaves every translation as it was.  Either way the tables still form a tree
    of referenced frames and the lock is free.  At level 3 with its three cached
    frames it refuses only what it must. *)
Theorem map_spec vs ppn vpn level eflags st (root := vspace_root_addr vs) (v := VADDR vpn) :
  map_inv w st root -> h_pmm (hd st) = true -> level = 2 \/ level = 3 -> 0 <= ppn < 2 ^ (w - 12) -> vpn <> 0 ->
  test eflags PAGE_ENTRY_VALID = true ->
  (level = 2 -> (forall j v', (j <= 3)%nat -> tab (phys st) root v' j <> Some (ppn * 4096)) /\ forall i, (i < 4)%nat -> cache_at st i <> ppn) ->
  exists r st', map w (Some vs) ppn vpn level eflags st = (r, st') /\ map_inv w st' root /\ vlock st' = false /\
    (r = REND_SUCCESS /\ mapped st root vs level ppn vpn eflags st' \/ refused st root r st') /\
    (level = 3 -> (forall i, (1 <= i <= 3)%nat -> invalid_ppn (cache_at st i) = false) ->
     (forall l q f, translate (phys st) root v = Some (l, q, f) -> l = 3 /\ (q = ppn \/ test eflags PAGE_ENTRY_REMAP = true)) ->
     r = REND_SUCCESS).
Proof. apply map_effect; done. Qed.

(** C6 [unmap] removes the translation of exactly the pages the entry covered,
    gives back its frame number and flushes on all cores; a page in the middle of
    a 2 MB entry, or a page that is not mapped, is an error that changes no
    translation.  No frame is freed. *)
Theorem unmap_spec vs vpn a st (root := vspace_root_addr vs) (v := VADDR vpn) :
  map_inv w st root -> vpn <> 0 ->
  exists r st', unmap w (Some vs) vpn a st = (r, st') /\ map_inv w st' root /\ vlock st' = false /\ frs st' = frs st /\
    match translate (phys st) root v with
    | Some (l, q, _) =>
      if large_unaligned l vpn then r = - E_RENDEZVOS /\ forall v', translate (phys st') root v' = translate (phys st) root v'
      else r = q /\ last (tlb st') = Some (flush_op vs v false) /\
           forall v', translate (phys st') root v' = if decide (covers l v v') then None else translate (phys st) root v'
    | None => (r = - E_RENDEZVOS \/ r = - E_REND_NOFOUND) /\ forall v', translate (phys st') root v' = translate (phys st) root v'
    end.
Proof. apply unmap_effect; done. Qed.

(** [have_mapped] answers what the hardware's walk would: frame, flags and
    level, or not found; it changes no memory.  With [pin] it also takes one
    reference on the frame it returns, and on no other; if it cannot it returns
    an error and takes none. *)
Theorem have_mapped_spec vs vpn pin st (root := vspace_root_addr vs) (v := VADDR vpn) : map_inv w st root -> vpn <> 0 ->
  exists ppn flags level st', have_mapped w (Some vs) vpn pin st = (ppn, flags, level, st') /\
    map_inv w st' root /\ vlock st' = false /\ phys st' = phys st /\ looked_up w st root v pin ppn flags level (frs st').
Proof. apply have_mapped_effect; done. Qed.

(** A page mapped at level 3 where nothing was mapped is found by
    [have_mapped], and [unmap] returns its frame and restores every translation. *)
Theorem map_unmap_roundtrip vs ppn vpn eflags a st st1 (root := vspace_root_addr vs) (v := VADDR vpn) :
  map_inv w st root -> h_pmm (hd st) = true -> 0 <= ppn < 2 ^ (w - 12) -> vpn <> 0 -> test eflags PAGE_ENTRY_VALID = true ->
  translate (phys st) root v = None -> map w (Some vs) ppn vpn 3 eflags st = (REND_SUCCESS, st1) ->
  (exists st2, have_mapped w (Some vs) vpn false st1 = (ppn, mapped_flags 3 eflags, 3, st2)) /\
  (exists st2, unmap w (Some vs) vpn a st1 = (ppn, st2) /\ forall v', translate (phys st2) root v' = translate (phys st) root v').
Proof.
  intros I Hh Hp Hvp Hv HT E.
  destruct (map_effect w Hw vs ppn vpn 3 eflags st I Hh ltac:(by right) Hp Hvp Hv ltac:(done)) as (r & st' & E' & I1 & _ & O & _).
  rewrite E in E'. simplify_eq. destruct O as [[_ [M _ _]]|[[?|?] _]]; [|done..].
  assert (HT1 : translate (phys st') root v = Some (3, ppn, mapped_flags 3 eflags)) by (rewrite M; by rewrite decide_True).
  split.
  - destruct (have_mapped_effect w Hw vs vpn false st' I1 Hvp) as (p1 & f1 & l1 & st2 & E2 & _ & _ & _ & L). exists st2.
    unfold looked_up in L. fold root v in L. rewrite HT1 in L. destruct L as [L _]. simplify_eq. done.
  - destruct (unmap_effect w Hw vs vpn a st' I1 Hvp) as (r2 & st2 & E2 & _ & _ & _ & U). fold root v in U. rewrite HT1 in U.
    cbn in U. destruct U as (-> & _ & U). exists st2. split; [done|]. intros v'. rewrite U, M.
    unfold covers. change (S (Z.to_nat 3)) with 4%nat. fold v. destruct (decide (pre 4 v' = pre 4 v)) as [Hc|Hc]; [|done]. by rewrite (translate_pre _ _ v' v Hc).
Qed.
End Theorems.

(** ** An address space with an empty root *)

Definition boot_vs : VSpace := mk_vspace 7 true true false 4096.
Definition boot_handler : map_handler :=
  mk_handler 0 [map_pages_base; map_pages_base + 4096; map_pages_base + 8192; map_pages_base + 12288] [2; 3; 4; 5] (replicate 4 (- E_REND_NOFOUND)) true.
Definition boot_state : mapst (gmap Z Z) :=
  mk_mst boot_handler (fun _ => 0) (fun _ => 0) {[1 := 1; 2 := 1; 3 := 1; 4 := 1; 5 := 1]} [] false.

Lemma empty_entry t k v : entry_at (fun _ => 0) t k v = 0.
Proof. apply load64_zero. done. Qed.
Lemma empty_tab root v k : tab (fun _ => 0) root v (S k) = None.
Proof.
  induction k as [|k IH]; rewrite tab_S; [|by rewrite IH]. cbn [tab]. cbv zeta. by rewrite empty_entry, is_valid_0.
Qed.
Lemma empty_translate root v : translate (fun _ => 0) root v = None.
Proof. unfold translate, leaf. by rewrite !empty_tab. Qed.

Lemma boot_inv : map_inv 36 boot_state 4096.
Proof.
  assert (T : forall j v t, tab (fun _ => 0) 4096 v j = Some t -> j = 0%nat /\ t = 4096).
  { intros [|j] v t H; [by injection H|]. by rewrite empty_tab in H. }
  assert (C : forall i, (i < 4)%nat -> cache_at boot_state i = Z.of_nat i + 2).
  { intros i Hi. assert (Hc : i = 0%nat \/ i = 1%nat \/ i = 2%nat \/ i = 3%nat) by lia. by destruct Hc as [-> | [-> | [-> | ->]]]. }
  constructor.
  - constructor; [done| |done|done|].
    + intros i Hi. assert (Hc : i = 0%nat \/ i = 1%nat \/ i = 2%nat \/ i = 3%nat) by lia. by destruct Hc as [-> | [-> | [-> | ->]]].
    + intros i q Hi Hq H0. assert (Hc : i = 0%nat \/ i = 1%nat \/ i = 2%nat \/ i = 3%nat) by lia. exfalso.
      destruct Hc as [-> | [-> | [-> | ->]]]; vm_compute in Hq; subst q; by apply H0.
  - constructor; [done|done| | |].
    + intros j k v v' t _ _ H1 H2. apply T in H1 as [-> _]. by apply T in H2 as [-> _].
    + intros v. unfold leaf. change (phys boot_state) with (fun _ : Z => 0). by rewrite (empty_tab 4096 v 0).
    + intros v t H. by apply T in H as [? _].
  - intros j v t _ H. by apply T in H as [-> ->].
  - intros j v t _ H. by apply T in H as [-> ->].
  - intros i Hi. right. rewrite C by done. split; [lia|]. split.
    + assert (Hc : i = 0%nat \/ i = 1%nat \/ i = 2%nat \/ i = 3%nat) by lia. by destruct Hc as [-> | [-> | [-> | ->]]].
    + intros j v _ H. apply T in H as [_ ?]. lia.
  - intros i j Hi Hj E _. rewrite !C in E by done. lia.
Qed.

Definition user_flags : Z := Z.lor PAGE_ENTRY_VALID (Z.lor PAGE_ENTRY_READ (Z.lor PAGE_ENTRY_WRITE PAGE_ENTRY_USER)).

Lemma refused_success (st st' : mapst (gmap Z Z)) root : refused st root REND_SUCCESS st' -> False.
Proof. intros [[H|H] _]; discriminate. Qed.

Lemma map_spec_witness : exists st', map 36 (Some boot_vs) 9 0x400 3 user_flags boot_state = (REND_SUCCESS, st') /\
  translate (phys st') 4096 0x400000 = Some (3, 9, mapped_flags 3 user_flags).
Proof.
  destruct (map_spec 36 ltac:(lia) boot_vs 9 0x400 3 user_flags boot_state boot_inv eq_refl ltac:(by right) ltac:(lia) ltac:(done) eq_refl ltac:(done))
    as (r & st' & E & _ & _ & O & S).
  assert (r = REND_SUCCESS) as ->.
  { apply S; [done| |].
    - intros i Hi. assert (Hc : i = 1%nat \/ i = 2%nat \/ i = 3%nat) by lia. by destruct Hc as [-> | [-> | ->]].
    - intros l q f H. pose proof (eq_trans (eq_sym (empty_translate 4096 (VADDR 0x400))) H). done. }
  exists st'. split; [exact E|]. destruct O as [[_ M]|R]; [|exact (False_ind _ (refused_success _ _ _ R))].
  exact (md_trans _ _ _ _ _ _ _ _ M 0x400000).
Defined.

(** the state after that page is mapped *)
Lemma boot_mapped : exists st1, map 36 (Some boot_vs) 9 0x400 3 user_flags boot_state = (REND_SUCCESS, st1) /\ map_inv 36 st1 4096 /\
  translate (phys st1) 4096 0x400000 = Some (3, 9, mapped_flags 3 user_flags).
Proof.
  destruct (map_effect 36 ltac:(lia) boot_vs 9 0x400 3 user_flags boot_state boot_inv eq_refl ltac:(by right) ltac:(lia) ltac:(done) eq_refl ltac:(done))
    as (r & st' & E & I & _ & O & S).
  assert (r = REND_SUCCESS) as ->.
  { apply S; [done| |].
    - intros i Hi. assert (Hc : i = 1%nat \/ i = 2%nat \/ i = 3%nat) by lia. by destruct Hc as [-> | [-> | ->]].
    - intros l q f H. pose proof (eq_trans (eq_sym (empty_translate 4096 (VADDR 0x400))) H). done. }
  exists st'. split; [exact E|]. split; [exact I|]. destruct O as [[_ M]|R]; [|exact (False_ind _ (refused_success _ _ _ R))].
  exact (md_trans _ _ _ _ _ _ _ _ M 0x400000).
Qed.

Lemma unmap_spec_witness : exists st1 st2 : mapst (gmap Z Z), translate (phys st1) 4096 0x400000 = Some (3, 9, mapped_flags 3 user_flags) /\
  unmap 36 (Some boot_vs) 0x400 0 st1 = (9, st2) /\ translate (phys st2) 4096 0x400000 = None.
Proof.
  destruct boot_mapped as (st1 & _ & I & T).
  destruct (unmap_spec 36 ltac:(lia) boot_vs 0x400 0 st1 I ltac:(done)) as (r & st2 & E & _ & _ & _ & U).
  change (VADDR 0x400) with 0x400000 in U. change (vspace_root_addr boot_vs) with 4096 in U. rewrite T in U. destruct U as (-> & _ & U).
  exists st1, st2. split; [exact T|]. split; [exact E|]. exact (U 0x400000).
Defined.

Lemma have_mapped_spec_witness : exists st1 st2 : mapst (gmap Z Z), translate (phys st1) 4096 0x400000 = Some (3, 9, mapped_flags 3 user_flags) /\
  have_mapped 36 (Some boot_vs) 0x400 false st1 = (9, mapped_flags 3 user_flags, 3, st2).
Proof.
  destruct boot_mapped as (st1 & _ & I & T).
  destruct (have_mapped_spec 36 ltac:(lia) boot_vs 0x400 false st1 I ltac:(done)) as (p & f & l & st2 & E & _ & _ & _ & L).
  unfold looked_up in L. change (VADDR 0x400) with 0x400000 in L. change (vspace_root_addr boot_vs) with 4096 in L. rewrite T in L. destruct L as [[= -> -> ->] _].
  exists st1, st2. split; [exact T|exact E].
Defined.

Lemma map_unmap_roundtrip_witness : exists st1 st2 : mapst (gmap Z Z), map 36 (Some boot_vs) 9 0x400 3 user_flags boot_state = (REND_SUCCESS, st1) /\
  unmap 36 (Some boot_vs) 0x400 0 st1 = (9, st2) /\ forall v', translate (phys st2) 4096 v' = None.
Proof.
  destruct boot_mapped as (st1 & E & _).
  destruct (map_unmap_roundtrip 36 ltac:(lia) boot_vs 9 0x400 user_flags 0 boot_state st1 boot_inv eq_refl ltac:(lia) ltac:(done) eq_refl
    (empty_translate 4096 _) E) as [_ (st2 & U & T)].
  exists st1, st2. split; [exact E|]. split; [exact U|]. intros v'. exact (eq_trans (T v') (empty_translate 4096 v')).
Defined.

(** What a page is mapped with is what a walk reads back: permission, user
    and (at level 3) global bits survive the entry; caching is read back as both
    UNCACHED and DEVICE when either was asked for; REMAP, LAZY and COW do not
    reach the entry. *)
Theorem mapped_flags_spec level eflags : level = 2 \/ level = 3 ->
  let f := mapped_flags level eflags in
  Forall (fun b => test f b = test eflags b) [PAGE_ENTRY_VALID; PAGE_ENTRY_WRITE; PAGE_ENTRY_EXEC; PAGE_ENTRY_USER] /\
  test f PAGE_ENTRY_READ = true /\
  test f PAGE_ENTRY_UNCACHED = test eflags PAGE_ENTRY_UNCACHED || test eflags PAGE_ENTRY_DEVICE /\
  test f PAGE_ENTRY_DEVICE = test f PAGE_ENTRY_UNCACHED /\
  test f PAGE_ENTRY_HUGE = (level =? 2) /\
  test f PAGE_ENTRY_GLOBAL = (level =? 2) || test eflags PAGE_ENTRY_GLOBAL /\
  Forall (fun b => test f b = false) [PAGE_ENTRY_REMAP; PAGE_ENTRY_LAZY; PAGE_ENTRY_COW].
Proof.
  intros Hl f.
  set (g := leaf_eflags level eflags).
  set (g' := entry_flags_rm_sw_flags g).
  assert (Hg : forall b, Z.land b (Z.lor PAGE_ENTRY_REMAP (Z.lor PAGE_ENTRY_LAZY PAGE_ENTRY_COW)) = 0 -> Z.land PAGE_ENTRY_HUGE b = 0 -> 0 <= b < 2 ^ 64 -> test g' b = test eflags b).
  { intros b H1 H2 H3. unfold g'. rewrite test_rm_sw by done. unfold g, leaf_eflags. destruct (level =? 2); rewrite ?test_lor by done; by apply test_rm_sw. }
  assert (Hh : level = 2 -> test g' PAGE_ENTRY_HUGE = true).
  { intros ->. unfold g'. rewrite test_rm_sw by done. unfold g, leaf_eflags. change (2 =? 2) with true. cbv iota. by rewrite Z.lor_comm, test_lor'. }
  rewrite !list.Forall_cons. rewrite <- !Hg by (reflexivity || (split; [discriminate|reflexivity])).
  assert (E : forallb (uncurry Bool.eqb)
    [(test f PAGE_ENTRY_VALID, test g' PAGE_ENTRY_VALID); (test f PAGE_ENTRY_WRITE, test g' PAGE_ENTRY_WRITE);
     (test f PAGE_ENTRY_EXEC, test g' PAGE_ENTRY_EXEC); (test f PAGE_ENTRY_USER, test g' PAGE_ENTRY_USER); (test f PAGE_ENTRY_READ, true);
     (test f PAGE_ENTRY_UNCACHED, test g' PAGE_ENTRY_UNCACHED || test g' PAGE_ENTRY_DEVICE); (test f PAGE_ENTRY_DEVICE, test f PAGE_ENTRY_UNCACHED);
     (test f PAGE_ENTRY_HUGE, level =? 2); (test f PAGE_ENTRY_GLOBAL, (level =? 2) || test g' PAGE_ENTRY_GLOBAL);
     (test f PAGE_ENTRY_REMAP, false); (test f PAGE_ENTRY_LAZY, false); (test f PAGE_ENTRY_COW, false)] = true).
  { unfold f, mapped_flags, arch_decode_flags. fold g. fold g'. clearbody g'. clear Hg f g. destruct Hl as [-> | ->].
    - rewrite Hh by done. clear Hh.
      destruct (test g' PAGE_ENTRY_VALID), (test g' PAGE_ENTRY_WRITE), (test g' PAGE_ENTRY_EXEC), (test g' PAGE_ENTRY_USER),
        (test g' PAGE_ENTRY_UNCACHED), (test g' PAGE_ENTRY_DEVICE), (test g' PAGE_ENTRY_GLOBAL); vm_cast_no_check (eq_refl true).
    - clear Hh. destruct (test g' PAGE_ENTRY_HUGE);
      destruct (test g' PAGE_ENTRY_VALID), (test g' PAGE_ENTRY_WRITE), (test g' PAGE_ENTRY_EXEC), (test g' PAGE_ENTRY_USER),
        (test g' PAGE_ENTRY_UNCACHED), (test g' PAGE_ENTRY_DEVICE), (test g' PAGE_ENTRY_GLOBAL); vm_cast_no_check (eq_refl true). }
  clearbody f. cbn [forallb uncurry] in E. rewrite !andb_true_iff, !Bool.eqb_true_iff in E. clear -E.
  destruct E as (E1 & E2 & E3 & E4 & E5 & E6 & E7 & E8 & E9 & E10 & E11 & E12 & _). by split_and!; repeat constructor.
Qed.

(** once the allocator had nothing for slot [i], no later [refill] asks again *)
Lemma refill_gives_up {P : Type} {HF : FrameOps P} (i : nat) (st st' : mapst P) n p :
  (i < length (ppn_cache (hd st)))%nat ->
  cache_at st i = - E_RENDEZVOS -> fr_alloc (frs st) 1 = (- E_REND_NO_MEM, n, p) ->
  cache_at st' i = cache_at (refill i st) i -> refill i st' = st'.
Proof.
  intros Hi Hc Ha H. assert (E : cache_at (refill i st) i = - E_REND_NO_MEM).
  { unfold refill. rewrite Hc, Z.eqb_refl, Ha. unfold cache_at. cbn. by rewrite list_lookup_total_insert_eq. }
  unfold refill. rewrite H, E. done.
Qed.
(** the slot of the window that was given back holds the value of the kernel flag
    PAGE_ENTRY_NONE, whose bit is the present bit: frame 0 stays mapped *)
Lemma unmap_slot_stays_present {P : Type} {HF : FrameOps P} w i (st : mapst P) :
  12 < w <= 52 -> (i < 4)%nat -> vaddr_at st i <> 0 ->
  let st' := map_handler_unmap_slot w (Z.of_nat i) st in
  is_valid 3 (load64 (wtab st') (8 * L3_INDEX (vaddr_at st' i))) = true /\ slot_addr st' i = 0.
Proof.
  intros Hw Hi Hv. unfold map_handler_unmap_slot. rewrite (proj2 (Z.ltb_ge _ _)), (proj2 (Z.leb_gt _ _)) by lia. cbn [orb]. rewrite Nat2Z.id.
  rewrite (proj2 (Z.eqb_neq _ 0) Hv). cbv zeta. unfold slot_addr. cbn [wtab set_mapped set_hd flush set_wtab].
  change (vaddr_at (set_mapped i _ _) i) with (vaddr_at st i). unfold arch_set_L3_entry. rewrite Z.add_0_l, load64_store64_eq.
  destruct (addr_bits w 0 Hw ltac:(lia) eq_refl) as (_ & -> & _). split; reflexivity.
Qed.

Lemma mapped_flags_spec_witness : test (mapped_flags 3 user_flags) PAGE_ENTRY_USER = true /\ test (mapped_flags 3 user_flags) PAGE_ENTRY_GLOBAL = false.
Proof.
  destruct (mapped_flags_spec 3 user_flags ltac:(by right)) as (F & _ & _ & _ & _ & G & _).
  split; [|exact G]. apply list.Forall_cons in F as [_ F]. apply list.Forall_cons in F as [_ F]. apply list.Forall_cons in F as [_ F].
  apply list.Forall_cons in F as [F _]. exact F.
Defined.
