(* ===== verification/MapCopy.v ===== *)
(** * Copies through the window

    [map_handler_copy_data_range]: ranges of physical memory are moved page by
    page through slots 0 and 2 of the mapping window. *)
From S2P Require Import Prelude Mm CString PageTable PageTree KernelPages MapHandler MapInv.

Section Copy.
Context {P : Type} (w : Z) (Hw : 12 < w <= 52).
Implicit Types (st : mapst P) (i j : nat).

(** ** Slots *)

Lemma slot_nonzero st i : win_ok st -> (i < 4)%nat -> vaddr_at st i <> 0.
Proof. intros W Hi. rewrite (wo_vaddr _ W i Hi). pose proof (wo_cpu _ W). unfold map_pages_base. lia. Qed.

Lemma page_base x : 0 <= x < 2 ^ w -> ROUND_DOWN x PAGE_SIZE = x - x mod 4096 /\ PADDR (PPN (ROUND_DOWN x PAGE_SIZE)) = x - x mod 4096.
Proof.
  intros Hx. assert (2 ^ w <= 2 ^ 52) by (apply Z.pow_le_mono_r; lia).
  change PAGE_SIZE with (2 ^ 12). rewrite ROUND_DOWN_spec by lia. change (2 ^ 12) with 4096. split; [done|].
  rewrite PPN_small by dlia. rewrite PADDR_small by dlia. dlia.
Qed.

Lemma map_slot_effect st i ppn : win_ok st -> (i < 4)%nat -> 0 <= ppn < 2 ^ (w - 12) ->
  exists v st', map_handler_map_slot w (Z.of_nat i) ppn st = (v, st') /\ v <> 0 /\ win_ok st' /\ same_frame st st' /\
    slot_addr st' i = ppn * 4096 /\ forall j, (j < 4)%nat -> j <> i -> slot_addr st' j = slot_addr st j.
Proof.
  intros W Hi Hp. assert (E1 : 2 ^ w = 2 ^ (w - 12) * 4096) by (change 4096 with (2 ^ 12); rewrite <- Z.pow_add_r by lia; f_equal; lia).
  assert (E2 : 2 ^ (w - 12) <= 2 ^ 40) by (apply Z.pow_le_mono_r; lia).
  unfold map_handler_map_slot. rewrite (proj2 (Z.ltb_ge _ _)), (proj2 (Z.leb_gt _ _)) by lia. cbn [orb]. rewrite Nat2Z.id.
  rewrite PADDR_small by lia. change (PAGE_SIZE - 1) with (Z.ones 12). rewrite Z.land_ones by lia. change (2 ^ 12) with 4096.
  rewrite Z.mod_mul by lia. cbn [Z.eqb negb]. cbv zeta. rewrite (proj2 (Z.eqb_neq _ 0) (slot_nonzero _ _ W Hi)).
  destruct (util_map_effect w Hw st (ppn * 4096) i W Hi ltac:(lia) ltac:(apply Z.mod_mul; lia)) as (W' & S & H1 & H2).
  eexists _, _. split; [done|]. split; [by apply slot_nonzero|]. done.
Qed.

Lemma unmap_slot_effect st i (st' := map_handler_unmap_slot w (Z.of_nat i) st) : win_ok st -> (i < 4)%nat ->
  win_ok st' /\ same_frame st st'.
Proof.
  intros W Hi. unfold st', map_handler_unmap_slot. rewrite (proj2 (Z.ltb_ge _ _)), (proj2 (Z.leb_gt _ _)) by lia. cbn [orb]. rewrite Nat2Z.id.
  rewrite (proj2 (Z.eqb_neq _ 0) (slot_nonzero _ _ W Hi)). cbv zeta. split; [|done].
  destruct W as [W1 W2 W3 W4 W5]. constructor; [done|exact W2| | |].
  - cbn. by rewrite length_insert.
  - by apply store64_byte_mem.
  - intros j q Hj Hq H0. cbn in Hq. destruct (decide (j = i)) as [->|Hji].
    + rewrite list_lookup_total_insert_eq in Hq by lia. subst q. by destruct H0.
    + rewrite list_lookup_total_insert_ne in Hq by done. rewrite <- (W5 j q Hj Hq H0). unfold slot_addr. cbn [wtab set_mapped set_hd flush set_wtab].
      change (vaddr_at (set_mapped i _ _) j) with (vaddr_at st j). f_equal. unfold arch_set_L3_entry.
      rewrite load64_store64_ne; [done|]. rewrite !W2, !window_index by lia. lia.
Qed.

(** ** Copies *)

(** one round: the window is used and left clean, [chunk] bytes are copied *)
Lemma copy_round_effect dst src chunk st : win_ok st -> byte_mem (phys st) ->
  0 < chunk -> 0 <= dst < 2 ^ w -> 0 <= src < 2 ^ w -> dst mod 4096 + chunk <= 4096 -> src mod 4096 + chunk <= 4096 -> disjoint dst src chunk ->
  exists st', copy_round w dst src chunk st = (true, st') /\ win_ok st' /\ frs st' = frs st /\ vlock st' = vlock st /\
    ppn_cache (hd st') = ppn_cache (hd st) /\ copied (phys st) (phys st') dst src chunk.
Proof.
  intros W B Hc Hd Hs Hd2 Hs2 Hdis. assert (2 ^ w <= 2 ^ 52) by (apply Z.pow_le_mono_r; lia).
  assert (E1 : 2 ^ w = 2 ^ (w - 12) * 4096) by (change 4096 with (2 ^ 12); rewrite <- Z.pow_add_r by lia; f_equal; lia).
  unfold copy_round. destruct (page_base dst Hd) as [-> _], (page_base src Hs) as [-> _].
  rewrite !PPN_small by dlia. set (pd := (dst - dst mod 4096) / 4096). set (ps := (src - src mod 4096) / 4096).
  destruct (map_slot_effect st 0 pd W ltac:(lia) ltac:(unfold pd; dlia)) as (v0 & s0 & E0 & N0 & W0 & S0 & A0 & _). change (Z.of_nat 0) with 0 in E0. rewrite E0.
  destruct (map_slot_effect s0 2 ps W0 ltac:(lia) ltac:(unfold ps; dlia)) as (v2 & s2 & E2 & N2 & W2 & S2 & A2 & K2). change (Z.of_nat 2) with 2 in E2. rewrite E2.
  rewrite (proj2 (Z.eqb_neq _ 0) N0), (proj2 (Z.eqb_neq _ 0) N2). cbn [orb].
  rewrite (K2 0%nat), A0, A2 by lia. rewrite (sf_phys _ _ S2), (sf_phys _ _ S0).
  replace (pd * 4096 + (dst - (dst - dst mod 4096))) with dst by (unfold pd; dlia).
  replace (ps * 4096 + (src - (src - src mod 4096))) with src by (unfold ps; dlia).
  set (s3 := set_phys _ s2). assert (W3 : win_ok s3) by (destruct W2; constructor; done).
  unfold unmap_both. destruct (unmap_slot_effect s3 2 W3 ltac:(lia)) as [W4 S4]. change (Z.of_nat 2) with 2 in *.
  destruct (unmap_slot_effect _ 0 W4 ltac:(lia)) as [W5 S5]. change (Z.of_nat 0) with 0 in *. set (s5 := map_handler_unmap_slot w 0 _) in *.
  exists s5. destruct S0, S2, S4, S5. split; [done|]. split; [done|].
  split; [|split; [|split]]; [by etransitivity; [eassumption|]; etransitivity; [eassumption|]; etransitivity; eassumption..|].
  intros a. rewrite sf_phys2, sf_phys1. exact (proj2 (memcpy_copies dst src chunk (phys st) a B ltac:(dlia) Hdis)).
Qed.

Lemma chunk_bounds dst src len : 0 <= dst < 2 ^ w -> 0 <= src < 2 ^ w -> 0 < len ->
  let c := copy_chunk dst src len in 0 < c <= len /\ dst mod 4096 + c <= 4096 /\ src mod 4096 + c <= 4096.
Proof.
  intros Hd Hs Hl. cbv zeta. unfold copy_chunk. destruct (page_base dst Hd) as [-> _], (page_base src Hs) as [-> _].
  change PAGE_SIZE with 4096. pose proof (Z.mod_pos_bound dst 4096 ltac:(lia)). pose proof (Z.mod_pos_bound src 4096 ltac:(lia)).
  set (a := dst mod 4096) in *. set (b := src mod 4096) in *. clearbody a b. destruct (Z.ltb_spec (4096 - (dst - (dst - a))) (4096 - (src - (src - b)))); case_bool.
Qed.

Lemma copy_loop_effect fuel dst src len st : win_ok st -> byte_mem (phys st) ->
  0 <= len -> 0 <= dst -> dst + len <= 2 ^ w -> 0 <= src -> src + len <= 2 ^ w -> disjoint dst src len -> (Z.to_nat len <= fuel)%nat ->
  exists st', copy_loop w dst src len fuel st = Some (REND_SUCCESS, st') /\ win_ok st' /\ frs st' = frs st /\ vlock st' = vlock st /\
    ppn_cache (hd st') = ppn_cache (hd st) /\ copied (phys st) (phys st') dst src len.
Proof.
  assert (2 ^ w <= 2 ^ 52) by (apply Z.pow_le_mono_r; lia).
  revert dst src len st. induction fuel as [|fuel IH]; intros dst src len st W B H0 Hd Hd2 Hs Hs2 Hdis Hf.
  - assert (len = 0) as -> by lia. exists st. cbn. split_and!; [done..|apply copied_0].
  - cbn [copy_loop]. destruct (Z.eqb_spec len 0) as [->|Hn]; [exists st; split_and!; [done..|apply copied_0]|]. cbv zeta.
    destruct (chunk_bounds dst src len ltac:(lia) ltac:(lia) ltac:(lia)) as (C1 & C2 & C3). set (c := copy_chunk dst src len) in *.
    assert (Hdc : disjoint dst src c) by (unfold disjoint in *; lia).
    destruct (copy_round_effect dst src c st W B ltac:(lia) ltac:(lia) ltac:(lia) C2 C3 Hdc) as (s1 & -> & W1 & F1 & V1 & P1 & M1). cbn [negb].
    rewrite !u64_small by lia.
    destruct (IH (dst + c) (src + c) (len - c) s1 W1 (copied_byte_mem _ _ _ _ _ B M1) ltac:(lia) ltac:(lia) ltac:(lia) ltac:(lia) ltac:(lia)
      ltac:(unfold disjoint in *; lia) ltac:(lia)) as (s2 & E2 & W2 & F2 & V2 & P2 & M2).
    exists s2. split; [exact E2|]. split; [done|]. split; [congruence|]. split; [congruence|]. split; [congruence|].
    replace len with (c + (len - c)) by lia. apply (copied_trans _ (phys s1)); [lia|lia|by replace (c + (len - c)) with len by lia|done|done].
Qed.
End Copy.

Section Theorems.
Context {P : Type} (w : Z) (Hw : 12 < w <= 52).

(** Copying a range between physical addresses, whatever the two page
    offsets: it ends, with one unit of fuel per byte at most, and moves exactly
    the bytes of the range; the window is left clean and no frame changes hands. *)
Theorem copy_data_range_spec dst src len fuel (st : mapst P) :
  win_ok st -> byte_mem (phys st) -> 0 < len -> 0 <= dst -> dst + len <= 2 ^ w -> 0 <= src -> src + len <= 2 ^ w ->
  disjoint dst src len -> (Z.to_nat len <= fuel)%nat ->
  exists st', map_handler_copy_data_range w dst src len fuel st = Some (REND_SUCCESS, st') /\ win_ok st' /\ frs st' = frs st /\
    forall a, phys st' a = if (dst <=? a) && (a <? dst + len) then phys st (src + (a - dst)) else phys st a.
Proof.
  intros W B Hl Hd Hd2 Hs Hs2 Hdis Hf. unfold map_handler_copy_data_range. rewrite (proj2 (Z.eqb_neq len 0)) by lia.
  destruct (copy_loop_effect w Hw fuel dst src len st W B ltac:(lia) Hd Hd2 Hs Hs2 Hdis Hf) as (st' & E & W' & F & _ & _ & M). by exists st'.
Qed.
End Theorems.

(** three bytes across a page boundary *)
Definition copy_state : mapst unit :=
  mk_mst (mk_handler 3 [map_pages_base + 12 * 4096; map_pages_base + 13 * 4096; map_pages_base + 14 * 4096; map_pages_base + 15 * 4096]
            (replicate 4 (- E_RENDEZVOS)) (replicate 4 (- E_REND_NOFOUND)) true)
         (fun a => a mod 256) (fun _ => 0) tt [] false.
Lemma copy_state_window : win_ok copy_state.
Proof.
  constructor; [done| |done|done|].
  - intros i Hi. assert (Hc : i = 0%nat \/ i = 1%nat \/ i = 2%nat \/ i = 3%nat) by lia. by destruct Hc as [-> | [-> | [-> | ->]]].
  - intros i q Hi Hq H0. assert (Hc : i = 0%nat \/ i = 1%nat \/ i = 2%nat \/ i = 3%nat) by lia. exfalso.
    destruct Hc as [-> | [-> | [-> | ->]]]; vm_compute in Hq; subst q; by apply H0.
Qed.

Lemma copy_data_range_spec_witness : exists st' : mapst unit,
  map_handler_copy_data_range 36 8190 4099 3 3 copy_state = Some (REND_SUCCESS, st') /\ phys st' 8192 = 5.
Proof.
  destruct (copy_data_range_spec 36 ltac:(lia) 8190 4099 3 3 copy_state copy_state_window) as (st' & E & _ & _ & M);
    [intros a; apply Z.mod_pos_bound; lia|lia|lia|lia|lia|lia|right; lia|lia|].
  exists st'. split; [exact E|]. exact (M 8192).
Defined.
