(* ===== verification/RadixTree.v ===== *)
(** * The radix tree of an address space: entries, walks, range locks

    [kernel/mm/vmm_radix_tree.c] up to [radix_range_lock_release].  [ents] are
    the words of the L0 to L2 tables and [nodes] the L3 nodes, both by address;
    [rmaps] is the rmap list of each page.  Frames and page tables are reached
    through [RadixEnv].  A result [None] is a call that does not return: a lock
    bit nobody releases, or an access through NULL. *)
From S2P Require Import Prelude Mm TaggedPtr Pmm KernelPages.

Definition VMM_RADIX_ENTRY_LOCK_MASK : Z := Z.shiftl 1 0.
Definition VMM_RADIX_ENTRY_VALID_MASK : Z := Z.shiftl 1 1.
Definition VMM_RADIX_ENTRY_HUGE_MASK : Z := Z.shiftl 1 11.
Definition VMM_RADIX_CNT_SHIFT : Z := 2.
Definition VMM_RADIX_CNT_MASK : Z := Z.shiftl 0x3ff VMM_RADIX_CNT_SHIFT.
Definition VMM_RADIX_PTR_MASK : Z := 0xfffffffffffff000.
Definition RADIX_COUNT_PER_PAGE : Z := 512.
Definition RADIX_TREE_LEVEL0 : Z := 0.
Definition RADIX_TREE_LEVEL1 : Z := 1.
Definition RADIX_TREE_LEVEL2 : Z := 2.
Definition RADIX_TREE_DIRECTION_INC : Z := 1.
Definition RADIX_TREE_DIRECTION_DEC : Z := -1.
Definition RADIX_KERNEL_MAP_FLAGS : Z :=
  Z.lor PAGE_ENTRY_GLOBAL (Z.lor PAGE_ENTRY_READ (Z.lor PAGE_ENTRY_VALID PAGE_ENTRY_WRITE)).

(** [rmap_list]: the page whose list the node is on *)
Record Radix_node_t := mk_rnode { flags : Z; rmap_list : option Z; owner : Z }.

Class RadixEnv (E : Type) := {
  re_alloc : E -> Z -> Z * Z * E;              (* pmm->pmm_alloc: ppn, pages *)
  re_free : E -> Z -> Z -> Z * E;              (* pmm->pmm_free *)
  re_map : E -> Z -> Z -> Z -> Z -> Z * E;     (* map: ppn, vpn, level, flags *)
  re_unmap : E -> Z -> Z * E;                  (* unmap *)
  re_have_mapped : E -> Z -> Z * E             (* have_mapped without pin *)
}.

(** the fields of [VSpace] and [struct pmm] the tree reads *)
Record rspace := mk_rspace { rv_pmm : bool; rv_zone : option MemZone }.

Record rst (E : Type) := mk_rst {
  ents : Z -> Z;
  nodes : Z -> Radix_node_t;
  rmaps : Z -> list Z;
  renv : E;
  root_radix : Z;
  kernel_radix_l1_table_base_ppn : Z
}.
Arguments mk_rst {E}.
Arguments ents {E}.
Arguments nodes {E}.
Arguments rmaps {E}.
Arguments renv {E}.
Arguments root_radix {E}.
Arguments kernel_radix_l1_table_base_ppn {E}.

(** ** Entries *)

Definition test_bits (x bits : Z) : bool := negb (Z.land x bits =? 0).

Definition entry_child (value : Z) : Z := Z.land value VMM_RADIX_PTR_MASK.
Definition entry_valid (value : Z) : bool := test_bits value VMM_RADIX_ENTRY_VALID_MASK.
Definition entry_get_count (entry_bits : Z) : Z :=
  if test_bits entry_bits VMM_RADIX_ENTRY_HUGE_MASK then RADIX_COUNT_PER_PAGE
  else Z.shiftr (Z.land entry_bits VMM_RADIX_CNT_MASK) VMM_RADIX_CNT_SHIFT.
Definition entry_set_count (count entry_bits : Z) : Z :=
  let entry_bits := clear_mask_u64 entry_bits (Z.lor VMM_RADIX_CNT_MASK VMM_RADIX_ENTRY_HUGE_MASK) in
  let count := if count <? RADIX_COUNT_PER_PAGE then count else RADIX_COUNT_PER_PAGE in
  Z.lor entry_bits (Z.land (u64 (Z.shiftl count VMM_RADIX_CNT_SHIFT)) VMM_RADIX_CNT_MASK).

Definition FLAG_INHERIT_LOCK : Z := Z.shiftl 1 0.
Definition FLAG_VALID_SET : Z := Z.shiftl 1 1.
Definition FLAG_VALID_CLEAR : Z := Z.shiftl 1 2.
Definition FLAG_COUNT_DELTA : Z := Z.shiftl 1 3.
Definition FLAG_COUNT_RESET : Z := Z.shiftl 1 4.
Definition FLAG_UPDATE_PTR : Z := Z.shiftl 1 5.
Definition FLAG_CLEAR_PTR : Z := Z.shiftl 1 6.

(** the error and the word the entry then holds *)
Definition radix_entry_update (value update_flags update_page_addr count_delta : Z) : Z * Z :=
  let old := value in
  let has f := test_bits update_flags f in
  if has FLAG_VALID_SET && has FLAG_VALID_CLEAR then (- E_IN_PARAM, old)
  else if has FLAG_UPDATE_PTR && (update_page_addr =? 0) then (- E_IN_PARAM, old)
  else if has FLAG_CLEAR_PTR && negb (update_page_addr =? 0) then (- E_IN_PARAM, old)
  else if has FLAG_CLEAR_PTR && has FLAG_UPDATE_PTR then (- E_IN_PARAM, old)
  else
    let value := if has FLAG_UPDATE_PTR
                 then Z.lor (clear_mask_u64 value VMM_RADIX_PTR_MASK) (Z.land update_page_addr VMM_RADIX_PTR_MASK) else value in
    let value := if has FLAG_CLEAR_PTR then clear_mask_u64 value VMM_RADIX_PTR_MASK else value in
    let delta := has FLAG_COUNT_DELTA && negb (has FLAG_CLEAR_PTR) in
    let reset := has FLAG_COUNT_RESET || has FLAG_CLEAR_PTR in
    let value := if has FLAG_VALID_SET then Z.lor value VMM_RADIX_ENTRY_VALID_MASK
                 else if has FLAG_VALID_CLEAR then clear_mask_u64 value VMM_RADIX_ENTRY_VALID_MASK else value in
    let inherit v := if has FLAG_INHERIT_LOCK
                     then set_mask_u64 (clear_mask_u64 v VMM_RADIX_ENTRY_LOCK_MASK) VMM_RADIX_ENTRY_LOCK_MASK else v in
    if reset then (REND_SUCCESS, inherit (entry_set_count 0 value))
    else if delta then
      let get_count := entry_get_count value in
      if 0 <? count_delta then
        if RADIX_COUNT_PER_PAGE <? count_delta then (- E_REND_OVERFLOW, old)
        else (REND_SUCCESS, inherit (entry_set_count (u64 (get_count + count_delta)) value))
      else if count_delta <? 0 then
        if get_count <? - count_delta then (- E_REND_OVERFLOW, old)
        else (REND_SUCCESS, inherit (entry_set_count (get_count - - count_delta) value))
      else (REND_SUCCESS, inherit (entry_set_count get_count value))
    else (REND_SUCCESS, inherit value).

Definition radix_node_clear : Radix_node_t := mk_rnode 0 None tp_new_none.

Definition radix_l3_overlap_insert (node : Radix_node_t) : bool :=
  test_bits (flags node) (Z.lor PAGE_ENTRY_VALID PAGE_ENTRY_LAZY) || negb (tp_is_none (owner node)).
Definition radix_l3_undeletable (node : Radix_node_t) : bool := test_bits (flags node) PAGE_ENTRY_VALID.

(** ** Addresses of entries; 0 is NULL *)

Definition radix_l0_entry (root va : Z) : Z := root + 8 * L0_INDEX va.
Definition radix_l1_entry (m : Z -> Z) (l0_entry va : Z) : Z :=
  let l1_table := entry_child (m l0_entry) in if l1_table =? 0 then 0 else l1_table + 8 * L1_INDEX va.
Definition radix_l2_entry (m : Z -> Z) (l1_entry va : Z) : Z :=
  let l2_table := entry_child (m l1_entry) in if l2_table =? 0 then 0 else l2_table + 8 * L2_INDEX va.
Definition radix_l3_node (m : Z -> Z) (l2_entry va : Z) : Z :=
  let l3_node := entry_child (m l2_entry) in if l3_node =? 0 then 0 else l3_node + 32 * L3_INDEX va.

(** ** Walks *)

Record walk := mk_walk {
  wk_root : Z;
  range_start_vaddr : Z;
  range_end_vaddr : Z;
  direction : Z;
  walk_level : Z;
  current_vaddr : Z;
  curr_l0_entry : Z;
  curr_l1_entry : Z;
  curr_l2_entry : Z;
  curr_l3_node : Z
}.
Definition set_direction (d : Z) (w : walk) : walk :=
  mk_walk (wk_root w) (range_start_vaddr w) (range_end_vaddr w) d (walk_level w) (current_vaddr w)
          (curr_l0_entry w) (curr_l1_entry w) (curr_l2_entry w) (curr_l3_node w).

(** the entries on the way to [va], down to [level] *)
Definition walk_path (m : Z -> Z) (root va level : Z) : Z * Z * Z * Z :=
  let l0 := radix_l0_entry root va in
  let l1 := if (1 <=? level) && negb (l0 =? 0) then radix_l1_entry m l0 va else 0 in
  let l2 := if (2 <=? level) && negb (l1 =? 0) then radix_l2_entry m l1 va else 0 in
  let l3 := if (3 <=? level) && negb (l2 =? 0) then radix_l3_node m l2 va else 0 in
  (l0, l1, l2, l3).
Definition radix_tree_level_walk_init (m : Z -> Z) (root range_start_vaddr range_end_vaddr level direction : Z) : walk :=
  let at_ va :=
    let '(l0, l1, l2, l3) := walk_path m root va level in
    mk_walk root range_start_vaddr range_end_vaddr direction level va l0 l1 l2 l3 in
  if direction =? RADIX_TREE_DIRECTION_INC then at_ range_start_vaddr
  else
    let start_addr := ROUND_DOWN (u64 (range_end_vaddr - 1)) (get_gran_from_level level) in
    if negb ((range_start_vaddr <=? start_addr) && (start_addr <? range_end_vaddr))
    then mk_walk root range_start_vaddr range_end_vaddr direction level 0 0 0 0 0
    else at_ start_addr.

Definition radix_tree_level_walk_check (w : walk) : bool :=
  negb (wk_root w =? 0)
  && ((direction w =? RADIX_TREE_DIRECTION_INC) || (direction w =? RADIX_TREE_DIRECTION_DEC))
  && ((0 <=? walk_level w) && (walk_level w <=? 3))
  && (range_start_vaddr w <=? range_end_vaddr w)
  && ((range_start_vaddr w <=? current_vaddr w) && (current_vaddr w <? range_end_vaddr w)).

(** the next position, [None] at the bound or where a table is missing *)
Definition radix_tree_level_walk (m : Z -> Z) (w : walk) : option walk :=
  let level := walk_level w in
  let cur := current_vaddr w in
  let step := get_gran_from_level level in
  if step =? 0 then None
  else
    let next := u64 (cur + step * direction w) in
    let out := if direction w =? RADIX_TREE_DIRECTION_INC
               then (range_end_vaddr w <=? next) || (next <? cur)
               else if direction w =? RADIX_TREE_DIRECTION_DEC then (next <? range_start_vaddr w) || (cur <? next)
               else false in
    if out then None
    else
      let bound512 := negb (L0_INDEX cur =? L0_INDEX next) in
      let bound1g := negb (L1_INDEX cur =? L1_INDEX next) in
      let bound2m := negb (L2_INDEX cur =? L2_INDEX next) in
      let l0 := if (level =? 0) || bound512 then radix_l0_entry (wk_root w) next else curr_l0_entry w in
      let mk l0 l1 l2 l3 := Some (mk_walk (wk_root w) (range_start_vaddr w) (range_end_vaddr w) (direction w) level next l0 l1 l2 l3) in
      if ((level =? 0) || bound512) && (l0 =? 0) then None
      else if level =? 0 then mk l0 (curr_l1_entry w) (curr_l2_entry w) (curr_l3_node w)
      else
        let new1 := (level =? 1) || bound1g || bound512 in
        let base_l0 := if bound512 || (level =? 1) then l0 else curr_l0_entry w in
        let l1 := if new1 then (if base_l0 =? 0 then 0 else radix_l1_entry m base_l0 next) else curr_l1_entry w in
        if new1 && (l1 =? 0) then None
        else if level =? 1 then mk l0 l1 (curr_l2_entry w) (curr_l3_node w)
        else
          let new2 := (level =? 2) || bound2m || bound1g || bound512 in
          let base_l1 := if bound1g || bound512 || (level =? 2) then l1 else curr_l1_entry w in
          let l2 := if new2 then (if base_l1 =? 0 then 0 else radix_l2_entry m base_l1 next) else curr_l2_entry w in
          if new2 && (l2 =? 0) then None
          else if level =? 2 then mk l0 l1 l2 (curr_l3_node w)
          else if negb bound2m && negb bound1g && negb bound512 && negb (curr_l2_entry w =? 0)
          then mk l0 l1 l2 (curr_l3_node w + 32 * (L3_INDEX next - L3_INDEX cur))
          else
            let base_l2 := if bound2m || bound1g || bound512 then l2 else curr_l2_entry w in
            let l3 := if base_l2 =? 0 then 0 else radix_l3_node m base_l2 next in
            if l3 =? 0 then None else mk l0 l1 l2 l3.

Definition radix_tree_walk_is_level_first (w : walk) (level : Z) : bool :=
  let step := get_gran_from_level level in
  if step =? 0 then false else ROUND_DOWN (current_vaddr w) step =? ROUND_DOWN (range_start_vaddr w) step.
Definition radix_tree_walk_is_level_last (w : walk) (level : Z) : bool :=
  let step := get_gran_from_level level in
  if step =? 0 then false else ROUND_DOWN (current_vaddr w) step =? ROUND_DOWN (u64 (range_end_vaddr w - 1)) step.
Definition radix_tree_walk_is_level_single (w : walk) (level : Z) : bool :=
  let step := get_gran_from_level level in
  if step =? 0 then false else ROUND_DOWN (range_start_vaddr w) step =? ROUND_DOWN (u64 (range_end_vaddr w - 1)) step.

Section Tree.
Context {E : Type} `{RadixEnv E}.
Implicit Types (st : rst E) (w : walk).

Definition set_ents (m : Z -> Z) st : rst E := mk_rst m (nodes st) (rmaps st) (renv st) (root_radix st) (kernel_radix_l1_table_base_ppn st).
Definition set_nodes (n : Z -> Radix_node_t) st : rst E := mk_rst (ents st) n (rmaps st) (renv st) (root_radix st) (kernel_radix_l1_table_base_ppn st).
Definition set_rmaps (r : Z -> list Z) st : rst E := mk_rst (ents st) (nodes st) r (renv st) (root_radix st) (kernel_radix_l1_table_base_ppn st).
Definition set_renv (e : E) st : rst E := mk_rst (ents st) (nodes st) (rmaps st) e (root_radix st) (kernel_radix_l1_table_base_ppn st).
Definition set_root_radix (r : Z) st : rst E := mk_rst (ents st) (nodes st) (rmaps st) (renv st) r (kernel_radix_l1_table_base_ppn st).
Definition set_shared_l1 (p : Z) st : rst E := mk_rst (ents st) (nodes st) (rmaps st) (renv st) (root_radix st) p.

Definition put_entry (a value : Z) st : rst E := set_ents (fun x => if x =? a then value else ents st x) st.
Definition put_node (a : Z) (n : Radix_node_t) st : rst E := set_nodes (fun x => if x =? a then n else nodes st x) st.

(** *** The lock bit *)

Definition radix_entry_lock (entry : Z) st : option (rst E) :=
  if entry =? 0 then None
  else
    let loaded := ents st entry in
    if test_bits loaded VMM_RADIX_ENTRY_LOCK_MASK then None
    else Some (put_entry entry (Z.lor loaded VMM_RADIX_ENTRY_LOCK_MASK) st).
Definition radix_entry_unlock (entry : Z) st : option (rst E) :=
  if entry =? 0 then None
  else Some (put_entry entry (clear_mask_u64 (ents st entry) VMM_RADIX_ENTRY_LOCK_MASK) st).
Definition update_entry (entry update_flags update_page_addr count_delta : Z) st : rst E :=
  put_entry entry (snd (radix_entry_update (ents st entry) update_flags update_page_addr count_delta)) st.

(** *** Tables *)

Fixpoint unmap_table (page_vaddr : Z) (n : nat) (res : Z) (e : E) : Z * E :=
  match n with
  | O => (res, e)
  | S n' =>
    let '(ppn, e) := re_unmap e (VPN page_vaddr) in
    unmap_table (u64 (page_vaddr + PAGE_SIZE)) n' (if invalid_ppn ppn then - E_RENDEZVOS else res) e
  end.
(** [n]: the pages between the two addresses *)
Definition free_radix_table (page_vaddr_start : Z) (n : nat) (free_page_number : Z) (e : E) : Z * E :=
  let '(res, e) := unmap_table page_vaddr_start n REND_SUCCESS e in
  let '(tmpres, e) := re_free e (PPN (KERNEL_VIRT_TO_PHY page_vaddr_start)) free_page_number in
  ((if negb (tmpres =? REND_SUCCESS) then tmpres else res), e).

Definition table_pages (level : Z) : option Z :=
  if (level =? 0) || (level =? 1) || (level =? 2) then Some 1 else if level =? 3 then Some 4 else None.

(** the pages mapped before the first failure *)
Fixpoint map_table (page_vaddr : Z) (n : nat) (mapped : nat) (e : E) : nat * bool * E :=
  match n with
  | O => (mapped, true, e)
  | S n' =>
    let '(r, e) := re_map e (PPN (KERNEL_VIRT_TO_PHY page_vaddr)) (VPN page_vaddr) 3 RADIX_KERNEL_MAP_FLAGS in
    if negb (r =? REND_SUCCESS) then (mapped, false, e) else map_table (u64 (page_vaddr + PAGE_SIZE)) n' (S mapped) e
  end.
Definition clear_table (level start : Z) st : rst E :=
  if level =? 3
  then set_nodes (fun x => if (start <=? x) && (x <? start + 4 * PAGE_SIZE) then radix_node_clear else nodes st x) st
  else set_ents (fun x => if (start <=? x) && (x <? start + PAGE_SIZE) then 0 else ents st x) st.

Definition radix_alloc_level_table (vs : rspace) (level : Z) st : Z * Z * rst E :=
  if negb (rv_pmm vs) then (- E_IN_PARAM, 0, st)
  else
    match table_pages level with
    | None => (- E_IN_PARAM, 0, st)
    | Some need_alloc_pages =>
      let '(ppn, alloced_pages, e) := re_alloc (renv st) need_alloc_pages in
      let st := set_renv e st in
      if invalid_ppn ppn || negb (alloced_pages =? need_alloc_pages) then (- E_RENDEZVOS, 0, st)
      else
        let page_vaddr_start := KERNEL_PHY_TO_VIRT (PADDR ppn) in
        let '(mapped, ok, e) := map_table page_vaddr_start (Z.to_nat need_alloc_pages) 0 (renv st) in
        let st := set_renv e st in
        if negb ok then
          (- E_RENDEZVOS, 0, set_renv (snd (free_radix_table page_vaddr_start mapped need_alloc_pages (renv st))) st)
        else (REND_SUCCESS, page_vaddr_start, clear_table level page_vaddr_start st)
    end.

Definition free_level_table (vs : rspace) (page_vaddr level : Z) st : Z * rst E :=
  if negb (rv_pmm vs) then (- E_IN_PARAM, st)
  else
    match table_pages level with
    | None => (- E_IN_PARAM, st)
    | Some n => let '(r, e) := free_radix_table page_vaddr (Z.to_nat n) n (renv st) in (r, set_renv e st)
    end.

(** ** Loops over a walk *)

(** [do body while (radix_tree_level_walk)]: the first error of the body, the
    walk where it stopped *)
Fixpoint walk_loop (body : walk -> rst E -> option (Z * rst E)) (fuel : nat) (w : walk) st : option (Z * walk * rst E) :=
  match fuel with
  | O => None
  | S fuel' =>
    '(err, st) ← body w st;
    if negb (err =? REND_SUCCESS) then Some (err, w, st)
    else
      match radix_tree_level_walk (ents st) w with
      | None => Some (REND_SUCCESS, w, st)
      | Some w => walk_loop body fuel' w st
      end
  end.
(** [while (radix_tree_level_walk) body] *)
Fixpoint walk_while (body : walk -> rst E -> option (rst E)) (fuel : nat) (w : walk) st : option (walk * rst E) :=
  match fuel with
  | O => None
  | S fuel' =>
    match radix_tree_level_walk (ents st) w with
    | None => Some (w, st)
    | Some w => st ← body w st; walk_while body fuel' w st
    end
  end.
Definition no_error (body : walk -> rst E -> option (rst E)) (w : walk) st : option (Z * rst E) :=
  st ← body w st; Some (REND_SUCCESS, st).

(** ** Counts passed to the parent *)

Definition radix_parent_count_delta (kind : Z) w (partition_level head_delta tail_delta : Z) : Z :=
  if radix_tree_walk_is_level_single w partition_level || radix_tree_walk_is_level_first w partition_level then head_delta
  else if radix_tree_walk_is_level_last w partition_level then tail_delta
  else if kind =? RADIX_RL_INSERT then RADIX_COUNT_PER_PAGE else - RADIX_COUNT_PER_PAGE.

(** whether the parent level may be skipped, head and tail deltas *)
Definition radix_count_trans_to_parent (kind : Z) w (partition_level old_count delta head tail : Z) : bool * Z * Z :=
  let insert_should_trans := (kind =? RADIX_RL_INSERT) && (old_count =? 0) && negb (delta =? 0) in
  let delete_should_trans := (kind =? RADIX_RL_DELETE) && negb (old_count =? 0) && (old_count + delta =? 0) in
  let step x := if insert_should_trans then x + 1 else if delete_should_trans then x - 1 else x in
  if radix_tree_walk_is_level_single w partition_level then
    (negb insert_should_trans && negb delete_should_trans, step head, tail)
  else if radix_tree_walk_is_level_first w partition_level then (false, step head, tail)
  else if radix_tree_walk_is_level_last w partition_level then (false, head, step tail)
  else (false, head, tail).

(** ** Range locks *)

Definition radix_lock_rollback_entry (vs : rspace) (kind : Z) w st : option (rst E) :=
  let level := walk_level w in
  let drop entry child st :=
    let '(_, st) := free_level_table vs child (level + 1) st in Some (put_entry entry 0 st) in
  if level =? RADIX_TREE_LEVEL2 then
    let entry := curr_l2_entry w in
    if entry =? 0 then None
    else if negb (kind =? RADIX_RL_INSERT) then radix_entry_unlock entry st
    else if negb (entry_get_count (ents st entry) =? 0) then radix_entry_unlock entry st
    else if entry_child (ents st entry) =? 0 then radix_entry_unlock entry st
    else drop entry (entry_child (ents st entry)) st
  else if level =? RADIX_TREE_LEVEL1 then
    let entry := curr_l1_entry w in
    if entry =? 0 then None
    else if negb (entry_get_count (ents st entry) =? 0) then Some st
    else if entry_child (ents st entry) =? 0 then Some st
    else drop entry (entry_child (ents st entry)) st
  else if level =? RADIX_TREE_LEVEL0 then
    let entry := curr_l0_entry w in
    if negb (kind =? RADIX_RL_INSERT) then Some st
    else if negb (entry_get_count (ents st entry) =? 0) then Some st
    else if 256 <=? L0_INDEX (current_vaddr w) then Some st
    else if entry_child (ents st entry) =? 0 then Some st
    else drop entry (entry_child (ents st entry)) st
  else Some st.

Definition radix_lock_ensure_path (vs : rspace) (entry : Z) w (kind level update_flags : Z) st : option (Z * rst E) :=
  if entry =? 0 then None
  else
    let fail err st := if level =? RADIX_TREE_LEVEL2 then st ← radix_entry_unlock entry st; Some (err, st) else Some (err, st) in
    if kind =? RADIX_RL_INSERT then
      if (level =? RADIX_TREE_LEVEL0) && (256 <=? L0_INDEX (current_vaddr w)) then Some (REND_SUCCESS, st)
      else if negb (entry_valid (ents st entry)) && (entry_child (ents st entry) =? 0) then
        let '(err, next_table_vaddr, st) := radix_alloc_level_table vs (level + 1) st in
        if negb (err =? REND_SUCCESS) then fail err st
        else Some (REND_SUCCESS, update_entry entry update_flags next_table_vaddr 0 st)
      else Some (REND_SUCCESS, st)
    else if negb (entry_valid (ents st entry)) then fail (- E_REND_NOFOUND) st
    else Some (REND_SUCCESS, st).

(** a table without entries in use is given back in phase 5 *)
Definition drop_flags : Z :=
  Z.lor FLAG_INHERIT_LOCK (Z.lor FLAG_VALID_CLEAR (Z.lor FLAG_COUNT_RESET FLAG_CLEAR_PTR)).
Definition grow_flags : Z :=
  Z.lor FLAG_INHERIT_LOCK (Z.lor FLAG_UPDATE_PTR (Z.lor FLAG_VALID_CLEAR FLAG_COUNT_RESET)).
Definition delta_flags : Z := Z.lor FLAG_INHERIT_LOCK FLAG_COUNT_DELTA.

(** phase 4: one L3 node *)
Definition check_node (kind : Z) w st : option (Z * rst E) :=
  let l3_node := curr_l3_node w in
  if (kind =? RADIX_RL_INSERT) then
    if l3_node =? 0 then None
    else if radix_l3_overlap_insert (nodes st l3_node) then Some (- E_REND_OVERFLOW, st) else Some (REND_SUCCESS, st)
  else if kind =? RADIX_RL_DELETE then
    if l3_node =? 0 then None
    else if radix_l3_undeletable (nodes st l3_node) then Some (- E_REND_NOFOUND, st)
    else Some (REND_SUCCESS, put_node l3_node radix_node_clear st)
  else Some (REND_SUCCESS, st).

(** phase 5: skip flag, head and tail deltas of the parent level *)
Record phase5 := mk_p5 { p5_st : rst E; p5_skip : bool; p5_head : Z; p5_tail : Z }.
Fixpoint phase5_loop (body : walk -> phase5 -> option phase5) (fuel : nat) w (x : phase5) : option phase5 :=
  match fuel with
  | O => None
  | S fuel' =>
    x ← body w x;
    match radix_tree_level_walk (ents (p5_st x)) w with None => Some x | Some w => phase5_loop body fuel' w x end
  end.
(** [skip = skip && radix_count_trans_to_parent(...)] *)
Definition pass_up (kind : Z) w (partition_level old_count delta : Z) (st : rst E) (x : phase5) : phase5 :=
  if p5_skip x then
    let '(single_bypass, head, tail) :=
      radix_count_trans_to_parent kind w partition_level old_count delta (p5_head x) (p5_tail x) in
    mk_p5 st single_bypass head tail
  else mk_p5 st false (p5_head x) (p5_tail x).

Definition l2_update (vs : rspace) (kind start end_ : Z) w (x : phase5) : option phase5 :=
  let st := p5_st x in
  let entry := curr_l2_entry w in
  if entry =? 0 then None
  else
    let old_count := entry_get_count (ents st entry) in
    let overlap_start := Z.max start (current_vaddr w) in
    let overlap_end := Z.min end_ (u64 (current_vaddr w + MIDDLE_PAGE_SIZE)) in
    let pages_in_overlap := u64 (VPN (overlap_end - 1) - VPN overlap_start + 1) in
    let '(delta, update_flags, st) :=
      if kind =? RADIX_RL_INSERT then
        let child := ents st entry in
        (i32 pages_in_overlap,
         (if negb (entry_child child =? 0) && negb (entry_valid child) then Z.lor delta_flags FLAG_VALID_SET else delta_flags), st)
      else
        let delta := - i32 pages_in_overlap in
        if negb (old_count =? 0) && (old_count + delta =? 0)
        then (delta, drop_flags, snd (free_level_table vs (entry_child (ents st entry)) RADIX_TREE_LEVEL3 st))
        else (delta, delta_flags, st) in
    Some (pass_up kind w RADIX_TREE_LEVEL1 old_count delta (update_entry entry update_flags 0 delta st) x).

(** the same for L1 and L0: [child_level], and whether the table may be freed *)
Definition parent_update (vs : rspace) (kind : Z) (partition_level child_level : Z) (may_free : bool)
    (head_delta tail_delta : Z) (entry : Z) w (st : rst E) : option (Z * Z * rst E) :=
  if entry =? 0 then None
  else
    let old_count := entry_get_count (ents st entry) in
    let delta := radix_parent_count_delta kind w partition_level head_delta tail_delta in
    let value := ents st entry in
    let '(update_flags, st) :=
      if (kind =? RADIX_RL_INSERT) && negb (entry_child value =? 0) && negb (entry_valid value)
      then (Z.lor delta_flags FLAG_VALID_SET, st)
      else if negb (old_count =? 0) && (old_count + delta =? 0) && may_free
      then (drop_flags, snd (free_level_table vs (entry_child value) child_level st))
      else (delta_flags, st) in
    Some (old_count, delta, update_entry entry update_flags 0 delta st).
Definition l1_update (vs : rspace) (kind head_delta tail_delta : Z) w (x : phase5) : option phase5 :=
  '(old_count, delta, st) ← parent_update vs kind RADIX_TREE_LEVEL1 RADIX_TREE_LEVEL2 true head_delta tail_delta
                             (curr_l1_entry w) w (p5_st x);
  Some (pass_up kind w RADIX_TREE_LEVEL0 old_count delta st x).
Definition l0_update (vs : rspace) (kind head_delta tail_delta : Z) w (st : rst E) : option (rst E) :=
  '(_, _, st) ← parent_update vs kind RADIX_TREE_LEVEL0 RADIX_TREE_LEVEL1 (L0_INDEX (current_vaddr w) <? 256)
                 head_delta tail_delta (curr_l0_entry w) w st;
  Some st.

Definition range_walk (level start end_ direction : Z) (root : Z) st : walk :=
  radix_tree_level_walk_init (ents st) root (ROUND_DOWN start (get_gran_from_level level)) end_ level direction.

Definition acquire_phase5 (vs : rspace) (root start end_ kind : Z) (fuel : nat) st : option (rst E) :=
  x ← phase5_loop (l2_update vs kind start end_) fuel (range_walk 2 start end_ RADIX_TREE_DIRECTION_INC root st) (mk_p5 st true 0 0);
  if p5_skip x then Some (p5_st x)
  else
    let st := p5_st x in
    y ← phase5_loop (l1_update vs kind (p5_head x) (p5_tail x)) fuel (range_walk 1 start end_ RADIX_TREE_DIRECTION_INC root st)
          (mk_p5 st true 0 0);
    if p5_skip y then Some (p5_st y)
    else
      let st := p5_st y in
      '(_, _, st) ← walk_loop (no_error (l0_update vs kind (p5_head y) (p5_tail y))) fuel
                      (range_walk 0 start end_ RADIX_TREE_DIRECTION_INC root st) st;
      Some st.

(** labels [phase1_clean_prev] to [phase3_clean_all] *)
Definition clean_prev (vs : rspace) (kind : Z) (fuel : nat) w st : option (rst E) :=
  '(_, st) ← walk_while (radix_lock_rollback_entry vs kind) fuel (set_direction RADIX_TREE_DIRECTION_DEC w) st; Some st.
Definition clean_all (vs : rspace) (kind : Z) (fuel : nat) w st : option (rst E) :=
  st ← radix_lock_rollback_entry vs kind w st; clean_prev vs kind fuel w st.

Definition ensure_level (vs : rspace) (kind level : Z) w st : option (Z * rst E) :=
  if level =? RADIX_TREE_LEVEL0 then radix_lock_ensure_path vs (curr_l0_entry w) w kind level grow_flags st
  else if level =? RADIX_TREE_LEVEL1 then radix_lock_ensure_path vs (curr_l1_entry w) w kind level grow_flags st
  else
    st ← radix_entry_lock (curr_l2_entry w) st;
    radix_lock_ensure_path vs (curr_l2_entry w) w kind level grow_flags st.

Definition radix_range_lock_acquire (vs : rspace) (root start end_ kind : Z) (fuel : nat) st : option (Z * rst E) :=
  let w0 := range_walk 0 start end_ RADIX_TREE_DIRECTION_INC root st in
  if negb (radix_tree_level_walk_check w0) then Some (- E_IN_PARAM, st)
  else
    '(err, w0, st) ← walk_loop (ensure_level vs kind 0) fuel w0 st;
    if negb (err =? REND_SUCCESS) then st ← clean_prev vs kind fuel w0 st; Some (err, st)
    else
      let w1 := range_walk 1 start end_ RADIX_TREE_DIRECTION_INC root st in
      if negb (radix_tree_level_walk_check w1)
      then st ← clean_all vs kind fuel (set_direction RADIX_TREE_DIRECTION_DEC w0) st; Some (REND_SUCCESS, st)
      else
        '(err, w1, st) ← walk_loop (ensure_level vs kind 1) fuel w1 st;
        if negb (err =? REND_SUCCESS) then
          st ← clean_prev vs kind fuel w1 st; st ← clean_all vs kind fuel w0 st; Some (err, st)
        else
          let w2 := range_walk 2 start end_ RADIX_TREE_DIRECTION_INC root st in
          if negb (radix_tree_level_walk_check w2) then
            st ← clean_all vs kind fuel w1 st; st ← clean_all vs kind fuel w0 st; Some (REND_SUCCESS, st)
          else
            '(err, w2, st) ← walk_loop (ensure_level vs kind 2) fuel w2 st;
            if negb (err =? REND_SUCCESS) then
              st ← clean_prev vs kind fuel w2 st; st ← clean_all vs kind fuel w1 st; st ← clean_all vs kind fuel w0 st; Some (err, st)
            else
              let w3 := range_walk 3 start end_ RADIX_TREE_DIRECTION_INC root st in
              let undo err st :=
                st ← clean_all vs kind fuel w2 st; st ← clean_all vs kind fuel w1 st; st ← clean_all vs kind fuel w0 st; Some (err, st) in
              if negb (radix_tree_level_walk_check w3) then undo REND_SUCCESS st
              else
                '(err, _, st) ← walk_loop (check_node kind) fuel w3 st;
                if negb (err =? REND_SUCCESS) then undo err st
                else if kind =? RADIX_RL_QUERY_OR_CHANGE then Some (REND_SUCCESS, st)
                else st ← acquire_phase5 vs root start end_ kind fuel st; Some (REND_SUCCESS, st).

Definition unlock_l2 w st : option (rst E) := radix_entry_unlock (curr_l2_entry w) st.
Definition radix_range_lock_release (root start end_ : Z) (fuel : nat) st : option (Z * rst E) :=
  let w2 := range_walk 2 start end_ RADIX_TREE_DIRECTION_DEC root st in
  if radix_tree_level_walk_check w2 then
    '(_, _, st) ← walk_loop (no_error unlock_l2) fuel w2 st; Some (REND_SUCCESS, st)
  else Some (- E_RENDEZVOS, st).

(** *** The public locks *)

Definition lock_l0 w st : option (rst E) := radix_entry_lock (curr_l0_entry w) st.
Definition unlock_l0 w st : option (rst E) := radix_entry_unlock (curr_l0_entry w) st.

Definition vmm_radix_tree_lock_range_big (vs : rspace) (vaddr_start vaddr_end : Z) (fuel : nat) st : option (Z * rst E) :=
  let root := root_radix st in
  if (root =? 0) || negb (rv_pmm vs) then Some (- E_IN_PARAM, st)
  else
    let w0 := range_walk 0 vaddr_start vaddr_end RADIX_TREE_DIRECTION_INC root st in
    if negb (radix_tree_level_walk_check w0) then Some (- E_IN_PARAM, st)
    else '(_, _, st) ← walk_loop (no_error lock_l0) fuel w0 st; Some (REND_SUCCESS, st).
Definition vmm_radix_tree_unlock_range_big (vaddr_start vaddr_end : Z) (fuel : nat) st : option (Z * rst E) :=
  let root := root_radix st in
  if root =? 0 then Some (- E_IN_PARAM, st)
  else
    let w0 := range_walk 0 vaddr_start vaddr_end RADIX_TREE_DIRECTION_DEC root st in
    if negb (radix_tree_level_walk_check w0) then Some (- E_IN_PARAM, st)
    else '(_, _, st) ← walk_loop (no_error unlock_l0) fuel w0 st; Some (REND_SUCCESS, st).

Definition bad_kind (kind : Z) : bool := (kind <? 0) || (RADIX_RL_QUERY_OR_CHANGE <? kind).
Definition vmm_radix_tree_lock_range_small_with_big_locked (vs : rspace) (vaddr_start vaddr_end kind : Z) (fuel : nat) st
  : option (Z * rst E) :=
  let root := root_radix st in
  if (root =? 0) || negb (rv_pmm vs) then Some (- E_IN_PARAM, st)
  else if bad_kind kind then Some (- E_IN_PARAM, st)
  else radix_range_lock_acquire vs root vaddr_start vaddr_end kind fuel st.
Definition vmm_radix_tree_unlock_range_small (vaddr_start vaddr_end : Z) (fuel : nat) st : option (Z * rst E) :=
  let root := root_radix st in
  if root =? 0 then Some (- E_IN_PARAM, st) else radix_range_lock_release root vaddr_start vaddr_end fuel st.
Definition vmm_radix_tree_lock_range_big_and_small (vs : rspace) (vaddr_start vaddr_end kind : Z) (fuel : nat) st
  : option (Z * rst E) :=
  let root := root_radix st in
  if (root =? 0) || negb (rv_pmm vs) then Some (- E_IN_PARAM, st)
  else if bad_kind kind then Some (- E_IN_PARAM, st)
  else
    let w0 := range_walk 0 vaddr_start vaddr_end RADIX_TREE_DIRECTION_INC root st in
    if negb (radix_tree_level_walk_check w0) then Some (- E_IN_PARAM, st)
    else
      '(_, w0, st) ← walk_loop (no_error lock_l0) fuel w0 st;
      '(e, st) ← radix_range_lock_acquire vs root vaddr_start vaddr_end kind fuel st;
      '(_, _, st) ← walk_loop (no_error unlock_l0) fuel (set_direction RADIX_TREE_DIRECTION_DEC w0) st;
      Some (e, st).
Definition vmm_radix_tree_unlock_range_big_and_small (vaddr_start vaddr_end : Z) (fuel : nat) st : option (Z * rst E) :=
  vmm_radix_tree_unlock_range_small vaddr_start vaddr_end fuel st.
End Tree.
