(* ===== verification/RadixOps.v ===== *)
(** * The radix tree of an address space: operations

    The rest of [kernel/mm/vmm_radix_tree.c]: reserving, binding and changing
    ranges of leaves, queries and searches, creation, teardown, and the shared
    L1 tables of the kernel half. *)
From S2P Require Import Prelude Mm TaggedPtr Pmm KernelPages RadixTree.

Definition rm_sw (f : Z) : Z := entry_flags_rm_sw_flags f.

Section Ops.
Context {E : Type} `{RadixEnv E}.
Implicit Types (st : rst E) (w : walk).

Definition leaf_walk (vaddr_start vaddr_end : Z) st : walk :=
  radix_tree_level_walk_init (ents st) (root_radix st) vaddr_start vaddr_end RADIX_TREE_LEVEL3 RADIX_TREE_DIRECTION_INC.

(** ** Reserving *)

Definition lazy_flags (f : Z) : Z := clear_mask_u64 (Z.lor (rm_sw f) PAGE_ENTRY_LAZY) PAGE_ENTRY_VALID.
Definition reserve_leaf (lazy_leaf_flags owner_info : Z) w st : option (rst E) :=
  let leaf := curr_l3_node w in
  if leaf =? 0 then None else Some (put_node leaf (mk_rnode lazy_leaf_flags (rmap_list (nodes st leaf)) owner_info) st).
Definition vmm_radix_tree_insert_range (vs : rspace) (owner_info vaddr_start fl vaddr_end : Z) (fuel : nat) st : option (Z * rst E) :=
  if (root_radix st =? 0) || negb (rv_pmm vs) then Some (- E_IN_PARAM, st)
  else
    let w := leaf_walk vaddr_start vaddr_end st in
    if negb (radix_tree_level_walk_check w) then Some (- E_IN_PARAM, st)
    else '(_, _, st) ← walk_loop (no_error (reserve_leaf (lazy_flags fl) owner_info)) fuel w st; Some (REND_SUCCESS, st).

(** ** Reverse maps *)

Definition zone_has (vs : rspace) (ppn : Z) : bool :=
  match rv_zone vs with
  | None => false
  | Some z => match zone_page_cursor_init z ppn with None => false | Some _ => true end
  end.
Definition set_flags (f : Z) (n : Radix_node_t) : Radix_node_t := mk_rnode f (rmap_list n) (owner n).
Definition set_rmap (r : option Z) (n : Radix_node_t) : Radix_node_t := mk_rnode (flags n) r (owner n).

(** [list_add_head] and [list_del_init] of the node's rmap link *)
Definition rmap_add (ppn leaf : Z) st : rst E :=
  set_rmaps (fun p => if p =? ppn then leaf :: rmaps st p else rmaps st p)
            (put_node leaf (set_rmap (Some ppn) (nodes st leaf)) st).
Definition rmap_del (leaf : Z) st : rst E :=
  match rmap_list (nodes st leaf) with
  | None => st
  | Some q =>
    set_rmaps (fun p => if p =? q then filter (fun x => x <> leaf) (rmaps st p) else rmaps st p)
              (put_node leaf (set_rmap None (nodes st leaf)) st)
  end.

Definition radix_leaf_link_rmap (vs : rspace) (ppn leaf : Z) st : Z * rst E :=
  if negb (rv_pmm vs) || invalid_ppn ppn || (leaf =? 0) then (- E_IN_PARAM, st)
  else if negb (zone_has vs ppn) then (- E_IN_PARAM, st)
  else (REND_SUCCESS, rmap_add ppn leaf st).
Definition radix_leaf_unlink_rmap (vs : rspace) (ppn leaf : Z) st : rst E :=
  if negb (rv_pmm vs) || invalid_ppn ppn || (leaf =? 0) then st
  else if negb (zone_has vs ppn) then st
  else rmap_del leaf st.

(** ** Binding *)

Definition bad_ppns (vs : rspace) (vaddr_start ppn_first vaddr_end : Z) st : bool :=
  let page_number := u64 (vaddr_end - vaddr_start) / PAGE_SIZE in
  let ppn_last := i64 (ppn_first + i64 page_number - 1) in
  (root_radix st =? 0) || negb (rv_pmm vs) || negb (bool_decide (is_Some (rv_zone vs)))
  || invalid_ppn ppn_first || (ppn_last <? ppn_first) || invalid_ppn ppn_last.

(** the state, the number of leaves bound, the walk where the loop stopped *)
Definition bind_leaf (vs : rspace) (ppn_first leaf_flags page_index : Z) w st : Z * rst E :=
  let leaf := curr_l3_node w in
  if (leaf =? 0) || negb (test_bits (flags (nodes st leaf)) PAGE_ENTRY_LAZY) || test_bits (flags (nodes st leaf)) PAGE_ENTRY_VALID
  then (- E_IN_PARAM, st)
  else
    let '(err, st) := radix_leaf_link_rmap vs (i64 (ppn_first + page_index)) leaf st in
    if negb (err =? REND_SUCCESS) then (err, st)
    else (REND_SUCCESS, put_node leaf (set_flags (Z.lor (rm_sw leaf_flags) PAGE_ENTRY_VALID) (nodes st leaf)) st).
Fixpoint bind_loop (vs : rspace) (ppn_first leaf_flags page_index : Z) (fuel : nat) w st : option (Z * Z * walk * rst E) :=
  match fuel with
  | O => None
  | S fuel' =>
    let '(err, st) := bind_leaf vs ppn_first leaf_flags page_index w st in
    if negb (err =? REND_SUCCESS) then Some (err, page_index, w, st)
    else
      match radix_tree_level_walk (ents st) w with
      | None => Some (REND_SUCCESS, page_index + 1, w, st)
      | Some w => bind_loop vs ppn_first leaf_flags (page_index + 1) fuel' w st
      end
  end.
Fixpoint bind_rollback (vs : rspace) (ppn_first leaf_flags page_index : Z) (fuel : nat) w st : option (rst E) :=
  if page_index =? 0 then Some st
  else
    match fuel with
    | O => None
    | S fuel' =>
      match radix_tree_level_walk (ents st) w with
      | None => Some st
      | Some w =>
        let page_index := page_index - 1 in
        let leaf := curr_l3_node w in
        let st := radix_leaf_unlink_rmap vs (i64 (ppn_first + page_index)) leaf st in
        if leaf =? 0 then None
        else bind_rollback vs ppn_first leaf_flags page_index fuel' w
               (put_node leaf (set_flags (Z.lor (rm_sw leaf_flags) PAGE_ENTRY_LAZY) (nodes st leaf)) st)
      end
    end.
Definition vmm_radix_tree_leaf_bind_range (vs : rspace) (vaddr_start ppn_first vaddr_end leaf_flags : Z) (fuel : nat) st
  : option (Z * rst E) :=
  if bad_ppns vs vaddr_start ppn_first vaddr_end st then Some (- E_IN_PARAM, st)
  else
    let page_number := u64 (vaddr_end - vaddr_start) / PAGE_SIZE in
    let w := leaf_walk vaddr_start vaddr_end st in
    if negb (radix_tree_level_walk_check w) then Some (- E_IN_PARAM, st)
    else
      '(err, page_index, w, st) ← bind_loop vs ppn_first leaf_flags 0 fuel w st;
      let err := if negb (err =? REND_SUCCESS) then err else if negb (page_index =? page_number) then - E_IN_PARAM else REND_SUCCESS in
      if err =? REND_SUCCESS then Some (REND_SUCCESS, st)
      else
        st ← bind_rollback vs ppn_first leaf_flags page_index fuel (set_direction RADIX_TREE_DIRECTION_DEC w) st;
        Some (err, st).

(** the first pass of unbinding: the leaves that were found bound *)
Fixpoint validate_loop (validated : Z) (fuel : nat) w st : option (Z * Z * walk) :=
  match fuel with
  | O => None
  | S fuel' =>
    let leaf := curr_l3_node w in
    if (leaf =? 0) || negb (test_bits (flags (nodes st leaf)) PAGE_ENTRY_VALID) then Some (- E_IN_PARAM, validated, w)
    else
      match radix_tree_level_walk (ents st) w with
      | None => Some (REND_SUCCESS, validated + 1, w)
      | Some w => validate_loop (validated + 1) fuel' w st
      end
  end.
Definition unbound_flags (f : Z) : Z := Z.lor (clear_mask_u64 (rm_sw f) PAGE_ENTRY_VALID) PAGE_ENTRY_LAZY.
Fixpoint unbind_loop (vs : rspace) (ppn_first remain : Z) (fuel : nat) w st : option (rst E) :=
  match fuel with
  | O => None
  | S fuel' =>
    let leaf := curr_l3_node w in
    if leaf =? 0 then None
    else
      let st := radix_leaf_unlink_rmap vs (i64 (ppn_first + (remain - 1))) leaf st in
      let st := put_node leaf (set_flags (unbound_flags (flags (nodes st leaf))) (nodes st leaf)) st in
      let remain := remain - 1 in
      if remain =? 0 then Some st
      else match radix_tree_level_walk (ents st) w with None => Some st | Some w => unbind_loop vs ppn_first remain fuel' w st end
  end.
Definition vmm_radix_tree_leaf_unbind_range (vs : rspace) (vaddr_start ppn_first vaddr_end : Z) (fuel : nat) st : option (Z * rst E) :=
  if bad_ppns vs vaddr_start ppn_first vaddr_end st then Some (- E_IN_PARAM, st)
  else
    let page_number := u64 (vaddr_end - vaddr_start) / PAGE_SIZE in
    let w := leaf_walk vaddr_start vaddr_end st in
    if negb (radix_tree_level_walk_check w) then Some (- E_IN_PARAM, st)
    else
      '(err, validated, w) ← validate_loop 0 fuel w st;
      if negb (err =? REND_SUCCESS) then Some (err, st)
      else if negb (validated =? page_number) then Some (- E_IN_PARAM, st)
      else st ← unbind_loop vs ppn_first page_number fuel (set_direction RADIX_TREE_DIRECTION_DEC w) st; Some (REND_SUCCESS, st).

Definition vmm_radix_tree_leaf_bind (vs : rspace) (vaddr_start ppn leaf_flags : Z) (fuel : nat) st : option (Z * rst E) :=
  vmm_radix_tree_leaf_bind_range vs vaddr_start ppn (u64 (vaddr_start + PAGE_SIZE)) leaf_flags fuel st.
Definition vmm_radix_tree_leaf_unbind (vs : rspace) (vaddr_start ppn : Z) (fuel : nat) st : option (Z * rst E) :=
  vmm_radix_tree_leaf_unbind_range vs vaddr_start ppn (u64 (vaddr_start + PAGE_SIZE)) fuel st.

(** ** Changing *)

Definition vmm_radix_tree_change_leaf_ppn (vs : rspace) (vaddr_start vaddr_end old_ppn new_ppn leaf_flags : Z) st : Z * rst E :=
  if (root_radix st =? 0) || negb (rv_pmm vs) || negb (bool_decide (is_Some (rv_zone vs))) || invalid_ppn old_ppn || invalid_ppn new_ppn
  then (- E_IN_PARAM, st)
  else
    let w := leaf_walk vaddr_start vaddr_end st in
    if negb (radix_tree_level_walk_check w) then (- E_IN_PARAM, st)
    else
      let leaf := curr_l3_node w in
      let commit st := put_node leaf (set_flags (Z.lor (rm_sw leaf_flags) PAGE_ENTRY_VALID) (nodes st leaf)) st in
      if (leaf =? 0) || negb (test_bits (flags (nodes st leaf)) PAGE_ENTRY_VALID) then (- E_IN_PARAM, st)
      else if negb (old_ppn =? new_ppn) then
        if negb (zone_has vs old_ppn) || negb (zone_has vs new_ppn) then (- E_IN_PARAM, st)
        else
          let st := radix_leaf_unlink_rmap vs old_ppn leaf st in
          let '(err, st) := radix_leaf_link_rmap vs new_ppn leaf st in
          if negb (err =? REND_SUCCESS) then (err, snd (radix_leaf_link_rmap vs old_ppn leaf st))
          else (REND_SUCCESS, commit st)
      else (REND_SUCCESS, commit st).
Definition vmm_radix_tree_change_leaf_ppn_flag (vs : rspace) (vaddr_start vaddr_end old_ppn new_ppn new_flag : Z) st : Z * rst E :=
  vmm_radix_tree_change_leaf_ppn vs vaddr_start vaddr_end old_ppn new_ppn new_flag st.

Definition change_flag (new_flags : Z) w st : option (rst E) :=
  let leaf := curr_l3_node w in
  if leaf =? 0 then None else Some (put_node leaf (set_flags new_flags (nodes st leaf)) st).
Definition vmm_radix_tree_change_range_flag (vs : rspace) (vaddr_start vaddr_end new_flags : Z) (fuel : nat) st : option (Z * rst E) :=
  if (root_radix st =? 0) || negb (rv_pmm vs) then Some (- E_IN_PARAM, st)
  else
    let w := leaf_walk vaddr_start vaddr_end st in
    if negb (radix_tree_level_walk_check w) then Some (- E_IN_PARAM, st)
    else '(_, _, st) ← walk_loop (no_error (change_flag new_flags)) fuel w st; Some (REND_SUCCESS, st).

(** both outputs are asked for *)
Definition vmm_radix_tree_query_range (vs : rspace) (vaddr_start vaddr_end : Z) st : Z * Z * Z :=
  if (root_radix st =? 0) || negb (rv_pmm vs) then (- E_IN_PARAM, 0, tp_new_none)
  else
    let w := leaf_walk vaddr_start vaddr_end st in
    if negb (radix_tree_level_walk_check w) then (- E_IN_PARAM, 0, tp_new_none)
    else
      let leaf := curr_l3_node w in
      if leaf =? 0 then (- E_REND_NOFOUND, 0, tp_new_none)
      else (REND_SUCCESS, flags (nodes st leaf), owner (nodes st leaf)).

(** ** Searching *)

(** [for (iter = first;; iter += direction * step)] between [lo] and [hi]:
    [Some None] when nothing was found *)
Fixpoint search_loop (f : Z -> option (option (Z * Z))) (lo hi step direction iter : Z) (fuel : nat) : option (option (Z * Z)) :=
  match fuel with
  | O => None
  | S fuel' =>
    if (if 0 <? direction then hi <? iter else iter <? lo) then Some None
    else
      r ← f iter;
      match r with
      | Some x => Some (Some x)
      | None => search_loop f lo hi step direction (u64 (iter + direction * step)) fuel'
      end
  end.
Definition search (f : Z -> option (option (Z * Z))) (lo hi step direction : Z) (fuel : nat) : option (option (Z * Z)) :=
  search_loop f lo hi step direction (if 0 <? direction then lo else hi) fuel.

Definition find_in_l2 st (l2 mid_start mid_end direction : Z) (fuel : nat) : option (option (Z * Z)) :=
  search (fun l3_iter =>
            let leaf := radix_l3_node (ents st) l2 l3_iter in
            Some (if leaf =? 0 then None
                  else if radix_l3_overlap_insert (nodes st leaf) then Some (l3_iter, leaf) else None))
         mid_start mid_end PAGE_SIZE direction fuel.
Definition find_in_l1 st (l1 giga_start giga_end direction : Z) (fuel : nat) : option (option (Z * Z)) :=
  search (fun mid_base =>
            let l2 := radix_l2_entry (ents st) l1 mid_base in
            if (l2 =? 0) || negb (entry_valid (ents st l2)) || (entry_child (ents st l2) =? 0) then Some None
            else if entry_get_count (ents st l2) =? 0 then Some None
            else find_in_l2 st l2 (Z.max giga_start mid_base) (Z.min giga_end (u64 (mid_base + MIDDLE_PAGE_SIZE - PAGE_SIZE))) direction fuel)
         (ROUND_DOWN giga_start MIDDLE_PAGE_SIZE) (ROUND_DOWN giga_end MIDDLE_PAGE_SIZE) MIDDLE_PAGE_SIZE direction fuel.
Definition find_in_l0 st (l0 huge_start huge_end direction : Z) (fuel : nat) : option (option (Z * Z)) :=
  search (fun l1_iter =>
            let l1 := radix_l1_entry (ents st) l0 l1_iter in
            if (l1 =? 0) || negb (entry_valid (ents st l1)) || (entry_child (ents st l1) =? 0) then Some None
            else find_in_l1 st l1 (Z.max huge_start l1_iter) (Z.min huge_end (u64 (l1_iter + GIGAN_PAGE_SIZE - PAGE_SIZE))) direction fuel)
         (ROUND_DOWN huge_start GIGAN_PAGE_SIZE) (ROUND_DOWN huge_end GIGAN_PAGE_SIZE) GIGAN_PAGE_SIZE direction fuel.
(** the address and the node of the first leaf in use *)
Definition vmm_radix_tree_find_first_occupied_leaf (start end_ direction : Z) (fuel : nat) st : option (option (Z * Z)) :=
  let root := root_radix st in
  if (root =? 0) || (end_ <=? start) then Some None
  else if negb (direction =? RADIX_TREE_DIRECTION_INC) && negb (direction =? RADIX_TREE_DIRECTION_DEC) then Some None
  else
    let first_page := ROUND_DOWN start PAGE_SIZE in
    let last_page := ROUND_DOWN (end_ - 1) PAGE_SIZE in
    if last_page <? first_page then Some None
    else
      search (fun l0_iter =>
                let l0 := radix_l0_entry root l0_iter in
                if negb (entry_valid (ents st l0)) || (entry_child (ents st l0) =? 0) then Some None
                else find_in_l0 st l0 (Z.max first_page l0_iter) (Z.min last_page (u64 (l0_iter + HUGE_PAGE_SIZE - PAGE_SIZE))) direction fuel)
             (ROUND_DOWN first_page HUGE_PAGE_SIZE) (ROUND_DOWN last_page HUGE_PAGE_SIZE) HUGE_PAGE_SIZE direction fuel.

(** the leaves of one locked band that carry on the interval *)
Fixpoint extend_band st (l2_entry l3_iter l2_range_start l2_range_end range_flags vaddr_iter : Z) (fuel : nat) : option Z :=
  match fuel with
  | O => None
  | S fuel' =>
    if negb ((l3_iter <? l2_range_end) && (ROUND_DOWN l3_iter MIDDLE_PAGE_SIZE =? l2_range_start)) then Some vaddr_iter
    else
      let leaf := radix_l3_node (ents st) l2_entry l3_iter in
      if (leaf =? 0) || negb (radix_l3_overlap_insert (nodes st leaf)) || negb (flags (nodes st leaf) =? range_flags) then Some vaddr_iter
      else extend_band st l2_entry (u64 (l3_iter + PAGE_SIZE)) l2_range_start l2_range_end range_flags (u64 (l3_iter + PAGE_SIZE)) fuel'
  end.
Fixpoint extend_loop (search_end range_flags vaddr_iter : Z) (fuel : nat) w st : option (Z * rst E) :=
  match fuel with
  | O => None
  | S fuel' =>
    let l2_entry := curr_l2_entry w in
    let l2_range_start := ROUND_DOWN (current_vaddr w) MIDDLE_PAGE_SIZE in
    let l2_range_end := Z.min search_end (u64 (l2_range_start + MIDDLE_PAGE_SIZE)) in
    if (l2_range_end <=? vaddr_iter) || (l2_entry =? 0) then Some (vaddr_iter, st)
    else
      st ← radix_entry_lock l2_entry st;
      next ← extend_band st l2_entry vaddr_iter l2_range_start l2_range_end range_flags vaddr_iter fuel;
      st ← radix_entry_unlock l2_entry st;
      if next =? vaddr_iter then Some (next, st)
      else
        match radix_tree_level_walk (ents st) w with
        | None => Some (next, st)
        | Some w => extend_loop search_end range_flags next fuel' w st
        end
  end.
(** start, end and flags of the first run of leaves with equal flags *)
Definition vmm_radix_tree_find_first_occupied_interval (search_start search_end : Z) (fuel : nat) st
  : option (option (Z * Z * Z) * rst E) :=
  if (root_radix st =? 0) || (search_end <=? search_start) then Some (None, st)
  else
    r ← vmm_radix_tree_find_first_occupied_leaf search_start search_end RADIX_TREE_DIRECTION_INC fuel st;
    match r with
    | None => Some (None, st)
    | Some (first_vaddr, first_leaf) =>
      let range_flags := flags (nodes st first_leaf) in
      let vaddr_iter := u64 (first_vaddr + PAGE_SIZE) in
      if search_end <=? vaddr_iter then Some (Some (first_vaddr, vaddr_iter, range_flags), st)
      else
        let w := radix_tree_level_walk_init (ents st) (root_radix st) (ROUND_DOWN vaddr_iter MIDDLE_PAGE_SIZE) search_end
                   RADIX_TREE_LEVEL2 RADIX_TREE_DIRECTION_INC in
        if negb (radix_tree_level_walk_check w) then Some (Some (first_vaddr, vaddr_iter, range_flags), st)
        else '(last, st) ← extend_loop search_end range_flags vaddr_iter fuel w st; Some (Some (first_vaddr, last, range_flags), st)
    end.

(** ** Creation and teardown *)

Definition vmm_radix_tree_init (vs : rspace) st : Z * rst E :=
  if negb (rv_pmm vs) then (0, st)
  else if negb (root_radix st =? 0) then (root_radix st, st)
  else
    let '(err, table_vaddr, st) := radix_alloc_level_table vs RADIX_TREE_LEVEL0 st in
    if negb (err =? REND_SUCCESS) then (0, st) else (table_vaddr, set_root_radix table_vaddr st).

Definition radix_clean_user_leaf (vs : rspace) (va leaf : Z) st : rst E :=
  if leaf =? 0 then st
  else
    let st := if bool_decide (is_Some (rmap_list (nodes st leaf))) && bool_decide (is_Some (rv_zone vs)) then rmap_del leaf st else st in
    if negb (test_bits (flags (nodes st leaf)) PAGE_ENTRY_VALID) then st
    else
      let '(ppn, e) := re_have_mapped (renv st) (VPN va) in
      let st := set_renv e st in
      if invalid_ppn ppn then st
      else
        let st := set_renv (snd (re_unmap (renv st) (VPN va))) st in
        set_renv (snd (re_free (renv st) ppn 1)) st.

Definition forget (r : Z * rst E) : rst E := snd r.
(** the four nested loops, [n] entries from the given address on *)
Fixpoint clean_l3 (vs : rspace) (l2_entry l3_iter : Z) (n : nat) st : rst E :=
  match n with
  | O => st
  | S n' => clean_l3 vs l2_entry (l3_iter + PAGE_SIZE) n' (radix_clean_user_leaf vs l3_iter (radix_l3_node (ents st) l2_entry l3_iter) st)
  end.
Fixpoint clean_l2 (vs : rspace) (l1_entry l2_iter : Z) (n : nat) st : rst E :=
  match n with
  | O => st
  | S n' =>
    let l2_entry := radix_l2_entry (ents st) l1_entry l2_iter in
    let st :=
      if (l2_entry =? 0) || negb (entry_valid (ents st l2_entry)) then st
      else
        let l3_table_vaddr := entry_child (ents st l2_entry) in
        let st := clean_l3 vs l2_entry l2_iter 512 st in
        put_entry l2_entry 0 (forget (free_level_table vs l3_table_vaddr RADIX_TREE_LEVEL3 st)) in
    clean_l2 vs l1_entry (l2_iter + MIDDLE_PAGE_SIZE) n' st
  end.
Fixpoint clean_l1 (vs : rspace) (l0_entry l1_iter : Z) (n : nat) st : rst E :=
  match n with
  | O => st
  | S n' =>
    let l1_entry := radix_l1_entry (ents st) l0_entry l1_iter in
    let st :=
      if (l1_entry =? 0) || negb (entry_valid (ents st l1_entry)) then st
      else
        let l2_table_vaddr := entry_child (ents st l1_entry) in
        let st := clean_l2 vs l1_entry l1_iter 512 st in
        put_entry l1_entry 0 (forget (free_level_table vs l2_table_vaddr RADIX_TREE_LEVEL2 st)) in
    clean_l1 vs l0_entry (l1_iter + GIGAN_PAGE_SIZE) n' st
  end.
Fixpoint clean_l0 (vs : rspace) (l0_iter : Z) (n : nat) st : rst E :=
  match n with
  | O => st
  | S n' =>
    let l0_entry := radix_l0_entry (root_radix st) l0_iter in
    let st :=
      if negb (entry_valid (ents st l0_entry)) then st
      else
        let l1_table_vaddr := entry_child (ents st l0_entry) in
        let st := clean_l1 vs l0_entry l0_iter 512 st in
        put_entry l0_entry 0 (forget (free_level_table vs l1_table_vaddr RADIX_TREE_LEVEL1 st)) in
    clean_l0 vs (l0_iter + HUGE_PAGE_SIZE) n' st
  end.
Definition vmm_radix_tree_clean_user (vs : rspace) st : Z * rst E :=
  if negb (rv_pmm vs) then (- E_IN_PARAM, st)
  else if root_radix st =? 0 then (REND_SUCCESS, st)
  else (REND_SUCCESS, clean_l0 vs 0 256 st).
Definition vmm_radix_tree_delete (vs : rspace) st : Z * rst E :=
  if negb (rv_pmm vs) then (- E_IN_PARAM, st)
  else if root_radix st =? 0 then (REND_SUCCESS, st)
  else (REND_SUCCESS, set_root_radix 0 (forget (free_level_table vs (root_radix st) RADIX_TREE_LEVEL0 st))).
Definition vmm_radix_tree_destroy (vs : rspace) st : Z * rst E :=
  let '(e, st) := vmm_radix_tree_clean_user vs st in
  if negb (e =? REND_SUCCESS) then (e, st) else vmm_radix_tree_delete vs st.

(** ** The shared L1 tables of the kernel half *)

Fixpoint unmap_shared (base : Z) (i : Z) (n : nat) (e : E) : E :=
  match n with O => e | S n' => unmap_shared base (i + 1) n' (snd (re_unmap e (VPN (u64 (base + i * PAGE_SIZE))))) end.
Fixpoint map_shared (table_base_ppn : Z) (i : Z) (n : nat) st : Z * rst E :=
  match n with
  | O => (REND_SUCCESS, st)
  | S n' =>
    let base := KERNEL_PHY_TO_VIRT (PADDR table_base_ppn) in
    let page_vaddr := u64 (base + i * PAGE_SIZE) in
    let '(r, e) := re_map (renv st) (i64 (table_base_ppn + i)) (VPN page_vaddr) 3 RADIX_KERNEL_MAP_FLAGS in
    if negb (r =? REND_SUCCESS) then
      (r, set_renv (snd (re_free (unmap_shared base 0 (Z.to_nat i) e) table_base_ppn 256)) st)
    else map_shared table_base_ppn (i + 1) n' (clear_table 1 page_vaddr (set_renv e st))
  end.
Definition vmm_radix_tree_bootstrap_shared_kernel_high_half (vs : rspace) st : Z * rst E :=
  if negb (invalid_ppn (kernel_radix_l1_table_base_ppn st)) then (REND_SUCCESS, st)
  else if negb (rv_pmm vs) then (- E_IN_PARAM, st)
  else
    let '(ppn, alloced, e) := re_alloc (renv st) 256 in
    let st := set_renv e st in
    if invalid_ppn ppn || negb (alloced =? 256) then (- E_RENDEZVOS, st)
    else
      let '(r, st) := map_shared ppn 0 256 st in
      if negb (r =? REND_SUCCESS) then (r, st) else (REND_SUCCESS, set_shared_l1 ppn st).

Definition install_flags : Z := Z.lor FLAG_INHERIT_LOCK (Z.lor FLAG_UPDATE_PTR (Z.lor FLAG_VALID_SET FLAG_COUNT_RESET)).
Fixpoint install_loop (vaddr_iter : Z) (n : nat) st : option (Z * rst E) :=
  match n with
  | O => Some (REND_SUCCESS, st)
  | S n' =>
    let l0_entry := radix_l0_entry (root_radix st) vaddr_iter in
    let l1_table_ppn := i64 (kernel_radix_l1_table_base_ppn st + (L0_INDEX vaddr_iter - 256)) in
    let expected_l1_table_vaddr := KERNEL_PHY_TO_VIRT (PADDR l1_table_ppn) in
    st ← radix_entry_lock l0_entry st;
    if entry_valid (ents st l0_entry) then
      st' ← radix_entry_unlock l0_entry st;
      if negb (entry_child (ents st l0_entry) =? expected_l1_table_vaddr) then Some (- E_IN_PARAM, st')
      else install_loop (vaddr_iter + HUGE_PAGE_SIZE) n' st'
    else
      st ← radix_entry_unlock l0_entry (update_entry l0_entry install_flags expected_l1_table_vaddr 0 st);
      install_loop (vaddr_iter + HUGE_PAGE_SIZE) n' st
  end.
Definition vmm_radix_tree_install_shared_kernel_high_half st : option (Z * rst E) :=
  if (root_radix st =? 0) || invalid_ppn (kernel_radix_l1_table_base_ppn st) then Some (- E_IN_PARAM, st)
  else install_loop (256 * HUGE_PAGE_SIZE) 256 st.
End Ops.
