(* ===== verification/RadixWalk.v ===== *)
(** * Reading the radix tree

    Where an address lives in the tree ([rtab], [rnode]), trees whose tables are
    distinct ([radix_ok]), and the walker of vmm_radix_tree.c: at every position
    its four pointers are the path of the position, and a loop over a range
    visits each of its pages once. *)
From S2P Require Import Prelude Mm TaggedPtr CString PageTable PageTree Pmm KernelPages RadixTree RadixOps.

(** ** The tree as a reader sees it *)

Fixpoint rtab (m : Z -> Z) (root v : Z) (k : nat) : option Z :=
  match k with
  | O => Some root
  | S k' =>
    match rtab m root v k' with
    | None => None
    | Some t => let c := entry_child (m (t + 8 * idx k' v)) in if c =? 0 then None else Some c
    end
  end.
(** the entry of level [k], the leaf's node *)
Definition rentry (m : Z -> Z) (root v : Z) (k : nat) : option Z :=
  match rtab m root v k with None => None | Some t => Some (t + 8 * idx k v) end.
Definition rnode (m : Z -> Z) (root v : Z) : option Z :=
  match rtab m root v 3 with None => None | Some t => Some (t + 32 * idx 3 v) end.

Record radix_ok (m : Z -> Z) (root : Z) : Prop := {
  ro_words : forall a, 0 <= m a < 2 ^ 64;
  ro_root : 0 < root < 2 ^ 64 /\ root mod 4096 = 0;
  ro_inj : forall j k v v' t, (j <= 2)%nat -> (k <= 2)%nat -> rtab m root v j = Some t -> rtab m root v' k = Some t ->
    j = k /\ pre j v = pre j v';
  ro_apart : forall v v' t t', rtab m root v 3 = Some t -> rtab m root v' 3 = Some t' -> pre 3 v <> pre 3 v' ->
    t + 16384 <= t' \/ t' + 16384 <= t
}.

Section Reader.
Context (m : Z -> Z) (root : Z) (T : radix_ok m root).
Implicit Types (v t : Z) (j k : nat).

Lemma entry_child_page x : 0 <= x < 2 ^ 64 -> entry_child x mod 4096 = 0 /\ 0 <= entry_child x < 2 ^ 64.
Proof.
  intros Hx. unfold entry_child. change VMM_RADIX_PTR_MASK with (bnot 64 (u64 (2 ^ 12 - 1))).
  pose proof (bnot_pow2_low 12 x ltac:(lia) Hx) as E. rewrite E. change (2 ^ 12) with 4096. dlia.
Qed.
Lemma rtab_page v k t : rtab m root v k = Some t -> t mod 4096 = 0 /\ 0 < t < 2 ^ 64.
Proof.
  destruct k as [|k]; [intros [= <-]; destruct T as [? [? ?] ? ?]; lia|]. cbn [rtab]. destruct (rtab m root v k) as [t'|]; [|done].
  cbv zeta. destruct (Z.eqb_spec (entry_child (m (t' + 8 * idx k v))) 0); [done|]. intros [= <-].
  destruct (entry_child_page (m (t' + 8 * idx k v)) (ro_words _ _ T _)). lia.
Qed.
Lemma rtab_pre v v' k : pre k v = pre k v' -> rtab m root v k = rtab m root v' k.
Proof. induction k as [|k IH]; [done|]. intros [H1 H2]%pre_S. cbn [rtab]. by rewrite (IH H1), H2. Qed.
Lemma rnode_pre v v' : pre 4 v = pre 4 v' -> rnode m root v = rnode m root v'.
Proof. intros [H1 H2]%pre_S. unfold rnode. by rewrite (rtab_pre v v' 3 H1), H2. Qed.

(** nodes of different pages are different *)
Lemma rnode_inj v v' a : rnode m root v = Some a -> rnode m root v' = Some a -> pre 4 v = pre 4 v'.
Proof.
  unfold rnode. intros H1 H2. destruct (rtab m root v 3) as [t|] eqn:E1; [|done]. destruct (rtab m root v' 3) as [t'|] eqn:E2; [|done].
  assert (H1' : t + 32 * idx 3 v = a) by congruence. assert (H2' : t' + 32 * idx 3 v' = a) by congruence. clear H1 H2. pose proof (idx_range 3 v). pose proof (idx_range 3 v').
  apply pre_S. destruct (Z.eq_dec (pre 3 v) (pre 3 v')) as [Hp|Hp].
  - split; [done|]. rewrite (rtab_pre v v' 3 Hp) in E1. assert (t = t') by congruence. lia.
  - destruct (ro_apart _ _ T v v' t t' E1 E2 Hp); lia.
Qed.
Lemma rnode_pos v a : rnode m root v = Some a -> 0 < a.
Proof. unfold rnode. destruct (rtab m root v 3) as [t|] eqn:E; [|done]. intros H. assert (t + 32 * idx 3 v = a) by congruence. pose proof (rtab_page v 3 t E) as [_ ?]. pose proof (idx_range 3 v). lia. Qed.

(** *** The walker's pointers *)

Definition ptr (o : option Z) : Z := default 0 o.
Definition at_pos (s e d : Z) (level : nat) (va : Z) : walk :=
  mk_walk root s e d (Z.of_nat level) va
    (ptr (rentry m root va 0)) (if (1 <=? level)%nat then ptr (rentry m root va 1) else 0)
    (if (2 <=? level)%nat then ptr (rentry m root va 2) else 0) (if (3 <=? level)%nat then ptr (rnode m root va) else 0).

Lemma l0_ptr va : radix_l0_entry root va = ptr (rentry m root va 0) /\ 0 < ptr (rentry m root va 0).
Proof. split; [done|]. unfold rentry, ptr. cbn. destruct T as [? [? ?] ? ?]. pose proof (idx_range 0 va). cbn [idx] in *. lia. Qed.
Lemma next_ptr va k : (k <= 1)%nat -> ptr (rentry m root va k) <> 0 ->
  (let c := entry_child (m (ptr (rentry m root va k))) in if c =? 0 then 0 else c + 8 * idx (S k) va) = ptr (rentry m root va (S k)).
Proof.
  intros Hk Hp. unfold rentry in *. destruct (rtab m root va k) as [t|] eqn:E; [|done]. cbn [ptr default] in *. cbn [rtab]. rewrite E.
  cbv zeta. by destruct (_ =? 0).
Qed.
Lemma l3_ptr va : ptr (rentry m root va 2) <> 0 -> radix_l3_node m (ptr (rentry m root va 2)) va = ptr (rnode m root va).
Proof.
  intros Hp. unfold rentry, radix_l3_node, rnode in *. destruct (rtab m root va 2) as [t|] eqn:E; [|done]. cbn [ptr default] in *.
  change (rtab m root va 3) with (match rtab m root va 2 with None => None | Some t => let c := entry_child (m (t + 8 * idx 2 va)) in if c =? 0 then None else Some c end).
  rewrite E. cbv zeta. by destruct (_ =? 0).
Qed.
Lemma rentry_none va k : (k <= 1)%nat -> ptr (rentry m root va k) = 0 -> ptr (rentry m root va (S k)) = 0.
Proof.
  intros Hk H. unfold rentry in *. destruct (rtab m root va k) as [t|] eqn:E.
  - cbn in H. pose proof (rtab_page va k t E). pose proof (idx_range k va). lia.
  - cbn [rtab]. by rewrite E.
Qed.
Lemma rnode_none va : ptr (rentry m root va 2) = 0 -> ptr (rnode m root va) = 0.
Proof.
  intros H. unfold rentry, rnode in *. destruct (rtab m root va 2) as [t|] eqn:E.
  - change (t + 8 * idx 2 va = 0) in H. pose proof (rtab_page va 2 t E). pose proof (idx_range 2 va). lia.
  - cbn [rtab]. cbn [rtab] in E. by rewrite E.
Qed.

Lemma walk_path_at va level : (level <= 3)%nat ->
  walk_path m root va (Z.of_nat level) =
    (ptr (rentry m root va 0), if (1 <=? level)%nat then ptr (rentry m root va 1) else 0,
     if (2 <=? level)%nat then ptr (rentry m root va 2) else 0, if (3 <=? level)%nat then ptr (rnode m root va) else 0).
Proof.
  intros Hl. unfold walk_path. destruct (l0_ptr va) as [-> H0]. set (p0 := ptr (rentry m root va 0)) in *.
  assert (E0 : (p0 =? 0) = false) by (apply Z.eqb_neq; lia).
  assert (E1 : radix_l1_entry m p0 va = ptr (rentry m root va 1)) by (apply (next_ptr va 0); [lia|fold p0; lia]).
  rewrite E0, E1. set (p1 := ptr (rentry m root va 1)) in *.
  assert (E2 : (if negb (p1 =? 0) then radix_l2_entry m p1 va else 0) = ptr (rentry m root va 2)).
  { destruct (Z.eqb_spec p1 0) as [E|E]; cbn [negb]; [symmetry; by apply (rentry_none va 1)|apply (next_ptr va 1); [lia|done]]. }
  set (p2 := ptr (rentry m root va 2)) in *.
  assert (E3 : (if negb (p2 =? 0) then radix_l3_node m p2 va else 0) = ptr (rnode m root va)).
  { destruct (Z.eqb_spec p2 0) as [E|E]; cbn [negb]; [symmetry; by apply rnode_none|by apply l3_ptr]. }
  assert (Hc : level = 0%nat \/ level = 1%nat \/ level = 2%nat \/ level = 3%nat) by lia.
  destruct Hc as [-> | [-> | [-> | ->]]];
    repeat match goal with |- context [?a <=? Z.of_nat ?n] => let b := eval vm_compute in (a <=? Z.of_nat n) in change (a <=? Z.of_nat n) with b end;
    cbn [andb negb Nat.leb]; by rewrite ?E2, ?E3.
Qed.

Lemma walk_init_inc s e level : (level <= 3)%nat -> radix_tree_level_walk_init m root s e (Z.of_nat level) 1 = at_pos s e 1 level s.
Proof. intros Hl. unfold radix_tree_level_walk_init. cbn [Z.eqb RADIX_TREE_DIRECTION_INC Pos.eqb]. by rewrite (walk_path_at s level Hl). Qed.
Lemma walk_init_dec s e level : (level <= 3)%nat ->
  s <= ROUND_DOWN (u64 (e - 1)) (get_gran_from_level (Z.of_nat level)) < e ->
  radix_tree_level_walk_init m root s e (Z.of_nat level) (-1) =
    at_pos s e (-1) level (ROUND_DOWN (u64 (e - 1)) (get_gran_from_level (Z.of_nat level))).
Proof.
  intros Hl [H1 H2]. unfold radix_tree_level_walk_init. change (-1 =? RADIX_TREE_DIRECTION_INC) with false. cbv iota.
  rewrite (proj2 (Z.leb_le _ _) H1), (proj2 (Z.ltb_lt _ _) H2). cbn [andb negb]. by rewrite (walk_path_at _ level Hl).
Qed.

(** *** One step of a walk *)

Definition path (level : nat) (va : Z) : option Z := if (level =? 3)%nat then rnode m root va else rentry m root va level.

Lemma rentry_pre v v' k : pre (S k) v = pre (S k) v' -> rentry m root v k = rentry m root v' k.
Proof. intros [H1 H2]%pre_S. unfold rentry. by rewrite (rtab_pre v v' k H1), H2. Qed.
Lemma path_lower level k va : (k <= level <= 3)%nat -> (k <= 2)%nat -> is_Some (path level va) -> ptr (rentry m root va k) <> 0.
Proof.
  intros Hk Hk2 [a Ha] H0. assert (Hn : forall i, (k <= i <= 2)%nat -> ptr (rentry m root va i) = 0).
  { intros i [Hi Hi2]. induction Hi as [|i Hi IH]; [done|]. apply rentry_none; [lia|]. apply IH. lia. }
  unfold path in Ha. destruct (Nat.eqb_spec level 3) as [->|Hl].
  - pose proof (rnode_none va (Hn 2%nat ltac:(lia))) as H. rewrite Ha in H. pose proof (rnode_pos va a Ha). cbn in H. lia.
  - pose proof (Hn level ltac:(lia)) as H. rewrite Ha in H. unfold rentry in Ha. destruct (rtab m root va level) as [t|] eqn:E; [|done].
    injection Ha as Ha. cbn in H. pose proof (rtab_page va level t E). pose proof (idx_range level va). lia.
Qed.

Lemma same_top v v' k : (forall j, (j <= k)%nat -> idx j v = idx j v') -> pre (S k) v = pre (S k) v'.
Proof. induction k as [|k IH]; intros H; apply pre_S; (split; [|apply H; lia]); [done|]. apply IH. intros j Hj. apply H. lia. Qed.
Lemma same_ptr v v' k : (forall j, (j <= k)%nat -> idx j v = idx j v') -> ptr (rentry m root v k) = ptr (rentry m root v' k).
Proof. intros H. by rewrite (rentry_pre v v' k (same_top v v' k H)). Qed.
Lemma same_node v v' : (forall j, (j <= 2)%nat -> idx j v = idx j v') -> ptr (rnode m root v) <> 0 ->
  ptr (rnode m root v) + 32 * (L3_INDEX v' - L3_INDEX v) = ptr (rnode m root v').
Proof.
  intros H Hp. unfold rnode in *. rewrite (rtab_pre v v' 3 (same_top v v' 2 H)) in *. destruct (rtab m root v' 3) as [t|]; [|done].
  change (t + 32 * L3_INDEX v + 32 * (L3_INDEX v' - L3_INDEX v) = t + 32 * L3_INDEX v'). lia.
Qed.
Definition in_bounds (s e d : Z) (cur next : Z) : bool :=
  if d =? 1 then (next <? e) && (cur <=? next) else (s <=? next) && (next <=? cur).

Lemma walk_step s e d level cur : (level <= 3)%nat -> d = 1 \/ d = -1 ->
  let next := u64 (cur + get_gran_from_level (Z.of_nat level) * d) in
  is_Some (path level cur) -> is_Some (path level next) -> in_bounds s e d cur next = true ->
  radix_tree_level_walk m (at_pos s e d level cur) = Some (at_pos s e d level next).
Proof.
  intros Hl Hd next Hc Hx Hin. unfold radix_tree_level_walk. cbn [walk_level at_pos current_vaddr direction range_end_vaddr range_start_vaddr].
  assert (Hg : (get_gran_from_level (Z.of_nat level) =? 0) = false).
  { assert (Hcs : level = 0%nat \/ level = 1%nat \/ level = 2%nat \/ level = 3%nat) by lia. by destruct Hcs as [-> | [-> | [-> | ->]]]. }
  rewrite Hg. fold next.
  assert (Hout : (if d =? RADIX_TREE_DIRECTION_INC then (e <=? next) || (next <? cur)
                  else if d =? RADIX_TREE_DIRECTION_DEC then (next <? s) || (cur <? next) else false) = false).
  { unfold in_bounds in Hin. destruct Hd as [-> | ->].
    - change (1 =? 1) with true in Hin. change (1 =? RADIX_TREE_DIRECTION_INC) with true. cbv iota in *. apply andb_true_iff in Hin as [I1 I2]. bool_hyps. apply orb_false_iff. split; [apply Z.leb_gt|apply Z.ltb_ge]; lia.
    - change (-1 =? 1) with false in Hin. change (-1 =? RADIX_TREE_DIRECTION_INC) with false. change (-1 =? RADIX_TREE_DIRECTION_DEC) with true. cbv iota in *.
      apply andb_true_iff in Hin as [I1 I2]. bool_hyps. apply orb_false_iff. split; apply Z.ltb_ge; lia. }
  rewrite Hout. cbv iota. cbn [wk_root curr_l0_entry curr_l1_entry curr_l2_entry curr_l3_node at_pos]. unfold at_pos.
  destruct (l0_ptr next) as [F0 F0']. rewrite F0.
  assert (P1 : L0_INDEX cur = L0_INDEX next -> ptr (rentry m root cur 0) = ptr (rentry m root next 0)).
  { intros E0. apply same_ptr. intros [|j] Hj; [done|lia]. }
  assert (P2 : L0_INDEX cur = L0_INDEX next -> L1_INDEX cur = L1_INDEX next -> ptr (rentry m root cur 1) = ptr (rentry m root next 1)).
  { intros E0 E1. apply same_ptr. intros [|[|j]] Hj; [done|done|lia]. }
  assert (H3 : L0_INDEX cur = L0_INDEX next -> L1_INDEX cur = L1_INDEX next -> L2_INDEX cur = L2_INDEX next ->
    forall j, (j <= 2)%nat -> idx j cur = idx j next).
  { intros E0 E1 E2 [|[|[|j]]] Hj; [done|done|done|lia]. }
  assert (R1 : (1 <= level)%nat -> radix_l1_entry m (ptr (rentry m root next 0)) next = ptr (rentry m root next 1) /\ ptr (rentry m root next 1) <> 0).
  { intros Hk. split; [apply (next_ptr next 0); lia|apply (path_lower level); [lia|lia|done]]. }
  assert (R2 : (2 <= level)%nat -> radix_l2_entry m (ptr (rentry m root next 1)) next = ptr (rentry m root next 2) /\ ptr (rentry m root next 2) <> 0).
  { intros Hk. split; [apply (next_ptr next 1); [lia|apply R1; lia]|apply (path_lower level); [lia|lia|done]]. }
  assert (R3 : level = 3%nat -> radix_l3_node m (ptr (rentry m root next 2)) next = ptr (rnode m root next) /\ ptr (rnode m root next) <> 0 /\ ptr (rentry m root cur 2) <> 0).
  { intros ->. split; [apply l3_ptr, R2; lia|]. split; [|apply (path_lower 3); [lia|lia|done]]. destruct Hx as [a Ha]. cbn in Ha. pose proof (rnode_pos _ _ Ha). rewrite Ha. cbn. lia. }
  set (n0 := ptr (rentry m root next 0)) in *. set (n1 := ptr (rentry m root next 1)) in *. set (n2 := ptr (rentry m root next 2)) in *.
  set (c0 := ptr (rentry m root cur 0)) in *. set (c1 := ptr (rentry m root cur 1)) in *.
  assert (Hcs : level = 0%nat \/ (1 <= level)%nat) by lia. destruct Hcs as [Hcs|Hcs].
  { subst level. change (Z.of_nat 0 =? 0) with true. cbn [orb andb Nat.leb]. rewrite (proj2 (Z.eqb_neq n0 0)) by lia. done. }
  destruct (R1 Hcs) as [R1a R1b]. rewrite (proj2 (Z.eqb_neq (Z.of_nat level) 0)) by lia. cbn [orb].
  assert (E0' : (if negb (L0_INDEX cur =? L0_INDEX next) then n0 else c0) = n0).
  { destruct (Z.eqb_spec (L0_INDEX cur) (L0_INDEX next)) as [E|E]; cbn [negb]; [by apply P1|done]. }
  rewrite E0'. rewrite (proj2 (Z.eqb_neq n0 0)) by lia. rewrite andb_false_r.
  assert (E0'' : (if negb (L0_INDEX cur =? L0_INDEX next) || (Z.of_nat level =? 1) then n0 else c0) = n0).
  { destruct (Z.eqb_spec (L0_INDEX cur) (L0_INDEX next)) as [E|E]; cbn [negb orb]; [|done]. rewrite (P1 E). by destruct (_ =? 1). }
  rewrite E0'', (proj2 (Z.eqb_neq n0 0)) by lia. rewrite R1a.
  assert (L1 : (1 <=? level)%nat = true) by (by apply Nat.leb_le). rewrite L1.
  destruct (Z.eqb_spec (Z.of_nat level) 1) as [El|El].
  { cbn [orb]. rewrite (proj2 (Z.eqb_neq n1 0) R1b). cbn [andb]. rewrite !(proj2 (Nat.leb_gt _ _)) by lia. done. }
  assert (Hcs2 : (2 <= level)%nat) by lia. destruct (R2 Hcs2) as [R2a R2b]. rewrite (proj2 (Nat.leb_le 2 level) Hcs2). cbn [orb].
  set (b1 := negb (L1_INDEX cur =? L1_INDEX next) || negb (L0_INDEX cur =? L0_INDEX next)).
  assert (E1' : (if b1 then n1 else c1) = n1).
  { unfold b1. destruct (Z.eqb_spec (L1_INDEX cur) (L1_INDEX next)), (Z.eqb_spec (L0_INDEX cur) (L0_INDEX next)); cbn [negb orb]; try done. by apply P2. }
  rewrite E1', (proj2 (Z.eqb_neq n1 0) R1b). rewrite andb_false_r.
  assert (E1'' : (if b1 || (Z.of_nat level =? 2) then n1 else c1) = n1).
  { destruct b1; cbn [orb]; [done|]. rewrite <- E1'. by destruct (_ =? 2). }
  rewrite E1'', (proj2 (Z.eqb_neq n1 0) R1b), R2a.
  destruct (Z.eqb_spec (Z.of_nat level) 2) as [El2|El2].
  { cbn [orb]. rewrite (proj2 (Z.eqb_neq n2 0) R2b). cbn [andb]. rewrite !(proj2 (Nat.leb_gt _ _)) by lia. done. }
  assert (level = 3%nat) as -> by lia. destruct (R3 eq_refl) as (R3a & R3b & R3c). cbn [orb Nat.leb].
  rewrite (proj2 (Z.eqb_neq _ 0) R3c). unfold b1. clear b1 E1' E1'' E0' E0''.
  destruct (Z.eqb_spec (L0_INDEX cur) (L0_INDEX next)) as [X0|X0], (Z.eqb_spec (L1_INDEX cur) (L1_INDEX next)) as [X1|X1],
    (Z.eqb_spec (L2_INDEX cur) (L2_INDEX next)) as [X2|X2]; cbn [negb orb andb];
    rewrite ?(proj2 (Z.eqb_neq n2 0) R2b), ?R3a, ?(proj2 (Z.eqb_neq _ 0) R3b); try done.
  rewrite (same_ptr cur next 2 (H3 X0 X1 X2)). rewrite (same_node cur next (H3 X0 X1 X2)); [done|].
  destruct Hc as [a Ha]. cbn in Ha. pose proof (rnode_pos _ _ Ha). rewrite Ha. cbn. lia.
Qed.

Lemma walk_end s e d level cur :
  (if d =? 1 then e <= u64 (cur + get_gran_from_level (Z.of_nat level) * d) \/ u64 (cur + get_gran_from_level (Z.of_nat level) * d) < cur
   else u64 (cur + get_gran_from_level (Z.of_nat level) * d) < s \/ cur < u64 (cur + get_gran_from_level (Z.of_nat level) * d)) ->
  d = 1 \/ d = -1 -> radix_tree_level_walk m (at_pos s e d level cur) = None.
Proof.
  intros Hout Hd. unfold radix_tree_level_walk. cbn [walk_level at_pos current_vaddr direction range_end_vaddr range_start_vaddr].
  destruct (_ =? 0); [done|]. set (next := u64 _) in *.
  assert (E : (if d =? RADIX_TREE_DIRECTION_INC then (e <=? next) || (next <? cur)
               else if d =? RADIX_TREE_DIRECTION_DEC then (next <? s) || (cur <? next) else false) = true); [|by rewrite E].
  destruct Hd as [-> | ->].
  - change (1 =? 1) with true in Hout. change (1 =? RADIX_TREE_DIRECTION_INC) with true. cbv iota in *. apply orb_true_iff.
    destruct Hout; [left; by apply Z.leb_le|right; by apply Z.ltb_lt].
  - change (-1 =? 1) with false in Hout. change (-1 =? RADIX_TREE_DIRECTION_INC) with false. change (-1 =? RADIX_TREE_DIRECTION_DEC) with true.
    cbv iota in *. apply orb_true_iff. destruct Hout; [left|right]; by apply Z.ltb_lt.
Qed.

Lemma walk_check_pos s e d level cur : (level <= 3)%nat -> d = 1 \/ d = -1 -> s <= cur < e ->
  radix_tree_level_walk_check (at_pos s e d level cur) = true.
Proof.
  intros Hl Hd Hc. unfold radix_tree_level_walk_check, at_pos. cbn [wk_root direction walk_level range_start_vaddr range_end_vaddr current_vaddr].
  destruct T as [_ [Hr _] _ _]. rewrite (proj2 (Z.eqb_neq root 0)) by lia.
  assert (Hdd : (d =? RADIX_TREE_DIRECTION_INC) || (d =? RADIX_TREE_DIRECTION_DEC) = true) by (by destruct Hd as [-> | ->]). rewrite Hdd.
  rewrite !(proj2 (Z.leb_le _ _)), (proj2 (Z.ltb_lt _ _)) by lia. done.
Qed.
End Reader.

(** ** Ranges of pages *)

Definition pages (start : Z) (n : nat) : list Z := (fun i => start + 4096 * Z.of_nat i) <$> seq 0 n.
Lemma pages_S start n : pages start (S n) = start :: pages (start + 4096) n.
Proof.
  unfold pages. cbn [seq fmap list_fmap]. f_equal; [lia|]. rewrite <- fmap_S_seq, <- list_fmap_compose. apply list_fmap_ext. intros i x _. cbn. lia.
Qed.
Lemma elem_of_pages start n va : va ∈ pages start n <-> exists i, 0 <= i < Z.of_nat n /\ va = start + 4096 * i.
Proof.
  unfold pages. rewrite list_elem_of_fmap. split.
  - intros (i & -> & Hi). apply elem_of_seq in Hi. exists (Z.of_nat i). split; [lia|done].
  - intros (i & Hi & ->). exists (Z.to_nat i). split; [lia|]. apply elem_of_seq. lia.
Qed.

(** a range of the 48-bit address space, page-aligned *)
Record page_range (start : Z) (n : nat) : Prop := {
  pr_start : 0 <= start;
  pr_pos : (0 < n)%nat;
  pr_align : start mod 4096 = 0;
  pr_end : start + 4096 * Z.of_nat n < 2 ^ 64;
  pr_nowrap : start mod 2 ^ 48 + 4096 * Z.of_nat n <= 2 ^ 48
}.
Definition page_no (va : Z) : Z := pre 4 va.
(** is [va] in one of the [n] pages from [start] on *)
Definition in_pages (start : Z) (n : nat) (va : Z) : bool := (page_no start <=? page_no va) && (page_no va <? page_no start + Z.of_nat n).

Lemma page_no_div va : 0 <= va < 2 ^ 64 -> page_no va = (va mod 2 ^ 48) / 4096.
Proof. intros H. unfold page_no. rewrite (pre_div 3) by lia. change (2 ^ (39 - 9 * Z.of_nat 3)) with 4096. change (2 ^ (9 * (Z.of_nat 3 + 1))) with (2 ^ 36). dlia. Qed.
Lemma page_no_add start n i : page_range start n -> 0 <= i < Z.of_nat n -> page_no (start + 4096 * i) = page_no start + i.
Proof.
  intros [H1 H2 H3 H4 H5] Hi. rewrite !page_no_div by lia.
  assert (E : (start + 4096 * i) mod 2 ^ 48 = start mod 2 ^ 48 + 4096 * i).
  { rewrite <- (Z.mod_small (start mod 2 ^ 48 + 4096 * i) (2 ^ 48)) by dlia. by rewrite Zplus_mod_idemp_l. }
  rewrite E. dlia.
Qed.
Lemma in_pages_elem start n va : page_range start n -> in_pages start n va = true <-> exists va', va' ∈ pages start n /\ pre 4 va' = pre 4 va.
Proof.
  intros R. unfold in_pages. rewrite andb_true_iff, Z.leb_le, Z.ltb_lt. split.
  - intros [H1 H2]. exists (start + 4096 * (page_no va - page_no start)). split.
    + apply elem_of_pages. exists (page_no va - page_no start). lia.
    + fold (page_no va). fold (page_no (start + 4096 * (page_no va - page_no start))). rewrite (page_no_add start n) by (done || lia). lia.
  - intros (va' & (i & Hi & ->)%elem_of_pages & E). fold (page_no va) in E. fold (page_no (start + 4096 * i)) in E. rewrite (page_no_add start n) in E by done. lia.
Qed.

(** ** Loops over leaves *)
Section Leaves.
Context {E : Type} {HE : RadixEnv E}.
Implicit Types (st : rst E) (w : walk) (va : Z).

Definition leaf_addr st va : Z := ptr (rnode (ents st) (root_radix st) va).
(** the node of the page [va], when its tables exist *)
Definition leaf_of st va : option Radix_node_t := nodes st <$> rnode (ents st) (root_radix st) va.

(** every page of the range has its tables *)
Definition has_leaves st start (n : nat) : Prop := forall va, va ∈ pages start n -> is_Some (rnode (ents st) (root_radix st) va).

Record radix_tree st : Prop := { rt_ok : radix_ok (ents st) (root_radix st) }.

Lemma gran3 : get_gran_from_level (Z.of_nat 3) = 4096.
Proof. done. Qed.

Lemma no_error_some (body : walk -> rst E -> option (rst E)) w st st' : body w st = Some st' -> no_error body w st = Some (REND_SUCCESS, st').
Proof. intros H. unfold no_error. by rewrite H. Qed.

(** one pass with [f] over the leaves of a range *)
Lemma walk_loop_leaves (body : walk -> rst E -> option (rst E)) (f : Z -> rst E -> rst E) s e n :
  (forall w st, curr_l3_node w <> 0 -> body w st = Some (f (curr_l3_node w) st)) ->
  (forall a st, ents (f a st) = ents st /\ root_radix (f a st) = root_radix st) ->
  forall cur st fuel, radix_ok (ents st) (root_radix st) -> 0 <= cur -> (0 < n)%nat -> e = cur + 4096 * Z.of_nat n -> e < 2 ^ 64 ->
  has_leaves st cur n -> (n <= fuel)%nat ->
  exists w, walk_loop (no_error body) fuel (at_pos (ents st) (root_radix st) s e 1 3 cur) st =
    Some (REND_SUCCESS, w, foldl (fun st va => f (leaf_addr st va) st) st (pages cur n)).
Proof.
  intros Hb Hf. induction n as [|n IH]; intros cur st fuel T H0 Hn He Hlt Hh Hfuel; [lia|]. clear Hn.
  destruct fuel as [|fuel]; [lia|]. cbn [walk_loop].
  assert (Hcur : is_Some (rnode (ents st) (root_radix st) cur)) by (apply Hh, elem_of_pages; exists 0; lia).
  assert (Ha : curr_l3_node (at_pos (ents st) (root_radix st) s e 1 3 cur) = leaf_addr st cur) by done.
  assert (Hnz : leaf_addr st cur <> 0).
  { destruct Hcur as [a Ea]. unfold leaf_addr. rewrite Ea. pose proof (rnode_pos _ _ T cur a Ea). cbn. lia. }
  rewrite (no_error_some body _ _ _ (Hb (at_pos (ents st) (root_radix st) s e 1 3 cur) st Hnz)). rewrite Ha. cbn [mbind option_bind]. change (negb (REND_SUCCESS =? REND_SUCCESS)) with false. cbv iota.
  set (st1 := f (leaf_addr st cur) st). destruct (Hf (leaf_addr st cur) st) as [F1 F2]. fold st1 in F1, F2.
  rewrite pages_S. cbn [foldl]. fold st1. rewrite F1.
  destruct (Nat.eq_dec n 0%nat) as [->|Hn].
  - rewrite (walk_end (ents st) (root_radix st)); [by eexists| |by left].
    cbv iota. change (1 =? 1) with true. cbv iota. rewrite gran3. destruct (Z.ltb_spec (cur + 4096 * 1) (2 ^ 64)); [left; rewrite u64_small by lia; lia|lia].
  - assert (Hx : u64 (cur + get_gran_from_level (Z.of_nat 3) * 1) = cur + 4096) by (rewrite gran3, u64_small by lia; lia).
    pose proof (walk_step (ents st) (root_radix st) T s e 1 3 cur ltac:(lia) ltac:(by left)) as W. cbv zeta in W. rewrite Hx in W.
    rewrite W; [|exact Hcur| |].
    + destruct (IH (cur + 4096) st1 fuel) as (w & Ew); try lia.
      * by rewrite F1, F2.
      * intros va Hva. rewrite F1, F2. apply Hh. rewrite pages_S. by apply list_elem_of_further.
      * exists w. rewrite <- Ew. by rewrite F1, F2.
    + apply Hh, elem_of_pages. exists 1. lia.
    + unfold in_bounds. change (1 =? 1) with true. cbv iota. apply andb_true_iff. split; [apply Z.ltb_lt|apply Z.leb_le]; lia.
Qed.

(** [f] rewrites the node only *)
Lemma fold_put (h : Radix_node_t -> Radix_node_t) l st :
  radix_ok (ents st) (root_radix st) -> NoDup (page_no <$> l) -> (forall va, va ∈ l -> is_Some (rnode (ents st) (root_radix st) va)) ->
  let st' := foldl (fun st va => put_node (leaf_addr st va) (h (nodes st (leaf_addr st va))) st) st l in
  ents st' = ents st /\ root_radix st' = root_radix st /\ rmaps st' = rmaps st /\ renv st' = renv st /\
  forall va, leaf_of st' va = if bool_decide (page_no va ∈ page_no <$> l) then h <$> leaf_of st va else leaf_of st va.
Proof.
  revert st. induction l as [|x l IH]; intros st T Hnd Hh; cbn [foldl fmap list_fmap].
  { by split_and!. }
  cbn [fmap list_fmap] in Hnd. apply list.NoDup_cons in Hnd as [Hx Hnd].
  set (st1 := put_node _ _ st).
  destruct (IH st1 T Hnd) as (I1 & I2 & I3 & I4 & I5); [intros va Hva; apply Hh; by apply list_elem_of_further|].
  split_and!; [by rewrite I1|by rewrite I2|by rewrite I3|by rewrite I4|]. intros va. rewrite I5.
  destruct (Hh x ltac:(by apply list_elem_of_here)) as [a Ea].
  assert (Hl : leaf_of st1 va = if bool_decide (page_no va = page_no x) then h <$> leaf_of st va else leaf_of st va).
  { unfold leaf_of. change (ents st1) with (ents st). change (root_radix st1) with (root_radix st).
    destruct (rnode (ents st) (root_radix st) va) as [b|] eqn:Eb; cbn [fmap option_fmap option_map]; [|by case_bool_decide].
    unfold st1, leaf_addr. rewrite Ea. change (ptr (Some a)) with a. cbn [put_node set_nodes nodes]. destruct (Z.eqb_spec b a) as [->|Hne].
    - pose proof (rnode_inj _ _ T va x a Eb Ea) as Hp. by rewrite bool_decide_eq_true_2.
    - rewrite bool_decide_eq_false_2; [done|]. intros Hp. rewrite (rnode_pre _ _ va x Hp) in Eb. congruence. }
  rewrite Hl. destruct (decide (page_no va = page_no x)) as [Hp|Hp].
  - rewrite (bool_decide_eq_false_2 (page_no va ∈ page_no <$> l)) by (by rewrite Hp).
    rewrite bool_decide_eq_true_2 by done. by rewrite bool_decide_eq_true_2 by (rewrite Hp; apply list_elem_of_here).
  - rewrite (bool_decide_eq_false_2 (page_no va = page_no x)) by done.
    assert (Hiff : page_no va ∈ page_no x :: (page_no <$> l) <-> page_no va ∈ page_no <$> l) by (rewrite elem_of_cons; tauto).
    by rewrite (bool_decide_ext _ _ Hiff).
Qed.

Lemma pages_nodup start n : page_range start n -> NoDup (page_no <$> pages start n).
Proof.
  intros R. apply NoDup_fmap_2_strong.
  - intros x y (i & Hi & ->)%elem_of_pages (j & Hj & ->)%elem_of_pages Eq. rewrite !(page_no_add start n) in Eq by done. lia.
  - unfold pages. apply NoDup_fmap_2; [intros i j Hij; lia|apply NoDup_seq].
Qed.
Lemma in_pages_fmap start n va : page_range start n -> bool_decide (page_no va ∈ page_no <$> pages start n) = in_pages start n va.
Proof.
  intros R. apply eq_true_iff_eq. rewrite bool_decide_eq_true, in_pages_elem by done. rewrite list_elem_of_fmap.
  split; intros (x & H1 & H2); exists x; by split.
Qed.
End Leaves.
