(* ===== verification/RadixSpec.v ===== *)
(** * Ranges of leaves: what reserving, binding, unbinding and querying do

    On a tree whose tables are distinct ([radix_ok]), for a page-aligned range
    whose tables exist ([has_leaves], what a taken range lock provides), the
    operations of [RadixOps] are described by the leaves before and after, on
    every branch: a failed binding is rolled back, a refused unbinding changes
    nothing.  The fuel is one unit per page of the range. *)
From S2P Require Import Prelude Mm TaggedPtr CString PageTable PageTree Pmm KernelPages RadixTree RadixOps RadixWalk.

Lemma filter_all (P : Z -> Prop) `{!forall x, Decision (P x)} (l : list Z) : (forall x, x ∈ l -> P x) -> filter P l = l.
Proof.
  induction l as [|x l IH]; intros HP; [done|]. rewrite filter_cons_True by (apply HP, list_elem_of_here).
  f_equal. apply IH. intros y Hy. by apply HP, list_elem_of_further.
Qed.

Lemma filter_ne_notin (a : Z) (l : list Z) : ~ a ∈ l -> filter (fun x => x <> a) l = l.
Proof. intros Hn. apply filter_all. by intros x Hx ->. Qed.

Section Leaves.
Context {E : Type} {HE : RadixEnv E}.
Implicit Types (st : rst E) (w : walk) (va : Z).

Lemma leaf_walk_pos st start n : radix_ok (ents st) (root_radix st) -> page_range start n ->
  let e := start + 4096 * Z.of_nat n in
  leaf_walk start e st = at_pos (ents st) (root_radix st) start e 1 3 start /\
  radix_tree_level_walk_check (leaf_walk start e st) = true /\ (root_radix st =? 0) = false.
Proof.
  intros T R e. assert (Ew : leaf_walk start e st = at_pos (ents st) (root_radix st) start e 1 3 start).
  { exact (walk_init_inc (ents st) (root_radix st) T start e 3 ltac:(lia)). }
  split; [done|]. rewrite Ew. split.
  - apply walk_check_pos; [done|lia|by left|]. pose proof (pr_pos _ _ R). unfold e. lia.
  - apply Z.eqb_neq. pose proof (ro_root _ _ T). lia.
Qed.

(** a loop that rewrites each node of a range with [h] *)
Lemma rewrite_leaves (h : Radix_node_t -> Radix_node_t) (body : walk -> rst E -> option (rst E)) st start n fuel :
  (forall w st, curr_l3_node w <> 0 -> body w st = Some (put_node (curr_l3_node w) (h (nodes st (curr_l3_node w))) st)) ->
  radix_ok (ents st) (root_radix st) -> page_range start n -> has_leaves st start n -> (n <= fuel)%nat ->
  exists w st', walk_loop (no_error body) fuel (leaf_walk start (start + 4096 * Z.of_nat n) st) st = Some (REND_SUCCESS, w, st') /\
    ents st' = ents st /\ root_radix st' = root_radix st /\ rmaps st' = rmaps st /\ renv st' = renv st /\
    forall va, leaf_of st' va = if in_pages start n va then h <$> leaf_of st va else leaf_of st va.
Proof.
  intros Hb T R Hh Hf. destruct (leaf_walk_pos st start n T R) as (-> & _ & _).
  destruct (walk_loop_leaves body (fun a st => put_node a (h (nodes st a)) st) start (start + 4096 * Z.of_nat n) n Hb ltac:(done)
    start st fuel T (pr_start _ _ R) (pr_pos _ _ R) eq_refl (pr_end _ _ R) Hh Hf) as (w & Ew).
  exists w. eexists. split; [exact Ew|].
  destruct (fold_put h (pages start n) st T (pages_nodup start n R) Hh) as (F1 & F2 & F3 & F4 & F5).
  split_and!; [done..|]. intros va. rewrite F5. by rewrite (in_pages_fmap start n va R).
Qed.

Lemma insert_range_effect vs owner_info start n fl fuel st :
  rv_pmm vs = true -> radix_ok (ents st) (root_radix st) -> page_range start n -> has_leaves st start n -> (n <= fuel)%nat ->
  exists st', vmm_radix_tree_insert_range vs owner_info start fl (start + 4096 * Z.of_nat n) fuel st = Some (REND_SUCCESS, st') /\
    ents st' = ents st /\ root_radix st' = root_radix st /\ rmaps st' = rmaps st /\ renv st' = renv st /\
    forall va, leaf_of st' va =
      if in_pages start n va then (fun nd => mk_rnode (lazy_flags fl) (rmap_list nd) owner_info) <$> leaf_of st va else leaf_of st va.
Proof.
  intros Hp T R Hh Hf. unfold vmm_radix_tree_insert_range. destruct (leaf_walk_pos st start n T R) as (_ & -> & ->). rewrite Hp. cbn [negb orb].
  destruct (rewrite_leaves (fun nd => mk_rnode (lazy_flags fl) (rmap_list nd) owner_info) (reserve_leaf (lazy_flags fl) owner_info) st start n fuel)
    as (w & st' & -> & X); [|done..|].
  - intros w s Hw. unfold reserve_leaf. by rewrite (proj2 (Z.eqb_neq _ 0) Hw).
  - exists st'. split; [done|]. exact X.
Qed.

Lemma change_range_flag_effect vs start n new_flags fuel st :
  rv_pmm vs = true -> radix_ok (ents st) (root_radix st) -> page_range start n -> has_leaves st start n -> (n <= fuel)%nat ->
  exists st', vmm_radix_tree_change_range_flag vs start (start + 4096 * Z.of_nat n) new_flags fuel st = Some (REND_SUCCESS, st') /\
    ents st' = ents st /\ root_radix st' = root_radix st /\ rmaps st' = rmaps st /\ renv st' = renv st /\
    forall va, leaf_of st' va = if in_pages start n va then set_flags new_flags <$> leaf_of st va else leaf_of st va.
Proof.
  intros Hp T R Hh Hf. unfold vmm_radix_tree_change_range_flag. destruct (leaf_walk_pos st start n T R) as (_ & -> & ->). rewrite Hp. cbn [negb orb].
  destruct (rewrite_leaves (set_flags new_flags) (change_flag new_flags) st start n fuel) as (w & st' & -> & X); [|done..|].
  - intros w s Hw. unfold change_flag. by rewrite (proj2 (Z.eqb_neq _ 0) Hw).
  - exists st'. split; [done|]. exact X.
Qed.

Lemma query_range_effect vs start st : rv_pmm vs = true -> radix_ok (ents st) (root_radix st) -> page_range start 1 ->
  vmm_radix_tree_query_range vs start (start + 4096) st =
    match leaf_of st start with
    | Some nd => (REND_SUCCESS, flags nd, owner nd)
    | None => (- E_REND_NOFOUND, 0, tp_new_none)
    end.
Proof.
  intros Hp T R. unfold vmm_radix_tree_query_range. destruct (leaf_walk_pos st start 1 T R) as (Ew & Ec & ->).
  change (4096 * Z.of_nat 1) with 4096 in *. rewrite Ec, Ew, Hp. cbn [negb orb]. unfold at_pos. cbn [curr_l3_node Nat.leb]. unfold leaf_of.
  destruct (rnode (ents st) (root_radix st) start) as [a|] eqn:Ea; [|done]. cbn [ptr default fmap option_fmap option_map].
  pose proof (rnode_pos _ _ T start a Ea). change (id a) with a. by rewrite (proj2 (Z.eqb_neq a 0)) by lia.
Qed.

(** ** Binding *)

(** the node of the [k]-th page of a range *)
Definition nth_leaf st start (k : Z) : Z := leaf_addr st (start + 4096 * k).

Lemma nth_leaf_some st start n k : has_leaves st start n -> 0 <= k < Z.of_nat n ->
  rnode (ents st) (root_radix st) (start + 4096 * k) = Some (nth_leaf st start k).
Proof.
  intros Hh Hk. destruct (Hh (start + 4096 * k)) as [a Ea]; [apply elem_of_pages; by exists k|]. unfold nth_leaf, leaf_addr. by rewrite Ea.
Qed.
Lemma nth_leaf_inj st start n i k : radix_ok (ents st) (root_radix st) -> page_range start n -> has_leaves st start n ->
  0 <= i < Z.of_nat n -> 0 <= k < Z.of_nat n -> nth_leaf st start i = nth_leaf st start k -> i = k.
Proof.
  intros T R Hh Hi Hk Eq. pose proof (nth_leaf_some st start n i Hh Hi) as H1. pose proof (nth_leaf_some st start n k Hh Hk) as H2. rewrite Eq in H1.
  pose proof (rnode_inj _ _ T _ _ _ H1 H2) as Hp. fold (page_no (start + 4096 * i)) in Hp. fold (page_no (start + 4096 * k)) in Hp.
  rewrite !(page_no_add start n) in Hp by done. lia.
Qed.

(** tables, root and environment are those of [st0] *)
Definition same_tables st0 st : Prop := ents st = ents st0 /\ root_radix st = root_radix st0 /\ renv st = renv st0.

Section Bind.
Context (st0 : rst E) (start : Z) (n : nat) (ppn_first : Z).
Context (T : radix_ok (ents st0) (root_radix st0)) (R : page_range start n) (Hh : has_leaves st0 start n).
Context (Hppn : 0 <= ppn_first /\ ppn_first + Z.of_nat n <= 2 ^ 52).
Notation L k := (nth_leaf st0 start k).

(** a node that is free to be bound is on no list *)
Definition detached st : Prop := forall k p, 0 <= k < Z.of_nat n -> ~ L k ∈ rmaps st p.

(** the first [j] leaves are bound with flags [F], those from [j] to [i] were
    bound and undone with flags [G] *)
Record bind_progress (F G i j : Z) st : Prop := {
  pg_tables : same_tables st0 st;
  pg_bound : forall k, 0 <= k < j -> nodes st (L k) = mk_rnode F (Some (ppn_first + k)) (owner (nodes st0 (L k)));
  pg_undone : forall k, j <= k < i -> nodes st (L k) = mk_rnode G None (owner (nodes st0 (L k)));
  pg_other : forall a, (forall k, 0 <= k < i -> a <> L k) -> nodes st a = nodes st0 a;
  pg_rmaps : forall p, rmaps st p = if (ppn_first <=? p) && (p <? ppn_first + j) then L (p - ppn_first) :: rmaps st0 p else rmaps st0 p
}.

Lemma bind_progress_start F G : bind_progress F G 0 0 st0.
Proof. constructor; [done|lia|lia|done|]. intros p. destruct (Z.leb_spec ppn_first p), (Z.ltb_spec p (ppn_first + 0)); cbn [andb]; try done. lia. Qed.

Lemma at_same st s e d level cur : same_tables st0 st -> at_pos (ents st) (root_radix st) s e d level cur = at_pos (ents st0) (root_radix st0) s e d level cur.
Proof. intros (-> & -> & _). done. Qed.
Lemma L_pos k : 0 <= k < Z.of_nat n -> (L k =? 0) = false.
Proof. intros Hk. apply Z.eqb_neq. pose proof (rnode_pos _ _ T _ _ (nth_leaf_some st0 start n k Hh Hk)). lia. Qed.
Lemma L_inj i k : 0 <= i < Z.of_nat n -> 0 <= k < Z.of_nat n -> L i = L k -> i = k.
Proof. by apply nth_leaf_inj. Qed.

Definition bindable (vs : rspace) (k : Z) : bool :=
  test_bits (flags (nodes st0 (L k))) PAGE_ENTRY_LAZY && negb (test_bits (flags (nodes st0 (L k))) PAGE_ENTRY_VALID) && zone_has vs (ppn_first + k).

Lemma bind_step vs leaf_flags G k st w : rv_pmm vs = true -> 0 <= k < Z.of_nat n -> curr_l3_node w = L k ->
  bind_progress (Z.lor (rm_sw leaf_flags) PAGE_ENTRY_VALID) G k k st ->
  if bindable vs k then
    exists st', bind_leaf vs ppn_first leaf_flags k w st = (REND_SUCCESS, st') /\ bind_progress (Z.lor (rm_sw leaf_flags) PAGE_ENTRY_VALID) G (k + 1) (k + 1) st'
  else bind_leaf vs ppn_first leaf_flags k w st = (- E_IN_PARAM, st).
Proof.
  intros Hpm Hk Hw Pg. pose proof Pg as [P1 P2 P3 P4 P5]. unfold bind_leaf. rewrite Hw, (L_pos k Hk). cbn [orb].
  assert (Hold : nodes st (L k) = nodes st0 (L k)).
  { apply P4. intros i Hi Eq. apply L_inj in Eq; lia. }
  rewrite Hold. unfold bindable. destruct (test_bits (flags (nodes st0 (L k))) PAGE_ENTRY_LAZY); cbn [negb orb andb]; [|done].
  destruct (test_bits (flags (nodes st0 (L k))) PAGE_ENTRY_VALID); cbn [negb andb]; [done|].
  unfold radix_leaf_link_rmap. rewrite Hpm, (L_pos k Hk), orb_false_r. rewrite i64_small by lia.
  assert (Hiv : invalid_ppn (ppn_first + k) = false) by (unfold invalid_ppn; rewrite i64_small by lia; apply Z.ltb_ge; lia). rewrite Hiv. cbn [negb orb].
  destruct (zone_has vs (ppn_first + k)); cbn [negb]; [|done]. change (negb (REND_SUCCESS =? REND_SUCCESS)) with false. cbv iota.
  eexists. split; [done|]. constructor.
  - done.
  - intros i Hi. cbn [put_node set_nodes nodes rmap_add set_rmaps]. destruct (Z.eqb_spec (L i) (L k)) as [Eq|Eq].
    + assert (i = k) as -> by (apply L_inj; lia). rewrite Z.eqb_refl. cbn. by rewrite Hold.
    + apply P2. assert (i <> k) by (intros ->; done). lia.
  - lia.
  - intros a Ha. cbn [put_node set_nodes nodes rmap_add set_rmaps]. rewrite (proj2 (Z.eqb_neq a (L k))) by (apply Ha; lia). apply P4. intros i Hi. apply Ha. lia.
  - intros p. cbn [put_node set_nodes rmaps rmap_add set_rmaps]. rewrite P5. destruct (Z.eqb_spec p (ppn_first + k)) as [->|Hp].
    + rewrite (proj2 (Z.ltb_ge _ _)), andb_false_r by lia. rewrite (proj2 (Z.leb_le _ _)), (proj2 (Z.ltb_lt _ _)) by lia. cbn [andb]. by replace (ppn_first + k - ppn_first) with k by lia.
    + destruct (Z.leb_spec ppn_first p), (Z.ltb_spec p (ppn_first + k)), (Z.ltb_spec p (ppn_first + (k + 1))); cbn [andb]; try done; lia.
Qed.

(** the first page from [k] on that cannot be bound, or [n] *)
Fixpoint first_bad (vs : rspace) (k : Z) (left : nat) : Z :=
  match left with O => k | S left' => if bindable vs k then first_bad vs (k + 1) left' else k end.
Lemma first_bad_spec vs k left : let i := first_bad vs k left in
  k <= i <= k + Z.of_nat left /\ (forall x, k <= x < i -> bindable vs x = true) /\ (i < k + Z.of_nat left -> bindable vs i = false).
Proof.
  revert k. induction left as [|left IH]; intros k; cbn [first_bad]; [split_and!; intros; lia|].
  destruct (bindable vs k) eqn:Eb; [|split_and!; [lia|lia|lia|done]].
  destruct (IH (k + 1)) as (I1 & I2 & I3). split_and!; [lia|lia| |intros; apply I3; lia].
  intros x Hx. destruct (Z.eq_dec x k) as [->|]; [done|]. apply I2. lia.
Qed.

Let e : Z := start + 4096 * Z.of_nat n.
Definition pos (d k : Z) : walk := at_pos (ents st0) (root_radix st0) start e d 3 (start + 4096 * k).

Lemma pos_next d k : 0 <= k < Z.of_nat n -> d = 1 \/ d = -1 ->
  radix_tree_level_walk (ents st0) (pos d k) = if (0 <=? k + d) && (k + d <? Z.of_nat n) then Some (pos d (k + d)) else None.
Proof.
  intros Hk Hd. destruct R as [R1 R2 R3 R4 R5]. unfold pos.
  destruct ((0 <=? k + d) && (k + d <? Z.of_nat n)) eqn:Eb.
  - apply andb_true_iff in Eb as [E1 E2]. bool_hyps.
    assert (Hx : u64 (start + 4096 * k + get_gran_from_level (Z.of_nat 3) * d) = start + 4096 * (k + d)).
    { change (get_gran_from_level (Z.of_nat 3)) with 4096. rewrite u64_small by lia. lia. }
    pose proof (walk_step (ents st0) (root_radix st0) T start e d 3 (start + 4096 * k) ltac:(lia) Hd) as W. cbv zeta in W. rewrite Hx in W. apply W.
    + unfold path. cbn [Nat.eqb]. rewrite (nth_leaf_some st0 start n k Hh Hk). by eexists.
    + unfold path. cbn [Nat.eqb]. rewrite (nth_leaf_some st0 start n (k + d) Hh) by lia. by eexists.
    + unfold in_bounds. destruct Hd as [-> | ->].
      * change (1 =? 1) with true. cbv iota. apply andb_true_iff. split; [apply Z.ltb_lt|apply Z.leb_le]; unfold e; lia.
      * change (-1 =? 1) with false. cbv iota. apply andb_true_iff. split; apply Z.leb_le; unfold e; lia.
  - apply walk_end; [|done]. change (get_gran_from_level (Z.of_nat 3)) with 4096. apply andb_false_iff in Eb.
    destruct Hd as [-> | ->].
    + change (1 =? 1) with true. cbv iota. left. rewrite u64_small by lia. destruct Eb as [Eb|Eb]; bool_hyps; unfold e; lia.
    + change (-1 =? 1) with false. cbv iota. assert (k = 0) as -> by (destruct Eb; bool_hyps; lia).
      destruct (Z.le_gt_cases 4096 start); [left; rewrite u64_small by lia; lia|].
      assert (start = 0) as -> by dlia. right. change (u64 (0 + 4096 * 0 + 4096 * -1)) with (2 ^ 64 - 4096). lia.
Qed.

Lemma same_walk st w : same_tables st0 st -> radix_tree_level_walk (ents st) w = radix_tree_level_walk (ents st0) w.
Proof. intros (-> & _). done. Qed.
Lemma pos_leaf d k : curr_l3_node (pos d k) = L k.
Proof. done. Qed.

Lemma bind_loop_effect vs leaf_flags G left k st fuel : rv_pmm vs = true ->
  let F := Z.lor (rm_sw leaf_flags) PAGE_ENTRY_VALID in
  0 <= k -> k + Z.of_nat left = Z.of_nat n -> (0 < left <= fuel)%nat -> bind_progress F G k k st ->
  let i := first_bad vs k left in
  exists st', bind_progress F G i i st' /\
    bind_loop vs ppn_first leaf_flags k fuel (pos 1 k) st =
      if i =? Z.of_nat n then Some (REND_SUCCESS, i, pos 1 (i - 1), st') else Some (- E_IN_PARAM, i, pos 1 i, st').
Proof.
  intros Hpm F. revert k st fuel. induction left as [|left IH]; intros k st fuel Hk Hl Hf Pg; [lia|]. destruct fuel as [|fuel]; [lia|].
  cbn [bind_loop first_bad]. pose proof (bind_step vs leaf_flags G k st (pos 1 k) Hpm ltac:(lia) (pos_leaf 1 k) Pg) as B.
  destruct (bindable vs k) eqn:Eb.
  - destruct B as (st1 & -> & Pg1). change (negb (REND_SUCCESS =? REND_SUCCESS)) with false. cbv iota.
    rewrite (same_walk st1 _ (pg_tables _ _ _ _ _ Pg1)), (pos_next 1 k) by (lia || by left).
    destruct (Nat.eq_dec left 0%nat) as [->|Hn].
    + rewrite (proj2 (Z.ltb_ge (k + 1) _)), andb_false_r by lia. exists st1. split; [exact Pg1|]. cbn [first_bad].
      rewrite (proj2 (Z.eqb_eq (k + 1) _)) by lia. by replace (k + 1 - 1) with k by lia.
    + rewrite (proj2 (Z.leb_le 0 _)), (proj2 (Z.ltb_lt (k + 1) _)) by lia. cbn [andb]. apply IH; [lia|lia|lia|exact Pg1].
  - rewrite B. change (negb (- E_IN_PARAM =? REND_SUCCESS)) with true. cbv iota. exists st. split; [exact Pg|].
    by rewrite (proj2 (Z.eqb_neq k _)) by lia.
Qed.

Lemma undo_step vs F G i j st : rv_pmm vs = true -> (forall k, 0 <= k < Z.of_nat n -> bindable vs k = true -> zone_has vs (ppn_first + k) = true) ->
  0 <= j < i -> i <= Z.of_nat n -> (forall k, 0 <= k < i -> bindable vs k = true) -> detached st0 -> bind_progress F G i (j + 1) st ->
  bind_progress F G i j (let st := radix_leaf_unlink_rmap vs (i64 (ppn_first + j)) (L j) st in put_node (L j) (set_flags G (nodes st (L j))) st).
Proof.
  intros Hpm Hz Hj Hi Hb Hdet [P1 P2 P3 P4 P5]. unfold radix_leaf_unlink_rmap. rewrite Hpm, (L_pos j) by lia. rewrite i64_small by lia.
  assert (Hiv : invalid_ppn (ppn_first + j) = false) by (unfold invalid_ppn; rewrite i64_small by lia; apply Z.ltb_ge; lia).
  rewrite Hiv, (Hz j) by (lia || apply Hb; lia). cbn [negb orb]. unfold rmap_del. rewrite (P2 j) by lia. cbn [rmap_list]. cbv zeta. constructor.
  - done.
  - intros k Hk. cbn [put_node set_nodes nodes set_rmaps]. rewrite (proj2 (Z.eqb_neq (L k) (L j))); [apply P2; lia|]. intros Eq. apply L_inj in Eq; lia.
  - intros k Hk. cbn [put_node set_nodes nodes set_rmaps]. destruct (Z.eqb_spec (L k) (L j)) as [Eq|Eq].
    + assert (k = j) as -> by (apply L_inj; lia). rewrite Z.eqb_refl. cbn. done.
    + apply P3. assert (k <> j) by (intros ->; done). lia.
  - intros a Ha. cbn [put_node set_nodes nodes set_rmaps]. rewrite (proj2 (Z.eqb_neq a (L j))) by (apply Ha; lia). by apply P4.
  - intros p. cbn [put_node set_nodes rmaps set_rmaps]. rewrite !P5. destruct (Z.eqb_spec p (ppn_first + j)) as [->|Hp].
    + rewrite (proj2 (Z.leb_le _ _)), (proj2 (Z.ltb_lt (ppn_first + j) (ppn_first + (j + 1)))), (proj2 (Z.ltb_ge (ppn_first + j) (ppn_first + j))) by lia. cbn [andb].
      replace (ppn_first + j - ppn_first) with j by lia. rewrite filter_cons_False by (intros Hx; by apply Hx).
      apply filter_ne_notin. apply Hdet. lia.
    + destruct (Z.leb_spec ppn_first p), (Z.ltb_spec p (ppn_first + (j + 1))), (Z.ltb_spec p (ppn_first + j)); cbn [andb]; try done; lia.
Qed.

Lemma rollback_effect vs leaf_flags F i j st fuel : rv_pmm vs = true ->
  let G := Z.lor (rm_sw leaf_flags) PAGE_ENTRY_LAZY in
  0 <= j <= i -> i <= Z.of_nat n -> j < Z.of_nat n -> (forall k, 0 <= k < i -> bindable vs k = true) -> detached st0 -> bind_progress F G i j st ->
  (Z.to_nat j <= fuel)%nat ->
  exists st', bind_progress F G i 0 st' /\ bind_rollback vs ppn_first leaf_flags j fuel (pos (-1) j) st = Some st'.
Proof.
  intros Hpm G Hj Hi Hjn Hb Hdet. remember (Z.to_nat j) as r eqn:Er. revert j st fuel Er Hj Hjn. induction r as [|r IH]; intros j st fuel Er Hj Hjn Pg Hf.
  - assert (j = 0) as -> by lia. exists st. split; [exact Pg|]. by destruct fuel.
  - destruct fuel as [|fuel]; [lia|]. cbn [bind_rollback]. rewrite (proj2 (Z.eqb_neq j 0)) by lia.
    rewrite (same_walk st _ (pg_tables _ _ _ _ _ Pg)), (pos_next (-1) j) by (lia || by right).
    rewrite (proj2 (Z.leb_le 0 _)), (proj2 (Z.ltb_lt (j + -1) _)) by lia. cbn [andb]. rewrite pos_leaf. replace (j + -1) with (j - 1) by lia. cbv zeta.
    rewrite (L_pos (j - 1)) by lia.
    replace j with (j - 1 + 1) in Pg by lia.
    pose proof (undo_step vs F G i (j - 1) st Hpm) as U. cbv zeta in U. apply (IH (j - 1)); [lia|lia|lia| |lia]. apply U; try done; try lia.
    intros k Hk Hbk. unfold bindable in Hbk. by apply andb_true_iff in Hbk as [_ ?].
Qed.

(** *** Unbinding *)

(** the nodes of the pages from the [j]-th on *)
Definition Ls (j : nat) : list Z := (fun i => L (Z.of_nat i)) <$> seq j (n - j).
Lemma Ls_S j : (j < n)%nat -> Ls j = L (Z.of_nat j) :: Ls (S j).
Proof. intros Hj. unfold Ls. replace (n - j)%nat with (S (n - S j)) by lia. done. Qed.
Lemma elem_of_Ls j x : x ∈ Ls j <-> exists k, Z.of_nat j <= k < Z.of_nat n /\ x = L k.
Proof.
  unfold Ls. rewrite list_elem_of_fmap. split.
  - intros (i & -> & Hi%elem_of_seq). exists (Z.of_nat i). split; [lia|done].
  - intros (k & Hk & ->). exists (Z.to_nat k). split; [by rewrite Z2Nat.id by lia|]. apply elem_of_seq. lia.
Qed.

(** a leaf of the range is on the list its node names, and on no other *)
Definition linked st : Prop := forall k p, 0 <= k < Z.of_nat n -> L k ∈ rmaps st p -> rmap_list (nodes st (L k)) = Some p.

(** the leaves from the [j]-th page on are unbound *)
Record unbound (j : nat) st : Prop := {
  ub_tables : same_tables st0 st;
  ub_done : forall k, Z.of_nat j <= k < Z.of_nat n ->
    nodes st (L k) = mk_rnode (unbound_flags (flags (nodes st0 (L k)))) None (owner (nodes st0 (L k)));
  ub_other : forall a, ~ a ∈ Ls j -> nodes st a = nodes st0 a;
  ub_rmaps : forall p, rmaps st p = filter (fun x => ~ x ∈ Ls j) (rmaps st0 p)
}.
Lemma Ls_end : Ls n = [].
Proof. unfold Ls. by rewrite Nat.sub_diag. Qed.
Lemma unbound_start : unbound n st0.
Proof.
  constructor; [done|lia|done|]. intros p. rewrite Ls_end. symmetry. apply filter_all. intros x _ Hx. by apply elem_of_nil in Hx.
Qed.

Lemma filter_step (x : Z) (l1 l : list Z) : filter (fun y => y <> x) (filter (fun y => ~ y ∈ l1) l) = filter (fun y => ~ y ∈ x :: l1) l.
Proof. rewrite list_filter_filter. apply list_filter_iff. intros y. rewrite elem_of_cons. tauto. Qed.

Lemma unbind_step vs j st : rv_pmm vs = true -> (j < n)%nat -> zone_has vs (ppn_first + Z.of_nat j) = true -> linked st0 -> unbound (S j) st ->
  unbound j (let st := radix_leaf_unlink_rmap vs (i64 (ppn_first + Z.of_nat j)) (L (Z.of_nat j)) st in
             put_node (L (Z.of_nat j)) (set_flags (unbound_flags (flags (nodes st (L (Z.of_nat j))))) (nodes st (L (Z.of_nat j)))) st).
Proof.
  intros Hpm Hj Hz Hl [U1 U2 U3 U4]. unfold radix_leaf_unlink_rmap. rewrite Hpm, (L_pos (Z.of_nat j)) by lia. rewrite i64_small by lia.
  assert (Hiv : invalid_ppn (ppn_first + Z.of_nat j) = false) by (unfold invalid_ppn; rewrite i64_small by lia; apply Z.ltb_ge; lia).
  rewrite Hiv, Hz. cbn [negb orb]. cbv zeta. set (a := L (Z.of_nat j)) in *.
  assert (Hnew : ~ a ∈ Ls (S j)).
  { rewrite elem_of_Ls. intros (k & Hk & Eq). apply L_inj in Eq; lia. }
  pose proof (U3 a Hnew) as Hold.
  assert (Hcur : rmap_list (nodes (rmap_del a st) a) = None /\ flags (nodes (rmap_del a st) a) = flags (nodes st0 a) /\
    owner (nodes (rmap_del a st) a) = owner (nodes st0 a) /\ (forall b, b <> a -> nodes (rmap_del a st) b = nodes st b) /\
    same_tables st0 (rmap_del a st) /\ forall p, rmaps (rmap_del a st) p = filter (fun x => x <> a) (rmaps st p)).
  { unfold rmap_del. destruct (rmap_list (nodes st a)) as [q|] eqn:Eq.
    - cbn [set_rmaps put_node set_nodes nodes rmaps]. rewrite Z.eqb_refl. cbn. rewrite Hold. split_and!; try done.
      + intros b Hb. by rewrite (proj2 (Z.eqb_neq b a) Hb).
      + intros p. destruct (Z.eqb_spec p q) as [->|Hp]; [done|]. symmetry. apply filter_ne_notin. rewrite U4, list_elem_of_filter.
        intros [_ Hx]. apply (Hl (Z.of_nat j) p) in Hx; [|lia]. fold a in Hx. rewrite Hold in Eq. congruence.
    - rewrite Hold in *. split_and!; try done. intros p. symmetry. apply filter_ne_notin. rewrite U4, list_elem_of_filter.
      intros [_ Hx]. apply (Hl (Z.of_nat j) p) in Hx; [|lia]. fold a in Hx. congruence. }
  destruct Hcur as (C1 & C2 & C3 & C4 & C5 & C6). constructor.
  - done.
  - intros k Hk. cbn [put_node set_nodes nodes]. destruct (Z.eqb_spec (L k) a) as [Eq|Eq].
    + assert (k = Z.of_nat j) as -> by (apply L_inj; lia). fold a. unfold set_flags. by rewrite C1, C2, C3.
    + rewrite C4 by done. apply U2. assert (k <> Z.of_nat j) by (intros ->; done). lia.
  - intros b Hb. rewrite (Ls_S j Hj) in Hb. fold a in Hb. rewrite elem_of_cons in Hb. cbn [put_node set_nodes nodes].
    rewrite (proj2 (Z.eqb_neq b a)) by tauto. rewrite C4 by tauto. apply U3. tauto.
  - intros p. cbn [put_node set_nodes rmaps]. rewrite C6, U4, (Ls_S j Hj). apply filter_step.
Qed.

(** no leaf before [k] stops the validation *)
Definition leaf_valid st (k : Z) : bool := test_bits (flags (nodes st (L k))) PAGE_ENTRY_VALID.
Lemma validate_effect left k fuel : 0 <= k -> k + Z.of_nat left = Z.of_nat n -> (0 < left <= fuel)%nat ->
  if forallb (fun i => leaf_valid st0 (k + Z.of_nat i)) (seq 0 left)
  then validate_loop k fuel (pos 1 k) st0 = Some (REND_SUCCESS, Z.of_nat n, pos 1 (Z.of_nat n - 1))
  else exists v w, validate_loop k fuel (pos 1 k) st0 = Some (- E_IN_PARAM, v, w).
Proof.
  revert k fuel. induction left as [|left IH]; intros k fuel Hk Hl Hf; [lia|]. destruct fuel as [|fuel]; [lia|].
  cbn [validate_loop seq forallb]. rewrite pos_leaf, (L_pos k), Z.add_0_r by lia. fold (leaf_valid st0 k). cbn [orb].
  destruct (leaf_valid st0 k); cbn [negb andb]; [|by do 2 eexists].
  rewrite (pos_next 1 k) by (lia || by left). rewrite (proj2 (Z.leb_le 0 _)) by lia. cbn [andb].
  destruct (Nat.eq_dec left 0%nat) as [->|Hn].
  - cbn [seq forallb]. rewrite (proj2 (Z.ltb_ge (k + 1) _)) by lia. do 2 f_equal; [f_equal; lia|f_equal; lia].
  - rewrite (proj2 (Z.ltb_lt (k + 1) _)) by lia. rewrite <- fmap_S_seq.
    assert (Eq : forallb (fun i => leaf_valid st0 (k + Z.of_nat i)) (S <$> seq 0 left) = forallb (fun i => leaf_valid st0 (k + 1 + Z.of_nat i)) (seq 0 left)).
    { generalize (seq 0 left). intros l. induction l as [|x l IHl]; [done|]. cbn [fmap list_fmap forallb]. rewrite IHl. f_equal. f_equal. lia. }
    rewrite Eq. apply IH; lia.
Qed.

Lemma unbind_loop_effect vs j st fuel : rv_pmm vs = true -> (forall k, 0 <= k < Z.of_nat n -> zone_has vs (ppn_first + k) = true) -> linked st0 ->
  (0 < j <= n)%nat -> (j <= fuel)%nat -> unbound j st ->
  exists st', unbound 0 st' /\ unbind_loop vs ppn_first (Z.of_nat j) fuel (pos (-1) (Z.of_nat j - 1)) st = Some st'.
Proof.
  intros Hpm Hz Hl. revert st fuel. induction j as [|j IH]; intros st fuel Hj Hf U; [lia|]. destruct fuel as [|fuel]; [lia|].
  cbn [unbind_loop]. replace (Z.of_nat (S j) - 1) with (Z.of_nat j) by lia. rewrite pos_leaf, (L_pos (Z.of_nat j)) by lia.
  pose proof (unbind_step vs j st Hpm ltac:(lia) (Hz (Z.of_nat j) ltac:(lia)) Hl U) as U'. cbv zeta in U'. cbv zeta.
  destruct (Z.eqb_spec (Z.of_nat j) 0) as [Ej|Ej].
  - assert (j = 0%nat) as -> by lia. eexists. split; [exact U'|done].
  - rewrite (same_walk _ _ (ub_tables _ _ U')), (pos_next (-1) (Z.of_nat j)) by (lia || by right).
    rewrite (proj2 (Z.leb_le 0 _)), (proj2 (Z.ltb_lt (Z.of_nat j + -1) _)) by lia. cbn [andb].
    replace (Z.of_nat j + -1) with (Z.of_nat j - 1) by lia. apply IH; [lia|lia|exact U'].
Qed.

Lemma good_ppns vs : rv_pmm vs = true -> is_Some (rv_zone vs) ->
  bad_ppns vs start ppn_first e st0 = false /\ u64 (e - start) / PAGE_SIZE = Z.of_nat n.
Proof.
  intros Hpm Hz. destruct (leaf_walk_pos st0 start n T R) as (_ & _ & Er). destruct R as [R1 R2 R3 R4 R5].
  assert (En : u64 (e - start) / PAGE_SIZE = Z.of_nat n).
  { unfold e. replace (start + 4096 * Z.of_nat n - start) with (Z.of_nat n * 4096) by lia. rewrite u64_small by lia. apply Z.div_mul. done. }
  split; [|exact En]. unfold bad_ppns. rewrite Er, Hpm, En, (bool_decide_eq_true_2 _ Hz). rewrite (i64_small (Z.of_nat n)), i64_small by lia.
  unfold invalid_ppn. rewrite !i64_small by lia. cbn [negb orb]. rewrite !(proj2 (Z.ltb_ge _ _)) by lia. done.
Qed.

Lemma bind_range_effect vs leaf_flags fuel : rv_pmm vs = true -> is_Some (rv_zone vs) -> detached st0 -> (n <= fuel)%nat ->
  let F := Z.lor (rm_sw leaf_flags) PAGE_ENTRY_VALID in
  let G := Z.lor (rm_sw leaf_flags) PAGE_ENTRY_LAZY in
  exists st', vmm_radix_tree_leaf_bind_range vs start ppn_first e leaf_flags fuel st0 =
      Some (if forallb (fun k => bindable vs (Z.of_nat k)) (seq 0 n) then REND_SUCCESS else - E_IN_PARAM, st') /\
    if forallb (fun k => bindable vs (Z.of_nat k)) (seq 0 n) then bind_progress F G (Z.of_nat n) (Z.of_nat n) st'
    else exists i, 0 <= i < Z.of_nat n /\ bind_progress F G i 0 st'.
Proof.
  intros Hpm Hz Hdet Hf F G. unfold vmm_radix_tree_leaf_bind_range.
  destruct (leaf_walk_pos st0 start n T R) as (Ew & Ec & Er). fold e in Ew, Ec. pose proof (pr_pos _ _ R) as R2. destruct (good_ppns vs Hpm Hz) as [Hbad En].
  rewrite Hbad, En. cbv zeta. rewrite Ec, Ew. cbn [negb].
  destruct (bind_loop_effect vs leaf_flags G n 0 st0 fuel Hpm ltac:(lia) ltac:(lia) ltac:(lia) (bind_progress_start F G)) as (st1 & Pg & Eb).
  unfold pos in Eb at 1. rewrite Z.mul_0_r, Z.add_0_r in Eb. rewrite Eb. clear Eb.
  pose proof (first_bad_spec vs 0 n) as Sp. cbv zeta in Sp. set (i := first_bad vs 0 n) in *. destruct Sp as (S1 & S2 & S3). fold F in Pg.
  destruct (Z.eqb_spec i (Z.of_nat n)) as [Ei|Ei]; cbn [mbind option_bind].
  - assert (Hall : forallb (fun k => bindable vs (Z.of_nat k)) (seq 0 n) = true).
    { apply forallb_forall. intros k Hk. apply in_seq in Hk. apply S2. lia. }
    rewrite Hall. change (negb (REND_SUCCESS =? REND_SUCCESS)) with false. cbv iota. rewrite (proj2 (Z.eqb_eq _ _) Ei). cbn [negb].
    change (REND_SUCCESS =? REND_SUCCESS) with true. cbv iota. exists st1. split; [done|]. by rewrite Ei in Pg.
  - assert (Hall : forallb (fun k => bindable vs (Z.of_nat k)) (seq 0 n) = false).
    { apply not_true_is_false. rewrite forallb_forall. intros Hx. assert (Hi : bindable vs i = true); [|rewrite S3 in Hi by lia; done].
      replace i with (Z.of_nat (Z.to_nat i)) by lia. apply Hx, in_seq. lia. }
    rewrite Hall. change (negb (- E_IN_PARAM =? REND_SUCCESS)) with true. cbv iota. change (- E_IN_PARAM =? REND_SUCCESS) with false. cbv iota.
    destruct (rollback_effect vs leaf_flags F i i st1 fuel Hpm ltac:(lia) ltac:(lia) ltac:(lia) (fun k Hk => S2 k ltac:(lia)) Hdet Pg ltac:(lia)) as (st2 & Pg2 & Eb).
    change (set_direction RADIX_TREE_DIRECTION_DEC (pos 1 i)) with (pos (-1) i). rewrite Eb. exists st2. split; [done|]. exists i. split; [lia|done].
Qed.
Lemma unbind_range_effect vs fuel : rv_pmm vs = true -> (forall k, 0 <= k < Z.of_nat n -> zone_has vs (ppn_first + k) = true) -> linked st0 ->
  (n <= fuel)%nat ->
  exists st', vmm_radix_tree_leaf_unbind_range vs start ppn_first e fuel st0 =
      Some (if forallb (fun k => leaf_valid st0 (Z.of_nat k)) (seq 0 n) then REND_SUCCESS else - E_IN_PARAM, st') /\
    if forallb (fun k => leaf_valid st0 (Z.of_nat k)) (seq 0 n) then unbound 0 st' else st' = st0.
Proof.
  intros Hpm Hz Hl Hf. unfold vmm_radix_tree_leaf_unbind_range. pose proof (pr_pos _ _ R) as R2.
  destruct (leaf_walk_pos st0 start n T R) as (Ew & Ec & Er). fold e in Ew, Ec.
  assert (Hsz : is_Some (rv_zone vs)).
  { pose proof (Hz 0 ltac:(lia)) as H0. unfold zone_has in H0. by destruct (rv_zone vs). }
  destruct (good_ppns vs Hpm Hsz) as [Hbad En]. rewrite Hbad, En. cbv zeta. rewrite Ec, Ew. cbn [negb].
  pose proof (validate_effect n 0 fuel ltac:(lia) ltac:(lia) ltac:(lia)) as V. cbn [Z.add] in V. unfold pos in V at 1 3. rewrite Z.mul_0_r, Z.add_0_r in V.
  destruct (forallb _ (seq 0 n)).
  - rewrite V. cbn [mbind option_bind]. change (negb (REND_SUCCESS =? REND_SUCCESS)) with false. cbv iota. rewrite Z.eqb_refl. cbn [negb].
    change (set_direction RADIX_TREE_DIRECTION_DEC (pos 1 (Z.of_nat n - 1))) with (pos (-1) (Z.of_nat n - 1)).
    destruct (unbind_loop_effect vs n st0 fuel Hpm Hz Hl ltac:(lia) Hf unbound_start) as (st' & U & ->). by exists st'.
  - destruct V as (v & w & ->). cbn [mbind option_bind]. change (negb (- E_IN_PARAM =? REND_SUCCESS)) with true. cbv iota. by exists st0.
Qed.
End Bind.

(** ** A reservation's life: reserved, bound, unbound *)

Lemma test_bits_bit x k : 0 <= k -> test_bits x (Z.shiftl 1 k) = Z.testbit x k.
Proof.
  intros Hk. unfold test_bits. rewrite Z.shiftl_1_l. destruct (Z.testbit x k) eqn:Eb.
  - apply negb_true_iff, Z.eqb_neq. intros H. assert (Hb : Z.testbit (Z.land x (2 ^ k)) k = false) by (by rewrite H, Z.bits_0).
    rewrite Z.land_spec, Eb, Z.pow2_bits_true in Hb by lia. done.
  - apply negb_false_iff, Z.eqb_eq. apply Z.bits_inj'. intros i Hi. rewrite Z.land_spec, Z.bits_0, Z.pow2_bits_eqb by lia.
    destruct (Z.eqb_spec k i) as [->|]; [by rewrite Eb|by rewrite andb_false_r].
Qed.
Lemma lazy_flags_bits f : test_bits (lazy_flags f) PAGE_ENTRY_LAZY = true /\ test_bits (lazy_flags f) PAGE_ENTRY_VALID = false.
Proof.
  unfold PAGE_ENTRY_LAZY, PAGE_ENTRY_VALID. rewrite !test_bits_bit by lia. unfold lazy_flags, clear_mask_u64, u64.
  rewrite !Z.land_spec, !testbit_wrap, !testbit_bnot, Z.lor_spec by lia. split; [|by rewrite !andb_false_r].
  change (Z.testbit PAGE_ENTRY_LAZY 61) with true. by rewrite orb_true_r.
Qed.
Lemma valid_flags_bit f : test_bits (Z.lor f PAGE_ENTRY_VALID) PAGE_ENTRY_VALID = true.
Proof. unfold PAGE_ENTRY_VALID at 2. rewrite test_bits_bit, Z.lor_spec by lia. change (Z.testbit PAGE_ENTRY_VALID 1) with true. by rewrite orb_true_r. Qed.

(** the page of the range an address is in *)
Lemma in_pages_leaf st start n va : page_range start n -> has_leaves st start n -> in_pages start n va = true ->
  exists k, 0 <= k < Z.of_nat n /\ k = page_no va - page_no start /\ leaf_of st va = Some (nodes st (nth_leaf st start k)).
Proof.
  intros R Hh Hin. apply in_pages_elem in Hin as (va' & (k & Hk & ->)%elem_of_pages & Eq); [|done]. exists k. split; [done|].
  fold (page_no va) in Eq. fold (page_no (start + 4096 * k)) in Eq. split; [rewrite <- Eq, (page_no_add start n) by done; lia|].
  unfold leaf_of. rewrite <- (rnode_pre (ents st) (root_radix st) (start + 4096 * k) va Eq). by rewrite (nth_leaf_some st start n k Hh Hk).
Qed.
Lemma has_leaves_same st st' start n : same_tables st st' -> has_leaves st start n -> has_leaves st' start n.
Proof. intros (E1 & E2 & _) Hh va Hva. rewrite E1, E2. by apply Hh. Qed.
Lemma nth_leaf_same st st' start k : same_tables st st' -> nth_leaf st' start k = nth_leaf st start k.
Proof. intros (E1 & E2 & _). unfold nth_leaf, leaf_addr. by rewrite E1, E2. Qed.
Lemma leaf_at st start n k : has_leaves st start n -> 0 <= k < Z.of_nat n -> leaf_of st (start + 4096 * k) = Some (nodes st (nth_leaf st start k)).
Proof. intros Hh Hk. unfold leaf_of. by rewrite (nth_leaf_some st start n k Hh Hk). Qed.
Lemma in_pages_at start n k : page_range start n -> 0 <= k < Z.of_nat n -> in_pages start n (start + 4096 * k) = true.
Proof. intros R Hk. apply in_pages_elem; [done|]. exists (start + 4096 * k). split; [|done]. apply elem_of_pages. by exists k. Qed.
Lemma forallb_seq (P : Z -> bool) n : (forall k, 0 <= k < Z.of_nat n -> P k = true) -> forallb (fun k => P (Z.of_nat k)) (seq 0 n) = true.
Proof. intros HP. apply forallb_forall. intros k Hk%in_seq. apply HP. lia. Qed.

(** C7 Reserving a range of pages, binding it to frames of the zone and
    unbinding it again: every call succeeds; while bound, each leaf carries the
    new flags, its owner, and a place on the reverse map of its own frame; in
    the end the reverse maps are as before and the leaves are reserved again. *)
Theorem reserve_bind_unbind vs owner_info start n fl ppn_first leaf_flags fuel st :
  rv_pmm vs = true -> radix_ok (ents st) (root_radix st) -> page_range start n -> has_leaves st start n ->
  0 <= ppn_first /\ ppn_first + Z.of_nat n <= 2 ^ 52 -> (forall k, 0 <= k < Z.of_nat n -> zone_has vs (ppn_first + k) = true) ->
  detached st start n st -> (n <= fuel)%nat ->
  exists st1 st2 st3,
    vmm_radix_tree_insert_range vs owner_info start fl (start + 4096 * Z.of_nat n) fuel st = Some (REND_SUCCESS, st1) /\
    vmm_radix_tree_leaf_bind_range vs start ppn_first (start + 4096 * Z.of_nat n) leaf_flags fuel st1 = Some (REND_SUCCESS, st2) /\
    vmm_radix_tree_leaf_unbind_range vs start ppn_first (start + 4096 * Z.of_nat n) fuel st2 = Some (REND_SUCCESS, st3) /\
    (forall va, in_pages start n va = true ->
       let k := page_no va - page_no start in
       leaf_of st2 va = Some (mk_rnode (Z.lor (rm_sw leaf_flags) PAGE_ENTRY_VALID) (Some (ppn_first + k)) owner_info) /\
       rmaps st2 (ppn_first + k) = leaf_addr st (start + 4096 * k) :: rmaps st (ppn_first + k) /\
       leaf_of st3 va = Some (mk_rnode (unbound_flags (Z.lor (rm_sw leaf_flags) PAGE_ENTRY_VALID)) None owner_info)) /\
    forall p, rmaps st3 p = rmaps st p.
Proof.
  intros Hpm T R Hh Hppn Hz Hdet Hf. pose proof (pr_pos _ _ R) as Rp.
  destruct (insert_range_effect vs owner_info start n fl fuel st Hpm T R Hh Hf) as (st1 & E1 & A1 & A2 & A3 & A4 & A5).
  assert (S1 : same_tables st st1) by (by split_and!). pose proof (has_leaves_same _ _ _ _ S1 Hh) as Hh1.
  assert (T1 : radix_ok (ents st1) (root_radix st1)) by (by rewrite A1, A2).
  assert (N1 : forall k, 0 <= k < Z.of_nat n -> nodes st1 (nth_leaf st1 start k) = mk_rnode (lazy_flags fl) (rmap_list (nodes st (nth_leaf st start k))) owner_info).
  { intros k Hk. pose proof (A5 (start + 4096 * k)) as H. rewrite (in_pages_at start n k R Hk), (leaf_at st1 start n k Hh1 Hk), (leaf_at st start n k Hh Hk) in H. by injection H. }
  assert (Hsz : is_Some (rv_zone vs)).
  { pose proof (Hz 0 ltac:(lia)) as H0. unfold zone_has in H0. by destruct (rv_zone vs). }
  assert (D1 : detached st1 start n st1).
  { intros k p Hk. rewrite (nth_leaf_same _ _ _ _ S1), A3. by apply Hdet. }
  destruct (bind_range_effect st1 start n ppn_first T1 R Hh1 Hppn vs leaf_flags fuel Hpm Hsz D1 Hf) as (st2 & E2 & Pg).
  assert (Hb : forallb (fun k => bindable st1 start ppn_first vs (Z.of_nat k)) (seq 0 n) = true).
  { apply forallb_seq. intros k Hk. unfold bindable. rewrite (N1 k Hk), (Hz k Hk). cbn [flags]. by destruct (lazy_flags_bits fl) as [-> ->]. }
  rewrite Hb in E2, Pg.
  destruct Pg as [P1 P2 P3 P4 P5]. destruct P1 as (B1 & B2 & B3). assert (S2 : same_tables st1 st2) by (by split_and!).
  pose proof (has_leaves_same _ _ _ _ S2 Hh1) as Hh2. assert (T2 : radix_ok (ents st2) (root_radix st2)) by (by rewrite B1, B2).
  assert (N2 : forall k, 0 <= k < Z.of_nat n -> nodes st2 (nth_leaf st2 start k) = mk_rnode (Z.lor (rm_sw leaf_flags) PAGE_ENTRY_VALID) (Some (ppn_first + k)) owner_info).
  { intros k Hk. by rewrite (nth_leaf_same _ _ _ _ S2), P2, (N1 k Hk) by lia. }
  assert (Hl2 : linked st2 start n st2).
  { intros k p Hk Hin. rewrite (N2 k Hk). cbn [rmap_list]. rewrite (nth_leaf_same _ _ _ _ S2), P5 in Hin.
    destruct (Z.leb_spec ppn_first p), (Z.ltb_spec p (ppn_first + Z.of_nat n)); cbn [andb] in Hin; try by apply D1 in Hin.
    apply elem_of_cons in Hin as [Eq|Hin]; [|by apply D1 in Hin].
    apply (L_inj st1 start n T1 R Hh1) in Eq; [|lia|lia]. f_equal. lia. }
  destruct (unbind_range_effect st2 start n ppn_first T2 R Hh2 Hppn vs fuel Hpm Hz Hl2 Hf) as (st3 & E3 & U).
  assert (Hv : forallb (fun k => leaf_valid st2 start st2 (Z.of_nat k)) (seq 0 n) = true).
  { apply forallb_seq. intros k Hk. unfold leaf_valid. rewrite (N2 k Hk). apply valid_flags_bit. }
  rewrite Hv in E3, U.
  destruct U as [U1 U2 U3 U4]. exists st1, st2, st3. split_and!; [exact E1|exact E2|exact E3| |].
  - intros va Hin. cbv zeta. destruct (in_pages_leaf st2 start n va R Hh2 Hin) as (k & Hk & <- & ->). rewrite (N2 k Hk). split_and!; [done| |].
    + rewrite P5, (proj2 (Z.leb_le _ _)), (proj2 (Z.ltb_lt _ _)), A3, (nth_leaf_same _ _ _ _ S1) by lia. cbn [andb].
      by replace (ppn_first + k - ppn_first) with k by lia.
    + destruct (in_pages_leaf st3 start n va R (has_leaves_same _ _ _ _ U1 Hh2) Hin) as (k' & Hk' & Ek & ->).
      destruct (in_pages_leaf st2 start n va R Hh2 Hin) as (k2 & _ & Ek2 & _).
      by rewrite (nth_leaf_same _ _ _ _ U1), U2, (N2 k' Hk') by lia.
  - intros p. rewrite U4, P5. assert (Hk : filter (fun x => ~ x ∈ Ls st2 start n 0) (rmaps st1 p) = rmaps st p).
    { rewrite A3. apply filter_all. intros x Hx. rewrite elem_of_Ls. intros (k & Hk & ->). rewrite (nth_leaf_same _ _ _ _ S2) in Hx. apply (D1 k p); [lia|]. by rewrite A3. }
    destruct (Z.leb_spec ppn_first p), (Z.ltb_spec p (ppn_first + Z.of_nat n)); cbn [andb]; try done.
    rewrite filter_cons_False; [done|]. intros Hx. apply Hx. apply elem_of_Ls. exists (p - ppn_first). split; [lia|]. by rewrite (nth_leaf_same _ _ _ _ S2).
Qed.

(** C8 Binding a reserved range: it succeeds exactly when every leaf is
    reserved and unbound and every frame is in the zone, and then each leaf is on
    the reverse map of its frame; otherwise the leaves before the first
    unsuitable one get their flags back as lazy ones and leave the reverse maps
    again, and nothing else changes. *)
Theorem bind_range_spec vs start n ppn_first leaf_flags fuel st :
  rv_pmm vs = true -> is_Some (rv_zone vs) -> radix_ok (ents st) (root_radix st) -> page_range start n -> has_leaves st start n ->
  0 <= ppn_first /\ ppn_first + Z.of_nat n <= 2 ^ 52 -> detached st start n st -> (n <= fuel)%nat ->
  let F := Z.lor (rm_sw leaf_flags) PAGE_ENTRY_VALID in
  let G := Z.lor (rm_sw leaf_flags) PAGE_ENTRY_LAZY in
  let free := forallb (fun k => bindable st start ppn_first vs (Z.of_nat k)) (seq 0 n) in
  exists st', vmm_radix_tree_leaf_bind_range vs start ppn_first (start + 4096 * Z.of_nat n) leaf_flags fuel st =
      Some (if free then REND_SUCCESS else - E_IN_PARAM, st') /\
    if free then bind_progress st start ppn_first F G (Z.of_nat n) (Z.of_nat n) st'
    else exists i, 0 <= i < Z.of_nat n /\ bind_progress st start ppn_first F G i 0 st'.
Proof. intros Hpm Hz T R Hh Hppn Hdet Hf F G free. exact (bind_range_effect st start n ppn_first T R Hh Hppn vs leaf_flags fuel Hpm Hz Hdet Hf). Qed.

(** Unbinding a range: refused without any change when one of its leaves is
    not bound, otherwise every leaf becomes a reservation off all lists. *)
Theorem unbind_range_spec vs start n ppn_first fuel st :
  rv_pmm vs = true -> radix_ok (ents st) (root_radix st) -> page_range start n -> has_leaves st start n ->
  0 <= ppn_first /\ ppn_first + Z.of_nat n <= 2 ^ 52 -> (forall k, 0 <= k < Z.of_nat n -> zone_has vs (ppn_first + k) = true) ->
  linked st start n st -> (n <= fuel)%nat ->
  let all_bound := forallb (fun k => leaf_valid st start st (Z.of_nat k)) (seq 0 n) in
  exists st', vmm_radix_tree_leaf_unbind_range vs start ppn_first (start + 4096 * Z.of_nat n) fuel st =
      Some (if all_bound then REND_SUCCESS else - E_IN_PARAM, st') /\
    if all_bound then unbound st start n 0 st' else st' = st.
Proof. intros Hpm T R Hh Hppn Hz Hl Hf all_bound. exact (unbind_range_effect st start n ppn_first T R Hh Hppn vs fuel Hpm Hz Hl Hf). Qed.

(** Changing the flags of a range and reading one of its pages back: the
    query answers the new flags and the page's owner; a page outside keeps
    what it had. *)
Theorem change_query_spec vs start n new_flags va fuel st nd :
  rv_pmm vs = true -> radix_ok (ents st) (root_radix st) -> page_range start n -> has_leaves st start n -> (n <= fuel)%nat ->
  page_range va 1 -> leaf_of st va = Some nd ->
  exists st', vmm_radix_tree_change_range_flag vs start (start + 4096 * Z.of_nat n) new_flags fuel st = Some (REND_SUCCESS, st') /\
    vmm_radix_tree_query_range vs va (va + 4096) st' =
      (REND_SUCCESS, if in_pages start n va then new_flags else flags nd, owner nd).
Proof.
  intros Hpm T R Hh Hf Rv Hva. destruct (change_range_flag_effect vs start n new_flags fuel st Hpm T R Hh Hf) as (st' & E1 & A1 & A2 & _ & _ & A5).
  exists st'. split; [exact E1|]. rewrite query_range_effect by (rewrite ?A1, ?A2; done). rewrite A5, Hva. by destruct (in_pages start n va).
Qed.
End Leaves.

(** ** Two pages of a small tree *)

#[local] Instance quiet_env : RadixEnv unit := {
  re_alloc e n := (- E_RENDEZVOS, 0, e); re_free e _ _ := (REND_SUCCESS, e); re_map e _ _ _ _ := (REND_SUCCESS, e);
  re_unmap e _ := (- E_RENDEZVOS, e); re_have_mapped e _ := (- E_REND_NOFOUND, e)
}.
Definition small_ents (a : Z) : Z :=
  if a =? 0x10000 then 0x11002 else if a =? 0x11000 then 0x12002 else if a =? 0x12000 then 0x2000a else 0.
Definition small_tree (fl : Z) : rst unit :=
  mk_rst small_ents (fun a => if (a =? 0x20000) || (a =? 0x20020) then mk_rnode fl None 7 else radix_node_clear) (fun _ => []) tt 0x10000 (-1).
Definition small_space : rspace := mk_rspace true (Some (mk_zone 65536 81920 [mk_sec 65536 81920 [0; 0; 0; 0]] false)).

Lemma small_rtab v k t : rtab small_ents 0x10000 v k = Some t ->
  match k with
  | O => t = 0x10000 | 1%nat => t = 0x11000 /\ idx 0 v = 0 | 2%nat => t = 0x12000 /\ idx 0 v = 0 /\ idx 1 v = 0
  | 3%nat => t = 0x20000 /\ idx 0 v = 0 /\ idx 1 v = 0 /\ idx 2 v = 0 | _ => True
  end.
Proof.
  assert (H : forall x i, x = 0x10000 \/ x = 0x11000 \/ x = 0x12000 -> 0 <= i < 512 -> entry_child (small_ents (x + 8 * i)) =? 0 = negb (i =? 0)).
  { intros x i Hx Hi. unfold small_ents. destruct (Z.eqb_spec i 0) as [->|Hn]; destruct Hx as [-> | [-> | ->]]; try done; by rewrite !(proj2 (Z.eqb_neq (_ + 8 * i) _)) by lia. }
  destruct k as [|k]; [intros [= <-]; done|].
  assert (H1 : rtab small_ents 0x10000 v 1 = if idx 0 v =? 0 then Some 0x11000 else None).
  { cbn [rtab]. cbv zeta. rewrite (H 0x10000) by (tauto || apply idx_range). by destruct (Z.eqb_spec (idx 0 v) 0) as [->|]. }
  assert (H2 : rtab small_ents 0x10000 v 2 = if (idx 0 v =? 0) && (idx 1 v =? 0) then Some 0x12000 else None).
  { change (rtab small_ents 0x10000 v 2) with (match rtab small_ents 0x10000 v 1 with None => None | Some t => let c := entry_child (small_ents (t + 8 * idx 1 v)) in if c =? 0 then None else Some c end).
    rewrite H1. destruct (idx 0 v =? 0); [|done]. cbv zeta. rewrite (H 0x11000) by (tauto || apply idx_range). by destruct (Z.eqb_spec (idx 1 v) 0) as [->|]. }
  assert (H3 : rtab small_ents 0x10000 v 3 = if (idx 0 v =? 0) && (idx 1 v =? 0) && (idx 2 v =? 0) then Some 0x20000 else None).
  { change (rtab small_ents 0x10000 v 3) with (match rtab small_ents 0x10000 v 2 with None => None | Some t => let c := entry_child (small_ents (t + 8 * idx 2 v)) in if c =? 0 then None else Some c end).
    rewrite H2. destruct ((idx 0 v =? 0) && (idx 1 v =? 0)); [|done]. cbv zeta. rewrite (H 0x12000) by (tauto || apply idx_range). by destruct (Z.eqb_spec (idx 2 v) 0) as [->|]. }
  destruct k as [|[|[|k]]]; [rewrite H1|rewrite H2|rewrite H3|done];
    destruct (Z.eqb_spec (idx 0 v) 0), (Z.eqb_spec (idx 1 v) 0), (Z.eqb_spec (idx 2 v) 0); cbn [andb]; intros [=]; by subst.
Qed.
Lemma small_tree_ok : radix_ok small_ents 0x10000.
Proof.
  constructor.
  - intros a. unfold small_ents. change (2 ^ 64) with 18446744073709551616. destruct (a =? 0x10000), (a =? 0x11000), (a =? 0x12000); lia.
  - done.
  - intros j k v v' t Hj Hk Ej Ek. apply small_rtab in Ej. apply small_rtab in Ek.
    destruct j as [|[|[|j]]], k as [|[|[|k]]]; try lia; destruct_and?; subst; try lia; split; try done; cbn [pre]; congruence.
  - intros v v' t t' E1 E2 Hp. exfalso. apply small_rtab in E1 as (_ & A0 & A1 & A2). apply small_rtab in E2 as (_ & B0 & B1 & B2).
    apply Hp. cbn [pre]. by rewrite A0, A1, A2, B0, B1, B2.
Qed.
Lemma small_range : page_range 0 2.
Proof. constructor; try lia; vm_compute; congruence. Qed.
Lemma small_page : page_range 4096 1.
Proof. constructor; try lia; vm_compute; congruence. Qed.
Lemma small_leaves fl : has_leaves (small_tree fl) 0 2.
Proof.
  intros va (k & Hk & ->)%elem_of_pages. assert (Hc : k = 0 \/ k = 1) by lia. destruct Hc as [-> | ->]; by eexists.
Qed.
Lemma small_zone k : 0 <= k < 2 -> zone_has small_space (17 + k) = true.
Proof. intros Hk. assert (Hc : k = 0 \/ k = 1) by lia. by destruct Hc as [-> | ->]. Qed.
Lemma small_detached fl : detached (small_tree fl) 0 2 (small_tree fl).
Proof. intros k p _ Hx. by apply elem_of_nil in Hx. Qed.

Lemma reserve_bind_unbind_witness : exists st1 st2 st3,
  vmm_radix_tree_insert_range small_space 5 0 0 8192 2 (small_tree 0) = Some (REND_SUCCESS, st1) /\
  vmm_radix_tree_leaf_bind_range small_space 0 17 8192 12 2 st1 = Some (REND_SUCCESS, st2) /\
  vmm_radix_tree_leaf_unbind_range small_space 0 17 8192 2 st2 = Some (REND_SUCCESS, st3) /\
  leaf_of st2 4096 = Some (mk_rnode 14 (Some 18) 5) /\ rmaps st2 18 = [0x20020] /\ rmaps st3 18 = [].
Proof.
  destruct (reserve_bind_unbind small_space 5 0 2 0 17 12 2 (small_tree 0) eq_refl small_tree_ok small_range (small_leaves 0) ltac:(lia)
    small_zone (small_detached 0) (le_n 2)) as (st1 & st2 & st3 & E1 & E2 & E3 & Hb & Hr).
  exists st1, st2, st3. destruct (Hb 4096 eq_refl) as (B1 & B2 & _). split; [exact E1|]. split; [exact E2|]. split; [exact E3|].
  split; [exact B1|]. split; [exact B2|exact (Hr 18)].
Defined.
Lemma bind_range_spec_witness : exists st',
  vmm_radix_tree_leaf_bind_range small_space 0 19 8192 12 2 (small_tree PAGE_ENTRY_LAZY) = Some (- E_IN_PARAM, st').
Proof.
  destruct (bind_range_spec small_space 0 2 19 12 2 (small_tree PAGE_ENTRY_LAZY) eq_refl ltac:(by eexists) small_tree_ok small_range (small_leaves _)
    ltac:(lia) (small_detached _) (le_n 2)) as (st' & E & _).
  exists st'. exact E.
Defined.
Lemma unbind_range_spec_witness :
  vmm_radix_tree_leaf_unbind_range small_space 0 17 8192 2 (small_tree PAGE_ENTRY_LAZY) = Some (- E_IN_PARAM, small_tree PAGE_ENTRY_LAZY) /\
  exists st', vmm_radix_tree_leaf_unbind_range small_space 0 17 8192 2 (small_tree PAGE_ENTRY_VALID) = Some (REND_SUCCESS, st').
Proof.
  assert (Hl : forall fl, linked (small_tree fl) 0 2 (small_tree fl)) by (intros fl k p _ Hx; by apply elem_of_nil in Hx).
  split.
  - destruct (unbind_range_spec small_space 0 2 17 2 (small_tree PAGE_ENTRY_LAZY) eq_refl small_tree_ok small_range (small_leaves _) ltac:(lia) small_zone
      (Hl _) (le_n 2)) as (st' & E & Hs). change (st' = small_tree PAGE_ENTRY_LAZY) in Hs. rewrite Hs in E. exact E.
  - destruct (unbind_range_spec small_space 0 2 17 2 (small_tree PAGE_ENTRY_VALID) eq_refl small_tree_ok small_range (small_leaves _) ltac:(lia) small_zone
      (Hl _) (le_n 2)) as (st' & E & _). exists st'. exact E.
Defined.
Lemma change_query_spec_witness : exists st', vmm_radix_tree_change_range_flag small_space 0 8192 14 2 (small_tree 0) = Some (REND_SUCCESS, st') /\
  vmm_radix_tree_query_range small_space 4096 8192 st' = (REND_SUCCESS, 14, 7).
Proof.
  destruct (change_query_spec small_space 0 2 14 4096 2 (small_tree 0) (mk_rnode 0 None 7) eq_refl small_tree_ok small_range (small_leaves 0) (le_n 2)
    small_page eq_refl) as (st' & E1 & E2). exists st'. split; [exact E1|exact E2].
Defined.
