(* ===== verification/RadixCount.v ===== *)
(** * Occupancy counts of the radix tree

    The ten count bits of an entry, of which the top one is also its "huge" bit
    (a count of 512), and what [radix_entry_update] does to them; an example of
    a range over two 2 MB bands at the end. *)
From S2P Require Import Prelude Mm TaggedPtr CString PageTable PageTree Pmm KernelPages RadixTree RadixOps RadixWalk RadixSpec.

(** ** Occupancy counts *)

Lemma cnt_mask_bit n : 0 <= n -> Z.testbit VMM_RADIX_CNT_MASK n = (2 <=? n) && (n <? 12).
Proof.
  intros Hn. unfold VMM_RADIX_CNT_MASK, VMM_RADIX_CNT_SHIFT. rewrite Z.shiftl_spec by lia. change 0x3ff with (Z.ones 10).
  destruct (Z.leb_spec 2 n); cbn [andb]; [|apply Z.testbit_neg_r; lia]. rewrite Z.testbit_ones_nonneg by lia.
  apply eq_true_iff_eq. rewrite !Z.ltb_lt. lia.
Qed.
Lemma ptr_mask_bit n : 0 <= n -> Z.testbit VMM_RADIX_PTR_MASK n = (12 <=? n) && (n <? 64).
Proof.
  intros Hn. change VMM_RADIX_PTR_MASK with (Z.shiftl (Z.ones 52) 12). rewrite Z.shiftl_spec by lia.
  destruct (Z.leb_spec 12 n); cbn [andb]; [|apply Z.testbit_neg_r; lia]. rewrite Z.testbit_ones_nonneg by lia.
  apply eq_true_iff_eq. rewrite !Z.ltb_lt. lia.
Qed.
Lemma get_count_bits v v' : (forall n, 2 <= n < 12 -> Z.testbit v n = Z.testbit v' n) -> entry_get_count v = entry_get_count v'.
Proof.
  intros H. unfold entry_get_count. change VMM_RADIX_ENTRY_HUGE_MASK with (Z.shiftl 1 11). rewrite !test_bits_bit, (H 11) by lia.
  destruct (Z.testbit v' 11); [done|]. f_equal. apply Z.bits_inj'. intros n Hn. rewrite !Z.land_spec, cnt_mask_bit by lia.
  destruct (Z.leb_spec 2 n), (Z.ltb_spec n 12); cbn [andb]; rewrite ?andb_false_r; try done. by rewrite H by lia.
Qed.
Lemma get_count_range v : 0 <= v < 2 ^ 64 -> 0 <= entry_get_count v <= 512.
Proof.
  intros Hv. unfold entry_get_count. change VMM_RADIX_ENTRY_HUGE_MASK with (Z.shiftl 1 11). rewrite test_bits_bit by lia.
  destruct (Z.testbit v 11) eqn:E; [done|]. change (VMM_RADIX_CNT_SHIFT) with 2.
  assert (Hb : Z.land v VMM_RADIX_CNT_MASK = Z.land v (Z.ones 11 - 3)).
  { apply Z.bits_inj'. intros n Hn. rewrite !Z.land_spec. destruct (Z.eq_dec n 11) as [->|]; [by rewrite E|]. f_equal.
    rewrite cnt_mask_bit by done. change (Z.ones 11 - 3) with (Z.shiftl (Z.ones 9) 2). rewrite Z.shiftl_spec by lia.
    destruct (Z.leb_spec 2 n); cbn [andb]; [|symmetry; apply Z.testbit_neg_r; lia]. rewrite Z.testbit_ones_nonneg by lia.
    apply eq_true_iff_eq. rewrite !Z.ltb_lt. lia. }
  rewrite Hb. assert (0 <= Z.land v (Z.ones 11 - 3) <= 2047); [|rewrite Z.shiftr_div_pow2 by lia; change (2 ^ 2) with 4; dlia].
  rewrite Z.land_comm. pose proof (land_range 11 (Z.ones 11 - 3) v ltac:(lia) ltac:(vm_compute; split; congruence)). lia.
Qed.
Lemma set_count_bit c v n : 0 <= c <= 512 -> 0 <= n < 64 ->
  Z.testbit (entry_set_count c v) n = if (2 <=? n) && (n <? 12) then Z.testbit c (n - 2) else Z.testbit v n.
Proof.
  intros Hc Hn. unfold entry_set_count, clear_mask_u64. assert (Em : (if c <? RADIX_COUNT_PER_PAGE then c else RADIX_COUNT_PER_PAGE) = c).
  { change RADIX_COUNT_PER_PAGE with 512. destruct (Z.ltb_spec c 512); lia. }
  rewrite Em. rewrite Z.lor_spec, !Z.land_spec. unfold u64. rewrite !testbit_wrap, testbit_bnot, Z.lor_spec, !cnt_mask_bit, Z.shiftl_spec by lia.
  change VMM_RADIX_CNT_SHIFT with 2. rewrite (proj2 (Z.ltb_lt n 64)) by lia. rewrite !andb_true_r.
  assert (Eh : Z.testbit VMM_RADIX_ENTRY_HUGE_MASK n = (n =? 11)).
  { change VMM_RADIX_ENTRY_HUGE_MASK with (2 ^ 11). rewrite Z.pow2_bits_eqb by lia. apply Z.eqb_sym. }
  rewrite Eh. destruct (Z.leb_spec 2 n), (Z.ltb_spec n 12), (Z.eqb_spec n 11); try lia; cbn [andb orb negb];
    rewrite ?andb_false_r, ?andb_true_r, ?orb_false_r; done.
Qed.
Lemma get_set_count c v : 0 <= c <= 512 -> entry_get_count (entry_set_count c v) = c.
Proof.
  intros Hc. unfold entry_get_count. change VMM_RADIX_ENTRY_HUGE_MASK with (Z.shiftl 1 11). rewrite test_bits_bit, set_count_bit by lia.
  change ((2 <=? 11) && (11 <? 12)) with true. cbv iota. change (11 - 2) with 9. destruct (Z.eq_dec c 512) as [->|Hn]; [done|].
  rewrite (testbit_small 9 c 9) by lia. apply Z.bits_inj'. intros n Hn0. change VMM_RADIX_CNT_SHIFT with 2.
  rewrite Z.shiftr_spec, Z.land_spec, cnt_mask_bit by lia. destruct (Z.ltb_spec (n + 2) 12).
  - rewrite set_count_bit by lia. rewrite (proj2 (Z.leb_le 2 _)), (proj2 (Z.ltb_lt (n + 2) 12)) by lia. cbn [andb]. rewrite andb_true_r. f_equal. lia.
  - rewrite !andb_false_r. symmetry. apply (testbit_small 9); lia.
Qed.
Lemma set_count_sat c v : 512 <= c -> entry_set_count c v = entry_set_count 512 v.
Proof. intros Hc. unfold entry_set_count. change RADIX_COUNT_PER_PAGE with 512. by rewrite (proj2 (Z.ltb_ge c 512)) by lia. Qed.

(** what a caller reads of a word besides its count *)
Definition same_ref (v v' : Z) : Prop := entry_child v' = entry_child v /\ entry_valid v' = entry_valid v.
Lemma same_ref_bits v v' : 0 <= v < 2 ^ 64 -> 0 <= v' < 2 ^ 64 -> (forall n, n = 1 \/ 12 <= n < 64 -> Z.testbit v' n = Z.testbit v n) -> same_ref v v'.
Proof.
  intros Hv Hv' H. split.
  - unfold entry_child. apply Z.bits_inj'. intros n Hn. rewrite !Z.land_spec, ptr_mask_bit by done.
    destruct (Z.leb_spec 12 n), (Z.ltb_spec n 64); cbn [andb]; rewrite ?andb_false_r; try done. by rewrite H by lia.
  - unfold entry_valid. change VMM_RADIX_ENTRY_VALID_MASK with (Z.shiftl 1 1). rewrite !test_bits_bit by lia. apply H. by left.
Qed.
Lemma held_bit v n : 0 <= n < 64 ->
  Z.testbit (set_mask_u64 (clear_mask_u64 v VMM_RADIX_ENTRY_LOCK_MASK) VMM_RADIX_ENTRY_LOCK_MASK) n = (n =? 0) || Z.testbit v n.
Proof.
  intros Hn. unfold set_mask_u64, clear_mask_u64, u64. change VMM_RADIX_ENTRY_LOCK_MASK with (2 ^ 0).
  rewrite Z.lor_spec, !testbit_wrap, Z.land_spec, testbit_wrap, testbit_bnot, Z.pow2_bits_eqb by lia. rewrite (proj2 (Z.ltb_lt n 64)), !andb_true_r by lia.
  destruct (Z.eqb_spec 0 n), (Z.eqb_spec n 0); try lia; cbn [negb orb andb]; by rewrite ?orb_true_r, ?orb_false_r, ?andb_true_r.
Qed.
Lemma held_word_range a b : 0 <= set_mask_u64 a b < 2 ^ 64.
Proof.
  assert (E : set_mask_u64 a b = wrap 64 (Z.lor a b)); [|rewrite E; by apply wrap_range].
  unfold set_mask_u64, u64. apply Z.bits_inj'. intros n Hn. rewrite Z.lor_spec, !testbit_wrap, Z.lor_spec by lia. by destruct (n <? 64); rewrite ?andb_true_r, ?andb_false_r.
Qed.

(** The occupancy count of an entry under a held lock: a change within
    bounds adds to it, saturating at a full table, and keeps the child, the
    valid bit and the lock; a change of more than a table, or below nothing, is
    refused and the word stays. *)
Theorem entry_update_count value d : 0 <= value < 2 ^ 64 -> - 2 ^ 31 <= d < 2 ^ 31 ->
  let c := entry_get_count value in
  let '(err, value') := radix_entry_update value delta_flags 0 d in
  if (512 <? d) || (c <? - d) then err = - E_REND_OVERFLOW /\ value' = value
  else err = REND_SUCCESS /\ entry_get_count value' = Z.min 512 (c + d) /\ same_ref value value' /\ test_bits value' VMM_RADIX_ENTRY_LOCK_MASK = true.
Proof.
  intros Hv Hd c. unfold radix_entry_update.
  repeat match goal with |- context [test_bits delta_flags ?f] => let b := eval vm_compute in (test_bits delta_flags f) in change (test_bits delta_flags f) with b end.
  cbn [andb orb negb]. fold c. pose proof (get_count_range value Hv) as Hc. fold c in Hc. change RADIX_COUNT_PER_PAGE with 512.
  assert (Hok : forall x, entry_set_count x value = entry_set_count (Z.min 512 (c + d)) value -> 0 <= c + d ->
    let value' := set_mask_u64 (clear_mask_u64 (entry_set_count x value) VMM_RADIX_ENTRY_LOCK_MASK) VMM_RADIX_ENTRY_LOCK_MASK in
    entry_get_count value' = Z.min 512 (c + d) /\ same_ref value value' /\ test_bits value' VMM_RADIX_ENTRY_LOCK_MASK = true).
  { intros x -> Hcd. cbv zeta. split_and!.
    - rewrite <- (get_set_count (Z.min 512 (c + d)) value) at 2 by lia. apply get_count_bits. intros n Hn.
      rewrite held_bit by lia. by rewrite (proj2 (Z.eqb_neq n 0)) by lia.
    - apply same_ref_bits; [done|apply held_word_range|]. intros n Hn. rewrite held_bit, set_count_bit by lia. rewrite (proj2 (Z.eqb_neq n 0)) by lia.
      destruct (Z.leb_spec 2 n), (Z.ltb_spec n 12); cbn [andb orb]; (done || lia).
    - change VMM_RADIX_ENTRY_LOCK_MASK with (Z.shiftl 1 0) at 3. rewrite test_bits_bit, held_bit by lia. done. }
  destruct (Z.ltb_spec 0 d).
  - rewrite (proj2 (Z.ltb_ge c (- d))), orb_false_r by lia. destruct (Z.ltb_spec 512 d); [done|]. split; [done|]. apply Hok; [|lia].
    rewrite u64_small by lia. destruct (Z.le_gt_cases 512 (c + d)); [rewrite set_count_sat by lia|]; f_equal; lia.
  - rewrite (proj2 (Z.ltb_ge 512 d)) by lia. cbn [orb]. destruct (Z.ltb_spec d 0).
    + destruct (Z.ltb_spec c (- d)); [done|]. split; [done|]. apply Hok; [f_equal; lia|lia].
    + rewrite (proj2 (Z.ltb_ge c (- d))) by lia. split; [done|]. apply Hok; [f_equal; lia|lia].
Qed.
Lemma entry_update_count_witness :
  let '(err, value') := radix_entry_update 0x20006 delta_flags 0 511 in err = REND_SUCCESS /\ entry_get_count value' = 512 /\ entry_child value' = 0x20000.
Proof.
  pose proof (entry_update_count 0x20006 511 ltac:(lia) ltac:(lia)) as (E1 & E2 & [E3 _] & _). split; [exact E1|]. split; [exact E2|exact E3].
Defined.

(** ** Two bands *)
#[local] Existing Instance quiet_env.

Definition two_bands : rst unit :=
  mk_rst (fun a => if a =? 0x10000 then 0x11002 else if a =? 0x11000 then 0x12000 else if a =? 0x12000 then 0x20000
                   else if a =? 0x12008 then 0x24000 else 0)
         (fun _ => radix_node_clear) (fun _ => []) tt 0x10000 (-1).
(** the words of the L0, L1 and the two L2 entries *)
Definition band_entries (st : rst unit) : list Z := map (fun a => ents st a) [0x10000; 0x11000; 0x12000; 0x12008].

Definition reserve_across (st : rst unit) : option (rst unit) :=
  '(_, st) ← vmm_radix_tree_lock_range_big_and_small small_space 0x1ff000 0x201000 RADIX_RL_INSERT 4 st;
  '(_, st) ← vmm_radix_tree_unlock_range_small 0x1ff000 0x201000 4 st;
  '(_, st) ← vmm_radix_tree_insert_range small_space 7 0x1ff000 0 0x201000 4 st; Some st.
Definition release_second (st : rst unit) : option (Z * rst unit) :=
  vmm_radix_tree_lock_range_big_and_small small_space 0x200000 0x201000 RADIX_RL_DELETE 4 st.
(** Reserving one page on each side of a band border adds one to the L1 count
    although both L2 entries become occupied; releasing the second page then
    frees the tables the first one still uses. *)
Example bands_counted_once :
  (st ← reserve_across two_bands; '(err, st') ← release_second st;
   Some (map entry_get_count (band_entries st), rnode (ents st) (root_radix st) 0x1ff000,
         err, owner (nodes st' 0x23fe0), rnode (ents st') (root_radix st') 0x1ff000))
  = Some ([1; 1; 1; 1], Some 0x23fe0, REND_SUCCESS, 7, None).
Proof. vm_compute. reflexivity. Qed.
