(* ===== verification/MmUser.v ===== *)
(** * Ranges of user pages

    [mm/mm_user_utils.c]: filling, emptying, remapping and re-flagging ranges of
    an address space, each in a fixed order over three layers, the radix tree,
    the page tables and the frame allocator, with the undo of every step.  The
    layers are reached through the operations of [VSpaceOps] and [UserOps],
    which are the calls of the code; [None] is [kernel_panic].  [vs] is the
    address space, [V] the state of the layers. *)
From S2P Require Import Prelude Mm TaggedPtr KernelPages.

Definition MM_USER_RANGE_FLAGS_ABSOLUTE : Z := 0.
Definition MM_USER_RANGE_FLAGS_DELTA : Z := 1.
Definition MM_USER_RANGE_FLAGS_DELTA_PTE_ONLY : Z := 2.

Class UserOps (V : Type) `{VSpaceOps V} := {
  vs_root_addr : V -> bool;                                   (* vs->vspace_root_addr is set *)
  vs_root_radix : V -> bool;                                  (* vs->root_radix is set *)
  vs_zone : V -> bool;                                        (* vs->pmm->zone is set *)
  vs_root_vs : V -> Z;                                        (* vs->root_vs *)
  radix_lock_small : V -> Z -> Z -> Z -> Z * V;               (* lock_range_small_with_big_locked *)
  radix_unlock_small : V -> Z -> Z -> Z * V;                  (* unlock_range_small *)
  radix_leaf_bind : V -> Z -> Z -> Z -> Z * V;                (* va, ppn, flags *)
  radix_query_flags : V -> Z -> Z -> Z * Z;                   (* query_range: error, flags *)
  radix_change_leaf_ppn : V -> Z -> Z -> Z -> Z -> Z -> Z * V; (* start, end, old, new, flags *)
  radix_change_range_flag : V -> Z -> Z -> Z -> Z * V;        (* start, end, flags *)
  vs_have_mapped : V -> Z -> Z * Z * Z;                       (* vpn: ppn or error, flags, level *)
  vs_zero_page : V -> Z -> Z * V                              (* map_handler_zero_page *)
}.

Definition has_flag (flags bit : Z) : bool := negb (Z.land flags bit =? 0).

Definition mm_user_canonical_pte_flags (flags : Z) : Z :=
  let out := entry_flags_rm_sw_flags flags in
  if has_flag flags PAGE_ENTRY_VALID then Z.lor out PAGE_ENTRY_VALID else out.
Definition mm_user_updated_entry_flags (mode : Z) (for_pte_table : bool) (old_flags set_mask clear_mask : Z) : Z :=
  if (mode =? MM_USER_RANGE_FLAGS_DELTA_PTE_ONLY) && negb for_pte_table then old_flags
  else
    let desired := if mode =? MM_USER_RANGE_FLAGS_ABSOLUTE then entry_flags_rm_sw_flags set_mask
                   else Z.land (Z.lor old_flags set_mask) (bnot 64 clear_mask) in
    let out := entry_flags_rm_sw_flags desired in
    if has_flag old_flags PAGE_ENTRY_VALID then Z.lor out PAGE_ENTRY_VALID else out.
(** the flags a leaf is bound with *)
Definition bind_flags_of (flags : Z) : Z :=
  let bind_flags := entry_flags_rm_sw_flags flags in
  if has_flag bind_flags PAGE_ENTRY_VALID then bind_flags else Z.lor bind_flags PAGE_ENTRY_VALID.

Section User.
Context {V : Type} `{UserOps V} (root_vspace cpu : Z).
Implicit Types v : V.

Definition page_va (range_start : Z) (page_index : nat) : Z := u64 (range_start + Z.of_nat page_index * PAGE_SIZE).

(** ** Filling a new range *)

Fixpoint zero_pages v (ppn_first : Z) (zi left : nat) : option V :=
  match left with
  | O => Some v
  | S left' =>
    let '(err, v) := vs_zero_page v (i64 (ppn_first + Z.of_nat zi)) in
    if negb (err =? REND_SUCCESS) then None else zero_pages v ppn_first (S zi) left'
  end.

(** labels [out_free_phys], [out_delete_radix], [out_unmap_pte_prefix] *)
Definition out_free_phys v (ppn_first page_count : Z) : Z * V := (0, snd (vs_pmm_free v ppn_first page_count)).
Definition out_delete_radix v (inserted : bool) (range_start range_end ppn_first page_count : Z) : Z * V :=
  let v :=
    if inserted then
      let '(e, v) := radix_lock_small v range_start range_end RADIX_RL_DELETE in
      if e =? REND_SUCCESS then snd (radix_unlock_small v range_start range_end) else v
    else v in
  out_free_phys v ppn_first page_count.
Definition out_unmap_pte_prefix v (pages_mapped : nat) (range_start range_end ppn_first page_count : Z) : Z * V :=
  out_delete_radix (unmap_rollback v range_start pages_mapped) true range_start range_end ppn_first page_count.

Definition install_range v (vs range_start page_count bind_flags ppn_first : Z) : option (Z * V) :=
  let owner := tp_new (if negb (vs_root_vs v =? NULL) then vs_root_vs v else vs) (u16 cpu) in
  match vmm_radix_tree_calculate_end_check range_start page_count with
  | None => Some (out_free_phys v ppn_first page_count)
  | Some range_end =>
    let '(err, v) := radix_lock_small v range_start range_end RADIX_RL_INSERT in
    if negb (err =? REND_SUCCESS) then Some (out_free_phys v ppn_first page_count)
    else
      let '(err, v) := radix_insert_range v owner range_start bind_flags range_end in
      if negb (err =? REND_SUCCESS) then
        Some (out_delete_radix (snd (radix_unlock_small v range_start range_end)) false range_start range_end ppn_first page_count)
      else
        let '(ok, pages_mapped, v) := map_pages v range_start ppn_first bind_flags 0 (Z.to_nat page_count) in
        if negb ok then
          Some (out_unmap_pte_prefix (snd (radix_unlock_small v range_start range_end)) pages_mapped range_start range_end ppn_first page_count)
        else
          let '(err, v) := radix_leaf_bind_range v range_start ppn_first range_end bind_flags in
          let v := snd (radix_unlock_small v range_start range_end) in
          if negb (err =? REND_SUCCESS) then Some (out_unmap_pte_prefix v pages_mapped range_start range_end ppn_first page_count)
          else v ← zero_pages v ppn_first 0 (Z.to_nat page_count); Some (range_start, v)
  end.

Definition mm_user_utils_set_range_and_fill v (vs range_start page_count flags : Z) : option (Z * V) :=
  if (vs =? NULL) || (vs =? root_vspace) || negb (vs_pmm v) || (page_count =? 0)
     || negb (ROUND_DOWN range_start PAGE_SIZE =? range_start) || negb (vs_root_addr v) || negb (vs_root_radix v)
  then Some (0, v)
  else
    let caller_flags := if flags =? PAGE_ENTRY_NONE then 0 else flags in
    let bind_flags := bind_flags_of caller_flags in
    let '(ppn_first, pages_allocated, v) := vs_pmm_alloc v page_count in
    if invalid_ppn ppn_first then Some (0, v)
    else if pages_allocated <? page_count then
      Some (0, if 0 <? pages_allocated then snd (vs_pmm_free v ppn_first pages_allocated) else v)
    else
      let v := if page_count <? pages_allocated then snd (vs_pmm_free v (i64 (ppn_first + page_count)) (pages_allocated - page_count)) else v in
      install_range v vs range_start page_count bind_flags ppn_first.

(** ** Filling a reserved page *)

Definition unlock_with v (err page_va page_range_end : Z) : Z * V := (err, snd (radix_unlock_small v page_va page_range_end)).
Definition fill_locked v (page_va page_range_end leaf_flags : Z) : option (Z * V) :=
  let bind_flags := bind_flags_of leaf_flags in
  let '(new_ppn, pages_allocated, v) := vs_pmm_alloc v 1 in
  if invalid_ppn new_ppn then Some (unlock_with v (- E_RENDEZVOS) page_va page_range_end)
  else if pages_allocated <? 1 then Some (unlock_with v (- E_RENDEZVOS) page_va page_range_end)
  else
    let v := if 1 <? pages_allocated then snd (vs_pmm_free v (i64 (new_ppn + 1)) (pages_allocated - 1)) else v in
    let '(err, v) := vs_map v new_ppn (VPN page_va) 3 bind_flags in
    if negb (err =? REND_SUCCESS) then Some (unlock_with (snd (vs_pmm_free v new_ppn 1)) err page_va page_range_end)
    else
      let '(err, v) := radix_leaf_bind v page_va new_ppn bind_flags in
      if negb (err =? REND_SUCCESS) then
        Some (unlock_with (snd (vs_pmm_free (snd (vs_unmap v (VPN page_va))) new_ppn 1)) err page_va page_range_end)
      else
        let '(err, v) := radix_unlock_small v page_va page_range_end in
        if negb (err =? REND_SUCCESS) then Some (err, v)
        else
          let '(err, v) := vs_zero_page v new_ppn in
          if negb (err =? REND_SUCCESS) then None else Some (REND_SUCCESS, v).
Definition mm_user_utils_fill_page_with_exist_range v (vs page_va leaf_flags : Z) : option (Z * V) :=
  if (vs =? NULL) || (vs =? root_vspace) || negb (vs_pmm v) || negb (vs_root_addr v) || negb (vs_root_radix v) then Some (- E_IN_PARAM, v)
  else if negb (ROUND_DOWN page_va PAGE_SIZE =? page_va) then Some (- E_IN_PARAM, v)
  else
    match vmm_radix_tree_calculate_end_check page_va 1 with
    | None => Some (- E_IN_PARAM, v)
    | Some page_range_end =>
      let '(err, v) := radix_lock_small v page_va page_range_end RADIX_RL_QUERY_OR_CHANGE in
      if negb (err =? REND_SUCCESS) then Some (err, v)
      else
        let '(err, radix_flags) := radix_query_flags v page_va page_range_end in
        if negb (err =? REND_SUCCESS) then Some (unlock_with v err page_va page_range_end)
        else if has_flag radix_flags PAGE_ENTRY_VALID then Some (radix_unlock_small v page_va page_range_end)
        else if negb (has_flag radix_flags PAGE_ENTRY_LAZY) then Some (unlock_with v (- E_IN_PARAM) page_va page_range_end)
        else fill_locked v page_va page_range_end leaf_flags
    end.

(** ** Emptying a range *)

(** [err] is what the last page left behind: [pmm_free]'s error of that page, or
    the unmap error *)
Fixpoint unfill_pages v (range_start : Z) (page_index left : nat) (err : Z) : Z * V :=
  match left with
  | O => (err, v)
  | S left' =>
    let '(unmapped_ppn, v) := vs_unmap v (VPN (page_va range_start page_index)) in
    if invalid_ppn unmapped_ppn then unfill_pages v range_start (S page_index) left' (- E_RENDEZVOS)
    else
      let '(err, v) := vs_pmm_free v unmapped_ppn 1 in
      unfill_pages v range_start (S page_index) left' err
  end.
Definition mm_user_utils_clean_range_and_unfill v (vs range_start page_count ppn_first : Z) : Z * V :=
  if (vs =? NULL) || negb (vs_pmm v) || (page_count =? 0) || negb (ROUND_DOWN range_start PAGE_SIZE =? range_start) || invalid_ppn ppn_first
  then (- E_IN_PARAM, v)
  else
    match vmm_radix_tree_calculate_end_check range_start page_count with
    | None => (- E_IN_PARAM, v)
    | Some range_end =>
      let '(err, v) := radix_lock_small v range_start range_end RADIX_RL_QUERY_OR_CHANGE in
      if negb (err =? REND_SUCCESS) then (err, v)
      else
        let '(err, v) := radix_leaf_unbind_range v range_start ppn_first range_end in
        if negb (err =? REND_SUCCESS) then unlock_with v err range_start range_end
        else
          let '(err, v) := radix_unlock_small v range_start range_end in
          if negb (err =? REND_SUCCESS) then (err, v)
          else
            let '(err, v) := unfill_pages v range_start 0 (Z.to_nat page_count) err in
            if negb (err =? REND_SUCCESS) then (err, v)
            else
              let '(err, v) := radix_lock_small v range_start range_end RADIX_RL_DELETE in
              if negb (err =? REND_SUCCESS) then (err, v) else radix_unlock_small v range_start range_end
    end.

(** ** Another frame for a page *)

Definition remap_locked v (page_va page_range_end new_ppn new_flags expect_old_ppn radix_flags : Z) : Z * V :=
  let '(old_ppn, _, pte_level) := vs_have_mapped v (VPN page_va) in
  if invalid_ppn old_ppn then unlock_with v (i32 old_ppn) page_va page_range_end
  else if negb (invalid_ppn expect_old_ppn) && negb (old_ppn =? expect_old_ppn) then unlock_with v (- E_REND_RC_UNEQUAL) page_va page_range_end
  else
    let new_leaf_flags := bind_flags_of new_flags in
    let '(err, v) := radix_change_leaf_ppn v page_va page_range_end old_ppn new_ppn new_leaf_flags in
    if negb (err =? REND_SUCCESS) then unlock_with v err page_va page_range_end
    else
      let map_flags := if negb (old_ppn =? new_ppn) then Z.lor new_leaf_flags PAGE_ENTRY_REMAP else new_leaf_flags in
      let '(err, v) := vs_map v new_ppn (VPN page_va) pte_level map_flags in
      if negb (err =? REND_SUCCESS) then
        unlock_with (snd (radix_change_leaf_ppn v page_va page_range_end new_ppn old_ppn radix_flags)) err page_va page_range_end
      else
        let '(err, v) := if negb (old_ppn =? new_ppn) then vs_pmm_free v old_ppn 1 else (err, v) in
        let '(unlock_err, v) := radix_unlock_small v page_va page_range_end in
        if negb (unlock_err =? REND_SUCCESS) then (unlock_err, v) else (err, v).
Definition mm_user_utils_remap_page v (vs page_va new_ppn new_flags expect_old_ppn : Z) : Z * V :=
  let page_va := ROUND_DOWN page_va PAGE_SIZE in
  if (vs =? NULL) || (vs =? root_vspace) || negb (vs_pmm v) || negb (vs_zone v) || negb (vs_root_radix v) || negb (vs_root_addr v) || invalid_ppn new_ppn
  then (- E_IN_PARAM, v)
  else
    match vmm_radix_tree_calculate_end_check page_va 1 with
    | None => (- E_IN_PARAM, v)
    | Some page_range_end =>
      let '(err, v) := radix_lock_small v page_va page_range_end RADIX_RL_QUERY_OR_CHANGE in
      if negb (err =? REND_SUCCESS) then (err, v)
      else
        let '(err, radix_flags) := radix_query_flags v page_va page_range_end in
        if negb (err =? REND_SUCCESS) then unlock_with v err page_va page_range_end
        else if negb (has_flag radix_flags PAGE_ENTRY_VALID) then unlock_with v (- E_IN_PARAM) page_va page_range_end
        else remap_locked v page_va page_range_end new_ppn new_flags expect_old_ppn radix_flags
    end.

(** ** New flags for a range *)

(** the first walk: the flags all pages share; [inr] an error *)
Fixpoint uniform_flags v (range_start : Z) (page_index left : nat) (radix0 pte0 : Z) : Z * Z + Z :=
  match left with
  | O => inl (radix0, pte0)
  | S left' =>
    let va := page_va range_start page_index in
    match vmm_radix_tree_calculate_end_check va 1 with
    | None => inr (- E_IN_PARAM)
    | Some page_range_end =>
      let '(err, radix_flags) := radix_query_flags v va page_range_end in
      if negb (err =? REND_SUCCESS) then inr err
      else if negb (has_flag radix_flags PAGE_ENTRY_VALID) then inr (- E_IN_PARAM)
      else
        let '(mapped_ppn, pte_flags, pte_level) := vs_have_mapped v (VPN va) in
        if invalid_ppn mapped_ppn then inr (i32 mapped_ppn)
        else if negb (pte_level =? 3) then inr (- E_IN_PARAM)
        else if (page_index =? 0)%nat then uniform_flags v range_start (S page_index) left' radix_flags pte_flags
        else if negb (radix_flags =? radix0) || negb (mm_user_canonical_pte_flags pte_flags =? mm_user_canonical_pte_flags pte0) then inr (- E_IN_PARAM)
        else uniform_flags v range_start (S page_index) left' radix0 pte0
    end
  end.
(** the second walk: error and pages done *)
Fixpoint update_ptes v (range_start desired_pte_flags : Z) (page_index left : nat) : Z * nat * V :=
  match left with
  | O => (REND_SUCCESS, page_index, v)
  | S left' =>
    let va := page_va range_start page_index in
    let '(mapped_ppn, _, pte_level) := vs_have_mapped v (VPN va) in
    if invalid_ppn mapped_ppn then (i32 mapped_ppn, page_index, v)
    else if negb (pte_level =? 3) then (- E_RENDEZVOS, page_index, v)
    else
      let '(err, v) := vs_map v mapped_ppn (VPN va) pte_level desired_pte_flags in
      if negb (err =? REND_SUCCESS) then (err, page_index, v)
      else update_ptes v range_start desired_pte_flags (S page_index) left'
  end.
Fixpoint restore_ptes v (range_start map_pte : Z) (page_index left : nat) : V :=
  match left with
  | O => v
  | S left' =>
    let va := page_va range_start page_index in
    let '(mapped_ppn, _, pte_level) := vs_have_mapped v (VPN va) in
    let v := if invalid_ppn mapped_ppn || negb (pte_level =? 3) then v else snd (vs_map v mapped_ppn (VPN va) pte_level map_pte) in
    restore_ptes v range_start map_pte (S page_index) left'
  end.
Definition mm_user_restore_range_pte_prefix v (range_start : Z) (pages_mapped : nat) (canonical_pte_flags : Z) : V :=
  restore_ptes v range_start (mm_user_canonical_pte_flags canonical_pte_flags) 0 pages_mapped.

Definition set_flags_locked v (range_start range_end : Z) (n_pages : nat) (mode set_mask clear_mask : Z) : Z * V :=
  match uniform_flags v range_start 0 n_pages 0 0 with
  | inr err => unlock_with v err range_start range_end
  | inl (uniform_radix_flags, uniform_pte_flags) =>
    let desired_pte_flags := mm_user_updated_entry_flags mode true uniform_pte_flags set_mask clear_mask in
    let desired_radix_flags := mm_user_updated_entry_flags mode false uniform_radix_flags set_mask clear_mask in
    let '(err, pages_pte_updated, v) := update_ptes v range_start desired_pte_flags 0 n_pages in
    let rollback err v := unlock_with (mm_user_restore_range_pte_prefix v range_start pages_pte_updated uniform_pte_flags) err range_start range_end in
    if negb (err =? REND_SUCCESS) then rollback err v
    else
      let '(err, v) := if negb (mode =? MM_USER_RANGE_FLAGS_DELTA_PTE_ONLY) then radix_change_range_flag v range_start range_end desired_radix_flags
                       else (err, v) in
      if negb (err =? REND_SUCCESS) then rollback err v else radix_unlock_small v range_start range_end
  end.
Definition mm_user_utils_set_range_flags v (vs range_start length_bytes mode set_mask clear_mask : Z) : Z * V :=
  let range_start := ROUND_DOWN range_start PAGE_SIZE in
  if (vs =? NULL) || (vs =? root_vspace) || negb (vs_pmm v) || negb (vs_root_radix v) || negb (vs_root_addr v) || (length_bytes =? 0)
  then (- E_IN_PARAM, v)
  else if 2 ^ 40 <? length_bytes then (- E_IN_PARAM, v)
  else
    let n_pages := ROUND_UP length_bytes PAGE_SIZE / PAGE_SIZE in
    match vmm_radix_tree_calculate_end_check range_start n_pages with
    | None => (- E_IN_PARAM, v)
    | Some range_end =>
      let '(err, v) := radix_lock_small v range_start range_end RADIX_RL_QUERY_OR_CHANGE in
      if negb (err =? REND_SUCCESS) then (err, v)
      else set_flags_locked v range_start range_end (Z.to_nat n_pages) mode set_mask clear_mask
    end.
End User.
