(* ===== verification/MmUserLaws.v ===== *)
(** * What user ranges rely on

    The promises of the three layers below [mm_user_utils.c], as far as its
    functions use them.  RadixSpec and MapSpec prove properties of this kind of
    the radix tree and the page tables, each over its own state; MmUserSim is
    the instance the claims are applied at.  A layer is seen through [leaf] (what the
    radix tree says of a page: absent, reserved, or bound to a frame), [pte]
    (what the page tables say) and [owned] (the frames handed out). *)
From stdpp Require Import list_numbers gmap sets.
From S2P Require Import Prelude Mm TaggedPtr KernelPages MmUser.

Definition in_range (range_start range_end x : Z) : bool := (VPN range_start <=? x) && (x <? VPN range_end).

Class UserLaws (V : Type) `{HO : VSpaceOps V} {HL : VSpaceLedger V} {HU : UserOps V} := {
  leaf : V -> Z -> option (option Z * Z);
  pte : V -> Z -> option (Z * Z);
  locked : V -> bool;
  reported : Z -> Z;   (* the flags a lookup reports for an entry written with these *)
  law_alloc : forall v n, let v' := snd (vs_pmm_alloc v n) in
    (forall x, leaf v' x = leaf v x) /\ (forall x, pte v' x = pte v x) /\ locked v' = locked v;
  law_free : forall v p n, let v' := snd (vs_pmm_free v p n) in
    (forall x, leaf v' x = leaf v x) /\ (forall x, pte v' x = pte v x) /\ locked v' = locked v;
  law_lock : forall v a b m, let '(e, v') := radix_lock_small v a b m in
    owned v' = owned v /\ (forall x, pte v' x = pte v x) /\
    if e =? REND_SUCCESS then locked v' = true /\ forall x, leaf v' x = if (m =? RADIX_RL_DELETE) && in_range a b x then None else leaf v x
    else locked v' = locked v /\ forall x, leaf v' x = leaf v x;
  law_unlock : forall v a b, let '(e, v') := radix_unlock_small v a b in
    owned v' = owned v /\ (forall x, pte v' x = pte v x) /\ (forall x, leaf v' x = leaf v x) /\ locked v' = false /\ (locked v = true -> e = REND_SUCCESS);
  law_insert : forall v o a f b, let '(e, v') := radix_insert_range v o a f b in
    (forall x, pte v' x = pte v x) /\ locked v' = locked v /\ (forall x, in_range a b x = false -> leaf v' x = leaf v x) /\
    if e =? REND_SUCCESS then forall x, in_range a b x = true -> leaf v x = None /\ exists g, leaf v' x = Some (None, g)
    else forall x, leaf v' x = leaf v x;
  law_bind : forall v a p b f, let '(e, v') := radix_leaf_bind_range v a p b f in
    (forall x, pte v' x = pte v x) /\ locked v' = locked v /\ (forall x, in_range a b x = false -> leaf v' x = leaf v x) /\
    if e =? REND_SUCCESS then forall x, in_range a b x = true -> leaf v' x = Some (Some (p + (x - VPN a)), f)
    else (forall x, in_range a b x = true -> exists g, leaf v x = Some (None, g)) -> forall x, in_range a b x = true -> exists g, leaf v' x = Some (None, g);
  law_unbind : forall v a p b, let '(e, v') := radix_leaf_unbind_range v a p b in
    (forall x, pte v' x = pte v x) /\ locked v' = locked v /\ (forall x, in_range a b x = false -> leaf v' x = leaf v x) /\
    if e =? REND_SUCCESS then
      forall x, in_range a b x = true -> (exists f, leaf v x = Some (Some (p + (x - VPN a)), f)) /\ exists g, leaf v' x = Some (None, g)
    else forall x, leaf v' x = leaf v x;
  law_map : forall v p x f, let '(e, v') := vs_map v p x 3 f in
    (forall y, leaf v' y = leaf v y) /\ locked v' = locked v /\
    if e =? REND_SUCCESS then forall y, pte v' y = if y =? x then Some (p, reported f) else pte v y else forall y, pte v' y = pte v y;
  law_unmap : forall v x, let '(q, v') := vs_unmap v x in
    (forall y, leaf v' y = leaf v y) /\ locked v' = locked v /\
    match pte v x with
    | Some (p, _) => q = p /\ forall y, pte v' y = if y =? x then None else pte v y
    | None => invalid_ppn q = true /\ forall y, pte v' y = pte v y
    end;
  law_have : forall v x, match pte v x with
    | Some (p, g) => vs_have_mapped v x = (p, g, 3) /\ invalid_ppn p = false
    | None => - 2 ^ 31 <= fst (fst (vs_have_mapped v x)) < 0   (* an error code *)
    end;
  law_reported : forall v x p g, pte v x = Some (p, g) -> reported (mm_user_canonical_pte_flags g) = g;
  law_query : forall v a b, let '(e, f) := radix_query_flags v a b in e = REND_SUCCESS -> exists q, leaf v (VPN a) = Some (q, f);
  law_change_flag : forall v a b f, let '(e, v') := radix_change_range_flag v a b f in
    owned v' = owned v /\ (forall x, pte v' x = pte v x) /\ locked v' = locked v /\
    if e =? REND_SUCCESS then forall x, leaf v' x = if in_range a b x then option_map (fun l => (fst l, f)) (leaf v x) else leaf v x
    else forall x, leaf v' x = leaf v x;
  law_zero : forall v p, let '(e, v') := vs_zero_page v p in
    owned v' = owned v /\ (forall x, leaf v' x = leaf v x) /\ (forall x, pte v' x = pte v x) /\ locked v' = locked v /\ (p ∈ owned v -> e = REND_SUCCESS)
}.

Section Laws.
Context {V : Type} `{HW : UserLaws V}.
Implicit Types v : V.

(** nothing visible has changed *)
Record same v v' : Prop := {
  sm_owned : owned v' = owned v;
  sm_leaf : forall x, leaf v' x = leaf v x;
  sm_pte : forall x, pte v' x = pte v x;
  sm_locked : locked v' = locked v
}.
Lemma same_refl v : same v v.
Proof. by split. Qed.
Lemma same_trans v1 v2 v3 : same v1 v2 -> same v2 v3 -> same v1 v3.
Proof. intros [A1 A2 A3 A4] [B1 B2 B3 B4]. split; [congruence| | |congruence]; intros x; [by rewrite B2|by rewrite B3]. Qed.

(** the pages of a range *)
Lemma range_pages range_start n range_end : 0 <= n -> ROUND_DOWN range_start PAGE_SIZE = range_start -> 0 <= range_start < 2 ^ 64 ->
  vmm_radix_tree_calculate_end_check range_start n = Some range_end ->
  VPN range_end = VPN range_start + n /\ forall i, Z.of_nat i < n -> VPN (page_va range_start i) = VPN range_start + Z.of_nat i.
Proof.
  intros Hn Hal Hs H. unfold vmm_radix_tree_calculate_end_check in H. destruct (Z.eqb_spec n 0); [done|].
  destruct (Z.ltb_spec (U64_MAX / PAGE_SIZE) n) as [|Hmax]; [done|]. change (U64_MAX / PAGE_SIZE) with 4503599627370495 in Hmax.
  change PAGE_SIZE with 4096 in *. rewrite (u64_small (n * 4096)) in H by lia.
  assert (Hend : range_end = u64 (range_start + n * 4096) /\ range_start <= range_end).
  { destruct (Z.ltb_spec (u64 (range_start + n * 4096)) range_start); [done|]. destruct (radix_check_range _ _ _); [|done]. by injection H as <-. }
  destruct Hend as [-> Hge]. assert (Hlt : range_start + n * 4096 < 2 ^ 64).
  { destruct (Z.lt_ge_cases (range_start + n * 4096) (2 ^ 64)); [done|]. unfold u64, wrap in Hge. change (2 ^ 64) with 18446744073709551616 in *. dlia. }
  rewrite (u64_small (range_start + n * 4096)) by lia. change VPN with PPN in *.
  split; [rewrite !PPN_small by lia; by rewrite Z.div_add by lia|]. intros i Hi. unfold page_va. change PAGE_SIZE with 4096.
  rewrite u64_small by lia. rewrite !PPN_small by lia. by rewrite Z.div_add by lia.
Qed.
End Laws.
