(* ===== verification/MmUserSim.v ===== *)
(** * Three layers user ranges can run on

    A radix tree, page tables and a frame allocator as finite maps, with the
    refusals the code has to undo: a page that is already present, a frame
    that does not match, page tables out of memory after [sm_maps] calls. *)
From stdpp Require Import list_numbers gmap sets.
From S2P Require Import Prelude Mm TaggedPtr KernelPages MmUser MmUserLaws.

Record sim := mk_sim {
  sim_next : Z; sim_out : gset Z; sim_leaf : gmap Z (option Z * Z); sim_pte : gmap Z (Z * Z); sim_locked : bool; sim_maps : nat
}.
Definition sim_with_out (v : sim) o := mk_sim (sim_next v) o (sim_leaf v) (sim_pte v) (sim_locked v) (sim_maps v).
Definition sim_with_leaf (v : sim) m := mk_sim (sim_next v) (sim_out v) m (sim_pte v) (sim_locked v) (sim_maps v).
Definition sim_with_pte (v : sim) m := mk_sim (sim_next v) (sim_out v) (sim_leaf v) m (sim_locked v) (sim_maps v).
Definition sim_with_lock (v : sim) b := mk_sim (sim_next v) (sim_out v) (sim_leaf v) (sim_pte v) b (sim_maps v).
Definition sim_spent (v : sim) := mk_sim (sim_next v) (sim_out v) (sim_leaf v) (sim_pte v) (sim_locked v) (pred (sim_maps v)).

Definition pages_of (a b : Z) : list Z := seqZ (VPN a) (VPN b - VPN a).
Definition set_pages {A} (f : Z -> option A) (l : list Z) (m : gmap Z A) : gmap Z A := foldr (fun x m => partial_alter (fun _ => f x) x m) m l.

Lemma lookup_set_pages {A} (f : Z -> option A) l m x : set_pages f l m !! x = if bool_decide (x ∈ l) then f x else m !! x.
Proof.
  induction l as [|y l IH]; cbn [set_pages foldr]; [done|]. change (foldr _ m l) with (set_pages f l m). destruct (decide (y = x)) as [->|Hne].
  - rewrite lookup_partial_alter_eq. by rewrite bool_decide_eq_true_2 by left.
  - rewrite lookup_partial_alter_ne by done. rewrite IH. do 2 case_bool_decide; try done; exfalso; rewrite elem_of_cons in *; naive_solver.
Qed.
Lemma in_pages a b x : bool_decide (x ∈ pages_of a b) = in_range a b x.
Proof.
  unfold pages_of, in_range. destruct (Z.leb_spec (VPN a) x), (Z.ltb_spec x (VPN b)); cbn [andb]; first [apply bool_decide_eq_true_2|apply bool_decide_eq_false_2]; rewrite elem_of_seqZ; lia.
Qed.
Lemma forall_pages (P : Z -> bool) a b : forallb P (pages_of a b) = true -> forall x, in_range a b x = true -> P x = true.
Proof. intros H x Hx. rewrite <- in_pages in Hx. apply bool_decide_eq_true in Hx. rewrite forallb_forall in H. by apply H, list_elem_of_In. Qed.

Definition sim_alloc (v : sim) (n : Z) : Z * Z * sim :=
  if (0 <? n) && (0 <=? sim_next v) && (sim_next v + n <=? 2 ^ 35) && bool_decide (frames (sim_next v) n ## sim_out v)
  then (sim_next v, n, mk_sim (sim_next v + n) (sim_out v ∪ frames (sim_next v) n) (sim_leaf v) (sim_pte v) (sim_locked v) (sim_maps v))
  else (- E_REND_NO_MEM, 0, v).
Definition sim_insert (v : sim) (a b : Z) : Z * sim :=
  if forallb (fun x => bool_decide (sim_leaf v !! x = None)) (pages_of a b)
  then (REND_SUCCESS, sim_with_leaf v (set_pages (fun _ => Some (None, PAGE_ENTRY_LAZY)) (pages_of a b) (sim_leaf v))) else (- E_RENDEZVOS, v).
Definition is_reserved (l : option (option Z * Z)) : bool := match l with Some (None, _) => true | _ => false end.
Definition sim_bind (v : sim) (a p b f : Z) : Z * sim :=
  if forallb (fun x => is_reserved (sim_leaf v !! x)) (pages_of a b)
  then (REND_SUCCESS, sim_with_leaf v (set_pages (fun x => Some (Some (p + (x - VPN a)), f)) (pages_of a b) (sim_leaf v))) else (- E_RENDEZVOS, v).
Definition is_bound_to (p : Z) (l : option (option Z * Z)) : bool := match l with Some (Some q, _) => q =? p | _ => false end.
Definition sim_unbind (v : sim) (a p b : Z) : Z * sim :=
  if forallb (fun x => is_bound_to (p + (x - VPN a)) (sim_leaf v !! x)) (pages_of a b)
  then (REND_SUCCESS, sim_with_leaf v (set_pages (fun _ => Some (None, PAGE_ENTRY_LAZY)) (pages_of a b) (sim_leaf v))) else (- E_REND_RC_UNEQUAL, v).
Definition sim_lock (v : sim) (a b m : Z) : Z * sim :=
  if sim_locked v then (- E_REND_AGAIN, v)
  else (REND_SUCCESS, sim_with_lock (if m =? RADIX_RL_DELETE then sim_with_leaf v (set_pages (fun _ => None) (pages_of a b) (sim_leaf v)) else v) true).
Definition sim_reflag (v : sim) (a b f : Z) : Z * sim :=
  (REND_SUCCESS, sim_with_leaf v (set_pages (fun x => option_map (fun l => (fst l, f)) (sim_leaf v !! x)) (pages_of a b) (sim_leaf v))).
Definition sim_view (v : sim) (x : Z) : option (Z * Z) :=
  match sim_pte v !! x with
  | Some (p, f) => if invalid_ppn p then None else Some (p, entry_flags_rm_sw_flags f)
  | None => None
  end.
Definition sim_map (v : sim) (p x l f : Z) : Z * sim :=
  if (sim_maps v =? 0)%nat then (- E_REND_NO_MEM, v)
  else if invalid_ppn p then (- E_IN_PARAM, v)
  else match sim_view v x with
       | Some (q, _) => if (q =? p) || has_flag f PAGE_ENTRY_REMAP then (REND_SUCCESS, sim_with_pte (sim_spent v) (<[x := (p, f)]> (sim_pte v))) else (- E_RENDEZVOS, v)
       | None => (REND_SUCCESS, sim_with_pte (sim_spent v) (<[x := (p, f)]> (sim_pte v)))
       end.
Definition sim_unmap (v : sim) (x : Z) : Z * sim :=
  match sim_view v x with Some (p, _) => (p, sim_with_pte v (delete x (sim_pte v))) | None => (- E_RENDEZVOS, v) end.
Definition sim_query (v : sim) (a b : Z) : Z * Z :=
  match sim_leaf v !! VPN a with Some (_, f) => (REND_SUCCESS, f) | None => (- E_REND_NOFOUND, 0) end.

#[export] Instance sim_ops : VSpaceOps sim := {|
  vs_pmm _ := true;
  vs_pmm_alloc := sim_alloc;
  vs_pmm_free v ppn n := (REND_SUCCESS, sim_with_out v (sim_out v ∖ frames ppn n));
  radix_lock v _ _ _ := (REND_SUCCESS, v);
  radix_unlock v _ _ := (REND_SUCCESS, v);
  radix_insert_range v _ a _ b := sim_insert v a b;
  radix_leaf_bind_range := sim_bind;
  radix_leaf_unbind_range := sim_unbind;
  radix_query_range v _ _ := (REND_SUCCESS, 0);
  vs_map := sim_map;
  vs_unmap := sim_unmap;
  rmap_owner _ _ := None
|}.
#[export] Instance sim_user : UserOps sim := {|
  vs_root_addr _ := true;
  vs_root_radix _ := true;
  vs_zone _ := true;
  vs_root_vs _ := NULL;
  radix_lock_small := sim_lock;
  radix_unlock_small v _ _ := (if sim_locked v then REND_SUCCESS else - E_RENDEZVOS, sim_with_lock v false);
  radix_leaf_bind v va p f := (REND_SUCCESS, sim_with_leaf v (<[VPN va := (Some p, f)]> (sim_leaf v)));
  radix_query_flags := sim_query;
  radix_change_leaf_ppn v a _ _ p f := (REND_SUCCESS, sim_with_leaf v (<[VPN a := (Some p, f)]> (sim_leaf v)));
  radix_change_range_flag := sim_reflag;
  vs_have_mapped v x := match sim_view v x with Some (p, g) => (p, g, 3) | None => (- E_RENDEZVOS, 0, 3) end;
  vs_zero_page v p := (if bool_decide (p ∈ sim_out v) then REND_SUCCESS else - E_IN_PARAM, v)
|}.

(** ** The laws hold *)

Lemma sw_bit n : Z.testbit (Z.lor PAGE_ENTRY_REMAP (Z.lor PAGE_ENTRY_LAZY PAGE_ENTRY_COW)) n = (n =? 61) || (n =? 62) || (n =? 63).
Proof.
  unfold PAGE_ENTRY_REMAP, PAGE_ENTRY_LAZY, PAGE_ENTRY_COW. rewrite !Z.shiftl_1_l, !Z.lor_spec, !Z.pow2_bits_eqb by lia.
  destruct (Z.eqb_spec 61 n), (Z.eqb_spec 62 n), (Z.eqb_spec 63 n), (Z.eqb_spec n 61), (Z.eqb_spec n 62), (Z.eqb_spec n 63); done || lia.
Qed.
Lemma rm_sw_bit f n : 0 <= n -> Z.testbit (entry_flags_rm_sw_flags f) n = (n <? 61) && Z.testbit f n.
Proof.
  intros Hn. unfold entry_flags_rm_sw_flags, clear_mask_u64, u64. rewrite Z.land_spec, testbit_wrap, testbit_bnot, sw_bit by lia.
  destruct (Z.ltb_spec n 61), (Z.ltb_spec n 64), (Z.eqb_spec n 61), (Z.eqb_spec n 62), (Z.eqb_spec n 63); cbn [andb orb negb]; rewrite ?andb_false_r, ?andb_true_r; done || lia.
Qed.
Lemma rm_sw_idem f : entry_flags_rm_sw_flags (entry_flags_rm_sw_flags f) = entry_flags_rm_sw_flags f.
Proof. apply Z.bits_inj'. intros n Hn. rewrite !rm_sw_bit by done. by destruct (n <? 61). Qed.
Lemma canonical_rm_sw f : mm_user_canonical_pte_flags f = entry_flags_rm_sw_flags f.
Proof.
  unfold mm_user_canonical_pte_flags, has_flag. destruct (Z.eqb_spec (Z.land f PAGE_ENTRY_VALID) 0) as [E|E]; cbn [negb]; [done|].
  apply Z.bits_inj'. intros n Hn. rewrite Z.lor_spec, rm_sw_bit by done. unfold PAGE_ENTRY_VALID in *. rewrite Z.shiftl_1_l in *. rewrite Z.pow2_bits_eqb by lia.
  destruct (Z.eqb_spec 1 n) as [<-|]; [|by rewrite orb_false_r]. cbn [Z.ltb Z.compare andb]. rewrite orb_true_r. symmetry.
  destruct (Z.testbit f 1) eqn:Et; [done|]. exfalso. apply E, Z.bits_inj'. intros k Hk. rewrite Z.land_spec, Z.pow2_bits_eqb, Z.bits_0 by lia.
  destruct (Z.eqb_spec 1 k) as [<-|]; [by rewrite Et|by rewrite andb_false_r].
Qed.

Lemma pages_no_flag f a b x : in_range a b x = false -> forall (m : gmap Z (option Z * Z)), set_pages f (pages_of a b) m !! x = m !! x.
Proof. intros Hx m. by rewrite lookup_set_pages, in_pages, Hx. Qed.
Lemma pages_flag f a b x : in_range a b x = true -> forall (m : gmap Z (option Z * Z)), set_pages f (pages_of a b) m !! x = f x.
Proof. intros Hx m. by rewrite lookup_set_pages, in_pages, Hx. Qed.

#[export] Instance sim_ledger : VSpaceLedger sim.
Proof.
  refine {| owned := sim_out |}; try done.
  - intros v n ppn got v' E. cbn [vs_pmm_alloc sim_ops] in E. unfold sim_alloc in E. destruct (_ && _) eqn:Ec; simplify_eq; [|done].
    apply andb_prop in Ec as [Ec E4]. apply andb_prop in Ec as [Ec E3]. apply andb_prop in Ec as [E1 E2]. apply bool_decide_eq_true in E4. apply Z.ltb_lt in E1. apply Z.leb_le in E2, E3.
    unfold invalid_ppn. rewrite i64_small by lia. destruct (Z.ltb_spec (sim_next v) 0); [lia|]. by split_and!.
  - intros v o a f b. cbn. unfold sim_insert. by destruct (forallb _ _).
  - intros v a p b f. cbn. unfold sim_bind. by destruct (forallb _ _).
  - intros v a p b. cbn. unfold sim_unbind. by destruct (forallb _ _).
  - intros v p a l f. cbn. unfold sim_map. destruct (_ =? _)%nat; [done|]. destruct (invalid_ppn p); [done|]. destruct (sim_view v a) as [[q g]|]; [|done]. by destruct (_ || _).
  - intros v a. cbn. unfold sim_unmap. by destruct (sim_view v a) as [[p g]|].
Defined.

Lemma sim_view_insert v x p f y : invalid_ppn p = false ->
  sim_view (sim_with_pte (sim_spent v) (<[x := (p, f)]> (sim_pte v))) y = if y =? x then Some (p, entry_flags_rm_sw_flags f) else sim_view v y.
Proof.
  intros Hp. unfold sim_view. cbn [sim_pte sim_with_pte]. destruct (Z.eqb_spec y x) as [->|Hne].
  - rewrite lookup_insert_eq. by rewrite Hp.
  - by rewrite lookup_insert_ne.
Qed.
Lemma sim_view_valid v x p g : sim_view v x = Some (p, g) -> invalid_ppn p = false /\ entry_flags_rm_sw_flags g = g.
Proof. unfold sim_view. destruct (sim_pte v !! x) as [[q f]|]; [|done]. destruct (invalid_ppn q) eqn:E; [done|]. intros [= <- <-]. split; [done|apply rm_sw_idem]. Qed.

#[export] Instance sim_laws : UserLaws sim.
Proof.
  refine {| leaf := fun v x => sim_leaf v !! x; pte := sim_view; locked := sim_locked; reported := entry_flags_rm_sw_flags |}.
  - intros v n. cbn. unfold sim_alloc. by destruct (_ && _).
  - done.
  - intros v a b m. cbn. unfold sim_lock. destruct (sim_locked v) eqn:El; cbn; [done|]. split; [by destruct (m =? _)|]. split; [by destruct (m =? _)|]. split; [done|].
    intros x. destruct (m =? RADIX_RL_DELETE); cbn [andb]; [|done]. cbn. by rewrite lookup_set_pages, in_pages.
  - intros v a b. cbn. split_and!; try done. by intros ->.
  - intros v o a f b. cbn. unfold sim_insert. destruct (forallb _ _) eqn:E; cbn; [|done]. split_and!; try done.
    + intros x Hx. by apply pages_no_flag.
    + intros x Hx. split; [|eexists; by rewrite pages_flag]. pose proof (forall_pages _ _ _ E x Hx) as H. by apply bool_decide_eq_true in H.
  - intros v a p b f. cbn. unfold sim_bind. destruct (forallb _ _); cbn; [|split; [done|split; [done|split; [done|exact (fun H => H)]]]]. split_and!; try done.
    + intros x Hx. by apply pages_no_flag.
    + intros x Hx. by rewrite pages_flag.
  - intros v a p b. cbn. unfold sim_unbind. destruct (forallb _ _) eqn:E; cbn; [|done]. split_and!; try done.
    + intros x Hx. by apply pages_no_flag.
    + intros x Hx. split; [|eexists; by rewrite pages_flag]. pose proof (forall_pages _ _ _ E x Hx) as H. unfold is_bound_to in H.
      destruct (sim_leaf v !! x) as [[[q|] f]|]; try done. apply Z.eqb_eq in H as ->. by eexists.
  - intros v p x f. cbn. unfold sim_map. destruct (_ =? _)%nat; [done|]. destruct (invalid_ppn p) eqn:Ep; [done|].
    destruct (sim_view v x) as [[q g]|]; [destruct (_ || _); [|done]|]; (split; [done|split; [done|]]; cbn [fst snd]; intros y; by rewrite sim_view_insert).
  - intros v x. cbn. unfold sim_unmap. destruct (sim_view v x) as [[p g]|] eqn:E; [|done]. split_and!; try done. intros y. unfold sim_view. cbn.
    destruct (Z.eqb_spec y x) as [->|Hne]; [by rewrite lookup_delete_eq|by rewrite lookup_delete_ne].
  - intros v x. cbn. destruct (sim_view v x) as [[p g]|] eqn:E; [|done]. split; [done|]. by apply sim_view_valid in E as [? _].
  - intros v x p g E. apply sim_view_valid in E as [_ E]. by rewrite canonical_rm_sw, !E.
  - intros v a b. cbn. unfold sim_query. destruct (sim_leaf v !! VPN a) as [[q f]|]; [|done]. intros _. by exists q.
  - intros v a b f. cbn. split_and!; try done. intros x. rewrite lookup_set_pages, in_pages. by destruct (in_range a b x).
  - intros v p. cbn. split_and!; try done. intros H. by rewrite bool_decide_eq_true_2.
Defined.

Definition sim0 (maps : nat) : sim := mk_sim 16 ∅ ∅ ∅ false maps.
