(* ===== verification/MmUserSpec.v ===== *)
(** * Ranges of user pages, all or nothing

    What the operations of MmUser do to the three layers on every path:
    filling, emptying and re-flagging a range change every page or none, frames
    are given back exactly once, and no path keeps a range lock. *)
From stdpp Require Import list_numbers gmap sets.
From S2P Require Import Prelude Mm TaggedPtr KernelPages MmUser MmUserLaws MmUserSim.

Section Spec.
Context {V : Type} `{HW : UserLaws V} (root_vspace cpu : Z).
Implicit Types v : V.

(** ** Loops *)

Lemma map_pages_effect a ppn f left : forall v m, 0 <= m -> 0 <= ppn -> ppn + m + Z.of_nat left <= 2 ^ 35 ->
  (forall i, Z.of_nat i < m + Z.of_nat left -> VPN (page_va a i) = VPN a + Z.of_nat i) ->
  let '(ok, k, v') := map_pages v a ppn f m left in
  owned v' = owned v /\ (forall x, leaf v' x = leaf v x) /\ locked v' = locked v /\
  m <= Z.of_nat k <= m + Z.of_nat left /\ (ok = true -> Z.of_nat k = m + Z.of_nat left) /\
  forall x, pte v' x = if (VPN a + m <=? x) && (x <? VPN a + Z.of_nat k) then Some (ppn + (x - VPN a), reported f) else pte v x.
Proof.
  induction left as [|left IH]; intros v m Hm Hp Hb Hv; cbn [map_pages].
  - split_and!; try done; try lia. intros x. destruct (Z.leb_spec (VPN a + m) x), (Z.ltb_spec x (VPN a + Z.of_nat (Z.to_nat m))); try done; lia.
  - pose proof (Hv (Z.to_nat m) ltac:(lia)) as Hva. unfold page_va in Hva. rewrite Z2Nat.id in Hva by lia. rewrite i64_small by lia.
    pose proof (ledger_map v (ppn + m) (VPN (u64 (a + m * PAGE_SIZE))) 3 f) as Lo. pose proof (law_map v (ppn + m) (VPN (u64 (a + m * PAGE_SIZE))) f) as Lm.
    destruct (vs_map _ _ _ _ _) as [e v1]. cbn [snd] in Lo. destruct Lm as (L1 & L2 & L3). destruct (e =? REND_SUCCESS); cbn [negb].
    + specialize (IH v1 (m + 1) ltac:(lia) Hp ltac:(lia) ltac:(intros i Hi; apply Hv; lia)). destruct (map_pages v1 _ _ _ _ _) as [[ok k] v2].
      destruct IH as (I1 & I2 & I3 & I4 & I5 & I6). split_and!; [congruence|intros x; by rewrite I2|congruence|lia|lia|intros H; specialize (I5 H); lia|].
      intros x. rewrite I6, L3, Hva. destruct (Z.eqb_spec x (VPN a + m)) as [->|].
      * destruct (Z.leb_spec (VPN a + (m + 1)) (VPN a + m)); [lia|]. cbn [andb]. destruct (Z.leb_spec (VPN a + m) (VPN a + m)); [|lia].
        destruct (Z.ltb_spec (VPN a + m) (VPN a + Z.of_nat k)); [|lia]. cbn [andb]. do 2 f_equal. lia.
      * destruct (Z.leb_spec (VPN a + (m + 1)) x), (Z.leb_spec (VPN a + m) x); try done; lia.
    + split_and!; try done; try lia. intros x. rewrite L3. destruct (Z.leb_spec (VPN a + m) x), (Z.ltb_spec x (VPN a + Z.of_nat (Z.to_nat m))); try done; lia.
Qed.

Lemma unmap_rollback_effect a k : forall v, (forall i, (i < k)%nat -> VPN (page_va a i) = VPN a + Z.of_nat i) ->
  let v' := unmap_rollback v a k in
  owned v' = owned v /\ (forall x, leaf v' x = leaf v x) /\ locked v' = locked v /\
  forall x, pte v' x = if (VPN a <=? x) && (x <? VPN a + Z.of_nat k) then None else pte v x.
Proof.
  induction k as [|k IH]; intros v Hv; cbn [unmap_rollback].
  - split_and!; try done. intros x. destruct (Z.leb_spec (VPN a) x), (Z.ltb_spec x (VPN a + Z.of_nat 0)); try done; lia.
  - pose proof (Hv k ltac:(lia)) as Hva. unfold page_va in Hva. pose proof (ledger_unmap v (VPN (u64 (a + Z.of_nat k * PAGE_SIZE)))) as Lo.
    pose proof (law_unmap v (VPN (u64 (a + Z.of_nat k * PAGE_SIZE)))) as Lu. destruct (vs_unmap _ _) as [q v1]. cbn [snd] in *. destruct Lu as (L1 & L2 & L3).
    destruct (IH v1 ltac:(intros i Hi; apply Hv; lia)) as (I1 & I2 & I3 & I4). split_and!; [congruence|intros x; by rewrite I2|congruence|].
    assert (Hp : forall y, pte v1 y = if y =? VPN a + Z.of_nat k then None else pte v y).
    { intros y. rewrite Hva in L3. destruct (pte v (VPN a + Z.of_nat k)) as [[p g]|] eqn:E; [by apply L3|]. destruct L3 as [_ ->].
      destruct (Z.eqb_spec y (VPN a + Z.of_nat k)) as [->|]; [by rewrite E|done]. }
    intros x. rewrite I4, Hp. destruct (Z.leb_spec (VPN a) x); cbn [andb]; [|by destruct (Z.eqb_spec x (VPN a + Z.of_nat k)); [lia|]].
    destruct (Z.ltb_spec x (VPN a + Z.of_nat k)), (Z.ltb_spec x (VPN a + Z.of_nat (S k))), (Z.eqb_spec x (VPN a + Z.of_nat k)); try done; lia.
Qed.

Lemma zero_pages_effect ppn left : forall v i, 0 <= ppn -> ppn + Z.of_nat i + Z.of_nat left <= 2 ^ 35 -> frames ppn (Z.of_nat i + Z.of_nat left) ⊆ owned v ->
  exists v', zero_pages v ppn i left = Some v' /\ same v v'.
Proof.
  induction left as [|left IH]; intros v i Hp Hb Hf; cbn [zero_pages]; [exists v; split; [done|apply same_refl]|].
  rewrite i64_small by lia. pose proof (law_zero v (ppn + Z.of_nat i)) as Lz. destruct (vs_zero_page _ _) as [e v1]. destruct Lz as (L1 & L2 & L3 & L4 & L5).
  rewrite L5 by (apply Hf, elem_frames; lia). cbn [Z.eqb REND_SUCCESS negb].
  destruct (IH v1 (S i)) as (v' & -> & Hs); [done|lia|rewrite L1; etrans; [|exact Hf]; intros x; rewrite !elem_frames; lia|].
  exists v'. split; [done|]. eapply same_trans; [|exact Hs]. by split.
Qed.

(** ** Filling *)

(** what is not in the radix tree is not mapped *)
Definition coherent v : Prop := forall x, leaf v x = None -> pte v x = None.

(** all pages of a range bound and mapped to consecutive frames *)
Definition filled v (a b ppn f : Z) v' : Prop :=
  forall x, leaf v' x = (if in_range a b x then Some (Some (ppn + (x - VPN a)), f) else leaf v x) /\
            pte v' x = (if in_range a b x then Some (ppn + (x - VPN a), reported f) else pte v x).
(** no page changed, except that a reservation may be left over *)
Definition unfilled v (a b : Z) v' : Prop :=
  forall x, pte v' x = pte v x /\
    (leaf v' x = leaf v x \/ in_range a b x = true /\ leaf v x = None /\ exists g, leaf v' x = Some (None, g)).

Definition outcome v (a b n ppn f : Z) (keep : gset Z) (r : option (Z * V)) : Prop :=
  exists e v', r = Some (e, v') /\ locked v' = false /\
    (e = 0 /\ unfilled v a b v' /\ owned v' = keep \/ e = a /\ filled v a b ppn f v' /\ owned v' = owned v).

Lemma free_phys_effect v v1 a b n ppn f : 0 < n -> frames ppn n ⊆ owned v -> owned v1 = owned v -> locked v1 = false -> unfilled v a b v1 ->
  outcome v a b n ppn f (owned v ∖ frames ppn n) (Some (out_free_phys v1 ppn n)).
Proof.
  intros Hn Hf Ho Hl Hu. unfold out_free_phys. destruct (law_free v1 ppn n) as (F1 & F2 & F3).
  eexists _, _. split; [done|]. split; [by rewrite F3|]. left. split; [done|]. split.
  - intros x. rewrite F1, F2. apply Hu.
  - rewrite free_owned by (done || by rewrite Ho). by rewrite Ho.
Qed.

Lemma delete_radix_effect v v1 ins a b n ppn f : 0 < n -> frames ppn n ⊆ owned v -> owned v1 = owned v -> locked v1 = false -> unfilled v a b v1 ->
  (ins = true -> forall x, in_range a b x = true -> leaf v x = None) ->
  outcome v a b n ppn f (owned v ∖ frames ppn n) (Some (out_delete_radix v1 ins a b ppn n)).
Proof.
  intros Hn Hf Ho Hl Hu Hi. unfold out_delete_radix. destruct ins; [|by apply free_phys_effect].
  pose proof (law_lock v1 a b RADIX_RL_DELETE) as L. destruct (radix_lock_small _ _ _ _) as [e v2]. destruct L as (L1 & L2 & L3).
  destruct (e =? REND_SUCCESS); destruct L3 as [L3 L4].
  - pose proof (law_unlock v2 a b) as U. destruct (radix_unlock_small _ _ _) as [e2 v3]. destruct U as (U1 & U2 & U3 & U4 & _). cbn [snd].
    apply free_phys_effect; [done|done|congruence|done|]. intros x. rewrite U2, L2, U3, L4. change (RADIX_RL_DELETE =? RADIX_RL_DELETE) with true. cbn [andb].
    destruct (Hu x) as [H1 H2]. split; [done|]. destruct (in_range a b x) eqn:E; [left; by rewrite Hi|]. destruct H2 as [H2|(H2 & _)]; [by left|done].
  - apply free_phys_effect; [done|done|congruence|congruence|]. intros x. rewrite L2, L4. apply Hu.
Qed.

(** the end of a range of [n] pages *)
Definition end_of (a n : Z) : Z := default a (vmm_radix_tree_calculate_end_check a n).

Lemma install_effect v vs a n f ppn : 0 < n -> 0 <= ppn -> ppn + n <= 2 ^ 35 -> frames ppn n ⊆ owned v -> locked v = false -> coherent v ->
  ROUND_DOWN a PAGE_SIZE = a -> 0 <= a < 2 ^ 64 ->
  outcome v a (end_of a n) n ppn f (owned v ∖ frames ppn n) (install_range cpu v vs a n f ppn).
Proof.
  intros Hn Hp Hb Hf Hl Hco Hal Ha. unfold install_range, end_of.
  destruct (vmm_radix_tree_calculate_end_check a n) as [b|] eqn:Eb; cbn [default].
  2: { apply free_phys_effect; try done. intros x. by split; [|left]. }
  destruct (range_pages a n b ltac:(lia) Hal Ha Eb) as [Evb Hpages].
  assert (Hin : forall x, in_range a b x = (VPN a <=? x) && (x <? VPN a + n)) by (intros x; unfold in_range; by rewrite Evb).
  set (owner := tp_new _ _). pose proof (law_lock v a b RADIX_RL_INSERT) as L. destruct (radix_lock_small _ _ _ _) as [e1 v1]. destruct L as (L1 & L2 & L3).
  destruct (e1 =? REND_SUCCESS); cbn [negb]; destruct L3 as [L3 L4].
  2: { apply free_phys_effect; try done; [congruence|]. intros x. rewrite L2, L4. by split; [|left]. }
  change (RADIX_RL_INSERT =? RADIX_RL_DELETE) with false in L4. cbn [andb] in L4.
  pose proof (ledger_insert v1 owner a f b) as I0. pose proof (law_insert v1 owner a f b) as I. destruct (radix_insert_range _ _ _ _ _) as [e2 v2]. cbn [snd] in I0. destruct I as (I1 & I2 & I3 & I4).
  destruct (e2 =? REND_SUCCESS); cbn [negb].
  2: { pose proof (law_unlock v2 a b) as U. destruct (radix_unlock_small _ _ _) as [e3 v3]. destruct U as (U1 & U2 & U3 & U4 & _). cbn [snd].
       apply delete_radix_effect; try done; [congruence|]. intros x. rewrite U2, I1, L2, U3, I4, L4. by split; [|left]. }
  assert (Hnone : forall x, in_range a b x = true -> leaf v x = None) by (intros x Hx; destruct (I4 x Hx) as [H _]; by rewrite L4 in H).
  assert (Hres : forall x, in_range a b x = true -> exists g, leaf v2 x = Some (None, g)) by (intros x Hx; apply (I4 x Hx)).
  pose proof (map_pages_effect a ppn f (Z.to_nat n) v2 0 ltac:(lia) Hp ltac:(lia) ltac:(intros i Hi; apply Hpages; lia)) as M.
  destruct (map_pages _ _ _ _ _ _) as [[ok k] v3]. destruct M as (M1 & M2 & M3 & M4 & M5 & M6). rewrite Z.add_0_r in M6.
  (* the prefix that was mapped goes away again *)
  assert (Hundo : forall v4, owned v4 = owned v -> locked v4 = false -> (forall x, pte v4 x = pte v3 x) ->
    (forall x, in_range a b x = false -> leaf v4 x = leaf v x) -> (forall x, in_range a b x = true -> exists g, leaf v4 x = Some (None, g)) ->
    outcome v a b n ppn f (owned v ∖ frames ppn n) (Some (out_unmap_pte_prefix v4 k a b ppn n))).
  { intros v4 O4 K4 P4 N4 R4. unfold out_unmap_pte_prefix. destruct (unmap_rollback_effect a k v4 ltac:(intros i Hi; apply Hpages; lia)) as (B1 & B2 & B3 & B4).
    apply delete_radix_effect; try done; [congruence|congruence|]. intros x. rewrite B2, B4, P4, M6, I1, L2. split.
    - destruct ((VPN a <=? x) && (x <? VPN a + Z.of_nat k)) eqn:Ex; [|done]. symmetry. apply Hco, Hnone. rewrite Hin.
      apply andb_prop in Ex as [-> Ex]. apply Z.ltb_lt in Ex. apply Z.ltb_lt. lia.
    - destruct (in_range a b x) eqn:Ex; [right|left; by apply N4]. split; [done|]. split; [by apply Hnone|by apply R4]. }
  destruct ok; cbn [negb].
  2: { pose proof (law_unlock v3 a b) as U. destruct (radix_unlock_small _ _ _) as [e4 v4]. destruct U as (U1 & U2 & U3 & U4 & _). cbn [snd]. apply Hundo.
       - congruence.
       - done.
       - done.
       - intros x Hx. rewrite U3, M2, I3, L4 by done. done.
       - intros x Hx. rewrite U3, M2. by apply Hres. }
  specialize (M5 eq_refl). pose proof (ledger_bind v3 a ppn b f) as D0. pose proof (law_bind v3 a ppn b f) as D. destruct (radix_leaf_bind_range _ _ _ _ _) as [e4 v4]. cbn [snd] in D0. destruct D as (D1 & D2 & D3 & D4).
  pose proof (law_unlock v4 a b) as U. destruct (radix_unlock_small _ _ _) as [e5 v5]. destruct U as (U1 & U2 & U3 & U4 & _). cbn [snd].
  destruct (e4 =? REND_SUCCESS); cbn [negb].
  2: { apply Hundo.
       - congruence.
       - done.
       - intros x. by rewrite U2, D1.
       - intros x Hx. rewrite U3, D3, M2, I3, L4 by done. done.
       - intros x Hx. rewrite U3. apply D4; [|done]. intros y Hy. rewrite M2. by apply Hres. }
  destruct (zero_pages_effect ppn (Z.to_nat n) v5 0 Hp ltac:(lia)) as (v6 & -> & [Z1 Z2 Z3 Z4]).
  { replace (Z.of_nat 0 + Z.of_nat (Z.to_nat n)) with n by lia. replace (owned v5) with (owned v) by congruence. done. }
  cbn [mbind option_bind]. eexists _, _. split; [done|]. split; [congruence|]. right. split; [done|]. split; [|congruence].
  intros x. rewrite Z2, Z3, U2, U3, D1, M6, I1, L2. rewrite Hin. replace (Z.of_nat k) with n by lia. split.
  - destruct ((VPN a <=? x) && (x <? VPN a + n)) eqn:Ex; [apply D4; by rewrite Hin|]. rewrite D3, M2, I3, L4 by (by rewrite Hin). done.
  - done.
Qed.

Lemma unfilled_coherent v a b v' : coherent v -> unfilled v a b v' -> coherent v'.
Proof. intros Hc Hu x Hx. destruct (Hu x) as [-> [H|(_ & _ & g & H)]]; [apply Hc; congruence|congruence]. Qed.
Lemma filled_coherent v a b ppn f v' : coherent v -> filled v a b ppn f v' -> coherent v'.
Proof. intros Hc Hf x Hx. destruct (Hf x) as [H1 ->]. rewrite H1 in Hx. destruct (in_range a b x); [done|by apply Hc]. Qed.


(** ** Emptying *)

Lemma unfill_effect a ppn left : forall v i e0, 0 <= ppn -> ppn + Z.of_nat i + Z.of_nat left <= 2 ^ 35 ->
  (forall j, (j < i + left)%nat -> VPN (page_va a j) = VPN a + Z.of_nat j) ->
  (forall x, VPN a + Z.of_nat i <= x < VPN a + Z.of_nat (i + left) -> exists g, pte v x = Some (ppn + (x - VPN a), g)) ->
  frames (ppn + Z.of_nat i) (Z.of_nat left) ⊆ owned v ->
  let '(e, v') := unfill_pages v a i left e0 in
  e = (if (left =? 0)%nat then e0 else REND_SUCCESS) /\ owned v' = owned v ∖ frames (ppn + Z.of_nat i) (Z.of_nat left) /\
  (forall x, leaf v' x = leaf v x) /\ locked v' = locked v /\
  forall x, pte v' x = if (VPN a + Z.of_nat i <=? x) && (x <? VPN a + Z.of_nat (i + left)) then None else pte v x.
Proof.
  induction left as [|left IH]; intros v i e0 Hp Hb Hv Hm Hf; cbn [unfill_pages].
  - cbn [Nat.eqb]. split_and!; try done.
    + apply set_eq. intros x. rewrite elem_of_difference, elem_frames. split; [intros Hx; split; [done|lia]|by intros [? _]].
    + intros x. rewrite Nat.add_0_r. destruct (Z.leb_spec (VPN a + Z.of_nat i) x), (Z.ltb_spec x (VPN a + Z.of_nat i)); try done; lia.
  - pose proof (ledger_unmap v (VPN (page_va a i))) as Lo. pose proof (law_unmap v (VPN (page_va a i))) as Lu. destruct (vs_unmap _ _) as [q v1]. cbn [snd] in Lo.
    rewrite (Hv i) in Lu by lia. destruct Lu as (L1 & L2 & L3). destruct (Hm (VPN a + Z.of_nat i) ltac:(lia)) as [g Eg]. rewrite Eg in L3. destruct L3 as [-> L3].
    replace (ppn + (VPN a + Z.of_nat i - VPN a)) with (ppn + Z.of_nat i) by lia. unfold invalid_ppn. rewrite i64_small by lia. destruct (Z.ltb_spec (ppn + Z.of_nat i) 0); [lia|].
    assert (Hone : frames (ppn + Z.of_nat i) 1 ⊆ owned v1) by (rewrite Lo; intros x Hx; apply Hf; rewrite elem_frames in *; lia).
    destruct (ledger_free v1 (ppn + Z.of_nat i) 1 ltac:(lia) Hone) as [F0 F1]. destruct (law_free v1 (ppn + Z.of_nat i) 1) as (F2 & F3 & F4).
    destruct (vs_pmm_free v1 (ppn + Z.of_nat i) 1) as [e2 v2]. cbn [fst snd] in *. subst e2.
    specialize (IH v2 (S i) REND_SUCCESS Hp ltac:(lia) ltac:(intros j Hj; apply Hv; lia)). replace (ppn + Z.of_nat (S i)) with (ppn + Z.of_nat i + 1) in IH by lia.
    destruct (unfill_pages v2 a (S i) left REND_SUCCESS) as [e v'].
    destruct IH as (I1 & I2 & I3 & I4 & I5).
    + intros x Hx. rewrite F3, L3. destruct (Z.eqb_spec x (VPN a + Z.of_nat i)); [lia|]. apply Hm. lia.
    + rewrite F1, Lo. intros x Hx. rewrite elem_frames in Hx. apply elem_of_difference. split; [apply Hf; rewrite elem_frames; lia|rewrite elem_frames; lia].
    + cbn [Nat.eqb]. split_and!; [by destruct (left =? 0)%nat| |intros x; by rewrite I3, F2, L1|congruence|].
      * rewrite I2, F1, Lo. apply set_eq. intros x. rewrite !elem_of_difference, !elem_frames. intuition lia.
      * intros x. rewrite I5, F3, L3. replace (i + S left)%nat with (S i + left)%nat by lia.
        destruct (Z.leb_spec (VPN a + Z.of_nat (S i)) x), (Z.leb_spec (VPN a + Z.of_nat i) x), (Z.ltb_spec x (VPN a + Z.of_nat (S i + left))), (Z.eqb_spec x (VPN a + Z.of_nat i)); cbn [andb]; try done; lia.
Qed.

(** bound pages are mapped, to the frame they are bound to *)
Definition bound_mapped v : Prop := forall x p f, leaf v x = Some (Some p, f) -> exists g, pte v x = Some (p, g).


(** ** New flags *)

Lemma uniform_rest a left : forall v i r p, (0 < i)%nat -> (forall j, (j < i + left)%nat -> VPN (page_va a j) = VPN a + Z.of_nat j) ->
  match uniform_flags v a i left r p with
  | inl (r', p') => r' = r /\ p' = p /\ forall x, VPN a + Z.of_nat i <= x < VPN a + Z.of_nat (i + left) ->
      (exists q, leaf v x = Some (q, r)) /\ exists q g, pte v x = Some (q, g) /\ mm_user_canonical_pte_flags g = mm_user_canonical_pte_flags p
  | inr e => e <> REND_SUCCESS
  end.
Proof.
  induction left as [|left IH]; intros v i r p Hi Hv; cbn [uniform_flags]; [split_and!; [done..|intros x Hx; lia]|].
  destruct (vmm_radix_tree_calculate_end_check (page_va a i) 1) as [pe|]; [|done].
  pose proof (law_query v (page_va a i) pe) as Q. destruct (radix_query_flags _ _ _) as [e rf]. destruct (Z.eqb_spec e REND_SUCCESS) as [->|]; cbn [negb]; [|done].
  destruct (Q eq_refl) as [q Eq]. rewrite Hv in Eq by lia. destruct (has_flag rf PAGE_ENTRY_VALID); cbn [negb]; [|done].
  rewrite (Hv i) by lia. pose proof (law_have v (VPN a + Z.of_nat i)) as Hh. destruct (pte v (VPN a + Z.of_nat i)) as [[mp g]|] eqn:Ep.
  - destruct Hh as [-> Hval]. rewrite Hval. change (3 =? 3) with true. cbn [negb]. destruct (Nat.eqb_spec i 0); [lia|].
    destruct (Z.eqb_spec rf r) as [->|]; cbn [negb orb]; [|done]. destruct (Z.eqb_spec (mm_user_canonical_pte_flags g) (mm_user_canonical_pte_flags p)) as [Eg|]; cbn [negb]; [|done].
    specialize (IH v (S i) r p ltac:(lia) ltac:(intros j Hj; apply Hv; lia)). destruct (uniform_flags v a (S i) left r p) as [[r' p']|e']; [|done].
    destruct IH as (-> & -> & IH). split_and!; [done..|]. intros x Hx. destruct (Z.eq_dec x (VPN a + Z.of_nat i)) as [->|]; [|apply IH; lia].
    split; [by exists q|by exists mp, g].
  - destruct (vs_have_mapped _ _) as [[mp g] l]. cbn [fst] in Hh. unfold invalid_ppn. rewrite i64_small by lia. destruct (Z.ltb_spec mp 0); [|lia].
    rewrite i32_small by lia. unfold REND_SUCCESS. lia.
Qed.
Lemma uniform_effect a n v : (0 < n)%nat -> (forall j, (j < n)%nat -> VPN (page_va a j) = VPN a + Z.of_nat j) ->
  match uniform_flags v a 0 n 0 0 with
  | inl (r, p) => forall x, VPN a <= x < VPN a + Z.of_nat n ->
      (exists q, leaf v x = Some (q, r)) /\ exists q g, pte v x = Some (q, g) /\ mm_user_canonical_pte_flags g = mm_user_canonical_pte_flags p
  | inr e => e <> REND_SUCCESS
  end.
Proof.
  destruct n as [|left]; [lia|]. intros _ Hv. cbn [uniform_flags].
  destruct (vmm_radix_tree_calculate_end_check (page_va a 0) 1) as [pe|]; [|done].
  pose proof (law_query v (page_va a 0) pe) as Q. destruct (radix_query_flags _ _ _) as [e rf]. destruct (Z.eqb_spec e REND_SUCCESS) as [->|]; cbn [negb]; [|done].
  destruct (Q eq_refl) as [q Eq]. rewrite Hv in Eq by lia. destruct (has_flag rf PAGE_ENTRY_VALID); cbn [negb]; [|done].
  rewrite (Hv 0%nat) by lia. pose proof (law_have v (VPN a + Z.of_nat 0)) as Hh. destruct (pte v (VPN a + Z.of_nat 0)) as [[mp g]|] eqn:Ep.
  - destruct Hh as [-> Hval]. rewrite Hval. change (3 =? 3) with true. cbn [negb Nat.eqb].
    pose proof (uniform_rest a left v 1 rf g ltac:(lia) ltac:(intros j Hj; apply Hv; lia)) as R. destruct (uniform_flags v a 1 left rf g) as [[r p]|e']; [|done].
    destruct R as (-> & -> & R). intros x Hx. destruct (Z.eq_dec x (VPN a + Z.of_nat 0)) as [->|]; [|apply R; lia].
    split; [by exists q|by exists mp, g].
  - destruct (vs_have_mapped _ _) as [[mp g] l]. cbn [fst] in Hh. unfold invalid_ppn. rewrite i64_small by lia. destruct (Z.ltb_spec mp 0); [|lia].
    rewrite i32_small by lia. unfold REND_SUCCESS. lia.
Qed.

(** an entry with other flags, to the same frame *)
Definition reflag (d : Z) (l : option (Z * Z)) : option (Z * Z) := option_map (fun l => (fst l, reported d)) l.

Lemma remap_effect v x p g d : pte v x = Some (p, g) ->
  let '(e, v') := vs_map v p x 3 d in
  owned v' = owned v /\ (forall y, leaf v' y = leaf v y) /\ locked v' = locked v /\
  forall y, pte v' y = if (e =? REND_SUCCESS) && (y =? x) then reflag d (pte v y) else pte v y.
Proof.
  intros Ep. pose proof (ledger_map v p x 3 d) as Lo. pose proof (law_map v p x d) as L. destruct (vs_map v p x 3 d) as [e v']. cbn [snd] in Lo. destruct L as (L1 & L2 & L3).
  split_and!; try done. intros y. destruct (e =? REND_SUCCESS); cbn [andb]; rewrite L3; [|done]. destruct (Z.eqb_spec y x) as [->|]; [by rewrite Ep|done].
Qed.

Lemma update_effect a d left : forall v i, (forall j, (j < i + left)%nat -> VPN (page_va a j) = VPN a + Z.of_nat j) ->
  (forall x, VPN a + Z.of_nat i <= x < VPN a + Z.of_nat (i + left) -> is_Some (pte v x)) ->
  let '(e, k, v') := update_ptes v a d i left in
  owned v' = owned v /\ (forall x, leaf v' x = leaf v x) /\ locked v' = locked v /\ (i <= k <= i + left)%nat /\ (e = REND_SUCCESS -> k = (i + left)%nat) /\
  forall x, pte v' x = if (VPN a + Z.of_nat i <=? x) && (x <? VPN a + Z.of_nat k) then reflag d (pte v x) else pte v x.
Proof.
  induction left as [|left IH]; intros v i Hv Hm; cbn [update_ptes].
  - split_and!; try done; try lia. intros x. destruct (Z.leb_spec (VPN a + Z.of_nat i) x), (Z.ltb_spec x (VPN a + Z.of_nat i)); try done; lia.
  - rewrite (Hv i) by lia. destruct (Hm (VPN a + Z.of_nat i) ltac:(lia)) as [[p g] Ep]. pose proof (law_have v (VPN a + Z.of_nat i)) as Hh. rewrite Ep in Hh. destruct Hh as [-> Hval].
    rewrite Hval. change (3 =? 3) with true. cbn [negb]. pose proof (remap_effect v _ p g d Ep) as R. destruct (vs_map _ _ _ _ _) as [e v1]. destruct R as (R1 & R2 & R3 & R4).
    destruct (Z.eqb_spec e REND_SUCCESS) as [->|He]; cbn [negb andb] in *.
    + specialize (IH v1 (S i) ltac:(intros j Hj; apply Hv; lia)). destruct (update_ptes v1 a d (S i) left) as [[e k] v']. destruct IH as (I1 & I2 & I3 & I4 & I5 & I6).
      { intros x Hx. rewrite R4. destruct (Z.eqb_spec x (VPN a + Z.of_nat i)); [lia|]. apply Hm. lia. }
      split_and!; [congruence|intros x; by rewrite I2|congruence|lia|lia|intros E; rewrite I5 by done; lia|]. intros x. rewrite I6, R4.
      destruct (Z.leb_spec (VPN a + Z.of_nat (S i)) x), (Z.leb_spec (VPN a + Z.of_nat i) x), (Z.ltb_spec x (VPN a + Z.of_nat k)), (Z.eqb_spec x (VPN a + Z.of_nat i)); cbn [andb]; try done; lia.
    + split_and!; try done; try lia. intros x. rewrite R4. destruct (Z.leb_spec (VPN a + Z.of_nat i) x), (Z.ltb_spec x (VPN a + Z.of_nat i)); try done; lia.
Qed.

(** the page tables will not give page [x] the flags [m] *)
Definition refuses v (x m : Z) : Prop := exists q g, pte v x = Some (q, g) /\ fst (vs_map v q x 3 m) <> REND_SUCCESS.

Lemma restore_effect a m left : forall v i, (forall j, (j < i + left)%nat -> VPN (page_va a j) = VPN a + Z.of_nat j) ->
  let v' := restore_ptes v a m i left in
  owned v' = owned v /\ (forall x, leaf v' x = leaf v x) /\ locked v' = locked v /\
  forall x, if (VPN a + Z.of_nat i <=? x) && (x <? VPN a + Z.of_nat (i + left))
            then pte v' x = reflag m (pte v x) \/ pte v' x = pte v x /\ exists w, pte w x = pte v x /\ refuses w x m else pte v' x = pte v x.
Proof.
  induction left as [|left IH]; intros v i Hv; cbn [restore_ptes].
  { split_and!; try done. intros x. destruct (Z.leb_spec (VPN a + Z.of_nat i) x), (Z.ltb_spec x (VPN a + Z.of_nat (i + 0))); try done; lia. }
  rewrite (Hv i) by lia. pose proof (law_have v (VPN a + Z.of_nat i)) as Hh. destruct (pte v (VPN a + Z.of_nat i)) as [[p g]|] eqn:Ep.
  - destruct Hh as [-> Hval]. rewrite Hval. change (3 =? 3) with true. cbn [negb orb]. pose proof (remap_effect v _ p g m Ep) as R.
    destruct (vs_map _ _ _ _ _) as [e v1] eqn:Em. cbn [snd].
    destruct R as (R1 & R2 & R3 & R4). destruct (IH v1 (S i) ltac:(intros j Hj; apply Hv; lia)) as (I1 & I2 & I3 & I4). split_and!; [congruence|intros x; by rewrite I2|congruence|].
    intros x. specialize (R4 x). specialize (I4 x). replace (S i + left)%nat with (i + S left)%nat in I4 by lia.
    destruct (Z.eq_dec x (VPN a + Z.of_nat i)) as [->|Hx]; [rewrite Z.eqb_refl, andb_true_r in R4|rewrite (proj2 (Z.eqb_neq _ _) Hx), andb_false_r in R4].
    + destruct (Z.leb_spec (VPN a + Z.of_nat (S i)) (VPN a + Z.of_nat i)); [lia|]. cbn [andb] in I4. rewrite I4, R4.
      destruct (Z.leb_spec (VPN a + Z.of_nat i) (VPN a + Z.of_nat i)); [|lia]. destruct (Z.ltb_spec (VPN a + Z.of_nat i) (VPN a + Z.of_nat (i + S left))); [|lia]. cbn [andb].
      destruct (Z.eqb_spec e REND_SUCCESS) as [|He]; [by left|right]. split; [done|]. exists v. split; [done|]. exists p, g. split; [done|]. by rewrite Em.
    + rewrite R4 in I4.
      destruct (Z.leb_spec (VPN a + Z.of_nat (S i)) x), (Z.leb_spec (VPN a + Z.of_nat i) x); try lia; done.
  - destruct (vs_have_mapped _ _) as [[mp g] l]. cbn [fst] in Hh. unfold invalid_ppn. rewrite i64_small by lia. destruct (Z.ltb_spec mp 0); [|lia]. cbn [orb].
    destruct (IH v (S i) ltac:(intros j Hj; apply Hv; lia)) as (I1 & I2 & I3 & I4). split_and!; try done. intros x. specialize (I4 x). replace (S i + left)%nat with (i + S left)%nat in I4 by lia.
    destruct (Z.eq_dec x (VPN a + Z.of_nat i)) as [->|Hx].
    + destruct (Z.leb_spec (VPN a + Z.of_nat (S i)) (VPN a + Z.of_nat i)); [lia|]. cbn [andb] in I4. rewrite I4, Ep. destruct (_ && _); [by left|done].
    + destruct (Z.leb_spec (VPN a + Z.of_nat (S i)) x), (Z.leb_spec (VPN a + Z.of_nat i) x); try lia; done.
Qed.

Lemma round_down_page a : 0 <= a < 2 ^ 64 -> ROUND_DOWN (ROUND_DOWN a PAGE_SIZE) PAGE_SIZE = ROUND_DOWN a PAGE_SIZE /\ 0 <= ROUND_DOWN a PAGE_SIZE < 2 ^ 64.
Proof.
  intros Ha. change PAGE_SIZE with (2 ^ 12). assert (E : ROUND_DOWN a (2 ^ 12) = a - a mod 2 ^ 12) by (apply ROUND_DOWN_spec; lia).
  assert (Hr : 0 <= ROUND_DOWN a (2 ^ 12) < 2 ^ 64) by (rewrite E; change (2 ^ 12) with 4096; dlia). split; [|done].
  rewrite (ROUND_DOWN_spec 12 (ROUND_DOWN a (2 ^ 12))) by lia. rewrite E. change (2 ^ 12) with 4096. dlia.
Qed.

(** the flags of a range are [r] in the radix tree and [p] in the page tables *)
Definition uniform v (a b r p : Z) : Prop := forall x, in_range a b x = true ->
  (exists q, leaf v x = Some (q, r)) /\ exists q g, pte v x = Some (q, g) /\ mm_user_canonical_pte_flags g = mm_user_canonical_pte_flags p.
(** new flags on every page of a range *)
Definition reflagged v (a b mode sm cm r p : Z) v' : Prop := forall x,
  pte v' x = (if in_range a b x then reflag (mm_user_updated_entry_flags mode true p sm cm) (pte v x) else pte v x) /\
  leaf v' x = (if in_range a b x && negb (mode =? MM_USER_RANGE_FLAGS_DELTA_PTE_ONLY)
               then option_map (fun l => (fst l, mm_user_updated_entry_flags mode false r sm cm)) (leaf v x) else leaf v x).
(** the old flags [p], except on a page the page tables refuse to give them back *)
Definition restored v (a b : Z) v' : Prop := (forall x, leaf v' x = leaf v x) /\
  forall x, pte v' x = pte v x \/ in_range a b x = true /\
    exists p d w, pte v' x = reflag d (pte v x) /\ pte w x = pte v' x /\ refuses w x (mm_user_canonical_pte_flags p).

Lemma rollback_flags_effect v v2 v3 a p d k n : (k <= n)%nat -> (forall j, (j < n)%nat -> VPN (page_va a j) = VPN a + Z.of_nat j) ->
  (forall x, VPN a <= x < VPN a + Z.of_nat n -> exists q g, pte v x = Some (q, g) /\ mm_user_canonical_pte_flags g = mm_user_canonical_pte_flags p) ->
  (forall x, pte v2 x = if (VPN a + Z.of_nat 0 <=? x) && (x <? VPN a + Z.of_nat k) then reflag d (pte v x) else pte v x) ->
  v3 = mm_user_restore_range_pte_prefix v2 a k p ->
  owned v3 = owned v2 /\ (forall x, leaf v3 x = leaf v2 x) /\ locked v3 = locked v2 /\
  forall x, pte v3 x = pte v x \/ VPN a <= x < VPN a + Z.of_nat n /\
    exists d w, pte v3 x = reflag d (pte v x) /\ pte w x = pte v3 x /\ refuses w x (mm_user_canonical_pte_flags p).
Proof.
  intros Hk Hv Hu Hp ->. unfold mm_user_restore_range_pte_prefix. destruct (restore_effect a (mm_user_canonical_pte_flags p) k v2 0 ltac:(intros j Hj; apply Hv; lia)) as (R1 & R2 & R3 & R4).
  split_and!; try done. intros x. specialize (Hp x). specialize (R4 x). cbn [Nat.add] in R4.
  destruct ((VPN a + Z.of_nat 0 <=? x) && (x <? VPN a + Z.of_nat k)) eqn:Ex; [|left; by rewrite R4].
  apply andb_prop in Ex as [X1 X2]. apply Z.leb_le in X1. apply Z.ltb_lt in X2. destruct R4 as [->|(-> & w & Hw & Hr)]; rewrite Hp.
  - left. destruct (Hu x ltac:(lia)) as (q & g & E & Eg). rewrite E. cbn [reflag option_map fst]. rewrite <- Eg. by rewrite (law_reported v x q g E).
  - right. split; [lia|]. exists d, w. split_and!; [done|congruence|done].
Qed.

(** what setting the flags of a range promises *)
Definition flags_outcome v (a b mode sm cm e : Z) v' : Prop :=
  locked v' = false /\ owned v' = owned v /\
  if e =? REND_SUCCESS then exists r p, uniform v a b r p /\ reflagged v a b mode sm cm r p v' else restored v a b v'.

Lemma flags_unlock_effect v w a b mode sm cm r p d : owned w = owned v -> locked w = true -> d = mm_user_updated_entry_flags mode true p sm cm ->
  uniform v a b r p -> (forall x, pte w x = if in_range a b x then reflag d (pte v x) else pte v x) ->
  (forall x, leaf w x = if in_range a b x && negb (mode =? MM_USER_RANGE_FLAGS_DELTA_PTE_ONLY)
     then option_map (fun l => (fst l, mm_user_updated_entry_flags mode false r sm cm)) (leaf v x) else leaf v x) ->
  let '(e, v') := radix_unlock_small w a b in flags_outcome v a b mode sm cm e v'.
Proof.
  intros O1 K1 -> Hu P1 F1. pose proof (law_unlock w a b) as K. destruct (radix_unlock_small _ _ _) as [e3 v3]. destruct K as (K2 & K3 & K4 & K5 & K6).
  rewrite K6 by done. split; [done|]. split; [congruence|]. change (REND_SUCCESS =? REND_SUCCESS) with true. exists r, p. split; [done|]. intros x. rewrite K3, K4, P1, F1. by split.
Qed.
Lemma flags_error_effect v w a b mode sm cm e : e <> REND_SUCCESS -> owned w = owned v -> restored v a b w ->
  let '(e', v') := unlock_with w e a b in flags_outcome v a b mode sm cm e' v'.
Proof.
  intros He O1 [F1 P1]. unfold unlock_with. pose proof (law_unlock w a b) as K. destruct (radix_unlock_small _ _ _) as [e3 v3]. destruct K as (K2 & K3 & K4 & K5 & _). cbn [snd].
  split; [done|]. split; [congruence|]. destruct (Z.eqb_spec e REND_SUCCESS); [done|]. split; intros x; [by rewrite K4|rewrite K3; apply P1].
Qed.

Lemma set_flags_locked_effect v v1 a b n mode sm cm : owned v1 = owned v -> (forall x, leaf v1 x = leaf v x) -> (forall x, pte v1 x = pte v x) -> locked v1 = true ->
  (0 < n)%nat -> (forall x, in_range a b x = (VPN a <=? x) && (x <? VPN a + Z.of_nat n)) ->
  (forall j, (j < n)%nat -> VPN (page_va a j) = VPN a + Z.of_nat j) ->
  let '(e, v') := set_flags_locked v1 a b n mode sm cm in flags_outcome v a b mode sm cm e v'.
Proof.
  intros L1 L4 L2 L3 Hn Hin Hv. unfold set_flags_locked. pose proof (uniform_effect a n v1 Hn Hv) as U. destruct (uniform_flags v1 a 0 n 0 0) as [[r p]|ee].
  2: { apply flags_error_effect; try done. split; [done|]. intros x. left. apply L2. }
  assert (Hin' : forall x, in_range a b x = true <-> VPN a <= x < VPN a + Z.of_nat n) by (intros x; rewrite Hin, andb_true_iff, Z.leb_le, Z.ltb_lt; done).
  assert (Huni : uniform v a b r p) by (intros x Hx; rewrite <- L4, <- L2; by apply U, Hin').
  set (d := mm_user_updated_entry_flags mode true p sm cm).
  pose proof (update_effect a d n v1 0 Hv) as M. destruct (update_ptes v1 a d 0 n) as [[e2 k] v2].
  destruct M as (M1 & M2 & M3 & M4 & M5 & M6). { intros x Hx. destruct (U x ltac:(lia)) as (_ & q & g & -> & _). by eexists. }
  (* every failure from here on restores the entries *)
  assert (Hback : forall e w, e <> REND_SUCCESS -> owned w = owned v -> (forall x, leaf w x = leaf v x) -> (forall x, pte w x = pte v2 x) ->
    let '(e', v') := unlock_with (mm_user_restore_range_pte_prefix w a k p) e a b in flags_outcome v a b mode sm cm e' v').
  { intros e w He O1 F1 P1. destruct (rollback_flags_effect v w (mm_user_restore_range_pte_prefix w a k p) a p d k n) as (R1 & R2 & R3 & R4); [lia|done| | |done|].
    - intros x Hx. rewrite <- L2. by apply U.
    - intros x. by rewrite P1, M6, L2.
    - apply flags_error_effect; [done|congruence|]. split; intros x; [by rewrite R2|]. destruct (R4 x) as [->|(Hx & d' & w' & Href)]; [by left|right].
      split; [by apply Hin'|by exists p, d', w']. }
  destruct (Z.eqb_spec e2 REND_SUCCESS) as [->|He2]; cbn [negb].
  2: { apply Hback; try done; [congruence|intros x; by rewrite M2]. }
  specialize (M5 eq_refl). subst k.
  assert (Hpte : forall x, pte v2 x = if in_range a b x then reflag d (pte v x) else pte v x).
  { intros x. rewrite M6, Hin, L2. replace (VPN a + Z.of_nat 0) with (VPN a) by lia. done. }
  destruct (mode =? MM_USER_RANGE_FLAGS_DELTA_PTE_ONLY) eqn:Em; cbn [negb].
  - change (REND_SUCCESS =? REND_SUCCESS) with true. cbn [negb]. apply (flags_unlock_effect _ _ _ _ _ _ _ r p d); try done; [congruence..|]. intros x. by rewrite M2, L4, Em, andb_false_r.
  - pose proof (law_change_flag v2 a b (mm_user_updated_entry_flags mode false r sm cm)) as C. destruct (radix_change_range_flag _ _ _ _) as [e3 v3].
    destruct C as (C1 & C2 & C3 & C4). destruct (Z.eqb_spec e3 REND_SUCCESS) as [->|He3]; cbn [negb].
    + apply (flags_unlock_effect _ _ _ _ _ _ _ r p d); try done; [congruence..|intros x; by rewrite C2|]. intros x. by rewrite C4, M2, L4, Em, andb_true_r.
    + apply Hback; try done; [congruence|intros x; by rewrite C4, M2].
Qed.

(** C11 (error): new flags for a range of pages that share their flags.  On success
    each page of the range, and no other, carries the new flags in the page
    tables and, unless only those were asked for, in the radix tree, still bound
    to its frame.  On failure the radix tree is as before and every entry already
    rewritten has its old flags back, unless the page tables refuse them.  No
    frame changes hands and no path keeps the range lock. *)
Theorem set_range_flags_spec v vs a len mode sm cm : 0 <= a < 2 ^ 64 -> 0 <= len -> locked v = false ->
  let '(e, v') := mm_user_utils_set_range_flags root_vspace v vs a len mode sm cm in
  let start := ROUND_DOWN a PAGE_SIZE in
  flags_outcome v start (end_of start (ROUND_UP len PAGE_SIZE / PAGE_SIZE)) mode sm cm e v'.
Proof.
  intros Ha Hlen Hl. unfold mm_user_utils_set_range_flags. destruct (round_down_page a Ha) as [Hal Hr]. revert Hal Hr. generalize (ROUND_DOWN a PAGE_SIZE). intros s Hal Hr.
  assert (Hno : forall e b, e <> REND_SUCCESS -> flags_outcome v s b mode sm cm e v).
  { intros e b He. split; [done|]. split; [done|]. destruct (Z.eqb_spec e REND_SUCCESS); [done|]. split; [done|intros x; by left]. }
  destruct (_ || _) eqn:Eg; [by apply Hno|]. destruct (2 ^ 40 <? len); [by apply Hno|]. set (n := ROUND_UP len PAGE_SIZE / PAGE_SIZE). unfold end_of.
  assert (Hn : 0 <= n).
  { apply Z.div_pos; [|done]. unfold ROUND_UP. apply Z.land_nonneg. left. unfold u64, wrap. apply Z.mod_pos_bound. done. }
  destruct (vmm_radix_tree_calculate_end_check s n) as [b|] eqn:Eb; cbn [default id]; [|by apply Hno].
  assert (Hn0 : n <> 0) by (intros E; rewrite E in Eb; discriminate Eb). destruct (range_pages s n b Hn Hal Hr Eb) as [Evb Hpages]. clearbody n.
  pose proof (law_lock v s b RADIX_RL_QUERY_OR_CHANGE) as L. destruct (radix_lock_small _ _ _ _) as [e1 v1]. destruct L as (L1 & L2 & L3).
  destruct (e1 =? REND_SUCCESS) eqn:E1; cbn [negb]; destruct L3 as [L3 L4].
  - change (RADIX_RL_QUERY_OR_CHANGE =? RADIX_RL_DELETE) with false in L4. cbn [andb] in L4.
    apply set_flags_locked_effect; try done; [lia| |intros j Hj; apply Hpages; lia]. intros x. unfold in_range. rewrite Evb. by rewrite Z2Nat.id by lia.
  - split; [congruence|]. split; [congruence|]. rewrite E1. split; [done|]. intros x. left. apply L2.
Qed.
End Spec.

(** ** The claims apply *)


Definition sim_filled : sim := mk_sim 18 (frames 16 2) {[1024 := (Some 16, 2); 1025 := (Some 17, 2)]} {[1024 := (16, 2); 1025 := (17, 2)]} false 5.


(** both pages become readable; the range is rounded to whole pages *)
Lemma set_range_flags_witness :
  fst (mm_user_utils_set_range_flags 1 sim_filled 9 0x400123 0x1800 MM_USER_RANGE_FLAGS_DELTA PAGE_ENTRY_READ 0) = REND_SUCCESS /\
  sim_view (snd (mm_user_utils_set_range_flags 1 sim_filled 9 0x400123 0x1800 MM_USER_RANGE_FLAGS_DELTA PAGE_ENTRY_READ 0)) 0x401 = Some (17, 10) /\
  let '(e, v') := mm_user_utils_set_range_flags 1 sim_filled 9 0x400123 0x1800 MM_USER_RANGE_FLAGS_DELTA PAGE_ENTRY_READ 0 in
  let start := ROUND_DOWN 0x400123 PAGE_SIZE in
  flags_outcome sim_filled start (end_of start (ROUND_UP 0x1800 PAGE_SIZE / PAGE_SIZE)) MM_USER_RANGE_FLAGS_DELTA PAGE_ENTRY_READ 0 e v'.
Proof.
  split; [vm_compute; reflexivity|]. split; [vm_compute; reflexivity|].
  apply (set_range_flags_spec 1 sim_filled 9 0x400123 0x1800); [lia|lia|reflexivity].
Defined.
