(* ===== verification/PageSlice.v ===== *)
(** * Page slices

    [kernel/mm/page_slice.c] and [include/rendezvos/mm/page_slice.h]: a radix
    tree that maps page offsets of a buffer to kernel pages.  [words] is the
    memory of the index pages, [leaves] that of the leaf pages; a link is a
    tagged pointer with a height and a count of used slots ([ps_entry_*]).  The
    heap is the class [Allocator]; what it hands out is zeroed ([kmalloc.c]).
    [0] is the NULL pointer.  The slice's lock is held by the caller throughout. *)
From S2P Require Import Prelude Mm TaggedPtr Allocator.

Definition PAGE_SLICE_FLAG_VALID : Z := Z.shiftl 1 0.
Definition PAGE_SLICE_FLAG_PIN : Z := Z.shiftl 1 1.
Definition PAGE_SLICE_ENTRY_SIZE : Z := 32.
Definition PAGE_SLICE_INDEX_ENTRY_SIZE : Z := 8.
Definition PAGE_SLICE_LEAF_CAPACITY : Z := PAGE_SIZE / PAGE_SLICE_ENTRY_SIZE.
Definition PAGE_SLICE_INDEX_CAPACITY : Z := PAGE_SIZE / PAGE_SLICE_INDEX_ENTRY_SIZE.
Definition PAGE_SLICE_LEAF_SHIFT : Z := 7.
Definition PAGE_SLICE_INDEX_SHIFT : Z := 9.
Definition PAGE_SLICE_MAX_INDEX_HEIGHT : Z := 3.
Definition PAGE_SLICE_MAX_PGOFF_SHIFT : Z := PAGE_SLICE_LEAF_SHIFT + PAGE_SLICE_MAX_INDEX_HEIGHT * PAGE_SLICE_INDEX_SHIFT.
Definition PAGE_SLICE_MAX_BYTE_SIZE : Z := Z.shiftl 1 PAGE_SLICE_MAX_PGOFF_SHIFT * PAGE_SIZE.
Definition PAGE_SLICE_SIZE_TO_PAGE_COUNT (size : Z) : Z := if size =? 0 then 0 else u64 (u64 (size + PAGE_SIZE) - 1) / PAGE_SIZE.
Definition PAGE_SLICE_LEAF_IDX (pgoff : Z) : Z := Z.land pgoff (PAGE_SLICE_LEAF_CAPACITY - 1).
Definition PAGE_SLICE_INDEX_ENTRY (pgoff level : Z) : Z :=
  Z.land (Z.shiftr pgoff (PAGE_SLICE_LEAF_SHIFT + PAGE_SLICE_INDEX_SHIFT * level)) (PAGE_SLICE_INDEX_CAPACITY - 1).

(** ** Links *)

Definition PS_ENTRY_LIVE_BITS : Z := 13.
Definition PS_ENTRY_HEIGHT_BITS : Z := 3.
Definition PS_ENTRY_LIVE_MASK : Z := Z.shiftl 1 PS_ENTRY_LIVE_BITS - 1.
Definition PS_ENTRY_HEIGHT_MASK : Z := Z.shiftl 1 PS_ENTRY_HEIGHT_BITS - 1.
Definition PS_ENTRY_HEIGHT_SHIFT : Z := PS_ENTRY_LIVE_BITS.
Definition PS_HEIGHT_EMPTY : Z := 0.
Definition PS_HEIGHT_LEAF : Z := 1.
Definition PS_HEIGHT_INDEX1 : Z := 2.
Definition PS_HEIGHT_INDEX2 : Z := 3.
Definition PS_HEIGHT_INDEX3 : Z := 4.

Definition ps_entry_make_tag (height live : Z) : Z :=
  u16 (Z.lor (Z.shiftl (Z.land height PS_ENTRY_HEIGHT_MASK) PS_ENTRY_HEIGHT_SHIFT) (Z.land live PS_ENTRY_LIVE_MASK)).
Definition ps_entry_get_height (entry : Z) : Z := u8 (Z.land (Z.shiftr (tp_get_tag entry) PS_ENTRY_HEIGHT_SHIFT) PS_ENTRY_HEIGHT_MASK).
Definition ps_entry_get_live (entry : Z) : Z := u16 (Z.land (tp_get_tag entry) PS_ENTRY_LIVE_MASK).
Definition ps_entry_new (ptr height live : Z) : Z := tp_new ptr (ps_entry_make_tag height live).
Definition ps_entry_points_to_leaf (entry_height : Z) : bool := entry_height =? PS_HEIGHT_INDEX1.
Definition ps_entry_points_to_index (entry_height : Z) : bool := (entry_height =? PS_HEIGHT_INDEX2) || (entry_height =? PS_HEIGHT_INDEX3).
Definition ps_entry_get_ptr (entry : Z) : Z := tp_get_ptr entry.
Definition ps_entry_is_none (entry : Z) : bool := tp_is_none entry.
Definition ps_entry_set_live (entry live : Z) : Z :=
  let tag := tp_get_tag entry in
  tp_set_tag entry (u16 (Z.lor (Z.land tag (bnot 32 PS_ENTRY_LIVE_MASK)) (Z.land live PS_ENTRY_LIVE_MASK))).
Definition page_slice_index_entry_empty (entry : Z) : bool := ps_entry_is_none entry.
Definition page_slice_index_entry_height (entry : Z) : Z :=
  if ps_entry_is_none entry then PS_HEIGHT_EMPTY else ps_entry_get_height entry.
Definition page_slice_index_entry_points_to_leaf (entry : Z) : bool := ps_entry_points_to_leaf (page_slice_index_entry_height entry).
Definition page_slice_index_entry_points_to_index (entry : Z) : bool := ps_entry_points_to_index (page_slice_index_entry_height entry).

(** ** The slice *)

(** [page_list_node]: whether the entry is on a list of the upper layer *)
Record page_slice_entry := mk_pse { kernel_virtual_address : Z; pse_flags : Z; page_list_node : bool }.
Definition pse_zero : page_slice_entry := mk_pse 0 0 false.

(** the fields of [struct page_slice], the memory of its tree and the heap *)
Record page_slice (A : Type) := mk_slice {
  root : Z;
  size : Z;
  mapped_entries : Z;
  words : Z -> Z;
  leaves : Z -> page_slice_entry;
  heap : A
}.
Arguments mk_slice {A}.
Arguments root {A}.
Arguments size {A}.
Arguments mapped_entries {A}.
Arguments words {A}.
Arguments leaves {A}.
Arguments heap {A}.

(** where a link is stored: in the slice or in an index page *)
Inductive eloc := LRoot | LSlot (a : Z).

Section Slice.
Context {A : Type} `{Allocator A}.
Implicit Types (s : page_slice A).

Definition set_root (x : Z) s : page_slice A := mk_slice x (size s) (mapped_entries s) (words s) (leaves s) (heap s).
Definition set_size (x : Z) s : page_slice A := mk_slice (root s) x (mapped_entries s) (words s) (leaves s) (heap s).
Definition set_mapped (x : Z) s : page_slice A := mk_slice (root s) (size s) x (words s) (leaves s) (heap s).
Definition set_words (m : Z -> Z) s : page_slice A := mk_slice (root s) (size s) (mapped_entries s) m (leaves s) (heap s).
Definition set_leaves (m : Z -> page_slice_entry) s : page_slice A := mk_slice (root s) (size s) (mapped_entries s) (words s) m (heap s).
Definition set_heap (h : A) s : page_slice A := mk_slice (root s) (size s) (mapped_entries s) (words s) (leaves s) h.

Definition get_entry (l : eloc) s : Z := match l with LRoot => root s | LSlot a => words s a end.
Definition put_entry (l : eloc) (x : Z) s : page_slice A :=
  match l with LRoot => set_root x s | LSlot a => set_words (fun y => if y =? a then x else words s y) s end.
Definition put_leaf (a : Z) (x : page_slice_entry) s : page_slice A := set_leaves (fun y => if y =? a then x else leaves s y) s.
Definition free (p : Z) s : page_slice A := set_heap (m_free (heap s) p) s.

(** [alloc->m_alloc(alloc, PAGE_SIZE)], the page zeroed *)
Definition in_page (p a : Z) : bool := (p <=? a) && (a <? p + PAGE_SIZE).
Definition alloc_index_page s : Z * page_slice A :=
  let '(p, h) := m_alloc (heap s) PAGE_SIZE in
  let s := set_heap h s in
  (p, if p =? 0 then s else set_words (fun a => if in_page p a then 0 else words s a) s).
Definition ps_alloc_leaf_page s : Z * page_slice A :=
  let '(p, h) := m_alloc (heap s) PAGE_SIZE in
  let s := set_heap h s in
  (p, if p =? 0 then s else set_leaves (fun a => if in_page p a then pse_zero else leaves s a) s).

(** *** The root *)

Definition page_slice_stored_height s : Z := if ps_entry_is_none (root s) then PS_HEIGHT_EMPTY else ps_entry_get_height (root s).
Definition page_slice_root_empty s : bool := ps_entry_is_none (root s) || (page_slice_stored_height s =? PS_HEIGHT_EMPTY).
Definition page_slice_root_is_leaf s : bool := page_slice_stored_height s =? PS_HEIGHT_LEAF.
Definition page_slice_root_is_index s : bool :=
  if page_slice_root_empty s then false
  else (PS_HEIGHT_INDEX1 <=? page_slice_stored_height s) && (page_slice_stored_height s <=? PS_HEIGHT_INDEX3).
Definition page_slice_root_get_leaf s : Z := if page_slice_root_is_leaf s then ps_entry_get_ptr (root s) else 0.
Definition page_slice_root_get_index s : Z := if page_slice_root_is_index s then ps_entry_get_ptr (root s) else 0.
Definition page_slice_root_live s : Z := if page_slice_root_empty s then 0 else ps_entry_get_live (root s).
Definition page_slice_page_count s : Z := PAGE_SLICE_SIZE_TO_PAGE_COUNT (size s).

Definition ps_entry_as_index_page (entry : Z) : Z :=
  if page_slice_index_entry_empty entry || negb (page_slice_index_entry_points_to_index entry) then 0 else ps_entry_get_ptr entry.
Definition ps_entry_as_leaf_page (entry : Z) : Z :=
  if page_slice_index_entry_empty entry || negb (page_slice_index_entry_points_to_leaf entry) then 0 else ps_entry_get_ptr entry.
Definition slot (page idx : Z) : Z := page + 8 * idx.
Definition ps_leaf_index_entry_loop (pgoff : Z) s := fix loop (level : nat) (index_page : Z) : option eloc :=
  match level with
  | O => Some (LSlot (slot index_page (PAGE_SLICE_INDEX_ENTRY pgoff 0)))
  | S l =>
    let index_page := ps_entry_as_index_page (words s (slot index_page (PAGE_SLICE_INDEX_ENTRY pgoff (Z.of_nat level)))) in
    if index_page =? 0 then None else loop l index_page
  end.
Definition ps_leaf_index_entry (pgoff : Z) s : option eloc :=
  if page_slice_root_is_leaf s then Some LRoot
  else if negb (page_slice_root_is_index s) then None
  else
    let index_page := page_slice_root_get_index s in
    if index_page =? 0 then None else ps_leaf_index_entry_loop pgoff s (Z.to_nat (page_slice_stored_height s - 2)) index_page.

(** *** Validation *)

Definition ps_byte_size_valid (sz : Z) : Z := if PAGE_SLICE_MAX_BYTE_SIZE <? sz then - E_REND_OVERFLOW else REND_SUCCESS.
Definition ps_pgoff_valid (pgoff : Z) s : Z := if page_slice_page_count s <=? pgoff then - E_IN_PARAM else REND_SUCCESS.
Definition ps_required_height_for_pgoff (pgoff : Z) : Z :=
  if pgoff <? PAGE_SLICE_LEAF_CAPACITY then PS_HEIGHT_LEAF
  else if negb (PAGE_SLICE_INDEX_ENTRY pgoff 2 =? 0) then PS_HEIGHT_INDEX3
  else if negb (PAGE_SLICE_INDEX_ENTRY pgoff 1 =? 0) then PS_HEIGHT_INDEX2
  else PS_HEIGHT_INDEX1.

(** *** Counts of used slots *)

Definition ps_entry_live_max_table (is_root : bool) (h : Z) : Z :=
  nth (Z.to_nat h)
    (if is_root
     then [0; PAGE_SLICE_LEAF_CAPACITY; PAGE_SLICE_INDEX_CAPACITY; PAGE_SLICE_INDEX_CAPACITY; PAGE_SLICE_INDEX_CAPACITY]
     else [0; PAGE_SLICE_LEAF_CAPACITY; PAGE_SLICE_LEAF_CAPACITY; PAGE_SLICE_INDEX_CAPACITY; PAGE_SLICE_INDEX_CAPACITY]) 0.
Definition is_root (l : eloc) : bool := match l with LRoot => true | LSlot _ => false end.
Definition ps_entry_live_inc (l : eloc) s : page_slice A :=
  let e := get_entry l s in
  let live := ps_entry_get_live e in
  if live <? ps_entry_live_max_table (is_root l) (ps_entry_get_height e) then put_entry l (ps_entry_set_live e (u16 (live + 1))) s else s.
Definition ps_entry_live_dec (l : eloc) s : page_slice A :=
  let e := get_entry l s in
  let live := ps_entry_get_live e in
  if 0 <? live then put_entry l (ps_entry_set_live e (u16 (live - 1))) s else s.

(** *** Growing; [None]: out of fuel *)

Fixpoint raise_loop (fuel : nat) (target_height child : Z) s : option (Z * page_slice A) :=
  let cur_height := page_slice_stored_height s in
  if negb (cur_height <? target_height) then Some (REND_SUCCESS, s)
  else
    match fuel with
    | O => None
    | S fuel' =>
      let new_height := if cur_height =? PS_HEIGHT_EMPTY then PS_HEIGHT_INDEX1 else u8 (cur_height + 1) in
      let '(new_root, s) := alloc_index_page s in
      if new_root =? 0 then Some (- E_REND_NO_MEM, s)
      else
        let child := if page_slice_root_is_leaf s then page_slice_root_get_leaf s
                     else if page_slice_root_is_index s then page_slice_root_get_index s else child in
        let wrapped_live := page_slice_root_live s in
        let s := if child =? 0 then s else put_entry (LSlot new_root) (ps_entry_new child new_height wrapped_live) s in
        raise_loop fuel' target_height child
          (set_root (ps_entry_new new_root new_height (if ps_entry_is_none (words s new_root) then 0 else 1)) s)
    end.
Definition ps_raise_height (target_height : Z) s : option (Z * page_slice A) :=
  if target_height <? PS_HEIGHT_INDEX1 then Some (REND_SUCCESS, s)
  else if PS_HEIGHT_INDEX3 <? target_height then Some (- E_REND_OVERFLOW, s)
  else raise_loop 4 target_height 0 s.

(** ** Descending to a leaf entry

    [want]: the caller asks for the path; the result is the error, the address
    of the entry and the path from the root down *)

Definition descent : Type := (Z * Z * eloc * list eloc)%type.
Fixpoint descend_loop (create want : bool) (pgoff : Z) (level : nat) (d : descent) s : Z * descent * page_slice A :=
  match level with
  | O => (REND_SUCCESS, d, s)
  | S l =>
    let '(index_page, page_h, structural_parent, path) := d in
    let a := slot index_page (PAGE_SLICE_INDEX_ENTRY pgoff (Z.of_nat level)) in
    let '(err, s) :=
      if page_slice_index_entry_empty (words s a) then
        if negb create then (- E_REND_NOFOUND, s)
        else
          let '(child_index, s) := alloc_index_page s in
          if child_index =? 0 then (- E_REND_NO_MEM, s)
          else (REND_SUCCESS, ps_entry_live_inc structural_parent (put_entry (LSlot a) (ps_entry_new child_index page_h 0) s))
      else (REND_SUCCESS, s) in
    if negb (err =? REND_SUCCESS) then (err, d, s)
    else if want && (3 <=? length path)%nat then (- E_RENDEZVOS, d, s)
    else
      let path := if want then path ++ [LSlot a] else path in
      let index_page := ps_entry_as_index_page (words s a) in
      if index_page =? 0 then ((if create then - E_RENDEZVOS else - E_REND_NOFOUND), d, s)
      else descend_loop create want pgoff l (index_page, u8 (page_h - 1), LSlot a, path) s
  end.
(** the leaf page behind the link [at_], made when it is missing *)
Definition descend_leaf (create : bool) (pgoff : Z) (at_ : eloc) (height : Z) (structural_parent : option eloc) (path : list eloc) s
  : Z * (Z * list eloc) * page_slice A :=
  let entry leaf := leaf + 32 * PAGE_SLICE_LEAF_IDX pgoff in
  let leaf_index := get_entry at_ s in
  if page_slice_index_entry_empty leaf_index then
    if negb create then (- E_REND_NOFOUND, (0, []), s)
    else
      let '(leaf, s) := ps_alloc_leaf_page s in
      if leaf =? 0 then (- E_REND_NO_MEM, (0, []), s)
      else
        let s := put_entry at_ (ps_entry_new leaf height 0) s in
        let s := match structural_parent with Some p => ps_entry_live_inc p s | None => s end in
        (REND_SUCCESS, (entry leaf, path), s)
  else
    let leaf := ps_entry_as_leaf_page leaf_index in
    if leaf =? 0 then ((if create then - E_RENDEZVOS else - E_REND_NOFOUND), (0, []), s)
    else (REND_SUCCESS, (entry leaf, path), s).
Definition ps_descend_pgoff (pgoff : Z) (create want : bool) s : Z * (Z * list eloc) * page_slice A :=
  let stored_h := page_slice_stored_height s in
  if negb create && (stored_h <? ps_required_height_for_pgoff pgoff) then (- E_REND_NOFOUND, (0, []), s)
  else if PS_HEIGHT_INDEX1 <=? stored_h then
    let index_page := page_slice_root_get_index s in
    if index_page =? 0 then (- E_REND_NOFOUND, (0, []), s)
    else
      let '(err, d, s) := descend_loop create want pgoff (Z.to_nat (stored_h - 2))
                            (index_page, stored_h, LRoot, if want then [LRoot] else []) s in
      if negb (err =? REND_SUCCESS) then (err, (0, []), s)
      else
        let '(bottom_index, page_h, structural_parent, path) := d in
        descend_leaf create pgoff (LSlot (slot bottom_index (PAGE_SLICE_INDEX_ENTRY pgoff 0))) page_h (Some structural_parent) path s
  else if page_slice_root_is_leaf s then
    let leaf := page_slice_root_get_leaf s in
    if leaf =? 0 then ((if create then - E_RENDEZVOS else - E_REND_NOFOUND), (0, []), s)
    else (REND_SUCCESS, (leaf + 32 * PAGE_SLICE_LEAF_IDX pgoff, []), s)
  else if negb create then (- E_REND_NOFOUND, (0, []), s)
  else descend_leaf create pgoff LRoot PS_HEIGHT_LEAF None [] s.

Definition ps_get_entry (pgoff : Z) (create want : bool) s : option (Z * (Z * list eloc) * page_slice A) :=
  let err := ps_pgoff_valid pgoff s in
  if negb (err =? REND_SUCCESS) then Some (err, (0, []), s)
  else if create then
    '(err, s) ← ps_raise_height (ps_required_height_for_pgoff pgoff) s;
    if negb (err =? REND_SUCCESS) then Some (err, (0, []), s) else Some (ps_descend_pgoff pgoff create want s)
  else Some (ps_descend_pgoff pgoff create want s).

(** ** Freeing *)

Definition pse_valid (x : page_slice_entry) : bool :=
  negb (Z.land (pse_flags x) PAGE_SLICE_FLAG_VALID =? 0) && negb (kernel_virtual_address x =? 0).
Definition ps_clear_leaf_entry (entry : Z) s : page_slice A :=
  if entry =? 0 then s
  else
    let page_address := kernel_virtual_address (leaves s entry) in
    let fl := pse_flags (leaves s entry) in
    let s := put_leaf entry (mk_pse 0 0 false) s in
    if negb (page_address =? 0) && (Z.land fl PAGE_SLICE_FLAG_PIN =? 0) then free page_address s else s.
Fixpoint clear_entries (entry : Z) (n : nat) s : page_slice A :=
  match n with O => s | S n' => clear_entries (entry + 32) n' (ps_clear_leaf_entry entry s) end.
Definition ps_free_leaf_page (leaf : Z) s : page_slice A :=
  if leaf =? 0 then s else free leaf (clear_entries leaf (Z.to_nat PAGE_SLICE_LEAF_CAPACITY) s).

Fixpoint each_slot (f : Z -> page_slice A -> option (page_slice A)) (a : Z) (n : nat) s : option (page_slice A) :=
  match n with O => Some s | S n' => s ← f a s; each_slot f (a + 8) n' s end.
Fixpoint ps_free_index_page_recursive (fuel : nat) (index_page : Z) s : option (page_slice A) :=
  if index_page =? 0 then Some s
  else
    match fuel with
    | O => None
    | S fuel' =>
      s ← each_slot (fun a s =>
            let entry := words s a in
            if page_slice_index_entry_empty entry then Some s
            else if page_slice_index_entry_points_to_leaf entry then Some (ps_free_leaf_page (ps_entry_as_leaf_page entry) s)
            else ps_free_index_page_recursive fuel' (ps_entry_as_index_page entry) s)
          index_page (Z.to_nat PAGE_SLICE_INDEX_CAPACITY) s;
      Some (free index_page s)
    end.

(** ** Removing *)

(** the path from the lowest link upwards *)
Fixpoint cascade (rpath : list eloc) s : page_slice A :=
  match rpath with
  | [] => s
  | l :: up =>
    if negb (ps_entry_get_live (get_entry l s) =? 0) then s
    else
      let child := ps_entry_get_ptr (get_entry l s) in
      let s := if child =? 0 then s else free child s in
      let s := put_entry l tp_new_none s in
      let s := match up with p :: _ => ps_entry_live_dec p s | [] => s end in
      cascade up s
  end.
Definition ps_cascade_up_empty_index (path : list eloc) s : page_slice A := cascade (rev path) s.

(** the leaf page behind [leaf_index] is empty *)
Definition drop_leaf (leaf_index : eloc) (path : list eloc) s : page_slice A :=
  if page_slice_index_entry_empty (get_entry leaf_index s) then s
  else
    let leaf := if is_root leaf_index && page_slice_root_is_leaf s then page_slice_root_get_leaf s
                else ps_entry_as_leaf_page (get_entry leaf_index s) in
    let s := put_entry leaf_index tp_new_none s in
    let s := if leaf =? 0 then s else free leaf s in
    match rev path with p :: _ => ps_entry_live_dec p s | [] => s end.
Definition ps_remove_page_locked (pgoff : Z) (missing_ok : bool) s : Z * page_slice A :=
  let missing err := if missing_ok then REND_SUCCESS else err in
  if page_slice_root_empty s then (missing (- E_REND_NOFOUND), s)
  else
    let '(err, (entry, path), s) := ps_descend_pgoff pgoff false true s in
    if negb (err =? REND_SUCCESS) then (missing err, s)
    else
      match ps_leaf_index_entry pgoff s with
      | None => (missing (- E_REND_NOFOUND), s)
      | Some leaf_index =>
        if negb (pse_valid (leaves s entry)) then (missing (- E_REND_NOFOUND), s)
        else
          let s := ps_clear_leaf_entry entry s in
          let s := if 0 <? mapped_entries s then set_mapped (mapped_entries s - 1) s else s in
          let s := ps_entry_live_dec leaf_index s in
          if negb (ps_entry_get_live (get_entry leaf_index s) =? 0) then (REND_SUCCESS, s)
          else (REND_SUCCESS, ps_cascade_up_empty_index path (drop_leaf leaf_index path s))
      end.

(** *** Shrinking *)

(** [inl]: the function returned from inside the loop *)
Fixpoint shrink_loop (fuel : nat) s : option (bool * page_slice A) :=
  if negb (page_slice_root_is_index s && (page_slice_root_live s =? 1)) then Some (false, s)
  else
    match fuel with
    | O => None
    | S fuel' =>
      let root_index := page_slice_root_get_index s in
      let child := words s root_index in
      if (root_index =? 0) || page_slice_index_entry_empty child then Some (false, s)
      else
        let leaf := ps_entry_as_leaf_page child in
        if (page_slice_stored_height s =? PS_HEIGHT_INDEX1) && negb (leaf =? 0) then
          Some (true, free root_index (set_root (ps_entry_new leaf PS_HEIGHT_LEAF (ps_entry_get_live child)) s))
        else
          let root_h := page_slice_stored_height s in
          shrink_loop fuel' (set_root (ps_entry_new (ps_entry_get_ptr child) (u8 (root_h - 1)) (ps_entry_get_live child)) (free root_index s))
    end.
Definition ps_shrink s : option (page_slice A) :=
  '(returned, s) ← shrink_loop 4 s;
  if returned : bool then Some s
  else if page_slice_root_is_leaf s && (page_slice_root_live s =? 0) then
    Some (set_root tp_new_none (ps_free_leaf_page (page_slice_root_get_leaf s) s))
  else if page_slice_root_is_index s && (page_slice_root_live s =? 0) then
    s ← ps_free_index_page_recursive 4 (page_slice_root_get_index s) s; Some (set_root tp_new_none s)
  else Some s.

(** ** The interface *)

Definition sizeof_page_slice : Z := 32.
(** the header's address and the slice; memory and heap are those given *)
Definition page_slice_create (append_info_size slice_size : Z) (s : page_slice A) : Z * page_slice A :=
  if slice_size =? 0 then (0, s)
  else if negb (ps_byte_size_valid slice_size =? REND_SUCCESS) then (0, s)
  else
    let '(slice, h) := m_alloc (heap s) (u64 (sizeof_page_slice + append_info_size)) in
    let s := set_heap h s in
    if slice =? 0 then (0, s) else (slice, set_mapped 0 (set_size slice_size (set_root tp_new_none s))).
Definition page_slice_get_size s : Z := size s.

(** [slice]: the header's address *)
Definition page_slice_destroy (slice : Z) s : option (page_slice A) :=
  s ← (if page_slice_root_empty s then Some s
       else if page_slice_root_is_leaf s then Some (set_root tp_new_none (ps_free_leaf_page (page_slice_root_get_leaf s) s))
       else s ← ps_free_index_page_recursive 4 (page_slice_root_get_index s) s; Some (set_root tp_new_none s));
  Some (free slice s).

(** [for (pgoff = old_pages; pgoff > new_pages; pgoff--)] *)
Fixpoint remove_pages (pgoff : Z) (n : nat) s : page_slice A :=
  match n with O => s | S n' => remove_pages (pgoff - 1) n' (snd (ps_remove_page_locked (pgoff - 1) true s)) end.
(** the second component: the slice is gone *)
Definition page_slice_set_size (slice new_size : Z) s : option (Z * bool * page_slice A) :=
  if new_size =? 0 then s ← page_slice_destroy slice s; Some (REND_SUCCESS, true, s)
  else
    let err := ps_byte_size_valid new_size in
    if negb (err =? REND_SUCCESS) then Some (err, false, s)
    else if new_size =? size s then Some (REND_SUCCESS, false, s)
    else
      let s :=
        if new_size <? size s then
          let old_pages := page_slice_page_count s in
          let new_pages := PAGE_SLICE_SIZE_TO_PAGE_COUNT new_size in
          if new_pages <? old_pages then remove_pages old_pages (Z.to_nat (old_pages - new_pages)) s else s
        else s in
      s ← ps_shrink (set_size new_size s);
      Some (REND_SUCCESS, false, s).

Definition page_slice_lookup (pgoff : Z) s : option (option Z) :=
  '(err, (entry, _), s') ← ps_get_entry pgoff false false s;
  if negb (err =? REND_SUCCESS) then Some None
  else if negb (pse_valid (leaves s' entry)) then Some None else Some (Some entry).

Definition page_slice_insert_page (pgoff page_address fl : Z) s : option (Z * page_slice A) :=
  if page_address =? 0 then Some (- E_IN_PARAM, s)
  else
    '(err, (entry, _), s) ← ps_get_entry pgoff true false s;
    if negb (err =? REND_SUCCESS) then Some (err, s)
    else if pse_valid (leaves s entry) then
      Some ((if kernel_virtual_address (leaves s entry) =? page_address then REND_SUCCESS else - E_REND_AGAIN), s)
    else
      let s := put_leaf entry (mk_pse page_address (Z.lor fl PAGE_SLICE_FLAG_VALID) (page_list_node (leaves s entry))) s in
      let s := set_mapped (u64 (mapped_entries s + 1)) s in
      Some (REND_SUCCESS, match ps_leaf_index_entry pgoff s with Some l => ps_entry_live_inc l s | None => s end).

Fixpoint shrink_passes (n : nat) s : option (page_slice A) :=
  match n with O => Some s | S n' => s ← ps_shrink s; shrink_passes n' s end.
Definition page_slice_remove_page (pgoff : Z) s : option (Z * page_slice A) :=
  let err := ps_pgoff_valid pgoff s in
  if negb (err =? REND_SUCCESS) then Some (err, s)
  else
    let '(err, s) := ps_remove_page_locked pgoff false s in
    if negb (err =? REND_SUCCESS) then Some (err, s)
    else s ← shrink_passes (Z.to_nat PS_HEIGHT_INDEX3) s; Some (REND_SUCCESS, s).
End Slice.
