(* ===== verification/PageSliceTree.v ===== *)
(** * The tree behind a page slice

    Links as data ([ps_entry_new]), the link behind each prefix of a page
    offset ([lk]), and what makes a tree well-formed ([tree]): pages are the
    slice's own, links carry the height of their place and the number of used
    slots, up to a skew while an operation is under way.  One lemma per change:
    hanging in and taking out an empty page, setting and clearing an entry. *)
From S2P Require Import Prelude Mm TaggedPtr Allocator PageSlice.

(** ** Links *)

Lemma make_tag_arith h l : 0 <= h < 8 -> 0 <= l < 8192 -> ps_entry_make_tag h l = h * 8192 + l.
Proof.
  intros Hh Hl. unfold ps_entry_make_tag. change PS_ENTRY_HEIGHT_MASK with (Z.ones 3). change PS_ENTRY_LIVE_MASK with (Z.ones 13).
  rewrite !Z.land_ones by lia. change PS_ENTRY_HEIGHT_SHIFT with 13. rewrite Z.shiftl_mul_pow2 by lia.
  rewrite (Z.mod_small h), (Z.mod_small l) by lia. rewrite lor_add_disjoint by lia. apply u16_small. lia.
Qed.
Lemma link_ptr p h l : canonical p -> ps_entry_get_ptr (ps_entry_new p h l) = p.
Proof. apply tp_new_get_ptr. Qed.
Lemma link_tag p h l : 0 <= h < 8 -> 0 <= l < 8192 -> tp_get_tag (ps_entry_new p h l) = h * 8192 + l.
Proof. intros Hh Hl. unfold ps_entry_new. rewrite tp_new_get_tag, make_tag_arith by done. apply u16_small. lia. Qed.
Lemma link_height p h l : 0 <= h < 8 -> 0 <= l < 8192 -> ps_entry_get_height (ps_entry_new p h l) = h.
Proof.
  intros Hh Hl. unfold ps_entry_get_height. rewrite link_tag by done. change PS_ENTRY_HEIGHT_SHIFT with 13. rewrite Z.shiftr_div_pow2 by lia.
  change PS_ENTRY_HEIGHT_MASK with (Z.ones 3). rewrite Z.land_ones by lia. change (2 ^ 13) with 8192. change (2 ^ 3) with 8. rewrite u8_small; dlia.
Qed.
Lemma link_live p h l : 0 <= h < 8 -> 0 <= l < 8192 -> ps_entry_get_live (ps_entry_new p h l) = l.
Proof.
  intros Hh Hl. unfold ps_entry_get_live. rewrite link_tag by done. change PS_ENTRY_LIVE_MASK with (Z.ones 13). rewrite Z.land_ones by lia.
  change (2 ^ 13) with 8192. rewrite u16_small; dlia.
Qed.
Lemma link_set_live p h l l' : canonical p -> 0 <= h < 8 -> 0 <= l < 8192 -> 0 <= l' < 8192 ->
  ps_entry_set_live (ps_entry_new p h l) l' = ps_entry_new p h l'.
Proof.
  intros Hp Hh Hl Hl'. unfold ps_entry_set_live. rewrite tp_set_tag_spec by apply tp_new_range. fold (ps_entry_get_ptr (ps_entry_new p h l)).
  rewrite link_ptr, link_tag by done. unfold ps_entry_new. f_equal. rewrite make_tag_arith by done.
  change PS_ENTRY_LIVE_MASK with (Z.ones 13). rewrite (Z.land_ones l') by lia. rewrite (Z.mod_small l') by (change (2 ^ 13) with 8192; lia).
  assert (E : Z.land (h * 8192 + l) (bnot 32 (Z.ones 13)) = h * 2 ^ 13).
  { change 8192 with (2 ^ 13). rewrite <- (lor_add_disjoint h l 13) by lia. rewrite Z.land_lor_distr_l. apply Z.bits_inj'. intros n Hn.
    rewrite Z.lor_spec, !Z.land_spec, testbit_bnot, Z.testbit_ones_nonneg by lia. destruct (Z.ltb_spec n 13) as [Hlt|Hge]; cbn [negb andb].
    - rewrite !andb_false_r. by rewrite Z.mul_pow2_bits_low by lia.
    - rewrite (testbit_small 13 l n) by lia. cbn [andb]. rewrite orb_false_r. destruct (Z.ltb_spec n 32); [by rewrite andb_true_r|].
      rewrite andb_false_r. symmetry. apply (testbit_small 16); lia. }
  rewrite E, lor_add_disjoint by lia. apply u16_small. lia.
Qed.
Lemma link_some p h l : 1 <= h < 8 -> 0 <= l < 8192 -> ps_entry_new p h l <> 0.
Proof. intros Hh Hl E. pose proof (link_tag p h l ltac:(lia) Hl) as T. rewrite E in T. change (tp_get_tag 0) with 0 in T. lia. Qed.

(** ** Offsets *)

Lemma index_entry_arith pgoff level : 0 <= level -> PAGE_SLICE_INDEX_ENTRY pgoff level = pgoff / 2 ^ (7 + 9 * level) mod 512.
Proof.
  intros Hl. unfold PAGE_SLICE_INDEX_ENTRY. change (PAGE_SLICE_INDEX_CAPACITY - 1) with (Z.ones 9). change PAGE_SLICE_LEAF_SHIFT with 7.
  change PAGE_SLICE_INDEX_SHIFT with 9. rewrite Z.land_ones, Z.shiftr_div_pow2 by lia. done.
Qed.
Lemma leaf_idx_arith pgoff : PAGE_SLICE_LEAF_IDX pgoff = pgoff mod 128.
Proof. unfold PAGE_SLICE_LEAF_IDX. change (PAGE_SLICE_LEAF_CAPACITY - 1) with (Z.ones 7). by rewrite Z.land_ones by lia. Qed.
(** the page at depth [d] of a tree of height [H] that [pgoff] goes through *)
Definition pref (H d : nat) (pgoff : Z) : Z := pgoff / 2 ^ (7 + 9 * (Z.of_nat H - 1 - Z.of_nat d)).
Lemma pref_parent H d pgoff : (S d < H)%nat -> pref H (S d) pgoff / 512 = pref H d pgoff.
Proof.
  intros Hd. unfold pref. change 512 with (2 ^ 9). rewrite Z.div_div by (try apply Z.pow_nonzero; lia).
  rewrite <- Z.pow_add_r by lia. do 2 f_equal. lia.
Qed.
Lemma pref_slot H d pgoff : (S d < H)%nat -> pref H (S d) pgoff mod 512 = PAGE_SLICE_INDEX_ENTRY pgoff (Z.of_nat (H - 2 - d)).
Proof. intros Hd. rewrite index_entry_arith by lia. unfold pref. do 3 f_equal. lia. Qed.
Lemma pref_leaf H pgoff : (1 <= H)%nat -> pref H (H - 1) pgoff = pgoff / 128.
Proof. intros HH. unfold pref. replace (7 + 9 * (Z.of_nat H - 1 - Z.of_nat (H - 1))) with 7 by lia. done. Qed.

(** ** The tree of links *)

Definition child (w : Z -> Z) (o : option Z) (i : Z) : option Z :=
  match o with None => None | Some e => let x := w (slot (ps_entry_get_ptr e) i) in if x =? 0 then None else Some x end.
(** the link at depth [d], for the page with prefix [q] *)
Fixpoint lk (w : Z -> Z) (r : Z) (d : nat) (q : Z) : option Z :=
  match d with
  | O => if (q =? 0) && negb (r =? 0) then Some r else None
  | S d' => child w (lk w r d' (q / 512)) (q mod 512)
  end.

(** one link is replaced *)
Lemma lk_change w w' r r' (D d : nat) q o' :
  (match d with O => q = 0 /\ (if r' =? 0 then None else Some r') = o' | S d0 => r' = r /\ child w' (lk w r d0 (q / 512)) (q mod 512) = o' end) ->
  (forall d1 x i, (S d1 < D)%nat -> 0 <= i < 512 -> (S d1, 512 * x + i) <> (d, q) -> (d1, x) <> (d, q) -> child w' (lk w r d1 x) i = child w (lk w r d1 x) i) ->
  (forall i, (S d < D)%nat -> 0 <= i < 512 -> child w' o' i = child w (lk w r d q) i) ->
  forall d' q', (d' < D)%nat -> lk w' r' d' q' = if bool_decide ((d', q') = (d, q)) then o' else lk w r d' q'.
Proof.
  intros Ha Hc Hd d'. induction d' as [|d1 IH]; intros q' HD.
  - cbn [lk]. destruct d as [|d0].
    + destruct Ha as [-> <-]. case_bool_decide as E; [injection E as ->; cbn; by destruct (r' =? 0)|].
      destruct (Z.eqb_spec q' 0); [congruence|done].
    + destruct Ha as [-> _]. by rewrite bool_decide_eq_false_2 by congruence.
  - cbn [lk]. rewrite (IH (q' / 512)) by lia. assert (Hm : 0 <= q' mod 512 < 512) by (apply Z.mod_pos_bound; lia).
    assert (Hq : 512 * (q' / 512) + q' mod 512 = q') by dlia.
    destruct (decide ((d1, q' / 512) = (d, q))) as [E|E].
    + rewrite (bool_decide_eq_true_2 _ E). injection E as -> <-. rewrite bool_decide_eq_false_2 by (intros [=]; lia). by apply Hd.
    + rewrite (bool_decide_eq_false_2 _ E). case_bool_decide as E2.
      * injection E2 as E2a E2b. subst d q. by destruct Ha as [_ ?].
      * apply Hc; [done|done|by rewrite Hq|done].
Qed.

(** ** Used slots *)

Definition slots (n : nat) : list Z := seqZ 0 (Z.of_nat n).
Definition used_links (f : nat -> Z -> option Z) (d : nat) (x : Z) : Z :=
  countp (fun i => bool_decide (is_Some (f (S d) (512 * x + i)))) (slots 512).
Definition used_leaves (m : Z -> page_slice_entry) (p : Z) : Z := countp (fun i => pse_valid (m (p + 32 * i))) (slots 128).

Lemma elem_of_slots n i : i ∈ slots n <-> 0 <= i < Z.of_nat n.
Proof. unfold slots. rewrite elem_of_seqZ. lia. Qed.
Lemma countp_same {B} (P Q : B -> bool) l : (forall x, x ∈ l -> P x = Q x) -> countp P l = countp Q l.
Proof.
  induction l as [|x l IH]; intros E; [done|]. cbn [countp]. rewrite (E x (list_elem_of_here _ _)), IH; [done|].
  intros y Hy. by apply E, list_elem_of_further.
Qed.
Lemma countp_point {B} (P Q : B -> bool) l x : NoDup l -> x ∈ l -> (forall y, y ∈ l -> y <> x -> Q y = P y) ->
  countp Q l = countp P l - Z.b2z (P x) + Z.b2z (Q x).
Proof.
  induction l as [|z l IH]; intros Hn Hx E; [by apply elem_of_nil in Hx|]. apply list.NoDup_cons in Hn as [Hz Hn]. cbn [countp].
  apply elem_of_cons in Hx as [<-|Hx].
  - rewrite (countp_same Q P l); [lia|]. intros y Hy. apply E; [by apply list_elem_of_further|by intros ->].
  - rewrite (E z) by (apply list_elem_of_here || by intros ->). rewrite IH; [lia|done|done|]. intros y Hy. apply E. by apply list_elem_of_further.
Qed.
Lemma countp_zero_elem {B} (P : B -> bool) l : countp P l = 0 -> forall x, x ∈ l -> P x = false.
Proof.
  induction l as [|z l IH]; intros H0 x Hx; [by apply elem_of_nil in Hx|]. cbn [countp] in H0. pose proof (countp_range P l).
  apply elem_of_cons in Hx as [->|Hx]; [destruct (P z); [cbn [Z.b2z] in H0; lia|done]|]. apply IH; [destruct (P z); cbn [Z.b2z] in H0; lia|done].
Qed.
Lemma countp_lt {B} (P : B -> bool) l x : x ∈ l -> P x = false -> countp P l < Z.of_nat (length l).
Proof.
  induction l as [|z l IH]; intros Hx Hp; [by apply elem_of_nil in Hx|]. cbn [countp length]. pose proof (countp_range P l).
  apply elem_of_cons in Hx as [->|Hx]; [rewrite Hp; cbn [Z.b2z]; lia|]. specialize (IH Hx Hp). destruct (P z); cbn [Z.b2z]; lia.
Qed.
Lemma countp_pos {B} (P : B -> bool) l x : x ∈ l -> P x = true -> 0 < countp P l.
Proof.
  induction l as [|z l IH]; intros Hx Hp; [by apply elem_of_nil in Hx|]. cbn [countp]. pose proof (countp_range P l).
  apply elem_of_cons in Hx as [->|Hx]; [rewrite Hp; cbn [Z.b2z]; lia|]. specialize (IH Hx Hp). destruct (P z); cbn [Z.b2z]; lia.
Qed.
Lemma slots_nodup n : NoDup (slots n).
Proof. apply NoDup_seqZ. Qed.
Lemma slots_length n : length (slots n) = n.
Proof. unfold slots. rewrite length_seqZ. lia. Qed.

(** changing the link at [(S d0, q)] *)
Lemma used_links_change f f' d0 q o' :
  (forall x, f' (S d0) x = if bool_decide (x = q) then o' else f (S d0) x) ->
  forall x, used_links f' d0 x = used_links f d0 x +
    if bool_decide (x = q / 512) then Z.b2z (bool_decide (is_Some o')) - Z.b2z (bool_decide (is_Some (f (S d0) q))) else 0.
Proof.
  intros Hf x. unfold used_links. assert (Hm : 0 <= q mod 512 < 512) by (apply Z.mod_pos_bound; lia).
  assert (Hq : 512 * (q / 512) + q mod 512 = q) by dlia. case_bool_decide as E.
  - subst x. rewrite (countp_point (fun i => bool_decide (is_Some (f (S d0) (512 * (q / 512) + i)))) _ (slots 512) (q mod 512)).
    + cbn beta. rewrite Hq, Hf, (bool_decide_eq_true_2 (q = q)) by done. lia.
    + apply slots_nodup.
    + apply elem_of_slots. lia.
    + intros i _ Hi. rewrite Hf, (bool_decide_eq_false_2 (512 * (q / 512) + i = q)); [done|]. intros Eq. apply Hi. lia.
  - rewrite Z.add_0_r. apply countp_same. intros i Hi%elem_of_slots. rewrite Hf, (bool_decide_eq_false_2 (512 * x + i = q)); [done|]. intros Eq. apply E. dlia.
Qed.

(** ** The heap *)

(** [owned]: the page-sized blocks handed out *)
Class PageHeap (A : Type) `{Allocator A} := {
  heap_ok : A -> Prop;
  owned : A -> gset Z;
  ph_ptr : forall a p, heap_ok a -> p ∈ owned a -> canonical p /\ p <> 0;
  ph_apart : forall a p q, heap_ok a -> p ∈ owned a -> q ∈ owned a -> p <> q -> p + PAGE_SIZE <= q \/ q + PAGE_SIZE <= p;
  ph_alloc : forall a p a', heap_ok a -> m_alloc a PAGE_SIZE = (p, a') ->
    heap_ok a' /\ (p = 0 /\ owned a' = owned a \/ p <> 0 /\ p ∉ owned a /\ owned a' = {[p]} ∪ owned a);
  ph_other : forall a n p a', heap_ok a -> n <> PAGE_SIZE -> m_alloc a n = (p, a') -> heap_ok a' /\ owned a' = owned a /\ p ∉ owned a;
  ph_free : forall a p, heap_ok a -> heap_ok (m_free a p) /\ owned (m_free a p) = owned a ∖ {[p]}
}.

Section Inv.
Context {A : Type} {HA : Allocator A} {HP : PageHeap A}.
Implicit Types (s : page_slice A) (f : nat -> Z -> option Z).

Notation ptr e := (ps_entry_get_ptr e).

(** heights of links: the root's is the tree's *)
Definition hgt (H d : nat) : Z := match d with O => Z.of_nat H | S d0 => Z.of_nat (H - d0) end.
Definition leaf_at (f : nat -> Z -> option Z) (H : nat) (m : Z -> page_slice_entry) (pgoff : Z) : option page_slice_entry :=
  match H with
  | O => None
  | S D => match f D (pgoff / 128) with None => None | Some e => Some (m (ptr e + 32 * (pgoff mod 128))) end
  end.

Definition pinned (x : page_slice_entry) : bool := negb (Z.land (pse_flags x) PAGE_SLICE_FLAG_PIN =? 0).
(** the entries in use *)
Definition mapped (f : nat -> Z -> option Z) (H : nat) (m : Z -> page_slice_entry) (pgoff : Z) : option page_slice_entry :=
  match leaf_at f H m pgoff with Some x => if pse_valid x then Some x else None | None => None end.
(** used slots of the page behind a link *)
Definition used (f : nat -> Z -> option Z) (H : nat) (m : Z -> page_slice_entry) (d : nat) (q p : Z) : Z :=
  if (S d <? H)%nat then used_links f d q else used_leaves m p.

(** a tree of height [H] with links [f], leaf memory [m] and heap [a]; the
    count of link [(d, q)] is [skew d q] behind *)
Record tree (f : nat -> Z -> option Z) (H : nat) (m : Z -> page_slice_entry) (a : A) (skew : nat -> Z -> Z) : Prop := {
  tr_heap : heap_ok a;
  tr_link : forall d q e, (d < H)%nat -> f d q = Some e ->
    exists p l, e = ps_entry_new p (hgt H d) l /\ p ∈ owned a /\ 0 <= l <= 512 /\ l = used f H m d q p - skew d q;
  tr_root : forall q e, f 0%nat q = Some e -> q = 0;
  tr_up : forall d q e, (S d < H)%nat -> f (S d) q = Some e -> is_Some (f d (q / 512));
  tr_inj : forall d d' q q' e e', (d < H)%nat -> (d' < H)%nat -> f d q = Some e -> f d' q' = Some e' -> ptr e = ptr e' -> (d, q) = (d', q');
  tr_clean : forall pgoff x, leaf_at f H m pgoff = Some x -> pse_valid x = false -> kernel_virtual_address x = 0;
  (** pages that are given back when their entry goes are the slice's own *)
  tr_data : forall pgoff x, mapped f H m pgoff = Some x -> pinned x = false ->
    kernel_virtual_address x ∈ owned a /\ (forall d q e, (d < H)%nat -> f d q = Some e -> ptr e <> kernel_virtual_address x) /\
    forall pgoff' x', mapped f H m pgoff' = Some x' -> pinned x' = false -> kernel_virtual_address x' = kernel_virtual_address x -> pgoff' = pgoff
}.
Definition even : nat -> Z -> Z := fun _ _ => 0.
Definition only (d : nat) (q k : Z) : nat -> Z -> Z := fun d' q' => if bool_decide ((d', q') = (d, q)) then k else 0.
(** [f] with one link replaced *)
Definition upd (f : nat -> Z -> option Z) (d : nat) (q : Z) (o : option Z) : nat -> Z -> option Z :=
  fun d' q' => if bool_decide ((d', q') = (d, q)) then o else f d' q'.

Lemma upd_same f d q o : upd f d q o d q = o.
Proof. unfold upd. by rewrite bool_decide_eq_true_2. Qed.
Lemma upd_other f d q o d' q' : (d', q') <> (d, q) -> upd f d q o d' q' = f d' q'.
Proof. intros H. unfold upd. by rewrite bool_decide_eq_false_2. Qed.
Lemma upd_cases f d q o d' q' e : upd f d q o d' q' = Some e -> (d', q') = (d, q) /\ o = Some e \/ (d', q') <> (d, q) /\ f d' q' = Some e.
Proof. unfold upd. case_bool_decide; tauto. Qed.

Lemma tree_ext f f' H m a sk sk' : (forall d q, (d < H)%nat -> f' d q = f d q) -> (forall d q, sk' d q = sk d q) -> (H <> 0)%nat -> tree f H m a sk -> tree f' H m a sk'.
Proof.
  intros Hf Hs HH [T1 T2 T3 T4 T5 T6 T7].
  assert (Hl : forall pgoff, leaf_at f' H m pgoff = leaf_at f H m pgoff) by (intros pgoff; unfold leaf_at; destruct H; [done|]; by rewrite Hf by lia).
  assert (Hm : forall pgoff, mapped f' H m pgoff = mapped f H m pgoff) by (intros pgoff; unfold mapped; by rewrite Hl).
  constructor; [done| | | | | |].
  - intros d q e Hd Hfd. rewrite Hf in Hfd by done. destruct (T2 d q e Hd Hfd) as (p & l & E1 & E2 & E3 & E4). exists p, l. split_and!; try done; try lia.
    rewrite Hs, E4. f_equal. unfold used. destruct (Nat.ltb_spec (S d) H); [|done]. unfold used_links. apply countp_same. intros i _. by rewrite Hf by done.
  - intros q e Hq. rewrite Hf in Hq by lia. by apply (T3 q e).
  - intros d q e Hd Hq. rewrite Hf in Hq by lia. rewrite Hf by lia. by apply (T4 d q e).
  - intros d d' q q' e e' Hd Hd' E1 E2. rewrite Hf in E1 by done. rewrite Hf in E2 by done. by apply T5.
  - intros pgoff x. rewrite Hl. apply T6.
  - intros pgoff x Hx Hp. rewrite Hm in Hx. destruct (T7 pgoff x Hx Hp) as (D1 & D2 & D3). split_and!; [done| |].
    + intros d q e Hd He. rewrite Hf in He by done. by apply (D2 d q e).
    + intros pgoff' x' Hx'. rewrite Hm in Hx'. by apply D3.
Qed.

(** the count of a link catches up *)
Lemma tree_catch f H m a d q p l k : tree f H m a (only d q k) -> (d < H)%nat -> f d q = Some (ps_entry_new p (hgt H d) l) -> canonical p -> 0 <= hgt H d < 8 ->
  0 <= l <= 512 -> 0 <= l + k <= 512 -> tree (upd f d q (Some (ps_entry_new p (hgt H d) (l + k)))) H m a even /\
  forall pgoff, mapped (upd f d q (Some (ps_entry_new p (hgt H d) (l + k)))) H m pgoff = mapped f H m pgoff.
Proof.
  intros [T1 T2 T3 T4 T5 T6 T7] Hd Hf Hp Hh Hl Hk. set (e' := ps_entry_new p (hgt H d) (l + k)). set (f' := upd f d q (Some e')).
  assert (Hpp : ptr e' = ptr (ps_entry_new p (hgt H d) l)) by (unfold e'; by rewrite !link_ptr).
  assert (Hs : forall d' q', is_Some (f' d' q') <-> is_Some (f d' q')).
  { intros d' q'. unfold f', upd. case_bool_decide as E; [|done]. injection E as -> ->. rewrite Hf. split; by eexists. }
  assert (Hc : forall d' q' e, f' d' q' = Some e -> exists e0, f d' q' = Some e0 /\ ptr e = ptr e0).
  { intros d' q' e [[E Ee]|[E Ee]]%upd_cases; [|by exists e]. injection E as -> ->. injection Ee as <-. by eexists. }
  assert (Hla : forall pgoff, leaf_at f' H m pgoff = leaf_at f H m pgoff).
  { intros pgoff. unfold leaf_at. destruct H as [|D]; [done|]. unfold f', upd. case_bool_decide as E; [|done]. injection E as -> ->. rewrite Hf, Hpp. done. }
  assert (Hm : forall pgoff, mapped f' H m pgoff = mapped f H m pgoff) by (intros pgoff; unfold mapped; by rewrite Hla).
  split; [|done]. constructor; [done| | | | | |].
  - intros d' q' e Hd' Hfe. assert (Hu : forall p', used f' H m d' q' p' = used f H m d' q' p').
    { intros p'. unfold used. destruct (S d' <? H)%nat; [|done]. unfold used_links. apply countp_same. intros i _. apply bool_decide_ext, Hs. }
    destruct (upd_cases _ _ _ _ _ _ _ Hfe) as [[E Ee]|[E Ee]].
    + injection E as -> ->. injection Ee as <-. destruct (T2 d q _ Hd Hf) as (p0 & l0 & E1 & E2 & E3 & E4).
      assert (p0 = p) as -> by (apply (f_equal ps_entry_get_ptr) in E1; rewrite link_ptr in E1 by done; rewrite link_ptr in E1; [done|]; by apply (ph_ptr a)).
      assert (l0 = l) as -> by (apply (f_equal ps_entry_get_live) in E1; rewrite !link_live in E1 by lia; done).
      exists p, (l + k). split_and!; [done|done|lia|lia|]. rewrite Hu. unfold only in E4. rewrite bool_decide_eq_true_2 in E4 by done. unfold even. lia.
    + destruct (T2 d' q' e Hd' Ee) as (p0 & l0 & E1 & E2 & E3 & E4). exists p0, l0. split_and!; try done; try lia.
      rewrite Hu. unfold only in E4. rewrite (bool_decide_eq_false_2 _ E) in E4. exact E4.
  - intros q' e (e0 & E0 & _)%Hc. by apply (T3 q' e0).
  - intros d' q' e Hd' (e0 & E0 & _)%Hc. apply Hs. by apply (T4 d' q' e0).
  - intros d1 d2 q1 q2 e1 e2 H1 H2 (e1' & E1 & P1)%Hc (e2' & E2 & P2)%Hc Eq. apply (T5 d1 d2 q1 q2 e1' e2'); congruence.
  - intros pgoff x. rewrite Hla. apply T6.
  - intros pgoff x Hx Hpx. rewrite Hm in Hx. destruct (T7 pgoff x Hx Hpx) as (D1 & D2 & D3). split_and!; [done| |].
    + intros d' q' e Hd' (e0 & E0 & ->)%Hc. by apply (D2 d' q' e0).
    + intros pgoff' x' Hx'. rewrite Hm in Hx'. by apply D3.
Qed.

Lemma tree_ptr f H m a sk d q e : tree f H m a sk -> (d < H)%nat -> f d q = Some e -> ptr e ∈ owned a /\ canonical (ptr e) /\ ptr e <> 0.
Proof.
  intros T Hd Hf. destruct (tr_link _ _ _ _ _ T d q e Hd Hf) as (p & l & -> & Hp & _ & _). pose proof (ph_ptr a p (tr_heap _ _ _ _ _ T) Hp) as [Hc Hn].
  by rewrite link_ptr.
Qed.
Lemma used_nodes_zero f H m a sk d q p : tree f H m a sk -> used f H m d q p = 0 ->
  (forall q', (S d < H)%nat -> q' / 512 = q -> f (S d) q' = None) /\ (H = S d -> forall i, 0 <= i < 128 -> pse_valid (m (p + 32 * i)) = false).
Proof.
  intros T Hu. unfold used in Hu. split.
  - intros q' Hd Hq. rewrite (proj2 (Nat.ltb_lt _ _) Hd) in Hu. pose proof (countp_zero_elem _ _ Hu (q' mod 512)) as Hz.
    assert (0 <= q' mod 512 < 512) by (apply Z.mod_pos_bound; lia). specialize (Hz ltac:(apply elem_of_slots; lia)). cbn beta in Hz.
    apply bool_decide_eq_false in Hz. replace (512 * q + q' mod 512) with q' in Hz by dlia. by apply eq_None_not_Some.
  - intros -> i Hi. rewrite Nat.ltb_irrefl in Hu. apply (countp_zero_elem _ _ Hu). apply elem_of_slots. lia.
Qed.
Lemma fresh_no_child f H m a sk d q : tree f H m a sk -> (S d < H)%nat -> f d q = None -> forall i, 0 <= i < 512 -> f (S d) (512 * q + i) = None.
Proof.
  intros T Hd Hf i Hi. apply eq_None_not_Some. intros [e He]. destruct (tr_up _ _ _ _ _ T d _ e Hd He) as [x Hx].
  replace ((512 * q + i) / 512) with q in Hx by dlia. congruence.
Qed.
Lemma zero_leaves m p : (forall i, 0 <= i < 128 -> m (p + 32 * i) = pse_zero) -> used_leaves m p = 0.
Proof.
  intros Hz. unfold used_leaves. transitivity (countp (fun _ : Z => false) (slots 128)); [|by vm_compute].
  apply countp_same. intros i Hi%elem_of_slots. by rewrite Hz by lia.
Qed.
Lemma used_ext f H m m' d q p : (forall i, 0 <= i < 128 -> m' (p + 32 * i) = m (p + 32 * i)) -> used f H m' d q p = used f H m d q p.
Proof. intros Hm. unfold used. destruct (S d <? H)%nat; [done|]. apply countp_same. intros i Hi%elem_of_slots. by rewrite Hm by lia. Qed.
Lemma used_upd f H m d0 q o d' q' p : (S d0 < H)%nat ->
  used (upd f (S d0) q o) H m d' q' p =
    used f H m d' q' p + if bool_decide ((d', q') = (d0, q / 512)) then Z.b2z (bool_decide (is_Some o)) - Z.b2z (bool_decide (is_Some (f (S d0) q))) else 0.
Proof.
  intros Hd. unfold used. destruct (Nat.ltb_spec (S d') H) as [Hl|Hl].
  - destruct (decide (d' = d0)) as [->|Hn].
    + rewrite (used_links_change f (upd f (S d0) q o) d0 q o).
      * f_equal. assert (Hi : q' = q / 512 <-> (d0, q') = (d0, q / 512)) by (split; congruence). by rewrite (bool_decide_ext _ _ Hi).
      * intros x. unfold upd. assert (Hi : (S d0, x) = (S d0, q) <-> x = q) by (split; congruence). by rewrite (bool_decide_ext _ _ Hi).
    + rewrite bool_decide_eq_false_2 by congruence. rewrite Z.add_0_r. unfold used_links. apply countp_same. intros i _.
      rewrite upd_other; [done|congruence].
  - rewrite bool_decide_eq_false_2; [lia|]. intros [=]. lia.
Qed.

(** an empty page is hung in at a free slot *)
Lemma tree_grow f H m m' a a' d0 q p : tree f H m a even -> (S d0 < H)%nat -> f (S d0) q = None -> is_Some (f d0 (q / 512)) ->
  heap_ok a' -> p ∉ owned a -> owned a' = {[p]} ∪ owned a ->
  (forall pp i, pp ∈ owned a -> 0 <= i < 128 -> m' (pp + 32 * i) = m (pp + 32 * i)) ->
  (H = S (S d0) -> forall i, 0 <= i < 128 -> m' (p + 32 * i) = pse_zero) -> 0 <= hgt H (S d0) < 8 ->
  let f' := upd f (S d0) q (Some (ps_entry_new p (hgt H (S d0)) 0)) in
  tree f' H m' a' (only d0 (q / 512) 1) /\ forall pgoff, mapped f' H m' pgoff = mapped f H m pgoff.
Proof.
  intros T Hd Hf Hpar Hok Hfresh Hown Hm Hz Hh f'. pose proof T as [T1 T2 T3 T4 T5 T6 T7].
  destruct (ph_ptr a' p Hok ltac:(set_solver)) as [Hc Hn]. set (e := ps_entry_new p (hgt H (S d0)) 0) in *.
  assert (He : ptr e = p) by (by apply link_ptr).
  assert (Hold : forall d' q' e', (d' < H)%nat -> f d' q' = Some e' -> ptr e' <> p /\ ptr e' ∈ owned a).
  { intros d' q' e' Hd' Hfe. destruct (tree_ptr _ _ _ _ _ _ _ _ T Hd' Hfe) as [Hi _]. split; [|done]. intros Eq. by rewrite Eq in Hi. }
  assert (Hla : forall pgoff, leaf_at f' H m' pgoff = leaf_at f H m pgoff \/ leaf_at f H m pgoff = None /\ leaf_at f' H m' pgoff = Some pse_zero).
  { intros pgoff. unfold leaf_at. destruct H as [|D]; [lia|]. assert (Hmod : 0 <= pgoff mod 128 < 128) by (apply Z.mod_pos_bound; lia). unfold f', upd. case_bool_decide as E.
    - right. injection E as -> ->. rewrite Hf, He. split; [reflexivity|]. f_equal. apply Hz; [reflexivity|exact Hmod].
    - left. destruct (f D (pgoff / 128)) as [e0|] eqn:E0; [|done]. destruct (Hold D _ e0 ltac:(lia) E0) as [_ Ho]. by rewrite Hm. }
  assert (Hmp : forall pgoff, mapped f' H m' pgoff = mapped f H m pgoff).
  { intros pgoff. unfold mapped. by destruct (Hla pgoff) as [-> | [-> ->]]. }
  split; [|done]. constructor; [done| | | | | |].
  - intros d' q' e' Hd' Hfe. destruct (upd_cases _ _ _ _ _ _ _ Hfe) as [[E Ee]|[E Ee]].
    + injection E as -> ->. injection Ee as <-. exists p, 0. split_and!; [done|set_solver|lia|lia|].
      unfold only. rewrite bool_decide_eq_false_2 by (intros [=]; lia). unfold f'. rewrite used_upd by done.
      rewrite bool_decide_eq_false_2 by (intros [=]; lia). unfold used. destruct (Nat.ltb_spec (S (S d0)) H) as [Hl|Hl].
      * assert (Hu : used_links f (S d0) q = 0); [|lia]. unfold used_links. transitivity (countp (fun _ : Z => false) (slots 512)); [|by vm_compute].
        apply countp_same. intros i Hi%elem_of_slots. by rewrite (fresh_no_child _ _ _ _ _ _ _ T Hl Hf) by lia.
      * rewrite zero_leaves; [lia|]. apply Hz. lia.
    + destruct (T2 d' q' e' Hd' Ee) as (p' & l & E1 & E2 & E3 & E4). exists p', l. split_and!; [done|set_solver|lia|lia|].
      unfold f'. rewrite used_upd by done. rewrite (used_ext f H m m' d' q' p') by (intros i Hi; by apply Hm). unfold only. unfold even in E4.
      case_bool_decide; [|lia]. rewrite Hf. rewrite bool_decide_eq_true_2 by (by eexists). rewrite bool_decide_eq_false_2 by (by intros [? ?]). cbn [Z.b2z]. lia.
  - intros q' e' [[E _]|[_ E]]%upd_cases; [done|by apply (T3 q' e')].
  - intros d' q' e' Hd' [[E _]|[_ E]]%upd_cases.
    + injection E as -> ->. unfold f', upd. by rewrite bool_decide_eq_false_2 by (intros [=]; lia).
    + destruct (T4 d' q' e' Hd' E) as [x Hx]. unfold f', upd. case_bool_decide; by eexists.
  - intros d1 d2 q1 q2 e1 e2 H1 H2 [[-> [= <-]]|[_ E1]]%upd_cases [[-> [= <-]]|[_ E2]]%upd_cases Eq; [done| | |].
    + rewrite He in Eq. destruct (Hold _ _ _ H2 E2). congruence.
    + rewrite He in Eq. destruct (Hold _ _ _ H1 E1). congruence.
    + by apply (T5 d1 d2 q1 q2 e1 e2).
  - intros pgoff x. destruct (Hla pgoff) as [-> | [_ ->]]; [apply T6|]. by intros [= <-].
  - intros pgoff x Hx Hp. rewrite Hmp in Hx. destruct (T7 pgoff x Hx Hp) as (D1 & D2 & D3). split_and!; [set_solver| |].
    + intros d' q' e' Hd' [[_ [= <-]]|[_ E]]%upd_cases; [rewrite He; by intros ->|by apply (D2 d' q' e')].
    + intros pgoff' x' Hx'. rewrite Hmp in Hx'. by apply D3.
Qed.

(** an empty page is taken out *)
Lemma tree_cut f H m a d0 q e : tree f H m a even -> (S d0 < H)%nat -> f (S d0) q = Some e -> used f H m (S d0) q (ptr e) = 0 ->
  tree (upd f (S d0) q None) H m (m_free a (ptr e)) (only d0 (q / 512) (- 1)) /\
  forall pgoff, mapped (upd f (S d0) q None) H m pgoff = mapped f H m pgoff.
Proof.
  intros T Hd Hf Hu. pose proof T as [T1 T2 T3 T4 T5 T6 T7]. set (f' := upd f (S d0) q None). set (p := ptr e) in *.
  destruct (ph_free a p T1) as [Hok Hown]. destruct (used_nodes_zero _ _ _ _ _ _ _ _ T Hu) as [Hkids Hleaf].
  assert (Hc : forall d' q' e', f' d' q' = Some e' -> (d', q') <> (S d0, q) /\ f d' q' = Some e') by (by intros d' q' e' [[_ [=]]|H0]%upd_cases).
  assert (Hla : forall pgoff, leaf_at f' H m pgoff = leaf_at f H m pgoff \/
    leaf_at f' H m pgoff = None /\ exists x, leaf_at f H m pgoff = Some x /\ pse_valid x = false).
  { intros pgoff. unfold leaf_at. destruct H as [|D]; [lia|]. unfold f', upd. case_bool_decide as E; [right|by left]. injection E as -> ->.
    rewrite Hf. split; [done|]. eexists. split; [done|]. fold p. apply Hleaf; [done|]. apply Z.mod_pos_bound. lia. }
  assert (Hmp : forall pgoff, mapped f' H m pgoff = mapped f H m pgoff).
  { intros pgoff. unfold mapped. destruct (Hla pgoff) as [-> | (-> & x & -> & ->)]; done. }
  split; [|done]. constructor; [done| | | | | |].
  - intros d' q' e' Hd' [Hne Ee]%Hc. destruct (T2 d' q' e' Hd' Ee) as (p' & l & E1 & E2 & E3 & E4). exists p', l.
    assert (p' <> p).
    { intros ->. apply Hne. apply (T5 d' (S d0) q' q e' e); [done|done|done|done|]. rewrite E1, link_ptr; [done|]. by apply (ph_ptr a). }
    split_and!; [done|set_solver|lia|lia|]. unfold f'. rewrite used_upd by done. rewrite Hf. unfold only. unfold even in E4.
    case_bool_decide; [|lia]. rewrite bool_decide_eq_false_2 by (by intros [? ?]). rewrite bool_decide_eq_true_2 by (by eexists). cbn [Z.b2z]. lia.
  - intros q' e' [_ Ee]%Hc. by apply (T3 q' e').
  - intros d' q' e' Hd' [_ Ee]%Hc. destruct (T4 d' q' e' Hd' Ee) as [x Hx]. unfold f', upd. case_bool_decide as E; [|by eexists].
    injection E as -> Eq. rewrite (Hkids q') in Ee by (done || lia). done.
  - intros d1 d2 q1 q2 e1 e2 H1 H2 [_ E1]%Hc [_ E2]%Hc. by apply T5.
  - intros pgoff x. destruct (Hla pgoff) as [-> | (-> & _)]; [apply T6|done].
  - intros pgoff x Hx Hp. rewrite Hmp in Hx. destruct (T7 pgoff x Hx Hp) as (D1 & D2 & D3). pose proof (D2 (S d0) q e Hd Hf). fold p in H0. split_and!; [set_solver| |].
    + intros d' q' e' Hd' [_ E]%Hc. by apply (D2 d' q' e').
    + intros pgoff' x' Hx'. rewrite Hmp in Hx'. by apply D3.
Qed.

(** *** One entry of a leaf page *)

Definition put (m : Z -> page_slice_entry) (a : Z) (x : page_slice_entry) : Z -> page_slice_entry := fun y => if y =? a then x else m y.
Definition addr_of (e pgoff : Z) : Z := ptr e + 32 * (pgoff mod 128).

Lemma page_apart f H m a sk d d' q q' e e' i j : tree f H m a sk -> (d < H)%nat -> (d' < H)%nat -> f d q = Some e -> f d' q' = Some e' ->
  0 <= i < 4096 -> 0 <= j < 4096 -> ptr e + i = ptr e' + j -> (d, q) = (d', q') /\ i = j.
Proof.
  intros T Hd Hd' E E' Hi Hj Eq. destruct (tree_ptr _ _ _ _ _ _ _ _ T Hd E) as [O1 _]. destruct (tree_ptr _ _ _ _ _ _ _ _ T Hd' E') as [O2 _].
  destruct (Z.eq_dec (ptr e) (ptr e')) as [Ep|Ep].
  - split; [by apply (tr_inj _ _ _ _ _ T d d' q q' e e')|lia].
  - pose proof (ph_apart a _ _ (tr_heap _ _ _ _ _ T) O1 O2 Ep). change PAGE_SIZE with 4096 in *. lia.
Qed.
Lemma leaf_at_put f D m a sk pgoff e x : tree f (S D) m a sk -> f D (pgoff / 128) = Some e ->
  forall pgoff', leaf_at f (S D) (put m (addr_of e pgoff) x) pgoff' = if pgoff' =? pgoff then Some x else leaf_at f (S D) m pgoff'.
Proof.
  intros T Hf pgoff'. unfold leaf_at, put, addr_of. destruct (Z.eqb_spec pgoff' pgoff) as [->|Hn]; [by rewrite Hf, Z.eqb_refl|].
  destruct (f D (pgoff' / 128)) as [e'|] eqn:E'; [|done]. rewrite (proj2 (Z.eqb_neq _ _)); [done|]. intros Eq.
  pose proof (Z.mod_pos_bound pgoff 128 ltac:(lia)). pose proof (Z.mod_pos_bound pgoff' 128 ltac:(lia)).
  destruct (page_apart f (S D) m a sk D D _ _ e' e (32 * (pgoff' mod 128)) (32 * (pgoff mod 128)) T ltac:(lia) ltac:(lia) E' Hf ltac:(lia) ltac:(lia) Eq) as [E1 E2].
  injection E1 as E1. apply Hn. dlia.
Qed.
Lemma used_put f D m a sk pgoff e x d' q' e' : tree f (S D) m a sk -> f D (pgoff / 128) = Some e -> (d' < S D)%nat -> f d' q' = Some e' ->
  used f (S D) (put m (addr_of e pgoff) x) d' q' (ptr e') = used f (S D) m d' q' (ptr e') +
    if bool_decide ((d', q') = (D, pgoff / 128)) then Z.b2z (pse_valid x) - Z.b2z (pse_valid (m (addr_of e pgoff))) else 0.
Proof.
  intros T Hf Hd' Hf'. unfold used. destruct (Nat.ltb_spec (S d') (S D)) as [Hl|Hl]; [rewrite bool_decide_eq_false_2; [lia|intros [=]; lia]|].
  assert (d' = D) as -> by lia. pose proof (Z.mod_pos_bound pgoff 128 ltac:(lia)). unfold used_leaves. case_bool_decide as E.
  - injection E as ->. assert (e' = e) as -> by congruence. unfold addr_of.
    rewrite (countp_point (fun i => pse_valid (m (ptr e + 32 * i))) _ (slots 128) (pgoff mod 128)).
    + cbn beta. unfold put at 1. rewrite Z.eqb_refl. lia.
    + apply slots_nodup.
    + apply elem_of_slots. lia.
    + intros i Hi%elem_of_slots Hne. unfold put. rewrite (proj2 (Z.eqb_neq _ _)) by lia. done.
  - rewrite Z.add_0_r. apply countp_same. intros i Hi%elem_of_slots. unfold put, addr_of. rewrite (proj2 (Z.eqb_neq _ _)); [done|]. intros Eq.
    destruct (page_apart f (S D) m a sk D D _ _ e' e (32 * i) (32 * (pgoff mod 128)) T ltac:(lia) ltac:(lia) Hf' Hf ltac:(lia) ltac:(lia) Eq) as [E1 _]. by apply E.
Qed.
Lemma mapped_put f D m a sk pgoff e x : tree f (S D) m a sk -> f D (pgoff / 128) = Some e ->
  forall pgoff', mapped f (S D) (put m (addr_of e pgoff) x) pgoff' = if pgoff' =? pgoff then (if pse_valid x then Some x else None) else mapped f (S D) m pgoff'.
Proof. intros T Hf pgoff'. unfold mapped. rewrite (leaf_at_put f D m a sk pgoff e x T Hf). by destruct (pgoff' =? pgoff). Qed.

(** an entry comes into use *)
Lemma tree_set f D m a pgoff e x : tree f (S D) m a even -> f D (pgoff / 128) = Some e -> pse_valid (m (addr_of e pgoff)) = false -> pse_valid x = true ->
  (pinned x = false -> kernel_virtual_address x ∈ owned a /\ (forall d q e, (d < S D)%nat -> f d q = Some e -> ptr e <> kernel_virtual_address x) /\
     forall pgoff' x', mapped f (S D) m pgoff' = Some x' -> pinned x' = false -> kernel_virtual_address x' <> kernel_virtual_address x) ->
  tree f (S D) (put m (addr_of e pgoff) x) a (only D (pgoff / 128) 1).
Proof.
  intros T Hf Hold Hx Hown. pose proof T as [T1 T2 T3 T4 T5 T6 T7]. constructor; [done| |done|done|done| |].
  - intros d' q' e' Hd' Ee. destruct (T2 d' q' e' Hd' Ee) as (p' & l & E1 & E2 & E3 & E4). exists p', l. split_and!; [done|done|lia|lia|].
    pose proof (used_put f D m a even pgoff e x d' q' e' T Hf Hd' Ee) as U. assert (Ep : ptr e' = p') by (rewrite E1, link_ptr; [done|]; by apply (ph_ptr a)).
    rewrite Ep in U. rewrite U, Hold, Hx. unfold only. unfold even in E4. cbn [Z.b2z]. case_bool_decide; lia.
  - intros pgoff' y. rewrite (leaf_at_put f D m a even pgoff e x T Hf). destruct (pgoff' =? pgoff); [intros [= <-]; by rewrite Hx|apply T6].
  - intros pgoff' y. rewrite (mapped_put f D m a even pgoff e x T Hf), Hx. destruct (Z.eqb_spec pgoff' pgoff) as [->|Hn].
    + intros [= <-] Hp. destruct (Hown Hp) as (D1 & D2 & D3). split_and!; [done|exact D2|]. intros pgoff2 x2.
      rewrite (mapped_put f D m a even pgoff e x T Hf), Hx. destruct (Z.eqb_spec pgoff2 pgoff); [done|]. intros Hx2 Hp2 Eq. by destruct (D3 pgoff2 x2 Hx2 Hp2).
    + intros Hy Hp. destruct (T7 pgoff' y Hy Hp) as (D1 & D2 & D3). split_and!; [done|exact D2|]. intros pgoff2 x2.
      rewrite (mapped_put f D m a even pgoff e x T Hf), Hx. destruct (Z.eqb_spec pgoff2 pgoff) as [->|Hn2]; [|apply D3].
      intros [= <-] Hp2 Eq. destruct (Hown Hp2) as (_ & _ & D3'). by destruct (D3' pgoff' y Hy Hp).
Qed.

(** an entry goes out of use, its page with it unless it is pinned *)
Lemma tree_clear f D m a pgoff e x : tree f (S D) m a even -> f D (pgoff / 128) = Some e -> m (addr_of e pgoff) = x -> pse_valid x = true ->
  tree f (S D) (put m (addr_of e pgoff) (mk_pse 0 0 false)) (if pinned x then a else m_free a (kernel_virtual_address x)) (only D (pgoff / 128) (- 1)).
Proof.
  intros T Hf Hold Hx. pose proof T as [T1 T2 T3 T4 T5 T6 T7]. set (x' := mk_pse 0 0 false). set (a' := if pinned x then a else m_free a (kernel_virtual_address x)).
  assert (Hm : mapped f (S D) m pgoff = Some x) by (unfold mapped, leaf_at; rewrite Hf; fold (addr_of e pgoff); rewrite Hold; by rewrite Hx).
  assert (Ha : heap_ok a' /\ forall p, p ∈ owned a -> pinned x = true \/ p <> kernel_virtual_address x -> p ∈ owned a').
  { unfold a'. destruct (pinned x); [done|]. destruct (ph_free a (kernel_virtual_address x) T1) as [Hk Eo]. split; [exact Hk|]. intros p Hp [?|?]; [done|]. set_solver. }
  destruct Ha as [Hok Ha]. constructor; [done| |done|done|done| |].
  - intros d' q' e' Hd' Ee. destruct (T2 d' q' e' Hd' Ee) as (p' & l & E1 & E2 & E3 & E4). assert (Ep : ptr e' = p') by (rewrite E1, link_ptr; [done|]; by apply (ph_ptr a)).
    exists p', l. split_and!; [done| |lia|lia|].
    + apply Ha; [done|]. destruct (pinned x) eqn:Epx; [by left|]. right. rewrite <- Ep. by apply (T7 pgoff x Hm Epx) with d' q'.
    + pose proof (used_put f D m a even pgoff e x' d' q' e' T Hf Hd' Ee) as U. rewrite Ep, Hold, Hx in U. rewrite U. unfold only. unfold even in E4.
      change (pse_valid x') with false. cbn [Z.b2z]. case_bool_decide; lia.
  - intros pgoff' y. rewrite (leaf_at_put f D m a even pgoff e x' T Hf). destruct (pgoff' =? pgoff); [by intros [= <-]|apply T6].
  - intros pgoff' y. rewrite (mapped_put f D m a even pgoff e x' T Hf). destruct (Z.eqb_spec pgoff' pgoff) as [->|Hn]; [done|].
    intros Hy Hp. destruct (T7 pgoff' y Hy Hp) as (D1 & D2 & D3). split_and!; [|exact D2|].
    + apply Ha; [done|]. destruct (pinned x) eqn:Epx; [by left|]. right. intros Eq. apply Hn. symmetry. by apply (D3 pgoff x).
    + intros pgoff2 x2. rewrite (mapped_put f D m a even pgoff e x' T Hf). destruct (Z.eqb_spec pgoff2 pgoff) as [->|Hn2]; [done|]. apply D3.
Qed.
End Inv.
