(* ===== verification/PageSliceLinks.v ===== *)
(** * The links of a page slice in memory

    The slice's own view of its tree: links read from [words], where each one
    is stored ([loc]), and the effect on the tree of the stores the code makes:
    rewriting a link, counting up and down, hanging in a fresh page. *)
From S2P Require Import Prelude Mm TaggedPtr Allocator PageSlice PageSliceTree.

Section Ok.
Context {A : Type} {HA : Allocator A} {HP : PageHeap A}.
Implicit Types (s : page_slice A).
Notation ptr e := (ps_entry_get_ptr e).

Definition links s : nat -> Z -> option Z := lk (words s) (root s).
Record ok_with (sk : nat -> Z -> Z) s (H : nat) : Prop := {
  ok_height : (H <= 4)%nat;
  ok_empty : root s = 0 <-> H = 0%nat;
  ok_tree : tree (links s) H (leaves s) (heap s) sk
}.
Notation ok := (ok_with even).
(** what the slice maps: page offsets to pages *)
Definition view s (H : nat) (pgoff : Z) : option page_slice_entry := mapped (links s) H (leaves s) pgoff.

Lemma links_root s : root s <> 0 -> links s 0 0 = Some (root s).
Proof. intros Hr. unfold links, lk. by rewrite (proj2 (Z.eqb_neq _ 0) Hr). Qed.
Lemma links_root_none s q : root s = 0 -> links s 0 q = None.
Proof. intros Hr. unfold links, lk. rewrite Hr. by rewrite andb_false_r. Qed.
Lemma links_S s d q : links s (S d) q = child (words s) (links s d (q / 512)) (q mod 512).
Proof. done. Qed.

Lemma ok_root sk s H : ok_with sk s H -> (0 < H)%nat -> exists p l, root s = ps_entry_new p (Z.of_nat H) l /\ canonical p /\ p <> 0 /\ 0 <= l <= 512 /\
  l = used (links s) H (leaves s) 0 0 p - sk 0%nat 0 /\ p ∈ owned (heap s).
Proof.
  intros [Hh He Ht] HH. assert (Hr : root s <> 0) by (intros Hz; apply He in Hz; lia).
  destruct (tr_link _ _ _ _ _ Ht 0%nat 0 _ HH (links_root s Hr)) as (p & l & E & Hp & Hl & Hu). destruct (ph_ptr _ p (tr_heap _ _ _ _ _ Ht) Hp).
  exists p, l. split_and!; (done || lia).
Qed.
Lemma ok_stored sk s H : ok_with sk s H -> page_slice_stored_height s = Z.of_nat H.
Proof.
  intros O. unfold page_slice_stored_height, ps_entry_is_none, tp_is_none. destruct (decide (H = 0%nat)) as [->|Hn].
  - by rewrite (proj2 (ok_empty _ _ _ O) eq_refl).
  - destruct (ok_root sk s H O ltac:(lia)) as (p & l & E & _ & _ & Hl & _). pose proof (ok_height _ _ _ O).
    rewrite (proj2 (Z.eqb_neq (root s) 0)) by (intros Hz; by apply (ok_empty _ _ _ O) in Hz). rewrite E, link_height by lia. done.
Qed.
Lemma ok_root_empty sk s H : ok_with sk s H -> page_slice_root_empty s = (H =? 0)%nat.
Proof.
  intros O. unfold page_slice_root_empty. rewrite (ok_stored sk s H O). unfold ps_entry_is_none, tp_is_none. change PS_HEIGHT_EMPTY with 0.
  destruct (Nat.eqb_spec H 0) as [->|Hn]; [by rewrite (proj2 (ok_empty _ _ _ O) eq_refl)|].
  rewrite (proj2 (Z.eqb_neq (root s) 0)) by (intros Hz; by apply (ok_empty _ _ _ O) in Hz). cbn [orb]. apply Z.eqb_neq. lia.
Qed.
Lemma ok_is_leaf sk s H : ok_with sk s H -> page_slice_root_is_leaf s = (H =? 1)%nat.
Proof. intros O. unfold page_slice_root_is_leaf. rewrite (ok_stored sk s H O). change PS_HEIGHT_LEAF with 1. apply eq_true_iff_eq. rewrite Z.eqb_eq, Nat.eqb_eq. lia. Qed.
Lemma ok_is_index sk s H : ok_with sk s H -> page_slice_root_is_index s = (2 <=? H)%nat.
Proof.
  intros O. unfold page_slice_root_is_index. rewrite (ok_root_empty sk s H O), (ok_stored sk s H O). pose proof (ok_height _ _ _ O).
  change PS_HEIGHT_INDEX1 with 2. change PS_HEIGHT_INDEX3 with 4. destruct (Nat.eqb_spec H 0) as [->|]; [done|].
  apply eq_true_iff_eq. rewrite andb_true_iff, !Z.leb_le, Nat.leb_le. lia.
Qed.
Lemma ok_live sk s H : ok_with sk s H -> (0 < H)%nat -> page_slice_root_live s = ps_entry_get_live (root s).
Proof. intros O HH. unfold page_slice_root_live. rewrite (ok_root_empty sk s H O). destruct (Nat.eqb_spec H 0); [lia|done]. Qed.

(** ** Where links are stored *)

Definition loc s (d : nat) (q : Z) : eloc :=
  match d with O => LRoot | S d0 => match links s d0 (q / 512) with Some pe => LSlot (slot (ptr pe) (q mod 512)) | None => LRoot end end.
Lemma get_loc s d q e : links s d q = Some e -> get_entry (loc s d q) s = e.
Proof.
  destruct d as [|d]; cbn [loc].
  - unfold links, lk. destruct (q =? 0), (Z.eqb_spec (root s) 0); cbn [andb negb]; intros [=]. done.
  - rewrite links_S. destruct (links s d (q / 512)) as [pe|]; [|done]. cbn [child get_entry]. cbv zeta. destruct (_ =? 0); [done|]. by intros [=].
Qed.

(** one slot of an index page is written *)
Lemma links_slot s H sk d0 q pe x : tree (links s) H (leaves s) (heap s) sk -> (S d0 < H)%nat -> links s d0 (q / 512) = Some pe ->
  let o' := if x =? 0 then None else Some x in
  (forall i, (S (S d0) < H)%nat -> 0 <= i < 512 -> child (words s) o' i = child (words s) (links s (S d0) q) i) ->
  (forall i, (S (S d0) < H)%nat -> 0 <= i < 512 -> x <> 0 -> slot (ptr x) i <> slot (ptr pe) (q mod 512)) ->
  forall d' q', (d' < H)%nat -> links (put_entry (LSlot (slot (ptr pe) (q mod 512))) x s) d' q' = upd (links s) (S d0) q o' d' q'.
Proof.
  intros T Hd Hpe o' Hkids Hap d' q' Hd'. set (a := slot (ptr pe) (q mod 512)). assert (Hm : 0 <= q mod 512 < 512) by (apply Z.mod_pos_bound; lia).
  unfold links, upd. cbn [put_entry set_words words root]. set (w' := fun y => if y =? a then x else words s y).
  apply (lk_change (words s) w' (root s) (root s) H (S d0) q o'); [|intros d1 x1 i H1 Hi Hne Hne2|intros i H1 Hi|done].
  - split; [done|]. fold (links s d0 (q / 512)). rewrite Hpe. cbn [child]. cbv zeta. fold a. unfold w'. by rewrite Z.eqb_refl.
  - fold (links s d1 x1). destruct (links s d1 x1) as [e1|] eqn:E1; [|done]. cbn [child]. unfold w'.
    rewrite (proj2 (Z.eqb_neq _ a)); [done|]. unfold a, slot. intros Eq.
    destruct (page_apart (links s) H (leaves s) (heap s) sk d1 d0 x1 (q / 512) e1 pe (8 * i) (8 * (q mod 512)) T ltac:(lia) ltac:(lia) E1 Hpe ltac:(lia) ltac:(lia) Eq) as [E2 E3].
    injection E2 as -> ->. apply Hne. f_equal. dlia.
  - fold (links s (S d0) q). rewrite <- Hkids by done. unfold o'. destruct (Z.eqb_spec x 0) as [|Hx]; [done|]. cbn [child]. unfold w'.
    rewrite (proj2 (Z.eqb_neq _ a)); [done|]. by apply Hap.
Qed.
Lemma links_put_root s x : forall d' q', ptr x = ptr (root s) -> x <> 0 -> root s <> 0 -> links (put_entry LRoot x s) d' q' = upd (links s) 0 0 (Some x) d' q'.
Proof.
  intros d' q' Hp Hx Hr. unfold links, upd. cbn [put_entry set_root words root].
  apply (lk_change (words s) (words s) (root s) x (S d') 0 0 (Some x)); [split; [done|]; by rewrite (proj2 (Z.eqb_neq x 0) Hx)|done| |lia].
  intros i _ _. cbn [lk Z.eqb andb]. rewrite (proj2 (Z.eqb_neq (root s) 0) Hr). cbn [negb child]. by rewrite Hp.
Qed.

(** a link is rewritten in place *)
Lemma links_relink sk s H d q e x : ok_with sk s H -> (d < H)%nat -> links s d q = Some e -> ptr x = ptr e -> x <> 0 ->
  forall d' q', (d' < H)%nat -> links (put_entry (loc s d q) x s) d' q' = upd (links s) d q (Some x) d' q'.
Proof.
  intros O Hd He Hp Hx d' q' Hd'. pose proof (ok_tree _ _ _ O) as T. destruct d as [|d0].
  - assert (q = 0) as -> by (by apply (tr_root _ _ _ _ _ T q e)). cbn [loc]. assert (Hr : root s <> 0) by (intros Hz; apply (ok_empty _ _ _ O) in Hz; lia).
    apply links_put_root; [|done|done]. rewrite links_root in He by done. congruence.
  - cbn [loc]. destruct (tr_up _ _ _ _ _ T d0 q e Hd He) as [pe Hpe]. rewrite Hpe.
    rewrite (links_slot s H sk d0 q pe x T Hd Hpe); [by rewrite (proj2 (Z.eqb_neq x 0) Hx)| | |done].
    + intros i _ _. rewrite (proj2 (Z.eqb_neq x 0) Hx), He. cbn [child]. by rewrite Hp.
    + intros i _ Hi _ Eq. rewrite Hp in Eq. unfold slot in Eq. pose proof (Z.mod_pos_bound q 512 ltac:(lia)).
      destruct (page_apart _ H _ _ sk (S d0) d0 q (q / 512) e pe (8 * i) (8 * (q mod 512)) T Hd ltac:(lia) He Hpe ltac:(lia) ltac:(lia) Eq) as [[=] _]. lia.
Qed.

(** ** Counting *)

(** nothing but counts differs *)
Record recount s s' (H : nat) : Prop := {
  rc_links : forall d q, (d < H)%nat -> (fun e => ptr e) <$> links s' d q = (fun e => ptr e) <$> links s d q;
  rc_leaves : leaves s' = leaves s;
  rc_heap : heap s' = heap s;
  rc_size : size s' = size s /\ mapped_entries s' = mapped_entries s;
  rc_view : forall pgoff, view s' H pgoff = view s H pgoff
}.
Lemma hgt_range H d : (d < H <= 4)%nat -> 1 <= hgt H d < 8.
Proof. intros Hd. destruct d; unfold hgt; lia. Qed.
Lemma used_range f H m d q p : 0 <= used f H m d q p <= (if (S d <? H)%nat then 512 else 128).
Proof.
  unfold used, used_links, used_leaves. destruct (S d <? H)%nat.
  - pose proof (countp_range (fun i => bool_decide (is_Some (f (S d) (512 * q + i)))) (slots 512)) as R. rewrite slots_length in R. lia.
  - pose proof (countp_range (fun i => pse_valid (m (p + 32 * i))) (slots 128)) as R. rewrite slots_length in R. lia.
Qed.

Lemma set_count_ok s H d q p l k : ok_with (only d q k) s H -> (d < H)%nat -> links s d q = Some (ps_entry_new p (hgt H d) l) -> canonical p ->
  0 <= l <= 512 -> 0 <= l + k <= 512 ->
  let s' := put_entry (loc s d q) (ps_entry_new p (hgt H d) (l + k)) s in
  ok s' H /\ recount s s' H.
Proof.
  intros O Hd He Hp Hl Hk s'. pose proof (ok_height _ _ _ O) as Hh. pose proof (hgt_range H d ltac:(lia)) as Hhd.
  set (x := ps_entry_new p (hgt H d) (l + k)). assert (Hx : x <> 0) by (apply link_some; lia).
  assert (Hpx : ptr x = ptr (ps_entry_new p (hgt H d) l)) by (unfold x; by rewrite !link_ptr).
  pose proof (links_relink _ s H d q _ x O Hd He Hpx Hx) as HLk. fold s' in HLk.
  destruct (tree_catch (links s) H (leaves s) (heap s) d q p l k (ok_tree _ _ _ O) Hd He Hp ltac:(lia) Hl Hk) as [Tc Mc]. fold x in Tc, Mc.
  assert (Hs : leaves s' = leaves s /\ heap s' = heap s /\ size s' = size s /\ mapped_entries s' = mapped_entries s) by (unfold s'; by destruct (loc s d q)).
  destruct Hs as (S1 & S2 & S3 & S4).
  assert (Hv : forall pgoff, view s' H pgoff = view s H pgoff).
  { intros pgoff. unfold view. rewrite S1, <- Mc. unfold mapped, leaf_at. destruct H as [|D]; [lia|]. by rewrite HLk by lia. }
  split.
  - constructor; [done| |].
    + split; [|lia]. intros Hz. exfalso. assert (Hr0 : root s <> 0) by (intros Hr; apply (ok_empty _ _ _ O) in Hr; lia). unfold s' in Hz. destruct d as [|d0]; [done|].
      cbn [loc] in Hz. destruct (links s d0 (q / 512)); done.
    + rewrite S1, S2. apply (tree_ext (upd (links s) d q (Some x)) _ _ _ _ even even); [exact HLk|done|lia|done].
  - constructor; [|done|done|done|done]. intros d' q' Hd'. rewrite HLk by done. unfold upd. case_bool_decide as E; [|done].
    injection E as -> ->. rewrite He. cbn [fmap option_fmap option_map]. by rewrite Hpx.
Qed.

Lemma link_parts sk s H d q e : ok_with sk s H -> (d < H)%nat -> links s d q = Some e ->
  exists l, e = ps_entry_new (ptr e) (hgt H d) l /\ canonical (ptr e) /\ ptr e <> 0 /\ 0 <= l <= 512 /\
    l = used (links s) H (leaves s) d q (ptr e) - sk d q /\ ps_entry_get_live e = l /\ ps_entry_get_height e = hgt H d.
Proof.
  intros O Hd He. destruct (tr_link _ _ _ _ _ (ok_tree _ _ _ O) d q e Hd He) as (p & l & E1 & E2 & E3 & E4). exists l.
  destruct (ph_ptr _ p (tr_heap _ _ _ _ _ (ok_tree _ _ _ O)) E2) as [C1 C2]. assert (Ep : ptr e = p) by (by rewrite E1, link_ptr).
  pose proof (ok_height _ _ _ O). pose proof (hgt_range H d ltac:(lia)). rewrite Ep. split_and!; try done; try lia.
  - rewrite E1, link_live by lia. done.
  - rewrite E1, link_height by lia. done.
Qed.
Lemma cap_of s H d q : (d < H <= 4)%nat ->
  ps_entry_live_max_table (is_root (loc s d q)) (hgt H d) = (if (S d <? H)%nat then 512 else 128) \/ exists d0, d = S d0 /\ links s d0 (q / 512) = None.
Proof.
  intros Hd. destruct d as [|d0]; cbn [loc].
  - left. assert (Hc : H = 1%nat \/ H = 2%nat \/ H = 3%nat \/ H = 4%nat) by lia. by destruct Hc as [-> | [-> | [-> | ->]]].
  - destruct (links s d0 (q / 512)) as [pe|] eqn:E; [left|right; by exists d0].
    assert (Hc : H = 2%nat \/ H = 3%nat \/ H = 4%nat) by lia. cbn [is_root]. destruct Hc as [-> | [-> | ->]].
    + assert (d0 = 0%nat) as -> by lia. done.
    + assert (Hc2 : d0 = 0%nat \/ d0 = 1%nat) by lia. by destruct Hc2 as [-> | ->].
    + assert (Hc2 : d0 = 0%nat \/ d0 = 1%nat \/ d0 = 2%nat) by lia. by destruct Hc2 as [-> | [-> | ->]].
Qed.

Lemma live_inc_ok s H d q e : ok_with (only d q 1) s H -> (d < H)%nat -> links s d q = Some e ->
  let s' := ps_entry_live_inc (loc s d q) s in ok s' H /\ recount s s' H.
Proof.
  intros O Hd He s'. destruct (link_parts _ s H d q e O Hd He) as (l & E1 & C1 & C2 & E3 & E4 & E5 & E6). pose proof (ok_height _ _ _ O) as Hh.
  pose proof (used_range (links s) H (leaves s) d q (ptr e)) as Hu. unfold only in E4. rewrite bool_decide_eq_true_2 in E4 by done.
  pose proof (hgt_range H d ltac:(lia)) as Hhd. unfold s', ps_entry_live_inc. rewrite (get_loc s d q e He), E5, E6.
  destruct (cap_of s H d q ltac:(lia)) as [-> | (d0 & -> & En)].
  - rewrite (proj2 (Z.ltb_lt l _)) by lia. rewrite u16_small by (destruct (S d <? H)%nat; lia). rewrite E1, link_set_live by (done || lia || (destruct (S d <? H)%nat; lia)).
    apply set_count_ok; [done|done|by rewrite <- E1|done|lia|destruct (S d <? H)%nat; lia].
  - destruct (tr_up _ _ _ _ _ (ok_tree _ _ _ O) d0 q e Hd He) as [x Hx]. congruence.
Qed.
Lemma live_dec_ok s H d q e : ok_with (only d q (- 1)) s H -> (d < H)%nat -> links s d q = Some e ->
  let s' := ps_entry_live_dec (loc s d q) s in ok s' H /\ recount s s' H.
Proof.
  intros O Hd He s'. destruct (link_parts _ s H d q e O Hd He) as (l & E1 & C1 & C2 & E3 & E4 & E5 & E6). pose proof (ok_height _ _ _ O) as Hh.
  pose proof (used_range (links s) H (leaves s) d q (ptr e)) as Hu. unfold only in E4. rewrite bool_decide_eq_true_2 in E4 by done.
  pose proof (hgt_range H d ltac:(lia)) as Hhd. unfold s', ps_entry_live_dec. rewrite (get_loc s d q e He), E5.
  rewrite (proj2 (Z.ltb_lt 0 l)) by lia. rewrite u16_small by lia. rewrite E1, link_set_live by (done || lia).
  apply set_count_ok; [done|done|by rewrite <- E1|done|lia|lia].
Qed.

(** ** Hanging in a fresh page *)

Lemma lk_ext w w' r H : (forall d x e i, (S d < H)%nat -> lk w r d x = Some e -> 0 <= i < 512 -> w' (slot (ptr e) i) = w (slot (ptr e) i)) ->
  forall d q, (d < H)%nat -> lk w' r d q = lk w r d q.
Proof.
  intros Hw d. induction d as [|d IH]; intros q Hd; [done|]. cbn [lk]. rewrite IH by lia. destruct (lk w r d (q / 512)) as [e|] eqn:E; [|done].
  cbn [child]. rewrite (Hw d (q / 512) e); [done|done|done|]. apply Z.mod_pos_bound. lia.
Qed.
Lemma tree_mono f H m m' a a' sk : tree f H m a sk -> heap_ok a' -> owned a ⊆ owned a' ->
  (forall pp i, pp ∈ owned a -> 0 <= i < 128 -> m' (pp + 32 * i) = m (pp + 32 * i)) ->
  tree f H m' a' sk /\ forall pgoff, mapped f H m' pgoff = mapped f H m pgoff.
Proof.
  intros T Hok Hsub Hm. pose proof T as [T1 T2 T3 T4 T5 T6 T7].
  assert (Hl : forall pgoff, leaf_at f H m' pgoff = leaf_at f H m pgoff).
  { intros pgoff. unfold leaf_at. destruct H as [|D]; [done|]. destruct (f D (pgoff / 128)) as [e|] eqn:E; [|done].
    destruct (tree_ptr _ _ _ _ _ _ _ _ T (Nat.lt_succ_diag_r D) E) as [Ho _]. rewrite Hm; [done|done|]. apply Z.mod_pos_bound. lia. }
  assert (Hmp : forall pgoff, mapped f H m' pgoff = mapped f H m pgoff) by (intros pgoff; unfold mapped; by rewrite Hl).
  split; [|done]. constructor; [done| |done|done|done| |].
  - intros d q e Hd He. destruct (T2 d q e Hd He) as (p & l & E1 & E2 & E3 & E4). exists p, l. split_and!; [done|by apply Hsub|lia|lia|].
    rewrite (used_ext f H m m'); [done|]. intros i Hi. by apply Hm.
  - intros pgoff x. rewrite Hl. apply T6.
  - intros pgoff x Hx Hp. rewrite Hmp in Hx. destruct (T7 pgoff x Hx Hp) as (D1 & D2 & D3). split_and!; [by apply Hsub|done|].
    intros pgoff' x' Hx'. rewrite Hmp in Hx'. by apply D3.
Qed.

(** [s1] is [s] after a page was taken from the heap, zeroed *)
Record fresh_page s s1 (p : Z) (index leaf : bool) : Prop := {
  fp_root : root s1 = root s;
  fp_size : size s1 = size s /\ mapped_entries s1 = mapped_entries s;
  fp_heap : heap_ok (heap s1);
  fp_new : p ∉ owned (heap s) /\ owned (heap s1) = {[p]} ∪ owned (heap s);
  fp_words : forall a, in_page p a = false -> words s1 a = words s a;
  fp_leaves : forall a, in_page p a = false -> leaves s1 a = leaves s a;
  fp_index : index = true -> forall a, in_page p a = true -> words s1 a = 0;
  fp_leaf : leaf = true -> forall a, in_page p a = true -> leaves s1 a = pse_zero
}.
(** or the heap had none *)
Record no_page s s1 : Prop := {
  np_same : root s1 = root s /\ size s1 = size s /\ mapped_entries s1 = mapped_entries s /\ words s1 = words s /\ leaves s1 = leaves s;
  np_heap : heap_ok (heap s1) /\ owned (heap s1) = owned (heap s)
}.
Lemma alloc_index_cases s p s1 : heap_ok (heap s) -> alloc_index_page s = (p, s1) -> p = 0 /\ no_page s s1 \/ p <> 0 /\ fresh_page s s1 p true false.
Proof.
  intros Hok. unfold alloc_index_page. destruct (m_alloc (heap s) PAGE_SIZE) as [p0 h] eqn:E. destruct (ph_alloc _ _ _ Hok E) as [Hok' Hc]. intros [= -> <-].
  destruct (Z.eqb_spec p 0) as [->|Hn]; [left|right]; (split; [done|]).
  - destruct Hc as [[_ Ho]|[Hc _]]; [|done]. by constructor.
  - destruct Hc as [[Hc _]|(_ & Ho1 & Ho2)]; [done|]. constructor; cbn; try done; first [intros a Ha; by rewrite Ha|intros _ a Ha; by rewrite Ha].
Qed.
Lemma alloc_leaf_cases s p s1 : heap_ok (heap s) -> ps_alloc_leaf_page s = (p, s1) -> p = 0 /\ no_page s s1 \/ p <> 0 /\ fresh_page s s1 p false true.
Proof.
  intros Hok. unfold ps_alloc_leaf_page. destruct (m_alloc (heap s) PAGE_SIZE) as [p0 h] eqn:E. destruct (ph_alloc _ _ _ Hok E) as [Hok' Hc]. intros [= -> <-].
  destruct (Z.eqb_spec p 0) as [->|Hn]; [left|right]; (split; [done|]).
  - destruct Hc as [[_ Ho]|[Hc _]]; [|done]. by constructor.
  - destruct Hc as [[Hc _]|(_ & Ho1 & Ho2)]; [done|]. constructor; cbn; try done; first [intros a Ha; by rewrite Ha|intros _ a Ha; by rewrite Ha].
Qed.

Lemma no_page_ok s s1 H : ok s H -> no_page s s1 -> ok s1 H /\ forall pgoff, view s1 H pgoff = view s H pgoff.
Proof.
  intros [O1 O2 O3] [(E1 & E2 & E3 & E4 & E5) [E6 E7]].
  assert (El : links s1 = links s) by (unfold links; by rewrite E1, E4).
  assert (Hsub : owned (heap s) ⊆ owned (heap s1)) by (by rewrite E7).
  destruct (tree_mono (links s) H (leaves s) (leaves s1) (heap s) (heap s1) even O3 E6 Hsub) as [T M]; [by rewrite E5|].
  split; [|intros pgoff; unfold view; by rewrite El, M]. constructor; [done|by rewrite E1|by rewrite El].
Qed.
Lemma off_page a (h : A) p p' i n : heap_ok a -> p' ∈ owned a -> p ∉ owned a -> heap_ok h -> owned h = {[p]} ∪ owned a -> 0 <= i -> i + n <= 4096 -> 0 < n -> in_page p (p' + i) = false.
Proof.
  intros Hok Hp' Hp Hh Ho Hi Hn Hn0. assert (Hne : p <> p') by (by intros ->).
  pose proof (ph_apart h p p' Hh ltac:(set_solver) ltac:(set_solver) Hne) as Hap. unfold in_page. change PAGE_SIZE with 4096 in *.
  destruct (Z.leb_spec p (p' + i)), (Z.ltb_spec (p' + i) (p + 4096)); cbn [andb]; (done || lia).
Qed.
Lemma fresh_links s s1 H p ix lf : ok s H -> fresh_page s s1 p ix lf -> forall d q, (d < H)%nat -> links s1 d q = links s d q.
Proof.
  intros O F d q Hd. unfold links. rewrite (fp_root _ _ _ _ _ F). apply (lk_ext (words s) (words s1) (root s) H); [|done].
  intros d1 x e i Hd1 He Hi. apply (fp_words _ _ _ _ _ F). destruct (fp_new _ _ _ _ _ F) as [N1 N2].
  destruct (tree_ptr _ H _ _ _ d1 x e (ok_tree _ _ _ O) ltac:(lia) He) as [Ho _].
  apply (off_page (heap s) (heap s1) p (ptr e) (8 * i) 8); try done; try lia; [apply (tr_heap _ _ _ _ _ (ok_tree _ _ _ O))|apply (fp_heap _ _ _ _ _ F)].
Qed.
Lemma fresh_leaves s s1 p ix lf : heap_ok (heap s) -> fresh_page s s1 p ix lf -> forall pp i, pp ∈ owned (heap s) -> 0 <= i < 128 -> leaves s1 (pp + 32 * i) = leaves s (pp + 32 * i).
Proof.
  intros Hok F pp i Hpp Hi. apply (fp_leaves _ _ _ _ _ F). destruct (fp_new _ _ _ _ _ F) as [N1 N2].
  apply (off_page (heap s) (heap s1) p pp (32 * i) 32); try done; try lia. apply (fp_heap _ _ _ _ _ F).
Qed.

Definition ptrs s (d : nat) (q : Z) : option Z := (fun e => ptr e) <$> links s d q.
Lemma loc_ptrs s s' d q : (forall d0 x, (S d0 = d)%nat -> ptrs s' d0 x = ptrs s d0 x) -> loc s' d q = loc s d q.
Proof.
  intros Hp. destruct d as [|d0]; [done|]. cbn [loc]. specialize (Hp d0 (q / 512) eq_refl). unfold ptrs in Hp.
  destruct (links s' d0 (q / 512)), (links s d0 (q / 512)); cbn in Hp; try done. by injection Hp as ->.
Qed.

Lemma hang_ok s s1 H d0 q pe p ix lf : ok s H -> (S d0 < H)%nat -> links s d0 (q / 512) = Some pe -> links s (S d0) q = None ->
  fresh_page s s1 p ix lf -> ((S (S d0) < H)%nat -> ix = true) -> (H = S (S d0) -> lf = true) ->
  let s2 := ps_entry_live_inc (loc s d0 (q / 512)) (put_entry (loc s (S d0) q) (ps_entry_new p (hgt H (S d0)) 0) s1) in
  ok s2 H /\ (forall pgoff, view s2 H pgoff = view s H pgoff) /\
  (forall d q', (d < H)%nat -> ptrs s2 d q' = if bool_decide ((d, q') = (S d0, q)) then Some p else ptrs s d q') /\
  size s2 = size s /\ mapped_entries s2 = mapped_entries s /\ heap s2 = heap s1 /\ leaves s2 = leaves s1.
Proof.
  intros O Hd Hpe Hnone F Hix Hlf. pose proof (ok_tree _ _ _ O) as T. pose proof (ok_height _ _ _ O) as Hh. pose proof (hgt_range H (S d0) ltac:(lia)) as Hhd.
  set (x := ps_entry_new p (hgt H (S d0)) 0). destruct (fp_new _ _ _ _ _ F) as [N1 N2]. pose proof (fp_heap _ _ _ _ _ F) as Hok1.
  destruct (ph_ptr (heap s1) p Hok1 ltac:(set_solver)) as [Cp Np]. assert (Px : ptr x = p) by (by apply link_ptr). assert (Hx : x <> 0) by (apply link_some; lia).
  pose proof (fresh_links s s1 H p ix lf O F) as HL1. pose proof (fresh_leaves s s1 p ix lf (tr_heap _ _ _ _ _ T) F) as Hlv.
  assert (Hin : forall i n, 0 <= i -> i + n <= 4096 -> 0 < n -> in_page p (p + i) = true).
  { intros i n Hi Hn Hn0. unfold in_page. change PAGE_SIZE with 4096. apply andb_true_iff. split; [apply Z.leb_le|apply Z.ltb_lt]; lia. }
  assert (Hzl : H = S (S d0) -> forall i, 0 <= i < 128 -> leaves s1 (p + 32 * i) = pse_zero).
  { intros EH i Hi. apply (fp_leaf _ _ _ _ _ F); [by apply Hlf|]. apply (Hin (32 * i) 32); lia. }
  destruct (tree_grow (links s) H (leaves s) (leaves s1) (heap s) (heap s1) d0 q p T Hd Hnone ltac:(by eexists) Hok1 N1 N2 Hlv Hzl ltac:(lia)) as [Tg Mg]. fold x in Tg, Mg.
  set (s' := put_entry (loc s (S d0) q) x s1). assert (Hlc : loc s (S d0) q = LSlot (slot (ptr pe) (q mod 512))) by (cbn [loc]; by rewrite Hpe).
  assert (Hf : root s' = root s /\ leaves s' = leaves s1 /\ heap s' = heap s1 /\ size s' = size s /\ mapped_entries s' = mapped_entries s).
  { unfold s'. rewrite Hlc. cbn. destruct (fp_size _ _ _ _ _ F). by rewrite (fp_root _ _ _ _ _ F). }
  destruct Hf as (R1 & R2 & R3 & R4 & R5).
  assert (T1 : tree (links s1) H (leaves s1) (heap s1) even).
  { destruct (tree_mono (links s) H (leaves s) (leaves s1) (heap s) (heap s1) even T Hok1 ltac:(set_solver) Hlv) as [T1 _].
    by apply (tree_ext (links s) _ _ _ _ even even); [| |lia|]. }
  assert (HL : forall d q', (d < H)%nat -> links s' d q' = upd (links s) (S d0) q (Some x) d q').
  { intros d q' Hd'. unfold s'. rewrite Hlc. rewrite (links_slot s1 H even d0 q pe x T1 Hd); [| | | |done].
    - rewrite (proj2 (Z.eqb_neq x 0) Hx). unfold upd. by rewrite HL1.
    - by rewrite HL1 by lia.
    - intros i Hi Hi2. rewrite (proj2 (Z.eqb_neq x 0) Hx). rewrite HL1, Hnone by lia. cbn [child]. rewrite Px. unfold slot.
      rewrite (fp_index _ _ _ _ _ F); [done|by apply Hix|]. apply (Hin (8 * i) 8); lia.
    - intros i Hi Hi2 _. rewrite Px. unfold slot. intros Eq. destruct (tree_ptr _ _ _ _ _ _ _ _ T (Nat.lt_succ_l _ _ Hd) Hpe) as [Ho _].
      pose proof (Z.mod_pos_bound q 512 ltac:(lia)). assert (Hoff : in_page p (ptr pe + 8 * (q mod 512)) = false).
      { apply (off_page (heap s) (heap s1) p (ptr pe) _ 8); try done; try lia. apply (tr_heap _ _ _ _ _ T). }
      rewrite <- Eq in Hoff. rewrite (Hin (8 * i) 8) in Hoff by lia. done. }
  assert (O' : ok_with (only d0 (q / 512) 1) s' H).
  { constructor; [done|by rewrite R1; apply (ok_empty _ _ _ O)|]. rewrite R2, R3. by apply (tree_ext (upd (links s) (S d0) q (Some x)) _ _ _ _ (only d0 (q / 512) 1)); [| |lia|]. }
  assert (Hpe' : links s' d0 (q / 512) = Some pe) by (rewrite HL by lia; rewrite upd_other; [done|intros [=]; lia]).
  assert (Hlp : loc s d0 (q / 512) = loc s' d0 (q / 512)).
  { symmetry. apply loc_ptrs. intros d1 y Hd1. unfold ptrs. rewrite HL by lia. rewrite upd_other; [done|intros [=]; lia]. }
  destruct (live_inc_ok s' H d0 (q / 512) pe O' ltac:(lia) Hpe') as [O2 R]. rewrite <- Hlp in O2, R. cbv zeta. fold x. fold s'. split; [exact O2|].
  destruct (rc_size _ _ _ R) as [Z1 Z2]. split_and!; [| |congruence|congruence|rewrite (rc_heap _ _ _ R); done|rewrite (rc_leaves _ _ _ R); done].
  - intros pgoff. rewrite (rc_view _ _ _ R). unfold view. rewrite R2, <- Mg. unfold mapped, leaf_at. destruct H as [|D]; [lia|]. by rewrite HL by lia.
  - intros d q' Hd'. unfold ptrs at 1. rewrite (rc_links _ _ _ R), HL by done. unfold upd. case_bool_decide as E; [|done]. cbn. by rewrite Px.
Qed.
End Ok.
