(* ===== verification/PageSliceWalk.v ===== *)
(** * Descending a page slice

    On a well-formed slice [ps_descend_pgoff] without growing finds the leaf
    entry exactly when the links of its prefixes exist, and the path it records
    is the list of places of those links. *)
From S2P Require Import Prelude Mm TaggedPtr Allocator PageSlice PageSliceTree PageSliceLinks.

Section Walk.
Context {A : Type} {HA : Allocator A} {HP : PageHeap A}.
Implicit Types (s : page_slice A).
Notation ptr e := (ps_entry_get_ptr e).
Notation ok := (ok_with even).

(** ** Heights *)

Lemma required_height H pgoff : (1 <= H <= 4)%nat -> 0 <= pgoff < 2 ^ 34 -> (Z.of_nat H <? ps_required_height_for_pgoff pgoff) = negb (pref H 0 pgoff =? 0).
Proof.
  intros HH Hp. unfold ps_required_height_for_pgoff. rewrite !index_entry_arith by lia. change PAGE_SLICE_LEAF_CAPACITY with 128.
  change (7 + 9 * 2) with 25. change (7 + 9 * 1) with 16. change PS_HEIGHT_LEAF with 1. change PS_HEIGHT_INDEX1 with 2. change PS_HEIGHT_INDEX2 with 3. change PS_HEIGHT_INDEX3 with 4.
  unfold pref. change (2 ^ 25) with 33554432. change (2 ^ 16) with 65536. change (2 ^ 34) with 17179869184 in Hp.
  assert (Hc : H = 1%nat \/ H = 2%nat \/ H = 3%nat \/ H = 4%nat) by lia.
  assert (P : forall h, (7 + 9 * (Z.of_nat h - 1 - Z.of_nat 0)) = 9 * Z.of_nat h - 2) by lia.
  rewrite P. destruct Hc as [-> | [-> | [-> | ->]]].
  - change (2 ^ (9 * Z.of_nat 1 - 2)) with 128. destruct (Z.ltb_spec pgoff 128).
    + rewrite (Z.div_small pgoff 128) by lia. done.
    + destruct (Z.eqb_spec (pgoff / 128) 0); [dlia|]. destruct (negb (pgoff / 33554432 mod 512 =? 0)); [done|]. by destruct (negb (pgoff / 65536 mod 512 =? 0)).
  - change (2 ^ (9 * Z.of_nat 2 - 2)) with 65536. destruct (Z.ltb_spec pgoff 128) as [Hs|Hs]; [rewrite (Z.div_small pgoff) by lia; done|].
    destruct (Z.eqb_spec (pgoff / 33554432 mod 512) 0), (Z.eqb_spec (pgoff / 65536 mod 512) 0), (Z.eqb_spec (pgoff / 65536) 0); cbn [negb]; try done; dlia.
  - change (2 ^ (9 * Z.of_nat 3 - 2)) with 33554432. destruct (Z.ltb_spec pgoff 128) as [Hs|Hs]; [rewrite (Z.div_small pgoff) by lia; done|].
    destruct (Z.eqb_spec (pgoff / 33554432 mod 512) 0), (Z.eqb_spec (pgoff / 65536 mod 512) 0), (Z.eqb_spec (pgoff / 33554432) 0); cbn [negb]; try done; dlia.
  - change (2 ^ (9 * Z.of_nat 4 - 2)) with 17179869184. rewrite (Z.div_small pgoff 17179869184) by lia.
    destruct (pgoff <? 128); [done|]. destruct (negb (pgoff / 33554432 mod 512 =? 0)); [done|]. by destruct (negb (pgoff / 65536 mod 512 =? 0)).
Qed.
Lemma required_range pgoff : 1 <= ps_required_height_for_pgoff pgoff <= 4.
Proof. unfold ps_required_height_for_pgoff. destruct (_ <? _); [done|]. destruct (negb _); [done|]. by destruct (negb _). Qed.
Lemma pref_beyond H d pgoff : (d < H)%nat -> pref H 0 pgoff <> 0 -> forall s, links s d (pref H d pgoff) = None.
Proof.
  intros Hd Hp s. induction d as [|d IH]; [unfold links, lk; by rewrite (proj2 (Z.eqb_neq _ 0) Hp)|].
  rewrite links_S, pref_parent, IH by lia. done.
Qed.
Lemma links_below s H d k pgoff : (d <= k < H)%nat -> links s d (pref H d pgoff) = None -> links s k (pref H k pgoff) = None.
Proof.
  intros [Hd Hk] Hn. induction Hd as [|k Hd IH]; [done|]. rewrite links_S, pref_parent, IH by lia. done.
Qed.

(** ** Links of each kind *)

Lemma index_link sk s H d q e : ok_with sk s H -> (S d < H)%nat -> links s d q = Some e -> (d = 0%nat \/ ps_entry_as_index_page e = ptr e) /\ ptr e <> 0 /\ e <> 0.
Proof.
  intros O Hd He. destruct (link_parts _ s H d q e O ltac:(lia) He) as (l & E1 & C1 & C2 & E3 & E4 & E5 & E6). pose proof (ok_height _ _ _ O) as Hh.
  pose proof (hgt_range H d ltac:(lia)) as Hhd. assert (He0 : e <> 0) by (rewrite E1; apply link_some; lia). split_and!; [|done|done].
  destruct d as [|d0]; [by left|right]. unfold ps_entry_as_index_page, page_slice_index_entry_empty, page_slice_index_entry_points_to_index, page_slice_index_entry_height, ps_entry_is_none, tp_is_none.
  rewrite (proj2 (Z.eqb_neq e 0) He0), E6. cbn [orb]. unfold ps_entry_points_to_index. change PS_HEIGHT_INDEX2 with 3. change PS_HEIGHT_INDEX3 with 4.
  unfold hgt. assert (Hc : Z.of_nat (H - d0) = 3 \/ Z.of_nat (H - d0) = 4) by lia. by destruct Hc as [-> | ->].
Qed.
Lemma leaf_link sk s D q e : ok_with sk s (S (S D)) -> links s (S D) q = Some e -> ps_entry_as_leaf_page e = ptr e /\ ptr e <> 0 /\ e <> 0.
Proof.
  intros O He. destruct (link_parts _ s _ (S D) q e O ltac:(lia) He) as (l & E1 & C1 & C2 & E3 & E4 & E5 & E6). pose proof (ok_height _ _ _ O) as Hh.
  pose proof (hgt_range (S (S D)) (S D) ltac:(lia)) as Hhd. assert (He0 : e <> 0) by (rewrite E1; apply link_some; lia). split_and!; [|done|done].
  unfold ps_entry_as_leaf_page, page_slice_index_entry_empty, page_slice_index_entry_points_to_leaf, page_slice_index_entry_height, ps_entry_is_none, tp_is_none.
  rewrite (proj2 (Z.eqb_neq e 0) He0), E6. cbn [orb]. unfold ps_entry_points_to_leaf. unfold hgt. by replace (S (S D) - D)%nat with 2%nat by lia.
Qed.
Lemma loc_slot s d q pe : links s d (q / 512) = Some pe -> loc s (S d) q = LSlot (slot (ptr pe) (q mod 512)).
Proof. intros H. cbn [loc]. by rewrite H. Qed.
Lemma slot_value s d q pe : links s d (q / 512) = Some pe -> links s (S d) q = if words s (slot (ptr pe) (q mod 512)) =? 0 then None else Some (words s (slot (ptr pe) (q mod 512))).
Proof. intros H. rewrite links_S, H. done. Qed.

(** ** Descending without growing *)

Definition path_to s H pgoff (n : nat) : list eloc := (fun k => loc s k (pref H k pgoff)) <$> seq 0 n.
Lemma path_to_S s H pgoff n : path_to s H pgoff (S n) = path_to s H pgoff n ++ [loc s n (pref H n pgoff)].
Proof. unfold path_to. by rewrite seq_S, fmap_app. Qed.
Lemma path_to_length s H pgoff n : length (path_to s H pgoff n) = n.
Proof. unfold path_to. by rewrite length_fmap, length_seq. Qed.

Lemma descend_read s H (want : bool) pgoff n d e : ok s H -> (d + n + 2 = H)%nat -> links s d (pref H d pgoff) = Some e ->
  let start : descent := (ptr e, Z.of_nat H - Z.of_nat d, loc s d (pref H d pgoff), if want then path_to s H pgoff (S d) else []) in
  match links s (H - 2) (pref H (H - 2) pgoff) with
  | Some e2 => descend_loop false want pgoff n start s =
      (REND_SUCCESS, (ptr e2, 2, loc s (H - 2) (pref H (H - 2) pgoff), if want then path_to s H pgoff (H - 1) else []), s)
  | None => exists d', descend_loop false want pgoff n start s = (- E_REND_NOFOUND, d', s)
  end.
Proof.
  intros O. pose proof (ok_height _ _ _ O) as Hh. revert d e. induction n as [|n IH]; intros d e HdH He start.
  - replace (H - 2)%nat with d by lia. rewrite He. cbn [descend_loop]. unfold start. replace (H - 1)%nat with (S d) by lia.
    by replace (Z.of_nat H - Z.of_nat d) with 2 by lia.
  - cbn [descend_loop]. unfold start. cbv zeta.
    assert (Ei : PAGE_SLICE_INDEX_ENTRY pgoff (Z.of_nat (S n)) = pref H (S d) pgoff mod 512) by (rewrite pref_slot by lia; do 2 f_equal; lia).
    rewrite Ei. assert (Hpe : links s d (pref H (S d) pgoff / 512) = Some e) by (by rewrite pref_parent by lia).
    pose proof (slot_value s d _ e Hpe) as Hv. unfold page_slice_index_entry_empty, ps_entry_is_none, tp_is_none.
    destruct (Z.eqb_spec (words s (slot (ptr e) (pref H (S d) pgoff mod 512))) 0) as [Ez|Ez].
    + cbn [negb]. rewrite (links_below s H (S d) (H - 2) pgoff ltac:(lia) Hv). change (negb (- E_REND_NOFOUND =? REND_SUCCESS)) with true. cbv iota. by eexists.
    + change (negb (REND_SUCCESS =? REND_SUCCESS)) with false. cbv iota. set (e2 := words s (slot (ptr e) (pref H (S d) pgoff mod 512))) in *.
      assert (Hlen : want && (3 <=? length (if want then path_to s H pgoff (S d) else []))%nat = false).
      { destruct want; [|done]. rewrite path_to_length. cbn [andb]. apply Nat.leb_gt. lia. }
      rewrite Hlen. destruct (index_link _ s H (S d) _ e2 O ltac:(lia) Hv) as ([[=]|Ep] & Np & _). rewrite Ep, (proj2 (Z.eqb_neq _ 0) Np).
      rewrite <- (loc_slot s d (pref H (S d) pgoff) e Hpe).
      assert (Epath : (if want then (if want then path_to s H pgoff (S d) else []) ++ [loc s (S d) (pref H (S d) pgoff)] else if want then path_to s H pgoff (S d) else []) =
                      (if want then path_to s H pgoff (S (S d)) else [])).
      { destruct want; [|done]. by rewrite (path_to_S s H pgoff (S d)). }
      rewrite Epath. rewrite u8_small by lia. replace (Z.of_nat H - Z.of_nat d - 1) with (Z.of_nat H - Z.of_nat (S d)) by lia.
      apply (IH (S d) e2); [lia|done].
Qed.

Lemma root_index s H : ok s H -> (2 <= H)%nat -> page_slice_root_get_index s = ptr (root s) /\ ptr (root s) <> 0 /\ links s 0 0 = Some (root s).
Proof.
  intros O HH. unfold page_slice_root_get_index. rewrite (ok_is_index even s H O), (proj2 (Nat.leb_le 2 H) HH).
  destruct (ok_root even s H O ltac:(lia)) as (p & l & E & C & N & _). assert (Ep : ptr (root s) = p) by (by rewrite E, link_ptr). split_and!; [done|by rewrite Ep|].
  apply links_root. intros Hz. apply (ok_empty _ _ _ O) in Hz. lia.
Qed.
Lemma root_leaf s : ok s 1 -> page_slice_root_get_leaf s = ptr (root s) /\ ptr (root s) <> 0 /\ links s 0 0 = Some (root s).
Proof.
  intros O. unfold page_slice_root_get_leaf. rewrite (ok_is_leaf even s 1 O).
  destruct (ok_root even s 1 O ltac:(lia)) as (p & l & E & C & N & _). assert (Ep : ptr (root s) = p) by (by rewrite E, link_ptr). split_and!; [done|by rewrite Ep|].
  apply links_root. intros Hz. apply (ok_empty _ _ _ O) in Hz. lia.
Qed.
(** the bottom slot, for a tree with index pages *)
Lemma bottom_slot s H pgoff e2 : (2 <= H)%nat -> links s (H - 2) (pref H (H - 2) pgoff) = Some e2 ->
  loc s (H - 1) (pgoff / 128) = LSlot (slot (ptr e2) (PAGE_SLICE_INDEX_ENTRY pgoff 0)) /\
  links s (H - 1) (pgoff / 128) = if words s (slot (ptr e2) (PAGE_SLICE_INDEX_ENTRY pgoff 0)) =? 0 then None else Some (words s (slot (ptr e2) (PAGE_SLICE_INDEX_ENTRY pgoff 0))).
Proof.
  intros HH He2. destruct H as [|[|D]]; [lia|lia|]. replace (S (S D) - 2)%nat with D in He2 by lia. replace (S (S D) - 1)%nat with (S D) by lia.
  rewrite <- (pref_leaf (S (S D)) pgoff) by lia. replace (S (S D) - 1)%nat with (S D) by lia.
  assert (Ei : PAGE_SLICE_INDEX_ENTRY pgoff 0 = pref (S (S D)) (S D) pgoff mod 512) by (rewrite pref_slot by lia; do 2 f_equal; lia).
  assert (Hpe : links s D (pref (S (S D)) (S D) pgoff / 512) = Some e2) by (by rewrite pref_parent by lia).
  rewrite Ei. split; [by apply loc_slot|by apply slot_value].
Qed.
Lemma bottom_none s H pgoff : (2 <= H)%nat -> links s (H - 2) (pref H (H - 2) pgoff) = None -> links s (H - 1) (pgoff / 128) = None.
Proof.
  intros HH Hn. rewrite <- (pref_leaf H pgoff) by lia. apply (links_below s H (H - 2) (H - 1)); [lia|done].
Qed.

Lemma descend_pgoff_read s H (want : bool) pgoff : ok s H -> 0 <= pgoff < 2 ^ 34 ->
  match (if (H =? 0)%nat then None else links s (H - 1) (pgoff / 128)) with
  | Some e => ps_descend_pgoff pgoff false want s = (REND_SUCCESS, (ptr e + 32 * (pgoff mod 128), if want then path_to s H pgoff (H - 1) else []), s)
  | None => exists d, ps_descend_pgoff pgoff false want s = (- E_REND_NOFOUND, d, s)
  end.
Proof.
  intros O Hp. unfold ps_descend_pgoff. rewrite (ok_stored even s H O). cbn [negb andb]. pose proof (ok_height _ _ _ O) as Hh.
  destruct (Nat.eqb_spec H 0) as [->|Hn].
  { pose proof (required_range pgoff). rewrite (proj2 (Z.ltb_lt _ _)) by lia. by eexists. }
  rewrite (required_height H pgoff) by lia. destruct (Z.eqb_spec (pref H 0 pgoff) 0) as [Hz|Hz]; cbn [negb].
  2: { rewrite <- (pref_leaf H pgoff) by lia. rewrite (pref_beyond H (H - 1) pgoff ltac:(lia) Hz). by eexists. }
  change PS_HEIGHT_INDEX1 with 2. rewrite leaf_idx_arith. destruct (decide (H = 1%nat)) as [->|Hn1].
  - change (2 <=? Z.of_nat 1) with false. cbv iota. rewrite (ok_is_leaf even s 1 O). change (1 =? 1)%nat with true. cbv iota.
    destruct (root_leaf s O) as (-> & Np & Hl). rewrite (proj2 (Z.eqb_neq _ 0) Np). change (1 - 1)%nat with 0%nat.
    assert (Hq : pgoff / 128 = 0) by (by rewrite <- (pref_leaf 1 pgoff) by lia). rewrite Hq, Hl. by destruct want.
  - rewrite (proj2 (Z.leb_le 2 _)) by lia. destruct (root_index s H O ltac:(lia)) as (-> & Np & Hl). rewrite (proj2 (Z.eqb_neq _ 0) Np).
    assert (Hroot : links s 0 (pref H 0 pgoff) = Some (root s)) by (by rewrite Hz).
    pose proof (descend_read s H want pgoff (H - 2) 0 (root s) O ltac:(lia) Hroot) as R. cbv zeta in R.
    replace (Z.to_nat (Z.of_nat H - 2)) with (H - 2)%nat by lia. rewrite Z.sub_0_r in R. cbn [loc] in R.
    assert (Epath : (if want then path_to s H pgoff 1 else []) = (if want then [LRoot] else [])) by (by destruct want). rewrite Epath in R.
    destruct (links s (H - 2) (pref H (H - 2) pgoff)) as [e2|] eqn:E2.
    + rewrite R. change (negb (REND_SUCCESS =? REND_SUCCESS)) with false. cbv iota. unfold descend_leaf. cbn [get_entry]. rewrite leaf_idx_arith.
      destruct (bottom_slot s H pgoff e2 ltac:(lia) E2) as [_ ->]. unfold page_slice_index_entry_empty, ps_entry_is_none, tp_is_none.
      destruct (Z.eqb_spec (words s (slot (ptr e2) (PAGE_SLICE_INDEX_ENTRY pgoff 0))) 0) as [E0|E0]; [by eexists|].
      set (e := words s (slot (ptr e2) (PAGE_SLICE_INDEX_ENTRY pgoff 0))) in *. destruct H as [|[|D]]; [done|done|].
      destruct (leaf_link even s D (pgoff / 128) e O) as (-> & Ne & _); [|by rewrite (proj2 (Z.eqb_neq _ 0) Ne)].
      destruct (bottom_slot s (S (S D)) pgoff e2 ltac:(lia) E2) as [_ Hb]. fold e in Hb. rewrite (proj2 (Z.eqb_neq e 0) E0) in Hb. exact Hb.
    + destruct R as [d' ->]. change (negb (- E_REND_NOFOUND =? REND_SUCCESS)) with true. cbv iota. rewrite (bottom_none s H pgoff) by (done || lia). by eexists.
Qed.

(** the link of the leaf page *)
Lemma leaf_loop s H pgoff n d e e2 : ok s H -> (d + n + 2 = H)%nat -> links s d (pref H d pgoff) = Some e -> links s (H - 2) (pref H (H - 2) pgoff) = Some e2 ->
  ps_leaf_index_entry_loop pgoff s n (ptr e) = Some (LSlot (slot (ptr e2) (PAGE_SLICE_INDEX_ENTRY pgoff 0))).
Proof.
  intros O. revert d e. induction n as [|n IH]; intros d e HdH He He2.
  - replace (H - 2)%nat with d in He2 by lia. cbn. by rewrite He in He2; injection He2 as ->.
  - cbn [ps_leaf_index_entry_loop].
    assert (Ei : PAGE_SLICE_INDEX_ENTRY pgoff (Z.of_nat (S n)) = pref H (S d) pgoff mod 512) by (rewrite pref_slot by lia; do 2 f_equal; lia).
    assert (Hpe : links s d (pref H (S d) pgoff / 512) = Some e) by (by rewrite pref_parent by lia).
    pose proof (slot_value s d _ e Hpe) as Hv. rewrite Ei. set (x := words s (slot (ptr e) (pref H (S d) pgoff mod 512))) in *.
    destruct (Z.eqb_spec x 0) as [Ez|Ez]; [rewrite (links_below s H (S d) (H - 2) pgoff ltac:(lia) Hv) in He2; done|].
    destruct (index_link _ s H (S d) _ x O ltac:(lia) Hv) as ([[=]|Ep] & Np & _). rewrite Ep, (proj2 (Z.eqb_neq _ 0) Np).
    apply (IH (S d) x); [lia|done|done].
Qed.
Lemma leaf_index_read s H pgoff e : ok s H -> (1 <= H)%nat -> links s (H - 1) (pgoff / 128) = Some e ->
  ps_leaf_index_entry pgoff s = Some (loc s (H - 1) (pgoff / 128)).
Proof.
  intros O HH He. unfold ps_leaf_index_entry. rewrite (ok_is_leaf even s H O), (ok_is_index even s H O).
  destruct (Nat.eqb_spec H 1) as [->|Hn]; [done|]. rewrite (proj2 (Nat.leb_le 2 H)) by lia. cbn [negb].
  destruct (root_index s H O ltac:(lia)) as (-> & Np & Hl). rewrite (proj2 (Z.eqb_neq _ 0) Np), (ok_stored even s H O).
  destruct (links s (H - 2) (pref H (H - 2) pgoff)) as [e2|] eqn:E2; [|rewrite (bottom_none s H pgoff) in He by (done || lia); done].
  destruct (bottom_slot s H pgoff e2 ltac:(lia) E2) as [-> _]. replace (Z.to_nat (Z.of_nat H - 2)) with (H - 2)%nat by lia.
  destruct (Z.eq_dec (pref H 0 pgoff) 0) as [Hz|Hz].
  - apply (leaf_loop s H pgoff (H - 2) 0 (root s) e2 O); [lia|by rewrite Hz|done].
  - rewrite (pref_beyond H (H - 2) pgoff ltac:(lia) Hz s) in E2. done.
Qed.
End Walk.
