(* ===== verification/PageSliceGrow.v ===== *)
(** * Growing a page slice

    One more level above the root ([raise_loop]), the first page as the root,
    and that none of it changes what the slice maps ([keeps]). *)
From S2P Require Import Prelude Mm TaggedPtr Allocator PageSlice PageSliceTree PageSliceLinks PageSliceWalk.

Section Height.
Context {A : Type} {HA : Allocator A} {HP : PageHeap A}.
Implicit Types (s : page_slice A) (f : nat -> Z -> option Z).
Notation ptr e := (ps_entry_get_ptr e).
Notation ok := (ok_with even).

(** ** One level more or less *)

(** [f'] is [f] below a root [r] whose only slot in use is the first *)
Record taller f f' (H : nat) (p l r : Z) : Prop := {
  ta_old : forall q, f 0%nat q = if q =? 0 then Some (ps_entry_new p (Z.of_nat H) l) else None;
  ta_new : forall q, f' 0%nat q = if q =? 0 then Some r else None;
  ta_one : forall q, f' 1%nat q = if q =? 0 then Some (ps_entry_new p (Z.of_nat (S H)) l) else None;
  ta_rest : forall d q, (1 <= d < H)%nat -> f' (S d) q = f d q;
  ta_range : canonical p /\ 0 <= l <= 512 /\ (1 <= H <= 3)%nat
}.

Section Taller.
Context f f' (H : nat) (p l r : Z) (m : Z -> page_slice_entry) (Ta : taller f f' H p l r).
Lemma ta_ptr d q : (d < H)%nat -> (fun e => ptr e) <$> f' (S d) q = (fun e => ptr e) <$> f d q.
Proof.
  intros Hd. pose proof Ta as [T1 T2 T3 T4 (C & _)]. destruct d as [|d]; [|by rewrite T4 by lia].
  rewrite T3, T1. destruct (q =? 0); [|done]. cbn. by rewrite !link_ptr.
Qed.
Lemma ta_leaf pgoff : leaf_at f' (S H) m pgoff = leaf_at f H m pgoff.
Proof.
  pose proof Ta as [_ _ _ _ (_ & _ & HH)]. unfold leaf_at. pose proof (ta_ptr (pred H) (pgoff / 128) ltac:(lia)) as Hp. destruct H as [|D]; [lia|]. cbn [pred] in Hp.
  destruct (f' (S D) (pgoff / 128)), (f D (pgoff / 128)); cbn in Hp; try done. by injection Hp as ->.
Qed.
Lemma ta_mapped pgoff : mapped f' (S H) m pgoff = mapped f H m pgoff.
Proof. unfold mapped. by rewrite ta_leaf. Qed.
Lemma ta_used d q x : (d < H)%nat -> used f' (S H) m (S d) q x = used f H m d q x.
Proof.
  intros Hd. unfold used. destruct (Nat.ltb_spec (S (S d)) (S H)), (Nat.ltb_spec (S d) H); try lia.
  unfold used_links. apply countp_same. intros i _. by rewrite (ta_rest _ _ _ _ _ _ Ta (S d)) by lia.
Qed.
Lemma ta_root_used x : used f' (S H) m 0 0 x = 1.
Proof.
  pose proof Ta as [_ _ T3 _ (_ & _ & HH)]. unfold used. rewrite (proj2 (Nat.ltb_lt 1 (S H))) by lia. unfold used_links.
  transitivity (countp (fun i => i =? 0) (slots 512)); [|by vm_compute]. apply countp_same. intros i _. rewrite T3. change (512 * 0 + i) with i.
  destruct (Z.eqb_spec i 0); [by apply bool_decide_eq_true_2; eexists|by apply bool_decide_eq_false_2; intros [? ?]].
Qed.
(** every link of [f'] but the root's is one of [f] *)
Lemma ta_back d q e : (d < S H)%nat -> f' d q = Some e -> d = 0%nat /\ q = 0 /\ e = r \/ exists d0 e0, d = S d0 /\ f d0 q = Some e0 /\ ptr e0 = ptr e.
Proof.
  intros Hd He. destruct d as [|d0].
  - left. rewrite (ta_new _ _ _ _ _ _ Ta) in He. destruct (Z.eqb_spec q 0); [|done]. by injection He as <-.
  - right. pose proof (ta_ptr d0 q ltac:(lia)) as Hp. rewrite He in Hp. destruct (f d0 q) as [e0|] eqn:E0; [|done]. exists d0, e0. cbn in Hp. injection Hp as Hp. done.
Qed.
Lemma ta_fwd d q e : (d < H)%nat -> f d q = Some e -> exists e', f' (S d) q = Some e' /\ ptr e' = ptr e.
Proof. intros Hd He. pose proof (ta_ptr d q Hd) as Hp. rewrite He in Hp. destruct (f' (S d) q) as [e'|]; [|done]. exists e'. cbn in Hp. by injection Hp as ->. Qed.
End Taller.

Lemma tree_raise f f' H p l pr m m' a a' : tree f H m a even -> taller f f' H p l (ps_entry_new pr (Z.of_nat (S H)) 1) ->
  heap_ok a' -> pr ∉ owned a -> owned a' = {[pr]} ∪ owned a -> (forall pp i, pp ∈ owned a -> 0 <= i < 128 -> m' (pp + 32 * i) = m (pp + 32 * i)) ->
  tree f' (S H) m' a' even /\ forall pgoff, mapped f' (S H) m' pgoff = mapped f H m pgoff.
Proof.
  intros T0 Ta Hok Hfr Hown Hm. destruct (tree_mono f H m m' a a' even T0 Hok ltac:(set_solver) Hm) as [T Mm]. pose proof T as [T1 T2 T3 T4 T5 T6 T7].
  destruct (ta_range _ _ _ _ _ _ Ta) as (Cp & Hl & HH). set (r := ps_entry_new pr (Z.of_nat (S H)) 1) in *.
  destruct (ph_ptr a' pr Hok ltac:(set_solver)) as [Cr Nr]. assert (Pr : ptr r = pr) by (by apply link_ptr).
  assert (Hold : forall d q e, (d < H)%nat -> f d q = Some e -> ptr e <> pr).
  { intros d q e Hd He Eq. destruct (tree_ptr _ _ _ _ _ _ _ _ T0 Hd He) as [Ho _]. by rewrite Eq in Ho. }
  split; [|intros pgoff; by rewrite (ta_mapped f f' H p l r m' Ta), Mm]. constructor; [done| | | | | |].
  - intros d q e Hd He. destruct d as [|d0].
    + rewrite (ta_new _ _ _ _ _ _ Ta) in He. destruct (Z.eqb_spec q 0) as [->|]; [|done]. injection He as <-. exists pr, 1. split_and!; [done|set_solver|lia|lia|].
      by rewrite (ta_root_used f f' H p l r m' Ta).
    + destruct (ta_back f f' H p l r Ta (S d0) q e Hd He) as [([=] & _)|(d1 & e0 & [= <-] & E0 & Ep)].
      destruct (T2 d0 q e0 ltac:(lia) E0) as (p0 & l0 & E1 & E2 & E3 & E4). destruct (ph_ptr a' p0 Hok E2) as [C0 _].
      exists p0, l0. rewrite (ta_used f f' H p l r m' Ta) by lia. split_and!; [|done|lia|lia|done].
      destruct d0 as [|d0]; [|by rewrite (ta_rest _ _ _ _ _ _ Ta), E0, E1 in He by lia; injection He as <-].
      rewrite (ta_one _ _ _ _ _ _ Ta) in He. rewrite (ta_old _ _ _ _ _ _ Ta) in E0. destruct (q =? 0); [|done]. injection He as <-. injection E0 as <-.
      pose proof (f_equal ps_entry_get_ptr E1) as Q1. pose proof (f_equal ps_entry_get_live E1) as Q2. rewrite !link_ptr in Q1 by done.
      cbn [hgt] in *. rewrite !link_live in Q2 by lia. rewrite Q1, Q2, Nat.sub_0_r. done.
  - intros q e He. rewrite (ta_new _ _ _ _ _ _ Ta) in He. by destruct (Z.eqb_spec q 0).
  - intros d q e Hd He. destruct (ta_back f f' H p l r Ta (S d) q e ltac:(lia) He) as [([=] & _)|(d1 & e0 & [= <-] & E0 & Ep)].
    destruct d as [|d]; [|].
    + assert (q = 0) as -> by (by apply (T3 q e0)). rewrite (ta_new _ _ _ _ _ _ Ta). by eexists.
    + destruct (T4 d q e0 ltac:(lia) E0) as [x Hx]. destruct (ta_fwd f f' H p l r Ta d _ x ltac:(lia) Hx) as (x' & -> & _). by eexists.
  - intros d1 d2 q1 q2 e1 e2 H1 H2 E1 E2 Eq.
    destruct (ta_back f f' H p l r Ta d1 q1 e1 H1 E1) as [(-> & -> & ->)|(x1 & y1 & -> & F1 & P1)];
      destruct (ta_back f f' H p l r Ta d2 q2 e2 H2 E2) as [(-> & -> & ->)|(x2 & y2 & -> & F2 & P2)]; [done| | |].
    + exfalso. apply (Hold x2 q2 y2); [lia|done|]. congruence.
    + exfalso. apply (Hold x1 q1 y1); [lia|done|]. congruence.
    + assert (Hq : (x1, q1) = (x2, q2)) by (apply (T5 x1 x2 q1 q2 y1 y2); [lia|lia|done|done|congruence]). by injection Hq as -> ->.
  - intros pgoff x. rewrite (ta_leaf f f' H p l r m' Ta). apply T6.
  - intros pgoff x Hx Hp. rewrite (ta_mapped f f' H p l r m' Ta) in Hx. destruct (T7 pgoff x Hx Hp) as (D1 & D2 & D3). split_and!; [done| |].
    + intros d q e Hd He. destruct (ta_back f f' H p l r Ta d q e Hd He) as [(-> & -> & ->)|(x1 & y1 & -> & F1 & <-)]; [|apply (D2 x1 q y1); [lia|done]].
      rewrite Pr. intros ->. apply Hfr. rewrite Mm in Hx. by apply (tr_data _ _ _ _ _ T0 pgoff x Hx Hp).
    + intros pgoff' x' Hx'. rewrite (ta_mapped f f' H p l r m' Ta) in Hx'. by apply D3.
Qed.

Lemma tree_lower f f' H p l r m a : tree f' (S H) m a even -> taller f f' H p l r ->
  tree f H m (m_free a (ptr r)) even /\ forall pgoff, mapped f H m pgoff = mapped f' (S H) m pgoff.
Proof.
  intros T Ta. pose proof T as [T1 T2 T3 T4 T5 T6 T7]. destruct (ta_range _ _ _ _ _ _ Ta) as (Cp & Hl & HH).
  destruct (ph_free a (ptr r) T1) as [Hok Hown]. assert (Hr : f' 0%nat 0 = Some r) by (by rewrite (ta_new _ _ _ _ _ _ Ta)).
  split; [|intros pgoff; by rewrite (ta_mapped f f' H p l r m Ta)]. constructor; [done| | | | | |].
  - intros d q e Hd He. destruct (ta_fwd f f' H p l r Ta d q e Hd He) as (e' & E' & Ep). destruct (T2 (S d) q e' ltac:(lia) E') as (p0 & l0 & E1 & E2 & E3 & E4).
    destruct (ph_ptr a p0 T1 E2) as [C0 _]. rewrite (ta_used f f' H p l r m Ta) in E4 by done. exists p0, l0. split_and!; [| |lia|lia|done].
    + destruct d as [|d]; [|by rewrite (ta_rest _ _ _ _ _ _ Ta), He in E' by lia; injection E' as <-].
      rewrite (ta_one _ _ _ _ _ _ Ta) in E'. rewrite (ta_old _ _ _ _ _ _ Ta) in He. destruct (q =? 0); [|done]. injection He as <-. injection E' as <-.
      pose proof (f_equal ps_entry_get_ptr E1) as Q1. pose proof (f_equal ps_entry_get_live E1) as Q2. rewrite !link_ptr in Q1 by done.
      cbn [hgt] in *. rewrite Nat.sub_0_r in Q2. rewrite !link_live in Q2 by lia. by rewrite Q1, Q2.
    + rewrite Hown. apply elem_of_difference. split; [done|]. rewrite elem_of_singleton. intros Eq.
      assert (Hq : (S d, q) = (0%nat, 0)); [|done]. apply (T5 (S d) 0%nat q 0 e' r); [lia|lia|done|done|]. rewrite E1, link_ptr; done.
  - intros q e He. rewrite (ta_old _ _ _ _ _ _ Ta) in He. by destruct (Z.eqb_spec q 0).
  - intros d q e Hd He. destruct (ta_fwd f f' H p l r Ta (S d) q e Hd He) as (e' & E' & Ep). destruct (T4 (S d) q e' ltac:(lia) E') as [x Hx].
    destruct (ta_back f f' H p l r Ta (S d) _ x ltac:(lia) Hx) as [([=] & _)|(d1 & e0 & [= <-] & E0 & _)]. by eexists.
  - intros d1 d2 q1 q2 e1 e2 H1 H2 E1 E2 Eq. destruct (ta_fwd f f' H p l r Ta d1 q1 e1 H1 E1) as (x1 & X1 & P1).
    destruct (ta_fwd f f' H p l r Ta d2 q2 e2 H2 E2) as (x2 & X2 & P2).
    assert (Hq : (S d1, q1) = (S d2, q2)) by (apply (T5 (S d1) (S d2) q1 q2 x1 x2); [lia|lia|done|done|congruence]). by injection Hq as -> ->.
  - intros pgoff x. rewrite <- (ta_leaf f f' H p l r m Ta). apply T6.
  - intros pgoff x Hx Hp. rewrite <- (ta_mapped f f' H p l r m Ta) in Hx. destruct (T7 pgoff x Hx Hp) as (D1 & D2 & D3). split_and!; [| |].
    + rewrite Hown. apply elem_of_difference. split; [done|]. rewrite elem_of_singleton. intros Eq. by apply (D2 0%nat 0 r); [lia|done|].
    + intros d q e Hd He. destruct (ta_fwd f f' H p l r Ta d q e Hd He) as (e' & E' & <-). by apply (D2 (S d) q e'); [lia|].
    + intros pgoff' x' Hx'. rewrite <- (ta_mapped f f' H p l r m Ta) in Hx'. by apply D3.
Qed.

(** ** Growing *)

(** a page the slice neither uses for its tree nor maps *)
Record foreign s (H : nat) (k : Z) : Prop := {
  fo_owned : k ∈ owned (heap s);
  fo_tree : forall d q, (d < H)%nat -> ptrs s d q <> Some k;
  fo_data : forall pgoff x, view s H pgoff = Some x -> pinned x = false -> kernel_virtual_address x <> k
}.
(** the tree may have changed its shape, the map is the same *)
Record keeps s s' (H H' : nat) : Prop := {
  kp_ok : ok s' H';
  kp_view : forall pgoff, view s' H' pgoff = view s H pgoff;
  kp_size : size s' = size s /\ mapped_entries s' = mapped_entries s;
  kp_foreign : forall k, foreign s H k -> foreign s' H' k
}.
Lemma keeps_refl s H : ok s H -> keeps s s H H.
Proof. by intros O. Qed.
Lemma keeps_trans s1 s2 s3 H1 H2 H3 : keeps s1 s2 H1 H2 -> keeps s2 s3 H2 H3 -> keeps s1 s3 H1 H3.
Proof.
  intros [A1 A2 [A3 A4] A5] [B1 B2 [B3 B4] B5]. constructor; [done| |split; congruence|intros k Hk; by apply B5, A5].
  intros pgoff. by rewrite B2, A2.
Qed.
Lemma keeps_foreign s s' H H' : (forall pgoff, view s' H' pgoff = view s H pgoff) -> owned (heap s) ⊆ owned (heap s') ->
  (forall d q x, (d < H')%nat -> ptrs s' d q = Some x -> x ∉ owned (heap s) \/ exists d0, (d0 < H)%nat /\ ptrs s d0 q = Some x) ->
  forall k, foreign s H k -> foreign s' H' k.
Proof.
  intros Hv Ho Hp k [F1 F2 F3]. constructor; [by apply Ho| |].
  - intros d q Hd Hk. destruct (Hp d q k Hd Hk) as [Hn|(d0 & Hd0 & E)]; [done|]. by apply (F2 d0 q).
  - intros pgoff x. rewrite Hv. apply F3.
Qed.
Lemma no_page_keeps s s1 H : ok s H -> no_page s s1 -> keeps s s1 H H.
Proof.
  intros O N. destruct (no_page_ok s s1 H O N) as [O1 V]. destruct N as [(E1 & E2 & E3 & E4 & E5) [E6 E7]].
  constructor; [done|done|done|]. apply keeps_foreign; [done|by rewrite E7|]. intros d q x Hd Hx. right. exists d. split; [done|].
  rewrite <- Hx. unfold ptrs, links. by rewrite E1, E4.
Qed.
Lemma hang_keeps s s1 H d0 q pe p ix lf : ok s H -> (S d0 < H)%nat -> links s d0 (q / 512) = Some pe -> links s (S d0) q = None ->
  fresh_page s s1 p ix lf -> ((S (S d0) < H)%nat -> ix = true) -> (H = S (S d0) -> lf = true) ->
  let s2 := ps_entry_live_inc (loc s d0 (q / 512)) (put_entry (loc s (S d0) q) (ps_entry_new p (hgt H (S d0)) 0) s1) in
  keeps s s2 H H /\ (forall d x, (d < H)%nat -> (d, x) <> (S d0, q) -> ptrs s2 d x = ptrs s d x) /\ ptrs s2 (S d0) q = Some p.
Proof.
  intros O Hd Hpe Hnone F Hix Hlf s2. destruct (hang_ok s s1 H d0 q pe p ix lf O Hd Hpe Hnone F Hix Hlf) as (O2 & V & P & Z1 & Z2 & Z3 & Z4). fold s2 in O2, V, P, Z1, Z2, Z3, Z4.
  destruct (fp_new _ _ _ _ _ F) as [N1 N2]. split_and!.
  - constructor; [done|done|done|]. apply keeps_foreign; [exact V|rewrite Z3, N2; apply union_subseteq_r|]. intros d x y Hd' Hy. rewrite P in Hy by done. case_bool_decide.
    + injection Hy as <-. by left.
    + right. by exists d.
  - intros d x Hd' Hne. rewrite P by done. by rewrite bool_decide_eq_false_2.
  - rewrite P by done. by rewrite bool_decide_eq_true_2.
Qed.

(** the first page becomes the root *)
Lemma plant_ok s s1 p ix lf (h : Z) : ok s 0 -> fresh_page s s1 p ix lf -> h = 1 /\ lf = true \/ h = 2 /\ ix = true ->
  let s2 := set_root (ps_entry_new p h 0) s1 in
  keeps s s2 0 (Z.to_nat h) /\ links s2 0 0 = Some (ps_entry_new p h 0).
Proof.
  intros O F Hh s2. destruct (fp_new _ _ _ _ _ F) as [N1 N2]. pose proof (fp_heap _ _ _ _ _ F) as Hok1. destruct (ph_ptr (heap s1) p Hok1 ltac:(set_solver)) as [Cp Np].
  set (r := ps_entry_new p h 0) in *. assert (Hr : r <> 0) by (apply link_some; lia). assert (Pr : ptr r = p) by (by apply link_ptr).
  assert (L0 : forall q, links s2 0 q = if q =? 0 then Some r else None).
  { intros q. unfold links, lk. cbn [s2 set_root root]. rewrite (proj2 (Z.eqb_neq r 0) Hr). by rewrite andb_true_r. }
  assert (L1 : h = 2 -> forall q, links s2 1 q = None).
  { intros ->. destruct Hh as [[? _]|[_ ->]]; [done|]. intros q. rewrite links_S, L0. destruct (q / 512 =? 0); [|done]. cbn [child]. rewrite Pr. cbn [s2 set_root words].
    rewrite (fp_index _ _ _ _ _ F); [done|done|]. pose proof (Z.mod_pos_bound q 512 ltac:(lia)). unfold in_page, slot. change PAGE_SIZE with 4096.
    apply andb_true_iff. split; [apply Z.leb_le|apply Z.ltb_lt]; lia. }
  assert (Hla : forall pgoff, leaf_at (links s2) (Z.to_nat h) (leaves s2) pgoff = None \/ leaf_at (links s2) (Z.to_nat h) (leaves s2) pgoff = Some pse_zero).
  { intros pgoff. destruct Hh as [[-> ->]|[-> ->]].
    - change (Z.to_nat 1) with 1%nat. unfold leaf_at. rewrite L0. destruct (pgoff / 128 =? 0); [right|by left]. f_equal. rewrite Pr. cbn [s2 set_root leaves].
      apply (fp_leaf _ _ _ _ _ F); [done|]. pose proof (Z.mod_pos_bound pgoff 128 ltac:(lia)). unfold in_page. change PAGE_SIZE with 4096.
      apply andb_true_iff. split; [apply Z.leb_le|apply Z.ltb_lt]; lia.
    - left. change (Z.to_nat 2) with 2%nat. unfold leaf_at. by rewrite L1. }
  assert (Hm : forall pgoff, mapped (links s2) (Z.to_nat h) (leaves s2) pgoff = None).
  { intros pgoff. unfold mapped. by destruct (Hla pgoff) as [-> | ->]. }
  assert (Hd1 : forall d q e, (d < Z.to_nat h)%nat -> links s2 d q = Some e -> d = 0%nat /\ q = 0 /\ e = r).
  { intros d q e Hd He. destruct d as [|d]; [rewrite L0 in He; destruct (Z.eqb_spec q 0); [|done]; by injection He as <-|].
    exfalso. assert (h = 2) as -> by lia. change (Z.to_nat 2) with 2%nat in Hd. assert (d = 0%nat) as -> by lia. by rewrite L1 in He. }
  assert (Hv : forall pgoff, view s2 (Z.to_nat h) pgoff = view s 0 pgoff) by (intros pgoff; unfold view; by rewrite Hm).
  split; [|by rewrite L0]. constructor; [|done|cbn; apply (fp_size _ _ _ _ _ F)|].
  - constructor; [lia|cbn [s2 set_root root]; split; [done|lia]|]. constructor; [done| | | | | |].
    + intros d q e Hd He. destruct (Hd1 d q e Hd He) as (-> & -> & ->). exists p, 0. split_and!; [|cbn [s2 set_root heap]; rewrite N2; apply elem_of_union_l, elem_of_singleton; reflexivity|lia|lia|].
      * unfold r, hgt. by rewrite Z2Nat.id by lia.
      * unfold even. rewrite Z.sub_0_r. symmetry. destruct Hh as [[-> ->]|[-> ->]]; unfold used.
        -- change (1 <? Z.to_nat 1)%nat with false. cbv iota. apply zero_leaves. intros i Hi. cbn [s2 set_root leaves]. apply (fp_leaf _ _ _ _ _ F); [done|].
           unfold in_page. change PAGE_SIZE with 4096. apply andb_true_iff. split; [apply Z.leb_le|apply Z.ltb_lt]; lia.
        -- change (1 <? Z.to_nat 2)%nat with true. cbv iota. unfold used_links. transitivity (countp (fun _ : Z => false) (slots 512)); [|by vm_compute].
           apply countp_same. intros i _. by rewrite L1.
    + intros q e He. rewrite L0 in He. by destruct (Z.eqb_spec q 0).
    + intros d q e Hd He. by destruct (Hd1 (S d) q e ltac:(lia) He) as ([=] & _).
    + intros d d' q q' e e' Hd Hd' He He' _. destruct (Hd1 d q e Hd He) as (-> & -> & _). by destruct (Hd1 d' q' e' Hd' He') as (-> & -> & _).
    + intros pgoff x Hx _. destruct (Hla pgoff) as [E | E]; rewrite E in Hx; [done|]. by injection Hx as <-.
    + intros pgoff x Hx. by rewrite Hm in Hx.
  - apply keeps_foreign; [exact Hv|cbn [s2 set_root heap]; rewrite N2; apply union_subseteq_r|]. intros d q x Hd Hx. left. unfold ptrs in Hx.
    destruct (links s2 d q) as [e|] eqn:E; [|done]. destruct (Hd1 d q e Hd E) as (-> & -> & ->). cbn in Hx. injection Hx as <-. by rewrite Pr.
Qed.

(** one more level: the old root's page behind the first slot of a new one *)
Lemma raise_step s s1 H p : ok s H -> (1 <= H <= 3)%nat -> fresh_page s s1 p true false ->
  let h := Z.of_nat (S H) in
  let s2 := put_entry (LSlot p) (ps_entry_new (ptr (root s)) h (ps_entry_get_live (root s))) s1 in
  keeps s (set_root (ps_entry_new p h 1) s2) H (S H) /\ words s2 p <> 0.
Proof.
  intros O HH F h s2. destruct (fp_new _ _ _ _ _ F) as [N1 N2]. pose proof (fp_heap _ _ _ _ _ F) as Hok1. destruct (ph_ptr (heap s1) p Hok1 ltac:(set_solver)) as [Cp Np].
  pose proof (ok_tree _ _ _ O) as T. destruct (ok_root even s H O ltac:(lia)) as (p0 & l & E & C0 & NP0 & Hl & _ & Hp0). unfold s2. clear s2. rewrite E, link_ptr, link_live by (done || lia).
  set (x := ps_entry_new p0 h l) in *. set (s2 := put_entry (LSlot p) x s1). set (r := ps_entry_new p h 1). set (s3 := set_root r s2).
  assert (Hx : x <> 0) by (apply link_some; unfold h; lia). assert (Hr : r <> 0) by (apply link_some; unfold h; lia).
  assert (Pr : ptr r = p) by (by apply link_ptr). assert (Px : ptr x = p0) by (by apply link_ptr).
  assert (Hw : forall i, 0 <= i < 512 -> words s3 (slot p i) = if i =? 0 then x else 0).
  { intros i Hi. cbn [s3 s2 set_root put_entry set_words words]. unfold slot. destruct (Z.eqb_spec i 0) as [->|Hn].
    - rewrite (proj2 (Z.eqb_eq (p + 8 * 0) p)) by lia. done.
    - rewrite (proj2 (Z.eqb_neq (p + 8 * i) p)) by lia. apply (fp_index _ _ _ _ _ F); [done|]. unfold in_page. change PAGE_SIZE with 4096.
      apply andb_true_iff. split; [apply Z.leb_le|apply Z.ltb_lt]; lia. }
  assert (Hold : forall d q e i, (S d < H)%nat -> links s d q = Some e -> 0 <= i < 512 -> words s3 (slot (ptr e) i) = words s (slot (ptr e) i)).
  { intros d q e i Hd He Hi. destruct (tree_ptr _ H _ _ _ d q e T ltac:(lia) He) as [Ho _]. unfold slot.
    assert (Hoff : in_page p (ptr e + 8 * i) = false).
    { apply (off_page (heap s) (heap s1) p (ptr e) _ 8); try done; try lia. apply (tr_heap _ _ _ _ _ T). }
    cbn [s3 s2 set_root put_entry set_words words]. destruct (Z.eqb_spec (ptr e + 8 * i) p) as [Eq|Hn].
    - rewrite Eq in Hoff. unfold in_page in Hoff. change PAGE_SIZE with 4096 in Hoff. rewrite (proj2 (Z.leb_le p p)), (proj2 (Z.ltb_lt p (p + 4096))) in Hoff by lia. done.
    - by apply (fp_words _ _ _ _ _ F). }
  assert (L0 : forall q, links s3 0 q = if q =? 0 then Some r else None).
  { intros q. unfold links, lk. cbn [s3 set_root root]. rewrite (proj2 (Z.eqb_neq r 0) Hr). by rewrite andb_true_r. }
  assert (L1 : forall q, links s3 1 q = if q =? 0 then Some x else None).
  { intros q. rewrite links_S, L0. pose proof (Z.mod_pos_bound q 512 ltac:(lia)). destruct (Z.eqb_spec (q / 512) 0) as [Eq|Hn].
    - cbn [child]. rewrite Pr, Hw by lia. assert (Hq : q mod 512 = q) by dlia. rewrite Hq. destruct (Z.eqb_spec q 0); [by rewrite (proj2 (Z.eqb_neq x 0) Hx)|done].
    - destruct (Z.eqb_spec q 0) as [->|]; [done|done]. }
  assert (Lo : forall q, links s 0 q = if q =? 0 then Some (ps_entry_new p0 (Z.of_nat H) l) else None).
  { intros q. unfold links, lk. rewrite E. rewrite (proj2 (Z.eqb_neq (ps_entry_new p0 (Z.of_nat H) l) 0)) by (apply link_some; lia). by rewrite andb_true_r. }
  assert (LS : forall d q, (1 <= d < H)%nat -> links s3 (S d) q = links s d q).
  { intros d. induction d as [|d IH]; intros q Hd; [lia|]. rewrite !(links_S _ (S d)), (links_S s d). destruct (Nat.eq_dec d 0%nat) as [->|Hn].
    - rewrite L1, Lo. destruct (q / 512 =? 0); [|done]. cbn [child]. rewrite Px, link_ptr by done.
      pose proof (Hold 0%nat 0 (ps_entry_new p0 (Z.of_nat H) l) (q mod 512) ltac:(lia) ltac:(by rewrite Lo) ltac:(apply Z.mod_pos_bound; lia)) as Hw0.
      rewrite link_ptr in Hw0 by done. by rewrite Hw0.
    - rewrite IH by lia. destruct (links s d (q / 512)) as [e|] eqn:Ee; [|done]. cbn [child]. rewrite (Hold d (q / 512) e); [done|lia|done|apply Z.mod_pos_bound; lia]. }
  assert (Ta : taller (links s) (links s3) H p0 l r) by (by constructor).
  destruct (tree_raise (links s) (links s3) H p0 l p (leaves s) (leaves s1) (heap s) (heap s1) T Ta Hok1 N1 N2 (fresh_leaves s s1 p true false (tr_heap _ _ _ _ _ T) F)) as [T3 M3].
  split; [|cbn [s2 put_entry set_words words]; by rewrite Z.eqb_refl]. constructor; [|exact M3|cbn; apply (fp_size _ _ _ _ _ F)|].
  - constructor; [lia|split; [done|lia]|exact T3].
  - apply keeps_foreign; [exact M3|cbn; rewrite N2; apply union_subseteq_r|]. intros d q y Hd Hy. unfold ptrs in Hy. destruct (links s3 d q) as [e|] eqn:Ee; [|done].
    cbn in Hy. injection Hy as <-. destruct (ta_back (links s) (links s3) H p0 l r Ta d q e Hd Ee) as [(-> & -> & ->)|(d0 & e0 & -> & E0 & Ep)]; [left; by rewrite Pr|right].
    exists d0. split; [lia|]. unfold ptrs. rewrite E0. cbn. by rewrite Ep.
Qed.

Lemma raise_loop_ok target fuel : forall s H child, ok s H -> (H = 0%nat -> child = 0) -> 2 <= target <= 4 -> (Z.to_nat target - H <= fuel)%nat ->
  exists err s' H', raise_loop fuel target child s = Some (err, s') /\ keeps s s' H H' /\ (err = REND_SUCCESS /\ target <= Z.of_nat H' \/ err = - E_REND_NO_MEM).
Proof.
  induction fuel as [|fuel IH]; intros s H child O Hc Ht Hf; cbn [raise_loop]; rewrite (ok_stored even s H O).
  - rewrite (proj2 (Z.ltb_ge _ _)) by lia. exists REND_SUCCESS, s, H. split_and!; [done|by apply keeps_refl|left; split; [done|lia]].
  - destruct (Z.ltb_spec (Z.of_nat H) target) as [Hlt|Hge]; cbn [negb].
    2: { exists REND_SUCCESS, s, H. split_and!; [done|by apply keeps_refl|left; split; [done|lia]]. }
    destruct (alloc_index_page s) as [p s1] eqn:Ea. destruct (alloc_index_cases s p s1 (tr_heap _ _ _ _ _ (ok_tree _ _ _ O)) Ea) as [[-> N]|[Np F]].
    { change (0 =? 0) with true. cbv iota. exists (- E_REND_NO_MEM), s1, H. split_and!; [done|by apply no_page_keeps|by right]. }
    rewrite (proj2 (Z.eqb_neq p 0) Np). pose proof (fp_root _ _ _ _ _ F) as Er.
    assert (Es1 : page_slice_root_is_leaf s1 = (H =? 1)%nat /\ page_slice_root_is_index s1 = (2 <=? H)%nat /\ page_slice_root_live s1 = page_slice_root_live s /\
                  page_slice_root_get_leaf s1 = page_slice_root_get_leaf s /\ page_slice_root_get_index s1 = page_slice_root_get_index s).
    { rewrite <- (ok_is_leaf even s H O), <- (ok_is_index even s H O).
      unfold page_slice_root_get_leaf, page_slice_root_get_index, page_slice_root_live, page_slice_root_is_index, page_slice_root_is_leaf, page_slice_root_empty, page_slice_stored_height.
      by rewrite Er. }
    destruct Es1 as (-> & -> & -> & -> & ->). change PS_HEIGHT_EMPTY with 0. change PS_HEIGHT_INDEX1 with 2.
    assert (Next : forall s3 H3 c3, keeps s s3 H H3 -> (H3 = 0%nat -> c3 = 0) -> (H < H3)%nat ->
      exists err s' H', raise_loop fuel target c3 s3 = Some (err, s') /\ keeps s s' H H' /\ (err = REND_SUCCESS /\ target <= Z.of_nat H' \/ err = - E_REND_NO_MEM)).
    { intros s3 H3 c3 G Hc3 HH. destruct (IH s3 H3 c3 (kp_ok _ _ _ _ G) Hc3 Ht ltac:(lia)) as (err & s' & H' & E1 & G' & E2).
      exists err, s', H'. split_and!; [done|by apply (keeps_trans s s3 s' H H3 H')|done]. }
    destruct (Nat.eqb_spec H 1) as [->|Hn1]; [|destruct (Nat.eq_dec H 0%nat) as [->|Hn0]].
    + destruct (root_leaf s O) as (-> & Nr & Hl). change (Z.of_nat 1 =? 0) with false. rewrite (proj2 (Z.eqb_neq _ 0) Nr), (ok_live even s 1 O) by lia. cbv zeta.
      destruct (raise_step s s1 1 p O ltac:(lia) F) as [G Hw]. change (u8 (Z.of_nat 1 + 1)) with (Z.of_nat 2).
      unfold ps_entry_is_none, tp_is_none. rewrite (proj2 (Z.eqb_neq _ 0) Hw). apply (Next _ 2%nat); [exact G|done|lia].
    + change (Z.of_nat 0 =? 0) with true. change (2 <=? 0)%nat with false. cbv iota. rewrite (Hc eq_refl). change (0 =? 0) with true. cbv iota zeta.
      assert (Hw : words s1 p = 0).
      { apply (fp_index _ _ _ _ _ F); [done|]. unfold in_page. change PAGE_SIZE with 4096. rewrite (proj2 (Z.leb_le p p)), (proj2 (Z.ltb_lt p (p + 4096))) by lia. done. }
      unfold ps_entry_is_none, tp_is_none. rewrite Hw. change (0 =? 0) with true. cbv iota.
      destruct (plant_ok s s1 p true false 2 O F ltac:(by right)) as [G _]. apply (Next _ 2%nat); [exact G|done|lia].
    + rewrite (proj2 (Z.eqb_neq (Z.of_nat H) 0)), (proj2 (Nat.leb_le 2 H)) by lia. destruct (root_index s H O ltac:(lia)) as (-> & Nr & Hl).
      rewrite (proj2 (Z.eqb_neq _ 0) Nr), (ok_live even s H O) by lia. cbv zeta. rewrite u8_small by lia. replace (Z.of_nat H + 1) with (Z.of_nat (S H)) by lia.
      destruct (raise_step s s1 H p O ltac:(lia) F) as [G Hw]. unfold ps_entry_is_none, tp_is_none. rewrite (proj2 (Z.eqb_neq _ 0) Hw).
      apply (Next _ (S H)); [exact G|done|lia].
Qed.
Lemma raise_height_ok s H target : ok s H -> 1 <= target <= 4 ->
  exists err s' H', ps_raise_height target s = Some (err, s') /\ keeps s s' H H' /\
    (err = REND_SUCCESS /\ (target <= Z.of_nat H' \/ target = 1 /\ H' = 0%nat) \/ err = - E_REND_NO_MEM).
Proof.
  intros O Ht. unfold ps_raise_height. change PS_HEIGHT_INDEX1 with 2. change PS_HEIGHT_INDEX3 with 4. destruct (Z.ltb_spec target 2).
  - exists REND_SUCCESS, s, H. split_and!; [done|by apply keeps_refl|left; split; [done|lia]].
  - rewrite (proj2 (Z.ltb_ge 4 target)) by lia. destruct (raise_loop_ok target 4 s H 0 O ltac:(done) ltac:(lia) ltac:(lia)) as (err & s' & H' & E1 & G & E2).
    exists err, s', H'. split_and!; [done|done|]. destruct E2 as [[-> ?] | ->]; [left; split; [done|by left]|by right].
Qed.
End Height.
