(* ===== verification/PageSliceInsert.v ===== *)
(** * Lookup and insertion in a page slice

    The descent that makes the pages it misses ([descend_pgoff_grow]), the
    slice as a map from page offsets to entries ([slice_ok], [slice_map]), and
    what [page_slice_lookup] and [page_slice_insert_page] do to that map. *)
From S2P Require Import Prelude Mm TaggedPtr Allocator PageSlice PageSliceTree PageSliceLinks PageSliceWalk PageSliceGrow.

Section Insert.
Context {A : Type} {HA : Allocator A} {HP : PageHeap A}.
Implicit Types (s : page_slice A).
Notation ptr e := (ps_entry_get_ptr e).
Notation ok := (ok_with even).

Lemma ptrs_links s s' d q e : links s d q = Some e -> ptrs s' d q = ptrs s d q -> exists e', links s' d q = Some e' /\ ptr e' = ptr e.
Proof. unfold ptrs. intros He Hp. rewrite He in Hp. destruct (links s' d q) as [e'|]; [|done]. exists e'. cbn in Hp. by injection Hp as ->. Qed.

Lemma descend_grow pgoff n : forall s H d e, ok s H -> (d + n + 2 = H)%nat -> links s d (pref H d pgoff) = Some e ->
  exists err x s', descend_loop true false pgoff n (ptr e, Z.of_nat H - Z.of_nat d, loc s d (pref H d pgoff), []) s = (err, x, s') /\ keeps s s' H H /\
    (err = REND_SUCCESS /\ (exists e2, links s' (H - 2) (pref H (H - 2) pgoff) = Some e2 /\ x = (ptr e2, 2, loc s' (H - 2) (pref H (H - 2) pgoff), []))
     \/ err = - E_REND_NO_MEM).
Proof.
  induction n as [|n IH]; intros s H d e O HdH He.
  - exists REND_SUCCESS. eexists. exists s. split; [done|]. split; [by apply keeps_refl|]. left. split; [done|].
    replace (H - 2)%nat with d by lia. exists e. split; [done|]. by replace (Z.of_nat H - Z.of_nat d) with 2 by lia.
  - cbn [descend_loop]. cbv zeta. pose proof (ok_height _ _ _ O) as Hh.
    assert (Ei : PAGE_SLICE_INDEX_ENTRY pgoff (Z.of_nat (S n)) = pref H (S d) pgoff mod 512) by (rewrite pref_slot by lia; do 2 f_equal; lia).
    set (q := pref H (S d) pgoff) in *. assert (Hpe : links s d (q / 512) = Some e) by (unfold q; by rewrite pref_parent by lia).
    assert (Hq : pref H d pgoff = q / 512) by (unfold q; by rewrite pref_parent by lia). rewrite Ei, Hq.
    pose proof (slot_value s d q e Hpe) as Hv. pose proof (loc_slot s d q e Hpe) as Hloc. set (a := slot (ptr e) (q mod 512)) in *.
    unfold page_slice_index_entry_empty, ps_entry_is_none, tp_is_none.
    (* go on from a state in which the link exists *)
    assert (Next : forall s1 e1, keeps s s1 H H -> links s1 (S d) q = Some e1 -> words s1 a = e1 -> loc s1 (S d) q = LSlot a ->
      exists err x s', (let index_page := ps_entry_as_index_page (words s1 a) in
         if index_page =? 0 then (- E_RENDEZVOS, (ptr e, Z.of_nat H - Z.of_nat d, loc s d (q / 512), []), s1)
         else descend_loop true false pgoff n (index_page, u8 (Z.of_nat H - Z.of_nat d - 1), LSlot a, []) s1) = (err, x, s') /\ keeps s s' H H /\
        (err = REND_SUCCESS /\ (exists e2, links s' (H - 2) (pref H (H - 2) pgoff) = Some e2 /\ x = (ptr e2, 2, loc s' (H - 2) (pref H (H - 2) pgoff), []))
         \/ err = - E_REND_NO_MEM)).
    { intros s1 e1 G E1 W1 L1. destruct (index_link even s1 H (S d) q e1 (kp_ok _ _ _ _ G) ltac:(lia) E1) as ([[=]|Ep] & Np & _).
      cbv zeta. rewrite W1, Ep, (proj2 (Z.eqb_neq _ 0) Np), <- L1, u8_small by lia.
      replace (Z.of_nat H - Z.of_nat d - 1) with (Z.of_nat H - Z.of_nat (S d)) by lia.
      destruct (IH s1 H (S d) e1 (kp_ok _ _ _ _ G) ltac:(lia) E1) as (err & x & s' & R1 & R2 & R3). exists err, x, s'.
      split; [exact R1|]. split; [by apply (keeps_trans s s1 s' H H H)|done]. }
    destruct (Z.eqb_spec (words s a) 0) as [Ez|Ez]; cbn [negb].
    + destruct (alloc_index_page s) as [p s1] eqn:Ea. destruct (alloc_index_cases s p s1 (tr_heap _ _ _ _ _ (ok_tree _ _ _ O)) Ea) as [[-> N]|[Np F]].
      { change (0 =? 0) with true. change (negb (- E_REND_NO_MEM =? REND_SUCCESS)) with true. cbv iota. do 3 eexists. split; [done|]. split; [by apply no_page_keeps|by right]. }
      rewrite (proj2 (Z.eqb_neq p 0) Np). change (negb (REND_SUCCESS =? REND_SUCCESS)) with false. cbn [andb]. cbv iota.
      destruct (hang_keeps s s1 H d q e p true false O ltac:(lia) Hpe Hv F ltac:(done) ltac:(lia)) as (G & P1 & P2). cbv zeta in G, P1, P2.
      rewrite Hloc in G, P1, P2. assert (Hg : hgt H (S d) = Z.of_nat H - Z.of_nat d) by (unfold hgt; lia). rewrite Hg in G, P1, P2.
      set (s2 := ps_entry_live_inc (loc s d (q / 512)) (put_entry (LSlot a) (ps_entry_new p (Z.of_nat H - Z.of_nat d) 0) s1)) in *.
      assert (L2 : loc s2 (S d) q = LSlot a).
      { rewrite <- Hloc. apply loc_ptrs. intros d0 x [= ->]. apply P1; [lia|intros [=]; lia]. }
      unfold ptrs in P2. destruct (links s2 (S d) q) as [e1|] eqn:E1; [|done]. pose proof (get_loc s2 (S d) q e1 E1) as W1. rewrite L2 in W1. by apply (Next s2 e1).
    + change (negb (REND_SUCCESS =? REND_SUCCESS)) with false. cbn [andb]. cbv iota. apply (Next s (words s a)); [by apply keeps_refl|done|done|done].
Qed.

(** the leaf page is there afterwards *)
Definition at_leaf s (H : nat) (pgoff addr : Z) : Prop := (1 <= H)%nat /\ exists e, links s (H - 1) (pgoff / 128) = Some e /\ addr = addr_of e pgoff.
Lemma descend_pgoff_grow s H pgoff : ok s H -> 0 <= pgoff < 2 ^ 34 -> ps_required_height_for_pgoff pgoff <= Z.of_nat H \/ ps_required_height_for_pgoff pgoff = 1 /\ H = 0%nat ->
  exists err addr s' H', ps_descend_pgoff pgoff true false s = (err, (addr, []), s') /\ keeps s s' H H' /\
    (err = REND_SUCCESS /\ at_leaf s' H' pgoff addr \/ err = - E_REND_NO_MEM).
Proof.
  intros O Hp Hreq. pose proof (ok_height _ _ _ O) as Hh. unfold ps_descend_pgoff. rewrite (ok_stored even s H O). cbn [negb andb]. change PS_HEIGHT_INDEX1 with 2.
  destruct (Nat.eq_dec H 0%nat) as [->|Hn0]; [|destruct (Nat.eq_dec H 1%nat) as [->|Hn1]].
  - change (2 <=? Z.of_nat 0) with false. cbv iota. rewrite (ok_is_leaf even s 0 O). change (0 =? 1)%nat with false. cbv iota. unfold descend_leaf. cbn [get_entry].
    unfold page_slice_index_entry_empty, ps_entry_is_none, tp_is_none. rewrite (proj2 (ok_empty _ _ _ O) eq_refl). change (0 =? 0) with true. cbn [negb]. cbv iota.
    destruct (ps_alloc_leaf_page s) as [p s1] eqn:Ea. destruct (alloc_leaf_cases s p s1 (tr_heap _ _ _ _ _ (ok_tree _ _ _ O)) Ea) as [[-> N]|[Np F]].
    { change (0 =? 0) with true. cbv iota. do 3 eexists. exists 0%nat. split; [done|]. split; [by apply no_page_keeps|by right]. }
    rewrite (proj2 (Z.eqb_neq p 0) Np). cbv zeta. destruct (plant_ok s s1 p false true 1 O F ltac:(by left)) as [G L]. do 3 eexists. exists 1%nat.
    split; [done|]. split; [exact G|]. left. split; [done|]. split; [done|]. exists (ps_entry_new p 1 0).
    pose proof (required_range pgoff) as Hrr. assert (Hreq1 : ps_required_height_for_pgoff pgoff = 1) by lia. assert (Hq : pgoff / 128 = 0).
    { pose proof (required_height 1 pgoff ltac:(lia) Hp) as R. rewrite Hreq1 in R. change (Z.of_nat 1 <? 1) with false in R. symmetry in R. apply negb_false_iff, Z.eqb_eq in R. exact R. }
    change (1 - 1)%nat with 0%nat. rewrite Hq. split; [exact L|]. unfold addr_of. rewrite leaf_idx_arith.
    rewrite link_ptr; [done|]. apply (ph_ptr (heap s1)); [apply (fp_heap _ _ _ _ _ F)|]. rewrite (proj2 (fp_new _ _ _ _ _ F)). apply elem_of_union_l, elem_of_singleton. reflexivity.
  - change (2 <=? Z.of_nat 1) with false. cbv iota. rewrite (ok_is_leaf even s 1 O). change (1 =? 1)%nat with true. cbv iota.
    destruct (root_leaf s O) as (-> & Np & Hl). rewrite (proj2 (Z.eqb_neq _ 0) Np). do 3 eexists. exists 1%nat. split; [done|]. split; [by apply keeps_refl|].
    left. split; [done|]. split; [done|]. exists (root s). assert (Hq : pgoff / 128 = 0).
    { pose proof (required_height 1 pgoff ltac:(lia) Hp) as R. rewrite (proj2 (Z.ltb_ge (Z.of_nat 1) (ps_required_height_for_pgoff pgoff))) in R by lia. symmetry in R. apply negb_false_iff, Z.eqb_eq in R. exact R. }
    change (1 - 1)%nat with 0%nat. rewrite Hq. split; [exact Hl|]. unfold addr_of. by rewrite leaf_idx_arith.
  - rewrite (proj2 (Z.leb_le 2 _)) by lia. destruct (root_index s H O ltac:(lia)) as (-> & Np & Hl). rewrite (proj2 (Z.eqb_neq _ 0) Np).
    assert (Hz : pref H 0 pgoff = 0).
    { pose proof (required_height H pgoff ltac:(lia) Hp) as R. rewrite (proj2 (Z.ltb_ge (Z.of_nat H) (ps_required_height_for_pgoff pgoff))) in R by lia. symmetry in R. apply negb_false_iff, Z.eqb_eq in R. exact R. }
    destruct (descend_grow pgoff (H - 2) s H 0 (root s) O ltac:(lia) ltac:(by rewrite Hz)) as (err & x & s1 & R1 & G1 & R2).
    cbn [loc] in R1. rewrite Z.sub_0_r in R1. replace (Z.to_nat (Z.of_nat H - 2)) with (H - 2)%nat by lia. rewrite R1. clear R1.
    destruct R2 as [[-> (e2 & E2 & ->)] | ->].
    2: { change (negb (- E_REND_NO_MEM =? REND_SUCCESS)) with true. cbv iota. do 3 eexists. exists H. split; [done|]. split; [done|by right]. }
    change (negb (REND_SUCCESS =? REND_SUCCESS)) with false. cbv iota. pose proof (kp_ok _ _ _ _ G1) as O1. unfold descend_leaf. cbn [get_entry]. rewrite leaf_idx_arith.
    destruct (bottom_slot s1 H pgoff e2 ltac:(lia) E2) as [Hloc Hv]. set (a := slot (ptr e2) (PAGE_SLICE_INDEX_ENTRY pgoff 0)) in *.
    unfold page_slice_index_entry_empty, ps_entry_is_none, tp_is_none. destruct H as [|[|D]]; [done|done|]. replace (S (S D) - 1)%nat with (S D) in * by lia. replace (S (S D) - 2)%nat with D in * by lia.
    destruct (Z.eqb_spec (words s1 a) 0) as [Ez|Ez]; cbn [negb].
    + destruct (ps_alloc_leaf_page s1) as [p s2] eqn:Ea. destruct (alloc_leaf_cases s1 p s2 (tr_heap _ _ _ _ _ (ok_tree _ _ _ O1)) Ea) as [[-> N]|[Np2 F]].
      { change (0 =? 0) with true. cbv iota. do 3 eexists. exists (S (S D)). split; [done|]. split; [|by right]. apply (keeps_trans s s1 s2 _ (S (S D))); [done|by apply no_page_keeps]. }
      rewrite (proj2 (Z.eqb_neq p 0) Np2). assert (Hpar : pref (S (S D)) D pgoff = (pgoff / 128) / 512).
      { rewrite <- (pref_leaf (S (S D)) pgoff) by lia. replace (S (S D) - 1)%nat with (S D) by lia. by rewrite pref_parent by lia. }
      destruct (hang_keeps s1 s2 (S (S D)) D (pgoff / 128) e2 p false true O1 ltac:(lia) ltac:(by rewrite <- Hpar) Hv F ltac:(lia) ltac:(done)) as (G & P1 & P2). cbv zeta in G, P1, P2.
      rewrite Hloc in G, P1, P2. assert (Hg : hgt (S (S D)) (S D) = 2) by (unfold hgt; lia). rewrite Hg, <- Hpar in G, P1, P2. cbv zeta.
      do 3 eexists. exists (S (S D)). split; [done|]. split; [by apply (keeps_trans s s1 _ _ (S (S D)))|]. left. split; [done|]. split; [lia|]. replace (S (S D) - 1)%nat with (S D) by lia.
      set (s3 := ps_entry_live_inc _ _) in *. unfold ptrs in P2. destruct (links s3 (S D) (pgoff / 128)) as [e|] eqn:E3; [|done]. exists e. split; [done|].
      cbn in P2. injection P2 as P2. unfold addr_of. by rewrite P2.
    + destruct (leaf_link even s1 D (pgoff / 128) (words s1 a) O1 Hv) as (-> & Ne & _). rewrite (proj2 (Z.eqb_neq _ 0) Ne). do 3 eexists. exists (S (S D)).
      split; [done|]. split; [done|]. left. split; [done|]. split; [lia|]. replace (S (S D) - 1)%nat with (S D) by lia. by exists (words s1 a).
Qed.

(** ** The slice as a map *)

Definition hof s : nat := Z.to_nat (page_slice_stored_height s).
Definition slice_map s (pgoff : Z) : option page_slice_entry := view s (hof s) pgoff.
Record slice_ok s : Prop := {
  so_tree : ok s (hof s);
  so_size : 0 <= size s <= PAGE_SLICE_MAX_BYTE_SIZE;
  so_inside : forall o, is_Some (slice_map s o) -> 0 <= o < page_slice_page_count s
}.
(** a page the slice may take over *)
Definition spare s (k : Z) : Prop := foreign s (hof s) k.

Lemma hof_ok sk s H : ok_with sk s H -> hof s = H.
Proof. intros O. unfold hof. rewrite (ok_stored sk s H O). lia. Qed.
Lemma slice_ok_of s H : ok s H -> 0 <= size s <= PAGE_SLICE_MAX_BYTE_SIZE -> (forall o, is_Some (view s H o) -> 0 <= o < page_slice_page_count s) ->
  slice_ok s /\ forall pgoff, slice_map s pgoff = view s H pgoff.
Proof.
  intros O Hs Hi. assert (E : forall pgoff, slice_map s pgoff = view s H pgoff) by (intros pgoff; unfold slice_map; by rewrite (hof_ok even s H O)).
  split; [|done]. constructor; [by rewrite (hof_ok even s H O)|done|]. intros o. rewrite E. apply Hi.
Qed.
Lemma page_count_same s s' : size s' = size s -> page_slice_page_count s' = page_slice_page_count s.
Proof. unfold page_slice_page_count. by intros ->. Qed.
Lemma page_count_bound s : 0 <= size s <= PAGE_SLICE_MAX_BYTE_SIZE -> 0 <= page_slice_page_count s <= 2 ^ 34.
Proof.
  intros Hs. change PAGE_SLICE_MAX_BYTE_SIZE with 70368744177664 in Hs. unfold page_slice_page_count, PAGE_SLICE_SIZE_TO_PAGE_COUNT. change PAGE_SIZE with 4096.
  destruct (Z.eqb_spec (size s) 0); [lia|]. rewrite !u64_small by (rewrite ?u64_small; lia). change (2 ^ 34) with 17179869184. dlia.
Qed.

Lemma lookup_effect s pgoff : slice_ok s -> 0 <= pgoff ->
  exists r, page_slice_lookup pgoff s = Some r /\
    match r with
    | Some a => pgoff < page_slice_page_count s /\ slice_map s pgoff = Some (leaves s a)
    | None => page_slice_page_count s <= pgoff \/ slice_map s pgoff = None
    end.
Proof.
  intros [O Hs Hin] H0. unfold page_slice_lookup, ps_get_entry, ps_pgoff_valid. pose proof (page_count_bound s Hs) as Hc.
  destruct (Z.leb_spec (page_slice_page_count s) pgoff) as [Hle|Hlt].
  { change (negb (- E_IN_PARAM =? REND_SUCCESS)) with true. cbv iota. cbn [mbind option_bind]. change (negb (- E_IN_PARAM =? REND_SUCCESS)) with true. cbv iota. exists None. split; [done|by left]. }
  change (negb (REND_SUCCESS =? REND_SUCCESS)) with false. cbv iota. cbn [mbind option_bind].
  pose proof (descend_pgoff_read s (hof s) false pgoff O ltac:(lia)) as R. unfold slice_map, view, mapped, leaf_at. destruct (hof s) as [|D].
  - change (0 =? 0)%nat with true in R. cbv iota in R. destruct R as [[x y] ->]. change (negb (- E_REND_NOFOUND =? REND_SUCCESS)) with true. cbv iota. exists None. split; [done|by right].
  - change (S D =? 0)%nat with false in R. cbv iota in R. replace (S D - 1)%nat with D in R by lia. destruct (links s D (pgoff / 128)) as [e|].
    + rewrite R. change (negb (REND_SUCCESS =? REND_SUCCESS)) with false. cbv iota.
      destruct (pse_valid (leaves s (ptr e + 32 * (pgoff mod 128)))) eqn:Ev; cbn [negb]; eexists; (split; [done|]); [done|by right].
    + destruct R as [[x y] ->]. change (negb (- E_REND_NOFOUND =? REND_SUCCESS)) with true. cbv iota. exists None. split; [done|by right].
Qed.

Definition new_entry (kva fl : Z) (on_list : bool) : page_slice_entry := mk_pse kva (Z.lor fl PAGE_SLICE_FLAG_VALID) on_list.
Lemma new_entry_valid kva fl b : kva <> 0 -> pse_valid (new_entry kva fl b) = true.
Proof.
  intros Hk. unfold pse_valid, new_entry. cbn [pse_flags kernel_virtual_address]. rewrite (proj2 (Z.eqb_neq kva 0) Hk).
  change PAGE_SLICE_FLAG_VALID with (Z.ones 1). rewrite Z.land_lor_distr_l, Z.land_diag. destruct (Z.eqb_spec (Z.lor (Z.land fl (Z.ones 1)) (Z.ones 1)) 0) as [E|E]; [|done].
  apply Z.lor_eq_0_iff in E as [_ E]. discriminate E.
Qed.

Lemma slice_insert_effect s pgoff kva fl : slice_ok s -> 0 <= pgoff -> (pinned (new_entry kva fl false) = false -> spare s kva) ->
  exists err s', page_slice_insert_page pgoff kva fl s = Some (err, s') /\ slice_ok s' /\ size s' = size s /\ (forall k, (k = kva -> err <> REND_SUCCESS) -> spare s k -> spare s' k) /\
    if (kva =? 0) || (page_slice_page_count s <=? pgoff) then err = - E_IN_PARAM /\ s' = s
    else
      err = - E_REND_NO_MEM /\ (forall o, slice_map s' o = slice_map s o) \/
      match slice_map s pgoff with
      | Some x => err = (if kernel_virtual_address x =? kva then REND_SUCCESS else - E_REND_AGAIN) /\ forall o, slice_map s' o = slice_map s o
      | None => err = REND_SUCCESS /\ mapped_entries s' = u64 (mapped_entries s + 1) /\
          exists b, forall o, slice_map s' o = if o =? pgoff then Some (new_entry kva fl b) else slice_map s o
      end.
Proof.
  intros [O Hs Hin] H0 Hsp. unfold page_slice_insert_page, ps_get_entry, ps_pgoff_valid. pose proof (page_count_bound s Hs) as Hc.
  destruct (Z.eqb_spec kva 0) as [->|Hk]; cbn [orb]; [by exists (- E_IN_PARAM), s|].
  destruct (Z.leb_spec (page_slice_page_count s) pgoff) as [Hle|Hlt]; [by exists (- E_IN_PARAM), s|].
  change (negb (REND_SUCCESS =? REND_SUCCESS)) with false. cbv iota. set (H := hof s) in *.
  assert (Done : forall s' H', keeps s s' H H' -> slice_ok s' /\ size s' = size s /\ (forall k, spare s k -> spare s' k) /\ forall o, slice_map s' o = slice_map s o).
  { intros s' H' [G1 G2 [G3 G4] G5]. destruct (slice_ok_of s' H' G1 ltac:(by rewrite G3)) as [S1 S2].
    { intros o. rewrite G2, (page_count_same s s' G3). apply Hin. }
    split_and!; [done|done| |intros o; rewrite S2, G2; done]. intros k Hsk. unfold spare. rewrite (hof_ok even s' H' G1). by apply G5. }
  destruct (raise_height_ok s H (ps_required_height_for_pgoff pgoff) O (required_range pgoff)) as (err & s1 & H1 & -> & G1 & R1). cbn [mbind option_bind].
  destruct R1 as [[-> R1] | ->].
  2: { change (negb (- E_REND_NO_MEM =? REND_SUCCESS)) with true. cbv iota. cbn [mbind option_bind]. change (negb (- E_REND_NO_MEM =? REND_SUCCESS)) with true. cbv iota.
       destruct (Done s1 H1 G1) as (D1 & D2 & D5 & D3). do 2 eexists. split; [done|]. split_and!; [done|done|intros k _; apply D5|by left]. }
  change (negb (REND_SUCCESS =? REND_SUCCESS)) with false. cbv iota.
  destruct (descend_pgoff_grow s1 H1 pgoff (kp_ok _ _ _ _ G1) ltac:(lia) ltac:(lia)) as (err & addr & s2 & H2 & -> & G2 & R2). cbn [mbind option_bind].
  pose proof (keeps_trans s s1 s2 H H1 H2 G1 G2) as G. destruct (Done s2 H2 G) as (D1 & D2 & D5 & D3). destruct R2 as [[-> [HH (e & He & ->)]] | ->].
  2: { change (negb (- E_REND_NO_MEM =? REND_SUCCESS)) with true. cbv iota. do 2 eexists. split; [done|]. split_and!; [done|done|intros k _; apply D5|by left]. }
  change (negb (REND_SUCCESS =? REND_SUCCESS)) with false. cbv iota. destruct H2 as [|D]; [lia|]. replace (S D - 1)%nat with D in He by lia.
  pose proof (kp_ok _ _ _ _ G) as O2. pose proof (ok_tree _ _ _ O2) as T2. set (a := addr_of e pgoff) in *.
  assert (Hat : view s2 (S D) pgoff = if pse_valid (leaves s2 a) then Some (leaves s2 a) else None) by (unfold view, mapped, leaf_at; by rewrite He).
  assert (Hm : slice_map s pgoff = if pse_valid (leaves s2 a) then Some (leaves s2 a) else None) by (rewrite <- Hat; symmetry; apply (kp_view _ _ _ _ G)).
  rewrite Hm. destruct (pse_valid (leaves s2 a)) eqn:Ev.
  { do 2 eexists. split; [done|]. split_and!; [done|done|intros k _; apply D5|right; by split]. }
  set (b := page_list_node (leaves s2 a)). fold (new_entry kva fl b). set (x := new_entry kva fl b).
  set (s3 := set_mapped _ (put_leaf a x s2)). pose proof (new_entry_valid kva fl b Hk) as Hx. fold x in Hx.
  assert (Tx : tree (links s3) (S D) (leaves s3) (heap s3) (only D (pgoff / 128) 1)).
  { apply (tree_set (links s2) D (leaves s2) (heap s2) pgoff e x T2 He Ev Hx). intros Hp. assert (Hf : foreign s2 (S D) kva) by (apply (kp_foreign _ _ _ _ G), Hsp; exact Hp).
    destruct Hf as [F1 F2 F3]. split_and!; [exact F1| |exact F3]. intros d q e0 Hd He0 Eq. apply (F2 d q Hd). unfold ptrs. rewrite He0. cbn. f_equal. exact Eq. }
  assert (O3 : ok_with (only D (pgoff / 128) 1) s3 (S D)) by (constructor; [apply (ok_height _ _ _ O2)|apply (ok_empty _ _ _ O2)|exact Tx]).
  assert (Eidx : ps_leaf_index_entry pgoff s3 = Some (loc s3 D (pgoff / 128))).
  { transitivity (ps_leaf_index_entry pgoff s2); [done|]. pose proof (leaf_index_read s2 (S D) pgoff e O2 ltac:(lia)) as LI.
    replace (S D - 1)%nat with D in LI by lia. exact (LI He). }
  rewrite Eidx. destruct (live_inc_ok s3 (S D) D (pgoff / 128) e O3 ltac:(lia) He) as [O4 R]. destruct (rc_size _ _ _ R) as [Z1 Z2].
  destruct (slice_ok_of s2 (S D) O2 ltac:(by rewrite D2)) as [_ M2]; [intros o; rewrite (kp_view _ _ _ _ G), (page_count_same s s2 D2); apply Hin|].
  assert (V4 : forall o, view (ps_entry_live_inc (loc s3 D (pgoff / 128)) s3) (S D) o = if o =? pgoff then Some x else slice_map s o).
  { intros o. rewrite (rc_view _ _ _ R), <- D3, M2. unfold view.
    change (mapped (links s2) (S D) (put (leaves s2) (addr_of e pgoff) x) o = if o =? pgoff then Some x else mapped (links s2) (S D) (leaves s2) o).
    rewrite (mapped_put (links s2) D (leaves s2) (heap s2) even pgoff e x T2 He), Hx. done. }
  assert (Z3 : size (ps_entry_live_inc (loc s3 D (pgoff / 128)) s3) = size s) by (rewrite Z1; exact D2).
  destruct (slice_ok_of _ (S D) O4) as [S4 M4]; [by rewrite Z3| |].
  { intros o. rewrite V4, (page_count_same s _ Z3). destruct (Z.eqb_spec o pgoff) as [->|]; [lia|apply Hin]. }
  do 2 eexists. split; [done|]. split_and!; [exact S4|exact Z3| |].
  { intros k Hne Hspk. assert (Hnk : k <> kva) by (intros Ek; by apply (Hne Ek)). pose proof (D5 k Hspk) as [F1 F2 F3]. rewrite (hof_ok even s2 (S D) O2) in F2, F3. unfold spare. rewrite (hof_ok even _ (S D) O4). constructor.
    - rewrite (rc_heap _ _ _ R). exact F1.
    - intros d q Hd. unfold ptrs. rewrite (rc_links _ _ _ R) by done. by apply F2.
    - intros o y. rewrite V4. destruct (Z.eqb_spec o pgoff); [intros [= <-] _; by apply not_eq_sym|]. rewrite <- D3, M2. apply F3. }
  right. split_and!; [done|rewrite Z2; cbn; by rewrite (proj2 (kp_size _ _ _ _ G))|].
  exists b. intros o. by rewrite M4, V4.
Qed.
End Insert.
