(* ===== verification/PageSliceRemove.v ===== *)
(** * Removing a page

    The empty leaf page and the index pages that become empty with it are taken
    out of the tree and given back ([cascade_ok], [drop_ok]); what
    [ps_remove_page_locked] leaves behind ([removed]). *)
From S2P Require Import Prelude Mm TaggedPtr Allocator PageSlice PageSliceTree PageSliceLinks PageSliceWalk PageSliceGrow PageSliceInsert.

Section Remove.
Context {A : Type} {HA : Allocator A} {HP : PageHeap A}.
Implicit Types (s : page_slice A).
Notation ptr e := (ps_entry_get_ptr e).
Notation ok := (ok_with even).

(** a slice without a tree *)
Lemma no_tree_ok s : heap_ok (heap s) -> root s = 0 -> ok s 0 /\ forall pgoff, view s 0 pgoff = None.
Proof.
  intros Hh Hr. split; [|done]. constructor; [lia|done|]. constructor; [done|intros ? ? ?; lia| |intros ? ? ?; lia|intros ? ? ? ? ? ? ?; lia|done|done].
  intros q e. by rewrite links_root_none.
Qed.

(** the pages of the tree that are gone, the rest where it was *)
Record cut_at s s' (d : nat) (q : Z) (H : nat) : Prop := {
  ca_ptrs : forall d' q', (d' < H)%nat -> ptrs s' d' q' = if bool_decide ((d', q') = (d, q)) then None else ptrs s d' q';
  ca_heap : owned (heap s') = owned (heap s) ∖ {[ptr (default 0 (links s d q))]};
  ca_size : size s' = size s /\ mapped_entries s' = mapped_entries s
}.
Definition cut_link (l : eloc) (p : Z) s : page_slice A := put_entry l tp_new_none (free p s).

Lemma cut_inner s H d q pe e : ok s H -> (S d < H)%nat -> links s (S d) q = Some e -> used (links s) H (leaves s) (S d) q (ptr e) = 0 ->
  links s d (q / 512) = Some pe ->
  let s' := ps_entry_live_dec (loc s d (q / 512)) (cut_link (loc s (S d) q) (ptr e) s) in
  ok s' H /\ (forall pgoff, view s' H pgoff = view s H pgoff) /\ cut_at s s' (S d) q H.
Proof.
  intros O Hd He Hu Hpe s'. pose proof (ok_tree _ _ _ O) as T. destruct (used_nodes_zero _ _ _ _ _ _ _ _ T Hu) as [Hk _].
  destruct (tree_cut _ _ _ _ d q e T Hd He Hu) as [Tc Mc]. set (s1 := cut_link (loc s (S d) q) (ptr e) s) in *.
  assert (Hlc : loc s (S d) q = LSlot (slot (ptr pe) (q mod 512))) by (cbn [loc]; by rewrite Hpe).
  assert (Hf : root s1 = root s /\ leaves s1 = leaves s /\ heap s1 = m_free (heap s) (ptr e) /\ size s1 = size s /\ mapped_entries s1 = mapped_entries s) by (unfold s1, cut_link; by rewrite Hlc).
  destruct Hf as (R1 & R2 & R3 & R4 & R5).
  assert (HL : forall d' q', (d' < H)%nat -> links s1 d' q' = upd (links s) (S d) q None d' q').
  { intros d' q' Hd'. transitivity (links (put_entry (LSlot (slot (ptr pe) (q mod 512))) 0 s) d' q'); [unfold s1, cut_link; by rewrite Hlc|].
    apply (links_slot s H even d q pe 0 T Hd Hpe); [|done|done]. intros i Hi Hi2. change (0 =? 0) with true. cbv iota.
    pose proof (Hk (512 * q + i) Hi ltac:(dlia)) as Hn. rewrite links_S in Hn. replace ((512 * q + i) / 512) with q in Hn by dlia.
    replace ((512 * q + i) mod 512) with i in Hn by dlia. by rewrite Hn. }
  assert (O1 : ok_with (only d (q / 512) (- 1)) s1 H).
  { constructor; [apply (ok_height _ _ _ O)|by rewrite R1; apply (ok_empty _ _ _ O)|]. rewrite R2, R3.
    by apply (tree_ext (upd (links s) (S d) q None) _ _ _ _ (only d (q / 512) (- 1))); [| |lia|]. }
  assert (Hpe1 : links s1 d (q / 512) = Some pe) by (rewrite HL by lia; rewrite upd_other; [done|intros [=]; lia]).
  assert (Hlp : loc s d (q / 512) = loc s1 d (q / 512)).
  { symmetry. apply loc_ptrs. intros d1 y Hd1. unfold ptrs. rewrite HL by lia. rewrite upd_other; [done|intros [=]; lia]. }
  unfold s'. rewrite Hlp. destruct (live_dec_ok s1 H d (q / 512) pe O1 ltac:(lia) Hpe1) as [O2 R]. destruct (rc_size _ _ _ R) as [Z1 Z2].
  split; [exact O2|]. split.
  - intros pgoff. rewrite (rc_view _ _ _ R). unfold view. rewrite R2, <- Mc. unfold mapped, leaf_at. destruct H as [|D]; [lia|]. by rewrite HL by lia.
  - constructor; [| |split; congruence].
    + intros d' q' Hd'. unfold ptrs at 1. rewrite (rc_links _ _ _ R), HL by done. unfold upd. case_bool_decide; done.
    + rewrite (rc_heap _ _ _ R), R3, He. apply (ph_free _ _ (tr_heap _ _ _ _ _ T)).
Qed.
Lemma unused_view s H q e : ok s H -> links s 0 q = Some e -> used (links s) H (leaves s) 0 q (ptr e) = 0 -> forall pgoff, view s H pgoff = None.
Proof.
  intros O He Hu pgoff. pose proof (ok_tree _ _ _ O) as T. assert (q = 0) as -> by (by apply (tr_root _ _ _ _ _ T q e)).
  destruct (used_nodes_zero _ _ _ _ _ _ _ _ T Hu) as [Hk Hl]. unfold view, mapped, leaf_at. destruct H as [|[|D]]; [done| |].
  - destruct (links s 0 (pgoff / 128)) as [e'|] eqn:E'; [|done]. pose proof (tr_root _ _ _ _ _ T _ _ E') as Hq. rewrite Hq, He in E'. injection E' as <-.
    rewrite Hl; [done|done|]. apply Z.mod_pos_bound. lia.
  - assert (Hn : forall k x, (k <= D)%nat -> links s (S k) x = None).
    { intros k. induction k as [|k IH]; intros x Hkd.
      - destruct (links s 1 x) as [y|] eqn:Ey; [|done]. destruct (tr_up _ _ _ _ _ T 0%nat x y ltac:(lia) Ey) as [z Hz].
        pose proof (tr_root _ _ _ _ _ T _ _ Hz) as Hq. by rewrite (Hk x ltac:(lia) Hq) in Ey.
      - rewrite links_S, IH by lia. done. }
    by rewrite Hn.
Qed.
Lemma whole_gone s s' H : ok s H -> (0 < H)%nat -> used (links s) H (leaves s) 0 0 (ptr (root s)) = 0 -> root s' = 0 ->
  heap s' = m_free (heap s) (ptr (root s)) -> ok s' 0 /\ (forall pgoff, view s' 0 pgoff = view s H pgoff) /\ owned (heap s') = owned (heap s) ∖ {[ptr (root s)]}.
Proof.
  intros O HH Hu Hr Hh. destruct (ph_free (heap s) (ptr (root s)) (tr_heap _ _ _ _ _ (ok_tree _ _ _ O))) as [F1 F2]. rewrite <- Hh in F1, F2.
  destruct (no_tree_ok s' F1 Hr) as [O' V']. split_and!; [done| |done]. intros pgoff. rewrite V', (unused_view s H 0 (root s) O); [done| |done].
  apply links_root. intros Hz. apply (ok_empty _ _ _ O) in Hz. lia.
Qed.

Lemma diff_sub (X : gset Z) p : X ∖ {[p]} ⊆ X.
Proof. set_solver. Qed.
Lemma diff_out (X : gset Z) p : p ∉ X ∖ {[p]}.
Proof. set_solver. Qed.

(** ** Empty pages go *)

(** as [keeps], and the heap only got pages back *)
Record thins s s' (H H' : nat) : Prop := { th_keeps : keeps s s' H H'; th_owned : owned (heap s') ⊆ owned (heap s) }.
Lemma thins_refl s H : ok s H -> thins s s H H.
Proof. intros O. constructor; [by apply keeps_refl|done]. Qed.
Lemma thins_trans s1 s2 s3 H1 H2 H3 : thins s1 s2 H1 H2 -> thins s2 s3 H2 H3 -> thins s1 s3 H1 H3.
Proof. intros [K1 W1] [K2 W2]. constructor; [by apply (keeps_trans s1 s2 s3 H1 H2 H3)|by transitivity (owned (heap s2))]. Qed.
Lemma thins_of s s' H H' p : ok s' H' -> (forall pgoff, view s' H' pgoff = view s H pgoff) -> size s' = size s /\ mapped_entries s' = mapped_entries s ->
  owned (heap s') = owned (heap s) ∖ {[p]} -> (exists d q, (d < H)%nat /\ ptrs s d q = Some p) ->
  (forall d q x, (d < H')%nat -> ptrs s' d q = Some x -> exists d0 q0, (d0 < H)%nat /\ ptrs s d0 q0 = Some x) -> thins s s' H H'.
Proof.
  intros O V Z W (d0 & q0 & Hd0 & Hp) P. constructor; [|rewrite W; apply diff_sub]. constructor; [done|done|done|]. intros k [F1 F2 F3]. constructor.
  - rewrite W. apply elem_of_difference. split; [done|]. rewrite elem_of_singleton. intros ->. by apply (F2 d0 q0).
  - intros d q Hd Hk. destruct (P d q k Hd Hk) as (d1 & q1 & Hd1 & E). by apply (F2 d1 q1).
  - intros pgoff x. rewrite V. apply F3.
Qed.
Lemma cut_thins s H d q pe e : ok s H -> (S d < H)%nat -> links s (S d) q = Some e -> used (links s) H (leaves s) (S d) q (ptr e) = 0 ->
  links s d (q / 512) = Some pe ->
  let s' := ps_entry_live_dec (loc s d (q / 512)) (cut_link (loc s (S d) q) (ptr e) s) in
  thins s s' H H /\ forall d' q', (d' <= d)%nat -> ptrs s' d' q' = ptrs s d' q'.
Proof.
  intros O Hd He Hu Hpe s'. destruct (cut_inner s H d q pe e O Hd He Hu Hpe) as (O' & V & [P W Z]). fold s' in O', V, P, W, Z. split.
  - apply (thins_of s s' H H (ptr e)); [done|done|done|by rewrite W, He| |].
    + exists (S d), q. split; [done|]. unfold ptrs. by rewrite He.
    + intros d' q' x Hd' Hx. rewrite P in Hx by done. case_bool_decide; [done|]. by exists d', q'.
  - intros d' q' Hd'. rewrite P by lia. rewrite bool_decide_eq_false_2; [done|]. intros [=]; lia.
Qed.
Lemma gone_thins s s' H : ok s H -> (0 < H)%nat -> used (links s) H (leaves s) 0 0 (ptr (root s)) = 0 -> root s' = 0 ->
  heap s' = m_free (heap s) (ptr (root s)) -> size s' = size s /\ mapped_entries s' = mapped_entries s -> thins s s' H 0.
Proof.
  intros O HH Hu Hr Hh Z. destruct (whole_gone s s' H O HH Hu Hr Hh) as (O' & V & W). apply (thins_of s s' H 0 (ptr (root s))); [done|done|done|done| |].
  - exists 0%nat, 0. split; [done|]. unfold ptrs. rewrite links_root; [done|]. intros Hz. apply (ok_empty _ _ _ O) in Hz. lia.
  - intros d' q' x Hd'. lia.
Qed.
Lemma cut_root_thins s H q e : ok s H -> (0 < H)%nat -> links s 0 q = Some e -> used (links s) H (leaves s) 0 q (ptr e) = 0 ->
  thins s (cut_link LRoot (ptr e) s) H 0.
Proof.
  intros O HH He Hu. pose proof (tr_root _ _ _ _ _ (ok_tree _ _ _ O) _ _ He) as ->. assert (Hr : root s <> 0) by (intros Hz; apply (ok_empty _ _ _ O) in Hz; lia).
  rewrite links_root in He by done. injection He as <-. by apply (gone_thins s _ H).
Qed.
Lemma link_live_used s H d q e : ok s H -> (d < H)%nat -> links s d q = Some e -> ps_entry_get_live e = used (links s) H (leaves s) d q (ptr e) /\ ptr e <> 0 /\ e <> 0.
Proof.
  intros O Hd He. destruct (link_parts _ s H d q e O Hd He) as (l & E1 & C1 & C2 & E3 & E4 & E5 & E6). pose proof (ok_height _ _ _ O).
  pose proof (hgt_range H d ltac:(lia)). unfold even in E4. split_and!; [lia|done|rewrite E1; apply link_some; lia].
Qed.
Lemma cut_link_swap l p s : cut_link l p s = free p (put_entry l tp_new_none s).
Proof. by destruct l. Qed.

Lemma cascade_ok pgoff n : forall s s0 H, ok s H -> (n <= H)%nat -> (forall k, (k < n)%nat -> loc s k (pref H k pgoff) = loc s0 k (pref H k pgoff)) ->
  (forall m, n = S m -> is_Some (links s m (pref H m pgoff))) -> exists H', thins s (cascade (rev (path_to s0 H pgoff n)) s) H H'.
Proof.
  induction n as [|n IH]; intros s s0 H O Hn Hloc Hlk; [exists H; by apply thins_refl|].
  rewrite path_to_S, rev_app_distr. cbn [rev app cascade]. destruct (Hlk n eq_refl) as [e He]. rewrite <- (Hloc n) by lia. rewrite (get_loc s n _ e He).
  destruct (link_live_used s H n _ e O ltac:(lia) He) as (Hu & Np & _). destruct (Z.eqb_spec (ps_entry_get_live e) 0) as [Ez|Ez]; cbn [negb]; [|exists H; by apply thins_refl].
  rewrite (proj2 (Z.eqb_neq _ 0) Np). fold (cut_link (loc s n (pref H n pgoff)) (ptr e) s). destruct n as [|m].
  - cbn [path_to seq fmap list_fmap rev cascade loc]. exists 0%nat. apply (cut_root_thins s H _ e O ltac:(lia) He). lia.
  - rewrite path_to_S, rev_app_distr. cbn [rev app]. rewrite <- (Hloc m) by lia. pose proof (pref_parent H m pgoff ltac:(lia)) as Hq.
    destruct (tr_up _ _ _ _ _ (ok_tree _ _ _ O) m _ e ltac:(lia) He) as [pe Hpe].
    destruct (cut_thins s H m (pref H (S m) pgoff) pe e O ltac:(lia) He ltac:(lia) Hpe) as [Th P]. rewrite Hq in Th, P, Hpe.
    set (s1 := ps_entry_live_dec _ _) in *. assert (Hl1 : forall k, (k < S m)%nat -> loc s1 k (pref H k pgoff) = loc s k (pref H k pgoff)).
    { intros k Hk. apply loc_ptrs. intros d0 x Hd0. apply P. lia. }
    destruct (IH s1 s0 H (kp_ok _ _ _ _ (th_keeps _ _ _ _ Th))) as [H' Th']; [lia| | |].
    + intros k Hk. rewrite Hl1 by lia. apply Hloc. lia.
    + intros m0 [= <-]. destruct (ptrs_links s s1 m _ pe Hpe) as (pe' & E' & _); [by apply P|by eexists].
    + exists H'. rewrite path_to_S, rev_app_distr in Th'. cbn [rev app] in Th'. rewrite <- (Hloc m) in Th' by lia. by apply (thins_trans s s1 _ H H H').
Qed.

(** the empty leaf page goes, and the index pages that become empty *)
Lemma drop_ok s H D pgoff e : ok s H -> H = S D -> links s D (pgoff / 128) = Some e -> ps_entry_get_live e = 0 ->
  exists H', thins s (ps_cascade_up_empty_index (path_to s H pgoff D) (drop_leaf (loc s D (pgoff / 128)) (path_to s H pgoff D) s)) H H'.
Proof.
  intros O EH He Hl. destruct (link_live_used s H D _ e O ltac:(lia) He) as (Hu & Np & Ne). unfold drop_leaf, ps_cascade_up_empty_index.
  rewrite (get_loc s D _ e He). unfold page_slice_index_entry_empty, ps_entry_is_none, tp_is_none. rewrite (proj2 (Z.eqb_neq e 0) Ne). rewrite (ok_is_leaf even s H O).
  destruct D as [|d].
  - subst H. cbn [loc is_root path_to seq fmap list_fmap rev cascade andb]. change (1 =? 1)%nat with true. cbv iota.
    destruct (root_leaf s O) as (-> & _ & Hr). pose proof (tr_root _ _ _ _ _ (ok_tree _ _ _ O) _ _ He) as Hq. rewrite Hq, Hr in He. injection He as <-.
    rewrite (proj2 (Z.eqb_neq _ 0) Np), <- cut_link_swap. exists 0%nat. apply (cut_root_thins s 1 0 (root s) O ltac:(lia) Hr). rewrite <- Hq. lia.
  - subst H. pose proof (pref_leaf (S (S d)) pgoff ltac:(lia)) as Hpl. replace (S (S d) - 1)%nat with (S d) in Hpl by lia. rewrite <- Hpl in *.
    pose proof (pref_parent (S (S d)) d pgoff ltac:(lia)) as Hq. destruct (tr_up _ _ _ _ _ (ok_tree _ _ _ O) d _ e ltac:(lia) He) as [pe Hpe].
    destruct (leaf_link even s d _ e O He) as (Ea & _ & _). pose proof (loc_slot s d _ pe Hpe) as Hloc. assert (Hir : is_root (loc s (S d) (pref (S (S d)) (S d) pgoff)) = false) by (by rewrite Hloc). rewrite Hir. cbn [andb]. cbv iota.
    rewrite Ea, (proj2 (Z.eqb_neq _ 0) Np), <- cut_link_swap, path_to_S, rev_app_distr. cbn [rev app].
    destruct (cut_thins s (S (S d)) d (pref (S (S d)) (S d) pgoff) pe e O ltac:(lia) He ltac:(lia) Hpe) as [Th P]. rewrite Hq in Th, P, Hpe.
    set (s1 := ps_entry_live_dec _ _) in *. destruct (cascade_ok pgoff (S d) s1 s (S (S d)) (kp_ok _ _ _ _ (th_keeps _ _ _ _ Th))) as [H' Th']; [lia| | |].
    + intros k Hk. apply loc_ptrs. intros d0 x Hd0. apply P. lia.
    + intros m [= <-]. destruct (ptrs_links s s1 d _ pe Hpe) as (pe' & E' & _); [by apply P|by eexists].
    + exists H'. rewrite path_to_S, rev_app_distr in Th'. cbn [rev app] in Th'. by apply (thins_trans s s1 _ _ (S (S d)) H').
Qed.

(** ** One page *)

(** what is left after [pgoff] was taken out of [s] *)
Record removed s s' (H H' : nat) (pgoff : Z) (x : page_slice_entry) : Prop := {
  rm_ok : ok s' H';
  rm_view : forall o, view s' H' o = if o =? pgoff then None else view s H o;
  rm_size : size s' = size s /\ mapped_entries s' = if 0 <? mapped_entries s then mapped_entries s - 1 else mapped_entries s;
  rm_owned : owned (heap s') ⊆ owned (heap s);
  rm_freed : pinned x = false -> kernel_virtual_address x ∉ owned (heap s');
  rm_foreign : forall k, foreign s H k -> foreign s' H' k
}.
Lemma removed_thins s s1 s2 H H1 H2 pgoff x : removed s s1 H H1 pgoff x -> thins s1 s2 H1 H2 -> removed s s2 H H2 pgoff x.
Proof.
  intros [R1 R2 [R3 R4] R5 R6 R7] [[K1 K2 [K3 K4] K5] W]. constructor; [done| |split; congruence|by transitivity (owned (heap s1))|intros Hp Hi; by apply R6, W|intros k Hk; by apply K5, R7].
  intros o. by rewrite K2, R2.
Qed.

(** the entry itself *)
Lemma clear_entry_ok s D pgoff e x : ok s (S D) -> links s D (pgoff / 128) = Some e -> leaves s (addr_of e pgoff) = x -> pse_valid x = true ->
  let s1 := ps_clear_leaf_entry (addr_of e pgoff) s in
  let s2 := if 0 <? mapped_entries s1 then set_mapped (mapped_entries s1 - 1) s1 else s1 in
  let s3 := ps_entry_live_dec (loc s D (pgoff / 128)) s2 in
  removed s s3 (S D) (S D) pgoff x /\ forall d q, (d < S D)%nat -> ptrs s3 d q = ptrs s d q.
Proof.
  intros O He Hx Hv s1 s2 s3. pose proof (ok_tree _ _ _ O) as T. set (m' := put (leaves s) (addr_of e pgoff) (mk_pse 0 0 false)).
  set (h' := if pinned x then heap s else m_free (heap s) (kernel_virtual_address x)).
  pose proof (tree_clear (links s) D (leaves s) (heap s) pgoff e x T He Hx Hv) as Tc. fold m' h' in Tc.
  assert (Hview : view s (S D) pgoff = Some x) by (unfold view, mapped, leaf_at; rewrite He; fold (addr_of e pgoff); by rewrite Hx, Hv).
  assert (Hkva : kernel_virtual_address x <> 0) by (unfold pse_valid in Hv; destruct (Z.eqb_spec (kernel_virtual_address x) 0); [by rewrite andb_false_r in Hv|done]).
  destruct (tree_ptr _ _ _ _ _ _ _ _ T (Nat.lt_succ_diag_r D) He) as (_ & Cp & Np); unfold canonical in Cp. pose proof (Z.mod_pos_bound pgoff 128 ltac:(lia)) as Hm.
  assert (E1 : s1 = set_heap h' (set_leaves m' s)).
  { unfold s1, ps_clear_leaf_entry. rewrite Hx. destruct (Z.eqb_spec (addr_of e pgoff) 0) as [Ez|_]; [exfalso; unfold addr_of in Ez; lia|].
    rewrite (proj2 (Z.eqb_neq _ 0) Hkva). unfold h', pinned. cbn [negb andb]. by destruct (Z.land _ _ =? 0). }
  assert (F : root s2 = root s /\ words s2 = words s /\ leaves s2 = m' /\ heap s2 = h' /\ size s2 = size s /\
              mapped_entries s2 = if 0 <? mapped_entries s then mapped_entries s - 1 else mapped_entries s).
  { unfold s2. rewrite E1. cbn [mapped_entries set_heap set_leaves]. by destruct (0 <? mapped_entries s). }
  destruct F as (F1 & F2 & F3 & F4 & F5 & F6). assert (EL : links s2 = links s) by (unfold links; by rewrite F1, F2).
  assert (O2 : ok_with (only D (pgoff / 128) (- 1)) s2 (S D)) by (constructor; [apply (ok_height _ _ _ O)|rewrite F1; apply (ok_empty _ _ _ O)|by rewrite EL, F3, F4]).
  assert (Hloc : loc s D (pgoff / 128) = loc s2 D (pgoff / 128)) by (unfold loc; by rewrite EL).
  destruct (live_dec_ok s2 (S D) D (pgoff / 128) e O2 ltac:(lia)) as [O3 R]; [by rewrite EL|]. rewrite <- Hloc in O3, R. fold s3 in O3, R.
  destruct (rc_size _ _ _ R) as [Z1 Z2]. pose proof (rc_heap _ _ _ R) as Hh.
  assert (P3 : forall d q, (d < S D)%nat -> ptrs s3 d q = ptrs s d q) by (intros d q Hd; unfold ptrs; rewrite (rc_links _ _ _ R) by done; by rewrite EL).
  assert (V3 : forall o, view s3 (S D) o = if o =? pgoff then None else view s (S D) o).
  { intros o. rewrite (rc_view _ _ _ R). unfold view. rewrite EL, F3. unfold m'. by rewrite (mapped_put (links s) D (leaves s) (heap s) even pgoff e _ T He). }
  destruct (ph_free (heap s) (kernel_virtual_address x) (tr_heap _ _ _ _ _ T)) as [_ Hfree]. split; [|done]. constructor; [done|done|split; congruence| | |].
  - rewrite Hh, F4. unfold h'. destruct (pinned x); [done|]. rewrite Hfree. apply diff_sub.
  - intros Hp. rewrite Hh, F4. unfold h'. rewrite Hp, Hfree. apply diff_out.
  - intros k [K1 K2 K3]. constructor.
    + rewrite Hh, F4. unfold h'. destruct (pinned x) eqn:Ep; [done|]. rewrite Hfree. apply elem_of_difference. split; [done|]. rewrite elem_of_singleton.
      intros ->. by apply (K3 pgoff x).
    + intros d q Hd. rewrite P3 by done. by apply K2.
    + intros o y. rewrite V3. destruct (o =? pgoff); [done|]. apply K3.
Qed.

Lemma remove_locked_effect s H pgoff (b : bool) : ok s H -> 0 <= pgoff < 2 ^ 34 ->
  let '(err, s') := ps_remove_page_locked pgoff b s in
  match view s H pgoff with
  | None => err = (if b then REND_SUCCESS else - E_REND_NOFOUND) /\ s' = s
  | Some x => err = REND_SUCCESS /\ exists H', removed s s' H H' pgoff x
  end.
Proof.
  intros O Hp. unfold ps_remove_page_locked. rewrite (ok_root_empty even s H O). destruct (Nat.eqb_spec H 0) as [->|Hn]; [done|].
  pose proof (descend_pgoff_read s H true pgoff O Hp) as R. rewrite (proj2 (Nat.eqb_neq H 0) Hn) in R. destruct H as [|D]; [done|].
  replace (S D - 1)%nat with D in R by lia. unfold view at 1, mapped, leaf_at. destruct (links s D (pgoff / 128)) as [e|] eqn:He.
  2: { destruct R as [[y z] ->]. by change (negb (- E_REND_NOFOUND =? REND_SUCCESS)) with true. }
  rewrite R. change (negb (REND_SUCCESS =? REND_SUCCESS)) with false. cbv iota. pose proof (leaf_index_read s (S D) pgoff e O ltac:(lia)) as LI.
  replace (S D - 1)%nat with D in LI by lia. rewrite (LI He). fold (addr_of e pgoff). destruct (pse_valid (leaves s (addr_of e pgoff))) eqn:Hv; cbn [negb]; [|done].
  destruct (clear_entry_ok s D pgoff e _ O He eq_refl Hv) as [Rm P]. cbv zeta. set (s3 := ps_entry_live_dec _ _) in *.
  destruct (ptrs_links s s3 D _ e He) as (e3 & He3 & _); [by apply P; lia|].
  assert (Hl : forall k q, (k < S D)%nat -> loc s3 k q = loc s k q) by (intros k q Hk; apply loc_ptrs; intros d0 y Hd0; apply P; lia).
  rewrite <- (Hl D) by lia. rewrite (get_loc s3 D _ e3 He3). destruct (Z.eqb_spec (ps_entry_get_live e3) 0) as [Ez|Ez]; cbn [negb]; [|split; [done|by exists (S D)]].
  assert (Epath : path_to s (S D) pgoff D = path_to s3 (S D) pgoff D).
  { unfold path_to. apply list_fmap_ext. intros i k Hk%lookup_seq. symmetry. apply Hl. lia. }
  rewrite Epath. destruct (drop_ok s3 (S D) D pgoff e3 (rm_ok _ _ _ _ _ _ Rm) eq_refl He3 Ez) as [H' Th].
  split; [done|]. exists H'. by apply (removed_thins s s3 _ _ (S D) H').
Qed.
End Remove.
