(* ===== verification/PageSliceShrink.v ===== *)
(** * Shrinking a page slice

    [ps_shrink] lowers the tree without changing the map ([shrink_ok]); the
    effect of [page_slice_remove_page] and [page_slice_set_size] on the map. *)
From S2P Require Import Prelude Mm TaggedPtr Allocator PageSlice PageSliceTree PageSliceLinks PageSliceWalk PageSliceGrow PageSliceInsert PageSliceRemove.

Section Shrink.
Context {A : Type} {HA : Allocator A} {HP : PageHeap A}.
Implicit Types (s : page_slice A).
Notation ptr e := (ps_entry_get_ptr e).
Notation ok := (ok_with even).

(** ** Shrinking *)

Lemma countp_one {B} (P : B -> bool) l x y : NoDup l -> x ∈ l -> y ∈ l -> x <> y -> countp P l = 1 -> P x = true -> P y = false.
Proof.
  intros Hn Hx Hy Hxy H1 Px. revert Hx Hy H1. induction l as [|z l IH]; intros Hx Hy H1; [by apply elem_of_nil in Hx|].
  apply list.NoDup_cons in Hn as [Hz Hn]. cbn [countp] in H1. pose proof (countp_range P l). apply elem_of_cons in Hx as [<-|Hx].
  - rewrite Px in H1. cbn [Z.b2z] in H1. apply elem_of_cons in Hy as [<-|Hy]; [done|]. apply (countp_zero_elem P l); [lia|done].
  - pose proof (countp_pos P l x Hx Px). apply elem_of_cons in Hy as [<-|Hy]; [destruct (P y); [cbn [Z.b2z] in H1; lia|done]|].
    apply IH; [done|done|done|]. destruct (P z); cbn [Z.b2z] in H1; lia.
Qed.
(** one level less: the page behind the root's only used slot becomes the root *)
Lemma lower_ok s s' K : ok s (S K) -> (1 <= K)%nat -> page_slice_root_live s = 1 -> words s (ptr (root s)) <> 0 ->
  let c := words s (ptr (root s)) in
  root s' = ps_entry_new (ptr c) (Z.of_nat K) (ps_entry_get_live c) -> words s' = words s -> leaves s' = leaves s -> heap s' = m_free (heap s) (ptr (root s)) ->
  size s' = size s /\ mapped_entries s' = mapped_entries s -> thins s s' (S K) K.
Proof.
  intros O HK Hlive Hc c Hr Hw Hlv Hh Z. pose proof (ok_tree _ _ _ O) as T. pose proof (ok_height _ _ _ O) as Hb.
  assert (Hr0 : root s <> 0) by (intros Hz; apply (ok_empty _ _ _ O) in Hz; lia). pose proof (links_root s Hr0) as L0.
  assert (L1 : links s 1 0 = Some c).
  { rewrite links_S. change (0 / 512) with 0. rewrite L0. cbn [child]. change (0 mod 512) with 0. replace (slot (ptr (root s)) 0) with (ptr (root s)) by (unfold slot; lia).
    by rewrite (proj2 (Z.eqb_neq _ 0) Hc). }
  destruct (link_parts even s (S K) 1 0 c O ltac:(lia) L1) as (l & E1 & C1 & C2 & E3 & _ & E5 & _). rewrite E5 in Hr. set (p := ptr c) in *.
  rewrite (ok_live even s (S K) O) in Hlive by lia. destruct (link_live_used s (S K) 0 0 _ O ltac:(lia) L0) as (Hu & _ & _). rewrite Hu in Hlive.
  assert (Hone : forall q, links s 1 q = if q =? 0 then Some c else None).
  { intros q. destruct (Z.eqb_spec q 0) as [->|Hq]; [done|]. apply eq_None_not_Some. intros [e He]. destruct (tr_up _ _ _ _ _ T 0%nat q e ltac:(lia) He) as [x Hx].
    pose proof (tr_root _ _ _ _ _ T _ _ Hx) as Hq0. pose proof (Z.mod_pos_bound q 512 ltac:(lia)). unfold used in Hlive. rewrite (proj2 (Nat.ltb_lt 1 (S K))) in Hlive by lia.
    assert (Hf : bool_decide (is_Some (links s 1 (512 * 0 + q))) = false); [|apply bool_decide_eq_false in Hf; apply Hf; exists e; exact He].
    apply (countp_one (fun i => bool_decide (is_Some (links s 1 (512 * 0 + i)))) (slots 512) 0 q (slots_nodup 512)); [apply elem_of_slots; lia|apply elem_of_slots; dlia|lia|exact Hlive|].
    apply bool_decide_eq_true_2. exists c. exact L1. }
  assert (Hx : ps_entry_new p (Z.of_nat K) l <> 0) by (apply link_some; lia).
  assert (N0 : forall q, links s' 0 q = if q =? 0 then Some (ps_entry_new p (Z.of_nat K) l) else None).
  { intros q. unfold links, lk. rewrite Hr, (proj2 (Z.eqb_neq _ 0) Hx). by rewrite andb_true_r. }
  assert (NS : forall d q, (1 <= d < K)%nat -> links s (S d) q = links s' d q).
  { intros d. induction d as [|d IH]; intros q Hd; [lia|]. rewrite (links_S s), (links_S s'), Hw. destruct (Nat.eq_dec d 0%nat) as [->|Hn]; [|by rewrite IH by lia].
    rewrite Hone, N0. destruct (q / 512 =? 0); [|done]. cbn [child]. by rewrite link_ptr. }
  assert (Ta : taller (links s') (links s) K p l (root s)).
  { constructor; [exact N0| | |exact NS|split_and!; (done || lia)].
    - intros q. destruct (Z.eqb_spec q 0) as [->|Hq]; [done|]. destruct (links s 0 q) eqn:E; [|done]. by apply (tr_root _ _ _ _ _ T) in E.
    - intros q. rewrite Hone. destruct (q =? 0); [|done]. f_equal. rewrite E1. done. }
  destruct (tree_lower (links s') (links s) K p l (root s) (leaves s) (heap s) T Ta) as [T' M'].
  apply (thins_of s s' (S K) K (ptr (root s))); [| |done| | |].
  - constructor; [lia|rewrite Hr; split; [done|lia]|by rewrite Hlv, Hh].
  - intros pgoff. unfold view. by rewrite Hlv, M'.
  - rewrite Hh. apply (ph_free _ _ (tr_heap _ _ _ _ _ T)).
  - exists 0%nat, 0. split; [lia|]. unfold ptrs. by rewrite L0.
  - intros d q y Hd Hy. unfold ptrs in Hy. destruct (links s' d q) as [e|] eqn:E; [|done]. destruct (ta_fwd _ _ _ _ _ _ Ta d q e Hd E) as (e' & E' & Ep).
    exists (S d), q. split; [lia|]. unfold ptrs. rewrite E'. cbn in *. by rewrite Ep.
Qed.
Lemma shrink_loop_ok fuel : forall s H, ok s H -> (H <= fuel + 1)%nat -> exists r s' H', shrink_loop fuel s = Some (r, s') /\ thins s s' H H'.
Proof.
  induction fuel as [|fuel IH]; intros s H O Hf; cbn [shrink_loop]; rewrite (ok_is_index even s H O).
  - rewrite (proj2 (Nat.leb_gt 2 H)) by lia. exists false, s, H. split; [done|by apply thins_refl].
  - destruct (Nat.leb_spec 2 H) as [HH|HH]; cbn [andb negb]; [|exists false, s, H; split; [done|by apply thins_refl]].
    destruct (Z.eqb_spec (page_slice_root_live s) 1) as [Hl|Hl]; cbn [negb]; [|exists false, s, H; split; [done|by apply thins_refl]].
    destruct (root_index s H O HH) as (-> & Np & L0). cbv zeta. rewrite (proj2 (Z.eqb_neq _ 0) Np). cbn [orb]. unfold page_slice_index_entry_empty at 1, ps_entry_is_none, tp_is_none.
    destruct (Z.eqb_spec (words s (ptr (root s))) 0) as [Ec|Ec]; [exists false, s, H; split; [done|by apply thins_refl]|].
    rewrite (ok_stored even s H O). change PS_HEIGHT_INDEX1 with 2. change PS_HEIGHT_LEAF with 1. pose proof (ok_height _ _ _ O) as Hb. destruct H as [|K]; [lia|].
    assert (L1 : links s 1 0 = Some (words s (ptr (root s)))).
    { rewrite links_S. change (0 / 512) with 0. rewrite L0. cbn [child]. change (0 mod 512) with 0. replace (slot (ptr (root s)) 0) with (ptr (root s)) by (unfold slot; lia).
      by rewrite (proj2 (Z.eqb_neq _ 0) Ec). }
    destruct (Z.eqb_spec (Z.of_nat (S K)) 2) as [E2|E2].
    + assert (K = 1%nat) as -> by lia. destruct (leaf_link even s 0 0 _ O L1) as (-> & Nc & _). rewrite (proj2 (Z.eqb_neq _ 0) Nc). cbn [andb negb]. cbv iota.
      do 2 eexists. exists 1%nat. split; [done|]. by apply (lower_ok s _ 1 O).
    + cbn [andb]. rewrite u8_small by lia. replace (Z.of_nat (S K) - 1) with (Z.of_nat K) by lia. set (s1 := set_root _ _).
      assert (Th : thins s s1 (S K) K) by (apply (lower_ok s s1 K O); [lia|done|done|done|done|done|done|done]).
      destruct (IH s1 K (kp_ok _ _ _ _ (th_keeps _ _ _ _ Th)) ltac:(lia)) as (r & s' & H' & E' & Th'). exists r, s', H'. split; [exact E'|by apply (thins_trans s s1 s' _ K H')].
Qed.
Lemma clear_entries_idle n : forall a s, (forall i, 0 <= i < Z.of_nat n -> kernel_virtual_address (leaves s (a + 32 * i)) = 0) ->
  exists m, clear_entries a n s = set_leaves m s.
Proof.
  induction n as [|n IH]; intros a s Hz; [by exists (leaves s); destruct s|]. cbn [clear_entries].
  assert (E : exists m, ps_clear_leaf_entry a s = set_leaves m s /\ forall i, 0 <= i < Z.of_nat (S n) -> kernel_virtual_address (m (a + 32 * i)) = 0).
  { unfold ps_clear_leaf_entry. destruct (Z.eqb_spec a 0); [exists (leaves s); destruct s; by split|]. pose proof (Hz 0 ltac:(lia)) as H0. rewrite Z.add_0_r in H0. rewrite H0.
    change (negb (0 =? 0)) with false. cbn [andb]. eexists. split; [reflexivity|]. intros i Hi. cbn beta. destruct (_ =? a); [done|by apply Hz]. }
  destruct E as (m & -> & Hm). destruct (IH (a + 32) (set_leaves m s)) as [m2 E2]; [|exists m2; by rewrite E2].
  intros i Hi. cbn [set_leaves leaves]. replace (a + 32 + 32 * i) with (a + 32 * (i + 1)) by lia. apply Hm. lia.
Qed.
Lemma each_slot_idle (f : Z -> page_slice A -> option (page_slice A)) n s : forall a, (forall i, 0 <= i < Z.of_nat n -> f (a + 8 * i) s = Some s) -> each_slot f a n s = Some s.
Proof.
  induction n as [|n IH]; intros a Hf; [done|]. cbn [each_slot]. pose proof (Hf 0 ltac:(lia)) as H0. rewrite Z.add_0_r in H0. rewrite H0. cbn [mbind option_bind].
  apply IH. intros i Hi. replace (a + 8 + 8 * i) with (a + 8 * (i + 1)) by lia. apply Hf. lia.
Qed.
Lemma shrink_ok s H : ok s H -> exists s' H', ps_shrink s = Some s' /\ thins s s' H H'.
Proof.
  intros O. unfold ps_shrink. destruct (shrink_loop_ok 4 s H O) as (r & s1 & H1 & -> & Th); [pose proof (ok_height _ _ _ O); lia|]. cbn [mbind option_bind].
  destruct r; [by exists s1, H1|]. pose proof (kp_ok _ _ _ _ (th_keeps _ _ _ _ Th)) as O1. rewrite (ok_is_leaf even s1 H1 O1), (ok_is_index even s1 H1 O1).
  assert (Live : (0 < H1)%nat -> page_slice_root_live s1 = 0 -> used (links s1) H1 (leaves s1) 0 0 (ptr (root s1)) = 0 /\ ptr (root s1) <> 0).
  { intros HH Hl. rewrite (ok_live even s1 H1 O1 HH) in Hl. assert (Hr : root s1 <> 0) by (intros Hz; apply (ok_empty _ _ _ O1) in Hz; lia).
    destruct (link_live_used s1 H1 0 0 _ O1 HH (links_root s1 Hr)) as (Hu & Np & _). split; [lia|done]. }
  destruct (Nat.eqb_spec H1 1) as [->|Hn1]; cbn [andb].
  - change (2 <=? 1)%nat with false. cbn [andb]. destruct (Z.eqb_spec (page_slice_root_live s1) 0) as [Hl|Hl]; [|by exists s1, 1%nat].
    destruct (Live ltac:(lia) Hl) as [Hu Np]. destruct (root_leaf s1 O1) as (-> & _ & L0). destruct (used_nodes_zero _ _ _ _ _ _ _ _ (ok_tree _ _ _ O1) Hu) as [_ Hz].
    unfold ps_free_leaf_page. rewrite (proj2 (Z.eqb_neq _ 0) Np). destruct (clear_entries_idle (Z.to_nat PAGE_SLICE_LEAF_CAPACITY) (ptr (root s1)) s1) as [m ->].
    { intros i Hi. change (Z.of_nat (Z.to_nat PAGE_SLICE_LEAF_CAPACITY)) with 128 in Hi. apply (tr_clean _ _ _ _ _ (ok_tree _ _ _ O1) i); [|by apply Hz].
      unfold leaf_at. rewrite (Z.div_small i 128) by lia. rewrite L0, (Z.mod_small i 128) by lia. done. }
    eexists. exists 0%nat. split; [done|]. apply (thins_trans s s1 _ H 1 0 Th). apply (gone_thins s1 _ 1 O1); [lia|done|done|done|done].
  - destruct (Nat.leb_spec 2 H1) as [HH|HH]; cbn [andb]; [|by exists s1, H1]. destruct (Z.eqb_spec (page_slice_root_live s1) 0) as [Hl|Hl]; [|by exists s1, H1].
    destruct (Live ltac:(lia) Hl) as [Hu Np]. destruct (root_index s1 H1 O1 HH) as (-> & _ & L0). destruct (used_nodes_zero _ _ _ _ _ _ _ _ (ok_tree _ _ _ O1) Hu) as [Hk _].
    change 4%nat with (S 3). cbn [ps_free_index_page_recursive]. rewrite (proj2 (Z.eqb_neq _ 0) Np). rewrite each_slot_idle.
    + cbn [mbind option_bind]. eexists. exists 0%nat. split; [done|]. apply (thins_trans s s1 _ H H1 0 Th). apply (gone_thins s1 _ H1 O1); [lia|done|done|done|done].
    + intros i Hi. change (Z.of_nat (Z.to_nat PAGE_SLICE_INDEX_CAPACITY)) with 512 in Hi. pose proof (Hk i HH (Z.div_small i 512 Hi)) as Hn. rewrite links_S, (Z.div_small i 512 Hi), L0 in Hn.
      cbn [child] in Hn. rewrite (Z.mod_small i 512 Hi) in Hn. unfold page_slice_index_entry_empty, ps_entry_is_none, tp_is_none. fold (slot (ptr (root s1)) i).
      by destruct (words s1 (slot (ptr (root s1)) i) =? 0).
Qed.
Lemma shrink_passes_ok n : forall s H, ok s H -> exists s' H', shrink_passes n s = Some s' /\ thins s s' H H'.
Proof.
  induction n as [|n IH]; intros s H O; [exists s, H; split; [done|by apply thins_refl]|]. cbn [shrink_passes]. destruct (shrink_ok s H O) as (s1 & H1 & -> & Th). cbn [mbind option_bind].
  destruct (IH s1 H1 (kp_ok _ _ _ _ (th_keeps _ _ _ _ Th))) as (s2 & H2 & E & Th2). exists s2, H2. split; [done|by apply (thins_trans s s1 s2 H H1 H2)].
Qed.

(** ** The slice as a map *)

Lemma slice_of s s' H' (keep : Z -> bool) : slice_ok s -> ok s' H' -> size s' = size s -> (forall o, view s' H' o = if keep o then slice_map s o else None) ->
  slice_ok s' /\ forall o, slice_map s' o = if keep o then slice_map s o else None.
Proof.
  intros [O Hs Hi] O' Z V. destruct (slice_ok_of s' H' O') as [S M]; [by rewrite Z| |split; [done|intros o; by rewrite M, V]].
  intros o. rewrite V, (page_count_same s s' Z). destruct (keep o); [apply Hi|by intros [? ?]].
Qed.
(** [pgoff] taken out and its page given back *)
Definition taken s s' pgoff (x : page_slice_entry) : Prop :=
  (forall o, slice_map s' o = if negb (o =? pgoff) then slice_map s o else None) /\
  mapped_entries s' = (if 0 <? mapped_entries s then mapped_entries s - 1 else mapped_entries s) /\
  owned (heap s') ⊆ owned (heap s) /\ (pinned x = false -> kernel_virtual_address x ∉ owned (heap s')) /\ forall k, spare s k -> spare s' k.
Lemma removed_taken s s' H' pgoff x : slice_ok s -> removed s s' (hof s) H' pgoff x -> slice_ok s' /\ size s' = size s /\ taken s s' pgoff x.
Proof.
  intros S [R1 R2 [R3 R4] R5 R6 R7]. destruct (slice_of s s' H' (fun o => negb (o =? pgoff)) S R1 R3) as [S' M'].
  - intros o. rewrite R2. by destruct (o =? pgoff).
  - split_and!; [done|done|]. split_and!; [exact M'|done|done|done|]. intros k Hk. unfold spare. rewrite (hof_ok even s' H' R1). by apply R7.
Qed.
Lemma slice_remove_effect s pgoff : slice_ok s -> 0 <= pgoff ->
  exists err s', page_slice_remove_page pgoff s = Some (err, s') /\ slice_ok s' /\ size s' = size s /\
    if page_slice_page_count s <=? pgoff then err = - E_IN_PARAM /\ s' = s
    else
      match slice_map s pgoff with
      | None => err = - E_REND_NOFOUND /\ s' = s
      | Some x => err = REND_SUCCESS /\ taken s s' pgoff x
      end.
Proof.
  intros S H0. pose proof S as [O Hs _]. unfold page_slice_remove_page, ps_pgoff_valid. pose proof (page_count_bound s Hs) as Hc.
  destruct (Z.leb_spec (page_slice_page_count s) pgoff) as [Hle|Hlt]; [by exists (- E_IN_PARAM), s|].
  change (negb (REND_SUCCESS =? REND_SUCCESS)) with false. cbv iota. pose proof (remove_locked_effect s (hof s) pgoff false O ltac:(lia)) as R.
  destruct (ps_remove_page_locked pgoff false s) as [err s1]. unfold slice_map at 1. destruct (view s (hof s) pgoff) as [x|].
  - destruct R as [-> [H1 R]]. change (negb (REND_SUCCESS =? REND_SUCCESS)) with false. cbv iota.
    destruct (shrink_passes_ok (Z.to_nat PS_HEIGHT_INDEX3) s1 H1 (rm_ok _ _ _ _ _ _ R)) as (s2 & H2 & -> & Th). cbn [mbind option_bind].
    pose proof (removed_thins s s1 s2 _ H1 H2 pgoff x R Th) as R2. destruct (removed_taken s s2 H2 pgoff x S R2) as (S2 & Z2 & T2). by exists REND_SUCCESS, s2.
  - destruct R as [-> ->]. change (negb (- E_REND_NOFOUND =? REND_SUCCESS)) with true. by exists (- E_REND_NOFOUND), s.
Qed.

(** *** A range of pages *)

(** the pages of [lo, hi) taken out *)
Record cleared s s' (H' : nat) (lo hi : Z) : Prop := {
  cl_ok : ok s' H';
  cl_view : forall o, view s' H' o = if (lo <=? o) && (o <? hi) then None else view s (hof s) o;
  cl_size : size s' = size s;
  cl_owned : owned (heap s') ⊆ owned (heap s);
  cl_freed : forall o x, lo <= o < hi -> slice_map s o = Some x -> pinned x = false -> kernel_virtual_address x ∉ owned (heap s')
}.
Lemma remove_pages_ok s n : forall s1 H1 hi hi0, cleared s s1 H1 hi hi0 -> 0 <= hi - Z.of_nat n -> hi <= hi0 <= 2 ^ 34 ->
  exists H2, cleared s (remove_pages hi n s1) H2 (hi - Z.of_nat n) hi0.
Proof.
  induction n as [|n IH]; intros s1 H1 hi hi0 C Hn Hhi; [exists H1; by rewrite Z.sub_0_r|]. cbn [remove_pages].
  pose proof C as [C1 C2 C3 C4 C5]. pose proof (remove_locked_effect s1 H1 (hi - 1) true C1 ltac:(lia)) as R. destruct (ps_remove_page_locked (hi - 1) true s1) as [err s2]. cbn [snd].
  replace (hi - Z.of_nat (S n)) with (hi - 1 - Z.of_nat n) by lia. rewrite C2, (proj2 (Z.leb_gt hi (hi - 1))) in R by lia. cbn [andb] in R.
  assert (Hstep : forall o (y : option page_slice_entry), (if (hi - 1 <=? o) && (o <? hi0) then None else y) = if o =? hi - 1 then None else if (hi <=? o) && (o <? hi0) then None else y).
  { intros o y. destruct (Z.eqb_spec o (hi - 1)) as [->|Hne]; [by rewrite Z.leb_refl, (proj2 (Z.ltb_lt _ _)) by lia|].
    destruct (Z.leb_spec (hi - 1) o), (Z.leb_spec hi o); (done || lia). }
  assert (exists H2, cleared s s2 H2 (hi - 1) hi0) as [H2 C']; [|by apply (IH s2 H2 (hi - 1) hi0 C'); lia].
  fold (slice_map s (hi - 1)) in R. destruct (slice_map s (hi - 1)) as [x|] eqn:Ex.
  - destruct R as [_ [H2 [R1 R2 [R3 R4] R5 R6 R7]]]. exists H2. constructor; [done| |congruence|by transitivity (owned (heap s1))|].
    + intros o. by rewrite R2, C2, Hstep.
    + intros o y Ho Hy Hp. destruct (Z.eq_dec o (hi - 1)) as [->|Hne]; [rewrite Ex in Hy; injection Hy as <-; by apply R6|]. intros Hi%R5. by apply (C5 o y ltac:(lia) Hy Hp).
  - destruct R as [_ ->]. exists H1. constructor; [done| |done|done|].
    + intros o. rewrite C2, Hstep. destruct (Z.eqb_spec o (hi - 1)) as [->|]; [|done]. rewrite (proj2 (Z.leb_gt hi (hi - 1))) by lia. exact Ex.
    + intros o y Ho Hy Hp. destruct (Z.eq_dec o (hi - 1)) as [->|Hne]; [by rewrite Ex in Hy|]. by apply (C5 o y ltac:(lia) Hy Hp).
Qed.
Lemma page_count_mono a b : 0 <= a -> a <= b <= PAGE_SLICE_MAX_BYTE_SIZE -> PAGE_SLICE_SIZE_TO_PAGE_COUNT a <= PAGE_SLICE_SIZE_TO_PAGE_COUNT b.
Proof.
  intros Ha Hb. change PAGE_SLICE_MAX_BYTE_SIZE with 70368744177664 in Hb. unfold PAGE_SLICE_SIZE_TO_PAGE_COUNT. change PAGE_SIZE with 4096.
  destruct (Z.eqb_spec a 0), (Z.eqb_spec b 0); try lia; rewrite !u64_small by (rewrite ?u64_small; lia); dlia.
Qed.
Lemma set_size_effect slice s new : slice_ok s -> 0 < new ->
  exists err s', page_slice_set_size slice new s = Some (err, false, s') /\ slice_ok s' /\
    if PAGE_SLICE_MAX_BYTE_SIZE <? new then err = - E_REND_OVERFLOW /\ s' = s
    else err = REND_SUCCESS /\ size s' = new /\
      (forall o, slice_map s' o = if o <? PAGE_SLICE_SIZE_TO_PAGE_COUNT new then slice_map s o else None) /\
      owned (heap s') ⊆ owned (heap s) /\
      forall o x, PAGE_SLICE_SIZE_TO_PAGE_COUNT new <= o -> slice_map s o = Some x -> pinned x = false -> kernel_virtual_address x ∉ owned (heap s').
Proof.
  intros S Hn. pose proof S as [O Hs Hi]. unfold page_slice_set_size. rewrite (proj2 (Z.eqb_neq new 0)) by lia. unfold ps_byte_size_valid. cbv zeta.
  destruct (Z.ltb_spec PAGE_SLICE_MAX_BYTE_SIZE new) as [Hbig|Hok]; [by exists (- E_REND_OVERFLOW), s|]. change (negb (REND_SUCCESS =? REND_SUCCESS)) with false. cbv iota.
  set (np := PAGE_SLICE_SIZE_TO_PAGE_COUNT new). set (op := page_slice_page_count s) in *. pose proof (page_count_bound s Hs) as Hc. fold op in Hc.
  assert (Hnp : 0 <= np) by (change 0 with (PAGE_SLICE_SIZE_TO_PAGE_COUNT 0); apply page_count_mono; lia).
  assert (Beyond : forall o, op <= o -> slice_map s o = None) by (intros o Ho; destruct (slice_map s o) eqn:E; [|done]; specialize (Hi o ltac:(by eexists)); lia).
  destruct (Z.eqb_spec new (size s)) as [->|Hne].
  { change (page_slice_page_count s) with np in op. exists REND_SUCCESS, s. split_and!; [done|done|done|done| |done|].
    - intros o. destruct (Z.ltb_spec o np); [done|by apply Beyond].
    - intros o x Ho Hx. rewrite Beyond in Hx by done. done. }
  set (s1 := if new <? size s then _ else s).
  assert (C0 : cleared s s (hof s) op op).
  { constructor; [done| |done|done|intros; lia]. intros o. destruct (Z.leb_spec op o), (Z.ltb_spec o op); (done || lia). }
  assert (exists H1, cleared s s1 H1 (Z.min np op) op) as [H1 C].
  { unfold s1. destruct (Z.ltb_spec new (size s)) as [Hlt|Hge].
    - destruct (Z.ltb_spec np op) as [Hl|Hl].
      + destruct (remove_pages_ok s (Z.to_nat (op - np)) s (hof s) op op C0) as [H2 C2]; [lia|lia|]. exists H2. replace (op - Z.of_nat (Z.to_nat (op - np))) with (Z.min np op) in C2 by lia. exact C2.
      + exists (hof s). by rewrite Z.min_r.
    - exists (hof s). assert (op <= np) by (apply page_count_mono; lia). by rewrite Z.min_r. }
  pose proof C as [C1 C2 C3 C4 C5]. assert (O1 : ok (set_size new s1) H1) by (destruct C1; by constructor).
  destruct (shrink_ok (set_size new s1) H1 O1) as (s2 & H2 & -> & [[K1 K2 [K3 K4] K5] W]). cbn [mbind option_bind].
  assert (V : forall o, view s2 H2 o = if o <? np then slice_map s o else None).
  { intros o. rewrite K2. change (view (set_size new s1) H1 o) with (view s1 H1 o). rewrite C2. fold (slice_map s o).
    destruct (Z.leb_spec (Z.min np op) o), (Z.ltb_spec o op), (Z.ltb_spec o np); cbn [andb]; try done; try lia; (by rewrite Beyond by lia). }
  destruct (slice_ok_of s2 H2 K1) as [S2 M2]; [rewrite K3; cbn; lia| |].
  { intros o. rewrite V. unfold page_slice_page_count. rewrite K3. cbn [size set_size]. fold np. destruct (Z.ltb_spec o np); [|by intros [? ?]]. intros Hx%Hi. lia. }
  exists REND_SUCCESS, s2. split_and!; [done|done|done|done|intros o; by rewrite M2, V|by transitivity (owned (heap s1))|].
  intros o x Ho Hx Hp Hi2%W. refine (C5 o x _ Hx Hp Hi2). specialize (Hi o ltac:(by eexists)). fold op in Hi. lia.
Qed.
End Shrink.
