(* ===== verification/PageSliceDestroy.v ===== *)
(** * Destroying a page slice

    [page_slice_destroy] terminates and gives back every page of the tree and
    every page it maps that is not pinned ([destroy_effect]). *)
From S2P Require Import Prelude Mm TaggedPtr Allocator PageSlice PageSliceTree PageSliceLinks PageSliceWalk PageSliceGrow PageSliceInsert PageSliceRemove.

Section Destroy.
Context {A : Type} {HA : Allocator A} {HP : PageHeap A}.
Implicit Types (s : page_slice A).
Notation ptr e := (ps_entry_get_ptr e).
Notation ok := (ok_with even).

(** [s1] is [s] after some pages of the tree were given back: an entry that is
    cleared took its page with it unless it was pinned *)
Record torn s s1 : Prop := {
  to_links : words s1 = words s;
  to_heap : heap_ok (heap s1);
  to_owned : owned (heap s1) ⊆ owned (heap s);
  to_spare : forall k, spare s k -> k ∈ owned (heap s1);
  to_leaves : forall a, leaves s1 a = leaves s a \/
    kernel_virtual_address (leaves s1 a) = 0 /\ (pinned (leaves s a) = false -> kernel_virtual_address (leaves s a) ∉ owned (heap s1))
}.
(** from [s1] to [s2], with [P] true from there on *)
Definition tears s s1 s2 : Prop := torn s s2 /\ owned (heap s2) ⊆ owned (heap s1).

Lemma null_not_owned (a : A) : heap_ok a -> 0 ∉ owned a.
Proof. intros Ha Hi. by destruct (ph_ptr a 0 Ha Hi). Qed.
Lemma free_tears s s1 p : torn s s1 -> ~ spare s p -> tears s s1 (free p s1) /\ p ∉ owned (heap (free p s1)).
Proof.
  intros [T1 T2 T3 T5 T4] Hns. destruct (ph_free (heap s1) p T2) as [F1 F2]. cbn [free set_heap heap]. split; [|rewrite F2; set_solver].
  split; [|cbn; rewrite F2; set_solver]. constructor; cbn [free set_heap heap words leaves]; [done|done|rewrite F2; set_solver| |].
  { intros k Hk. rewrite F2. apply elem_of_difference. split; [by apply T5|]. rewrite elem_of_singleton. by intros ->. }
  intros a. destruct (T4 a) as [?|[E N]]; [by left|right]. split; [done|]. intros Hp Hi. apply (N Hp). rewrite F2 in Hi. set_solver.
Qed.
Definition entry_gone s s' (a : Z) : Prop := pinned (leaves s a) = false -> kernel_virtual_address (leaves s a) ∉ owned (heap s').
(** the page of an entry is not somebody else's *)
Definition entry_mine s (a : Z) : Prop := pinned (leaves s a) = false -> ~ spare s (kernel_virtual_address (leaves s a)).
Lemma clear_tears s s1 a : torn s s1 -> entry_mine s a -> a <> 0 -> tears s s1 (ps_clear_leaf_entry a s1) /\ entry_gone s (ps_clear_leaf_entry a s1) a.
Proof.
  intros T Hmine Ha. pose proof T as [T1 T2 T3 T5 T4]. unfold ps_clear_leaf_entry. rewrite (proj2 (Z.eqb_neq a 0) Ha). cbv zeta.
  set (x := leaves s1 a). set (s2 := put_leaf a (mk_pse 0 0 false) s1).
  assert (P : entry_gone s s1 a -> torn s s2).
  { intros G. constructor; [done|done|done|done|]. intros b. cbn [s2 put_leaf set_leaves leaves heap]. destruct (Z.eqb_spec b a) as [->|]; [right; by split|apply T4]. }
  destruct (negb (kernel_virtual_address x =? 0) && (Z.land (pse_flags x) PAGE_SLICE_FLAG_PIN =? 0)) eqn:E.
  - apply andb_true_iff in E as [E1 E2]. apply negb_true_iff, Z.eqb_neq in E1.
    destruct (T4 a) as [Ea|[Ez _]]; [|done]. fold x in Ea. destruct (ph_free (heap s1) (kernel_virtual_address x) T2) as [F1 F2].
    assert (G : entry_gone s (free (kernel_virtual_address x) s2) a) by (intros _; rewrite <- Ea; cbn; rewrite F2; set_solver). split; [|done].
    split; [|cbn; rewrite F2; set_solver]. constructor; [done|done|cbn; rewrite F2; set_solver| |].
    { intros k Hk. cbn. rewrite F2. apply elem_of_difference. split; [by apply T5|]. rewrite elem_of_singleton. intros ->. apply Z.eqb_eq in E2. apply Hmine; [|by rewrite <- Ea]. unfold pinned. rewrite <- Ea. by rewrite E2. }
    intros b. cbn [free set_heap s2 put_leaf set_leaves leaves heap].
    destruct (Z.eqb_spec b a) as [->|]; [right; by split|]. destruct (T4 b) as [?|[Eb N]]; [by left|right]. split; [done|]. intros Hp Hi. apply (N Hp). rewrite F2 in Hi. set_solver.
  - assert (G : entry_gone s s1 a).
    { destruct (T4 a) as [Ea|[_ N]]; [|exact N]. intros Hp. fold x in Ea. rewrite <- Ea in Hp |- *. unfold pinned in Hp. apply negb_false_iff in Hp. rewrite Hp in E. rewrite andb_true_r in E.
      apply negb_false_iff, Z.eqb_eq in E. rewrite E. by apply null_not_owned. }
    split; [split; [by apply P|done]|exact G].
Qed.
Lemma tears_trans s s1 s2 s3 : tears s s1 s2 -> tears s s2 s3 -> tears s s1 s3.
Proof. intros [_ W1] [T2 W2]. split; [done|by transitivity (owned (heap s2))]. Qed.
Lemma entry_gone_mono s s1 s2 a : owned (heap s2) ⊆ owned (heap s1) -> entry_gone s s1 a -> entry_gone s s2 a.
Proof. intros W G Hp Hi. by apply (G Hp), W. Qed.
Lemma clear_entries_tears s n : forall a s1, torn s s1 -> (forall i, 0 <= i < Z.of_nat n -> a + 32 * i <> 0 /\ entry_mine s (a + 32 * i)) ->
  tears s s1 (clear_entries a n s1) /\ forall i, 0 <= i < Z.of_nat n -> entry_gone s (clear_entries a n s1) (a + 32 * i).
Proof.
  induction n as [|n IH]; intros a s1 T Ha; [split; [by split|intros; lia]|]. cbn [clear_entries]. pose proof (Ha 0 ltac:(lia)) as [H0 M0]. rewrite Z.add_0_r in H0, M0.
  destruct (clear_tears s s1 a T M0 H0) as [C1 C2]. destruct (IH (a + 32) (ps_clear_leaf_entry a s1) (proj1 C1)) as [D1 D2].
  { intros i Hi. replace (a + 32 + 32 * i) with (a + 32 * (i + 1)) by lia. apply Ha. lia. }
  split; [by apply (tears_trans s s1 (ps_clear_leaf_entry a s1))|]. intros i Hi. destruct (Z.eq_dec i 0) as [->|Hn].
  - rewrite Z.add_0_r. by apply (entry_gone_mono s _ _ a (proj2 D1)).
  - replace (a + 32 * i) with (a + 32 + 32 * (i - 1)) by lia. apply D2. lia.
Qed.

(** everything below the link [(d, q)] of [s] is given back in [s'];
    [k]: the levels below *)
Fixpoint gone s s' (k : nat) (d : nat) (q : Z) : Prop :=
  forall e, links s d q = Some e -> ptr e ∉ owned (heap s') /\
    match k with O => forall i, 0 <= i < 128 -> entry_gone s s' (ptr e + 32 * i) | S k' => forall i, 0 <= i < 512 -> gone s s' k' (S d) (512 * q + i) end.
Lemma gone_mono s s1 s2 k : owned (heap s2) ⊆ owned (heap s1) -> forall d q, gone s s1 k d q -> gone s s2 k d q.
Proof.
  intros W. induction k as [|k IH]; intros d q G e He; destruct (G e He) as [G1 G2]; (split; [by intros Hi%W|]); intros i Hi.
  - by apply (entry_gone_mono s s1 s2 _ W), G2.
  - by apply IH, G2.
Qed.
Lemma tree_not_spare s H d q e : ok s H -> (d < H)%nat -> links s d q = Some e -> ~ spare s (ptr e).
Proof. intros O Hd He [_ F2 _]. rewrite (hof_ok even s H O) in F2. apply (F2 d q Hd). unfold ptrs. by rewrite He. Qed.
Lemma leaf_entry_mine s D q e i : ok s (S D) -> links s D q = Some e -> 0 <= i < 128 -> entry_mine s (ptr e + 32 * i).
Proof.
  intros O He Hi Hp [F1 _ F3]. rewrite (hof_ok even s (S D) O) in F3. set (x := leaves s (ptr e + 32 * i)) in *.
  assert (L : leaf_at (links s) (S D) (leaves s) (128 * q + i) = Some x).
  { unfold leaf_at. replace ((128 * q + i) / 128) with q by dlia. replace ((128 * q + i) mod 128) with i by dlia. by rewrite He. }
  destruct (pse_valid x) eqn:Ev.
  - apply (F3 (128 * q + i) x); [|done|done]. unfold view, mapped. by rewrite L, Ev.
  - rewrite (tr_clean _ _ _ _ _ (ok_tree _ _ _ O) _ _ L Ev) in F1. by apply (null_not_owned (heap s) (tr_heap _ _ _ _ _ (ok_tree _ _ _ O))).
Qed.
Lemma free_leaf_tears s H D q e s1 : ok s H -> H = S D -> links s D q = Some e -> torn s s1 ->
  tears s s1 (ps_free_leaf_page (ptr e) s1) /\ gone s (ps_free_leaf_page (ptr e) s1) 0 D q.
Proof.
  intros O EH He T. destruct (link_live_used s H D q e O ltac:(lia) He) as (_ & Np & _). destruct (tree_ptr _ _ _ _ _ D q e (ok_tree _ _ _ O) ltac:(lia) He) as (_ & Cp & _). unfold canonical in Cp.
  unfold ps_free_leaf_page. rewrite (proj2 (Z.eqb_neq _ 0) Np). change (Z.to_nat PAGE_SLICE_LEAF_CAPACITY) with 128%nat.
  destruct (clear_entries_tears s 128 (ptr e) s1 T) as [C1 C2]; [intros i Hi; split; [lia|rewrite EH in O; by apply (leaf_entry_mine s D q e i O)]|].
  destruct (free_tears s _ (ptr e) (proj1 C1) (tree_not_spare s H D q e O ltac:(lia) He)) as [F1 F2].
  split; [by apply (tears_trans s s1 (clear_entries (ptr e) 128 s1))|]. intros e' He'. rewrite He in He'. injection He' as <-. split; [done|].
  intros i Hi. apply (entry_gone_mono s _ _ _ (proj2 F1)), C2. lia.
Qed.
Lemma each_slot_tears s (f : Z -> page_slice A -> option (page_slice A)) (G : Z -> page_slice A -> Prop) n :
  (forall i s1 s2, owned (heap s2) ⊆ owned (heap s1) -> G i s1 -> G i s2) ->
  forall a j s1, torn s s1 -> (forall i s1, 0 <= i < Z.of_nat n -> torn s s1 -> exists s2, f (a + 8 * i) s1 = Some s2 /\ tears s s1 s2 /\ G (j + i) s2) ->
  exists s2, each_slot f a n s1 = Some s2 /\ tears s s1 s2 /\ forall i, 0 <= i < Z.of_nat n -> G (j + i) s2.
Proof.
  intros Hmono. induction n as [|n IH]; intros a j s1 T Hf; [exists s1; split_and!; [done|by split|intros; lia]|]. cbn [each_slot].
  destruct (Hf 0 s1 ltac:(lia) T) as (s2 & E2 & T2 & G2). rewrite Z.add_0_r in E2. rewrite E2. cbn [mbind option_bind].
  destruct (IH (a + 8) (j + 1) s2 (proj1 T2)) as (s3 & E3 & T3 & G3).
  { intros i x Hi Hx. destruct (Hf (i + 1) x ltac:(lia) Hx) as (y & Y1 & Y2 & Y3). exists y. replace (a + 8 + 8 * i) with (a + 8 * (i + 1)) by lia.
    replace (j + 1 + i) with (j + (i + 1)) by lia. done. }
  exists s3. split_and!; [done|by apply (tears_trans s s1 s2)|]. intros i Hi. destruct (Z.eq_dec i 0) as [->|Hn]; [by apply (Hmono _ s2 s3 (proj2 T3))|].
  replace (j + i) with (j + 1 + (i - 1)) by lia. apply G3. lia.
Qed.
(** the page behind a link that is in use *)
Definition free_child (fuel : nat) (c : Z) s : option (page_slice A) :=
  if page_slice_index_entry_points_to_leaf c then Some (ps_free_leaf_page (ps_entry_as_leaf_page c) s)
  else ps_free_index_page_recursive fuel (ps_entry_as_index_page c) s.
Lemma free_index_step s H fuel k d q e s1 : ok s H -> (d < H)%nat -> links s d q = Some e -> torn s s1 ->
  (forall i c s2, 0 <= i < 512 -> c <> 0 -> links s (S d) (512 * q + i) = Some c -> torn s s2 ->
    exists s3, free_child fuel c s2 = Some s3 /\ tears s s2 s3 /\ gone s s3 k (S d) (512 * q + i)) ->
  exists s2, ps_free_index_page_recursive (S fuel) (ptr e) s1 = Some s2 /\ tears s s1 s2 /\ gone s s2 (S k) d q.
Proof.
  intros O Hd He T Hc. cbn [ps_free_index_page_recursive]. destruct (link_live_used s H d q e O Hd He) as (_ & Np & _). rewrite (proj2 (Z.eqb_neq _ 0) Np).
  match goal with |- context [each_slot ?f _ _ _] => set (g := f) end.
  destruct (each_slot_tears s g (fun i s' => gone s s' k (S d) (512 * q + i)) (Z.to_nat PAGE_SLICE_INDEX_CAPACITY)
    ltac:(intros i x y W; apply gone_mono; exact W) (ptr e) 0 s1 T) as (s2 & E2 & T2 & G2).
  - change (Z.of_nat (Z.to_nat PAGE_SLICE_INDEX_CAPACITY)) with 512. intros i s2 Hi T2. rewrite Z.add_0_l. unfold g. cbv beta zeta. fold (slot (ptr e) i). rewrite (to_links s s2 T2).
    assert (L : links s (S d) (512 * q + i) = if words s (slot (ptr e) i) =? 0 then None else Some (words s (slot (ptr e) i))).
    { rewrite links_S. replace ((512 * q + i) / 512) with q by dlia. replace ((512 * q + i) mod 512) with i by dlia. by rewrite He. }
    unfold page_slice_index_entry_empty at 1, ps_entry_is_none at 1, tp_is_none at 1. destruct (Z.eqb_spec (words s (slot (ptr e) i)) 0) as [E0|E0]; [|by apply Hc].
    exists s2. split_and!; [done|by split|]. destruct k; intros e' He'; by rewrite L in He'.
  - rewrite E2. cbn [mbind option_bind]. eexists. split; [reflexivity|]. destruct (free_tears s s2 (ptr e) (proj1 T2) (tree_not_spare s H d q e O Hd He)) as [F1 F2].
    split; [by apply (tears_trans s s1 s2)|]. intros e' He'. rewrite He in He'. injection He' as <-. split; [done|]. intros i Hi.
    by apply (gone_mono s s2 _ _ (proj2 F1)), G2.
Qed.
Lemma points_to_leaf s H d q c : ok s H -> (S d < H)%nat -> links s (S d) q = Some c -> page_slice_index_entry_points_to_leaf c = (Z.of_nat (H - d) =? 2).
Proof.
  intros O Hd L. destruct (link_parts even s H (S d) _ c O Hd L) as (l & _ & _ & _ & _ & _ & _ & Eh). destruct (link_live_used s H (S d) q c O Hd L) as (_ & _ & E0).
  unfold page_slice_index_entry_points_to_leaf, page_slice_index_entry_height, ps_entry_is_none, tp_is_none. by rewrite (proj2 (Z.eqb_neq c 0) E0), Eh.
Qed.
Lemma free_index_tears s H k : ok s H -> forall fuel d q e s1, (d + k + 2 = H)%nat -> (k < fuel)%nat -> links s d q = Some e -> torn s s1 ->
  exists s2, ps_free_index_page_recursive fuel (ptr e) s1 = Some s2 /\ tears s s1 s2 /\ gone s s2 (S k) d q.
Proof.
  intros O. induction k as [|k IH]; intros fuel d q e s1 HH Hfu He T; (destruct fuel as [|fuel]; [lia|]);
    apply (free_index_step s H fuel _ d q e s1 O ltac:(lia) He T); intros i c s2 Hi Hc L T2; unfold free_child; rewrite (points_to_leaf s H d _ c O) by (done || lia).
  - rewrite (proj2 (Z.eqb_eq (Z.of_nat (H - d)) 2)) by lia. replace H with (S (S d)) in O by lia. destruct (leaf_link even s d _ c O L) as (-> & _ & _).
    destruct (free_leaf_tears s _ (S d) _ c s2 O eq_refl L T2) as [R1 R2]. by eexists.
  - rewrite (proj2 (Z.eqb_neq (Z.of_nat (H - d)) 2)) by lia. destruct (index_link even s H (S d) _ c O ltac:(lia) L) as ([Ed|Ei] & _ & _); [done|]. rewrite Ei.
    destruct (IH fuel (S d) _ c s2 ltac:(lia) ltac:(lia) L T2) as (s3 & R1 & R2 & R3). by exists s3.
Qed.

(** ** The whole slice *)

Lemma gone_all s s' H : ok s H -> gone s s' (H - 1) 0 0 -> forall d q e, (d < H)%nat -> links s d q = Some e -> gone s s' (H - 1 - d) d q.
Proof.
  intros O G d. induction d as [|d IH]; intros q e Hd He; [rewrite (tr_root _ _ _ _ _ (ok_tree _ _ _ O) _ _ He); by rewrite Nat.sub_0_r|].
  destruct (tr_up _ _ _ _ _ (ok_tree _ _ _ O) d q e Hd He) as [pe Hpe]. pose proof (IH _ pe ltac:(lia) Hpe) as Gp. replace (H - 1 - d)%nat with (S (H - 1 - S d)) in Gp by lia.
  destruct (Gp pe Hpe) as [_ Gc]. specialize (Gc (q mod 512) ltac:(apply Z.mod_pos_bound; lia)). by replace (512 * (q / 512) + q mod 512) with q in Gc by dlia.
Qed.
(** nothing of the slice is left in the heap, everything else but [slice] is *)
Record all_back (slice : Z) s s' : Prop := {
  ab_root : root s' = 0;
  ab_owned : owned (heap s') ⊆ owned (heap s);
  ab_spare : forall k, k <> slice -> spare s k -> k ∈ owned (heap s');
  ab_tree : forall d q p, (d < hof s)%nat -> ptrs s d q = Some p -> p ∉ owned (heap s');
  ab_data : forall o x, slice_map s o = Some x -> pinned x = false -> kernel_virtual_address x ∉ owned (heap s')
}.
Lemma gone_back s s' H : ok s H -> (0 < H)%nat -> root s' = 0 -> owned (heap s') ⊆ owned (heap s) -> (forall k, spare s k -> k ∈ owned (heap s')) -> gone s s' (H - 1) 0 0 -> forall slice, all_back slice s s'.
Proof.
  intros O HH Hr W Wk G slice. pose proof (gone_all s s' H O G) as Ga. constructor; [done|done|intros k _; apply Wk| |].
  - intros d q p. rewrite (hof_ok even s H O). intros Hd Hp. unfold ptrs in Hp. destruct (links s d q) as [e|] eqn:E; [|done]. cbn in Hp. injection Hp as <-.
    specialize (Ga d q e Hd E). destruct (H - 1 - d)%nat; by apply (Ga e E).
  - intros o x. unfold slice_map. rewrite (hof_ok even s H O). unfold view, mapped, leaf_at. destruct H as [|D]; [lia|].
    destruct (links s D (o / 128)) as [e|] eqn:E; [|done]. destruct (pse_valid _); [|done]. intros [= <-] Hp. specialize (Ga D _ e ltac:(lia) E).
    replace (S D - 1 - D)%nat with 0%nat in Ga by lia. destruct (Ga e E) as [_ Ge]. apply (Ge (o mod 128)); [apply Z.mod_pos_bound; lia|done].
Qed.
Lemma destroy_effect slice s : slice_ok s -> exists s', page_slice_destroy slice s = Some s' /\ all_back slice s s' /\ slice ∉ owned (heap s').
Proof.
  intros So. pose proof (so_tree s So) as O. set (H := hof s) in *. unfold page_slice_destroy. rewrite (ok_root_empty even s H O), (ok_is_leaf even s H O).
  assert (T : torn s s) by (constructor; [done|apply (tr_heap _ _ _ _ _ (ok_tree _ _ _ O))|done|by intros k [F _ _]|by left]).
  assert (Fin : forall s1, all_back slice s s1 -> heap_ok (heap s1) -> all_back slice s (free slice s1) /\ slice ∉ owned (heap (free slice s1))).
  { intros s1 [B1 B2 B5 B3 B4] Hh. destruct (ph_free (heap s1) slice Hh) as [F1 F2]. cbn [free set_heap heap]. split; [|rewrite F2; set_solver].
    constructor; cbn [free set_heap heap root]; [done|rewrite F2; set_solver| | |].
    - intros k Hne Hk. rewrite F2. apply elem_of_difference. split; [by apply B5|]. by rewrite elem_of_singleton.
    - intros d q p Hd Hp Hi. rewrite F2 in Hi. apply (B3 d q p Hd Hp). set_solver.
    - intros o x Hx Hp Hi. rewrite F2 in Hi. apply (B4 o x Hx Hp). set_solver. }
  destruct (Nat.eqb_spec H 0) as [E0|Hn0].
  - cbn [mbind option_bind]. eexists. split; [done|]. apply Fin; [|apply (tr_heap _ _ _ _ _ (ok_tree _ _ _ O))].
    constructor; [by apply (ok_empty _ _ _ O)|done|by intros k _ [F _ _]|fold H; lia|]. intros o x Hx. unfold slice_map in Hx. fold H in Hx. by rewrite E0 in Hx.
  - assert (Hr : root s <> 0) by (intros Hz; apply (ok_empty _ _ _ O) in Hz; lia). pose proof (links_root s Hr) as L0.
    destruct (Nat.eqb_spec H 1) as [E1|Hn1]; cbn [mbind option_bind].
    + rewrite E1 in O. destruct (root_leaf s O) as (-> & _ & _). destruct (free_leaf_tears s 1 0 0 _ s O eq_refl L0 T) as [[T2 W2] G2].
      eexists. split; [done|]. apply Fin; [|apply (to_heap _ _ T2)]. apply (gone_back s _ 1 O ltac:(lia)); [done|exact W2|exact (to_spare _ _ T2)|exact G2].
    + destruct (root_index s H O ltac:(lia)) as (-> & _ & _). pose proof (ok_height _ _ _ O) as Hh.
      destruct (free_index_tears s H (H - 2) O 4 0 0 (root s) s ltac:(lia) ltac:(lia) L0 T) as (s2 & -> & [T2 W2] & G2). cbn [mbind option_bind].
      eexists. split; [done|]. apply Fin; [|apply (to_heap _ _ T2)]. apply (gone_back s _ H O ltac:(lia)); [done|exact W2|exact (to_spare _ _ T2)|]. replace (H - 1)%nat with (S (H - 2)) by lia. by apply (gone_mono s s2).
Qed.
End Destroy.
