(* ===== verification/PageSliceSpec.v ===== *)
(** * Page slices as maps

    The interface of [page_slice.c] on a well-formed slice: a map from page
    offsets to pages ([slice_map]) over a heap of pages.  [page_heap] is a
    concrete heap for the instances at the end. *)
From S2P Require Import Prelude Mm TaggedPtr Allocator PageSlice PageSliceTree PageSliceLinks PageSliceWalk PageSliceGrow PageSliceInsert PageSliceRemove PageSliceShrink PageSliceDestroy.

Section Spec.
Context {A : Type} {HA : Allocator A} {HP : PageHeap A}.
Implicit Types (s : page_slice A).

(** C13 [page_slice_insert_page] always ends.  The zero page and an offset past
    the slice are refused and nothing changes; an offset in use keeps its page
    ([REND_SUCCESS] for the same page, [E_REND_AGAIN] for another); a free one
    gets the page, flagged valid, and no other offset changes; and when the heap
    is empty the map is as before. *)
Theorem slice_insert_spec s pgoff kva fl : slice_ok s -> 0 <= pgoff -> (pinned (new_entry kva fl false) = false -> spare s kva) ->
  exists err s', page_slice_insert_page pgoff kva fl s = Some (err, s') /\ slice_ok s' /\ page_slice_get_size s' = page_slice_get_size s /\ (forall k, (k = kva -> err <> REND_SUCCESS) -> spare s k -> spare s' k) /\
    if (kva =? 0) || (page_slice_page_count s <=? pgoff) then err = - E_IN_PARAM /\ s' = s
    else
      err = - E_REND_NO_MEM /\ (forall o, slice_map s' o = slice_map s o) \/
      match slice_map s pgoff with
      | Some x => err = (if kernel_virtual_address x =? kva then REND_SUCCESS else - E_REND_AGAIN) /\ forall o, slice_map s' o = slice_map s o
      | None => err = REND_SUCCESS /\ mapped_entries s' = u64 (mapped_entries s + 1) /\
          exists b, forall o, slice_map s' o = if o =? pgoff then Some (new_entry kva fl b) else slice_map s o
      end.
Proof. apply slice_insert_effect. Qed.

(** C12 [page_slice_remove_page] always ends.  An offset past the slice or not in
    use is refused and nothing changes; otherwise exactly this offset leaves the
    map, its page is given back unless it is pinned, the heap gains pages only,
    and the tree stays well-formed through the cascade and the shrinking. *)
Theorem slice_remove_spec s pgoff : slice_ok s -> 0 <= pgoff ->
  exists err s', page_slice_remove_page pgoff s = Some (err, s') /\ slice_ok s' /\ page_slice_get_size s' = page_slice_get_size s /\
    if page_slice_page_count s <=? pgoff then err = - E_IN_PARAM /\ s' = s
    else
      match slice_map s pgoff with
      | None => err = - E_REND_NOFOUND /\ s' = s
      | Some x => err = REND_SUCCESS /\ taken s s' pgoff x
      end.
Proof. apply slice_remove_effect. Qed.

(** [page_slice_set_size] to a size that is not zero: a size over the maximum
    is refused and nothing changes; otherwise the offsets from the new page count
    on leave the map with their pages, the others keep theirs. *)
Theorem slice_set_size_spec slice s new : slice_ok s -> 0 < new ->
  exists err s', page_slice_set_size slice new s = Some (err, false, s') /\ slice_ok s' /\
    if PAGE_SLICE_MAX_BYTE_SIZE <? new then err = - E_REND_OVERFLOW /\ s' = s
    else err = REND_SUCCESS /\ page_slice_get_size s' = new /\
      (forall o, slice_map s' o = if o <? PAGE_SLICE_SIZE_TO_PAGE_COUNT new then slice_map s o else None) /\
      owned (heap s') ⊆ owned (heap s) /\
      forall o x, PAGE_SLICE_SIZE_TO_PAGE_COUNT new <= o -> slice_map s o = Some x -> pinned x = false -> kernel_virtual_address x ∉ owned (heap s').
Proof. apply set_size_effect. Qed.

(** C14 [page_slice_destroy] always ends and leaks nothing: every page of the
    tree, every page the slice maps that is not pinned and the slice's header are
    back in the heap, and no page of anybody else is. *)
Theorem slice_destroy_spec slice s : slice_ok s -> exists s', page_slice_destroy slice s = Some s' /\ all_back slice s s' /\ slice ∉ owned (heap s').
Proof. apply destroy_effect. Qed.

(** What was inserted at a free offset is found there, and removing it gives
    the map and the count of pages from before. *)
Theorem slice_insert_remove s pgoff kva fl s1 : slice_ok s -> 0 <= pgoff -> 0 <= mapped_entries s < 2 ^ 64 - 1 -> (pinned (new_entry kva fl false) = false -> spare s kva) ->
  slice_map s pgoff = None -> page_slice_insert_page pgoff kva fl s = Some (REND_SUCCESS, s1) ->
  exists a s2, page_slice_lookup pgoff s1 = Some (Some a) /\ kernel_virtual_address (leaves s1 a) = kva /\
    page_slice_remove_page pgoff s1 = Some (REND_SUCCESS, s2) /\ mapped_entries s2 = mapped_entries s /\ forall o, slice_map s2 o = slice_map s o.
Proof.
  intros S H0 Hm Hsp Hn E. destruct (slice_insert_effect s pgoff kva fl S H0 Hsp) as (err & s' & E1 & S1 & Z1 & _ & R). rewrite E in E1. injection E1 as <- <-.
  destruct (Z.eqb_spec kva 0); [by destruct R|]. destruct (Z.leb_spec (page_slice_page_count s) pgoff) as [|Hlt]; [by destruct R|]. cbn [orb] in R. rewrite Hn in R.
  destruct R as [[[=] _]|(_ & M1 & b & V1)]. rewrite <- (page_count_same s s1 Z1) in Hlt. pose proof (V1 pgoff) as Vp. rewrite Z.eqb_refl in Vp.
  destruct (lookup_effect s1 pgoff S1 H0) as ([a|] & L1 & L2); [|exfalso; destruct L2 as [?|L2]; [lia|congruence]]. destruct L2 as [_ L2]. rewrite L2 in Vp. injection Vp as Vp.
  destruct (slice_remove_effect s1 pgoff S1 H0) as (err & s2 & E2 & _ & _ & R2). rewrite (proj2 (Z.leb_gt _ _) Hlt), L2 in R2. destruct R2 as [-> (T1 & T2 & _)].
  exists a, s2. split_and!; [done|by rewrite Vp|done| |].
  - rewrite T2, M1, u64_small by lia. rewrite (proj2 (Z.ltb_lt 0 _)) by lia. lia.
  - intros o. rewrite T1, V1. destruct (Z.eqb_spec o pgoff) as [->|]; [by rewrite Hn|done].
Qed.
End Spec.

(** ** A heap of pages *)

(** addresses from 4096 on, each handed out once *)
Record page_heap := mk_pages { pages_next : Z; pages_out : gset Z }.
#[export] Instance page_heap_alloc : Allocator page_heap := {
  m_alloc a n :=
    if pages_next a <? 2 ^ 40 then (pages_next a, mk_pages (pages_next a + PAGE_SIZE) (if n =? PAGE_SIZE then {[pages_next a]} ∪ pages_out a else pages_out a))
    else (0, a);
  m_free a p := mk_pages (pages_next a) (pages_out a ∖ {[p]})
}.
Definition pages_ok (a : page_heap) : Prop :=
  4096 <= pages_next a <= 2 ^ 40 /\ pages_next a mod 4096 = 0 /\ forall p, p ∈ pages_out a -> 4096 <= p < pages_next a /\ p mod 4096 = 0.
Lemma page_heap_alloc_ok a p a' : pages_ok a -> m_alloc a PAGE_SIZE = (p, a') ->
  pages_ok a' /\ (p = 0 /\ pages_out a' = pages_out a \/ p <> 0 /\ p ∉ pages_out a /\ pages_out a' = {[p]} ∪ pages_out a).
Proof.
  intros (H1 & H2 & H3). cbn [m_alloc page_heap_alloc]. rewrite Z.eqb_refl. destruct (Z.ltb_spec (pages_next a) (2 ^ 40)); intros [= <- <-]; [|by split; [|left]].
  split; [|right; split_and!; [lia|intros Hi%H3; lia|done]]. unfold pages_ok. cbn [pages_next pages_out]. change PAGE_SIZE with 4096. change (2 ^ 40) with 1099511627776 in *. split_and!; [lia|dlia|dlia|].
  intros p [->%elem_of_singleton|Hp]%elem_of_union; [split; [lia|done]|]. specialize (H3 p Hp). lia.
Qed.
Lemma page_heap_other a n p a' : pages_ok a -> n <> PAGE_SIZE -> m_alloc a n = (p, a') -> pages_ok a' /\ pages_out a' = pages_out a /\ p ∉ pages_out a.
Proof.
  intros (H1 & H2 & H3) Hn. cbn [m_alloc page_heap_alloc]. rewrite (proj2 (Z.eqb_neq n _) Hn). destruct (Z.ltb_spec (pages_next a) (2 ^ 40)); intros [= <- <-]; [|split_and!; [done|done|intros Hi%H3; lia]].
  split; [|split; [done|intros Hi%H3; lia]]. unfold pages_ok. cbn [pages_next pages_out]. change PAGE_SIZE with 4096. change (2 ^ 40) with 1099511627776 in *. split_and!; [lia|dlia|dlia|].
  intros p Hp. specialize (H3 p Hp). lia.
Qed.
#[export] Instance page_heap_pages : PageHeap page_heap.
Proof.
  refine {| heap_ok := pages_ok; owned := pages_out; ph_alloc := page_heap_alloc_ok; ph_other := page_heap_other |}.
  - intros a p (H1 & H2 & H3) Hp. specialize (H3 p Hp). change (2 ^ 40) with 1099511627776 in *. split; [|lia]. left. change (2 ^ 47) with 140737488355328. lia.
  - intros a p q (H1 & H2 & H3) Hp Hq Hn. pose proof (H3 p Hp). pose proof (H3 q Hq). change PAGE_SIZE with 4096. dlia.
  - intros a p (H1 & H2 & H3). split; [|done]. unfold pages_ok. cbn. split_and!; [lia|lia|done|]. intros x [Hx _]%elem_of_difference. by apply H3.
Defined.

(** *** Instances *)

(** one page handed out, a slice of 300 pages *)
Definition slice0 : page_slice page_heap := mk_slice 0 (300 * 4096) 0 (fun _ => 0) (fun _ => pse_zero) (mk_pages 8192 {[4096]}).
Definition slice1 : page_slice page_heap := match page_slice_insert_page 200 4096 0 slice0 with Some (_, s) => s | None => slice0 end.
Lemma slice0_heap : heap_ok (heap slice0).
Proof. change (pages_ok (heap slice0)). split_and!; [done|done|done|]. intros p Hp. change (p ∈ ({[4096]} : gset Z)) in Hp. apply elem_of_singleton in Hp as ->. done. Qed.
Lemma slice0_ok : slice_ok slice0.
Proof. destruct (no_tree_ok slice0 slice0_heap eq_refl) as [O V]. apply (slice_ok_of slice0 0 O); [done|]. intros o. rewrite V. by intros [? ?]. Qed.
Lemma slice0_spare : spare slice0 4096.
Proof. constructor; [change (4096 ∈ ({[4096]} : gset Z)); by apply elem_of_singleton|intros d q Hd; exfalso; change (hof slice0) with 0%nat in Hd; lia|done]. Qed.
Lemma slice1_inserted : exists err, page_slice_insert_page 200 4096 0 slice0 = Some (err, slice1) /\ slice_ok slice1.
Proof.
  destruct (slice_insert_effect slice0 200 4096 0 slice0_ok ltac:(lia) (fun _ => slice0_spare)) as (err & s' & E & S & _).
  exists err. unfold slice1. rewrite E. exact (conj eq_refl S).
Qed.
Lemma slice1_err : (match page_slice_insert_page 200 4096 0 slice0 with Some (e, s) => (e =? REND_SUCCESS) && (mapped_entries s =? 1) | None => false end) = true.
Proof. vm_compute. reflexivity. Qed.
Lemma slice1_success : page_slice_insert_page 200 4096 0 slice0 = Some (REND_SUCCESS, slice1).
Proof.
  destruct slice1_inserted as (err & E & _). pose proof slice1_err as He. rewrite E in He |- *. apply andb_true_iff in He as [He%Z.eqb_eq _]. by rewrite He.
Qed.
Lemma slice1_ok : slice_ok slice1.
Proof. by destruct slice1_inserted as (err & _ & S). Qed.

Lemma slice_insert_witness : slice_ok slice0 /\ exists err s', page_slice_insert_page 200 4096 0 slice0 = Some (err, s') /\ slice_ok s'.
Proof.
  split; [apply slice0_ok|]. destruct (slice_insert_spec slice0 200 4096 0 slice0_ok ltac:(lia) (fun _ => slice0_spare)) as (err & s' & E & S & _). by exists err, s'.
Defined.
Lemma slice_remove_witness : slice_ok slice1 /\ exists err s', page_slice_remove_page 200 slice1 = Some (err, s') /\ slice_ok s'.
Proof. split; [apply slice1_ok|]. destruct (slice_remove_spec slice1 200 slice1_ok ltac:(lia)) as (err & s' & E & S & _). exists err, s'. exact (conj E S). Defined.
Lemma slice_set_size_witness : slice_ok slice1 /\ exists err s', page_slice_set_size 0 4096 slice1 = Some (err, false, s') /\ slice_ok s'.
Proof. split; [apply slice1_ok|]. destruct (slice_set_size_spec 0 slice1 4096 slice1_ok ltac:(lia)) as (err & s' & E & S & _). exists err, s'. exact (conj E S). Defined.
Lemma slice_destroy_witness : slice_ok slice1 /\ exists s', page_slice_destroy 0 slice1 = Some s' /\ all_back 0 slice1 s'.
Proof. split; [apply slice1_ok|]. destruct (slice_destroy_spec 0 slice1 slice1_ok) as (s' & E & B & _). exists s'. exact (conj E B). Defined.
Lemma slice_insert_remove_witness : slice_map slice0 200 = None /\
  exists a s2, page_slice_lookup 200 slice1 = Some (Some a) /\ page_slice_remove_page 200 slice1 = Some (REND_SUCCESS, s2) /\ mapped_entries s2 = 0.
Proof.
  split; [reflexivity|]. destruct (slice_insert_remove slice0 200 4096 0 slice1 slice0_ok ltac:(lia) ltac:(cbn; lia) (fun _ => slice0_spare) eq_refl slice1_success) as (a & s2 & L & _ & R & M & _).
  exists a, s2. exact (conj L (conj R M)).
Defined.
