(* ===== verification/PageSliceCopy.v ===== *)
(** * Copying page slices

    [kernel/mm/page_slice_copy.c]: bytes from a slice to a kernel buffer, to
    another slice and to user memory, and the deep copy of a slice.  [mem] is
    the byte memory behind the pages.  The walk of [ps_clone_walk_mapped] is
    one step a round of its loop ([clone_step]), with the arrays [slot],
    [index] and [pgoff_base] as lists. *)
From S2P Require Import Prelude Mm TaggedPtr CString Allocator PageTable MapHandler PageSlice.

Definition PAGE_SLICE_IN_PAGE_OFF (byte_off : Z) : Z := Z.land byte_off (PAGE_SIZE - 1).
Definition PAGE_SLICE_BYTE_TO_PGOFF (byte_off : Z) : Z := byte_off / PAGE_SIZE.

(** ** A range of mapped bytes *)

Section From.
Context {A C : Type} `{Allocator A} (emit : Z -> Z -> Z -> C -> option (Z * C)).
Implicit Types (s : page_slice A).

Fixpoint from_loop (byte_off len : Z) s (fuel : nat) (done : Z) (c : C) : option (Z * C) :=
  if len <=? done then Some (REND_SUCCESS, c)
  else
    match fuel with
    | O => None
    | S fuel' =>
      let off := u64 (byte_off + done) in
      let pgoff := PAGE_SLICE_BYTE_TO_PGOFF off in
      let in_page := PAGE_SLICE_IN_PAGE_OFF off in
      entry ← page_slice_lookup pgoff s;
      match entry with
      | None => Some (- E_RENDEZVOS, c)
      | Some entry =>
        let chunk := PAGE_SIZE - in_page in
        let chunk := if len - done <? chunk then len - done else chunk in
        '(err, c) ← emit (u64 (kernel_virtual_address (leaves s entry) + in_page)) chunk off c;
        if negb (err =? REND_SUCCESS) then Some (err, c) else from_loop byte_off len s fuel' (done + chunk) c
      end
    end.
Definition page_slice_copy_from_mapped s (byte_off len : Z) (c : C) : option (Z * C) :=
  if len =? 0 then Some (REND_SUCCESS, c)
  else
    let slice_size := page_slice_get_size s in
    if (slice_size <? byte_off) || (slice_size - byte_off <? len) then Some (- E_IN_PARAM, c)
    else from_loop byte_off len s (Z.to_nat (len / PAGE_SIZE + 2)) 0 c.
End From.

Section Copy.
Context {A : Type} `{Allocator A}.
Implicit Types (s : page_slice A).

(** [struct page_slice_copy_to_buffer_ctx]: [dst] is fixed, [done] counts *)
Definition page_slice_emit_to_buffer (dst src_kva chunk_len src_byte_off : Z) (c : Z * mem) : option (Z * (Z * mem)) :=
  let '(done, m) := c in
  Some (REND_SUCCESS, (u64 (done + chunk_len), snd (memcpy m (u64 (dst + done)) src_kva chunk_len))).
Definition page_slice_copy_to_buffer s (byte_off dst len : Z) (m : mem) : option (Z * mem) :=
  if dst =? 0 then Some (- E_IN_PARAM, m)
  else '(err, (_, m)) ← page_slice_copy_from_mapped (page_slice_emit_to_buffer dst) s byte_off len (0, m); Some (err, m).

Definition page_slice_byte_ranges_overlap (a_off b_off len : Z) : bool :=
  let a_end := u64 (a_off + len) in
  let b_end := u64 (b_off + len) in
  (a_off <? b_end) && (b_off <? a_end).
Fixpoint slice_loop (dst src : page_slice A) (dst_byte_off src_byte_off len : Z) (fuel : nat) (done : Z) (m : mem) : option (Z * mem) :=
  if len <=? done then Some (REND_SUCCESS, m)
  else
    match fuel with
    | O => None
    | S fuel' =>
      let src_off := u64 (src_byte_off + done) in
      let dst_off := u64 (dst_byte_off + done) in
      let src_in_page := PAGE_SLICE_IN_PAGE_OFF src_off in
      let dst_in_page := PAGE_SLICE_IN_PAGE_OFF dst_off in
      src_entry ← page_slice_lookup (PAGE_SLICE_BYTE_TO_PGOFF src_off) src;
      dst_entry ← page_slice_lookup (PAGE_SLICE_BYTE_TO_PGOFF dst_off) dst;
      match src_entry, dst_entry with
      | Some src_entry, Some dst_entry =>
        let chunk := PAGE_SIZE - src_in_page in
        let chunk := if PAGE_SIZE - dst_in_page <? chunk then PAGE_SIZE - dst_in_page else chunk in
        let chunk := if len - done <? chunk then len - done else chunk in
        let m := snd (memcpy m (u64 (kernel_virtual_address (leaves dst dst_entry) + dst_in_page))
                        (u64 (kernel_virtual_address (leaves src src_entry) + src_in_page)) chunk) in
        slice_loop dst src dst_byte_off src_byte_off len fuel' (done + chunk) m
      | _, _ => Some (- E_RENDEZVOS, m)
      end
    end.
(** [same]: [dst == src] *)
Definition page_slice_copy_to_slice (same : bool) (dst : page_slice A) (dst_byte_off : Z) (src : page_slice A) (src_byte_off len : Z) (m : mem) : option (Z * mem) :=
  if len =? 0 then Some (REND_SUCCESS, m)
  else if same && page_slice_byte_ranges_overlap src_byte_off dst_byte_off len then Some (- E_IN_PARAM, m)
  else
    let dst_size := page_slice_get_size dst in
    let src_size := page_slice_get_size src in
    if (dst_size <? dst_byte_off) || (dst_size - dst_byte_off <? len) then Some (- E_IN_PARAM, m)
    else if (src_size <? src_byte_off) || (src_size - src_byte_off <? len) then Some (- E_IN_PARAM, m)
    else slice_loop dst src dst_byte_off src_byte_off len (Z.to_nat (2 * (len / PAGE_SIZE) + 3)) 0 m.

(** ** To user memory *)

Section User.
Context {P : Type} `{FrameOps P} (max_phy_addr_width : Z).
Definition page_slice_emit_to_user (vs : option VSpace) (user_va : Z) (fuel : nat) (src_kva chunk_len src_byte_off : Z) (c : Z * mapst P)
  : option (Z * (Z * mapst P)) :=
  let '(done, st) := c in
  '(err, st) ← map_handler_user_kernel_copy max_phy_addr_width vs (u64 (user_va + done)) src_kva chunk_len true fuel st;
  Some (err, (if err =? REND_SUCCESS then u64 (done + chunk_len) else done, st)).
Definition page_slice_copy_to_user (vs : option VSpace) (user_va : Z) s (file_byte_off len : Z) (fuel : nat) (st : mapst P) : option (Z * mapst P) :=
  match vs with
  | None => Some (- E_IN_PARAM, st)
  | Some _ => '(err, (_, st)) ← page_slice_copy_from_mapped (page_slice_emit_to_user vs user_va fuel) s file_byte_off len (0, st); Some (err, st)
  end.
End User.

(** ** The deep copy

    [dst] carries the heap both slices take their pages from *)

Definition cst : Type := (page_slice A * mem)%type.
Definition ps_clone_copy_leaf_entry (pgoff : Z) (src_entry : page_slice_entry) (c : cst) : option (Z * cst) :=
  let '(dst, m) := c in
  if negb (pse_valid src_entry) then Some (REND_SUCCESS, (dst, m))
  else
    let '(new_page, h) := m_alloc (heap dst) PAGE_SIZE in
    let dst := set_heap h dst in
    if new_page =? 0 then Some (- E_REND_NO_MEM, (dst, m))
    else
      let m := snd (memcpy m new_page (kernel_virtual_address src_entry) PAGE_SIZE) in
      let fl := Z.land (pse_flags src_entry) (bnot 64 PAGE_SLICE_FLAG_PIN) in
      '(err, dst) ← page_slice_insert_page pgoff new_page fl dst;
      if negb (err =? REND_SUCCESS) then Some (err, (free new_page dst, m)) else Some (REND_SUCCESS, (dst, m)).
Definition PS_INDEX_SLOT_STRIDE (stored_h : Z) : Z :=
  u64 (Z.shiftl PAGE_SLICE_LEAF_CAPACITY (PAGE_SLICE_INDEX_SHIFT * (stored_h - PS_HEIGHT_INDEX1))).
Fixpoint leaf_page_loop (src : page_slice A) (pgoff_base leaf : Z) (idx : Z) (n : nat) (c : cst) : option (Z * cst) :=
  match n with
  | O => Some (REND_SUCCESS, c)
  | S n' =>
    '(err, c) ← ps_clone_copy_leaf_entry (u64 (pgoff_base + idx)) (leaves src (leaf + 32 * idx)) c;
    if negb (err =? REND_SUCCESS) then Some (err, c) else leaf_page_loop src pgoff_base leaf (idx + 1) n' c
  end.
Definition ps_clone_copy_leaf_page (src : page_slice A) (pgoff_base leaf : Z) (c : cst) : option (Z * cst) :=
  leaf_page_loop src pgoff_base leaf 0 (Z.to_nat PAGE_SLICE_LEAF_CAPACITY) c.

(** where the walk is: the level [cur], and per level the slot, the index page
    and the first page offset below it *)
Record clone_walk := mk_walk { cur : nat; wslot : list Z; windex : list Z; wbase : list Z }.
Definition bump_slot (w : clone_walk) : clone_walk := mk_walk (cur w) (alter (fun x => x + 1) (cur w) (wslot w)) (windex w) (wbase w).
Definition go_up (w : clone_walk) : clone_walk := bump_slot (mk_walk (pred (cur w)) (<[cur w := 0]> (wslot w)) (windex w) (wbase w)).
Definition go_down (stored_h child : Z) (w : clone_walk) : clone_walk :=
  let c := S (cur w) in
  mk_walk c (<[c := 0]> (wslot w)) (<[c := child]> (windex w))
    (<[c := u64 (wbase w !!! cur w + wslot w !!! cur w * PS_INDEX_SLOT_STRIDE (stored_h - Z.of_nat (cur w)))]> (wbase w)).
(** one round of the loop; [inr]: it is left *)
Definition clone_step (src : page_slice A) (stored_h : Z) (wc : clone_walk * cst) : option (clone_walk * cst + Z * cst) :=
  let '(w, c) := wc in
  let k := cur w in
  if PAGE_SLICE_INDEX_CAPACITY <=? wslot w !!! k then
    if (k =? 0)%nat then Some (inr (REND_SUCCESS, c)) else Some (inl (go_up w, c))
  else
    let entry := words src (slot (windex w !!! k) (wslot w !!! k)) in
    if Z.of_nat k <? stored_h - 2 then
      if page_slice_index_entry_empty entry || negb (page_slice_index_entry_points_to_index entry) then Some (inl (bump_slot w, c))
      else
        let child := ps_entry_get_ptr entry in
        if child =? 0 then Some (inl (bump_slot w, c)) else Some (inl (go_down stored_h child w, c))
    else
      let leaf := if negb (page_slice_index_entry_empty entry) && page_slice_index_entry_points_to_leaf entry then ps_entry_get_ptr entry else 0 in
      '(err, c) ← (if leaf =? 0 then Some (REND_SUCCESS, c)
                   else ps_clone_copy_leaf_page src (u64 (wbase w !!! k + wslot w !!! k * PS_INDEX_SLOT_STRIDE PS_HEIGHT_INDEX1)) leaf c);
      if negb (err =? REND_SUCCESS) then Some (inr (err, c)) else Some (inl (bump_slot w, c)).
(** at most [2 ^ n] rounds *)
Fixpoint clone_rounds (src : page_slice A) (stored_h : Z) (n : nat) (x : clone_walk * cst + Z * cst) : option (clone_walk * cst + Z * cst) :=
  match x with
  | inr r => Some (inr r)
  | inl wc => match n with O => clone_step src stored_h wc | S n' => x ← clone_rounds src stored_h n' (inl wc); clone_rounds src stored_h n' x end
  end.
Definition ps_clone_walk_mapped (src : page_slice A) (c : cst) : option (Z * cst) :=
  if page_slice_root_empty src then Some (REND_SUCCESS, c)
  else
    let stored_h := page_slice_stored_height src in
    if page_slice_root_is_leaf src then
      let leaf := page_slice_root_get_leaf src in
      if leaf =? 0 then Some (REND_SUCCESS, c) else ps_clone_copy_leaf_page src 0 leaf c
    else if negb (page_slice_root_is_index src) || (stored_h <? PS_HEIGHT_INDEX1) then Some (REND_SUCCESS, c)
    else
      let index0 := page_slice_root_get_index src in
      if index0 =? 0 then Some (REND_SUCCESS, c)
      else
        x ← clone_rounds src stored_h 29 (inl (mk_walk 0 [0; 0; 0] [index0; 0; 0] [0; 0; 0], c));
        match x with inl _ => None | inr r => Some r end.
(** the address of the new slice, [NULL] on failure *)
Definition page_slice_clone (src : page_slice A) (h : A) (m : mem) : option (Z * Z * cst) :=
  let src_size := page_slice_get_size src in
  if src_size =? 0 then Some (- E_IN_PARAM, 0, (set_heap h src, m))
  else
    let '(dst, s) := page_slice_create 0 src_size (set_heap h src) in
    if dst =? 0 then Some (- E_REND_NO_MEM, 0, (s, m))
    else
      '(err, (s, m)) ← ps_clone_walk_mapped src (s, m);
      if negb (err =? REND_SUCCESS) then s ← page_slice_destroy dst s; Some (err, 0, (s, m))
      else Some (REND_SUCCESS, dst, (s, m)).
End Copy.
