(* ===== verification/PageSliceBytes.v ===== *)
(** * Bytes moved between pages

    Copies along address maps ([moved]), where the bytes of a slice lie
    ([byte_at]), and what copying a range to a buffer or to another slice leaves:
    all bytes, or those before the first hole. *)
From S2P Require Import Prelude Mm TaggedPtr CString Allocator PageTable MapHandler PageSlice PageSliceTree PageSliceLinks PageSliceWalk PageSliceGrow PageSliceInsert PageSliceCopy.

Lemma memcpy_copied m dst src n : byte_mem m -> 0 <= n < 2 ^ 33 -> disjoint dst src n -> copied m (snd (memcpy m dst src n)) dst src n.
Proof. intros Hm Hn Hd a. by apply memcpy_copies. Qed.

(** ** Bytes moved along two address maps *)

(** byte [i] of the source lies at [sa i], of the destination at [da i] *)
Record moved (sa da : Z -> option Z) (n : Z) (m m' : mem) : Prop := {
  mv_data : forall i, 0 <= i < n -> exists b c, sa i = Some b /\ da i = Some c /\ m' c = m b;
  mv_rest : forall a, (forall i, 0 <= i < n -> da i <> Some a) -> m' a = m a;
  mv_bytes : byte_mem m'
}.
(** no destination byte is a source byte or another destination byte *)
Definition apart (sa da : Z -> option Z) (n : Z) : Prop :=
  forall i j c, 0 <= i < n -> 0 <= j < n -> da j = Some c -> sa i <> Some c /\ (da i = Some c -> i = j).
Lemma moved_0 sa da m : byte_mem m -> moved sa da 0 m m.
Proof. intros Hm. constructor; [intros; lia|done|done]. Qed.
Lemma moved_step sa da len n k m m1 d s : moved sa da n m m1 -> apart sa da len -> 0 <= n -> 0 < k < 2 ^ 33 -> n + k <= len ->
  (forall j, 0 <= j < k -> sa (n + j) = Some (s + j) /\ da (n + j) = Some (d + j)) -> moved sa da (n + k) m (snd (memcpy m1 d s k)).
Proof.
  intros [M1 M2 M3] Hap Hn Hk Hlen Hc.
  assert (Hd : disjoint d s k).
  { unfold disjoint. destruct (Z.le_gt_cases (d + k) s), (Z.le_gt_cases (s + k) d); try lia. exfalso. destruct (Z.le_gt_cases d s).
    - destruct (Hc 0 ltac:(lia)) as [S0 _]. destruct (Hc (s - d) ltac:(lia)) as [_ D0]. rewrite Z.add_0_r in S0. replace (d + (s - d)) with s in D0 by lia.
      destruct (Hap (n + 0) (n + (s - d)) s ltac:(lia) ltac:(lia) D0) as [N _]. apply N. rewrite Z.add_0_r. rewrite Z.add_0_r in S0. exact S0.
    - destruct (Hc (d - s) ltac:(lia)) as [S0 _]. destruct (Hc 0 ltac:(lia)) as [_ D0]. rewrite Z.add_0_r in D0. replace (s + (d - s)) with d in S0 by lia.
      destruct (Hap (n + (d - s)) (n + 0) d ltac:(lia) ltac:(lia)) as [N _]; [rewrite Z.add_0_r in D0 |- *; exact D0|]. by apply N. }
  pose proof (memcpy_copied m1 d s k M3 ltac:(lia) Hd) as Hcp. constructor; [| |by eapply copied_byte_mem].
  - intros i Hi. destruct (Z.lt_ge_cases i n) as [Hlt|Hge].
    + destruct (M1 i ltac:(lia)) as (b & c & E1 & E2 & E3). exists b, c. split_and!; [done|done|]. rewrite Hcp, <- E3.
      destruct (Z.leb_spec d c), (Z.ltb_spec c (d + k)); cbn [andb]; try done. exfalso. destruct (Hc (c - d) ltac:(lia)) as [_ D0]. replace (d + (c - d)) with c in D0 by lia.
      destruct (Hap i (n + (c - d)) c ltac:(lia) ltac:(lia) D0) as [_ N]. specialize (N E2). lia.
    + destruct (Hc (i - n) ltac:(lia)) as [S0 D0]. replace (n + (i - n)) with i in S0, D0 by lia. exists (s + (i - n)), (d + (i - n)). split_and!; [done|done|].
      rewrite Hcp. rewrite (proj2 (Z.leb_le _ _)), (proj2 (Z.ltb_lt _ _)) by lia. cbn [andb]. replace (s + (d + (i - n) - d)) with (s + (i - n)) by lia.
      apply M2. intros j Hj Ej. destruct (Hap i j _ ltac:(lia) ltac:(lia) Ej) as [N _]. by apply N.
  - intros a Ha. rewrite Hcp. destruct (Z.leb_spec d a), (Z.ltb_spec a (d + k)); cbn [andb]; try (apply M2; intros i Hi; apply Ha; lia).
    exfalso. destruct (Hc (a - d) ltac:(lia)) as [_ D0]. apply (Ha (n + (a - d)) ltac:(lia)). rewrite D0. f_equal. lia.
Qed.

Section CopySpec.
Context {A : Type} {HA : Allocator A} {HP : PageHeap A}.
Implicit Types (s : page_slice A).

(** where byte [o] of a slice lies *)
Definition byte_at s (o : Z) : option Z := x ← slice_map s (o / PAGE_SIZE); Some (kernel_virtual_address x + o mod PAGE_SIZE).
(** mapped pages lie within the address space *)
Definition pages_fit s : Prop := forall o x, slice_map s o = Some x -> 0 <= kernel_virtual_address x /\ kernel_virtual_address x + PAGE_SIZE <= 2 ^ 64.

Lemma in_page_off o : 0 <= o -> PAGE_SLICE_IN_PAGE_OFF o = o mod PAGE_SIZE.
Proof. intros Ho. unfold PAGE_SLICE_IN_PAGE_OFF. change (PAGE_SIZE - 1) with (Z.ones 12). rewrite Z.land_ones by lia. done. Qed.
Lemma size_to_pages s o : slice_ok s -> 0 <= o < size s -> o / PAGE_SIZE < page_slice_page_count s.
Proof.
  intros [_ Hs _] Ho. change PAGE_SLICE_MAX_BYTE_SIZE with 70368744177664 in Hs. unfold page_slice_page_count, PAGE_SLICE_SIZE_TO_PAGE_COUNT. change PAGE_SIZE with 4096.
  rewrite (proj2 (Z.eqb_neq (size s) 0)) by lia. rewrite !u64_small by (rewrite ?u64_small; lia). dlia.
Qed.
(** one page looked up *)
Lemma lookup_page s o : slice_ok s -> pages_fit s -> 0 <= o < size s ->
  (exists a, page_slice_lookup (PAGE_SLICE_BYTE_TO_PGOFF (u64 o)) s = Some (Some a) /\
     u64 (kernel_virtual_address (leaves s a) + PAGE_SLICE_IN_PAGE_OFF (u64 o)) = kernel_virtual_address (leaves s a) + o mod PAGE_SIZE /\
     forall j, 0 <= j < PAGE_SIZE - o mod PAGE_SIZE -> byte_at s (o + j) = Some (kernel_virtual_address (leaves s a) + o mod PAGE_SIZE + j)) \/
  page_slice_lookup (PAGE_SLICE_BYTE_TO_PGOFF (u64 o)) s = Some None /\ byte_at s o = None.
Proof.
  intros So Hf Ho. pose proof (so_size s So) as Hs. change PAGE_SLICE_MAX_BYTE_SIZE with 70368744177664 in Hs. rewrite (u64_small o) by lia. unfold PAGE_SLICE_BYTE_TO_PGOFF, byte_at.
  assert (Hdiv : 0 <= o / PAGE_SIZE) by (change PAGE_SIZE with 4096; dlia). pose proof (size_to_pages s o So Ho) as Hp.
  destruct (lookup_effect s (o / PAGE_SIZE) So Hdiv) as ([a|] & L1 & L2).
  - left. exists a. destruct L2 as [_ L2]. destruct (Hf _ _ L2) as [F1 F2]. rewrite in_page_off by lia. change PAGE_SIZE with 4096 in *. split_and!; [done| |].
    + rewrite u64_small; [done|dlia].
    + intros j Hj. replace ((o + j) / 4096) with (o / 4096) by dlia. rewrite L2. cbn [mbind option_bind]. f_equal. dlia.
  - right. split; [done|]. destruct L2 as [?|L2]; [lia|]. by rewrite L2.
Qed.

(** ** To a buffer *)

Lemma emit_buffer dst kva k o n m : page_slice_emit_to_buffer dst kva k o (n, m) = Some (REND_SUCCESS, (u64 (n + k), snd (memcpy m (u64 (dst + n)) kva k))).
Proof. done. Qed.
Definition at_buffer (dst i : Z) : option Z := Some (dst + i).
Lemma buffer_loop s dst off len fuel : slice_ok s -> pages_fit s -> 0 <= off -> off + len <= size s -> 0 <= dst -> dst + len <= 2 ^ 64 ->
  apart (fun i => byte_at s (off + i)) (at_buffer dst) len ->
  forall m n m1, moved (fun i => byte_at s (off + i)) (at_buffer dst) n m m1 -> 0 <= n <= len ->
  (n < len -> (off + len - 1) / PAGE_SIZE - (off + n) / PAGE_SIZE + 1 <= Z.of_nat fuel) ->
  exists err n' m', from_loop (page_slice_emit_to_buffer dst) off len s fuel n (u64 n, m1) = Some (err, (u64 n', m')) /\
    moved (fun i => byte_at s (off + i)) (at_buffer dst) n' m m' /\
    (err = REND_SUCCESS /\ n' = len \/ err = - E_RENDEZVOS /\ n <= n' < len /\ byte_at s (off + n') = None).
Proof.
  intros So Hf Hoff Hlen Hd Hdl Hap m. pose proof (so_size s So) as Hs. change PAGE_SLICE_MAX_BYTE_SIZE with 70368744177664 in Hs.
  induction fuel as [|fuel IH]; intros n m1 Hm Hn Hfu; cbn [from_loop].
  { destruct (Z.leb_spec len n); [exists REND_SUCCESS, n, m1; split_and!; [done|done|left; split; [done|lia]]|]. specialize (Hfu ltac:(lia)). change PAGE_SIZE with 4096 in Hfu. dlia. }
  destruct (Z.leb_spec len n); [exists REND_SUCCESS, n, m1; split_and!; [done|done|left; split; [done|lia]]|]. cbv zeta. specialize (Hfu ltac:(lia)).
  destruct (lookup_page s (off + n) So Hf ltac:(lia)) as [(a & -> & E2 & E3)|[-> E2]]; cbn [mbind option_bind].
  2: { exists (- E_RENDEZVOS), n, m1. split_and!; [done|done|right; split_and!; [done|lia|lia|done]]. }
  rewrite E2. rewrite (u64_small (off + n)) by lia. rewrite in_page_off by lia.
  set (r := (off + n) mod PAGE_SIZE) in *. assert (Hr : 0 <= r < 4096) by (unfold r; change PAGE_SIZE with 4096; apply Z.mod_pos_bound; lia).
  set (k := if len - n <? PAGE_SIZE - r then len - n else PAGE_SIZE - r). assert (Hk : k = Z.min (len - n) (4096 - r)) by (unfold k; change PAGE_SIZE with 4096; case_bool; lia).
  rewrite emit_buffer. cbn [mbind option_bind]. change (negb (REND_SUCCESS =? REND_SUCCESS)) with false. cbv iota.
  rewrite (u64_small n), (u64_small (dst + n)) by lia.
  pose proof (moved_step _ _ len n k m m1 (dst + n) (kernel_virtual_address (leaves s a) + r) Hm Hap ltac:(lia) ltac:(lia) ltac:(lia)) as Hst.
  destruct (IH (n + k) _ (Hst ltac:(intros j Hj; split; [rewrite Z.add_assoc; apply E3; change PAGE_SIZE with 4096; lia|unfold at_buffer; f_equal; lia])) ltac:(lia)) as (err & n' & m' & R1 & R2 & R3).
  - intros Hlt. unfold r in *. change PAGE_SIZE with 4096 in *. dlia.
  - exists err, n', m'. split_and!; [exact R1|exact R2|]. destruct R3 as [?|(? & ? & ?)]; [by left|right; split_and!; (done || lia)].
Qed.

(** what a copy of [len] bytes leaves: all of it, or what lies before the
    first hole *)
Definition copied_until (sa da : Z -> option Z) (len : Z) (m : mem) (err : Z) (m' : mem) : Prop :=
  exists n, 0 <= n <= len /\ moved sa da n m m' /\
    (err = REND_SUCCESS /\ n = len \/ err = - E_RENDEZVOS /\ n < len /\ (sa n = None \/ da n = None)).
Lemma to_buffer_effect s off dst len m : slice_ok s -> pages_fit s -> byte_mem m -> 0 < dst -> dst + len <= 2 ^ 64 -> 0 <= off -> 0 <= len ->
  apart (fun i => byte_at s (off + i)) (at_buffer dst) len ->
  exists err m', page_slice_copy_to_buffer s off dst len m = Some (err, m') /\
    if len =? 0 then err = REND_SUCCESS /\ m' = m
    else if size s <? off + len then err = - E_IN_PARAM /\ m' = m
    else copied_until (fun i => byte_at s (off + i)) (at_buffer dst) len m err m'.
Proof.
  intros So Hf Hm Hd Hdl Ho Hl Hap. unfold page_slice_copy_to_buffer, page_slice_copy_from_mapped, page_slice_get_size. rewrite (proj2 (Z.eqb_neq dst 0)) by lia.
  destruct (Z.eqb_spec len 0); [by exists REND_SUCCESS, m|]. destruct (Z.ltb_spec (size s) (off + len)) as [Hbig|Hfit].
  - assert (Hc : (size s <? off) || (size s - off <? len) = true) by (apply orb_true_iff; rewrite !Z.ltb_lt; lia). rewrite Hc. by exists (- E_IN_PARAM), m.
  - rewrite (proj2 (Z.ltb_ge (size s) off)), (proj2 (Z.ltb_ge (size s - off) len)) by lia. cbn [orb].
    destruct (buffer_loop s dst off len (Z.to_nat (len / PAGE_SIZE + 2)) So Hf Ho ltac:(lia) ltac:(lia) Hdl Hap m 0 m (moved_0 _ _ m Hm) ltac:(lia)) as (err & n' & m' & R1 & R2 & R3).
    { intros _. change PAGE_SIZE with 4096. dlia. }
    change (u64 0) with 0 in R1. rewrite R1. cbn [mbind option_bind]. exists err, m'. split; [done|]. exists n'. destruct R3 as [[-> ->]|(-> & ? & ?)]; (split_and!; [lia|lia|exact R2|]); [by left|].
    right. split_and!; [done|lia|by left].
Qed.

(** ** To another slice *)

Lemma slice_loop_ok src dst soff doff len fuel : slice_ok src -> slice_ok dst -> pages_fit src -> pages_fit dst -> 0 <= soff -> 0 <= doff ->
  soff + len <= size src -> doff + len <= size dst -> apart (fun i => byte_at src (soff + i)) (fun i => byte_at dst (doff + i)) len ->
  forall m n m1, moved (fun i => byte_at src (soff + i)) (fun i => byte_at dst (doff + i)) n m m1 -> 0 <= n <= len ->
  (n < len -> (soff + len - 1) / PAGE_SIZE - (soff + n) / PAGE_SIZE + ((doff + len - 1) / PAGE_SIZE - (doff + n) / PAGE_SIZE) + 1 <= Z.of_nat fuel) ->
  exists err m', slice_loop dst src doff soff len fuel n m1 = Some (err, m') /\
    copied_until (fun i => byte_at src (soff + i)) (fun i => byte_at dst (doff + i)) len m err m'.
Proof.
  intros Ss Sd Fs Fd Hso Hdo Hsl Hdl Hap m. pose proof (so_size src Ss) as Hs. pose proof (so_size dst Sd) as Hs'. change PAGE_SLICE_MAX_BYTE_SIZE with 70368744177664 in *.
  induction fuel as [|fuel IH]; intros n m1 Hm Hn Hfu; cbn [slice_loop].
  { destruct (Z.leb_spec len n); [exists REND_SUCCESS, m1; split; [done|]; exists n; split_and!; [lia|lia|done|left; split; [done|lia]]|].
    specialize (Hfu ltac:(lia)). change PAGE_SIZE with 4096 in Hfu. dlia. }
  destruct (Z.leb_spec len n); [exists REND_SUCCESS, m1; split; [done|]; exists n; split_and!; [lia|lia|done|left; split; [done|lia]]|]. cbv zeta. specialize (Hfu ltac:(lia)).
  assert (Hole : forall o, byte_at src (soff + n) = None \/ byte_at dst (doff + n) = None ->
    o = Some (- E_RENDEZVOS, m1) -> exists err m', o = Some (err, m') /\ copied_until (fun i => byte_at src (soff + i)) (fun i => byte_at dst (doff + i)) len m err m').
  { intros o Hh ->. do 2 eexists. split; [done|]. exists n. split_and!; [lia|lia|done|right; split_and!; [done|lia|done]]. }
  destruct (lookup_page src (soff + n) Ss Fs ltac:(lia)) as [(a & -> & A2 & A3)|[-> A2]]; cbn [mbind option_bind].
  2: { destruct (lookup_page dst (doff + n) Sd Fd ltac:(lia)) as [(b & -> & _)|[-> _]]; (apply Hole; [by left|done]). }
  destruct (lookup_page dst (doff + n) Sd Fd ltac:(lia)) as [(b & -> & B2 & B3)|[-> B2]]; cbn [mbind option_bind]; [|apply Hole; [by right|done]].
  rewrite A2, B2. rewrite (u64_small (soff + n)), (u64_small (doff + n)) by lia. rewrite !in_page_off by lia.
  set (sr := (soff + n) mod PAGE_SIZE) in *. set (dr := (doff + n) mod PAGE_SIZE) in *.
  assert (Hsr : 0 <= sr < 4096) by (unfold sr; change PAGE_SIZE with 4096; apply Z.mod_pos_bound; lia).
  assert (Hdr : 0 <= dr < 4096) by (unfold dr; change PAGE_SIZE with 4096; apply Z.mod_pos_bound; lia).
  set (k0 := if PAGE_SIZE - dr <? PAGE_SIZE - sr then PAGE_SIZE - dr else PAGE_SIZE - sr). set (k := if len - n <? k0 then len - n else k0).
  assert (Hk : k = Z.min (len - n) (Z.min (4096 - sr) (4096 - dr))) by (unfold k, k0; change PAGE_SIZE with 4096; destruct (Z.ltb_spec (4096 - dr) (4096 - sr)); match goal with |- context [len - n <? ?y] => destruct (Z.ltb_spec (len - n) y) end; lia).
  pose proof (moved_step _ _ len n k m m1 (kernel_virtual_address (leaves dst b) + dr) (kernel_virtual_address (leaves src a) + sr) Hm Hap ltac:(lia) ltac:(lia) ltac:(lia)) as Hst.
  apply (IH (n + k) _); [|lia|].
  - apply Hst. change PAGE_SIZE with 4096 in *. intros j Hj. split; rewrite Z.add_assoc; [apply A3; lia|apply B3; lia].
  - intros Hlt. unfold sr, dr in *. change PAGE_SIZE with 4096 in *. clear - Hlt Hfu Hk Hsr Hdr Hn. dlia.
Qed.
Lemma to_slice_effect (same : bool) src soff dst doff len m : (same = true -> dst = src) -> slice_ok src -> slice_ok dst -> pages_fit src -> pages_fit dst -> byte_mem m ->
  0 <= soff < 2 ^ 63 -> 0 <= doff < 2 ^ 63 -> 0 <= len < 2 ^ 63 -> apart (fun i => byte_at src (soff + i)) (fun i => byte_at dst (doff + i)) len ->
  exists err m', page_slice_copy_to_slice same dst doff src soff len m = Some (err, m') /\
    if len =? 0 then err = REND_SUCCESS /\ m' = m
    else if same && (Z.max soff doff <? Z.min soff doff + len) || (size dst <? doff + len) || (size src <? soff + len) then err = - E_IN_PARAM /\ m' = m
    else copied_until (fun i => byte_at src (soff + i)) (fun i => byte_at dst (doff + i)) len m err m'.
Proof.
  intros Hsame Ss Sd Fs Fd Hm Hso Hdo Hl Hap. unfold page_slice_copy_to_slice, page_slice_get_size, page_slice_byte_ranges_overlap. rewrite !u64_small by lia.
  destruct (Z.eqb_spec len 0); [by exists REND_SUCCESS, m|].
  assert (Eov : same && ((soff <? doff + len) && (doff <? soff + len)) = same && (Z.max soff doff <? Z.min soff doff + len)).
  { f_equal. apply eq_true_iff_eq. rewrite andb_true_iff, !Z.ltb_lt. lia. }
  rewrite Eov. destruct (same && (Z.max soff doff <? Z.min soff doff + len)); cbn [orb]; [by exists (- E_IN_PARAM), m|].
  destruct (Z.ltb_spec (size dst) (doff + len)) as [Hb|Hb]; cbn [orb].
  { assert (Hc : (size dst <? doff) || (size dst - doff <? len) = true) by (apply orb_true_iff; rewrite !Z.ltb_lt; lia). rewrite Hc. by exists (- E_IN_PARAM), m. }
  rewrite (proj2 (Z.ltb_ge (size dst) doff)), (proj2 (Z.ltb_ge (size dst - doff) len)) by lia. cbn [orb].
  destruct (Z.ltb_spec (size src) (soff + len)) as [Hb2|Hb2].
  { assert (Hc : (size src <? soff) || (size src - soff <? len) = true) by (apply orb_true_iff; rewrite !Z.ltb_lt; lia). rewrite Hc. by exists (- E_IN_PARAM), m. }
  rewrite (proj2 (Z.ltb_ge (size src) soff)), (proj2 (Z.ltb_ge (size src - soff) len)) by lia. cbn [orb].
  apply slice_loop_ok; try done; try lia; [by apply moved_0|]. intros _. change PAGE_SIZE with 4096. dlia.
Qed.
End CopySpec.
