(* ===== verification/PageSliceClone.v ===== *)
(** * The deep copy of a page slice

    [ps_clone_walk_mapped] visits the leaf pages from left to right: after each
    round of its loop the offsets below a bound are copied ([done_to]), and the
    rounds left decrease ([rounds]).  [page_slice_clone] maps the same offsets to
    fresh pages with the same bytes, or gives everything back ([clone_effect]). *)
From S2P Require Import Prelude Mm TaggedPtr CString Allocator PageSlice PageSliceTree PageSliceLinks PageSliceWalk PageSliceGrow PageSliceInsert PageSliceRemove PageSliceDestroy PageSliceCopy PageSliceBytes.

Section Clone.
Context {A : Type} {HA : Allocator A} {HP : PageHeap A}.
Implicit Types (s dst : page_slice A).
Notation ptr e := (ps_entry_get_ptr e).
Notation ok := (ok_with even).

(** ** Pages for data *)

(** a page taken for data is nobody's *)
Lemma data_page s p h : slice_ok s -> m_alloc (heap s) PAGE_SIZE = (p, h) ->
  let s' := set_heap h s in
  slice_ok s' /\ (forall o, slice_map s' o = slice_map s o) /\ (forall k, spare s k -> spare s' k) /\
  (p = 0 \/ p <> 0 /\ p ∉ owned (heap s) /\ spare s' p).
Proof.
  intros [O Hs Hi] E s'. set (H := hof s) in *. pose proof (ok_tree _ _ _ O) as T. destruct (ph_alloc _ _ _ (tr_heap _ _ _ _ _ T) E) as [Hok Hc].
  assert (W : owned (heap s) ⊆ owned h) by (destruct Hc as [[_ ->]|(_ & _ & ->)]; [done|apply union_subseteq_r]).
  destruct (tree_mono (links s) H (leaves s) (leaves s) (heap s) h even T Hok W) as [T' M']; [done|].
  assert (O' : ok s' H) by (constructor; [apply (ok_height _ _ _ O)|apply (ok_empty _ _ _ O)|exact T']).
  assert (Eh : hof s' = H) by (by apply (hof_ok even)).
  split_and!; [constructor; [by rewrite Eh|done|exact Hi]|done| |].
  - intros k [F1 F2 F3]. constructor; [by apply W|exact F2|exact F3].
  - destruct Hc as [[-> _]|(N & Nf & Eo)]; [by left|right]. split_and!; [done|done|]. constructor.
    + change (p ∈ owned h). rewrite Eo. by apply elem_of_union_l, elem_of_singleton.
    + intros d q Hd Hp. change (ptrs s d q = Some p) in Hp. unfold ptrs in Hp. destruct (links s d q) as [e|] eqn:El; [|done]. cbn in Hp. injection Hp as Hp.
      destruct (tree_ptr _ _ _ _ _ d q e T Hd El) as [Ho _]. by rewrite Hp in Ho.
    + intros o x Hx Hp Eq. destruct (tr_data _ _ _ _ _ T o x Hx Hp) as [Ho _]. by rewrite Eq in Ho.
Qed.
Lemma free_data s p : slice_ok s -> spare s p ->
  let s' := free p s in slice_ok s' /\ (forall o, slice_map s' o = slice_map s o) /\ forall k, k <> p -> spare s k -> spare s' k.
Proof.
  intros [O Hs Hi] [F1 F2 F3] s'. set (H := hof s) in *. pose proof (ok_tree _ _ _ O) as [T1 T2 T3 T4 T5 T6 T7]. destruct (ph_free (heap s) p T1) as [Hok Eo].
  assert (Hin : forall k, k ∈ owned (heap s) -> k <> p -> k ∈ owned (heap s')) by (intros k Hk Hn; cbn [s' free set_heap heap]; rewrite Eo; set_solver).
  assert (T' : tree (links s) H (leaves s) (heap s') even).
  { constructor; [exact Hok| |exact T3|exact T4|exact T5|exact T6|].
    - intros d q e Hd He. destruct (T2 d q e Hd He) as (p' & l & E1 & E2 & E3 & E4). exists p', l. split_and!; [done| |lia|lia|done]. apply Hin; [done|]. intros ->.
      apply (F2 d q Hd). unfold ptrs. rewrite He. cbn. f_equal. rewrite E1. apply link_ptr. by apply (ph_ptr (heap s)).
    - intros o x Hx Hp. destruct (T7 o x Hx Hp) as (D1 & D2 & D3). split_and!; [|exact D2|exact D3]. apply Hin; [done|]. by apply (F3 o). }
  assert (O' : ok s' H) by (constructor; [apply (ok_height _ _ _ O)|apply (ok_empty _ _ _ O)|exact T']).
  assert (Eh : hof s' = H) by (by apply (hof_ok even)).
  split_and!; [constructor; [by rewrite Eh|done|exact Hi]|done|]. intros k Hn [G1 G2 G3]. constructor; [by apply Hin|exact G2|exact G3].
Qed.

(** ** The copy so far *)

Section Fixed.
Context (src : page_slice A) (m : mem) (Ssrc : slice_ok src) (Hm : byte_mem m).
(** every page of [src] is one of the heap's, pinned or not *)
Context (Hsrc : forall o x, slice_map src o = Some x -> kernel_virtual_address x ∈ owned (heap src)).
Notation smap := (slice_map src).
Notation h0 := (heap src).

(** the pages of before are still there with their bytes *)
Record safe (c : cst (A := A)) : Prop := {
  sf_ok : slice_ok (fst c);
  sf_size : size (fst c) = size src;
  sf_spare : forall k, k ∈ owned h0 -> spare (fst c) k;
  sf_mem : byte_mem (snd c);
  sf_bytes : forall k i, k ∈ owned h0 -> 0 <= i < 4096 -> snd c (k + i) = m (k + i)
}.
(** [y] is the copy of [x] *)
Record copy_of (m1 : mem) (x y : page_slice_entry) : Prop := {
  cp_flags : pse_flags y = Z.lor (Z.land (pse_flags x) (bnot 64 PAGE_SLICE_FLAG_PIN)) PAGE_SLICE_FLAG_VALID;
  cp_new : kernel_virtual_address y ∉ owned h0;
  cp_bytes : forall i, 0 <= i < 4096 -> m1 (kernel_virtual_address y + i) = m (kernel_virtual_address x + i)
}.
Definition copied_at (c : cst (A := A)) (o : Z) : Prop :=
  match smap o with Some x => exists y, slice_map (fst c) o = Some y /\ copy_of (snd c) x y | None => slice_map (fst c) o = None end.
(** the offsets below [b] are done *)
Record done_to (b : Z) (c : cst (A := A)) : Prop := {
  dn_safe : safe c;
  dn_below : forall o, o < b -> copied_at c o;
  dn_above : forall o, b <= o -> slice_map (fst c) o = None
}.
Lemma done_skip b b' c : done_to b c -> b <= b' -> (forall o, b <= o < b' -> smap o = None) -> done_to b' c.
Proof.
  intros [D1 D2 D3] Hb Hn. constructor; [done| |intros o Ho; apply D3; lia]. intros o Ho. destruct (Z.lt_ge_cases o b); [by apply D2|].
  unfold copied_at. rewrite Hn by lia. apply D3. lia.
Qed.
Lemma copy_not_pinned m1 x y : copy_of m1 x y -> pinned y = false.
Proof.
  intros [E _ _]. unfold pinned. rewrite E. apply negb_false_iff, Z.eqb_eq. apply Z.bits_inj'. intros n Hn. rewrite Z.land_spec, Z.lor_spec, Z.land_spec, testbit_bnot, Z.bits_0 by lia.
  change PAGE_SLICE_FLAG_PIN with (2 ^ 1). change PAGE_SLICE_FLAG_VALID with (2 ^ 0). rewrite !Z.pow2_bits_eqb by lia.
  destruct (Z.eqb_spec 1 n) as [<-|]; [|by rewrite andb_false_r]. cbn. by rewrite !andb_false_r.
Qed.

Lemma copy_entry_ok b x dst m1 : done_to b (dst, m1) -> 0 <= b < 2 ^ 34 -> smap b = (if pse_valid x then Some x else None) ->
  exists err c', ps_clone_copy_leaf_entry b x (dst, m1) = Some (err, c') /\ (err = REND_SUCCESS /\ done_to (b + 1) c' \/ err = - E_REND_NO_MEM /\ safe c').
Proof.
  intros D Hb Sb. unfold ps_clone_copy_leaf_entry. destruct (pse_valid x) eqn:Ev; cbn [negb].
  2: { exists REND_SUCCESS, (dst, m1). split; [done|]. left. split; [done|]. apply (done_skip b); [done|lia|]. intros o Ho. by replace o with b by lia. }
  pose proof D as [[D1 D2 D3 D4 D5] D6 D7]. cbn [fst snd] in *. destruct (m_alloc (heap dst) PAGE_SIZE) as [p h] eqn:Ea.
  destruct (data_page dst p h D1 Ea) as (P1 & P2 & P3 & P4). set (d1 := set_heap h dst) in *.
  destruct (Z.eqb_spec p 0) as [->|Np].
  { exists (- E_REND_NO_MEM), (d1, m1). split; [done|]. right. split; [done|]. constructor; [done|done|intros k Hk; by apply P3, D3|done|done]. }
  destruct P4 as [->|(_ & Nf & Sp)]; [done|]. pose proof (so_tree _ P1) as O1. pose proof (tr_heap _ _ _ _ _ (ok_tree _ _ _ O1)) as Hok. set (kx := kernel_virtual_address x) in *.
  assert (Hold : forall k, k ∈ owned (heap dst) -> disjoint p k 4096).
  { intros k Hk. unfold disjoint. assert (Hkh : k ∈ owned (heap d1)).
    { destruct (ph_alloc _ _ _ (tr_heap _ _ _ _ _ (ok_tree _ _ _ (so_tree _ D1))) Ea) as [_ [[? _]|(_ & _ & Eo)]]; [done|]. change (k ∈ owned h). rewrite Eo. by apply elem_of_union_r. }
    apply (ph_apart (heap d1)); [done|apply Sp|done|]. intros ->. done. }
  assert (Hkx : kx ∈ owned (heap dst)) by (apply (fo_owned _ _ _ (D3 kx (Hsrc b x Sb)))).
  pose proof (memcpy_copied m1 p kx 4096 D4 ltac:(lia) (Hold kx Hkx)) as Hcp. change 4096 with PAGE_SIZE in Hcp at 1. set (m2 := snd (memcpy m1 p kx PAGE_SIZE)) in *.
  assert (Keep : forall k i, k ∈ owned (heap dst) -> 0 <= i < 4096 -> m2 (k + i) = m1 (k + i)).
  { intros k i Hk Hi. rewrite Hcp. pose proof (Hold k Hk) as Hdj. unfold disjoint in Hdj. change PAGE_SIZE with 4096. destruct (Z.leb_spec p (k + i)), (Z.ltb_spec (k + i) (p + 4096)); cbn [andb]; (done || lia). }
  set (fl := Z.land (pse_flags x) (bnot 64 PAGE_SLICE_FLAG_PIN)).
  destruct (slice_insert_effect d1 b p fl P1 ltac:(lia) (fun _ => Sp)) as (err & d2 & -> & I1 & I2 & I3 & I4). cbn [mbind option_bind].
  assert (Hin : b < page_slice_page_count d1).
  { destruct (so_inside src Ssrc b ltac:(by eexists)) as [_ Hlt]. by rewrite <- (page_count_same src d1 D2) in Hlt. }
  rewrite (proj2 (Z.eqb_neq p 0) Np), (proj2 (Z.leb_gt _ _) Hin) in I4. cbn [orb] in I4. rewrite P2, D7 in I4 by lia.
  assert (Hm2 : byte_mem m2) by (by eapply copied_byte_mem).
  assert (Hp0 : forall k, k ∈ owned h0 -> k <> p).
  { intros k Hk ->. apply Nf. apply (fo_owned _ _ _ (D3 p Hk)). }
  assert (Hb0 : forall k i, k ∈ owned h0 -> 0 <= i < 4096 -> m2 (k + i) = m (k + i)).
  { intros k i Hk Hi. rewrite Keep by (done || apply (fo_owned _ _ _ (D3 k Hk))). by apply D5. }
  destruct I4 as [[-> I4]|(-> & _ & bb & I4)].
  - change (negb (- E_REND_NO_MEM =? REND_SUCCESS)) with true. cbv iota. exists (- E_REND_NO_MEM), (free p d2, m2). split; [done|]. right. split; [done|].
    destruct (free_data d2 p I1 (I3 p (fun _ => ltac:(discriminate)) Sp)) as (Q1 & Q2 & Q3). constructor; cbn [fst snd]; [done|exact (eq_trans I2 D2)| |done|done].
    intros k Hk. apply Q3; [by apply Hp0|]. apply I3; [by intros ->; apply Hp0 in Hk|]. by apply P3, D3.
  - change (negb (REND_SUCCESS =? REND_SUCCESS)) with false. cbv iota. exists REND_SUCCESS, (d2, m2). split; [done|]. left. split; [done|]. constructor; cbn [fst snd].
    + constructor; cbn [fst snd]; [done|exact (eq_trans I2 D2)| |done|done]. intros k Hk. apply I3; [by intros ->; apply Hp0 in Hk|]. by apply P3, D3.
    + intros o Ho. unfold copied_at. cbn [fst snd]. rewrite I4, P2. destruct (Z.eqb_spec o b) as [->|Hne].
      * rewrite Sb. eexists. split; [done|]. constructor; [done|intros Hi; apply Nf, (fo_owned _ _ _ (D3 p Hi))|]. intros i Hi. cbn [new_entry kernel_virtual_address].
        rewrite Hcp. change PAGE_SIZE with 4096. rewrite (proj2 (Z.leb_le _ _)), (proj2 (Z.ltb_lt _ _)) by lia. cbn [andb]. replace (kx + (p + i - p)) with (kx + i) by lia. apply D5; [by apply (Hsrc b)|done].
      * specialize (D6 o ltac:(lia)). unfold copied_at in D6. cbn [fst snd] in D6. destruct (smap o) as [z|]; [|done]. destruct D6 as (y & Ey & Cy). exists y. split; [done|].
        pose proof (copy_not_pinned _ _ _ Cy) as Py. destruct Cy as [C1 C2 C3]. constructor; [done|done|]. intros i Hi. rewrite Keep; [by apply C3| |done].
        by apply (tr_data _ _ _ _ _ (ok_tree _ _ _ (so_tree _ D1)) o y Ey Py).
    + intros o Ho. rewrite I4, P2. destruct (Z.eqb_spec o b); [lia|]. apply D7. lia.
Qed.

(** ** One leaf page *)

Definition stops (err : Z) (c : cst (A := A)) : Prop := err = - E_REND_NO_MEM /\ safe c.
Lemma leaf_page_ok base leaf n : forall idx c, 0 <= base -> 0 <= idx -> base + idx + Z.of_nat n <= 2 ^ 34 -> done_to (base + idx) c ->
  (forall i, idx <= i < idx + Z.of_nat n -> smap (base + i) = let x := leaves src (leaf + 32 * i) in if pse_valid x then Some x else None) ->
  exists err c', leaf_page_loop src base leaf idx n c = Some (err, c') /\ (err = REND_SUCCESS /\ done_to (base + idx + Z.of_nat n) c' \/ stops err c').
Proof.
  induction n as [|n IH]; intros idx c Hb Hi Hn D Hx; cbn [leaf_page_loop].
  - exists REND_SUCCESS, c. split; [done|]. left. split; [done|]. by rewrite Z.add_0_r.
  - destruct c as [dst m1]. rewrite u64_small by lia. destruct (copy_entry_ok (base + idx) (leaves src (leaf + 32 * idx)) dst m1 D ltac:(lia) (Hx idx ltac:(lia))) as (err & c1 & -> & R).
    cbn [mbind option_bind]. destruct R as [[-> D1]|[-> R]].
    + change (negb (REND_SUCCESS =? REND_SUCCESS)) with false. cbv iota. replace (base + idx + Z.of_nat (S n)) with (base + (idx + 1) + Z.of_nat n) by lia.
      apply IH; [done|lia|lia|by replace (base + (idx + 1)) with (base + idx + 1) by lia|]. intros i Hir. apply Hx. lia.
    + change (negb (- E_REND_NO_MEM =? REND_SUCCESS)) with true. cbv iota. do 2 eexists. split; [done|]. by right.
Qed.
Lemma leaf_view D q e i : ok src (S D) -> links src D q = Some e -> 0 <= i < 128 ->
  smap (128 * q + i) = let x := leaves src (ptr e + 32 * i) in if pse_valid x then Some x else None.
Proof.
  intros O He Hi. unfold slice_map. rewrite (hof_ok even src _ O). unfold view, mapped, leaf_at. replace ((128 * q + i) / 128) with q by dlia.
  replace ((128 * q + i) mod 128) with i by dlia. by rewrite He.
Qed.
Lemma copy_leaf_ok D q e c : ok src (S D) -> links src D q = Some e -> 0 <= q -> 128 * q + 128 <= 2 ^ 34 -> done_to (128 * q) c ->
  exists err c', ps_clone_copy_leaf_page src (128 * q) (ptr e) c = Some (err, c') /\ (err = REND_SUCCESS /\ done_to (128 * q + 128) c' \/ stops err c').
Proof.
  intros O He Hq Hb D0. unfold ps_clone_copy_leaf_page. change (Z.to_nat PAGE_SLICE_LEAF_CAPACITY) with 128%nat.
  destruct (leaf_page_ok (128 * q) (ptr e) 128 0 c ltac:(lia) ltac:(lia) ltac:(lia) ltac:(by rewrite Z.add_0_r)) as (err & c' & E & R).
  { intros i Hi. by apply (leaf_view D). }
  exists err, c'. split; [exact E|]. by rewrite Z.add_0_r in R.
Qed.
(** offsets without a leaf page *)
Lemma no_link_no_map D d q o : ok src (S D) -> (d <= D)%nat -> links src d q = None -> pref (S D) d o = q -> smap o = None.
Proof.
  intros O Hd Hn Hq. unfold slice_map. rewrite (hof_ok even src _ O). unfold view, mapped, leaf_at.
  rewrite <- (pref_leaf (S D) o) by lia. replace (S D - 1)%nat with D by lia. rewrite (links_below src (S D) d D o); [done|lia|by rewrite Hq].
Qed.

(** ** The walk over the index pages *)

Section Walk.
Context (H : nat) (Oh : ok src H) (HH : (2 <= H <= 4)%nat).

(** page offsets below a link of depth [c] *)
Definition width (c : nat) : Z := 2 ^ (7 + 9 * (Z.of_nat H - 1 - Z.of_nat c)).
Lemma width_S c : (S c < H)%nat -> width c = 512 * width (S c).
Proof. intros Hc. unfold width. change 512 with (2 ^ 9). rewrite <- Z.pow_add_r by lia. f_equal. lia. Qed.
Lemma width_pos c : (c < H)%nat -> 0 < width c.
Proof. intros Hc. unfold width. lia. Qed.
Lemma width_top : width 0 <= 2 ^ 34.
Proof. unfold width. apply Z.pow_le_mono_r; lia. Qed.
Lemma stride c : (c + 2 <= H)%nat -> PS_INDEX_SLOT_STRIDE (Z.of_nat H - Z.of_nat c) = width (S c).
Proof.
  intros Hc. unfold PS_INDEX_SLOT_STRIDE, width. change PAGE_SLICE_LEAF_CAPACITY with (2 ^ 7). change PAGE_SLICE_INDEX_SHIFT with 9. change PS_HEIGHT_INDEX1 with 2.
  rewrite Z.shiftl_mul_pow2 by lia. rewrite <- Z.pow_add_r by lia. rewrite u64_small.
  - f_equal. lia.
  - pose proof (Z.pow_le_mono_r 2 (7 + 9 * (Z.of_nat H - Z.of_nat c - 2)) 34 ltac:(lia) ltac:(lia)). change (2 ^ 34) with 17179869184 in *. lia.
Qed.

(** the prefix of the index page at depth [c] *)
Fixpoint qf (slots : list Z) (c : nat) : Z := match c with O => 0 | S c' => 512 * qf slots c' + slots !!! c' end.
Lemma qf_ext l l' c : (forall i, (i < c)%nat -> l' !!! i = l !!! i) -> qf l' c = qf l c.
Proof. intros E. induction c as [|c IH]; [done|]. cbn [qf]. rewrite IH, E by (intros; try apply E; lia). done. Qed.
Record at_walk (w : clone_walk) (b : Z) : Prop := {
  aw_cur : (cur w + 2 <= H)%nat;
  aw_len : length (wslot w) = 3%nat /\ length (windex w) = 3%nat /\ length (wbase w) = 3%nat;
  aw_slot : forall c, (c <= cur w)%nat -> 0 <= wslot w !!! c <= 512 /\ ((c < cur w)%nat -> wslot w !!! c < 512);
  aw_page : forall c, (c <= cur w)%nat -> exists e, links src c (qf (wslot w) c) = Some e /\ windex w !!! c = ptr e;
  aw_base : forall c, (c <= cur w)%nat -> wbase w !!! c = qf (wslot w) c * width c;
  aw_done : b = qf (wslot w) (cur w) * width (cur w) + wslot w !!! cur w * width (S (cur w))
}.
Lemma qf_bound l n : (forall c, (c < n)%nat -> 0 <= l !!! c < 512) -> (n < H)%nat -> 0 <= qf l n /\ (qf l n + 1) * width n <= width 0.
Proof.
  induction n as [|n IH]; intros Hl Hn; [cbn [qf]; lia|]. destruct IH as [I1 I2]; [intros c Hc; apply Hl; lia|lia|]. pose proof (Hl n ltac:(lia)). cbn [qf].
  rewrite (width_S n) in I2 by lia. pose proof (width_pos (S n) ltac:(lia)). split; [lia|nia].
Qed.
Lemma at_walk_bound w b : at_walk w b -> 0 <= qf (wslot w) (cur w) /\ (qf (wslot w) (cur w) + 1) * width (cur w) <= width 0.
Proof. intros [W1 W2 W3 _ _ _]. apply qf_bound; [|lia]. intros c Hc. destruct (W3 c ltac:(lia)) as [? Hlt]. specialize (Hlt Hc). lia. Qed.

(** *** Rounds left *)

Fixpoint total (k : nat) : Z := match k with O => 513 | S k' => 512 * (total k' + 1) + 1 end.
Definition weight (c : nat) : Z := match (H - 2 - c)%nat with O => 1 | S k => total k + 1 end.
Lemma weight_S c : (S c + 2 <= H)%nat -> weight c = 512 * weight (S c) + 2.
Proof.
  intros Hc. unfold weight. replace (H - 2 - c)%nat with (S (H - 2 - S c)) by lia. destruct (H - 2 - S c)%nat as [|k]; cbn [total]; lia.
Qed.
Lemma total_pos k : 0 < total k.
Proof. induction k; cbn [total]; lia. Qed.
Lemma weight_pos c : 0 < weight c.
Proof. unfold weight. destruct (H - 2 - c)%nat as [|k]; [lia|]. pose proof (total_pos k). lia. Qed.
Fixpoint above (l : list Z) (n : nat) : Z := match n with O => 0 | S n' => above l n' + (511 - l !!! n') * weight n' + 1 end.
Lemma above_ext l l' n : (forall i, (i < n)%nat -> l' !!! i = l !!! i) -> above l' n = above l n.
Proof. intros E. induction n as [|n IH]; [done|]. cbn [above]. rewrite IH, E by (intros; try apply E; lia). done. Qed.
Definition rounds (w : clone_walk) : Z := above (wslot w) (cur w) + (512 - wslot w !!! cur w) * weight (cur w) + 1.
Lemma rounds_pos w b : at_walk w b -> 0 < rounds w.
Proof.
  intros [W1 _ W3 _ _ _]. unfold rounds. assert (Ha : forall n, (n <= cur w)%nat -> 0 <= above (wslot w) n).
  { intros n. induction n as [|n IH]; intros Hn; [done|]. cbn [above]. destruct (W3 n ltac:(lia)) as [? Hlt]. specialize (Hlt ltac:(lia)). pose proof (weight_pos n). specialize (IH ltac:(lia)). nia. }
  specialize (Ha (cur w) ltac:(lia)). destruct (W3 (cur w) ltac:(lia)) as [? _]. pose proof (weight_pos (cur w)). nia.
Qed.

(** *** The moves *)

Lemma bump_ok w b : at_walk w b -> wslot w !!! cur w < 512 -> at_walk (bump_slot w) (b + width (S (cur w))) /\ rounds (bump_slot w) < rounds w.
Proof.
  intros W Hlt. pose proof W as [W1 (L1 & L2 & L3) W3 W4 W5 W6]. set (l := alter (fun x => x + 1) (cur w) (wslot w)).
  assert (E1 : l !!! cur w = wslot w !!! cur w + 1) by (unfold l; rewrite list_lookup_total_alter_eq; [done|lia]).
  assert (E2 : forall i, i <> cur w -> l !!! i = wslot w !!! i) by (intros i Hi; unfold l; by rewrite list_lookup_total_alter_ne by lia).
  assert (E3 : forall c, (c <= cur w)%nat -> qf l c = qf (wslot w) c) by (intros c Hc; apply qf_ext; intros i Hi; apply E2; lia).
  split.
  - constructor; cbn [cur wslot windex wbase bump_slot]; fold l; [done|unfold l; rewrite length_alter; done| | | |].
    + intros c Hc. destruct (Nat.eq_dec c (cur w)) as [->|Hn]; [rewrite E1; specialize (W3 (cur w) ltac:(lia)); lia|rewrite E2 by done; by apply W3].
    + intros c Hc. rewrite E3 by done. by apply W4.
    + intros c Hc. rewrite E3 by done. by apply W5.
    + rewrite E3, E1 by lia. lia.
  - unfold rounds. cbn [cur wslot bump_slot]. fold l. rewrite E1. rewrite (above_ext (wslot w) l) by (intros i Hi; apply E2; lia). pose proof (weight_pos (cur w)). lia.
Qed.
Lemma up_ok w b c : at_walk w b -> cur w = S c -> wslot w !!! cur w = 512 -> at_walk (go_up w) b /\ rounds (go_up w) < rounds w.
Proof.
  intros W Hcur Hs. pose proof W as [W1 (L1 & L2 & L3) W3 W4 W5 W6]. unfold go_up, bump_slot. cbn [cur wslot windex wbase]. rewrite Hcur in *. cbn [pred].
  set (l0 := <[S c := 0]> (wslot w)). set (l := alter (fun x => x + 1) c l0).
  assert (E1 : l !!! c = wslot w !!! c + 1).
  { unfold l. rewrite list_lookup_total_alter_eq by (unfold l0; rewrite length_insert; lia). unfold l0. by rewrite list_lookup_total_insert_ne by lia. }
  assert (E2 : forall i, (i < c)%nat -> l !!! i = wslot w !!! i).
  { intros i Hi. unfold l. rewrite list_lookup_total_alter_ne by lia. unfold l0. by rewrite list_lookup_total_insert_ne by lia. }
  assert (E3 : forall k, (k <= c)%nat -> qf l k = qf (wslot w) k) by (intros k Hk; apply qf_ext; intros i Hi; apply E2; lia).
  destruct (W3 c ltac:(lia)) as [R1 R2]. specialize (R2 ltac:(lia)). split.
  - constructor; cbn [cur wslot windex wbase]; [lia|unfold l, l0; rewrite length_alter, length_insert; done| | | |].
    + intros k Hk. destruct (Nat.eq_dec k c) as [->|Hn]; [rewrite E1; lia|rewrite E2 by lia]. destruct (W3 k ltac:(lia)) as [? Hlt]. split; [done|]. intros _. apply Hlt. lia.
    + intros k Hk. rewrite E3 by done. apply W4. lia.
    + intros k Hk. rewrite E3 by done. apply W5. lia.
    + rewrite E3, E1, W6, Hs by lia. cbn [qf]. rewrite (width_S c), (width_S (S c)) by lia. lia.
  - unfold rounds. cbn [cur wslot]. rewrite Hcur, Hs, E1. rewrite (above_ext (wslot w) l) by done. cbn [above]. lia.
Qed.
Lemma down_ok w b e : at_walk w b -> (cur w + 3 <= H)%nat -> wslot w !!! cur w < 512 -> links src (S (cur w)) (512 * qf (wslot w) (cur w) + wslot w !!! cur w) = Some e ->
  at_walk (go_down (Z.of_nat H) (ptr e) w) b /\ rounds (go_down (Z.of_nat H) (ptr e) w) < rounds w.
Proof.
  intros W Hd Hlt He. pose proof W as [W1 (L1 & L2 & L3) W3 W4 W5 W6]. destruct (at_walk_bound w b W) as [B1 B2]. pose proof width_top. unfold go_down. set (c := cur w) in *.
  rewrite (W5 c), stride by lia. pose proof (width_pos (S c) ltac:(lia)). destruct (W3 c ltac:(lia)) as [R1 _]. pose proof (width_S c ltac:(lia)) as Ws.
  assert (Eu : u64 (qf (wslot w) c * width c + wslot w !!! c * width (S c)) = (512 * qf (wslot w) c + wslot w !!! c) * width (S c)).
  { rewrite u64_small; [rewrite Ws; lia|]. rewrite Ws in *. nia. }
  rewrite Eu. set (l := <[S c := 0]> (wslot w)).
  assert (E1 : l !!! S c = 0) by (unfold l; rewrite list_lookup_total_insert_eq; [done|lia]).
  assert (E2 : forall i, (i <= c)%nat -> l !!! i = wslot w !!! i) by (intros i Hi; unfold l; by rewrite list_lookup_total_insert_ne by lia).
  assert (E3 : forall k, (k <= S c)%nat -> qf l k = qf (wslot w) k) by (intros k Hk; apply qf_ext; intros i Hi; apply E2; lia).
  split.
  - constructor; cbn [cur wslot windex wbase]; [lia|rewrite ?length_insert; unfold l; rewrite length_insert; done| | | |].
    + intros k Hk. destruct (Nat.eq_dec k (S c)) as [->|Hn]; [rewrite E1; lia|rewrite E2 by lia]. destruct (W3 k ltac:(lia)) as [? Hl2]. split; [done|]. intros _.
      destruct (Nat.eq_dec k c) as [->|]; [done|]. apply Hl2. lia.
    + intros k Hk. rewrite E3 by done. destruct (Nat.eq_dec k (S c)) as [->|Hn].
      * exists e. split; [exact He|]. rewrite list_lookup_total_insert_eq by lia. done.
      * rewrite list_lookup_total_insert_ne by lia. apply W4. lia.
    + intros k Hk. rewrite E3 by done. destruct (Nat.eq_dec k (S c)) as [->|Hn].
      * rewrite list_lookup_total_insert_eq by lia. done.
      * rewrite list_lookup_total_insert_ne by lia. apply W5. lia.
    + rewrite E3, E1, W6 by lia. cbn [qf]. rewrite Ws. lia.
  - unfold rounds. cbn [cur wslot]. fold c. rewrite E1. rewrite (above_ext (wslot w) l) by (intros i Hi; apply E2; lia). cbn [above]. rewrite (weight_S c) by lia. lia.
Qed.

(** *** The loop *)

Definition ends (err : Z) (c : cst (A := A)) : Prop := err = REND_SUCCESS /\ done_to (width 0) c \/ stops err c.
Lemma hole_done b k c q o : at_walk o b -> k = S (cur o) -> q = 512 * qf (wslot o) (cur o) + wslot o !!! cur o -> links src k q = None -> done_to b c -> done_to (b + width k) c.
Proof.
  intros W -> -> Hn D. pose proof W as [W1 _ _ _ _ W6]. pose proof (width_pos (S (cur o)) ltac:(lia)) as Hw. apply (done_skip b); [done|lia|]. intros x Hx.
  assert (EH : H = S (H - 1)) by lia. rewrite EH in Oh. apply (no_link_no_map (H - 1) (S (cur o)) (512 * qf (wslot o) (cur o) + wslot o !!! cur o) x Oh); [lia|done|].
  unfold pref. rewrite <- EH. fold (width (S (cur o))). rewrite (width_S (cur o)) in W6 by lia. symmetry. apply (Z.div_unique_pos _ _ _ (x - b)); lia.
Qed.
Lemma clone_step_ok w b c : at_walk w b -> done_to b c ->
  exists r, clone_step src (Z.of_nat H) (w, c) = Some r /\
    match r with inl (w', c') => exists b', at_walk w' b' /\ done_to b' c' /\ rounds w' < rounds w | inr (err, c') => ends err c' end.
Proof.
  intros W D. pose proof W as [W1 _ W3 W4 W5 W6]. destruct (at_walk_bound w b W) as [B1 B2]. pose proof width_top as Hwt. unfold clone_step. set (k := cur w) in *.
  destruct (W3 k ltac:(lia)) as [R1 _]. change PAGE_SLICE_INDEX_CAPACITY with 512. destruct (Z.leb_spec 512 (wslot w !!! k)) as [Hfull|Hlt].
  { assert (Hs : wslot w !!! k = 512) by lia. destruct (Nat.eqb_spec k 0) as [Ek|Ek].
    - eexists. split; [done|]. left. split; [done|]. replace (width 0) with b; [done|]. rewrite W6, Ek. rewrite Ek in Hs. cbn [qf]. rewrite Hs, (width_S 0) by lia. lia.
    - eexists. split; [done|]. cbv beta iota. destruct k as [|k'] eqn:E; [done|]. assert (Ec : cur w = S k') by exact E. destruct (up_ok w b k' W Ec) as [U1 U2]; [by rewrite Ec|]. by exists b. }
  destruct (W4 k ltac:(lia)) as (pe & Hpe & ->). set (q := 512 * qf (wslot w) k + wslot w !!! k).
  assert (Hq1 : q / 512 = qf (wslot w) k) by (unfold q; dlia). assert (Hq2 : q mod 512 = wslot w !!! k) by (unfold q; dlia).
  assert (L : links src (S k) q = let e := words src (slot (ptr pe) (wslot w !!! k)) in if e =? 0 then None else Some e).
  { rewrite links_S, Hq1, Hq2, Hpe. done. }
  destruct (bump_ok w b W ltac:(fold k; lia)) as [N1 N2]. fold k in N1. set (e := words src (slot (ptr pe) (wslot w !!! k))) in *. cbv zeta in L. cbv zeta.
  unfold page_slice_index_entry_empty, ps_entry_is_none, tp_is_none. destruct (Z.eqb_spec e 0) as [E0|E0]; cbn [negb orb andb].
  { pose proof (hole_done b (S k) c q w W eq_refl eq_refl L D) as D'. destruct (Z.of_nat k <? Z.of_nat H - 2).
    - eexists. split; [done|]. by exists (b + width (S k)).
    - change (0 =? 0) with true. cbv iota. cbn [mbind option_bind]. change (negb (REND_SUCCESS =? REND_SUCCESS)) with false. cbv iota. eexists. split; [done|]. by exists (b + width (S k)). }
  destruct (Z.ltb_spec (Z.of_nat k) (Z.of_nat H - 2)) as [Hin|Hbot].
  - destruct (index_link even src H (S k) q e Oh ltac:(lia) L) as ([[=]|Ei] & Np & _).
    unfold ps_entry_as_index_page, page_slice_index_entry_empty, ps_entry_is_none, tp_is_none in Ei. rewrite (proj2 (Z.eqb_neq e 0) E0) in Ei. cbn [orb] in Ei.
    destruct (page_slice_index_entry_points_to_index e); cbn [negb] in Ei |- *; [|congruence]. rewrite (proj2 (Z.eqb_neq _ 0) Np). eexists. split; [done|]. cbv beta iota.
    destruct (down_ok w b e W ltac:(fold k; lia) ltac:(done) L) as [U1 U2]. by exists b.
  - assert (Hk : H = S (S k)) by lia. pose proof Oh as Oh'. rewrite Hk in Oh'. destruct (leaf_link even src k q e Oh' L) as (El & Np & _).
    unfold ps_entry_as_leaf_page, page_slice_index_entry_empty, ps_entry_is_none, tp_is_none in El. rewrite (proj2 (Z.eqb_neq e 0) E0) in El. cbn [orb] in El.
    destruct (page_slice_index_entry_points_to_leaf e); cbn [negb] in El |- *; [|congruence]. rewrite (proj2 (Z.eqb_neq _ 0) Np). rewrite (W5 k) by lia.
    assert (Hst : PS_INDEX_SLOT_STRIDE PS_HEIGHT_INDEX1 = 128) by (by vm_compute). assert (Hw1 : width (S k) = 128) by (unfold width; rewrite Hk; by replace (7 + 9 * (Z.of_nat (S (S k)) - 1 - Z.of_nat (S k))) with 7 by lia).
    pose proof (width_S k ltac:(lia)) as Hw0. rewrite Hw1 in Hw0. assert (Eb : qf (wslot w) k * width k + wslot w !!! k * 128 = 128 * q) by (unfold q; rewrite Hw0; lia).
    assert (Hqb : 0 <= q /\ 128 * q + 128 <= 2 ^ 34) by (split; [unfold q; lia|unfold q; rewrite Hw0 in B2; lia]).
    rewrite Hst, Eb, u64_small by (change (2 ^ 34) with 17179869184 in *; lia). rewrite Hw1 in W6. assert (Ebq : b = 128 * q) by (rewrite W6; exact Eb). rewrite Ebq in D.
    destruct (copy_leaf_ok (S k) q e c Oh' L ltac:(lia) ltac:(lia) D) as (err & c1 & -> & Rc). cbn [mbind option_bind]. destruct Rc as [[-> D1]|[-> Sf]].
    + change (negb (REND_SUCCESS =? REND_SUCCESS)) with false. cbv iota. eexists. split; [done|]. exists (b + width (S k)). split_and!; [done|by rewrite Hw1, Ebq|done].
    + change (negb (- E_REND_NO_MEM =? REND_SUCCESS)) with true. cbv iota. eexists. split; [done|]. by right.
Qed.
Lemma rounds_left n (r : Z * cst) : clone_rounds src (Z.of_nat H) n (inr r) = Some (inr r).
Proof. by destruct n. Qed.
Lemma clone_rounds_ok n : forall w b c, at_walk w b -> done_to b c ->
  exists r, clone_rounds src (Z.of_nat H) n (inl (w, c)) = Some r /\
    match r with inl (w', c') => exists b', at_walk w' b' /\ done_to b' c' /\ rounds w' <= rounds w - 2 ^ Z.of_nat n | inr (err, c') => ends err c' end.
Proof.
  induction n as [|n IH]; intros w b c W D; cbn [clone_rounds].
  - destruct (clone_step_ok w b c W D) as (r & -> & R). exists r. split; [done|]. destruct r as [[w' c']|[err c']]; [|done]. destruct R as (b' & ? & ? & ?). exists b'. change (2 ^ Z.of_nat 0) with 1. split_and!; (done || lia).
  - destruct (IH w b c W D) as (r & -> & R). cbn [mbind option_bind]. destruct r as [[w1 c1]|[err c1]].
    + destruct R as (b1 & W1 & D1 & L1). destruct (IH w1 b1 c1 W1 D1) as (r & -> & R). exists r. split; [done|]. destruct r as [[w2 c2]|[err c2]]; [|done].
      destruct R as (b2 & W2 & D2 & L2). exists b2. split_and!; [done|done|]. rewrite Nat2Z.inj_succ, Z.pow_succ_r by lia. lia.
    + rewrite rounds_left. by exists (inr (err, c1)).
Qed.
Lemma all_rounds c : done_to 0 c -> exists err c', clone_rounds src (Z.of_nat H) 29 (inl (mk_walk 0 [0; 0; 0] [ptr (root src); 0; 0] [0; 0; 0], c)) = Some (inr (err, c')) /\ ends err c'.
Proof.
  intros D. set (w := mk_walk 0 _ _ _). assert (Hr : root src <> 0) by (intros Hz; apply (ok_empty _ _ _ Oh) in Hz; lia).
  assert (W : at_walk w 0).
  { constructor; cbn [w cur wslot windex wbase]; [lia|done| | | |].
    - intros x Hx. replace x with 0%nat by lia. cbn. split; lia.
    - intros x Hx. replace x with 0%nat by lia. exists (root src). by rewrite links_root.
    - intros x Hx. replace x with 0%nat by lia. done.
    - cbn [qf]. change ([0; 0; 0] !!! 0%nat) with 0. lia. }
  destruct (clone_rounds_ok 29 w 0 c W D) as (r & -> & R). destruct r as [[w' c']|[err c']]; [|by exists err, c'].
  destruct R as (b' & W' & _ & Hle). pose proof (rounds_pos w' b' W'). exfalso. assert (Hc : rounds w <= 134743041); [|change (2 ^ Z.of_nat 29) with 536870912 in Hle; lia].
  unfold rounds, w. cbn [cur wslot above]. change ([0; 0; 0] !!! 0%nat) with 0. unfold weight.
  assert (H3 : (H - 2 - 0 = 0 \/ H - 2 - 0 = 1 \/ H - 2 - 0 = 2)%nat) by lia. destruct H3 as [-> | [-> | ->]]; cbn [total]; lia.
Qed.
End Walk.

(** ** The whole slice *)

Lemma no_map_beyond D o : ok src (S D) -> 2 ^ (7 + 9 * Z.of_nat D) <= o -> smap o = None.
Proof.
  intros O Ho. apply (no_link_no_map D 0 (pref (S D) 0 o) o O); [lia| |done]. unfold links, lk. unfold pref. replace (7 + 9 * (Z.of_nat (S D) - 1 - Z.of_nat 0)) with (7 + 9 * Z.of_nat D) by lia.
  assert (0 < o / 2 ^ (7 + 9 * Z.of_nat D)) by (apply Z.div_str_pos; lia). rewrite (proj2 (Z.eqb_neq _ 0)) by lia. done.
Qed.
Lemma walk_mapped_ok c : done_to 0 c ->
  exists err c', ps_clone_walk_mapped src c = Some (err, c') /\ (err = REND_SUCCESS /\ safe c' /\ (forall o, copied_at c' o) \/ stops err c').
Proof.
  intros D. pose proof (so_tree src Ssrc) as O. unfold ps_clone_walk_mapped. set (H := hof src) in *. rewrite (ok_root_empty even src H O), (ok_is_leaf even src H O), (ok_is_index even src H O), (ok_stored even src H O).
  assert (All : forall b c', done_to b c' -> (forall o, b <= o -> smap o = None) -> safe c' /\ forall o, copied_at c' o).
  { intros b c' [D1 D2 D3] Hn. split; [done|]. intros o. destruct (Z.lt_ge_cases o b); [by apply D2|]. unfold copied_at. rewrite Hn by done. by apply D3. }
  destruct (Nat.eqb_spec H 0) as [E0|N0].
  - exists REND_SUCCESS, c. split; [done|]. left. split; [done|]. apply (All 0 c D). intros o _. unfold slice_map. fold H. by rewrite E0.
  - assert (Hr : root src <> 0) by (intros Hz; apply (ok_empty _ _ _ O) in Hz; lia). pose proof (links_root src Hr) as L0. pose proof (ok_height _ _ _ O) as Hh.
    destruct (Nat.eqb_spec H 1) as [E1|N1].
    + rewrite E1 in O. destruct (root_leaf src O) as (-> & Np & _). rewrite (proj2 (Z.eqb_neq _ 0) Np).
      destruct (copy_leaf_ok 0 0 _ c O L0 ltac:(lia) ltac:(lia) D) as (err & c' & E & R). change (128 * 0) with 0 in E, R. rewrite E. exists err, c'. split; [done|].
      destruct R as [[-> R]|R]; [left|by right]. split; [done|]. apply (All _ _ R). intros o Ho. by apply (no_map_beyond 0).
    + rewrite (proj2 (Nat.leb_le 2 H)) by lia. change PS_HEIGHT_INDEX1 with 2. rewrite (proj2 (Z.ltb_ge _ _)) by lia. cbn [negb orb].
      destruct (root_index src H O ltac:(lia)) as (-> & Np & _). rewrite (proj2 (Z.eqb_neq _ 0) Np).
      destruct (all_rounds H O ltac:(lia) c D) as (err & c' & -> & R). cbn [mbind option_bind]. exists err, c'. split; [done|]. destruct R as [[-> R]|R]; [left|by right].
      split; [done|]. apply (All _ _ R). intros o Ho. destruct H as [|D']; [done|]. apply (no_map_beyond D' o O). unfold width in Ho. by replace (7 + 9 * (Z.of_nat (S D') - 1 - Z.of_nat 0)) with (7 + 9 * Z.of_nat D') in Ho by lia.
Qed.

(** the new slice before the walk *)
Lemma fresh_slice_done h1 : heap_ok h1 -> owned h1 = owned h0 ->
  let s0 := set_mapped 0 (set_size (size src) (set_root tp_new_none (set_heap h1 (set_heap h0 src)))) in done_to 0 (s0, m).
Proof.
  intros Hh1 Ho s0. destruct (no_tree_ok s0 Hh1 eq_refl) as [O0 V0]. pose proof (so_size src Ssrc) as Hs.
  destruct (slice_ok_of s0 0 O0 Hs) as [S0 M0]; [intros o; rewrite V0; by intros [? ?]|]. assert (Hn : forall o, slice_map s0 o = None) by (intros o; by rewrite M0, V0).
  constructor; cbn [fst snd]; [|intros o Ho0|done].
  - constructor; cbn [fst snd]; [done|done| |done|done]. intros k Hk. unfold spare. rewrite (hof_ok even s0 0 O0). constructor; [cbn; by rewrite Ho|intros d q Hd; lia|done].
  - unfold copied_at. cbn [fst]. rewrite Hn. destruct (smap o) eqn:E; [|done]. destruct (so_inside src Ssrc o ltac:(by eexists)). lia.
Qed.
Definition clone_result (r : Z * Z * cst) : Prop :=
  let '(err, d, (s', m')) := r in
  owned h0 ⊆ owned (heap s') /\ (forall k i, k ∈ owned h0 -> 0 <= i < 4096 -> m' (k + i) = m (k + i)) /\
  if size src =? 0 then err = - E_IN_PARAM /\ d = 0
  else
    err = - E_REND_NO_MEM /\ d = 0 \/
    err = REND_SUCCESS /\ d <> 0 /\ slice_ok s' /\ size s' = size src /\ forall o, copied_at (s', m') o.
Lemma clone_effect : exists r, page_slice_clone src h0 m = Some r /\ clone_result r.
Proof.
  unfold page_slice_clone, page_slice_get_size. destruct (Z.eqb_spec (size src) 0) as [Ez|Ez].
  { eexists. split; [reflexivity|]. unfold clone_result. rewrite Ez. by split_and!. }
  pose proof (so_size src Ssrc) as Hs. unfold page_slice_create, ps_byte_size_valid. rewrite (proj2 (Z.eqb_neq _ 0) Ez), (proj2 (Z.ltb_ge _ _)) by lia.
  change (negb (negb (REND_SUCCESS =? REND_SUCCESS))) with true. change (negb (REND_SUCCESS =? REND_SUCCESS)) with false. cbv iota.
  change (heap (set_heap h0 src)) with h0. destruct (m_alloc h0 (u64 (sizeof_page_slice + 0))) as [d h1] eqn:Ea.
  destruct (ph_other h0 (u64 (sizeof_page_slice + 0)) d h1 (tr_heap _ _ _ _ _ (ok_tree _ _ _ (so_tree src Ssrc))) ltac:(by vm_compute) Ea) as (Hh1 & Ho & Hd).
  unfold clone_result. rewrite (proj2 (Z.eqb_neq _ 0) Ez). destruct (Z.eqb_spec d 0) as [->|Nd].
  { change (0 =? 0) with true. cbv iota. eexists. split; [reflexivity|]. cbn. rewrite Ho. split_and!; [done|done|by left]. }
  rewrite (proj2 (Z.eqb_neq d 0) Nd). destruct (walk_mapped_ok _ (fresh_slice_done h1 Hh1 Ho)) as (err & [s' m'] & -> & R). cbn [mbind option_bind].
  destruct R as [(-> & [F1 F2 F3 F4 F5] & R)|[-> [F1 F2 F3 F4 F5]]]; cbn [fst snd] in *.
  - change (negb (REND_SUCCESS =? REND_SUCCESS)) with false. cbv iota. eexists. split; [reflexivity|]. cbv beta iota. split_and!; [|done|right; by split_and!].
    intros k Hk. apply (fo_owned _ _ _ (F3 k Hk)).
  - change (negb (- E_REND_NO_MEM =? REND_SUCCESS)) with true. cbv iota. destruct (destroy_effect d s' F1) as (s2 & -> & B & _). cbn [mbind option_bind].
    eexists. split; [reflexivity|]. cbv beta iota. split_and!; [|done|by left]. intros k Hk. apply (ab_spare _ _ _ B); [by intros ->|by apply F3].
Qed.
End Fixed.
End Clone.
