(* ===== verification/PageSliceCopySpec.v ===== *)
(** * Copies of page slices

    What [page_slice_copy.c] promises: ranges copied to a buffer, between slices
    and the deep copy, with an instance of each. *)
From S2P Require Import Prelude Mm TaggedPtr CString Allocator PageSlice PageSliceTree PageSliceLinks PageSliceInsert PageSliceCopy PageSliceBytes PageSliceClone PageSliceSpec.

Section Spec.
Context {A : Type} {HA : Allocator A} {HP : PageHeap A}.
Implicit Types (s : page_slice A).

(** C15 [page_slice_clone] always ends.  On success the new slice maps exactly the
    offsets of [src], each to a fresh page with the same bytes and the flags
    without the pin; on failure it reports why.  Either way the pages of before
    are still in use and keep their bytes. *)
Theorem slice_clone_spec src (m : mem) : slice_ok src -> byte_mem m ->
  (forall o x, slice_map src o = Some x -> kernel_virtual_address x ∈ owned (heap src)) ->
  exists r, page_slice_clone src (heap src) m = Some r /\ clone_result src m r.
Proof. intros S Hm Hs. by apply clone_effect. Qed.

(** [page_slice_copy_to_buffer] always ends.  A range past the end is refused
    and nothing changes; otherwise the bytes of the range before the first
    unmapped page arrive in the buffer, nothing else changes, and the copy
    succeeds exactly when there is no such page. *)
Theorem slice_to_buffer_spec s off dst len m : slice_ok s -> pages_fit s -> byte_mem m -> 0 < dst -> dst + len <= 2 ^ 64 -> 0 <= off -> 0 <= len ->
  apart (fun i => byte_at s (off + i)) (at_buffer dst) len ->
  exists err m', page_slice_copy_to_buffer s off dst len m = Some (err, m') /\
    if len =? 0 then err = REND_SUCCESS /\ m' = m
    else if size s <? off + len then err = - E_IN_PARAM /\ m' = m
    else copied_until (fun i => byte_at s (off + i)) (at_buffer dst) len m err m'.
Proof. apply to_buffer_effect. Qed.

(** [page_slice_copy_to_slice] always ends, whatever the offsets within the
    pages: overlapping ranges of one slice and ranges past an end are refused,
    otherwise the bytes before the first hole on either side are copied and
    nothing else changes. *)
Theorem slice_to_slice_spec (same : bool) src soff dst doff len m : (same = true -> dst = src) -> slice_ok src -> slice_ok dst -> pages_fit src -> pages_fit dst -> byte_mem m ->
  0 <= soff < 2 ^ 63 -> 0 <= doff < 2 ^ 63 -> 0 <= len < 2 ^ 63 -> apart (fun i => byte_at src (soff + i)) (fun i => byte_at dst (doff + i)) len ->
  exists err m', page_slice_copy_to_slice same dst doff src soff len m = Some (err, m') /\
    if len =? 0 then err = REND_SUCCESS /\ m' = m
    else if same && (Z.max soff doff <? Z.min soff doff + len) || (size dst <? doff + len) || (size src <? soff + len) then err = - E_IN_PARAM /\ m' = m
    else copied_until (fun i => byte_at src (soff + i)) (fun i => byte_at dst (doff + i)) len m err m'.
Proof. apply to_slice_effect. Qed.
End Spec.

(** ** Instances: the slice with one page *)

Definition mem1 : mem := fun a => a mod 256.
Lemma mem1_bytes : byte_mem mem1.
Proof. intros a. unfold mem1. apply Z.mod_pos_bound. lia. Qed.
Lemma slice1_map : exists b, forall o, slice_map slice1 o = if o =? 200 then Some (new_entry 4096 0 b) else None.
Proof.
  destruct (slice_insert_effect slice0 200 4096 0 slice0_ok ltac:(lia) (fun _ => slice0_spare)) as (err & s' & E & _ & _ & _ & R). rewrite slice1_success in E. injection E as <- <-.
  change (page_slice_page_count slice0) with 300 in R. change ((4096 =? 0) || (300 <=? 200)) with false in R. cbv iota in R.
  destruct R as [[[=] _]|R]. change (slice_map slice0 200) with (@None page_slice_entry) in R. destruct R as (_ & _ & b & R). exists b. intros o. by rewrite R.
Qed.
Lemma slice1_fit : pages_fit slice1.
Proof. destruct slice1_map as [b M]. intros o x. rewrite M. destruct (o =? 200); [|done]. intros [= <-]. cbn. change PAGE_SIZE with 4096. lia. Qed.
Lemma slice1_owned o x : slice_map slice1 o = Some x -> kernel_virtual_address x ∈ owned (heap slice1).
Proof.
  intros Hx. apply (tr_data _ _ _ _ _ (ok_tree _ _ _ (so_tree slice1 slice1_ok)) o x Hx). destruct slice1_map as [b M]. rewrite M in Hx. destruct (o =? 200); [|done]. by injection Hx as <-.
Qed.
Lemma slice1_byte o : 819200 <= o < 823296 -> byte_at slice1 o = Some (o - 815104).
Proof.
  intros Ho. destruct slice1_map as [b M]. unfold byte_at. change PAGE_SIZE with 4096. replace (o / 4096) with 200 by dlia. rewrite M. change (200 =? 200) with true. cbv iota.
  change (Some (4096 + o mod 4096) = Some (o - 815104)). f_equal. dlia.
Qed.

Lemma slice_clone_witness : slice_ok slice1 /\ exists r, page_slice_clone slice1 (heap slice1) mem1 = Some r /\ clone_result slice1 mem1 r.
Proof. split; [exact slice1_ok|]. exact (slice_clone_spec slice1 mem1 slice1_ok mem1_bytes slice1_owned). Defined.
Lemma slice_to_buffer_apart : apart (fun i => byte_at slice1 (819205 + i)) (at_buffer 100000) 10.
Proof. intros i j c Hi Hj [= <-]. rewrite slice1_byte by lia. split; [intros [=]; lia|intros [=]; lia]. Qed.
Lemma slice_to_buffer_witness : exists err m', page_slice_copy_to_buffer slice1 819205 100000 10 mem1 = Some (err, m') /\
  copied_until (fun i => byte_at slice1 (819205 + i)) (at_buffer 100000) 10 mem1 err m'.
Proof.
  destruct (slice_to_buffer_spec slice1 819205 100000 10 mem1 slice1_ok slice1_fit mem1_bytes ltac:(lia) ltac:(lia) ltac:(lia) ltac:(lia) slice_to_buffer_apart) as (err & m' & E & R).
  exists err, m'. split; [exact E|]. destruct slice1_inserted as (e & I & _). assert (Es : size slice1 = 1228800) by (destruct (slice_insert_effect slice0 200 4096 0 slice0_ok ltac:(lia) (fun _ => slice0_spare)) as (e' & s' & E' & _ & Z & _); rewrite slice1_success in E'; injection E' as _ <-; exact Z).
  rewrite Es in R. exact R.
Defined.
Lemma slice_to_slice_apart : apart (fun i => byte_at slice1 (819200 + i)) (fun i => byte_at slice1 (821200 + i)) 100.
Proof. intros i j c Hi Hj. rewrite !slice1_byte by lia. intros [= <-]. split; [intros [=]; lia|intros [=]; lia]. Qed.
Lemma slice_to_slice_witness : exists err m', page_slice_copy_to_slice true slice1 821200 slice1 819200 100 mem1 = Some (err, m').
Proof.
  destruct (slice_to_slice_spec true slice1 819200 slice1 821200 100 mem1 (fun _ => eq_refl) slice1_ok slice1_ok slice1_fit slice1_fit mem1_bytes ltac:(lia) ltac:(lia) ltac:(lia) slice_to_slice_apart) as (err & m' & E & _).
  exists err, m'. exact E.
Defined.
