(* ===== verification/Timer.v ===== *)
(** * Time and timer events

    [kernel/time/time.c] and [include/rendezvos/time.h]: the timer queue of one
    CPU, a red-black tree of the earliest event per deadline, with the events of
    the same deadline on a ring around it; the timer interrupt; and the unit
    conversions.  An event is addressed by its first field [node]; [event_tree]
    holds the nodes, [same_expired] the rings, both under the address of the
    event.  Ports and messages are reached through [TimerPorts], and [clock k]
    is what the [k]-th read of the hardware counter returns.  A result [None] is
    a call that has not returned. *)
From S2P Require Import Prelude ListH RbTree.

Definition time_after (a b : Z) : bool := i64 (i64 b - i64 a) <? 0.
Definition time_after_eq (a b : Z) : bool := i64 (i64 b - i64 a) <=? 0.
Definition time_before (a b : Z) : bool := time_after b a.
Definition time_before_eq (a b : Z) : bool := time_after_eq b a.

Record rendezvos_timer_event := mk_event { expired : Z; periodic_gap : Z; wait_port : Z; delivery_token : Z }.
Record timers := mk_timers { event_tree : rb_tree; same_expired : lheap; events : Z -> rendezvos_timer_event }.

Definition set_tree (s : rb_tree) (T : timers) : timers := mk_timers s (same_expired T) (events T).
Definition set_rings (h : lheap) (T : timers) : timers := mk_timers (event_tree T) h (events T).
Definition set_event (ev : Z) (e : rendezvos_timer_event) (T : timers) : timers :=
  mk_timers (event_tree T) (same_expired T) (<[ev := e]> (events T)).
Definition set_expired (ev v : Z) (T : timers) : timers :=
  let e := events T ev in set_event ev (mk_event v (periodic_gap e) (wait_port e) (delivery_token e)) T.
Definition set_wait_port (ev v : Z) (T : timers) : timers :=
  let e := events T ev in set_event ev (mk_event (expired e) (periodic_gap e) v (delivery_token e)) T.

(** ** The queue *)

Definition TREE_FUEL : nat := 256.
Definition KMSG_OP_SYSTEM_TIMER_EXPIRE : Z := 3.
Definition KMSG_OP_SYSTEM_TIMER_CANCEL : Z := 4.

Definition timer_event_is_rb_head (event : Z) (T : timers) : bool :=
  (rb_root (event_tree T) =? event) || negb (RB_PARENT (event_tree T) event =? NULL).
Definition timer_event_is_linked (event : Z) (T : timers) : bool :=
  timer_event_is_rb_head event T ||
  (list_node_is_valid (same_expired T) event && negb (list_node_is_detached (same_expired T) event)).

Fixpoint find_loop (fuel : nat) (T : timers) (node at_time : Z) : Z :=
  match fuel with
  | O => NULL
  | S fuel' =>
    if node =? NULL then NULL
    else if time_before at_time (expired (events T node)) then find_loop fuel' T (lc (event_tree T) node) at_time
    else if time_before (expired (events T node)) at_time then find_loop fuel' T (rc (event_tree T) node) at_time
    else node
  end.
Definition timer_event_rb_tree_find (at_time : Z) (T : timers) : Z := find_loop TREE_FUEL T (rb_root (event_tree T)) at_time.

Fixpoint insert_loop (fuel : nat) (at_time : Z) (new : rb_link) (parent : Z) (T : timers) : option (rb_link * Z) :=
  match fuel with
  | O => None
  | S fuel' =>
    if link_get new (event_tree T) =? NULL then Some (new, parent)
    else
      let parent := link_get new (event_tree T) in
      if time_before at_time (expired (events T parent)) then insert_loop fuel' at_time (LLeft parent) parent T
      else if time_before (expired (events T parent)) at_time then insert_loop fuel' at_time (LRight parent) parent T
      else None
  end.
Definition timer_event_rb_tree_insert (event : Z) (T : timers) : Z * timers :=
  match insert_loop TREE_FUEL (expired (events T event)) LRoot NULL T with
  | None => (- E_IN_PARAM, T)
  | Some (new, parent) =>
    (REND_SUCCESS, set_tree (RB_SolveDoubleRed TREE_FUEL event (RB_Link_Node event parent new (event_tree T))) T)
  end.
Definition timer_event_rb_tree_remove (event : Z) (T : timers) : timers :=
  let s := RB_Remove TREE_FUEL event (event_tree T) in
  let s := set_bh event 0 (set_pc event 0 s) in
  set_tree (set_left event NULL (set_right event NULL s)) T.
Definition timer_event_rb_tree_first (T : timers) : Z :=
  let node := rb_root (event_tree T) in
  if node =? NULL then NULL else leftmost TREE_FUEL (event_tree T) node.

Definition rendezvos_timer_event_exist_inner (event : Z) (T : timers) : bool := timer_event_is_linked event T.
Definition rendezvos_timer_event_add_inner (event expires_at : Z) (T : timers) : Z * timers :=
  if timer_event_is_linked event T then (- E_IN_PARAM, T)
  else if (periodic_gap (events T event) =? 0) && (wait_port (events T event) =? NULL) then (- E_IN_PARAM, T)
  else
    let T := set_expired event expires_at T in
    let head := timer_event_rb_tree_find (expired (events T event)) T in
    if negb (head =? NULL) then (REND_SUCCESS, set_rings (list_add_tail (same_expired T) event head) T)
    else timer_event_rb_tree_insert event (set_rings (INIT_LIST_HEAD (same_expired T) event) T).
Definition rendezvos_timer_event_del_inner (event : Z) (T : timers) : Z * timers :=
  if timer_event_is_rb_head event T then
    if list_empty (same_expired T) event then (REND_SUCCESS, timer_event_rb_tree_remove event T)
    else
      let succ := next (same_expired T event) in
      let T := set_rings (list_del (same_expired T) event) T in
      let T := timer_event_rb_tree_remove event T in
      (REND_SUCCESS, snd (timer_event_rb_tree_insert succ T))
  else if list_node_is_valid (same_expired T) event && negb (list_node_is_detached (same_expired T) event) then
    (REND_SUCCESS, set_rings (list_del_init (same_expired T) event) T)
  else (- E_REND_NOFOUND, T).
Definition rendezvos_timer_event_add (event expires_at : Z) (T : timers) : Z * timers := rendezvos_timer_event_add_inner event expires_at T.
Definition rendezvos_timer_event_del (event : Z) (T : timers) : Z * timers := rendezvos_timer_event_del_inner event T.
Definition rendezvos_timer_event_change (event expires_at : Z) (T : timers) : Z * timers :=
  let '(res, T) := rendezvos_timer_event_del_inner event T in
  if res =? REND_SUCCESS then rendezvos_timer_event_add_inner event expires_at T else (res, T).
Definition rendezvos_timer_event_exist (event : Z) (T : timers) : bool := rendezvos_timer_event_exist_inner event T.

(** ** Events and their ports *)

Definition SYS_TIME_MS_PER_INT : Z := 10.
Definition INT_PER_SECOND : Z := 1000 / SYS_TIME_MS_PER_INT.

(** what the timers ask of ports and messages *)
Class TimerPorts (P : Type) := {
  port_ref_get : Z -> P -> bool * P;                         (* ref_get_not_zero(&port->refcount) *)
  port_ref_put : Z -> P -> option P;                         (* ref_put(&port->refcount, free_message_port_ref) *)
  event_kmsg : Z -> Z -> Z -> bool -> P -> option (Z * P)    (* timer_event_deliver_kmsg *)
}.

Section Events.
Context {P : Type} `{TimerPorts P}.
Implicit Types (T : timers) (st : P).

(** [memset] of the whole event *)
Definition clear_event (event : Z) T : timers :=
  mk_timers (upd event (mk_rb 0 0 NULL NULL) (event_tree T)) (<[event := mk_le NULL NULL]> (same_expired T))
    (<[event := mk_event 0 0 NULL 0]> (events T)).
Definition rendezvos_timer_event_init (event gap port token : Z) T st : Z * timers * P :=
  if event =? NULL then (- E_IN_PARAM, T, st)
  else if (gap =? 0) && (port =? NULL) then (- E_IN_PARAM, T, st)
  else if negb (gap =? 0) && negb (port =? NULL) then (- E_IN_PARAM, T, st)
  else
    let '(ok, st) := if gap =? 0 then port_ref_get port st else (true, st) in
    if negb ok then (- E_REND_IPC, T, st)
    else
      let T := clear_event event T in
      let T := set_rings (INIT_LIST_HEAD (same_expired T) event) T in
      (REND_SUCCESS, set_event event (mk_event (expired (events T event)) gap port token) T, st).
Definition rendezvos_timer_event_fini (event : Z) T st : option (Z * timers * P) :=
  if negb (periodic_gap (events T event) =? 0) then Some (- E_IN_PARAM, T, st)
  else
    let T := if rendezvos_timer_event_exist_inner event T then snd (rendezvos_timer_event_del_inner event T) else T in
    if negb (wait_port (events T event) =? NULL) then
      st ← port_ref_put (wait_port (events T event)) st;
      Some (REND_SUCCESS, set_wait_port event NULL T, st)
    else Some (REND_SUCCESS, T, st).
Definition rendezvos_timer_event_cancel (event : Z) T st : option (Z * timers * P) :=
  if (event =? NULL) || negb (periodic_gap (events T event) =? 0) || (wait_port (events T event) =? NULL) then Some (- E_IN_PARAM, T, st)
  else
    let T := if rendezvos_timer_event_exist_inner event T then snd (rendezvos_timer_event_del_inner event T) else T in
    '(err, st) ← event_kmsg (wait_port (events T event)) KMSG_OP_SYSTEM_TIMER_CANCEL (delivery_token (events T event)) false st;
    Some (err, T, st).

(** ** The interrupt *)

(** per-CPU data and the clock's globals; [reads] counts the reads of the
    counter, [armed] logs the calls of [arch_reset_timer] *)
Record cpu_time := mk_time {
  queue : timers; ker : P; reads : nat; tick_cnt : Z; armed : list Z;
  boot_base_time : Z; heartbeat_event : Z; clock_hz : Z; jeffy_ticks : Z; heartbeat_gap : Z
}.
Implicit Types c : cpu_time.
Context (clock : nat -> Z).
Definition set_queue T c : cpu_time :=
  mk_time T (ker c) (reads c) (tick_cnt c) (armed c) (boot_base_time c) (heartbeat_event c) (clock_hz c) (jeffy_ticks c) (heartbeat_gap c).
Definition set_ker st c : cpu_time :=
  mk_time (queue c) st (reads c) (tick_cnt c) (armed c) (boot_base_time c) (heartbeat_event c) (clock_hz c) (jeffy_ticks c) (heartbeat_gap c).
Definition set_tick_cnt v c : cpu_time :=
  mk_time (queue c) (ker c) (reads c) v (armed c) (boot_base_time c) (heartbeat_event c) (clock_hz c) (jeffy_ticks c) (heartbeat_gap c).
Definition arch_reset_timer (gap : Z) c : cpu_time :=
  mk_time (queue c) (ker c) (reads c) (tick_cnt c) (armed c ++ [gap]) (boot_base_time c) (heartbeat_event c) (clock_hz c) (jeffy_ticks c) (heartbeat_gap c).
Definition arch_timer_read c : Z * cpu_time :=
  (clock (reads c), mk_time (queue c) (ker c) (S (reads c)) (tick_cnt c) (armed c) (boot_base_time c) (heartbeat_event c) (clock_hz c) (jeffy_ticks c) (heartbeat_gap c)).

(** [hz]: the counter's frequency, [gap]: the result of [arch_init_timer]; [None]
    is a panic.  The handler's registration and the calibration of the delay
    loop are left out. *)
Definition rendezvos_time_init (is_bsp : bool) (gap hz : Z) c : option cpu_time :=
  let T := set_tree (set_root NULL (event_tree (queue c))) (queue c) in
  let '(now, c) := arch_timer_read c in
  let c := mk_time T (ker c) (reads c) 0 (armed c) now (heartbeat_event c) (clock_hz c) (jeffy_ticks c) gap in
  let '(err, T, st) := rendezvos_timer_event_init (heartbeat_event c) gap NULL 0 (queue c) (ker c) in
  if negb (err =? REND_SUCCESS) then None
  else
    let '(err, T) := rendezvos_timer_event_add (heartbeat_event c) (u64 (boot_base_time c + gap)) T in
    if negb (err =? REND_SUCCESS) then None
    else
      let c := set_ker st (set_queue T c) in
      Some (if is_bsp
            then mk_time (queue c) (ker c) (reads c) (tick_cnt c) (armed c) (boot_base_time c) (heartbeat_event c) hz
                   (if hz / INT_PER_SECOND =? 0 then 1 else hz / INT_PER_SECOND) (heartbeat_gap c)
            else c).

(** one expired event *)
Definition fire (current_event now : Z) c : option cpu_time :=
  let T := queue c in
  if negb (periodic_gap (events T current_event) =? 0) then
    let '(_, T) := rendezvos_timer_event_change current_event (u64 (now + periodic_gap (events T current_event))) T in
    let c := set_queue T c in
    Some (if (current_event =? heartbeat_event c) && negb (clock_hz c =? 0)
          then set_tick_cnt (u64 (now - boot_base_time c) / jeffy_ticks c) c else c)
  else
    '(e, st) ← event_kmsg (wait_port (events T current_event)) KMSG_OP_SYSTEM_TIMER_EXPIRE (delivery_token (events T current_event)) true (ker c);
    if e =? REND_SUCCESS then '(_, T, st) ← rendezvos_timer_event_fini current_event T st; Some (set_queue T (set_ker st c))
    else let '(_, T) := rendezvos_timer_event_change current_event (u64 (now + 1)) T in Some (set_queue T (set_ker st c)).
Fixpoint irq_loop (fuel : nat) c : option cpu_time :=
  match fuel with
  | O => None
  | S fuel' =>
    let current_event := timer_event_rb_tree_first (queue c) in
    if current_event =? NULL then Some c
    else
      let '(now, c) := arch_timer_read c in
      if time_before now (expired (events (queue c) current_event)) then Some c
      else c ← fire current_event now c; irq_loop fuel' c
  end.
Definition rendezvos_do_time_irq (fuel : nat) c : option cpu_time :=
  c ← irq_loop fuel c;
  let '(now, c) := arch_timer_read c in
  let next_event := timer_event_rb_tree_first (queue c) in
  if next_event =? NULL then Some (arch_reset_timer (heartbeat_gap c) c)
  else
    let next_event_gap := if time_before now (expired (events (queue c) next_event)) then u64 (expired (events (queue c) next_event) - now) else 1 in
    Some (arch_reset_timer next_event_gap c).

(** [base]: the boot time of the first CPU *)
Definition jeffies_get (base : Z) c : Z * cpu_time :=
  if clock_hz c =? 0 then (0, c) else let '(now, c) := arch_timer_read c in (i64 (u64 (now - base) / jeffy_ticks c), c).
Definition rendezvos_time_now c : Z * cpu_time := let '(now, c) := arch_timer_read c in (u64 (now - boot_base_time c), c).
End Events.
Arguments cpu_time : clear implicits.

(** ** Units *)

Definition rendezvos_time_count_to_us (clock_hz count : Z) : Z :=
  if clock_hz =? 0 then 0 else u64 (u64 (count / clock_hz * 1000000) + u64 (count mod clock_hz * 1000000) / clock_hz).
Definition rendezvos_time_count_to_ms (clock_hz count : Z) : Z :=
  if clock_hz =? 0 then 0 else u64 (u64 (count / clock_hz * 1000) + u64 (count mod clock_hz * 1000) / clock_hz).
Definition rendezvos_time_us_to_count (clock_hz us : Z) : Z := if clock_hz =? 0 then 0 else u64 (us * clock_hz) / 1000000.
Definition rendezvos_time_ms_to_count (clock_hz ms : Z) : Z := if clock_hz =? 0 then 0 else u64 (ms * clock_hz) / 1000.

(** ** Busy waiting

    The results are the rounds of [loop_delay]. *)

Definition UDELAY_MUL : Z := 2147 * INT_PER_SECOND + 483648 * INT_PER_SECOND / 1000000.
Definition UDELAY_SHIFT : Z := 31.
Definition UDELAY_MAX : Z := 2000.
Definition __udelay (lpj us : Z) : Z := Z.shiftr (u64 (lpj * us * UDELAY_MUL)) UDELAY_SHIFT.
Fixpoint _udelay (uml lpj us : Z) (fuel : nat) : option Z :=
  if UDELAY_MAX <=? us then
    match fuel with O => None | S fuel' => rest ← _udelay uml lpj (us - UDELAY_MAX) fuel'; Some (uml + rest) end
  else Some (__udelay lpj us).
Definition udelay_max_loop (loop_per_jeffies : Z) : Z := Z.shiftr (u64 (loop_per_jeffies * UDELAY_MAX * UDELAY_MUL)) UDELAY_SHIFT.
Definition udelay (loop_per_jeffies us : Z) (fuel : nat) : option Z := _udelay (udelay_max_loop loop_per_jeffies) loop_per_jeffies us fuel.
Definition mdelay (loop_per_jeffies ms : Z) (fuel : nat) : option Z := _udelay (udelay_max_loop loop_per_jeffies) loop_per_jeffies (u64 (ms * 1000)) fuel.
