(* ===== verification/TimerQueue.v ===== *)
(** * The timer queue

    What the tree and the rings of a CPU mean: groups of events of one deadline
    each, in the order of the deadlines, and what adding, removing and moving an
    event does to the sequence of all events. *)
From S2P Require Import Prelude ListH RbTree RbInsert RbRemove Timer.

(** ** The representation *)

Definition clean : rb_node := mk_rb 0 0 NULL NULL.
Definition key (T : timers) (a : Z) : Z := expired (events T a).
Definition heads (gs : list (list Z)) : list Z := map (List.hd NULL) gs.
Definition ring (h : lheap) (g : list Z) : Prop := match g with [] => False | hd :: fs => list_is h hd fs end.

(** [gs]: the events of each deadline, in the order they fire *)
Record queue_is (T : timers) (gs : list (list Z)) : Prop := {
  qi_tree : page_index (key T) (event_tree T) (heads gs);
  qi_ring : forall g, g ∈ gs -> ring (same_expired T) g;
  qi_same : forall g x, g ∈ gs -> x ∈ g -> key T x = key T (List.hd NULL g);
  qi_node : forall x, x ∈ concat gs -> node_addr x;
  qi_rest : forall g x, g ∈ gs -> x ∈ List.tl g -> rbm (event_tree T) x = clean;
  qi_time : forall x, x ∈ concat gs -> 0 <= key T x < 2 ^ 63;
  qi_nodup : NoDup (concat gs)
}.
(** an event in no queue *)
Record idle (T : timers) (e : Z) : Prop := {
  id_node : node_addr e;
  id_tree : rbm (event_tree T) e = clean;
  id_ring : same_expired T e = mk_le e e \/ same_expired T e = mk_le NULL NULL
}.
(** nothing but [l] is touched *)
Definition only (l : list Z) (T T' : timers) : Prop :=
  forall x, x ∉ l -> rbm (event_tree T') x = rbm (event_tree T) x /\ same_expired T' x = same_expired T x.

Lemma only_refl l T : only l T T.
Proof. by intros x. Qed.
Lemma only_trans l T1 T2 T3 : only l T1 T2 -> only l T2 T3 -> only l T1 T3.
Proof. intros H1 H2 x Hx. destruct (H1 x Hx), (H2 x Hx). split; congruence. Qed.
Lemma only_idle l T T' e : only l T T' -> e ∉ l -> idle T e -> idle T' e.
Proof. intros H1 H2 [I1 I2 I3]. destruct (H1 e H2) as [E1 E2]. constructor; [done|congruence|by rewrite E2]. Qed.

Lemma page_index_ext f g s ns : (forall a, a ∈ ns -> f a = g a) -> page_index f s ns -> page_index g s ns.
Proof.
  intros He [Ht Hs]. split; [done|]. clear Ht. induction Hs as [|x l Hl IH Hf]; constructor.
  - apply IH. intros a Ha. apply He. by right.
  - rewrite Forall_forall in *. intros y Hy. specialize (Hf y Hy). unfold lt_key in *. rewrite <- !He; [done|by right|by left].
Qed.
Lemma before_lt x y : 0 <= x < 2 ^ 63 -> 0 <= y < 2 ^ 63 -> time_before x y = (x <? y).
Proof. intros Hx Hy. unfold time_before, time_after. rewrite (i64_small x), (i64_small y), i64_small by lia. repeat case_bool; lia. Qed.

(** ** The loops over the tree are those of the page index *)

Lemma find_search T at_time fuel : 0 <= at_time < 2 ^ 63 -> forall t par, rep (event_tree T) par t ->
  (forall a, a ∈ nodes t -> 0 <= key T a < 2 ^ 63) ->
  find_loop fuel T (addr t) at_time = search_from (key T) fuel (event_tree T) (addr t) at_time.
Proof.
  intros Ha. induction fuel as [|fuel IH]; intros t par HR Hk; [done|]. cbn [find_loop search_from].
  destruct t as [|c k l a r]; cbn [addr]; [by rewrite Z.eqb_refl|]. destruct HR as (_ & Hn & Hm & Hl & Hr). cbn [nodes] in Hk.
  rewrite (proj2 (Z.eqb_neq a NULL)) by by apply node_nonnull.
  rewrite (known_lc _ _ _ _ _ _ _ Hm), (known_rc _ _ _ _ _ _ _ Hm).
  pose proof (Hk a ltac:(set_solver)) as Hka. unfold key in *. rewrite !before_lt by done. fold (key T a).
  rewrite (IH l a), (IH r a); [done|done| |done|]; intros b Hb; apply Hk; set_solver.
Qed.
Lemma insert_descend_eq T at_time fuel : 0 <= at_time < 2 ^ 63 -> forall t C, crep (event_tree T) C (addr t) -> rep (event_tree T) (top C) t ->
  (forall a, a ∈ nodes t -> 0 <= key T a < 2 ^ 63) ->
  insert_loop fuel at_time (link_for C) (top C) T = insert_descend (key T) fuel at_time (link_for C) (top C) (event_tree T).
Proof.
  intros Ha. induction fuel as [|fuel IH]; intros t C HC HR Hk; [done|]. cbn [insert_loop insert_descend]. rewrite (link_get_ok _ _ _ HC).
  destruct t as [|c k l a r]; cbn [addr]; [by rewrite Z.eqb_refl|]. destruct HR as (Hp & Hn & Hm & Hl & Hr). cbn [nodes addr] in *.
  rewrite (proj2 (Z.eqb_neq a NULL)) by by apply node_nonnull.
  pose proof (Hk a ltac:(set_solver)) as Hka. unfold key in *. rewrite !before_lt by done. fold (key T a).
  pose proof (IH l (F true c k a r :: C)) as E1. pose proof (IH r (F false c k a l :: C)) as E2. cbn [link_for top] in E1, E2.
  rewrite E1, E2; [done|by split_and!|done| |by split_and!|done|]; intros b Hb; apply Hk; set_solver.
Qed.

(** ** The tree of the earliest events *)

Section Tree.
Context (T : timers) (ns : list Z) (HI : page_index (key T) (event_tree T) ns) (Hk : forall a, a ∈ ns -> 0 <= key T a < 2 ^ 63).

Lemma find_ok at_time : 0 <= at_time < 2 ^ 63 -> let r := timer_event_rb_tree_find at_time T in
  (r = NULL /\ forall a, a ∈ ns -> key T a <> at_time) \/ (r ∈ ns /\ key T r = at_time /\ r <> NULL).
Proof using HI Hk.
  intros Ha r. subst r. pose proof (page_index_small _ _ _ HI) as Hf. destruct HI as [(t & Hr & HR & Hrb & En) HS]. pose proof (rb_depth _ Hrb) as Hd. subst ns.
  unfold timer_event_rb_tree_find. rewrite Hr, (find_search _ _ _ Ha t NULL HR Hk). apply (search_ok _ _ _ _ t NULL); [|done|done]. unfold TREE_FUEL. lia.
Qed.
Lemma tree_insert_ok e : node_addr e -> e ∉ ns -> rbm (event_tree T) e = clean -> 0 <= key T e < 2 ^ 63 ->
  let '(err, T') := timer_event_rb_tree_insert e T in
  ((exists a, a ∈ ns /\ key T a = key T e) /\ err = - E_IN_PARAM) \/
  ((forall a, a ∈ ns -> key T a <> key T e) /\ err = REND_SUCCESS /\
   exists s' L R, T' = set_tree s' T /\ ns = L ++ R /\ page_index (key T) s' (L ++ e :: R) /\ mem_out (e :: ns) (event_tree T) s').
Proof using HI Hk.
  intros Ha Hni Hcl Hke. pose proof (page_index_small _ _ _ HI : (_ < TREE_FUEL)%nat) as Hf. unfold timer_event_rb_tree_insert.
  revert Hf. generalize TREE_FUEL. intros fuel Hf.
  pose proof HI as [(t & Hr & HR & Hrb & En) HS]. pose proof (rb_depth _ Hrb) as Hd.
  assert (Ed : insert_loop fuel (key T e) LRoot NULL T = insert_descend (key T) fuel (key T e) LRoot NULL (event_tree T)).
  { apply (insert_descend_eq T (key T e) fuel Hke t []); [exact Hr|exact HR|by rewrite En]. }
  fold (key T e). rewrite Ed.
  destruct (insert_effect (key T) (event_tree T) ns e fuel HI Ha Hni ltac:(unfold RB_COLOR; by rewrite Hcl) ltac:(by rewrite Hcl) Hf) as [[He _]|[He (L & R & EL & Hix & Mo)]].
  - destruct (descend_ok (key T) fuel (event_tree T) (key T e) t []) as [[E _]|[Hno _]]; [by rewrite En in Hd; lia|by rewrite <- Hr|exact HR|by rewrite En|cbn [link_for top] in E; rewrite E; left; by split|].
    exfalso. destruct He as (a & Hin & E). apply (Hno a); [by rewrite En|exact E].
  - unfold page_chunk_rb_tree_insert in Hix, Mo. destruct (descend_ok (key T) fuel (event_tree T) (key T e) t []) as [[_ (a & Hin & E)]|[_ (D & L' & R' & E & _)]]; [by rewrite En in Hd; lia|by rewrite <- Hr|exact HR|by rewrite En| |].
    { exfalso. apply (He a); [by rewrite <- En|exact E]. }
    cbn [link_for top] in E. rewrite E in Hix, Mo |- *. right. split_and!; [exact He|done|]. eexists _, L, R. split_and!; [reflexivity|exact EL|exact Hix|exact Mo].
Qed.
Lemma tree_remove_ok L e R : ns = L ++ e :: R ->
  exists s', timer_event_rb_tree_remove e T = set_tree s' T /\ page_index (key T) s' (L ++ R) /\ rbm s' e = clean /\ mem_out ns (event_tree T) s'.
Proof using HI.
  intros En. pose proof (page_index_small _ _ _ HI : (_ < TREE_FUEL)%nat) as Hf. unfold timer_event_rb_tree_remove. revert Hf. generalize TREE_FUEL. intros fuel Hf. rewrite En in HI, Hf |- *.
  set (s' := set_left _ _ _). exists s'. split; [done|].
  apply (removed_index (key T) (event_tree T) L e R fuel); [done|done|]. subst s'. unfold set_left, set_right, set_pc, set_bh, upd.
  split; [done|]. cbn [rbm]. rewrite !fn_insert_same. split; [done|]. intros x Hx. by rewrite !fn_insert_other.
Qed.
Lemma first_ok : timer_event_rb_tree_first T = List.hd NULL ns.
Proof using HI.
  pose proof (page_index_small _ _ _ HI) as Hf. destruct HI as [(t & Hr & HR & Hrb & En) HS]. pose proof (rb_depth _ Hrb) as Hd.
  unfold timer_event_rb_tree_first. rewrite Hr. destruct (Z.eqb_spec (addr t) NULL) as [E|E].
  { rewrite (rep_addr_null _ _ _ HR E) in En. by rewrite <- En. }
  destruct (leftmost_ok TREE_FUEL (event_tree T) t NULL) as (D & c & k & r & Et & HD & _); [by intros ->|unfold TREE_FUEL; rewrite En in Hd; lia|done|].
  destruct (left_nodes D HD) as [Q HQ]. rewrite <- En. rewrite Et at 2. by rewrite HQ.
Qed.
(** a node has a parent unless it is the root *)
Lemma head_ok e : node_addr e -> (e ∈ ns <-> rb_root (event_tree T) = e \/ e ∈ ns /\ RB_PARENT (event_tree T) e <> NULL).
Proof using HI.
  clear Hk.
  destruct HI as [(t & Hr & HR & Hrb & <-) HS]. intros Ha. rewrite Hr. split.
  - assert (Hgen : forall t par, rep (event_tree T) par t -> e ∈ nodes t -> addr t = e \/ RB_PARENT (event_tree T) e <> NULL).
    { clear - Ha. intros t. induction t as [|c k l IHl a r IHr]; intros par HR He; [by apply elem_of_nil in He|]. destruct HR as (_ & Hn & _ & Hl & Hrr).
      assert (Hsub : forall u, rep (event_tree T) a u -> e ∈ nodes u -> (addr u = e \/ RB_PARENT (event_tree T) e <> NULL) -> RB_PARENT (event_tree T) e <> NULL).
      { intros u Hu Hin [<-|]; [|done]. rewrite (rep_parent _ _ _ Hu); [by apply node_nonnull|]. intros ->. by apply elem_of_nil in Hin. }
      cbn [nodes] in He. apply elem_of_app in He as [He|[->|He]%elem_of_cons]; [right|by left|right].
      - apply (Hsub l); [done..|]. by eapply IHl. - apply (Hsub r); [done..|]. by eapply IHr. }
    intros He. destruct (Hgen t NULL HR He); [by left|by right].
  - intros [<-|[? _]]; [|done]. apply addr_in. by apply node_nonnull.
Qed.
End Tree.

(** ** Groups *)

Lemma heads_app gs gs' : heads (gs ++ gs') = heads gs ++ heads gs'.
Proof. apply map_app. Qed.
Lemma group_at {A} (gs : list (list A)) x : x ∈ concat gs -> exists G1 g1 g2 G2, gs = G1 ++ (g1 ++ x :: g2) :: G2.
Proof.
  intros Hx. rewrite list_elem_of_In, in_concat in Hx. destruct Hx as (g & Hg%list_elem_of_In & Hx%list_elem_of_In).
  apply list_elem_of_split in Hg as (G1 & G2 & ->). apply list_elem_of_split in Hx as (g1 & g2 & ->). by eexists _, _, _, _.
Qed.
Lemma in_group {A} (gs : list (list A)) g x : g ∈ gs -> x ∈ g -> x ∈ concat gs.
Proof. intros Hg Hx. rewrite list_elem_of_In, in_concat. exists g. by rewrite <- !list_elem_of_In. Qed.

Section Queue.
Context (T : timers) (gs : list (list Z)) (Q : queue_is T gs).

Lemma group_head g : g ∈ gs -> exists h fs, g = h :: fs /\ list_is (same_expired T) h fs.
Proof using Q. intros Hg. pose proof (qi_ring _ _ Q g Hg). destruct g as [|h fs]; [done|]. by exists h, fs. Qed.
Lemma heads_in x : x ∈ heads gs -> x ∈ concat gs.
Proof using Q.
  intros Hx. apply list_elem_of_In, in_map_iff in Hx as (g & <- & Hg%list_elem_of_In). destruct (group_head g Hg) as (h & fs & -> & _). apply (in_group _ _ _ Hg). left.
Qed.
Lemma head_time x : x ∈ heads gs -> 0 <= key T x < 2 ^ 63.
Proof using Q. intros Hx. by apply (qi_time _ _ Q), heads_in. Qed.
Lemma head_of g x : g ∈ gs -> x ∈ g -> x ∈ heads gs -> exists fs, g = x :: fs.
Proof using Q.
  intros Hg Hx Hh. apply list_elem_of_In, in_map_iff in Hh as (g' & E & Hg'%list_elem_of_In). destruct (group_head g' Hg') as (h & fs & -> & _). cbn in E. subst h.
  exists fs. pose proof (qi_nodup _ _ Q) as Hnd. apply list_elem_of_split in Hg as (G1 & G2 & ->).
  rewrite concat_app in Hnd. cbn [concat] in Hnd. apply NoDup_app in Hnd as (_ & D1 & Hnd). apply NoDup_app in Hnd as (_ & D2 & _).
  apply elem_of_app in Hg' as [Hg'|[Eq|Hg']%elem_of_cons]; [|done|]; exfalso.
  - apply (D1 x); [apply (in_group _ _ _ Hg'); left|]. apply elem_of_app. by left.
  - apply (D2 x); [done|]. apply (in_group _ _ _ Hg'). left.
Qed.
Lemma is_head e : e ∈ concat gs -> timer_event_is_rb_head e T = true <-> e ∈ heads gs.
Proof using Q.
  intros He. pose proof (qi_node _ _ Q e He) as Ha. rewrite (head_ok T (heads gs) (qi_tree _ _ Q) e Ha). unfold timer_event_is_rb_head. rewrite orb_true_iff, negb_true_iff, Z.eqb_eq, Z.eqb_neq. split.
  - intros [?|Hp]; [by left|]. right. split; [|done]. destruct (group_at gs e He) as (G1 & g1 & g2 & G2 & ->). destruct g1 as [|h g1].
    { rewrite heads_app. cbn. set_solver. }
    exfalso. apply Hp. unfold RB_PARENT. rewrite (qi_rest _ _ Q (h :: g1 ++ e :: g2)); [done|set_solver|cbn; set_solver].
  - intros [?|[? ?]]; tauto.
Qed.
Lemma not_linked e : e ∉ concat gs -> idle T e -> timer_event_is_linked e T = false.
Proof using Q.
  intros He [Ha Hc Hr]. unfold timer_event_is_linked, timer_event_is_rb_head. replace (rb_root (event_tree T) =? e) with false.
  2: { symmetry. apply Z.eqb_neq. intros E. apply He, heads_in. apply (head_ok T (heads gs) (qi_tree _ _ Q) e Ha). by left. }
  unfold RB_PARENT. rewrite Hc. cbn [clean rb_parent_color]. change (Z.land 0 (bnot 64 3) =? NULL) with true. cbn [negb orb].
  unfold list_node_is_valid, list_node_is_detached. destruct Hr as [->| ->]; cbn [next prev].
  - rewrite !Z.eqb_refl. destruct (e =? NULL); done.
  - by rewrite andb_false_r.
Qed.
Lemma rest_linked h xs e ys : (h :: xs ++ e :: ys) ∈ gs -> list_node_is_valid (same_expired T) e && negb (list_node_is_detached (same_expired T) e) = true.
Proof using Q.
  intros Hg. destruct (group_head _ Hg) as (h' & fs & [= <- <-] & Hr).
  destruct (ring_around _ _ _ e Hr) as (Hn & Hp & Hne); [set_solver|]. specialize (Hne ltac:(by destruct xs)).
  assert (Hnz : forall x, x ∈ h :: xs ++ e :: ys -> x <> NULL) by (intros x Hx; apply node_nonnull, (qi_node _ _ Q); by eapply in_group).
  unfold list_node_is_valid, list_node_is_detached. rewrite (proj2 (Z.eqb_neq e NULL)) by (apply Hnz; set_solver).
  rewrite (proj2 (Z.eqb_neq _ _) (Hnz _ Hn)), (proj2 (Z.eqb_neq _ _) (Hnz _ Hp)), (proj2 (Z.eqb_neq _ _) Hne). done.
Qed.
End Queue.

Lemma regroup T T' G1 M M' G2 : queue_is T (G1 ++ M ++ G2) -> page_index (key T') (event_tree T') (heads (G1 ++ M' ++ G2)) ->
  (forall x, x ∈ concat (G1 ++ G2) -> key T' x = key T x /\ same_expired T' x = same_expired T x /\
     (x ∉ heads (G1 ++ M ++ G2) -> rbm (event_tree T') x = rbm (event_tree T) x)) ->
  (forall g, g ∈ M' -> ring (same_expired T') g /\ (forall x, x ∈ g -> key T' x = key T' (List.hd NULL g) /\ node_addr x /\ 0 <= key T' x < 2 ^ 63) /\
     forall x, x ∈ List.tl g -> rbm (event_tree T') x = clean) ->
  NoDup (concat (G1 ++ M' ++ G2)) -> queue_is T' (G1 ++ M' ++ G2).
Proof.
  intros Q Hix Hf Hm Hnd.
  assert (Hg : forall g, g ∈ G1 ++ M' ++ G2 -> g ∈ M' \/ g ∈ G1 ++ M ++ G2 /\ forall x, x ∈ g -> x ∈ concat (G1 ++ G2)).
  { intros g Hg. assert (Hor : g ∈ M' \/ g ∈ G1 ++ G2) by (revert Hg; rewrite !elem_of_app; tauto). destruct Hor as [|Hor]; [by left|right].
    split; [revert Hor; rewrite !elem_of_app; tauto|]. intros x Hx. by eapply in_group. }
  assert (Hall : forall (P : Z -> Prop), (forall g x, g ∈ G1 ++ M' ++ G2 -> x ∈ g -> P x) -> forall x, x ∈ concat (G1 ++ M' ++ G2) -> P x).
  { intros P HP x Hx. destruct (group_at _ _ Hx) as (A & a & b & B & E). apply (HP (a ++ x :: b)); rewrite ?E; set_solver. }
  constructor; [exact Hix| | |apply Hall| |apply Hall|exact Hnd].
  - intros g Hin. destruct (Hg g Hin) as [H1|[H1 H2]]; [by apply Hm|]. destruct (group_head T _ Q g H1) as (h & fs & -> & Hr). cbn.
    apply (ring_frame (same_expired T)); [|done]. intros x Hx. by apply Hf, H2.
  - intros g x Hin Hx. destruct (Hg g Hin) as [H1|[H1 H2]]; [by apply Hm|]. destruct (group_head T _ Q g H1) as (h & fs & -> & Hr).
    destruct (Hf x (H2 x Hx)) as [-> _]. cbn [List.hd]. destruct (Hf h ltac:(apply H2; left)) as [-> _]. by apply (qi_same _ _ Q _ x H1).
  - intros g x Hin Hx. destruct (Hg g Hin) as [H1|[H1 _]]; [by apply (Hm g H1)|]. by apply (qi_node _ _ Q), (in_group _ _ _ H1).
  - intros g x Hin Hx. destruct (Hg g Hin) as [H1|[H1 H2]]; [by apply (Hm g H1)|]. destruct (group_head T _ Q g H1) as (h & fs & -> & [Hd _]). cbn [List.tl] in Hx.
    destruct (Hf x ltac:(apply H2; by right)) as (_ & _ & ->); [by apply (qi_rest _ _ Q _ x H1)|]. intros Hh.
    destruct (head_of T _ Q _ x H1 ltac:(by right) Hh) as (fs' & [= -> <-]). apply list.NoDup_cons in Hd. tauto.
  - intros g x Hin Hx. destruct (Hg g Hin) as [H1|[H1 H2]]; [by apply (Hm g H1)|]. destruct (Hf x (H2 x Hx)) as [-> _]. by apply (qi_time _ _ Q), (in_group _ _ _ H1).
Qed.
(** groups are sorted by deadline *)
Lemma group_order T G1 g G2 x h : queue_is T (G1 ++ g :: G2) -> h ∈ g ->
  (x ∈ concat G1 -> key T x < key T h) /\ (x ∈ concat G2 -> key T h < key T x).
Proof.
  intros Q Hh. pose proof (qi_tree _ _ Q) as [_ HS]. rewrite heads_app in HS. cbn [heads map] in HS. apply sorted_mid in HS as (_ & H1 & H2). unfold lt_key, heads in H1, H2.
  assert (Hgh : key T h = key T (List.hd NULL g)) by (apply (qi_same _ _ Q); [set_solver|done]).
  assert (Hx : forall G, (forall g', g' ∈ G -> g' ∈ G1 ++ g :: G2) -> x ∈ concat G -> exists y, y ∈ heads G /\ key T x = key T y).
  { intros G HG Hx. apply list_elem_of_In, in_concat in Hx as (g' & Hg'%list_elem_of_In & Hx%list_elem_of_In). exists (List.hd NULL g').
    split; [apply list_elem_of_In, in_map, list_elem_of_In, Hg'|]. apply (qi_same _ _ Q); [by apply HG|done]. }
  split; intros Hin.
  - destruct (Hx G1) as (y & Hy & ->); [set_solver|done|]. specialize (H1 y Hy). lia.
  - destruct (Hx G2) as (y & Hy & ->); [set_solver|done|]. specialize (H2 y Hy). lia.
Qed.

(** ** Adding *)

Lemma in_rest {A} (G1 M G2 : list (list A)) x : x ∈ concat (G1 ++ G2) -> x ∈ concat (G1 ++ M ++ G2).
Proof. rewrite !concat_app, !elem_of_app. tauto. Qed.
Lemma in_rest_not {A} (G1 G2 : list (list A)) g x : NoDup (concat (G1 ++ [g] ++ G2)) -> x ∈ concat (G1 ++ G2) -> x ∉ g.
Proof.
  rewrite !concat_app. cbn [concat]. rewrite app_nil_r. intros Hnd Hx Hin. apply NoDup_app in Hnd as (_ & D1 & Hnd). apply NoDup_app in Hnd as (_ & D2 & _).
  apply elem_of_app in Hx as [Hx|Hx]; [apply (D1 x Hx); apply elem_of_app; by left|by apply (D2 x Hin)].
Qed.

Lemma events_set_expired T e k x : key (set_expired e k T) x = if decide (x = e) then k else key T x.
Proof. unfold key, set_expired, set_event. cbn. rewrite fn_insert_case. repeat case_decide; by subst. Qed.
Lemma perm_insert (L R : list Z) e : L ++ e :: R ≡ₚ e :: L ++ R.
Proof. solve_perm. Qed.

(** an event joins the ring of its deadline *)
Lemma join_effect T e k G1 h fs G2 : queue_is T (G1 ++ (h :: fs) :: G2) -> e ∉ concat (G1 ++ (h :: fs) :: G2) -> idle T e -> key T h = k ->
  let T' := set_rings (list_add_tail (same_expired T) e h) (set_expired e k T) in
  queue_is T' (G1 ++ (h :: fs ++ [e]) :: G2) /\ only (e :: concat (G1 ++ (h :: fs) :: G2)) T T'.
Proof.
  intros Q He Hid Hk T'. pose proof (qi_nodup _ _ Q) as Hnd. assert (Hg : (h :: fs) ∈ G1 ++ (h :: fs) :: G2) by set_solver.
  pose proof (qi_ring _ _ Q _ Hg) as Hr. cbn in Hr.
  assert (Hke : forall x, x <> e -> key T' x = key T x) by (intros x Hx; change (key T' x) with (key (set_expired e k T) x); rewrite events_set_expired; by case_decide).
  assert (Hkk : key T' e = k) by (change (key T' e) with (key (set_expired e k T) e); rewrite events_set_expired; by case_decide).
  assert (Hout : forall x, x ∉ e :: h :: fs -> same_expired T' x = same_expired T x).
  { intros x Hx. cbn. destruct (ring_around _ _ _ h Hr) as (_ & Hp & _); [left|]. apply add_tail_frame; [set_solver..|]. intros ->. apply Hx. by right. }
  assert (Hhs : heads (G1 ++ (h :: fs ++ [e]) :: G2) = heads (G1 ++ (h :: fs) :: G2)) by (rewrite !heads_app; done).
  split.
  - apply (regroup T T' G1 [h :: fs] [h :: fs ++ [e]] G2); [exact Q| | | |].
    + cbn [app]. rewrite Hhs. apply (page_index_ext (key T)); [|exact (qi_tree _ _ Q)]. intros a Ha. symmetry. apply Hke. intros ->. by apply He, (heads_in T _ Q).
    + intros x Hx. split; [apply Hke; intros ->; by apply He, (in_rest _ [h :: fs])|]. split; [|done]. apply Hout.
      intros [->|Hin]%elem_of_cons; [by apply He, (in_rest _ [h :: fs])|]. by apply (in_rest_not G1 G2 (h :: fs) x Hnd Hx).
    + intros g ->%list_elem_of_singleton. cbn [List.hd List.tl ring]. split_and!.
      * apply add_tail_ok; [done|]. intros Hin. by apply He, (in_group _ _ _ Hg).
      * assert (Hhe : h <> e) by (intros ->; apply He, (in_group _ _ _ Hg); left). rewrite (Hke h Hhe).
        intros x [->|[Hx| ->%list_elem_of_singleton]%elem_of_app]%elem_of_cons.
        -- rewrite (Hke h Hhe). split_and!; [done|apply (qi_node _ _ Q), (in_group _ _ _ Hg); left|apply (qi_time _ _ Q), (in_group _ _ _ Hg); left..].
        -- assert (x <> e) by (intros ->; apply He, (in_group _ _ _ Hg); by right). rewrite Hke by done.
           split_and!; [apply (qi_same _ _ Q _ _ Hg); by right|apply (qi_node _ _ Q), (in_group _ _ _ Hg); by right|apply (qi_time _ _ Q), (in_group _ _ _ Hg); by right..].
        -- rewrite Hkk, Hk. split_and!; [done|apply Hid|rewrite <- Hk; apply (qi_time _ _ Q), (in_group _ _ _ Hg); left..].
      * intros x [Hx| ->%list_elem_of_singleton]%elem_of_app; [by apply (qi_rest _ _ Q _ x Hg)|apply Hid].
    + eapply NoDup_Permutation_proper; [|apply list.NoDup_cons; split; [exact He|exact Hnd]]. rewrite !concat_app. cbn [concat app]. rewrite <- !app_assoc. solve_perm.
  - intros x Hx. split; [done|]. apply Hout. intros Hin. apply Hx. apply elem_of_cons in Hin as [->|Hin]; [left|right]. by eapply in_group.
Qed.
(** an event opens a ring of its own *)
Lemma open_effect T e k gs : queue_is T gs -> e ∉ concat gs -> idle T e -> 0 <= k < 2 ^ 63 -> (forall a, a ∈ heads gs -> key T a <> k) ->
  exists T' G1 G2, timer_event_rb_tree_insert e (set_rings (INIT_LIST_HEAD (same_expired T) e) (set_expired e k T)) = (REND_SUCCESS, T') /\
    gs = G1 ++ G2 /\ queue_is T' (G1 ++ [e] :: G2) /\ events T' = events (set_expired e k T) /\ only (e :: concat gs) T T'.
Proof.
  intros Q He Hid Hk Hno. set (T1 := set_rings _ _).
  assert (Hke : forall x, x <> e -> key T1 x = key T x) by (intros x Hx; change (key T1 x) with (key (set_expired e k T) x); rewrite events_set_expired; by case_decide).
  assert (Hkk : key T1 e = k) by (change (key T1 e) with (key (set_expired e k T) e); rewrite events_set_expired; by case_decide).
  assert (Hh : forall a, a ∈ heads gs -> key T1 a = key T a) by (intros a Ha; apply Hke; intros ->; by apply He, (heads_in T _ Q)).
  assert (Hix : page_index (key T1) (event_tree T1) (heads gs)) by (apply (page_index_ext (key T)); [intros a Ha; symmetry; by apply Hh|exact (qi_tree _ _ Q)]).
  pose proof (tree_insert_ok T1 (heads gs) Hix ltac:(intros a Ha; rewrite Hh by done; by apply (head_time T _ Q)) e (id_node _ _ Hid) ltac:(intros Ha; by apply He, (heads_in T _ Q)) (id_tree _ _ Hid) ltac:(by rewrite Hkk)) as Hins.
  destruct (timer_event_rb_tree_insert e T1) as [err T']. destruct Hins as [[(a & Ha & E) _]|(_ & -> & s' & L & R & -> & EL & Hix' & Mo)].
  { exfalso. apply (Hno a Ha). by rewrite <- Hkk, <- E, Hh. }
  apply map_eq_app in EL as (G1 & G2 & -> & <- & <-). exists (set_tree s' T1), G1, G2.
  assert (Hout : only (e :: concat (G1 ++ G2)) T (set_tree s' T1)).
  { intros x Hx. apply not_elem_of_cons in Hx as [Hx1 Hx2]. split.
    - cbn. apply Mo. intros [->|Hin]%elem_of_cons; [done|]. by apply Hx2, (heads_in T _ Q).
    - cbn. unfold INIT_LIST_HEAD, set_next, set_prev. by rewrite (proj2 (Z.eqb_neq x e)). }
  split_and!; [done|done| |done|exact Hout].
  apply (regroup T _ G1 [] [[e]] G2); [exact Q|cbn [app]; by rewrite heads_app| | |].
  - intros x Hx. assert (Hxe : x <> e) by (by intros ->). split; [by apply Hke|]. split.
    + cbn. unfold INIT_LIST_HEAD, set_next, set_prev. by rewrite (proj2 (Z.eqb_neq x e)).
    + intros Hx'. cbn. apply Mo. intros [->|Hin]%elem_of_cons; done.
  - intros g ->%list_elem_of_singleton. cbn [List.hd List.tl ring]. split_and!.
    + cbn. split; [apply NoDup_singleton|]. split; lheap_simpl.
    + intros x ->%list_elem_of_singleton. change (key (set_tree s' T1) e) with (key T1 e). rewrite Hkk. split_and!; [done|apply Hid|lia..].
    + intros x Hx. by apply elem_of_nil in Hx.
  - cbn [app]. rewrite concat_app. cbn [concat app]. eapply NoDup_Permutation_proper; [apply perm_insert|]. rewrite <- concat_app. apply list.NoDup_cons. split; [done|exact (qi_nodup _ _ Q)].
Qed.

(** what adding does to the events in firing order *)
Definition added (T : timers) (e k : Z) (q q' : list Z) : Prop :=
  exists L R, q = L ++ R /\ q' = L ++ e :: R /\ (forall x, x ∈ L -> key T x <= k) /\ (forall x, x ∈ R -> k < key T x).
Lemma add_effect T gs e k : queue_is T gs -> e ∉ concat gs -> idle T e -> periodic_gap (events T e) <> 0 \/ wait_port (events T e) <> NULL -> 0 <= k < 2 ^ 63 ->
  exists T' gs', rendezvos_timer_event_add_inner e k T = (REND_SUCCESS, T') /\ queue_is T' gs' /\ events T' = events (set_expired e k T) /\
    added T e k (concat gs) (concat gs') /\ only (e :: concat gs) T T'.
Proof.
  intros Q He Hid Hp Hk. unfold rendezvos_timer_event_add_inner. rewrite (not_linked T gs Q e He Hid).
  replace ((periodic_gap (events T e) =? 0) && (wait_port (events T e) =? NULL)) with false by (symmetry; apply andb_false_iff; rewrite !Z.eqb_neq; tauto).
  set (T1 := set_expired e k T). assert (Ek : expired (events T1 e) = k) by (unfold T1, set_expired, set_event; cbn; by rewrite fn_insert_same). rewrite Ek.
  assert (Hh : forall a, a ∈ heads gs -> key T1 a = key T a).
  { intros a Ha. unfold T1. rewrite events_set_expired. case_decide; [subst a|done]. exfalso. by apply He, (heads_in T _ Q). }
  assert (Hix : page_index (key T1) (event_tree T1) (heads gs)) by (apply (page_index_ext (key T)); [intros a Ha; symmetry; by apply Hh|exact (qi_tree _ _ Q)]).
  destruct (find_ok T1 (heads gs) Hix ltac:(intros a Ha; rewrite Hh by done; by apply (head_time T _ Q)) k Hk) as [[-> Hno]|(Hin & Hkey & Hnz)].
  - cbn [NULL]. change (negb (NULL =? NULL)) with false. cbv iota.
    destruct (open_effect T e k gs Q He Hid Hk) as (T' & G1 & G2 & E & -> & Q' & Ev & Ho); [intros a Ha; rewrite <- Hh by done; by apply Hno|].
    change (same_expired T1) with (same_expired T). unfold T1. rewrite E. exists T', (G1 ++ [e] :: G2). split_and!; [done|exact Q'|exact Ev| |exact Ho].
    exists (concat G1), (concat G2). rewrite !concat_app. assert (Hkx : forall x, key T' x = if decide (x = e) then k else key T x) by (intros x; rewrite <- events_set_expired; unfold key; by rewrite Ev).
    assert (Hne : forall x, x ∈ concat (G1 ++ G2) -> x <> e) by (intros x Hx ->; done). rewrite concat_app in Hne.
    split_and!; [done|done| |]; intros x Hx; destruct (group_order T' G1 [e] G2 x e Q' ltac:(left)) as [O1 O2]; rewrite !Hkx in O1, O2;
      rewrite decide_False in O1, O2 by (apply Hne; set_solver); rewrite decide_True in O1, O2 by done; [specialize (O1 Hx)|specialize (O2 Hx)]; lia.
  - set (h := timer_event_rb_tree_find k T1) in *. clearbody h. rewrite (proj2 (Z.eqb_neq h NULL) Hnz). cbn [negb]. rewrite Hh in Hkey by done.
    pose proof Hin as Hin'. apply list_elem_of_In, in_map_iff in Hin' as (g & Eg & Hg%list_elem_of_In). destruct (group_head T _ Q g Hg) as (h' & fs & -> & _). cbn in Eg. subst h'.
    apply list_elem_of_split in Hg as (G1 & G2 & ->).
    destruct (join_effect T e k G1 h fs G2 Q He Hid Hkey) as [Q' Ho]. exists (set_rings (list_add_tail (same_expired T) e h) T1), (G1 ++ (h :: fs ++ [e]) :: G2).
    refine (conj eq_refl (conj Q' (conj eq_refl (conj _ Ho)))).
    exists (concat G1 ++ h :: fs), (concat G2). rewrite !concat_app. cbn [concat app]. rewrite <- !app_assoc. cbn [app]. split_and!; [done|done| |].
    + intros x [Hx|Hx]%elem_of_app; [destruct (group_order T G1 _ G2 x h Q ltac:(left)) as [O1 _]; specialize (O1 Hx); lia|].
      rewrite (qi_same _ _ Q (h :: fs) x) by set_solver. cbn. lia.
    + intros x Hx. destruct (group_order T G1 _ G2 x h Q ltac:(left)) as [_ O2]. specialize (O2 Hx). lia.
Qed.

(** ** Removing *)

Lemma split_by_key (f : Z -> Z) k L : forall L' R R', L ++ R = L' ++ R' -> (forall x, x ∈ L -> f x < k) -> (forall x, x ∈ R -> k < f x) ->
  (forall x, x ∈ L' -> f x < k) -> (forall x, x ∈ R' -> k < f x) -> L = L' /\ R = R'.
Proof.
  induction L as [|x L IH]; intros [|y L'] R R' E H1 H2 H3 H4; cbn [app] in *; subst; [done| | |].
  - specialize (H2 y ltac:(left)). specialize (H3 y ltac:(left)). lia.
  - specialize (H1 x ltac:(left)). specialize (H4 x ltac:(left)). lia.
  - injection E as -> E. destruct (IH L' R R' E) as [-> ->]; [intros z Hz; apply H1; by right|by apply H2|intros z Hz; apply H3; by right|by apply H4|done].
Qed.
Lemma mid_in (G1 : list (list Z)) g G2 x : x ∈ g -> x ∈ concat (G1 ++ g :: G2).
Proof. intros Hx. rewrite concat_app. cbn [concat]. rewrite !elem_of_app. tauto. Qed.

Lemma del_single T G1 e G2 : queue_is T (G1 ++ [e] :: G2) ->
  exists T', rendezvos_timer_event_del_inner e T = (REND_SUCCESS, T') /\ queue_is T' (G1 ++ G2) /\ events T' = events T /\ idle T' e /\ only (concat (G1 ++ [e] :: G2)) T T'.
Proof.
  intros Q. assert (Hg : [e] ∈ G1 ++ [e] :: G2) by set_solver. pose proof (mid_in G1 [e] G2 e ltac:(left)) as He.
  pose proof (qi_ring _ _ Q _ Hg) as Hr. pose proof (qi_nodup _ _ Q) as Hnd. unfold rendezvos_timer_event_del_inner.
  rewrite (proj2 (is_head T _ Q e He)) by (rewrite heads_app; set_solver). rewrite (proj2 (empty_ok _ _ _ Hr) eq_refl).
  pose proof (qi_tree _ _ Q) as Hix. rewrite heads_app in Hix.
  destruct (tree_remove_ok T _ Hix (heads G1) e (heads G2) eq_refl) as (s' & -> & Hix' & Hcl & Mo).
  assert (Hx' : forall x, x ∉ heads (G1 ++ [e] :: G2) -> rbm s' x = rbm (event_tree T) x) by (intros x Hx; apply Mo; by rewrite heads_app in Hx).
  exists (set_tree s' T). split_and!; [done| |done| |].
  - apply (regroup T _ G1 [[e]] [] G2); [exact Q|cbn [app]; by rewrite heads_app| |intros g Hg'; by apply elem_of_nil in Hg'|].
    + intros x _. split_and!; [done|done|]. apply Hx'.
    + cbn [app]. rewrite concat_app in *. cbn [concat] in Hnd. eapply sublist_NoDup; [exact Hnd|]. apply sublist_app; [done|]. by apply sublist_inserts_l.
  - constructor; [by apply (qi_node _ _ Q)|exact Hcl|]. left. cbn. destruct Hr as [_ Hs]. cbn [lseg] in Hs. destruct Hs as [H1 H2]. destruct (same_expired T e). cbn in *. by subst.
  - intros x Hx. split; [|done]. apply Hx'. intros Hin. by apply Hx, (heads_in T _ Q).
Qed.

(** the next event of the ring takes the place in the tree *)
Lemma del_head T G1 e f fs G2 : queue_is T (G1 ++ (e :: f :: fs) :: G2) ->
  exists T', rendezvos_timer_event_del_inner e T = (REND_SUCCESS, T') /\ queue_is T' (G1 ++ (f :: fs) :: G2) /\ events T' = events T /\ idle T' e /\
    only (concat (G1 ++ (e :: f :: fs) :: G2)) T T'.
Proof.
  intros Q. set (g0 := e :: f :: fs) in *. set (gs := G1 ++ g0 :: G2) in *. assert (Hg : g0 ∈ gs) by (subst gs; set_solver).
  assert (He : e ∈ concat gs) by (apply (mid_in G1 g0 G2); left). assert (Hfin : f ∈ concat gs) by (apply (mid_in G1 g0 G2); right; left).
  pose proof (qi_ring _ _ Q _ Hg) as Hr. pose proof (qi_nodup _ _ Q) as Hnd. assert (Hef : e <> f) by (destruct Hr as [Hd _]; apply list.NoDup_cons in Hd as [Hd _]; set_solver).
  assert (Eh : heads gs = heads G1 ++ e :: heads G2) by (subst gs; by rewrite heads_app). pose proof (qi_tree _ _ Q) as Hix. rewrite Eh in Hix.
  unfold rendezvos_timer_event_del_inner. rewrite (proj2 (is_head T _ Q e He)) by (rewrite Eh; set_solver).
  assert (Em : list_empty (same_expired T) e = false) by (destruct (list_empty (same_expired T) e) eqn:Em; [by apply (proj1 (empty_ok _ _ _ Hr)) in Em|done]). rewrite Em.
  replace (next (same_expired T e)) with f by (destruct Hr as [_ (-> & _)]; done).
  set (T1 := set_rings (list_del (same_expired T) e) T).
  destruct (tree_remove_ok T1 _ Hix (heads G1) e (heads G2) eq_refl) as (s1 & -> & Hix1 & Hcl & Mo1).
  set (T2 := set_tree s1 T1).
  assert (Hkf : key T f = key T e) by exact (qi_same _ _ Q g0 f Hg ltac:(right; left)).
  assert (Hfh : f ∉ heads gs) by (intros Hh; destruct (head_of T _ Q g0 f Hg ltac:(right; left) Hh) as [fs' [=]]; done).
  assert (Hsub : forall a, a ∈ heads G1 ++ heads G2 -> a ∈ heads gs) by (intros a; rewrite Eh, !elem_of_app, elem_of_cons; tauto).
  assert (O : (forall x, x ∈ heads G1 -> key T x < key T f) /\ (forall x, x ∈ heads G2 -> key T f < key T x)).
  { destruct Hix as [_ HS]. apply sorted_mid in HS as (_ & H1 & H2). unfold lt_key in H1, H2. rewrite Hkf. by split. }
  destruct O as [O1 O2].
  pose proof (tree_insert_ok T2 _ Hix1 ltac:(intros a Ha; change (key T2 a) with (key T a); by apply (head_time T _ Q), Hsub) f ltac:(by apply (qi_node _ _ Q)) ltac:(intros Ha; by apply Hfh, Hsub)) as Hins.
  assert (Hcf : rbm (event_tree T2) f = clean) by (cbn; rewrite Mo1 by (by rewrite <- Eh); apply (qi_rest _ _ Q g0 f Hg); left).
  specialize (Hins Hcf ltac:(change (key T2 f) with (key T f); by apply (qi_time _ _ Q))).
  destruct (timer_event_rb_tree_insert f T2) as [err T'] eqn:EI. destruct Hins as [[(a & Ha & E) _]|(_ & -> & s' & L & R & -> & EL & Hix2 & Mo2)].
  { exfalso. change (key T a = key T f) in E. apply elem_of_app in Ha as [Ha|Ha]; [specialize (O1 a Ha)|specialize (O2 a Ha)]; lia. }
  cbn [snd]. assert (heads G1 = L /\ heads G2 = R) as [<- <-].
  { pose proof Hix2 as [_ HS]. apply sorted_mid in HS as (_ & H1 & H2). by apply (split_by_key (key T) (key T f) _ _ _ _ EL). }
  assert (Hr' : list_is (list_del (same_expired T) e) f fs /\ next (list_del (same_expired T) e e) = e /\ prev (list_del (same_expired T) e e) = e).
  { apply (ring_rotate _ _ [] f fs) in Hr. apply (del_ok _ _ fs e []) in Hr. by rewrite app_nil_r in Hr. }
  destruct Hr' as (Hr' & N1 & N2). exists (set_tree s' T2).
  assert (Hout : forall x, x ∉ g0 -> list_del (same_expired T) e x = same_expired T x).
  { intros x Hx. destruct (ring_around _ _ _ e Hr ltac:(left)) as (A1 & A2 & _). apply del_frame; intros ->; apply Hx; [left|exact A2|exact A1]. }
  assert (Htree : forall x, x ∉ heads gs -> x <> f -> rbm s' x = rbm (event_tree T) x).
  { intros x Hx Hxf. rewrite Mo2 by (intros [->|Hin]%elem_of_cons; [done|by apply Hx, Hsub]). cbn. apply Mo1. by rewrite <- Eh. }
  assert (Hnd' : NoDup (e :: concat (G1 ++ (f :: fs) :: G2))).
  { eapply NoDup_Permutation_proper; [|exact Hnd]. subst gs g0. rewrite !concat_app. cbn [concat app]. solve_perm. }
  apply list.NoDup_cons in Hnd' as [Hne Hnd'].
  split_and!; [done| |done| |].
  - apply (regroup T _ G1 [g0] [f :: fs] G2); [exact Q|cbn [app]; rewrite heads_app; exact Hix2| | |exact Hnd'].
    + intros x Hx. pose proof (in_rest_not G1 G2 g0 x Hnd Hx) as Hx0. split; [done|]. split; [by apply Hout|]. intros Hxh. apply Htree; [exact Hxh|]. intros ->. apply Hx0. right; left.
    + intros g ->%list_elem_of_singleton. split; [exact Hr'|]. cbn [List.hd List.tl]. split.
      * intros x Hx. change (key (set_tree s' T2) x) with (key T x). change (key (set_tree s' T2) f) with (key T f). rewrite Hkf, (qi_same _ _ Q g0 x Hg) by (by right).
        split_and!; [done|by apply (qi_node _ _ Q), (mid_in G1 g0 G2); right|rewrite <- (qi_same _ _ Q g0 x Hg) by (by right); by apply (qi_time _ _ Q), (mid_in G1 g0 G2); right..].
      * intros x Hx. cbn. destruct Hr' as [Hd _]. apply list.NoDup_cons in Hd as [Hd _]. rewrite Htree; [apply (qi_rest _ _ Q g0 x Hg); by right| |by intros ->].
        intros Hh. destruct (head_of T _ Q g0 x Hg ltac:(right; by right) Hh) as (fs' & [= <- _]). apply Hne, (mid_in G1 (f :: fs) G2). by right.
  - constructor; [by apply (qi_node _ _ Q)| |].
    + cbn. rewrite Mo2; [exact Hcl|]. intros [?|Hin]%elem_of_cons; [done|].
      pose proof (sorted_NoDup _ _ (proj2 Hix)) as Hdh. apply NoDup_app in Hdh as (_ & D1 & Hdh). apply list.NoDup_cons in Hdh as [D2 _].
      apply elem_of_app in Hin as [Hin|Hin]; [apply (D1 e Hin); left|done].
    + left. cbn. destruct (list_del (same_expired T) e e). cbn in *. by subst.
  - intros x Hx. split; [cbn; apply Htree|cbn; apply Hout; intros Hin; by apply Hx, (mid_in G1 g0 G2)].
    + intros Hin. by apply Hx, (heads_in T _ Q). + by intros ->.
Qed.

(** an event that is not the first of its ring *)
Lemma del_rest T G1 h xs e ys G2 : queue_is T (G1 ++ (h :: xs ++ e :: ys) :: G2) ->
  exists T', rendezvos_timer_event_del_inner e T = (REND_SUCCESS, T') /\ queue_is T' (G1 ++ (h :: xs ++ ys) :: G2) /\ events T' = events T /\ idle T' e /\
    only (concat (G1 ++ (h :: xs ++ e :: ys) :: G2)) T T'.
Proof.
  intros Q. set (g0 := h :: xs ++ e :: ys) in *. set (gs := G1 ++ g0 :: G2) in *. assert (Hg : g0 ∈ gs) by (subst gs; set_solver).
  assert (Heg : e ∈ g0) by (subst g0; set_solver). pose proof (mid_in G1 g0 G2 e Heg) as He.
  pose proof (qi_ring _ _ Q _ Hg) as Hr. pose proof (qi_nodup _ _ Q) as Hnd. pose proof Hr as [Hdr _].
  assert (Hhe : e ∉ heads gs) by (intros Hh; destruct (head_of T _ Q g0 e Hg Heg Hh) as [fs' [= <- _]]; apply list.NoDup_cons in Hdr as [Hd _]; set_solver).
  unfold rendezvos_timer_event_del_inner.
  assert (Eh : timer_event_is_rb_head e T = false) by (apply not_true_is_false; intros E; by apply Hhe, (is_head T _ Q e He)). rewrite Eh, (rest_linked T _ Q h xs e ys Hg).
  destruct (del_ok _ _ _ _ _ Hr) as (Hr' & N1 & N2). change (list_del_init (same_expired T) e) with (list_del (same_expired T) e).
  assert (Hout : forall x, x ∉ g0 -> list_del (same_expired T) e x = same_expired T x).
  { intros x Hx. destruct (ring_around _ _ _ e Hr Heg) as (A1 & A2 & _). apply del_frame; intros ->; apply Hx; [exact Heg|exact A2|exact A1]. }
  exists (set_rings (list_del (same_expired T) e) T). split_and!; [done| |done| |].
  - apply (regroup T _ G1 [g0] [h :: xs ++ ys] G2); [exact Q|cbn [app]; rewrite heads_app; pose proof (qi_tree _ _ Q) as Hix; subst gs; by rewrite heads_app in Hix| | |].
    + intros x Hx. pose proof (in_rest_not G1 G2 g0 x Hnd Hx) as Hx0. split_and!; [done|by apply Hout|done].
    + intros g ->%list_elem_of_singleton. split; [exact Hr'|]. cbn [List.hd List.tl].
      assert (Hsub : forall x, x ∈ h :: xs ++ ys -> x ∈ g0) by (intros x; subst g0; rewrite !elem_of_cons, !elem_of_app, elem_of_cons; tauto). split.
      * intros x Hx%Hsub. split_and!; [by apply (qi_same _ _ Q g0 x Hg)|by apply (qi_node _ _ Q), (mid_in G1 g0 G2)|by apply (qi_time _ _ Q), (mid_in G1 g0 G2)..].
      * intros x Hx. apply (qi_rest _ _ Q g0 x Hg). subst g0. cbn. revert Hx. rewrite !elem_of_app, elem_of_cons. tauto.
    + eapply sublist_NoDup; [exact Hnd|]. subst gs g0. rewrite !concat_app. apply sublist_app; [done|]. cbn [concat app]. rewrite ?app_nil_r. apply sublist_skip, sublist_app; [|done]. apply sublist_app; [done|]. by apply sublist_cons.
  - constructor; [by apply (qi_node _ _ Q)|cbn; apply (qi_rest _ _ Q g0 e Hg); subst g0; cbn; set_solver|]. left. cbn. destruct (list_del (same_expired T) e e). cbn in *. by subst.
  - intros x Hx. split; [done|]. apply Hout. intros Hin. by apply Hx, (mid_in G1 g0 G2).
Qed.

Lemma del_effect T gs e : queue_is T gs -> e ∈ concat gs ->
  exists T' gs' L R, rendezvos_timer_event_del_inner e T = (REND_SUCCESS, T') /\ queue_is T' gs' /\ events T' = events T /\ idle T' e /\
    concat gs = L ++ e :: R /\ concat gs' = L ++ R /\ only (concat gs) T T'.
Proof.
  intros Q He. destruct (group_at gs e He) as (G1 & g1 & g2 & G2 & ->). destruct g1 as [|h xs]; [destruct g2 as [|f fs]|]; cbn [app] in *.
  - destruct (del_single T G1 e G2 Q) as (T' & E & Q' & Ev & Hid & Ho). eexists T', _, (concat G1), (concat G2). split_and!; [exact E|exact Q'|exact Ev|exact Hid| | |exact Ho]; by rewrite concat_app.
  - destruct (del_head T G1 e f fs G2 Q) as (T' & E & Q' & Ev & Hid & Ho). eexists T', _, (concat G1), (f :: fs ++ concat G2). split_and!; [exact E|exact Q'|exact Ev|exact Hid| | |exact Ho]; by rewrite concat_app.
  - destruct (del_rest T G1 h xs e g2 G2 Q) as (T' & E & Q' & Ev & Hid & Ho). eexists T', _, (concat G1 ++ h :: xs), (g2 ++ concat G2).
    split_and!; [exact E|exact Q'|exact Ev|exact Hid| | |exact Ho]; rewrite concat_app; cbn [concat app]; rewrite <- ?app_assoc; cbn [app]; rewrite <- ?app_assoc; done.
Qed.
Lemma del_absent T gs e : queue_is T gs -> e ∉ concat gs -> idle T e -> rendezvos_timer_event_del_inner e T = (- E_REND_NOFOUND, T).
Proof.
  intros Q He Hid. pose proof (not_linked T gs Q e He Hid) as Hl. unfold timer_event_is_linked in Hl. apply orb_false_iff in Hl as [H1 H2]. unfold rendezvos_timer_event_del_inner. by rewrite H1, H2.
Qed.
Lemma linked_iff T gs e : queue_is T gs -> (e ∈ concat gs \/ idle T e) -> timer_event_is_linked e T = bool_decide (e ∈ concat gs).
Proof.
  intros Q Hor. destruct (decide (e ∈ concat gs)) as [He|He].
  - rewrite bool_decide_true by done. unfold timer_event_is_linked. destruct (group_at gs e He) as (G1 & g1 & g2 & G2 & ->). destruct g1 as [|h xs].
    + rewrite (proj2 (is_head T _ Q e He)); [done|]. rewrite heads_app. cbn. set_solver.
    + rewrite (rest_linked T _ Q h xs e g2) by set_solver. apply orb_true_r.
  - rewrite bool_decide_false by done. apply (not_linked T gs Q e He). tauto.
Qed.
Lemma first_effect T gs : queue_is T gs -> timer_event_rb_tree_first T = List.hd NULL (concat gs).
Proof.
  intros Q. rewrite (first_ok T (heads gs) (qi_tree _ _ Q)). destruct gs as [|g gs]; [done|]. destruct (group_head T _ Q g ltac:(left)) as (h & fs & -> & _). done.
Qed.
(** the sequence is in the order of the deadlines *)
Lemma queue_sorted T gs L e R : queue_is T gs -> concat gs = L ++ e :: R -> (forall x, x ∈ L -> key T x <= key T e) /\ (forall x, x ∈ R -> key T e <= key T x).
Proof.
  intros Q E. destruct (group_at gs e) as (G1 & g1 & g2 & G2 & ->); [rewrite E; set_solver|]. pose proof (qi_nodup _ _ Q) as Hnd. set (g := g1 ++ e :: g2) in *.
  assert (Heg : e ∈ g) by (subst g; set_solver). assert (Hgg : g ∈ G1 ++ g :: G2) by set_solver.
  assert (E2 : concat (G1 ++ g :: G2) = (concat G1 ++ g1) ++ e :: (g2 ++ concat G2)) by (rewrite concat_app; subst g; cbn; by rewrite <- !app_assoc).
  rewrite E2 in Hnd, E. apply (split_unique e) in E as [<- <-]; [|exact Hnd].
  assert (Hs : forall x, x ∈ g -> key T x = key T e) by (intros x Hx; by rewrite (qi_same _ _ Q g x Hgg Hx), (qi_same _ _ Q g e Hgg Heg)).
  split; intros x [Hx|Hx]%elem_of_app.
  - destruct (group_order T G1 g G2 x e Q Heg) as [O _]. specialize (O Hx). lia.
  - rewrite (Hs x); [lia|]. subst g. set_solver.
  - rewrite (Hs x); [lia|]. subst g. set_solver.
  - destruct (group_order T G1 g G2 x e Q Heg) as [_ O]. specialize (O Hx). lia.
Qed.
