(* ===== verification/TimerIrq.v ===== *)
(** * The timer interrupt

    [fire_all] is what the interrupt means: a list of deadlines in order, of
    which the expired ones are taken from the front, a periodic or undeliverable
    event going back behind all of its new deadline.  The loop over the tree
    computes it, and ends when the clock is slow enough. *)
From S2P Require Import Prelude ListH RbTree RbInsert RbRemove Timer TimerQueue.

(** ** Moving an event *)

Lemma key_events T T' : events T' = events T -> forall x, key T' x = key T x.
Proof. intros E x. unfold key. by rewrite E. Qed.
Lemma queue_events T ev' gs : queue_is T gs -> (forall x, expired (ev' x) = key T x) -> queue_is (mk_timers (event_tree T) (same_expired T) ev') gs.
Proof.
  intros [Q1 Q2 Q3 Q4 Q5 Q6 Q7] Hk. constructor; try done.
  - cbn. apply (page_index_ext (key T)); [|done]. intros a _. by rewrite <- Hk.
  - intros g x. unfold key. cbn. rewrite !Hk. apply Q3.
  - intros x. unfold key. cbn. rewrite Hk. apply Q6.
Qed.
Lemma only_incl l l' T T' : only l T T' -> (forall x, x ∈ l -> x ∈ l') -> only l' T T'.
Proof. intros H Hi x Hx. apply H. intros Hl. by apply Hx, Hi. Qed.

Lemma change_effect T gs e k L R : queue_is T gs -> concat gs = L ++ e :: R -> periodic_gap (events T e) <> 0 \/ wait_port (events T e) <> NULL -> 0 <= k < 2 ^ 63 ->
  exists T' gs', rendezvos_timer_event_change e k T = (REND_SUCCESS, T') /\ queue_is T' gs' /\ events T' = events (set_expired e k T) /\
    added T e k (L ++ R) (concat gs') /\ only (concat gs) T T'.
Proof.
  intros Q Eq Hp Hk. unfold rendezvos_timer_event_change.
  destruct (del_effect T gs e Q) as (T1 & gs1 & L' & R' & -> & Q1 & Ev1 & Hid & E1 & E2 & Ho1); [rewrite Eq; set_solver|].
  pose proof (qi_nodup _ _ Q) as Hnd. rewrite E1 in Hnd, Eq. apply (split_unique e) in Eq as [-> ->]; [|done]. cbn [Z.eqb]. change (REND_SUCCESS =? REND_SUCCESS) with true. cbv iota.
  assert (He : e ∉ concat gs1).
  { rewrite E2. apply NoDup_app in Hnd as (_ & D1 & Hnd). apply list.NoDup_cons in Hnd as [D2 _]. rewrite elem_of_app. intros [Hx|Hx]; [apply (D1 e Hx); left|done]. }
  destruct (add_effect T1 gs1 e k Q1 He Hid) as (T' & gs' & -> & Q' & Ev & (A & B & HA & HB & H1 & H2) & Ho2); [by rewrite Ev1|done|].
  exists T', gs'. split_and!; [done|exact Q'| | |].
  - rewrite Ev. unfold set_expired, set_event. cbn. by rewrite Ev1.
  - exists A, B. rewrite <- E2. split_and!; [done|done| |]; intros x Hx; rewrite <- (key_events T T1 Ev1); [by apply H1|by apply H2].
  - eapply only_trans; [exact Ho1|]. eapply only_incl; [exact Ho2|]. rewrite E1, E2. intros x. rewrite elem_of_cons, !elem_of_app, elem_of_cons. tauto.
Qed.
Lemma fini_effect {P} `{TimerPorts P} T gs e : queue_is T gs -> (e ∈ concat gs \/ idle T e) -> periodic_gap (events T e) = 0 ->
  exists T' gs' L R, (forall st : P, rendezvos_timer_event_fini e T st =
      (if wait_port (events T e) =? NULL then Some (REND_SUCCESS, T', st) else st ← port_ref_put (wait_port (events T e)) st; Some (REND_SUCCESS, T', st))) /\
    queue_is T' gs' /\ (forall x, events T' x = events (set_wait_port e NULL T) x) /\ idle T' e /\ concat gs' = L ++ R /\ (concat gs = L ++ e :: R \/ e ∉ concat gs /\ concat gs = L ++ R) /\
    only (e :: concat gs) T T'.
Proof.
  intros Q Hor Hg.
  assert (Hgen : exists T1 gs1 L R, (if bool_decide (e ∈ concat gs) then snd (rendezvos_timer_event_del_inner e T) else T) = T1 /\ queue_is T1 gs1 /\ events T1 = events T /\ idle T1 e /\
     concat gs1 = L ++ R /\ (concat gs = L ++ e :: R \/ e ∉ concat gs /\ concat gs = L ++ R) /\ only (e :: concat gs) T T1).
  { case_bool_decide as He.
    - destruct (del_effect T gs e Q He) as (T1 & gs1 & L & R & -> & Q1 & Ev & Hid & E1 & E2 & Ho). exists T1, gs1, L, R. split_and!; [done..|by left|]. eapply only_incl; [exact Ho|]. intros x Hx. by right.
    - exists T, gs, (concat gs), []. rewrite app_nil_r. split_and!; [done|done|done|tauto|done|by right|apply only_refl]. }
  destruct Hgen as (T1 & gs1 & L & R & Ed & Q1 & Ev & Hid & E1 & E2 & Ho).
  unfold rendezvos_timer_event_fini, rendezvos_timer_event_exist_inner. rewrite Hg, (linked_iff T gs e Q Hor), Ed, Ev. cbn [Z.eqb negb].
  destruct (Z.eqb_spec (wait_port (events T e)) NULL) as [E0|E0]; cbn [negb].
  - exists T1, gs1, L, R. split_and!; [done|exact Q1| |exact Hid|exact E1|exact E2|exact Ho]. intros x. rewrite Ev. unfold set_wait_port, set_event. cbn. rewrite fn_insert_case.
    destruct (decide (e = x)) as [<-|]; [|done]. rewrite <- E0. by destruct (events T e).
  - exists (set_wait_port e NULL T1), gs1, L, R. split_and!; [done| | | |exact E1|exact E2|exact Ho].
    + apply queue_events; [done|]. intros x. unfold key. rewrite fn_insert_case. by destruct (decide (e = x)) as [<-|].
    + intros x. unfold set_wait_port, set_event. cbn. by rewrite Ev.
    + destruct Hid. by constructor.
Qed.

(** ** The interrupt over a list of deadlines *)

Fixpoint ins (k e : Z) (l : list (Z * Z)) : list (Z * Z) :=
  match l with
  | [] => [(k, e)]
  | (k', e') :: l' => if k <? k' then (k, e) :: l else (k', e') :: ins k e l'
  end.

Section Irq.
Context {P : Type} `{TimerPorts P} (clock : nat -> Z).
(** the gap, the port and the token of each event *)
Context (info : Z -> rendezvos_timer_event).
(** what the heartbeat does to the tick count *)
Context (beat : Z -> Z -> Z -> Z).

Fixpoint fire_all (fuel : nat) (l : list (Z * Z)) (n : nat) (st : P) (tick : Z) : option (list (Z * Z) * nat * P * Z) :=
  match fuel with
  | O => None
  | S fuel' =>
    match l with
    | [] => Some ([], n, st, tick)
    | (d, e) :: l' =>
      let now := clock n in
      if now <? d then Some (l, S n, st, tick)
      else if negb (periodic_gap (info e) =? 0) then fire_all fuel' (ins (now + periodic_gap (info e)) e l') (S n) st (beat e now tick)
      else
        '(err, st) ← event_kmsg (wait_port (info e)) KMSG_OP_SYSTEM_TIMER_EXPIRE (delivery_token (info e)) true st;
        if err =? REND_SUCCESS then st ← port_ref_put (wait_port (info e)) st; fire_all fuel' l' (S n) st tick
        else fire_all fuel' (ins (now + 1) e l') (S n) st tick
    end
  end.

(** the queue as a list of deadlines *)
Definition sched (T : timers) (q : list Z) : list (Z * Z) := map (fun x => (key T x, x)) q.
Lemma ins_mid k e L R : (forall x, x ∈ L -> fst x <= k) -> (forall x, x ∈ R -> k < fst x) -> ins k e (L ++ R) = L ++ (k, e) :: R.
Proof.
  intros H1 H2. induction L as [|[k' e'] L IH]; cbn [app ins].
  - destruct R as [|[k' e'] R]; [done|]. cbn [ins]. specialize (H2 (k', e') ltac:(left)). cbn in H2. by rewrite (proj2 (Z.ltb_lt _ _)).
  - pose proof (H1 (k', e') ltac:(left)) as H3. cbn in H3. rewrite (proj2 (Z.ltb_ge _ _)) by lia. rewrite IH; [done|]. intros x Hx. apply H1. by right.
Qed.
Lemma sched_ext T T' q : (forall x, x ∈ q -> key T' x = key T x) -> sched T' q = sched T q.
Proof. intros Hk. apply map_ext_in. intros x Hx%list_elem_of_In. by rewrite Hk. Qed.
Lemma sched_added T T' e k q q' : added T e k q q' -> e ∉ q -> events T' = events (set_expired e k T) -> sched T' q' = ins k e (sched T q).
Proof.
  intros (L & R & -> & -> & H1 & H2) He Ev. assert (Hk : forall x, key T' x = if decide (x = e) then k else key T x) by (intros x; rewrite <- events_set_expired; by apply key_events).
  unfold sched. rewrite !map_app. cbn [map]. rewrite ins_mid.
  - f_equal; [|f_equal]; [|by rewrite Hk, decide_True|]; apply map_ext_in; intros x Hx%list_elem_of_In; rewrite Hk, decide_False; try done; intros ->; apply He; set_solver.
  - intros x Hx. apply list_elem_of_In, in_map_iff in Hx as (y & <- & Hy%list_elem_of_In). by apply H1.
  - intros x Hx. apply list_elem_of_In, in_map_iff in Hx as (y & <- & Hy%list_elem_of_In). by apply H2.
Qed.

Definition settings (a b : rendezvos_timer_event) : Prop := periodic_gap a = periodic_gap b /\ wait_port a = wait_port b /\ delivery_token a = delivery_token b.
Record irq_ok (c : cpu_time P) (gs : list (list Z)) : Prop := {
  io_queue : queue_is (queue c) gs;
  io_info : forall x, x ∈ concat gs -> settings (events (queue c) x) (info x);
  io_armed : forall x, x ∈ concat gs -> periodic_gap (info x) <> 0 \/ wait_port (info x) <> NULL;
  io_gap : forall x, x ∈ concat gs -> 0 <= periodic_gap (info x) < 2 ^ 62
}.
Definition constants (c c' : cpu_time P) : Prop :=
  armed c' = armed c /\ boot_base_time c' = boot_base_time c /\ heartbeat_event c' = heartbeat_event c /\ clock_hz c' = clock_hz c /\ jeffy_ticks c' = jeffy_ticks c /\ heartbeat_gap c' = heartbeat_gap c.
Definition beats (c : cpu_time P) : Prop :=
  forall e now tick, beat e now tick = if (e =? heartbeat_event c) && negb (clock_hz c =? 0) then u64 (now - boot_base_time c) / jeffy_ticks c else tick.
(** what the loop leaves *)
Definition irq_done (c : cpu_time P) (gs : list (list Z)) (r : option (cpu_time P)) (a : option (list (Z * Z) * nat * P * Z)) : Prop :=
  match r, a with
  | Some c', Some (l, n, st, tick) =>
    exists gs', irq_ok c' gs' /\ l = sched (queue c') (concat gs') /\ reads c' = n /\ ker c' = st /\ tick_cnt c' = tick /\ constants c c' /\
      (forall x, x ∈ concat gs' -> x ∈ concat gs) /\ (forall x, x ∈ concat gs -> x ∉ concat gs' -> idle (queue c') x /\ wait_port (events (queue c') x) = NULL) /\
      only (concat gs) (queue c) (queue c') /\ (forall x, x ∉ concat gs -> events (queue c') x = events (queue c) x)
  | None, None => True
  | _, _ => False
  end.

Record stepped (c : cpu_time P) (gs : list (list Z)) (c1 : cpu_time P) (gs1 : list (list Z)) : Prop := {
  sp_ok : irq_ok c1 gs1;
  sp_const : constants c c1;
  sp_sub : forall x, x ∈ concat gs1 -> x ∈ concat gs;
  sp_gone : forall x, x ∈ concat gs -> x ∉ concat gs1 -> idle (queue c1) x /\ wait_port (events (queue c1) x) = NULL;
  sp_only : only (concat gs) (queue c) (queue c1);
  sp_events : forall x, x ∉ concat gs -> events (queue c1) x = events (queue c) x
}.
Lemma stepped_refl c gs c1 : irq_ok c gs -> constants c c1 -> queue c1 = queue c -> stepped c gs c1 gs.
Proof.
  intros [O1 O2 O3 O4] Hc E. constructor; [constructor; by rewrite ?E|done|done|intros x Hx Hn; by destruct Hn|rewrite E; apply only_refl|intros x _; by rewrite E].
Qed.
Lemma stepped_trans c gs c1 gs1 c2 gs2 : stepped c gs c1 gs1 -> stepped c1 gs1 c2 gs2 -> stepped c gs c2 gs2.
Proof.
  intros [A1 A2 A3 A4 A5 A6] [B1 B2 B3 B4 B5 B6]. constructor.
  - done.
  - unfold constants in *. intuition congruence.
  - intros x Hx. by apply A3, B3.
  - intros x Hx Hx2. destruct (decide (x ∈ concat gs1)) as [Hin|Hin]; [by apply B4|]. destruct (A4 x Hx Hin) as [Hid Hw].
    rewrite B6 by done. split; [|done]. by apply (only_idle (concat gs1) (queue c1)).
  - eapply only_trans; [exact A5|]. by eapply only_incl.
  - intros x Hx. rewrite B6, A6; [done|done|]. intros Hin. by apply Hx, A3.
Qed.
Lemma irq_done_eq c gs r a : irq_done c gs r a <->
  match r, a with
  | Some c', Some (l, n, st, tick) => exists gs', stepped c gs c' gs' /\ l = sched (queue c') (concat gs') /\ reads c' = n /\ ker c' = st /\ tick_cnt c' = tick
  | None, None => True
  | _, _ => False
  end.
Proof.
  unfold irq_done. destruct r as [c'|], a as [[[[l n] st] tick]|]; try done. split.
  - intros (gs' & H1 & H2 & H3 & H4 & H5 & H6 & H7 & H8 & H9 & H10). exists gs'. by split_and!.
  - intros (gs' & [H1 H2 H3 H4 H5 H6] & H7 & H8 & H9 & H10). exists gs'. by split_and!.
Qed.
Lemma irq_done_step c gs c1 gs1 r a : stepped c gs c1 gs1 -> irq_done c1 gs1 r a -> irq_done c gs r a.
Proof.
  rewrite !irq_done_eq. intros Hs. destruct r as [c'|], a as [[[[l n] st] tick]|]; try done. intros (gs' & H1 & H2). exists gs'. split; [by eapply stepped_trans|done].
Qed.

(** the first event goes back behind deadline [k] *)
Lemma resched c gs e R k : irq_ok c gs -> concat gs = e :: R -> 0 <= k < 2 ^ 63 ->
  exists T' gs', rendezvos_timer_event_change e k (queue c) = (REND_SUCCESS, T') /\
    (forall c1, constants c c1 -> queue c1 = T' -> stepped c gs c1 gs') /\ sched T' (concat gs') = ins k e (sched (queue c) R).
Proof.
  intros [O1 O2 O3 O4] Eq Hk. set (T := queue c) in *. assert (He : e ∈ concat gs) by (rewrite Eq; left).
  destruct (O2 e He) as (G1 & G2 & G3).
  destruct (change_effect T gs e k [] R O1 Eq ltac:(rewrite G1, G2; by apply O3) Hk) as (T' & gs' & E & Q' & Ev & Hadd & Ho).
  exists T', gs'. split; [done|].
  assert (Hper : forall x, x ∈ concat gs' <-> x ∈ concat gs).
  { destruct Hadd as (A & B & E1 & E2 & _). intros x. rewrite E2, Eq. cbn [app] in E1. rewrite E1, !elem_of_app, !elem_of_cons, elem_of_app. tauto. }
  assert (Hev : forall x, x <> e -> events T' x = events T x) by (intros x Hx; rewrite Ev; unfold set_expired, set_event; cbn; by rewrite fn_insert_other).
  split; [intros c1 Hc Eqc|].
  - constructor; rewrite ?Eqc; try done.
    + constructor; rewrite ?Eqc; try done; intros x Hx%Hper; [|by apply O3|by apply O4]. destruct (decide (x = e)) as [->|Hxe]; [|rewrite Hev by done; by apply O2].
      rewrite Ev. unfold set_expired, set_event. cbn. rewrite fn_insert_same. by split_and!.
    + intros x. apply Hper.
    + intros x Hx Hx'. by destruct Hx'; apply Hper.
    + intros x Hx. apply Hev. by intros ->.
  - cbn [app] in Hadd. apply (sched_added T T' e k R); [done| |done]. pose proof (qi_nodup _ _ O1) as Hnd. rewrite Eq in Hnd. by apply list.NoDup_cons in Hnd as [? _].
Qed.
(** the first event is done *)
Lemma finish c gs e R : irq_ok c gs -> concat gs = e :: R -> periodic_gap (info e) = 0 ->
  exists T' gs', (forall st, rendezvos_timer_event_fini e (queue c) st = (st' ← port_ref_put (wait_port (info e)) st; Some (REND_SUCCESS, T', st'))) /\
    (forall c1, constants c c1 -> queue c1 = T' -> stepped c gs c1 gs') /\ sched T' (concat gs') = sched (queue c) R.
Proof.
  intros [O1 O2 O3 O4] Eq Hg. set (T := queue c) in *. assert (He : e ∈ concat gs) by (rewrite Eq; left).
  destruct (O2 e He) as (G1 & G2 & G3). pose proof (qi_nodup _ _ O1) as Hnd. rewrite Eq in Hnd. apply list.NoDup_cons in Hnd as [HeR HndR].
  destruct (fini_effect T gs e O1 (or_introl He) ltac:(by rewrite G1)) as (T' & gs' & L & R' & E & Q' & Ev & Hid & E1 & E2 & Ho).
  destruct E2 as [E2|[? _]]; [|done]. rewrite Eq in E2. apply (split_unique e [] R) in E2 as [<- <-]; [|by apply list.NoDup_cons]. cbn [app] in E1.
  destruct (O3 e He) as [?|Hw]; [done|]. rewrite G2, (proj2 (Z.eqb_neq _ _) Hw) in E. exists T', gs'. split; [exact E|].
  assert (Hev : forall x, x <> e -> events T' x = events T x) by (intros x Hx; rewrite Ev; unfold set_wait_port, set_event; cbn; by rewrite fn_insert_other).
  assert (Hwe : events T' e = mk_event (expired (events T e)) (periodic_gap (events T e)) NULL (delivery_token (events T e))) by (rewrite Ev; unfold set_wait_port, set_event; cbn; by rewrite fn_insert_same).
  assert (Hsub : forall x, x ∈ concat gs' -> x ∈ concat gs /\ x <> e) by (intros x; rewrite E1, Eq; intros Hx; split; [by right|by intros ->]).
  split; [intros c1 Hc Eqc|].
  - constructor; rewrite ?Eqc; try done.
    + constructor; rewrite ?Eqc; try done; intros x [Hx Hxe]%Hsub; [rewrite Hev by done; by apply O2|by apply O3|by apply O4].
    + intros x Hx. by apply Hsub.
    + intros x Hx Hx'. assert (Exe : x = e); [|subst x; split; [exact Hid|by rewrite Hwe]]. rewrite Eq in Hx. apply elem_of_cons in Hx as [->|Hx]; [done|]. exfalso. apply Hx'. by rewrite E1.
    + intros x Hx. apply Ho. intros [->|?]%elem_of_cons; done.
    + intros x Hx. apply Hev. by intros ->.
  - rewrite E1. apply sched_ext. intros x Hx. unfold key. rewrite Hev; [done|]. by intros ->.
Qed.

(** ** The loop computes [fire_all] *)

Lemma first_sched c gs e R : irq_ok c gs -> concat gs = e :: R -> timer_event_rb_tree_first (queue c) = e /\ e <> NULL /\ 0 <= key (queue c) e < 2 ^ 63.
Proof.
  intros O Eq. rewrite (first_effect _ gs (io_queue _ _ O)), Eq. assert (He : e ∈ concat gs) by (rewrite Eq; left).
  split_and!; [done|by apply node_nonnull, (qi_node _ _ (io_queue _ _ O))|by apply (qi_time _ _ (io_queue _ _ O))..].
Qed.
Lemma loop_refines fuel : forall c gs, (forall m, (reads c <= m < reads c + fuel)%nat -> 0 <= clock m < 2 ^ 62) -> irq_ok c gs -> beats c ->
  irq_done c gs (irq_loop clock fuel c) (fire_all fuel (sched (queue c) (concat gs)) (reads c) (ker c) (tick_cnt c)).
Proof.
  induction fuel as [|fuel IH]; intros c gs Hclk O Hb; [done|]. cbn [irq_loop fire_all].
  assert (Hclk' : forall m, (S (reads c) <= m < S (reads c) + fuel)%nat -> 0 <= clock m < 2 ^ 62) by (intros m Hm; apply Hclk; lia).
  assert (Hstay : forall c1, constants c c1 -> queue c1 = queue c -> stepped c gs c1 gs) by (intros; by apply stepped_refl).
  assert (Hbs : forall c1, constants c c1 -> beats c1) by (intros c1 (_ & E1 & E2 & E3 & E4 & _) e now tick; rewrite E1, E2, E3, E4; apply Hb).
  destruct (concat gs) as [|e R] eqn:Eq.
  { rewrite (first_effect _ gs (io_queue _ _ O)), Eq. cbn [List.hd sched map]. change (NULL =? NULL) with true. cbv iota. apply irq_done_eq. exists gs. split_and!; [by apply Hstay|by rewrite Eq|done..]. }
  destruct (first_sched c gs e R O Eq) as (-> & Hz & Hke). rewrite (proj2 (Z.eqb_neq e NULL) Hz). cbn [sched map]. fold (sched (queue c) R).
  unfold arch_timer_read. set (now := clock (reads c)). set (c1 := mk_time _ _ _ _ _ _ _ _ _ _). pose proof (Hclk (reads c) ltac:(lia)) as Hn. fold now in Hn.
  assert (Hc1 : constants c c1) by (by split_and!). change (queue c1) with (queue c). change (expired (events (queue c) e)) with (key (queue c) e). rewrite before_lt by lia.
  destruct (Z.ltb_spec now (key (queue c) e)) as [Hlt|Hge].
  { apply irq_done_eq. exists gs. split_and!; [by apply Hstay|by rewrite Eq|done..]. }
  assert (He : e ∈ concat gs) by (rewrite Eq; left). destruct (io_info _ _ O e He) as (G1 & G2 & G3). pose proof (io_gap _ _ O e He) as Hgap.
  unfold fire. change (queue c1) with (queue c). rewrite G1, G2, G3. destruct (Z.eqb_spec (periodic_gap (info e)) 0) as [Hg0|Hg0]; cbn [negb].
  - change (ker c1) with (ker c). destruct (event_kmsg _ _ _ _ (ker c)) as [[err st]|]; [|done]. cbn [mbind option_bind]. destruct (err =? REND_SUCCESS).
    + destruct (finish c gs e R O Eq Hg0) as (T' & gs' & -> & Hs & Hsc). destruct (port_ref_put _ st) as [st'|]; [|done]. cbn [mbind option_bind]. rewrite <- Hsc.
      set (c2 := set_queue T' (set_ker st' c1)). eapply (irq_done_step c gs c2 gs'); [by apply Hs|]. apply (IH c2 gs'); [exact Hclk'|by apply (sp_ok c gs), Hs|by apply Hbs].
    + rewrite u64_small by lia. destruct (resched c gs e R (now + 1) O Eq ltac:(lia)) as (T' & gs' & -> & Hs & <-).
      set (c2 := set_queue T' (set_ker st c1)). eapply (irq_done_step c gs c2 gs'); [by apply Hs|]. apply (IH c2 gs'); [exact Hclk'|by apply (sp_ok c gs), Hs|by apply Hbs].
  - rewrite u64_small by lia. destruct (resched c gs e R (now + periodic_gap (info e)) O Eq ltac:(lia)) as (T' & gs' & -> & Hs & <-). cbn [mbind option_bind].
    set (c2 := set_queue T' c1). assert (Hc2 : constants c c2) by (by split_and!). rewrite (Hb e now (tick_cnt c)).
    change (heartbeat_event c2) with (heartbeat_event c). change (clock_hz c2) with (clock_hz c). change (boot_base_time c2) with (boot_base_time c). change (jeffy_ticks c2) with (jeffy_ticks c).
    destruct ((e =? heartbeat_event c) && negb (clock_hz c =? 0)).
    + set (c3 := set_tick_cnt _ c2). eapply (irq_done_step c gs c3 gs'); [by apply Hs|]. apply (IH c3 gs'); [exact Hclk'|by apply (sp_ok c gs), Hs|by apply Hbs].
    + eapply (irq_done_step c gs c2 gs'); [by apply Hs|]. apply (IH c2 gs'); [exact Hclk'|by apply (sp_ok c gs), Hs|by apply Hbs].
Qed.

(** ** The loop ends

    [ok]: states of the ports in which their operations return *)
Context (ok : P -> Prop).
Definition ports_return : Prop :=
  (forall p op tok b st, ok st -> exists err st', event_kmsg p op tok b st = Some (err, st') /\ ok st') /\
  (forall p st, ok st -> exists st', port_ref_put p st = Some st' /\ ok st').

(** how many rounds an event of deadline [d] can take while the clock is between [lo] and [hi] *)
Definition rounds_for (lo hi d : Z) : Z := Z.max 0 (hi + 1 - Z.max d lo).
Definition rounds_of (lo hi : Z) (l : list (Z * Z)) : Z := sumZ (fun p => rounds_for lo hi (fst p)) l.
Lemma rounds_ins lo hi k e l : rounds_of lo hi (ins k e l) = rounds_for lo hi k + rounds_of lo hi l.
Proof. unfold rounds_of. induction l as [|[k' e'] l IH]; cbn [ins]; [done|]. destruct (k <? k'); [done|]. cbn in *. lia. Qed.
Lemma rounds_nonneg lo hi l : 0 <= rounds_of lo hi l.
Proof. unfold rounds_of. induction l as [|[k e] l IH]; cbn in *; [lia|]. unfold rounds_for in *. lia. Qed.
Lemma rounds_bound lo hi l : lo <= hi -> rounds_of lo hi l <= Z.of_nat (length l) * (hi - lo + 1).
Proof. intros Hl. unfold rounds_of. induction l as [|[k e] l IH]; cbn in *; [lia|]. unfold rounds_for in *. lia. Qed.
Lemma in_ins k e l p : p ∈ ins k e l <-> p = (k, e) \/ p ∈ l.
Proof.
  induction l as [|[k' e'] l IH]; cbn [ins]; [rewrite list_elem_of_singleton; set_solver|]. case_bool; [by rewrite elem_of_cons|]. rewrite !elem_of_cons, IH. tauto.
Qed.

Lemma fire_all_ends lo hi fuel : ports_return -> forall l n st tick, ok st -> (forall d e, (d, e) ∈ l -> 0 <= periodic_gap (info e)) ->
  (forall m, (n <= m < n + fuel)%nat -> lo <= clock m <= hi) -> rounds_of lo hi l < Z.of_nat fuel ->
  exists l' n' st' tick', fire_all fuel l n st tick = Some (l', n', st', tick') /\ ok st' /\ (n <= n' <= n + fuel)%nat /\
    (l' = [] \/ exists d e r m, l' = (d, e) :: r /\ n' = S m /\ lo <= clock m <= hi /\ clock m < d) /\
    (forall p, p ∈ l -> hi < fst p -> p ∈ l') /\ (forall d e, (d, e) ∈ l -> periodic_gap (info e) <> 0 -> exists d', (d', e) ∈ l').
Proof.
  intros [Hp1 Hp2]. induction fuel as [|fuel IH]; intros l n st tick Hok Hg Hc Hf.
  { exfalso. pose proof (rounds_nonneg lo hi l). lia. }
  cbn [fire_all]. destruct l as [|[d e] l].
  { exists [], n, st, tick. split_and!; [done|done|lia|lia|by left|intros p Hp; by apply elem_of_nil in Hp|intros ? ? Hp; by apply elem_of_nil in Hp]. }
  pose proof (Hc n ltac:(lia)) as Hn. destruct (Z.ltb_spec (clock n) d) as [Hlt|Hge].
  { exists ((d, e) :: l), (S n), st, tick. split_and!; [done|done|lia|lia|right; by exists d, e, l, n|done|intros d' e' Hp _; by exists d']. }
  assert (Hrd : rounds_of lo hi ((d, e) :: l) = rounds_for lo hi d + rounds_of lo hi l) by done.
  assert (Hg' : forall d e, (d, e) ∈ l -> 0 <= periodic_gap (info e)) by (intros d' e' Hp; apply (Hg d'); by right).
  (* the event goes back behind deadline [k] *)
  assert (Hback : forall k st tick, clock n < k -> ok st -> exists l' n' st' tick', fire_all fuel (ins k e l) (S n) st tick = Some (l', n', st', tick') /\ ok st' /\ (n <= n' <= n + S fuel)%nat /\
    (l' = [] \/ exists d e r m, l' = (d, e) :: r /\ n' = S m /\ lo <= clock m <= hi /\ clock m < d) /\
    (forall p, p ∈ (d, e) :: l -> hi < fst p -> p ∈ l') /\ (forall d' e', (d', e') ∈ (d, e) :: l -> periodic_gap (info e') <> 0 -> exists d'', (d'', e') ∈ l')).
  { intros k st0 tick0 Hk Hok0. destruct (IH (ins k e l) (S n) st0 tick0 Hok0) as (l' & n' & st' & tick' & E & H1 & H2 & H3 & H4 & H5).
    - intros d' e' [[= -> ->]|Hp]%in_ins; [apply (Hg d); left|by apply (Hg' d')].
    - intros m Hm. apply Hc. lia.
    - rewrite rounds_ins. unfold rounds_for in *. lia.
    - exists l', n', st', tick'. split_and!; [done|done|lia|lia|done| |].
      + intros p [->|Hp]%elem_of_cons Hh; [cbn in Hh; lia|]. apply H4; [|done]. apply in_ins. by right.
      + intros d' e' [[= -> ->]|Hp]%elem_of_cons Hne; [apply (H5 k)|apply (H5 d')]; try done; apply in_ins; tauto. }
  destruct (Z.eqb_spec (periodic_gap (info e)) 0) as [Hg0|Hg0]; cbn [negb].
  - destruct (Hp1 (wait_port (info e)) KMSG_OP_SYSTEM_TIMER_EXPIRE (delivery_token (info e)) true st Hok) as (err & st1 & -> & Hok1). cbn [mbind option_bind]. destruct (err =? REND_SUCCESS).
    + destruct (Hp2 (wait_port (info e)) st1 Hok1) as (st2 & -> & Hok2). cbn [mbind option_bind].
      destruct (IH l (S n) st2 tick Hok2 Hg') as (l' & n' & st' & tick' & E & H1 & H2 & H3 & H4 & H5); [intros m Hm; apply Hc; lia|unfold rounds_for in *; lia|].
      exists l', n', st', tick'. split_and!; [done|done|lia|lia|done| |].
      * intros p [->|Hp]%elem_of_cons Hh; [cbn in Hh; lia|by apply H4].
      * intros d' e' [[= -> ->]|Hp]%elem_of_cons Hne; [done|by apply (H5 d')].
    + apply Hback; [lia|done].
  - apply Hback; [|done]. pose proof (Hg d e ltac:(left)). lia.
Qed.
End Irq.

(** ** The whole interrupt *)

(** [q]: the queued events in the order they fire *)
Definition timer_queue (T : timers) (q : list Z) : Prop :=
  exists gs, q = concat gs /\ queue_is T gs /\ forall x, x ∈ q -> (periodic_gap (events T x) <> 0 \/ wait_port (events T x) <> NULL) /\ 0 <= periodic_gap (events T x) < 2 ^ 62.

Section Whole.
Context {P : Type} `{TimerPorts P} (clock : nat -> Z) (ok : P -> Prop).
Definition heartbeat (c : cpu_time P) (e now tick : Z) : Z :=
  if (e =? heartbeat_event c) && negb (clock_hz c =? 0) then u64 (now - boot_base_time c) / jeffy_ticks c else tick.

Lemma irq_effect c q lo hi fuel : timer_queue (queue c) q -> ports_return ok -> ok (ker c) -> 0 <= lo -> hi < 2 ^ 62 ->
  (forall m, (reads c <= m <= reads c + fuel)%nat -> lo <= clock m <= hi) -> Z.of_nat (length q) * (hi - lo + 1) < Z.of_nat fuel ->
  exists c' q' n t g, rendezvos_do_time_irq clock fuel c = Some c' /\ timer_queue (queue c') q' /\ ok (ker c') /\
    fire_all clock (events (queue c)) (heartbeat c) fuel (sched (queue c) q) (reads c) (ker c) (tick_cnt c) = Some (sched (queue c') q', n, ker c', tick_cnt c') /\
    lo <= t <= hi /\ (forall x, x ∈ q' -> t < key (queue c') x) /\
    (forall x, x ∈ q' -> x ∈ q) /\ (forall x, x ∈ q -> hi < key (queue c) x \/ periodic_gap (events (queue c) x) <> 0 -> x ∈ q') /\
    (forall x, x ∈ q -> x ∉ q' -> idle (queue c') x /\ wait_port (events (queue c') x) = NULL) /\ only q (queue c) (queue c') /\
    armed c' = armed c ++ [g] /\ g = match q' with [] => heartbeat_gap c | x :: _ => Z.max 1 (key (queue c') x - clock n) end.
Proof.
  intros (gs & -> & Q & Hq) Hpr Hok Hlo Hhi Hwin Hf.
  assert (O : irq_ok (events (queue c)) c gs) by (constructor; [exact Q|done|by apply Hq|by apply Hq]).
  pose proof (loop_refines clock (events (queue c)) (heartbeat c) fuel c gs ltac:(intros m Hm; specialize (Hwin m ltac:(lia)); lia) O ltac:(by intros e now tick)) as Hr.
  assert (Hlh : lo <= hi) by (pose proof (Hwin (reads c) ltac:(lia)); lia).
  assert (Hlen : length (sched (queue c) (concat gs)) = length (concat gs)) by apply length_map.
  destruct (fire_all_ends clock (events (queue c)) (heartbeat c) ok lo hi fuel Hpr (sched (queue c) (concat gs)) (reads c) (ker c) (tick_cnt c) Hok) as (l' & n & st' & tick' & E & Hok' & Hn & Hlast & Hkeep & Hper).
  - intros d e He. apply list_elem_of_In, in_map_iff in He as (x & [= _ <-] & Hx%list_elem_of_In). by apply Hq.
  - intros m Hm. apply Hwin. lia.
  - pose proof (rounds_bound lo hi (sched (queue c) (concat gs)) Hlh). lia.
  - rewrite E in Hr |- *. unfold rendezvos_do_time_irq. destruct (irq_loop clock fuel c) as [c'|]; [|done].
    destruct Hr as (gs' & O' & -> & <- & <- & <- & (Ec & _ & _ & _ & _ & Eg) & Hsub & Hgone & Honly & _). cbn [mbind option_bind]. unfold arch_timer_read.
    set (c1 := mk_time _ _ _ _ _ _ _ _ _ _). change (queue c1) with (queue c'). change (heartbeat_gap c1) with (heartbeat_gap c').
    rewrite (first_effect _ gs' (io_queue _ _ _ O')). pose proof (Hwin (reads c') ltac:(lia)) as Hnow. set (now := clock (reads c')) in *.
    set (next := List.hd NULL (concat gs')).
    set (g := match concat gs' with [] => heartbeat_gap c | x :: _ => Z.max 1 (key (queue c') x - now) end).
    assert (Egap : (if next =? NULL then Some (arch_reset_timer (heartbeat_gap c') c1) else
       let next_event_gap := if time_before now (expired (events (queue c') next)) then u64 (expired (events (queue c') next) - now) else 1 in Some (arch_reset_timer next_event_gap c1)) = Some (arch_reset_timer g c1)).
    { subst next g. destruct (concat gs') as [|x r] eqn:Eq; cbn [List.hd]; [by rewrite Eg|].
      destruct (first_sched (events (queue c)) c' gs' x r O' Eq) as (_ & Hz & Hk). rewrite (proj2 (Z.eqb_neq x NULL) Hz). cbv zeta. change (expired (events (queue c') x)) with (key (queue c') x).
      rewrite before_lt by lia. apply (f_equal (fun v => Some (arch_reset_timer v c1))). destruct (Z.ltb_spec now (key (queue c') x)); [rewrite u64_small by lia|]; lia. }
    exists (arch_reset_timer g c1), (concat gs'), (reads c').
    assert (Ht : exists t, lo <= t <= hi /\ forall x, x ∈ concat gs' -> t < key (queue c') x).
    { destruct Hlast as [El|(d & e & r & m & El & _ & Hm & Hd)].
      - exists lo. split; [lia|]. destruct (concat gs'); [|done]. intros x Hx. by apply elem_of_nil in Hx.
      - exists (clock m). split; [done|]. destruct (concat gs') as [|x0 r0] eqn:Eq; [done|]. injection El as <- <- _. intros x [->|Hx]%elem_of_cons; [done|].
        destruct (queue_sorted (queue c') gs' [] x0 r0 (io_queue _ _ _ O') Eq) as [_ Hs]. specialize (Hs x Hx). lia. }
    destruct Ht as (t & Ht1 & Ht2). exists t, g. split; [exact Egap|]. split_and!; try done.
    + exists gs'. split_and!; [done|exact (io_queue _ _ _ O')|]. intros x Hx. destruct (io_info _ _ _ O' x Hx) as (I1 & I2 & _).
      change (queue (arch_reset_timer g c1)) with (queue c'). rewrite I1, I2. apply Hq. by apply Hsub.
    + by apply Ht1. + by apply Ht1.
    + intros x Hx Hor. assert (Hin : (key (queue c) x, x) ∈ sched (queue c) (concat gs)) by (apply list_elem_of_In, in_map_iff; exists x; by rewrite <- list_elem_of_In).
      assert (Hex : exists d, (d, x) ∈ sched (queue c') (concat gs')) by (destruct Hor as [Hh|Hp]; [exists (key (queue c) x); by apply Hkeep|by apply (Hper (key (queue c) x))]).
      destruct Hex as [d Hd]. apply list_elem_of_In, in_map_iff in Hd as (y & [= _ <-] & Hy%list_elem_of_In). done.
    + cbn. by rewrite Ec.
Qed.

(** start-up: the heartbeat alone is queued, one gap after the boot time *)
Lemma queue_empty T : rb_root (event_tree T) = NULL -> queue_is T [].
Proof.
  intros Hr. constructor; try (intros ? ?; set_solver); try (intros ? ? ?; set_solver).
  - split; [|constructor]. exists Leaf. split_and!; [done|done| |done]. split; [done|]. exists 0. constructor.
  - constructor.
Qed.
Lemma time_init_effect is_bsp gap hz c : node_addr (heartbeat_event c) -> 0 <= gap < 2 ^ 62 -> 0 <= clock (reads c) < 2 ^ 62 ->
  if gap =? 0 then rendezvos_time_init clock is_bsp gap hz c = None
  else exists c', rendezvos_time_init clock is_bsp gap hz c = Some c' /\ timer_queue (queue c') [heartbeat_event c] /\
    key (queue c') (heartbeat_event c) = clock (reads c) + gap /\ boot_base_time c' = clock (reads c) /\ tick_cnt c' = 0 /\ ker c' = ker c.
Proof.
  intros Hn Hg Hc. unfold rendezvos_time_init, arch_timer_read, rendezvos_timer_event_init. cbn [heartbeat_event boot_base_time ker reads queue].
  rewrite (proj2 (Z.eqb_neq _ NULL) (node_nonnull _ Hn)). destruct (Z.eqb_spec gap 0) as [->|Hg0]; [done|]. cbn [andb negb orb].
  change (NULL =? NULL) with true. cbn [andb negb]. change (negb (REND_SUCCESS =? REND_SUCCESS)) with false. cbv iota.
  set (h := heartbeat_event c) in *. set (T := set_event h _ _).
  assert (Q : queue_is T []) by by apply queue_empty.
  assert (Eh : events T h = mk_event 0 gap NULL 0) by (unfold T, set_event, set_rings, clear_event; cbn; by rewrite !fn_insert_same).
  assert (Hid : idle T h).
  { constructor; [done|unfold T; cbn; by rewrite fn_insert_same|]. left. unfold T. cbn. unfold INIT_LIST_HEAD, set_next, set_prev. by rewrite Z.eqb_refl. }
  clearbody T. rewrite u64_small by lia.
  destruct (add_effect T [] h (clock (reads c) + gap) Q ltac:(cbn; set_solver) Hid ltac:(rewrite Eh; by left) ltac:(lia)) as (T' & gs' & E & Q' & Ev & (L & R & E1 & E2 & _) & _).
  unfold rendezvos_timer_event_add. rewrite E. change (negb (REND_SUCCESS =? REND_SUCCESS)) with false. cbv iota.
  symmetry in E1. apply app_eq_nil in E1 as [-> ->]. cbn [app] in E2.
  assert (Hq : timer_queue T' [h]).
  { exists gs'. split_and!; [done|done|]. intros x ->%list_elem_of_singleton. rewrite Ev. unfold set_expired, set_event. cbn. rewrite fn_insert_same, Eh. cbn. split; [by left|lia]. }
  assert (Hk : key T' h = clock (reads c) + gap) by (unfold key; rewrite Ev; unfold set_expired, set_event; cbn; by rewrite fn_insert_same).
  destruct is_bsp; eexists; (split; [reflexivity|]); split_and!; done.
Qed.
End Whole.
