(* ===== verification/TimerIpc.v ===== *)
(** * Timer events as messages

    [timer_event_deliver_kmsg] of [kernel/time/time.c], and the timers' view of
    ports and messages implemented by the IPC core. *)
From S2P Require Import Prelude ThreadStatus Mm CString ListH RbTree Allocator IpcSerial Refcount MsQueue Message IpcState Ipc IpcWait Port Timer.

(** ["q"] *)
Definition KMSG_FMT_SYSTEM_TIMER : cstr := [113].

Section TimerIpc.
Context {A : Type} `{HA : Allocator A} (hooks : Z -> port_append_hooks A) (drain_fuel fuel : nat).
Implicit Types st : istate A.

Definition timer_event_deliver_kmsg (port opcode token : Z) (use_system_proxy : bool) st : option (Z * istate A) :=
  '(msgdata, m) ← kmsg_create default_only (mem st) (service_id (port_at st port)) opcode (Some KMSG_FMT_SYSTEM_TIMER) [ArgQ (i64 token)];
  let st := set_mem m st in
  if msgdata =? NULL then Some (- E_REND_IPC, st)
  else
    let '(msg, m) := create_message_with_msg (mem st) msgdata in
    let '(_, m) := put_data default_only m msgdata FN_free_msgdata_ref_default in
    let st := set_mem m st in
    if msg =? NULL then Some (- E_REND_IPC, st) else ipc_system_try_deliver hooks port msg use_system_proxy fuel st.

#[export] Instance ipc_timer_ports : TimerPorts (istate A) := {
  port_ref_get := get_port;
  port_ref_put := put_port hooks drain_fuel;
  event_kmsg := timer_event_deliver_kmsg
}.
End TimerIpc.

(** ** Runs *)

(** the event at 64 is due at 500 on [PORT], where [RECEIVER] waits; [SENDER]
    stands in for the idle thread *)
Definition with_idle (t : Z) (st : istate bump) : istate bump :=
  mk_is (mem st) (msg_next st) (reqs st) (threads st) (ports st) (core_tm st) (current_thread st) t (retired st) (thread_frees st).
Definition one_event : timers :=
  snd (rendezvos_timer_event_add 64 500 (mk_timers (mk_rbs (fun _ => mk_rb 0 0 NULL NULL) NULL) (fun _ => mk_le NULL NULL) (fun _ => mk_event 0 0 PORT 5))).
Definition due (st : istate bump) : cpu_time (istate bump) := mk_time one_event (snd (get_port PORT st)) 0 0 [] 0 0 1000 10 1000.

(** the interrupt hands the message to the waiting thread, wakes it and lets go
    of the port *)
Example timer_wakes_receiver :
  match rendezvos_do_time_irq (P := istate bump) (H := ipc_timer_ports no_hooks 4 4) (fun _ => 700) 3 (due (with_idle SENDER demo_waiting)) with
  | Some c =>
    t_status (thread_at (ker c) RECEIVER) = thread_status_ready /\ recv_pending_cnt (thread_at (ker c) RECEIVER) = 1 /\
    current_thread (ker c) = SENDER /\ p_refcount (port_at (ker c) PORT) = 1 /\ timer_event_rb_tree_first (queue c) = NULL
  | None => False
  end.
Proof. vm_compute. by repeat split. Qed.

(** a delivery that fails before the message is staged leaves it with the caller, which drops it *)
Example undelivered_message_leaks :
  match timer_event_deliver_kmsg no_hooks 4 PORT KMSG_OP_SYSTEM_TIMER_EXPIRE 5 true demo_waiting with
  | Some (err, st) => err = - E_REND_AGAIN /\ retired st = [] /\
      exists m, msgs (mem demo_waiting) !! m = None /\ msg_refcount <$> msgs (mem st) !! m = Some 1
  | None => False
  end.
Proof. vm_compute. split; [reflexivity|]. split; [reflexivity|]. exists 1048645. split; reflexivity. Qed.
