(* ===== verification/TimerSpec.v ===== *)
(** * What the timers promise

    Adding and removing events, the interrupt, and the conversions between ticks
    and time, with an instance of each; and the runs that show where the code
    goes wrong. *)
From S2P Require Import Prelude ListH RbTree RbInsert RbRemove Timer TimerQueue TimerIrq.

(** [rendezvos_timer_event_add] puts an event that is not queued behind all
    events that are due no later and before all later ones, and changes no other
    event; a queued event, or one with neither gap nor port, is refused and
    nothing changes. *)
Theorem timer_add_spec T q e k : timer_queue T q -> (e ∈ q \/ idle T e) -> 0 <= periodic_gap (events T e) < 2 ^ 62 -> 0 <= k < 2 ^ 63 ->
  exists err T', rendezvos_timer_event_add e k T = (err, T') /\
    if bool_decide (e ∈ q) || (periodic_gap (events T e) =? 0) && (wait_port (events T e) =? NULL) then err = - E_IN_PARAM /\ T' = T
    else err = REND_SUCCESS /\ exists q', timer_queue T' q' /\ added T e k q q' /\ events T' = events (set_expired e k T) /\ only (e :: q) T T'.
Proof.
  intros (gs & -> & Q & Hq) Hor Hg Hk. unfold rendezvos_timer_event_add.
  destruct (bool_decide (e ∈ concat gs)) eqn:Hin; cbn [orb].
  { exists (- E_IN_PARAM), T. split; [|done]. unfold rendezvos_timer_event_add_inner. by rewrite (linked_iff T gs e Q Hor), Hin. }
  apply bool_decide_eq_false in Hin. destruct Hor as [?|Hid]; [done|].
  destruct ((periodic_gap (events T e) =? 0) && (wait_port (events T e) =? NULL)) eqn:Ep.
  { exists (- E_IN_PARAM), T. split; [|done]. unfold rendezvos_timer_event_add_inner. by rewrite (not_linked T gs Q e Hin Hid), Ep. }
  assert (Hp : periodic_gap (events T e) <> 0 \/ wait_port (events T e) <> NULL) by (apply andb_false_iff in Ep; rewrite !Z.eqb_neq in Ep; tauto).
  destruct (add_effect T gs e k Q Hin Hid Hp Hk) as (T' & gs' & E & Q' & Ev & Hadd & Ho).
  exists REND_SUCCESS, T'. split; [done|]. split; [done|]. exists (concat gs'). split; [|by split_and!].
  exists gs'. split_and!; [done|done|]. intros x Hx. destruct Hadd as (L & R & E1 & E2 & _). rewrite Ev. unfold set_expired, set_event. cbn.
  rewrite fn_insert_case. destruct (decide (e = x)) as [<-|Hne]; [done|]. apply Hq. rewrite E1. rewrite E2 in Hx. set_solver.
Qed.

(** C32 [rendezvos_timer_event_del] takes a queued event out, wherever it is: first
    of its deadline, alone, or behind others; the order of the rest stays and
    the event can be added again.  An event that is not queued is reported. *)
Theorem timer_del_spec T q e : timer_queue T q -> (e ∈ q \/ idle T e) ->
  exists err T', rendezvos_timer_event_del e T = (err, T') /\
    if bool_decide (e ∈ q) then err = REND_SUCCESS /\ idle T' e /\ events T' = events T /\ only q T T' /\ exists L R, q = L ++ e :: R /\ timer_queue T' (L ++ R)
    else err = - E_REND_NOFOUND /\ T' = T.
Proof.
  intros (gs & -> & Q & Hq) Hor. unfold rendezvos_timer_event_del. case_bool_decide as Hin.
  - destruct (del_effect T gs e Q Hin) as (T' & gs' & L & R & E & Q' & Ev & Hid & E1 & E2 & Ho). exists REND_SUCCESS, T'. split; [done|]. split_and!; [done..|].
    exists L, R. split; [done|]. exists gs'. split_and!; [done|done|]. intros x Hx. rewrite Ev. apply Hq. rewrite E1. set_solver.
  - destruct Hor as [?|Hid]; [done|]. exists (- E_REND_NOFOUND), T. split; [by apply (del_absent T gs)|done].
Qed.

Section Irq.
Context {P : Type} `{TimerPorts P} (clock : nat -> Z) (ok : P -> Prop).

(** C22 The timer interrupt ends when the clock is slow against its loop (fewer
    than [fuel] rounds for each queued event and tick that passes).  It does to
    the queue what [fire_all] does to a list of deadlines: events fire in order,
    periodic ones come back, one-shots leave with their port released or, when
    the delivery fails, are due again at the next tick.  At some time read in the
    interrupt nothing in the queue was due any more, no event that was not due
    is gone, no periodic event is ever lost, and the hardware is programmed for
    the first deadline left, never for zero ticks. *)
Theorem timer_irq_spec c q lo hi fuel : timer_queue (queue c) q -> ports_return ok -> ok (ker c) -> 0 <= lo -> hi < 2 ^ 62 ->
  (forall m, (reads c <= m <= reads c + fuel)%nat -> lo <= clock m <= hi) -> Z.of_nat (length q) * (hi - lo + 1) < Z.of_nat fuel ->
  exists c' q' n t g, rendezvos_do_time_irq clock fuel c = Some c' /\ timer_queue (queue c') q' /\ ok (ker c') /\
    fire_all clock (events (queue c)) (heartbeat c) fuel (sched (queue c) q) (reads c) (ker c) (tick_cnt c) = Some (sched (queue c') q', n, ker c', tick_cnt c') /\
    lo <= t <= hi /\ (forall x, x ∈ q' -> t < key (queue c') x) /\
    (forall x, x ∈ q' -> x ∈ q) /\ (forall x, x ∈ q -> hi < key (queue c) x \/ periodic_gap (events (queue c) x) <> 0 -> x ∈ q') /\
    (forall x, x ∈ q -> x ∉ q' -> idle (queue c') x /\ wait_port (events (queue c') x) = NULL) /\ only q (queue c) (queue c') /\
    armed c' = armed c ++ [g] /\ g = match q' with [] => heartbeat_gap c | x :: _ => Z.max 1 (key (queue c') x - clock n) end.
Proof. apply irq_effect. Qed.
End Irq.

(** ** Units *)

Lemma split_scale count hz m : 0 < hz -> 0 <= count -> 0 < m -> count / hz * m + count mod hz * m / hz = count * m / hz.
Proof.
  intros Hh Hc Hm. pose proof (Z.div_mod count hz ltac:(lia)) as E. rewrite E at 3. replace ((hz * (count / hz) + count mod hz) * m) with (count mod hz * m + count / hz * m * hz) by ring.
  rewrite Z.div_add by lia. lia.
Qed.
Lemma scale_back count hz m : 0 < hz -> 0 <= count -> 0 < m -> count - hz / m - 1 <= count * m / hz * hz / m <= count.
Proof.
  intros Hh Hc Hm. pose proof (Z.mul_div_le (count * m) hz Hh) as H1. pose proof (Z.mul_succ_div_gt (count * m) hz Hh) as H2.
  set (x := count * m / hz) in *. pose proof (Z.div_mod hz m ltac:(lia)) as H3. pose proof (Z.mod_pos_bound hz m Hm) as H4. split.
  - apply Z.div_le_lower_bound; nia.
  - apply Z.div_le_upper_bound; nia.
Qed.
Lemma to_unit hz count m : 0 < hz < 2 ^ 64 -> 0 <= count -> 0 < m -> count * m < 2 ^ 64 ->
  u64 (u64 (count / hz * m) + u64 (count mod hz * m) / hz) = count * m / hz /\ u64 (count * m / hz * hz) = count * m / hz * hz.
Proof.
  intros Hh Hc Hm Hb. pose proof (Z.div_mod count hz ltac:(lia)) as E. pose proof (Z.mod_pos_bound count hz ltac:(lia)) as M. pose proof (Z.div_pos count hz ltac:(lia) ltac:(lia)) as D.
  pose proof (Z.mul_div_le (count * m) hz ltac:(lia)) as H1. pose proof (Z.div_pos (count * m) hz ltac:(nia) ltac:(lia)) as H2.
  rewrite <- (split_scale count hz m) in H1, H2 |- * by lia. pose proof (Z.div_pos (count mod hz * m) hz ltac:(nia) ltac:(lia)).
  assert (count / hz <= count) by nia. rewrite (u64_small (count / hz * m)), (u64_small (count mod hz * m)) by nia. split; apply u64_small; nia.
Qed.

(** A tick count converts to the whole number of microseconds (or
    milliseconds) it covers, and that back to at most the count, less than one
    unit and one tick below it, as long as the products fit in 64 bits. *)
Theorem time_units_spec hz count : 0 < hz < 2 ^ 64 -> 0 <= count -> count * 1000000 < 2 ^ 64 ->
  let us := rendezvos_time_count_to_us hz count in let ms := rendezvos_time_count_to_ms hz count in
  us = count * 1000000 / hz /\ ms = count * 1000 / hz /\
  count - hz / 1000000 - 1 <= rendezvos_time_us_to_count hz us <= count /\ count - hz / 1000 - 1 <= rendezvos_time_ms_to_count hz ms <= count.
Proof.
  intros Hh Hc Hb us ms. subst us ms. unfold rendezvos_time_count_to_us, rendezvos_time_count_to_ms, rendezvos_time_us_to_count, rendezvos_time_ms_to_count.
  rewrite !(proj2 (Z.eqb_neq hz 0)) by lia.
  destruct (to_unit hz count 1000000 Hh Hc ltac:(lia) Hb) as [-> ->]. destruct (to_unit hz count 1000 Hh Hc ltac:(lia) ltac:(lia)) as [-> ->].
  split_and!; [done|done|apply scale_back; lia..].
Qed.

(** ** Instances

    The heartbeat at 64 and two one-shots of the same deadline at 128 and 192. *)

(** ports that log: the message to port 13 cannot be delivered *)
#[local] Instance log_ports : TimerPorts (list (Z * Z)) := {
  port_ref_get := fun _ st => (true, st);
  port_ref_put := fun p st => Some (st ++ [(p, 0)]);
  event_kmsg := fun p op tok _ st => if p =? 13 then Some (- E_REND_AGAIN, st) else Some (REND_SUCCESS, st ++ [(p, tok)])
}.
Lemma log_return : ports_return (fun _ : list (Z * Z) => True).
Proof. split; [|by eexists]. intros p op tok b st _. cbn. case_bool; by eexists _, _. Qed.

Definition demo_events (a : Z) : rendezvos_timer_event := if a =? 64 then mk_event 0 1000 NULL 0 else mk_event 0 0 7 a.
Definition timers0 : timers := mk_timers (mk_rbs (fun _ => clean) NULL) (fun _ => mk_le NULL NULL) demo_events.
Definition timers1 : timers := snd (rendezvos_timer_event_add 192 500 (snd (rendezvos_timer_event_add 64 1000 (snd (rendezvos_timer_event_add 128 500 timers0))))).
Lemma timer_nodes x : x ∈ [128; 192; 64; 256] -> node_addr x.
Proof. intros H. repeat (apply elem_of_cons in H as [->|H]; [by split|]). by apply elem_of_nil in H. Qed.
Lemma timers1_queue : timer_queue timers1 [128; 192; 64].
Proof.
  exists [[128; 192]; [64]]. split; [done|]. split; [constructor|].
  - split.
    + exists (Node true 1 Leaf 128 (Node false 0 Leaf 64 Leaf)). split; [vm_compute; reflexivity|]. split.
      { cbn [rep]. split_and!; try (by left); try (by right; apply timer_nodes; set_solver); try (apply timer_nodes; set_solver); vm_compute; reflexivity. }
      split; [split; [done|exists 1; apply (rbt_black 0); repeat constructor]|done].
    + cbn [heads map List.hd]. repeat constructor.
  - intros g [->|[->|Hg]%elem_of_cons]%elem_of_cons; [| |by apply elem_of_nil in Hg]; cbn [ring]; (split; [apply (bool_decide_unpack _); vm_compute; exact I|vm_compute; by repeat split]).
  - intros g x [->|[->|Hg]%elem_of_cons]%elem_of_cons Hx; [| |by apply elem_of_nil in Hg]; repeat (apply elem_of_cons in Hx as [->|Hx]; [vm_compute; reflexivity|]); by apply elem_of_nil in Hx.
  - intros x Hx. cbn in Hx. apply timer_nodes. set_solver.
  - intros g x [->|[->|Hg]%elem_of_cons]%elem_of_cons Hx; [| |by apply elem_of_nil in Hg]; cbn in Hx; [|by apply elem_of_nil in Hx]. apply list_elem_of_singleton in Hx as ->. vm_compute. reflexivity.
  - intros x Hx. repeat (apply elem_of_cons in Hx as [->|Hx]; [vm_compute; split; congruence|]). by apply elem_of_nil in Hx.
  - apply (bool_decide_unpack _). vm_compute. exact I.
  - intros x Hx. apply elem_of_cons in Hx as [->|Hx]; [vm_compute; split; [right; congruence|split; congruence]|].
    apply elem_of_cons in Hx as [->|Hx]; [vm_compute; split; [right; congruence|split; congruence]|].
    apply elem_of_cons in Hx as [->|Hx]; [vm_compute; split; [left; congruence|split; congruence]|]. by apply elem_of_nil in Hx.
Qed.
Lemma idle_256 : idle timers1 256.
Proof. constructor; [by split|vm_compute; reflexivity|right; vm_compute; reflexivity]. Qed.

Lemma timer_add_witness : exists err T', rendezvos_timer_event_add 256 500 timers1 = (err, T') /\ err = REND_SUCCESS /\
  exists q', timer_queue T' q' /\ added timers1 256 500 [128; 192; 64] q' /\ events T' = events (set_expired 256 500 timers1) /\ only [256; 128; 192; 64] timers1 T'.
Proof.
  destruct (timer_add_spec timers1 [128; 192; 64] 256 500 timers1_queue) as (err & T' & E & R); [right; exact idle_256|split; vm_compute; congruence|lia|].
  exists err, T'. split; [exact E|]. change (bool_decide (256 ∈ [128; 192; 64]) || _) with false in R. exact R.
Defined.
Lemma timer_del_witness : exists T', rendezvos_timer_event_del 128 timers1 = (REND_SUCCESS, T') /\ idle T' 128 /\ exists L R, [128; 192; 64] = L ++ 128 :: R /\ timer_queue T' (L ++ R).
Proof.
  destruct (timer_del_spec timers1 [128; 192; 64] 128 timers1_queue) as (err & T' & E & R); [left; set_solver|].
  change (bool_decide (128 ∈ [128; 192; 64])) with true in R. destruct R as (-> & R1 & _ & _ & R2). exact (ex_intro _ T' (conj E (conj R1 R2))).
Defined.

(** the counter stands at 700, then at 701 *)
Definition slow_clock (n : nat) : Z := if (n <? 4)%nat then 700 else 701.
Definition time1 : cpu_time (list (Z * Z)) := mk_time timers1 [] 0 0 [] 0 64 1000 10 1000.
Lemma timer_irq_witness : exists c' q' n t g, rendezvos_do_time_irq slow_clock 7 time1 = Some c' /\ timer_queue (queue c') q' /\ True /\
    fire_all slow_clock (events (queue time1)) (heartbeat time1) 7 (sched (queue time1) [128; 192; 64]) (reads time1) (ker time1) (tick_cnt time1) = Some (sched (queue c') q', n, ker c', tick_cnt c') /\
    700 <= t <= 701 /\ (forall x, x ∈ q' -> t < key (queue c') x) /\
    (forall x, x ∈ q' -> x ∈ [128; 192; 64]) /\ (forall x, x ∈ [128; 192; 64] -> 701 < key (queue time1) x \/ periodic_gap (events (queue time1) x) <> 0 -> x ∈ q') /\
    (forall x, x ∈ [128; 192; 64] -> x ∉ q' -> idle (queue c') x /\ wait_port (events (queue c') x) = NULL) /\ only [128; 192; 64] (queue time1) (queue c') /\
    armed c' = armed time1 ++ [g] /\ g = match q' with [] => heartbeat_gap time1 | x :: _ => Z.max 1 (key (queue c') x - slow_clock n) end.
Proof.
  apply (timer_irq_spec slow_clock (fun _ => True) time1 [128; 192; 64] 700 701 7).
  - exact timers1_queue.
  - exact log_return.
  - exact I.
  - lia.
  - lia.
  - intros m _. unfold slow_clock. case_match; lia.
  - vm_compute. reflexivity.
Defined.
Lemma time_units_witness : rendezvos_time_count_to_us 24000000 1000 = 1000 * 1000000 / 24000000.
Proof. refine (proj1 (time_units_spec 24000000 1000 _ _ _)); [lia|lia|reflexivity]. Defined.

(** both one-shots are delivered in order and let go of their port, the heartbeat is due next *)
Example irq_run : match rendezvos_do_time_irq slow_clock 7 time1 with Some c' => ker c' = [(7, 128); (7, 0); (7, 192); (7, 0)] /\ armed c' = [300] /\ timer_event_rb_tree_first (queue c') = 64 | None => False end.
Proof. vm_compute. by repeat split. Qed.

(** A message that cannot be delivered is due again one tick later; when the
    counter has moved on by then, the interrupt never ends. *)
Lemma retry_for_ever (info : Z -> rendezvos_timer_event) beat e fuel : periodic_gap (info e) = 0 -> wait_port (info e) = 13 -> forall n st tick,
  fire_all (fun m => 700 + Z.of_nat m) info beat fuel [(700 + Z.of_nat n, e)] n st tick = None.
Proof.
  intros Hg Hw. induction fuel as [|fuel IH]; intros n st tick; [done|]. cbn [fire_all]. rewrite Z.ltb_irrefl, Hg, Hw. cbn [Z.eqb negb event_kmsg log_ports].
  change (13 =? 13) with true. cbv iota. cbn [mbind option_bind]. change (- E_REND_AGAIN =? REND_SUCCESS) with false. cbv iota. cbn [ins].
  replace (700 + Z.of_nat n + 1) with (700 + Z.of_nat (S n)) by lia. apply IH.
Qed.
Definition stuck_time : cpu_time (list (Z * Z)) :=
  mk_time (snd (rendezvos_timer_event_add 128 700 (mk_timers (event_tree timers0) (same_expired timers0) (fun a => mk_event 0 0 13 a)))) [] 0 0 [] 0 64 1000 10 1000.
Example undeliverable_event_never_ends fuel : Z.of_nat fuel < 2 ^ 61 -> irq_loop (fun m => 700 + Z.of_nat m) fuel stuck_time = None.
Proof.
  intros Hf.
  assert (O : irq_ok (events (queue stuck_time)) stuck_time [[128]]).
  { constructor; [|done| |].
    - constructor.
      + split; [exists (Node true 1 Leaf 128 Leaf); split_and!; [vm_compute; reflexivity|cbn [rep]; split_and!; try (by left); try (apply timer_nodes; set_solver); vm_compute; reflexivity|split; [done|exists 1; apply (rbt_black 0); constructor]|done]|repeat constructor].
      + intros g ->%list_elem_of_singleton. vm_compute. by repeat constructor; try apply not_elem_of_nil.
      + by intros g x ->%list_elem_of_singleton ->%list_elem_of_singleton.
      + intros x Hx. cbn in Hx. apply timer_nodes. set_solver.
      + intros g x ->%list_elem_of_singleton Hx. by apply elem_of_nil in Hx.
      + intros x ->%list_elem_of_singleton. vm_compute. split; congruence.
      + apply NoDup_singleton.
    - intros x ->%list_elem_of_singleton. right. vm_compute. congruence.
    - intros x ->%list_elem_of_singleton. vm_compute. split; congruence. }
  pose proof (loop_refines (fun m => 700 + Z.of_nat m) (events (queue stuck_time)) (heartbeat stuck_time) fuel stuck_time [[128]] ltac:(intros m Hm; cbn in Hm; lia) O ltac:(by intros e now tick)) as Hr.
  change (sched (queue stuck_time) (concat [[128]])) with [(700 + Z.of_nat 0, 128)] in Hr. change (reads stuck_time) with 0%nat in Hr.
  rewrite retry_for_ever in Hr by reflexivity. destruct (irq_loop _ fuel stuck_time); [done|reflexivity].
Qed.
