(* ===== verification/Sched.v ===== *)
(** * Threads on run queues

    [kernel/task/task_manager.c], and from [kernel/task/thread_boot.c] how threads
    enter and leave a run queue.  [ring] holds the lists of threads: the node of
    a thread is addressed by the thread, the head by its task manager.
    [current_vspace], [core_tm] and [loaded] are per CPU; [loaded] is the address
    space in the translation registers.  The calls that free memory at every
    switch and the destruction of an address space act on [world].  Spin locks
    make each function one step; [None] is a call that never returns. *)
From S2P Require Import Prelude ThreadStatus Mm ListH Refcount Asid.

(** the fields of [struct Thread_Base], [struct task_manager] and [struct VSpace] used here *)
Record thread := mk_thread { status : Z; flags : Z; t_vs : Z; t_tm : Z }.
Record Task_Manager := mk_tm { owner_cpu : Z; tm_current : Z; scheduler : bool }.
Record vspace := mk_vs { vs_refcount : ref_count_t; tlb_cpu_mask : list Z; vs_asid : Z; vspace_root_addr : Z }.

Record sys (W : Type) := mk_sys {
  ring : lheap;
  threads : Z -> thread;
  tms : Z -> Task_Manager;
  vss : Z -> vspace;
  root_vspace : Z;
  current_vspace : Z -> Z;
  loaded : Z -> Z * Z;
  switches : list (Z * Z);
  world : W
}.
Arguments mk_sys {W}.
Arguments ring {W}.
Arguments threads {W}.
Arguments tms {W}.
Arguments vss {W}.
Arguments root_vspace {W}.
Arguments current_vspace {W}.
Arguments loaded {W}.
Arguments switches {W}.
Arguments world {W}.

Section Sched.
Context {W : Type}.
(** [kalloc_process_cross_cpu_frees], [ebr_try_reclaim] and [free_vspace_ref] on the rest of the kernel *)
Context (process_frees try_reclaim : Z -> W -> W) (free_vspace_ref : Z -> W -> W).
Implicit Types s : sys W.

Definition set_ring h s : sys W := mk_sys h (threads s) (tms s) (vss s) (root_vspace s) (current_vspace s) (loaded s) (switches s) (world s).
Definition set_thread t x s : sys W := mk_sys (ring s) (<[t := x]> (threads s)) (tms s) (vss s) (root_vspace s) (current_vspace s) (loaded s) (switches s) (world s).
Definition set_tm tm x s : sys W := mk_sys (ring s) (threads s) (<[tm := x]> (tms s)) (vss s) (root_vspace s) (current_vspace s) (loaded s) (switches s) (world s).
Definition set_vs v x s : sys W := mk_sys (ring s) (threads s) (tms s) (<[v := x]> (vss s)) (root_vspace s) (current_vspace s) (loaded s) (switches s) (world s).
Definition load_vspace c v s : sys W :=
  mk_sys (ring s) (threads s) (tms s) (vss s) (root_vspace s) (<[c := v]> (current_vspace s)) (<[c := (vspace_root_addr (vss s v), vs_asid (vss s v))]> (loaded s)) (switches s) (world s).
Definition switch_to old new s : sys W := mk_sys (ring s) (threads s) (tms s) (vss s) (root_vspace s) (current_vspace s) (loaded s) (switches s ++ [(old, new)]) (world s).
Definition set_world w s : sys W := mk_sys (ring s) (threads s) (tms s) (vss s) (root_vspace s) (current_vspace s) (loaded s) (switches s) w.

Definition set_status t v s : sys W := if t =? NULL then s else let x := threads s t in set_thread t (mk_thread v (flags x) (t_vs x) (t_tm x)) s.
(** [thread_set_status_with_expect] *)
Definition status_cas t expect target s : bool * sys W :=
  if t =? NULL then (false, s) else
  let '(prev, v) := atomic64_cas (status (threads s t)) expect target in (prev =? expect, set_status t v s).
Definition set_thread_tm t v s : sys W := let x := threads s t in set_thread t (mk_thread (status x) (flags x) (t_vs x) v) s.
Definition set_current tm t s : sys W := let x := tms s tm in set_tm tm (mk_tm (owner_cpu x) t (scheduler x)) s.

(** ** Address spaces *)

Definition vs_tlb_cpu_mask_set v cpu_id s : sys W :=
  if RENDEZVOS_MAX_CPU_NUMBER <=? cpu_id then s
  else let x := vss s v in set_vs v (mk_vs (vs_refcount x) (bitmap_set (tlb_cpu_mask x) (u32 cpu_id)) (vs_asid x) (vspace_root_addr x)) s.
Definition vs_tlb_cpu_mask_clear v cpu_id s : sys W :=
  if RENDEZVOS_MAX_CPU_NUMBER <=? cpu_id then s
  else let x := vss s v in set_vs v (mk_vs (vs_refcount x) (bitmap_clear (tlb_cpu_mask x) (u32 cpu_id)) (vs_asid x) (vspace_root_addr x)) s.
Definition set_vs_ref v r s : sys W := let x := vss s v in set_vs v (mk_vs r (tlb_cpu_mask x) (vs_asid x) (vspace_root_addr x)) s.
Definition vs_get v s : bool * sys W := let '(ok, r) := ref_get_not_zero (vs_refcount (vss s v)) in (ok, set_vs_ref v r s).
Definition vs_put v s : sys W :=
  let '(r, zero) := ref_put (vs_refcount (vss s v)) (Some 0) in
  let s := set_vs_ref v r s in
  if zero then set_world (free_vspace_ref v (world s)) s else s.

(** ** Scheduling *)

Fixpoint ready_loop (fuel : nat) (tm next_node : Z) s : option Z :=
  match fuel with
  | O => None
  | S fuel' =>
    if (next_node =? tm) || negb (status (threads s next_node) =? thread_status_ready) then ready_loop fuel' tm (next (ring s next_node)) s else Some next_node
  end.
Definition round_robin_schedule (fuel : nat) (tm : Z) s : option Z :=
  if (tm =? NULL) || (tm_current (tms s tm) =? NULL) then Some NULL else ready_loop fuel tm (next (ring s (tm_current (tms s tm)))) s.

(** [use_old_thread] *)
Definition use_old_thread tm curr s : sys W := snd (status_cas curr thread_status_ready thread_status_running (set_current tm curr s)).
(** the address space of the next thread; [false]: it cannot be used *)
Definition enter_vspace (cpu new : Z) s : bool * sys W :=
  if negb (Z.land (flags (threads s new)) THREAD_FLAG_USER =? 0) then
    let new_vs := t_vs (threads s new) in
    if (new_vs =? NULL) || (new_vs =? root_vspace s) then (false, s)
    else
      let old_vs := current_vspace s cpu in
      if negb (old_vs =? new_vs) then
        let '(ok, s) := vs_get new_vs s in
        if negb ok then (false, s)
        else
          let s := vs_tlb_cpu_mask_set new_vs cpu s in
          let s := load_vspace cpu new_vs s in
          if negb (old_vs =? root_vspace s) then (true, vs_put old_vs (vs_tlb_cpu_mask_clear old_vs cpu s)) else (true, s)
      else (true, s)
  else (true, s).
(** [cpu]: the CPU that runs it *)
Definition schedule (cpu : Z) (fuel : nat) (tm : Z) s : option (sys W) :=
  if tm =? NULL then Some s
  else
    let s := set_world (try_reclaim cpu (process_frees cpu (world s))) s in
    let curr := tm_current (tms s tm) in
    let '(_, s) := status_cas curr thread_status_running thread_status_ready s in
    s ← (if scheduler (tms s tm) then t ← round_robin_schedule fuel tm s; Some (set_current tm t s) else Some s);
    let new := tm_current (tms s tm) in
    if (new =? NULL) || (curr =? new) then Some (use_old_thread tm curr s)
    else
      let '(ok, s) := enter_vspace cpu new s in
      if negb ok then Some (use_old_thread tm curr s)
      else
        let s := if negb (Z.land (flags (threads s curr)) THREAD_FLAG_EXIT_REQUESTED =? 0) && (status (threads s curr) =? thread_status_ready)
                 then snd (status_cas curr thread_status_ready thread_status_zombie s) else s in
        let s := set_status new thread_status_running s in
        Some (switch_to curr new s).

(** ** Run queues *)

(** [p]: what [m_alloc] returned; the code writes through it whatever it is *)
Definition new_task_manager (cpu p : Z) s : option (sys W) :=
  if p =? NULL then None
  else Some (set_ring (INIT_LIST_HEAD (ring s) p) (set_tm p (mk_tm cpu (tm_current (tms s p)) true) s)).
Definition add_thread_to_manager (core_tm t : Z) s : Z * sys W :=
  if (core_tm =? NULL) || (t =? NULL) then (REND_SUCCESS, s)
  else if negb (t_tm (threads s t) =? NULL) then (- E_RENDEZVOS, s)
  else
    let s := set_ring (list_add_tail (ring s) t core_tm) s in
    let s := set_thread_tm t core_tm s in
    (REND_SUCCESS, snd (status_cas t thread_status_init thread_status_ready s)).
Definition del_thread_from_manager (t : Z) s : Z * sys W :=
  if t =? NULL then (- E_IN_PARAM, s)
  else if negb (t_tm (threads s t) =? NULL) then
    if tm_current (tms s (t_tm (threads s t))) =? t then (- E_REND_AGAIN, s)
    else (REND_SUCCESS, set_thread_tm t NULL (set_ring (list_del_init (ring s) t) s))
  else (REND_SUCCESS, if negb (list_node_is_detached (ring s) t) then set_ring (list_del_init (ring s) t) s else s).

(** [core_tm]: the run queue of each CPU *)
Definition cpu_id_is_online (nr_cpu : Z) (core_tm : Z -> Z) (cpu : Z) : bool :=
  if RENDEZVOS_MAX_CPU_NUMBER <=? cpu then false
  else if (nr_cpu <=? 0) || (nr_cpu <=? cpu) then false else negb (core_tm cpu =? NULL).
Definition task_manager_for_cpu nr_cpu core_tm cpu : Z := if cpu_id_is_online nr_cpu core_tm cpu then core_tm cpu else NULL.
Definition add_thread_to_cpu nr_cpu core_tm (t cpu : Z) s : Z * sys W :=
  if t =? NULL then (- E_IN_PARAM, s)
  else if negb (t_tm (threads s t) =? NULL) then (- E_RENDEZVOS, s)
  else if negb (status (threads s t) =? thread_status_init) then (- E_RENDEZVOS, s)
  else
    let tm := task_manager_for_cpu nr_cpu core_tm cpu in
    if tm =? NULL then (- E_IN_PARAM, s) else add_thread_to_manager tm t s.

(** [delete_thread] up to its [ref_put]: the detaching loop on CPU [cpu];
    [idle]: what the rest of the system does between two attempts *)
Fixpoint detach_loop (idle : sys W -> sys W) (cpu : Z) (sfuel fuel : nat) (t tm : Z) s : option (Z * sys W) :=
  match fuel with
  | O => None
  | S fuel' =>
    let '(e, s) := del_thread_from_manager t s in
    if e =? - E_REND_AGAIN then
      s ← (if cpu =? owner_cpu (tms s tm) then schedule cpu sfuel tm s else Some s);
      detach_loop idle cpu sfuel fuel' t tm (idle s)
    else Some (e, s)
  end.
Definition delete_thread (put_thread : Z -> W -> W) (idle : sys W -> sys W) (cpu : Z) (sfuel fuel : nat) (t : Z) s : option (Z * sys W) :=
  if t =? NULL then Some (- E_IN_PARAM, s)
  else
    let s := set_status t thread_status_exit s in
    let tm := t_tm (threads s t) in
    '(e, s) ← (if negb (tm =? NULL) then detach_loop idle cpu sfuel fuel t tm s else Some (REND_SUCCESS, s));
    if negb (e =? REND_SUCCESS) then Some (e, s) else Some (REND_SUCCESS, set_world (put_thread t (world s)) s).
End Sched.
