(* ===== verification/SchedTurn.v ===== *)
(** * One turn of the scheduler

    The ring of threads read as a cyclic order, the search of the round robin
    in it, the accounting of address spaces, and what [schedule] does to
    both. *)
From S2P Require Import Prelude ThreadStatus Mm ListH Refcount Asid Sched.

(** ** The search along the ring *)

(** the threads in the order in which they follow [cur]; [cur] comes last *)
Definition cycle (h : lheap) (tm cur : Z) (l : list Z) : Prop :=
  exists A B, list_is h tm (A ++ cur :: B) /\ l = B ++ A ++ [cur].

Lemma cycle_move h tm cur X u Y : cycle h tm cur (X ++ u :: Y) -> cycle h tm u (Y ++ X ++ [u]).
Proof.
  intros (A & B & Hl & E). apply app_eq_inv in E as [(X' & -> & E)|(B' & -> & E)].
  - destruct Y as [|y Y _] using rev_ind.
    + apply app_inj_2 in E as [-> [= ->]]; [|done]. exists X', B. by rewrite <- app_assoc.
    + rewrite app_comm_cons, app_assoc in E. apply app_inj_2 in E as [-> [= ->]]; [|done].
      exists X', (Y ++ y :: B). split; [by rewrite <- app_assoc in Hl|]. by rewrite <- !app_assoc.
  - destruct B' as [|b B'].
    + rewrite app_nil_r in Hl. destruct A as [|a A]; cbn in E; injection E as -> ->; [by exists [], X|].
      exists [], (A ++ cur :: X). split; [done|]. by rewrite <- !app_assoc.
    + injection E as -> ->. exists (A ++ cur :: X), B'. split; [by rewrite <- app_assoc|]. by rewrite <- !app_assoc.
Qed.

Lemma cycle_nodup h tm cur l : cycle h tm cur l -> NoDup (tm :: l).
Proof.
  intros (A & B & [Hnd _] & ->). eapply NoDup_Permutation_proper; [|exact Hnd]. constructor.
  rewrite app_assoc, (Permutation_app_comm B A), <- app_assoc. apply Permutation_app_head. by rewrite Permutation_app_comm.
Qed.

Lemma cycle_cur h tm cur l : cycle h tm cur l -> cur ∈ l.
Proof. intros (A & B & _ & ->). apply elem_of_app. right. apply elem_of_app. right. by left. Qed.

Lemma find_split {A} (f : A -> bool) l t : List.find f l = Some t -> exists X Y, l = X ++ t :: Y /\ f t = true /\ (forall x, x ∈ X -> f x = false).
Proof.
  induction l as [|a l IH]; [done|]. cbn. destruct (f a) eqn:E.
  - intros [= <-]. exists [], l. split; [done|]. split; [done|]. intros x Hx. by apply not_elem_of_nil in Hx.
  - intros H. destruct (IH H) as (X & Y & -> & Ht & HX). exists (a :: X), Y. split; [done|]. split; [done|].
    intros x [->|Hx]%elem_of_cons; [done|by apply HX].
Qed.
Lemma find_app {A} (f : A -> bool) l1 l2 : List.find f (l1 ++ l2) = match List.find f l1 with Some x => Some x | None => List.find f l2 end.
Proof. induction l1 as [|x l1 IH]; [done|]. cbn. by destruct (f x). Qed.
Lemma find_eq {A} (f g : A -> bool) l : (forall x, x ∈ l -> f x = g x) -> List.find f l = List.find g l.
Proof.
  induction l as [|a l IH]; intros H; [done|]. cbn. rewrite <- (H a) by left. destruct (f a); [done|].
  apply IH. intros x Hx. apply H. by right.
Qed.

Section Turn.
Context {W : Type}.
Implicit Types s : sys W.

Definition ready s (t : Z) : bool := status (threads s t) =? thread_status_ready.

Lemma loop_find s tm xs : forall a b n, lseg (ring s) a xs b ->
  ready_loop (length xs + n) tm (next (ring s a)) s =
  match List.find (fun x => negb (x =? tm) && ready s x) xs with Some t => Some t | None => ready_loop n tm b s end.
Proof.
  induction xs as [|x xs IH]; intros a b n Hs; cbn [lseg] in Hs; [by destruct Hs as [-> _]|].
  destruct Hs as (-> & _ & Hs). cbn [length Nat.add ready_loop List.find]. unfold ready.
  destruct (x =? tm), (status (threads s x) =? thread_status_ready); cbn [negb andb orb]; try done; by apply IH.
Qed.
Lemma loop_mono s tm n k x : ready_loop (n + k) tm x s = None -> ready_loop n tm x s = None.
Proof. revert x. induction n as [|n IH]; intros x; [done|]. cbn [Nat.add ready_loop]. destruct (_ || _); [apply IH|done]. Qed.

(** the first ready thread in cyclic order; without one the search does not end *)
Lemma round_effect s tm cur l fuel : cycle (ring s) tm cur l ->
  match List.find (ready s) l with
  | Some t => (length l + 1 <= fuel)%nat -> ready_loop fuel tm (next (ring s cur)) s = Some t
  | None => ready_loop fuel tm (next (ring s cur)) s = None
  end.
Proof.
  intros Hc. pose proof (cycle_nodup _ _ _ _ Hc) as Hnd. destruct Hc as (A & B & Hl & ->).
  apply ring_rotate in Hl as [_ Hs]. set (P := B ++ tm :: A ++ [cur]).
  assert (Hlen : length P = (length (B ++ A ++ [cur]) + 1)%nat) by (unfold P; rewrite !length_app; simpl; rewrite length_app; simpl; lia).
  assert (Hfind : List.find (fun x => negb (x =? tm) && ready s x) P = List.find (ready s) (B ++ A ++ [cur])).
  { unfold P. rewrite !find_app. cbn [List.find]. rewrite Z.eqb_refl. cbn [negb andb]. rewrite find_app.
    apply list.NoDup_cons in Hnd as [Htm _]. rewrite !not_elem_of_app in Htm. destruct Htm as (HB & HA & Hcur).
    assert (He : forall (l : list Z) x, tm ∉ l -> x ∈ l -> negb (x =? tm) && ready s x = ready s x).
    { intros l x Hn Hx. destruct (Z.eqb_spec x tm) as [->|]; [done|]. done. }
    rewrite (find_eq _ (ready s) B), (find_eq _ (ready s) A), (find_eq _ (ready s) [cur]); [done| | |]; intros; (eapply He; [|eassumption]; assumption). }
  assert (Hseg : lseg (ring s) cur (B ++ tm :: A) cur) by exact Hs.
  assert (Hone : forall n, ready_loop (length P + n) tm (next (ring s cur)) s =
    match List.find (ready s) (B ++ A ++ [cur]) with Some t => Some t | None => ready_loop n tm (next (ring s cur)) s end).
  { intros n. rewrite <- Hfind. replace P with ((B ++ tm :: A) ++ [cur]) by (unfold P; by rewrite <- app_assoc).
    rewrite length_app, <- Nat.add_assoc, (loop_find s tm _ _ _ _ Hseg), (find_app _ (B ++ tm :: A) [cur]). destruct (List.find (fun x => negb (x =? tm) && ready s x) (B ++ tm :: A)); [done|].
    cbn [length Nat.add ready_loop List.find]. unfold ready. by destruct (_ =? tm), (_ =? thread_status_ready). }
  destruct (List.find (ready s) (B ++ A ++ [cur])) as [t|].
  - intros Hf. rewrite <- Hlen in Hf. replace fuel with (length P + (fuel - length P))%nat by lia. apply Hone.
  - assert (Hk : forall k, ready_loop (k * length P + 0) tm (next (ring s cur)) s = None).
    { induction k as [|k IHk]; [done|]. cbn [Nat.mul]. rewrite <- Nat.add_assoc, Hone. exact IHk. }
    apply (loop_mono s tm fuel (fuel * length P - fuel)). specialize (Hk fuel).
    assert (fuel <= fuel * length P)%nat by (rewrite Hlen; nia).
    replace (fuel + (fuel * length P - fuel))%nat with (fuel * length P + 0)%nat by lia. exact Hk.
Qed.

(** ** Address spaces in use *)

Definition tally (v : Z) (l : list Z) : Z := sumZ (fun x => if x =? v then 1 else 0) l.
(** threads that own [v] and CPUs that have it loaded *)
Definition users (T C : list Z) s (v : Z) : Z := tally v (map (fun t => t_vs (threads s t)) T) + tally v (map (current_vspace s) C).

(** [T]: the threads, [C]: the CPUs, [V]: the address spaces; [held v]:
    references that the rest of the kernel keeps *)
Record spaces_ok (T C V : list Z) (held : Z -> Z) s : Prop := {
  so_cpus : NoDup C /\ forall c, c ∈ C -> 0 <= c < RENDEZVOS_MAX_CPU_NUMBER;
  so_real : root_vspace s ∉ V /\ NULL ∉ V;
  so_count : forall v, v ∈ V -> vs_refcount (vss s v) = users T C s v + held v;
  so_held : forall v, v ∈ V -> 0 <= held v /\ held v + Z.of_nat (length T) + Z.of_nat (length C) < 2 ^ 62;
  so_mask : forall v, v ∈ V -> bitmap_ok (tlb_cpu_mask (vss s v)) RENDEZVOS_MAX_CPU_NUMBER /\
    forall c, 0 <= c < RENDEZVOS_MAX_CPU_NUMBER -> bitmap_test (tlb_cpu_mask (vss s v)) c = true <-> c ∈ C /\ current_vspace s c = v;
  so_cur : forall c, c ∈ C -> current_vspace s c = root_vspace s \/
    current_vspace s c ∈ V /\ loaded s c = (vspace_root_addr (vss s (current_vspace s c)), vs_asid (vss s (current_vspace s c)))
}.

Lemma tally_range v l : 0 <= tally v l <= Z.of_nat (length l).
Proof. unfold tally. induction l as [|x l IH]; cbn [sumZ length]; [lia|]. destruct (x =? v); lia. Qed.
Lemma tally_in v l : v ∈ l -> 1 <= tally v l.
Proof.
  unfold tally. induction l as [|x l IH]; [intros H; by apply not_elem_of_nil in H|]. pose proof (tally_range v l) as Hr. unfold tally in Hr.
  cbn [sumZ]. intros [<-|Hx]%elem_of_cons; [rewrite Z.eqb_refl; lia|]. specialize (IH Hx). destruct (x =? v); lia.
Qed.
Lemma tally_none v l : v ∉ l -> tally v l = 0.
Proof. intros H. apply sumZ_zero. intros x Hx. destruct (Z.eqb_spec x v) as [->|]; done. Qed.
(** one CPU changes its address space *)
Lemma tally_switch (f : Z -> Z) c w v C : NoDup C -> c ∈ C ->
  tally v (map (<[c := w]> f) C) = tally v (map f C) - (if f c =? v then 1 else 0) + (if w =? v then 1 else 0).
Proof.
  unfold tally. induction C as [|d C IH]; intros Hnd Hc; [by apply not_elem_of_nil in Hc|]. apply list.NoDup_cons in Hnd as [Hd Hnd]. cbn [map sumZ].
  destruct (decide (d = c)) as [->|Hne].
  - rewrite fn_lookup_insert. replace (map (<[c:=w]> f) C) with (map f C); [lia|].
    apply map_ext_in. intros x Hx. rewrite fn_lookup_insert_ne; [done|]. intros <-. apply Hd. by apply list_elem_of_In.
  - rewrite fn_lookup_insert_ne by done. apply elem_of_cons in Hc as [->|Hc]; [done|]. rewrite IH by done. lia.
Qed.

Lemma users_range T C s v : 0 <= users T C s v <= Z.of_nat (length T) + Z.of_nat (length C).
Proof.
  unfold users. pose proof (tally_range v (map (fun t => t_vs (threads s t)) T)) as H1. pose proof (tally_range v (map (current_vspace s) C)) as H2.
  rewrite length_map in H1, H2. lia.
Qed.
Lemma owner_counts T C s t : t ∈ T -> 1 <= users T C s (t_vs (threads s t)).
Proof.
  intros Ht. unfold users. pose proof (tally_in (t_vs (threads s t)) (map (fun t => t_vs (threads s t)) T)) as H.
  pose proof (tally_range (t_vs (threads s t)) (map (current_vspace s) C)). enough (t_vs (threads s t) ∈ map (fun t => t_vs (threads s t)) T) by (specialize (H ltac:(done)); lia).
  apply list_elem_of_In, in_map_iff. exists t. split; [done|]. by apply list_elem_of_In.
Qed.
Lemma cpu_counts T C s c : c ∈ C -> 1 <= users T C s (current_vspace s c).
Proof.
  intros Hc. unfold users. pose proof (tally_in (current_vspace s c) (map (current_vspace s) C)) as H.
  pose proof (tally_range (current_vspace s c) (map (fun t => t_vs (threads s t)) T)). enough (current_vspace s c ∈ map (current_vspace s) C) by (specialize (H ltac:(done)); lia).
  apply list_elem_of_In, in_map_iff. exists c. split; [done|]. by apply list_elem_of_In.
Qed.

(** ** Entering the address space of the next thread *)

Definition same_space (a b : vspace) : Prop := vs_asid a = vs_asid b /\ vspace_root_addr a = vspace_root_addr b.
Definition ref_move (new old v : Z) : Z := (if v =? new then 1 else 0) - (if v =? old then 1 else 0).
Definition bit_move (cpu new old v c : Z) (b : bool) : bool := if c =? cpu then (if v =? new then true else if v =? old then false else b) else b.

(** CPU [cpu] went from [old] to [new] *)
Record moved (cpu new old : Z) (V : list Z) s s' : Prop := {
  mv_threads : threads s' = threads s;
  mv_root : root_vspace s' = root_vspace s;
  mv_current : current_vspace s' = <[cpu := new]> (current_vspace s);
  mv_loaded : loaded s' = <[cpu := (vspace_root_addr (vss s new), vs_asid (vss s new))]> (loaded s);
  mv_same : forall v, same_space (vss s' v) (vss s v);
  mv_refs : forall v, v ∈ V -> vs_refcount (vss s' v) = vs_refcount (vss s v) + ref_move new old v;
  mv_masks : forall v, v ∈ V -> bitmap_ok (tlb_cpu_mask (vss s' v)) RENDEZVOS_MAX_CPU_NUMBER /\
    forall c, 0 <= c < RENDEZVOS_MAX_CPU_NUMBER -> bitmap_test (tlb_cpu_mask (vss s' v)) c = bit_move cpu new old v c (bitmap_test (tlb_cpu_mask (vss s v)) c)
}.

Lemma moved_ok T C V held cpu new old s s' : spaces_ok T C V held s -> cpu ∈ C -> new ∈ V -> current_vspace s cpu = old -> new <> old ->
  moved cpu new old V s s' -> spaces_ok T C V held s'.
Proof.
  intros [[Hnd Hrng] Hreal Hcount Hheld Hmask Hcur] Hcpu Hnew Hold Hne [Ht Hr Hc Hl Hsame Href Hm]. split.
  - done.
  - by rewrite Hr.
  - intros v Hv. rewrite (Href v Hv), (Hcount v Hv). unfold users, ref_move. rewrite Ht, Hc, tally_switch, Hold by done.
    rewrite (Z.eqb_sym v new), (Z.eqb_sym v old). lia.
  - done.
  - intros v Hv. destruct (Hm v Hv) as [Hok Hb]. split; [done|]. intros c Hcr. rewrite Hb by done. destruct (Hmask v Hv) as [_ Hbit].
    specialize (Hbit c Hcr). unfold bit_move. rewrite Hc. destruct (Z.eqb_spec c cpu) as [->|Hcc].
    + rewrite fn_lookup_insert. destruct (Z.eqb_spec v new) as [->|]; [tauto|]. rewrite Hold in Hbit. destruct (Z.eqb_spec v old) as [->|].
      * split; [done|]. intros [_ ?]. by destruct Hne.
      * rewrite Hbit. split; intros [_ E]; congruence.
    + by rewrite fn_lookup_insert_ne by done.
  - intros c Hcc. rewrite Hr, Hc, Hl. destruct (decide (cpu = c)) as [<-|Hd].
    + rewrite !fn_lookup_insert. right. split; [done|]. destruct (Hsame new) as [-> ->]. done.
    + rewrite !fn_lookup_insert_ne by done. destruct (Hcur c Hcc) as [?|[? E]]; [by left|right]. split; [done|].
      destruct (Hsame (current_vspace s c)) as [-> ->]. done.
Qed.

Context (process_frees try_reclaim : Z -> W -> W) (free_vspace_ref : Z -> W -> W).

(** nobody uses [v] any more *)
Definition abandoned (T C : list Z) (held : Z -> Z) s (v : Z) : bool := users T C s v + held v =? 0.
Definition is_user s (t : Z) : bool := negb (Z.land (flags (threads s t)) THREAD_FLAG_USER =? 0).

(** what stays in place when the address space changes *)
Definition same_queues s s' : Prop := ring s' = ring s /\ threads s' = threads s /\ tms s' = tms s /\ root_vspace s' = root_vspace s /\ switches s' = switches s.

Lemma vss_set_vs v x s u : vss (set_vs v x s) u = if u =? v then x else vss s u.
Proof. cbn. destruct (Z.eqb_spec u v) as [->|Hne]; [by rewrite fn_lookup_insert|]. by rewrite fn_lookup_insert_ne by done. Qed.

Lemma mask_set_eq v cpu s : 0 <= cpu < RENDEZVOS_MAX_CPU_NUMBER -> vs_tlb_cpu_mask_set v cpu s =
  set_vs v (mk_vs (vs_refcount (vss s v)) (bitmap_set (tlb_cpu_mask (vss s v)) cpu) (vs_asid (vss s v)) (vspace_root_addr (vss s v))) s.
Proof. intros H. unfold vs_tlb_cpu_mask_set. destruct (Z.leb_spec RENDEZVOS_MAX_CPU_NUMBER cpu); [lia|]. by rewrite u32_small by (unfold RENDEZVOS_MAX_CPU_NUMBER in H; lia). Qed.
Lemma mask_clear_eq v cpu s : 0 <= cpu < RENDEZVOS_MAX_CPU_NUMBER -> vs_tlb_cpu_mask_clear v cpu s =
  set_vs v (mk_vs (vs_refcount (vss s v)) (bitmap_clear (tlb_cpu_mask (vss s v)) cpu) (vs_asid (vss s v)) (vspace_root_addr (vss s v))) s.
Proof. intros H. unfold vs_tlb_cpu_mask_clear. destruct (Z.leb_spec RENDEZVOS_MAX_CPU_NUMBER cpu); [lia|]. by rewrite u32_small by (unfold RENDEZVOS_MAX_CPU_NUMBER in H; lia). Qed.
Lemma vs_get_eq v s : 0 < vs_refcount (vss s v) < 2 ^ 62 -> vs_get v s = (true, set_vs_ref v (vs_refcount (vss s v) + 1) s).
Proof. intros H. unfold vs_get. by rewrite get_live. Qed.
Lemma vs_put_eq v s : 0 < vs_refcount (vss s v) < 2 ^ 62 -> vs_put free_vspace_ref v s =
  let s1 := set_vs_ref v (vs_refcount (vss s v) - 1) s in if vs_refcount (vss s v) - 1 =? 0 then set_world (free_vspace_ref v (world s)) s1 else s1.
Proof.
  intros H. unfold vs_put. destruct (Z.eqb_spec (vs_refcount (vss s v) - 1) 0) as [E|E].
  - replace (vs_refcount (vss s v)) with 1 by lia. done.
  - rewrite put_live by lia. done.
Qed.

(** the stores that make CPU [cpu] use [w], and those that make it forget [old] *)
Lemma come_in cpu w s : 0 <= cpu < RENDEZVOS_MAX_CPU_NUMBER ->
  forall u, vss (load_vspace cpu w (vs_tlb_cpu_mask_set w cpu (set_vs_ref w (vs_refcount (vss s w) + 1) s))) u =
  if u =? w then mk_vs (vs_refcount (vss s w) + 1) (bitmap_set (tlb_cpu_mask (vss s w)) cpu) (vs_asid (vss s w)) (vspace_root_addr (vss s w)) else vss s u.
Proof.
  intros H u. rewrite mask_set_eq by done. cbn [load_vspace vss]. rewrite vss_set_vs. unfold set_vs_ref. rewrite !vss_set_vs, Z.eqb_refl.
  by destruct (u =? w).
Qed.
Lemma go_out cpu old s s' : 0 <= cpu < RENDEZVOS_MAX_CPU_NUMBER -> 0 < vs_refcount (vss s old) < 2 ^ 62 ->
  s' = vs_put free_vspace_ref old (vs_tlb_cpu_mask_clear old cpu s) ->
  (forall u, vss s' u =
    if u =? old then mk_vs (vs_refcount (vss s old) - 1) (bitmap_clear (tlb_cpu_mask (vss s old)) cpu) (vs_asid (vss s old)) (vspace_root_addr (vss s old)) else vss s u) /\
  same_queues s s' /\ current_vspace s' = current_vspace s /\ loaded s' = loaded s /\
  world s' = if vs_refcount (vss s old) - 1 =? 0 then free_vspace_ref old (world s) else world s.
Proof.
  intros H Hr ->. rewrite mask_clear_eq by done. rewrite vs_put_eq by (by rewrite vss_set_vs, Z.eqb_refl).
  rewrite !vss_set_vs, Z.eqb_refl. cbn [vs_refcount]. cbv zeta.
  destruct (_ - 1 =? 0); (split; [intros u; cbn [set_world vss]; unfold set_vs_ref; rewrite !vss_set_vs, Z.eqb_refl; by destruct (u =? old)|done]).
Qed.

Lemma masks_move cpu w old v m : bitmap_ok m RENDEZVOS_MAX_CPU_NUMBER -> 0 <= cpu < RENDEZVOS_MAX_CPU_NUMBER ->
  let m' := if v =? w then bitmap_set m cpu else if v =? old then bitmap_clear m cpu else m in
  bitmap_ok m' RENDEZVOS_MAX_CPU_NUMBER /\
  forall c, 0 <= c < RENDEZVOS_MAX_CPU_NUMBER -> bitmap_test m' c = bit_move cpu w old v c (bitmap_test m c).
Proof.
  intros Hm Hc m'. subst m'. unfold bit_move. destruct (v =? w); [|destruct (v =? old); [|split; [done|]; intros c _; by destruct (c =? cpu)]].
  - destruct (bitmap_set_spec _ _ _ Hm Hc) as [H1 H2]. split; [done|]. intros c Hcr. rewrite H2, (Z.eqb_sym cpu) by done. done.
  - destruct (bitmap_clear_spec _ _ _ Hm Hc) as [H1 H2]. split; [done|]. intros c Hcr. rewrite H2, (Z.eqb_sym cpu) by done. done.
Qed.

Lemma enter_effect T C V held cpu new s : spaces_ok T C V held s -> cpu ∈ C -> new ∈ T -> (is_user s new = true -> t_vs (threads s new) ∈ V) ->
  exists s', enter_vspace free_vspace_ref cpu new s = (true, s') /\ spaces_ok T C V held s' /\ same_queues s s' /\
    (forall v, same_space (vss s' v) (vss s v)) /\
    (forall c, c <> cpu -> current_vspace s' c = current_vspace s c /\ loaded s' c = loaded s c) /\
    current_vspace s' cpu = (if is_user s new then t_vs (threads s new) else current_vspace s cpu) /\
    world s' = (let old := current_vspace s cpu in
                if is_user s new && negb (old =? t_vs (threads s new)) && negb (old =? root_vspace s) && abandoned T C held s' old
                then free_vspace_ref old (world s) else world s).
Proof.
  intros Hs Hcpu Hnew Huser. unfold enter_vspace. fold (is_user s new). destruct (is_user s new); cbn [andb].
  2: { exists s. split_and!; try done. }
  specialize (Huser eq_refl). set (w := t_vs (threads s new)) in *. set (old := current_vspace s cpu).
  pose proof Hs as [[Hnd Hrng] [Hroot Hnull] Hcount Hheld Hmask Hcur].
  replace ((w =? NULL) || (w =? root_vspace s)) with false by
    (destruct (Z.eqb_spec w NULL) as [E|]; [by rewrite E in Huser|]; destruct (Z.eqb_spec w (root_vspace s)) as [E|]; [by rewrite E in Huser|done]).
  destruct (Z.eqb_spec old w) as [Eow|Hne]; cbn [negb andb]; [by exists s|].
  assert (Hlive : forall v, v ∈ V -> 1 <= users T C s v -> 0 < vs_refcount (vss s v) < 2 ^ 62).
  { intros v Hv H1. rewrite Hcount by done. pose proof (users_range T C s v). pose proof (Hheld v Hv). lia. }
  pose proof (Hlive w Huser (owner_counts T C s new Hnew)) as Hlw. rewrite vs_get_eq by done. cbn [negb].
  set (s3 := load_vspace cpu w (vs_tlb_cpu_mask_set w cpu (set_vs_ref w (vs_refcount (vss s w) + 1) s))).
  assert (E3 := come_in cpu w s (Hrng cpu Hcpu)). fold s3 in E3.
  assert (Hq3 : same_queues s s3 /\ current_vspace s3 = <[cpu := w]> (current_vspace s) /\ world s3 = world s /\
    loaded s3 = <[cpu := (vspace_root_addr (vss s w), vs_asid (vss s w))]> (loaded s)).
  { subst s3. rewrite mask_set_eq by (by apply Hrng). unfold set_vs_ref. split; [done|]. split; [done|]. split; [done|].
    cbn [load_vspace loaded]. by rewrite !vss_set_vs, Z.eqb_refl. }
  clearbody s3. destruct Hq3 as ((Q1 & Q2 & Q3 & Q4 & Q5) & Hc3 & Hw3 & Hl3). rewrite Q4.
  destruct (Z.eqb_spec old (root_vspace s)) as [Er|Hr]; cbn [negb andb].
  - assert (Hm : moved cpu w old V s s3).
    { split; [done|done|done|done| | |].
      - intros v. rewrite E3. destruct (Z.eqb_spec v w) as [->|]; by split.
      - intros v Hv. rewrite E3. unfold ref_move. destruct (Z.eqb_spec v old) as [->|]; [by rewrite Er in Hv|]. destruct (Z.eqb_spec v w) as [->|]; cbn; lia.
      - intros v Hv. rewrite E3. destruct (masks_move cpu w old v _ (proj1 (Hmask v Hv)) (Hrng cpu Hcpu)) as [M1 M2].
        destruct (Z.eqb_spec v w) as [->|]; [done|]. destruct (Z.eqb_spec v old) as [->|]; [by rewrite Er in Hv|done]. }
    exists s3. split; [done|]. split; [by apply (moved_ok T C V held cpu w old s s3 Hs Hcpu Huser eq_refl (not_eq_sym Hne))|]. split; [exact (conj Q1 (conj Q2 (conj Q3 (conj Q4 Q5))))|]. split; [apply (mv_same _ _ _ _ _ _ Hm)|].
    rewrite Hc3, Hl3. split; [intros c Hc; by rewrite !fn_lookup_insert_ne by done|]. split; [by rewrite fn_lookup_insert|done].
  - assert (Hold : old ∈ V) by (destruct (Hcur cpu Hcpu) as [?|[? _]]; done).
    assert (E3o : vss s3 old = vss s old) by (rewrite E3; destruct (Z.eqb_spec old w); [done|done]).
    pose proof (Hlive old Hold (cpu_counts T C s cpu Hcpu)) as Hlo. rewrite <- E3o in Hlo.
    destruct (go_out cpu old s3 _ (Hrng cpu Hcpu) Hlo eq_refl) as (E5 & Hq5 & Hc5 & Hl5 & Hw5).
    set (s5 := vs_put free_vspace_ref old (vs_tlb_cpu_mask_clear old cpu s3)) in *. clearbody s5.
    destruct Hq5 as (P1 & P2 & P3 & P4 & P5). rewrite E3o in *.
    assert (Hm : moved cpu w old V s s5).
    { split; [congruence|congruence|congruence|congruence| | |].
      - intros v. rewrite E5, E3. destruct (Z.eqb_spec v old) as [->|]; [by split|]. destruct (Z.eqb_spec v w) as [->|]; by split.
      - intros v Hv. rewrite E5, E3. unfold ref_move. destruct (Z.eqb_spec v old) as [->|]; [destruct (Z.eqb_spec old w); [done|]; cbn; lia|].
        destruct (Z.eqb_spec v w) as [->|]; cbn; lia.
      - intros v Hv. rewrite E5, E3. destruct (masks_move cpu w old v _ (proj1 (Hmask v Hv)) (Hrng cpu Hcpu)) as [M1 M2].
        destruct (Z.eqb_spec v old) as [->|]; [by destruct (Z.eqb_spec old w)|]. destruct (Z.eqb_spec v w) as [->|]; done. }
    assert (Hs5 : spaces_ok T C V held s5) by (by apply (moved_ok T C V held cpu w old s s5 Hs Hcpu Huser eq_refl (not_eq_sym Hne))).
    exists s5. split; [done|]. split; [done|]. split; [unfold same_queues; split_and!; congruence|]. split; [apply (mv_same _ _ _ _ _ _ Hm)|].
    rewrite Hc5, Hl5, Hc3, Hl3. split; [intros c Hc; by rewrite !fn_lookup_insert_ne by done|]. split; [by rewrite fn_lookup_insert|].
    rewrite Hw5, Hw3. f_equal. unfold abandoned. rewrite <- (so_count _ _ _ _ _ Hs5 old Hold), E5, Z.eqb_refl. done.
Qed.

(** ** The turn *)

(** may be chosen once the running thread has been marked ready *)
Definition runnable s (cur x : Z) : bool := ready s x || (x =? cur) && (status (threads s x) =? thread_status_running).
Definition exit_requested s (t : Z) : bool := negb (Z.land (flags (threads s t)) THREAD_FLAG_EXIT_REQUESTED =? 0).
Definition with_status (v : Z) (x : thread) : thread := mk_thread v (flags x) (t_vs x) (t_tm x).
(** the status of [x] after [cur] has given way to [t] *)
Definition after_turn s (cur t x : Z) : Z :=
  if x =? t then thread_status_running
  else if x =? cur then
    if runnable s cur cur then (if exit_requested s cur then thread_status_zombie else thread_status_ready) else status (threads s cur)
  else status (threads s x).

Record cpu_ok (T C V : list Z) (held : Z -> Z) (cpu tm : Z) s (cur : Z) (l : list Z) : Prop := {
  co_cycle : cycle (ring s) tm cur l;
  co_real : NULL ∉ tm :: l;
  co_current : tm_current (tms s tm) = cur;
  co_scheduler : scheduler (tms s tm) = true;
  co_cpu : cpu ∈ C;
  co_known : forall x, x ∈ l -> x ∈ T;
  co_users : forall x, x ∈ l -> is_user s x = true -> t_vs (threads s x) ∈ V;
  co_space : is_user s cur = true -> current_vspace s cpu = t_vs (threads s cur);
  co_spaces : spaces_ok T C V held s
}.

Lemma set_status_eq t v s x : t <> NULL -> threads (set_status t v s) x = if x =? t then with_status v (threads s t) else threads s x.
Proof.
  intros H. unfold set_status. destruct (Z.eqb_spec t NULL); [done|]. cbn. destruct (Z.eqb_spec x t) as [->|]; [by rewrite fn_lookup_insert|].
  by rewrite fn_lookup_insert_ne by done.
Qed.
Lemma status_cas_eq t e g s : t <> NULL -> snd (status_cas t e g s) = set_status t (if status (threads s t) =? e then g else status (threads s t)) s.
Proof. intros H. unfold status_cas. by destruct (Z.eqb_spec t NULL). Qed.

(** all but the threads and their queues *)
Definition same_spaces s s' : Prop := vss s' = vss s /\ root_vspace s' = root_vspace s /\ current_vspace s' = current_vspace s /\ loaded s' = loaded s.
Lemma set_status_same t v s : same_spaces s (set_status t v s) /\ ring (set_status t v s) = ring s /\ tms (set_status t v s) = tms s /\
  switches (set_status t v s) = switches s /\ world (set_status t v s) = world s.
Proof. unfold set_status, same_spaces. by destruct (t =? NULL). Qed.
Lemma users_frame T C s s' v : current_vspace s' = current_vspace s -> (forall x, t_vs (threads s' x) = t_vs (threads s x)) -> users T C s' v = users T C s v.
Proof. intros E Ht. unfold users. rewrite E. do 2 f_equal. apply map_ext. intros x. by rewrite Ht. Qed.
Lemma spaces_frame T C V held s s' : spaces_ok T C V held s -> same_spaces s s' -> (forall x, t_vs (threads s' x) = t_vs (threads s x)) -> spaces_ok T C V held s'.
Proof.
  intros [H1 H2 H3 H4 H5 H6] (E1 & E2 & E3 & E4) Ht. split; rewrite ?E1, ?E2, ?E3, ?E4; try done.
  intros v Hv. rewrite H3 by done. f_equal. symmetry. by apply users_frame.
Qed.

(** the state [s'] after CPU [cpu] went from [cur] to [t] *)
Record turned (T C : list Z) (held : Z -> Z) (cpu tm : Z) s (cur t : Z) s' : Prop := {
  td_ring : ring s' = ring s;
  td_threads : forall x, threads s' x = with_status (after_turn s cur t x) (threads s x);
  td_tms : forall m, tms s' m = if m =? tm then mk_tm (owner_cpu (tms s tm)) t (scheduler (tms s tm)) else tms s m;
  td_root : root_vspace s' = root_vspace s;
  td_same : forall v, same_space (vss s' v) (vss s v);
  td_others : forall c, c <> cpu -> current_vspace s' c = current_vspace s c /\ loaded s' c = loaded s c;
  td_space : current_vspace s' cpu = if is_user s t then t_vs (threads s t) else current_vspace s cpu;
  td_switches : switches s' = switches s ++ (if t =? cur then [] else [(cur, t)]);
  td_world : world s' =
    let w := try_reclaim cpu (process_frees cpu (world s)) in let old := current_vspace s cpu in
    if is_user s t && negb (old =? t_vs (threads s t)) && negb (old =? root_vspace s) && abandoned T C held s' old then free_vspace_ref old w else w
}.

Definition marked s (x : Z) : Z := if status (threads s x) =? thread_status_running then thread_status_ready else status (threads s x).

(** the state in which the next thread has been chosen *)
Definition chosen cpu tm (cur t : Z) s : sys W :=
  set_current tm t (set_status cur (marked s cur) (set_world (try_reclaim cpu (process_frees cpu (world s))) s)).
Lemma chosen_threads cpu tm cur t s x : cur <> NULL -> threads (chosen cpu tm cur t s) x = if x =? cur then with_status (marked s cur) (threads s cur) else threads s x.
Proof. intros H. exact (set_status_eq cur _ (set_world _ s) x H). Qed.
Lemma chosen_frame cpu tm cur t s : ring (chosen cpu tm cur t s) = ring s /\ same_spaces s (chosen cpu tm cur t s) /\
  switches (chosen cpu tm cur t s) = switches s /\ world (chosen cpu tm cur t s) = try_reclaim cpu (process_frees cpu (world s)) /\
  forall m, tms (chosen cpu tm cur t s) m = if m =? tm then mk_tm (owner_cpu (tms s tm)) t (scheduler (tms s tm)) else tms s m.
Proof.
  unfold chosen. destruct (set_status_same cur (marked s cur) (set_world (try_reclaim cpu (process_frees cpu (world s))) s)) as (H1 & H2 & H3 & H4 & H5).
  set (s1 := set_status _ _ _) in *. split; [exact H2|]. split; [exact H1|]. split; [exact H4|]. split; [exact H5|].
  intros m. cbn. rewrite H3. cbn. destruct (Z.eqb_spec m tm) as [->|]; [by rewrite fn_lookup_insert|by rewrite fn_lookup_insert_ne by done].
Qed.

(** [schedule] once the address space of the next thread has been entered *)
Definition leave (cur t : Z) s : sys W :=
  let s := if exit_requested s cur && (status (threads s cur) =? thread_status_ready) then snd (status_cas cur thread_status_ready thread_status_zombie s) else s in
  switch_to cur t (set_status t thread_status_running s).

(** the state in which the search runs *)
Definition yielded cpu cur s : sys W := set_status cur (marked s cur) (set_world (try_reclaim cpu (process_frees cpu (world s))) s).
Lemma yielded_ready cpu cur s x : cur <> NULL -> ready (yielded cpu cur s) x = runnable s cur x.
Proof.
  intros Hn. unfold ready, runnable, yielded. rewrite set_status_eq by done. cbn [set_world threads]. destruct (Z.eqb_spec x cur) as [->|]; cbn [andb]; [|by rewrite orb_false_r].
  unfold marked, ready, with_status. cbn [status]. destruct (Z.eqb_spec (status (threads s cur)) thread_status_running) as [->|]; [done|]. by rewrite orb_false_r.
Qed.

(** [schedule] as a search and what follows it *)
Lemma schedule_search T C V held cpu tm s cur l fuel : cpu_ok T C V held cpu tm s cur l ->
  schedule process_frees try_reclaim free_vspace_ref cpu fuel tm s =
    match ready_loop fuel tm (next (ring s cur)) (yielded cpu cur s) with
    | None => None
    | Some t =>
      let s := chosen cpu tm cur t s in
      if (t =? NULL) || (cur =? t) then Some (use_old_thread tm cur s)
      else let '(ok, s) := enter_vspace free_vspace_ref cpu t s in if negb ok then Some (use_old_thread tm cur s) else Some (leave cur t s)
    end.
Proof.
  intros [Hc Hreal Hcur Hsch _ _ _ _ _]. apply not_elem_of_cons in Hreal as [Htm Hnl].
  assert (Hcn : cur <> NULL) by (intros E; rewrite <- E in Hnl; apply Hnl; by eapply cycle_cur).
  unfold schedule. destruct (Z.eqb_spec tm NULL); [by subst|]. cbn [set_world tms]. rewrite Hcur.
  set (s0 := set_world _ s). unfold status_cas at 1. destruct (Z.eqb_spec cur NULL); [done|]. cbn [atomic64_cas].
  replace (if status (threads s0 cur) =? thread_status_running then thread_status_ready else status (threads s0 cur)) with (marked s cur) by done.
  change (set_status cur (marked s cur) s0) with (yielded cpu cur s).
  destruct (set_status_same cur (marked s cur) s0) as (_ & Hr1 & Ht1 & _ & _). change (set_status cur (marked s cur) s0) with (yielded cpu cur s) in Hr1, Ht1.
  rewrite Ht1. cbn [s0 set_world tms]. rewrite Hsch. unfold round_robin_schedule. rewrite Ht1. cbn [s0 set_world tms]. rewrite Hcur, Hr1.
  destruct (Z.eqb_spec tm NULL); [done|]. destruct (Z.eqb_spec cur NULL); [done|]. cbn [orb s0 set_world ring].
  destruct (ready_loop fuel tm (next (ring s cur)) (yielded cpu cur s)) as [t|]; [|done]. cbn [mbind option_bind].
  change (set_current tm t (yielded cpu cur s)) with (chosen cpu tm cur t s). cbv zeta.
  replace (tm_current (tms (chosen cpu tm cur t s) tm)) with t by (destruct (chosen_frame cpu tm cur t s) as (_ & _ & _ & _ & ->); by rewrite Z.eqb_refl).
  done.
Qed.

Lemma yielded_cycle T C V held cpu tm s cur l : cpu_ok T C V held cpu tm s cur l -> cycle (ring (yielded cpu cur s)) tm cur l /\
  ring (yielded cpu cur s) = ring s /\ (forall x, x ∈ l -> x <> NULL) /\ cur <> NULL.
Proof.
  intros [Hc Hreal _ _ _ _ _ _ _]. apply not_elem_of_cons in Hreal as [Htm Hnl].
  destruct (set_status_same cur (marked s cur) (set_world (try_reclaim cpu (process_frees cpu (world s))) s)) as (_ & E & _).
  assert (Hne : forall x, x ∈ l -> x <> NULL) by (intros x Hx ->; done).
  unfold yielded. rewrite E. split; [done|]. split; [done|]. split; [done|]. apply Hne. by eapply cycle_cur.
Qed.

Lemma choice T C V held cpu tm s cur X t Y fuel : cpu_ok T C V held cpu tm s cur (X ++ t :: Y) -> runnable s cur t = true ->
  (forall x, x ∈ X -> runnable s cur x = false) -> (length (X ++ t :: Y) + 1 <= fuel)%nat ->
  schedule process_frees try_reclaim free_vspace_ref cpu fuel tm s =
    if cur =? t then Some (use_old_thread tm cur (chosen cpu tm cur t s))
    else let '(ok, s) := enter_vspace free_vspace_ref cpu t (chosen cpu tm cur t s) in if negb ok then Some (use_old_thread tm cur s) else Some (leave cur t s).
Proof.
  intros Hok Ht HX Hf. rewrite (schedule_search _ _ _ _ _ _ _ _ _ _ Hok). destruct (yielded_cycle _ _ _ _ _ _ _ _ _ Hok) as (Hc & Hr & Hne & Hcn).
  pose proof (round_effect _ _ _ _ fuel Hc) as Hse. rewrite (find_eq _ (runnable s cur)), find_app in Hse by (intros; by apply yielded_ready).
  replace (List.find (runnable s cur) X) with (@None Z) in Hse.
  - cbn [List.find] in Hse. rewrite Ht, Hr in Hse. rewrite Hse by done. destruct (Z.eqb_spec t NULL) as [E|]; [|done].
    exfalso. apply (Hne t); [apply elem_of_app; right; by left|done].
  - symmetry. destruct (List.find (runnable s cur) X) eqn:E; [|done]. apply find_split in E as (X1 & X2 & -> & E1 & _).
    rewrite HX in E1; [done|]. apply elem_of_app. right. by left.
Qed.

(** with no thread to run, the search goes round for ever *)
Lemma schedule_hangs T C V held cpu tm s cur l fuel : cpu_ok T C V held cpu tm s cur l -> (forall x, x ∈ l -> runnable s cur x = false) ->
  schedule process_frees try_reclaim free_vspace_ref cpu fuel tm s = None.
Proof.
  intros Hok HX. rewrite (schedule_search _ _ _ _ _ _ _ _ _ _ Hok). destruct (yielded_cycle _ _ _ _ _ _ _ _ _ Hok) as (Hc & Hr & Hne & Hcn).
  pose proof (round_effect _ _ _ _ fuel Hc) as Hse. rewrite (find_eq _ (runnable s cur)) in Hse by (intros; by apply yielded_ready).
  destruct (List.find (runnable s cur) l) as [t|] eqn:E; [|by rewrite Hr in Hse; rewrite Hse].
  apply find_split in E as (X1 & X2 & -> & E1 & _). rewrite HX in E1; [done|]. apply elem_of_app. right. by left.
Qed.

Lemma thread_eta x : with_status (status x) x = x.
Proof. by destruct x. Qed.
Lemma user_of s s' t : flags (threads s' t) = flags (threads s t) -> is_user s' t = is_user s t.
Proof. unfold is_user. by intros ->. Qed.

(** the thread that runs stays: nothing but its status was touched *)
Lemma stay T C V held cpu tm s cur l s' : cpu_ok T C V held cpu tm s cur l -> cur <> NULL -> runnable s cur cur = true ->
  s' = use_old_thread tm cur (chosen cpu tm cur cur s) -> turned T C held cpu tm s cur cur s'.
Proof.
  intros Hok Hn Hr ->. unfold use_old_thread. destruct (chosen_frame cpu tm cur cur s) as (F1 & (F2 & F3 & F4 & F5) & F6 & F7 & F8).
  pose proof (chosen_threads cpu tm cur cur s) as F0. set (s1 := chosen cpu tm cur cur s) in *. clearbody s1.
  rewrite status_cas_eq by done. set (v := if _ =? _ then _ else _).
  assert (Hv : v = thread_status_running).
  { subst v. cbn [set_current set_tm threads]. rewrite F0, Z.eqb_refl by done. unfold with_status, marked. cbn [status].
    unfold runnable, ready in Hr. rewrite Z.eqb_refl in Hr. cbn [andb] in Hr.
    destruct (Z.eqb_spec (status (threads s cur)) thread_status_running) as [E|]; [done|]. by rewrite orb_false_r in Hr; rewrite Hr. }
  rewrite Hv. clear v Hv. destruct (set_status_same cur thread_status_running (set_current tm cur s1)) as ((G1 & G2 & G3 & G4) & G5 & G6 & G7 & G8).
  split.
  - by rewrite G5.
  - intros x. rewrite set_status_eq by done. cbn [set_current set_tm threads]. unfold after_turn. rewrite !F0, Z.eqb_refl by done.
    destruct (Z.eqb_spec x cur) as [->|]; [by destruct (threads s cur)|by rewrite thread_eta].
  - intros m. rewrite G6. cbn [set_current set_tm tms]. destruct (Z.eqb_spec m tm) as [->|Hm].
    + rewrite fn_lookup_insert, F8, Z.eqb_refl. done.
    + rewrite fn_lookup_insert_ne by done. rewrite F8. by destruct (Z.eqb_spec m tm).
  - by rewrite G2.
  - intros v. rewrite G1. cbn. rewrite F2. by split.
  - intros c _. rewrite G3, G4. cbn. by rewrite F4, F5.
  - rewrite G3. cbn. rewrite F4. destruct (is_user s cur) eqn:E; [|done]. by apply (co_space _ _ _ _ _ _ _ _ _ Hok).
  - rewrite G7, Z.eqb_refl, app_nil_r. cbn. done.
  - rewrite G8. cbn. rewrite F7. cbv zeta. destruct (is_user s cur) eqn:E; [|done]. rewrite (co_space _ _ _ _ _ _ _ _ _ Hok E), Z.eqb_refl. done.
Qed.

Lemma leave_threads cur t s x : cur <> NULL -> t <> NULL -> t <> cur -> threads (leave cur t s) x =
  with_status (if x =? t then thread_status_running
               else if (x =? cur) && (exit_requested s cur && (status (threads s cur) =? thread_status_ready)) then thread_status_zombie else status (threads s x)) (threads s x).
Proof.
  intros Hc Ht Hne. unfold leave. cbn [switch_to threads]. rewrite set_status_eq by done.
  destruct (Z.eqb_spec x t) as [->|Hx].
  - destruct (_ && _); [|done]. rewrite status_cas_eq, set_status_eq by done. by destruct (Z.eqb_spec t cur).
  - destruct (exit_requested s cur && (status (threads s cur) =? thread_status_ready)) eqn:E.
    + rewrite status_cas_eq, set_status_eq by done. apply andb_prop in E as [_ ->]. destruct (Z.eqb_spec x cur) as [->|]; [done|]. cbn [andb]. by rewrite thread_eta.
    + rewrite andb_false_r. by rewrite thread_eta.
Qed.
Lemma leave_frame cur t s : same_spaces s (leave cur t s) /\ ring (leave cur t s) = ring s /\ tms (leave cur t s) = tms s /\
  switches (leave cur t s) = switches s ++ [(cur, t)] /\ world (leave cur t s) = world s.
Proof.
  unfold leave. set (s1 := if _ : bool then _ else _).
  assert (H : same_spaces s s1 /\ ring s1 = ring s /\ tms s1 = tms s /\ switches s1 = switches s /\ world s1 = world s).
  { subst s1. destruct (_ && _); [|done]. unfold status_cas. destruct (cur =? NULL); [done|]. apply set_status_same. }
  clearbody s1. destruct H as ((H1 & H2 & H3 & H4) & H5 & H6 & H7 & H8).
  destruct (set_status_same t thread_status_running s1) as ((G1 & G2 & G3 & G4) & G5 & G6 & G7 & G8).
  unfold same_spaces. cbn [switch_to ring tms vss root_vspace current_vspace loaded switches world].
  split_and!; congruence.
Qed.

(** the switch to another thread *)
Lemma go T C V held cpu tm s cur l t : cpu_ok T C V held cpu tm s cur l -> cur <> NULL -> t <> NULL -> t <> cur -> t ∈ l ->
  exists s2, enter_vspace free_vspace_ref cpu t (chosen cpu tm cur t s) = (true, s2) /\
    turned T C held cpu tm s cur t (leave cur t s2) /\ spaces_ok T C V held (leave cur t s2).
Proof.
  intros Hok Hn Htn Hne Htl. destruct (chosen_frame cpu tm cur t s) as (F1 & Fsp & F6 & F7 & F8). pose proof Fsp as (F2 & F3 & F4 & F5).
  pose proof (chosen_threads cpu tm cur t s) as F0. set (s1 := chosen cpu tm cur t s) in *. clearbody s1.
  assert (Hfl : forall x, flags (threads s1 x) = flags (threads s x) /\ t_vs (threads s1 x) = t_vs (threads s x)).
  { intros x. rewrite F0 by done. by destruct (Z.eqb_spec x cur) as [->|]. }
  assert (Hu : forall x, is_user s1 x = is_user s x) by (intros x; apply user_of, Hfl).
  assert (Hs1 : spaces_ok T C V held s1) by (apply (spaces_frame _ _ _ _ s); [apply Hok|done|intros x; apply Hfl]).
  destruct (enter_effect T C V held cpu t s1 Hs1 (co_cpu _ _ _ _ _ _ _ _ _ Hok) (co_known _ _ _ _ _ _ _ _ _ Hok t Htl)) as (s2 & E & Hs2 & Hq & Hsame & Hoth & Hsp & Hw).
  { rewrite Hu. destruct (Hfl t) as [_ ->]. by apply (co_users _ _ _ _ _ _ _ _ _ Hok). }
  exists s2. split; [done|]. destruct Hq as (Q1 & Q2 & Q3 & Q4 & Q5).
  pose proof (leave_frame cur t s2) as (L1 & L2 & L3 & L4 & L5). pose proof L1 as (L11 & L12 & L13 & L14).
  assert (Hth : forall x, threads (leave cur t s2) x = with_status (after_turn s cur t x) (threads s x)).
  { intros x. rewrite leave_threads by done. unfold exit_requested, after_turn. rewrite Q2, !F0, Z.eqb_refl by done.
    destruct (Z.eqb_spec x t) as [->|Hx]; [by destruct (Z.eqb_spec t cur)|]. destruct (Z.eqb_spec x cur) as [->|]; cbn [andb]; [|done].
    fold (exit_requested s cur). unfold runnable, ready, marked, with_status. cbn [flags t_vs t_tm status]. rewrite Z.eqb_refl. cbn [andb]. fold (exit_requested s cur).
    destruct (Z.eqb_spec (status (threads s cur)) thread_status_running) as [->|].
    - rewrite Z.eqb_refl, andb_true_r, orb_true_r. by destruct (exit_requested s cur).
    - rewrite orb_false_r. destruct (Z.eqb_spec (status (threads s cur)) thread_status_ready) as [->|]; [rewrite andb_true_r|rewrite andb_false_r; done]. by destruct (exit_requested s cur). }
  split.
  - split; [congruence|exact Hth| | | | | | |].
    + intros m. rewrite L3, Q3. apply F8.
    + congruence.
    + intros v. rewrite L11. rewrite <- F2. apply Hsame.
    + intros c Hc. rewrite L13, L14. destruct (Hoth c Hc) as [-> ->]. by rewrite F4, F5.
    + rewrite L13, Hsp, Hu, F4. destruct (Hfl t) as [_ ->]. done.
    + rewrite L4, Q5, F6. by destruct (Z.eqb_spec t cur).
    + rewrite L5, Hw, F7, Hu, F4, F3. destruct (Hfl t) as [_ ->]. cbv zeta.
      unfold abandoned. rewrite (users_frame T C s2 (leave cur t s2)); [done|done|]. intros x. rewrite Hth, Q2. cbn. symmetry. apply Hfl.
  - apply (spaces_frame _ _ _ _ s2 _ Hs2 L1). intros x. rewrite Hth, Q2. cbn. symmetry. apply Hfl.
Qed.

(** the next thread in the order of the ring takes the CPU *)
Lemma schedule_effect T C V held cpu tm s cur X t Y fuel : cpu_ok T C V held cpu tm s cur (X ++ t :: Y) -> runnable s cur t = true ->
  (forall x, x ∈ X -> runnable s cur x = false) -> (length (X ++ t :: Y) + 1 <= fuel)%nat ->
  exists s', schedule process_frees try_reclaim free_vspace_ref cpu fuel tm s = Some s' /\ turned T C held cpu tm s cur t s' /\
    cpu_ok T C V held cpu tm s' t (Y ++ X ++ [t]).
Proof.
  intros Hok Ht HX Hf. rewrite (choice _ _ _ _ _ _ _ _ _ _ _ _ Hok Ht HX Hf). cbv zeta.
  pose proof (co_real _ _ _ _ _ _ _ _ _ Hok) as [Htm Hnl]%not_elem_of_cons.
  assert (Hne : forall x, x ∈ X ++ t :: Y -> x <> NULL) by (intros x Hx ->; done).
  pose proof (Hne cur (cycle_cur _ _ _ _ (co_cycle _ _ _ _ _ _ _ _ _ Hok))) as Hcn.
  assert (Htl : t ∈ X ++ t :: Y) by (apply elem_of_app; right; by left).
  assert (Hs : exists s', (if cur =? t then Some (use_old_thread tm cur (chosen cpu tm cur t s))
      else let '(ok, s) := enter_vspace free_vspace_ref cpu t (chosen cpu tm cur t s) in if negb ok then Some (use_old_thread tm cur s) else Some (leave cur t s)) = Some s' /\
      turned T C held cpu tm s cur t s' /\ spaces_ok T C V held s').
  { destruct (Z.eqb_spec cur t) as [<-|Hct].
    - eexists. split; [done|]. pose proof (stay _ _ _ _ _ _ _ _ _ _ Hok Hcn Ht eq_refl) as Htd. split; [done|].
      apply (spaces_frame _ _ _ _ s); [apply Hok| |intros x; by rewrite (td_threads _ _ _ _ _ _ _ _ _ Htd)].
      unfold use_old_thread. rewrite status_cas_eq by done. destruct (chosen_frame cpu tm cur cur s) as (_ & (F2 & F3 & F4 & F5) & _).
      set (s2 := set_current tm cur (chosen cpu tm cur cur s)). destruct (set_status_same cur (if status (threads s2 cur) =? thread_status_ready then thread_status_running else status (threads s2 cur)) s2) as ((G1 & G2 & G3 & G4) & _).
      unfold same_spaces. rewrite G1, G2, G3, G4. subst s2. done.
    - destruct (go T C V held cpu tm s cur _ t Hok Hcn (Hne t Htl) ltac:(done) Htl) as (s2 & -> & H1 & H2). cbn [negb]. by eexists. }
  destruct Hs as (s' & E & Htd & Hsp). exists s'. split; [exact E|]. split; [done|].
  destruct Hok as [Hc Hreal Hcur Hsch Hcpu Hkn Hus Hspc Hs0]. pose proof Htd as [D1 D2 D3 D4 D5 D6 D7 D8 D9].
  assert (Hin : forall x, x ∈ Y ++ X ++ [t] <-> x ∈ X ++ t :: Y) by (intros x; rewrite !elem_of_app, !elem_of_cons; pose proof (not_elem_of_nil x); tauto).
  assert (Hu : forall x, is_user s' x = is_user s x) by (intros x; apply user_of; by rewrite D2).
  split.
  - rewrite D1. by eapply cycle_move.
  - rewrite not_elem_of_cons, Hin. by split.
  - by rewrite D3, Z.eqb_refl.
  - by rewrite D3, Z.eqb_refl.
  - done.
  - intros x. rewrite Hin. apply Hkn.
  - intros x. rewrite Hin, Hu, D2. apply Hus.
  - rewrite Hu, D7, D2. by intros ->.
  - done.
Qed.

(** a change of status keeps the order *)
Lemma cpu_ok_status T C V held cpu tm s cur l x v : cpu_ok T C V held cpu tm s cur l -> cpu_ok T C V held cpu tm (set_status x v s) cur l.
Proof.
  intros [H1 H2 H3 H4 H5 H6 H7 H8 H9]. destruct (set_status_same x v s) as (G & G2 & G3 & _). pose proof G as (E1 & E2 & E3 & E4).
  assert (Hf : forall y, flags (threads (set_status x v s) y) = flags (threads s y) /\ t_vs (threads (set_status x v s) y) = t_vs (threads s y)).
  { intros y. destruct (decide (x = NULL)) as [->|Hx]; [done|]. rewrite set_status_eq by done. by destruct (Z.eqb_spec y x) as [->|]. }
  assert (Hu : forall y, is_user (set_status x v s) y = is_user s y) by (intros y; apply user_of, Hf).
  split; rewrite ?G2, ?G3; try done.
  - intros y Hy. rewrite Hu. destruct (Hf y) as [_ ->]. by apply H7.
  - rewrite Hu, E3. destruct (Hf cur) as [_ ->]. done.
  - apply (spaces_frame _ _ _ _ s); [done|done|]. intros y. apply Hf.
Qed.
End Turn.
