(* ===== verification/SchedQueue.v ===== *)
(** * The run queues

    Which thread is on which queue, and what the functions that link and unlink
    a thread do to it. *)
From S2P Require Import Prelude ThreadStatus Mm ListH Refcount Asid Sched SchedTurn.

Section Queues.
Context {W : Type}.
Implicit Types s : sys W.

(** [M]: the task managers, [T]: the threads, [Q m]: the threads on the queue of [m] *)
Record queues_ok (M T : list Z) (Q : Z -> list Z) s : Prop := {
  qo_real : NULL ∉ M /\ NULL ∉ T /\ forall x, x ∈ M -> x ∉ T;
  qo_rings : forall m, m ∈ M -> list_is (ring s) m (Q m);
  qo_known : forall m x, m ∈ M -> x ∈ Q m -> x ∈ T;
  qo_named : forall m x, m ∈ M -> x ∈ T -> x ∈ Q m <-> t_tm (threads s x) = m
}.

Lemma queues_disjoint M T Q s m m' x : queues_ok M T Q s -> m ∈ M -> m' ∈ M -> m <> m' -> x ∈ m :: Q m -> x ∈ m' :: Q m' -> False.
Proof.
  intros [(Hn1 & Hn2 & Hd) _ Hk Hnm] Hm Hm' Hne [->|Hx]%elem_of_cons [E|Hx']%elem_of_cons.
  - done.
  - by apply (Hd m Hm), (Hk m').
  - subst. by apply (Hd m' Hm'), (Hk m).
  - apply Hne. pose proof (Hk m x Hm Hx) as Ht. apply (Hnm m) in Hx; [|done..]. apply (Hnm m') in Hx'; [|done..]. congruence.
Qed.

Lemma manager_add_effect M T Q s m t : queues_ok M T Q s -> m ∈ M -> t ∈ T -> t_tm (threads s t) = NULL ->
  exists s', add_thread_to_manager m t s = (REND_SUCCESS, s') /\ queues_ok M T (<[m := Q m ++ [t]]> Q) s' /\
    (forall x, threads s' x = if x =? t then mk_thread (if status (threads s t) =? thread_status_init then thread_status_ready else status (threads s t)) (flags (threads s t)) (t_vs (threads s t)) m else threads s x) /\
    same_spaces s s' /\ tms s' = tms s /\ switches s' = switches s /\ world s' = world s.
Proof.
  intros Hq Hm Ht Hnone. pose proof Hq as [(Hn1 & Hn2 & Hd) Hr Hk Hnm].
  unfold add_thread_to_manager. assert (m <> NULL /\ t <> NULL) as [Hmn Htn] by (split; intros ->; done).
  destruct (Z.eqb_spec m NULL); [done|]. destruct (Z.eqb_spec t NULL); [done|]. cbn [orb]. rewrite Hnone. cbn [negb Z.eqb].
  rewrite status_cas_eq by done. set (s1 := set_thread_tm t m _). eexists. split; [done|].
  assert (E1 : forall x, threads s1 x = if x =? t then mk_thread (status (threads s t)) (flags (threads s t)) (t_vs (threads s t)) m else threads s x).
  { intros x. subst s1. cbn. destruct (Z.eqb_spec x t) as [->|]; [by rewrite fn_lookup_insert|by rewrite fn_lookup_insert_ne by done]. }
  set (v := if status (threads s1 t) =? _ then _ else _). destruct (set_status_same t v s1) as (G1 & G2 & G3 & G4 & G5).
  assert (Eth : forall x, threads (set_status t v s1) x = if x =? t then mk_thread v (flags (threads s t)) (t_vs (threads s t)) m else threads s x).
  { intros x. rewrite set_status_eq, !E1, Z.eqb_refl by done. by destruct (Z.eqb_spec x t). }
  split; [|split; [|done]].
  2: { intros x. rewrite Eth. subst v. rewrite E1, Z.eqb_refl. done. }
  assert (Hout : forall m', m' ∈ M -> t ∉ m' :: Q m').
  { intros m' Hm' [->|Hx]%elem_of_cons; [by apply (Hd m')|]. apply (Hnm m') in Hx; [|done..]. congruence. }
  assert (Ering : ring (set_status t v s1) = list_add_tail (ring s) t m) by (rewrite G2; done).
  split.
  - done.
  - intros m' Hm'. rewrite Ering. destruct (decide (m = m')) as [<-|Hne]; [rewrite fn_lookup_insert|rewrite fn_lookup_insert_ne by done].
    + apply add_tail_ok; [by apply Hr|by apply Hout].
    + apply (ring_frame (ring s)); [|by apply Hr]. intros x Hx. apply add_tail_frame.
      * intros ->. by apply (Hout m').
      * intros ->. apply (queues_disjoint M T Q s m m' m Hq Hm Hm' Hne); [by left|done].
      * intros ->. eapply (queues_disjoint M T Q s m m' _ Hq Hm Hm' Hne); [|done]. apply (ring_around _ _ _ m (Hr m Hm)). by left.
  - intros m' x Hm'. destruct (decide (m = m')) as [<-|Hne]; [rewrite fn_lookup_insert|rewrite fn_lookup_insert_ne by done; by apply Hk].
    intros [Hx|Hx]%elem_of_app; [by apply (Hk m)|]. apply elem_of_cons in Hx as [->|Hx]; [done|by apply not_elem_of_nil in Hx].
  - intros m' x Hm' Hx. rewrite Eth. destruct (Z.eqb_spec x t) as [->|Hxt]; cbn [t_tm].
    + destruct (decide (m = m')) as [<-|Hne]; [rewrite fn_lookup_insert|rewrite fn_lookup_insert_ne by done].
      * split; [done|]. intros _. apply elem_of_app. right. by left.
      * split; [|done]. intros Hin. exfalso. apply (Hout m' Hm'). by right.
    + destruct (decide (m = m')) as [<-|Hne]; [rewrite fn_lookup_insert|rewrite fn_lookup_insert_ne by done; by apply Hnm].
      rewrite <- (Hnm m x Hm Hx), elem_of_app, elem_of_cons. pose proof (not_elem_of_nil x). tauto.
Qed.

Lemma manager_del_effect M T Q s m t A B : queues_ok M T Q s -> m ∈ M -> Q m = A ++ t :: B -> tm_current (tms s m) <> t ->
  exists s', del_thread_from_manager t s = (REND_SUCCESS, s') /\ queues_ok M T (<[m := A ++ B]> Q) s' /\ list_node_is_detached (ring s') t = true /\
    (forall x, threads s' x = if x =? t then mk_thread (status (threads s t)) (flags (threads s t)) (t_vs (threads s t)) NULL else threads s x) /\
    same_spaces s s' /\ tms s' = tms s /\ switches s' = switches s /\ world s' = world s.
Proof.
  intros Hq Hm HQ Hcur. pose proof Hq as [(Hn1 & Hn2 & Hd) Hr Hk Hnm].
  assert (HtQ : t ∈ Q m) by (rewrite HQ; apply elem_of_app; right; by left). assert (Ht : t ∈ T) by (by apply (Hk m)).
  assert (Htm : t_tm (threads s t) = m) by (by apply Hnm). assert (m <> NULL /\ t <> NULL) as [Hmn Htn] by (split; intros ->; done).
  unfold del_thread_from_manager. destruct (Z.eqb_spec t NULL); [done|]. rewrite Htm. destruct (Z.eqb_spec m NULL); [done|]. cbn [negb].
  destruct (Z.eqb_spec (tm_current (tms s m)) t); [done|]. eexists. split; [done|].
  set (s' := set_thread_tm _ _ _). assert (Er : ring s' = list_del (ring s) t) by done.
  assert (Eth : forall x, threads s' x = if x =? t then mk_thread (status (threads s t)) (flags (threads s t)) (t_vs (threads s t)) NULL else threads s x).
  { intros x. subst s'. cbn. destruct (Z.eqb_spec x t) as [->|]; [by rewrite fn_lookup_insert|by rewrite fn_lookup_insert_ne by done]. }
  pose proof (Hr m Hm) as Hl. rewrite HQ in Hl. destruct (del_ok _ _ _ _ _ Hl) as (D1 & D2 & D3).
  assert (Hnd' : t ∉ A ++ B).
  { destruct Hl as [Hl _]. apply list.NoDup_cons in Hl as [_ Hl]. apply NoDup_app in Hl as (_ & H1 & H2). apply list.NoDup_cons in H2 as [H2 _].
    rewrite elem_of_app. intros [H|H]; [|done]. apply (H1 t H). by left. }
  split; [|split; [|split; [exact Eth|done]]].
  2: { rewrite Er. unfold list_node_is_detached. rewrite D2, D3, Z.eqb_refl. by destruct (Z.eqb_spec t NULL). }
  split.
  - done.
  - intros m' Hm'. rewrite Er. destruct (decide (m = m')) as [<-|Hne]; [rewrite fn_lookup_insert|rewrite fn_lookup_insert_ne by done].
    + exact D1.
    + apply (ring_frame (ring s)); [|by apply Hr].
      assert (Hin : t ∈ m :: Q m) by (by right). destruct (ring_around _ _ _ t (Hr m Hm) Hin) as (R1 & R2 & _).
      intros x Hx. apply del_frame; intros ->;
        [exact (queues_disjoint M T Q s m m' _ Hq Hm Hm' Hne Hin Hx)|exact (queues_disjoint M T Q s m m' _ Hq Hm Hm' Hne R2 Hx)|exact (queues_disjoint M T Q s m m' _ Hq Hm Hm' Hne R1 Hx)].
  - intros m' x Hm'. destruct (decide (m = m')) as [<-|Hne]; [rewrite fn_lookup_insert|rewrite fn_lookup_insert_ne by done; by apply Hk].
    intros Hx. apply (Hk m); [done|]. rewrite HQ, elem_of_app, elem_of_cons. apply elem_of_app in Hx. tauto.
  - intros m' x Hm' Hx. rewrite Eth. destruct (Z.eqb_spec x t) as [->|Hxt]; cbn [t_tm].
    + split; [|intros <-; done]. destruct (decide (m = m')) as [<-|Hne]; [by rewrite fn_lookup_insert|rewrite fn_lookup_insert_ne by done].
      intros Hin. apply (Hnm m') in Hin; [|done..]. congruence.
    + destruct (decide (m = m')) as [<-|Hne]; [rewrite fn_lookup_insert|rewrite fn_lookup_insert_ne by done; by apply Hnm].
      rewrite <- (Hnm m x Hm Hx), HQ, !elem_of_app, elem_of_cons. tauto.
Qed.

Lemma queues_frame M T Q s s' : queues_ok M T Q s -> ring s' = ring s -> (forall x, t_tm (threads s' x) = t_tm (threads s x)) -> queues_ok M T Q s'.
Proof. intros [H1 H2 H3 H4] Er Et. split; [done|by rewrite Er|done|]. intros m x Hm Hx. rewrite Et. by apply H4. Qed.

Context (process_frees try_reclaim : Z -> W -> W) (free_vspace_ref : Z -> W -> W).

(** [s] after the rest of the system has moved [n] times *)
Fixpoint after (idle : sys W -> sys W) (n : nat) s : sys W := match n with O => s | S n' => after idle n' (idle s) end.

(** [delete_thread] waits on another CPU until its own has left the thread *)
Lemma detach_effect idle cpu M T Q m t A B sfuel n : forall s fuel,
  (forall i, (i < n)%nat -> tm_current (tms (after idle i s) m) = t /\ t_tm (threads (after idle i s) t) = m /\ owner_cpu (tms (after idle i s) m) <> cpu) ->
  t <> NULL -> m <> NULL ->
  let s1 := after idle n s in
  queues_ok M T Q s1 -> m ∈ M -> Q m = A ++ t :: B -> tm_current (tms s1 m) <> t -> (n < fuel)%nat ->
  exists s', detach_loop process_frees try_reclaim free_vspace_ref idle cpu sfuel fuel t m s = Some (REND_SUCCESS, s') /\
    del_thread_from_manager t s1 = (REND_SUCCESS, s').
Proof.
  induction n as [|n IH]; intros s fuel Hw Ht Hmn s1 Hq Hm HQ Hc Hf; destruct fuel as [|fuel]; try lia; cbn [detach_loop].
  - destruct (manager_del_effect M T Q s1 m t A B Hq Hm HQ Hc) as (s' & E & _). subst s1. cbn [after] in E. rewrite E. by exists s'.
  - destruct (Hw 0%nat ltac:(lia)) as (W1 & W2 & W3). cbn [after] in W1, W2, W3.
    assert (E : del_thread_from_manager t s = (- E_REND_AGAIN, s)).
    { unfold del_thread_from_manager. destruct (Z.eqb_spec t NULL); [done|]. rewrite W2. destruct (Z.eqb_spec m NULL); [done|]. cbn [negb].
      by rewrite W1, Z.eqb_refl. }
    rewrite E. cbn [Z.eqb Z.opp]. rewrite Z.eqb_refl. destruct (Z.eqb_spec cpu (owner_cpu (tms s m))); [congruence|]. cbn [mbind option_bind].
    apply IH; try done; [|lia]. intros i Hi. exact (Hw (S i) ltac:(lia)).
Qed.
End Queues.
