(* ===== verification/SchedSpec.v ===== *)
(** * What the scheduler guarantees

    The choice of the next thread and everything [schedule] changes, the
    release of address spaces, the fairness of the round robin, and the run
    queues. *)
From S2P Require Import Prelude ThreadStatus Mm ListH Refcount Asid Sched SchedTurn SchedQueue.

Section Spec.
Context {W : Type} (process_frees try_reclaim : Z -> W -> W) (free_vspace_ref : Z -> W -> W).
Implicit Types s : sys W.

(** C19 (functional): [schedule] gives the CPU to the first thread after the
    present one, in the order of the ring, that is ready; the present thread
    counts as ready when it was running and comes last.  If there is one, the
    call returns within one round, and [turned] lists all that changed: the new
    thread is running, the old one is ready, or a zombie if it was asked to
    exit, or still blocked; a user thread has its own address space in the
    translation registers, with one reference and its CPU bit, and the one it
    replaces has lost both; queues, other CPUs and other threads are as before.
    If no thread is ready the call never returns. *)
Theorem schedule_spec T C V held cpu tm s cur l fuel : cpu_ok T C V held cpu tm s cur l -> (length l + 1 <= fuel)%nat ->
  match List.find (runnable s cur) l with
  | Some t => exists s' X Y, schedule process_frees try_reclaim free_vspace_ref cpu fuel tm s = Some s' /\
      turned process_frees try_reclaim free_vspace_ref T C held cpu tm s cur t s' /\
      l = X ++ t :: Y /\ cpu_ok T C V held cpu tm s' t (Y ++ X ++ [t]) /\ status (threads s' t) = thread_status_running
  | None => forall fuel, schedule process_frees try_reclaim free_vspace_ref cpu fuel tm s = None
  end.
Proof.
  intros Hok Hf. destruct (List.find (runnable s cur) l) as [t|] eqn:E.
  - apply find_split in E as (X & Y & -> & Ht & HX).
    destruct (schedule_effect process_frees try_reclaim free_vspace_ref _ _ _ _ _ _ _ _ _ _ _ _ Hok Ht HX Hf) as (s' & E & Htd & Hok').
    exists s', X, Y. split; [done|]. split; [done|]. split; [done|]. split; [done|].
    rewrite (td_threads _ _ _ _ _ _ _ _ _ _ _ _ Htd). unfold after_turn. by rewrite Z.eqb_refl.
  - intros f. apply (schedule_hangs _ _ _ T C V held cpu tm s cur l f Hok). intros x Hx. exact (List.find_none _ _ E x (proj1 (list_elem_of_In _ _) Hx)).
Qed.


(** ** Fairness *)

(** what happens on the CPU between turn [i] and the next: the running thread
    may block, exit or be woken, other threads may become ready or not; [t]
    stays ready, and the queue keeps its threads *)
Definition leaves_ready (cpu tm t : Z) (env : nat -> sys W -> sys W) : Prop :=
  forall i T C V held s cur l, cpu_ok T C V held cpu tm s cur l -> cur <> t -> ready s t = true ->
  (exists T C V held, cpu_ok T C V held cpu tm (env i s) cur l) /\ ready (env i s) t = true.

(** [n] turns from turn [i] on, each followed by what happens next *)
Fixpoint turns (env : nat -> sys W -> sys W) (cpu : Z) (fuel : nat) (tm : Z) (i n : nat) s : option (sys W) :=
  match n with
  | O => Some s
  | S n' => s ← schedule process_frees try_reclaim free_vspace_ref cpu fuel tm s; turns env cpu fuel tm (S i) n' (env i s)
  end.


(** ** Run queues *)

(** C33 (invariant): a thread is on the queue its [tm] field names and on no
    other.  Adding a thread that has no manager appends it and makes a fresh
    one ready; adding it a second time is refused; removing a thread takes it
    out, clears its manager and leaves it detached; the thread its CPU is
    running is not removed.  Every other queue keeps its threads and their
    order. *)
Theorem run_queue_spec M T Q s m t : queues_ok M T Q s -> m ∈ M -> t ∈ T ->
  (t_tm (threads s t) = NULL -> exists s', add_thread_to_manager m t s = (REND_SUCCESS, s') /\ queues_ok M T (<[m := Q m ++ [t]]> Q) s' /\
     (status (threads s t) = thread_status_init -> status (threads s' t) = thread_status_ready)) /\
  (t_tm (threads s t) <> NULL -> add_thread_to_manager m t s = (- E_RENDEZVOS, s)) /\
  (t ∈ Q m -> tm_current (tms s m) = t -> del_thread_from_manager t s = (- E_REND_AGAIN, s)) /\
  (forall A B, Q m = A ++ t :: B -> tm_current (tms s m) <> t -> exists s', del_thread_from_manager t s = (REND_SUCCESS, s') /\
     queues_ok M T (<[m := A ++ B]> Q) s' /\ list_node_is_detached (ring s') t = true /\ t_tm (threads s' t) = NULL).
Proof.
  intros Hq Hm Ht. pose proof (qo_real _ _ _ _ Hq) as (Hn1 & Hn2 & _). assert (m <> NULL /\ t <> NULL) as [Hmn Htn] by (split; intros ->; done).
  split; [|split; [|split]].
  - intros Hnone. destruct (manager_add_effect M T Q s m t Hq Hm Ht Hnone) as (s' & E & Hq' & Eth & _). exists s'. split; [done|]. split; [done|].
    intros Hi. by rewrite Eth, Z.eqb_refl, Hi.
  - intros Hsome. unfold add_thread_to_manager. destruct (Z.eqb_spec m NULL), (Z.eqb_spec t NULL), (Z.eqb_spec (t_tm (threads s t)) NULL); done.
  - intros Hin Hc. unfold del_thread_from_manager. apply (qo_named _ _ _ _ Hq m t Hm Ht) in Hin. rewrite Hin, Hc, Z.eqb_refl.
    destruct (Z.eqb_spec t NULL), (Z.eqb_spec m NULL); done.
  - intros A B HQ Hc. destruct (manager_del_effect M T Q s m t A B Hq Hm HQ Hc) as (s' & E & Hq' & Hd & Eth & _). exists s'.
    split; [done|]. split; [done|]. split; [done|]. by rewrite Eth, Z.eqb_refl.
Qed.

(** C34 (termination): a thread deleted from another CPU is first marked as
    exiting, so that the scheduler never chooses it again; the deletion retries
    while its own CPU is still running it, and as soon as that has switched
    away it takes the thread off its queue and drops one reference, once. *)
Theorem delete_thread_spec put_thread idle cpu M T Q s m t A B sfuel fuel n :
  t ∈ T -> m ∈ M -> t_tm (threads s t) = m -> Q m = A ++ t :: B ->
  let s0 := set_status t thread_status_exit s in
  (forall i, (i < n)%nat -> tm_current (tms (after idle i s0) m) = t /\ t_tm (threads (after idle i s0) t) = m /\ owner_cpu (tms (after idle i s0) m) <> cpu) ->
  let s1 := after idle n s0 in
  queues_ok M T Q s1 -> tm_current (tms s1 m) <> t -> (n < fuel)%nat ->
  status (threads s0 t) = thread_status_exit /\
  exists s', delete_thread process_frees try_reclaim free_vspace_ref put_thread idle cpu sfuel fuel t s = Some (REND_SUCCESS, s') /\
    queues_ok M T (<[m := A ++ B]> Q) s' /\ t_tm (threads s' t) = NULL /\ list_node_is_detached (ring s') t = true /\
    world s' = put_thread t (world s1).
Proof.
  intros Ht Hm Htm HQ s0 Hw s1 Hq Hc Hf. pose proof (qo_real _ _ _ _ Hq) as (Hn1 & Hn2 & _). assert (m <> NULL /\ t <> NULL) as [Hmn Htn] by (split; intros ->; done).
  assert (E0 : threads s0 t = with_status thread_status_exit (threads s t)) by (unfold s0; by rewrite set_status_eq, Z.eqb_refl). rewrite E0. split; [done|].
  destruct (manager_del_effect M T Q s1 m t A B Hq Hm HQ Hc) as (s' & E & Hq' & Hd & Eth & _ & _ & _ & Ew).
  destruct (detach_effect process_frees try_reclaim free_vspace_ref idle cpu M T Q m t A B sfuel n s0 fuel Hw Htn Hmn Hq Hm HQ Hc Hf) as (s2 & E2 & E3).
  fold s1 in E3. rewrite E in E3. injection E3 as ->. exists (set_world (put_thread t (world s2)) s2). split.
  - unfold delete_thread. destruct (Z.eqb_spec t NULL); [done|]. fold s0. rewrite E0. cbn [with_status t_tm]. rewrite Htm. destruct (Z.eqb_spec m NULL); [done|]. cbn [negb].
    rewrite E2. done.
  - split; [by apply (queues_frame M T _ s2)|]. cbn [set_world threads ring world]. rewrite Eth, Z.eqb_refl. split; [done|]. split; [done|]. by rewrite Ew.
Qed.
End Spec.

(** ** A concrete system: an idle thread and two user threads *)

Definition demo_thread (t : Z) : thread :=
  if t =? 64 then mk_thread thread_status_running 0 5 16
  else if (t =? 128) || (t =? 192) then mk_thread thread_status_ready THREAD_FLAG_USER 9 16 else mk_thread thread_status_init 0 5 NULL.
Definition demo_space (v : Z) : vspace :=
  if v =? 7 then mk_vs 1 [1; 0] 3 4096 else if v =? 9 then mk_vs 2 [0; 0] 4 8192 else mk_vs 1 [0; 0] 0 0.
Definition demo_ring : lheap :=
  list_add_tail (list_add_tail (list_add_tail (INIT_LIST_HEAD (fun _ => mk_le NULL NULL) 16) 64 16) 128 16) 192 16.
(** the idle thread runs; address space 7, which no thread owns any more, is still loaded *)
Definition demo : sys (list Z) :=
  mk_sys demo_ring demo_thread (fun _ => mk_tm 0 64 true) demo_space 5 (fun _ => 7) (fun _ => (4096, 3)) [] [].
Definition demo_free (v : Z) (w : list Z) : list Z := w ++ [v].
Definition no_op (_ : Z) (w : list Z) : list Z := w.

Ltac listed H := repeat (apply elem_of_cons in H as [->|H]); [..|by apply not_elem_of_nil in H].

Lemma demo_cpu : cpu_ok [64; 128; 192] [0] [7; 9] (fun _ => 0) 0 16 demo 64 [128; 192; 64].
Proof.
  split.
  - exists [], [128; 192]. split; [|done]. split; [apply (bool_decide_unpack _); vm_compute; exact I|vm_compute; by repeat split].
  - apply (bool_decide_unpack _). vm_compute. exact I.
  - reflexivity.
  - reflexivity.
  - by left.
  - intros x Hx. listed Hx; apply (bool_decide_unpack _); vm_compute; exact I.
  - intros x Hx. listed Hx; intros H; first [discriminate H|apply (bool_decide_unpack _); vm_compute; exact I].
  - intros H. discriminate H.
  - split.
    + split; [apply NoDup_singleton|]. intros c Hc. listed Hc. vm_compute. by split.
    + split; apply (bool_decide_unpack _); vm_compute; exact I.
    + intros v Hv. listed Hv; reflexivity.
    + intros v Hv. cbn [length Z.of_nat]. lia.
    + intros v Hv. split.
      * split; [by listed Hv|]. intros [|[|i]]; listed Hv; vm_compute; by split.
      * intros c Hc. assert (Hb : forall a, 0 <= a < 128 -> bitmap_test [a; 0] c = (c <? 64) && Z.testbit a c).
        { intros a Ha. rewrite test_bit by lia. destruct (Z.ltb_spec c 64).
          - rewrite Z.div_small, Z.mod_small by lia. done.
          - unfold RENDEZVOS_MAX_CPU_NUMBER in Hc. replace (c / 64) with 1 by dlia. cbn. apply Z.bits_0. }
        rewrite list_elem_of_singleton.
        listed Hv; cbn [demo vss demo_space tlb_cpu_mask Z.eqb Pos.eqb current_vspace].
        -- rewrite Hb by lia. destruct (Z.eq_dec c 0) as [->|]; [done|]. split; [|intros [? _]; lia].
           rewrite andb_true_iff. intros [_ H]. rewrite Z.bits_above_log2 in H; [done|lia|]. cbn. lia.
        -- rewrite Hb by lia. rewrite Z.bits_0, andb_false_r. split; [done|]. intros [_ ?]. lia.
    + intros c Hc. listed Hc. right. split; [by left|done].
Qed.

Lemma schedule_witness : exists s' X Y, schedule no_op no_op demo_free 0 4 16 demo = Some s' /\
  turned no_op no_op demo_free [64; 128; 192] [0] (fun _ => 0) 0 16 demo 64 128 s' /\ [128; 192; 64] = X ++ 128 :: Y /\
  cpu_ok [64; 128; 192] [0] [7; 9] (fun _ => 0) 0 16 s' 128 (Y ++ X ++ [128]) /\ status (threads s' 128) = thread_status_running.
Proof. exact (schedule_spec no_op no_op demo_free _ _ _ _ 0 16 demo 64 _ 4 demo_cpu ltac:(cbn [length]; lia)). Defined.

Definition demo2 : sys (list Z) := match schedule no_op no_op demo_free 0 4 16 demo with Some s => s | None => demo end.
Example demo_releases : world demo2 = [7] /\ switches demo2 = [(64, 128)] /\ loaded demo2 0 = (8192, 4).
Proof. vm_compute. done. Qed.

Lemma demo2_eq : schedule no_op no_op demo_free 0 4 16 demo = Some demo2.
Proof. vm_compute. reflexivity. Qed.

(** every thread blocks as soon as it has run *)
Definition blocks (_ : nat) (s : sys (list Z)) : sys (list Z) := set_status (tm_current (tms s 16)) 5 s.
Lemma blocks_leaves : leaves_ready 0 16 192 blocks.
Proof.
  intros i T C V held s cur l Hok Hne Hr. split; [exists T, C, V, held; by apply cpu_ok_status|].
  unfold ready, blocks. rewrite (co_current _ _ _ _ _ _ _ _ _ Hok). destruct (decide (cur = NULL)) as [->|Hn]; [done|].
  rewrite set_status_eq by done. destruct (Z.eqb_spec 192 cur); [by destruct Hne|done].
Qed.

Definition demo_queue (m : Z) : list Z := if m =? 16 then [64; 128; 192] else [].
Lemma demo_queues (s : sys (list Z)) : ring s = demo_ring -> (forall x, t_tm (threads s x) = t_tm (demo_thread x)) -> queues_ok [16] [64; 128; 192; 256] demo_queue s.
Proof.
  intros Er Et. split.
  - split; [|split]; [apply (bool_decide_unpack _); vm_compute; exact I..|]. intros x Hx. listed Hx. apply (bool_decide_unpack _). vm_compute. exact I.
  - intros m Hm. listed Hm. rewrite Er. split; [apply (bool_decide_unpack _); vm_compute; exact I|vm_compute; by repeat split].
  - intros m x Hm Hx. listed Hm. cbn [demo_queue Z.eqb Pos.eqb] in Hx. listed Hx; apply (bool_decide_unpack _); vm_compute; exact I.
  - intros m x Hm Hx. listed Hm. rewrite Et. listed Hx; apply (bool_decide_unpack _); vm_compute; exact I.
Qed.
Lemma run_queue_witness : exists s', del_thread_from_manager 128 demo = (REND_SUCCESS, s') /\
  queues_ok [16] [64; 128; 192; 256] (<[16 := [64] ++ [192]]> demo_queue) s' /\ list_node_is_detached (ring s') 128 = true /\ t_tm (threads s' 128) = NULL.
Proof.
  assert (Hm : 16 ∈ [16]) by (by left). assert (Ht : 128 ∈ [64; 128; 192; 256]) by (right; by left).
  exact (proj2 (proj2 (proj2 (run_queue_spec [16] [64; 128; 192; 256] demo_queue demo 16 128 (demo_queues demo eq_refl (fun _ => eq_refl)) Hm Ht))) [64] [192] eq_refl ltac:(cbn; lia)).
Defined.

(** thread 64 is deleted from CPU 1 while CPU 0 runs it; CPU 0 then switches to 128 *)
Definition cpu0_moves (s : sys (list Z)) : sys (list Z) := match schedule no_op no_op demo_free 0 4 16 s with Some s => s | None => s end.
Lemma demo_moved : queues_ok [16] [64; 128; 192; 256] demo_queue (after cpu0_moves 1 (set_status 64 thread_status_exit demo)).
Proof.
  pose proof (cpu_ok_status _ _ _ _ _ _ _ _ _ 64 thread_status_exit demo_cpu) as Hok.
  destruct (schedule_effect no_op no_op demo_free _ _ _ _ _ _ _ _ [] 128 [192; 64] 4 Hok eq_refl) as (s' & E & Htd & _);
    [intros x Hx; by apply not_elem_of_nil in Hx|cbn [length app]; lia|].
  cbn [after]. unfold cpu0_moves. rewrite E. apply demo_queues; [by rewrite (td_ring _ _ _ _ _ _ _ _ _ _ _ _ Htd)|].
  intros x. rewrite (td_threads _ _ _ _ _ _ _ _ _ _ _ _ Htd). cbn [with_status t_tm].
  rewrite set_status_eq by done. by destruct (Z.eqb_spec x 64) as [->|].
Qed.
Lemma delete_thread_witness : exists s', delete_thread no_op no_op demo_free demo_free cpu0_moves 1 4 2 64 demo = Some (REND_SUCCESS, s') /\
  queues_ok [16] [64; 128; 192; 256] (<[16 := [] ++ [128; 192]]> demo_queue) s' /\ t_tm (threads s' 64) = NULL /\ list_node_is_detached (ring s') 64 = true /\
  world s' = demo_free 64 (world (after cpu0_moves 1 (set_status 64 thread_status_exit demo))).
Proof.
  assert (Hm : 16 ∈ [16]) by (by left). assert (Ht : 64 ∈ [64; 128; 192; 256]) by (by left).
  refine (proj2 (delete_thread_spec no_op no_op demo_free demo_free cpu0_moves 1 _ _ demo_queue demo 16 64 [] [128; 192] 4 2 1 Ht Hm eq_refl eq_refl _ _ _ _)).
  - intros [|i] Hi; [|lia]. vm_compute. by repeat split.
  - exact demo_moved.
  - vm_compute. done.
  - lia.
Defined.
