(* ===== verification/PortCache.v ===== *)
(** * The port cache of a thread

    [task/thread.c]: names that the thread has looked up, by hash, with the
    token of their row.  The cache of the calling thread is a value of its own,
    because no other thread touches it; a name is bytes without the terminator. *)
From S2P Require Import Prelude Mm CString Allocator TaggedPtr Refcount MsQueue MsqSeq IpcSerial Message NameIndex IpcState Ipc Port.

Definition THREAD_MAX_KNOWN_PORTS : nat := 16.

Record thread_port_cache_entry := mk_pce { lru_counter : Z; c_row_gen : Z; c_row_index : Z; name_hash : Z }.
Record thread_port_cache := mk_cache { entries : list thread_port_cache_entry; cache_count : Z; lru_clock : Z }.

Definition no_entry : thread_port_cache_entry := mk_pce 0 0 NAME_INDEX_ROW_INDEX_INVALID 0.
Definition entry (c : thread_port_cache) (i : nat) : thread_port_cache_entry := nth i (entries c) no_entry.
Definition set_entry (i : nat) (e : thread_port_cache_entry) (c : thread_port_cache) : thread_port_cache :=
  mk_cache (<[i := e]> (entries c)) (cache_count c) (lru_clock c).
Definition set_cache_count (v : Z) (c : thread_port_cache) : thread_port_cache := mk_cache (entries c) v (lru_clock c).
Definition set_lru_clock (v : Z) (c : thread_port_cache) : thread_port_cache := mk_cache (entries c) (cache_count c) v.

Definition thread_port_cache_init : thread_port_cache := mk_cache (replicate THREAD_MAX_KNOWN_PORTS no_entry) 0 1.
Definition thread_port_cache_clear (c : thread_port_cache) : thread_port_cache := mk_cache (replicate THREAD_MAX_KNOWN_PORTS no_entry) 0 1.

Fixpoint port_hash_loop (n : nat) (name : cstr) (h : Z) : Z :=
  match n, name with
  | S n', ch :: name' => if ch =? 0 then h else port_hash_loop n' name' (u64 (Z.lxor h (u8 ch) * 1099511628211))
  | _, _ => h
  end.
Definition thread_port_name_hash (name : option cstr) : Z :=
  match name with None => 0 | Some n => port_hash_loop (Z.to_nat PORT_NAME_LEN_MAX) n 14695981039346656037 end.

Definition thread_port_cache_entry_in_use (c : thread_port_cache) (i : nat) : bool :=
  (i <? THREAD_MAX_KNOWN_PORTS)%nat && negb (c_row_index (entry c i) =? NAME_INDEX_ROW_INDEX_INVALID).
Definition thread_port_cache_evict (c : thread_port_cache) (idx : nat) : thread_port_cache :=
  if negb (thread_port_cache_entry_in_use c idx) then c
  else
    let c := set_entry idx no_entry c in
    if 0 <? cache_count c then set_cache_count (u64 (cache_count c - 1)) c else c.
Definition thread_port_cache_fill_entry (c : thread_port_cache) (idx : nat) (name : option cstr) (tok : option name_index_token) : thread_port_cache :=
  let c := set_lru_clock (u64 (lru_clock c + 1)) c in
  let '(ri, rg) := match tok with Some t => (row_index t, row_gen t) | None => (NAME_INDEX_ROW_INDEX_INVALID, 0) end in
  set_entry idx (mk_pce (u16 (lru_clock c)) rg ri (thread_port_name_hash name)) c.
Definition thread_port_cache_touch_lru (c : thread_port_cache) (found_idx : nat) : thread_port_cache :=
  if negb (thread_port_cache_entry_in_use c found_idx) then c
  else
    let c := set_lru_clock (u64 (lru_clock c + 1)) c in
    let e := entry c found_idx in set_entry found_idx (mk_pce (u16 (lru_clock c)) (c_row_gen e) (c_row_index e) (name_hash e)) c.

(** [n] entries from [i] on *)
Fixpoint same_token (n i : nat) (c : thread_port_cache) (tok : name_index_token) : option nat :=
  match n with
  | O => None
  | S n' =>
    if negb (thread_port_cache_entry_in_use c i) then same_token n' (S i) c tok
    else if negb (c_row_index (entry c i) =? row_index tok) || negb (c_row_gen (entry c i) =? row_gen tok) then same_token n' (S i) c tok
    else Some i
  end.
Fixpoint empty_entry (n i : nat) (c : thread_port_cache) : option nat :=
  match n with O => None | S n' => if negb (thread_port_cache_entry_in_use c i) then Some i else empty_entry n' (S i) c end.
Fixpoint oldest_entry (n i : nat) (c : thread_port_cache) (cur best_age : Z) (lru_idx : option nat) : option nat :=
  match n with
  | O => lru_idx
  | S n' =>
    if negb (thread_port_cache_entry_in_use c i) then oldest_entry n' (S i) c cur best_age lru_idx
    else
      let age := u16 (cur - lru_counter (entry c i)) in
      if match lru_idx with None => true | Some _ => best_age <? age end then oldest_entry n' (S i) c cur age (Some i)
      else oldest_entry n' (S i) c cur best_age lru_idx
  end.

Definition replace_oldest (c : thread_port_cache) (name : option cstr) (tok : option name_index_token) : thread_port_cache :=
  match oldest_entry THREAD_MAX_KNOWN_PORTS 0 c (u16 (lru_clock c)) 0 None with
  | None => c
  | Some i => thread_port_cache_fill_entry c i name tok
  end.
Definition thread_port_cache_record (c : thread_port_cache) (name : option cstr) (tok : option name_index_token) : thread_port_cache :=
  match (match tok with Some t => same_token THREAD_MAX_KNOWN_PORTS 0 c t | None => None end) with
  | Some i =>
    let c := thread_port_cache_touch_lru c i in
    let e := entry c i in
    let t := match tok with Some t => t | None => mk_token 0 0 end in
    set_entry i (mk_pce (lru_counter e) (row_gen t) (row_index t) (thread_port_name_hash name)) c
  | None =>
    if cache_count c <? Z.of_nat THREAD_MAX_KNOWN_PORTS then
      match empty_entry THREAD_MAX_KNOWN_PORTS 0 c with
      | Some i => let c := thread_port_cache_fill_entry c i name tok in set_cache_count (u64 (cache_count c + 1)) c
      | None => replace_oldest c name tok
      end
    else replace_oldest c name tok
  end.

Section Lookup.
Context {A : Type} `{HA : Allocator A} (hooks : Z -> port_append_hooks A) (drain_fuel : nat).
Implicit Types st : istate A.

(** [table]: [global_port_table] *)
Fixpoint cache_lookup_loop (n i : nat) (table : Z) (name : cstr) (target_hash : Z) (c : thread_port_cache) (idx : name_index) st
  : option (Z * thread_port_cache * name_index * istate A) :=
  match n with
  | O => Some (NULL, c, idx, st)
  | S n' =>
    if negb (thread_port_cache_entry_in_use c i) then cache_lookup_loop n' (S i) table name target_hash c idx st
    else if negb (name_hash (entry c i) =? target_hash) then cache_lookup_loop n' (S i) table name target_hash c idx st
    else
      let tok := mk_token (c_row_index (entry c i)) (c_row_gen (entry c i)) in
      '(port, idx, st) ← port_table_resolve_token hooks drain_fuel table (Some tok) (Some name) idx st;
      if port =? NULL then cache_lookup_loop n' (S i) table name target_hash (thread_port_cache_evict c i) idx st
      else Some (port, thread_port_cache_touch_lru c i, idx, st)
  end.
Definition thread_port_cache_lookup (table : Z) (name : cstr) (c : thread_port_cache) (idx : name_index) st
  : option (Z * thread_port_cache * name_index * istate A) :=
  cache_lookup_loop THREAD_MAX_KNOWN_PORTS 0 table name (thread_port_name_hash (Some name)) c idx st.

(** [self]: the calling thread, [c]: its cache *)
Definition thread_lookup_port (table self : Z) (name : option cstr) (c : thread_port_cache) (idx : name_index) st
  : option (Z * thread_port_cache * name_index * istate A) :=
  match name with
  | None => Some (NULL, c, idx, st)
  | Some n =>
    if (self =? NULL) || (table =? NULL) then Some (NULL, c, idx, st)
    else
      '(port, c, idx, st) ← thread_port_cache_lookup table n c idx st;
      if negb (port =? NULL) then Some (port, c, idx, st)
      else
        let cold_tok := name_index_token_invalidate (mk_token 0 0) in
        '(port, cold_tok, idx, st) ← port_table_lookup_with_token hooks drain_fuel table name cold_tok idx st;
        if port =? NULL then Some (NULL, c, idx, st) else Some (port, thread_port_cache_record c name (Some cold_tok), idx, st)
  end.
End Lookup.
