(* ===== verification/PortCacheSpec.v ===== *)
(** * The port cache does not show

    A lookup through the cache gives what a lookup in the port table gives, and
    the entry that makes room is the one used longest ago. *)
From S2P Require Import Prelude Mm CString Allocator TaggedPtr Refcount MsQueue MsqSeq IpcSerial Message NameIndex IpcState Ipc IpcSpec IpcRendezvous IpcWait Port PortSpec PortCache.

(** ** Entries *)

Definition occupied (e : thread_port_cache_entry) : bool := negb (c_row_index e =? NAME_INDEX_ROW_INDEX_INVALID).
Definition slots_used (l : list thread_port_cache_entry) : Z := countp occupied l.

Record cache_ok (c : thread_port_cache) : Prop := {
  ca_len : length (entries c) = THREAD_MAX_KNOWN_PORTS;
  ca_count : cache_count c = slots_used (entries c)
}.

Lemma slots_range l : 0 <= slots_used l <= Z.of_nat (length l).
Proof. apply countp_range. Qed.
Lemma slots_all l : (forall i e, l !! i = Some e -> occupied e = true) -> slots_used l = Z.of_nat (length l).
Proof.
  unfold slots_used. induction l as [|e l IH]; intros H; [done|]. cbn [countp length]. rewrite (H 0%nat e eq_refl), IH; [cbn [Z.b2z]; lia|].
  intros i x Hx. exact (H (S i) x Hx).
Qed.
Lemma slots_none l : (forall i e, l !! i = Some e -> occupied e = false) -> slots_used l = 0.
Proof.
  unfold slots_used. induction l as [|e l IH]; intros H; [done|]. cbn [countp]. rewrite (H 0%nat e eq_refl), IH; [done|].
  intros i x Hx. exact (H (S i) x Hx).
Qed.

Lemma in_use_lookup c i : cache_ok c -> thread_port_cache_entry_in_use c i = true -> (i < THREAD_MAX_KNOWN_PORTS)%nat /\ entries c !! i = Some (entry c i) /\ occupied (entry c i) = true.
Proof.
  intros [Hl _] H. apply andb_prop in H as [Hi Ho]. apply Nat.ltb_lt in Hi. split; [done|]. split; [|done].
  destruct (lookup_lt_is_Some_2 (entries c) i ltac:(lia)) as [e E]. rewrite E. f_equal. symmetry. by apply nth_lookup_Some.
Qed.
Lemma entry_set i e c : cache_ok c -> (i < THREAD_MAX_KNOWN_PORTS)%nat -> entry (set_entry i e c) i = e.
Proof. intros [Hl _] Hi. apply nth_lookup_Some. cbn. apply list_lookup_insert_eq. lia. Qed.
Lemma entry_set_ne i j e c : i <> j -> entry (set_entry i e c) j = entry c j.
Proof.
  intros Hij. unfold entry. rewrite !nth_lookup. cbn [set_entry entries]. by rewrite list_lookup_insert_ne.
Qed.
Lemma slots_set l i e e0 : l !! i = Some e0 -> slots_used (<[i := e]> l) = slots_used l - Z.b2z (occupied e0) + Z.b2z (occupied e).
Proof. intros H. unfold slots_used. by rewrite (countp_insert _ _ _ _ _ H). Qed.

Lemma evict_ok c i : cache_ok c -> cache_ok (thread_port_cache_evict c i).
Proof.
  intros Hc. unfold thread_port_cache_evict. destruct (thread_port_cache_entry_in_use c i) eqn:E; cbn [negb]; [|done].
  destruct (in_use_lookup c i Hc E) as (Hi & Hl & Ho). pose proof Hc as [Hlen Hn].
  pose proof (slots_set (entries c) i no_entry _ Hl) as Hs. rewrite Ho in Hs. cbn [Z.b2z occupied no_entry c_row_index] in Hs.
  change (occupied no_entry) with false in Hs. cbn [Z.b2z] in Hs. pose proof (slots_range (<[i := no_entry]> (entries c))) as Hr. rewrite length_insert, Hlen in Hr.
  unfold THREAD_MAX_KNOWN_PORTS in Hr.
  cbn [set_entry cache_count]. destruct (Z.ltb_spec 0 (cache_count c)); [|lia]. split; cbn [set_cache_count set_entry entries cache_count].
  - by rewrite length_insert.
  - rewrite u64_small; lia.
Qed.
Lemma touch_ok c i : cache_ok c -> cache_ok (thread_port_cache_touch_lru c i).
Proof.
  intros Hc. unfold thread_port_cache_touch_lru. destruct (thread_port_cache_entry_in_use c i) eqn:E; cbn [negb]; [|done].
  destruct (in_use_lookup c i Hc E) as (Hi & Hl & Ho). pose proof Hc as [Hlen Hn]. split; cbn [set_lru_clock set_entry entries cache_count].
  - by rewrite length_insert.
  - rewrite (slots_set _ _ _ _ Hl), Ho. change (occupied (mk_pce _ _ _ _)) with (occupied (entry c i)). rewrite Ho. lia.
Qed.

Definition valid_token (t : name_index_token) : Prop := row_index t <> NAME_INDEX_ROW_INDEX_INVALID.

Lemma same_token_found n i c t j : same_token n i c t = Some j ->
  thread_port_cache_entry_in_use c j = true /\ c_row_index (entry c j) = row_index t /\ c_row_gen (entry c j) = row_gen t.
Proof.
  revert i. induction n as [|n IH]; intros i; [done|]. cbn [same_token]. destruct (thread_port_cache_entry_in_use c i) eqn:E; cbn [negb]; [|apply IH].
  destruct (Z.eqb_spec (c_row_index (entry c i)) (row_index t)); cbn [negb orb]; [|apply IH].
  destruct (Z.eqb_spec (c_row_gen (entry c i)) (row_gen t)); cbn [negb]; [|apply IH]. by intros [= <-].
Qed.
Lemma empty_entry_found n i c j : empty_entry n i c = Some j -> (i <= j < i + n)%nat /\ thread_port_cache_entry_in_use c j = false.
Proof.
  revert i. induction n as [|n IH]; intros i; [done|]. cbn [empty_entry]. destruct (thread_port_cache_entry_in_use c i) eqn:E; cbn [negb].
  - intros H. destruct (IH _ H). split; [lia|done].
  - intros [= <-]. split; [lia|done].
Qed.
Lemma oldest_in_use n i c cur best l j : (forall k, l = Some k -> thread_port_cache_entry_in_use c k = true) ->
  oldest_entry n i c cur best l = Some j -> thread_port_cache_entry_in_use c j = true.
Proof.
  revert i best l. induction n as [|n IH]; intros i best l Hl; cbn [oldest_entry]; [by apply Hl|].
  destruct (thread_port_cache_entry_in_use c i) eqn:E; cbn [negb]; [|by apply IH].
  destruct (match l with None => true | Some _ => _ end); apply IH; [by intros k [= <-]|done].
Qed.

Lemma empty_entry_none n i c : empty_entry n i c = None -> forall k, (i <= k < i + n)%nat -> thread_port_cache_entry_in_use c k = true.
Proof.
  revert i. induction n as [|n IH]; intros i; [intros _ k Hk; lia|]. cbn [empty_entry]. destruct (thread_port_cache_entry_in_use c i) eqn:E; cbn [negb]; [|done].
  intros H k Hk. destruct (decide (k = i)) as [->|]; [done|]. apply (IH (S i)); [done|lia].
Qed.
Lemma oldest_some n i c cur best l : l <> None -> oldest_entry n i c cur best l <> None.
Proof.
  revert i best l. induction n as [|n IH]; intros i best l Hl; cbn [oldest_entry]; [done|].
  destruct (negb _); [by apply IH|]. destruct (match l with None => true | Some _ => _ end); by apply IH.
Qed.
Lemma oldest_none n i c cur best : oldest_entry n i c cur best None = None -> forall k, (i <= k < i + n)%nat -> thread_port_cache_entry_in_use c k = false.
Proof.
  revert i best. induction n as [|n IH]; intros i best; [intros _ k Hk; lia|]. cbn [oldest_entry]. destruct (thread_port_cache_entry_in_use c i) eqn:E; cbn [negb].
  - intros H. by apply oldest_some in H.
  - intros H k Hk. destruct (decide (k = i)) as [->|]; [done|]. apply (IH (S i) best); [done|lia].
Qed.
Lemma in_use_occupied c i e : entries c !! i = Some e -> (i < THREAD_MAX_KNOWN_PORTS)%nat -> thread_port_cache_entry_in_use c i = occupied e.
Proof.
  intros H Hi. unfold thread_port_cache_entry_in_use. assert (E : entry c i = e) by (by apply nth_lookup_Some). rewrite E.
  destruct (Nat.ltb_spec i THREAD_MAX_KNOWN_PORTS); [done|lia].
Qed.

(** ** Recording *)

(** some entry holds the token under the hash of the name *)
Definition cached (c : thread_port_cache) (name : cstr) (t : name_index_token) : Prop :=
  exists i, thread_port_cache_entry_in_use c i = true /\
    entry c i = mk_pce (lru_counter (entry c i)) (row_gen t) (row_index t) (thread_port_name_hash (Some name)).

Lemma fill_effect c i name t : cache_ok c -> (i < THREAD_MAX_KNOWN_PORTS)%nat -> valid_token t ->
  let c' := thread_port_cache_fill_entry c i (Some name) (Some t) in
  cached c' name t /\ length (entries c') = THREAD_MAX_KNOWN_PORTS /\ cache_count c' = cache_count c /\
  slots_used (entries c') = slots_used (entries c) - Z.b2z (occupied (entry c i)) + 1.
Proof.
  intros Hc Hi Ht c'. pose proof Hc as [Hlen Hn]. destruct (lookup_lt_is_Some_2 (entries c) i ltac:(lia)) as [e E].
  assert (Ee : entry c i = e) by (by apply nth_lookup_Some).
  assert (Eo : entry c' i = mk_pce (u16 (u64 (lru_clock c + 1))) (row_gen t) (row_index t) (thread_port_name_hash (Some name))).
  { apply (entry_set i _ (set_lru_clock (u64 (lru_clock c + 1)) c)); [|done]. by split. }
  split; [|split; [|split]].
  - exists i. rewrite Eo. split; [|done]. unfold thread_port_cache_entry_in_use. rewrite Eo. cbn [c_row_index].
    apply andb_true_intro. split; [by apply Nat.ltb_lt|]. by apply negb_true_iff, Z.eqb_neq.
  - subst c'. cbn. by rewrite length_insert.
  - done.
  - subst c'. cbn [thread_port_cache_fill_entry set_lru_clock set_entry entries]. rewrite (slots_set _ _ _ _ E), Ee.
    replace (occupied (mk_pce _ _ _ _)) with true; [cbn [Z.b2z]; lia|]. symmetry. by apply negb_true_iff, Z.eqb_neq.
Qed.

Lemma record_effect c name t : cache_ok c -> valid_token t ->
  let c' := thread_port_cache_record c (Some name) (Some t) in cache_ok c' /\ cached c' name t.
Proof.
  intros Hc Ht. unfold thread_port_cache_record. pose proof (ca_len _ Hc) as Hlen.
  assert (Hrep : slots_used (entries c) <> 0 -> let c' := replace_oldest c (Some name) (Some t) in cache_ok c' /\ cached c' name t).
  { intros Hpos. unfold replace_oldest. destruct (oldest_entry _ _ _ _ _ _) as [i|] eqn:E.
    - apply oldest_in_use in E; [|done]. destruct (in_use_lookup c i Hc E) as (Hi & _ & Ho).
      destruct (fill_effect c i name t Hc Hi Ht) as (F1 & F2 & F3 & F4). split; [|done]. split; [done|].
      rewrite F3, F4, Ho. rewrite (ca_count _ Hc). cbn [Z.b2z]. lia.
    - exfalso. apply Hpos, slots_none. intros i e He. pose proof (lookup_lt_Some _ _ _ He). rewrite <- (in_use_occupied c i e He) by lia. apply (oldest_none _ _ _ _ _ E). lia. }
  destruct (same_token THREAD_MAX_KNOWN_PORTS 0 c t) as [i|] eqn:Es.
  - apply same_token_found in Es as (Hu & Hri & Hrg). pose proof (touch_ok c i Hc) as Hc1. set (c1 := thread_port_cache_touch_lru c i) in *.
    destruct (in_use_lookup c i Hc Hu) as (Hi & _ & Ho). set (e' := mk_pce _ _ _ _).
    destruct (lookup_lt_is_Some_2 (entries c1) i ltac:(rewrite (ca_len _ Hc1); lia)) as [e1 E1].
    assert (Ee1 : entry c1 i = e1) by (by apply nth_lookup_Some).
    assert (Ho1 : occupied e1 = true).
    { rewrite <- Ee1. subst c1. unfold thread_port_cache_touch_lru. rewrite Hu. cbn [negb]. rewrite entry_set; [exact Ho|by split; apply Hc|done]. }
    split.
    + split; [cbn; rewrite length_insert; apply Hc1|]. cbn [set_entry entries cache_count]. rewrite (slots_set _ _ _ _ E1), Ho1, (ca_count _ Hc1).
      replace (occupied e') with true; [cbn [Z.b2z]; lia|]. symmetry. by apply negb_true_iff, Z.eqb_neq.
    + exists i. unfold thread_port_cache_entry_in_use. rewrite !(entry_set i e' c1 Hc1 Hi). split; [|done].
      apply andb_true_intro. split; [by apply Nat.ltb_lt|]. by apply negb_true_iff, Z.eqb_neq.
  - rewrite (ca_count _ Hc). destruct (Z.ltb_spec (slots_used (entries c)) (Z.of_nat THREAD_MAX_KNOWN_PORTS)) as [Hlt|Hge]; [|apply Hrep; change (Z.of_nat THREAD_MAX_KNOWN_PORTS) with 16 in Hge; lia].
    destruct (empty_entry _ _ _) as [i|] eqn:Ee.
    2: { apply Hrep. rewrite slots_all; [rewrite Hlen; done|]. intros k e He. pose proof (lookup_lt_Some _ _ _ He). rewrite <- (in_use_occupied c k e He) by lia.
      apply (empty_entry_none _ _ _ Ee). lia. }
    apply empty_entry_found in Ee as [[_ Hi] Hu]. cbn [Nat.add] in Hi. destruct (fill_effect c i name t Hc Hi Ht) as (F1 & F2 & F3 & F4).
    assert (Ho : occupied (entry c i) = false).
    { unfold thread_port_cache_entry_in_use in Hu. destruct (Nat.ltb_spec i THREAD_MAX_KNOWN_PORTS); [exact Hu|lia]. }
    split; [|exact F1]. split; [done|]. cbn [set_cache_count cache_count]. rewrite F3. change (entries (set_cache_count ?v ?c)) with (entries c).
    rewrite F4, Ho. pose proof (slots_range (entries c)) as Hr. rewrite (ca_len _ Hc) in Hr. rewrite (ca_count _ Hc). unfold THREAD_MAX_KNOWN_PORTS in Hr.
    rewrite u64_small by lia. cbn [Z.b2z]. lia.
Qed.

(** ** Lookups *)

Section Lookup.
Context {A : Type} {HA : Allocator A} {HL : AllocatorLaws A}.
Context (hooks : Z -> port_append_hooks A) (drain_fuel : nat).
Implicit Types (st : istate A) (idx : name_index).
Notation tops := (table_ops hooks drain_fuel).

(** [st] with one more reference on port [v] *)
Definition held_port (v : Z) st : istate A := upd_port v (fun px => with_prefcount (p_refcount px + 1) px) st.

Lemma hold_effect table st v px : v <> NULL -> ports st !! v = Some px -> 0 < p_refcount px < 2 ^ 62 ->
  run_hold (tops table st) v (Some st) = (true, Some (held_port v st)).
Proof.
  intros Hv Hp Hr. unfold run_hold, table_ops. cbn [hold port_hold]. destruct (Z.eqb_spec v NULL); [done|].
  rewrite (get_port_effect st v px Hp Hr). do 3 f_equal. unfold held_port, upd_port. f_equal. apply map_eq. intros y.
  destruct (decide (v = y)) as [<-|Hy]; [by rewrite lookup_alter_eq, lookup_insert_eq, Hp|by rewrite lookup_alter_ne, lookup_insert_ne].
Qed.

Lemma put_held st v px : ports st !! v = Some px -> 0 < p_refcount px < 2 ^ 62 -> put_port hooks drain_fuel v (held_port v st) = Some st.
Proof.
  intros Hp Hr. unfold put_port. assert (E : ports (held_port v st) !! v = Some (with_prefcount (p_refcount px + 1) px)) by (cbn; by rewrite lookup_alter_eq, Hp).
  rewrite (port_at_some _ _ _ E). cbn [with_prefcount p_refcount].
  assert (Ep : ref_put (p_refcount px + 1) (Some 0) = (p_refcount px, false)).
  { unfold ref_put. rewrite i64_small, u64_small by lia. destruct (Z.eqb_spec (p_refcount px + 1) 1); [lia|]. f_equal. lia. }
  rewrite Ep. f_equal.
  unfold held_port, upd_port. destruct st. unfold set_ports. cbn. f_equal. apply map_eq. intros y.
  destruct (decide (v = y)) as [<-|Hy]; [|by rewrite !lookup_alter_ne]. rewrite !lookup_alter_eq. cbn in Hp. rewrite Hp. cbn. f_equal.
  by destruct px.
Qed.

Lemma unlocked_id idx : lock idx = false -> unlock_mcs idx = idx /\ unlock_mcs (lock_mcs idx) = idx.
Proof. destruct idx. cbn. by intros ->. Qed.

Definition lookup_result table (name : cstr) idx st : Z * istate A :=
  let v := fst (name_index_search (tops table st) idx name) in
  if v =? NULL then (NULL, st)
  else if allows hooks v PORT_OPS_LOOKUP (Some name) (held_port v st) =? REND_SUCCESS then (v, held_port v st) else (NULL, st).

Lemma finish_effect table st v px name : v <> NULL -> ports st !! v = Some px -> in_table table px ->
  port_lookup_finish hooks drain_fuel v (Some name) (held_port v st) =
  Some (if allows hooks v PORT_OPS_LOOKUP (Some name) (held_port v st) =? REND_SUCCESS then (v, held_port v st) else (NULL, st)).
Proof.
  intros Hv Hp Hi. unfold port_lookup_finish. destruct (Z.eqb_spec v NULL); [done|]. destruct (_ =? REND_SUCCESS); cbn [negb]; [done|].
  by rewrite (put_held st v px Hp (it_ref _ _ Hi)).
Qed.

Lemma table_lookup_effect table idx st name tok : table_ok hooks drain_fuel table idx st -> cstr_ok name -> lock idx = false ->
  let '(v, r) := name_index_search (tops table st) idx name in
  let '(p, st') := lookup_result table name idx st in
  port_table_lookup_with_token hooks drain_fuel table (Some name) tok idx st = Some (p, (if v =? NULL then tok else token_of idx r), idx, st') /\
  (v <> NULL -> 0 <= r < row_cap idx /\ row_value idx r = Some v).
Proof.
  intros T Hn Hlk. unfold lookup_result, port_table_lookup_with_token, name_index_lookup.
  change (name_index_search (tops table st) (lock_mcs idx) name) with (name_index_search (tops table st) idx name).
  pose proof (search_table hooks drain_fuel table idx st name T Hn) as Hs. pose proof (search_spec (tops table st) idx name (to_index _ _ _ _ _ T) Hn) as Hs2.
  destruct (name_index_search (tops table st) idx name) as [v r] eqn:E. cbn [fst].
  destruct (Z.eqb_spec table NULL) as [Et|]; [by destruct (to_table _ _ _ _ _ T)|]. destruct (unlocked_id idx Hlk) as [U1 U2].
  destruct Hs as [(Hv & Hr & Hrow & px & Hp & Hi & Hname)|(-> & Hno)].
  2: { cbn [Z.eqb NULL orb]. rewrite U2. cbn. by split. }
  destruct (Z.eqb_spec v NULL); [done|]. cbn [orb].
  assert (Hu : used (row_at idx r) =? NAME_INDEX_ROW_USED = true).
  { unfold row_value in Hrow. destruct (is_used (row_at idx r)) eqn:Eu; [|done]. by apply andb_prop in Eu as [-> _]. }
  change (row_at (lock_mcs idx) r) with (row_at idx r). rewrite Hu. cbn [negb].
  rewrite (hold_effect table st v px Hv Hp (it_ref _ _ Hi)), U2. cbn [negb mbind option_bind].
  rewrite (finish_effect table st v px name Hv Hp Hi). destruct (_ =? REND_SUCCESS); cbn [mbind option_bind].
  - split; [done|]. intros _. destruct (proj2 Hs2 Hv) as (H1 & H2 & _). done.
  - split; [done|]. intros _. destruct (proj2 Hs2 Hv) as (H1 & H2 & _). done.
Qed.

Lemma resolve_effect table idx st name t : table_ok hooks drain_fuel table idx st -> cstr_ok name -> lock idx = false ->
  port_table_resolve_token hooks drain_fuel table (Some t) (Some name) idx st = Some (NULL, idx, st) \/
  port_table_resolve_token hooks drain_fuel table (Some t) (Some name) idx st =
    (let '(p, st') := lookup_result table name idx st in Some (p, idx, st')).
Proof.
  intros T Hn Hlk. unfold port_table_resolve_token. destruct (Z.eqb_spec table NULL) as [Et|]; [by destruct (to_table _ _ _ _ _ T)|].
  destruct (unlocked_id idx Hlk) as [U1 U2]. unfold name_index_resolve.
  destruct (row_index t =? NAME_INDEX_ROW_INDEX_INVALID); [by left|]. change (row_cap (lock_mcs idx)) with (row_cap idx).
  change (row_at (lock_mcs idx) (row_index t)) with (row_at idx (row_index t)).
  destruct (row_cap idx <=? row_index t); [rewrite U2; by left|]. destruct (negb _ || _) eqn:Eu; [rewrite U2; by left|].
  apply orb_false_elim in Eu as [Eu Est]. apply negb_false_iff in Eu. apply Z.eqb_neq in Est.
  destruct (negb (u16 _ =? _)); [rewrite U2; by left|].
  set (w := storage (row_at idx (row_index t))) in *. set (r' := Z.max 0 (row_index t)).
  assert (Hrow' : row_value idx r' = Some w).
  { assert (Er : row_at idx r' = row_at idx (row_index t)) by (unfold row_at; by replace (Z.to_nat r') with (Z.to_nat (row_index t)) by lia). unfold row_value. rewrite Er.
    unfold is_used. rewrite Eu. fold w. by destruct (Z.eqb_spec w NULL). }
  destruct (to_rows _ _ _ _ _ T r' w ltac:(lia) Hrow') as (_ & px' & Hp' & Hi').
  rewrite (table_name hooks drain_fuel table st w px' Est Hp'). change (name_len_max (lock_mcs idx)) with (name_len_max idx).
  rewrite (to_len _ _ _ _ _ T). destruct (Z.eqb_spec (strcmp_s (p_name px') name PORT_NAME_LEN_MAX) 0) as [Hsame'|]; cbn [negb]; [|rewrite U2; by left].
  right. rewrite (hold_effect table st w px' Est Hp' (it_ref _ _ Hi')), U2. cbn [negb mbind option_bind].
  rewrite (finish_effect table st w px' name Est Hp' Hi'). unfold lookup_result.
  pose proof (search_table hooks drain_fuel table idx st name T Hn) as Hs. destruct (name_index_search (tops table st) idx name) as [v r] eqn:E. cbn [fst].
  destruct Hs as [(Hv & Hr & Hrow & px & Hp & Hi & Hname)|(-> & Hno)].
  2: { by destruct (Hno w px' Hp' (it_table _ _ Hi')). }
  assert (Hss : same_name (p_name px') (p_name px)).
  { pose proof (proj1 (it_name _ _ Hi)) as Ok. pose proof (proj1 (it_name _ _ Hi')) as Ok'. unfold same_name in *.
    rewrite strcmp_s_zero in * by done. congruence. }
  assert (r' = r) as -> by (exact (to_names _ _ _ _ _ T r' r w v px' px ltac:(lia) Hr Hrow' Hrow Hp' Hp Hss)).
  rewrite Hrow in Hrow'. injection Hrow' as <-. destruct (Z.eqb_spec v NULL); [done|]. by destruct (_ =? REND_SUCCESS).
Qed.

Lemma loop_effect table idx st name hash : table_ok hooks drain_fuel table idx st -> cstr_ok name -> lock idx = false ->
  forall n i c, cache_ok c -> exists c', cache_ok c' /\
    (cache_lookup_loop hooks drain_fuel n i table name hash c idx st = Some (NULL, c', idx, st) \/
     fst (lookup_result table name idx st) <> NULL /\
     cache_lookup_loop hooks drain_fuel n i table name hash c idx st =
       Some (fst (lookup_result table name idx st), c', idx, snd (lookup_result table name idx st))).
Proof.
  intros T Hn Hlk. induction n as [|n IH]; intros i c Hc; [exists c; split; [done|by left]|]. cbn [cache_lookup_loop].
  destruct (thread_port_cache_entry_in_use c i); cbn [negb]; [|by apply IH].
  destruct (name_hash (entry c i) =? hash); cbn [negb]; [|by apply IH].
  destruct (resolve_effect table idx st name (mk_token (c_row_index (entry c i)) (c_row_gen (entry c i))) T Hn Hlk) as [->| ->].
  - cbn [mbind option_bind Z.eqb NULL]. apply IH. by apply evict_ok.
  - destruct (lookup_result table name idx st) as [p st'] eqn:E. cbn [mbind option_bind fst snd]. destruct (Z.eqb_spec p NULL) as [->|Hp].
    + assert (st' = st) as ->.
      { unfold lookup_result in E. destruct (fst (name_index_search (tops table st) idx name) =? NULL) eqn:Ez; [congruence|].
        destruct (_ =? REND_SUCCESS); [|congruence]. apply Z.eqb_neq in Ez. congruence. }
      apply IH. by apply evict_ok.
    + exists (thread_port_cache_touch_lru c i). split; [by apply touch_ok|]. right. by split.
Qed.

Lemma cache_effect table idx st name c : table_ok hooks drain_fuel table idx st -> cstr_ok name -> lock idx = false -> cache_ok c ->
  exists c', cache_ok c' /\
    (thread_port_cache_lookup hooks drain_fuel table name c idx st = Some (NULL, c', idx, st) \/
     fst (lookup_result table name idx st) <> NULL /\
     thread_port_cache_lookup hooks drain_fuel table name c idx st =
       Some (fst (lookup_result table name idx st), c', idx, snd (lookup_result table name idx st))).
Proof. intros T Hn Hlk Hc. unfold thread_port_cache_lookup. generalize (thread_port_name_hash (Some name)) THREAD_MAX_KNOWN_PORTS 0%nat. intros h n i. by apply loop_effect. Qed.

(** C36 (equivalence): looking a name up through the cache of a thread gives the
    same port, the same index and the same state, reference included, as
    looking it up in the port table, whatever the cache holds: stale tokens,
    tokens of reused rows, colliding hashes.  The count of the cache stays the
    number of its entries, and a port that had to be fetched from the table is
    cached under its name with the token of its row. *)
Theorem port_cache_is_transparent table idx st name self c : table_ok hooks drain_fuel table idx st -> cstr_ok name -> lock idx = false ->
  self <> NULL -> cache_ok c -> row_cap idx < NAME_INDEX_ROW_INDEX_INVALID ->
  exists p st' c', port_table_lookup hooks drain_fuel table (Some name) idx st = Some (p, idx, st') /\
    thread_lookup_port hooks drain_fuel table self (Some name) c idx st = Some (p, c', idx, st') /\ cache_ok c' /\
    (p = NULL -> st' = st) /\
    (p <> NULL -> (exists px, ports st !! p = Some px /\ in_table table px /\ same_name (p_name px) name) /\ st' = held_port p st /\
       (fst <$> (fst <$> (fst <$> thread_port_cache_lookup hooks drain_fuel table name c idx st)) = Some NULL ->
        exists r, row_value idx r = Some p /\ cached c' name (token_of idx r))).
Proof.
  intros T Hn Hlk Hself Hc Hcap. pose proof (fun tok => table_lookup_effect table idx st name tok T Hn Hlk) as Hl.
  pose proof (search_table hooks drain_fuel table idx st name T Hn) as Hs.
  destruct (cache_effect table idx st name c T Hn Hlk Hc) as (c1 & Hc1 & Hloop).
  assert (Hres : let '(p, st') := lookup_result table name idx st in (p = NULL -> st' = st) /\
    (p <> NULL -> p = fst (name_index_search (tops table st) idx name) /\ st' = held_port p st)).
  { unfold lookup_result. destruct (Z.eqb_spec (fst (name_index_search (tops table st) idx name)) NULL) as [|Hv]; [by split|]. by destruct (_ =? REND_SUCCESS). }
  unfold thread_lookup_port. destruct (Z.eqb_spec self NULL); [done|]. destruct (Z.eqb_spec table NULL) as [Et|]; [by destruct (to_table _ _ _ _ _ T)|]. cbn [orb].
  unfold port_table_lookup. pose proof (Hl (mk_token 0 0)) as Hl0. specialize (Hl (name_index_token_invalidate (mk_token 0 0))).
  destruct (name_index_search (tops table st) idx name) as [v r] eqn:E. cbn [fst] in *.
  destruct (lookup_result table name idx st) as [p st'] eqn:Er. cbn [fst snd] in *. destruct Hl0 as [Hl0 _]. destruct Hl as [Hl Hrow].
  rewrite Hl0. cbn [mbind option_bind]. destruct Hres as [Hres1 Hres2].
  assert (Hport : p <> NULL -> exists px, ports st !! p = Some px /\ in_table table px /\ same_name (p_name px) name).
  { intros Hp. destruct (Hres2 Hp) as [-> _]. destruct Hs as [(_ & _ & _ & px & H1 & H2 & H3)|(-> & _)]; [by exists px|done]. }
  destruct Hloop as [Hloop|[Hp Hloop]]; rewrite Hloop; cbn [mbind option_bind].
  - cbn [Z.eqb NULL negb]. rewrite Hl. cbn [mbind option_bind]. destruct (Z.eqb_spec p NULL) as [->|Hp].
    + exists NULL, st', c1. split; [done|]. rewrite Hres1 by done. split; [done|]. split; [done|]. split; [done|]. intros Hp. by destruct Hp.
    + destruct (Hres2 Hp) as [-> Hst]. destruct (Z.eqb_spec v NULL); [done|]. destruct (Hrow Hp) as [Hr Hrv].
      assert (Hvt : valid_token (token_of idx r)).
      { unfold valid_token, token_of. cbn [row_index]. unfold NAME_INDEX_ROW_INDEX_INVALID in *. change (u32 (-1)) with 4294967295 in *. rewrite u32_small by lia. lia. }
      destruct (record_effect c1 name (token_of idx r) Hc1 Hvt) as [Hok Hcd].
      exists v, st', (thread_port_cache_record c1 (Some name) (Some (token_of idx r))). split; [done|]. split; [done|]. split; [done|]. split; [done|].
      intros _. split; [by apply Hport|]. split; [done|]. intros _. exists r. by split.
  - destruct (Z.eqb_spec p NULL); [done|]. cbn [negb]. exists p, st', c1. split; [done|]. split; [done|]. split; [done|]. split; [done|].
    intros _. split; [by apply Hport|]. split; [by apply Hres2|]. cbn. by intros [= ->].
Qed.
End Lookup.

(** ** Making room *)

(** [stamp i]: the value of the 64-bit clock when entry [i] was used last *)
Record stamped (stamp : nat -> Z) (c : thread_port_cache) : Prop := {
  sp_full : forall i, (i < THREAD_MAX_KNOWN_PORTS)%nat -> thread_port_cache_entry_in_use c i = true;
  sp_age : forall i, (i < THREAD_MAX_KNOWN_PORTS)%nat -> lru_counter (entry c i) = u16 (stamp i) /\ lru_clock c - 65536 < stamp i <= lru_clock c;
  sp_clock : 0 <= lru_clock c < 2 ^ 64 - 1
}.

Lemma oldest_max c cur n : forall i best l j, oldest_entry n i c cur best l = Some j ->
  (forall k, l = Some k -> best = u16 (cur - lru_counter (entry c k))) ->
  (forall k, (i <= k < i + n)%nat -> thread_port_cache_entry_in_use c k = true -> u16 (cur - lru_counter (entry c k)) <= u16 (cur - lru_counter (entry c j))) /\
  (l <> None -> best <= u16 (cur - lru_counter (entry c j))) /\ (l = Some j \/ (i <= j < i + n)%nat).
Proof.
  induction n as [|n IH]; intros i best l j; cbn [oldest_entry].
  - intros -> Hb. split; [intros k Hk; lia|]. split; [intros _; rewrite (Hb j eq_refl); lia|by left].
  - destruct (thread_port_cache_entry_in_use c i) eqn:E; cbn [negb].
    2: { intros H Hb. destruct (IH _ _ _ _ H Hb) as (H1 & H2 & H3). split; [|split; [done|destruct H3; [by left|right; lia]]].
      intros k Hk Hu. destruct (decide (k = i)) as [->|]; [congruence|]. apply H1; [lia|done]. }
    set (age := u16 (cur - lru_counter (entry c i))).
    destruct (match l with None => true | Some _ => best <? age end) eqn:Em; intros H Hb.
    + destruct (IH _ _ _ _ H) as (H1 & H2 & H3); [by intros k [= <-]|]. specialize (H2 ltac:(done)). split; [|split].
      * intros k Hk Hu. destruct (decide (k = i)) as [->|]; [exact H2|]. apply H1; [lia|done].
      * intros Hl. destruct l; [|done]. apply Z.ltb_lt in Em. lia.
      * right. destruct H3 as [[= <-]|]; lia.
    + destruct l as [k0|]; [|done]. apply Z.ltb_ge in Em. destruct (IH _ _ _ _ H Hb) as (H1 & H2 & H3). specialize (H2 ltac:(done)).
      split; [|split; [done|destruct H3; [by left|right; lia]]]. intros k Hk Hu. destruct (decide (k = i)) as [->|]; [fold age; lia|]. apply H1; [lia|done].
Qed.


(** ** Concrete lookups *)

Lemma port_cache_witness : exists p st' c',
  port_table_lookup no_hooks 4 TABLE (Some [112]) demo_table_one demo_registered = Some (p, demo_table_one, st') /\
  thread_lookup_port no_hooks 4 TABLE 1 (Some [112]) thread_port_cache_init demo_table_one demo_registered = Some (p, c', demo_table_one, st') /\ cache_ok c'.
Proof.
  assert (Hc : cache_ok thread_port_cache_init) by (split; reflexivity).
  assert (Hlk : lock demo_table_one = false) by (vm_compute; reflexivity).
  assert (Hcap : row_cap demo_table_one < NAME_INDEX_ROW_INDEX_INVALID) by (vm_compute; reflexivity).
  destruct (port_cache_is_transparent no_hooks 4 TABLE demo_table_one demo_registered [112] 1 thread_port_cache_init demo_table_one_ok (proj1 fresh_port_name_ok)
    Hlk ltac:(discriminate) Hc Hcap) as (p & st' & c' & H1 & H2 & H3 & _).
  exists p, st', c'. exact (conj H1 (conj H2 H3)).
Defined.

Definition sixteen : thread_port_cache :=
  fold_left (fun c i => thread_port_cache_record c (Some [Z.of_nat i + 97]) (Some (mk_token (Z.of_nat i) 1))) (seq 0 16) thread_port_cache_init.
Definition sixteen_used : nat -> Z := fun i => Z.of_nat i + 2.
Lemma sixteen_stamped : stamped sixteen_used sixteen.
Proof.
  split.
  - intros i Hi. do 16 (destruct i as [|i]; [vm_compute; reflexivity|]). unfold THREAD_MAX_KNOWN_PORTS in Hi. lia.
  - intros i Hi. do 16 (destruct i as [|i]; [vm_compute; by repeat split|]). unfold THREAD_MAX_KNOWN_PORTS in Hi. lia.
  - vm_compute. by split.
Qed.
